(* ===== verification/_CoqProject ===== *)
-Q . S2P
Prelude.v
Algorithms.v
IoAddress.v
AddrUtilities.v
PdExclude.v
DnsName.v
NameWire.v
Option4ClientFqdn.v
D2ClientMgr.v
Pool.v
Subnet.v
SharedNetwork.v
IterativeAllocator.v
StatsMgr.v
Lease.v
Lease6.v
Packet.v
OptionSpace.v
InputBuffer.v
OptionTypes.v
OptionDef.v
StdOptionDefs.v
Option6ClientFqdn.v
OptionWire.v
OptionWireSafe.v
OptionPack.v
OptionRoundTrip.v
OptionRoundTrip6.v
Pkt6Wire.v
Pkt6RoundTrip.v
CfgOption.v
CfgSubnets.v
Token.v
Eval.v
ClientClass.v
Classify.v
LeaseMgr.v
Host.v
CfgHosts.v
CsvLeaseFile4.v
LeaseStorage.v
MemfileLeaseMgr.v
CsvLeaseFile6.v
MemfileLeaseMgr6.v
Lfc.v
EngineHeap.v
AllocEngine4.v
AllocEngine4Safety.v
AllocEngine4Correct.v
AllocEngine4Functional.v
AllocEngine4Findings.v
Reclamation.v
LeaseStats.v
AllocEngine6.v
AllocEngine6Safety.v
AllocEngine6Correct.v
AllocEngine6Findings.v
Dhcpv4Msg.v
Pkt4Wire.v
Dhcpv4Srv.v
Dhcpv4Return.v
Dhcpv4Steps.v
Dhcpv4Options.v
Dhcpv4Safety.v
Dhcpv4Correct.v
StateModel.v
D2Cfg.v
NcTrans.v
NcAdd.v
NcRemove.v
NcSpec.v
NcRefine.v
NcProtocols.v
NcCorrect.v
NcDns.v
D2QueueMgr.v
D2UpdateMgr.v
D2Process.v
D2Correct.v
Dhcpv4Findings.v
