(* ===== verification/Prelude.v ===== *)
(** * A verification library for the Kea DHCP servers

    Kea is a set of servers that hand out IP addresses (DHCPv4, DHCPv6) and keep the
    DNS up to date about them (the DHCP-DDNS server, D2).  This library models the parts
    of its sources that decide: how addresses are chosen, leased, stored, expired and
    reclaimed, and how the DNS is updated.  Paths such as [src/lib/dhcpsrv/pool.cc] are
    relative to the directory of the sources that holds [src/bin] and [src/lib].

    ** How to read it

    A definition has the name of the function, method or type it models, with members of
    objects as fields of records ending in an underscore.  Code that can throw returns
    [res A], a value or one of the exceptions [exc]; code that also changes state is
    [ST S A], a state-passing computation in which an exception keeps the changes made
    before it, as in C++ ([try_catch] is [catch (const isc::Exception&)]).  Undefined
    behaviour (following a null pointer, a callback to an object that is gone) is
    the exception [AssertionFailure] and a loop that exceeds its bound is [OutOfFuel];
    nothing catches either, so that a theorem that a function returns also shows that
    neither happens.  Integers have the width of the source where it matters ([u8],
    [u32], bytes, 128-bit addresses).  Log messages, texts of exceptions, user contexts
    and conversions to JSON are left out throughout (the column of
    the user context in a lease file is written empty).

    Each component file opens with what it models, states its operations first and its
    theorems after them.  A theorem numbered C<n> is one of the properties of the
    library, and its comment gives every condition it has; a lemma of the same name ending
    in [_witness] applies it to a concrete case.  The other theorems that stand on their own show where the code departs from
    its documentation.

    ** The parts

    _Addresses, pools, subnets._  [IoAddress] and [AddrUtilities] have the arithmetic
    of addresses and prefixes ([src/lib/asiolink/io_address.cc],
    [src/lib/dhcpsrv/addr_utilities.cc]); [Pool], [Subnet] and [SharedNetwork] the objects
    of the configuration that addresses are taken from ([pool.cc], [subnet.cc],
    [shared_network.cc] in [src/lib/dhcpsrv]); [Algorithms] the functions of the C++
    library they call, [PdExclude] the option with the prefix excluded from a delegated
    one ([src/lib/dhcp/option6_pdexclude.cc]).  Theorems: pools of a subnet stay sorted and
    disjoint, a network and its subnets stay linked, walking over a network visits every
    subnet once, the option survives packing and unpacking.  [CfgSubnets] has the
    containers of subnets and networks of a configuration and the choice of a subnet for a
    message ([cfg_subnets4.cc], [cfg_subnets6.cc]); the choice is proved equal to a list of
    criteria that are tried in order.

    _Leases and reservations._  [Lease] and [Lease6] are the leases, [LeaseMgr] the
    interface of the lease database.  The in-memory backend is the same for both
    families: [LeaseStorage] has a container of leases, the lease file that
    journals it and the loading of the file, [MemfileLeaseMgr] and [MemfileLeaseMgr6] the
    operations of [src/lib/dhcpsrv/memfile_lease_mgr.cc] for IPv4 and IPv6 on top of it,
    [CsvLeaseFile4] and [CsvLeaseFile6] the rows of the files ([csv_lease_file4.cc],
    [csv_lease_file6.cc], [src/lib/util/csv_file.cc]): a row is a line of values with commas
    between them, as the sources write and split it; a host name is the text it is, and
    numbers, addresses, identifiers and hardware addresses are values that stand for their
    text, which has no comma.  [Host] and [CfgHosts] are
    the reservations of the configuration, [StatsMgr] the statistics.  Theorems: the
    in-memory database implements a map from addresses to leases and journals every change
    of it, the file gives the database back when it is loaded, as long as its rows can be
    read; a row survives writing and reading, unless the name in it has a comma or a line
    feed, which the sources do not escape.

    The file grows, and a separate process, kea-lfc, replaces old files by one that
    has a row for each lease.  [Lfc] has the files of both processes, their steps in
    any order, each of which can fail, and the proof that none of it is visible in the
    leases that a server loads, provided that the rows can be read and that no sanity check
    of the server drops leases; it also shows what happens to a server whose file has too
    many rows that cannot be read ([src/bin/lfc], [memfile_lease_mgr.cc],
    [lease_file_loader.h]).  [LeaseStats] has the queries that count leases and the
    recounting of the statistics from them ([lease_mgr.cc]): the statistics become the
    numbers of leases.

    _The allocation engine_ ([src/lib/dhcpsrv/alloc_engine.cc]).  [IterativeAllocator]
    picks candidates; [EngineHeap] has what the engine relies on of the configured
    subnets.  The engine uses the lease database through [LeaseMgr] and the reservations
    through [HostMgr].  DHCPv4: [AllocEngine4] has [allocateLease4] with everything it
    calls, and the reclamation of expired leases; [AllocEngine4Safety] the program logic
    of the engine (what every step preserves); [AllocEngine4Correct] and
    [AllocEngine4Functional] the properties: it never gives away the lease of somebody
    else, as long as no hook library changes the address of a lease it is shown, it ends, an offer changes nothing, and what it answers; [Reclamation] those of
    the reclamation: which leases it reclaims and that the counts of assigned addresses
    stay true.  DHCPv6: [AllocEngine6] has [allocateLeases6] and [renewLeases6] with
    everything they call, and the reclamation; [AllocEngine6Safety] the program logic,
    and [AllocEngine6Correct] the properties: a lease that another client holds
    stays his, as long as no hook library changes whose lease it is shown, the engine ends, where each lease that it answers comes from, and that an
    offer makes no lease.  [AllocEngine4Findings] and [AllocEngine6Findings] are runs
    that go against the comments.

    _Client classes._  The configuration defines classes of clients by expressions over
    packets.  [Packet] has what the code reads of packets ([src/lib/dhcp/pkt.cc], [pkt4.cc],
    [pkt6.cc]), [Token] the stack machine that runs expressions ([src/lib/eval/token.cc]),
    [Eval] the compiler from the grammar to the machine ([parser.yy], [eval_context.cc]),
    [ClientClass] the dictionary of classes and its parser
    ([src/lib/dhcpsrv/client_class_def.cc]), [Classify] the functions of both servers that
    put a packet into its classes.  Theorems: the compiled expression gives what the
    expression means, and always a value; the classes of a configuration refer to each
    other without cycles; the classes of a packet are the built-in ones and those whose
    expressions hold.

    _The DHCPv4 server_ ([src/bin/dhcp4/dhcp4_srv.cc]).  [Dhcpv4Msg] has queries, responses and
    what the configuration gives to the server, [Dhcpv4Srv] the processing of a message from
    the unpacked query to the response that is ready to be packed: classification,
    acceptance, the choice of the subnet, the handlers of the message types with the
    engine's [allocateLease4], the client's name, the options and the addresses of the
    response.  [CfgOption] has the configured options, [D2ClientMgr] the decisions about
    names, [Option4ClientFqdn] the option with the client's name, [DnsName] and [NameWire]
    the names of the DNS library as text and on the wire ([src/lib/dns/name.cc]).
    [Dhcpv4Steps] and [Dhcpv4Safety] are what each step leaves alone and the program logic of
    the server on top of the engine's; [Dhcpv4Correct] has the properties of the whole
    server: the leases of other clients stay, a response fits its message, a DHCPDISCOVER
    changes no lease.  [Dhcpv4Return] has the effect of DHCPRELEASE and DHCPDECLINE,
    [Dhcpv4Options] which configured options are sent and that none is sent twice,
    [Dhcpv4Findings] runs that go against the comments.  The round trips of names and of
    the option with the name are in the files that define them.

    _Packets and options on the wire_ ([src/lib/dhcp]).  [OptionTypes] has the fields of
    options ([option_data_types.cc], [opaque_data_tuple.cc]), [OptionDef] their
    definitions ([option_definition.cc]), [StdOptionDefs] the tables of standard definitions
    ([std_option_defs.h], [docsis3_option_defs.h]), [OptionSpace] the names of option spaces.
    [OptionWire] makes the option objects of a buffer ([libdhcp++.cc] and the classes derived
    from [Option]), [OptionPack] writes them; [Option6ClientFqdn] is the DHCPv6 option with the
    name of the client.  [Pkt4Wire] and [Pkt6Wire] read and write whole messages ([pkt4.cc],
    [pkt6.cc]), for DHCPv6 inside the messages of relays; [InputBuffer] is the buffer they are read
    from ([src/lib/util/buffer.h]).  The model of the rest of the server has its own view of
    a packet ([Packet]); that the objects made here are the ones it reads is not stated.  Theorems:
    whatever bytes are received, reading them ends, stays in the buffer and throws only what the
    servers catch ([OptionWireSafe]; assertions of the sources included); what is packed is read back
    the same ([OptionRoundTrip] and [OptionRoundTrip6] for the options, [Pkt4Wire] and
    [Pkt6RoundTrip] for messages), where the options are values of the standard types, unknown
    options, identity associations and other options that hold options.  [OptionRoundTrip]
    ends with runs in which options are lost or changed.

    _The DHCP-DDNS server._  Requests to change names come in over a socket into the queue
    of [D2QueueMgr]; the main loop ([D2Process]) lets [D2UpdateMgr] take them from there
    and start a transaction for each, with the DNS servers [D2Cfg] finds for it.  A
    transaction is a state machine ([StateModel], [NcTrans]) with the handlers of [NcAdd] or
    [NcRemove], which sends updates to the servers and moves on when they answer.
    ([src/bin/d2], [src/lib/dhcp_ddns], [src/lib/util/state_model.cc].)  [NcSpec] is an
    abstract machine for transactions and [NcRefine] with [NcProtocols] the simulation of
    it by the handlers; [NcCorrect] has the consequences (what a transaction reports is
    what it did; it ends), [NcDns] what the updates do to the zones of servers that
    follow RFC 2136 and have no CNAME record for the name, [D2Correct] the invariant of the server for every order of events, that
    it never fails, whichever calls to the operating system do, and that it serves each
    client in order; it ends with runs that go against the comments, one of them after
    a socket could not be closed.

    ** Interfaces and assumptions

    Code that is not part of the sources is a type class, with laws where the code relies
    on its behaviour: the Boost containers of leases ([LeaseStorage], [SubnetIdIndex]), the conversion of
    text to numbers and addresses ([TextConversions], [AddressText]), the comparison of names
    ([IEquals]), sockets ([SocketEnv]), the DNS library and client ([DnsEnv]), DNS
    servers ([DnsServer], with the laws of RFC 2136), hook libraries ([Hooks], and functions in
    [Dhcpv4Config]); the option definitions of the configuration are a function in the readers of
    options.  Each class has an instance in the witnesses.  Of the calls of the lease database
    the changes and the search for expired leases can fail, with or without having been
    carried out; the other searches return.  The theorems about leases of other clients
    assume of hook libraries ([HooksOk], [HooksOk6]) that they do not change the identity of
    a lease they are shown, which the documentation of the hooks asks for nowhere:
    [callout_overwrites_other_lease] shows what happens otherwise.

    A proof about a computation uses [wp], the weakest precondition of its two outcomes, or
    [preserves R], that every step keeps the relation [R] between the states; [preserve] and
    the hint database [preserves] do the second for code that is put together from proved
    parts.

    ** Bounds

    Loops without an obvious measure take fuel.  The walk over the pools of a subnet and
    over the subnets of a network are given as many steps as there are addresses and
    subnets, which [pickAddress_safe] and [getNextSubnet_classes_spec] show to be enough; a
    transaction runs its handlers with fuel four between two events ([handlers]), which is
    enough by [refines_start] and [refines_completion]; [allocateLease4_ends] and
    [allocateLeases6_ends] cover the engine as a whole.  The readers of options get as much
    fuel as there are bytes, which the totality theorems show to be enough, and a factory may
    be nested as deep as its data are long.  An object that the code
    could change after it has handed it over (a lease added to the database) is modelled as
    a value: a later change of the object by the servers is not seen in the database.  A
    row of a lease file is written as a whole or not at all.

    ** What is not modelled

    The packet processing of the DHCPv6 server ([src/bin/dhcp6]), and of the DHCPv4 server what
    comes before and after [processPacket] works on an unpacked message (sockets, the log, and
    in [processPacket] itself the options whose unpacking was deferred) and
    DHCPv4-over-DHCPv6; requests to D2 over anything but UDP (the sources have no other
    listener); zones with CNAME records; the texts of numbers in lease files; sockets and packet filters of [src/lib/dhcp]; the wire formats of DNS
    messages; the values of options given as text; the SQL and Cassandra backends, whose work is done by other servers; the parsers
    of the configuration, partly generated; the sender of name change requests; the control
    agent, the tools and the infrastructure of logging and I/O. *)

From Stdlib Require Export ZArith Lia.
From stdpp Require Export base tactics numbers option list gmap strings sorting.

#[export] Set Default Proof Using "Type".

(** ** Exceptions and computations that can throw *)

(** The exception classes of the library that the modelled code throws; [DnsError]
    and [SendError] are the exceptions of the DNS library and of [DNSClient].  The last
    two are not thrown by the code: [AssertionFailure] stands for undefined
    behaviour (a null or dangling pointer followed, a position outside a
    container) and [OutOfFuel] for a loop that takes more steps than its bound;
    the theorems show where neither can happen. *)
Inductive exc :=
  | BadValue
  | AllocFailed
  | Unexpected
  | NotImplemented
  | NoSuchLease
  | DuplicateHost
  | ReservedAddress
  | BadHostAddress
  | DuplicateSubnetID
  | InvalidOperation
  | InvalidStatType
  | DuplicateStat
  | InvalidAddressFamily
  | CSVFileError
  | LabeledValueError
  | StateModelError
  | NameChangeTransactionError
  | NameAddTransactionError
  | NameRemoveTransactionError
  | D2UpdateMgrError
  | D2QueueMgrError
  | D2QueueMgrQueueEmpty
  | D2QueueMgrInvalidIndex
  | D2CfgError
  | NcrUDPError
  | NcrListenerError
  | NcrListenerOpenError
  | NcrListenerReceiveError
  | NcrSenderError
  | NcrSenderOpenError
  | NcrSenderQueueFull
  | DProcessBaseError
  | OutOfRange
  | InvalidBufferPosition
  | BadDataTypeCast
  | DbOpenError
  | EvalParseError
  | EvalBadStack
  | EvalTypeError
  | DhcpConfigError
  | DuplicateClientClassDef
  | EmptyLabel
  | TooLongLabel
  | BadLabelType
  | BadEscape
  | TooLongName
  | IncompleteName
  | DNSMessageFORMERR
  | InvalidOption4FqdnFlags
  | InvalidOption4FqdnDomainName
  | InvalidOption6FqdnFlags
  | InvalidOption6FqdnDomainName
  | InvalidOptionValue
  | SkipRemainingOptionsError
  | MalformedOptionDefinition
  | OpaqueDataTupleError
  | RFCViolation
  | IfaceNotFound
  | SocketNotFound
  | DnsError
  | SendError
  | AssertionFailure
  | OutOfFuel.

#[export] Instance exc_eq_dec : EqDecision exc.
Proof. solve_decision. Defined.

(** The result of a call: a value or a thrown exception. *)
Inductive res (A : Type) :=
  | Ok (a : A)
  | Throw (e : exc).
Arguments Ok {A} a.
Arguments Throw {A} e.

#[export] Instance res_eq_dec {A} `{EqDecision A} : EqDecision (res A).
Proof. solve_decision. Defined.

#[export] Instance res_ret : MRet res := @Ok.
#[export] Instance res_bind : MBind res := λ A B f m,
  match m with Ok a => f a | Throw e => Throw e end.
#[export] Instance res_fmap : FMap res := λ A B f m,
  match m with Ok a => Ok (f a) | Throw e => Throw e end.

(** [if (cond) isc_throw(e, ...);] *)
Definition throw_if (cond : bool) (e : exc) : res unit :=
  if cond then Throw e else Ok tt.

Lemma throw_if_Ok {A} b e (k : res A) r :
  (throw_if b e ≫= λ _, k) = Ok r ↔ b = false ∧ k = Ok r.
Proof. destruct b; simpl; split; [done|intros []; done|done|by intros []]. Qed.

Lemma res_bind_Ok {A B} (m : res A) (f : A → res B) r :
  (m ≫= f) = Ok r ↔ ∃ a, m = Ok a ∧ f a = Ok r.
Proof.
  destruct m; simpl; split; [by eauto|by intros (? & [= <-] & ?)|done|by intros (? & ? & ?)].
Qed.

(** Splits an equation between a sequence of calls and a value. *)
Ltac res_inv :=
  repeat match goal with
  | H : (throw_if _ _ ≫= _) = Ok _ |- _ =>
      apply throw_if_Ok in H; let H' := fresh "Hg" in destruct H as [H' H]
  | H : (_ ≫= _) = Ok _ |- _ =>
      apply res_bind_Ok in H; let a := fresh "a" in let H' := fresh "Ha" in
      destruct H as (a & H' & H)
  | H : mret _ = Ok _ |- _ => injection H as <-
  | H : Ok _ = Ok _ |- _ => injection H as <-
  | H : Throw _ = Ok _ |- _ => discriminate H
  end.

(** A computation over a mutable state: the state is kept when the
    computation throws, as it is in the C++ code. *)
Definition ST (S A : Type) : Type := S → S * res A.

#[export] Instance ST_ret {S} : MRet (ST S) := λ A a s, (s, Ok a).
#[export] Instance ST_bind {S} : MBind (ST S) := λ A B f m s,
  match m s with
  | (s', Ok a) => f a s'
  | (s', Throw e) => (s', Throw e)
  end.
#[export] Instance ST_fmap {S} : FMap (ST S) := λ A B f m s,
  match m s with
  | (s', Ok a) => (s', Ok (f a))
  | (s', Throw e) => (s', Throw e)
  end.

Definition get {S} : ST S S := λ s, (s, Ok s).
Definition put {S} (s : S) : ST S unit := λ _, (s, Ok tt).
Definition modify {S} (f : S → S) : ST S unit := λ s, (f s, Ok tt).
Definition throw {S A} (e : exc) : ST S A := λ s, (s, Throw e).
Definition lift {S A} (r : res A) : ST S A := λ s, (s, r).

(** What a computation does when its first step returns. *)
Section Run.
Context {S A B : Type}.

Lemma run_bind (m : ST S A) (f : A → ST S B) s s' a :
  m s = (s', Ok a) → (m ≫= f) s = f a s'.
Proof. unfold mbind, ST_bind. by intros ->. Qed.

Lemma run_fmap (m : ST S A) (f : A → B) s s' a :
  m s = (s', Ok a) → (f <$> m) s = (s', Ok (f a)).
Proof. unfold fmap, ST_fmap. by intros ->. Qed.
End Run.

(** A computation on a component of the state. *)
Definition zoom {S T A} (get : S → T) (set : T → S → S) (m : ST T A) : ST S A := λ s,
  match m (get s) with (t, r) => (set t s, r) end.

(** [try { m } catch (const isc::Exception&) { h }]; what stands for undefined
    behaviour or for a bound of the model is not caught. *)
Definition catchable (e : exc) : bool :=
  negb (bool_decide (e = AssertionFailure)) && negb (bool_decide (e = OutOfFuel)).
Definition try_catch {S A} (m : ST S A) (h : ST S A) : ST S A := λ s,
  match m s with
  | (s', Throw e) => if catchable e then h s' else (s', Throw e)
  | r => r
  end.

(** ** Weakest preconditions

    [wp m s Q E]: run from [s], the computation [m] returns a value and a state
    that satisfy [Q], or throws in a state that satisfies [E]. *)

Definition wp {S A} (m : ST S A) (s : S) (Q : A → S → Prop) (E : exc → S → Prop) : Prop :=
  match m s with
  | (s', Ok a) => Q a s'
  | (s', Throw e) => E e s'
  end.

Section WP.
Context {S A B : Type}.
Implicit Types (s : S) (E : exc → S → Prop).

Lemma wp_ret (a : A) s (Q : A → S → Prop) E : Q a s → wp (mret a) s Q E.
Proof. done. Qed.
Lemma wp_throw e s (Q : A → S → Prop) E : E e s → wp (throw e) s Q E.
Proof. done. Qed.
Lemma wp_get s (Q : S → S → Prop) E : Q s s → wp get s Q E.
Proof. done. Qed.
Lemma wp_modify f s (Q : unit → S → Prop) E : Q tt (f s) → wp (modify f) s Q E.
Proof. done. Qed.
Lemma wp_lift (r : res A) s (Q : A → S → Prop) E :
  match r with Ok a => Q a s | Throw e => E e s end → wp (lift r) s Q E.
Proof. by destruct r. Qed.
Lemma wp_bind (m : ST S A) (f : A → ST S B) s Q E :
  wp m s (λ a s', wp (f a) s' Q E) E → wp (m ≫= f) s Q E.
Proof. unfold wp, mbind, ST_bind. by destruct (m s) as [s' []]. Qed.
Lemma wp_fmap (m : ST S A) (f : A → B) s Q E :
  wp m s (λ a, Q (f a)) E → wp (f <$> m) s Q E.
Proof. unfold wp, fmap, ST_fmap. by destruct (m s) as [s' []]. Qed.
Lemma wp_mono (m : ST S A) s (Q Q' : A → S → Prop) E E' :
  wp m s Q E → (∀ a s', Q a s' → Q' a s') → (∀ e s', E e s' → E' e s') → wp m s Q' E'.
Proof. unfold wp. destruct (m s) as [s' []]; auto. Qed.
Lemma wp_try_catch (m h : ST S A) s Q E :
  wp m s Q (λ e s', if catchable e then wp h s' Q E else E e s') → wp (try_catch m h) s Q E.
Proof.
  unfold wp, try_catch. destruct (m s) as [s' [a|e]]; [done|]. by destruct (catchable e).
Qed.
Lemma wp_zoom {T} g (u : T → S → S) (m : ST T A) s (Q : A → S → Prop) E :
  wp m (g s) (λ a t, Q a (u t s)) (λ e t, E e (u t s)) → wp (zoom g u m) s Q E.
Proof. unfold wp, zoom. by destruct (m (g s)) as [t []]. Qed.
End WP.

(** ** Relations between states

    [m] relates the states before and after it by [R], whether it returns or throws. *)

Definition preserves {S A} (R : relation S) (m : ST S A) : Prop := ∀ s, R s (m s).1.

Section Preserves.
Context {S : Type} (R : relation S) `{!PreOrder R}.

Lemma preserves_ret {A} (a : A) : preserves R (mret a : ST S A).
Proof using All. intros s. reflexivity. Qed.
Lemma preserves_throw {A} e : preserves R (throw e : ST S A).
Proof using All. intros s. reflexivity. Qed.
Lemma preserves_lift {A} (r : res A) : preserves R (lift r).
Proof using All. intros s. reflexivity. Qed.
Lemma preserves_get : preserves R get.
Proof using All. intros s. reflexivity. Qed.
Lemma preserves_modify (f : S → S) : (∀ s, R s (f s)) → preserves R (modify f).
Proof. intros Hf s. apply Hf. Qed.
Lemma preserves_bind {A B} (m : ST S A) (f : A → ST S B) :
  preserves R m → (∀ a, preserves R (f a)) → preserves R (m ≫= f).
Proof using All.
  intros Hm Hf s. specialize (Hm s). unfold mbind, ST_bind. destruct (m s) as [s' [a|e]]; [|done].
  etrans; [exact Hm|apply Hf].
Qed.
Lemma preserves_fmap {A B} (m : ST S A) (f : A → B) : preserves R m → preserves R (f <$> m).
Proof. intros Hm s. specialize (Hm s). unfold fmap, ST_fmap. by destruct (m s) as [s' []]. Qed.
Lemma preserves_try_catch {A} (m h : ST S A) :
  preserves R m → preserves R h → preserves R (try_catch m h).
Proof using All.
  intros Hm Hh s. specialize (Hm s). unfold try_catch. destruct (m s) as [s' [a|e]]; [done|].
  destruct (catchable e); [|done]. etrans; [exact Hm|apply Hh].
Qed.
Lemma preserves_zoom {T A} (R' : relation T) g u (m : ST T A) :
  preserves R' m → (∀ s t, R' (g s) t → R s (u t s)) → preserves R (zoom g u m).
Proof.
  intros Hm Hu s. specialize (Hm (g s)). unfold zoom. destruct (m (g s)) as [t r]. by apply Hu.
Qed.
Lemma preserves_mono (R' : relation S) {A} (m : ST S A) :
  preserves R' m → (∀ s s', R' s s' → R s s') → preserves R m.
Proof. intros Hm HR s. apply HR, Hm. Qed.
Lemma preserves_wp {A} (m : ST S A) s :
  preserves R m → wp m s (λ _ s', R s s') (λ _ s', R s s').
Proof. intros Hm. specialize (Hm s). unfold wp. by destruct (m s) as [s' []]. Qed.
End Preserves.

(** The computation only looks at the state. *)
Abbreviation observes := (preserves eq).

(** [preserve] follows the structure of a computation; the leaves are lemmas of the hint
    database [preserves]. *)
Create HintDb preserves discriminated.
Ltac preserve :=
  repeat first
    [ progress intros
    | solve [eauto 2 with preserves nocore]
    | apply (preserves_ret _) | apply (preserves_throw _) | apply (preserves_lift _)
    | apply (preserves_get _) | apply (preserves_bind _) | apply (preserves_fmap _)
    | apply (preserves_try_catch _)
    | match goal with |- preserves _ (match ?x with _ => _ end) => destruct x end ].

(** The library's hints for [auto]/[eauto]. *)
Create HintDb kea discriminated.

Lemma string_length_app (a b : string) :
  String.length (a +:+ b) = (String.length a + String.length b)%nat.
Proof. induction a as [|c a IH]; simpl; by rewrite ?IH. Qed.

(** ** Machine integers *)

Definition u8 (z : Z) : Z := z `mod` 256.
Definition u32 (z : Z) : Z := z `mod` 2^32.
Definition u64_max : Z := 2^64 - 1.
(** Bitwise complement of an unsigned integer of [w] bits. *)
Definition unot (w : Z) (z : Z) : Z := Z.lnot z `mod` 2^w.

(** Equality of integers, bit by bit. *)
Ltac zbits :=
  apply Z.bits_inj'; let n := fresh "n" in let Hn := fresh "Hn" in intros n Hn;
  rewrite ?Z.land_spec, ?Z.lor_spec, ?Z.ldiff_spec, ?Z.lxor_spec, ?Z.testbit_0_l;
  rewrite ?Z.land_spec, ?Z.lor_spec, ?Z.ldiff_spec, ?Z.lxor_spec, ?Z.testbit_0_l;
  repeat match goal with |- context [Z.testbit ?a ?i] => destruct (Z.testbit a i) end;
  try reflexivity.

(** A check over every integer of an interval, by evaluation. *)
Lemma forallb_seqZ (P : Z → bool) (m n : Z) :
  forallb P (seqZ m n) = true → ∀ k, (m ≤ k < m + n)%Z → P k = true.
Proof.
  intros H k Hk. rewrite List.forallb_forall in H.
  apply H, list_elem_of_In, elem_of_seqZ, Hk.
Qed.

Lemma existsb_elem_of {A} (f : A → bool) l :
  existsb f l = true ↔ ∃ x, x ∈ l ∧ f x = true.
Proof. rewrite existsb_exists. by setoid_rewrite list_elem_of_In. Qed.

Definition is_byte (b : Z) : Prop := (0 ≤ b < 256)%Z.

(** ** Big-endian byte strings *)

Section BigEndian.
Local Open Scope Z_scope.

Fixpoint be_combine (l : list Z) : Z :=
  match l with
  | [] => 0
  | b :: l' => b * 256 ^ Z.of_nat (length l') + be_combine l'
  end.

Fixpoint be_split (n : nat) (z : Z) : list Z :=
  match n with
  | O => []
  | S n' => (z `div` 256 ^ Z.of_nat n') `mod` 256 :: be_split n' z
  end.

Lemma pow256_pos n : 0 < 256 ^ Z.of_nat n.
Proof. apply Z.pow_pos_nonneg; lia. Qed.

Lemma pow256_succ n : 256 ^ Z.of_nat (S n) = 256 * 256 ^ Z.of_nat n.
Proof. rewrite Nat2Z.inj_succ, Z.pow_succ_r; lia. Qed.

Lemma pow256_pow2 n : 256 ^ Z.of_nat n = 2 ^ (8 * Z.of_nat n).
Proof. rewrite Z.pow_mul_r by lia. reflexivity. Qed.

Lemma length_be_split n z : length (be_split n z) = n.
Proof. induction n; simpl; auto. Qed.

Lemma be_split_bytes n z : Forall is_byte (be_split n z).
Proof.
  induction n; simpl; constructor; auto.
  apply Z.mod_pos_bound. lia.
Qed.

Lemma be_combine_bound l :
  Forall is_byte l → 0 ≤ be_combine l < 256 ^ Z.of_nat (length l).
Proof.
  induction 1 as [|b l [??] ? IH]; cbn [be_combine length]; [lia|].
  rewrite pow256_succ. pose proof (pow256_pos (length l)). nia.
Qed.

Lemma be_combine_app l1 l2 :
  be_combine (l1 ++ l2)
  = be_combine l1 * 256 ^ Z.of_nat (length l2) + be_combine l2.
Proof.
  induction l1 as [|b l1 IH]; cbn [be_combine app]; [lia|].
  rewrite IH, length_app, Nat2Z.inj_add, Z.pow_add_r by lia. ring.
Qed.

Lemma be_combine_split n z : be_combine (be_split n z) = z `mod` 256 ^ Z.of_nat n.
Proof.
  induction n as [|n IH]; cbn [be_combine be_split]; [by rewrite Z.mod_1_r|].
  rewrite IH, length_be_split, pow256_succ, (Z.mul_comm 256).
  rewrite Z.rem_mul_r by (pose proof (pow256_pos n); lia). ring.
Qed.

Lemma be_combine_inj l1 l2 :
  Forall is_byte l1 → Forall is_byte l2 → length l1 = length l2 →
  be_combine l1 = be_combine l2 → l1 = l2.
Proof.
  intros H1. revert l2. induction H1 as [|b1 l1 B1 H1 IH]; intros l2 H2 Hlen Heq.
  { by destruct l2. }
  destruct l2 as [|b2 l2]; [done|]. inversion H2 as [|?? B2 H2']; subst.
  cbn [be_combine length] in *. injection Hlen as Hlen.
  pose proof (be_combine_bound _ H1). pose proof (be_combine_bound _ H2').
  rewrite Hlen in *. pose proof (pow256_pos (length l2)).
  assert (b1 = b2) as -> by nia. f_equal. apply IH; auto. lia.
Qed.

Lemma be_split_combine l :
  Forall is_byte l → be_split (length l) (be_combine l) = l.
Proof.
  intros Hl. apply be_combine_inj; auto using be_split_bytes, length_be_split.
  rewrite be_combine_split. apply Z.mod_small, be_combine_bound, Hl.
Qed.

Lemma be_combine_replicate0 n : be_combine (replicate n 0) = 0.
Proof. induction n as [|n IH]; cbn [be_combine replicate]; rewrite ?IH; lia. Qed.

Lemma be_combine_replicate255 n :
  be_combine (replicate n 255) = 256 ^ Z.of_nat n - 1.
Proof.
  induction n as [|n IH]; cbn [be_combine replicate]; [done|].
  rewrite IH, length_replicate, pow256_succ. lia.
Qed.
End BigEndian.
