(* ===== verification/Algorithms.v ===== *)
(** * The standard algorithms the sources call

    [std::upper_bound] as the binary search of the C++ library, with its
    specification on partitioned sequences, and [std::sort] on keys that are
    pairwise different, where every sorting algorithm gives the same result. *)

From S2P Require Import Prelude.

(** [*it] at position [i]; outside the sequence the behaviour is undefined,
    which the model answers with [AssertionFailure]. *)
Definition deref {A} (l : list A) (i : nat) : res A :=
  match l !! i with Some x => Ok x | None => Throw AssertionFailure end.

Section UpperBound.
Context {A : Type} (comp : A → bool).

(** The loop of [std::upper_bound]: [first] is the position reached, [len]
    the length of the part still searched; [fuel] bounds the iterations. *)
Fixpoint upper_bound_loop (fuel : nat) (l : list A) (first len : nat) : nat :=
  match fuel with
  | O => first
  | S fuel' =>
      if (len =? 0)%nat then first
      else
        let half := (len / 2)%nat in
        match l !! (first + half)%nat with
        | None => first
        | Some middle =>
            if comp middle then upper_bound_loop fuel' l first half
            else upper_bound_loop fuel' l (first + half + 1) (len - half - 1)
        end
  end.

Definition upper_bound (l : list A) : nat :=
  upper_bound_loop (length l) l 0 (length l).

(** The elements for which [comp] holds come last. *)
Definition partitioned (l : list A) : Prop :=
  ∀ i j x y, l !! i = Some x → l !! j = Some y → (i ≤ j)%nat →
    comp x = true → comp y = true.

Definition partition_point (l : list A) (n : nat) : Prop :=
  (n ≤ length l)%nat ∧
  ∀ i x, l !! i = Some x → comp x = true ↔ (n ≤ i)%nat.

Lemma upper_bound_loop_spec fuel l first len :
  partitioned l → (len ≤ fuel)%nat → (first + len ≤ length l)%nat →
  (∀ i x, l !! i = Some x → (i < first)%nat → comp x = false) →
  (∀ i x, l !! i = Some x → (first + len ≤ i)%nat → comp x = true) →
  partition_point l (upper_bound_loop fuel l first len).
Proof.
  intros Hp. revert first len.
  induction fuel as [|fuel IH]; intros first len Hfuel Hlen Hlo Hhi.
  { assert (len = 0)%nat as -> by lia. cbn [upper_bound_loop]. split; [lia|].
    intros i x Hi. split; [|intros; apply (Hhi i x Hi); lia].
    intros Hc. destruct (decide (first ≤ i)%nat); [done|].
    rewrite (Hlo i x Hi) in Hc by lia. done. }
  cbn [upper_bound_loop]. destruct (Nat.eqb_spec len 0) as [->|Hne].
  { split; [lia|]. intros i x Hi. split; [|intros; apply (Hhi i x Hi); lia].
    intros Hc. destruct (decide (first ≤ i)%nat); [done|].
    rewrite (Hlo i x Hi) in Hc by lia. done. }
  assert (len / 2 < len)%nat as Hhalf by (apply Nat.div_lt; lia).
  destruct (lookup_lt_is_Some_2 l (first + len / 2)) as [m Hm]; [lia|].
  rewrite Hm. destruct (comp m) eqn:Em.
  - apply IH; [lia|lia|done|]. intros i x Hi Hle. by apply (Hp _ _ _ _ Hm Hi).
  - apply IH; [lia|lia| |].
    + intros i x Hi Hlt. destruct (comp x) eqn:Ex; [|done].
      rewrite <- Em. symmetry. apply (Hp i _ x m Hi Hm); [lia|done].
    + intros i x Hi Hle. apply (Hhi i x Hi). lia.
Qed.

Lemma upper_bound_spec l : partitioned l → partition_point l (upper_bound l).
Proof.
  intros Hp. apply upper_bound_loop_spec; [done|lia|lia| |].
  - intros; lia.
  - intros i x Hi%lookup_lt_Some. lia.
Qed.

Lemma partition_point_unique l n m :
  partition_point l n → partition_point l m → n = m.
Proof.
  intros [Hn Hn'] [Hm Hm']. destruct (Nat.lt_trichotomy n m) as [H|[H|H]]; [|done|].
  - destruct (lookup_lt_is_Some_2 l n) as [x Hx]; [lia|].
    pose proof (proj2 (Hn' _ _ Hx)) as E. apply (Hm' _ _ Hx) in E; lia.
  - destruct (lookup_lt_is_Some_2 l m) as [x Hx]; [lia|].
    pose proof (proj2 (Hm' _ _ Hx)) as E. apply (Hn' _ _ Hx) in E; lia.
Qed.
End UpperBound.

(** [std::sort] of a sequence to which one element was appended at the end. *)
Section Sort.
Context {A : Type} (R : relation A) `{∀ x y, Decision (R x y)}.

Definition std_sort (l : list A) : list A := merge_sort R l.

Lemma std_sort_perm l : std_sort l ≡ₚ l.
Proof. apply merge_sort_Permutation. Qed.

Lemma std_sort_sorted `{!Transitive R, !Total R} l : StronglySorted R (std_sort l).
Proof. apply StronglySorted_merge_sort; apply _. Qed.
End Sort.

(** For a symmetric relation, being sorted is a property of all pairs, which
    does not depend on the order of the list. *)
Lemma StronglySorted_sym_perm {A} (R : relation A) `{!Symmetric R} l l' :
  l ≡ₚ l' → StronglySorted R l → StronglySorted R l'.
Proof.
  induction 1 as [|x l l' Hp IH|x y l|l1 l2 l3 ? IH1 ? IH2]; intros Hs; auto.
  - apply StronglySorted_inv in Hs as [Hs Hx]. constructor; [by apply IH|]. by rewrite <- Hp.
  - apply StronglySorted_inv in Hs as [[Hs Hx]%StronglySorted_inv Hy].
    inversion Hy; subst. repeat constructor; auto.
Qed.

Lemma StronglySorted_combine {A} (R1 R2 R : relation A) (P : A → Prop) l :
  Forall P l → StronglySorted R1 l → StronglySorted R2 l →
  (∀ x y, P x → P y → R1 x y → R2 x y → R x y) → StronglySorted R l.
Proof.
  intros HP H1 H2 HR. induction H1 as [|x l H1 IH Hx]; [constructor|].
  apply StronglySorted_inv in H2 as [H2 Hx2]. inversion HP as [|?? Px HPl]; subst.
  constructor; [by apply IH|]. rewrite Forall_forall in *. naive_solver.
Qed.

Lemma filter_none {A} (P : A → Prop) `{∀ x, Decision (P x)} l :
  Forall (λ x, ¬ P x) l → filter P l = [].
Proof. induction 1; [done|]. by rewrite filter_cons_False. Qed.

Lemma filter_all {A} (P : A → Prop) `{∀ x, Decision (P x)} l :
  Forall P l → filter P l = l.
Proof. induction 1; [done|]. rewrite filter_cons_True by done. by f_equal. Qed.

Lemma StronglySorted_lookup {A} (R : relation A) l i j x y :
  StronglySorted R l → l !! i = Some x → l !! j = Some y → (i < j)%nat → R x y.
Proof.
  intros Hl. revert i j. induction Hl as [|z l Hl IH Hz]; [done|].
  intros [|i] [|j] Hi Hj Hlt; try lia; simpl in *.
  - simplify_eq. rewrite Forall_forall in Hz. eapply Hz, list_elem_of_lookup_2, Hj.
  - eapply IH; eauto with lia.
Qed.

(** The elements before a partition point are those that do not satisfy the
    predicate. *)
Lemma take_partition {A} (comp : A → bool) l n :
  partition_point comp l n → take n l = filter (λ x, comp x = false) l.
Proof.
  revert n. induction l as [|x l IH]; intros n [Hn Hp]; [by rewrite take_nil|].
  pose proof (Hp 0%nat x eq_refl) as Hx. destruct n as [|n].
  - assert (∀ y, y ∈ x :: l → comp y = true) as Hall.
    { intros y [i Hi]%list_elem_of_lookup. apply (Hp i y Hi). lia. }
    symmetry. rewrite take_0. apply filter_none, Forall_forall.
    intros y Hy. by rewrite Hall.
  - rewrite filter_cons_True.
    2: { destruct (comp x); [|done]. pose proof (proj1 Hx eq_refl). lia. }
    simpl. f_equal. apply IH. split; [simpl in Hn; lia|].
    intros i y Hi. rewrite (Hp (S i) y Hi). lia.
Qed.

Lemma drop_partition {A} (comp : A → bool) l n :
  partition_point comp l n → drop n l = filter (λ x, comp x = true) l.
Proof.
  revert n. induction l as [|x l IH]; intros n [Hn Hp]; [by rewrite drop_nil|].
  pose proof (Hp 0%nat x eq_refl) as Hx. destruct n as [|n].
  - rewrite drop_0. symmetry. apply filter_all, Forall_forall. intros y [i Hi]%list_elem_of_lookup. apply (Hp i y Hi). lia.
  - rewrite filter_cons_False.
    2: { intros E. apply Hx in E. lia. }
    simpl. apply IH. split; [simpl in Hn; lia|]. intros i y Hi. rewrite (Hp (S i) y Hi). lia.
Qed.
