(* ===== verification/IoAddress.v ===== *)
(** * IP addresses ([src/lib/asiolink/io_address.cc], [io_address.h])

    [IOAddress] wraps a Boost address.  Boost is not part of the sources: what
    the code relies on is that an address is an IPv4 address of 32 bits or an
    IPv6 address of 128 bits, that [to_bytes] gives its bytes in network order,
    that printing an address and parsing the text gives the address back (this
    is how [fromBytes] builds one), and that addresses of one family compare as
    numbers.  The model is the number with its family; IPv6 scope identifiers
    are left out. *)

From S2P Require Import Prelude.
Local Open Scope Z_scope.

Definition AF_INET : Z := 2.
Definition AF_INET6 : Z := 10.

Inductive IOAddress :=
  | V4 (a : Z)
  | V6 (a : Z).

#[export] Instance IOAddress_eq_dec : EqDecision IOAddress.
Proof. solve_decision. Defined.

#[export] Instance IOAddress_countable : Countable IOAddress.
Proof.
  refine (inj_countable'
    (λ a, match a with V4 z => inl z | V6 z => inr z end)
    (λ s, match s with inl z => V4 z | inr z => V6 z end) _).
  by intros [].
Defined.

(** The number of bits of the address, and the address as a number. *)
Definition width (a : IOAddress) : Z :=
  match a with V4 _ => 32 | V6 _ => 128 end.
Definition value (a : IOAddress) : Z :=
  match a with V4 z | V6 z => z end.
(** An address of the family of [a] with another value. *)
Definition with_value (a : IOAddress) (z : Z) : IOAddress :=
  match a with V4 _ => V4 z | V6 _ => V6 z end.

(** What every [IOAddress] object satisfies: the value fits its width. *)
Definition wf_addr (a : IOAddress) : Prop := 0 ≤ value a < 2 ^ width a.

Definition isV4 (a : IOAddress) : bool := match a with V4 _ => true | V6 _ => false end.
Definition isV6 (a : IOAddress) : bool := match a with V4 _ => false | V6 _ => true end.

Definition getFamily (a : IOAddress) : Z := if isV4 a then AF_INET else AF_INET6.

Definition IPV4_ZERO_ADDRESS : IOAddress := V4 0.
Definition IPV4_BCAST_ADDRESS : IOAddress := V4 0xFFFFFFFF.
Definition IPV6_ZERO_ADDRESS : IOAddress := V6 0.

Definition equals (a b : IOAddress) : bool := bool_decide (a = b).

(** The text of an address ([IOAddress::toText]) is made by a library. *)
Class AddressText := { address_toText : IOAddress → string }.

Definition isV4Zero (a : IOAddress) : bool := equals a IPV4_ZERO_ADDRESS.
Definition isV4Bcast (a : IOAddress) : bool := equals a IPV4_BCAST_ADDRESS.
Definition isV6Zero (a : IOAddress) : bool := equals a IPV6_ZERO_ADDRESS.

(** [is_link_local] of an IPv6 address: it is in fe80::/10. *)
Definition isV6LinkLocal (a : IOAddress) : bool :=
  match a with
  | V4 _ => false
  | V6 z => z `div` 2 ^ 118 =? 0x3fa
  end.

(** [is_multicast] of an IPv6 address: the first byte is 0xff. *)
Definition isV6Multicast (a : IOAddress) : bool :=
  match a with
  | V4 _ => false
  | V6 z => z `div` 2 ^ 120 =? 0xff
  end.

Definition toBytes (a : IOAddress) : list Z :=
  match a with
  | V4 z => be_split 4 z
  | V6 z => be_split 16 z
  end.

Definition fromBytes (family : Z) (data : list Z) : res IOAddress :=
  if negb (family =? AF_INET) && negb (family =? AF_INET6) then Throw BadValue
  else if family =? AF_INET then Ok (V4 (be_combine (take 4 data)))
  else Ok (V6 (be_combine (take 16 data))).

Definition toUint32 (a : IOAddress) : res Z :=
  match a with
  | V4 z => Ok z
  | V6 _ => Throw BadValue
  end.

Definition lessThan (a b : IOAddress) : bool :=
  if getFamily a =? getFamily b then value a <? value b
  else getFamily a <? getFamily b.

Definition smallerEqual (a b : IOAddress) : bool :=
  if equals a b then true else lessThan a b.

(** The loop of [subtract] over the bytes, from the last to the first: the
    bytes of the difference and the carry left after the first byte. *)
Fixpoint subtract_loop (a_vec b_vec : list Z) : list Z * Z :=
  match a_vec, b_vec with
  | a :: a_vec', b :: b_vec' =>
      let '(result, carry) := subtract_loop a_vec' b_vec' in
      (u8 (a - b - carry) :: result, if a <? b + carry then 1 else 0)
  | _, _ => ([], 0)
  end.

Definition subtract (a b : IOAddress) : res IOAddress :=
  if negb (getFamily a =? getFamily b) then Throw BadValue
  else if isV4 a then
    x ← toUint32 a;
    y ← toUint32 b;
    mret (V4 (u32 (x - y)))
  else fromBytes AF_INET6 (fst (subtract_loop (toBytes a) (toBytes b))).

(** The loop of [increase], from the last byte to the first: the bytes after
    the loop and whether it is still running (every byte so far overflowed). *)
Fixpoint increase_loop (packed : list Z) : list Z * bool :=
  match packed with
  | [] => ([], true)
  | b :: packed' =>
      let '(rest, running) := increase_loop packed' in
      if running then (u8 (b + 1) :: rest, u8 (b + 1) =? 0)
      else (b :: rest, false)
  end.

Definition increase (addr : IOAddress) : res IOAddress :=
  fromBytes (getFamily addr) (fst (increase_loop (toBytes addr))).

(** ** Properties *)

#[export] Hint Unfold wf_addr : kea.

Lemma equals_spec a b : equals a b = true ↔ a = b.
Proof. apply bool_decide_eq_true. Qed.

Lemma value_with_value a z : value (with_value a z) = z.
Proof. by destruct a. Qed.
Lemma width_with_value a z : width (with_value a z) = width a.
Proof. by destruct a. Qed.

Lemma length_toBytes a : length (toBytes a) = (if isV4 a then 4 else 16)%nat.
Proof. by destruct a; apply length_be_split. Qed.

Lemma toBytes_bytes a : Forall is_byte (toBytes a).
Proof. destruct a; apply be_split_bytes. Qed.

Lemma be_combine_toBytes a : wf_addr a → be_combine (toBytes a) = value a.
Proof.
  unfold wf_addr. destruct a as [z|z]; simpl value; simpl width; intros;
    cbn [toBytes]; rewrite be_combine_split; apply Z.mod_small; lia.
Qed.

(** What [fromBytes] returns on a byte string of the right length. *)
Lemma fromBytes_Ok a l :
  length l = length (toBytes a) →
  fromBytes (getFamily a) l = Ok (with_value a (be_combine l)).
Proof.
  rewrite length_toBytes. destruct a; simpl; intros Hl;
    unfold fromBytes; simpl; rewrite take_ge by lia; done.
Qed.

Lemma fromBytes_wf l : Forall is_byte l → length l = 16%nat →
  wf_addr (V6 (be_combine l)).
Proof.
  intros Hb Hl. pose proof (be_combine_bound _ Hb) as H. rewrite Hl in H.
  unfold wf_addr. simpl. lia.
Qed.

Lemma toBytes_combine l :
  Forall is_byte l → length l = 16%nat → toBytes (V6 (be_combine l)) = l.
Proof. intros Hb Hl. cbn [toBytes]. rewrite <- Hl. by apply be_split_combine. Qed.

(** an address survives the trip through its network-order bytes. *)
Theorem fromBytes_toBytes (a : IOAddress) (Hwf : wf_addr a) :
  fromBytes (getFamily a) (toBytes a) = Ok a.
Proof.
  rewrite fromBytes_Ok by done. rewrite be_combine_toBytes by done. by destruct a.
Qed.

Lemma fromBytes_toBytes_witness :
  wf_addr (V4 0xC0000201) ∧ fromBytes AF_INET [192; 0; 2; 1] = Ok (V4 0xC0000201).
Proof.
  assert (wf_addr (V4 0xC0000201)) as H by (split; [done|reflexivity]).
  split; [exact H|]. exact (fromBytes_toBytes (V4 0xC0000201) H).
Defined.

Lemma subtract_loop_spec a b :
  Forall is_byte a → Forall is_byte b → length a = length b →
  let '(result, carry) := subtract_loop a b in
  length result = length a ∧ Forall is_byte result ∧ (carry = 0 ∨ carry = 1) ∧
  be_combine result = be_combine a - be_combine b + carry * 256 ^ Z.of_nat (length a).
Proof.
  intros Ha. revert b. induction Ha as [|x a Hx Ha IH]; intros [|y b] Hb Hl; try done.
  { simpl. repeat split; auto. }
  inversion Hb as [|?? Hy Hb']; subst. injection Hl as Hl.
  specialize (IH b Hb' Hl). cbn [subtract_loop].
  destruct (subtract_loop a b) as [result carry].
  destruct IH as (Hlen & Hbytes & Hc & IH).
  cbn [be_combine length]. rewrite Hlen, IH, pow256_succ, <- Hl.
  pose proof (pow256_pos (length a)).
  unfold u8, is_byte in *. split_and!.
  - done.
  - constructor; [|done]. apply Z.mod_pos_bound. lia.
  - case_match; auto.
  - case_match eqn:E.
    + rewrite <- (Z.mod_unique (x - y - carry) 256 (-1) (x - y - carry + 256)) by lia. nia.
    + rewrite Z.mod_small by lia. nia.
Qed.

Lemma increase_loop_spec l :
  Forall is_byte l →
  let '(rest, running) := increase_loop l in
  length rest = length l ∧ Forall is_byte rest ∧
  be_combine rest =
    be_combine l + 1 - (if running then 256 ^ Z.of_nat (length l) else 0) ∧
  (running = true ↔ be_combine l = 256 ^ Z.of_nat (length l) - 1).
Proof.
  induction 1 as [|x l Hx Hl IH]; [by simpl|].
  pose proof (be_combine_bound _ Hl). cbn [increase_loop].
  destruct (increase_loop l) as [rest running]. destruct IH as (Hlen & Hb & IH & Hr).
  pose proof (pow256_pos (length l)). unfold u8, is_byte in *.
  destruct running; cbn [be_combine length]; rewrite Hlen, IH, pow256_succ.
  - destruct Hr as [Hr _]. specialize (Hr eq_refl).
    destruct (decide (x = 255)) as [->|Hne].
    + change ((255 + 1) `mod` 256) with 0. rewrite Z.eqb_refl.
      repeat split; auto; try nia. by constructor.
    + rewrite Z.mod_small by lia. rewrite (proj2 (Z.eqb_neq _ _)) by lia.
      repeat split; auto; try nia. constructor; [|done]. unfold is_byte. lia.
  - assert (be_combine l ≠ 256 ^ Z.of_nat (length l) - 1) by (intros E; by apply Hr in E).
    repeat split; auto; try done; try nia.
Qed.

(** The difference of two addresses of one family, modulo the address space. *)
Lemma subtract_Ok a b :
  wf_addr a → wf_addr b → getFamily a = getFamily b →
  subtract a b = Ok (with_value a ((value a - value b) `mod` 2 ^ width a)).
Proof.
  intros Ha Hb Hf. unfold subtract. rewrite Hf, Z.eqb_refl. cbn [negb].
  destruct a as [x|x], b as [y|y]; try done. cbn [isV4].
  pose proof (subtract_loop_spec (toBytes (V6 x)) (toBytes (V6 y))
    (toBytes_bytes _) (toBytes_bytes _)) as H.
  rewrite !length_toBytes in H. specialize (H eq_refl).
  destruct (subtract_loop _ _) as [result carry] eqn:E.
  destruct H as (Hlen & Hby & Hc & Heq). cbn [fst].
  rewrite (fromBytes_Ok (V6 x)) by (by rewrite Hlen, length_toBytes).
  rewrite !be_combine_toBytes in Heq by done. cbn [with_value value width] in *.
  do 2 f_equal. apply (Z.mod_unique _ _ (- carry)); [left|].
  - pose proof (be_combine_bound _ Hby). rewrite Hlen in *. simpl in *. lia.
  - simpl in Heq. lia.
Qed.

Lemma increase_Ok a :
  wf_addr a → increase a = Ok (with_value a ((value a + 1) `mod` 2 ^ width a)).
Proof.
  intros Ha. unfold increase.
  pose proof (increase_loop_spec (toBytes a) (toBytes_bytes a)) as H.
  destruct (increase_loop _) as [rest running]. cbn [fst].
  destruct H as (Hlen & Hby & Heq & _).
  rewrite fromBytes_Ok by done. do 2 f_equal.
  rewrite be_combine_toBytes in Heq by done.
  pose proof (be_combine_bound _ Hby) as Hbd. rewrite Hlen in Hbd.
  assert (256 ^ Z.of_nat (length (toBytes a)) = 2 ^ width a) as Hw
    by (rewrite length_toBytes; by destruct a).
  rewrite Hw in *.
  apply (Z.mod_unique _ _ (if running then 1 else 0)); [lia|]. destruct running; lia.
Qed.

(** [increase] adds one modulo the size of the address space of the
    family and never throws; the bytes are carried over as in the loop. *)
Theorem increase_spec (a : IOAddress) (Hwf : wf_addr a) :
  ∃ r, increase a = Ok r ∧ wf_addr r ∧ getFamily r = getFamily a ∧
       value r = (value a + 1) `mod` 2 ^ width a.
Proof.
  rewrite increase_Ok by done. eexists. split; [done|].
  unfold wf_addr. rewrite value_with_value, width_with_value.
  split; [|split; [by destruct a|done]].
  apply Z.mod_pos_bound. destruct a; simpl; lia.
Qed.

Lemma increase_spec_witness :
  wf_addr (V4 0xC00002FF) ∧
  ∃ r, increase (V4 0xC00002FF) = Ok r ∧ wf_addr r ∧ getFamily r = AF_INET ∧
       value r = 0xC0000300.
Proof.
  assert (wf_addr (V4 0xC00002FF)) as H by (split; [done|reflexivity]).
  split; [exact H|]. exact (increase_spec (V4 0xC00002FF) H).
Defined.

(** [subtract] is subtraction modulo the size of the address space on two
    addresses of one family, and throws [BadValue] on mixed families. *)
Theorem subtract_spec (a b : IOAddress) (Ha : wf_addr a) (Hb : wf_addr b) :
  subtract a b =
    if getFamily a =? getFamily b
    then Ok (with_value a ((value a - value b) `mod` 2 ^ width a))
    else Throw BadValue.
Proof.
  destruct (getFamily a =? getFamily b) eqn:E.
  - apply subtract_Ok; auto. by apply Z.eqb_eq.
  - unfold subtract. by rewrite E.
Qed.

Lemma subtract_spec_witness :
  wf_addr (V4 5) ∧ wf_addr (V4 7) ∧ subtract (V4 5) (V4 7) = Ok (V4 0xFFFFFFFE).
Proof.
  assert (wf_addr (V4 5)) as Ha by (split; [done|reflexivity]).
  assert (wf_addr (V4 7)) as Hb by (split; [done|reflexivity]).
  split; [exact Ha|split; [exact Hb|]]. exact (subtract_spec (V4 5) (V4 7) Ha Hb).
Defined.

(** [smallerEqual] and [lessThan] are the two halves of one total order:
    IPv4 addresses first, then by value. *)
Definition addr_le (a b : IOAddress) : Prop :=
  match a, b with
  | V4 x, V4 y | V6 x, V6 y => x ≤ y
  | V4 _, V6 _ => True
  | V6 _, V4 _ => False
  end.

#[export] Instance addr_le_dec a b : Decision (addr_le a b).
Proof. destruct a, b; simpl; apply _. Defined.

#[export] Instance addr_le_total : TotalOrder addr_le.
Proof.
  split; [split; [split|]|].
  - intros []; simpl; lia.
  - intros [] [] []; simpl; lia.
  - intros [] []; simpl; intros; f_equal; lia.
  - unfold trichotomyT, trichotomy, strict.
    intros [x|x] [y|y]; simpl; try tauto;
      destruct (Z.lt_trichotomy x y) as [|[|]]; subst;
      [left; lia|by right; left|right; right; lia
      |left; lia|by right; left|right; right; lia].
Qed.

Lemma smallerEqual_spec a b : smallerEqual a b = true ↔ addr_le a b.
Proof.
  unfold smallerEqual. destruct (equals a b) eqn:E.
  - apply equals_spec in E as ->. split; [intros; reflexivity|done].
  - assert (a ≠ b) by (intros ->; unfold equals in E; by rewrite bool_decide_true in E).
    unfold lessThan, getFamily. destruct a as [x|x], b as [y|y]; simpl;
      rewrite ?Z.ltb_lt; try (split; done);
      assert (x ≠ y) by congruence; lia.
Qed.

Lemma lessThan_spec a b : lessThan a b = true ↔ ¬ addr_le b a.
Proof.
  unfold lessThan, getFamily. destruct a as [x|x], b as [y|y]; simpl;
    rewrite ?Z.ltb_lt; intuition (try done); lia.
Qed.

Lemma lessThan_false a b : lessThan a b = false ↔ addr_le b a.
Proof.
  rewrite <- not_true_iff_false, lessThan_spec.
  split; [|tauto]. destruct (decide (addr_le b a)); tauto.
Qed.

(** The order in terms of integers, for [lia]. *)
Lemma addr_le_lia a b :
  addr_le a b ↔
  getFamily a < getFamily b ∨ (getFamily a = getFamily b ∧ value a ≤ value b).
Proof. unfold getFamily. destruct a, b; simpl; unfold AF_INET, AF_INET6; lia. Qed.

Ltac addr_lia := rewrite ?addr_le_lia in *; lia.
