(* ===== verification/AddrUtilities.v ===== *)
(** * Address arithmetic ([src/lib/dhcpsrv/addr_utilities.cc])

    First and last address of a prefix, netmasks, the number of addresses in a
    range and the number of prefixes in a pool, for IPv4 on 32-bit integers and
    for IPv6 on the 16 bytes of the address, as the source computes them. *)

From S2P Require Import Prelude IoAddress.
Local Open Scope Z_scope.

Definition bitMask4 : list Z :=
  [0xffffffff; 0x7fffffff; 0x3fffffff; 0x1fffffff;
   0x0fffffff; 0x07ffffff; 0x03ffffff; 0x01ffffff;
   0x00ffffff; 0x007fffff; 0x003fffff; 0x001fffff;
   0x000fffff; 0x0007ffff; 0x0003ffff; 0x0001ffff;
   0x0000ffff; 0x00007fff; 0x00003fff; 0x00001fff;
   0x00000fff; 0x000007ff; 0x000003ff; 0x000001ff;
   0x000000ff; 0x0000007f; 0x0000003f; 0x0000001f;
   0x0000000f; 0x00000007; 0x00000003; 0x00000001;
   0x00000000].

Definition bitMask6 : list Z := [0; 0x80; 0xc0; 0xe0; 0xf0; 0xf8; 0xfc; 0xfe; 0xff].

Definition revMask6 : list Z := [0xff; 0x7f; 0x3f; 0x1f; 0xf; 0x7; 0x3; 0x1].

(** [packed[i]]; the code indexes within the array. *)
Definition at_ (l : list Z) (i : Z) : Z := default 0 (l !! Z.to_nat i).

(** [for (int i = from; i < sizeof(packed); ++i) packed[i] = v;] *)
Definition fill (packed : list Z) (from : Z) (v : Z) : list Z :=
  foldl (λ p i, <[i := v]> p) packed
        (seq (Z.to_nat from) (length packed - Z.to_nat from)).

Definition firstAddrInPrefix6 (prefix : IOAddress) (len : Z) : res IOAddress :=
  if 128 <? len then Throw BadValue
  else
    let packed := toBytes prefix in
    let '(packed, len) :=
      if negb (len `mod` 8 =? 0) then
        let mask := at_ bitMask6 (len `mod` 8) in
        (<[Z.to_nat (len `div` 8) := Z.land (at_ packed (len `div` 8)) mask]> packed,
         (len `div` 8 + 1) * 8)
      else (packed, len) in
    let packed := fill packed (len `div` 8) 0 in
    fromBytes AF_INET6 packed.

Definition firstAddrInPrefix4 (prefix : IOAddress) (len : Z) : res IOAddress :=
  if 32 <? len then Throw BadValue
  else
    addr ← toUint32 prefix;
    mret (V4 (Z.land addr (unot 32 (at_ bitMask4 len)))).

Definition lastAddrInPrefix4 (prefix : IOAddress) (len : Z) : res IOAddress :=
  if 32 <? len then Throw BadValue
  else
    addr ← toUint32 prefix;
    mret (V4 (Z.lor addr (at_ bitMask4 len))).

Definition lastAddrInPrefix6 (prefix : IOAddress) (len : Z) : res IOAddress :=
  if 128 <? len then Throw BadValue
  else
    let packed := toBytes prefix in
    let '(packed, len) :=
      if negb (len `mod` 8 =? 0) then
        let mask := at_ bitMask6 (len `mod` 8) in
        (<[Z.to_nat (len `div` 8) :=
             u8 (Z.lor (at_ packed (len `div` 8)) (Z.lnot mask))]> packed,
         (len `div` 8 + 1) * 8)
      else (packed, len) in
    let packed := fill packed (len `div` 8) 0xff in
    fromBytes AF_INET6 packed.

Definition firstAddrInPrefix (prefix : IOAddress) (len : Z) : res IOAddress :=
  if isV4 prefix then firstAddrInPrefix4 prefix len
  else firstAddrInPrefix6 prefix len.

Definition lastAddrInPrefix (prefix : IOAddress) (len : Z) : res IOAddress :=
  if isV4 prefix then lastAddrInPrefix4 prefix len
  else lastAddrInPrefix6 prefix len.

Definition getNetmask4 (len : Z) : res IOAddress :=
  if 32 <? len then Throw BadValue
  else Ok (V4 (unot 32 (at_ bitMask4 len))).

Definition max6 : IOAddress := V6 (2 ^ 128 - 1).

Definition addrsInRange (min max : IOAddress) : res Z :=
  if negb (getFamily min =? getFamily max) then Throw BadValue
  else if lessThan max min then Throw BadValue
  else if isV4 min then
    max_numeric ← toUint32 max;
    min_numeric ← toUint32 min;
    mret (max_numeric - min_numeric + 1)
  else
    count ← subtract max min;
    if equals count max6 then mret u64_max
    else
      count ← increase count;
      let bin := toBytes count in
      if existsb (λ b, negb (b =? 0)) (take 8 bin) then mret u64_max
      else mret (foldl (λ numeric b, (numeric * 2 ^ 8) `mod` 2 ^ 64 + b) 0
                       (take 8 (drop 8 bin))).

(** The inner loop of [prefixLengthFromRange] over [revMask6]: the last
    matching index wins. *)
Definition match_revMask6 (i xor_byte candidate : Z) : Z :=
  fst (foldl (λ '(candidate, j) m,
               (if xor_byte =? m then i * 8 + j else candidate, j + 1))
             (candidate, 0) revMask6).

(** The outer loop over the bytes, from byte [i] on. *)
Fixpoint prefixLength_loop (i : Z) (xors : list Z) (zeroes : bool) (candidate : Z) : Z :=
  match xors with
  | [] => candidate
  | xor_byte :: xors' =>
      if zeroes then
        if xor_byte =? 0 then prefixLength_loop (i + 1) xors' zeroes candidate
        else
          let candidate := match_revMask6 i xor_byte candidate in
          if candidate =? 128 then -1
          else prefixLength_loop (i + 1) xors' false candidate
      else if xor_byte =? 0xff then prefixLength_loop (i + 1) xors' zeroes candidate
      else -1
  end.

(** The IPv4 loop: the first index of [bitMask4] that holds the value. *)
Definition bitMask4_index (xor_numeric : Z) : Z :=
  match list_find (λ m, xor_numeric = m) bitMask4 with
  | Some (prefix_len, _) => Z.of_nat prefix_len
  | None => -1
  end.

Definition prefixLengthFromRange (min max : IOAddress) : res Z :=
  if negb (getFamily min =? getFamily max) then Throw BadValue
  else if lessThan max min then Throw BadValue
  else if isV4 min then
    max_numeric ← toUint32 max;
    min_numeric ← toUint32 min;
    mret (bitMask4_index (Z.lxor max_numeric min_numeric))
  else mret (prefixLength_loop 0 (zip_with Z.lxor (toBytes min) (toBytes max)) true 128).

Definition prefixesInRange (pool_len delegated_len : Z) : Z :=
  if delegated_len <? pool_len then 0
  else
    let count := delegated_len - pool_len in
    if count =? 0 then 1
    else if 64 <=? count then u64_max
    else Z.shiftl 2 (count - 1) `mod` 2 ^ 64.

Example first_ex : firstAddrInPrefix (V4 0xC0000285) 30 = Ok (V4 0xC0000284).
Proof. reflexivity. Qed.
Example last6_ex : lastAddrInPrefix (V6 (0x20010db8 * 2^96)) 33
  = Ok (V6 (0x20010db8 * 2^96 + 2^95 - 1)).
Proof. reflexivity. Qed.
Example addrs_ex : addrsInRange (V6 5) (V6 (2^64+3)) = Ok u64_max.
Proof. reflexivity. Qed.
Example plr_ex : prefixLengthFromRange (V6 (2^90)) (V6 (2^90 + 2^61 - 1)) = Ok 67.
Proof. reflexivity. Qed.

(** ** The specification: prefixes as arithmetic on the address value *)

(** The value with its low [k] bits cleared, and with its low [k] bits set. *)
Definition floor2 (k z : Z) : Z := z `div` 2 ^ k * 2 ^ k.
Definition ceil2 (k z : Z) : Z := floor2 k z + 2 ^ k - 1.

Definition prefix_first (a : IOAddress) (len : Z) : IOAddress :=
  with_value a (floor2 (width a - len) (value a)).
Definition prefix_last (a : IOAddress) (len : Z) : IOAddress :=
  with_value a (ceil2 (width a - len) (value a)).

Lemma land_unot_ones w k a :
  0 ≤ k ≤ w → 0 ≤ a < 2 ^ w → Z.land a (unot w (2 ^ k - 1)) = floor2 k a.
Proof.
  intros Hk Ha. unfold unot, floor2.
  rewrite <- (Z.land_ones (Z.lnot _) w) by lia.
  rewrite Z.sub_1_r, <- Z.ones_equiv.
  rewrite <- Z.shiftr_div_pow2, <- Z.shiftl_mul_pow2, <- Z.ldiff_ones_r by lia.
  rewrite (Z.land_comm (Z.lnot _)), Z.land_assoc, Z.land_ones, Z.mod_small by lia.
  by rewrite Z.ldiff_land.
Qed.

Lemma lor_ones k a : 0 ≤ k → Z.lor a (2 ^ k - 1) = ceil2 k a.
Proof.
  intros Hk. unfold ceil2, floor2. rewrite <- Z.add_sub_assoc.
  rewrite Z.sub_1_r, <- Z.ones_equiv.
  rewrite <- Z.shiftr_div_pow2, <- Z.shiftl_mul_pow2, <- Z.ldiff_ones_r by lia.
  rewrite <- Z.add_lor_land.
  replace (Z.lor a (Z.ones k)) with (Z.lor (Z.ldiff a (Z.ones k)) (Z.ones k)) by zbits.
  replace (Z.land (Z.ldiff a (Z.ones k)) (Z.ones k)) with 0 by zbits. lia.
Qed.

(** Properties of the mask tables, checked over all their indices. *)
Lemma bitMask4_spec len : 0 ≤ len ≤ 32 → at_ bitMask4 len = 2 ^ (32 - len) - 1.
Proof.
  intros H. apply Z.eqb_eq.
  apply (forallb_seqZ (λ n, at_ bitMask4 n =? 2 ^ (32 - n) - 1) 0 33); [done|lia].
Qed.

(** A check over the bytes and the proper bit offsets of a byte. *)
Lemma forall_byte_offsets (P : Z → Z → bool) :
  forallb (λ r, forallb (P r) (seqZ 0 256)) (seqZ 1 7) = true →
  ∀ r b, 0 < r < 8 → is_byte b → P r b = true.
Proof.
  intros H r b Hr Hb. apply (forallb_seqZ (P r) 0 256); [|apply Hb].
  apply (forallb_seqZ (λ r, forallb (P r) (seqZ 0 256)) 1 7 H). lia.
Qed.

Lemma bitMask6_land r b :
  0 < r < 8 → is_byte b → Z.land b (at_ bitMask6 r) = floor2 (8 - r) b.
Proof.
  intros Hr Hb. apply Z.eqb_eq.
  by apply (forall_byte_offsets (λ r b, Z.land b (at_ bitMask6 r) =? floor2 (8 - r) b)).
Qed.

Lemma bitMask6_lor r b :
  0 < r < 8 → is_byte b →
  u8 (Z.lor b (Z.lnot (at_ bitMask6 r))) = ceil2 (8 - r) b.
Proof.
  intros Hr Hb. apply Z.eqb_eq.
  by apply (forall_byte_offsets (λ r b,
    u8 (Z.lor b (Z.lnot (at_ bitMask6 r))) =? ceil2 (8 - r) b)).
Qed.

(** The bytes of the first and the last address differ in [revMask6]. *)
Lemma revMask6_xor r b :
  0 < r < 8 → is_byte b →
  Z.lxor (floor2 (8 - r) b) (ceil2 (8 - r) b) = at_ revMask6 r.
Proof.
  intros Hr Hb. apply Z.eqb_eq.
  by apply (forall_byte_offsets (λ r b,
    Z.lxor (floor2 (8 - r) b) (ceil2 (8 - r) b) =? at_ revMask6 r)).
Qed.

Lemma floor2_bounds k z : 0 ≤ k → 0 ≤ z → 0 ≤ floor2 k z ≤ z.
Proof.
  intros Hk Hz. unfold floor2. pose proof (Z.pow_pos_nonneg 2 k).
  pose proof (Z.div_pos z (2 ^ k)). pose proof (Z.mul_div_le z (2 ^ k)). lia.
Qed.

Lemma ceil2_bounds k w z : 0 ≤ k ≤ w → 0 ≤ z < 2 ^ w → z ≤ ceil2 k z < 2 ^ w.
Proof.
  intros Hk Hz. unfold ceil2, floor2. pose proof (Z.pow_pos_nonneg 2 k).
  pose proof (Z.mod_pos_bound z (2 ^ k)). pose proof (Z.div_mod z (2 ^ k)).
  assert (z `div` 2 ^ k < 2 ^ (w - k)).
  { apply Z.div_lt_upper_bound; [lia|]. rewrite <- Z.pow_add_r by lia.
    replace (k + (w - k)) with w by lia. lia. }
  assert (2 ^ w = 2 ^ (w - k) * 2 ^ k) by (rewrite <- Z.pow_add_r by lia; f_equal; lia).
  nia.
Qed.

Lemma floor2_byte r b : 0 < r < 8 → is_byte b → is_byte (floor2 (8 - r) b).
Proof. unfold is_byte. intros ??. pose proof (floor2_bounds (8 - r) b). lia. Qed.

Lemma ceil2_byte r b : 0 < r < 8 → is_byte b → is_byte (ceil2 (8 - r) b).
Proof. unfold is_byte. intros ??. pose proof (ceil2_bounds (8 - r) 8 b). lia. Qed.

(** Clearing low bits that end inside the digit before [m]. *)
Lemma floor2_digits k m h l :
  0 ≤ k → 0 ≤ m → 0 ≤ l < 2 ^ m →
  floor2 (m + k) (h * 2 ^ m + l) = floor2 k h * 2 ^ m.
Proof.
  intros Hk Hm Hl. unfold floor2. rewrite Z.pow_add_r by lia.
  rewrite <- Z.div_div by (try apply Z.pow_nonzero; try apply Z.pow_pos_nonneg; lia).
  rewrite Z.div_add_l by (apply Z.pow_nonzero; lia).
  rewrite (Z.div_small l) by done. rewrite Z.add_0_r. ring.
Qed.

(** Clearing low bits that end inside the digits below [m]. *)
Lemma floor2_low k m h l :
  0 ≤ k ≤ m → floor2 k (h * 2 ^ m + l) = h * 2 ^ m + floor2 k l.
Proof.
  intros Hk. unfold floor2.
  replace (2 ^ m) with (2 ^ (m - k) * 2 ^ k)
    by (rewrite <- Z.pow_add_r by lia; f_equal; lia).
  rewrite Z.mul_assoc, Z.div_add_l by (apply Z.pow_nonzero; lia). ring.
Qed.

(** The loop that overwrites the tail of the array. *)
Lemma fill_spec packed from v :
  0 ≤ from ≤ Z.of_nat (length packed) →
  fill packed from v =
    take (Z.to_nat from) packed ++ replicate (length packed - Z.to_nat from) v.
Proof.
  intros Hf. unfold fill. assert (Z.to_nat from ≤ length packed)%nat as Hn by lia.
  clear Hf. set (i := Z.to_nat from) in *. clearbody i.
  remember (length packed - i)%nat as n eqn:E. revert packed i Hn E.
  induction n as [|n IH]; intros packed i Hn E; cbn [seq foldl].
  { rewrite take_ge by lia. by rewrite app_nil_r. }
  rewrite IH by (rewrite length_insert; lia).
  rewrite (take_S_r _ i v) by (apply list_lookup_insert_eq; lia).
  rewrite take_insert_ge by lia. by rewrite <- app_assoc.
Qed.

(** ** IPv6: the byte strings the two loops build *)

Section Prefix6.
Context (a len : Z).
Hypothesis Hwf : wf_addr (V6 a).
Hypothesis Hlen : 0 ≤ len ≤ 128.

Let l := toBytes (V6 a).
Let q := Z.to_nat (len `div` 8).
Let r := len `mod` 8.

(** The network part, the byte that is cut, and the host part set to [v]. *)
Definition prefix_bytes (cut : Z → Z) (v : Z) : list Z :=
  if r =? 0 then take q l ++ replicate (16 - q) v
  else take q l ++ cut (at_ l (len `div` 8)) :: replicate (15 - q) v.

Lemma length_l : length l = 16%nat.
Proof using. apply length_toBytes. Qed.

Lemma q_bound : Z.of_nat q = len `div` 8 ∧ (q ≤ 16)%nat ∧ (r ≠ 0 → (q < 16)%nat).
Proof using Hlen.
  subst q r. pose proof (Z.div_mod len 8). pose proof (Z.mod_pos_bound len 8).
  split_and!; [| |intros ?]; lia.
Qed.

Lemma at_byte : is_byte (at_ l (len `div` 8)).
Proof using.
  unfold at_. destruct (l !! _) as [b|] eqn:E; simpl; [|unfold is_byte; lia].
  eapply Forall_lookup_1; [apply toBytes_bytes|done].
Qed.

Lemma length_prefix_bytes cut v : length (prefix_bytes cut v) = 16%nat.
Proof using Hlen.
  pose proof length_l. destruct q_bound as (?&?&?). unfold prefix_bytes.
  destruct (Z.eqb_spec r 0); rewrite length_app; cbn [length];
    rewrite length_replicate, length_take; lia.
Qed.

Lemma prefix_bytes_bytes cut v :
  (r ≠ 0 → is_byte (cut (at_ l (len `div` 8)))) → is_byte v →
  Forall is_byte (prefix_bytes cut v).
Proof using.
  intros Hc Hv. unfold prefix_bytes.
  destruct (Z.eqb_spec r 0); apply Forall_app;
    (split; [apply Forall_take, toBytes_bytes|]);
    [|constructor; [by auto|]]; by apply Forall_replicate.
Qed.

(** What the common part of the two functions computes. *)
Lemma cut_and_fill cut v :
  (let '(packed, len') :=
     if negb (len `mod` 8 =? 0) then
       (<[Z.to_nat (len `div` 8) := cut (at_ l (len `div` 8))]> l,
        (len `div` 8 + 1) * 8)
     else (l, len) in
   fill packed (len' `div` 8) v) = prefix_bytes cut v.
Proof using Hlen.
  pose proof length_l as Hl. destruct q_bound as (Hqz & Hq & Hq').
  unfold prefix_bytes. fold r q. destruct (Z.eqb_spec r 0) as [E|E]; cbn [negb].
  - rewrite fill_spec by lia. by rewrite Hl.
  - rewrite Z.div_mul by done. specialize (Hq' E).
    rewrite fill_spec by (rewrite length_insert; lia).
    replace (Z.to_nat (len `div` 8 + 1)) with (S q) by lia.
    rewrite (take_S_r _ q (cut (at_ l (len `div` 8))))
      by (apply list_lookup_insert_eq; lia).
    rewrite take_insert_ge, length_insert, Hl, <- app_assoc by lia. done.
Qed.

(** The address as a network part, the cut byte and a host part. *)
Lemma value_decompose :
  if r =? 0
  then ∃ lo, a = be_combine (take q l) * 2 ^ (128 - len) + lo ∧
             0 ≤ lo < 2 ^ (128 - len) ∧
             256 ^ Z.of_nat (16 - q) = 2 ^ (128 - len)
  else ∃ lo m, a = (be_combine (take q l) * 2 ^ 8 + at_ l (len `div` 8)) * 2 ^ m + lo ∧
               0 ≤ lo < 2 ^ m ∧ 0 ≤ m ∧
               256 ^ Z.of_nat (15 - q) = 2 ^ m ∧ 128 - len = m + (8 - r).
Proof using Hwf Hlen.
  pose proof length_l as Hl. destruct q_bound as (Hqz & Hq & Hq').
  pose proof (be_combine_toBytes _ Hwf) as Ha. fold l in Ha. simpl value in Ha.
  pose proof (toBytes_bytes (V6 a)) as Hb. fold l in Hb.
  pose proof (Z.div_mod len 8 ltac:(lia)). fold r in H.
  destruct (Z.eqb_spec r 0) as [E|E].
  - exists (be_combine (drop q l)).
    pose proof (be_combine_bound (drop q l) (Forall_drop _ _ _ Hb)) as Hd.
    assert (256 ^ Z.of_nat (16 - q) = 2 ^ (128 - len)) as Hp
      by (rewrite pow256_pow2; f_equal; lia).
    rewrite length_drop, Hl, Hp in Hd. split_and!; auto; try lia.
    rewrite <- Ha, <- Hp, <- (take_drop q l) at 1.
    by rewrite be_combine_app, length_drop, Hl.
  - specialize (Hq' E). exists (be_combine (drop (S q) l)), (8 * Z.of_nat (15 - q)).
    pose proof (be_combine_bound (drop (S q) l) (Forall_drop _ _ _ Hb)) as Hd.
    rewrite length_drop, Hl, <- pow256_pow2 in *.
    replace (16 - S q)%nat with (15 - q)%nat in * by lia.
    split_and!; auto; try lia.
    assert (l !! q = Some (at_ l (len `div` 8))) as Hat.
    { unfold at_. fold q. destruct (l !! q) eqn:E'; [done|].
      apply lookup_ge_None in E'. lia. }
    rewrite <- Ha, <- (take_drop_middle l q _ Hat) at 1.
    rewrite be_combine_app. cbn [be_combine length].
    rewrite length_drop, Hl. replace (16 - S q)%nat with (15 - q)%nat by lia.
    rewrite pow256_succ. ring.
Qed.

Lemma prefix_bytes_first :
  be_combine (prefix_bytes (floor2 (8 - r)) 0) = floor2 (128 - len) a.
Proof using Hwf Hlen.
  pose proof value_decompose as H. unfold prefix_bytes.
  destruct (Z.eqb_spec r 0) as [E|E].
  - destruct H as (lo & Ha & Hlo & Hp).
    rewrite be_combine_app, be_combine_replicate0, length_replicate, Hp, Z.add_0_r.
    rewrite Ha. replace (128 - len) with (128 - len + 0) at 2 by lia.
    rewrite floor2_digits by lia. unfold floor2. by rewrite Z.div_1_r, !Z.mul_1_r.
  - destruct H as (lo & m & Ha & Hlo & Hm & Hp & Hk).
    rewrite be_combine_app. cbn [be_combine length].
    rewrite be_combine_replicate0, length_replicate, pow256_succ, Hp, Hk, Ha.
    rewrite floor2_digits by (subst r; pose proof (Z.mod_pos_bound len 8); lia).
    rewrite floor2_low by (subst r; pose proof (Z.mod_pos_bound len 8); lia). ring.
Qed.

Lemma prefix_bytes_last :
  be_combine (prefix_bytes (ceil2 (8 - r)) 255) = ceil2 (128 - len) a.
Proof using Hwf Hlen.
  unfold ceil2 at 2. rewrite <- prefix_bytes_first.
  pose proof value_decompose as H. unfold prefix_bytes, ceil2.
  destruct (Z.eqb_spec r 0) as [E|E].
  - destruct H as (lo & Ha & Hlo & Hp).
    rewrite !be_combine_app, be_combine_replicate0, be_combine_replicate255.
    rewrite !length_replicate, Hp. ring.
  - destruct H as (lo & m & Ha & Hlo & Hm & Hp & Hk).
    rewrite !be_combine_app. cbn [be_combine length].
    rewrite be_combine_replicate0, be_combine_replicate255, !length_replicate.
    rewrite pow256_succ, Hp, Hk, Z.pow_add_r by (subst r; pose proof (Z.mod_pos_bound len 8); lia).
    ring.
Qed.
End Prefix6.

(** ** First and last address of a prefix *)

Lemma mod8_proper len : len `mod` 8 ≠ 0 → 0 < len `mod` 8 < 8.
Proof. pose proof (Z.mod_pos_bound len 8). lia. Qed.

Lemma firstAddrInPrefix6_bytes a len :
  0 ≤ len ≤ 128 →
  firstAddrInPrefix6 (V6 a) len =
    Ok (V6 (be_combine (prefix_bytes a len (floor2 (8 - len `mod` 8)) 0))).
Proof.
  intros Hlen. unfold firstAddrInPrefix6.
  rewrite (proj2 (Z.ltb_ge _ _)) by lia.
  pose proof (cut_and_fill a len Hlen (floor2 (8 - len `mod` 8)) 0) as Hcf.
  destruct (Z.eqb_spec (len `mod` 8) 0) as [E|E]; cbn [negb] in *;
    [|rewrite bitMask6_land by auto using mod8_proper, at_byte];
    rewrite Hcf; apply (fromBytes_Ok (V6 a));
    by rewrite length_prefix_bytes, length_toBytes.
Qed.

Lemma lastAddrInPrefix6_bytes a len :
  0 ≤ len ≤ 128 →
  lastAddrInPrefix6 (V6 a) len =
    Ok (V6 (be_combine (prefix_bytes a len (ceil2 (8 - len `mod` 8)) 255))).
Proof.
  intros Hlen. unfold lastAddrInPrefix6.
  rewrite (proj2 (Z.ltb_ge _ _)) by lia.
  pose proof (cut_and_fill a len Hlen (ceil2 (8 - len `mod` 8)) 255) as Hcf.
  destruct (Z.eqb_spec (len `mod` 8) 0) as [E|E]; cbn [negb] in *;
    [|rewrite bitMask6_lor by auto using mod8_proper, at_byte];
    rewrite Hcf; apply (fromBytes_Ok (V6 a));
    by rewrite length_prefix_bytes, length_toBytes.
Qed.

Lemma firstAddrInPrefix_Ok a len :
  wf_addr a → 0 ≤ len ≤ width a → firstAddrInPrefix a len = Ok (prefix_first a len).
Proof.
  unfold prefix_first. destruct a as [x|x]; intros Ha Hlen; simpl in Hlen.
  - unfold firstAddrInPrefix, firstAddrInPrefix4; simpl.
    rewrite (proj2 (Z.ltb_ge _ _)) by lia. unfold mret, res_ret.
    rewrite bitMask4_spec by lia. do 2 f_equal. apply land_unot_ones; [lia|apply Ha].
  - unfold firstAddrInPrefix; cbn [isV4 with_value width value].
    rewrite firstAddrInPrefix6_bytes by lia. by rewrite prefix_bytes_first.
Qed.

Lemma lastAddrInPrefix_Ok a len :
  wf_addr a → 0 ≤ len ≤ width a → lastAddrInPrefix a len = Ok (prefix_last a len).
Proof.
  unfold prefix_last. destruct a as [x|x]; intros Ha Hlen; simpl in Hlen.
  - unfold lastAddrInPrefix, lastAddrInPrefix4; simpl.
    rewrite (proj2 (Z.ltb_ge _ _)) by lia. unfold mret, res_ret.
    rewrite bitMask4_spec by lia. do 2 f_equal. apply lor_ones. lia.
  - unfold lastAddrInPrefix; cbn [isV4 with_value width value].
    rewrite lastAddrInPrefix6_bytes by lia. by rewrite prefix_bytes_last.
Qed.

(** for both families [firstAddrInPrefix] clears the host bits of the
    address and [lastAddrInPrefix] sets them, and both throw [BadValue] exactly
    when the prefix length exceeds the width of the family. *)
Theorem prefix_range_spec (a : IOAddress) (len : Z)
    (Hwf : wf_addr a) (Hlen : 0 ≤ len) :
  (len ≤ width a →
     firstAddrInPrefix a len = Ok (prefix_first a len) ∧
     lastAddrInPrefix a len = Ok (prefix_last a len)) ∧
  (width a < len →
     firstAddrInPrefix a len = Throw BadValue ∧
     lastAddrInPrefix a len = Throw BadValue).
Proof.
  split; intros H.
  - split; [apply firstAddrInPrefix_Ok|apply lastAddrInPrefix_Ok]; auto.
  - unfold firstAddrInPrefix, lastAddrInPrefix, firstAddrInPrefix4, lastAddrInPrefix4,
      firstAddrInPrefix6, lastAddrInPrefix6.
    by destruct a; simpl in *; rewrite (proj2 (Z.ltb_lt _ _)) by lia.
Qed.

Lemma prefix_range_spec_witness :
  wf_addr (V4 0xC0000285) ∧
  firstAddrInPrefix (V4 0xC0000285) 25 = Ok (V4 0xC0000280) ∧
  lastAddrInPrefix (V4 0xC0000285) 25 = Ok (V4 0xC00002FF).
Proof.
  assert (wf_addr (V4 0xC0000285)) as H by (split; [done|reflexivity]).
  split; [exact H|].
  refine (proj1 (prefix_range_spec (V4 0xC0000285) 25 H _) _); simpl; lia.
Defined.

Lemma wf_prefix_first a len : wf_addr a → 0 ≤ len ≤ width a → wf_addr (prefix_first a len).
Proof.
  unfold wf_addr, prefix_first. rewrite value_with_value, width_with_value.
  intros ??. pose proof (floor2_bounds (width a - len) (value a)). lia.
Qed.

Lemma wf_prefix_last a len : wf_addr a → 0 ≤ len ≤ width a → wf_addr (prefix_last a len).
Proof.
  unfold wf_addr, prefix_last. rewrite value_with_value, width_with_value.
  intros ??. pose proof (ceil2_bounds (width a - len) (width a) (value a)).
  pose proof (Z.pow_pos_nonneg 2 (width a)). lia.
Qed.

(** An address is between the first and the last address of a prefix exactly
    when it agrees with the prefix on the network bits. *)
Lemma in_prefix_iff a len b :
  0 ≤ len ≤ width a →
  addr_le (prefix_first a len) b ∧ addr_le b (prefix_last a len) ↔
  getFamily b = getFamily a ∧
  value b `div` 2 ^ (width a - len) = value a `div` 2 ^ (width a - len).
Proof.
  intros Hlen. unfold prefix_first, prefix_last, ceil2, floor2.
  pose proof (Z.pow_pos_nonneg 2 (width a - len)) as Hp.
  destruct a as [x|x], b as [y|y]; simpl in *; try (by intuition discriminate);
    set (m := 2 ^ _) in *;
    pose proof (Z.div_mod y m); pose proof (Z.mod_pos_bound y m);
    (split; [intros [??]; split; [done|]|intros [_ ?]]; nia).
Qed.

(** ** Sizes of ranges *)

Lemma existsb_nonzero l :
  Forall is_byte l → existsb (λ b, negb (b =? 0)) l = negb (be_combine l =? 0).
Proof.
  induction 1 as [|b l Hb Hl IH]; [done|]. cbn [existsb be_combine].
  rewrite IH. pose proof (be_combine_bound _ Hl). pose proof (pow256_pos (length l)).
  unfold is_byte in Hb.
  destruct (Z.eqb_spec b 0) as [->|]; [by rewrite Z.mul_0_l|]. simpl.
  symmetry. apply negb_true_iff, Z.eqb_neq. nia.
Qed.

Lemma accumulate_u64 l acc :
  Forall is_byte l → 0 ≤ acc → (acc + 1) * 256 ^ Z.of_nat (length l) ≤ 2 ^ 64 →
  foldl (λ numeric b, (numeric * 2 ^ 8) `mod` 2 ^ 64 + b) acc l =
    acc * 256 ^ Z.of_nat (length l) + be_combine l.
Proof.
  intros Hl. revert acc. induction Hl as [|b l Hb Hl IH]; intros acc Ha Hacc.
  { cbn [foldl length be_combine]. simpl. lia. }
  cbn [foldl length be_combine] in *. rewrite pow256_succ in *.
  pose proof (pow256_pos (length l)). unfold is_byte in Hb.
  rewrite Z.mod_small by nia. rewrite IH by nia. ring.
Qed.

Lemma addrsInRange_Ok min max :
  wf_addr min → wf_addr max → getFamily min = getFamily max → addr_le min max →
  addrsInRange min max = Ok (Z.min u64_max (value max - value min + 1)).
Proof.
  intros Hmin Hmax Hf Hle. unfold addrsInRange.
  rewrite Hf, Z.eqb_refl, (proj2 (lessThan_false _ _)) by done. cbn [negb].
  unfold wf_addr, u64_max in *.
  destruct min as [x|x], max as [y|y]; try done; simpl in Hle, Hmin, Hmax; cbn [isV4].
  { simpl. unfold mret, res_ret. f_equal. lia. }
  rewrite subtract_Ok by done. cbn [with_value value width mbind res_bind].
  rewrite Z.mod_small by lia. unfold equals, max6. case_bool_decide as E.
  { unfold mret, res_ret. injection E as E. f_equal. lia. }
  rewrite increase_Ok by (unfold wf_addr; simpl; lia).
  cbn [with_value value width mbind res_bind].
  rewrite Z.mod_small by (assert (y - x ≠ 2 ^ 128 - 1) by congruence; lia).
  set (d := y - x + 1). set (l := toBytes (V6 d)).
  pose proof (toBytes_bytes (V6 d)) as Hl. fold l in Hl.
  assert (length l = 16%nat) as Hlen by apply length_toBytes.
  assert (be_combine l = d) as Hd.
  { apply be_combine_toBytes. unfold wf_addr; simpl. subst d.
    assert (y - x ≠ 2 ^ 128 - 1) by congruence. lia. }
  rewrite <- (take_drop 8 l), be_combine_app, length_drop, Hlen in Hd.
  pose proof (be_combine_bound _ (Forall_drop _ 8 _ Hl)) as Hlo.
  pose proof (be_combine_bound _ (Forall_take _ 8 _ Hl)) as Hhi.
  clearbody l. rewrite length_drop, Hlen in Hlo.
  change (256 ^ Z.of_nat (16 - 8)) with (2 ^ 64) in Hlo, Hd.
  rewrite existsb_nonzero by (by apply Forall_take).
  rewrite (take_ge (drop 8 l)) by (rewrite length_drop; lia).
  rewrite accumulate_u64;
    [|by apply Forall_drop|done|by rewrite length_drop, Hlen].
  unfold mret, res_ret. destruct (Z.eqb_spec (be_combine (take 8 l)) 0); cbn [negb]; f_equal; lia.
Qed.

(** [addrsInRange] returns the number of addresses of the range, capped
    at the largest 64-bit value; it throws [BadValue] when the families differ
    or the bounds are swapped. *)
Theorem addrsInRange_spec (min max : IOAddress)
    (Hmin : wf_addr min) (Hmax : wf_addr max) :
  addrsInRange min max =
    if bool_decide (getFamily min = getFamily max ∧ addr_le min max)
    then Ok (Z.min u64_max (value max - value min + 1))
    else Throw BadValue.
Proof.
  case_bool_decide as H; [by apply addrsInRange_Ok; destruct H|].
  unfold addrsInRange. destruct (Z.eqb_spec (getFamily min) (getFamily max)); [|done].
  rewrite (proj2 (lessThan_spec _ _)) by tauto. done.
Qed.

Lemma addrsInRange_spec_witness :
  wf_addr (V6 0) ∧ wf_addr (V6 (2 ^ 128 - 1)) ∧
  addrsInRange (V6 0) (V6 (2 ^ 128 - 1)) = Ok u64_max.
Proof.
  assert (wf_addr (V6 0)) as H1 by (split; [done|reflexivity]).
  assert (wf_addr (V6 (2 ^ 128 - 1))) as H2 by (split; [done|reflexivity]).
  split; [exact H1|split; [exact H2|]].
  rewrite (addrsInRange_spec (V6 0) (V6 (2 ^ 128 - 1)) H1 H2). vm_compute. reflexivity.
Defined.

Lemma prefixesInRange_eq pool_len delegated_len :
  prefixesInRange pool_len delegated_len =
    if delegated_len <? pool_len then 0
    else Z.min u64_max (2 ^ (delegated_len - pool_len)).
Proof.
  unfold prefixesInRange, u64_max. destruct (Z.ltb_spec delegated_len pool_len); [done|].
  set (c := delegated_len - pool_len). assert (0 ≤ c) by (subst c; lia).
  destruct (Z.eqb_spec c 0) as [->|]; [done|].
  destruct (Z.leb_spec 64 c) as [H'|H'].
  - pose proof (Z.pow_le_mono_r 2 64 c). lia.
  - rewrite Z.shiftl_mul_pow2 by lia. rewrite <- Z.pow_succ_r by lia.
    replace (Z.succ (c - 1)) with c by lia.
    pose proof (Z.pow_lt_mono_r 2 c 64). pose proof (Z.pow_pos_nonneg 2 c).
    rewrite Z.mod_small by lia. lia.
Qed.

(** [prefixesInRange] is the number of delegated prefixes of a pool,
    two to the difference of the lengths, capped at the largest 64-bit value. *)
Theorem prefixesInRange_spec (pool_len delegated_len : Z) :
  prefixesInRange pool_len delegated_len =
    if delegated_len <? pool_len then 0
    else Z.min u64_max (2 ^ (delegated_len - pool_len)).
Proof. apply prefixesInRange_eq. Qed.

(** ** The prefix length of a range *)

Lemma lxor_floor_ceil k a : 0 ≤ k → Z.lxor (floor2 k a) (ceil2 k a) = 2 ^ k - 1.
Proof.
  intros Hk. rewrite <- lor_ones by done. unfold floor2.
  rewrite <- Z.shiftr_div_pow2, <- Z.shiftl_mul_pow2, <- Z.ldiff_ones_r by lia.
  rewrite Z.sub_1_r, <- Z.ones_equiv. zbits.
Qed.

Lemma find_bitMask4 len : 0 ≤ len ≤ 32 → bitMask4_index (2 ^ (32 - len) - 1) = len.
Proof.
  intros H. apply Z.eqb_eq.
  apply (forallb_seqZ (λ len, bitMask4_index (2 ^ (32 - len) - 1) =? len) 0 33);
    [by vm_compute|lia].
Qed.

Lemma prefixLength_loop_zeroes i n xs :
  prefixLength_loop i (replicate n 0 ++ xs) true 128 =
  prefixLength_loop (i + Z.of_nat n) xs true 128.
Proof.
  revert i. induction n as [|n IH]; intros i; cbn [replicate app prefixLength_loop].
  - by rewrite Z.add_0_r.
  - rewrite Z.eqb_refl, IH. f_equal. lia.
Qed.

Lemma prefixLength_loop_ones i n c : prefixLength_loop i (replicate n 255) false c = c.
Proof. revert i. induction n as [|n IH]; intros i; simpl; auto. Qed.

Lemma match_revMask6_spec i r : 0 ≤ r < 8 → match_revMask6 i (at_ revMask6 r) 128 = i * 8 + r.
Proof.
  intros H. assert (r = 0 ∨ r = 1 ∨ r = 2 ∨ r = 3 ∨ r = 4 ∨ r = 5 ∨ r = 6 ∨ r = 7)
    as Hr by lia. by destruct_or! Hr; subst.
Qed.

Lemma zip_lxor_same l : zip_with Z.lxor l l = replicate (length l) 0.
Proof. induction l as [|x l IH]; simpl; [done|]. by rewrite Z.lxor_nilpotent, IH. Qed.

(** The exclusive or of the bytes of the first and the last address. *)
Lemma xor_prefix_bytes a len :
  0 ≤ len ≤ 128 →
  zip_with Z.lxor (prefix_bytes a len (floor2 (8 - len `mod` 8)) 0)
                  (prefix_bytes a len (ceil2 (8 - len `mod` 8)) 255) =
  replicate (Z.to_nat (len `div` 8)) 0 ++
  (if len `mod` 8 =? 0 then replicate (16 - Z.to_nat (len `div` 8)) 255
   else at_ revMask6 (len `mod` 8) :: replicate (15 - Z.to_nat (len `div` 8)) 255).
Proof.
  intros Hlen. destruct (q_bound len Hlen) as (_ & Hq & _). unfold prefix_bytes.
  assert (length (take (Z.to_nat (len `div` 8)) (toBytes (V6 a))) = Z.to_nat (len `div` 8)) as Ht
    by (rewrite length_take, length_toBytes; simpl; lia).
  destruct (Z.eqb_spec (len `mod` 8) 0) as [E|E];
    rewrite zip_with_app by done; rewrite zip_lxor_same, Ht; f_equal.
  - by rewrite zip_with_replicate.
  - simpl. f_equal; [|by rewrite zip_with_replicate].
    apply revMask6_xor; [by apply mod8_proper|apply at_byte].
Qed.

Lemma prefixLength_loop_xors len :
  0 ≤ len ≤ 128 →
  prefixLength_loop 0
    (replicate (Z.to_nat (len `div` 8)) 0 ++
     (if len `mod` 8 =? 0 then replicate (16 - Z.to_nat (len `div` 8)) 255
      else at_ revMask6 (len `mod` 8) :: replicate (15 - Z.to_nat (len `div` 8)) 255))
    true 128 = len.
Proof.
  intros Hlen. destruct (q_bound len Hlen) as (Hqz & Hq & Hq').
  pose proof (Z.div_mod len 8 ltac:(lia)) as Hdm.
  rewrite prefixLength_loop_zeroes, Z.add_0_l, Hqz. set (q := Z.to_nat _) in *.
  destruct (Z.eqb_spec (len `mod` 8) 0) as [E|E].
  - destruct (16 - q)%nat as [|n] eqn:En; cbn [replicate prefixLength_loop]; [lia|].
    pose proof (match_revMask6_spec (len `div` 8) 0 ltac:(lia)) as Hm.
    change (at_ revMask6 0) with 255 in Hm. rewrite Hm. change (255 =? 0) with false.
    rewrite (proj2 (Z.eqb_neq _ _)) by lia. rewrite prefixLength_loop_ones. lia.
  - cbn [prefixLength_loop]. specialize (Hq' E). apply mod8_proper in E.
    rewrite match_revMask6_spec by lia.
    assert ((at_ revMask6 (len `mod` 8) =? 0) = false) as ->.
    { apply negb_true_iff.
      apply (forallb_seqZ (λ r, negb (at_ revMask6 r =? 0)) 0 8); [done|lia]. }
    rewrite (proj2 (Z.eqb_neq _ _)) by lia. rewrite prefixLength_loop_ones. lia.
Qed.

(** the length of a prefix is recovered from its first and last address. *)
Theorem prefixLengthFromRange_prefix (a : IOAddress) (len : Z)
    (Hwf : wf_addr a) (Hlen : 0 ≤ len ≤ width a) :
  prefixLengthFromRange (prefix_first a len) (prefix_last a len) = Ok len.
Proof.
  unfold prefixLengthFromRange.
  assert (getFamily (prefix_first a len) = getFamily (prefix_last a len)) as ->
    by (by destruct a).
  rewrite Z.eqb_refl. cbn [negb].
  assert (addr_le (prefix_first a len) (prefix_last a len)) as Hle.
  { apply (in_prefix_iff a len); [done|]. split; [by destruct a|].
    unfold prefix_first, floor2. rewrite value_with_value, Z.div_mul; [done|].
    apply Z.pow_nonzero; lia. }
  rewrite (proj2 (lessThan_false _ _)) by done.
  destruct a as [x|x]; cbn [isV4 prefix_first prefix_last with_value toUint32 mbind res_bind];
    unfold mret, res_ret; f_equal; simpl in Hlen.
  - rewrite Z.lxor_comm. cbn [width value]. rewrite lxor_floor_ceil by lia.
    by apply find_bitMask4.
  - cbn [width value]. rewrite <- prefix_bytes_first, <- prefix_bytes_last by done.
    rewrite !toBytes_combine by (apply length_prefix_bytes || apply prefix_bytes_bytes;
      auto using ceil2_byte, floor2_byte, mod8_proper, at_byte; by split).
    rewrite xor_prefix_bytes by done. by apply prefixLength_loop_xors.
Qed.

Lemma prefixLengthFromRange_prefix_witness :
  wf_addr (V4 0xC0000285) ∧
  prefixLengthFromRange (V4 0xC0000280) (V4 0xC00002FF) = Ok 25.
Proof.
  assert (wf_addr (V4 0xC0000285)) as H by (split; [done|reflexivity]).
  split; [exact H|].
  refine (prefixLengthFromRange_prefix (V4 0xC0000285) 25 H _). simpl. lia.
Defined.

(** the converse fails: [prefixLengthFromRange] reports /30 for the range
    192.0.2.1 - 192.0.2.2, which is not the range of any prefix, because only
    the exclusive or of the two bounds is looked at. *)
Theorem prefixLengthFromRange_unaligned :
  prefixLengthFromRange (V4 0xC0000201) (V4 0xC0000202) = Ok 30 ∧
  ∀ len, 0 ≤ len ≤ 32 →
    (prefix_first (V4 0xC0000201) len, prefix_last (V4 0xC0000201) len)
    ≠ (V4 0xC0000201, V4 0xC0000202).
Proof.
  split; [reflexivity|]. intros len Hlen [= Hf Hl].
  pose proof (forallb_seqZ (λ len, negb ((floor2 (32 - len) 0xC0000201 =? 0xC0000201)
    && (ceil2 (32 - len) 0xC0000201 =? 0xC0000202))) 0 33 eq_refl len ltac:(lia)) as H.
  unfold width, value in *. by rewrite Hf, Hl in H.
Qed.
