(* ===== verification/PdExclude.v ===== *)
(** * The Prefix Exclude option ([src/lib/dhcp/option6_pdexclude.cc])

    RFC 6603: the option carries the length of a prefix excluded from a
    delegated prefix and the bits that follow the delegated prefix in it.  The
    bitsets of the source are 128-bit integers here; [bits.set] with a position
    outside the bitset, which Boost answers with an assertion, is modelled by
    the exception [AssertionFailure]. *)

From S2P Require Import Prelude IoAddress AddrUtilities.
Local Open Scope Z_scope.

Record Option6PDExclude := {
  excluded_prefix_length_ : Z;
  subnet_id_ : list Z
}.

Definition getSubnetIDLength (delegated_prefix_length excluded_prefix_length : Z) : Z :=
  let subnet_id_length_bits :=
    u8 (excluded_prefix_length - delegated_prefix_length - 1) in
  subnet_id_length_bits `div` 8 + 1.

(** The loop of the constructor: [n] bytes are left to store, [bits] is the
    128-bit set they are taken from. *)
Fixpoint subnet_id_loop (n : nat) (bits length_delta : Z) : list Z :=
  match n with
  | O => []
  | S n' =>
      let val := Z.shiftr bits 120 in
      let val :=
        if (n' =? 0)%nat then
          if negb (length_delta `mod` 8 =? 0) then
            Z.land val (u8 (Z.shiftl 0xFF (8 - length_delta `mod` 8)))
          else val
        else val in
      val :: subnet_id_loop n' (Z.shiftl bits 8 `mod` 2 ^ 128) length_delta
  end.

Definition mkOption6PDExclude (delegated_prefix : IOAddress) (delegated_prefix_length : Z)
    (excluded_prefix : IOAddress) (excluded_prefix_length : Z) : res Option6PDExclude :=
  if negb (isV6 delegated_prefix) || negb (isV6 excluded_prefix)
     || (128 <? delegated_prefix_length) || (128 <? excluded_prefix_length)
  then Throw BadValue
  else if excluded_prefix_length <=? delegated_prefix_length then Throw BadValue
  else
    let delegated_prefix_bits := value delegated_prefix in
    let excluded_prefix_bits := value excluded_prefix in
    let delta := 128 - delegated_prefix_length in
    if negb (Z.shiftr delegated_prefix_bits delta =? Z.shiftr excluded_prefix_bits delta)
    then Throw BadValue
    else
      let excluded_prefix_bits :=
        Z.shiftl excluded_prefix_bits delegated_prefix_length `mod` 2 ^ 128 in
      let subnet_id_length :=
        getSubnetIDLength delegated_prefix_length excluded_prefix_length in
      Ok {| excluded_prefix_length_ := excluded_prefix_length;
            subnet_id_ := subnet_id_loop (Z.to_nat subnet_id_length) excluded_prefix_bits
                            (u8 (excluded_prefix_length - delegated_prefix_length)) |}.

(** The option body [pack] writes after the header. *)
Definition pack (self : Option6PDExclude) : res (list Z) :=
  if (excluded_prefix_length_ self =? 0) || bool_decide (subnet_id_ self = [])
  then Throw BadValue
  else Ok (excluded_prefix_length_ self :: subnet_id_ self).

Definition unpack (buf : list Z) : res Option6PDExclude :=
  if (length buf <? 2)%nat then Throw BadValue
  else
    match buf with
    | [] => Throw BadValue
    | excluded_prefix_length :: subnet_id_bytes =>
        if excluded_prefix_length =? 0 then Throw BadValue
        else
          let last_bits_num := excluded_prefix_length `mod` 8 in
          let n := (length subnet_id_bytes - 1)%nat in
          let subnet_id_bytes :=
            if 0 <? last_bits_num then
              <[n := u8 (Z.shiftl (Z.shiftr (default 0 (subnet_id_bytes !! n))
                                            (8 - last_bits_num)) (8 - last_bits_num))]>
                subnet_id_bytes
            else subnet_id_bytes in
          Ok {| excluded_prefix_length_ := excluded_prefix_length;
                subnet_id_ := subnet_id_bytes |}
    end.

(** [bits.set(pos, val)] on a bitset of 128 bits. *)
Definition bitset_set (bits pos : Z) (val : bool) : res Z :=
  if (0 <=? pos) && (pos <? 128) then
    Ok (if val then Z.setbit bits pos else Z.clearbit bits pos)
  else Throw AssertionFailure.

(** The loop [for (int i = n - 1; i >= 0; --i)] of [getExcludedPrefix]. *)
Fixpoint set_bits_loop (n : nat) (bits base subnet_id_bits : Z) : res Z :=
  match n with
  | O => Ok bits
  | S i =>
      bits ← bitset_set bits (base + Z.of_nat i) (Z.testbit subnet_id_bits (Z.of_nat i));
      set_bits_loop i bits base subnet_id_bits
  end.

Definition getExcludedPrefix (self : Option6PDExclude) (delegated_prefix : IOAddress)
    (delegated_prefix_length : Z) : res IOAddress :=
  let delegated_prefix_bytes := toBytes delegated_prefix in
  let bytes_length := delegated_prefix_length `div` 8
                      + (if negb (delegated_prefix_length `mod` 8 =? 0) then 1 else 0) in
  let delegated_prefix_bytes := fill delegated_prefix_bytes bytes_length 0 in
  let bits := be_combine delegated_prefix_bytes in
  let subnet_id_bits := be_combine (subnet_id_ self) in
  let size := (8 * length (subnet_id_ self))%nat in
  bits ← set_bits_loop size bits (128 - delegated_prefix_length - Z.of_nat size)
                       subnet_id_bits;
  fromBytes AF_INET6 (be_split 16 bits).

Example pd_ex1 :
  (o ← mkOption6PDExclude (V6 (0x20010db8 * 2^96)) 59 (V6 (0x20010db8 * 2^96 + 5 * 2^64)) 64;
   getExcludedPrefix o (V6 (0x20010db8 * 2^96)) 59)
  = Ok (V6 (0x20010db8 * 2^96 + 5 * 2^64)).
Proof. reflexivity. Qed.
Example pd_ex2 :
  (o ← mkOption6PDExclude (V6 (0x20010db8 * 2^96)) 126 (V6 (0x20010db8 * 2^96 + 1)) 128;
   getExcludedPrefix o (V6 (0x20010db8 * 2^96)) 126)
  = Throw AssertionFailure.
Proof. reflexivity. Qed.
Example pd_ex3 :
  (o ← mkOption6PDExclude (V6 (0x20010db8 * 2^96)) 62 (V6 (0x20010db8 * 2^96 + 31 * 2^61)) 67;
   b ← pack o; mret (o, unpack b))
  = Ok (Build_Option6PDExclude 67 [248], Ok (Build_Option6PDExclude 67 [224])).
Proof. reflexivity. Qed.

(** ** The excluded prefix can be rebuilt from the option *)

Lemma testbit_floor2 k z p :
  0 ≤ k → 0 ≤ p → Z.testbit (floor2 k z) p = (k <=? p) && Z.testbit z p.
Proof.
  intros Hk Hp. unfold floor2.
  rewrite <- Z.shiftr_div_pow2, <- Z.shiftl_mul_pow2 by lia.
  rewrite Z.shiftl_spec by lia. destruct (Z.leb_spec k p).
  - rewrite Z.shiftr_spec by lia. cbn [andb]. f_equal; lia.
  - rewrite Z.testbit_neg_r by lia. done.
Qed.

Lemma testbit_div_pow2 z k p :
  0 ≤ k → 0 ≤ p → Z.testbit (z `div` 2 ^ k) p = Z.testbit z (p + k).
Proof. intros. rewrite <- Z.shiftr_div_pow2, Z.shiftr_spec by lia. done. Qed.

(** Number of low bits of the last byte the constructor clears. *)
Definition pad_bits (length_delta : Z) : Z :=
  if length_delta `mod` 8 =? 0 then 0 else 8 - length_delta `mod` 8.

Lemma pad_bits_bound d : 0 ≤ pad_bits d < 8.
Proof.
  unfold pad_bits. pose proof (Z.mod_pos_bound d 8).
  destruct (Z.eqb_spec (d `mod` 8) 0); lia.
Qed.

Lemma pad_mask val d :
  is_byte val →
  (if negb (d `mod` 8 =? 0) then Z.land val (u8 (Z.shiftl 0xFF (8 - d `mod` 8))) else val)
  = floor2 (pad_bits d) val.
Proof.
  intros Hv. unfold pad_bits. destruct (Z.eqb_spec (d `mod` 8) 0) as [|E]; cbn [negb].
  - unfold floor2. by rewrite Z.div_1_r, Z.mul_1_r.
  - apply Z.eqb_eq. apply (forall_byte_offsets (λ r b,
      Z.land b (u8 (Z.shiftl 255 (8 - r))) =? floor2 (8 - r) b)); auto using mod8_proper.
Qed.

Lemma floor2_0 z : floor2 0 z = z.
Proof. unfold floor2. by rewrite Z.div_1_r, Z.mul_1_r. Qed.

(** Reading [N] more bits of a 128-bit string: the first byte, then [N] bits of
    the string shifted by a byte. *)
Lemma shift_out_byte bits N :
  0 ≤ bits < 2 ^ 128 → 0 ≤ N ≤ 120 →
  bits `div` 2 ^ 120 * 2 ^ N + ((bits * 2 ^ 8) `mod` 2 ^ 128) `div` 2 ^ (128 - N)
  = bits `div` 2 ^ (120 - N).
Proof.
  intros Hb HN. set (q := bits `div` 2 ^ 120). set (r := bits `mod` 2 ^ 120).
  assert (bits = 2 ^ 120 * q + r) as Hqr by (apply Z.div_mod; lia).
  assert (0 ≤ r < 2 ^ 120) by (apply Z.mod_pos_bound; lia).
  rewrite <- (Z.mod_unique (bits * 2 ^ 8) (2 ^ 128) q (r * 2 ^ 8)) by lia.
  replace (128 - N) with (120 - N + 8) by lia.
  rewrite Z.pow_add_r, Z.div_mul_cancel_r by lia.
  rewrite Hqr at 1. replace (2 ^ 120) with (2 ^ N * 2 ^ (120 - N))
    by (rewrite <- Z.pow_add_r by lia; f_equal; lia).
  replace (2 ^ N * 2 ^ (120 - N) * q + r) with (r + q * 2 ^ N * 2 ^ (120 - N)) by ring.
  rewrite Z.div_add by lia. lia.
Qed.

Lemma subnet_id_loop_spec n bits d :
  0 ≤ bits < 2 ^ 128 → (S n ≤ 16)%nat →
  let l := subnet_id_loop (S n) bits d in
  length l = S n ∧ Forall is_byte l ∧
  be_combine l = floor2 (pad_bits d) (bits `div` 2 ^ (128 - 8 * Z.of_nat (S n))).
Proof.
  revert bits. induction n as [|n IH]; intros bits Hb Hn l; subst l.
  - assert (is_byte (Z.shiftr bits 120)) as Hv.
    { unfold is_byte. rewrite Z.shiftr_div_pow2 by lia. split.
      - apply Z.div_pos; lia.
      - apply Z.div_lt_upper_bound; lia. }
    cbn [subnet_id_loop Nat.eqb]. rewrite pad_mask by done.
    pose proof (pad_bits_bound d).
    split_and!; [done| |].
    + constructor; [|done]. unfold is_byte in *.
      pose proof (floor2_bounds (pad_bits d) (Z.shiftr bits 120)). lia.
    + cbn [be_combine length]. rewrite Z.shiftr_div_pow2 by lia.
      change (128 - 8 * Z.of_nat 1) with 120. simpl. lia.
  - remember (S n) as m. cbn [subnet_id_loop]. rewrite (proj2 (Nat.eqb_neq m 0)) by lia.
    destruct (IH (Z.shiftl bits 8 `mod` 2 ^ 128)) as (Hl & Hby & Hc);
      [apply Z.mod_pos_bound; lia|lia|].
    rewrite Z.shiftr_div_pow2 by lia.
    split_and!; [by cbn [length]; f_equal| |].
    + constructor; [|done]. split; [apply Z.div_pos; lia|].
      apply Z.div_lt_upper_bound; lia.
    + cbn [be_combine]. rewrite Hc, Hl, pow256_pow2.
      set (N := 8 * Z.of_nat m).
      assert (8 ≤ N ≤ 120) by lia. pose proof (pad_bits_bound d).
      rewrite <- floor2_low by lia. f_equal.
      replace (128 - 8 * Z.of_nat (S m)) with (120 - N) by lia.
      rewrite Z.shiftl_mul_pow2 by lia. apply shift_out_byte; lia.
Qed.

(** The loop writes the subnet identifier at [base] when it fits, and fails
    when a position of it lies outside the bitset. *)
Lemma set_bits_loop_spec n bits base sid :
  0 ≤ bits → 0 ≤ base → base + Z.of_nat n ≤ 128 →
  ∃ r, set_bits_loop n bits base sid = Ok r ∧ 0 ≤ r ∧
    ∀ p, 0 ≤ p → Z.testbit r p =
      if (base <=? p) && (p <? base + Z.of_nat n) then Z.testbit sid (p - base)
      else Z.testbit bits p.
Proof.
  revert bits. induction n as [|n IH]; intros bits Hb Hbase Hn.
  { exists bits. split_and!; [done|done|]. intros p Hp.
    destruct (Z.leb_spec base p), (Z.ltb_spec p (base + Z.of_nat 0)); simpl; done || lia. }
  cbn [set_bits_loop]. unfold bitset_set.
  rewrite (proj2 (Z.leb_le _ _)), (proj2 (Z.ltb_lt _ _)) by lia. cbn [andb mbind res_bind].
  set (b := if Z.testbit sid (Z.of_nat n) then _ else _).
  assert (0 ≤ b) as Hb'.
  { subst b. case_match; [apply Z.lor_nonneg|apply Z.ldiff_nonneg]; split_and?; auto;
      apply Z.shiftl_nonneg; lia. }
  destruct (IH b Hb') as (r & -> & Hr & Hbits); [lia|lia|].
  exists r. split_and!; [done|done|]. intros p Hp. rewrite Hbits by done.
  destruct (Z.leb_spec base p), (Z.ltb_spec p (base + Z.of_nat n)),
    (Z.ltb_spec p (base + Z.of_nat (S n))); cbn [andb]; try done; try lia;
    subst b; [replace p with (base + Z.of_nat n) by lia| |];
    replace (base + Z.of_nat n - base) with (Z.of_nat n) by lia;
    destruct (Z.testbit sid (Z.of_nat n));
    rewrite ?Z.setbit_eq, ?Z.clearbit_eq, ?Z.setbit_neq, ?Z.clearbit_neq by lia; done.
Qed.

Lemma set_bits_loop_throws n bits base sid :
  base < 0 → set_bits_loop (S n) bits base sid = Throw AssertionFailure.
Proof.
  intros Hbase. revert bits. induction n as [|n IH]; intros bits.
  - cbn [set_bits_loop]. unfold bitset_set. by rewrite (proj2 (Z.leb_gt _ _)) by lia.
  - remember (S n) as m. cbn [set_bits_loop]. unfold bitset_set.
    destruct ((_ <=? _) && _); [apply IH|done].
Qed.

(** The bytes of the delegated prefix that [getExcludedPrefix] keeps. *)
Lemma filled_prefix_bits x len p :
  0 ≤ x < 2 ^ 128 → 0 ≤ len ≤ 128 → 0 ≤ p →
  let q := len `div` 8 + (if negb (len `mod` 8 =? 0) then 1 else 0) in
  let b := be_combine (fill (toBytes (V6 x)) q 0) in
  0 ≤ b ∧ (128 - len ≤ p → Z.testbit b p = Z.testbit x p)
  ∧ (p < 128 - 8 * q → Z.testbit b p = false) ∧ len ≤ 8 * q ≤ len + 7 ∧ q ≤ 16.
Proof.
  intros Hx Hlen Hp q b.
  assert (len ≤ 8 * q ≤ len + 7 ∧ 0 ≤ q ≤ 16) as [Hq Hq16].
  { pose proof (Z.div_mod len 8). pose proof (Z.mod_pos_bound len 8). subst q.
    destruct (Z.eqb_spec (len `mod` 8) 0); cbn [negb]; lia. }
  assert (b = floor2 (128 - 8 * q) x) as ->.
  { subst b. rewrite fill_spec by (rewrite length_toBytes; simpl; lia).
    set (l := toBytes (V6 x)). assert (length l = 16%nat) as Hl by apply length_toBytes.
    assert (be_combine l = x) as Hc by (apply be_combine_toBytes; exact Hx).
    pose proof (toBytes_bytes (V6 x)) as Hby. fold l in Hby. clearbody l.
    rewrite <- (take_drop (Z.to_nat q) l), be_combine_app, length_drop, Hl in Hc.
    pose proof (be_combine_bound _ (Forall_drop _ (Z.to_nat q) _ Hby)) as Hlo.
    rewrite length_drop, Hl in Hlo.
    rewrite be_combine_app, be_combine_replicate0, length_replicate, Hl, Z.add_0_r.
    rewrite pow256_pow2 in *.
    replace (8 * Z.of_nat (16 - Z.to_nat q)) with (128 - 8 * q) in * by lia.
    rewrite <- Hc. replace (128 - 8 * q) with (128 - 8 * q + 0) at 2 by lia.
    rewrite floor2_digits by lia. by rewrite floor2_0. }
  split_and!; try lia.
  - pose proof (floor2_bounds (128 - 8 * q) x). lia.
  - intros ?. rewrite testbit_floor2, (proj2 (Z.leb_le _ _)) by lia. done.
  - intros ?. rewrite testbit_floor2, (proj2 (Z.leb_gt _ _)) by lia. done.
Qed.

Lemma getSubnetIDLength_spec dl el :
  0 ≤ dl < el → el ≤ 128 →
  let k := getSubnetIDLength dl el in
  1 ≤ k ≤ 16 ∧ 8 * k - pad_bits (u8 (el - dl)) = el - dl.
Proof.
  intros Hd He. unfold getSubnetIDLength, pad_bits, u8. cbn zeta.
  rewrite (Z.mod_small (el - dl - 1) 256), (Z.mod_small (el - dl) 256) by lia.
  pose proof (Z.div_mod (el - dl - 1) 8). pose proof (Z.mod_pos_bound (el - dl - 1) 8).
  pose proof (Z.div_mod (el - dl) 8). pose proof (Z.mod_pos_bound (el - dl) 8).
  destruct (Z.eqb_spec ((el - dl) `mod` 8) 0); lia.
Qed.

(** What an accepted pair of prefixes satisfies, and the option built. *)
Lemma mkOption6PDExclude_Ok dp dl ep el o :
  mkOption6PDExclude dp dl ep el = Ok o →
  ∃ d e, dp = V6 d ∧ ep = V6 e ∧ dl < el ≤ 128 ∧
    Z.shiftr d (128 - dl) = Z.shiftr e (128 - dl) ∧
    o = {| excluded_prefix_length_ := el;
           subnet_id_ := subnet_id_loop (Z.to_nat (getSubnetIDLength dl el))
                           (Z.shiftl e dl `mod` 2 ^ 128) (u8 (el - dl)) |}.
Proof.
  unfold mkOption6PDExclude. destruct dp as [d|d], ep as [e|e]; try done. cbn [isV6 negb orb].
  destruct (Z.ltb_spec 128 dl), (Z.ltb_spec 128 el); try done. cbn [orb].
  destruct (Z.leb_spec el dl); [done|].
  destruct (Z.eqb_spec (Z.shiftr (value (V6 d)) (128 - dl)) (Z.shiftr (value (V6 e)) (128 - dl)));
    [|done]. intros [= <-]. by exists d, e; split_and!.
Qed.

(** The subnet identifier, as a number: the bits of the excluded prefix that
    follow the delegated prefix, padded with zeroes to whole bytes. *)
Lemma subnet_id_bits e dl el j :
  0 ≤ dl < el → el ≤ 128 → 0 ≤ e < 2 ^ 128 →
  let k := getSubnetIDLength dl el in
  let l := subnet_id_loop (Z.to_nat k) (Z.shiftl e dl `mod` 2 ^ 128) (u8 (el - dl)) in
  Z.of_nat (length l) = k ∧ Forall is_byte l ∧
  (0 ≤ j < 8 * k → Z.testbit (be_combine l) j =
     (128 - el <=? j + (128 - dl - 8 * k)) && Z.testbit e (j + (128 - dl - 8 * k))).
Proof.
  intros Hd He Hv k l. destruct (getSubnetIDLength_spec dl el Hd He) as [Hk Hp].
  fold k in Hk, Hp. pose proof (pad_bits_bound (u8 (el - dl))).
  destruct (Z.to_nat k) as [|n] eqn:En; [lia|].
  destruct (subnet_id_loop_spec n (Z.shiftl e dl `mod` 2 ^ 128) (u8 (el - dl)))
    as (Hlen & Hby & Hc); [apply Z.mod_pos_bound; lia|lia|].
  subst l. split_and!; [lia|done|]. intros Hj. rewrite Hc.
  replace (8 * Z.of_nat (S n)) with (8 * k) by lia.
  rewrite testbit_floor2, testbit_div_pow2 by lia.
  rewrite Z.mod_pow2_bits_low, Z.shiftl_spec by lia.
  f_equal; [|f_equal; lia].
  destruct (Z.leb_spec (pad_bits (u8 (el - dl))) j),
    (Z.leb_spec (128 - el) (j + (128 - dl - 8 * k))); lia.
Qed.

(** the excluded prefix is rebuilt from the option and the delegated
    prefix whenever the option is built at all and the whole bytes of the
    subnet identifier fit after the delegated prefix; otherwise a position
    outside the 128 bits is written. *)
Theorem getExcludedPrefix_spec (dp ep : IOAddress) (dl el : Z) (o : Option6PDExclude)
    (Hdp : wf_addr dp) (Hep : wf_addr ep) (Hdl : 0 ≤ dl)
    (Ho : mkOption6PDExclude dp dl ep el = Ok o) :
  getExcludedPrefix o dp dl =
    if dl + 8 * getSubnetIDLength dl el <=? 128
    then Ok (prefix_first ep el) else Throw AssertionFailure.
Proof.
  apply mkOption6PDExclude_Ok in Ho as (d & e & -> & -> & Hel & Hsh & ->).
  unfold wf_addr in *. cbn [value width] in *.
  pose proof (λ j, subnet_id_bits e dl el j ltac:(lia) ltac:(lia) Hep) as Hsid.
  destruct (getSubnetIDLength_spec dl el ltac:(lia) ltac:(lia)) as [Hk Hpad].
  pose proof (pad_bits_bound (u8 (el - dl))).
  unfold getExcludedPrefix. cbn [subnet_id_]. cbn zeta in Hsid.
  set (k := getSubnetIDLength dl el) in *. set (l := subnet_id_loop _ _ _) in *.
  destruct (Hsid 0) as (Hlen & _ & _).
  destruct (filled_prefix_bits d dl 0) as (Hb & _); [done|lia|done|].
  pose proof (λ p, filled_prefix_bits d dl p Hdp ltac:(lia)) as Hfill. cbn zeta in *.
  set (q := dl `div` 8 + _) in *. set (b := be_combine (fill _ _ _)) in *.
  clearbody b. destruct (Z.leb_spec (dl + 8 * k) 128) as [Hfit|Hfit].
  - destruct (set_bits_loop_spec (8 * length l) b (128 - dl - Z.of_nat (8 * length l))
      (be_combine l)) as (r & -> & Hr & Hbits); [done|lia|lia|]. cbn [mbind res_bind].
    assert (r = floor2 (128 - el) e) as ->.
    { apply Z.bits_inj'. intros p Hp. rewrite Hbits, testbit_floor2 by lia.
      destruct (Hfill p Hp) as (_ & Hhi & Hlo & Hq).
      replace (Z.of_nat (8 * length l)) with (8 * k) by lia.
      destruct (Z.leb_spec (128 - dl - 8 * k) p); cbn [andb].
      - destruct (Z.ltb_spec p (128 - dl - 8 * k + 8 * k)).
        + destruct (Hsid (p - (128 - dl - 8 * k))) as (_ & _ & ->); [|lia].
          by rewrite !Z.sub_add.
        + rewrite Hhi, (proj2 (Z.leb_le (128 - el) p)) by lia. cbn [andb].
          replace p with (p - (128 - dl) + (128 - dl)) by lia.
          rewrite <- !Z.shiftr_spec by lia. by rewrite Hsh.
      - rewrite Hlo, (proj2 (Z.leb_gt (128 - el) p)) by lia. done. }
    rewrite (fromBytes_Ok (V6 0)) by (by rewrite length_be_split, length_toBytes).
    rewrite be_combine_split. unfold prefix_first. cbn [with_value width value].
    pose proof (floor2_bounds (128 - el) e). rewrite Z.mod_small by (simpl; lia). done.
  - destruct (8 * length l)%nat as [|n] eqn:En; [lia|].
    rewrite set_bits_loop_throws by lia. done.
Qed.

Lemma getExcludedPrefix_spec_witness :
  let dp := V6 (0x20010db8 * 2^96) in
  let ep := V6 (0x20010db8 * 2^96 + 0x55 * 2^64) in
  ∃ o, mkOption6PDExclude dp 56 ep 64 = Ok o ∧ getExcludedPrefix o dp 56 = Ok ep.
Proof.
  intros dp ep.
  assert (∃ o, mkOption6PDExclude dp 56 ep 64 = Ok o) as [o Ho] by (vm_compute; by eexists).
  exists o. split; [exact Ho|].
  assert (wf_addr dp) as Hdp by (split; [done|reflexivity]).
  assert (wf_addr ep) as Hep by (split; [done|reflexivity]).
  rewrite (getExcludedPrefix_spec dp ep 56 64 o Hdp Hep ltac:(lia) Ho).
  vm_compute. reflexivity.
Defined.

(** The last byte stored by the constructor has its padding bits cleared. *)
Lemma subnet_id_loop_last n bits d :
  0 ≤ bits < 2 ^ 128 →
  ∃ l v, subnet_id_loop (S n) bits d = l ++ [floor2 (pad_bits d) v] ∧ is_byte v.
Proof.
  revert bits. induction n as [|n IH]; intros bits Hb.
  - exists [], (Z.shiftr bits 120). assert (is_byte (Z.shiftr bits 120)) as Hv.
    { unfold is_byte. rewrite Z.shiftr_div_pow2 by lia.
      split; [apply Z.div_pos|apply Z.div_lt_upper_bound]; lia. }
    split; [|done]. cbn [subnet_id_loop Nat.eqb app]. by rewrite pad_mask.
  - destruct (IH (Z.shiftl bits 8 `mod` 2 ^ 128)) as (l & v & E & Hv);
      [apply Z.mod_pos_bound; lia|].
    remember (S n) as m. cbn [subnet_id_loop]. rewrite E. by eexists (_ :: l), v.
Qed.

(** Clearing the low bits of a byte with two shifts. *)
Lemma shift_floor2 r v : 0 < r < 8 → is_byte v →
  u8 (Z.shiftl (Z.shiftr (floor2 (8 - r) v) (8 - r)) (8 - r)) = floor2 (8 - r) v.
Proof.
  intros Hr Hv. rewrite Z.shiftr_div_pow2, Z.shiftl_mul_pow2 by lia.
  unfold floor2 at 1. rewrite Z.div_mul by (apply Z.pow_nonzero; lia).
  pose proof (floor2_byte r v Hr Hv) as Hb. unfold is_byte in Hb.
  apply Z.mod_small. exact Hb.
Qed.

(** an option built for a delegated prefix whose length is a multiple of
    eight survives [pack] followed by [unpack]. *)
Theorem pdexclude_pack_unpack (dp ep : IOAddress) (dl el : Z) (o : Option6PDExclude)
    (Hdl : 0 ≤ dl) (Hdl8 : dl `mod` 8 = 0)
    (Ho : mkOption6PDExclude dp dl ep el = Ok o) :
  (b ← pack o; unpack b) = Ok o.
Proof.
  apply mkOption6PDExclude_Ok in Ho as (d & e & -> & -> & Hel & _ & ->).
  destruct (getSubnetIDLength_spec dl el ltac:(lia) ltac:(lia)) as [Hk _].
  set (k := getSubnetIDLength dl el) in *.
  destruct (Z.to_nat k) as [|n] eqn:En; [lia|].
  destruct (subnet_id_loop_last n (Z.shiftl e dl `mod` 2 ^ 128) (u8 (el - dl)))
    as (l & v & -> & Hv); [apply Z.mod_pos_bound; lia|].
  assert (u8 (el - dl) `mod` 8 = el `mod` 8) as Hmod.
  { unfold u8. rewrite (Z.mod_small _ 256) by lia.
    rewrite Zminus_mod, Hdl8, Z.sub_0_r. by rewrite Z.mod_mod. }
  unfold pack. cbn [excluded_prefix_length_ subnet_id_].
  rewrite (proj2 (Z.eqb_neq el 0)), bool_decide_eq_false_2 by (lia || by destruct l).
  cbn [orb mbind res_bind]. unfold unpack.
  rewrite (proj2 (Nat.ltb_ge _ _)) by (cbn [length]; rewrite length_app; simpl; lia).
  rewrite (proj2 (Z.eqb_neq el 0)) by lia.
  destruct (Z.ltb_spec 0 (el `mod` 8)) as [Hr|Hr]; [|done].
  assert (0 < el `mod` 8 < 8) by (pose proof (Z.mod_pos_bound el 8); lia).
  unfold pad_bits. rewrite Hmod, (proj2 (Z.eqb_neq _ 0)) by lia.
  rewrite length_app. cbn [length]. rewrite Nat.add_sub.
  rewrite list_lookup_middle, insert_app_r_alt, Nat.sub_diag by done.
  cbn [default option_rect from_option id]. rewrite shift_floor2 by done. done.
Qed.

Lemma pdexclude_pack_unpack_witness :
  let dp := V6 (0x20010db8 * 2^96) in
  let ep := V6 (0x20010db8 * 2^96 + 0x55 * 2^64) in
  ∃ o, mkOption6PDExclude dp 56 ep 64 = Ok o ∧ (b ← pack o; unpack b) = Ok o.
Proof.
  intros dp ep.
  assert (∃ o, mkOption6PDExclude dp 56 ep 64 = Ok o) as [o Ho] by (vm_compute; by eexists).
  exists o. split; [exact Ho|].
  exact (pdexclude_pack_unpack dp ep 56 64 o ltac:(lia) ltac:(reflexivity) Ho).
Defined.

(** for other lengths the option does not survive: the mask [unpack] uses
    is computed from the excluded length alone, so it clears bits that belong
    to the subnet identifier. *)
Theorem pdexclude_pack_unpack_loses_bits :
  let dp := V6 (0x20010db8 * 2^96) in
  let ep := V6 (0x20010db8 * 2^96 + 31 * 2^61) in
  ∃ o o', mkOption6PDExclude dp 62 ep 67 = Ok o ∧ (b ← pack o; unpack b) = Ok o' ∧
    getExcludedPrefix o dp 62 = Ok ep ∧
    getExcludedPrefix o' dp 62 = Ok (V6 (0x20010db8 * 2^96 + 28 * 2^61)).
Proof.
  exists (Build_Option6PDExclude 67 [248]), (Build_Option6PDExclude 67 [224]).
  split_and!; vm_compute; reflexivity.
Qed.
