(* ===== verification/DnsName.v ===== *)
(** * Domain names and their texts ([src/lib/dns/name.cc], [labelsequence.cc])

    The servers take names of clients apart and put them together as DNS names: a
    sequence of labels in the wire format, with the positions where labels start.  This
    file models the constructor from text, a state machine over characters, and the
    conversion back to text, and shows that a name survives the way through its text and
    that every name that is made is well formed. *)

From S2P Require Import Prelude.
From Stdlib Require Import Ascii.
Local Open Scope Z_scope.

(** ** Characters *)

(** The characters of a [std::string] as unsigned bytes. *)
Definition bytes_of_string (s : string) : list Z :=
  (λ c, Z.of_N (N_of_ascii c)) <$> String.list_ascii_of_string s.
Definition string_of_chars (l : list Z) : string :=
  String.string_of_list_ascii ((λ b, ascii_of_N (Z.to_N b)) <$> l).

Definition isdigit (c : Z) : bool := (48 <=? c) && (c <=? 57).
(** [digitvalue] at a decimal digit, and [maptolower]. *)
Definition digitvalue (c : Z) : Z := c - 48.
Definition maptolower (c : Z) : Z := if (65 <=? c) && (c <=? 90) then c + 32 else c.

Definition MAX_WIRE : nat := 255.
Definition MAX_LABELS : nat := 128.
Definition MAX_LABELLEN : Z := 63.

(** ** Names *)

(** [length_] and [labelcount_] are the lengths of the two. *)
Record Name := { ndata_ : list Z; offsets_ : list nat }.

Definition getLength (n : Name) : nat := length (ndata_ n).
Definition getLabelCount (n : Name) : nat := length (offsets_ n).

(** ** The parser *)

Inductive ft_state :=
  ft_init | ft_start | ft_ordinary | ft_initialescape | ft_escape | ft_escdecimal.

#[export] Instance ft_state_eq_dec : EqDecision ft_state.
Proof. solve_decision. Defined.

Record Parser := {
  digits : Z;
  value : Z;
  count : Z;
  done_ : bool;
  ft : ft_state;
  offsets : list nat;
  ndata : list Z
}.

Definition goto (s : ft_state) (p : Parser) : Parser :=
  {| digits := digits p; value := value p; count := count p; done_ := done_ p; ft := s;
     offsets := offsets p; ndata := ndata p |}.
Definition push (c : Z) (p : Parser) : Parser :=
  {| digits := digits p; value := value p; count := count p; done_ := done_ p; ft := ft p;
     offsets := offsets p; ndata := ndata p ++ [c] |}.
Definition set_count (n : Z) (p : Parser) : Parser :=
  {| digits := digits p; value := value p; count := n; done_ := done_ p; ft := ft p;
     offsets := offsets p; ndata := ndata p |}.
Definition set_decimal (n v : Z) (p : Parser) : Parser :=
  {| digits := n; value := v; count := count p; done_ := done_ p; ft := ft p;
     offsets := offsets p; ndata := ndata p |}.
Definition finish (p : Parser) : Parser :=
  {| digits := digits p; value := value p; count := count p; done_ := true; ft := ft p;
     offsets := offsets p; ndata := ndata p |}.
(** [ndata.at(offsets.back()) = count; offsets.push_back(ndata.size());] *)
Definition end_label (p : Parser) : Parser :=
  {| digits := digits p; value := value p; count := count p; done_ := done_ p; ft := ft p;
     offsets := offsets p ++ [length (ndata p)];
     ndata := <[default 0%nat (last (offsets p)) := count p]> (ndata p) |}.

Section Parse.
Context (downcase : bool).

Definition fold_case (c : Z) : Z := if downcase then maptolower c else c.

(** [if (++count > MAX_LABELLEN) throw; ndata.push_back(c);] *)
Definition add_char (c : Z) (p : Parser) : res Parser :=
  _ ← throw_if (MAX_LABELLEN <? count p + 1) TooLongLabel;
  mret (push (fold_case c) (set_count (count p + 1) p)).

(** The cases of the switch; each falls through into the one before it here.  [last] is
    whether the character is the last one. *)
Definition parse_escdecimal (c : Z) (p : Parser) : res Parser :=
  _ ← throw_if (negb (isdigit c)) BadEscape;
  let p := set_decimal (digits p + 1) (value p * 10 + digitvalue c) p in
  if digits p =? 3 then
    _ ← throw_if (255 <? value p) BadEscape;
    p ← add_char (value p) p;
    mret (goto ft_ordinary p)
  else mret p.

Definition parse_escape (c : Z) (p : Parser) : res Parser :=
  if negb (isdigit c) then p ← add_char c p; mret (goto ft_ordinary p)
  else parse_escdecimal c (goto ft_escdecimal (set_decimal 0 0 p)).

Definition parse_initialescape (c : Z) (p : Parser) : res Parser :=
  _ ← throw_if (c =? 91) BadLabelType;
  parse_escape c p.

Definition parse_ordinary (c : Z) (last : bool) (p : Parser) : res Parser :=
  if c =? 46 then
    _ ← throw_if (count p =? 0) EmptyLabel;
    let p := end_label p in
    let p := if last then finish (push 0 p) else p in
    mret (goto ft_start p)
  else if c =? 92 then mret (goto ft_escape p)
  else add_char c p.

Definition parse_start (c : Z) (last : bool) (p : Parser) : res Parser :=
  let p := set_count 0 (push 0 p) in
  if c =? 92 then mret (goto ft_initialescape p)
  else
    _ ← throw_if (negb (length (ndata p) <? MAX_WIRE)%nat) AssertionFailure;
    parse_ordinary c last (goto ft_ordinary p).

Definition parse_init (c : Z) (last : bool) (p : Parser) : res Parser :=
  _ ← throw_if ((c =? 46) && negb last) EmptyLabel;
  if (c =? 46) || (c =? 64) && last then mret (finish (push 0 p))
  else parse_start c last p.

Definition parse_char (c : Z) (last : bool) (p : Parser) : res Parser :=
  match ft p with
  | ft_init => parse_init c last p
  | ft_start => parse_start c last p
  | ft_ordinary => parse_ordinary c last p
  | ft_initialescape => parse_initialescape c p
  | ft_escape => parse_escape c p
  | ft_escdecimal => parse_escdecimal c p
  end.

(** The loop, which also ends when the buffer is full; the result has what is left of the
    text. *)
Fixpoint parse_loop (s : list Z) (p : Parser) : res (Parser * list Z) :=
  match s with
  | [] => mret (p, [])
  | c :: s' =>
      if (length (ndata p) <? MAX_WIRE)%nat && negb (done_ p) then
        p ← parse_char c (bool_decide (s' = [])) p;
        parse_loop s' p
      else mret (p, s)
  end.

(** After the loop. *)
Definition parse_end (p : Parser) (s : list Z) : res Parser :=
  if done_ p then mret p
  else
    _ ← throw_if (length (ndata p) =? MAX_WIRE)%nat TooLongName;
    _ ← throw_if (negb (bool_decide (s = []))) AssertionFailure;
    _ ← throw_if (negb (bool_decide (ft p = ft_ordinary))) IncompleteName;
    _ ← throw_if (count p =? 0) AssertionFailure;
    mret (push 0 (end_label p)).

Definition stringParse (s : list Z) : res Parser :=
  '(p, s) ← parse_loop s {| digits := 0; value := 0; count := 0; done_ := false; ft := ft_init;
                            offsets := [0%nat]; ndata := [] |};
  parse_end p s.

(** [Name::Name(namestring, downcase)]. *)
Definition mkName (s : list Z) : res Name :=
  p ← stringParse s;
  _ ← throw_if (negb ((0 <? length (offsets p))%nat && (length (offsets p) <=? MAX_LABELS)%nat))
        AssertionFailure;
  mret {| ndata_ := ndata p; offsets_ := offsets p |}.
End Parse.

(** ** The text of a name *)

(** The text of a character of a label. *)
Definition special (c : Z) : bool := bool_decide (c ∈ [34; 40; 41; 46; 59; 92; 64; 36]).
Definition char_text (c : Z) : list Z :=
  if special c then [92; c]
  else if (32 <? c) && (c <? 127) then [c]
  else [92; 48 + (c `div` 100) `mod` 10; 48 + (c `div` 10) `mod` 10; 48 + c `mod` 10].

(** The loop of [toText] and, with [raw], of [toRawText]: [np] is what is left of the data,
    [labels] the number of labels left.  The integrity checks are assertions. *)
Fixpoint text_loop (fuel : nat) (raw omit_final_dot : bool) (np : list Z) (labels : Z)
    (result : list Z) : res (list Z) :=
  match fuel with
  | O => Throw OutOfFuel
  | S fuel' =>
      match np with
      | [] => _ ← throw_if (negb (labels =? 0)) AssertionFailure; mret result
      | count :: np =>
          if count =? 0 then
            _ ← throw_if (negb (bool_decide (np = []) && (labels - 1 =? 0))) AssertionFailure;
            mret (if negb omit_final_dot || bool_decide (result = []) then result ++ [46]
                  else result)
          else if count <=? MAX_LABELLEN then
            _ ← throw_if (Z.of_nat (length np) <? count) AssertionFailure;
            let result := if bool_decide (result ≠ []) then result ++ [46] else result in
            let label := take (Z.to_nat count) np in
            text_loop fuel' raw omit_final_dot (drop (Z.to_nat count) np) (labels - 1)
              (result ++ (if raw then label else label ≫= char_text))
          else Throw BadLabelType
      end
  end.

Definition name_toText (omit_final_dot : bool) (n : Name) : res (list Z) :=
  text_loop (S (getLength n)) false omit_final_dot (ndata_ n) (Z.of_nat (getLabelCount n)) [].
Definition name_toRawText (omit_final_dot : bool) (n : Name) : res (list Z) :=
  text_loop (S (getLength n)) true omit_final_dot (ndata_ n) (Z.of_nat (getLabelCount n)) [].

(** [OptionDataTypeUtil::getLabelCount] ([src/lib/dhcp/option_data_types.cc]). *)
Definition text_getLabelCount (text_name : list Z) : res nat :=
  if bool_decide (text_name = []) then mret 0%nat
  else
    match mkName false text_name with
    | Ok name => mret (getLabelCount name)
    | Throw e => if catchable e then Throw BadDataTypeCast else Throw e
    end.

(** ** Names as labels *)

Definition label_ok (l : list Z) : Prop :=
  l ≠ [] ∧ Z.of_nat (length l) ≤ MAX_LABELLEN ∧ Forall (λ c, 0 ≤ c < 256) l.

Definition wire (ls : list (list Z)) : list Z := ls ≫= λ l, Z.of_nat (length l) :: l.
Fixpoint starts (k : nat) (ls : list (list Z)) : list nat :=
  match ls with
  | [] => [k]
  | l :: ls' => k :: starts (k + S (length l)) ls'
  end.

Definition name_of (ls : list (list Z)) : Name :=
  {| ndata_ := wire ls ++ [0]; offsets_ := starts 0 ls |}.

Definition labels_ok (ls : list (list Z)) : Prop :=
  Forall label_ok ls ∧ (length (wire ls) < MAX_WIRE)%nat.

(** A name is well formed if it is made of labels that fit. *)
Definition wf_name (n : Name) : Prop := ∃ ls, labels_ok ls ∧ n = name_of ls.

Lemma wire_snoc ls l : wire (ls ++ [l]) = wire ls ++ Z.of_nat (length l) :: l.
Proof. unfold wire. rewrite bind_app. cbn. by rewrite app_nil_r. Qed.

Lemma starts_snoc ls l : ∀ k, starts k (ls ++ [l]) = starts k ls ++ [k + length (wire (ls ++ [l]))]%nat.
Proof.
  induction ls as [|l' ls IH]; intros k.
  - cbn. rewrite app_nil_r. by f_equal.
  - cbn [app starts]. rewrite IH. cbn. do 3 f_equal. unfold wire. rewrite length_app. lia.
Qed.

Lemma last_starts ls : ∀ k, last (starts k ls) = Some (k + length (wire ls))%nat.
Proof.
  induction ls as [|l ls IH] using rev_ind; intros k; [cbn; f_equal; lia|].
  by rewrite starts_snoc, last_snoc.
Qed.

Lemma length_starts ls k : length (starts k ls) = S (length ls).
Proof. revert k. induction ls; intros k; cbn; auto. Qed.

Lemma wire_length ls : Forall label_ok ls → (2 * length ls ≤ length (wire ls))%nat.
Proof.
  induction 1 as [|l ls (Hl & _) _ IH]; [done|]. unfold wire in *. cbn. rewrite length_app.
  destruct l; [done|]. cbn. lia.
Qed.

(** ** The parser makes names *)

Section Wf.
Context (downcase : bool).

(** The parser has read the labels [ls] and the characters [b] of another one. *)
Definition inside ls b (p : Parser) : Prop :=
  Forall label_ok ls ∧ ndata p = wire ls ++ 0 :: b ∧ offsets p = starts 0 ls ∧
  count p = Z.of_nat (length b) ∧ Z.of_nat (length b) ≤ MAX_LABELLEN ∧
  Forall (λ c, 0 ≤ c < 256) b.
Definition between ls (p : Parser) : Prop :=
  Forall label_ok ls ∧ ndata p = wire ls ∧ offsets p = starts 0 ls.

(** [n] characters have been read. *)
Definition in_label (s : ft_state) : bool :=
  match s with ft_init | ft_start => false | _ => true end.
Definition parser_ok (n : nat) (p : Parser) : Prop :=
  (length (ndata p) ≤ MAX_WIRE)%nat ∧
  if done_ p then ∃ ls, Forall label_ok ls ∧ ndata p = wire ls ++ [0] ∧ offsets p = starts 0 ls
  else
    (length (ndata p) ≤ n + if in_label (ft p) then 1 else 0)%nat ∧
    match ft p with
    | ft_init => between [] p
    | ft_start => ∃ ls, between ls p
    | ft_ordinary => ∃ ls b, inside ls b p ∧ b ≠ []
    | ft_initialescape | ft_escape => ∃ ls b, inside ls b p
    | ft_escdecimal => ∃ ls b, inside ls b p ∧ 0 ≤ value p
    end.

(** What a step may do: an assertion fails only at the start of a label in a full buffer. *)
Definition step_ok (n : nat) (r : res Parser) : Prop :=
  match r with
  | Ok q => parser_ok (S n) q
  | Throw e => catchable e = true ∨ (e = AssertionFailure ∧ 254 ≤ n)%nat
  end.

Lemma end_label_ok ls b p :
  inside ls b p → b ≠ [] → between (ls ++ [b]) (end_label p).
Proof.
  intros (H1 & H2 & H3 & H4 & H5 & H6) Hb. unfold end_label, between. cbn. split_and!.
  - apply Forall_app. split; [done|]. by repeat constructor.
  - rewrite H3, last_starts, H2, H4, wire_snoc. cbn. by rewrite insert_app_r_alt, Nat.sub_diag by lia.
  - rewrite H3, starts_snoc, H2, wire_snoc. cbn. by rewrite !length_app.
Qed.

Lemma fold_case_byte c : 0 ≤ c < 256 → 0 ≤ fold_case downcase c < 256.
Proof.
  unfold fold_case, maptolower. destruct downcase; [|done].
  destruct (65 <=? c) eqn:E1, (c <=? 90) eqn:E2; cbn; lia.
Qed.

Lemma add_char_ok ls b c p n :
  inside ls b p → 0 ≤ c < 256 → (length (ndata p) < MAX_WIRE)%nat →
  (length (ndata p) ≤ n + 1)%nat → done_ p = false →
  step_ok n (q ← add_char downcase c p; mret (goto ft_ordinary q)).
Proof.
  intros (H1 & H2 & H3 & H4 & H5 & H6) Hc Hlen Hn Hd. unfold add_char, throw_if.
  destruct (MAX_LABELLEN <? count p + 1) eqn:E; [by left|]. apply Z.ltb_ge in E. cbn.
  unfold parser_ok. cbn. rewrite Hd, length_app. cbn. split; [lia|]. split; [lia|].
  exists ls, (b ++ [fold_case downcase c]). split; [|by destruct b]. unfold inside. cbn.
  rewrite H2, length_app, <- app_assoc, Forall_app. cbn. split_and!; try done; try lia.
  constructor; [by apply fold_case_byte|constructor].
Qed.

Lemma escdecimal_ok ls b c p n :
  inside ls b p → 0 ≤ value p → (length (ndata p) < MAX_WIRE)%nat →
  (length (ndata p) ≤ n + 1)%nat → done_ p = false → ft p = ft_escdecimal →
  step_ok n (parse_escdecimal downcase c p).
Proof.
  intros Hin Hv Hlen Hn Hd Hft. unfold parse_escdecimal, throw_if.
  destruct (isdigit c) eqn:Hc; [|by left]. unfold isdigit in Hc.
  apply andb_true_iff in Hc as [Hc1%Z.leb_le Hc2%Z.leb_le]. cbn.
  destruct (digits p + 1 =? 3).
  - destruct (255 <? _) eqn:E; [by left|]. apply Z.ltb_ge in E. cbn.
    apply (add_char_ok ls b); try done. cbn in E. unfold digitvalue in *. lia.
  - cbn. unfold parser_ok. cbn. rewrite Hd, Hft. cbn. split; [lia|]. split; [lia|].
    exists ls, b. split; [exact Hin|]. unfold digitvalue. lia.
Qed.

Lemma escape_ok ls b c p n :
  inside ls b p → 0 ≤ c < 256 → (length (ndata p) < MAX_WIRE)%nat →
  (length (ndata p) ≤ n + 1)%nat → done_ p = false →
  step_ok n (parse_escape downcase c p).
Proof.
  intros Hin Hc Hlen Hn Hd. unfold parse_escape. destruct (isdigit c); cbn [negb].
  - by apply (escdecimal_ok ls b).
  - by apply (add_char_ok ls b).
Qed.

Lemma ordinary_ok ls b c p n (lst : bool) :
  inside ls b p → 0 ≤ c < 256 → (length (ndata p) < MAX_WIRE)%nat →
  (length (ndata p) ≤ n + 1)%nat → done_ p = false → ft p = ft_ordinary →
  step_ok n (parse_ordinary downcase c lst p).
Proof.
  intros Hin Hc Hlen Hn Hd Hft. unfold parse_ordinary, throw_if.
  destruct (c =? 46) eqn:Edot; [|destruct (c =? 92) eqn:Eesc].
  - destruct (count p =? 0) eqn:E; [by left|]. cbn.
    assert (b ≠ []) as Hb. { intros ->. destruct Hin as (_ & _ & _ & E' & _). rewrite E' in E. done. }
    pose proof (end_label_ok ls b p Hin Hb) as (E1 & E2 & E3).
    assert (length (ndata (end_label p)) = length (ndata p)) as El
      by (cbn; by rewrite length_insert).
    destruct lst; cbn -[end_label]; unfold parser_ok; cbn -[end_label].
    + rewrite length_app, El. cbn -[end_label]. split; [lia|]. exists (ls ++ [b]). by rewrite E2.
    + rewrite El. change (done_ (end_label p)) with (done_ p). rewrite Hd. cbn -[end_label].
      split; [lia|]. split; [lia|]. by exists (ls ++ [b]).
  - cbn. unfold parser_ok. cbn. rewrite Hd. cbn. split; [lia|]. split; [lia|]. by exists ls, b.
  - pose proof (add_char_ok ls b c p n Hin Hc Hlen Hn Hd) as H.
    unfold add_char, throw_if in H |- *. destruct (MAX_LABELLEN <? _); [exact H|].
    cbn in H |- *. unfold parser_ok in H |- *. cbn in H |- *. by rewrite Hft.
Qed.

Lemma start_ok ls c p n (lst : bool) :
  between ls p → 0 ≤ c < 256 → (length (ndata p) < MAX_WIRE)%nat →
  (length (ndata p) ≤ n)%nat → done_ p = false →
  step_ok n (parse_start downcase c lst p).
Proof.
  intros (H1 & H2 & H3) Hc Hlen Hn Hd. unfold parse_start.
  assert (inside ls [] (set_count 0 (push 0 p))) as Hin.
  { unfold inside. cbn. rewrite H2. by split_and!. }
  destruct (c =? 92).
  - cbn. unfold parser_ok. cbn. rewrite Hd, length_app. cbn. split; [lia|]. split; [lia|].
    by exists ls, [].
  - destruct (_ <? MAX_WIRE)%nat eqn:E; cbn [negb throw_if].
    + cbn [mbind res_bind]. apply (ordinary_ok ls []); try done; [by apply Nat.ltb_lt in E|].
      cbn. rewrite length_app. cbn. lia.
    + right. split; [done|]. apply Nat.ltb_ge in E. cbn in E. rewrite length_app in E. cbn in E.
      unfold MAX_WIRE in E. lia.
Qed.

Lemma parse_char_ok c (lst : bool) p n :
  parser_ok n p → 0 ≤ c < 256 → (length (ndata p) < MAX_WIRE)%nat → done_ p = false →
  step_ok n (parse_char downcase c lst p).
Proof.
  intros [_ Hp] Hc Hlen Hd. rewrite Hd in Hp. destruct Hp as [Hn Hp].
  unfold parse_char. destruct (ft p) eqn:Hft; cbn in Hn.
  - unfold parse_init, throw_if. destruct (_ && negb lst); [by left|]. cbn.
    destruct (_ || _); [|apply (start_ok []); done || lia].
    cbn. unfold parser_ok. cbn. rewrite length_app. cbn. split; [lia|].
    exists []. destruct Hp as (_ & -> & ->). done.
  - destruct Hp as [ls Hp]. apply (start_ok ls); done || lia.
  - destruct Hp as (ls & b & Hp & _). by apply (ordinary_ok ls b).
  - destruct Hp as (ls & b & Hp). unfold parse_initialescape, throw_if.
    destruct (c =? 91); [by left|]. by apply (escape_ok ls b).
  - destruct Hp as (ls & b & Hp). by apply (escape_ok ls b).
  - destruct Hp as (ls & b & Hp & Hv). by apply (escdecimal_ok ls b).
Qed.

Lemma name_loop_ok s : ∀ p n,
  parser_ok n p → Forall (λ c, 0 ≤ c < 256) s →
  match parse_loop downcase s p with
  | Ok (q, rest) => ∃ m, parser_ok m q ∧ (rest ≠ [] → done_ q = true ∨ length (ndata q) = MAX_WIRE)
  | Throw e => catchable e = true ∨ e = AssertionFailure ∧ (255 ≤ n + length s)%nat
  end.
Proof.
  induction s as [|c s IH]; intros p n Hp Hs; [by exists n|].
  apply Forall_cons in Hs as [Hc Hs]. cbn [parse_loop].
  destruct (length (ndata p) <? MAX_WIRE)%nat eqn:El; cbn [andb].
  2: { exists n. split; [done|]. intros _. right. apply Nat.ltb_ge in El. destruct Hp. lia. }
  destruct (done_ p) eqn:Ed; cbn [negb]; [exists n; by split; [|left]|].
  apply Nat.ltb_lt in El.
  pose proof (parse_char_ok c (bool_decide (s = [])) p n Hp Hc El Ed) as H.
  destruct (parse_char _ _ _ _) as [q|e]; cbn [mbind res_bind].
  - specialize (IH q (S n) H Hs). destruct (parse_loop _ s q) as [[q' rest]|e]; [done|].
    destruct IH as [?|[? ?]]; [by left|right]. split; [done|]. cbn. lia.
  - destruct H as [?|[? ?]]; [by left|right]. split; [done|]. cbn. lia.
Qed.

Lemma parse_end_ok p n rest :
  parser_ok n p → (rest ≠ [] → done_ p = true ∨ length (ndata p) = MAX_WIRE) →
  match parse_end p rest with
  | Ok q => ∃ ls, labels_ok ls ∧ ndata q = wire ls ++ [0] ∧ offsets q = starts 0 ls
  | Throw e => catchable e = true
  end.
Proof.
  intros [Hlen Hp] Hrest. unfold parse_end.
  destruct (done_ p) eqn:Hd.
  { destruct Hp as (ls & H1 & H2 & H3). exists ls. split; [|done]. split; [done|].
    rewrite H2, length_app in Hlen. cbn in Hlen. lia. }
  destruct Hp as [_ Hp]. unfold throw_if. destruct (_ =? MAX_WIRE)%nat eqn:El; [done|].
  apply Nat.eqb_neq in El. cbn [mbind res_bind].
  assert (rest = []) as -> by (destruct rest; [done|]; destruct Hrest; congruence).
  rewrite (bool_decide_eq_true_2 ([] = [])) by done. cbn [negb mbind res_bind].
  case_bool_decide as Hft; cbn [negb mbind res_bind]; [|done]. rewrite Hft in Hp.
  destruct Hp as (ls & b & Hin & Hb). pose proof Hin as (_ & _ & _ & Hc & _).
  destruct (count p =? 0) eqn:Ec; [apply Z.eqb_eq in Ec; destruct b; [done|cbn in Hc; lia]|].
  destruct (end_label_ok ls b p Hin Hb) as (E1 & E2 & E3).
  cbn -[end_label]. exists (ls ++ [b]). rewrite E2. split; [|done]. split; [done|].
  rewrite <- E2. cbn. rewrite length_insert. lia.
Qed.
End Wf.

(** A name that is made is well formed and has at most 128 labels; a text that is not a
    name is refused with an exception.  No text of less than 255 characters makes an assertion
    of the parser fail. *)
Theorem mkName_wf (downcase : bool) (s : list Z) (Hs : Forall (λ c, 0 ≤ c < 256) s) :
  match mkName downcase s with
  | Ok n => wf_name n ∧ (getLength n ≤ MAX_WIRE)%nat ∧ (1 ≤ getLabelCount n ≤ MAX_LABELS)%nat
  | Throw e => catchable e = true ∨ e = AssertionFailure ∧ (255 ≤ length s)%nat
  end.
Proof.
  unfold mkName, stringParse.
  set (p0 := {| digits := 0 |}).
  assert (parser_ok 0 p0) as H0 by (split; [cbn; lia|]; split; [cbn; lia|]; repeat constructor).
  pose proof (name_loop_ok downcase s p0 0 H0 Hs) as H.
  destruct (parse_loop downcase s p0) as [[p rest]|e]; [|exact H].
  destruct H as (n & Hp & Hrest). cbn [mbind res_bind].
  pose proof (parse_end_ok p n rest Hp Hrest) as He.
  destruct (parse_end p rest) as [q|e]; [|by left]. cbn [mbind res_bind].
  destruct He as (ls & [Hls Hlen] & E1 & E2). pose proof (wire_length ls Hls) as Hw.
  unfold MAX_WIRE in Hlen.
  assert (length (offsets q) = S (length ls)) as El by (by rewrite E2, length_starts).
  rewrite El. unfold throw_if.
  replace (S (length ls) <=? MAX_LABELS)%nat with true
    by (symmetry; apply Nat.leb_le; unfold MAX_LABELS; lia). cbn.
  split; [exists ls; split; [done|]; unfold name_of; by rewrite <- E1, <- E2|].
  unfold getLength, getLabelCount, MAX_LABELS, MAX_WIRE. cbn.
  rewrite El, E1, length_app. cbn. lia.
Qed.

(** ** From a name to its text and back *)

(** The text of the labels after the first one, and of all of them. *)
Definition enc (l : list Z) : list Z := l ≫= char_text.
Definition dotted (ls : list (list Z)) : list Z := ls ≫= λ l, 46 :: enc l.
Definition final_dot (omit : bool) : list Z := if omit then [] else [46].
Definition labels_text (omit : bool) (ls : list (list Z)) : list Z :=
  match ls with
  | [] => [46]
  | l :: ls => enc l ++ dotted ls ++ final_dot omit
  end.

Lemma wire_cons l ls : wire (l :: ls) = Z.of_nat (length l) :: l ++ wire ls.
Proof. done. Qed.
Lemma dotted_cons l ls : dotted (l :: ls) = 46 :: enc l ++ dotted ls.
Proof. done. Qed.

Lemma char_text_nonempty c : char_text c ≠ [].
Proof. unfold char_text. by repeat case_match. Qed.

Lemma enc_nonempty l : l ≠ [] → enc l ≠ [].
Proof.
  destruct l as [|c l]; [done|]. intros _. unfold enc. cbn.
  pose proof (char_text_nonempty c). by destruct (char_text c).
Qed.

Lemma text_loop_label l np acc fuel omit labels :
  label_ok l →
  text_loop (S fuel) false omit (Z.of_nat (length l) :: l ++ np) labels acc =
  text_loop fuel false omit np (labels - 1)
    ((if bool_decide (acc ≠ []) then acc ++ [46] else acc) ++ enc l).
Proof.
  intros (Hl & Hlen & _). cbn [text_loop].
  destruct (Z.of_nat (length l) =? 0) eqn:E; [apply Z.eqb_eq in E; by destruct l|].
  rewrite (proj2 (Z.leb_le _ _) Hlen), length_app, Nat2Z.id.
  unfold throw_if. destruct (_ <? _) eqn:E'; [apply Z.ltb_lt in E'; lia|]. cbn [mbind res_bind].
  by rewrite take_app_length, drop_app_length.
Qed.

Lemma text_loop_dotted omit ls : ∀ acc fuel,
  Forall label_ok ls → acc ≠ [] → (length ls < fuel)%nat →
  text_loop fuel false omit (wire ls ++ [0]) (Z.of_nat (S (length ls))) acc =
  Ok (acc ++ dotted ls ++ final_dot omit).
Proof.
  induction ls as [|l ls IH]; intros acc fuel Hls Hacc Hf; (destruct fuel as [|fuel]; [cbn in Hf; lia|]).
  - cbn. rewrite (bool_decide_eq_false_2 (acc = [])) by done. destruct omit; cbn; [|done].
    by rewrite app_nil_r.
  - apply Forall_cons in Hls as [Hl Hls]. cbn in Hf. rewrite wire_cons, dotted_cons.
    cbn [app]. rewrite <- app_assoc, text_loop_label by done.
    rewrite (bool_decide_eq_true_2 (acc ≠ [])) by done.
    replace (Z.of_nat (S (length (l :: ls))) - 1) with (Z.of_nat (S (length ls))) by (cbn; lia).
    rewrite IH; [|done| |lia].
    + f_equal. by rewrite <- !app_assoc.
    + intros E. apply app_nil in E as [_ E]. destruct Hl as [Hl _]. by apply (enc_nonempty l).
Qed.

Lemma name_toText_name_of omit ls :
  Forall label_ok ls → name_toText omit (name_of ls) = Ok (labels_text omit ls).
Proof.
  intros Hls. unfold name_toText, getLength, getLabelCount. cbn [name_of ndata_ offsets_].
  rewrite length_starts. destruct ls as [|l ls].
  - cbn. rewrite orb_true_r. done.
  - apply Forall_cons in Hls as [Hl Hls]. pose proof (wire_length ls Hls).
    rewrite wire_cons. cbn [app]. rewrite <- app_assoc, text_loop_label by done.
    rewrite (bool_decide_eq_false_2 ([] ≠ [])) by naive_solver. cbn [app].
    replace (Z.of_nat (S (length (l :: ls))) - 1) with (Z.of_nat (S (length ls))) by (cbn; lia).
    apply text_loop_dotted; [done|apply enc_nonempty, Hl|].
    cbn. rewrite !length_app. lia.
Qed.

(** What the parser has read when it can take another character of the label after [ls]. *)
Definition mid ls b (p : Parser) : Prop :=
  inside ls b p ∧ done_ p = false ∧ ft p = ft_ordinary.
Definition ready ls b (p : Parser) : Prop :=
  mid ls b p ∨ b = [] ∧ between ls p ∧ done_ p = false ∧ (ft p = ft_start ∨ ft p = ft_init ∧ ls = []).
Definition escaped ls b (p : Parser) : Prop :=
  inside ls b p ∧ done_ p = false ∧ (ft p = ft_escape ∨ ft p = ft_initialescape).

(** [p] becomes [q] by reading [s]. *)
Definition reads (s : list Z) (p q : Parser) : Prop :=
  ∀ rest, parse_loop false (s ++ rest) p = parse_loop false rest q.

Lemma reads_app s1 s2 p1 p2 p3 : reads s1 p1 p2 → reads s2 p2 p3 → reads (s1 ++ s2) p1 p3.
Proof. intros H1 H2 rest. by rewrite <- app_assoc, H1, H2. Qed.

Definition fits (ls : list (list Z)) (b : list Z) : Prop :=
  (length (wire ls) + 1 + length b < MAX_WIRE)%nat ∧ Z.of_nat (length b) ≤ MAX_LABELLEN.


Lemma reads_char c p q :
  (length (ndata p) < MAX_WIRE)%nat → done_ p = false →
  (∀ lst, parse_char false c lst p = Ok q) → reads [c] p q.
Proof.
  intros Hl Hd Hc rest. cbn [parse_loop app]. rewrite (proj2 (Nat.ltb_lt _ _) Hl), Hd. cbn. by rewrite Hc.
Qed.

Lemma ready_backslash ls b p :
  ready ls b p → fits ls b → ∃ q, escaped ls b q ∧ reads [92] p q.
Proof.
  intros [(Hin & Hd & Hft) | (-> & (H1 & H2 & H3) & Hd & Hft)] [Hf1 Hf2].
  - exists (goto ft_escape p). split; [split; [exact Hin|by split; [|left]]|].
    destruct Hin as (_ & E & _). apply reads_char; [rewrite E, length_app; cbn; lia|done|].
    intros lst. unfold parse_char. by rewrite Hft.
  - exists (goto ft_initialescape (set_count 0 (push 0 p))). split.
    + split; [|by split; [|right]]. unfold inside. cbn. rewrite H2. by split_and!.
    + apply reads_char; [rewrite H2; lia|done|]. intros lst. unfold parse_char.
      by destruct Hft as [-> | [-> _]].
Qed.

(** The character after which the label is [b ++ [c]]. *)
Lemma add_char_reads ls b c (p : Parser) :
  inside ls b p → 0 ≤ c < 256 → fits ls (b ++ [c]) →
  inside ls (b ++ [c]) (push c (set_count (count p + 1) p)) ∧
  add_char false c p = Ok (push c (set_count (count p + 1) p)).
Proof.
  intros (H1 & H2 & H3 & H4 & H5 & H6) Hc [Hf1 Hf2]. rewrite length_app in Hf2. cbn in Hf2. split.
  - unfold inside. cbn. rewrite H2, length_app, <- app_assoc. cbn. rewrite Forall_app.
    split_and!; try done; try lia. by constructor.
  - unfold add_char, throw_if. by destruct (MAX_LABELLEN <? count p + 1) eqn:E; [lia|].
Qed.

Lemma fits_room ls b c (p : Parser) :
  inside ls b p → fits ls (b ++ [c]) → (length (ndata p) < MAX_WIRE)%nat.
Proof. intros (_ & -> & _) [Hf _]. rewrite length_app in *. cbn in *. lia. Qed.

Lemma escaped_char ls b c p :
  escaped ls b p → 0 ≤ c < 256 → isdigit c = false → c ≠ 91 → fits ls (b ++ [c]) →
  ∃ q, mid ls (b ++ [c]) q ∧ reads [c] p q.
Proof.
  intros (Hin & Hd & Hft) Hc Hdig Hbr Hf.
  destruct (add_char_reads ls b c p Hin Hc Hf) as [Hin' Hadd].
  exists (goto ft_ordinary (push c (set_count (count p + 1) p))). split; [split; [exact Hin'|split; [exact Hd|reflexivity]]|].
  apply reads_char; [by eapply fits_room|done|]. intros lst. unfold parse_char.
  assert (parse_escape false c p = Ok (goto ft_ordinary (push c (set_count (count p + 1) p)))) as He
    by (unfold parse_escape; by rewrite Hdig, Hadd).
  destruct Hft as [-> | ->]; [exact He|]. unfold parse_initialescape, throw_if.
  rewrite (proj2 (Z.eqb_neq _ _) Hbr). exact He.
Qed.

Lemma isdigit_digit d : 0 ≤ d < 10 → isdigit (48 + d) = true.
Proof. intros ?. unfold isdigit. apply andb_true_iff. split; apply Z.leb_le; lia. Qed.

Lemma parse_escdecimal_digit d (p : Parser) :
  0 ≤ d < 10 → digits p + 1 ≠ 3 →
  parse_escdecimal false (48 + d) p = Ok (set_decimal (digits p + 1) (value p * 10 + d) p).
Proof.
  intros Hd Hn. unfold parse_escdecimal, throw_if, digitvalue. rewrite isdigit_digit by done.
  cbn [negb mbind res_bind digits set_decimal]. rewrite (proj2 (Z.eqb_neq _ _) Hn).
  replace (48 + d - 48) with d by lia. done.
Qed.

Lemma escaped_decimal ls b c p :
  escaped ls b p → 0 ≤ c < 256 → fits ls (b ++ [c]) →
  ∃ q, mid ls (b ++ [c]) q ∧
    reads [48 + (c `div` 100) `mod` 10; 48 + (c `div` 10) `mod` 10; 48 + c `mod` 10] p q.
Proof.
  intros (Hin & Hd & Hft) Hc Hf.
  set (d1 := (c `div` 100) `mod` 10). set (d2 := (c `div` 10) `mod` 10). set (d3 := c `mod` 10).
  assert (0 ≤ d1 < 10) as B1 by (apply Z.mod_pos_bound; lia).
  assert (0 ≤ d2 < 10) as B2 by (apply Z.mod_pos_bound; lia).
  assert (0 ≤ d3 < 10) as B3 by (apply Z.mod_pos_bound; lia).
  assert ((d1 * 10 + d2) * 10 + d3 = c) as Hv
    by (subst d1 d2 d3; Z.to_euclidean_division_equations; lia).
  pose proof (fits_room _ _ _ _ Hin Hf) as Hroom.
  set (q1 := goto ft_escdecimal (set_decimal (0 + 1) (0 * 10 + d1) p)).
  set (q2 := set_decimal (digits q1 + 1) (value q1 * 10 + d2) q1).
  set (q3 := set_decimal 3 c q2).
  destruct (add_char_reads ls b c q3 Hin Hc Hf) as [Hin' Hadd].
  exists (goto ft_ordinary (push c (set_count (count q3 + 1) q3))). split; [split; [exact Hin'|split; [exact Hd|reflexivity]]|].
  apply (reads_app [48 + d1] [48 + d2; 48 + d3] p q1).
  - apply reads_char; [done|done|]. intros lst. unfold parse_char.
    assert (parse_escape false (48 + d1) p = Ok q1) as He.
    { unfold parse_escape. rewrite isdigit_digit by done. cbn [negb].
      by rewrite parse_escdecimal_digit. }
    destruct Hft as [-> | ->]; [exact He|]. unfold parse_initialescape, throw_if.
    destruct (48 + d1 =? 91) eqn:E; [lia|]. exact He.
  - apply (reads_app [48 + d2] [48 + d3] q1 q2).
    + apply reads_char; [done|done|]. intros lst. by apply parse_escdecimal_digit.
    + apply reads_char; [done|done|]. intros lst.
      change (parse_escdecimal false (48 + d3) q2 =
              Ok (goto ft_ordinary (push c (set_count (count q3 + 1) q3)))).
      unfold parse_escdecimal, throw_if. rewrite isdigit_digit by done.
      replace (set_decimal _ _ q2) with q3
        by (unfold q3, digitvalue; f_equal; subst q2 q1; cbn [value digits set_decimal goto]; lia).
      cbn [negb mbind res_bind]. change (digits q3 =? 3) with true. change (value q3) with c.
      rewrite (proj2 (Z.ltb_ge 255 c)) by lia. cbn [mbind res_bind]. by rewrite Hadd.
Qed.

Lemma ready_char ls b c p :
  ready ls b p → 0 ≤ c < 256 → fits ls (b ++ [c]) →
  ∃ q, mid ls (b ++ [c]) q ∧ reads (char_text c) p q.
Proof.
  intros Hp Hc Hf.
  assert (fits ls b) as Hfb by (destruct Hf; rewrite length_app in *; cbn in *; unfold fits; lia).
  destruct (ready_backslash ls b p Hp Hfb) as (e & He & Hre).
  unfold char_text. destruct (special c) eqn:Hs.
  { unfold special in Hs. apply bool_decide_eq_true in Hs.
    destruct (escaped_char ls b c e) as (q & Hq & Hr); try done.
    - repeat (apply elem_of_cons in Hs as [->|Hs]; [done|]). by apply elem_of_nil in Hs.
    - intros ->. repeat (apply elem_of_cons in Hs as [Hs|Hs]; [done|]). by apply elem_of_nil in Hs.
    - exists q. split; [done|]. by apply (reads_app [92] [c] p e). }
  destruct ((32 <? c) && (c <? 127)) eqn:Hpr.
  - assert (c ≠ 46 ∧ c ≠ 92 ∧ c ≠ 64) as (N1 & N2 & N3).
    { unfold special in Hs. apply bool_decide_eq_false in Hs.
      split_and!; intros ->; apply Hs; set_solver. }
    assert (∀ r : Parser, inside ls b r → done_ r = false → ft r = ft_ordinary →
      ∃ q, mid ls (b ++ [c]) q ∧ ∀ lst, parse_ordinary false c lst r = Ok q) as Hord.
    { intros r Hin Hd Hft. destruct (add_char_reads ls b c r Hin Hc Hf) as [Hin' Hadd].
      exists (push c (set_count (count r + 1) r)).
      split; [split; [exact Hin'|by split]|]. intros lst. unfold parse_ordinary.
      by rewrite (proj2 (Z.eqb_neq _ _) N1), (proj2 (Z.eqb_neq _ _) N2). }
    destruct Hp as [(Hin & Hd & Hft) | (-> & (H1 & H2 & H3) & Hd & Hft)].
    + destruct (Hord p Hin Hd Hft) as (q & Hq & Hr). exists q. split; [done|].
      apply reads_char; [by eapply fits_room|done|]. intros lst. unfold parse_char. by rewrite Hft.
    + set (r := goto ft_ordinary (set_count 0 (push 0 p))).
      assert (inside ls [] r) as Hin by (unfold inside; cbn; rewrite H2; by split_and!).
      destruct (Hord r Hin Hd eq_refl) as (q & Hq & Hr). exists q. split; [done|].
      pose proof (fits_room _ _ _ _ Hin Hf) as Hroom.
      assert (∀ lst, parse_start false c lst p = Ok q) as Hst.
      { intros lst. unfold parse_start, throw_if. rewrite (proj2 (Z.eqb_neq _ _) N2).
        change (length (ndata (set_count 0 (push 0 p)))) with (length (ndata r)).
        rewrite (proj2 (Nat.ltb_lt _ _) Hroom). cbn. apply Hr. }
      apply reads_char; [rewrite H2; destruct Hfb; lia|done|]. intros lst. unfold parse_char.
      destruct Hft as [-> | [-> _]]; [done|]. unfold parse_init.
      rewrite (proj2 (Z.eqb_neq _ _) N1), (proj2 (Z.eqb_neq _ _) N3). cbn. apply Hst.
  - destruct (escaped_decimal ls b c e He Hc Hf) as (q & Hq & Hr). exists q. split; [done|].
    by apply (reads_app [92] _ p e).
Qed.

Lemma fits_prefix ls b b' : fits ls (b ++ b') → fits ls b.
Proof. intros [H1 H2]. rewrite length_app in *. unfold fits. lia. Qed.

Lemma ready_label ls l : ∀ b p,
  ready ls b p → Forall (λ c, 0 ≤ c < 256) l → fits ls (b ++ l) → l ≠ [] →
  ∃ q, mid ls (b ++ l) q ∧ reads (enc l) p q.
Proof.
  induction l as [|c l IH]; intros b p Hp Hl Hf Hne; [done|].
  apply Forall_cons in Hl as [Hc Hl].
  replace (b ++ c :: l) with ((b ++ [c]) ++ l) in * by (by rewrite <- app_assoc).
  destruct (ready_char ls b c p Hp Hc) as (q & Hq & Hr); [by eapply fits_prefix|].
  destruct (decide (l = [])) as [->|Hl'].
  - exists q. rewrite app_nil_r. split; [done|]. unfold enc. cbn. by rewrite app_nil_r.
  - destruct (IH (b ++ [c]) q) as (q' & Hq' & Hr'); try done; [by left|].
    exists q'. split; [done|]. unfold enc. cbn [mbind list_bind]. by eapply reads_app.
Qed.

(** The dot after a label that is not the last one. *)
Lemma mid_dot ls b p s :
  mid ls b p → b ≠ [] → fits ls b → s ≠ [] →
  ∃ q, ready (ls ++ [b]) [] q ∧ parse_loop false (46 :: s) p = parse_loop false s q.
Proof.
  intros (Hin & Hd & Hft) Hb [Hf _] Hs. exists (goto ft_start (end_label p)). split.
  - right. split; [done|]. split; [by apply end_label_ok|]. by split; [|left].
  - destruct Hin as (_ & E & _ & Hc & _). cbn [parse_loop].
    rewrite E, length_app, (proj2 (Nat.ltb_lt _ _)) by (cbn; lia). rewrite Hd. cbn [negb andb].
    rewrite (bool_decide_eq_false_2 (s = [])) by done.
    unfold parse_char. rewrite Hft. unfold parse_ordinary, throw_if. cbn [Z.eqb].
    rewrite (proj2 (Z.eqb_neq (count p) 0)); [done|]. rewrite Hc. by destruct b.
Qed.

(** The end of the text, with a dot or without one. *)
Definition parse_rest (s : list Z) (p : Parser) : res Parser :=
  '(p, s) ← parse_loop false s p; parse_end p s.

Lemma mid_end omit ls b p :
  mid ls b p → b ≠ [] → fits ls b →
  ∃ q, parse_rest (final_dot omit) p = Ok q ∧
    ndata q = wire (ls ++ [b]) ++ [0] ∧ offsets q = starts 0 (ls ++ [b]).
Proof.
  intros (Hin & Hd & Hft) Hb [Hf _].
  destruct (end_label_ok ls b p Hin Hb) as (_ & E1 & E2).
  destruct Hin as (_ & E & _ & Hc & _).
  assert ((count p =? 0) = false) as Hc0 by (apply Z.eqb_neq; rewrite Hc; by destruct b).
  assert (length (ndata p) < MAX_WIRE)%nat as Hl by (rewrite E, length_app; cbn; lia).
  destruct omit.
  - exists (push 0 (end_label p)). split; [|by cbn [ndata push]; rewrite E1].
    unfold parse_rest, final_dot, parse_end, throw_if. cbn [parse_loop mret res_ret mbind res_bind]. rewrite Hd.
    rewrite (proj2 (Nat.eqb_neq _ _)) by lia. by rewrite Hft, Hc0.
  - exists (goto ft_start (finish (push 0 (end_label p)))).
    split; [|by cbn [ndata push goto finish]; rewrite E1].
    unfold parse_rest, final_dot. cbn [parse_loop]. rewrite (proj2 (Nat.ltb_lt _ _) Hl), Hd. cbn [negb andb].
    unfold parse_char. rewrite Hft. unfold parse_ordinary, throw_if. cbn [Z.eqb]. by rewrite Hc0.
Qed.

Lemma parse_dotted omit ls' : ∀ ls b p,
  mid ls b p → b ≠ [] → Forall label_ok ls' → (length (wire (ls ++ b :: ls')) < MAX_WIRE)%nat →
  ∃ q, parse_rest (dotted ls' ++ final_dot omit) p = Ok q ∧
    ndata q = wire (ls ++ b :: ls') ++ [0] ∧ offsets q = starts 0 (ls ++ b :: ls').
Proof.
  induction ls' as [|l ls' IH]; intros ls b p Hp Hb Hls Hlen.
  - apply mid_end; [done|done|]. rewrite wire_snoc, length_app in Hlen. cbn in Hlen.
    destruct Hp as [(_ & _ & _ & _ & H & _) _]. split; [lia|done].
  - apply Forall_cons in Hls as [(Hl & Hl1 & Hl2) Hls].
    replace (ls ++ b :: l :: ls') with ((ls ++ [b]) ++ l :: ls') in * by (by rewrite <- app_assoc).
    assert (fits ls b) as Hfb.
    { destruct Hp as [(_ & _ & _ & _ & H & _) _]. split; [|done].
      unfold wire in *. rewrite !bind_app, !length_app in Hlen. cbn in Hlen.
      rewrite !length_app in Hlen. cbn in Hlen. lia. }
    rewrite dotted_cons. cbn [app]. rewrite <- app_assoc. unfold parse_rest.
    destruct (mid_dot ls b p (enc l ++ dotted ls' ++ final_dot omit) Hp Hb Hfb)
      as (q & Hq & ->).
    { intros E. apply app_nil in E as [E _]. by apply (enc_nonempty l). }
    destruct (ready_label (ls ++ [b]) l [] q Hq Hl2) as (q' & Hq' & ->); [|done|].
    { split; [|done]. unfold wire in *. rewrite bind_app, length_app in Hlen. cbn in Hlen |- *.
      rewrite length_app in Hlen. lia. }
    by apply IH.
Qed.

Lemma mkName_labels_text omit ls :
  labels_ok ls → mkName false (labels_text omit ls) = Ok (name_of ls).
Proof.
  intros [Hls Hlen]. pose proof (wire_length ls Hls) as Hw. unfold mkName, stringParse.
  set (p0 := {| digits := 0 |}). change (mbind _ (parse_loop _ _ _)) with (parse_rest (labels_text omit ls) p0).
  assert (∃ q, parse_rest (labels_text omit ls) p0 = Ok q ∧
    ndata q = wire ls ++ [0] ∧ offsets q = starts 0 ls) as (q & -> & E1 & E2).
  { destruct ls as [|l ls]; [by eexists|]. apply Forall_cons in Hls as [(Hl & Hl1 & Hl2) Hls].
    cbn [labels_text]. unfold parse_rest.
    destruct (ready_label [] l [] p0) as (q & Hq & ->); try done.
    - right. split; [done|]. split; [by repeat constructor|]. split; [done|by right].
    - split; [|done]. rewrite wire_cons in Hlen. cbn in Hlen |- *. rewrite length_app in Hlen. lia.
    - by apply (parse_dotted omit ls [] l q). }
  cbn [mbind res_bind]. unfold throw_if. rewrite E2, length_starts.
  unfold MAX_WIRE, MAX_LABELS in *. rewrite (proj2 (Nat.leb_le _ _)) by lia. cbn.
  unfold name_of. by rewrite E1.
Qed.

(** C20: The text of a well formed name, with the final dot or without it, exists and is read back
    as that name, whatever characters the labels have. *)
Theorem name_text_roundtrip (omit_final_dot : bool) (n : Name) (Hn : wf_name n) :
  ∃ t, name_toText omit_final_dot n = Ok t ∧ mkName false t = Ok n.
Proof.
  destruct Hn as (ls & Hls & ->). exists (labels_text omit_final_dot ls).
  split; [apply name_toText_name_of, Hls|by apply mkName_labels_text].
Qed.

Lemma name_text_roundtrip_witness :
  wf_name (name_of [[119; 46]; [0; 64; 255]]) ∧
  ∃ t, name_toText true (name_of [[119; 46]; [0; 64; 255]]) = Ok t ∧
       mkName false t = Ok (name_of [[119; 46]; [0; 64; 255]]).
Proof.
  assert (wf_name (name_of [[119; 46]; [0; 64; 255]])) as Hn.
  { exists [[119; 46]; [0; 64; 255]]. split; [|done]. split; [|vm_compute; lia].
    repeat constructor; unfold MAX_LABELLEN; cbn; lia || done. }
  split; [exact Hn|]. exact (name_text_roundtrip true _ Hn).
Defined.

Lemma mkName_wf_witness :
  Forall (λ c, 0 ≤ c < 256) (bytes_of_string "a\.b.example.org.") ∧
  match mkName false (bytes_of_string "a\.b.example.org.") with
  | Ok n => wf_name n ∧ (getLength n ≤ MAX_WIRE)%nat ∧ (1 ≤ getLabelCount n ≤ MAX_LABELS)%nat
  | Throw e => catchable e = true ∨
      e = AssertionFailure ∧ (255 ≤ length (bytes_of_string "a\.b.example.org."))%nat
  end.
Proof.
  assert (Forall (λ c, 0 ≤ c < 256) (bytes_of_string "a\.b.example.org.")) as Hs
    by (repeat constructor; lia).
  split; [exact Hs|]. exact (mkName_wf false _ Hs).
Defined.

(** 128 labels of one letter with dots between them are 255 characters.  When the last
    letter comes, the buffer has 254 bytes; the placeholder of the label fills it and the
    assertion fails, so a hostname like this one ends the server, where a name that is too long
    should be refused with [TooLongName].  One label less is a name. *)
Definition single_letters (n : nat) : list Z :=
  (replicate n [97; 46] ≫= id) ++ [97].

Theorem long_hostname_aborts :
  length (single_letters 127) = 255%nat ∧
  mkName false (single_letters 127) = Throw AssertionFailure ∧
  text_getLabelCount (single_letters 127) = Throw AssertionFailure ∧
  text_getLabelCount (single_letters 126) = Ok 128%nat.
Proof. split_and!; vm_compute; reflexivity. Qed.
