(* ===== verification/NameWire.v ===== *)
(** * Domain names on the wire ([src/lib/dns/name.cc])

    The constructor of [Name] from a buffer, which follows compression pointers, and
    [toWire].  Every pointer has to go further back than the one before, so that the loop
    ends; a name that is read is well formed, and a name that is written is read back. *)

From S2P Require Import Prelude DnsName.
Local Open Scope Z_scope.

Definition COMPRESS_POINTER_MARK8 : Z := 0xc0.

Inductive fw_state := fw_start | fw_ordinary | fw_newcurrent.

#[export] Instance fw_state_eq_dec : EqDecision fw_state.
Proof. solve_decision. Defined.

(** The variables of the constructor.  [current] is also the position in the buffer. *)
Record Wire := {
  w_offsets : list nat;
  w_ndata : list Z;
  w_n : Z;
  w_done : bool;
  nused : Z;
  seen_pointer : bool;
  fw : fw_state;
  cused : nat;
  current : nat;
  biggest_pointer : nat;
  new_current : Z
}.

(** [c = buffer.readUint8(); current++; if (!seen_pointer) cused++;] *)
Definition read_byte (w : Wire) : Wire :=
  {| w_offsets := w_offsets w; w_ndata := w_ndata w; w_n := w_n w; w_done := w_done w;
     nused := nused w; seen_pointer := seen_pointer w; fw := fw w;
     cused := if seen_pointer w then cused w else S (cused w); current := S (current w);
     biggest_pointer := biggest_pointer w; new_current := new_current w |}.

Section FromWire.
Context (downcase : bool) (buffer : list Z).

(** The cases of the switch, at the byte [c]. *)
Definition wire_start (c : Z) (w : Wire) : res Wire :=
  if c <=? MAX_LABELLEN then
    _ ← throw_if (Z.of_nat MAX_WIRE <? nused w + c + 1) DNSMessageFORMERR;
    mret {| w_offsets := w_offsets w ++ [Z.to_nat (nused w)]; w_ndata := w_ndata w ++ [c];
            w_n := c; w_done := (c =? 0); nused := nused w + c + 1;
            seen_pointer := seen_pointer w; fw := fw_ordinary; cused := cused w;
            current := current w; biggest_pointer := biggest_pointer w;
            new_current := new_current w |}
  else if Z.land c COMPRESS_POINTER_MARK8 =? COMPRESS_POINTER_MARK8 then
    mret {| w_offsets := w_offsets w; w_ndata := w_ndata w; w_n := 1; w_done := w_done w;
            nused := nused w; seen_pointer := seen_pointer w; fw := fw_newcurrent;
            cused := cused w; current := current w; biggest_pointer := biggest_pointer w;
            new_current := Z.land c (Z.lnot COMPRESS_POINTER_MARK8) |}
  else Throw DNSMessageFORMERR.

Definition wire_ordinary (c : Z) (w : Wire) : res Wire :=
  let n := w_n w - 1 in
  mret {| w_offsets := w_offsets w; w_ndata := w_ndata w ++ [fold_case downcase c]; w_n := n;
          w_done := w_done w; nused := nused w; seen_pointer := seen_pointer w;
          fw := if n =? 0 then fw_start else fw w; cused := cused w; current := current w;
          biggest_pointer := biggest_pointer w; new_current := new_current w |}.

Definition wire_newcurrent (c : Z) (w : Wire) : res Wire :=
  let target := new_current w * 256 + c in
  let n := w_n w - 1 in
  if negb (n =? 0) then
    mret {| w_offsets := w_offsets w; w_ndata := w_ndata w; w_n := n; w_done := w_done w;
            nused := nused w; seen_pointer := seen_pointer w; fw := fw w; cused := cused w;
            current := current w; biggest_pointer := biggest_pointer w; new_current := target |}
  else
    _ ← throw_if (Z.of_nat (biggest_pointer w) <=? target) DNSMessageFORMERR;
    mret {| w_offsets := w_offsets w; w_ndata := w_ndata w; w_n := n; w_done := w_done w;
            nused := nused w; seen_pointer := true; fw := fw_start; cused := cused w;
            current := Z.to_nat target; biggest_pointer := Z.to_nat target;
            new_current := target |}.

Definition wire_byte (c : Z) (w : Wire) : res Wire :=
  match fw w with
  | fw_start => wire_start c w
  | fw_ordinary => wire_ordinary c w
  | fw_newcurrent => wire_newcurrent c w
  end.

Fixpoint wire_loop (fuel : nat) (w : Wire) : res Wire :=
  match fuel with
  | O => Throw OutOfFuel
  | S fuel' =>
      if w_done w then mret w
      else match buffer !! current w with
           | None => mret w
           | Some c => w ← wire_byte c (read_byte w); wire_loop fuel' w
           end
  end.

(** Between two pointers the position only grows. *)
Definition wire_fuel (pos : nat) : nat := S pos * (S (length buffer)) + S (length buffer).

(** [Name::Name(buffer, downcase)] at the position [pos]; the result has the position after
    the name. *)
Definition name_fromWire (pos : nat) : res (Name * nat) :=
  w ← wire_loop (wire_fuel pos)
        {| w_offsets := []; w_ndata := []; w_n := 0; w_done := false; nused := 0;
           seen_pointer := false; fw := fw_start; cused := 0; current := pos;
           biggest_pointer := pos; new_current := 0 |};
  _ ← throw_if (negb (w_done w)) DNSMessageFORMERR;
  mret ({| ndata_ := w_ndata w; offsets_ := w_offsets w |}, (pos + cused w)%nat).
End FromWire.

(** [Name::toWire(OutputBuffer&)] *)
Definition name_toWire (n : Name) (buffer : list Z) : list Z := buffer ++ ndata_ n.

(** ** Correctness *)

Section Correct.
Context (downcase : bool) (buffer : list Z).
Hypothesis Hbytes : Forall (λ c, 0 ≤ c < 256) buffer.

Context (pos : nat).

(** What has been read: whole labels and, inside a label, the beginning of it. *)
Definition label_read (ls : list (list Z)) (w : Wire) : Prop :=
  Forall label_ok ls ∧ (length (wire ls) ≤ MAX_WIRE)%nat ∧
  if w_done w then
    w_ndata w = wire ls ++ [0] ∧ w_offsets w = starts 0 ls ∧ (length (wire ls) < MAX_WIRE)%nat
  else
    match fw w with
    | fw_start => w_ndata w = wire ls ∧ w_offsets w ++ [length (wire ls)] = starts 0 ls ∧
        nused w = Z.of_nat (length (wire ls))
    | fw_newcurrent => w_ndata w = wire ls ∧ w_offsets w ++ [length (wire ls)] = starts 0 ls ∧
        nused w = Z.of_nat (length (wire ls)) ∧ w_n w = 1 ∧ 0 ≤ new_current w
    | fw_ordinary => ∃ b, 0 < w_n w ∧
        Z.of_nat (length b) + w_n w ≤ MAX_LABELLEN ∧ Forall (λ c, 0 ≤ c < 256) b ∧
        w_ndata w = wire ls ++ (Z.of_nat (length b) + w_n w) :: b ∧
        w_offsets w = starts 0 ls ∧
        nused w = Z.of_nat (length (wire ls)) + 1 + Z.of_nat (length b) + w_n w ∧
        nused w ≤ Z.of_nat MAX_WIRE
    end.

Record wire_ok (w : Wire) : Prop := {
  wire_current : (current w ≤ length buffer)%nat;
  wire_pointer : (biggest_pointer w ≤ length buffer)%nat;
  wire_used : (pos + cused w ≤ length buffer)%nat;
  wire_here : seen_pointer w = false → (pos + cused w)%nat = current w;
  wire_progress : w_done w = false ∧ seen_pointer w = false ∨ (0 < cused w)%nat;
  wire_labels : ∃ ls, label_read ls w
}.

(** The steps that are left at most. *)
Definition measure (w : Wire) : nat :=
  biggest_pointer w * S (length buffer) + (length buffer - current w).

Lemma starts_next ls l k :
  starts k ls ++ [(k + length (wire (ls ++ [l])))%nat] = starts k (ls ++ [l]).
Proof. by rewrite starts_snoc. Qed.

Lemma wire_byte_ok c w :
  wire_ok w → w_done w = false → buffer !! current w = Some c →
  match wire_byte downcase c (read_byte w) with
  | Ok w' => wire_ok w' ∧ (measure w' < measure w)%nat
  | Throw e => e = DNSMessageFORMERR
  end.
Proof using Hbytes.
  intros [H1 H2 H3 H4 H5 (ls & Hls & Hlen & Hw)] Hd Hc. rewrite Hd in Hw.
  pose proof (lookup_lt_Some _ _ _ Hc) as Hlt.
  pose proof (Forall_lookup_1 _ _ _ _ Hbytes Hc) as Hbyte. cbn in Hbyte.
  assert (seen_pointer w = false → (pos + S (cused w))%nat = S (current w)) as H4'
    by (intros E; specialize (H4 E); lia).
  assert (pos + (if seen_pointer w then cused w else S (cused w)) ≤ length buffer)%nat as H3'
    by (destruct (seen_pointer w); [lia|rewrite H4' by done; lia]).
  assert (seen_pointer w = false →
    (pos + (if seen_pointer w then cused w else S (cused w)))%nat = S (current w)) as H4''
    by (intros E; rewrite E; auto).
  assert (0 < (if seen_pointer w then cused w else S (cused w)))%nat as H5'
    by (destruct (seen_pointer w); [naive_solver|lia]).
  assert (biggest_pointer w * S (length buffer) + (length buffer - S (current w)) < measure w)%nat
    as Hm by (unfold measure; lia).
  unfold wire_byte. change (fw (read_byte w)) with (fw w). destruct (fw w) eqn:Efw.
  - destruct Hw as (E1 & E2 & E3). unfold wire_start, throw_if. cbn [nused read_byte].
    destruct (c <=? MAX_LABELLEN) eqn:El; [apply Z.leb_le in El|].
    + destruct (_ <? _) eqn:Eb; [done|]. apply Z.ltb_ge in Eb. cbn [mbind res_bind mret res_ret].
      rewrite E3 in Eb |- *. split; [|exact Hm].
      split; [cbn; lia|done|exact H3'|exact H4''|by right|]. exists ls.
      assert (w_offsets w ++ [Z.to_nat (Z.of_nat (length (wire ls)))] = starts 0 ls) as E2'
        by (by rewrite Nat2Z.id).
      split; [done|]. split; [done|]. cbn.
      destruct (c =? 0) eqn:E0.
      * apply Z.eqb_eq in E0 as ->. rewrite E1, E2'. split_and!; [done..|]. unfold MAX_WIRE in *. lia.
      * apply Z.eqb_neq in E0. exists []. cbn. rewrite E1, E2'. split_and!; try done; lia.
    + destruct (_ =? _); [|done]. cbn. split; [|exact Hm].
      split; [cbn; lia|done|exact H3'|exact H4''|by right|]. exists ls. unfold label_read. cbn. rewrite Hd.
      split_and!; try done. apply Z.land_nonneg. lia.
  - destruct Hw as (b & N0 & N1 & Hb & E1 & E2 & E3 & E4). unfold wire_ordinary. cbn.
    split; [|exact Hm]. split; [cbn; lia|done|exact H3'|exact H4''|by right|].
    pose proof (fold_case_byte downcase c Hbyte) as Hfold.
    assert (Forall (λ c, 0 ≤ c < 256) (b ++ [fold_case downcase c])) as Hb'
      by (apply Forall_app; split; [done|by constructor]).
    destruct (w_n w - 1 =? 0) eqn:En.
    + apply Z.eqb_eq in En. exists (ls ++ [b ++ [fold_case downcase c]]). unfold label_read. cbn.
      rewrite Hd, wire_snoc.
      assert (Z.of_nat (length (b ++ [fold_case downcase c])) = Z.of_nat (length b) + w_n w) as El
        by (rewrite length_app; cbn; lia).
      split_and!.
      * apply Forall_app. split; [done|]. apply Forall_singleton. split_and!; [by destruct b|lia|done].
      * rewrite length_app. cbn. unfold MAX_WIRE in *. lia.
      * by rewrite E1, El, <- app_assoc.
      * rewrite E2, starts_snoc, wire_snoc. done.
      * rewrite E3, !length_app. cbn. rewrite length_app. cbn. lia.
    + apply Z.eqb_neq in En. exists ls. unfold label_read. cbn. rewrite Hd, Efw.
      split; [done|]. split; [done|]. exists (b ++ [fold_case downcase c]).
      assert (Z.of_nat (length (b ++ [fold_case downcase c])) = Z.of_nat (length b) + 1) as El
        by (rewrite length_app; cbn; lia).
      rewrite El. replace (Z.of_nat (length b) + 1 + (w_n w - 1)) with (Z.of_nat (length b) + w_n w) by lia.
      split_and!; try done; try lia. by rewrite E1, <- app_assoc.
  - destruct Hw as (E1 & E2 & E3 & E4 & E5). unfold wire_newcurrent, throw_if. cbn.
    rewrite E4. cbn. destruct (_ <=? _) eqn:Ep; [done|]. apply Z.leb_gt in Ep. cbn.
    split.
    + split; cbn; [lia|lia|exact H3'|done|by right|]. exists ls. unfold label_read. cbn. by rewrite Hd.
    + unfold measure. cbn.
      assert (Z.to_nat (new_current w * 256 + c) < biggest_pointer w)%nat as Ht by lia. nia.
Qed.

Lemma wire_loop_ok fuel : ∀ w,
  wire_ok w → (measure w < fuel)%nat →
  match wire_loop downcase buffer fuel w with
  | Ok w' => wire_ok w'
  | Throw e => e = DNSMessageFORMERR
  end.
Proof using Hbytes.
  induction fuel as [|fuel IH]; intros w Hw Hf; [lia|]. cbn [wire_loop].
  destruct (w_done w) eqn:Hd; [done|]. destruct (buffer !! current w) as [c|] eqn:Hc; [|done].
  pose proof (wire_byte_ok c w Hw Hd Hc) as H.
  destruct (wire_byte _ _ _) as [w'|e]; [|exact H]. cbn [mbind res_bind].
  destruct H as [Hw' Hm]. apply IH; [done|lia].
Qed.
End Correct.

Lemma name_fromWire_ok (downcase : bool) (buffer : list Z) (pos : nat) :
  Forall (λ c, 0 ≤ c < 256) buffer → (pos ≤ length buffer)%nat →
  match name_fromWire downcase buffer pos with
  | Ok (n, next) => wf_name n ∧ (getLength n ≤ MAX_WIRE)%nat ∧ (pos < next ≤ length buffer)%nat
  | Throw e => e = DNSMessageFORMERR
  end.
Proof.
  intros Hbytes Hpos.
  unfold name_fromWire. set (w0 := {| w_offsets := [] |}).
  assert (wire_ok buffer pos w0) as H0.
  { split; cbn; try lia. exists []. repeat split; [constructor|cbn; lia]. }
  assert (measure buffer w0 < wire_fuel buffer pos)%nat as Hm
    by (unfold measure, wire_fuel; cbn; lia).
  pose proof (wire_loop_ok downcase buffer Hbytes pos _ w0 H0 Hm) as H.
  destruct (wire_loop _ _ _ _) as [w|e]; [|exact H]. cbn [mbind res_bind].
  destruct H as [H1 H2 H3 H4 H5 (ls & Hls & Hlen & Hw)]. unfold throw_if.
  destruct (w_done w); [|done]. cbn. destruct Hw as (E1 & E2 & E3).
  split; [|split; [|destruct H5 as [[]|]; [done|lia]]].
  - exists ls. split; [by split|]. unfold name_of. by rewrite E1, E2.
  - unfold getLength. cbn. rewrite E1, length_app. cbn. lia.
Qed.

(** C22: Reading a name from a message ends, with a well formed name that has at least one byte and is inside the message, or
    with the exception for a malformed message: also pointers that lead to each other
    end the name. *)
Theorem name_fromWire_wf (downcase : bool) (buffer : list Z) (pos : nat)
    (Hbytes : Forall (λ c, 0 ≤ c < 256) buffer) (Hpos : (pos ≤ length buffer)%nat) :
  match name_fromWire downcase buffer pos with
  | Ok (n, next) => wf_name n ∧ (getLength n ≤ MAX_WIRE)%nat ∧ (pos < next ≤ length buffer)%nat
  | Throw e => e = DNSMessageFORMERR
  end.
Proof. by apply name_fromWire_ok. Qed.

Lemma name_fromWire_wf_witness :
  Forall (λ c, 0 ≤ c < 256) [1; 97; 0xc0; 0; 0xc0; 2] ∧ (4 ≤ 6)%nat ∧
  match name_fromWire false [1; 97; 0xc0; 0; 0xc0; 2] 4 with
  | Ok (n, next) => wf_name n ∧ (getLength n ≤ MAX_WIRE)%nat ∧ (4 < next ≤ 6)%nat
  | Throw e => e = DNSMessageFORMERR
  end.
Proof.
  assert (Forall (λ c, 0 ≤ c < 256) [1; 97; 0xc0; 0; 0xc0; 2]) as Hb by (repeat constructor; lia).
  assert (4 ≤ 6)%nat as Hp by lia.
  split; [exact Hb|]. split; [exact Hp|].
  exact (name_fromWire_wf false [1; 97; 0xc0; 0; 0xc0; 2] 4 Hb Hp).
Defined.

(** ** Writing a name and reading it *)

Section RoundTrip.
Context (buffer : list Z) (pos : nat).

(** [k] bytes of the name have been read, without a pointer. *)
Definition reading (offs : list nat) (nd : list Z) (n : Z) (fin : bool) (nu : Z) (s : fw_state)
    (k : nat) : Wire :=
  {| w_offsets := offs; w_ndata := nd; w_n := n; w_done := fin; nused := nu;
     seen_pointer := false; fw := s; cused := k; current := pos + k; biggest_pointer := pos;
     new_current := 0 |}.

Lemma drop_cons {A} (l : list A) i x t : drop i l = x :: t → l !! i = Some x ∧ drop (S i) l = t.
Proof.
  intros E. split.
  - rewrite <- (Nat.add_0_r i), <- lookup_drop, E. done.
  - replace (S i) with (i + 1)%nat by lia. rewrite <- drop_drop, E. done.
Qed.

Lemma wire_loop_byte fuel offs nd n nu s k c w rest :
  drop (pos + k) buffer = c :: rest →
  wire_byte false c (reading offs nd n false nu s (S k)) = Ok w →
  wire_loop false buffer (S fuel) (reading offs nd n false nu s k) = wire_loop false buffer fuel w.
Proof.
  intros [Hc _]%drop_cons Hw. cbn [wire_loop w_done current reading]. rewrite Hc.
  unfold read_byte. cbn. replace (S (pos + k)) with (pos + S k)%nat by lia.
  unfold reading in Hw. by rewrite Hw.
Qed.

Lemma drop_next k c rest : drop (pos + k) buffer = c :: rest → drop (pos + S k) buffer = rest.
Proof. intros [_ E]%drop_cons. by rewrite Nat.add_succ_r. Qed.

Lemma wire_loop_chars r : ∀ fuel offs nd nu k rest,
  r ≠ [] → drop (pos + k) buffer = r ++ rest →
  wire_loop false buffer (length r + fuel)
    (reading offs nd (Z.of_nat (length r)) false nu fw_ordinary k)
  = wire_loop false buffer fuel (reading offs (nd ++ r) 0 false nu fw_start (k + length r)).
Proof.
  induction r as [|c r IH]; intros fuel offs nd nu k rest Hr Hd; [done|].
  cbn [length plus]. erewrite wire_loop_byte; [|exact Hd|reflexivity].
  unfold wire_ordinary. cbn [w_n reading w_offsets w_ndata nused seen_pointer cused current
    biggest_pointer new_current w_done fw fold_case].
  replace (Z.of_nat (S (length r)) - 1) with (Z.of_nat (length r)) by lia.
  destruct r as [|c' r].
  - cbn. unfold reading. do 2 f_equal; lia.
  - rewrite (proj2 (Z.eqb_neq _ _)) by (cbn; lia).
    pose proof (IH fuel offs (nd ++ [c]) nu (S k) rest ltac:(done) (drop_next _ _ _ Hd)) as E.
    unfold reading in *. rewrite E. rewrite <- app_assoc. cbn [length app].
    do 2 f_equal; lia.
Qed.

Lemma wire_loop_label l fuel offs nd n nu k rest :
  label_ok l → 0 ≤ nu → nu + Z.of_nat (length l) + 1 ≤ Z.of_nat MAX_WIRE →
  drop (pos + k) buffer = Z.of_nat (length l) :: l ++ rest →
  wire_loop false buffer (S (length l) + fuel) (reading offs nd n false nu fw_start k)
  = wire_loop false buffer fuel
      (reading (offs ++ [Z.to_nat nu]) (nd ++ Z.of_nat (length l) :: l) 0 false
        (nu + Z.of_nat (length l) + 1) fw_start (k + S (length l))).
Proof.
  intros (Hl & Hlen & _) Hnu Hmax Hd. cbn [plus].
  assert ((Z.of_nat (length l) =? 0) = false) as E0 by (apply Z.eqb_neq; by destruct l).
  erewrite wire_loop_byte; [|exact Hd|].
  2: { unfold wire_byte, wire_start, throw_if. cbn [fw reading].
       rewrite (proj2 (Z.leb_le _ _) Hlen). cbn [nused reading].
       rewrite (proj2 (Z.ltb_ge _ _) Hmax). cbn [mbind res_bind]. by rewrite E0. }
  pose proof (wire_loop_chars l fuel (offs ++ [Z.to_nat nu]) (nd ++ [Z.of_nat (length l)])
    (nu + Z.of_nat (length l) + 1) (S k) rest Hl (drop_next _ _ _ Hd)) as E.
  unfold reading in *. cbn [w_offsets w_ndata nused seen_pointer cused current biggest_pointer
    new_current] in *. rewrite E, <- app_assoc. cbn [app]. do 2 f_equal; lia.
Qed.

Lemma wire_loop_labels ls' : ∀ ls fuel n rest,
  Forall label_ok ls' → (length (wire (ls ++ ls')) < MAX_WIRE)%nat →
  drop (pos + length (wire ls)) buffer = wire ls' ++ 0 :: rest →
  wire_loop false buffer (length (wire ls') + S (S fuel))
    (reading (removelast (starts 0 ls)) (wire ls) n false (Z.of_nat (length (wire ls))) fw_start
       (length (wire ls)))
  = Ok (reading (starts 0 (ls ++ ls')) (wire (ls ++ ls') ++ [0]) 0 true
          (Z.of_nat (length (wire (ls ++ ls'))) + 1) fw_ordinary (S (length (wire (ls ++ ls'))))).
Proof.
  induction ls' as [|l ls' IH]; intros ls fuel n rest Hls Hlen Hd.
  - rewrite app_nil_r in *. cbn [length wire mbind list_bind plus].
    erewrite wire_loop_byte; [|exact Hd|].
    2: { unfold wire_byte, wire_start, throw_if. cbn [fw reading]. cbn [Z.leb nused reading].
         rewrite (proj2 (Z.ltb_ge _ _)) by lia. reflexivity. }
    cbn [wire_loop w_done]. unfold reading. cbn. rewrite Nat2Z.id, Z.add_0_r.
    pose proof (last_starts ls 0) as El. do 2 f_equal. symmetry.
    rewrite (app_removelast_last 0%nat (l := starts 0 ls)) at 1; [|by destruct ls].
    do 2 f_equal. destruct (exists_last (l := starts 0 ls)) as (t & x & E); [by destruct ls|].
    rewrite E in El |- *. rewrite last_snoc in El. injection El as ->. by rewrite last_last.
  - apply Forall_cons in Hls as [Hl Hls].
    replace (ls ++ l :: ls') with ((ls ++ [l]) ++ ls') in * by (by rewrite <- app_assoc).
    rewrite wire_cons in Hd |- *. cbn [app] in Hd. rewrite <- app_assoc in Hd.
    assert (length (wire (ls ++ [l])) = length (wire ls) + S (length l))%nat as El
      by (rewrite wire_snoc, length_app; done).
    assert (length (wire (ls ++ [l])) ≤ length (wire ((ls ++ [l]) ++ ls')))%nat as Ele
      by (unfold wire; rewrite (bind_app _ (ls ++ [l])), length_app; lia).
    cbn [length]. rewrite length_app.
    replace (S (length l + length (wire ls')) + S (S fuel))%nat
      with (S (length l) + (length (wire ls') + S (S fuel)))%nat by lia.
    rewrite (wire_loop_label l _ _ _ _ _ _ (wire ls' ++ 0 :: rest)); [|done|lia|lia|done].
    specialize (IH (ls ++ [l]) fuel 0 rest Hls Hlen).
    rewrite <- IH.
    + f_equal. unfold reading. f_equal; try lia.
      * rewrite Nat2Z.id, starts_snoc, removelast_last.
        destruct (exists_last (l := starts 0 ls)) as (t & x & E); [by destruct ls|].
        pose proof (last_starts ls 0) as Elast. rewrite E in Elast |- *.
        rewrite last_snoc in Elast. injection Elast as ->. by rewrite removelast_last.
      * by rewrite wire_snoc.
    + rewrite El, Nat.add_assoc, <- drop_drop, Hd. cbn. by rewrite drop_app_length.
Qed.
End RoundTrip.

Lemma name_fromWire_toWire (n : Name) (before after : list Z) :
  wf_name n →
  name_fromWire false (name_toWire n before ++ after) (length before) =
  Ok (n, (length before + getLength n)%nat).
Proof.
  intros (ls & [Hls Hlen] & ->). unfold name_fromWire, name_toWire.
  cbn [name_of ndata_ getLength]. set (buffer := (before ++ wire ls ++ [0]) ++ after).
  assert (drop (length before + 0) buffer = wire ls ++ 0 :: after) as Hd.
  { unfold buffer. rewrite <- app_assoc, Nat.add_0_r, drop_app_length, <- app_assoc. done. }
  assert (wire_fuel buffer (length before) =
    length (wire ls) + S (S (wire_fuel buffer (length before) - length (wire ls) - 2)))%nat as ->.
  { unfold wire_fuel, buffer. rewrite !length_app. cbn. nia. }
  pose proof (wire_loop_labels buffer (length before) ls [] (wire_fuel buffer (length before) - length (wire ls) - 2) 0 after Hls Hlen Hd) as E.
  cbn [app] in E. unfold reading in E at 1. cbn [starts removelast] in E.
  replace (length before + length (wire []))%nat with (length before) in E by (cbn; lia).
  cbn [wire mbind list_bind length] in E. change (Z.of_nat 0) with 0 in E. rewrite E. cbn.
  rewrite length_app. cbn. do 3 f_equal. lia.
Qed.

(** C21: A name that is written after other data is read back from there, and what follows it
    is left. *)
Theorem name_wire_roundtrip (n : Name) (before after : list Z) (Hn : wf_name n) :
  name_fromWire false (name_toWire n before ++ after) (length before) =
  Ok (n, (length before + getLength n)%nat).
Proof. by apply name_fromWire_toWire. Qed.

Lemma name_wire_roundtrip_witness :
  wf_name (name_of [[119]; [0; 64]]) ∧
  name_fromWire false (name_toWire (name_of [[119]; [0; 64]]) [7; 7] ++ [9]) 2 =
    Ok (name_of [[119]; [0; 64]], 8%nat).
Proof.
  assert (wf_name (name_of [[119]; [0; 64]])) as Hn.
  { exists [[119]; [0; 64]]. split; [|done]. split; [|vm_compute; lia].
    repeat constructor; unfold MAX_LABELLEN; cbn; lia || done. }
  split; [exact Hn|]. exact (name_wire_roundtrip _ [7; 7] [9] Hn).
Defined.
