(* ===== verification/Option4ClientFqdn.v ===== *)
(** * The DHCPv4 Client FQDN option ([src/lib/dhcp/option4_client_fqdn.cc])

    The option in which a client gives its name and says who is to update the DNS: its
    flags with their checks, its domain name as a [Name], and its wire format in the two
    encodings of RFC 4702.  The type of a name that is not there is not set by the constructor
    from wire data, hence the [option]. *)

From S2P Require Import Prelude DnsName NameWire.
Local Open Scope Z_scope.

(** ** Strings ([src/lib/util/strutil.cc]) *)

Definition blank (c : Z) : bool := (c =? 32) || (c =? 9) || (c =? 10).

Definition not_blank (c : Z) : Prop := blank c = false.

(** [trim] on the bytes of a string, with [find_first_not_of] and [find_last_not_of]. *)
Definition trim_bytes (l : list Z) : list Z :=
  match list_find not_blank l, list_find not_blank (reverse l) with
  | Some (first, _), Some (after, _) => take (length l - after - first) (drop first l)
  | _, _ => []
  end.
Definition trim (s : string) : string := string_of_chars (trim_bytes (bytes_of_string s)).

(** ** The option *)

Definition FLAG_S : Z := 1.
Definition FLAG_O : Z := 2.
Definition FLAG_E : Z := 4.
Definition FLAG_N : Z := 8.
Definition FLAG_MASK : Z := 15.
Definition RCODE_CLIENT : Z := 0.

Inductive DomainNameType := PARTIAL | FULL.

#[export] Instance DomainNameType_eq_dec : EqDecision DomainNameType.
Proof. solve_decision. Defined.

Record Fqdn := {
  flags_ : Z;
  rcode1_ : Z;
  rcode2_ : Z;
  domain_name_ : option Name;
  domain_name_type_ : option DomainNameType
}.

Definition with_flags (f : Z) (o : Fqdn) : Fqdn :=
  {| flags_ := f; rcode1_ := rcode1_ o; rcode2_ := rcode2_ o; domain_name_ := domain_name_ o;
     domain_name_type_ := domain_name_type_ o |}.
Definition with_domain (n : option Name) (t : option DomainNameType) (o : Fqdn) : Fqdn :=
  {| flags_ := flags_ o; rcode1_ := rcode1_ o; rcode2_ := rcode2_ o; domain_name_ := n;
     domain_name_type_ := t |}.

Definition checkFlags (flags : Z) (check_mbz : bool) : res unit :=
  _ ← throw_if (check_mbz && negb (Z.land flags (unot 32 FLAG_MASK) =? 0)) InvalidOption4FqdnFlags;
  throw_if (Z.land flags (Z.lor FLAG_N FLAG_S) =? Z.lor FLAG_N FLAG_S) InvalidOption4FqdnFlags.

(** [catch (const Exception&) throw InvalidOption4FqdnDomainName] *)
Definition to_fqdn_error {A} (r : res A) : res A :=
  match r with
  | Ok a => Ok a
  | Throw e => if catchable e then Throw InvalidOption4FqdnDomainName else Throw e
  end.

Definition setDomainName (domain_name : string) (name_type : DomainNameType) (o : Fqdn) : res Fqdn :=
  let name := trim domain_name in
  if bool_decide (name = "") then
    _ ← throw_if (bool_decide (name_type = FULL)) InvalidOption4FqdnDomainName;
    mret (with_domain None (Some name_type) o)
  else
    n ← to_fqdn_error (mkName false (bytes_of_string name));
    mret (with_domain (Some n) (Some name_type) o).
Definition resetDomainName (o : Fqdn) : res Fqdn := setDomainName "" PARTIAL o.

(** The constructor from its values. *)
Definition mkFqdn (flags rcode : Z) (domain_name : string) (name_type : DomainNameType) : res Fqdn :=
  _ ← checkFlags flags true;
  setDomainName domain_name name_type
    {| flags_ := flags; rcode1_ := rcode; rcode2_ := rcode; domain_name_ := None;
       domain_name_type_ := Some name_type |}.

Definition getFlag (flag : Z) (o : Fqdn) : res bool :=
  _ ← throw_if (negb ((flag =? FLAG_S) || (flag =? FLAG_O) || (flag =? FLAG_N) || (flag =? FLAG_E)))
        InvalidOption4FqdnFlags;
  mret (negb (Z.land (flags_ o) flag =? 0)).

Definition setFlag (flag : Z) (set_flag : bool) (o : Fqdn) : res Fqdn :=
  _ ← throw_if (negb (Z.land flag (unot 32 FLAG_MASK) =? 0) || (flag =? 0)) InvalidOption4FqdnFlags;
  let new_flag := if set_flag then u8 (Z.lor (flags_ o) flag) else Z.land (flags_ o) (unot 8 flag) in
  _ ← checkFlags new_flag true;
  mret (with_flags new_flag o).
Definition resetFlags (o : Fqdn) : Fqdn := with_flags 0 o.

Definition setRcode (rcode : Z) (o : Fqdn) : Fqdn :=
  {| flags_ := flags_ o; rcode1_ := rcode; rcode2_ := rcode; domain_name_ := domain_name_ o;
     domain_name_type_ := domain_name_type_ o |}.

(** The bytes of the text, and the text. *)
Definition domain_text (o : Fqdn) : res (list Z) :=
  match domain_name_ o with
  | Some n => name_toText (bool_decide (domain_name_type_ o = Some PARTIAL)) n
  | None => mret []
  end.
Definition getDomainName (o : Fqdn) : res string := string_of_chars <$> domain_text o.

(** A type that was never set has no value. *)
Definition getDomainNameType (o : Fqdn) : res DomainNameType :=
  match domain_name_type_ o with Some t => mret t | None => Throw AssertionFailure end.

(** ** The wire format, after the code and the length of the option *)

Definition parseCanonicalDomainName (data : list Z) (o : Fqdn) : res Fqdn :=
  match last data with
  | None => mret o
  | Some c =>
      if negb (c =? 0) then
        '(n, _) ← name_fromWire false (data ++ [0]) 0;
        mret (with_domain (Some n) (Some PARTIAL) o)
      else
        '(n, _) ← name_fromWire false data 0;
        mret (with_domain (Some n) (Some FULL) o)
  end.

Definition parseASCIIDomainName (data : list Z) (o : Fqdn) : res Fqdn :=
  match last data with
  | None => mret o
  | Some c =>
      n ← mkName false data;
      mret (with_domain (Some n) (Some (if c =? 46 then FULL else PARTIAL)) o)
  end.

Definition parseWireData (data : list Z) (o : Fqdn) : res Fqdn :=
  match data with
  | flags :: rcode1 :: rcode2 :: name =>
      let o := {| flags_ := flags; rcode1_ := rcode1; rcode2_ := rcode2;
                  domain_name_ := domain_name_ o; domain_name_type_ := domain_name_type_ o |} in
      to_fqdn_error (if negb (Z.land flags FLAG_E =? 0) then parseCanonicalDomainName name o
                     else parseASCIIDomainName name o)
  | _ => Throw OutOfRange
  end.

(** [Option4ClientFqdn::unpack]; the constructor from wire data starts with an object without
    a name. *)
Definition fqdn_unpack (data : list Z) (o : Fqdn) : res Fqdn :=
  o ← parseWireData data o;
  _ ← checkFlags (flags_ o) false;
  mret o.
Definition fqdn_fromWire (data : list Z) : res Fqdn :=
  fqdn_unpack data {| flags_ := 0; rcode1_ := RCODE_CLIENT; rcode2_ := RCODE_CLIENT;
                      domain_name_ := None; domain_name_type_ := None |}.

Definition packDomainName (o : Fqdn) : res (list Z) :=
  match domain_name_ o with
  | None => mret []
  | Some n =>
      e ← getFlag FLAG_E o;
      if (e : bool) then
        mret (if (0 <? getLength n)%nat then
                if bool_decide (domain_name_type_ o = Some PARTIAL)
                then take (getLength n - 1) (ndata_ n) else ndata_ n
              else [])
      else domain_text o
  end.

Definition fqdn_pack (o : Fqdn) : res (list Z) :=
  name ← packDomainName o;
  mret (flags_ o :: rcode1_ o :: rcode2_ o :: name).

(** [len() - getHeaderLen()] *)
Definition fqdn_len (o : Fqdn) : res nat :=
  match domain_name_ o with
  | None => mret 3%nat
  | Some n =>
      e ← getFlag FLAG_E o;
      if (e : bool) then
        mret (3 + if bool_decide (domain_name_type_ o = Some FULL) then getLength n
                  else getLength n - 1)%nat
      else text ← domain_text o; mret (3 + length text)%nat
  end.

(** ** Correctness *)

(** A name with its type; what a client cannot say in its encoding is left out: a partial name
    is not the root, and its last byte is not what ends a full name. *)
Definition last_byte (ls : list (list Z)) : option Z := l ← last ls; last l.

Record fqdn_ok (o : Fqdn) : Prop := {
  fqdn_flags : 0 ≤ flags_ o < 256 ∧ checkFlags (flags_ o) false = Ok tt;
  fqdn_name : match domain_name_ o with
              | None => domain_name_type_ o = None
              | Some n => ∃ ls t, labels_ok ls ∧ n = name_of ls ∧ domain_name_type_ o = Some t ∧
                  (t = PARTIAL → ∃ c, last_byte ls = Some c ∧
                     c ≠ if Z.land (flags_ o) FLAG_E =? 0 then 46 else 0)
              end
}.

Lemma last_wire ls c : last_byte ls = Some c → last (wire ls) = Some c.
Proof.
  unfold last_byte. destruct ls as [|l ls _] using rev_ind; [done|].
  rewrite last_snoc. cbn. intros Hl. rewrite wire_snoc, last_app. cbn. destruct l; [done|].
  change (last (z :: l) = Some c) in Hl. by rewrite last_cons, Hl.
Qed.

Lemma last_char_text c : ∃ d, last (char_text c) = Some d ∧ (d = 46 ↔ c = 46).
Proof.
  unfold char_text. destruct (special c) eqn:E; [by exists c|].
  assert (c ≠ 46) as Hc by (intros ->; done).
  destruct (_ && _); [by exists c|]. eexists. split; [done|].
  pose proof (Z.mod_pos_bound c 10 ltac:(lia)). lia.
Qed.

Lemma last_enc l c : last l = Some c → ∃ d, last (enc l) = Some d ∧ (d = 46 ↔ c = 46).
Proof.
  destruct l as [|x l _] using rev_ind; [done|]. rewrite last_snoc. intros [= ->].
  destruct (last_char_text c) as (d & Hd & Hc). exists d. split; [|done].
  unfold enc. rewrite bind_app, last_app. cbn. by rewrite app_nil_r, Hd.
Qed.

Lemma last_labels_text omit ls :
  Forall label_ok ls →
  match last_byte ls with
  | Some c => ∃ d, last (labels_text omit ls) = Some d ∧
                   (d = 46 ↔ if omit then c = 46 else True)
  | None => last (labels_text omit ls) = Some 46
  end.
Proof.
  unfold last_byte. destruct ls as [|l ls _] using rev_ind; [done|]. intros Hls.
  apply Forall_app in Hls as [_ [(Hl & _) _]%Forall_cons]. rewrite last_snoc. cbn.
  destruct (last l) as [c|] eqn:Ec; [|by apply last_None in Ec].
  destruct (last_enc l c Ec) as (d & Hd & Hc).
  assert (∃ t, labels_text omit (ls ++ [l]) = t ++ enc l ++ final_dot omit) as [t ->].
  { destruct ls as [|l0 ls]; [by exists []|]. cbn. unfold dotted at 1. rewrite bind_app. cbn.
    exists (enc l0 ++ dotted ls ++ [46]). rewrite app_nil_r, <- !app_assoc. done. }
  rewrite !last_app. destruct omit; cbn; [|by exists 46].
  rewrite Hd. by exists d.
Qed.

Lemma getFlag_E o : getFlag FLAG_E o = Ok (negb (Z.land (flags_ o) FLAG_E =? 0)).
Proof. done. Qed.

(** C23: A well-formed client FQDN option that is packed is unpacked to itself, in both encodings.
    Well formed ([fqdn_ok]) means: valid flags; a domain name that is valid and, when it is a
    partial one, is not the root and does not end in what marks a full name, a dot in the ASCII
    encoding and a zero byte in the other; or no name, and then the option has no type of name.
    A partial name that ends in an escaped dot is a value of the class that does change:
    [escaped_dot_makes_full_name]. *)
Theorem fqdn_pack_unpack (o : Fqdn) (Ho : fqdn_ok o) :
  ∃ data, fqdn_pack o = Ok data ∧ fqdn_fromWire data = Ok o.
Proof.
  destruct Ho as [[_ Hf] Hn]. destruct o as [flags r1 r2 name type]. cbn in *.
  unfold fqdn_pack, packDomainName. cbn [domain_name_].
  destruct name as [n|].
  2: { subst type. eexists. split; [reflexivity|].
       unfold fqdn_fromWire, fqdn_unpack, parseWireData. destruct (negb _); cbn; by rewrite Hf. }
  destruct Hn as (ls & t & Hls & -> & -> & Hlast). rewrite getFlag_E. cbn [mbind res_bind flags_].
  destruct (Z.land flags FLAG_E =? 0) eqn:EE; cbn [negb].
  - unfold domain_text. cbn [domain_name_ domain_name_type_].
    rewrite name_toText_name_of by apply Hls. eexists. split; [reflexivity|].
    set (omit := bool_decide _).
    assert (∃ d, last (labels_text omit ls) = Some d ∧ (if d =? 46 then FULL else PARTIAL) = t)
      as (d & Hd & Ht).
    { pose proof (last_labels_text omit ls (proj1 Hls)) as H. subst omit. destruct t.
      - destruct Hlast as (c & Hc & Hne); [done|]. rewrite Hc in H. destruct H as (d & Hd & Hiff).
        exists d. split; [done|]. rewrite (proj2 (Z.eqb_neq _ _)); [done|]. naive_solver.
      - rewrite (bool_decide_eq_false_2 (Some FULL = Some PARTIAL)) in H |- * by done.
        destruct (last_byte ls) as [c|]; [|by eexists].
        destruct H as (d & Hd & Hiff). exists d. split; [done|].
        rewrite (proj2 (Z.eqb_eq _ _)); [done|]. naive_solver. }
    unfold fqdn_fromWire, fqdn_unpack, parseWireData. rewrite EE. cbn [negb].
    unfold parseASCIIDomainName. rewrite Hd, mkName_labels_text by done. cbn. by rewrite Hf, Ht.
  - eexists. split; [reflexivity|].
    unfold fqdn_fromWire, fqdn_unpack, parseWireData. rewrite EE. cbn [negb].
    unfold getLength. cbn [name_of ndata_]. rewrite length_app, Nat.add_1_r. cbn [Nat.ltb Nat.leb].
    assert (wf_name (name_of ls)) as Hwf by (by exists ls).
    pose proof (name_wire_roundtrip (name_of ls) [] [] Hwf) as Hrt.
    unfold name_toWire in Hrt. cbn [app ndata_ name_of length plus] in Hrt. rewrite app_nil_r in Hrt.
    unfold parseCanonicalDomainName. destruct t.
    + destruct Hlast as (c & Hc & Hne); [done|].
      rewrite (bool_decide_eq_true_2 (Some PARTIAL = Some PARTIAL)) by done.
      replace (S (length (wire ls)) - 1)%nat with (length (wire ls)) by lia.
      rewrite take_app_length, (last_wire ls c Hc), (proj2 (Z.eqb_neq _ _) Hne). cbn [negb].
      rewrite Hrt. cbn. by rewrite Hf.
    + rewrite (bool_decide_eq_false_2 (Some FULL = Some PARTIAL)) by done.
      assert (last (wire ls ++ [0]) = Some 0) as -> by (by rewrite last_app).
      change (negb (0 =? 0)) with false. cbv iota. rewrite Hrt. cbn. by rewrite Hf.
Qed.

Definition sample_fqdn : Fqdn :=
  {| flags_ := 5; rcode1_ := 0; rcode2_ := 0; domain_name_ := Some (name_of [[119; 46]; [120]]);
     domain_name_type_ := Some PARTIAL |}.

Lemma fqdn_pack_unpack_witness :
  fqdn_ok sample_fqdn ∧ ∃ data, fqdn_pack sample_fqdn = Ok data ∧ fqdn_fromWire data = Ok sample_fqdn.
Proof.
  assert (fqdn_ok sample_fqdn) as Ho.
  { split; [split; [cbn; lia|done]|]. exists [[119; 46]; [120]], PARTIAL. split_and!; try done.
    - split; [|vm_compute; lia]. repeat constructor; unfold MAX_LABELLEN; cbn; lia || done.
    - intros _. by exists 120. }
  split; [exact Ho|]. exact (fqdn_pack_unpack sample_fqdn Ho).
Defined.

(** A partial name whose last label ends with an escaped dot is taken for a full name. *)
Theorem escaped_dot_makes_full_name :
  ∃ o o' data, mkFqdn 0 0 "a\." PARTIAL = Ok o ∧ fqdn_pack o = Ok data ∧
    fqdn_fromWire data = Ok o' ∧ domain_name_ o' = domain_name_ o ∧
    domain_name_type_ o = Some PARTIAL ∧ domain_name_type_ o' = Some FULL.
Proof. do 3 eexists. split_and!; vm_compute; reflexivity. Qed.

(** An option without a name has no name type after it was read. *)
Theorem empty_name_has_no_type :
  ∃ o, fqdn_fromWire [1; 0; 0] = Ok o ∧ getDomainName o = Ok ""%string ∧
       getDomainNameType o = Throw AssertionFailure.
Proof. eexists. split_and!; vm_compute; reflexivity. Qed.

(** ** Flags *)

(** The four flags that are defined. *)
Definition known_flags (f : Z) : Prop := 0 ≤ f < 16.

Lemma checkFlags_known f : known_flags f → checkFlags f true = checkFlags f false.
Proof.
  intros Hf. unfold checkFlags. replace (Z.land f (unot 32 FLAG_MASK) =? 0) with true; [done|].
  symmetry. apply Z.eqb_eq. unfold known_flags in Hf.
  assert (f ∈ seqZ 0 16) as Hin by (apply elem_of_seqZ; lia). vm_compute in Hin.
  repeat (apply elem_of_cons in Hin as [->|Hin]; [done|]). by apply elem_of_nil in Hin.
Qed.
