(* ===== verification/D2ClientMgr.v ===== *)
(** * Names of clients ([src/lib/dhcpsrv/d2_client_mgr.cc], [d2_client_mgr.h],
      [d2_client_cfg.h])

    What the DHCP servers ask [D2ClientMgr]: who updates the DNS, given the flags of the
    client's FQDN option and the configuration, and which name the client gets.  The
    sanitizer applies a regular expression, which a library does; its function is part of
    the configuration.  The sending of requests to the DNS update server is left out. *)

From S2P Require Import Prelude IoAddress DnsName Option4ClientFqdn.
From Stdlib Require Import Ascii.
Local Open Scope Z_scope.

Inductive ReplaceClientNameMode :=
  RCM_NEVER | RCM_ALWAYS | RCM_WHEN_PRESENT | RCM_WHEN_NOT_PRESENT.

#[export] Instance ReplaceClientNameMode_eq_dec : EqDecision ReplaceClientNameMode.
Proof. solve_decision. Defined.

(** [D2ClientConfig], without the address and the protocol of the server. *)
Record D2ClientConfig := {
  enable_updates_ : bool;
  always_include_fqdn_ : bool;
  override_no_update_ : bool;
  override_client_update_ : bool;
  replace_client_name_mode_ : ReplaceClientNameMode;
  generated_prefix_ : string;
  qualifying_suffix : string;
  hostname_sanitizer_ : option (string → res string)
}.

(** [D2ClientMgr::qualifyName]. *)
Definition ends_with_dot (s : string) : bool :=
  bool_decide (String.get (String.length s - 1) s = Some "."%char).
Definition qualifyName (suffix partial_name : string) (trailing_dot : bool) : string :=
  let name := if bool_decide (suffix = "") then partial_name
              else (if (0 <? String.length partial_name)%nat && negb (ends_with_dot partial_name)
                    then partial_name +:+ "." else partial_name) +:+ suffix in
  if trailing_dot then
    if (0 <? String.length name)%nat && negb (ends_with_dot name) then name +:+ "." else name
  else
    if (0 <? String.length name)%nat && ends_with_dot name
    then String.substring 0 (String.length name - 1) name else name.

Section Manager.
Context `{AddressText} (d2_client_config_ : D2ClientConfig).

(** [analyzeFqdn]: [server_s] and [server_n]. *)
Definition analyzeFqdn (client_s client_n : bool) : res (bool * bool) :=
  match client_n, client_s with
  | false, false =>
      mret (if negb (enable_updates_ d2_client_config_) then (false, true)
            else (override_client_update_ d2_client_config_, false))
  | false, true =>
      let server_s := enable_updates_ d2_client_config_ in mret (server_s, negb server_s)
  | true, false =>
      let server_s := enable_updates_ d2_client_config_ && override_no_update_ d2_client_config_ in
      mret (server_s, negb server_s)
  | true, true => Throw BadValue
  end.

(** The response option after the call. *)
Definition adjustFqdnFlags (fqdn fqdn_resp : Fqdn) : res Fqdn :=
  client_s ← getFlag FLAG_S fqdn;
  client_n ← getFlag FLAG_N fqdn;
  '(server_s, server_n) ← analyzeFqdn client_s client_n;
  fqdn_resp ← setFlag FLAG_S server_s (resetFlags fqdn_resp);
  fqdn_resp ← setFlag FLAG_N server_n fqdn_resp;
  client_s ← getFlag FLAG_S fqdn;
  setFlag FLAG_O (negb (Bool.eqb client_s server_s)) fqdn_resp.

(** [forward] and [reverse]. *)
Definition getUpdateDirections (fqdn_resp : Fqdn) : res (bool * bool) :=
  forward ← getFlag FLAG_S fqdn_resp;
  n ← getFlag FLAG_N fqdn_resp;
  mret (forward, negb n).

(** [boost::algorithm::split] at the dots. *)
Fixpoint split_dots (s : list Z) : list (list Z) :=
  match s with
  | [] => [[]]
  | c :: s' =>
      match split_dots s' with
      | l :: ls => if c =? 46 then [] :: l :: ls else (c :: l) :: ls
      | [] => [[c]]
      end
  end.

(** The loop over the labels; [first] for the first one. *)
Fixpoint scrub_labels (scrub : string → res string) (first : bool) (labels : list (list Z)) :
    res string :=
  match labels with
  | [] => mret ""
  | label :: labels' =>
      scrubbed ← scrub (string_of_chars label);
      rest ← scrub_labels scrub false labels';
      mret ((if first then "" else ".") +:+ scrubbed +:+ rest)
  end.

Definition sanitize (scrub : string → res string) (client_name : string) : res string :=
  tmp ← mkName false (bytes_of_string client_name);
  raw_name ← name_toRawText false tmp;
  scrub_labels scrub true (split_dots raw_name).

Definition adjustDomainName (fqdn fqdn_resp : Fqdn) : res Fqdn :=
  name ← getDomainName fqdn;
  if bool_decide (replace_client_name_mode_ d2_client_config_ = RCM_ALWAYS)
     || bool_decide (replace_client_name_mode_ d2_client_config_ = RCM_WHEN_PRESENT)
     || bool_decide (name = "")
  then setDomainName "" PARTIAL fqdn_resp
  else
    client_name ← match hostname_sanitizer_ d2_client_config_ with
                  | Some scrub => sanitize scrub name
                  | None => mret name
                  end;
    type ← getDomainNameType fqdn;
    if decide (type = PARTIAL)
    then setDomainName (qualifyName (qualifying_suffix d2_client_config_) client_name true) FULL
           fqdn_resp
    else setDomainName client_name FULL fqdn_resp.

(** [std::replace(hostname.begin(), hostname.end(), c, '-')] *)
Fixpoint replace_char (c : ascii) (s : string) : string :=
  match s with
  | EmptyString => EmptyString
  | String a s' => String (if decide (a = c) then "-"%char else a) (replace_char c s')
  end.

Definition generateFqdn (address : IOAddress) (trailing_dot : bool) : string :=
  let hostname := replace_char (if isV4 address then "."%char else ":"%char)
                    (address_toText address) in
  qualifyName (qualifying_suffix d2_client_config_)
    (generated_prefix_ d2_client_config_ +:+ "-" +:+ hostname) trailing_dot.
End Manager.

(** ** Who updates the DNS *)

Definition client_flag (f : Z) (o : Fqdn) : bool := negb (Z.land (flags_ o) f =? 0).

Lemma getFlag_S o : getFlag FLAG_S o = Ok (client_flag FLAG_S o).
Proof. done. Qed.
Lemma getFlag_N o : getFlag FLAG_N o = Ok (client_flag FLAG_N o).
Proof. done. Qed.

(** The server does forward updates: the client asks for them, or leaves them to itself or
    wants none and the configuration overrides that. *)
Definition server_updates (cfg : D2ClientConfig) (o : Fqdn) : bool :=
  enable_updates_ cfg &&
  (if client_flag FLAG_S o then true
   else if client_flag FLAG_N o then override_no_update_ cfg
   else override_client_update_ cfg).
(** No updates at all. *)
Definition no_updates (cfg : D2ClientConfig) (o : Fqdn) : bool :=
  negb (enable_updates_ cfg) || (client_flag FLAG_N o && negb (override_no_update_ cfg)).

(** The answer to a client whose flags are valid (a client cannot both ask for an update and
    forbid it): the flags of the response are valid and carry the server's decision; the
    updates that follow from them are the forward one exactly if the server does it, and the
    reverse one unless there are no updates at all.  The name is not touched. *)
Theorem adjustFqdnFlags_spec (cfg : D2ClientConfig) (fqdn resp : Fqdn)
    (Hflags : checkFlags (flags_ fqdn) false = Ok tt) :
  ∃ resp', adjustFqdnFlags cfg fqdn resp = Ok resp' ∧
    client_flag FLAG_S resp' = server_updates cfg fqdn ∧
    client_flag FLAG_N resp' = no_updates cfg fqdn ∧
    client_flag FLAG_O resp' = negb (Bool.eqb (client_flag FLAG_S fqdn) (server_updates cfg fqdn)) ∧
    checkFlags (flags_ resp') true = Ok tt ∧
    getUpdateDirections resp' = Ok (server_updates cfg fqdn, negb (no_updates cfg fqdn)) ∧
    domain_name_ resp' = domain_name_ resp ∧ domain_name_type_ resp' = domain_name_type_ resp.
Proof.
  assert (client_flag FLAG_S fqdn && client_flag FLAG_N fqdn = false) as Hsn.
  { unfold checkFlags, throw_if in Hflags. cbn [andb mbind res_bind] in Hflags.
    destruct (_ =? _) eqn:E in Hflags; [done|]. apply Z.eqb_neq in E.
    unfold client_flag. destruct (Z.land _ FLAG_S =? 0) eqn:E1; [done|].
    destruct (Z.land _ FLAG_N =? 0) eqn:E2; [done|]. exfalso. apply E. clear E.
    apply Z.eqb_neq in E1, E2. apply Z.bits_inj'. intros i Hi.
    change FLAG_S with (2 ^ 0) in *. change FLAG_N with (2 ^ 3) in *.
    assert (∀ k, 0 ≤ k → Z.land (flags_ fqdn) (2 ^ k) ≠ 0 → Z.testbit (flags_ fqdn) k = true) as Hbit.
    { intros k Hk Hne. destruct (Z.testbit _ k) eqn:Eb; [done|]. exfalso. apply Hne.
      apply Z.bits_inj'. intros j Hj. rewrite Z.land_spec, Z.bits_0, Z.pow2_bits_eqb by done.
      destruct (Z.eqb_spec k j) as [->|]; [by rewrite Eb|by rewrite andb_false_r]. }
    rewrite Z.land_spec, Z.lor_spec, !Z.pow2_bits_eqb by done.
    destruct (Z.eqb_spec 3 i) as [<-|]; [by rewrite Hbit|].
    destruct (Z.eqb_spec 0 i) as [<-|]; [by rewrite Hbit|]. by rewrite andb_false_r. }
  unfold adjustFqdnFlags. rewrite getFlag_S, getFlag_N. unfold server_updates, no_updates, analyzeFqdn.
  cbn [mbind res_bind].
  destruct (client_flag FLAG_S fqdn), (client_flag FLAG_N fqdn), cfg as [[] ? [] [] ? ? ? ?];
    try discriminate Hsn; eexists; (split; [reflexivity|]); repeat split.
Qed.

Definition sample_d2_config (enable override : bool) (mode : ReplaceClientNameMode) :
    D2ClientConfig :=
  {| enable_updates_ := enable; always_include_fqdn_ := false; override_no_update_ := override;
     override_client_update_ := override; replace_client_name_mode_ := mode;
     generated_prefix_ := "myhost"; qualifying_suffix := "example.org";
     hostname_sanitizer_ := None |}.

Lemma adjustFqdnFlags_spec_witness :
  checkFlags (flags_ sample_fqdn) false = Ok tt ∧
  client_flag FLAG_S sample_fqdn = true ∧
  ∃ resp', adjustFqdnFlags (sample_d2_config true false RCM_NEVER) sample_fqdn sample_fqdn = Ok resp' ∧
    client_flag FLAG_S resp' = true ∧ client_flag FLAG_N resp' = false.
Proof.
  split; [reflexivity|]. split; [reflexivity|].
  destruct (adjustFqdnFlags_spec (sample_d2_config true false RCM_NEVER) sample_fqdn sample_fqdn
              eq_refl) as (resp' & H1 & H2 & H3 & _).
  exists resp'. by rewrite H2, H3.
Defined.

(** ** Names *)

Lemma string_get_app (s t : string) i : String.get (String.length s + i) (s +:+ t) = String.get i t.
Proof. induction s as [|c s IH]; [done|]. simpl. apply IH. Qed.

Lemma ends_with_dot_app s t : t ≠ "" → ends_with_dot (s +:+ t) = ends_with_dot t.
Proof.
  intros Ht. unfold ends_with_dot. rewrite string_length_app.
  destruct t as [|c t]; [done|]. cbn [String.length].
  replace (String.length s + S (String.length t) - 1)%nat
    with (String.length s + (S (String.length t) - 1))%nat by lia.
  by rewrite string_get_app.
Qed.

(** A name that is to end with a dot does, and it is the same name if it had one. *)
Theorem qualifyName_dot (suffix partial_name : string) :
  qualifyName suffix partial_name true ≠ "" →
  ends_with_dot (qualifyName suffix partial_name true) = true.
Proof.
  unfold qualifyName. set (name := if bool_decide _ then _ else _).
  destruct (0 <? String.length name)%nat eqn:El; [|destruct name; done].
  destruct (ends_with_dot name) eqn:Ed; cbn; [done|]. intros _. by rewrite ends_with_dot_app.
Qed.

(** The name that is sent for an address is made of the prefix, the address with dashes, and
    the suffix. *)
Example generated_name : ∀ H : AddressText,
  address_toText (V4 0xC0000203) = "192.0.2.3" →
  generateFqdn (sample_d2_config true false RCM_NEVER) (V4 0xC0000203) true
  = "myhost-192-0-2-3.example.org.".
Proof. intros H E. unfold generateFqdn. rewrite E. reflexivity. Qed.
