(* ===== verification/Pool.v ===== *)
(** * Address and prefix pools ([src/lib/dhcpsrv/pool.cc], [pool.h])

    [Pool], [Pool4] and [Pool6] in one record: the members [Pool6] adds are in
    [pool6], absent for a [Pool4].  The options, the required classes and the
    user context of a pool, which no operation here reads, are left out.  The
    identifier comes from a static counter of the class and is an argument of
    the constructors. *)

From S2P Require Import Prelude IoAddress AddrUtilities PdExclude.
Local Open Scope Z_scope.

(** [Lease::Type]. *)
Inductive LeaseType := TYPE_NA | TYPE_TA | TYPE_PD | TYPE_V4.

#[export] Instance LeaseType_eq_dec : EqDecision LeaseType.
Proof. solve_decision. Defined.
#[export] Instance LeaseType_countable : Countable LeaseType.
Proof.
  refine (inj_countable'
    (λ t, match t with TYPE_NA => 0 | TYPE_TA => 1 | TYPE_PD => 2 | TYPE_V4 => 3 end)
    (λ n, if n =? 0 then TYPE_NA else if n =? 1 then TYPE_TA
          else if n =? 2 then TYPE_PD else TYPE_V4) _).
  by intros [].
Defined.

(** [ClientClasses]: the classes in the order of insertion. *)
Definition ClientClasses : Type := list string.
Definition contains (classes : ClientClasses) (c : string) : bool :=
  bool_decide (c ∈@{list string} classes).

Record Pool6Part := {
  prefix_len_ : Z;
  pd_exclude_option_ : option Option6PDExclude
}.

Record Pool := {
  pool_id_ : Z;
  first_ : IOAddress;
  last_ : IOAddress;
  type_ : LeaseType;
  capacity_ : Z;
  pool_class_ : string;
  last_allocated_ : IOAddress;
  last_allocated_valid_ : bool;
  pool6 : option Pool6Part
}.

(** The constructor of the base class. *)
Definition mkPool (id : Z) (type : LeaseType) (first last : IOAddress)
    (part : option Pool6Part) : Pool :=
  {| pool_id_ := id; first_ := first; last_ := last; type_ := type;
     capacity_ := 0; pool_class_ := ""; last_allocated_ := first;
     last_allocated_valid_ := false; pool6 := part |}.

Definition pool_inRange (self : Pool) (addr : IOAddress) : bool :=
  smallerEqual (first_ self) addr && smallerEqual addr (last_ self).

Definition pool_clientSupported (self : Pool) (classes : ClientClasses) : bool :=
  bool_decide (pool_class_ self = "") || contains classes (pool_class_ self).

Definition pool_allowClientClass (class_name : string) (self : Pool) : Pool :=
  {| pool_id_ := pool_id_ self; first_ := first_ self; last_ := last_ self;
     type_ := type_ self; capacity_ := capacity_ self; pool_class_ := class_name;
     last_allocated_ := last_allocated_ self;
     last_allocated_valid_ := last_allocated_valid_ self; pool6 := pool6 self |}.

Definition with_bounds (self : Pool) (last : IOAddress) (capacity : Z)
    (part : option Pool6Part) : Pool :=
  {| pool_id_ := pool_id_ self; first_ := first_ self; last_ := last;
     type_ := type_ self; capacity_ := capacity; pool_class_ := pool_class_ self;
     last_allocated_ := last_allocated_ self;
     last_allocated_valid_ := last_allocated_valid_ self; pool6 := part |}.

Definition with_last_allocated (self : Pool) (addr : IOAddress) (valid : bool) : Pool :=
  {| pool_id_ := pool_id_ self; first_ := first_ self; last_ := last_ self;
     type_ := type_ self; capacity_ := capacity_ self; pool_class_ := pool_class_ self;
     last_allocated_ := addr; last_allocated_valid_ := valid; pool6 := pool6 self |}.

Definition pool_setLastAllocated (addr : IOAddress) (self : Pool) : Pool :=
  with_last_allocated self addr true.
Definition pool_resetLastAllocated (self : Pool) : Pool :=
  with_last_allocated self (last_allocated_ self) false.

(** [Pool6::getLength]. *)
Definition getLength (self : Pool) : Z := from_option prefix_len_ 0 (pool6 self).

Definition Pool4_range (id : Z) (first last : IOAddress) : res Pool :=
  let self := mkPool id TYPE_V4 first last None in
  _ ← throw_if (negb (isV4 first) || negb (isV4 last)) BadValue;
  _ ← throw_if (lessThan last first) BadValue;
  capacity ← addrsInRange first last;
  mret (with_bounds self last capacity None).

Definition Pool4_prefix (id : Z) (prefix : IOAddress) (prefix_len : Z) : res Pool :=
  let self := mkPool id TYPE_V4 prefix IPV4_ZERO_ADDRESS None in
  _ ← throw_if (negb (isV4 prefix)) BadValue;
  _ ← throw_if ((prefix_len =? 0) || (32 <? prefix_len)) BadValue;
  last ← lastAddrInPrefix prefix prefix_len;
  capacity ← addrsInRange prefix last;
  mret (with_bounds self last capacity None).

Definition Pool6_range (id : Z) (type : LeaseType) (first last : IOAddress) : res Pool :=
  let part := Some {| prefix_len_ := 128; pd_exclude_option_ := None |} in
  let self := mkPool id type first last part in
  _ ← throw_if (negb (isV6 first) || negb (isV6 last)) BadValue;
  _ ← throw_if (bool_decide (type ≠ TYPE_NA) && bool_decide (type ≠ TYPE_TA)
                && bool_decide (type ≠ TYPE_PD)) BadValue;
  _ ← throw_if (lessThan last first) BadValue;
  _ ← throw_if (bool_decide (type ≠ TYPE_NA) && bool_decide (type ≠ TYPE_TA)) BadValue;
  capacity ← addrsInRange first last;
  mret (with_bounds self last capacity part).

Definition Pool6_init (self : Pool) (type : LeaseType) (prefix : IOAddress)
    (prefix_len delegated_len : Z) (excluded_prefix : IOAddress)
    (excluded_prefix_len : Z) : res Pool :=
  _ ← throw_if (negb (isV6 prefix)) BadValue;
  _ ← throw_if ((prefix_len =? 0) || (128 <? prefix_len)) BadValue;
  _ ← throw_if (delegated_len <? prefix_len) BadValue;
  _ ← throw_if ((bool_decide (type = TYPE_NA) || bool_decide (type = TYPE_TA))
                && negb (delegated_len =? 128)) BadValue;
  _ ← throw_if (negb (excluded_prefix_len =? 0)
                && (excluded_prefix_len <? delegated_len)) BadValue;
  last ← lastAddrInPrefix prefix prefix_len;
  let capacity := prefixesInRange prefix_len delegated_len in
  if 0 <? excluded_prefix_len then
    o ← mkOption6PDExclude prefix delegated_len excluded_prefix excluded_prefix_len;
    mret (with_bounds self last capacity
            (Some {| prefix_len_ := getLength self; pd_exclude_option_ := Some o |}))
  else mret (with_bounds self last capacity (pool6 self)).

Definition Pool6_prefix (id : Z) (type : LeaseType) (prefix : IOAddress)
    (prefix_len delegated_len : Z) : res Pool :=
  let part := Some {| prefix_len_ := delegated_len; pd_exclude_option_ := None |} in
  Pool6_init (mkPool id type prefix IPV6_ZERO_ADDRESS part) type prefix prefix_len
             delegated_len IPV6_ZERO_ADDRESS 0.

Definition Pool6_excluded (id : Z) (prefix : IOAddress) (prefix_len delegated_len : Z)
    (excluded_prefix : IOAddress) (excluded_prefix_len : Z) : res Pool :=
  let part := Some {| prefix_len_ := delegated_len; pd_exclude_option_ := None |} in
  self ← Pool6_init (mkPool id TYPE_PD prefix IPV6_ZERO_ADDRESS part) TYPE_PD prefix
                    prefix_len delegated_len excluded_prefix excluded_prefix_len;
  _ ← throw_if (negb (isV6 excluded_prefix)) BadValue;
  _ ← throw_if ((isV6Zero excluded_prefix && negb (excluded_prefix_len =? 0))
                || (negb (isV6Zero excluded_prefix) && (excluded_prefix_len =? 0))) BadValue;
  if negb (isV6Zero excluded_prefix) && negb (excluded_prefix_len =? 0) then
    _ ← throw_if (128 <? excluded_prefix_len) BadValue;
    _ ← throw_if (excluded_prefix_len <=? getLength self) BadValue;
    mret self
  else mret self.

(** ** The invariant of a pool object *)

(** The bounds are addresses of one family in order, the family is the one of
    the type, the last address handed out is one of the range, and the members of
    [Pool6] are there exactly for IPv6 types, with length 128 for addresses and,
    for prefixes, a length not shorter than the prefix the pool is made of. *)
Record wf_pool (p : Pool) : Prop := {
  wf_pool_first : wf_addr (first_ p);
  wf_pool_last : wf_addr (last_ p);
  wf_pool_family : getFamily (first_ p) = getFamily (last_ p);
  wf_pool_ordered : addr_le (first_ p) (last_ p);
  wf_pool_type : isV4 (first_ p) = bool_decide (type_ p = TYPE_V4);
  wf_pool_part : match type_ p with
                 | TYPE_V4 => pool6 p = None
                 | TYPE_NA | TYPE_TA => getLength p = 128
                 | TYPE_PD => ∃ plen, 1 ≤ plen ≤ 128 ∧ plen ≤ getLength p ∧
                     value (last_ p) `div` 2 ^ (128 - plen) =
                     value (first_ p) `div` 2 ^ (128 - plen)
                 end;
  wf_pool_current : pool_inRange p (last_allocated_ p) = true
}.

Lemma pool_inRange_spec p a :
  pool_inRange p a = true ↔ addr_le (first_ p) a ∧ addr_le a (last_ p).
Proof. unfold pool_inRange. by rewrite andb_true_iff, !smallerEqual_spec. Qed.

(** Addresses of a pool have the family of the pool, and are well formed. *)
Lemma pool_inRange_family p a :
  wf_pool p → pool_inRange p a = true → getFamily a = getFamily (first_ p) ∧ wf_addr a.
Proof.
  intros [Hf Hl Hfam Hord] [H1 H2]%pool_inRange_spec. unfold wf_addr in *.
  destruct (first_ p), (last_ p), a; try done; simpl in *; split; (done || lia).
Qed.

(** ** Constructors establish the invariant *)

(** The sum of what the constructors of a range of addresses promise. *)
Definition pool_covers (p : Pool) (first last : IOAddress) : Prop :=
  wf_pool p ∧ first_ p = first ∧ last_ p = last ∧
  capacity_ p = Z.min u64_max (value last - value first + 1) ∧
  last_allocated_valid_ p = false.

(** a range of IPv4 addresses makes a pool exactly when both bounds are
    IPv4 addresses in order; the pool then has the bounds and the capacity of
    the range and satisfies the invariant. *)
Theorem Pool4_range_spec (id : Z) (first last : IOAddress)
    (Hf : wf_addr first) (Hl : wf_addr last) :
  match Pool4_range id first last with
  | Ok p => isV4 first = true ∧ addr_le first last ∧ pool_covers p first last
  | Throw e => e = BadValue ∧ ¬ (isV4 first ∧ isV4 last ∧ addr_le first last)
  end.
Proof.
  unfold Pool4_range. destruct first as [x|x], last as [y|y]; simpl throw_if;
    try (by split; [|intros (?&?&?)]). cbn [mbind res_bind negb orb throw_if isV4].
  destruct (lessThan (V4 y) (V4 x)) eqn:E; cbn [throw_if mbind res_bind].
  { apply lessThan_spec in E. by split; [|intros (?&?&?)]. }
  apply lessThan_false in E. rewrite addrsInRange_Ok by done. cbn [mbind res_bind mret res_ret].
  split_and!; [done|done|]. unfold pool_covers. split_and!; try done.
  split; try done. apply pool_inRange_spec. simpl in *. lia.
Qed.

Lemma Pool4_range_spec_witness :
  ∃ p, Pool4_range 0 (V4 0xC000020A) (V4 0xC0000214) = Ok p ∧
       pool_covers p (V4 0xC000020A) (V4 0xC0000214).
Proof.
  assert (∃ p, Pool4_range 0 (V4 0xC000020A) (V4 0xC0000214) = Ok p) as [p E]
    by (vm_compute; by eexists).
  assert (wf_addr (V4 0xC000020A)) as H1 by (split; [done|reflexivity]).
  assert (wf_addr (V4 0xC0000214)) as H2 by (split; [done|reflexivity]).
  exists p. split; [exact E|].
  pose proof (Pool4_range_spec 0 _ _ H1 H2) as H. rewrite E in H. apply H.
Defined.

(** an IPv6 prefix makes a pool exactly when the checks of [Pool6::init]
    pass; the pool then runs from the prefix as given to the last address of the
    prefix, counts the delegated prefixes and satisfies the invariant. *)
Theorem Pool6_prefix_spec (id : Z) (type : LeaseType) (prefix : IOAddress)
    (prefix_len delegated_len : Z) (Hp : wf_addr prefix) (Htype : type ≠ TYPE_V4)
    (Hlen : 0 ≤ prefix_len) :
  match Pool6_prefix id type prefix prefix_len delegated_len with
  | Ok p =>
      wf_pool p ∧ type_ p = type ∧ first_ p = prefix ∧
      last_ p = prefix_last prefix prefix_len ∧
      getLength p = delegated_len ∧
      capacity_ p = Z.min u64_max (2 ^ (delegated_len - prefix_len))
  | Throw e => e = BadValue ∧
      ¬ (isV6 prefix ∧ 0 < prefix_len ≤ 128 ∧ prefix_len ≤ delegated_len ∧
         (type = TYPE_PD ∨ delegated_len = 128))
  end.
Proof.
  unfold Pool6_prefix, Pool6_init. destruct prefix as [x|x]; cbn [isV6 negb throw_if mbind res_bind].
  { by split; [|intros [? _]]. }
  destruct (Z.eqb_spec prefix_len 0); cbn [orb throw_if mbind res_bind].
  { split; [done|]. lia. }
  destruct (Z.ltb_spec 128 prefix_len); cbn [throw_if mbind res_bind].
  { split; [done|]. lia. }
  destruct (Z.ltb_spec delegated_len prefix_len) as [|Hd]; cbn [throw_if mbind res_bind].
  { split; [done|]. lia. }
  destruct ((_ || _) && _) eqn:E; cbn [throw_if mbind res_bind].
  { apply andb_true_iff in E as [E1 E2]. apply negb_true_iff, Z.eqb_neq in E2.
    split; [done|]. intros (_&_&_&[->|]); done. }
  change (0 <? 0) with false. cbn [Z.eqb negb andb throw_if mbind res_bind].
  rewrite lastAddrInPrefix_Ok by (done || simpl; lia). cbn [mbind res_bind].
  rewrite prefixesInRange_eq, (proj2 (Z.ltb_ge _ _)) by lia.
  split_and!; try done.
  pose proof (ceil2_bounds (128 - prefix_len) 128 x) as Hc.
  unfold wf_addr in Hp; simpl in Hp. split; simpl; try done.
  - unfold wf_addr, prefix_last. simpl. lia.
  - unfold prefix_last. simpl. lia.
  - by rewrite bool_decide_eq_false_2.
  - destruct type; try done; unfold getLength; simpl in *;
      [apply negb_false_iff, Z.eqb_eq in E; done..|].
    exists prefix_len. unfold prefix_last, ceil2, floor2. simpl. split_and!; try lia.
    pose proof (Z.pow_pos_nonneg 2 (128 - prefix_len)).
    symmetry. apply (Z.div_unique _ _ _ (2 ^ (128 - prefix_len) - 1)); lia.
  - apply pool_inRange_spec. unfold prefix_last. simpl. lia.
Qed.

Lemma Pool6_prefix_spec_witness :
  let prefix := V6 (0x20010db8 * 2 ^ 96) in
  ∃ p, Pool6_prefix 0 TYPE_PD prefix 48 56 = Ok p ∧ wf_pool p ∧ capacity_ p = 256.
Proof.
  intros prefix.
  assert (∃ p, Pool6_prefix 0 TYPE_PD prefix 48 56 = Ok p) as [p E] by (vm_compute; by eexists).
  assert (wf_addr prefix) as H1 by (split; [done|reflexivity]).
  exists p. split; [exact E|].
  pose proof (Pool6_prefix_spec 0 TYPE_PD prefix 48 56 H1 ltac:(done) ltac:(lia)) as H.
  rewrite E in H. split; [apply H|]. destruct H as (_ & _ & _ & _ & _ & ->). reflexivity.
Defined.

(** ** Capacities *)

(** How many addresses a pool holds, or how many prefixes it delegates. *)
Definition pool_size (p : Pool) : Z :=
  match type_ p with
  | TYPE_PD =>
      value (last_ p) `div` 2 ^ (128 - getLength p)
      - value (first_ p) `div` 2 ^ (128 - getLength p) + 1
  | _ => value (last_ p) - value (first_ p) + 1
  end.

(** A pool that a constructor made, of bounds or of a prefix; an IPv6 prefix has no bits after
    its length and delegates prefixes of a length of IPv6.  Afterwards only its client class
    and the address handed out last are set. *)
Inductive made_pool : Pool → Prop :=
  | made4_range id first last p :
      wf_addr first → wf_addr last → Pool4_range id first last = Ok p → made_pool p
  | made4_prefix id prefix prefix_len p :
      wf_addr prefix → 0 ≤ prefix_len → Pool4_prefix id prefix prefix_len = Ok p → made_pool p
  | made6_range id type first last p :
      wf_addr first → wf_addr last → Pool6_range id type first last = Ok p → made_pool p
  | made6_prefix id type prefix prefix_len delegated_len excluded excluded_len p :
      wf_addr prefix → type ≠ TYPE_V4 → 0 ≤ prefix_len → delegated_len ≤ 128 →
      prefix_first prefix prefix_len = prefix →
      Pool6_init (mkPool id type prefix IPV6_ZERO_ADDRESS
          (Some {| prefix_len_ := delegated_len; pd_exclude_option_ := None |}))
        type prefix prefix_len delegated_len excluded excluded_len = Ok p →
      made_pool p
  | made_class p c : made_pool p → made_pool (pool_allowClientClass c p)
  | made_last p a : made_pool p → made_pool (pool_setLastAllocated a p)
  | made_reset p : made_pool p → made_pool (pool_resetLastAllocated p).

Lemma range_capacity first last c :
  wf_addr first → wf_addr last → addr_le first last → getFamily first = getFamily last →
  addrsInRange first last = Ok c →
  c = Z.min u64_max (value last - value first + 1) ∧ 1 ≤ value last - value first + 1.
Proof.
  intros Hf Hl Hle Hfam. rewrite addrsInRange_Ok by done. intros [= <-].
  destruct first, last; try done; simpl in *; lia.
Qed.

(** The prefixes of length [128 - j] in one of length [128 - k]. *)
Lemma prefix_blocks x k j :
  0 ≤ j ≤ k → floor2 k x = x → ceil2 k x `div` 2 ^ j - x `div` 2 ^ j + 1 = 2 ^ (k - j).
Proof.
  intros Hj Hx. unfold ceil2. rewrite Hx. unfold floor2 in Hx. rewrite <- Hx.
  set (m := x `div` 2 ^ k). replace (2 ^ k) with (2 ^ (k - j) * 2 ^ j)
    by (rewrite <- Z.pow_add_r by lia; f_equal; lia).
  pose proof (Z.pow_pos_nonneg 2 j ltac:(lia) ltac:(lia)).
  rewrite Z.mul_assoc, Z.div_mul by lia.
  replace (m * 2 ^ (k - j) * 2 ^ j + 2 ^ (k - j) * 2 ^ j - 1)
    with ((m * 2 ^ (k - j) + 2 ^ (k - j) - 1) * 2 ^ j + (2 ^ j - 1)) by ring.
  rewrite Z.div_add_l, Z.div_small by lia. lia.
Qed.

Lemma Pool6_init_capacity id type prefix prefix_len delegated_len excluded excluded_len p :
  wf_addr prefix → type ≠ TYPE_V4 → 0 ≤ prefix_len → delegated_len ≤ 128 →
  prefix_first prefix prefix_len = prefix →
  Pool6_init (mkPool id type prefix IPV6_ZERO_ADDRESS
      (Some {| prefix_len_ := delegated_len; pd_exclude_option_ := None |}))
    type prefix prefix_len delegated_len excluded excluded_len = Ok p →
  capacity_ p = Z.min u64_max (pool_size p) ∧ 1 ≤ pool_size p.
Proof.
  intros Hp Ht Hlen Hd Hal E. unfold Pool6_init in E.
  destruct prefix as [x|x]; cbn [isV6 negb throw_if mbind res_bind] in E; [done|].
  destruct ((prefix_len =? 0) || (128 <? prefix_len)) eqn:E1; [done|].
  apply orb_false_iff in E1 as [_ E1%Z.ltb_ge]. cbn [throw_if mbind res_bind] in E.
  destruct (delegated_len <? prefix_len) eqn:E2; [done|]. apply Z.ltb_ge in E2.
  cbn [throw_if mbind res_bind] in E.
  destruct ((_ || _) && negb (delegated_len =? 128)) eqn:E3; [done|].
  cbn [throw_if mbind res_bind] in E. destruct (_ && (excluded_len <? _)); [done|].
  cbn [throw_if mbind res_bind] in E.
  rewrite lastAddrInPrefix_Ok in E by (done || simpl; lia). cbn [mbind res_bind] in E.
  assert (∃ part, p = with_bounds (mkPool id type (V6 x) IPV6_ZERO_ADDRESS
      (Some {| prefix_len_ := delegated_len; pd_exclude_option_ := None |}))
    (prefix_last (V6 x) prefix_len) (prefixesInRange prefix_len delegated_len)
    (Some {| prefix_len_ := delegated_len; pd_exclude_option_ := part |})) as [part ->].
  { destruct (0 <? excluded_len).
    - destruct (mkOption6PDExclude _ _ _ _) as [o|]; [|done]. injection E as <-. by eexists.
    - injection E as <-. by eexists. }
  injection Hal as Hal. cbn [width value] in Hal.
  assert (pool_size (with_bounds (mkPool id type (V6 x) IPV6_ZERO_ADDRESS
      (Some {| prefix_len_ := delegated_len; pd_exclude_option_ := None |}))
    (prefix_last (V6 x) prefix_len) (prefixesInRange prefix_len delegated_len)
    (Some {| prefix_len_ := delegated_len; pd_exclude_option_ := part |}))
    = 2 ^ (delegated_len - prefix_len)) as ->.
  { pose proof (prefix_blocks x (128 - prefix_len) (128 - delegated_len) ltac:(lia) Hal) as Hb.
    replace (128 - prefix_len - (128 - delegated_len)) with (delegated_len - prefix_len) in Hb by lia.
    assert (type ≠ TYPE_PD → delegated_len = 128) as H128.
    { intros Hpd. apply andb_false_iff in E3 as [E3|E3%negb_false_iff%Z.eqb_eq]; [|done].
      exfalso. destruct type; done. }
    unfold pool_size, getLength, prefix_last. cbn [with_bounds mkPool type_ first_ last_ pool6
      from_option prefix_len_ with_value value width].
    destruct type; try done; try (rewrite <- Hb, H128 by done; change (2 ^ (128 - 128)) with 1;
      by rewrite !Z.div_1_r). }
  cbn [with_bounds capacity_]. rewrite prefixesInRange_eq, (proj2 (Z.ltb_ge _ _)) by done.
  pose proof (Z.pow_pos_nonneg 2 (delegated_len - prefix_len)). lia.
Qed.

(** The capacity that the constructors compute is the number of addresses or prefixes, capped
    at the largest 64-bit value. *)
Lemma made_capacity p :
  made_pool p → capacity_ p = Z.min u64_max (pool_size p) ∧ 1 ≤ pool_size p.
Proof.
  induction 1 as [id first last p Hf Hl E|id prefix len p Hp Hlen E|id type first last p Hf Hl E|
    id type prefix len dlen ex exlen p Hp Ht Hlen Hd Hal E|p c _ IH|p a _ IH|p _ IH];
    [| | |by eapply Pool6_init_capacity|exact IH..].
  - pose proof (Pool4_range_spec id first last Hf Hl) as Hs. rewrite E in Hs.
    destruct Hs as (H4 & Hle & _ & Ef & El & Ec & _). unfold Pool4_range in E. res_inv.
    unfold pool_size. cbn in Ef, El, Ec |- *. destruct first, last; try done; simpl in *; lia.
  - unfold Pool4_prefix in E. destruct prefix as [x|x]; [|done].
    cbn [isV4 negb throw_if mbind res_bind] in E.
    destruct ((len =? 0) || (32 <? len)) eqn:E1; [done|].
    apply orb_false_iff in E1 as [_ E1%Z.ltb_ge]. cbn [throw_if mbind res_bind] in E.
    rewrite lastAddrInPrefix_Ok in E by (done || simpl; lia). cbn [mbind res_bind] in E.
    destruct (addrsInRange _ _) as [c|] eqn:Ec; [|done]. injection E as <-.
    pose proof (ceil2_bounds (32 - len) 32 x). unfold wf_addr in Hp. simpl in Hp.
    apply range_capacity in Ec; [exact Ec|done| |simpl; lia|done]. unfold wf_addr. simpl. lia.
  - unfold Pool6_range in E. destruct first as [|x], last as [|y]; try done.
    cbn [isV6 negb orb throw_if mbind res_bind] in E.
    destruct (_ && bool_decide (type ≠ TYPE_PD)); [done|]. cbn [throw_if mbind res_bind] in E.
    destruct (lessThan _ _) eqn:Elt; [done|]. apply lessThan_false in Elt.
    cbn [throw_if mbind res_bind] in E.
    destruct (bool_decide _ && bool_decide _) eqn:Et; [done|]. cbn [throw_if mbind res_bind] in E.
    destruct (addrsInRange _ _) as [c|] eqn:Ec; [|done]. injection E as <-.
    apply range_capacity in Ec; [|done..]. unfold pool_size. cbn. by destruct type.
Qed.

(** The prefix of a pool is taken as it is configured, with the bits after its length, and the
    capacity is that of the whole prefix. *)
Theorem unaligned_prefix_overcounts :
  ∃ p, Pool6_prefix 0 TYPE_NA (V6 (0x20010db8 * 2 ^ 96 + 0x1c)) 124 128 = Ok p ∧
    capacity_ p = 16 ∧ pool_size p = 4.
Proof. eexists. split; [vm_compute; reflexivity|]. split; vm_compute; reflexivity. Qed.
