(* ===== verification/Subnet.v ===== *)
(** * Subnets ([src/lib/dhcpsrv/subnet.cc], [subnet.h], [network.h])

    [Subnet4] and [Subnet6] share the record [Subnet]; the two classes differ in
    the lease types [checkType] admits ([kind]).  The members of the base class
    [Network] that the allocation engine reads are members of the record; options,
    relay data, interface names and the conversion to JSON are left out.  The
    pool objects of a subnet are owned by it. *)

From S2P Require Import Prelude Algorithms IoAddress AddrUtilities Pool.
Local Open Scope Z_scope.

Definition SUBNET_ID_GLOBAL : Z := 0.
Definition SUBNET_ID_MAX : Z := 2 ^ 32 - 2.
Definition SUBNET_ID_UNUSED : Z := 2 ^ 32 - 1.

(** [Subnet::generateNextID]: the identifier and the counter afterwards. *)
Definition generateNextID (static_id : Z) : Z * Z :=
  let static_id := if static_id =? SUBNET_ID_MAX then 1 else static_id in
  (static_id, u32 (static_id + 1)).

Inductive SubnetKind := Kind4 | Kind6.

(** [Network::HRMode]. *)
Inductive HRMode := HR_DISABLED | HR_OUT_OF_POOL | HR_GLOBAL | HR_ALL.

#[export] Instance HRMode_eq_dec : EqDecision HRMode.
Proof. solve_decision. Defined.

(** A [ptime]: [None] is negative infinity. *)
Definition ptime : Set := option Z.
Definition ptime_gt (a b : ptime) : bool :=
  match a, b with
  | Some x, Some y => y <? x
  | Some _, None => true
  | None, _ => false
  end.

Record Subnet := {
  kind : SubnetKind;
  id_ : Z;
  prefix_ : IOAddress;
  subnet_len_ : Z;
  pools_ : list Pool;
  pools_ta_ : list Pool;
  pools_pd_ : list Pool;
  last_allocated_ia_ : IOAddress;
  last_allocated_ta_ : IOAddress;
  last_allocated_pd_ : IOAddress;
  last_allocated_time_ : gmap LeaseType ptime;
  shared_network_ : option Z;
  client_class_ : string;
  net_t1_ : Z;
  net_t2_ : Z;
  preferred_ : Z;
  valid_ : Z;
  host_reservation_mode_ : HRMode;
  match_client_id_ : bool
}.

(** The constructors of [Subnet4] and [Subnet6]; [id] is not 0 here (0 asks for
    a generated identifier), and an IPv4 subnet has no preferred lifetime. *)
Definition mkSubnet (k : SubnetKind) (prefix : IOAddress) (len t1 t2 preferred valid id : Z) :
    res Subnet :=
  last ← lastAddrInPrefix prefix len;
  _ ← throw_if ((isV6 prefix && (128 <? len)) || (isV4 prefix && (32 <? len))) BadValue;
  _ ← throw_if (match k with Kind4 => negb (isV4 prefix) | Kind6 => negb (isV6 prefix) end)
        BadValue;
  mret {| kind := k; id_ := id; prefix_ := prefix; subnet_len_ := len;
          pools_ := []; pools_ta_ := []; pools_pd_ := [];
          last_allocated_ia_ := last; last_allocated_ta_ := last; last_allocated_pd_ := last;
          last_allocated_time_ := <[TYPE_V4 := None]> (<[TYPE_NA := None]>
            (<[TYPE_TA := None]> (<[TYPE_PD := None]> ∅)));
          shared_network_ := None; client_class_ := "";
          net_t1_ := t1; net_t2_ := t2; preferred_ := preferred; valid_ := valid;
          host_reservation_mode_ := HR_ALL; match_client_id_ := true |}.

(** Updates of one member. *)
Definition with_pools (self : Subnet) (p ta pd : list Pool) : Subnet :=
  {| kind := kind self; id_ := id_ self; prefix_ := prefix_ self;
     subnet_len_ := subnet_len_ self; pools_ := p; pools_ta_ := ta; pools_pd_ := pd;
     last_allocated_ia_ := last_allocated_ia_ self;
     last_allocated_ta_ := last_allocated_ta_ self;
     last_allocated_pd_ := last_allocated_pd_ self;
     last_allocated_time_ := last_allocated_time_ self;
     shared_network_ := shared_network_ self; client_class_ := client_class_ self;
     net_t1_ := net_t1_ self; net_t2_ := net_t2_ self; preferred_ := preferred_ self;
     valid_ := valid_ self;
     host_reservation_mode_ := host_reservation_mode_ self;
     match_client_id_ := match_client_id_ self |}.
Definition with_last (self : Subnet) (ia ta pd : IOAddress) (t : gmap LeaseType ptime) : Subnet :=
  {| kind := kind self; id_ := id_ self; prefix_ := prefix_ self;
     subnet_len_ := subnet_len_ self; pools_ := pools_ self; pools_ta_ := pools_ta_ self;
     pools_pd_ := pools_pd_ self; last_allocated_ia_ := ia;
     last_allocated_ta_ := ta; last_allocated_pd_ := pd;
     last_allocated_time_ := t;
     shared_network_ := shared_network_ self; client_class_ := client_class_ self;
     net_t1_ := net_t1_ self; net_t2_ := net_t2_ self; preferred_ := preferred_ self;
     valid_ := valid_ self;
     host_reservation_mode_ := host_reservation_mode_ self;
     match_client_id_ := match_client_id_ self |}.
Definition with_network (self : Subnet) (n : option Z) : Subnet :=
  {| kind := kind self; id_ := id_ self; prefix_ := prefix_ self;
     subnet_len_ := subnet_len_ self; pools_ := pools_ self; pools_ta_ := pools_ta_ self;
     pools_pd_ := pools_pd_ self; last_allocated_ia_ := last_allocated_ia_ self;
     last_allocated_ta_ := last_allocated_ta_ self;
     last_allocated_pd_ := last_allocated_pd_ self;
     last_allocated_time_ := last_allocated_time_ self;
     shared_network_ := n; client_class_ := client_class_ self;
     net_t1_ := net_t1_ self; net_t2_ := net_t2_ self; preferred_ := preferred_ self;
     valid_ := valid_ self;
     host_reservation_mode_ := host_reservation_mode_ self;
     match_client_id_ := match_client_id_ self |}.

(** [Subnet4::checkType] and [Subnet6::checkType]. *)
Definition checkType (self : Subnet) (type : LeaseType) : res unit :=
  throw_if (match kind self with
            | Kind4 => bool_decide (type ≠ TYPE_V4)
            | Kind6 => bool_decide (type ≠ TYPE_NA) && bool_decide (type ≠ TYPE_TA)
                       && bool_decide (type ≠ TYPE_PD)
            end) BadValue.

Definition inRange (self : Subnet) (addr : IOAddress) : res bool :=
  first ← firstAddrInPrefix (prefix_ self) (subnet_len_ self);
  last ← lastAddrInPrefix (prefix_ self) (subnet_len_ self);
  mret (smallerEqual first addr && smallerEqual addr last).

Definition getLastAllocated (self : Subnet) (type : LeaseType) : res IOAddress :=
  _ ← checkType self type;
  mret match type with
       | TYPE_V4 | TYPE_NA => last_allocated_ia_ self
       | TYPE_TA => last_allocated_ta_ self
       | TYPE_PD => last_allocated_pd_ self
       end.

Definition getLastAllocatedTime (self : Subnet) (type : LeaseType) : ptime :=
  match last_allocated_time_ self !! type with Some t => t | None => None end.

Definition setLastAllocated (now : Z) (type : LeaseType) (addr : IOAddress)
    (self : Subnet) : res Subnet :=
  _ ← checkType self type;
  let t := <[type := Some now]> (last_allocated_time_ self) in
  mret match type with
       | TYPE_V4 | TYPE_NA =>
           with_last self addr (last_allocated_ta_ self) (last_allocated_pd_ self) t
       | TYPE_TA => with_last self (last_allocated_ia_ self) addr (last_allocated_pd_ self) t
       | TYPE_PD => with_last self (last_allocated_ia_ self) (last_allocated_ta_ self) addr t
       end.

Definition getPools (self : Subnet) (type : LeaseType) : res (list Pool) :=
  _ ← checkType self type;
  mret match type with
       | TYPE_V4 | TYPE_NA => pools_ self
       | TYPE_TA => pools_ta_ self
       | TYPE_PD => pools_pd_ self
       end.

(** Assignment through [getPoolsWritable]. *)
Definition put_pools (self : Subnet) (type : LeaseType) (l : list Pool) : Subnet :=
  match type with
  | TYPE_V4 | TYPE_NA => with_pools self l (pools_ta_ self) (pools_pd_ self)
  | TYPE_TA => with_pools self (pools_ self) l (pools_pd_ self)
  | TYPE_PD => with_pools self (pools_ self) (pools_ta_ self) l
  end.
Definition setPools (self : Subnet) (type : LeaseType) (l : list Pool) : res Subnet :=
  _ ← checkType self type;
  mret (put_pools self type l).

(** The loop of [sumPoolCapacity] from the pool reached with [sum] so far. *)
Fixpoint sumPoolCapacity_loop (sum : Z) (pools : list Pool) : Z :=
  match pools with
  | [] => sum
  | p :: pools' =>
      let x := capacity_ p in
      if u64_max - sum <? x then u64_max
      else sumPoolCapacity_loop (sum + x) pools'
  end.
Definition sumPoolCapacity (pools : list Pool) : Z := sumPoolCapacity_loop 0 pools.

Fixpoint sumPoolCapacity_classes_loop (sum : Z) (pools : list Pool)
    (client_classes : ClientClasses) : Z :=
  match pools with
  | [] => sum
  | p :: pools' =>
      if negb (pool_clientSupported p client_classes)
      then sumPoolCapacity_classes_loop sum pools' client_classes
      else
        let x := capacity_ p in
        if u64_max - sum <? x then u64_max
        else sumPoolCapacity_classes_loop (sum + x) pools' client_classes
  end.
Definition sumPoolCapacity_classes (pools : list Pool) (client_classes : ClientClasses) : Z :=
  sumPoolCapacity_classes_loop 0 pools client_classes.

(** The collection [getPoolCapacity] reads; there is no [checkType] in it. *)
Definition pools_of (self : Subnet) (type : LeaseType) : list Pool :=
  match type with
  | TYPE_V4 | TYPE_NA => pools_ self
  | TYPE_TA => pools_ta_ self
  | TYPE_PD => pools_pd_ self
  end.
Definition getPoolCapacity (self : Subnet) (type : LeaseType) : Z :=
  sumPoolCapacity (pools_of self type).
Definition getPoolCapacity_classes (self : Subnet) (type : LeaseType)
    (client_classes : ClientClasses) : Z :=
  sumPoolCapacity_classes (pools_of self type) client_classes.

Definition prefixLessThanFirstAddress (prefix : IOAddress) (pool : Pool) : bool :=
  lessThan prefix (first_ pool).

(** [getPool(type, hint, anypool)]. *)
Definition getPool (self : Subnet) (type : LeaseType) (hint : IOAddress)
    (anypool : bool) : res (option Pool) :=
  _ ← checkType self type;
  pools ← getPools self type;
  match pools with
  | [] => mret None
  | p0 :: _ =>
      let ub := upper_bound (prefixLessThanFirstAddress hint) pools in
      candidate ←
        (if negb (ub =? 0)%nat then
           p ← deref pools (ub - 1);
           mret (if pool_inRange p hint then Some p else None)
         else mret None);
      mret match candidate with
           | Some p => Some p
           | None => if anypool then Some p0 else None
           end
  end.

(** [getPool(type, client_classes, hint)]. *)
Definition getPool_classes (self : Subnet) (type : LeaseType)
    (client_classes : ClientClasses) (hint : IOAddress) : res (option Pool) :=
  _ ← checkType self type;
  pools ← getPools self type;
  match pools with
  | [] => mret None
  | _ =>
      let ub := upper_bound (prefixLessThanFirstAddress hint) pools in
      if negb (ub =? 0)%nat then
        p ← deref pools (ub - 1);
        mret (if pool_inRange p hint && pool_clientSupported p client_classes
              then Some p else None)
      else mret None
  end.

Definition poolOverlaps (self : Subnet) (pool_type : LeaseType) (pool : Pool) : res bool :=
  pools ← getPools self pool_type;
  if (length pools =? 0)%nat then mret false
  else
    let pool3_it := upper_bound (prefixLessThanFirstAddress (first_ pool)) pools in
    same_first ←
      (if negb (pool3_it =? 0)%nat then
         pool3 ← deref pools (pool3_it - 1);
         mret (equals (first_ pool3) (first_ pool))
       else mret false);
    if (same_first : bool) then mret true
    else
      after ←
        (if negb (pool3_it =? length pools)%nat then
           pool3 ← deref pools pool3_it;
           mret (smallerEqual (first_ pool3) (last_ pool))
         else mret false);
      if (after : bool) then mret true
      else if negb (pool3_it =? 0)%nat then
        pool1 ← deref pools (pool3_it - 1);
        mret (smallerEqual (first_ pool) (last_ pool1))
      else mret false.

(** [a || b] of two calls: the second is made when the first returns false. *)
Definition orelse (a b : res bool) : res bool :=
  x ← a; if (x : bool) then mret true else b.

(** The order in which [addPool] sorts the pools. *)
Definition first_le (p q : Pool) : Prop := addr_le (first_ p) (first_ q).

(** The two checks at the head of [addPool]. *)
Definition checkPoolRange (self : Subnet) (pool : Pool) : res unit :=
  if negb (bool_decide (type_ pool = TYPE_PD)) then
    f ← inRange self (first_ pool);
    _ ← throw_if (negb f) BadValue;
    l ← inRange self (last_ pool);
    throw_if (negb l) BadValue
  else mret tt.

Definition poolOverlapsTypes (self : Subnet) (pool : Pool) : res bool :=
  if bool_decide (type_ pool = TYPE_V4) then poolOverlaps self TYPE_V4 pool
  else orelse (poolOverlaps self TYPE_NA pool)
         (orelse (poolOverlaps self TYPE_PD pool) (poolOverlaps self TYPE_TA pool)).

Definition addPool (self : Subnet) (pool : Pool) : res Subnet :=
  _ ← checkType self (type_ pool);
  _ ← checkPoolRange self pool;
  overlaps ← poolOverlapsTypes self pool;
  _ ← throw_if overlaps BadValue;
  pools_writable ← getPools self (type_ pool);
  setPools self (type_ pool) (std_sort first_le (pools_writable ++ [pool])).

Definition delPools (self : Subnet) (type : LeaseType) : res Subnet :=
  setPools self type [].

Definition inPool (self : Subnet) (type : LeaseType) (addr : IOAddress) : res bool :=
  inside ← (if bool_decide (type ≠ TYPE_PD) then inRange self addr else mret true);
  if negb inside then mret false
  else
    pools ← getPools self type;
    mret (existsb (λ p, pool_inRange p addr) pools).

Definition inPool_classes (self : Subnet) (type : LeaseType) (addr : IOAddress)
    (client_classes : ClientClasses) : res bool :=
  inside ← (if bool_decide (type ≠ TYPE_PD) then inRange self addr else mret true);
  if negb inside then mret false
  else
    pools ← getPools self type;
    mret (existsb (λ p, pool_clientSupported p client_classes && pool_inRange p addr) pools).

(** [Network::clientSupported]. *)
Definition network_clientSupported (client_class : string) (classes : ClientClasses) : bool :=
  if bool_decide (client_class = "") then true else contains classes client_class.

(** ** Sorted, disjoint pools *)

(** [p] lies entirely before [q]. *)
Definition pool_before (p q : Pool) : Prop := ¬ addr_le (first_ q) (last_ p).

(** Two pools share an address. *)
Definition overlap (p q : Pool) : Prop :=
  addr_le (first_ p) (last_ q) ∧ addr_le (first_ q) (last_ p).

Definition pools_wf (l : list Pool) : Prop := Forall wf_pool l ∧ StronglySorted pool_before l.

Lemma overlap_iff p q :
  wf_pool p → wf_pool q →
  overlap p q ↔ ∃ a, pool_inRange p a = true ∧ pool_inRange q a = true.
Proof.
  intros Hp Hq. setoid_rewrite pool_inRange_spec.
  pose proof (wf_pool_ordered _ Hp). pose proof (wf_pool_ordered _ Hq). unfold overlap. split.
  - intros [??]. destruct (decide (addr_le (first_ p) (first_ q))).
    + exists (first_ q). addr_lia.
    + exists (first_ p). addr_lia.
  - intros (a & ? & ?). addr_lia.
Qed.

Lemma pool_before_lookup l i j p q :
  StronglySorted pool_before l → l !! i = Some p → l !! j = Some q → (i < j)%nat →
  pool_before p q.
Proof. apply StronglySorted_lookup. Qed.

(** Of a sorted collection, [upper_bound] splits off the pools that start
    after an address. *)
Lemma pools_upper_bound l h :
  pools_wf l →
  partition_point (prefixLessThanFirstAddress h) l
    (upper_bound (prefixLessThanFirstAddress h) l).
Proof.
  intros [Hw Hs]. apply upper_bound_spec. intros i j p q Hi Hj Hle.
  unfold prefixLessThanFirstAddress. rewrite !lessThan_spec.
  destruct (decide (i = j)) as [->|]; [by simplify_eq|]. intros Hp.
  pose proof (pool_before_lookup _ _ _ _ _ Hs Hi Hj ltac:(lia)) as Hb.
  pose proof (wf_pool_ordered _ (Forall_lookup_1 _ _ _ _ Hw Hi)).
  unfold pool_before in Hb. addr_lia.
Qed.

(** The position of an address relative to the pools of a collection. *)
Lemma pools_position l h n i p :
  partition_point (prefixLessThanFirstAddress h) l n → l !! i = Some p →
  ¬ addr_le (first_ p) h ↔ (n ≤ i)%nat.
Proof.
  intros [_ Hn] Hi. rewrite <- (Hn _ _ Hi). unfold prefixLessThanFirstAddress.
  by rewrite lessThan_spec.
Qed.

Lemma deref_Ok {A} (l : list A) i x : l !! i = Some x → deref l i = Ok x.
Proof. unfold deref. by intros ->. Qed.

(** The candidate [getPool] looks at is the only one that can hold the hint. *)
Lemma pools_candidate l h n p :
  pools_wf l → partition_point (prefixLessThanFirstAddress h) l n →
  p ∈ l → pool_inRange p h = true → n ≠ 0%nat ∧ l !! (n - 1)%nat = Some p.
Proof.
  intros [Hw Hs] Hn [i Hi]%list_elem_of_lookup [H1 H2]%pool_inRange_spec.
  pose proof (pools_position _ _ _ _ _ Hn Hi) as Hpos.
  assert (i < n)%nat as Hlt.
  { destruct (decide (i < n)%nat); [done|]. destruct (proj2 Hpos); [lia|done]. }
  destruct (decide (i = n - 1)%nat) as [->|Hne]; [split; [lia|done]|].
  destruct (lookup_lt_is_Some_2 l (n - 1)) as [q Hq]; [destruct Hn; lia|].
  pose proof (pools_position _ _ _ _ _ Hn Hq) as Hpos'.
  pose proof (pool_before_lookup _ _ _ _ _ Hs Hi Hq ltac:(lia)) as Hb.
  unfold pool_before in Hb. destruct (decide (addr_le (first_ q) h)) as [|Hnle]; [addr_lia|].
  apply Hpos' in Hnle. lia.
Qed.

Lemma pools_unique l h p q :
  pools_wf l → p ∈ l → q ∈ l → pool_inRange p h = true → pool_inRange q h = true → p = q.
Proof.
  intros Hl Hp Hq Hph Hqh. pose proof (pools_upper_bound l h Hl) as Hn.
  destruct (pools_candidate _ _ _ _ Hl Hn Hp Hph) as [_ E1].
  destruct (pools_candidate _ _ _ _ Hl Hn Hq Hqh) as [_ E2]. congruence.
Qed.

(** The overlap test looks at two neighbours only, which is enough in a sorted
    and disjoint collection. *)
Section Neighbours.
Context (l : list Pool) (pool : Pool) (n : nat).
Hypothesis (Hl : pools_wf l) (Hp : wf_pool pool)
  (Hn : partition_point (prefixLessThanFirstAddress (first_ pool)) l n).

Lemma neighbour_ordered i x : l !! i = Some x → addr_le (first_ x) (last_ x).
Proof using Hl. intros Hi. eapply wf_pool_ordered, Forall_lookup_1, Hi. apply Hl. Qed.

(** The first pool that starts after the new one. *)
Lemma overlap_after q :
  l !! n = Some q →
  addr_le (first_ q) (last_ pool) ↔ ∃ i x, l !! i = Some x ∧ (n ≤ i)%nat ∧ overlap pool x.
Proof using Hl Hn.
  intros Hq. pose proof (proj2 (pools_position _ _ _ _ _ Hn Hq) ltac:(lia)).
  pose proof (neighbour_ordered _ _ Hq). unfold overlap. split.
  - intros. exists n, q. split_and!; try done. addr_lia.
  - intros (i & x & Hi & Hle & ? & ?). destruct (decide (i = n)) as [->|]; [by simplify_eq|].
    pose proof (pool_before_lookup l n i q x (proj2 Hl) Hq Hi ltac:(lia)) as Hb.
    unfold pool_before in Hb. addr_lia.
Qed.

(** The last pool that does not. *)
Lemma overlap_before q :
  n ≠ 0%nat → l !! (n - 1)%nat = Some q →
  addr_le (first_ q) (first_ pool) ∧
  (addr_le (first_ pool) (last_ q) ↔
     ∃ i x, l !! i = Some x ∧ (i < n)%nat ∧ overlap pool x).
Proof using Hl Hp Hn.
  intros Hn0 Hq. pose proof (wf_pool_ordered _ Hp).
  assert (addr_le (first_ q) (first_ pool)) as Hle.
  { destruct (decide (addr_le (first_ q) (first_ pool))) as [|H']; [done|].
    apply (pools_position _ _ _ _ _ Hn Hq) in H'. lia. }
  split; [done|]. unfold overlap. split.
  - intros. exists (n - 1)%nat, q. split_and!; try done; [lia|]. addr_lia.
  - intros (i & x & Hi & Hlt & ? & ?).
    destruct (decide (i = n - 1)%nat) as [->|]; [by simplify_eq|].
    pose proof (pool_before_lookup l i _ x q (proj2 Hl) Hi Hq ltac:(lia)) as Hb.
    unfold pool_before in Hb. addr_lia.
Qed.

Lemma overlap_split :
  (∃ q, q ∈ l ∧ overlap pool q) ↔
  (∃ i x, l !! i = Some x ∧ (i < n)%nat ∧ overlap pool x) ∨
  (∃ i x, l !! i = Some x ∧ (n ≤ i)%nat ∧ overlap pool x).
Proof using.
  split.
  - intros (x & [i Hi]%list_elem_of_lookup & ?).
    destruct (decide (i < n)%nat); [left|right]; exists i, x; split_and!; auto; lia.
  - intros [(i & x & ? & ? & ?)|(i & x & ? & ? & ?)]; exists x;
      eauto using list_elem_of_lookup_2.
Qed.
End Neighbours.

Lemma poolOverlaps_Ok s t l pool :
  getPools s t = Ok l → pools_wf l → wf_pool pool →
  ∃ b, poolOverlaps s t pool = Ok b ∧ (b = true ↔ ∃ q, q ∈ l ∧ overlap pool q).
Proof.
  intros Hg Hl Hp. unfold poolOverlaps. rewrite Hg. cbn [mbind res_bind].
  destruct (Nat.eqb_spec (length l) 0) as [E|E].
  { apply nil_length_inv in E as ->. exists false. split; [done|].
    split; [done|]. by intros (? & ?%elem_of_nil & _). }
  pose proof (pools_upper_bound l (first_ pool) Hl) as Hn.
  set (n := upper_bound _ _) in *. clearbody n. setoid_rewrite (overlap_split l pool n).
  assert (n ≤ length l)%nat as Hnl by apply Hn.
  pose proof (overlap_before l pool n Hl Hp Hn) as Hbef.
  pose proof (overlap_after l pool n Hl Hn) as Haft.
  assert (n = 0%nat → ¬ ∃ i x, l !! i = Some x ∧ (i < n)%nat ∧ overlap pool x) as Hno1
    by (intros -> (? & ? & ? & ? & ?); lia).
  assert (n = length l → ¬ ∃ i x, l !! i = Some x ∧ (n ≤ i)%nat ∧ overlap pool x) as Hno2
    by (intros -> (? & ? & ?%lookup_lt_Some & ? & ?); lia).
  destruct (Nat.eqb_spec n 0) as [E0|E0]; cbn [negb mbind res_bind].
  - destruct (Nat.eqb_spec n (length l)) as [|E1]; [lia|]. cbn [negb].
    destruct (lookup_lt_is_Some_2 l n) as [q Hq]; [lia|].
    rewrite (deref_Ok _ _ _ Hq). cbn [mbind res_bind].
    specialize (Haft q Hq). rewrite <- smallerEqual_spec in Haft.
    exists (smallerEqual (first_ q) (last_ pool)).
    split; [by destruct (smallerEqual _ _)|]. tauto.
  - destruct (lookup_lt_is_Some_2 l (n - 1)) as [q Hq]; [lia|].
    destruct (Hbef q E0 Hq) as [Hle Hb]. rewrite <- smallerEqual_spec in Hb.
    rewrite (deref_Ok _ _ _ Hq). cbn [mbind res_bind].
    destruct (equals (first_ q) (first_ pool)) eqn:Eq; cbn [mbind res_bind].
    { exists true. split; [done|]. apply equals_spec in Eq. split; [|done]. intros _. left.
      apply Hb, smallerEqual_spec. rewrite <- Eq. eapply neighbour_ordered; eauto. }
    destruct (Nat.eqb_spec n (length l)) as [E1|E1]; cbn [negb mbind res_bind].
    + eexists. split; [done|]. tauto.
    + destruct (lookup_lt_is_Some_2 l n) as [r Hr]; [lia|].
      rewrite (deref_Ok _ _ _ Hr). cbn [mbind res_bind].
      specialize (Haft r Hr). rewrite <- smallerEqual_spec in Haft.
      destruct (smallerEqual (first_ r) (last_ pool)); eexists; (split; [done|]);
        intuition congruence.
Qed.

(** ** The invariant of a subnet *)

(** The lease types of the class. *)
Definition allowed (s : Subnet) (t : LeaseType) : Prop :=
  match kind s with Kind4 => t = TYPE_V4 | Kind6 => t ≠ TYPE_V4 end.

#[export] Instance allowed_dec s t : Decision (allowed s t).
Proof. unfold allowed. destruct (kind s); apply _. Defined.

(** The address belongs to the prefix of the subnet. *)
Definition subnet_contains (s : Subnet) (a : IOAddress) : Prop :=
  addr_le (prefix_first (prefix_ s) (subnet_len_ s)) a ∧
  addr_le a (prefix_last (prefix_ s) (subnet_len_ s)).

#[export] Instance subnet_contains_dec s a : Decision (subnet_contains s a).
Proof. apply _. Defined.

Record wf_subnet (s : Subnet) : Prop := {
  wf_subnet_prefix : wf_addr (prefix_ s);
  wf_subnet_len : 0 ≤ subnet_len_ s ≤ width (prefix_ s);
  wf_subnet_kind : isV4 (prefix_ s) = match kind s with Kind4 => true | Kind6 => false end;
  wf_subnet_pools : ∀ t, allowed s t → pools_wf (pools_of s t);
  wf_subnet_types : ∀ t p, allowed s t → p ∈ pools_of s t → type_ p = t;
  wf_subnet_inside : ∀ t p, allowed s t → t ≠ TYPE_PD → p ∈ pools_of s t →
    subnet_contains s (first_ p) ∧ subnet_contains s (last_ p);
  wf_subnet_disjoint : ∀ t t' p q, allowed s t → allowed s t' → t ≠ t' →
    p ∈ pools_of s t → q ∈ pools_of s t' → ¬ overlap p q
}.

Lemma checkType_eq s t :
  checkType s t = if decide (allowed s t) then Ok tt else Throw BadValue.
Proof.
  destruct (decide (allowed s t)) as [H|H]; unfold checkType, allowed in *;
    destruct (kind s), t; first [reflexivity|by destruct H].
Qed.

Lemma getPools_eq s t :
  getPools s t = if decide (allowed s t) then Ok (pools_of s t) else Throw BadValue.
Proof. unfold getPools. rewrite checkType_eq. by destruct (decide _), t. Qed.

Lemma checkType_Ok s t : allowed s t → checkType s t = Ok tt.
Proof. intros. by rewrite checkType_eq, decide_True. Qed.
Lemma getPools_Ok s t : allowed s t → getPools s t = Ok (pools_of s t).
Proof. intros. by rewrite getPools_eq, decide_True. Qed.

Lemma inRange_Ok s a :
  wf_subnet s → inRange s a = Ok (bool_decide (subnet_contains s a)).
Proof.
  intros [Hp Hlen _ _ _ _ _]. unfold inRange.
  rewrite firstAddrInPrefix_Ok, lastAddrInPrefix_Ok by done. cbn [mbind res_bind].
  unfold mret, res_ret. f_equal. apply eq_bool_prop_intro.
  rewrite bool_decide_spec, !Is_true_true, andb_true_iff, !smallerEqual_spec. done.
Qed.

(** The overlap test over all the types of the class. *)
Definition overlaps_any (s : Subnet) (pool : Pool) : Prop :=
  ∃ t q, allowed s t ∧ q ∈ pools_of s t ∧ overlap pool q.

Lemma overlaps_Ok s pool :
  wf_subnet s → wf_pool pool → allowed s (type_ pool) →
  ∃ b, poolOverlapsTypes s pool = Ok b
       ∧ (b = true ↔ overlaps_any s pool).
Proof.
  intros Hs Hp Ha.
  assert (∀ t, allowed s t → ∃ b, poolOverlaps s t pool = Ok b ∧
            (b = true ↔ ∃ q, q ∈ pools_of s t ∧ overlap pool q)) as Ht.
  { intros t Hat. apply poolOverlaps_Ok; auto using wf_subnet_pools.
    rewrite getPools_eq. by rewrite decide_True. }
  unfold overlaps_any, poolOverlapsTypes. unfold allowed in *. destruct (kind s).
  - rewrite Ha. cbn. destruct (Ht TYPE_V4 eq_refl) as (b & -> & Hb).
    exists b. split; [done|]. rewrite Hb. clear. split.
    + intros (q & ? & ?). by exists TYPE_V4, q.
    + intros (t & q & -> & ? & ?). by exists q.
  - rewrite bool_decide_eq_false_2 by done.
    destruct (Ht TYPE_NA ltac:(done)) as (b1 & -> & Hb1),
      (Ht TYPE_PD ltac:(done)) as (b2 & -> & Hb2), (Ht TYPE_TA ltac:(done)) as (b3 & -> & Hb3).
    exists (b1 || (b2 || b3)). split; [by destruct b1, b2|].
    rewrite !orb_true_iff, Hb1, Hb2, Hb3. clear. split.
    + intros [(q & ? & ?)|[(q & ? & ?)|(q & ? & ?)]];
        [exists TYPE_NA, q|exists TYPE_PD, q|exists TYPE_TA, q]; done.
    + intros ([] & q & ? & ? & ?); [left|right; right|right; left|done]; by exists q.
Qed.

#[export] Instance first_le_dec p q : Decision (first_le p q).
Proof. apply _. Defined.
#[export] Instance first_le_trans : Transitive first_le.
Proof. unfold first_le. intros x y z. apply transitivity. Qed.
#[export] Instance first_le_total : Total first_le.
Proof. intros x y. unfold first_le. rewrite !addr_le_lia. lia. Qed.

(** Sorting by the first address sorts disjoint pools completely. *)
Lemma std_sort_pools_wf l pool :
  pools_wf l → wf_pool pool → (∀ q, q ∈ l → ¬ overlap pool q) →
  pools_wf (std_sort first_le (l ++ [pool])).
Proof.
  intros [Hw Hs] Hp Hno.
  assert (std_sort first_le (l ++ [pool]) ≡ₚ pool :: l) as Hperm
    by (rewrite std_sort_perm; symmetry; apply Permutation_cons_append).
  assert (Symmetric (λ p q, ¬ overlap p q)) as Hsym by (intros p q; unfold overlap; tauto).
  assert (Forall wf_pool (std_sort first_le (l ++ [pool]))) as Hw'
    by (rewrite Hperm; by constructor).
  split; [done|].
  eapply (StronglySorted_combine first_le (λ p q, ¬ overlap p q)); [done| | |].
  - apply std_sort_sorted; apply _.
  - eapply StronglySorted_sym_perm; [done|by symmetry|].
    constructor; [|by apply Forall_forall].
    eapply StronglySorted_combine; [done..|].
    unfold pool_before, overlap. simpl. tauto.
  - intros p q Hwp Hwq. unfold first_le, overlap, pool_before.
    pose proof (wf_pool_ordered _ Hwp). pose proof (wf_pool_ordered _ Hwq). addr_lia.
Qed.

Lemma setPools_Ok s t l :
  allowed s t → ∃ s', setPools s t l = Ok s' ∧ kind s' = kind s ∧
    prefix_ s' = prefix_ s ∧ subnet_len_ s' = subnet_len_ s ∧
    ∀ t', allowed s t' → pools_of s' t' = if decide (t' = t) then l else pools_of s t'.
Proof.
  intros Ha. unfold setPools. rewrite checkType_Ok by done. cbn [mbind res_bind].
  unfold allowed in *. destruct (kind s) eqn:E; destruct t; try done;
    eexists; (split; [done|]); cbn; split_and!; try done;
    intros [] ?; try done; by destruct (decide _).
Qed.

(** Replacing the pools of one type keeps the invariant when the new pools do. *)
Lemma setPools_wf s s' t l :
  wf_subnet s → allowed s t → setPools s t l = Ok s' → pools_wf l →
  (∀ p, p ∈ l → type_ p = t ∧
     (t ≠ TYPE_PD → subnet_contains s (first_ p) ∧ subnet_contains s (last_ p)) ∧
     ∀ t' q, allowed s t' → t' ≠ t → q ∈ pools_of s t' → ¬ overlap p q) →
  wf_subnet s'.
Proof.
  intros Hs Ha E Hl Hp.
  destruct (setPools_Ok s t l Ha) as (s1 & E1 & Hk & Hpr & Hle & Hpo).
  rewrite E in E1. injection E1 as <-.
  assert (∀ t', allowed s' t' ↔ allowed s t') as Hal by (intros; unfold allowed; by rewrite Hk).
  assert (∀ a, subnet_contains s' a ↔ subnet_contains s a) as Hco
    by (intros; unfold subnet_contains; by rewrite Hpr, Hle).
  split; rewrite ?Hpr, ?Hle, ?Hk; [apply Hs..| | | |].
  - intros t' Ht%Hal. rewrite Hpo by done. destruct (decide _); [done|]. by apply Hs.
  - intros t' p Ht%Hal. rewrite Hpo by done.
    destruct (decide _) as [->|]; [by intros [? _]%Hp|]. by apply Hs.
  - intros t' p Ht%Hal Hpd. rewrite Hpo by done. rewrite !Hco.
    destruct (decide _) as [->|]; [intros (_ & H & _)%Hp; auto|]. by apply Hs.
  - intros t1 t2 p q Ht1%Hal Ht2%Hal Hne. rewrite !Hpo by done.
    destruct (decide (t1 = t)) as [->|], (decide (t2 = t)) as [->|]; [done| | |].
    + intros (_ & _ & H)%Hp. by apply H.
    + intros Hin (_ & _ & H)%Hp Hov. eapply (H t1 p); auto.
      unfold overlap in *. tauto.
    + by apply Hs.
Qed.

(** The range of the pool is one [addPool] accepts. *)
Definition in_prefix (s : Subnet) (pool : Pool) : Prop :=
  type_ pool = TYPE_PD ∨ (subnet_contains s (first_ pool) ∧ subnet_contains s (last_ pool)).

#[export] Instance in_prefix_dec s pool : Decision (in_prefix s pool).
Proof. apply _. Defined.

Lemma checkPoolRange_eq s pool :
  wf_subnet s →
  checkPoolRange s pool = if decide (in_prefix s pool) then Ok tt else Throw BadValue.
Proof.
  intros Hs. unfold checkPoolRange. rewrite !inRange_Ok by done. cbn [mbind res_bind].
  destruct (decide (in_prefix s pool)) as [H|H]; unfold in_prefix in H;
    repeat case_bool_decide; cbn [negb throw_if mbind res_bind mret res_ret]; tauto.
Qed.

Lemma addPool_ok (s : Subnet) (pool : Pool) :
  wf_subnet s → wf_pool pool →
  match addPool s pool with
  | Ok s' =>
      wf_subnet s' ∧
      pools_of s' (type_ pool) ≡ₚ pool :: pools_of s (type_ pool) ∧
      ∀ t, allowed s t → t ≠ type_ pool → pools_of s' t = pools_of s t
  | Throw e =>
      e = BadValue ∧
      (¬ allowed s (type_ pool) ∨ ¬ in_prefix s pool ∨ overlaps_any s pool)
  end.
Proof.
  intros Hs Hp.   unfold addPool. rewrite checkType_eq, getPools_eq.
  destruct (decide (allowed s (type_ pool))) as [Ha|Ha]; cbn [mbind res_bind]; [|by auto].
  rewrite checkPoolRange_eq by done.
  destruct (decide (in_prefix s pool)) as [Hin|Hin]; cbn [mbind res_bind].
  2: { by auto. }
  destruct (overlaps_Ok s pool Hs Hp Ha) as ([] & -> & Hov);
    cbn [mbind res_bind throw_if]; [split; [done|right; right; by apply Hov]|].
  assert (∀ t q, allowed s t → q ∈ pools_of s t → ¬ overlap pool q) as Hno.
  { intros t q Ht Hq Ho. assert (overlaps_any s pool) as H%Hov by (by exists t, q). done. }
  set (l := std_sort _ _).
  assert (l ≡ₚ pool :: pools_of s (type_ pool)) as Hperm.
  { subst l. rewrite std_sort_perm. symmetry. apply Permutation_cons_append. }
  destruct (setPools_Ok s (type_ pool) l Ha) as (s' & E & _ & _ & _ & Hpo). rewrite E.
  split; [|split; [by rewrite Hpo, decide_True|]].
  2: { intros t Ht Hne. by rewrite Hpo, decide_False. }
  eapply setPools_wf; [done..|apply std_sort_pools_wf; eauto using wf_subnet_pools|].
  intros p. rewrite Hperm. intros [->|Hin']%elem_of_cons.
  - split_and!; [done|unfold in_prefix in Hin; tauto|]. eauto.
  - split_and!; [by eapply (wf_subnet_types s)| |].
    + intros. by apply (wf_subnet_inside s Hs (type_ pool)).
    + intros t' q Ht' Hne Hq. by apply (wf_subnet_disjoint s Hs (type_ pool) t').
Qed.

(** A subnet as constructed satisfies the invariant, and so does what a sequence
    of accepted pools makes of it. *)
Lemma mkSubnet_wf k prefix len t1 t2 preferred valid id s :
  wf_addr prefix → 0 ≤ len → mkSubnet k prefix len t1 t2 preferred valid id = Ok s → wf_subnet s.
Proof.
  intros Hp Hlen H. unfold mkSubnet in H. res_inv.
  assert (∀ t (p : Pool), p ∈ (match t with TYPE_TA => [] | TYPE_PD => [] | _ => [] end : list Pool)
    → False) as Hnil by (intros [] ? ?%elem_of_nil; done).
  split; simpl.
  - done.
  - destruct prefix; simpl in *; rewrite ?orb_false_r in *; rewrite ?Z.ltb_ge in *; lia.
  - destruct k, prefix; done.
  - intros [] _; split; constructor.
  - intros t p _ []%(Hnil t); by destruct t.
  - intros t p _ _ []%(Hnil t); by destruct t.
  - intros t t' p q _ _ _ []%(Hnil t); by destruct t.
Qed.

Lemma addPool_wf s pool s' :
  wf_subnet s → wf_pool pool → addPool s pool = Ok s' → wf_subnet s'.
Proof. intros Hs Hp E. pose proof (addPool_ok s pool Hs Hp) as H. rewrite E in H. apply H. Qed.

(** The pools and subnet of the witnesses: 192.0.2.0/24 with the pools
    192.0.2.10 - 192.0.2.12 and 192.0.2.20. *)
Definition sample_pool (id first last capacity : Z) : Pool :=
  {| pool_id_ := id; first_ := V4 first; last_ := V4 last; type_ := TYPE_V4;
     capacity_ := capacity; pool_class_ := ""; last_allocated_ := V4 first;
     last_allocated_valid_ := false; pool6 := None |}.
Definition sample_pool1 : Pool := sample_pool 0 0xC000020A 0xC000020C 3.
Definition sample_pool2 : Pool := sample_pool 1 0xC0000214 0xC0000214 1.
Definition sample_subnet : Subnet :=
  {| kind := Kind4; id_ := 1; prefix_ := V4 0xC0000200; subnet_len_ := 24;
     pools_ := [sample_pool1; sample_pool2]; pools_ta_ := []; pools_pd_ := [];
     last_allocated_ia_ := V4 0xC00002FF; last_allocated_ta_ := V4 0xC00002FF;
     last_allocated_pd_ := V4 0xC00002FF;
     last_allocated_time_ := <[TYPE_V4 := None]> (<[TYPE_NA := None]>
       (<[TYPE_TA := None]> (<[TYPE_PD := None]> ∅)));
     shared_network_ := None; client_class_ := "";
     net_t1_ := 1000; net_t2_ := 2000; preferred_ := 0; valid_ := 4000;
     host_reservation_mode_ := HR_ALL; match_client_id_ := true |}.

Lemma sample_pool_wf id first last capacity :
  0 ≤ first ≤ last → last < 2 ^ 32 → wf_pool (sample_pool id first last capacity).
Proof.
  intros. split; try done; unfold wf_addr; simpl; try lia.
  apply pool_inRange_spec. simpl. lia.
Qed.

Lemma sample_subnet_wf : wf_subnet sample_subnet.
Proof.
  assert ((s ← mkSubnet Kind4 (V4 0xC0000200) 24 1000 2000 0 4000 1;
           s ← addPool s sample_pool2; addPool s sample_pool1) = Ok sample_subnet) as E
    by (vm_compute; reflexivity).
  res_inv. eapply addPool_wf; [|apply sample_pool_wf|exact E]; [|lia..].
  eapply addPool_wf; [|apply sample_pool_wf|done]; [|lia..].
  eapply mkSubnet_wf; [|  |done]; [split; [done|reflexivity]|lia].
Qed.

(** [addPool] accepts a pool exactly when its type is one of the subnet's,
    its range lies in the prefix of the subnet (prefix pools apart) and it shares
    no address with a pool of any type; the pools then stay sorted and disjoint,
    with the new one added. *)
Theorem addPool_spec (s : Subnet) (pool : Pool) (Hs : wf_subnet s) (Hp : wf_pool pool) :
  match addPool s pool with
  | Ok s' =>
      wf_subnet s' ∧
      pools_of s' (type_ pool) ≡ₚ pool :: pools_of s (type_ pool) ∧
      ∀ t, allowed s t → t ≠ type_ pool → pools_of s' t = pools_of s t
  | Throw e =>
      e = BadValue ∧
      (¬ allowed s (type_ pool) ∨ ¬ in_prefix s pool ∨ overlaps_any s pool)
  end.
Proof. by apply addPool_ok. Qed.

(** A third pool is accepted between the two of the sample. *)
Lemma addPool_spec_witness :
  let pool := sample_pool 2 0xC000020D 0xC000020F 3 in
  wf_subnet sample_subnet ∧ wf_pool pool ∧
  ∃ s', addPool sample_subnet pool = Ok s' ∧ wf_subnet s' ∧
    pools_of s' TYPE_V4 ≡ₚ [pool; sample_pool1; sample_pool2].
Proof.
  intros pool.
  assert (wf_pool pool) as Hp by (apply sample_pool_wf; lia).
  assert (∃ s', addPool sample_subnet pool = Ok s') as [s' E] by (vm_compute; by eexists).
  split; [exact sample_subnet_wf|split; [exact Hp|]]. exists s'. split; [exact E|].
  pose proof (addPool_spec sample_subnet pool sample_subnet_wf Hp) as H. rewrite E in H.
  destruct H as (H1 & H2 & _). split; [exact H1|exact H2].
Defined.

(** ** Looking pools up *)

Lemma getPool_candidate s t h :
  wf_subnet s → allowed s t →
  ∃ c, (let ub := upper_bound (prefixLessThanFirstAddress h) (pools_of s t) in
        if negb (ub =? 0)%nat then
          p ← deref (pools_of s t) (ub - 1);
          mret (if pool_inRange p h then Some p else None)
        else mret None) = Ok c ∧
       ∀ p, c = Some p ↔ p ∈ pools_of s t ∧ pool_inRange p h = true.
Proof.
  intros Hs Ha. pose proof (wf_subnet_pools s Hs t Ha) as Hl.
  set (l := pools_of s t) in *. pose proof (pools_upper_bound l h Hl) as Hn.
  set (n := upper_bound _ _) in *. clearbody n. cbn zeta.
  pose proof (λ p, pools_candidate l h n p Hl Hn) as Hc.
  destruct (Nat.eqb_spec n 0) as [->|Hn0]; cbn [negb].
  - exists None. split; [done|]. intros p. split; [done|].
    intros [Hp Hh]. by destruct (Hc p Hp Hh).
  - destruct (lookup_lt_is_Some_2 l (n - 1)) as [q Hq]; [destruct Hn; lia|].
    rewrite (deref_Ok _ _ _ Hq). cbn [mbind res_bind].
    eexists. split; [done|]. intros p. split.
    + destruct (pool_inRange q h) eqn:E; [|done]. intros [= <-].
      eauto using list_elem_of_lookup_2.
    + intros [Hp Hh]. destruct (Hc p Hp Hh) as [_ E]. simplify_eq. by rewrite Hh.
Qed.

(** the binary search of [getPool] finds the pool that holds the hint
    whenever there is one; otherwise the result is the first pool when any pool
    will do, and none when it will not. *)
Theorem getPool_spec (s : Subnet) (t : LeaseType) (hint : IOAddress) (anypool : bool)
    (Hs : wf_subnet s) (Ha : allowed s t) :
  ∃ r, getPool s t hint anypool = Ok r ∧
    (∀ p, p ∈ pools_of s t → pool_inRange p hint = true → r = Some p) ∧
    ((∀ p, p ∈ pools_of s t → pool_inRange p hint = false) →
     r = if anypool then head (pools_of s t) else None).
Proof.
  destruct (getPool_candidate s t hint Hs Ha) as (c & Hc & Hspec).
  unfold getPool. rewrite checkType_Ok, getPools_Ok by done. cbn [mbind res_bind].
  cbn zeta in Hc. destruct (pools_of s t) as [|p0 l] eqn:E.
  { exists None. split; [done|]. split; [by intros ? ?%elem_of_nil|]. by destruct anypool. }
  rewrite Hc. cbn [mbind res_bind].
  eexists. split; [done|]. split.
  - intros p Hp Hh. by rewrite (proj2 (Hspec p)).
  - intros Hnone. destruct c as [p|]; [|done].
    destruct (proj1 (Hspec p) eq_refl) as [Hp Hh]. rewrite Hnone in Hh by done. done.
Qed.

(** Without the fallback [getPool] gives the pool that holds the hint. *)
Lemma getPool_exact s t hint :
  wf_subnet s → allowed s t →
  ∃ r, getPool s t hint false = Ok r ∧
    ∀ p, r = Some p ↔ p ∈ pools_of s t ∧ pool_inRange p hint = true.
Proof.
  intros Hs Ha. destruct (getPool_candidate s t hint Hs Ha) as (c & Hc & Hspec).
  exists c. split; [|done]. unfold getPool. rewrite checkType_Ok, getPools_Ok by done.
  cbn [mbind res_bind]. cbn zeta in Hc. destruct (pools_of s t) as [|p0 l] eqn:El.
  - destruct c as [p|]; [|done]. destruct (proj1 (Hspec p) eq_refl) as [?%elem_of_nil _]. done.
  - rewrite Hc. by destruct c.
Qed.

Lemma getPool_spec_witness :
  wf_subnet sample_subnet ∧ allowed sample_subnet TYPE_V4 ∧
  getPool sample_subnet TYPE_V4 (V4 0xC0000214) true = Ok (Some sample_pool2).
Proof.
  assert (allowed sample_subnet TYPE_V4) as Ha by reflexivity.
  split; [exact sample_subnet_wf|split; [exact Ha|]].
  destruct (getPool_spec sample_subnet TYPE_V4 (V4 0xC0000214) true sample_subnet_wf Ha)
    as (r & E & H & _).
  rewrite E, (H sample_pool2); [done|right; left|vm_compute; reflexivity].
Defined.

(** [getPool] with client classes: the pool that holds the hint, if the client
    may use it. *)
Lemma getPool_classes_spec s t classes hint :
  wf_subnet s → allowed s t →
  ∃ r, getPool_classes s t classes hint = Ok r ∧
    ∀ p, r = Some p ↔ p ∈ pools_of s t ∧ pool_inRange p hint = true ∧
                      pool_clientSupported p classes = true.
Proof.
  intros Hs Ha. pose proof (wf_subnet_pools s Hs t Ha) as Hl.
  unfold getPool_classes. rewrite checkType_Ok, getPools_Ok by done.
  cbn [mbind res_bind]. destruct (pools_of s t) as [|p0 l0] eqn:E.
  { exists None. split; [done|]. intros p. split; [done|]. by intros [?%elem_of_nil _]. }
  set (l := p0 :: l0) in *. clearbody l.
  pose proof (pools_upper_bound l hint Hl) as Hn. set (n := upper_bound _ _) in *. clearbody n.
  pose proof (λ p, pools_candidate l hint n p Hl Hn) as Hc.
  destruct (Nat.eqb_spec n 0) as [->|Hn0]; cbn [negb].
  - exists None. split; [done|]. intros p. split; [done|].
    intros (Hp & Hh & _). by destruct (Hc p Hp Hh).
  - destruct (lookup_lt_is_Some_2 l (n - 1)) as [q Hq]; [destruct Hn; lia|].
    rewrite (deref_Ok _ _ _ Hq). cbn [mbind res_bind].
    eexists. split; [done|]. intros p. split.
    + destruct (pool_inRange q hint) eqn:E1, (pool_clientSupported q classes) eqn:E2;
        try done. intros [= <-]. eauto using list_elem_of_lookup_2.
    + intros (Hp & Hh & Hcs). destruct (Hc p Hp Hh) as [_ E1]. simplify_eq.
      by rewrite Hh, Hcs.
Qed.

Lemma inPool_classes_Ok s t a classes :
  wf_subnet s → allowed s t →
  ∃ b, inPool_classes s t a classes = Ok b ∧
    (b = true ↔ (t = TYPE_PD ∨ subnet_contains s a) ∧
       ∃ p, p ∈ pools_of s t ∧ pool_clientSupported p classes = true ∧ pool_inRange p a = true).
Proof.
  intros Hs Ha. unfold inPool_classes. rewrite inRange_Ok, getPools_Ok by done.
  assert (existsb (λ p, pool_clientSupported p classes && pool_inRange p a) (pools_of s t) = true
    ↔ ∃ p, p ∈ pools_of s t ∧ pool_clientSupported p classes = true ∧ pool_inRange p a = true)
    as Hex.
  { rewrite existsb_elem_of. split; intros (p & Hp & H); exists p.
    - by apply andb_true_iff in H.
    - split; [done|]. by apply andb_true_iff. }
  destruct (decide (t = TYPE_PD)) as [->|Hne]; cbn [mbind res_bind mret res_ret].
  - eexists. split; [done|]. rewrite Hex. intuition.
  - rewrite bool_decide_eq_true_2 by done. cbn [mbind res_bind].
    case_bool_decide; cbn [negb mbind res_bind mret res_ret].
    + eexists. split; [done|]. rewrite Hex. tauto.
    + exists false. split; [done|]. split; [done|]. tauto.
Qed.

(** for an address of a pool the client may use, [inPool] and [getPool]
    agree: the first answers true exactly when the second returns a pool. *)
Theorem inPool_getPool (s : Subnet) (t : LeaseType) (a : IOAddress) (classes : ClientClasses)
    (Hs : wf_subnet s) (Ha : allowed s t) :
  ∃ r, getPool_classes s t classes a = Ok r ∧
       inPool_classes s t a classes = Ok (bool_decide (is_Some r)).
Proof.
  destruct (getPool_classes_spec s t classes a Hs Ha) as (r & Hr & Hspec).
  destruct (inPool_classes_Ok s t a classes Hs Ha) as (b & -> & Hb).
  exists r. split; [done|]. f_equal. apply eq_bool_prop_intro.
  rewrite bool_decide_spec, Is_true_true, Hb. split.
  - intros (_ & p & ? & ? & ?). exists p. by apply Hspec.
  - intros [p (Hp & Hh & Hc)%Hspec]. split; [|by exists p].
    destruct (decide (t = TYPE_PD)); [by left|right].
    destruct (wf_subnet_inside s Hs t p) as [[Hf _] [_ Hl]]; [done..|].
    apply pool_inRange_spec in Hh. unfold subnet_contains. addr_lia.
Qed.

Lemma inPool_getPool_witness :
  wf_subnet sample_subnet ∧
  ∃ r, getPool_classes sample_subnet TYPE_V4 [] (V4 0xC000020B) = Ok r ∧
       inPool_classes sample_subnet TYPE_V4 (V4 0xC000020B) [] = Ok (bool_decide (is_Some r)).
Proof.
  split; [exact sample_subnet_wf|].
  exact (inPool_getPool sample_subnet TYPE_V4 (V4 0xC000020B) [] sample_subnet_wf eq_refl).
Defined.

(** ** Capacities *)

Definition total_capacity (pools : list Pool) : Z :=
  foldr (λ p acc, capacity_ p + acc) 0 pools.

Lemma total_capacity_nonneg pools :
  Forall (λ p, 0 ≤ capacity_ p) pools → 0 ≤ total_capacity pools.
Proof. induction 1; simpl; lia. Qed.

Lemma sumPoolCapacity_loop_spec sum pools :
  0 ≤ sum ≤ u64_max → Forall (λ p, 0 ≤ capacity_ p) pools →
  sumPoolCapacity_loop sum pools = Z.min u64_max (sum + total_capacity pools).
Proof.
  intros Hsum Hp. revert sum Hsum. induction Hp as [|p l Hp Hl IH]; intros sum Hsum;
    cbn [sumPoolCapacity_loop total_capacity foldr]; [lia|].
  pose proof (total_capacity_nonneg l Hl) as Hnn. unfold total_capacity in *.
  destruct (Z.ltb_spec (u64_max - sum) (capacity_ p)); [lia|]. rewrite IH by lia. lia.
Qed.

Lemma sumPoolCapacity_classes_filter sum pools classes :
  sumPoolCapacity_classes_loop sum pools classes =
  sumPoolCapacity_loop sum (filter (λ p, pool_clientSupported p classes = true) pools).
Proof.
  revert sum. induction pools as [|p l IH]; intros sum; [done|].
  cbn [sumPoolCapacity_classes_loop]. rewrite filter_cons.
  destruct (pool_clientSupported p classes); cbn [negb].
  - rewrite decide_True by done. cbn [sumPoolCapacity_loop]. by rewrite IH.
  - by rewrite decide_False.
Qed.

(** How many addresses or prefixes pools have. *)
Definition total_size (pools : list Pool) : Z := foldr (λ p acc, pool_size p + acc) 0 pools.

Lemma total_capacity_size pools :
  Forall made_pool pools →
  0 ≤ total_size pools ∧ Z.min u64_max (total_capacity pools) = Z.min u64_max (total_size pools).
Proof.
  induction 1 as [|p l Hp _ [IH1 IH2]]; [done|]. cbn [total_size total_capacity foldr].
  fold (total_capacity l) (total_size l). apply made_capacity in Hp as [-> Hp].
  unfold u64_max in *. lia.
Qed.

(** C40: the capacity reported for a client is the number of addresses of the pools it may use,
    or of prefixes that they delegate, capped at the largest 64-bit value instead of wrapping
    around.  The pools are those that the constructors of [pool.cc] make ([made_pool]): of two
    bounds, or of a prefix that has no bits after its length and delegates prefixes of at most
    128 bits; a prefix with such bits is counted too high ([unaligned_prefix_overcounts]). *)
Theorem getPoolCapacity_classes_spec (s : Subnet) (t : LeaseType) (classes : ClientClasses)
    (Hmade : Forall made_pool (pools_of s t)) :
  getPoolCapacity_classes s t classes =
    Z.min u64_max (total_size
      (filter (λ p, pool_clientSupported p classes = true) (pools_of s t))).
Proof.
  assert (Forall made_pool (filter (λ p, pool_clientSupported p classes = true) (pools_of s t)))
    as Hf.
  { rewrite Forall_forall in *. intros p [_ Hp]%list_elem_of_filter. by apply Hmade. }
  unfold getPoolCapacity_classes, sumPoolCapacity_classes.
  rewrite sumPoolCapacity_classes_filter, sumPoolCapacity_loop_spec.
  - exact (proj2 (total_capacity_size _ Hf)).
  - done.
  - eapply Forall_impl; [exact Hf|]. intros p Hp. apply made_capacity in Hp as [-> Hp].
    unfold u64_max. lia.
Qed.

(** A subnet with a pool of 256 prefixes of length 56 and one of 2^80, which one client class may
    use. *)
Definition delegating_pools : res (list Pool) :=
  p1 ← Pool6_prefix 0 TYPE_PD (V6 (0x20010db8 * 2 ^ 96)) 48 56;
  p2 ← Pool6_prefix 1 TYPE_PD (V6 (0x20010db9 * 2 ^ 96)) 32 112;
  mret [p1; pool_allowClientClass "cable" p2].
Definition delegating_subnet (pools : list Pool) : Subnet := put_pools sample_subnet TYPE_PD pools.

Lemma delegating_pools_made l : delegating_pools = Ok l → Forall made_pool l.
Proof.
  unfold delegating_pools. intros E. res_inv.
  assert (∀ z, 0 ≤ z < 2 ^ 128 → wf_addr (V6 z)) as Hwf by done.
  apply Forall_cons; split; [|apply Forall_singleton, made_class];
    (eapply made6_prefix; [| | | | |eassumption]; [apply Hwf|..]; try lia; done).
Qed.

Lemma getPoolCapacity_classes_spec_witness :
  ∃ l, delegating_pools = Ok l ∧ Forall made_pool l ∧
    getPoolCapacity_classes (delegating_subnet l) TYPE_PD [] = 256 ∧
    getPoolCapacity_classes (delegating_subnet l) TYPE_PD ["cable"%string] = u64_max.
Proof.
  assert (∃ l, delegating_pools = Ok l ∧ map pool_size l = [256; 2 ^ 80] ∧
    map (λ p, pool_clientSupported p []) l = [true; false] ∧
    map (λ p, pool_clientSupported p ["cable"%string]) l = [true; true])
    as (l & E & Hsize & Hc1 & Hc2)
    by (eexists; split; [vm_compute; reflexivity|]; split_and!; vm_compute; reflexivity).
  pose proof (delegating_pools_made l E) as Hl. exists l. split_and!; [exact E|exact Hl| |].
  - rewrite (getPoolCapacity_classes_spec (delegating_subnet l) TYPE_PD [] Hl).
    vm_compute in E. injection E as <-. vm_compute. reflexivity.
  - rewrite (getPoolCapacity_classes_spec (delegating_subnet l) TYPE_PD ["cable"%string] Hl).
    vm_compute in E. injection E as <-. vm_compute. reflexivity.
Defined.
