(* ===== verification/SharedNetwork.v ===== *)
(** * Shared networks ([src/lib/dhcpsrv/shared_network.cc], [subnet.cc])

    A shared network groups subnets; the allocation engine walks over them.
    Subnets and networks are objects reached through pointers: [Heap] maps the
    pointers to the objects, and a network holds the pointers of its subnets in
    the order of insertion (the random access index of the container; the index
    by subnet identifier is a search in that list). *)

From S2P Require Import Prelude Algorithms IoAddress Pool Subnet.
Local Open Scope Z_scope.

Record SharedNetwork := {
  net_class_ : string;
  subnets_ : list Z
}.

Record Heap := {
  subnets : gmap Z Subnet;
  networks : gmap Z SharedNetwork
}.

(** [*p]: following a pointer that points nowhere is undefined. *)
Definition subnet_at (h : Heap) (p : Z) : res Subnet :=
  match subnets h !! p with Some s => Ok s | None => Throw AssertionFailure end.
Definition network_at (h : Heap) (n : Z) : res SharedNetwork :=
  match networks h !! n with Some x => Ok x | None => Throw AssertionFailure end.
Definition set_subnet (p : Z) (s : Subnet) (h : Heap) : Heap :=
  {| subnets := <[p := s]> (subnets h); networks := networks h |}.
Definition set_network (n : Z) (x : SharedNetwork) (h : Heap) : Heap :=
  {| subnets := subnets h; networks := <[n := x]> (networks h) |}.

(** The search of the index by subnet identifier. *)
Definition has_id (h : Heap) (subnet_id : Z) (p : Z) : Prop :=
  id_ <$> subnets h !! p = Some subnet_id.
#[export] Instance has_id_dec h i p : Decision (has_id h i p).
Proof. unfold has_id. apply _. Defined.
Definition index_find (h : Heap) (l : list Z) (subnet_id : Z) : option (nat * Z) :=
  list_find (has_id h subnet_id) l.

(** [Impl::getSubnet]. *)
Definition getSubnet (h : Heap) (l : list Z) (subnet_id : Z) : option Z :=
  snd <$> index_find h l subnet_id.

(** [Impl::add] followed by [setSharedNetwork], on a pointer that may be null. *)
Definition network_add (n : Z) (subnet : option Z) : ST Heap unit :=
  match subnet with
  | None => throw BadValue
  | Some p =>
      h ← get;
      net ← lift (network_at h n);
      s ← lift (subnet_at h p);
      match getSubnet h (subnets_ net) (id_ s) with
      | Some _ => throw DuplicateSubnetID
      | None =>
          match shared_network_ s with
          | Some _ => throw InvalidOperation
          | None =>
              _ ← modify (set_network n {| net_class_ := net_class_ net;
                                           subnets_ := subnets_ net ++ [p] |});
              modify (set_subnet p (with_network s (Some n)))
          end
      end
  end.

(** [Impl::del] followed by [clearSharedNetwork]. *)
Definition network_del (n : Z) (subnet_id : Z) : ST Heap unit :=
  h ← get;
  net ← lift (network_at h n);
  match index_find h (subnets_ net) subnet_id with
  | None => throw BadValue
  | Some (i, p) =>
      s ← lift (subnet_at h p);
      _ ← modify (set_network n {| net_class_ := net_class_ net;
                                   subnets_ := delete i (subnets_ net) |});
      modify (set_subnet p (with_network s None))
  end.

(** [clearSharedNetwork] for every subnet of a list. *)
Fixpoint clear_loop (l : list Z) : ST Heap unit :=
  match l with
  | [] => mret tt
  | p :: l' =>
      h ← get;
      s ← lift (subnet_at h p);
      _ ← modify (set_subnet p (with_network s None));
      clear_loop l'
  end.

Definition network_delAll (n : Z) : ST Heap unit :=
  h ← get;
  net ← lift (network_at h n);
  _ ← clear_loop (subnets_ net);
  modify (set_network n {| net_class_ := net_class_ net; subnets_ := [] |}).

(** [Impl::getNextSubnet]: [first_subnet] is a pointer, [current_subnet] an
    identifier. *)
Definition network_getNextSubnet (h : Heap) (l : list Z) (first_subnet : Z)
    (current_subnet : Z) : res (option Z) :=
  if (length l =? 0)%nat then mret None
  else
    match index_find h l current_subnet with
    | None => Throw BadValue
    | Some (i, _) =>
        let i := if (S i =? length l)%nat then 0%nat else S i in
        p ← deref l i;
        s ← subnet_at h p;
        f ← subnet_at h first_subnet;
        mret (if id_ s =? id_ f then None else Some p)
    end.

(** [Impl::getPreferredSubnet]: the loop over the subnets. *)
Fixpoint preferred_loop (h : Heap) (l : list Z) (selected : Subnet) (lease_type : LeaseType)
    (preferred_subnet : Z) : res Z :=
  match l with
  | [] => mret preferred_subnet
  | p :: l' =>
      s ← subnet_at h p;
      preferred_loop h l' selected lease_type
        (if bool_decide (client_class_ s = client_class_ selected)
            && ptime_gt (getLastAllocatedTime s lease_type)
                        (getLastAllocatedTime selected lease_type)
         then p else preferred_subnet)
  end.
Definition getPreferredSubnet (h : Heap) (l : list Z) (selected_subnet : Z)
    (lease_type : LeaseType) : res Z :=
  s ← subnet_at h selected_subnet;
  preferred_loop h l s lease_type selected_subnet.

(** [Subnet4::clientSupported] and [Subnet6::clientSupported]. *)
Definition clientSupported (h : Heap) (s : Subnet) (classes : ClientClasses) : res bool :=
  network_ok ←
    match shared_network_ s with
    | None => mret true
    | Some n => net ← network_at h n; mret (network_clientSupported (net_class_ net) classes)
    end;
  if negb network_ok then mret false
  else mret (network_clientSupported (client_class_ s) classes).

(** [Subnet4::getNextSubnet(first_subnet)]. *)
Definition getNextSubnet (h : Heap) (self first_subnet : Z) : res (option Z) :=
  s ← subnet_at h self;
  match shared_network_ s with
  | None => mret None
  | Some n =>
      net ← network_at h n;
      network_getNextSubnet h (subnets_ net) first_subnet (id_ s)
  end.

(** The loop of [getNextSubnet(first_subnet, client_classes)]; [None] when the
    fuel is used up. *)
Fixpoint next_loop (fuel : nat) (h : Heap) (l : list Z) (first_subnet : Z) (subnet_id : Z)
    (classes : ClientClasses) : option (res (option Z)) :=
  match fuel with
  | O => None
  | S fuel' =>
      match network_getNextSubnet h l first_subnet subnet_id with
      | Throw e => Some (Throw e)
      | Ok None => Some (Ok None)
      | Ok (Some p) =>
          match subnet_at h p with
          | Throw e => Some (Throw e)
          | Ok s =>
              match clientSupported h s classes with
              | Throw e => Some (Throw e)
              | Ok true => Some (Ok (Some p))
              | Ok false => next_loop fuel' h l first_subnet (id_ s) classes
              end
          end
      end
  end.
Definition getNextSubnet_classes (fuel : nat) (h : Heap) (self first_subnet : Z)
    (classes : ClientClasses) : option (res (option Z)) :=
  match subnet_at h self with
  | Throw e => Some (Throw e)
  | Ok s =>
      match shared_network_ s with
      | None => Some (Ok None)
      | Some n =>
          match network_at h n with
          | Throw e => Some (Throw e)
          | Ok net => next_loop fuel h (subnets_ net) first_subnet (id_ s) classes
          end
      end
  end.

(** ** The invariant between networks and subnets *)

Definition ids (h : Heap) (l : list Z) : list (option Z) := (λ p, id_ <$> subnets h !! p) <$> l.

(** Identifiers are unique within a network, and a subnet is in the list of a
    network exactly when it points back to it. *)
Record wf_heap (h : Heap) : Prop := {
  wf_heap_ids : ∀ n net, networks h !! n = Some net → NoDup (ids h (subnets_ net));
  wf_heap_back : ∀ n net p, networks h !! n = Some net →
    p ∈ subnets_ net ↔ ∃ s, subnets h !! p = Some s ∧ shared_network_ s = Some n;
  wf_heap_net : ∀ p s n, subnets h !! p = Some s → shared_network_ s = Some n →
    is_Some (networks h !! n)
}.

Lemma ids_lookup h l i p s :
  l !! i = Some p → subnets h !! p = Some s → ids h l !! i = Some (Some (id_ s)).
Proof. unfold ids. intros Hi Hs. by rewrite list_lookup_fmap, Hi; simpl; rewrite Hs. Qed.

Lemma index_find_Some h l i p s :
  NoDup (ids h l) → l !! i = Some p → subnets h !! p = Some s →
  index_find h l (id_ s) = Some (i, p).
Proof.
  intros Hnd Hi Hs. apply list_find_Some. split_and!; [done| |].
  - unfold has_id. by rewrite Hs.
  - intros j q Hj Hlt Hq. unfold has_id in Hq.
    assert (ids h l !! j = Some (Some (id_ s))) as Hj'
      by (unfold ids; by rewrite list_lookup_fmap, Hj; simpl; rewrite Hq).
    pose proof (NoDup_lookup _ _ _ _ Hnd Hj' (ids_lookup h l i p s Hi Hs)). lia.
Qed.

Lemma index_find_None h l i :
  index_find h l i = None ↔ Some i ∉ ids h l.
Proof.
  unfold index_find. rewrite list_find_None, Forall_forall. unfold ids, has_id.
  rewrite list_elem_of_fmap. split.
  - intros H (p & E & Hp). by apply (H p Hp).
  - intros H p Hp E. apply H. by exists p.
Qed.

(** ** The walk over a shared network *)

(** The client may use the subnet. *)
Definition supported (h : Heap) (classes : ClientClasses) (p : Z) : Prop :=
  match subnets h !! p with
  | Some s => clientSupported h s classes = Ok true
  | None => False
  end.
#[export] Instance supported_dec h classes p : Decision (supported h classes p).
Proof. unfold supported. destruct (subnets h !! p); apply _. Defined.

Section Walk.
Context (h : Heap) (l : list Z) (f : nat) (first_subnet : Z).
Hypothesis Hids : NoDup (ids h l).
Hypothesis Hsome : Forall (λ p, is_Some (subnets h !! p)) l.
Hypothesis Hfirst : l !! f = Some first_subnet.

(** The subnets in the order of the walk: from the first one, around. *)
Definition order : list Z := rotate f l.

Lemma order_position k p :
  order !! k = Some p →
  (f < length l)%nat ∧ (k < length l)%nat ∧
  l !! (if decide (f + k < length l)%nat then f + k else f + k - length l)%nat = Some p.
Proof using Hfirst.
  unfold order. intros [Hl Hk]%lookup_rotate_r_Some.
  pose proof (lookup_lt_Some _ _ _ Hfirst). by rewrite rotate_nat_add_alt in Hl.
Qed.

Lemma order_perm : order ≡ₚ l.
Proof using.
  unfold order, rotate. rewrite Permutation_app_comm. by rewrite take_drop.
Qed.

(** One step of the walk. *)
Lemma getNextSubnet_step k p s :
  order !! k = Some p → subnets h !! p = Some s →
  network_getNextSubnet h l first_subnet (id_ s) = Ok (order !! S k).
Proof using Hids Hsome Hfirst.
  intros Hk Hs. destruct (order_position k p Hk) as (Hf & Hkl & Hp).
  unfold network_getNextSubnet.
  rewrite (proj2 (Nat.eqb_neq _ _)) by lia.
  rewrite (index_find_Some _ _ _ _ _ Hids Hp Hs).
  set (i := (if decide _ then _ else _)) in *.
  set (j := if (S i =? length l)%nat then 0%nat else S i).
  assert (j = if decide (f + S k < length l)%nat then f + S k else f + S k - length l)%nat
    as Hj.
  { subst j i. destruct (decide (f + k < length l)%nat),
      (decide (f + S k < length l)%nat); case_match eqn:E;
      rewrite ?Nat.eqb_eq, ?Nat.eqb_neq in E; lia. }
  clearbody j. clearbody i. destruct (lookup_lt_is_Some_2 l j) as [q Hq];
    [rewrite Hj; destruct (decide (f + S k < length l)%nat); lia|].
  destruct (Forall_lookup_1 _ _ _ _ Hsome Hq) as [t Ht].
  destruct (Forall_lookup_1 _ _ _ _ Hsome Hfirst) as [s0 Hs0].
  rewrite (deref_Ok _ _ _ Hq). unfold subnet_at. cbn [mbind res_bind]. rewrite Ht, Hs0.
  cbn [mbind res_bind mret res_ret]. f_equal.
  assert (id_ t = id_ s0 ↔ j = f) as Hid.
  { split; [|intros ->; congruence]. intros E.
    eapply (NoDup_lookup (ids h l)); [done|by eapply ids_lookup|].
    rewrite E. by eapply ids_lookup. }
  destruct (Z.eqb_spec (id_ t) (id_ s0)) as [E|E]; symmetry.
  - apply Hid in E. apply lookup_ge_None_2. unfold order. rewrite length_rotate.
    destruct (decide (f + S k < length l)%nat); lia.
  - apply lookup_rotate_r_Some.
    assert (S k < length l)%nat.
    { destruct (decide (S k < length l)%nat); [done|]. destruct E. apply Hid.
      destruct (decide (f + S k < length l)%nat); lia. }
    split; [|done]. rewrite rotate_nat_add_alt by lia. by rewrite <- Hj.
Qed.

Context (classes : ClientClasses).

Hypothesis Hnet : ∀ p s, p ∈ l → subnets h !! p = Some s →
  ∃ b, clientSupported h s classes = Ok b.

Lemma next_loop_spec fuel k p s :
  order !! k = Some p → subnets h !! p = Some s → (length l < k + fuel)%nat →
  next_loop fuel h l first_subnet (id_ s) classes =
    Some (Ok (head (filter (supported h classes) (drop (S k) order)))).
Proof using Hids Hsome Hfirst Hnet.
  revert k p s. induction fuel as [|fuel IH]; intros k p s Hk Hs Hfuel.
  { destruct (order_position k p Hk). lia. }
  cbn [next_loop]. rewrite (getNextSubnet_step k p s Hk Hs).
  destruct (order !! S k) as [q|] eqn:Hq.
  - erewrite drop_S by done.
    assert (q ∈ l) as Hql by (rewrite <- order_perm; by eapply list_elem_of_lookup_2).
    rewrite Forall_forall in Hsome. destruct (Hsome q Hql) as [t Ht].
    unfold subnet_at. rewrite Ht. destruct (Hnet q t Hql Ht) as [b Hb].
    rewrite filter_cons, Hb. destruct b.
    + rewrite decide_True by (unfold supported; by rewrite Ht). done.
    + rewrite decide_False by (unfold supported; rewrite Ht, Hb; done).
      apply (IH (S k) q t); [done|done|lia].
  - rewrite drop_ge by (by apply lookup_ge_None_1). done.
Qed.
End Walk.

Lemma clientSupported_total h p s classes :
  wf_heap h → subnets h !! p = Some s → ∃ b, clientSupported h s classes = Ok b.
Proof.
  intros Hh Hs. unfold clientSupported. destruct (shared_network_ s) as [n|] eqn:E.
  - destruct (wf_heap_net h Hh p s n Hs E) as [net Hnet].
    unfold network_at. rewrite Hnet. cbn [mbind res_bind mret res_ret].
    destruct (network_clientSupported (net_class_ net) classes); by eexists.
  - by eexists.
Qed.

(** ** The heap of the witnesses: network 7 has the subnets 10 and 20, and
    subnet 30 belongs to none. *)

Definition sample_subnet_at (id : Z) (t : ptime) (n : option Z) : Subnet :=
  {| kind := Kind4; id_ := id; prefix_ := V4 (id * 256); subnet_len_ := 24;
     pools_ := []; pools_ta_ := []; pools_pd_ := [];
     last_allocated_ia_ := V4 (id * 256 + 255); last_allocated_ta_ := V4 (id * 256 + 255);
     last_allocated_pd_ := V4 (id * 256 + 255); last_allocated_time_ := <[TYPE_V4 := t]> ∅;
     shared_network_ := n; client_class_ := "";
     net_t1_ := 1000; net_t2_ := 2000; preferred_ := 0; valid_ := 4000;
     host_reservation_mode_ := HR_ALL; match_client_id_ := true |}.
Definition sample_heap : Heap :=
  {| subnets := <[10 := sample_subnet_at 1 None (Some 7)]>
       (<[20 := sample_subnet_at 2 (Some 100) (Some 7)]>
       (<[30 := sample_subnet_at 3 None None]> ∅));
     networks := <[7 := {| net_class_ := ""; subnets_ := [10; 20] |}]> ∅ |}.

Lemma sample_heap_lookup p s :
  subnets sample_heap !! p = Some s →
  (p = 10 ∧ s = sample_subnet_at 1 None (Some 7)) ∨
  (p = 20 ∧ s = sample_subnet_at 2 (Some 100) (Some 7)) ∨
  (p = 30 ∧ s = sample_subnet_at 3 None None).
Proof.
  cbn [subnets sample_heap]. rewrite !lookup_insert_Some. intros. naive_solver.
Qed.

Lemma sample_heap_wf : wf_heap sample_heap.
Proof.
  assert (∀ n net, networks sample_heap !! n = Some net →
    n = 7 ∧ net = {| net_class_ := ""; subnets_ := [10; 20] |}) as Hnet.
  { intros n net. cbn [networks sample_heap]. rewrite lookup_insert_Some. naive_solver. }
  split.
  - intros n net [-> ->]%Hnet. apply (bool_decide_unpack _). vm_compute. exact I.
  - intros n net p [-> ->]%Hnet. cbn [subnets_]. rewrite !elem_of_cons, elem_of_nil. split.
    + intros [->|[->|[]]]; eexists; split; reflexivity.
    + intros (s & Hs%sample_heap_lookup & Hn). naive_solver.
  - intros p s n Hs%sample_heap_lookup Hn.
    assert (n = 7) as -> by naive_solver. by eexists.
Qed.

Lemma getNextSubnet_classes_Ok (h : Heap) (n : Z) (net : SharedNetwork)
    (f k fuel : nat) (first_subnet self : Z) (classes : ClientClasses)
    (Hh : wf_heap h) (Hn : networks h !! n = Some net)
    (Hfirst : subnets_ net !! f = Some first_subnet)
    (Hself : rotate f (subnets_ net) !! k = Some self)
    (Hfuel : (length (subnets_ net) < fuel)%nat) :
  getNextSubnet_classes fuel h self first_subnet classes =
    Some (Ok (head (filter (supported h classes) (drop (S k) (rotate f (subnets_ net)))))).
Proof.
  assert (self ∈ subnets_ net) as Hin
    by (rewrite <- (elem_of_rotate _ f); by eapply list_elem_of_lookup_2).
  apply (wf_heap_back h Hh n net self Hn) in Hin as (s & Hs & Hsn).
  unfold getNextSubnet_classes, subnet_at, network_at. rewrite Hs, Hsn, Hn.
  eapply next_loop_spec; eauto using wf_heap_ids.
  - apply Forall_forall. intros p Hp.
    apply (wf_heap_back h Hh n net p Hn) in Hp as (? & ? & _). by eexists.
  - intros p s' _ Hs'. by eapply clientSupported_total.
  - lia.
Qed.

(** the walk over a shared network ends, and goes over the subnets that
    the client may use in the order of the network, starting after the current
    one and stopping before the first one; with as much fuel as there are
    subnets, plus one, it returns the next of these, or none. *)
Theorem getNextSubnet_classes_spec (h : Heap) (n : Z) (net : SharedNetwork)
    (f k fuel : nat) (first_subnet self : Z) (classes : ClientClasses)
    (Hh : wf_heap h) (Hn : networks h !! n = Some net)
    (Hfirst : subnets_ net !! f = Some first_subnet)
    (Hself : rotate f (subnets_ net) !! k = Some self)
    (Hfuel : (length (subnets_ net) < fuel)%nat) :
  getNextSubnet_classes fuel h self first_subnet classes =
    Some (Ok (head (filter (supported h classes) (drop (S k) (rotate f (subnets_ net)))))).
Proof. by apply (getNextSubnet_classes_Ok h n net f k). Qed.

Lemma getNextSubnet_classes_spec_witness :
  wf_heap sample_heap ∧
  getNextSubnet_classes 3 sample_heap 20 20 [] = Some (Ok (Some 10)).
Proof.
  split; [exact sample_heap_wf|].
  rewrite (getNextSubnet_classes_spec sample_heap 7
    {| net_class_ := ""; subnets_ := [10; 20] |} 1 0 3 20 20 [] sample_heap_wf);
    [vm_compute; reflexivity|reflexivity|reflexivity|reflexivity|simpl; lia].
Defined.

(** ** The preferred subnet *)

Definition more_recent (h : Heap) (selected : Subnet) (t : LeaseType) (p : Z) : Prop :=
  match subnets h !! p with
  | Some s => client_class_ s = client_class_ selected ∧
              ptime_gt (getLastAllocatedTime s t) (getLastAllocatedTime selected t) = true
  | None => False
  end.
#[export] Instance more_recent_dec h s t p : Decision (more_recent h s t p).
Proof. unfold more_recent. destruct (subnets h !! p); apply _. Defined.

Lemma preferred_loop_spec h l s t pref :
  Forall (λ p, is_Some (subnets h !! p)) l →
  preferred_loop h l s t pref =
    Ok (default pref (last (filter (more_recent h s t) l))).
Proof.
  intros Hl. revert pref. induction Hl as [|p l [x Hx] Hl IH]; intros pref; [done|].
  cbn [preferred_loop]. unfold subnet_at. rewrite Hx. cbn [mbind res_bind].
  rewrite IH, filter_cons.
  destruct (bool_decide (client_class_ x = client_class_ s)
            && ptime_gt (getLastAllocatedTime x t) (getLastAllocatedTime s t)) eqn:E.
  - apply andb_true_iff in E as [E1%bool_decide_eq_true E2].
    rewrite decide_True by (unfold more_recent; rewrite Hx; done).
    rewrite last_cons. by destruct (last _).
  - rewrite decide_False; [done|]. unfold more_recent. rewrite Hx.
    intros [E1 E2]. by rewrite bool_decide_eq_true_2, E2 in E.
Qed.

(** [getPreferredSubnet] returns a subnet of the same client class in which
    an address was handed out after the last one handed out in the selected
    subnet, or the selected subnet when there is none; among several it is the
    last one of the network, whatever the times. *)
Theorem getPreferredSubnet_spec (h : Heap) (l : list Z) (selected : Z) (s : Subnet)
    (t : LeaseType) (Hl : Forall (λ p, is_Some (subnets h !! p)) l)
    (Hs : subnets h !! selected = Some s) :
  getPreferredSubnet h l selected t =
    Ok (default selected (last (filter (more_recent h s t) l))).
Proof.
  unfold getPreferredSubnet, subnet_at. rewrite Hs. by apply preferred_loop_spec.
Qed.

Lemma getPreferredSubnet_spec_witness :
  getPreferredSubnet sample_heap [10; 20] 10 TYPE_V4 = Ok 20.
Proof.
  rewrite (getPreferredSubnet_spec sample_heap [10; 20] 10
    (sample_subnet_at 1 None (Some 7)) TYPE_V4);
    [vm_compute; reflexivity| |reflexivity].
  repeat constructor; by eexists.
Defined.

(** ** Adding and removing subnets keeps the invariant *)

Lemma ids_insert h p s s' l :
  subnets h !! p = Some s → id_ s' = id_ s → ids (set_subnet p s' h) l = ids h l.
Proof.
  intros Hs Hid. unfold ids. apply list_fmap_ext. intros i q Hq. cbn [subnets set_subnet].
  destruct (decide (p = q)) as [->|].
  - by rewrite lookup_insert_eq, Hs; simpl; rewrite Hid.
  - by rewrite lookup_insert_ne.
Qed.

(** adding a subnet to a network fails without any change on a null
    pointer, a duplicate identifier or a subnet that already belongs to a network;
    otherwise the subnet is the last one of the network, points to it, and the
    identifiers of the network stay unique. *)
Theorem network_add_spec (h : Heap) (n p : Z) (net : SharedNetwork) (s : Subnet)
    (Hh : wf_heap h) (Hn : networks h !! n = Some net) (Hp : subnets h !! p = Some s) :
  match network_add n (Some p) h with
  | (h', Ok _) =>
      wf_heap h' ∧ (Some (id_ s) ∉ ids h (subnets_ net)) ∧ shared_network_ s = None ∧
      (subnets_ <$> (networks h' !! n)) = Some (subnets_ net ++ [p])
  | (h', Throw e) =>
      h' = h ∧ ((e = DuplicateSubnetID ∧ Some (id_ s) ∈ ids h (subnets_ net)) ∨
                (e = InvalidOperation ∧ shared_network_ s ≠ None))
  end.
Proof.
  unfold network_add, get, mbind, ST_bind, lift, network_at, subnet_at.
  rewrite Hn, Hp. unfold getSubnet.
  destruct (index_find h (subnets_ net) (id_ s)) as [[i q]|] eqn:E; cbn.
  { split; [done|]. left. split; [done|].
    apply dec_stable. rewrite <- index_find_None. congruence. }
  apply index_find_None in E.
  destruct (shared_network_ s) as [m|] eqn:Em; cbn; [by auto|].
  split_and!; [|done|done|by rewrite lookup_insert_eq].
  set (h' := set_subnet _ _ _).
  assert (∀ l, ids h' l = ids h l) as Hids.
  { intros l. subst h'. by rewrite (ids_insert _ p s). }
  assert (p ∉ subnets_ net) as Hpn.
  { intros (? & ? & ?)%(wf_heap_back h Hh n net p Hn). congruence. }
  split.
  - intros m net' Hm. rewrite Hids. subst h'. cbn in Hm.
    destruct (decide (n = m)) as [->|]; simplify_map_eq.
    + unfold ids in *. rewrite fmap_app. apply NoDup_app. split_and!.
      * by apply (wf_heap_ids h Hh m).
      * intros x Hx ->%list_elem_of_singleton. by rewrite Hp in Hx.
      * apply NoDup_singleton.
    + by apply (wf_heap_ids h Hh m).
  - intros m net' q Hm. subst h'. cbn in *.
    destruct (decide (n = m)) as [->|]; simplify_map_eq; cbn.
    + rewrite elem_of_app, list_elem_of_singleton, (wf_heap_back h Hh m net q Hn).
      destruct (decide (p = q)) as [->|]; simplify_map_eq.
      * split; [intros _; by eexists|by right].
      * split; [intros [?|?]; [done|congruence]|by left].
    + rewrite (wf_heap_back h Hh m net' q Hm).
      destruct (decide (p = q)) as [->|]; simplify_map_eq; [|done].
      split; intros (x & ? & ?); simplify_eq/=; congruence.
  - intros q x m Hq Hx. subst h'. cbn in *.
    destruct (decide (n = m)) as [->|]; simplify_map_eq; [by eexists|].
    destruct (decide (p = q)) as [->|]; simplify_map_eq.
    by eapply (wf_heap_net h Hh q).
Qed.

Lemma network_add_spec_witness :
  wf_heap sample_heap ∧
  ∃ h', network_add 7 (Some 30) sample_heap = (h', Ok tt) ∧ wf_heap h' ∧
    subnets_ <$> (networks h' !! 7) = Some [10; 20; 30].
Proof.
  split; [exact sample_heap_wf|].
  assert (∃ h', network_add 7 (Some 30) sample_heap = (h', Ok tt)) as [h' E]
    by (vm_compute; by eexists).
  exists h'. split; [exact E|].
  pose proof (network_add_spec sample_heap 7 30 _ _ sample_heap_wf eq_refl eq_refl) as H.
  rewrite E in H. destruct H as (H1 & _ & _ & H2). split; [exact H1|exact H2].
Defined.

Lemma ids_delete h l i : ids h (delete i l) = delete i (ids h l).
Proof.
  unfold ids. revert i. induction l as [|x l IH]; intros [|i]; cbn; try done. f_equal. apply IH.
Qed.

Lemma NoDup_delete {A} (l : list A) i : NoDup l → NoDup (delete i l).
Proof. intros H. eapply sublist_NoDup; [done|]. apply sublist_delete. Qed.

Lemma elem_of_delete_NoDup {A} (l : list A) i x y :
  NoDup l → l !! i = Some x → y ∈ delete i l ↔ y ∈ l ∧ y ≠ x.
Proof.
  intros Hnd Hi. pose proof (delete_Permutation l i x Hi) as Hp.
  rewrite Hp in Hnd. apply NoDup_cons in Hnd as [Hx Hnd].
  assert (y ∈ l ↔ y = x ∨ y ∈ delete i l) as -> by (rewrite Hp at 1; apply elem_of_cons). split; [intros H; split; [by right|by intros ->]|].
  intros [[->|H] ?]; done.
Qed.

Lemma NoDup_ids h l : NoDup (ids h l) → NoDup l.
Proof. apply NoDup_fmap_1. Qed.

(** removing a subnet by its identifier unlinks exactly that subnet, in
    both directions, and reports an unknown identifier without any change. *)
Theorem network_del_spec (h : Heap) (n subnet_id : Z) (net : SharedNetwork)
    (Hh : wf_heap h) (Hn : networks h !! n = Some net) :
  match network_del n subnet_id h with
  | (h', Ok _) =>
      wf_heap h' ∧ Some subnet_id ∈ ids h (subnets_ net) ∧
      (∀ p, p ∉ from_option subnets_ [] (networks h' !! n) ↔
            p ∉ subnets_ net ∨ (id_ <$> (subnets h !! p)) = Some subnet_id)
  | (h', Throw e) => h' = h ∧ e = BadValue ∧ Some subnet_id ∉ ids h (subnets_ net)
  end.
Proof.
  unfold network_del, get, mbind, ST_bind, lift, network_at, subnet_at.
  rewrite Hn. destruct (index_find h (subnets_ net) subnet_id) as [[i p]|] eqn:E.
  2: { apply index_find_None in E. done. }
  assert (Some subnet_id ∈ ids h (subnets_ net)) as Hin.
  { apply dec_stable. rewrite <- index_find_None. congruence. }
  apply list_find_Some in E as (Hi & Hid & _). unfold has_id in Hid.
  destruct (subnets h !! p) as [s|] eqn:Hp; [|done]. injection Hid as Hid. cbn.
  pose proof (wf_heap_ids h Hh n net Hn) as Hnd.
  pose proof (λ q, elem_of_delete_NoDup (subnets_ net) i p q (NoDup_ids _ _ Hnd) Hi) as Hdel.
  assert (p ∈ subnets_ net) as Hpin by (by eapply list_elem_of_lookup_2).
  assert (∀ q s', q ∈ subnets_ net → subnets h !! q = Some s' → id_ s' = subnet_id → q = p)
    as Huniq.
  { intros q s' [j Hj]%list_elem_of_lookup Hq Hs'.
    assert (j = i) as ->; [|congruence].
    eapply (NoDup_lookup (ids h (subnets_ net))); [done|by eapply ids_lookup|].
    rewrite Hs', <- Hid. by eapply ids_lookup. }
  split_and!; [|done|].
  - split.
    + intros m net' Hm. rewrite (ids_insert _ p s) by done. cbn in Hm.
      destruct (decide (n = m)) as [->|]; simplify_map_eq; cbn.
      * unfold ids at 1. cbn. fold (ids h (delete i (subnets_ net))).
        rewrite ids_delete. by apply NoDup_delete.
      * by apply (wf_heap_ids h Hh m).
    + intros m net' q Hm. cbn in *.
      destruct (decide (n = m)) as [->|]; simplify_map_eq; cbn.
      * rewrite Hdel, (wf_heap_back h Hh m net q Hn).
        destruct (decide (p = q)) as [->|]; simplify_map_eq.
        -- split; [by intros []|]. intros (? & ? & ?). by simplify_eq/=.
        -- split; [by intros []|by split].
      * rewrite (wf_heap_back h Hh m net' q Hm).
        apply (wf_heap_back h Hh n net p Hn) in Hpin as (s2 & ? & ?). 
        destruct (decide (p = q)) as [->|]; simplify_map_eq; [|done].
        split; intros (x & ? & ?); simplify_eq/=; congruence.
    + intros q x m Hq Hx. cbn in *.
      destruct (decide (n = m)) as [->|]; simplify_map_eq; [by eexists|].
      destruct (decide (p = q)) as [->|]; simplify_map_eq.
      by eapply (wf_heap_net h Hh q).
  - intros q. rewrite lookup_insert_eq. cbn. rewrite Hdel.
    destruct (subnets h !! q) as [s'|] eqn:Hq; cbn.
    + destruct (decide (q ∈ subnets_ net)) as [Hqin|]; [|tauto].
      destruct (decide (id_ s' = subnet_id)) as [Ei|Ei].
      * pose proof (Huniq q s' Hqin Hq Ei). split; [by right; f_equal|]. tauto.
      * split; [|intros [?|[= ?]]; done]. intros H. destruct H. split; [done|].
        intros ->. congruence.
    + destruct (decide (q ∈ subnets_ net)) as [Hqin|]; [|tauto].
      apply (wf_heap_back h Hh n net q Hn) in Hqin as (? & ? & ?). congruence.
Qed.

Lemma network_del_spec_witness :
  wf_heap sample_heap ∧
  ∃ h', network_del 7 1 sample_heap = (h', Ok tt) ∧ wf_heap h'.
Proof.
  split; [exact sample_heap_wf|].
  assert (∃ h', network_del 7 1 sample_heap = (h', Ok tt)) as [h' E]
    by (vm_compute; by eexists).
  exists h'. split; [exact E|].
  pose proof (network_del_spec sample_heap 7 1 _ sample_heap_wf eq_refl) as H.
  rewrite E in H. apply H.
Defined.
