(* ===== verification/IterativeAllocator.v ===== *)
(** * The iterative allocator ([AllocEngine::IterativeAllocator] in
      [src/lib/dhcpsrv/alloc_engine.cc])

    The allocator walks through the pools of a subnet one address (or one
    delegated prefix) at a time.  It keeps its position in the pools, which are
    updated in place: [pickAddress] is a computation over the subnet. *)

From S2P Require Import Prelude Algorithms IoAddress AddrUtilities PdExclude Pool Subnet.
Local Open Scope Z_scope.

(** The loop that carries an overflow to the byte before position [i]. *)
Fixpoint carry_loop (n : nat) (packed : list Z) : list Z :=
  match n with
  | O => packed
  | S i =>
      let packed := <[i := u8 (at_ packed (Z.of_nat i) + 1)]> packed in
      if negb (at_ packed (Z.of_nat i) =? 0) then packed else carry_loop i packed
  end.

Definition increasePrefix (prefix : IOAddress) (prefix_len : Z) : res IOAddress :=
  _ ← throw_if (negb (isV6 prefix)) BadValue;
  let packed := toBytes prefix in
  _ ← throw_if ((prefix_len <? 1) || (128 <? prefix_len)) BadValue;
  let n_bytes := (prefix_len - 1) `div` 8 in
  let n_bits := 8 - (prefix_len - n_bytes * 8) in
  let mask := u8 (Z.shiftl 1 n_bits) in
  if at_ packed n_bytes + mask <? 256 then
    fromBytes AF_INET6
      (<[Z.to_nat n_bytes := u8 (at_ packed n_bytes + mask)]> packed)
  else
    let packed := <[Z.to_nat n_bytes := u8 (at_ packed n_bytes + mask)]> packed in
    fromBytes AF_INET6 (carry_loop (Z.to_nat n_bytes) packed).

Definition increaseAddress (address : IOAddress) (prefix : bool) (prefix_len : Z) :
    res IOAddress :=
  if negb prefix then increase address else increasePrefix address prefix_len.

Section PickAddress.
Context (pool_type_ : LeaseType) (client_classes : ClientClasses) (now : Z).

Definition usable (p : Pool) : Prop := pool_clientSupported p client_classes = true.

#[export] Instance usable_dec p : Decision (usable p).
Proof. unfold usable. apply _. Defined.

(** [it->f()], an update of the pool at a position. *)
Definition update_pool (it : nat) (f : Pool → Pool) : ST Subnet unit :=
  s ← get;
  pools ← lift (getPools s pool_type_);
  modify (λ s, put_pools s pool_type_ (alter f it pools)).

Definition subnet_setLast (addr : IOAddress) : ST Subnet unit :=
  s ← get;
  s' ← lift (setLastAllocated now pool_type_ addr s);
  put s'.

(** [for (; it != pools.end(); ++it) if (supported) break;] *)
Definition skip_unusable (pools : list Pool) (it : nat) : nat :=
  match list_find usable (drop it pools) with
  | Some (i, _) => it + i
  | None => length pools
  end.

(** The length of the prefixes a pool hands out; the cast to [Pool6] can fail. *)
Definition delegated_length (p : Pool) : ST Subnet Z :=
  if bool_decide (pool_type_ = TYPE_PD) then
    match pool6 p with
    | None => throw Unexpected
    | Some _ => mret (getLength p)
    end
  else mret 0.

(** The loop [for (;;)]: the address picked, or [None] when the last pool is
    passed.  The position advances in every turn, so [fuel] is one more than
    the number of pools. *)
Fixpoint pick_loop (fuel : nat) (it : nat) (retrying : bool) : ST Subnet (option IOAddress) :=
  match fuel with
  | O => throw AssertionFailure
  | S fuel' =>
      s ← get;
      pools ← lift (getPools s pool_type_);
      let it := if retrying then skip_unusable pools it else it in
      if retrying && (it =? length pools)%nat then mret None
      else
        p ← lift (deref pools it);
        let last := last_allocated_ p in
        let valid := last_allocated_valid_ p in
        if negb valid && equals last (first_ p) then
          _ ← update_pool it (pool_setLastAllocated last);
          _ ← subnet_setLast last;
          mret (Some last)
        else
          let bogus := valid && negb (pool_inRange p last) in
          _ ← (if bogus then
                 update_pool it (pool_setLastAllocated (first_ p) ∘ pool_resetLastAllocated)
               else mret tt);
          let valid := valid && negb bogus in
          if valid then
            prefix_len ← delegated_length p;
            next ← lift (increaseAddress last (bool_decide (pool_type_ = TYPE_PD)) prefix_len);
            if pool_inRange p next then
              _ ← update_pool it (pool_setLastAllocated next);
              _ ← subnet_setLast next;
              mret (Some next)
            else
              _ ← update_pool it pool_resetLastAllocated;
              pick_loop fuel' (S it) true
          else pick_loop fuel' (S it) true
  end.

Definition rewind_pool (p : Pool) : Pool :=
  if pool_clientSupported p client_classes
  then pool_resetLastAllocated (pool_setLastAllocated (first_ p) p) else p.

(** The rewind: the pools the client may use start over. *)
Definition rewind (first : nat) : ST Subnet IOAddress :=
  s ← get;
  pools ← lift (getPools s pool_type_);
  _ ← modify (λ s, put_pools s pool_type_
         (take first pools ++ (rewind_pool <$> drop first pools)));
  s ← get;
  pools ← lift (getPools s pool_type_);
  p ← lift (deref pools first);
  let last := last_allocated_ p in
  _ ← update_pool first (pool_setLastAllocated last);
  _ ← subnet_setLast last;
  mret last.

(** The pool the last address belongs to, or the first one. *)
Definition start (first : nat) (last : IOAddress) (pools : list Pool) : nat :=
  match list_find (λ p, usable p ∧ pool_inRange p last = true) pools with
  | Some (i, _) => i
  | None => first
  end.

Definition pickAddress : ST Subnet IOAddress :=
  s ← get;
  last ← lift (getLastAllocated s pool_type_);
  pools ← lift (getPools s pool_type_);
  if (length pools =? 0)%nat then throw AllocFailed
  else
    match list_find usable pools with
    | None => throw AllocFailed
    | Some (first, _) =>
        let it := start first last pools in
        picked ← pick_loop (S (length pools)) it false;
        match picked with
        | Some addr => mret addr
        | None => rewind first
        end
    end.
End PickAddress.

(** ** Stepping to the next prefix *)

Lemma at_middle a x c : at_ (a ++ x :: c) (Z.of_nat (length a)) = x.
Proof. unfold at_. rewrite Nat2Z.id. by rewrite list_lookup_middle. Qed.

Lemma insert_middle {A} (a c : list A) x y : <[length a := y]> (a ++ x :: c) = a ++ y :: c.
Proof. by rewrite insert_app_r_alt, Nat.sub_diag. Qed.

Lemma carry_loop_spec a b :
  Forall is_byte a →
  ∃ a', carry_loop (length a) (a ++ b) = a' ++ b ∧ length a' = length a ∧
    Forall is_byte a' ∧ be_combine a' = (be_combine a + 1) `mod` 256 ^ Z.of_nat (length a).
Proof.
  revert b. induction a as [|x a IH] using rev_ind; intros b Ha.
  { exists []. by rewrite Z.mod_1_r. }
  apply Forall_app in Ha as [Ha Hx]. inversion Hx as [|?? Hx' _]; subst.
  unfold is_byte in Hx'. pose proof (be_combine_bound a Ha).
  rewrite length_app, Nat.add_comm, be_combine_app. cbn [length Nat.add carry_loop be_combine].
  rewrite <- app_assoc. cbn [app]. rewrite at_middle, insert_middle, at_middle, pow256_succ.
  change (256 ^ Z.of_nat 1) with 256. change (256 ^ Z.of_nat 0) with 1.
  rewrite Z.mul_1_r, Z.add_0_r. pose proof (pow256_pos (length a)).
  destruct (decide (x = 255)) as [->|Hne].
  - change (u8 (255 + 1)) with 0. cbn [Z.eqb negb].
    destruct (IH (0 :: b) Ha) as (a' & E & Hl & Hb & Hc). exists (a' ++ [0]).
    rewrite E, <- app_assoc. split_and!; [done|rewrite length_app; simpl; lia| |].
    + apply Forall_app. split; [done|]. apply Forall_singleton. unfold is_byte. lia.
    + rewrite be_combine_app. cbn [be_combine length]. rewrite Hc.
      change (256 ^ Z.of_nat 1) with 256. rewrite Z.mul_0_l, !Z.add_0_r.
      rewrite <- Z.mul_mod_distr_r, (pow256_succ (length a)) by lia. f_equal; ring.
  - assert (u8 (x + 1) = x + 1) as Hu by (unfold u8; apply Z.mod_small; lia).
    rewrite Hu, (proj2 (Z.eqb_neq _ _)) by lia. cbn [negb]. exists (a ++ [x + 1]).
    rewrite <- app_assoc. split_and!; [done|rewrite length_app; simpl; lia| |].
    + apply Forall_app. split; [done|]. apply Forall_singleton. unfold is_byte. lia.
    + rewrite be_combine_app. cbn [be_combine length].
      change (256 ^ Z.of_nat 1) with 256. change (256 ^ Z.of_nat 0) with 1.
      rewrite (pow256_succ (length a)), Z.mod_small by lia. lia.
Qed.

Lemma increasePrefix_Ok x len :
  wf_addr (V6 x) → 1 ≤ len ≤ 128 →
  increasePrefix (V6 x) len = Ok (V6 ((x + 2 ^ (128 - len)) `mod` 2 ^ 128)).
Proof.
  intros Hx Hlen. unfold increasePrefix. cbn [isV6 negb throw_if mbind res_bind].
  rewrite (proj2 (Z.ltb_ge len 1)), (proj2 (Z.ltb_ge 128 len)) by lia.
  cbn [orb throw_if mbind res_bind].
  set (q := (len - 1) `div` 8). set (nb := 8 - (len - q * 8)).
  pose proof (Z.div_mod (len - 1) 8) as Hdm. pose proof (Z.mod_pos_bound (len - 1) 8) as Hmb.
  fold q in Hdm. assert (0 ≤ q ≤ 15 ∧ 0 ≤ nb ≤ 7) as [Hq Hnb] by lia.
  set (l := toBytes (V6 x)). assert (length l = 16%nat) as Hl by apply length_toBytes.
  pose proof (toBytes_bytes (V6 x)) as Hb. fold l in Hb.
  assert (be_combine l = x) as Hv by (by apply be_combine_toBytes).
  clearbody l. clear Hx.
  destruct (lookup_lt_is_Some_2 l (Z.to_nat q)) as [y Hy]; [lia|].
  pose proof (take_drop_middle _ _ _ Hy) as El.
  set (a := take (Z.to_nat q) l) in *. set (c := drop (S (Z.to_nat q)) l) in *.
  assert (length a = Z.to_nat q) as Hla by (subst a; rewrite length_take; lia).
  assert (length c = 15 - Z.to_nat q)%nat as Hlc by (subst c; rewrite length_drop; lia).
  clearbody a c. subst l. apply Forall_app in Hb as [Hba Hbyc].
  apply Forall_cons in Hbyc as [Hby Hbc].
  assert (u8 (Z.shiftl 1 nb) = 2 ^ nb) as ->.
  { unfold u8. rewrite Z.shiftl_1_l. apply Z.mod_small.
    pose proof (Z.pow_le_mono_r 2 nb 7). pose proof (Z.pow_pos_nonneg 2 nb). lia. }
  assert (0 < 2 ^ nb ≤ 128) as Hm.
  { pose proof (Z.pow_le_mono_r 2 nb 7). pose proof (Z.pow_pos_nonneg 2 nb). lia. }
  replace q with (Z.of_nat (length a)) by lia. rewrite Nat2Z.id, at_middle, insert_middle.
  assert (2 ^ (128 - len) = 2 ^ nb * 256 ^ Z.of_nat (length c)) as ->.
  { rewrite pow256_pow2, <- Z.pow_add_r by lia. f_equal. lia. }
  assert (2 ^ 128 = 256 ^ Z.of_nat (length a) * (256 * 256 ^ Z.of_nat (length c))) as Hw.
  { rewrite <- pow256_succ, <- Z.pow_add_r by lia.
    replace (Z.of_nat (length a) + Z.of_nat (S (length c))) with 16 by lia. done. }
  rewrite be_combine_app in Hv. cbn [be_combine length] in Hv. rewrite pow256_succ in Hv.
  pose proof (be_combine_bound a Hba) as HA. pose proof (be_combine_bound c Hbc) as HC.
  unfold is_byte in Hby. set (P := 256 ^ Z.of_nat (length a)) in *.
  set (Q := 256 ^ Z.of_nat (length c)) in *. assert (0 < Q) by apply pow256_pos.
  assert (0 < P) by apply pow256_pos.
  assert (∀ a' z, length a' = length a →
    fromBytes AF_INET6 (a' ++ z :: c) = Ok (V6 (be_combine a' * (256 * Q) + z * Q + be_combine c)))
    as Hres.
  { intros a' z Hl'. rewrite (fromBytes_Ok (V6 0)).
    - rewrite be_combine_app. cbn [be_combine length with_value]. rewrite pow256_succ.
      do 2 f_equal. fold Q. lia.
    - rewrite length_app, length_toBytes. simpl. lia. }
  destruct (Z.ltb_spec (y + 2 ^ nb) 256) as [Hlt|Hge].
  - rewrite Hres by done. do 2 f_equal. unfold u8. rewrite (Z.mod_small (y + _)) by lia.
    rewrite Z.mod_small; [lia|]. rewrite Hw. nia.
  - destruct (carry_loop_spec a (u8 (y + 2 ^ nb) :: c) Hba) as (a' & -> & Hl' & Hb' & Hc').
    rewrite Hres by done. do 2 f_equal. rewrite Hc'. fold P.
    assert (u8 (y + 2 ^ nb) = y + 2 ^ nb - 256) as ->.
    { unfold u8. symmetry. apply (Z.mod_unique _ _ 1); lia. }
    pose proof (Z.div_mod (be_combine a + 1) P). pose proof (Z.mod_pos_bound (be_combine a + 1) P).
    apply (Z.mod_unique _ _ ((be_combine a + 1) `div` P)); [left; rewrite Hw; nia|].
    rewrite Hw, <- Hv. nia.
Qed.

(** [increasePrefix] adds one at the last bit of the prefix, carrying
    into the bytes before, modulo the address space; it throws [BadValue] on an
    IPv4 address and on a length outside 1 - 128. *)
Theorem increasePrefix_spec (a : IOAddress) (len : Z) (Ha : wf_addr a) :
  increasePrefix a len =
    if isV6 a && (1 <=? len) && (len <=? 128)
    then Ok (V6 ((value a + 2 ^ (128 - len)) `mod` 2 ^ 128)) else Throw BadValue.
Proof.
  destruct a as [x|x]; [done|]. cbn [isV6 andb].
  destruct (Z.leb_spec 1 len), (Z.leb_spec len 128); cbn [andb];
    try (by apply increasePrefix_Ok; [done|lia]);
    unfold increasePrefix; cbn [isV6 negb throw_if mbind res_bind];
    first [rewrite (proj2 (Z.ltb_lt len 1)) by lia|rewrite (proj2 (Z.ltb_lt 128 len)) by lia];
    rewrite ?orb_true_r; done.
Qed.

Lemma increasePrefix_spec_witness :
  wf_addr (V6 (0x20010db8 * 2 ^ 96)) ∧
  increasePrefix (V6 (0x20010db8 * 2 ^ 96)) 56 = Ok (V6 (0x20010db8 * 2 ^ 96 + 2 ^ 72)).
Proof.
  assert (wf_addr (V6 (0x20010db8 * 2 ^ 96))) as H by (split; [done|reflexivity]).
  split; [exact H|]. rewrite (increasePrefix_spec (V6 (0x20010db8 * 2 ^ 96)) 56 H).
  vm_compute. reflexivity.
Defined.

(** ** The address after another one in a pool *)

(** The distance between two candidates of a pool. *)
Definition step (p : Pool) : Z :=
  if bool_decide (type_ p = TYPE_PD) then 2 ^ (128 - getLength p) else 1.

(** What the allocator needs of a pool beyond its invariant: prefixes to hand
    out are not longer than an address, and the pool is not the whole address
    space (whose last address is followed by its first one). *)
Definition pool_ok (t : LeaseType) (p : Pool) : Prop :=
  wf_pool p ∧ type_ p = t ∧ (t = TYPE_PD → getLength p ≤ 128) ∧
  (0 < value (first_ p) ∨ value (last_ p) < 2 ^ width (first_ p) - 1).

Lemma width_family a b : getFamily a = getFamily b → width a = width b ∧ isV4 a = isV4 b.
Proof. by destruct a, b. Qed.

Lemma step_pos t p : pool_ok t p → 0 < step p.
Proof.
  intros (Hw & Ht & Hlen & _). unfold step. case_bool_decide; [|lia].
  apply Z.pow_pos_nonneg; [lia|]. rewrite Ht in *. specialize (Hlen ltac:(done)). lia.
Qed.

(** The call that steps to the next candidate never throws. *)
Lemma increaseAddress_Ok t p a :
  pool_ok t p → pool_inRange p a = true →
  increaseAddress a (bool_decide (t = TYPE_PD))
    (if bool_decide (t = TYPE_PD) then getLength p else 0) =
  Ok (with_value a ((value a + step p) `mod` 2 ^ width a)).
Proof.
  intros (Hw & <- & Hlen & _) Hin. destruct (pool_inRange_family p a Hw Hin) as [Hfam Hwf].
  unfold increaseAddress, step. case_bool_decide as Ht; cbn [negb].
  - pose proof (wf_pool_type p Hw) as Hty. pose proof (wf_pool_part p Hw) as Hpart.
    rewrite Ht in Hty, Hpart. destruct (width_family _ _ Hfam) as [_ Hv].
    rewrite Hty in Hv. destruct a as [x|x]; [done|].
    apply increasePrefix_Ok; [done|]. destruct Hpart as (? & ? & ? & _).
    specialize (Hlen Ht). lia.
  - by apply increase_Ok.
Qed.

(** A step that stays in the pool does not wrap around. *)
Lemma step_no_wrap t p a :
  pool_ok t p → pool_inRange p a = true →
  pool_inRange p (with_value a ((value a + step p) `mod` 2 ^ width a)) = true ↔
  value a + step p ≤ value (last_ p).
Proof.
  intros Hok Hin. pose proof (step_pos t p Hok) as Hs. destruct Hok as (Hw & Ht & Hlen & Hspace).
  destruct (pool_inRange_family p a Hw Hin) as [Hfam Hwf].
  pose proof (wf_pool_first p Hw) as Hf. pose proof (wf_pool_last p Hw) as Hl.
  pose proof (wf_pool_family p Hw) as Hfl. pose proof (wf_pool_ordered p Hw) as Hord.
  apply pool_inRange_spec in Hin. rewrite pool_inRange_spec.
  destruct (width_family _ _ Hfam) as [Hwa _]. destruct (width_family _ _ Hfl) as [Hwl _].
  unfold wf_addr in *.
  assert (∀ z, getFamily (with_value a z) = getFamily a) as Hfz by (by destruct a).
  rewrite !addr_le_lia, !Hfz, value_with_value, Hfam, <- Hfl in *.
  rewrite <- Hwl in *. rewrite Hwa in *. set (w := width (first_ p)) in *.
  assert (step p ≤ value (first_ p) ∨ value (last_ p) + step p < 2 ^ w ∨
          (step p = 1 ∧ value (last_ p) = 2 ^ w - 1)) as Hcase.
  { unfold step in *. case_bool_decide as Hpd; [|destruct (decide (value (last_ p) = 2 ^ w - 1)); lia].
    pose proof (wf_pool_type p Hw) as Hty. pose proof (wf_pool_part p Hw) as Hpart.
    rewrite Hpd in Hpart, Hty. assert (w = 128) as -> by (subst w; by destruct (first_ p)).
    destruct Hpart as (plen & Hpl & Hpl' & Hdiv).
    assert (2 ^ (128 - getLength p) ≤ 2 ^ (128 - plen)) as Hle
      by (apply Z.pow_le_mono_r; lia).
    assert (2 ^ 128 = 2 ^ plen * 2 ^ (128 - plen)) as Hprod
      by (rewrite <- Z.pow_add_r by lia; f_equal; lia).
    assert (2 ≤ 2 ^ plen) by (pose proof (Z.pow_le_mono_r 2 1 plen); lia).
    set (M := 2 ^ (128 - plen)) in *. set (B := 2 ^ plen) in *.
    assert (0 < M) by (apply Z.pow_pos_nonneg; lia).
    pose proof (Z.div_mod (value (first_ p)) M). pose proof (Z.mod_pos_bound (value (first_ p)) M).
    pose proof (Z.div_mod (value (last_ p)) M). pose proof (Z.mod_pos_bound (value (last_ p)) M).
    rewrite Hdiv in *. set (d := value (first_ p) `div` M) in *.
    destruct (decide (d = 0)) as [->|]; [right; left; nia|left].
    assert (1 ≤ d) by nia. nia. }
  destruct (decide (value a + step p < 2 ^ w)) as [Hlt|Hge].
  - rewrite Z.mod_small by lia. lia.
  - assert (value a + step p - 2 ^ w = (value a + step p) `mod` 2 ^ w) as <-;
      [|split; [|lia]; intros [[?|[_ ?]] _]; lia].
    apply (Z.mod_unique _ _ 1); [|lia]. destruct Hcase as [?|[?|[? ?]]]; lia.
Qed.

(** ** What the allocator may change *)

(** Only the position of a pool changes, and it stays in the pool. *)
Definition pool_sim (p q : Pool) : Prop :=
  ∃ a v, q = with_last_allocated p a v ∧ pool_inRange p a = true.

Lemma pool_sim_refl p : wf_pool p → pool_sim p p.
Proof.
  intros Hw. exists (last_allocated_ p), (last_allocated_valid_ p).
  split; [by destruct p|apply Hw].
Qed.

Lemma pool_sim_trans p q r : pool_sim p q → pool_sim q r → pool_sim p r.
Proof. intros (a & v & -> & _) (b & w & -> & ?). by exists b, w. Qed.

Lemma pool_sim_wf p q : pool_sim p q → wf_pool p → wf_pool q.
Proof. intros (a & v & -> & Ha) []. by split. Qed.

Lemma pool_sim_ok t p q : pool_sim p q → pool_ok t p → pool_ok t q.
Proof.
  intros Hs (Hw & Ht & Hlen & Hsp). pose proof (pool_sim_wf p q Hs Hw).
  destruct Hs as (a & v & -> & Ha). by split_and!.
Qed.

Lemma pool_first_inRange p : wf_pool p → pool_inRange p (first_ p) = true.
Proof. intros Hw. apply pool_inRange_spec. split; [reflexivity|apply Hw]. Qed.

Lemma pools_sim_refl l : Forall wf_pool l → Forall2 pool_sim l l.
Proof. intros H. apply Forall_Forall2_diag. eapply Forall_impl; eauto using pool_sim_refl. Qed.

Lemma pools_sim_alter l f i :
  Forall wf_pool l → (∀ p, l !! i = Some p → pool_sim p (f p)) → Forall2 pool_sim l (alter f i l).
Proof.
  intros Hl. revert i. induction Hl as [|p l Hp Hl IH]; intros i Hf; [done|].
  destruct i as [|i]; cbn.
  - constructor; [by apply Hf|by apply pools_sim_refl].
  - constructor; [by apply pool_sim_refl|]. by apply IH.
Qed.

Section Allocator.
Context (t : LeaseType) (classes : ClientClasses) (now : Z).

(** The effect of [setLastAllocated] on the subnet. *)
Definition put_last (a : IOAddress) (s : Subnet) : Subnet :=
  let m := <[t := Some now]> (last_allocated_time_ s) in
  match t with
  | TYPE_V4 | TYPE_NA => with_last s a (last_allocated_ta_ s) (last_allocated_pd_ s) m
  | TYPE_TA => with_last s (last_allocated_ia_ s) a (last_allocated_pd_ s) m
  | TYPE_PD => with_last s (last_allocated_ia_ s) (last_allocated_ta_ s) a m
  end.

(** Two states of a subnet before and after the allocator ran. *)
Definition subnet_sim (s s' : Subnet) : Prop :=
  ∃ l ia ta pd m, s' = with_last (put_pools s t l) ia ta pd m ∧
                  Forall2 pool_sim (pools_of s t) l.

Lemma pools_of_put s l : pools_of (put_pools s t l) t = l.
Proof. by destruct t. Qed.
Lemma pools_of_put_last a s : pools_of (put_last a s) t = pools_of s t.
Proof. unfold put_last. by destruct t. Qed.
Lemma allowed_put s l t' : allowed (put_pools s t l) t' ↔ allowed s t'.
Proof. unfold allowed. by destruct t. Qed.
Lemma allowed_put_last a s t' : allowed (put_last a s) t' ↔ allowed s t'.
Proof. unfold allowed, put_last. by destruct t. Qed.
Lemma getLastAllocated_put_last a s : allowed s t → getLastAllocated (put_last a s) t = Ok a.
Proof.
  intros Ha. unfold getLastAllocated. rewrite checkType_Ok by (by apply allowed_put_last).
  unfold put_last. by destruct t.
Qed.

Lemma subnet_sim_refl s : Forall wf_pool (pools_of s t) → subnet_sim s s.
Proof.
  intros Hl. exists (pools_of s t), (last_allocated_ia_ s), (last_allocated_ta_ s),
    (last_allocated_pd_ s), (last_allocated_time_ s).
  split; [|by apply pools_sim_refl]. destruct s, t; done.
Qed.

Lemma subnet_sim_put s s' l :
  subnet_sim s s' → Forall2 pool_sim (pools_of s' t) l → subnet_sim s (put_pools s' t l).
Proof.
  intros (l' & ia & ta & pd & m & -> & Hl') Hl. exists l, ia, ta, pd, m.
  split; [by destruct t|].
  assert (pools_of (with_last (put_pools s t l') ia ta pd m) t = l') as E by (by destruct t).
  rewrite E in Hl. clear E. revert l Hl.
  induction Hl'; intros l2 Hl; inversion Hl; subst; constructor; eauto using pool_sim_trans.
Qed.

Lemma subnet_sim_put_last s s' a : subnet_sim s s' → subnet_sim s (put_last a s').
Proof.
  intros (l' & ia & ta & pd & m & -> & Hl'). unfold put_last, subnet_sim.
  destruct t; eexists l', _, _, _, _; (split; [|done]); reflexivity.
Qed.

Lemma subnet_sim_pools s s' : subnet_sim s s' → Forall2 pool_sim (pools_of s t) (pools_of s' t).
Proof. intros (l & ia & ta & pd & m & -> & H). by destruct t. Qed.

Lemma subnet_sim_allowed s s' t' : subnet_sim s s' → allowed s' t' ↔ allowed s t'.
Proof. intros (l & ia & ta & pd & m & -> & H). unfold allowed. by destruct t. Qed.

(** The invariant of the subnet does not depend on the positions. *)
Lemma subnet_sim_wf s s' : allowed s t → subnet_sim s s' → wf_subnet s → wf_subnet s'.
Proof.
  intros Ha (l & ia & ta & pd & m & -> & Hl) Hs.
  assert (∀ p, p ∈ l → ∃ q, q ∈ pools_of s t ∧ pool_sim q p) as Hback.
  { intros p [i Hi]%list_elem_of_lookup.
    destruct (Forall2_lookup_r _ _ _ _ _ Hl Hi) as (q & Hq & ?).
    exists q. eauto using list_elem_of_lookup_2. }
  assert (wf_subnet (put_pools s t l)) as H'; [|destruct H'; by split].
  eapply setPools_wf; [done|done| | |].
  - unfold setPools. by rewrite checkType_Ok.
  - destruct (wf_subnet_pools s Hs t Ha) as [Hw Hsrt]. split.
    + eapply Forall2_Forall_r; [done|]. eapply Forall_impl; [done|].
      intros p Hp q Hpq. by eapply pool_sim_wf.
    + clear Hback Hw. revert l Hl. induction Hsrt as [|p l' Hs' IH Hp];
        intros l2 Hl; inversion Hl as [|? q ? l3 Hpq Hl3]; subst; constructor; [by apply IH|].
      eapply Forall2_Forall_r; [done|]. eapply Forall_impl; [done|].
      intros x Hx y (? & ? & -> & _). destruct Hpq as (? & ? & -> & _). exact Hx.
  - intros p Hp. destruct (Hback p Hp) as (q & Hq & (a & v & -> & _)).
    split_and!; [by apply (wf_subnet_types s Hs t q)| |].
    + intros. by apply (wf_subnet_inside s Hs t q).
    + intros t' r Ht' Hne Hr. by apply (wf_subnet_disjoint s Hs t t' q r).
Qed.

Lemma update_pool_Ok it f s :
  allowed s t →
  update_pool t it f s = (put_pools s t (alter f it (pools_of s t)), Ok tt).
Proof.
  intros Ha. unfold update_pool, get, mbind, ST_bind, lift, modify.
  by rewrite getPools_Ok.
Qed.

Lemma subnet_setLast_Ok a s : allowed s t → subnet_setLast t now a s = (put_last a s, Ok tt).
Proof.
  intros Ha. unfold subnet_setLast, get, mbind, ST_bind, lift, put, setLastAllocated.
  rewrite checkType_Ok by done. cbn [mbind res_bind mret res_ret]. done.
Qed.

(** The candidate that follows the current position of a pool. *)
Definition next_of (p : Pool) : IOAddress :=
  with_value (last_allocated_ p)
    ((value (last_allocated_ p) + step p) `mod` 2 ^ width (last_allocated_ p)).

Lemma delegated_length_Ok p s :
  pool_ok t p →
  delegated_length t p s = (s, Ok (if bool_decide (t = TYPE_PD) then getLength p else 0)).
Proof.
  intros (Hw & Htp & _). unfold delegated_length. case_bool_decide as Ht; [|done].
  pose proof (wf_pool_part p Hw) as Hpart. rewrite Htp, Ht in Hpart.
  unfold getLength in *. destruct (pool6 p); [done|].
  destruct Hpart as (? & ? & ? & _). simpl in *. lia.
Qed.

(** One turn of the loop at a pool. *)
Lemma pick_loop_turn fuel it s p :
  allowed s t → pools_of s t !! it = Some p → pool_ok t p →
  pick_loop t classes now (S fuel) it false s =
    if negb (last_allocated_valid_ p) && equals (last_allocated_ p) (first_ p) then
      (put_last (last_allocated_ p) (put_pools s t
         (alter (pool_setLastAllocated (last_allocated_ p)) it (pools_of s t))),
       Ok (Some (last_allocated_ p)))
    else if last_allocated_valid_ p then
      if pool_inRange p (next_of p) then
        (put_last (next_of p) (put_pools s t
           (alter (pool_setLastAllocated (next_of p)) it (pools_of s t))),
         Ok (Some (next_of p)))
      else pick_loop t classes now fuel (S it) true
             (put_pools s t (alter pool_resetLastAllocated it (pools_of s t)))
    else pick_loop t classes now fuel (S it) true s.
Proof.
  intros Ha Hp Hok. cbn [pick_loop]. unfold mbind at 1, ST_bind at 1, get.
  unfold mbind at 1, ST_bind at 1, lift. rewrite getPools_Ok by done. cbn [andb].
  unfold mbind at 1, ST_bind at 1. rewrite (deref_Ok _ _ _ Hp).
  assert (pool_inRange p (last_allocated_ p) = true) as Hcur by (apply Hok).
  rewrite Hcur. cbn [negb]. rewrite andb_false_r.
  destruct (negb (last_allocated_valid_ p) && equals (last_allocated_ p) (first_ p)) eqn:E.
  { unfold mbind, ST_bind. rewrite update_pool_Ok by done. rewrite subnet_setLast_Ok;
      [done|by apply allowed_put]. }
  unfold mbind at 1, ST_bind at 1, mret, ST_ret. cbn [negb]. rewrite andb_true_r.
  destruct (last_allocated_valid_ p) eqn:Ev; [|done].
  pose proof (increaseAddress_Ok t p _ Hok Hcur) as Hinc. fold (next_of p) in Hinc.
  unfold mbind at 1, ST_bind at 1. rewrite delegated_length_Ok by done.
  unfold mbind at 1, ST_bind at 1, lift. rewrite Hinc.
  destruct (pool_inRange p (next_of p)); unfold mbind, ST_bind; rewrite update_pool_Ok by done.
  - rewrite subnet_setLast_Ok; [done|by apply allowed_put].
  - done.
Qed.

(** Between two pools the loop skips those the client may not use. *)
Lemma pick_loop_retry fuel it s :
  allowed s t →
  pick_loop t classes now (S fuel) it true s =
    if (skip_unusable classes (pools_of s t) it =? length (pools_of s t))%nat
    then (s, Ok None)
    else pick_loop t classes now (S fuel) (skip_unusable classes (pools_of s t) it) false s.
Proof.
  intros Ha. cbn [pick_loop]. unfold mbind at 1, ST_bind at 1, get.
  unfold mbind at 1, ST_bind at 1, lift. rewrite getPools_Ok by done. cbn [andb].
  destruct (Nat.eqb_spec (skip_unusable classes (pools_of s t) it) (length (pools_of s t)));
    [done|].
  symmetry. unfold mbind at 1, ST_bind at 1, get.
  unfold mbind at 1, ST_bind at 1, lift. rewrite getPools_Ok by done. done.
Qed.

Lemma skip_unusable_spec pools it :
  let i := skip_unusable classes pools it in
  (it ≤ length pools)%nat →
  (i = length pools ∧ ∀ j p, pools !! j = Some p → (it ≤ j)%nat → ¬ usable classes p) ∨
  (∃ p, pools !! i = Some p ∧ usable classes p ∧ (it ≤ i < length pools)%nat ∧
    ∀ j q, pools !! j = Some q → (it ≤ j < i)%nat → ¬ usable classes q).
Proof.
  intros i Hit. subst i. unfold skip_unusable.
  destruct (list_find (usable classes) (drop it pools)) as [[i p]|] eqn:E.
  - right. apply list_find_Some in E as (Hi & Hu & Hbef). rewrite lookup_drop in Hi.
    exists p. split_and!; [done|done|lia|by eapply lookup_lt_Some|].
    intros j q Hj Hlt. apply (Hbef (j - it)%nat); [|lia].
    rewrite lookup_drop. by replace (it + (j - it))%nat with j by lia.
  - left. split; [done|]. apply list_find_None in E.
    intros j p Hj Hle. assert (drop it pools !! (j - it)%nat = Some p) as Hj'.
    { rewrite lookup_drop. by replace (it + (j - it))%nat with j by lia. }
    exact (Forall_lookup_1 _ _ _ _ E Hj').
Qed.

(** ** Safety: what is picked belongs to a pool the client may use *)

Definition picked (s' : Subnet) (a : IOAddress) : Prop :=
  getLastAllocated s' t = Ok a ∧
  ∃ p, p ∈ pools_of s' t ∧ usable classes p ∧ pool_inRange p a = true.

Section Safety.
Context (s0 : Subnet).
Hypothesis (Ha : allowed s0 t) (Hok : Forall (pool_ok t) (pools_of s0 t)).

(** The outcome of the loop from a state reached from [s0]. *)
Definition safe (r : Subnet * res (option IOAddress)) : Prop :=
  ∃ s' o, r = (s', Ok o) ∧ subnet_sim s0 s' ∧ ∀ a, o = Some a → picked s' a.

Lemma sim_ok s : subnet_sim s0 s → Forall (pool_ok t) (pools_of s t).
Proof using Hok.
  intros Hs%subnet_sim_pools. eapply Forall2_Forall_r; [done|].
  eapply Forall_impl; [done|]. intros p Hp q Hpq. by eapply pool_sim_ok.
Qed.

Lemma sim_wf s : subnet_sim s0 s → Forall wf_pool (pools_of s t).
Proof using Hok. intros H%sim_ok. eapply Forall_impl; [done|]. by intros ? []. Qed.

Lemma pick_at_safe s it p a :
  subnet_sim s0 s → pools_of s t !! it = Some p → usable classes p →
  pool_inRange p a = true →
  safe (put_last a (put_pools s t
          (alter (pool_setLastAllocated a) it (pools_of s t))), Ok (Some a)).
Proof using Ha Hok.
  intros Hsim Hp Hu Hin. eexists _, _. split; [done|]. split.
  - apply subnet_sim_put_last, subnet_sim_put; [done|].
    apply pools_sim_alter; [by apply sim_wf|]. intros q Hq. simplify_eq.
    by exists a, true.
  - intros b [= <-]. split.
    + apply getLastAllocated_put_last, allowed_put. by apply (subnet_sim_allowed s0 s).
    + rewrite pools_of_put_last, pools_of_put. exists (pool_setLastAllocated a p).
      split; [|done]. apply (list_elem_of_lookup_2 _ it).
      by rewrite list_lookup_alter_eq, Hp.
Qed.

Lemma turn_safe fuel it s p :
  subnet_sim s0 s → pools_of s t !! it = Some p → usable classes p →
  (∀ s', subnet_sim s0 s' → length (pools_of s' t) = length (pools_of s t) →
    safe (pick_loop t classes now fuel (S it) true s')) →
  safe (pick_loop t classes now (S fuel) it false s).
Proof using Ha Hok.
  intros Hsim Hp Hu Hcont.
  pose proof (Forall_lookup_1 _ _ _ _ (sim_ok s Hsim) Hp) as Hpok.
  assert (allowed s t) as Has by (by apply (subnet_sim_allowed s0 s)).
  rewrite (pick_loop_turn _ _ _ p) by done.
  assert (pool_inRange p (last_allocated_ p) = true) by (apply Hpok).
  destruct (negb _ && _); [by apply (pick_at_safe _ _ p)|].
  destruct (last_allocated_valid_ p); [|by apply Hcont].
  destruct (pool_inRange p (next_of p)) eqn:E; [by apply (pick_at_safe _ _ p)|].
  apply Hcont.
  - apply subnet_sim_put; [done|]. apply pools_sim_alter; [by apply sim_wf|].
    intros q Hq. simplify_eq. by exists (last_allocated_ p), false.
  - rewrite pools_of_put. apply length_alter.
Qed.

Lemma pick_loop_safe fuel it s :
  subnet_sim s0 s → (it ≤ length (pools_of s t))%nat →
  (length (pools_of s t) < it + fuel)%nat →
  safe (pick_loop t classes now fuel it true s).
Proof using Ha Hok.
  revert it s. induction fuel as [|fuel IH]; intros it s Hsim Hit Hfuel; [lia|].
  rewrite pick_loop_retry by (by apply (subnet_sim_allowed s0 s)).
  destruct (skip_unusable_spec (pools_of s t) it Hit) as [[E _]|(p & Hp & Hu & Hi & _)].
  - rewrite E, Nat.eqb_refl. by exists s, None.
  - rewrite (proj2 (Nat.eqb_neq _ _)) by lia.
    eapply turn_safe; [done..|]. intros s' Hs' Hl. apply IH; [done|lia|lia].
Qed.
End Safety.

(** ** The whole of [pickAddress] *)

Lemma pickAddress_eq s last :
  allowed s t → getLastAllocated s t = Ok last →
  pickAddress t classes now s =
    match list_find (usable classes) (pools_of s t) with
    | None => (s, Throw AllocFailed)
    | Some (first, _) =>
        match pick_loop t classes now (S (length (pools_of s t)))
                (start classes first last (pools_of s t)) false s with
        | (s', Ok (Some a)) => (s', Ok a)
        | (s', Ok None) => rewind t classes now first s'
        | (s', Throw e) => (s', Throw e)
        end
    end.
Proof.
  intros Ha Hlast. unfold pickAddress. unfold mbind at 1, ST_bind at 1, get.
  unfold mbind at 1, ST_bind at 1, lift. rewrite Hlast.
  unfold mbind at 1, ST_bind at 1. rewrite getPools_Ok by done.
  destruct (Nat.eqb_spec (length (pools_of s t)) 0) as [E|_].
  { apply nil_length_inv in E as E'. by rewrite E'. }
  destruct (list_find (usable classes) (pools_of s t)) as [[first p]|]; [|done].
  unfold mbind at 1, ST_bind at 1.
  destruct (pick_loop _ _ _ _ _ _ _) as [s' [[a|]|e]]; done.
Qed.

(** The pools after the rewind, with the first one in use again. *)
Definition rewound (first : nat) (p : Pool) (pools : list Pool) : list Pool :=
  alter (pool_setLastAllocated (first_ p)) first
    (take first pools ++ (rewind_pool classes <$> drop first pools)).

Lemma rewind_Ok first s p :
  allowed s t → pools_of s t !! first = Some p → usable classes p →
  rewind t classes now first s =
    (put_last (first_ p) (put_pools s t (rewound first p (pools_of s t))), Ok (first_ p)).
Proof.
  intros Ha Hp Hu. unfold rewind. unfold mbind at 1, ST_bind at 1, get.
  unfold mbind at 1, ST_bind at 1, lift. rewrite getPools_Ok by done.
  unfold mbind at 1, ST_bind at 1, modify.
  unfold mbind at 1, ST_bind at 1.
  unfold mbind at 1, ST_bind at 1. rewrite getPools_Ok by (by apply allowed_put).
  rewrite pools_of_put. unfold mbind at 1, ST_bind at 1.
  assert ((take first (pools_of s t) ++ (rewind_pool classes <$> drop first (pools_of s t)))
            !! first = Some (rewind_pool classes p)) as Hl.
  { assert (length (take first (pools_of s t)) = first) as Hlt.
    { rewrite length_take. apply lookup_lt_Some in Hp. lia. }
    rewrite lookup_app_r, Hlt, Nat.sub_diag, list_lookup_fmap, lookup_drop by lia.
    by rewrite Nat.add_0_r, Hp. }
  rewrite (deref_Ok _ _ _ Hl).
  assert (last_allocated_ (rewind_pool classes p) = first_ p) as ->
    by (unfold rewind_pool; by rewrite Hu).
  unfold mbind, ST_bind. rewrite update_pool_Ok by (by apply allowed_put).
  rewrite subnet_setLast_Ok by (by rewrite !allowed_put).
  rewrite pools_of_put. unfold rewound.
  do 2 f_equal. by destruct t.
Qed.

Lemma start_spec first last pools p0 :
  list_find (usable classes) pools = Some (first, p0) →
  ∃ p, pools !! start classes first last pools = Some p ∧ usable classes p.
Proof.
  intros (Hf & Hu & _)%list_find_Some. unfold start.
  destruct (list_find _ pools) as [[i p]|] eqn:E; [|by exists p0].
  apply list_find_Some in E as (Hi & [Hu' _] & _). by exists p.
Qed.
End Allocator.

Lemma rewound_sim classes first p pools :
  Forall wf_pool pools → pools !! first = Some p →
  Forall2 pool_sim pools (rewound classes first p pools).
Proof.
  intros Hw Hp. unfold rewound.
  set (l := take first pools ++ (rewind_pool classes <$> drop first pools)).
  assert (Forall2 pool_sim pools l) as Hl.
  { subst l. rewrite <- (take_drop first pools) at 1. apply Forall2_app.
    - apply pools_sim_refl. by apply Forall_take.
    - apply Forall2_fmap_r, Forall_Forall2_diag. eapply Forall_impl; [by apply Forall_drop|].
      intros q Hq. unfold compose, rewind_pool. destruct (pool_clientSupported q classes).
      + exists (first_ q), false. split; [done|]. by apply pool_first_inRange.
      + by apply pool_sim_refl. }
  assert (Forall wf_pool l) as Hwl.
  { eapply Forall2_Forall_r; [done|]. eapply Forall_impl; [done|].
    intros q Hq r Hqr. by eapply pool_sim_wf. }
  assert (Forall2 pool_sim l (alter (pool_setLastAllocated (first_ p)) first l)) as Hl2.
  { apply pools_sim_alter; [done|]. intros q Hq.
    destruct (Forall2_lookup_r _ _ _ _ _ Hl Hq) as (p' & Hp' & (a & v & -> & _)).
    rewrite Hp in Hp'. injection Hp' as <-. exists (first_ p), true.
    split; [done|]. apply (pool_first_inRange p). exact (Forall_lookup_1 _ _ _ _ Hw Hp). }
  eapply Forall2_trans; [|done..]. apply pool_sim_trans.
Qed.

Lemma pickAddress_ok (t : LeaseType) (classes : ClientClasses) (now : Z) (s : Subnet)
    (Hs : wf_subnet s) (Ha : allowed s t) (Hok : Forall (pool_ok t) (pools_of s t)) :
  match pickAddress t classes now s with
  | (s', Ok a) => wf_subnet s' ∧ subnet_sim t s s' ∧ picked t classes s' a
  | (s', Throw e) => s' = s ∧ e = AllocFailed ∧ Forall (λ p, ¬ usable classes p) (pools_of s t)
  end.
Proof.
  assert (∃ last, getLastAllocated s t = Ok last) as [last Hlast].
  { unfold getLastAllocated. rewrite checkType_Ok by done. by eexists. }
  rewrite (pickAddress_eq t classes now s last) by done.
  destruct (list_find (usable classes) (pools_of s t)) as [[first p]|] eqn:E.
  2: { by apply list_find_None in E. }
  destruct (start_spec classes first last _ p E) as (q & Hq & Hu).
  assert (Forall wf_pool (pools_of s t)) as Hw
    by (eapply Forall_impl; [done|]; by intros ? []).
  pose proof (subnet_sim_refl t s Hw) as Hrefl.
  destruct (turn_safe t classes now s Ha Hok (length (pools_of s t)) _ s q Hrefl Hq Hu)
    as (s' & o & -> & Hsim & Hpick).
  { intros s' Hs' Hl. apply pick_loop_safe; auto; rewrite Hl;
      apply lookup_lt_Some in Hq; lia. }
  destruct o as [a|].
  { split_and!; [by eapply subnet_sim_wf|done|by apply Hpick]. }
  apply list_find_Some in E as (Hf & Huf & _).
  destruct (Forall2_lookup_l _ _ _ _ _ (subnet_sim_pools t s s' Hsim) Hf) as (p' & Hp' & Hpp).
  assert (allowed s' t) as Ha' by (by apply (subnet_sim_allowed t s s')).
  assert (Forall wf_pool (pools_of s' t)) as Hw' by (by eapply (sim_wf t s)).
  assert (first_ p' = first_ p ∧ usable classes p') as [Hfst Hup]
    by (destruct Hpp as (? & ? & -> & _); done).
  rewrite (rewind_Ok t classes now first s' p') by done.
  set (l := rewound _ _ _ _). assert (Forall2 pool_sim (pools_of s' t) l) as Hl
    by (by apply rewound_sim).
  assert (subnet_sim t s (put_last t now (first_ p') (put_pools s' t l))) as Hsim'
    by (by apply subnet_sim_put_last, subnet_sim_put).
  split_and!; [exact (subnet_sim_wf t s _ Ha Hsim' Hs)|done|]. split.
  { by apply getLastAllocated_put_last, allowed_put. }
  rewrite pools_of_put_last, pools_of_put.
  destruct (Forall2_lookup_l _ _ _ _ _ Hl Hp') as (p'' & Hp'' & Hpp').
  exists p''. split; [by eapply list_elem_of_lookup_2|].
  destruct Hpp' as (? & ? & -> & _). split; [done|].
  apply (pool_first_inRange p'). exact (Forall_lookup_1 _ _ _ _ Hw' Hp').
Qed.

(** on a subnet whose pools satisfy the invariant, [pickAddress] always
    returns: an address of a pool the client may use, recorded as the last one
    of the subnet, with nothing but the positions of the pools changed, or
    [AllocFailed] without any change when no pool admits the client. *)
Theorem pickAddress_safe (t : LeaseType) (classes : ClientClasses) (now : Z) (s : Subnet)
    (Hs : wf_subnet s) (Ha : allowed s t) (Hok : Forall (pool_ok t) (pools_of s t)) :
  match pickAddress t classes now s with
  | (s', Ok a) => wf_subnet s' ∧ subnet_sim t s s' ∧ picked t classes s' a
  | (s', Throw e) => s' = s ∧ e = AllocFailed ∧ Forall (λ p, ¬ usable classes p) (pools_of s t)
  end.
Proof. by apply pickAddress_ok. Qed.


(** ** Fairness: the allocator is a cyclic iterator over the candidates *)

(** The candidates of a pool, one [step] apart, from its first address. *)
Definition cand (p : Pool) (k : Z) : IOAddress :=
  with_value (first_ p) (value (first_ p) + k * step p).
Definition size (p : Pool) : Z := (value (last_ p) - value (first_ p)) `div` step p + 1.

(** All the candidates of the pools the client may use, in order. *)
Definition cands (classes : ClientClasses) (l : list Pool) : list IOAddress :=
  p ← filter (usable classes) l; cand p <$> seqZ 0 (size p).

Lemma cand_0 p : cand p 0 = first_ p.
Proof. unfold cand. rewrite Z.mul_0_l, Z.add_0_r. by destruct (first_ p). Qed.

Lemma size_pos t p : pool_ok t p → 0 < size p.
Proof.
  intros Hok. pose proof (step_pos t p Hok). destruct Hok as (Hw & _). unfold size.
  pose proof (wf_pool_ordered p Hw). pose proof (wf_pool_family p Hw).
  assert (0 ≤ (value (last_ p) - value (first_ p)) `div` step p); [|lia].
  apply Z.div_pos; [|lia]. addr_lia.
Qed.

Lemma cand_inRange t p k : pool_ok t p → 0 ≤ k < size p → pool_inRange p (cand p k) = true.
Proof.
  intros Hok Hk. pose proof (step_pos t p Hok) as Hs. destruct Hok as (Hw & _).
  pose proof (wf_pool_family p Hw) as Hf.
  assert (getFamily (cand p k) = getFamily (first_ p) ∧
          value (cand p k) = value (first_ p) + k * step p) as [Hg Hv].
  { unfold cand. rewrite value_with_value. by destruct (first_ p). }
  apply pool_inRange_spec. rewrite !addr_le_lia, Hg, Hv, <- Hf.
  unfold size in Hk. pose proof (Z.mul_div_le (value (last_ p) - value (first_ p)) (step p) Hs).
  split; right; (split; [done|]); nia.
Qed.

(** Stepping from a candidate: to the next one, or out of the pool. *)
Lemma next_of_cand t p k :
  pool_ok t p → 0 ≤ k < size p → last_allocated_ p = cand p k →
  pool_inRange p (next_of p) = bool_decide (k + 1 < size p) ∧
  (k + 1 < size p → next_of p = cand p (k + 1)).
Proof.
  intros Hok Hk E. pose proof (cand_inRange t p k Hok Hk) as Hin.
  pose proof (step_no_wrap t p (cand p k) Hok Hin) as Hwrap.
  pose proof (step_pos t p Hok) as Hs.
  assert (value (cand p k) = value (first_ p) + k * step p) as Hv
    by (unfold cand; by rewrite value_with_value).
  assert (value (cand p k) + step p ≤ value (last_ p) ↔ k + 1 < size p) as Hsz.
  { rewrite Hv. unfold size. split.
    - intros H. assert (k + 1 ≤ (value (last_ p) - value (first_ p)) `div` step p); [|lia].
      apply Z.div_le_lower_bound; nia.
    - intros H. pose proof (Z.mul_div_le (value (last_ p) - value (first_ p)) (step p) Hs). nia. }
  unfold next_of. rewrite E. split.
  - apply eq_bool_prop_intro. rewrite bool_decide_spec, Is_true_true. tauto.
  - intros H%Hsz. unfold cand in *. rewrite value_with_value, width_with_value in *.
    destruct Hok as (Hw & _). pose proof (wf_pool_last p Hw) as [_ Hl].
    pose proof (wf_pool_first p Hw) as [Hf0 _].
    destruct (width_family _ _ (wf_pool_family p Hw)) as [Hwd _]. rewrite <- Hwd in Hl.
    rewrite Z.mod_small by nia.
    replace (value (first_ p) + k * step p + step p)
      with (value (first_ p) + (k + 1) * step p) by ring.
    by destruct (first_ p).
Qed.

Lemma cands_app classes l1 l2 : cands classes (l1 ++ l2) = cands classes l1 ++ cands classes l2.
Proof. unfold cands. by rewrite filter_app, bind_app. Qed.

Lemma cands_unusable classes l : Forall (λ p, ¬ usable classes p) l → cands classes l = [].
Proof.
  intros H. unfold cands. by rewrite filter_none.
Qed.

Lemma cands_cons classes p l :
  usable classes p → cands classes (p :: l) = (cand p <$> seqZ 0 (size p)) ++ cands classes l.
Proof. intros Hu. unfold cands. by rewrite filter_cons_True. Qed.

(** The candidates do not depend on the positions. *)
Lemma cands_sim classes l l' : Forall2 pool_sim l l' → cands classes l = cands classes l'.
Proof.
  induction 1 as [|p q l l' (a & v & -> & _) Hl IH]; [done|].
  destruct (decide (usable classes p)) as [Hu|Hu].
  - rewrite cands_cons by done. rewrite cands_cons by done. rewrite IH. done.
  - unfold cands in *. rewrite !filter_cons_False by done. done.
Qed.

(** Position of candidate [k] of pool [j]. *)
Definition pos (classes : ClientClasses) (l : list Pool) (j : nat) (k : Z) : nat :=
  length (cands classes (take j l)) + Z.to_nat k.

Lemma length_seqZ_cands p : length (cand p <$> seqZ 0 (size p)) = Z.to_nat (size p).
Proof. rewrite length_fmap, length_seqZ. done. Qed.

Lemma cands_lookup classes l j p k :
  l !! j = Some p → usable classes p → 0 ≤ k < size p →
  cands classes l !! pos classes l j k = Some (cand p k).
Proof.
  intros Hj Hu Hk. unfold pos.
  assert (cands classes l = cands classes (take j l) ++ (cand p <$> seqZ 0 (size p)) ++
            cands classes (drop (S j) l)) as ->.
  { rewrite <- cands_cons, <- cands_app by done. by rewrite take_drop_middle. }
  rewrite lookup_app_r by lia. rewrite lookup_app_l by (rewrite length_seqZ_cands; lia).
  rewrite list_lookup_fmap, Nat.add_comm, Nat.add_sub, lookup_seqZ_lt by lia. simpl.
  by rewrite Z2Nat.id by lia.
Qed.

(** The end of pool [j] is the beginning of the next pool the client may use. *)
Lemma pos_next classes l j p i :
  l !! j = Some p → usable classes p → 0 ≤ size p → (j < i ≤ length l)%nat →
  (∀ m q, l !! m = Some q → (j < m < i)%nat → ¬ usable classes q) →
  length (cands classes (take i l)) = pos classes l j (size p).
Proof.
  intros Hj Hu Hsz Hi Hno. unfold pos.
  assert (take i l = take (S j) l ++ drop (S j) (take i l)) as ->.
  { rewrite <- (take_drop (S j) (take i l)) at 1. rewrite take_take.
    by rewrite Nat.min_l by lia. }
  rewrite cands_app, (cands_unusable _ (drop (S j) (take i l))), app_nil_r.
  - erewrite take_S_r by done. rewrite cands_app, length_app. f_equal.
    rewrite cands_cons, length_app, length_seqZ_cands by done. cbn. lia.
  - apply Forall_lookup. intros m q Hm. rewrite lookup_drop in Hm.
    apply lookup_take_Some in Hm as [Hm Hlt]. apply (Hno _ _ Hm). lia.
Qed.

Definition fresh (p : Pool) : Prop :=
  last_allocated_valid_ p = false ∧ last_allocated_ p = first_ p.

Section Fairness.
Context (t : LeaseType) (classes : ClientClasses).

(** The allocator stands at candidate [k] of pool [j] and has not touched the
    pools behind it. *)
Record normal (s : Subnet) (j : nat) (p : Pool) (k : Z) : Prop := {
  normal_pool : pools_of s t !! j = Some p;
  normal_usable : usable classes p;
  normal_index : 0 ≤ k < size p;
  normal_valid : last_allocated_valid_ p = true;
  normal_current : last_allocated_ p = cand p k;
  normal_last : getLastAllocated s t = Ok (cand p k);
  normal_fresh : ∀ i q, pools_of s t !! i = Some q → (j < i)%nat → usable classes q → fresh q
}.

Record fair_state (s : Subnet) : Prop := {
  fair_wf : wf_subnet s;
  fair_allowed : allowed s t;
  fair_ok : Forall (pool_ok t) (pools_of s t)
}.

Lemma fair_pool_ok s j p : fair_state s → pools_of s t !! j = Some p → pool_ok t p.
Proof. intros [_ _ Hok] Hj. exact (Forall_lookup_1 _ _ _ _ Hok Hj). Qed.

(** Only one pool of the subnet holds an address. *)
Lemma find_current s j p a :
  fair_state s → pools_of s t !! j = Some p → usable classes p → pool_inRange p a = true →
  ∀ first, start classes first a (pools_of s t) = j.
Proof.
  intros [Hs Ha _] Hj Hu Hin first. unfold start.
  rewrite (proj2 (list_find_Some _ _ j p)); [done|]. split; [done|split; [done|]].
  intros i q Hi Hlt [_ Hq]. destruct (wf_subnet_pools s Hs t Ha) as [_ Hsrt].
  pose proof (pool_before_lookup _ _ _ _ _ Hsrt Hi Hj Hlt) as Hb.
  apply pool_inRange_spec in Hin, Hq. unfold pool_before in Hb. addr_lia.
Qed.

(** Picking candidate [k] of pool [j] leaves the allocator standing there. *)
Lemma normal_after now s l j p k :
  allowed s t → l !! j = Some p → usable classes p → 0 ≤ k < size p →
  (∀ i q, l !! i = Some q → (j < i)%nat → usable classes q → fresh q) →
  normal (put_last t now (cand p k) (put_pools s t
            (alter (pool_setLastAllocated (cand p k)) j l)))
         j (pool_setLastAllocated (cand p k) p) k.
Proof.
  intros Ha Hj Hu Hk Hfr. split.
  - by rewrite pools_of_put_last, pools_of_put, list_lookup_alter_eq, Hj.
  - done.
  - done.
  - done.
  - done.
  - by apply getLastAllocated_put_last, allowed_put.
  - intros i q. rewrite pools_of_put_last, pools_of_put.
    intros Hi Hlt. rewrite list_lookup_alter_ne in Hi by lia. eauto.
Qed.

(** The first turn on a fresh pool hands out its first address. *)
Lemma pick_fresh now fuel s j p :
  allowed s t → pools_of s t !! j = Some p → pool_ok t p → fresh p →
  pick_loop t classes now (S fuel) j false s =
    (put_last t now (cand p 0) (put_pools s t
       (alter (pool_setLastAllocated (cand p 0)) j (pools_of s t))), Ok (Some (cand p 0))).
Proof.
  intros Ha Hj Hok [Hv Hl]. rewrite (pick_loop_turn t classes now fuel j s p) by done.
  rewrite Hv, Hl, cand_0. by rewrite (proj2 (equals_spec _ _)).
Qed.

(** After the end of pool [j]: the next pool, or none. *)
Lemma pick_after now fuel s j p :
  allowed s t → pools_of s t !! j = Some p → Forall (pool_ok t) (pools_of s t) →
  (∀ i q, pools_of s t !! i = Some q → (j < i)%nat → usable classes q → fresh q) →
  (∃ i q, pools_of s t !! i = Some q ∧ usable classes q ∧ (j < i)%nat ∧
    (∀ m r, pools_of s t !! m = Some r → (j < m < i)%nat → ¬ usable classes r) ∧
    pick_loop t classes now (S fuel) (S j) true s =
      (put_last t now (cand q 0) (put_pools s t
         (alter (pool_setLastAllocated (cand q 0)) i (pools_of s t))), Ok (Some (cand q 0)))) ∨
  ((∀ m r, pools_of s t !! m = Some r → (j < m)%nat → ¬ usable classes r) ∧
   pick_loop t classes now (S fuel) (S j) true s = (s, Ok None)).
Proof.
  intros Ha Hj Hok Hfr. rewrite pick_loop_retry by done.
  destruct (skip_unusable_spec classes (pools_of s t) (S j)) as [[E Hno]|(q & Hq & Hu & Hi & Hno)].
  { apply lookup_lt_Some in Hj. lia. }
  - right. split; [intros m r Hm ?; eapply Hno; [done|lia]|]. by rewrite E, Nat.eqb_refl.
  - left. set (i := skip_unusable _ _ _) in *. exists i, q.
    split_and!; [done|done|lia|intros m r Hm ?; eapply Hno; [done|lia]|].
    rewrite (proj2 (Nat.eqb_neq _ _)) by lia.
    apply pick_fresh; [done|done|exact (Forall_lookup_1 _ _ _ _ Hok Hq)|].
    apply (Hfr i q Hq); [lia|done].
Qed.

Lemma rewind_pool_size p : size (rewind_pool classes p) = size p.
Proof. unfold rewind_pool. by destruct (pool_clientSupported p classes). Qed.

(** The rewind starts over at the first pool the client may use. *)
Lemma normal_rewind now s f p :
  allowed s t → Forall (pool_ok t) (pools_of s t) →
  pools_of s t !! f = Some p → usable classes p →
  ∃ p', rewind t classes now f s =
          (put_last t now (first_ p) (put_pools s t (rewound classes f p (pools_of s t))),
           Ok (cand p' 0)) ∧
    normal (put_last t now (first_ p) (put_pools s t (rewound classes f p (pools_of s t))))
           f p' 0.
Proof.
  intros Ha Hok Hf Hu. exists (pool_setLastAllocated (first_ p) (rewind_pool classes p)).
  assert (first_ (rewind_pool classes p) = first_ p) as Hfst
    by (unfold rewind_pool; by rewrite Hu).
  rewrite (rewind_Ok t classes now f s p) by done. rewrite cand_0. cbn [first_ pool_setLastAllocated
    with_last_allocated]. rewrite Hfst. split; [done|].
  pose proof (Forall_lookup_1 _ _ _ _ Hok Hf) as Hpok.
  set (l := take f (pools_of s t) ++ (rewind_pool classes <$> drop f (pools_of s t))).
  assert (length (take f (pools_of s t)) = f) as Hlt.
  { rewrite length_take. apply lookup_lt_Some in Hf. lia. }
  assert (∀ i, (f ≤ i)%nat → l !! i = rewind_pool classes <$> (pools_of s t !! i)) as Hl.
  { intros i Hi. subst l. rewrite lookup_app_r, list_lookup_fmap, lookup_drop by lia.
    by replace (f + (i - length (take f (pools_of s t))))%nat with i by lia. }
  assert (l !! f = Some (rewind_pool classes p)) as Hlf by (by rewrite Hl, Hf).
  pose proof (normal_after now s l f (rewind_pool classes p) 0) as Hn.
  rewrite cand_0, Hfst in Hn. apply Hn; [done|done| | |].
  - unfold rewind_pool. by rewrite Hu.
  - rewrite rewind_pool_size. pose proof (size_pos t p Hpok). lia.
  - intros i q Hi Hlt' Huq. rewrite Hl in Hi by lia. apply fmap_Some in Hi as (q0 & _ & ->).
    assert (usable classes q0) as Hu0.
    { unfold rewind_pool in Huq. by destruct (pool_clientSupported q0 classes) eqn:E. }
    unfold rewind_pool. by rewrite Hu0.
Qed.

Lemma pos_sim l l' j k : Forall2 pool_sim l l' → pos classes l j k = pos classes l' j k.
Proof.
  intros Hl. unfold pos. by rewrite (cands_sim classes (take j l) (take j l'))
    by (by apply Forall2_take).
Qed.

Lemma pos_lt s j p k :
  pools_of s t !! j = Some p → usable classes p → 0 ≤ k < size p →
  (pos classes (pools_of s t) j k < length (cands classes (pools_of s t)))%nat.
Proof. intros. eapply lookup_lt_Some, cands_lookup; done. Qed.

(** A call starts at the pool where the allocator stands. *)
Lemma normal_pick now s j p k :
  fair_state s → normal s j p k →
  ∃ f p0, list_find (usable classes) (pools_of s t) = Some (f, p0) ∧
    pickAddress t classes now s =
      match pick_loop t classes now (S (length (pools_of s t))) j false s with
      | (s', Ok (Some a)) => (s', Ok a)
      | (s', Ok None) => rewind t classes now f s'
      | (s', Throw e) => (s', Throw e)
      end.
Proof.
  intros Hfs [Hj Hu Hk Hv Hc Hlast _]. pose proof (fair_pool_ok s j p Hfs Hj) as Hpok.
  destruct (list_find (usable classes) (pools_of s t)) as [[f p0]|] eqn:E.
  - exists f, p0. split; [done|].
    rewrite (pickAddress_eq t classes now s _ (fair_allowed s Hfs) Hlast), E.
    rewrite (find_current s j p) by (done || by apply (cand_inRange t)). done.
  - apply list_find_None in E. by destruct (Forall_lookup_1 _ _ _ _ E Hj).
Qed.

(** The state in which pool [j] was found to be used up. *)
Definition used_up (s : Subnet) (j : nat) : Subnet :=
  put_pools s t (alter pool_resetLastAllocated j (pools_of s t)).

Lemma used_up_sim s j :
  fair_state s →
  Forall2 pool_sim (pools_of s t) (pools_of (used_up s j) t) ∧ allowed (used_up s j) t ∧
  Forall (pool_ok t) (pools_of (used_up s j) t) ∧
  ∀ m, (j < m)%nat → pools_of (used_up s j) t !! m = pools_of s t !! m.
Proof.
  intros [Hs Ha Hok]. unfold used_up. rewrite pools_of_put.
  assert (Forall2 pool_sim (pools_of s t) (alter pool_resetLastAllocated j (pools_of s t))) as Hl.
  { apply pools_sim_alter; [eapply Forall_impl; [done|]; by intros ? []|].
    intros q Hq. exists (last_allocated_ q), false. split; [done|].
    pose proof (Forall_lookup_1 _ _ _ _ Hok Hq) as (Hw & _). apply Hw. }
  split_and!; [done|by apply allowed_put| |].
  - eapply Forall2_Forall_r; [done|]. eapply Forall_impl; [done|].
    intros x Hx y Hxy. by eapply pool_sim_ok.
  - intros m Hm. apply list_lookup_alter_ne. lia.
Qed.

(** The outcomes of the first turn of a call. *)
Lemma normal_turn now s j p k fuel :
  fair_state s → normal s j p k →
  pick_loop t classes now (S fuel) j false s =
    if bool_decide (k + 1 < size p) then
      (put_last t now (cand p (k + 1)) (put_pools s t
         (alter (pool_setLastAllocated (cand p (k + 1))) j (pools_of s t))),
       Ok (Some (cand p (k + 1))))
    else pick_loop t classes now fuel (S j) true (used_up s j).
Proof.
  intros Hfs [Hj Hu Hk Hv Hc _ _]. pose proof (fair_pool_ok s j p Hfs Hj) as Hpok.
  destruct (next_of_cand t p k Hpok Hk Hc) as [Hin Hnext].
  rewrite (pick_loop_turn t classes now _ j s p), Hv, Hin by (done || apply Hfs).
  cbn [negb andb]. case_bool_decide; [by rewrite Hnext|done].
Qed.

(** One call from the last candidate of a pool: the first one of the next
    pool, or of the first pool. *)
Lemma normal_step_end now s j p k :
  fair_state s → normal s j p k → k + 1 = size p →
  ∃ s' j' p' k', pickAddress t classes now s = (s', Ok (cand p' k')) ∧
    normal s' j' p' k' ∧
    pos classes (pools_of s t) j' k' =
      (pos classes (pools_of s t) j (size p) mod length (cands classes (pools_of s t)))%nat.
Proof.
  intros Hfs Hn Hend. pose proof Hn as [Hj Hu Hk Hv Hc Hlast Hfr].
  destruct (normal_pick now s j p k Hfs Hn) as (f & p0 & Hff & ->).
  rewrite (normal_turn now s j p k) by done. rewrite bool_decide_eq_false_2 by lia.
  destruct (used_up_sim s j Hfs) as (Hl1 & Ha1 & Hok1 & Hsame).
  destruct (length (pools_of s t)) as [|fuel] eqn:Elen;
    [apply lookup_lt_Some in Hj; lia|].
  destruct (pick_after now fuel (used_up s j) j (pool_resetLastAllocated p))
    as [(i & q & Hi & Hq & Hji & Hno & E)|[Hno E]]; [done| |done| |rewrite E..].
  { unfold used_up. by rewrite pools_of_put, list_lookup_alter_eq, Hj. }
  { intros i q Hi Hlt' Huq. rewrite Hsame in Hi by done. by apply (Hfr i q). }
  - pose proof Hi as Hi'. rewrite Hsame in Hi by done.
    pose proof (size_pos t q (fair_pool_ok s i q Hfs Hi)) as Hsq.
    eexists _, i, (pool_setLastAllocated (cand q 0) q), 0. split; [done|].
    split; [apply normal_after; [done|done|done|lia|]|].
    { intros m r Hm Hlt' Hur. rewrite Hsame in Hm by lia. apply (Hfr m r); [done|lia|done]. }
    rewrite <- (pos_next classes _ j p i); [|done|done|lia| |].
    + pose proof (pos_lt s i q 0 Hi Hq ltac:(lia)) as Hp. unfold pos in *.
      rewrite Nat.add_0_r, Nat.mod_small; lia.
    + apply lookup_lt_Some in Hi. lia.
    + intros m r Hm Hlt'. rewrite <- Hsame in Hm by lia. by apply (Hno m r).
  - apply list_find_Some in Hff as (Hf & Huf & Hbef).
    destruct (Forall2_lookup_l _ _ _ _ _ Hl1 Hf) as (p1 & Hp1 & Hpp).
    assert (usable classes p1) as Hup1 by (destruct Hpp as (? & ? & -> & _); done).
    destruct (normal_rewind now (used_up s j) f p1 Ha1 Hok1 Hp1 Hup1) as (p' & -> & Hn').
    eexists _, f, p', 0. split; [done|]. split; [done|].
    rewrite <- (pos_next classes _ j p (length (pools_of s t))); [|done|done|lia| |].
    + rewrite take_ge, Nat.Div0.mod_same by lia. unfold pos.
      rewrite cands_unusable; [done|]. apply Forall_lookup. intros m r Hm.
      apply lookup_take_Some in Hm as [Hm Hmf]. by apply (Hbef m r).
    + apply lookup_lt_Some in Hj. lia.
    + intros m r Hm Hlt'. rewrite <- Hsame in Hm by lia. apply (Hno m r); [done|lia].
Qed.

(** One call moves one candidate further, from the last one to the first. *)
Lemma normal_step now s j p k :
  fair_state s → normal s j p k →
  ∃ s' j' p' k', pickAddress t classes now s = (s', Ok (cand p' k')) ∧
    normal s' j' p' k' ∧ subnet_sim t s s' ∧
    pos classes (pools_of s' t) j' k' =
      ((pos classes (pools_of s t) j k + 1) mod length (cands classes (pools_of s t)))%nat.
Proof.
  intros Hfs Hn. pose proof Hfs as [Hs Ha Hok].
  pose proof (pickAddress_ok t classes now s Hs Ha Hok) as Hsafe.
  assert (∃ s' j' p' k', pickAddress t classes now s = (s', Ok (cand p' k')) ∧
    normal s' j' p' k' ∧ pos classes (pools_of s t) j' k' =
      ((pos classes (pools_of s t) j k + 1) mod length (cands classes (pools_of s t)))%nat)
    as (s' & j' & p' & k' & E & Hn' & Hpos).
  - pose proof Hn as [Hj Hu Hk _ _ _ Hfr].
    assert (pos classes (pools_of s t) j k + 1 = pos classes (pools_of s t) j (k + 1))%nat
      as -> by (unfold pos; lia).
    destruct (decide (k + 1 = size p)) as [Hend|Hlt].
    + rewrite Hend. by apply (normal_step_end now s j p k).
    + destruct (normal_pick now s j p k Hfs Hn) as (f & p0 & Hff & ->).
      rewrite (normal_turn now s j p k), bool_decide_eq_true_2 by (done || lia).
      eexists _, j, (pool_setLastAllocated (cand p (k + 1)) p), (k + 1). split; [done|].
      split; [by apply normal_after; auto; lia|].
      rewrite Nat.mod_small; [done|]. apply (pos_lt s j p); [done|done|lia].
  - rewrite E in Hsafe |- *. destruct Hsafe as (_ & Hsim & _).
    exists s', j', p', k'. split_and!; [done..|].
    rewrite <- (pos_sim (pools_of s t)); [done|]. by apply subnet_sim_pools.
Qed.

(** The results of [n] calls in a row. *)
Fixpoint pick_n (now : Z) (n : nat) (s : Subnet) : list (res IOAddress) :=
  match n with
  | O => []
  | S n' => let '(s', r) := pickAddress t classes now s in r :: pick_n now n' s'
  end.

Lemma fair_sim s s' : fair_state s → subnet_sim t s s' → fair_state s'.
Proof.
  intros [Hs Ha Hok] Hsim. split.
  - by eapply subnet_sim_wf.
  - by apply (subnet_sim_allowed t s s').
  - by eapply (sim_ok t s).
Qed.

Lemma normal_n now n s j p k m :
  fair_state s → normal s j p k → (m < n)%nat →
  pick_n now n s !! m =
    Ok <$> cands classes (pools_of s t) !!
      ((pos classes (pools_of s t) j k + 1 + m) mod length (cands classes (pools_of s t)))%nat.
Proof.
  revert s j p k m. induction n as [|n IH]; intros s j p k m Hfs Hn Hm; [lia|].
  cbn [pick_n]. destruct (normal_step now s j p k Hfs Hn)
    as (s' & j' & p' & k' & -> & Hn' & Hsim & Hpos).
  pose proof (fair_sim s s' Hfs Hsim) as Hfs'.
  assert (cands classes (pools_of s t) = cands classes (pools_of s' t)) as Hc
    by (apply cands_sim; by apply subnet_sim_pools).
  set (N := length (cands classes (pools_of s t))) in *.
  rewrite lookup_cons. destruct m as [|m].
  - rewrite Nat.add_0_r, <- Hpos, Hc.
    erewrite cands_lookup by (try apply Hn'). done.
  - rewrite (IH s' j' p' k' m Hfs' Hn') by lia. rewrite <- Hc. fold N. do 2 f_equal.
    rewrite Hpos, <- Nat.add_assoc, Nat.Div0.add_mod_idemp_l. f_equal; lia.
Qed.

Lemma length_pick_n now n s : length (pick_n now n s) = n.
Proof.
  revert s. induction n as [|n IH]; intros s; cbn [pick_n]; [done|].
  destruct (pickAddress t classes now s). cbn. by rewrite IH.
Qed.

Lemma rotate_lookup {A} (l : list A) i m :
  (m < length l)%nat → rotate i l !! m = l !! ((i + m) mod length l)%nat.
Proof.
  intros Hm. rewrite lookup_rotate_r by done. f_equal. unfold rotate_nat_add.
  rewrite <- Nat2Z.inj_add, <- Nat2Z.inj_mod. by rewrite Nat2Z.id.
Qed.
End Fairness.

(** The subnet after [n] calls. *)
Fixpoint pick_state (t : LeaseType) (classes : ClientClasses) (now : Z) (n : nat) (s : Subnet) :
    Subnet :=
  match n with
  | O => s
  | S n' => pick_state t classes now n' (pickAddress t classes now s).1
  end.

Section RoundRobin.
Context (t : LeaseType) (classes : ClientClasses) (now : Z).

(** From a candidate the calls go once around. *)
Lemma normal_round s j p k :
  fair_state t s → normal t classes s j p k →
  ∃ i, pick_n t classes now (length (cands classes (pools_of s t))) s =
         Ok <$> rotate i (cands classes (pools_of s t)).
Proof.
  intros Hfs Hn. set (l := cands classes (pools_of s t)).
  exists (pos classes (pools_of s t) j k + 1)%nat. apply list_eq. intros m.
  rewrite list_lookup_fmap. destruct (decide (m < length l)%nat) as [Hm|Hm].
  - rewrite rotate_lookup by done. by rewrite (normal_n t classes now _ s j p k m).
  - rewrite !lookup_ge_None_2; [done|rewrite length_rotate; lia|rewrite length_pick_n; lia].
Qed.

(** Every call goes from one candidate to another. *)
Lemma normal_state n : ∀ s j p k,
  fair_state t s → normal t classes s j p k →
  ∃ j' p' k', normal t classes (pick_state t classes now n s) j' p' k' ∧
    fair_state t (pick_state t classes now n s) ∧
    cands classes (pools_of (pick_state t classes now n s) t) = cands classes (pools_of s t).
Proof.
  induction n as [|n IH]; intros s j p k Hfs Hn; [by exists j, p, k|]. cbn [pick_state].
  destruct (normal_step t classes now s j p k Hfs Hn) as (s' & j' & p' & k' & -> & Hn' & Hsim & _).
  destruct (IH s' j' p' k' (fair_sim t s s' Hfs Hsim) Hn') as (j2 & p2 & k2 & H1 & H2 & H3).
  exists j2, p2, k2. split; [done|split; [done|]]. cbn [fst]. rewrite H3.
  symmetry. apply cands_sim. by apply subnet_sim_pools.
Qed.

(** The first call for a configured subnet picks the first candidate of a pool. *)
Lemma first_call s :
  fair_state t s → Exists (usable classes) (pools_of s t) →
  Forall (λ p, usable classes p → fresh p) (pools_of s t) →
  ∃ s' j p, pools_of s t !! j = Some p ∧ usable classes p ∧ 0 < size p ∧
    pickAddress t classes now s = (s', Ok (cand p 0)) ∧
    normal t classes s' j (pool_setLastAllocated (cand p 0) p) 0 ∧ subnet_sim t s s'.
Proof.
  intros Hfs Hex Hfresh. pose proof Hfs as [Hs Ha Hok].
  assert (∃ f p0, list_find (usable classes) (pools_of s t) = Some (f, p0)) as (f & p0 & Hf).
  { apply Exists_exists in Hex as (p & Hp & Hu).
    destruct (list_find_elem_of (usable classes) _ p Hp Hu) as [[f p0] ?]. by exists f, p0. }
  assert (∃ last, getLastAllocated s t = Ok last) as [last Hlast].
  { unfold getLastAllocated. rewrite checkType_Ok by done. by eexists. }
  destruct (start_spec classes f last _ p0 Hf) as (p & Hj & Hu).
  set (j := start classes f last (pools_of s t)) in *.
  pose proof (fair_pool_ok t s j p Hfs Hj) as Hpok. pose proof (size_pos t p Hpok) as Hsz.
  pose proof (pickAddress_ok t classes now s Hs Ha Hok) as Hsafe.
  assert (∀ i q, pools_of s t !! i = Some q → usable classes q → fresh q) as Hfr
    by (intros i q Hi; exact (Forall_lookup_1 _ _ _ _ Hfresh Hi)).
  pose proof (normal_after t classes now s (pools_of s t) j p 0 Ha Hj Hu ltac:(lia)
    ltac:(eauto)) as Hn.
  assert (pickAddress t classes now s = (put_last t now (cand p 0) (put_pools s t
    (alter (pool_setLastAllocated (cand p 0)) j (pools_of s t))), Ok (cand p 0))) as E.
  { rewrite (pickAddress_eq t classes now s last Ha Hlast), Hf. fold j.
    by rewrite (pick_fresh t classes now _ s j p Ha Hj Hpok) by (by eapply Hfr). }
  rewrite E in Hsafe. destruct Hsafe as (_ & Hsim & _). by eexists _, j, p.
Qed.

Lemma round_robin_fresh s :
  fair_state t s → Exists (usable classes) (pools_of s t) →
  Forall (λ p, usable classes p → fresh p) (pools_of s t) →
  ∃ i, pick_n t classes now (length (cands classes (pools_of s t))) s =
         Ok <$> rotate i (cands classes (pools_of s t)).
Proof.
  intros Hfs Hex Hfresh.
  destruct (first_call s Hfs Hex Hfresh) as (s' & j & p & Hj & Hu & Hsz & E & Hn & Hsim).
  pose proof (fair_sim t s s' Hfs Hsim) as Hfs'.
  set (l := cands classes (pools_of s t)). exists (pos classes (pools_of s t) j 0).
  pose proof (pos_lt t classes s j p 0 Hj Hu ltac:(lia)) as Hlt. fold l in Hlt.
  apply list_eq. intros m. rewrite list_lookup_fmap.
  destruct (decide (m < length l)%nat) as [Hm|Hm].
  2: { rewrite !lookup_ge_None_2; [done|rewrite length_rotate; lia|rewrite length_pick_n; lia]. }
  rewrite rotate_lookup by done. destruct (length l) as [|n] eqn:El; [lia|]. cbn [pick_n].
  rewrite E, lookup_cons. destruct m as [|m].
  - rewrite Nat.add_0_r, <- El, Nat.mod_small by lia. subst l.
    by erewrite cands_lookup by (done || lia).
  - rewrite (normal_n t classes now n s' j _ 0 m Hfs' Hn) by lia.
    rewrite <- (cands_sim classes (pools_of s t)) by (by apply subnet_sim_pools).
    fold l. rewrite El. do 2 f_equal.
    rewrite <- (pos_sim classes (pools_of s t)) by (by apply subnet_sim_pools).
    f_equal. lia.
Qed.
End RoundRobin.

(** C33: After any number of calls from the state in which a subnet is configured, rewinds
    included, as many calls as there are candidates in the pools the client may use hand out
    every one of them exactly once, in the cyclic order of the pools, and none of the calls
    fails.  The subnet is well formed and has a pool that the client may use, its pools have
    the type asked for, none is the whole address space, and delegated prefixes have at most
    128 bits ([fair_state]; the code takes longer ones and then fails,
    [long_delegated_prefix_throws]); as configured, the pools have handed out nothing
    ([fresh]). *)
Theorem pickAddress_round_robin (t : LeaseType) (classes : ClientClasses) (now : Z) (s : Subnet)
    (calls : nat) (Hfs : fair_state t s) (Hex : Exists (usable classes) (pools_of s t))
    (Hfresh : Forall (λ p, usable classes p → fresh p) (pools_of s t)) :
  ∃ i, pick_n t classes now (length (cands classes (pools_of s t)))
         (pick_state t classes now calls s) =
       Ok <$> rotate i (cands classes (pools_of s t)).
Proof.
  destruct calls as [|n]; [by apply round_robin_fresh|]. cbn [pick_state].
  destruct (first_call t classes now s Hfs Hex Hfresh) as (s' & j & p & _ & _ & _ & -> & Hn & Hsim).
  destruct (normal_state t classes now n s' _ _ _ (fair_sim t s s' Hfs Hsim) Hn)
    as (j' & p' & k' & Hn' & Hfs' & Hc).
  assert (cands classes (pools_of s t) = cands classes (pools_of s' t)) as ->
    by (apply cands_sim; by apply subnet_sim_pools).
  cbn [fst]. rewrite <- Hc. by eapply normal_round.
Qed.

Lemma sample_subnet_fair : fair_state TYPE_V4 sample_subnet.
Proof.
  split; [apply sample_subnet_wf|done|].
  repeat constructor; try (apply sample_pool_wf; lia); try done; left; simpl; lia.
Qed.

Lemma pickAddress_safe_witness :
  wf_subnet sample_subnet ∧ Forall (pool_ok TYPE_V4) (pools_of sample_subnet TYPE_V4) ∧
  ∃ s', pickAddress TYPE_V4 [] 0 sample_subnet = (s', Ok (V4 0xC000020A)) ∧
        picked TYPE_V4 [] s' (V4 0xC000020A).
Proof.
  destruct sample_subnet_fair as [Hs Ha Hok]. split; [exact Hs|split; [exact Hok|]].
  assert (∃ s', pickAddress TYPE_V4 [] 0 sample_subnet = (s', Ok (V4 0xC000020A))) as [s' E]
    by (vm_compute; by eexists).
  exists s'. split; [exact E|].
  pose proof (pickAddress_safe TYPE_V4 [] 0 sample_subnet Hs Ha Hok) as H. rewrite E in H. apply H.
Defined.

(** Five calls on four addresses: the last of them rewinds the pools. *)
Lemma pickAddress_round_robin_witness :
  fair_state TYPE_V4 sample_subnet ∧
  ∃ i, pick_n TYPE_V4 [] 0 4 (pick_state TYPE_V4 [] 0 5 sample_subnet) =
       Ok <$> rotate i (cands [] (pools_of sample_subnet TYPE_V4)).
Proof.
  split; [exact sample_subnet_fair|].
  refine (pickAddress_round_robin TYPE_V4 [] 0 sample_subnet 5 sample_subnet_fair _ _).
  - by left.
  - repeat constructor.
Defined.

(** A pool takes any length of delegated prefixes that fits in 8 bits; the second prefix of a
    length above 128 cannot be computed. *)
Theorem long_delegated_prefix_throws :
  ∃ p s s' a,
    Pool6_prefix 0 TYPE_PD (V6 (0x20010db8 * 2 ^ 96)) 48 200 = Ok p ∧
    (s ← mkSubnet Kind6 (V6 (0x20010db8 * 2 ^ 96)) 32 1000 2000 3000 4000 1; addPool s p) = Ok s ∧
    pickAddress TYPE_PD [] 0 s = (s', Ok a) ∧ (pickAddress TYPE_PD [] 0 s').2 = Throw BadValue.
Proof.
  do 4 eexists. split; [vm_compute; reflexivity|]. split; [vm_compute; reflexivity|].
  split; [vm_compute; reflexivity|vm_compute; reflexivity].
Qed.
