(* ===== verification/StatsMgr.v ===== *)
(** * Statistics ([src/lib/stats/observation.cc], [context.cc], [stats_mgr.cc])

    The statistics manager keeps named observations.  An observation has a type
    and one container of samples per type, of which only the one of its type is
    used; a sample is a value and the time it was taken.  Floating point
    observations, which none of the modelled code makes, are left out; durations
    are microseconds.  The clock is the argument [now].  Values are integers
    without bound: an overflow of the signed 64-bit values of the source is
    undefined behaviour there. *)

From Stdlib Require Import Ascii.
From stdpp Require Import pretty.
From S2P Require Import Prelude.
Local Open Scope Z_scope.

Inductive StatType := STAT_INTEGER | STAT_DURATION | STAT_STRING.

#[export] Instance StatType_eq_dec : EqDecision StatType.
Proof. solve_decision. Defined.

(** A value to record, of one of the types the methods are overloaded for. *)
Inductive stat_value :=
  | IntValue (z : Z)
  | DurationValue (z : Z)
  | StringValue (s : string).

Definition value_type (v : stat_value) : StatType :=
  match v with
  | IntValue _ => STAT_INTEGER
  | DurationValue _ => STAT_DURATION
  | StringValue _ => STAT_STRING
  end.

Record Observation := {
  obs_name_ : string;
  obs_type_ : StatType;
  integer_samples_ : list (Z * Z);
  duration_samples_ : list (Z * Z);
  string_samples_ : list (string * Z)
}.

(** [setValueInternal] on one container. *)
Definition store {A} (value : A) (now : Z) (storage : list (A * Z)) : list (A * Z) :=
  match storage with
  | [] => [(value, now)]
  | _ :: rest => (value, now) :: rest
  end.

(** [getValueInternal] on one container. *)
Definition front {A} (storage : list (A * Z)) : res (A * Z) :=
  match storage with
  | [] => Throw Unexpected
  | x :: _ => Ok x
  end.

Definition obs_setValue (now : Z) (v : stat_value) (self : Observation) : res Observation :=
  _ ← throw_if (bool_decide (obs_type_ self ≠ value_type v)) InvalidStatType;
  mret match v with
  | IntValue z =>
      {| obs_name_ := obs_name_ self; obs_type_ := obs_type_ self;
         integer_samples_ := store z now (integer_samples_ self);
         duration_samples_ := duration_samples_ self;
         string_samples_ := string_samples_ self |}
  | DurationValue z =>
      {| obs_name_ := obs_name_ self; obs_type_ := obs_type_ self;
         integer_samples_ := integer_samples_ self;
         duration_samples_ := store z now (duration_samples_ self);
         string_samples_ := string_samples_ self |}
  | StringValue s =>
      {| obs_name_ := obs_name_ self; obs_type_ := obs_type_ self;
         integer_samples_ := integer_samples_ self;
         duration_samples_ := duration_samples_ self;
         string_samples_ := store s now (string_samples_ self) |}
  end.

(** The four constructors. *)
Definition mkObservation (now : Z) (name : string) (v : stat_value) : res Observation :=
  obs_setValue now v {| obs_name_ := name; obs_type_ := value_type v;
                        integer_samples_ := []; duration_samples_ := [];
                        string_samples_ := [] |}.

Definition getInteger (self : Observation) : res (Z * Z) :=
  _ ← throw_if (bool_decide (obs_type_ self ≠ STAT_INTEGER)) InvalidStatType;
  front (integer_samples_ self).
Definition getDuration (self : Observation) : res (Z * Z) :=
  _ ← throw_if (bool_decide (obs_type_ self ≠ STAT_DURATION)) InvalidStatType;
  front (duration_samples_ self).
Definition getString (self : Observation) : res (string * Z) :=
  _ ← throw_if (bool_decide (obs_type_ self ≠ STAT_STRING)) InvalidStatType;
  front (string_samples_ self).

Definition obs_addValue (now : Z) (v : stat_value) (self : Observation) : res Observation :=
  match v with
  | IntValue z =>
      current ← getInteger self; obs_setValue now (IntValue (fst current + z)) self
  | DurationValue z =>
      current ← getDuration self; obs_setValue now (DurationValue (fst current + z)) self
  | StringValue s =>
      current ← getString self; obs_setValue now (StringValue (fst current +:+ s)) self
  end.

Definition obs_reset (now : Z) (self : Observation) : res Observation :=
  match obs_type_ self with
  | STAT_INTEGER => obs_setValue now (IntValue 0) self
  | STAT_DURATION => obs_setValue now (DurationValue 0) self
  | STAT_STRING => obs_setValue now (StringValue "") self
  end.

(** [StatContext]: the observations by name; [StatsMgr] has one of them. *)
Abbreviation StatContext := (gmap string Observation).

(** [StatsMgr::generateName]. *)
Definition generateName (context : string) (index : Z) (stat_name : string) : string :=
  context +:+ "[" +:+ pretty index +:+ "]." +:+ stat_name.

Definition context_add (obs : Observation) : ST StatContext unit :=
  c ← get;
  match (c : StatContext) !! obs_name_ obs with
  | None => modify (λ c, <[obs_name_ obs := obs]> c)
  | Some _ => throw DuplicateStat
  end.

Definition context_del (name : string) : ST StatContext bool :=
  c ← get;
  match (c : StatContext) !! name with
  | None => mret false
  | Some _ => _ ← modify (delete name); mret true
  end.

(** [StatsMgr::setValueInternal]. *)
Definition setValue (now : Z) (name : string) (v : stat_value) : ST StatContext unit :=
  c ← get;
  match (c : StatContext) !! name with
  | Some stat => stat' ← lift (obs_setValue now v stat); modify (λ c, <[name := stat']> c)
  | None => stat ← lift (mkObservation now name v); context_add stat
  end.

(** [StatsMgr::addValueInternal]. *)
Definition addValue (now : Z) (name : string) (v : stat_value) : ST StatContext unit :=
  c ← get;
  match (c : StatContext) !! name with
  | None => setValue now name v
  | Some existing =>
      stat' ← lift (obs_addValue now v existing); modify (λ c, <[name := stat']> c)
  end.

Definition reset (now : Z) (name : string) : ST StatContext bool :=
  c ← get;
  match (c : StatContext) !! name with
  | Some obs =>
      obs' ← lift (obs_reset now obs); _ ← modify (λ c, <[name := obs']> c); mret true
  | None => mret false
  end.

Definition removeAll : ST StatContext unit := put ∅.

Definition resetAll (now : Z) (c : StatContext) : StatContext :=
  (λ o, match obs_reset now o with Ok o' => o' | Throw _ => o end) <$> c.

Definition count (c : StatContext) : nat := Datatypes.length (map_to_list c).

(** ** The invariant *)

(** The container of the type of the observation holds one sample. *)
Definition wf_obs (o : Observation) : Prop :=
  match obs_type_ o with
  | STAT_INTEGER => Datatypes.length (integer_samples_ o) = 1%nat
  | STAT_DURATION => Datatypes.length (duration_samples_ o) = 1%nat
  | STAT_STRING => Datatypes.length (string_samples_ o) = 1%nat
  end.

Definition wf_context (c : StatContext) : Prop :=
  map_Forall (λ n o, wf_obs o ∧ obs_name_ o = n) c.

(** The current value of an integer statistic; a missing one counts as 0. *)
Definition stat_int (c : StatContext) (name : string) : Z :=
  match c !! name with
  | Some o => match getInteger o with Ok (z, _) => z | Throw _ => 0 end
  | None => 0
  end.

(** No statistic of that name, or one of integers. *)
Definition int_stat (c : StatContext) (name : string) : Prop :=
  match c !! name with Some o => obs_type_ o = STAT_INTEGER | None => True end.

Lemma length1 {A} (l : list A) : Datatypes.length l = 1%nat → ∃ x, l = [x].
Proof. destruct l as [|x [|]]; try done. by exists x. Qed.

Lemma obs_setValue_wf now v o o' :
  (obs_type_ o = value_type v → wf_obs o ∨
     (integer_samples_ o = [] ∧ duration_samples_ o = [] ∧ string_samples_ o = [])) →
  obs_setValue now v o = Ok o' → wf_obs o' ∧ obs_name_ o' = obs_name_ o ∧
    obs_type_ o' = obs_type_ o.
Proof.
  intros Hwf H. unfold obs_setValue in H. res_inv.
  apply bool_decide_eq_false in Hg. apply dec_stable in Hg. specialize (Hwf Hg).
  unfold wf_obs in *.
  destruct v; simpl in *; rewrite Hg in *; simpl; (split; [|done]);
    (destruct Hwf as [(x & Hx)%length1|(H1 & H2 & H3)];
       [rewrite Hx|rewrite ?H1, ?H2, ?H3]; done).
Qed.

Lemma obs_addValue_int now z o :
  wf_obs o → obs_type_ o = STAT_INTEGER →
  ∃ o' x, obs_addValue now (IntValue z) o = Ok o' ∧ wf_obs o' ∧
    obs_name_ o' = obs_name_ o ∧ obs_type_ o' = STAT_INTEGER ∧
    getInteger o = Ok x ∧ getInteger o' = Ok (fst x + z, now).
Proof.
  intros Hwf Ht. unfold wf_obs in Hwf. rewrite Ht in Hwf.
  apply length1 in Hwf as (x & Hx). unfold obs_addValue, getInteger. rewrite Ht, Hx. simpl.
  unfold obs_setValue. rewrite Ht. simpl. eexists _, x. split_and!; try done;
    unfold wf_obs; simpl; rewrite ?Ht, ?Hx; done.
Qed.

Lemma mkObservation_Ok now name v :
  ∃ o, mkObservation now name v = Ok o ∧ wf_obs o ∧ obs_name_ o = name ∧
    obs_type_ o = value_type v.
Proof. unfold mkObservation, obs_setValue. destruct v; simpl; by eexists. Qed.

(** What [addValue] does to an integer statistic. *)
Lemma addValue_int_Ok now name z c :
  wf_context c → int_stat c name →
  ∃ c', addValue now name (IntValue z) c = (c', Ok tt) ∧ wf_context c' ∧
    int_stat c' name ∧ stat_int c' name = stat_int c name + z ∧
    ∀ n, n ≠ name → c' !! n = c !! n.
Proof.
  intros Hc Hint.
  assert (∀ o, wf_obs o → obs_name_ o = name → obs_type_ o = STAT_INTEGER →
    wf_context (<[name := o]> c) ∧ int_stat (<[name := o]> c) name ∧
    ∀ n, n ≠ name → <[name := o]> c !! n = c !! n) as Hput.
  { intros o Ho Hn Ht. split_and!.
    - by apply map_Forall_insert_2.
    - unfold int_stat. by rewrite lookup_insert_eq.
    - intros n Hne. by rewrite lookup_insert_ne. }
  unfold addValue, setValue, context_add, get, lift, modify, mbind, ST_bind, int_stat, stat_int in *.
  destruct (c !! name) as [o|] eqn:E.
  - pose proof (map_Forall_lookup_1 _ _ _ _ Hc E) as [Hwf Hname].
    destruct (obs_addValue_int now z o Hwf Hint) as (o' & x & -> & Hwf' & Hn' & Ht' & -> & Hg).
    destruct (Hput o' Hwf' ltac:(congruence) Ht') as (H1 & H2 & H3).
    eexists. split_and!; [done|done|done| |done]. rewrite lookup_insert_eq, Hg. by destruct x.
  - rewrite E. destruct (mkObservation_Ok now name (IntValue z)) as (o & Ho & Hwf & Hn & Ht).
    rewrite Ho, Hn, E. destruct (Hput o Hwf Hn Ht) as (H1 & H2 & H3).
    eexists. split_and!; [done|done|done| |done]. rewrite lookup_insert_eq.
    unfold mkObservation, obs_setValue in Ho. simpl in Ho. injection Ho as <-. done.
Qed.

(** What [setValue] does to an integer statistic. *)
Lemma setValue_int_Ok now name z c :
  wf_context c → int_stat c name →
  ∃ c', setValue now name (IntValue z) c = (c', Ok tt) ∧ wf_context c' ∧
    int_stat c' name ∧ stat_int c' name = z ∧ ∀ n, n ≠ name → c' !! n = c !! n.
Proof.
  intros Hc Hint. unfold setValue, context_add, get, lift, modify, mbind, ST_bind, int_stat in *.
  assert (∀ o, mkObservation now name (IntValue z) = Ok o ∨
     (∃ o1, c !! name = Some o1 ∧ obs_setValue now (IntValue z) o1 = Ok o) →
    wf_context (<[name := o]> c) ∧ int_stat (<[name := o]> c) name ∧
    stat_int (<[name := o]> c) name = z ∧ ∀ n, n ≠ name → <[name := o]> c !! n = c !! n) as Hput.
  { intros o Ho. assert (wf_obs o ∧ obs_name_ o = name ∧ obs_type_ o = STAT_INTEGER ∧
                         getInteger o = Ok (z, now)) as (H1 & H2 & H3 & H4).
    { destruct Ho as [E|(o1 & E1 & E)].
      - unfold mkObservation, obs_setValue in E. simpl in E. by injection E as <-.
      - rewrite E1 in Hint. pose proof (map_Forall_lookup_1 _ _ _ _ Hc E1) as [Hwf Hn].
        unfold wf_obs in Hwf. rewrite Hint in Hwf. apply length1 in Hwf as (x & Hx).
        unfold obs_setValue in E. rewrite Hint in E. simpl in E. injection E as <-.
        unfold wf_obs, getInteger. simpl. by rewrite ?Hint, Hx. }
    split_and!.
    - by apply map_Forall_insert_2.
    - unfold int_stat. by rewrite lookup_insert_eq.
    - unfold stat_int. by rewrite lookup_insert_eq, H4.
    - intros n Hne. by rewrite lookup_insert_ne. }
  destruct (c !! name) as [o|] eqn:E.
  - assert (∃ o', obs_setValue now (IntValue z) o = Ok o') as (o' & Eo)
      by (unfold obs_setValue; rewrite Hint; simpl; by eexists).
    rewrite Eo. eexists. split; [done|]. apply Hput. right. by exists o.
  - destruct (mkObservation_Ok now name (IntValue z)) as (o & Ho & _ & Hn & _).
    rewrite Ho, Hn, E. eexists. split; [done|]. apply Hput. by left.
Qed.

(** adding to an integer statistic never fails, adds exactly the delta
    (starting from 0 for a new one), keeps every other statistic and the
    invariant; adding to a statistic of another type throws and changes nothing. *)
Theorem addValue_int_spec (now : Z) (name : string) (z : Z) (c : StatContext)
    (Hc : wf_context c) :
  (int_stat c name →
     ∃ c', addValue now name (IntValue z) c = (c', Ok tt) ∧ wf_context c' ∧
       stat_int c' name = stat_int c name + z ∧ ∀ n, n ≠ name → c' !! n = c !! n) ∧
  (¬ int_stat c name →
     addValue now name (IntValue z) c = (c, Throw InvalidStatType)).
Proof.
  split.
  - intros Hint. destruct (addValue_int_Ok now name z c Hc Hint) as (c' & ? & ? & _ & ? & ?).
    by exists c'.
  - unfold int_stat, addValue, get, lift, mbind, ST_bind. destruct (c !! name) as [o|]; [|done].
    intros Hne. unfold obs_addValue, getInteger. by rewrite bool_decide_eq_true_2.
Qed.

Lemma addValue_int_spec_witness :
  wf_context ∅ ∧
  ∃ c', addValue 0 "reclaimed-leases" (IntValue 1) ∅ = (c', Ok tt) ∧ wf_context c' ∧
    stat_int c' "reclaimed-leases" = 1.
Proof.
  assert (wf_context ∅) as H by apply map_Forall_empty. split; [exact H|].
  destruct (proj1 (addValue_int_spec 0 "reclaimed-leases" 1 ∅ H) I) as (c' & H1 & H2 & H3 & _).
  exists c'. split; [exact H1|split; [exact H2|exact H3]].
Defined.

(** The effect of a sequence of additions. *)
Fixpoint addValues (now : Z) (l : list (string * Z)) : ST StatContext unit :=
  match l with
  | [] => mret tt
  | (n, z) :: l' => _ ← addValue now n (IntValue z); addValues now l'
  end.

Definition delta (name : string) (l : list (string * Z)) : Z :=
  foldr (λ '(n, z) acc, (if decide (n = name) then z else 0) + acc) 0 l.

(** after any sequence of additions to integer statistics, every
    statistic is its old value plus the sum of the deltas recorded under its
    name, in whatever order they came. *)
Theorem addValues_sum (now : Z) (l : list (string * Z)) (c : StatContext)
    (Hc : wf_context c) (Hint : ∀ n, int_stat c n) :
  ∃ c', addValues now l c = (c', Ok tt) ∧ wf_context c' ∧
    ∀ n, stat_int c' n = stat_int c n + delta n l.
Proof.
  revert c Hc Hint. induction l as [|[n z] l IH]; intros c Hc Hint; cbn [addValues].
  { exists c. split_and!; [done|done|]. intros n. simpl. lia. }
  unfold mbind, ST_bind.
  destruct (addValue_int_Ok now n z c Hc (Hint n)) as (c1 & -> & Hc1 & Hi1 & Hv1 & Hother).
  destruct (IH c1 Hc1) as (c2 & -> & Hc2 & Hv2).
  { intros m. destruct (decide (m = n)) as [->|]; [done|].
    unfold int_stat. rewrite Hother by done. apply Hint. }
  exists c2. split_and!; [done|done|]. intros m. rewrite Hv2. cbn.
  destruct (decide (n = m)) as [->|]; [rewrite Hv1; fold (delta m l); lia|].
  unfold stat_int at 1. rewrite Hother by done. fold (stat_int c m). fold (delta m l). lia.
Qed.

Lemma addValues_sum_witness :
  wf_context ∅ ∧
  ∃ c', addValues 0 [("a", 2); ("b", 5); ("a", -1)]%string ∅ = (c', Ok tt) ∧
    stat_int c' "a" = 1 ∧ stat_int c' "b" = 5.
Proof.
  assert (wf_context ∅) as H by apply map_Forall_empty. split; [exact H|].
  destruct (addValues_sum 0 [("a", 2); ("b", 5); ("a", -1)]%string ∅ H (λ _, I))
    as (c' & H1 & _ & H3).
  exists c'. split; [exact H1|]. split; [exact (H3 "a"%string)|exact (H3 "b"%string)].
Defined.

(** ** The names of the statistics of subnets *)

(** The text of a number has no bracket in it. *)
Fixpoint no_bracket (s : string) : Prop :=
  match s with EmptyString => True | String c s' => c ≠ "]"%char ∧ no_bracket s' end.

Lemma pretty_N_no_bracket x s : no_bracket s → no_bracket (pretty_N_go x s).
Proof.
  revert s. induction (N.lt_wf_0 x) as [x _ IH]. intros s Hs.
  destruct (decide (0 < x)%N).
  - rewrite pretty_N_go_step by done. apply IH; [by apply N.div_lt|]. split; [|done].
    unfold pretty_N_char. by repeat case_match.
  - assert (x = 0%N) as -> by lia. done.
Qed.

Lemma pretty_Z_no_bracket (z : Z) : no_bracket (pretty z).
Proof.
  assert (∀ n : N, no_bracket (pretty n)) as Hn.
  { intros n. unfold pretty, pretty_N. destruct (decide _); [done|]. by apply pretty_N_no_bracket. }
  destruct z as [|p|p]; [done|apply (Hn (N.pos p))|]. split; [done|]. apply (Hn (N.pos p)).
Qed.

Lemma bracket_inj a b x y :
  no_bracket a → no_bracket b →
  a +:+ "]." +:+ x = b +:+ "]." +:+ y → a = b ∧ x = y.
Proof.
  revert b. induction a as [|c a IH]; intros [|d b] Ha Hb E; simpl in *.
  - by injection E.
  - injection E as <- _. by destruct Hb.
  - injection E as -> _. by destruct Ha.
  - injection E as <- E. destruct Ha as [_ Ha], Hb as [_ Hb].
    by destruct (IH b Ha Hb E) as [-> ->].
Qed.

(** Two statistics of subnets have the same name only if they are the same. *)
Lemma generateName_inj i j a b :
  generateName "subnet" i a = generateName "subnet" j b → i = j ∧ a = b.
Proof.
  unfold generateName. intros [= E].
  apply bracket_inj in E as [E ->]; [|apply pretty_Z_no_bracket..].
  split; [|done]. by apply (inj pretty).
Qed.

(** ** Sequences of settings and additions of integer statistics *)

(** A computation that never fails and changes the values of the statistics by [F]. *)
Definition acts {A} (m : ST StatContext A) (a : A) (F : (string → Z) → string → Z) : Prop :=
  ∀ c, wf_context c → (∀ n, int_stat c n) →
    ∃ c', m c = (c', Ok a) ∧ wf_context c' ∧ (∀ n, int_stat c' n) ∧
      ∀ n, stat_int c' n = F (stat_int c) n.

Definition put_stat (name : string) (z : Z) (v : string → Z) : string → Z :=
  λ n, if decide (n = name) then z else v n.

Lemma acts_of_other {A} (m : ST StatContext A) a c name z :
  (∀ n, int_stat c n) →
  (∃ c', m c = (c', Ok a) ∧ wf_context c' ∧ int_stat c' name ∧ stat_int c' name = z ∧
    ∀ n, n ≠ name → c' !! n = c !! n) →
  ∃ c', m c = (c', Ok a) ∧ wf_context c' ∧ (∀ n, int_stat c' n) ∧
    ∀ n, stat_int c' n = put_stat name z (stat_int c) n.
Proof.
  intros Hint (c' & E & Hc' & Hi & Hz & Ho). exists c'. split_and!; [done|done|..]; intros n.
  - destruct (decide (n = name)) as [->|]; [done|]. unfold int_stat. rewrite Ho by done. apply Hint.
  - unfold put_stat. destruct (decide _) as [->|]; [done|]. unfold stat_int. by rewrite Ho.
Qed.

Lemma acts_set now name z : acts (setValue now name (IntValue z)) tt (put_stat name z).
Proof.
  intros c Hc Hint. apply acts_of_other; [done|]. by apply setValue_int_Ok.
Qed.

Lemma acts_add now name z :
  acts (addValue now name (IntValue z)) tt (λ v, put_stat name (v name + z) v).
Proof.
  intros c Hc Hint. apply acts_of_other; [done|]. by apply addValue_int_Ok.
Qed.

Lemma acts_ret {A} (a : A) : acts (mret a) a (λ v, v).
Proof. intros c Hc Hint. by exists c. Qed.

Lemma acts_bind {A B} (m : ST StatContext A) a F (f : A → ST StatContext B) b G :
  (∀ v w, (∀ n, v n = w n) → ∀ n, G v n = G w n) →
  acts m a F → acts (f a) b G → acts (m ≫= f) b (λ v, G (F v)).
Proof.
  intros HG Hm Hf c Hc Hint. destruct (Hm c Hc Hint) as (c1 & E1 & Hc1 & Hi1 & Hv1).
  destruct (Hf c1 Hc1 Hi1) as (c2 & E2 & Hc2 & Hi2 & Hv2). exists c2.
  unfold mbind, ST_bind. rewrite E1. split_and!; [done|done|done|].
  intros n. rewrite Hv2. by apply HG.
Qed.
