(* ===== verification/Lease.v ===== *)
(** * Leases ([src/lib/dhcpsrv/lease.cc], [lease.h])

    An IPv4 lease with the operations the allocation engine and the lease
    database use.  A pointer member that may be null is an option; hardware
    addresses and client identifiers are their bytes.  User contexts and the
    conversion to JSON are left out.  The clock is the argument [now]. *)

From S2P Require Import Prelude IoAddress Pool.
Local Open Scope Z_scope.

Definition STATE_DEFAULT : Z := 0.
Definition STATE_DECLINED : Z := 1.
Definition STATE_EXPIRED_RECLAIMED : Z := 2.

Definition HTYPE_ETHER : Z := 1.

Record HWAddr := { hwaddr_bytes : list Z; htype_ : Z }.

#[export] Instance HWAddr_eq_dec : EqDecision HWAddr.
Proof. solve_decision. Defined.

(** The default constructor of [HWAddr]. *)
Definition empty_HWAddr : HWAddr := {| hwaddr_bytes := []; htype_ := HTYPE_ETHER |}.

Record Lease4 := {
  addr_ : IOAddress;
  t1_ : Z;
  t2_ : Z;
  valid_lft_ : Z;
  cltt_ : Z;
  subnet_id_ : Z;
  hostname_ : string;
  fqdn_fwd_ : bool;
  fqdn_rev_ : bool;
  hwaddr_ : option HWAddr;
  client_id_ : option (list Z);
  state_ : Z
}.

#[export] Instance Lease4_eq_dec : EqDecision Lease4.
Proof. solve_decision. Defined.

(** The constructor from a hardware address and a client identifier. *)
Definition mkLease4 (address : IOAddress) (hw_address : option HWAddr)
    (client_id : option (list Z)) (valid_lifetime t1 t2 cltt subnet_id : Z)
    (fqdn_fwd fqdn_rev : bool) (hostname : string) : Lease4 :=
  {| addr_ := address; t1_ := t1; t2_ := t2; valid_lft_ := valid_lifetime; cltt_ := cltt;
     subnet_id_ := subnet_id; hostname_ := hostname; fqdn_fwd_ := fqdn_fwd;
     fqdn_rev_ := fqdn_rev; hwaddr_ := hw_address; client_id_ := client_id;
     state_ := STATE_DEFAULT |}.

Definition with_state (l : Lease4) (state : Z) : Lease4 :=
  {| addr_ := addr_ l; t1_ := t1_ l; t2_ := t2_ l; valid_lft_ := valid_lft_ l;
     cltt_ := cltt_ l; subnet_id_ := subnet_id_ l; hostname_ := hostname_ l;
     fqdn_fwd_ := fqdn_fwd_ l; fqdn_rev_ := fqdn_rev_ l; hwaddr_ := hwaddr_ l;
     client_id_ := client_id_ l; state_ := state |}.
Definition with_valid_lft (l : Lease4) (valid : Z) : Lease4 :=
  {| addr_ := addr_ l; t1_ := t1_ l; t2_ := t2_ l; valid_lft_ := valid;
     cltt_ := cltt_ l; subnet_id_ := subnet_id_ l; hostname_ := hostname_ l;
     fqdn_fwd_ := fqdn_fwd_ l; fqdn_rev_ := fqdn_rev_ l; hwaddr_ := hwaddr_ l;
     client_id_ := client_id_ l; state_ := state_ l |}.
Definition with_dns (l : Lease4) (fwd rev : bool) (hostname : string) : Lease4 :=
  {| addr_ := addr_ l; t1_ := t1_ l; t2_ := t2_ l; valid_lft_ := valid_lft_ l;
     cltt_ := cltt_ l; subnet_id_ := subnet_id_ l; hostname_ := hostname;
     fqdn_fwd_ := fwd; fqdn_rev_ := rev; hwaddr_ := hwaddr_ l;
     client_id_ := client_id_ l; state_ := state_ l |}.

(** [equalValues]: both pointers are set and point to equal values. *)
Definition equalValues {A} `{EqDecision A} (a b : option A) : bool :=
  match a, b with Some x, Some y => bool_decide (x = y) | _, _ => false end.

Definition getExpirationTime (l : Lease4) : Z := cltt_ l + valid_lft_ l.

Definition expired (now : Z) (l : Lease4) : bool := getExpirationTime l <? now.

Definition stateExpiredReclaimed (l : Lease4) : bool := state_ l =? STATE_EXPIRED_RECLAIMED.
Definition stateDeclined (l : Lease4) : bool := state_ l =? STATE_DECLINED.

Definition hasIdenticalFqdn (l other : Lease4) : bool :=
  bool_decide (hostname_ l = hostname_ other)
  && Bool.eqb (fqdn_fwd_ l) (fqdn_fwd_ other) && Bool.eqb (fqdn_rev_ l) (fqdn_rev_ other).

(** The bytes of an absent identifier are the empty string. *)
Definition getClientIdVector (l : Lease4) : list Z := default [] (client_id_ l).
Definition getHWAddrVector (l : Lease4) : list Z := from_option hwaddr_bytes [] (hwaddr_ l).

Definition belongsToClient (l : Lease4) (hw_address : option HWAddr)
    (client_id : option (list Z)) : bool :=
  if equalValues client_id (client_id_ l) then true
  else if negb (bool_decide (is_Some client_id)) || negb (bool_decide (is_Some (client_id_ l)))
  then equalValues hw_address (hwaddr_ l)
  else false.

Definition decline (now probation_period : Z) (l : Lease4) : Lease4 :=
  {| addr_ := addr_ l; t1_ := 0; t2_ := 0; valid_lft_ := probation_period;
     cltt_ := now; subnet_id_ := subnet_id_ l; hostname_ := "";
     fqdn_fwd_ := false; fqdn_rev_ := false; hwaddr_ := Some empty_HWAddr;
     client_id_ := None; state_ := STATE_DECLINED |}.

(** [typeToText] and [textToType]. *)
Definition typeToText (t : LeaseType) : string :=
  match t with
  | TYPE_V4 => "V4" | TYPE_NA => "IA_NA" | TYPE_TA => "IA_TA" | TYPE_PD => "IA_PD"
  end.
Definition textToType (text : string) : res LeaseType :=
  if bool_decide (text = "V4") then Ok TYPE_V4
  else if bool_decide (text = "IA_NA") then Ok TYPE_NA
  else if bool_decide (text = "IA_TA") then Ok TYPE_TA
  else if bool_decide (text = "IA_PD") then Ok TYPE_PD
  else Throw BadValue.

(** ** Ownership *)

Lemma equalValues_spec {A} `{EqDecision A} (a b : option A) :
  equalValues a b = true ↔ ∃ x, a = Some x ∧ b = Some x.
Proof.
  destruct a as [x|], b as [y|]; simpl; rewrite ?bool_decide_eq_true; naive_solver.
Qed.

Lemma belongsToClient_true (l : Lease4) (hw : option HWAddr) (cid : option (list Z)) :
  belongsToClient l hw cid = true ↔
  (∃ c, cid = Some c ∧ client_id_ l = Some c) ∨
  ((cid = None ∨ client_id_ l = None) ∧ ∃ h, hw = Some h ∧ hwaddr_ l = Some h).
Proof.
  unfold belongsToClient. pose proof (equalValues_spec cid (client_id_ l)) as Hc.
  pose proof (equalValues_spec hw (hwaddr_ l)) as Hh.
  destruct (equalValues cid (client_id_ l)).
  - split; [|done]. intros _. left. by apply Hc.
  - assert (¬ ∃ c, cid = Some c ∧ client_id_ l = Some c) as Hn by (intros ?%Hc; done).
    destruct cid as [c|], (client_id_ l) as [c'|]; cbn; rewrite ?Hh; naive_solver.
Qed.

(** a lease belongs to a client when the client identifiers are equal or,
    if one of them is missing, when the hardware addresses are; two different
    client identifiers never match, whatever the hardware address. *)
Theorem belongsToClient_spec (l : Lease4) (hw : option HWAddr) (cid : option (list Z)) :
  belongsToClient l hw cid = true ↔
  (∃ c, cid = Some c ∧ client_id_ l = Some c) ∨
  ((cid = None ∨ client_id_ l = None) ∧ ∃ h, hw = Some h ∧ hwaddr_ l = Some h).
Proof. apply belongsToClient_true. Qed.

(** a declined lease belongs to no client that gives a client identifier
    or a real hardware address, and expires when the probation period is over. *)
Theorem decline_spec (now probation : Z) (l : Lease4) (hw : option HWAddr)
    (cid : option (list Z)) (Hhw : hw ≠ Some empty_HWAddr) :
  belongsToClient (decline now probation l) hw cid = false ∧
  addr_ (decline now probation l) = addr_ l ∧
  stateDeclined (decline now probation l) = true ∧
  ∀ t, expired t (decline now probation l) = (now + probation <? t).
Proof.
  split_and!; try done. unfold belongsToClient. destruct cid, hw as [h|]; cbn; try done;
    by rewrite bool_decide_eq_false_2 by congruence.
Qed.

Lemma decline_spec_witness :
  belongsToClient (decline 1000 86400 (mkLease4 (V4 0xC000020A) None (Some [1; 2; 3]) 4000 0 0 900 1
      false false ""))
    None (Some [1; 2; 3]) = false.
Proof.
  refine (proj1 (decline_spec 1000 86400 _ None (Some [1; 2; 3]) _)). done.
Defined.
