(* ===== verification/Lease6.v ===== *)
(** * IPv6 leases ([src/lib/dhcpsrv/lease.cc], [lease.h])

    A lease of an IPv6 address or of a delegated prefix.  The members that [Lease6] has in
    common with [Lease4] come from the class [Lease]; they are in the record again, with
    a 6 in their names.  A DUID is its bytes. *)

From S2P Require Import Prelude IoAddress Pool Lease.
Local Open Scope Z_scope.

Record Lease6 := {
  lease_type_ : LeaseType;
  addr6_ : IOAddress;
  prefixlen_ : Z;
  iaid_ : Z;
  duid_ : option (list Z);
  preferred_lft_ : Z;
  valid_lft6_ : Z;
  t1_6_ : Z;
  t2_6_ : Z;
  cltt6_ : Z;
  subnet_id6_ : Z;
  hostname6_ : string;
  fqdn_fwd6_ : bool;
  fqdn_rev6_ : bool;
  hwaddr6_ : option HWAddr;
  state6_ : Z
}.

#[export] Instance Lease6_eq_dec : EqDecision Lease6.
Proof. solve_decision. Defined.

(** The constructor; [now] is the time. *)
Definition mkLease6 (now : Z) (type : LeaseType) (addr : IOAddress) (duid : option (list Z))
    (iaid preferred valid t1 t2 subnet_id : Z) (fqdn_fwd fqdn_rev : bool) (hostname : string)
    (hwaddr : option HWAddr) (prefixlen : Z) : res Lease6 :=
  _ ← throw_if (bool_decide (duid = None)) InvalidOperation;
  mret {| lease_type_ := type; addr6_ := addr; prefixlen_ := prefixlen; iaid_ := iaid;
          duid_ := duid; preferred_lft_ := preferred; valid_lft6_ := valid; t1_6_ := t1;
          t2_6_ := t2; cltt6_ := now; subnet_id6_ := subnet_id; hostname6_ := hostname;
          fqdn_fwd6_ := fqdn_fwd; fqdn_rev6_ := fqdn_rev; hwaddr6_ := hwaddr;
          state6_ := STATE_DEFAULT |}.

(** Assignments to members. *)
Definition with_state6 (l : Lease6) (state : Z) : Lease6 :=
  {| lease_type_ := lease_type_ l; addr6_ := addr6_ l; prefixlen_ := prefixlen_ l;
     iaid_ := iaid_ l; duid_ := duid_ l; preferred_lft_ := preferred_lft_ l;
     valid_lft6_ := valid_lft6_ l; t1_6_ := t1_6_ l; t2_6_ := t2_6_ l; cltt6_ := cltt6_ l;
     subnet_id6_ := subnet_id6_ l; hostname6_ := hostname6_ l; fqdn_fwd6_ := fqdn_fwd6_ l;
     fqdn_rev6_ := fqdn_rev6_ l; hwaddr6_ := hwaddr6_ l; state6_ := state |}.
Definition with_dns6 (l : Lease6) (fwd rev : bool) (hostname : string) : Lease6 :=
  {| lease_type_ := lease_type_ l; addr6_ := addr6_ l; prefixlen_ := prefixlen_ l;
     iaid_ := iaid_ l; duid_ := duid_ l; preferred_lft_ := preferred_lft_ l;
     valid_lft6_ := valid_lft6_ l; t1_6_ := t1_6_ l; t2_6_ := t2_6_ l; cltt6_ := cltt6_ l;
     subnet_id6_ := subnet_id6_ l; hostname6_ := hostname; fqdn_fwd6_ := fwd;
     fqdn_rev6_ := rev; hwaddr6_ := hwaddr6_ l; state6_ := state6_ l |}.
Definition with_cltt6 (l : Lease6) (cltt : Z) : Lease6 :=
  {| lease_type_ := lease_type_ l; addr6_ := addr6_ l; prefixlen_ := prefixlen_ l;
     iaid_ := iaid_ l; duid_ := duid_ l; preferred_lft_ := preferred_lft_ l;
     valid_lft6_ := valid_lft6_ l; t1_6_ := t1_6_ l; t2_6_ := t2_6_ l; cltt6_ := cltt;
     subnet_id6_ := subnet_id6_ l; hostname6_ := hostname6_ l; fqdn_fwd6_ := fqdn_fwd6_ l;
     fqdn_rev6_ := fqdn_rev6_ l; hwaddr6_ := hwaddr6_ l; state6_ := state6_ l |}.
(** The lifetimes: preferred, valid, T1 and T2. *)
Definition with_times6 (l : Lease6) (preferred valid t1 t2 : Z) : Lease6 :=
  {| lease_type_ := lease_type_ l; addr6_ := addr6_ l; prefixlen_ := prefixlen_ l;
     iaid_ := iaid_ l; duid_ := duid_ l; preferred_lft_ := preferred;
     valid_lft6_ := valid; t1_6_ := t1; t2_6_ := t2; cltt6_ := cltt6_ l;
     subnet_id6_ := subnet_id6_ l; hostname6_ := hostname6_ l; fqdn_fwd6_ := fqdn_fwd6_ l;
     fqdn_rev6_ := fqdn_rev6_ l; hwaddr6_ := hwaddr6_ l; state6_ := state6_ l |}.
Definition with_hwaddr6 (l : Lease6) (hwaddr : option HWAddr) : Lease6 :=
  {| lease_type_ := lease_type_ l; addr6_ := addr6_ l; prefixlen_ := prefixlen_ l;
     iaid_ := iaid_ l; duid_ := duid_ l; preferred_lft_ := preferred_lft_ l;
     valid_lft6_ := valid_lft6_ l; t1_6_ := t1_6_ l; t2_6_ := t2_6_ l; cltt6_ := cltt6_ l;
     subnet_id6_ := subnet_id6_ l; hostname6_ := hostname6_ l; fqdn_fwd6_ := fqdn_fwd6_ l;
     fqdn_rev6_ := fqdn_rev6_ l; hwaddr6_ := hwaddr; state6_ := state6_ l |}.
(** The client and the association the lease belongs to. *)
Definition with_client6 (l : Lease6) (duid : option (list Z)) (iaid subnet_id prefixlen : Z) :
    Lease6 :=
  {| lease_type_ := lease_type_ l; addr6_ := addr6_ l; prefixlen_ := prefixlen;
     iaid_ := iaid; duid_ := duid; preferred_lft_ := preferred_lft_ l;
     valid_lft6_ := valid_lft6_ l; t1_6_ := t1_6_ l; t2_6_ := t2_6_ l; cltt6_ := cltt6_ l;
     subnet_id6_ := subnet_id; hostname6_ := hostname6_ l; fqdn_fwd6_ := fqdn_fwd6_ l;
     fqdn_rev6_ := fqdn_rev6_ l; hwaddr6_ := hwaddr6_ l; state6_ := state6_ l |}.

Definition getExpirationTime6 (l : Lease6) : Z := cltt6_ l + valid_lft6_ l.
Definition expired6 (now : Z) (l : Lease6) : bool := getExpirationTime6 l <? now.
Definition stateExpiredReclaimed6 (l : Lease6) : bool := state6_ l =? STATE_EXPIRED_RECLAIMED.
Definition hasIdenticalFqdn6 (l other : Lease6) : bool :=
  bool_decide (hostname6_ l = hostname6_ other)
  && Bool.eqb (fqdn_fwd6_ l) (fqdn_fwd6_ other) && Bool.eqb (fqdn_rev6_ l) (fqdn_rev6_ other).
Definition getDuidVector (l : Lease6) : list Z := default [] (duid_ l).

(** [DUID::EMPTY] is a single byte 0. *)
Definition DUID_EMPTY : list Z := [0].

Definition decline6 (now probation_period : Z) (l : Lease6) : Lease6 :=
  with_state6
    (with_cltt6
       (with_dns6
          (with_times6
             (with_client6 (with_hwaddr6 l None) (Some DUID_EMPTY) (iaid_ l) (subnet_id6_ l)
                (prefixlen_ l))
             0 probation_period 0 0)
          false false "")
       now)
    STATE_DECLINED.

(** A declined lease belongs to nobody and lasts for the probation period. *)
Theorem decline6_spec (now probation : Z) (l : Lease6) :
  getDuidVector (decline6 now probation l) = DUID_EMPTY ∧
  addr6_ (decline6 now probation l) = addr6_ l ∧
  lease_type_ (decline6 now probation l) = lease_type_ l ∧
  state6_ (decline6 now probation l) = STATE_DECLINED ∧
  ∀ t, expired6 t (decline6 now probation l) = (now + probation <? t).
Proof. done. Qed.
