(* ===== verification/Packet.v ===== *)
(** * Packets as the classification sees them ([src/lib/dhcp/pkt.cc], [pkt4.cc],
      [pkt6.cc], [option.cc], [classify.h])

    What [Pkt], [Pkt4] and [Pkt6] give to the rest of the server: the fields, the
    options with their suboptions, the relays a message went through and the client
    classes of a packet.  How a packet is read from and written to the wire is in
    [Pkt4Wire] and [Pkt6Wire]; left out is the copying of options for hook libraries, which makes no
    difference to code that only reads them.

    A [Pkt] is one record; [pkt_kind] says which class it is an object of and has the
    members that class adds.  The class of an option object, which
    [dynamic_pointer_cast] asks for, is in [option_class_]; the virtual methods that
    print an option and pack it are members with their results.  A set of options
    is the list of them in the order of [std::multimap]. *)

From S2P Require Import Prelude IoAddress Pool Lease Option4ClientFqdn.
Local Open Scope Z_scope.

(** [Option::Universe]. *)
Inductive Universe := UniverseV4 | UniverseV6.

#[export] Instance Universe_eq_dec : EqDecision Universe.
Proof. solve_decision. Defined.

(** ** Codes of the options the code asks for *)

Definition DHO_DHCP_MESSAGE_TYPE : Z := 53.
Definition DHO_VENDOR_CLASS_IDENTIFIER : Z := 60.
Definition DHO_DHCP_AGENT_OPTIONS : Z := 82.
Definition RAI_OPTION_LINK_SELECTION : Z := 5.
Definition DHO_SUBNET_SELECTION : Z := 118.
Definition DHO_VIVCO_SUBOPTIONS : Z := 124.
Definition DHO_VIVSO_SUBOPTIONS : Z := 125.
Definition D6O_VENDOR_CLASS : Z := 16.
Definition D6O_VENDOR_OPTS : Z := 17.
Definition D6O_INTERFACE_ID : Z := 18.
Definition HOP_COUNT_LIMIT : Z := 32.

(** ** Options *)

(** The classes derived from [Option] that the code looks for. *)
Inductive OptionClass :=
  | OptionGeneric
  | OptionUint8 (value : Z)
  | OptionUint8Array (values : list Z)
  | Option4ClientFqdn (impl : Fqdn)
  | OptionString
  | OptionVendor (vendor_id : Z)
  | OptionVendorClass (vendor_id : Z) (tuples : list (list Z))
  | OptionCustom (buffers : list (list Z)).

Inductive Option := mkOption {
  option_type_ : Z;
  option_data_ : list Z;
  option_class_ : OptionClass;
  option_toString : res string;
  option_toBinary : res (list Z);
  suboptions_ : list Option
}.

(** [options_.find(type)]. *)
Definition find_option (code : Z) (l : list Option) : option Option :=
  snd <$> list_find (λ o, option_type_ o = code) l.

(** [Option::getOption]. *)
Definition suboption (o : Option) (opt_type : Z) : option Option :=
  find_option opt_type (suboptions_ o).

(** [Option::equals]. *)
Definition option_equals (o other : Option) : bool :=
  (option_type_ o =? option_type_ other) && bool_decide (option_data_ o = option_data_ other).

(** [OptionCustom::readAddress], of the data field at an index. *)
Definition readAddress (buffers : list (list Z)) (index : nat) : res IOAddress :=
  match buffers !! index with
  | None => Throw OutOfRange
  | Some b =>
      if (length b =? 4)%nat then fromBytes AF_INET b
      else if (length b =? 16)%nat then fromBytes AF_INET6 b
      else Throw BadDataTypeCast
  end.

(** [Option::getUint8]. *)
Definition getUint8 (o : Option) : res Z :=
  match option_data_ o with [] => Throw OutOfRange | b :: _ => Ok b end.

(** The bytes of a string, and the string of bytes. *)
Definition string_of_bytes (l : list Z) : string :=
  foldr (λ b s, String (Ascii.ascii_of_N (Z.to_N b)) s) "" l.

(** [OpaqueDataTuple::getText], [OptionString::getValue]. *)
Definition tuple_getText (t : list Z) : string := string_of_bytes t.
Definition option_getValue (o : Option) : string := string_of_bytes (option_data_ o).

(** [OptionVendorClass::hasTuple]. *)
Definition hasTuple (tuples : list (list Z)) (s : string) : bool :=
  existsb (λ t, bool_decide (tuple_getText t = s)) tuples.

(** ** Packets *)

Record RelayInfo := {
  linkaddr_ : IOAddress;
  peeraddr_ : IOAddress;
  relay_options_ : list Option
}.

(** The members [Pkt4] and [Pkt6] add; [hwaddr_] is a pointer that may be null. *)
Inductive PktKind :=
  | Pkt4 (hwaddr : option HWAddr) (ciaddr yiaddr siaddr giaddr : IOAddress)
  | Pkt6 (msg_type : Z) (relay_info : list RelayInfo).

Record Pkt := {
  pkt_kind : PktKind;
  transid_ : Z;
  iface_ : string;
  local_addr_ : IOAddress;
  remote_addr_ : IOAddress;
  pkt_len : Z;
  options_ : list Option;
  classes_ : ClientClasses;
  required_classes_ : ClientClasses
}.

Definition pkt_universe (p : Pkt) : Universe :=
  match pkt_kind p with Pkt4 _ _ _ _ _ => UniverseV4 | Pkt6 _ _ => UniverseV6 end.

Definition with_classes (cl req : ClientClasses) (p : Pkt) : Pkt :=
  {| pkt_kind := pkt_kind p; transid_ := transid_ p; iface_ := iface_ p;
     local_addr_ := local_addr_ p; remote_addr_ := remote_addr_ p; pkt_len := pkt_len p;
     options_ := options_ p; classes_ := cl; required_classes_ := req |}.

Definition getOption (p : Pkt) (type : Z) : option Option := find_option type (options_ p).

(** ** Client classes *)

(** [ClientClasses::insert] appends also a name that is there already. *)
Definition classes_insert (c : string) (l : ClientClasses) : ClientClasses := l ++ [c].

Definition inClass (p : Pkt) (client_class : string) : bool := contains (classes_ p) client_class.

Definition addClass (client_class : string) (required : bool) (p : Pkt) : Pkt :=
  if required then
    if contains (required_classes_ p) client_class then p
    else with_classes (classes_ p) (classes_insert client_class (required_classes_ p)) p
  else
    if contains (classes_ p) client_class then p
    else with_classes (classes_insert client_class (classes_ p)) (required_classes_ p) p.

Definition getClasses (required : bool) (p : Pkt) : ClientClasses :=
  if required then required_classes_ p else classes_ p.

(** ** Fields of a DHCPv4 packet *)

(** [Pkt4::getType]. *)
Definition pkt4_getType (p : Pkt) : res Z :=
  match getOption p DHO_DHCP_MESSAGE_TYPE with
  | None => Ok 0
  | Some generic => match option_class_ generic with
                    | OptionUint8 v => Ok v
                    | _ => getUint8 generic
                    end
  end.

Definition MAX_CHADDR_LEN : Z := 16.

Definition getHtype (hwaddr : option HWAddr) : Z :=
  match hwaddr with None => 0 | Some h => htype_ h end.

Definition getHlen (hwaddr : option HWAddr) : Z :=
  match hwaddr with
  | None => 0
  | Some h => let len := u8 (Z.of_nat (length (hwaddr_bytes h))) in
              if len <=? MAX_CHADDR_LEN then len else MAX_CHADDR_LEN
  end.

(** ** The relays of a DHCPv6 packet *)

(** The levels are 8-bit integers; the outermost relay, next to the server, is at
    level 0. *)
Definition getRelayOption (relay_info : list RelayInfo) (opt_type relay_level : Z) :
    res (option Option) :=
  match relay_info !! Z.to_nat relay_level with
  | None => Throw OutOfRange
  | Some r => Ok (find_option opt_type (relay_options_ r))
  end.

Definition getRelay6LinkAddress (relay_info : list RelayInfo) (relay_level : Z) : res IOAddress :=
  match relay_info !! Z.to_nat relay_level with
  | None => Throw OutOfRange
  | Some r => Ok (linkaddr_ r)
  end.

Definition getRelay6PeerAddress (relay_info : list RelayInfo) (relay_level : Z) : res IOAddress :=
  match relay_info !! Z.to_nat relay_level with
  | None => Throw OutOfRange
  | Some r => Ok (peeraddr_ r)
  end.

(** [Pkt6::addRelayInfo]. *)
Definition addRelayInfo (relay : RelayInfo) (relay_info : list RelayInfo) :
    res (list RelayInfo) :=
  if HOP_COUNT_LIMIT <? Z.of_nat (length relay_info) then Throw BadValue
  else Ok (relay_info ++ [relay]).

Inductive RelaySearchOrder :=
  | RELAY_SEARCH_FROM_CLIENT
  | RELAY_SEARCH_FROM_SERVER
  | RELAY_GET_FIRST
  | RELAY_GET_LAST.

(** [start], [end] and [direction]. *)
Definition prepareGetAnyRelayOption (relay_info : list RelayInfo) (order : RelaySearchOrder) :
    Z * Z * Z :=
  let size := Z.of_nat (length relay_info) in
  match order with
  | RELAY_SEARCH_FROM_CLIENT => (size - 1, 0, -1)
  | RELAY_SEARCH_FROM_SERVER => (0, size - 1, 1)
  | RELAY_GET_FIRST => (size - 1, size - 1, 1)
  | RELAY_GET_LAST => (0, 0, 1)
  end.

(** [for (int i = start; i != end + direction; i += direction)]; a level is
    converted to 8 bits. *)
Fixpoint relay_loop (fuel : nat) (relay_info : list RelayInfo) (option_code i past direction : Z) :
    res (option Option) :=
  match fuel with
  | O => Throw OutOfFuel
  | S fuel' =>
      if i =? past then Ok None else
      opt ← getRelayOption relay_info option_code (u8 i);
      match opt with
      | Some o => Ok (Some o)
      | None => relay_loop fuel' relay_info option_code (i + direction) past direction
      end
  end.

Definition getAnyRelayOption (relay_info : list RelayInfo) (option_code : Z)
    (order : RelaySearchOrder) : res (option Option) :=
  if bool_decide (relay_info = []) then Ok None else
  let '(start, last, direction) := prepareGetAnyRelayOption relay_info order in
  relay_loop (S (length relay_info)) relay_info option_code start (last + direction) direction.

(** ** What the code promises *)

(** More relays than [addRelayInfo] admits are not in a packet. *)
Definition relays_ok (p : Pkt) : Prop :=
  match pkt_kind p with Pkt6 _ relay_info => (length relay_info ≤ 33)%nat | _ => True end.

Lemma addRelayInfo_ok r l l' :
  addRelayInfo r l = Ok l' → l' = l ++ [r] ∧ (length l' ≤ 33)%nat.
Proof.
  unfold addRelayInfo. destruct (Z.ltb_spec HOP_COUNT_LIMIT (Z.of_nat (length l))); [done|].
  intros [= <-]. rewrite length_app. unfold HOP_COUNT_LIMIT in *. simpl. split; [done|lia].
Qed.

(** The limit is 32 relays, but 33 are accepted. *)
Theorem addRelayInfo_accepts_one_more r l :
  length l = 32%nat → addRelayInfo r l = Ok (l ++ [r]).
Proof. unfold addRelayInfo, HOP_COUNT_LIMIT. by intros ->. Qed.

Lemma contains_spec l c : contains l c = true ↔ c ∈@{list string} l.
Proof. apply bool_decide_eq_true. Qed.

Lemma elem_of_addClass c d p :
  d ∈@{list string} classes_ (addClass c false p) ↔ d = c ∨ d ∈@{list string} classes_ p.
Proof.
  unfold addClass, classes_insert. destruct (contains (classes_ p) c) eqn:E; simpl.
  - apply contains_spec in E. set_solver.
  - set_solver.
Qed.

Lemma NoDup_addClass c p : NoDup (classes_ p) → NoDup (classes_ (addClass c false p)).
Proof.
  intros H. unfold addClass, classes_insert. destruct (contains (classes_ p) c) eqn:E; [done|].
  simpl. apply NoDup_app. repeat split; [done| |apply NoDup_singleton].
  intros x Hx ->%list_elem_of_singleton. apply contains_spec in Hx. congruence.
Qed.

(** [hasTuple] finds the text. *)
Lemma hasTuple_spec tuples s : hasTuple tuples s = true ↔ s ∈ (tuple_getText <$> tuples).
Proof.
  unfold hasTuple. rewrite existsb_elem_of, list_elem_of_fmap.
  split; intros (t & H1 & H2); exists t.
  - by apply bool_decide_eq_true in H2.
  - by rewrite bool_decide_eq_true.
Qed.

(** *** The search for an option of a relay *)

Section Search.
Context (relay_info : list RelayInfo) (code : Z).
Hypothesis Hsize : (length relay_info ≤ 256)%nat.

Definition relay_opt (r : RelayInfo) : option Option := find_option code (relay_options_ r).

Lemma getRelayOption_at i r :
  relay_info !! i = Some r → getRelayOption relay_info code (u8 (Z.of_nat i)) = Ok (relay_opt r).
Proof using Hsize.
  intros Hi. pose proof (lookup_lt_Some _ _ _ Hi). unfold getRelayOption, u8.
  rewrite Z.mod_small, Nat2Z.id, Hi by lia. done.
Qed.

Lemma relay_loop_up n : ∀ i fuel, (i + n = length relay_info)%nat → (n < fuel)%nat →
  relay_loop fuel relay_info code (Z.of_nat i) (Z.of_nat (length relay_info)) 1
  = Ok (head (omap relay_opt (drop i relay_info))).
Proof using Hsize.
  induction n as [|n IH]; intros i [|fuel] Hn Hf; try lia; cbn [relay_loop].
  - rewrite Nat.add_0_r in Hn. subst. rewrite Z.eqb_refl, drop_all. done.
  - destruct (Z.eqb_spec (Z.of_nat i) (Z.of_nat (length relay_info))); [lia|].
    destruct (lookup_lt_is_Some_2 relay_info i) as [r Hr]; [lia|].
    rewrite (getRelayOption_at _ _ Hr), (drop_S _ _ _ Hr). cbn.
    destruct (relay_opt r); [done|].
    replace (Z.of_nat i + 1) with (Z.of_nat (S i)) by lia. apply IH; lia.
Qed.

Lemma relay_loop_down n : ∀ fuel, (n ≤ length relay_info)%nat → (n < fuel)%nat →
  relay_loop fuel relay_info code (Z.of_nat n - 1) (-1) (-1)
  = Ok (head (omap relay_opt (reverse (take n relay_info)))).
Proof using Hsize.
  induction n as [|n IH]; intros [|fuel] Hn Hf; try lia; cbn [relay_loop]; [done|].
  destruct (Z.eqb_spec (Z.of_nat (S n) - 1) (-1)); [lia|].
  destruct (lookup_lt_is_Some_2 relay_info n) as [r Hr]; [lia|].
  replace (Z.of_nat (S n) - 1) with (Z.of_nat n) by lia.
  rewrite (getRelayOption_at _ _ Hr), (take_S_r _ _ _ Hr), reverse_snoc. cbn.
  destruct (relay_opt r); [done|]. apply IH; lia.
Qed.

(** The relays in the order in which an option is looked for. *)
Definition search_order (order : RelaySearchOrder) : list RelayInfo :=
  match order with
  | RELAY_SEARCH_FROM_CLIENT => reverse relay_info
  | RELAY_SEARCH_FROM_SERVER => relay_info
  | RELAY_GET_FIRST => take 1 (reverse relay_info)
  | RELAY_GET_LAST => take 1 relay_info
  end.
End Search.

(** The search returns the option of the first relay that has one, in the order asked
    for, and never reads a relay that is not there. *)
Theorem getAnyRelayOption_spec (relay_info : list RelayInfo) (code : Z)
    (order : RelaySearchOrder) (Hsize : (length relay_info ≤ 256)%nat) :
  getAnyRelayOption relay_info code order
  = Ok (head (omap (relay_opt code) (search_order relay_info order))).
Proof.
  unfold getAnyRelayOption. case_bool_decide as Hnil; [subst; by destruct order|].
  assert (Hlen : (0 < length relay_info)%nat) by (destruct relay_info; [done|simpl; lia]).
  destruct order; cbn [prepareGetAnyRelayOption search_order].
  - replace (0 + -1) with (-1) by lia. rewrite relay_loop_down by lia. by rewrite take_ge.
  - replace (Z.of_nat (length relay_info) - 1 + 1) with (Z.of_nat (length relay_info)) by lia.
    apply (relay_loop_up _ code Hsize (length relay_info) 0); lia.
  - destruct (lookup_lt_is_Some_2 relay_info (length relay_info - 1)) as [r Hr]; [lia|].
    replace (Z.of_nat (length relay_info) - 1) with (Z.of_nat (length relay_info - 1)) by lia.
    replace (Z.of_nat (length relay_info - 1) + 1) with (Z.of_nat (length relay_info)) by lia.
    rewrite (relay_loop_up _ code Hsize 1) by lia. f_equal.
    assert (E : relay_info = take (length relay_info - 1) relay_info ++ [r]).
    { rewrite <- (take_S_r _ _ _ Hr), take_ge; [done|lia]. }
    rewrite (drop_S _ _ _ Hr), drop_ge by lia. by rewrite E, reverse_snoc.
  - destruct relay_info as [|r l] eqn:E; [done|]. cbn [relay_loop length].
    destruct (Z.eqb_spec 0 (0 + 1)); [lia|].
    rewrite (getRelayOption_at (r :: l) code Hsize 0 r eq_refl : getRelayOption _ _ (u8 0) = _).
    unfold mbind, res_bind. cbn [take omap list_omap]. by destruct (relay_opt code r).
Qed.

Definition sample_relay (n : Z) (l : list Option) : RelayInfo :=
  {| linkaddr_ := V6 n; peeraddr_ := V6 n; relay_options_ := l |}.
Definition sample_option (n : Z) : Option := mkOption 18 [n] OptionGeneric (Ok "") (Ok [n]) [].

Lemma getAnyRelayOption_spec_witness :
  (3 <= 256)%nat ∧
  getAnyRelayOption [sample_relay 1 [sample_option 1]; sample_relay 2 [sample_option 2];
                     sample_relay 3 []] 18 RELAY_SEARCH_FROM_CLIENT = Ok (Some (sample_option 2)).
Proof.
  split; [lia|].
  rewrite (getAnyRelayOption_spec [sample_relay 1 [sample_option 1];
    sample_relay 2 [sample_option 2]; sample_relay 3 []] 18 RELAY_SEARCH_FROM_CLIENT);
    [reflexivity|simpl; lia].
Defined.
