(* ===== verification/OptionSpace.v ===== *)
(** * Names of option spaces ([src/lib/dhcp/option_space.h], [option_space.cc]) *)

From S2P Require Import Prelude DnsName.
Local Open Scope Z_scope.

Definition DHCP4_OPTION_SPACE : string := "dhcp4".
Definition DHCP6_OPTION_SPACE : string := "dhcp6".
Definition MAPE_V6_OPTION_SPACE : string := "s46-cont-mape-options".
Definition MAPT_V6_OPTION_SPACE : string := "s46-cont-mapt-options".
Definition LW_V6_OPTION_SPACE : string := "s46-cont-lw-options".
Definition V4V6_RULE_OPTION_SPACE : string := "s46-rule-options".
Definition V4V6_BIND_OPTION_SPACE : string := "s46-v4v6bind-options".

(** [OptionSpace::validateName]. *)
Definition is_hyphen (c : Z) : bool := (c =? 45) || (c =? 95).
Definition space_char (c : Z) : bool :=
  ((97 <=? c) && (c <=? 122)) || ((65 <=? c) && (c <=? 90)) || isdigit c || is_hyphen c.
Definition validateName (name : string) : bool :=
  let l := bytes_of_string name in
  forallb space_char l && bool_decide (l ≠ [])
  && match head l with Some c => negb (is_hyphen c) | None => false end
  && match last l with Some c => negb (is_hyphen c) | None => false end.
