(* ===== verification/InputBuffer.v ===== *)
(** * Buffers that are read ([src/lib/util/buffer.h])

    [InputBuffer]: a position in an array of bytes.  Every read checks that it stays in the
    array.  [reads] says what a reader returns on the bytes it is there for, [covers] how many bytes it
    needs; both are closed under the composition of readers. *)

From S2P Require Import Prelude.
Local Open Scope Z_scope.

Record InputBuffer := { position_ : nat; data_ : list Z }.

Definition mkInputBuffer (data : list Z) : InputBuffer := {| position_ := 0; data_ := data |}.
Definition getLength (b : InputBuffer) : nat := length (data_ b).
Definition getPosition (b : InputBuffer) : nat := position_ b.

Definition setPosition (position : nat) : ST InputBuffer unit := λ b,
  if (getLength b <? position)%nat then (b, Throw InvalidBufferPosition)
  else ({| position_ := position; data_ := data_ b |}, Ok tt).

(** [readData]; [readVector] makes room in its vector and calls it. *)
Definition readData (len : nat) : ST InputBuffer (list Z) := λ b,
  if (getLength b <? position_ b + len)%nat then (b, Throw InvalidBufferPosition)
  else ({| position_ := position_ b + len; data_ := data_ b |},
        Ok (take len (drop (position_ b) (data_ b)))).
Definition readVector (len : nat) : ST InputBuffer (list Z) := readData len.

(** The integers are in network byte order. *)
Definition readUint8 : ST InputBuffer Z := cp ← readData 1; mret (be_combine cp).
Definition readUint16 : ST InputBuffer Z := cp ← readData 2; mret (be_combine cp).
Definition readUint32 : ST InputBuffer Z := cp ← readData 4; mret (be_combine cp).

(** Steps that are known. *)
Lemma run_lift {S A B} (a : A) (f : A → ST S B) s : (lift (Ok a) ≫= f) s = f a s.
Proof. done. Qed.
Lemma run_modify {S B} g (f : unit → ST S B) (s : S) : (modify g ≫= f) s = f tt (g s).
Proof. done. Qed.

(** ** What a reader reads *)

(** Wherever [bytes] stands in a buffer, the reader at its start returns [a] and stops behind it. *)
Definition reads {A} (m : ST InputBuffer A) (bytes : list Z) (a : A) : Prop :=
  ∀ before after,
    m {| position_ := length before; data_ := before ++ bytes ++ after |}
    = ({| position_ := length (before ++ bytes); data_ := before ++ bytes ++ after |}, Ok a).

Lemma reads_ret {A} (a : A) : reads (mret a) [] a.
Proof. intros before after. by rewrite app_nil_r. Qed.

Lemma reads_bind {A B} (m : ST InputBuffer A) (f : A → ST InputBuffer B) b1 b2 a c :
  reads m b1 a → reads (f a) b2 c → reads (m ≫= f) (b1 ++ b2) c.
Proof.
  intros H1 H2 before after. unfold mbind, ST_bind.
  rewrite <- app_assoc, (H1 before (b2 ++ after)), !(app_assoc before b1 _), (H2 (before ++ b1) after). done.
Qed.

Lemma reads_data n bytes : length bytes = n → reads (readData n) bytes bytes.
Proof.
  intros <- before after. unfold readData, getLength. cbn [position_ data_].
  rewrite !length_app, (proj2 (Nat.ltb_ge _ _)) by lia.
  by rewrite drop_app_length, take_app_length.
Qed.

Lemma reads_int n z : 0 ≤ z < 256 ^ Z.of_nat n →
  reads (cp ← readData n; mret (be_combine cp)) (be_split n z) z.
Proof.
  intros Hz. rewrite <- (app_nil_r (be_split n z)).
  eapply reads_bind; [apply reads_data, length_be_split|].
  rewrite be_combine_split, Z.mod_small by done. apply reads_ret.
Qed.
Lemma reads_uint8 z : 0 ≤ z < 256 → reads readUint8 (be_split 1 z) z.
Proof. apply (reads_int 1). Qed.
Lemma reads_uint16 z : 0 ≤ z < 65536 → reads readUint16 (be_split 2 z) z.
Proof. apply (reads_int 2). Qed.
Lemma reads_uint32 z : 0 ≤ z < 2 ^ 32 → reads readUint32 (be_split 4 z) z.
Proof. apply (reads_int 4). Qed.

(** ** How much a reader needs *)

(** With [n] bytes left the reader returns a value with [P], and takes them all. *)
Definition covers {A} (m : ST InputBuffer A) (n : nat) (P : A → Prop) : Prop :=
  ∀ b, (position_ b + n ≤ getLength b)%nat → Forall is_byte (data_ b) →
    ∃ a, m b = ({| position_ := position_ b + n; data_ := data_ b |}, Ok a) ∧ P a.

Lemma covers_ret {A} (a : A) (P : A → Prop) : P a → covers (mret a) 0 P.
Proof. intros HP [p d] _ _. exists a. cbn. by rewrite Nat.add_0_r. Qed.

Lemma covers_bind {A B} (m : ST InputBuffer A) (f : A → ST InputBuffer B) n1 n2 P Q :
  covers m n1 P → (∀ a, P a → covers (f a) n2 Q) → covers (m ≫= f) (n1 + n2) Q.
Proof.
  intros H1 H2 b Hb Hd. destruct (H1 b) as (a & E & HP); [lia|done|].
  destruct (H2 a HP {| position_ := position_ b + n1; data_ := data_ b |}) as (c & E2 & HQ);
    [unfold getLength in *; cbn; lia|done|].
  exists c. unfold mbind, ST_bind. rewrite E, E2. cbn [position_ data_]. by rewrite Nat.add_assoc.
Qed.

Lemma covers_data n : covers (readData n) n (λ l, length l = n ∧ Forall is_byte l).
Proof.
  intros b Hb Hd. unfold readData. rewrite (proj2 (Nat.ltb_ge _ _)) by lia.
  eexists. split; [done|]. unfold getLength in Hb. split.
  - rewrite length_take, length_drop. lia.
  - by apply Forall_take, Forall_drop.
Qed.

Lemma covers_int n : covers (cp ← readData n; mret (be_combine cp)) n (λ z, 0 ≤ z < 256 ^ Z.of_nat n).
Proof.
  rewrite <- (Nat.add_0_r n) at 2. eapply covers_bind; [apply covers_data|].
  intros l [<- Hl]. apply covers_ret. by apply be_combine_bound.
Qed.
Lemma covers_uint8 : covers readUint8 1 (λ z, 0 ≤ z < 256).
Proof. apply (covers_int 1). Qed.
Lemma covers_uint16 : covers readUint16 2 (λ z, 0 ≤ z < 65536).
Proof. apply (covers_int 2). Qed.
Lemma covers_uint32 : covers readUint32 4 (λ z, 0 ≤ z < 2 ^ 32).
Proof. apply (covers_int 4). Qed.
