(* ===== verification/OptionTypes.v ===== *)
(** * Data fields of options on the wire ([src/lib/dhcp/option_data_types.h],
      [option_data_types.cc], [opaque_data_tuple.h], [src/lib/util/io_utilities.h])

    The types of the data fields of options, and [OptionDataTypeUtil], which reads a value
    from a buffer of bytes and appends one to it.  A write gives the bytes that are
    appended.  A read beyond the end of a buffer is [AssertionFailure]. *)

From S2P Require Import Prelude IoAddress DnsName NameWire.
Local Open Scope Z_scope.

Inductive OptionDataType :=
  | OPT_EMPTY_TYPE | OPT_BINARY_TYPE | OPT_BOOLEAN_TYPE
  | OPT_INT8_TYPE | OPT_INT16_TYPE | OPT_INT32_TYPE
  | OPT_UINT8_TYPE | OPT_UINT16_TYPE | OPT_UINT32_TYPE
  | OPT_ANY_ADDRESS_TYPE | OPT_IPV4_ADDRESS_TYPE | OPT_IPV6_ADDRESS_TYPE
  | OPT_IPV6_PREFIX_TYPE | OPT_PSID_TYPE | OPT_STRING_TYPE | OPT_TUPLE_TYPE
  | OPT_FQDN_TYPE | OPT_RECORD_TYPE | OPT_UNKNOWN_TYPE.

#[export] Instance OptionDataType_eq_dec : EqDecision OptionDataType.
Proof. solve_decision. Defined.

Definition getDataTypeLen (data_type : OptionDataType) : nat :=
  match data_type with
  | OPT_BOOLEAN_TYPE | OPT_INT8_TYPE | OPT_UINT8_TYPE => 1
  | OPT_INT16_TYPE | OPT_UINT16_TYPE => 2
  | OPT_INT32_TYPE | OPT_UINT32_TYPE => 4
  | OPT_IPV4_ADDRESS_TYPE => 4
  | OPT_IPV6_ADDRESS_TYPE => 16
  | OPT_PSID_TYPE => 3
  | _ => 0
  end.

(** ** Bytes *)

Definition byte_at (buf : list Z) (i : nat) : res Z :=
  match buf !! i with Some b => Ok b | None => Throw AssertionFailure end.
(** [len] bytes from the position [i]. *)
Definition bytes_at (buf : list Z) (i len : nat) : res (list Z) :=
  if (i + len <=? length buf)%nat then Ok (take len (drop i buf)) else Throw AssertionFailure.

Definition readUint16 (buf : list Z) : res Z :=
  _ ← throw_if (length buf <? 2)%nat OutOfRange; mret (be_combine (take 2 buf)).
Definition readUint32 (buf : list Z) : res Z :=
  _ ← throw_if (length buf <? 4)%nat OutOfRange; mret (be_combine (take 4 buf)).

(** [catch (const isc::Exception&) { isc_throw(e, ...) }]. *)
Definition rethrow {A} (e : exc) (r : res A) : res A :=
  match r with
  | Throw e' => Throw (if catchable e' then e else e')
  | _ => r
  end.

(** ** Tuples *)

Inductive LengthFieldType := LENGTH_1_BYTE | LENGTH_2_BYTES.

Definition readTuple (buf : list Z) (lengthfieldtype : LengthFieldType) : res (list Z) :=
  match lengthfieldtype with
  | LENGTH_1_BYTE =>
      _ ← throw_if (length buf <? 1)%nat BadDataTypeCast;
      len ← byte_at buf 0;
      _ ← throw_if (Z.of_nat (length buf) <? 1 + len) BadDataTypeCast;
      bytes_at buf 1 (Z.to_nat len)
  | LENGTH_2_BYTES =>
      _ ← throw_if (length buf <? 2)%nat BadDataTypeCast;
      len ← readUint16 buf;
      _ ← throw_if (Z.of_nat (length buf) <? 2 + len) BadDataTypeCast;
      bytes_at buf 2 (Z.to_nat len)
  end.

Definition writeTuple (value : list Z) (lengthfieldtype : LengthFieldType) : res (list Z) :=
  let size := Z.of_nat (length value) in
  match lengthfieldtype with
  | LENGTH_1_BYTE => _ ← throw_if (255 <? size) BadDataTypeCast; mret (be_split 1 size ++ value)
  | LENGTH_2_BYTES => _ ← throw_if (65535 <? size) BadDataTypeCast; mret (be_split 2 size ++ value)
  end.

(** [OpaqueDataTuple]: its bytes, as they are read from a buffer and written. *)
Definition getDataFieldSize (length_field_type : LengthFieldType) : nat :=
  match length_field_type with LENGTH_1_BYTE => 1 | LENGTH_2_BYTES => 2 end.

Definition tuple_unpack (length_field_type : LengthFieldType) (buf : list Z) : res (list Z) :=
  let size := getDataFieldSize length_field_type in
  _ ← throw_if (length buf <? size)%nat OpaqueDataTupleError;
  len ← match length_field_type with
        | LENGTH_1_BYTE => byte_at buf 0
        | LENGTH_2_BYTES => readUint16 buf
        end;
  _ ← throw_if (Z.of_nat (length buf - size) <? len) OpaqueDataTupleError;
  bytes_at buf size (Z.to_nat len).

Definition tuple_pack (length_field_type : LengthFieldType) (data : list Z) : res (list Z) :=
  let size := getDataFieldSize length_field_type in
  _ ← throw_if (length data =? 0)%nat OpaqueDataTupleError;
  _ ← throw_if (Z.shiftl 1 (8 * Z.of_nat size) <=? Z.of_nat (length data)) OpaqueDataTupleError;
  mret (be_split size (Z.of_nat (length data)) ++ data).

(** [readTuple] and [writeTuple] on an [OpaqueDataTuple]. *)
Definition readOpaqueTuple (buf : list Z) (t : LengthFieldType) : res (list Z) :=
  match tuple_unpack t buf with
  | Throw OpaqueDataTupleError => Throw BadDataTypeCast
  | r => r
  end.
Definition writeOpaqueTuple (data : list Z) (t : LengthFieldType) : res (list Z) :=
  _ ← throw_if (length data =? 0)%nat BadDataTypeCast;
  writeTuple data t.

(** ** Booleans, names *)

Definition readBool (buf : list Z) : res bool :=
  match buf with
  | [] => Throw BadDataTypeCast
  | b :: _ => if b =? 1 then Ok true else if b =? 0 then Ok false else Throw BadDataTypeCast
  end.
Definition writeBool (value : bool) : list Z := [if value then 1 else 0].

(** The text of the name. *)
Definition readFqdn (buf : list Z) : res (list Z) :=
  _ ← throw_if (bool_decide (buf = [])) BadDataTypeCast;
  rethrow BadDataTypeCast ('(name, _) ← name_fromWire false buf 0; name_toText false name).
Definition writeFqdn (fqdn : list Z) (downcase : bool) : res (list Z) :=
  rethrow BadDataTypeCast (name ← mkName downcase fqdn; mret (ndata_ name)).

(** ** IPv6 prefixes *)

(** [prefix_len_bytes] and [zero_padded_bits] of a prefix length, an 8-bit integer that its
    class [PrefixLen] does not check. *)
Definition prefix_padding (prefix_len : Z) : Z := (8 - prefix_len `mod` 8) `mod` 8.
Definition prefix_bytes (prefix_len : Z) : Z :=
  prefix_len `div` 8 + (if 0 <? prefix_padding prefix_len then 1 else 0).

(** [(b >> bits) << bits] for a byte. *)
Definition clear_low_bits (bits b : Z) : Z := u8 (Z.shiftl (Z.shiftr b bits) bits).

Definition readPrefix (buf : list Z) : res (Z * IOAddress) :=
  _ ← throw_if (bool_decide (buf = [])) BadDataTypeCast;
  prefix_len ← byte_at buf 0;
  let n := Z.to_nat (prefix_bytes prefix_len) in
  let pad := prefix_padding prefix_len in
  _ ← throw_if (length buf - 1 <? n)%nat BadDataTypeCast;
  prefix ← (if (1 <? length buf)%nat then
              let prefix_buf := drop 1 buf in
              let prefix_buf :=
                if (length prefix_buf <? 16)%nat then
                  (* [resize] to 16 bytes, then [fill] from the byte [n] *)
                  if (n <? 16)%nat then
                    let filled := take n prefix_buf ++ replicate (16 - n)%nat 0 in
                    if 0 <? pad then alter (clear_low_bits pad) (n - 1)%nat filled else filled
                  else prefix_buf ++ replicate (16 - length prefix_buf)%nat 0
                else prefix_buf in
              fromBytes AF_INET6 prefix_buf
            else mret IPV6_ZERO_ADDRESS);
  mret (prefix_len, prefix).

Definition writePrefix (prefix_len : Z) (prefix : IOAddress) : res (list Z) :=
  _ ← throw_if (negb (isV6 prefix)) BadDataTypeCast;
  let n := Z.to_nat (prefix_bytes prefix_len) in
  let pad := prefix_padding prefix_len in
  bytes ← bytes_at (toBytes prefix) 0 n;
  mret (prefix_len :: (if 0 <? pad then alter (clear_low_bits pad) (n - 1)%nat bytes else bytes)).

(** ** Port set identifiers *)

Definition u16 (z : Z) : Z := z `mod` 65536.

Definition psid_mask (psid_len : Z) : Z := Z.shiftr (u16 (Z.shiftl 0xFFFF psid_len)) psid_len.

Definition readPsid (buf : list Z) : res (Z * Z) :=
  _ ← throw_if (length buf <? 3)%nat BadDataTypeCast;
  psid_len ← byte_at buf 0;
  _ ← throw_if (16 <? psid_len) BadDataTypeCast;
  psid ← readUint16 (drop 1 buf);
  _ ← throw_if ((0 <? psid_len) && negb (Z.land psid (psid_mask psid_len) =? 0)) BadDataTypeCast;
  mret (psid_len, if psid_len =? 16 then 0 else Z.shiftr psid (16 - psid_len)).

Definition writePsid (psid_len psid : Z) : res (list Z) :=
  _ ← throw_if (16 <? psid_len) BadDataTypeCast;
  _ ← throw_if ((0 <? psid_len) && (Z.shiftr 0xFFFF (16 - psid_len) <? psid)) BadDataTypeCast;
  mret (psid_len :: be_split 2 (u16 (Z.shiftl psid (16 - psid_len)))).

(** ** Lemmas *)

Lemma be_combine_split_small n z :
  0 ≤ z < 256 ^ Z.of_nat n → be_combine (be_split n z) = z.
Proof. intros Hz. rewrite be_combine_split. by apply Z.mod_small. Qed.

Lemma be_split_mod n z : be_split n (z `mod` 256 ^ Z.of_nat n) = be_split n z.
Proof.
  apply be_combine_inj; auto using be_split_bytes; [by rewrite !length_be_split|].
  rewrite !be_combine_split. apply Z.mod_mod. pose proof (pow256_pos n). lia.
Qed.

(** The first bytes of a number. *)
Lemma take_be_split n m z :
  take n (be_split (n + m) z) = be_split n (z `div` 256 ^ Z.of_nat m).
Proof.
  induction n as [|n IH]; [done|]. cbn [be_split take Nat.add]. f_equal; [|exact IH].
  rewrite Nat2Z.inj_add, Z.pow_add_r by lia.
  rewrite Z.mul_comm, Z.div_div; auto; pose proof (pow256_pos m); pose proof (pow256_pos n); lia.
Qed.

Lemma be_split_snoc n z : be_split (S n) z = be_split n (z `div` 256) ++ [z `mod` 256].
Proof.
  induction n as [|n IH]; [cbn; by rewrite Z.div_1_r|].
  cbn [be_split] in IH |- *. rewrite IH. cbn [app]. f_equal.
  rewrite pow256_succ, <- Z.div_div by (pose proof (pow256_pos n); lia). done.
Qed.

(** The last byte with its low bits cleared. *)
Lemma alter_last_be_split bits n z :
  0 ≤ bits ≤ 8 →
  alter (clear_low_bits bits) n (be_split (S n) z)
  = be_split (S n) (z `div` 2 ^ bits * 2 ^ bits).
Proof.
  intros Hb. rewrite !be_split_snoc, alter_app_r_alt by (rewrite length_be_split; lia).
  rewrite length_be_split, Nat.sub_diag. cbn [alter list_alter].
  assert (2 ^ 8 = 2 ^ bits * 2 ^ (8 - bits)) as E8 by (rewrite <- Z.pow_add_r; [f_equal|..]; lia).
  assert (0 < 2 ^ bits ∧ 0 < 2 ^ (8 - bits)) as [P1 P2] by (split; apply Z.pow_pos_nonneg; lia).
  change 256 with (2 ^ 8).
  assert ((z `div` 2 ^ bits * 2 ^ bits) `div` 2 ^ 8 = z `div` 2 ^ 8) as ->.
  { rewrite E8, <- !Z.div_div, Z.div_mul by lia. done. }
  do 2 f_equal. unfold clear_low_bits, u8. rewrite Z.shiftl_mul_pow2, Z.shiftr_div_pow2 by lia.
  change 256 with (2 ^ 8). rewrite E8.
  rewrite (Z.rem_mul_r z) by lia.
  rewrite (Z.mul_comm (2 ^ bits) ((_ `div` _) `mod` _)), Z.div_add by lia.
  rewrite (Z.div_small (z `mod` _)) by (apply Z.mod_pos_bound; lia). rewrite Z.add_0_l.
  rewrite (Z.mul_comm (2 ^ bits) (2 ^ (8 - bits))), !Z.mul_mod_distr_r by lia.
  by rewrite Z.mod_mod by lia.
Qed.

(** ** Tuples *)

Section Tuples.
Implicit Types (t : LengthFieldType) (data rest : list Z).

Definition tuple_max t : Z := match t with LENGTH_1_BYTE => 255 | LENGTH_2_BYTES => 65535 end.

Lemma getDataFieldSize_max t : 256 ^ Z.of_nat (getDataFieldSize t) = tuple_max t + 1.
Proof. by destruct t. Qed.

Lemma bytes_at_app l data rest :
  bytes_at (l ++ data ++ rest) (length l) (length data) = Ok data.
Proof.
  unfold bytes_at. rewrite !length_app.
  rewrite (proj2 (Nat.leb_le _ _)) by lia.
  by rewrite drop_app_length, take_app_length.
Qed.

Lemma writeTuple_wire t data :
  Z.of_nat (length data) ≤ tuple_max t →
  writeTuple data t = Ok (be_split (getDataFieldSize t) (Z.of_nat (length data)) ++ data).
Proof.
  intros Hl. unfold writeTuple. destruct t; cbn [tuple_max] in Hl;
    (rewrite (proj2 (Z.ltb_ge _ _)) by lia); done.
Qed.

Lemma tuple_pack_wire t data :
  data ≠ [] → Z.of_nat (length data) ≤ tuple_max t →
  tuple_pack t data = Ok (be_split (getDataFieldSize t) (Z.of_nat (length data)) ++ data).
Proof.
  intros Hne Hl. unfold tuple_pack.
  rewrite (proj2 (Nat.eqb_neq _ _)) by (by intros ->%length_zero_iff_nil).
  rewrite (proj2 (Z.leb_gt _ _)); [done|].
  rewrite Z.shiftl_mul_pow2 by lia.
  rewrite Z.mul_1_l, <- pow256_pow2, getDataFieldSize_max. lia.
Qed.

(** What [be_split] wrote is the length that is read. *)
Lemma readUint16_app n rest : readUint16 (be_split 2 n ++ rest) = Ok (n `mod` 65536).
Proof.
  unfold readUint16. rewrite length_app, length_be_split. cbn [Nat.ltb Nat.leb Nat.add throw_if].
  change 2%nat with (length (be_split 2 n)) at 1. cbn [mbind res_bind].
  rewrite take_app_length. by rewrite be_combine_split.
Qed.

Lemma tuple_unpack_wire t data rest :
  Z.of_nat (length data) ≤ tuple_max t →
  tuple_unpack t (be_split (getDataFieldSize t) (Z.of_nat (length data)) ++ data ++ rest)
  = Ok data.
Proof.
  intros Hl. unfold tuple_unpack.
  pose proof (bytes_at_app (be_split (getDataFieldSize t) (Z.of_nat (length data))) data rest)
    as Hb. rewrite length_be_split in Hb.
  rewrite !length_app, length_be_split.
  assert (match t with
          | LENGTH_1_BYTE => byte_at (be_split (getDataFieldSize t) (Z.of_nat (length data))
                                      ++ data ++ rest) 0
          | LENGTH_2_BYTES => readUint16 (be_split (getDataFieldSize t) (Z.of_nat (length data))
                                          ++ data ++ rest)
          end = Ok (Z.of_nat (length data))) as Hlen.
  { destruct t; cbn [getDataFieldSize tuple_max] in *.
    - cbn -[Z.div Z.modulo]. rewrite Z.div_1_r, Z.mod_small by lia. done.
    - rewrite readUint16_app, Z.mod_small by lia. done. }
  rewrite (proj2 (Nat.ltb_ge _ _)) by lia. cbn [throw_if mbind res_bind] in Hlen |- *.
  rewrite Hlen. cbn [mbind res_bind].
  rewrite (proj2 (Z.ltb_ge _ _)) by lia. cbn [throw_if mbind res_bind].
  rewrite Nat2Z.id. exact Hb.
Qed.

Lemma readTuple_wire t data rest :
  Z.of_nat (length data) ≤ tuple_max t →
  readTuple (be_split (getDataFieldSize t) (Z.of_nat (length data)) ++ data ++ rest) t
  = Ok data.
Proof.
  intros Hl.
  pose proof (bytes_at_app (be_split (getDataFieldSize t) (Z.of_nat (length data))) data rest)
    as Hb. rewrite length_be_split in Hb.
  unfold readTuple. rewrite !length_app, length_be_split.
  destruct t; cbn [getDataFieldSize tuple_max] in *;
    (rewrite (proj2 (Nat.ltb_ge _ _)) by lia); cbn [throw_if].
  - cbn [be_split app]. change (256 ^ Z.of_nat 0) with 1.
    rewrite Z.div_1_r, Z.mod_small by lia. cbn [byte_at lookup list_lookup mbind res_bind].
    rewrite (proj2 (Z.ltb_ge _ _)) by lia. cbn [throw_if mbind res_bind].
    rewrite Nat2Z.id. cbn [be_split app] in Hb. change (256 ^ Z.of_nat 0) with 1 in Hb.
    rewrite Z.div_1_r, Z.mod_small in Hb by lia. exact Hb.
  - cbn [mbind res_bind]. rewrite readUint16_app, Z.mod_small by lia. cbn [mbind res_bind].
    rewrite (proj2 (Z.ltb_ge _ _)) by lia. cbn [throw_if mbind res_bind].
    rewrite Nat2Z.id. exact Hb.
Qed.
End Tuples.

(** A tuple whose length fits its length field is read back, whatever follows it in the
    buffer; so is one that [OpaqueDataTuple::pack] writes. *)
Theorem tuple_roundtrip (t : LengthFieldType) (data rest : list Z)
    (Hl : Z.of_nat (length data) ≤ tuple_max t) :
  (buf ← writeTuple data t; readTuple (buf ++ rest) t) = Ok data
  ∧ (data ≠ [] → (buf ← tuple_pack t data; tuple_unpack t (buf ++ rest)) = Ok data).
Proof.
  split; [|intros Hne]; rewrite ?writeTuple_wire, ?tuple_pack_wire by done;
    cbn [mbind res_bind]; rewrite <- app_assoc; auto using readTuple_wire, tuple_unpack_wire.
Qed.

Lemma tuple_roundtrip_witness :
  Z.of_nat (length [7; 8]) ≤ tuple_max LENGTH_1_BYTE
  ∧ (buf ← writeTuple [7; 8] LENGTH_1_BYTE; readTuple (buf ++ [9]) LENGTH_1_BYTE) = Ok [7; 8].
Proof.
  assert (Z.of_nat (length [7; 8]) ≤ tuple_max LENGTH_1_BYTE) as Hl by (vm_compute; discriminate).
  split; [exact Hl|]. exact (proj1 (tuple_roundtrip LENGTH_1_BYTE [7; 8] [9] Hl)).
Defined.

(** ** Prefixes *)

Section Prefixes.
Context (len : Z) (Hlen : 0 ≤ len ≤ 128).

Lemma prefix_sizes :
  8 * prefix_bytes len = len + prefix_padding len
  ∧ 0 ≤ prefix_padding len < 8 ∧ 0 ≤ prefix_bytes len ≤ 16.
Proof using Hlen.
  unfold prefix_bytes, prefix_padding.
  destruct (Z.ltb_spec 0 ((8 - len `mod` 8) `mod` 8)); Z.to_euclidean_division_equations; lia.
Qed.

Let n := Z.to_nat (prefix_bytes len).
Let pad := prefix_padding len.

(** The bytes of the last partly used byte on: its low bits are cleared. *)
Lemma pad_bytes z :
  (if 0 <? pad then alter (clear_low_bits pad) (n - 1)%nat (be_split n z) else be_split n z)
  = be_split n (z `div` 2 ^ pad * 2 ^ pad).
Proof using Hlen.
  destruct prefix_sizes as (E & Hp & Hn). subst n pad.
  destruct (Z.ltb_spec 0 (prefix_padding len)) as [Hpos|Hz].
  - destruct (Z.to_nat (prefix_bytes len)) as [|m] eqn:Em; [lia|].
    replace (S m - 1)%nat with m by lia. apply alter_last_be_split. lia.
  - replace (prefix_padding len) with 0 by lia. by rewrite Z.div_1_r, Z.mul_1_r.
Qed.

Lemma pow_rest : 256 ^ Z.of_nat (16 - n) * 2 ^ pad = 2 ^ (128 - len).
Proof using Hlen.
  destruct prefix_sizes as (E & Hp & Hn). subst n pad.
  rewrite pow256_pow2, <- Z.pow_add_r by lia. f_equal. lia.
Qed.

Lemma writePrefix_wire v :
  writePrefix len (V6 v) = Ok (len :: be_split n (v `div` 2 ^ (128 - len) * 2 ^ pad)).
Proof using Hlen.
  destruct prefix_sizes as (E & Hp & Hn).
  unfold writePrefix. cbn [isV6 negb throw_if toBytes].
  fold n pad. unfold bytes_at. rewrite length_be_split.
  assert (n ≤ 16)%nat as Hn16 by (subst n; lia).
  cbn [mbind res_bind]. rewrite Nat.add_0_l, (proj2 (Nat.leb_le _ _)) by done.
  cbn [mbind res_bind]. rewrite drop_0.
  replace (take n (be_split 16 v)) with (be_split n (v `div` 256 ^ Z.of_nat (16 - n)))
    by (rewrite <- take_be_split; do 2 f_equal; lia).
  rewrite pad_bytes. rewrite <- pow_rest, Z.div_div; [done| |].
  - pose proof (pow256_pos (16 - n)). lia.
  - apply Z.pow_pos_nonneg; subst pad; lia.
Qed.

Lemma readPrefix_wire w :
  0 ≤ w < 2 ^ len →
  readPrefix (len :: be_split n (w * 2 ^ pad)) = Ok (len, V6 (w * 2 ^ (128 - len))).
Proof using Hlen.
  intros Hw. destruct prefix_sizes as (E & Hp & Hn).
  assert (0 < 2 ^ pad) as Hpos by (apply Z.pow_pos_nonneg; subst pad; lia).
  assert (256 ^ Z.of_nat n = 2 ^ len * 2 ^ pad) as En.
  { rewrite pow256_pow2, <- Z.pow_add_r by (subst pad; lia). f_equal. subst n pad. lia. }
  assert (n ≤ 16)%nat as Hn16 by (subst n; lia).
  unfold readPrefix. cbn [bool_decide decide]. rewrite bool_decide_eq_false_2 by done.
  cbn [throw_if mbind res_bind byte_at lookup list_lookup].
  fold n pad. cbn [length]. rewrite length_be_split. replace (S n - 1)%nat with n by lia.
  rewrite Nat.ltb_irrefl. cbn [throw_if mbind res_bind drop].
  assert (be_combine (be_split n (w * 2 ^ pad)) = w * 2 ^ pad) as Eb.
  { apply be_combine_split_small. rewrite En. nia. }
  destruct (Nat.ltb_spec 1 (S n)) as [Hn1|Hn0].
  - unfold fromBytes.
    assert (be_combine (take 16
      (if (n <? 16)%nat then
         if (n <? 16)%nat then
           if 0 <? pad then
             alter (clear_low_bits pad) (n - 1)%nat
               (take n (be_split n (w * 2 ^ pad)) ++ replicate (16 - n) 0)
           else take n (be_split n (w * 2 ^ pad)) ++ replicate (16 - n) 0
         else be_split n (w * 2 ^ pad) ++ replicate (16 - n) 0
       else be_split n (w * 2 ^ pad))) = w * 2 ^ (128 - len)) as Hcomb.
    { destruct (Nat.ltb_spec n 16) as [Hlt|Hge].
      - rewrite (take_ge (be_split n (w * 2 ^ pad)) n) by (rewrite length_be_split; lia).
        assert ((if 0 <? pad then
                   alter (clear_low_bits pad) (n - 1)%nat
                     (be_split n (w * 2 ^ pad) ++ replicate (16 - n) 0)
                 else be_split n (w * 2 ^ pad) ++ replicate (16 - n) 0)
                = be_split n (w * 2 ^ pad) ++ replicate (16 - n) 0) as ->.
        { destruct (Z.ltb_spec 0 pad) as [Hpp|]; [|done].
          rewrite alter_app_l by (rewrite length_be_split; lia). f_equal.
          pose proof (pad_bytes (w * 2 ^ pad)) as Hpb.
          rewrite (proj2 (Z.ltb_lt _ _)), Z.div_mul in Hpb by lia. exact Hpb. }
        rewrite take_ge by (rewrite length_app, length_be_split, length_replicate; lia).
        rewrite be_combine_app, be_combine_replicate0, length_replicate, Eb, <- pow_rest. ring.
      - assert (n = 16)%nat as E16 by lia. rewrite take_ge by (rewrite length_be_split; lia).
        rewrite Eb, <- pow_rest, E16. cbn [Nat.sub]. change (256 ^ Z.of_nat 0) with 1. ring. }
    rewrite !drop_0, length_be_split, Hcomb. done.
  - assert (n = 0%nat) as E0 by lia. cbn. unfold IPV6_ZERO_ADDRESS. do 3 f_equal.
    assert (len = 0) as -> by (subst n pad; lia). change (2 ^ 0) with 1 in Hw. lia.
Qed.
End Prefixes.

(** A prefix that is written is read back as its first [len] bits; the other bits of the
    address are neither sent nor received. *)
Theorem prefix_roundtrip (len v : Z) (Hlen : 0 ≤ len ≤ 128) (Hv : 0 ≤ v < 2 ^ 128) :
  (buf ← writePrefix len (V6 v); readPrefix buf)
  = Ok (len, V6 (v `div` 2 ^ (128 - len) * 2 ^ (128 - len))).
Proof.
  rewrite writePrefix_wire by done. cbn [mbind res_bind].
  apply readPrefix_wire; [done|].
  assert (0 < 2 ^ (128 - len)) by (apply Z.pow_pos_nonneg; lia).
  split; [apply Z.div_pos; lia|]. apply Z.div_lt_upper_bound; [lia|].
  rewrite <- Z.pow_add_r by lia. replace (128 - len + len) with 128 by lia. lia.
Qed.

Lemma prefix_roundtrip_witness :
  0 ≤ 60 ≤ 128
  ∧ (buf ← writePrefix 60 (V6 (0x20010db8000000f1 * 2 ^ 64)); readPrefix buf)
    = Ok (60, V6 (0x20010db8000000f0 * 2 ^ 64)).
Proof.
  split; [lia|]. exact (prefix_roundtrip 60 (0x20010db8000000f1 * 2 ^ 64)
    ltac:(lia) ltac:(lia)).
Defined.

(** ** Port set identifiers *)

(** The mask selects the bits beyond the length. *)
Lemma psid_mask_ones k : 0 ≤ k ≤ 16 → psid_mask k = Z.ones (16 - k).
Proof.
  intros Hk.
  assert (forallb (λ k, psid_mask k =? Z.ones (16 - k)) (seqZ 0 17) = true) as Hall
    by (by vm_compute).
  apply Z.eqb_eq. apply (forallb_seqZ _ _ _ Hall). lia.
Qed.

(** A port set identifier of 1 to 15 bits is read back; of one of 16 bits, the whole
    value is lost. *)
Theorem psid_roundtrip (psid_len psid : Z) (Hk : 0 < psid_len ≤ 16)
    (Hp : 0 ≤ psid < 2 ^ psid_len) :
  (buf ← writePsid psid_len psid; readPsid buf)
  = Ok (psid_len, if psid_len =? 16 then 0 else psid).
Proof.
  assert (0 < 2 ^ (16 - psid_len)) as Hpos by (apply Z.pow_pos_nonneg; lia).
  assert (2 ^ psid_len * 2 ^ (16 - psid_len) = 65536) as E16
    by (rewrite <- Z.pow_add_r by lia; by replace (psid_len + (16 - psid_len)) with 16 by lia).
  unfold writePsid. rewrite (proj2 (Z.ltb_ge 16 psid_len)) by lia. cbn [throw_if mbind res_bind].
  assert (Z.shiftr 0xFFFF (16 - psid_len) = 2 ^ psid_len - 1) as ->.
  { rewrite Z.shiftr_div_pow2 by lia. symmetry. apply (Z.div_unique _ _ _ (2 ^ (16 - psid_len) - 1)); lia. }
  rewrite (proj2 (Z.ltb_ge (2 ^ psid_len - 1) psid)), andb_false_r by lia.
  cbn [throw_if mbind res_bind mret res_ret].
  unfold readPsid. cbn [length]. rewrite length_be_split.
  cbn [Nat.ltb Nat.leb throw_if mbind res_bind byte_at lookup list_lookup drop].
  rewrite (proj2 (Z.ltb_ge 16 psid_len)) by lia. cbn [throw_if mbind res_bind].
  rewrite Z.shiftl_mul_pow2 by lia.
  assert (u16 (psid * 2 ^ (16 - psid_len)) = psid * 2 ^ (16 - psid_len)) as ->
    by (apply Z.mod_small; nia).
  rewrite drop_0, <- (app_nil_r (be_split 2 _)), readUint16_app, Z.mod_small by nia.
  cbn [mbind res_bind]. fold (psid_mask psid_len). rewrite psid_mask_ones, Z.land_ones by lia.
  rewrite Z.mod_mul, Z.eqb_refl, andb_false_r by lia. cbn [throw_if mbind res_bind].
  rewrite Z.shiftr_div_pow2, Z.div_mul by lia. done.
Qed.

Lemma psid_roundtrip_witness :
  0 < 4 ≤ 16 ∧ (buf ← writePsid 4 13; readPsid buf) = Ok (4, 13).
Proof. split; [lia|]. exact (psid_roundtrip 4 13 ltac:(lia) ltac:(lia)). Defined.

(** ** What the code does not do *)

(** The bits beyond the length of a prefix are not cleared when the buffer has 16 bytes of
    address or more, as for a length above 120. *)
Lemma readPrefix_keeps_bits :
  readPrefix (121 :: replicate 16 255) = Ok (121, V6 (2 ^ 128 - 1))
  ∧ readPrefix (64 :: replicate 16 255) = Ok (64, V6 (2 ^ 128 - 1))
  ∧ readPrefix (64 :: replicate 15 255) = Ok (64, V6 ((2 ^ 64 - 1) * 2 ^ 64)).
Proof. by vm_compute. Qed.

(** The length of a prefix is not checked: one above 128 is accepted by [readPrefix], and
    makes [writePrefix] read beyond the bytes of the address. *)
Lemma prefix_length_unchecked :
  readPrefix (200 :: replicate 25 1) = Ok (200, V6 (be_combine (replicate 16 1)))
  ∧ writePrefix 200 (V6 1) = Throw AssertionFailure.
Proof. by vm_compute. Qed.

Lemma psid_of_16_bits_is_lost : readPsid [16; 0x12; 0x34] = Ok (16, 0).
Proof. by vm_compute. Qed.

(** An empty tuple can be read, and not packed. *)
Lemma empty_tuple_cannot_be_packed :
  tuple_unpack LENGTH_1_BYTE [0] = Ok [] ∧ tuple_pack LENGTH_1_BYTE [] = Throw OpaqueDataTupleError.
Proof. by vm_compute. Qed.
