(* ===== verification/OptionDef.v ===== *)
(** * Definitions of options ([src/lib/dhcp/option_definition.cc], [option_space.cc],
      [libdhcp++.cc])

    What an [OptionDefinition] says of an option: its code, the types of its data fields and the
    option space it encapsulates, with the checks of [validate] and the formats for which
    there are special classes; and the containers in which [LibDHCP] finds a definition by
    its space and its code. *)

From S2P Require Import Prelude DnsName OptionSpace OptionTypes.
Local Open Scope Z_scope.

(** ** Definitions *)

Record OptionDefinition := {
  def_name_ : string;
  def_code_ : Z;
  def_type_ : OptionDataType;
  def_array_type_ : bool;
  def_encapsulated_space_ : string;
  record_fields_ : list OptionDataType
}.

#[export] Instance OptionDefinition_eq_dec : EqDecision OptionDefinition.
Proof. solve_decision. Defined.

(** The two constructors that take a data type. *)
Definition mkOptionDefinition (name : string) (code : Z) (type : OptionDataType)
    (array_type : bool) : OptionDefinition :=
  {| def_name_ := name; def_code_ := code; def_type_ := type; def_array_type_ := array_type;
     def_encapsulated_space_ := ""; record_fields_ := [] |}.
Definition mkEncapsulating (name : string) (code : Z) (type : OptionDataType)
    (encapsulated_space : string) : OptionDefinition :=
  {| def_name_ := name; def_code_ := code; def_type_ := type; def_array_type_ := false;
     def_encapsulated_space_ := encapsulated_space; record_fields_ := [] |}.

(** [data_type >= OPT_RECORD_TYPE], in the order of the enumeration. *)
Definition from_record_on (t : OptionDataType) : bool :=
  match t with OPT_RECORD_TYPE | OPT_UNKNOWN_TYPE => true | _ => false end.

Definition addRecordField (data_type : OptionDataType) (def : OptionDefinition)
    : res OptionDefinition :=
  _ ← throw_if (bool_decide (def_type_ def ≠ OPT_RECORD_TYPE)) InvalidOperation;
  _ ← throw_if (from_record_on data_type || bool_decide (data_type = OPT_ANY_ADDRESS_TYPE)
                || bool_decide (data_type = OPT_EMPTY_TYPE)) BadValue;
  mret {| def_name_ := def_name_ def; def_code_ := def_code_ def; def_type_ := def_type_ def;
          def_array_type_ := def_array_type_ def;
          def_encapsulated_space_ := def_encapsulated_space_ def;
          record_fields_ := record_fields_ def ++ [data_type] |}.

(** ** Validation *)

(** The loop over the fields of a record: no string, binary or empty field before the last,
    and no empty field. *)
Fixpoint fields_in_order (fields : list OptionDataType) : bool :=
  match fields with
  | [] => true
  | field :: fields' =>
      negb (bool_decide (field = OPT_STRING_TYPE) && negb (bool_decide (fields' = [])))
      && negb (bool_decide (field = OPT_BINARY_TYPE) && negb (bool_decide (fields' = [])))
      && negb (bool_decide (field = OPT_EMPTY_TYPE))
      && fields_in_order fields'
  end.

Definition sized_in_array (t : OptionDataType) : bool :=
  match t with OPT_STRING_TYPE | OPT_BINARY_TYPE => false | _ => true end.

Definition def_ok (def : OptionDefinition) : bool :=
  let fields := record_fields_ def in
  if negb (validateName (def_name_ def)) then false
  else if negb (bool_decide (def_encapsulated_space_ def = ""))
          && negb (validateName (def_encapsulated_space_ def)) then false
  else match def_type_ def with
       | OPT_UNKNOWN_TYPE => false
       | OPT_RECORD_TYPE =>
           if (length fields <? 2)%nat then false
           else fields_in_order fields
                && (negb (def_array_type_ def)
                    || match last fields with Some t => sized_in_array t | None => true end)
       | t => negb (def_array_type_ def)
              || (sized_in_array t && negb (bool_decide (t = OPT_EMPTY_TYPE)))
       end.

(** [OptionDefinition::validate]. *)
Definition validate (def : OptionDefinition) : res unit :=
  throw_if (negb (def_ok def)) MalformedOptionDefinition.

(** ** Formats with a class of their own *)

Definition haveType (type : OptionDataType) (def : OptionDefinition) : bool :=
  bool_decide (type = def_type_ def).
Definition have_fields (l : list OptionDataType) (def : OptionDefinition) : bool :=
  haveType OPT_RECORD_TYPE def && bool_decide (record_fields_ def = l).

Definition haveIAx6Format (first_type : OptionDataType) (def : OptionDefinition) : bool :=
  negb (def_array_type_ def) && have_fields [first_type; OPT_UINT32_TYPE; OPT_UINT32_TYPE] def.
Definition haveIA6Format : OptionDefinition → bool := haveIAx6Format OPT_UINT32_TYPE.
Definition haveIAAddr6Format : OptionDefinition → bool := haveIAx6Format OPT_IPV6_ADDRESS_TYPE.
Definition haveIAPrefix6Format (def : OptionDefinition) : bool :=
  negb (def_array_type_ def)
  && have_fields [OPT_UINT32_TYPE; OPT_UINT32_TYPE; OPT_UINT8_TYPE; OPT_IPV6_ADDRESS_TYPE] def.
Definition haveFqdn4Format (def : OptionDefinition) : bool :=
  negb (def_array_type_ def)
  && have_fields [OPT_UINT8_TYPE; OPT_UINT8_TYPE; OPT_UINT8_TYPE; OPT_FQDN_TYPE] def.
Definition haveClientFqdnFormat (def : OptionDefinition) : bool :=
  negb (def_array_type_ def) && have_fields [OPT_UINT8_TYPE; OPT_FQDN_TYPE] def.
Definition haveVendor4Format (def : OptionDefinition) : bool := true.
Definition haveVendor6Format (def : OptionDefinition) : bool :=
  bool_decide (def_type_ def = OPT_UINT32_TYPE) && negb (bool_decide (def_encapsulated_space_ def = "")).
Definition haveVendorClass4Format : OptionDefinition → bool :=
  have_fields [OPT_UINT32_TYPE; OPT_BINARY_TYPE].
Definition haveVendorClass6Format : OptionDefinition → bool :=
  have_fields [OPT_UINT32_TYPE; OPT_BINARY_TYPE].
Definition haveStatusCodeFormat : OptionDefinition → bool :=
  have_fields [OPT_UINT16_TYPE; OPT_STRING_TYPE].
Definition haveServiceScopeFormat : OptionDefinition → bool :=
  have_fields [OPT_BOOLEAN_TYPE; OPT_STRING_TYPE].
Definition haveOpaqueDataTuplesFormat (def : OptionDefinition) : bool :=
  haveType OPT_TUPLE_TYPE def && def_array_type_ def.
Definition haveCompressedFqdnListFormat (def : OptionDefinition) : bool :=
  haveType OPT_FQDN_TYPE def && def_array_type_ def.

(** ** Tables of parameters *)

Record OptionDefParams := params {
  par_name : string;
  par_code : Z;
  par_type : OptionDataType;
  par_array : bool;
  par_records : list OptionDataType;
  par_encapsulates : string
}.

(** The body of the loop of [initOptionSpace]. *)
Definition init_definition (p : OptionDefParams) : res OptionDefinition :=
  _ ← throw_if (negb (bool_decide (par_encapsulates p = "")) && par_array p) BadValue;
  let definition :=
    if bool_decide (par_encapsulates p = "")
    then mkOptionDefinition (par_name p) (par_code p) (par_type p) (par_array p)
    else mkEncapsulating (par_name p) (par_code p) (par_type p) (par_encapsulates p) in
  definition ← foldl (λ d t, d ← d; addRecordField t d) (Ok definition) (par_records p);
  _ ← validate definition;
  mret definition.

(** [initOptionSpace]: the container of the definitions, unless one of them is refused. *)
Fixpoint initOptionSpace (l : list OptionDefParams) : res (list OptionDefinition) :=
  match l with
  | [] => mret []
  | p :: l' => def ← init_definition p; defs ← initOptionSpace l'; mret (def :: defs)
  end.

(** [equal_range] of the index by code. *)
Definition with_code (code : Z) (defs : list OptionDefinition) : list OptionDefinition :=
  filter (λ d, def_code_ d = code) defs.
