(* ===== verification/StdOptionDefs.v ===== *)
(** * The standard option definitions ([src/lib/dhcp/std_option_defs.h],
      [docsis3_option_defs.h])

    The tables from which [LibDHCP] makes its containers, in their order, and the containers
    themselves.  Every table is accepted and has no code twice. *)

From S2P Require Import Prelude OptionSpace OptionTypes OptionDef.
Local Open Scope Z_scope.

Definition VENDOR_ID_CABLE_LABS : Z := 4491.
Definition ENTERPRISE_ID_ISC : Z := 2495.

Definition DIRECTORY_AGENT_RECORDS := [OPT_BOOLEAN_TYPE; OPT_IPV4_ADDRESS_TYPE].
Definition SERVICE_SCOPE_RECORDS := [OPT_BOOLEAN_TYPE; OPT_STRING_TYPE].
Definition FQDN_RECORDS := [OPT_UINT8_TYPE; OPT_UINT8_TYPE; OPT_UINT8_TYPE; OPT_FQDN_TYPE].
Definition VIVCO_RECORDS := [OPT_UINT32_TYPE; OPT_BINARY_TYPE].
Definition CLIENT_NDI_RECORDS := [OPT_UINT8_TYPE; OPT_UINT8_TYPE; OPT_UINT8_TYPE].
Definition UUID_GUID_RECORDS := [OPT_UINT8_TYPE; OPT_BINARY_TYPE].
Definition V4_RDNSS_SELECT_RECORDS :=
  [OPT_UINT8_TYPE; OPT_IPV4_ADDRESS_TYPE; OPT_IPV4_ADDRESS_TYPE; OPT_FQDN_TYPE].
Definition V4_PORTPARAMS_RECORDS := [OPT_UINT8_TYPE; OPT_PSID_TYPE].
Definition OPT_6RD_RECORDS :=
  [OPT_UINT8_TYPE; OPT_UINT8_TYPE; OPT_IPV6_ADDRESS_TYPE; OPT_IPV4_ADDRESS_TYPE].
Definition CLIENT_FQDN_RECORDS := [OPT_UINT8_TYPE; OPT_FQDN_TYPE].
Definition GEOCONF_CIVIC_RECORDS := [OPT_UINT8_TYPE; OPT_UINT16_TYPE; OPT_BINARY_TYPE].
Definition IAADDR_RECORDS := [OPT_IPV6_ADDRESS_TYPE; OPT_UINT32_TYPE; OPT_UINT32_TYPE].
Definition IA_NA_RECORDS := [OPT_UINT32_TYPE; OPT_UINT32_TYPE; OPT_UINT32_TYPE].
Definition IA_PD_RECORDS := [OPT_UINT32_TYPE; OPT_UINT32_TYPE; OPT_UINT32_TYPE].
Definition IA_PREFIX_RECORDS :=
  [OPT_UINT32_TYPE; OPT_UINT32_TYPE; OPT_UINT8_TYPE; OPT_IPV6_ADDRESS_TYPE].
Definition LQ_QUERY_RECORDS := [OPT_UINT8_TYPE; OPT_IPV6_ADDRESS_TYPE].
Definition LQ_RELAY_DATA_RECORDS := [OPT_IPV6_ADDRESS_TYPE; OPT_BINARY_TYPE].
Definition REMOTE_ID_RECORDS := [OPT_UINT32_TYPE; OPT_BINARY_TYPE].
Definition S46_RULE :=
  [OPT_UINT8_TYPE; OPT_UINT8_TYPE; OPT_UINT8_TYPE; OPT_IPV4_ADDRESS_TYPE; OPT_IPV6_PREFIX_TYPE].
Definition S46_V4V6BIND := [OPT_IPV4_ADDRESS_TYPE; OPT_IPV6_PREFIX_TYPE].
Definition S46_PORTPARAMS := [OPT_UINT8_TYPE; OPT_PSID_TYPE].
Definition STATUS_CODE_RECORDS := [OPT_UINT16_TYPE; OPT_STRING_TYPE].
Definition VENDOR_CLASS_RECORDS := [OPT_UINT32_TYPE; OPT_BINARY_TYPE].
Definition V6_RDNSS_SELECT_RECORDS := [OPT_IPV6_ADDRESS_TYPE; OPT_UINT8_TYPE; OPT_FQDN_TYPE].
Definition SIGNATURE_RECORDS := [OPT_UINT8_TYPE; OPT_UINT8_TYPE; OPT_BINARY_TYPE].
Definition CLIENT_NII_RECORDS := [OPT_UINT8_TYPE; OPT_UINT8_TYPE; OPT_UINT8_TYPE].

Definition OPTION_DEF_PARAMS_S46_BR := params "s46-br" 90 OPT_IPV6_ADDRESS_TYPE false [] "".
Definition OPTION_DEF_PARAMS_S46_RULE :=
  params "s46-rule" 89 OPT_RECORD_TYPE false S46_RULE V4V6_RULE_OPTION_SPACE.
Definition OPTION_DEF_PARAMS_S46_PORTPARAMS :=
  params "s46-portparams" 93 OPT_RECORD_TYPE false S46_PORTPARAMS "".

Definition STANDARD_V4_OPTION_DEFINITIONS : list OptionDefParams :=
  [ params "subnet-mask" 1 OPT_IPV4_ADDRESS_TYPE false [] "";
    params "time-offset" 2 OPT_INT32_TYPE false [] "";
    params "routers" 3 OPT_IPV4_ADDRESS_TYPE true [] "";
    params "time-servers" 4 OPT_IPV4_ADDRESS_TYPE true [] "";
    params "name-servers" 5 OPT_IPV4_ADDRESS_TYPE true [] "";
    params "domain-name-servers" 6 OPT_IPV4_ADDRESS_TYPE true [] "";
    params "log-servers" 7 OPT_IPV4_ADDRESS_TYPE true [] "";
    params "cookie-servers" 8 OPT_IPV4_ADDRESS_TYPE true [] "";
    params "lpr-servers" 9 OPT_IPV4_ADDRESS_TYPE true [] "";
    params "impress-servers" 10 OPT_IPV4_ADDRESS_TYPE true [] "";
    params "resource-location-servers" 11 OPT_IPV4_ADDRESS_TYPE true [] "";
    params "host-name" 12 OPT_STRING_TYPE false [] "";
    params "boot-size" 13 OPT_UINT16_TYPE false [] "";
    params "merit-dump" 14 OPT_STRING_TYPE false [] "";
    params "domain-name" 15 OPT_STRING_TYPE false [] "";
    params "swap-server" 16 OPT_IPV4_ADDRESS_TYPE false [] "";
    params "root-path" 17 OPT_STRING_TYPE false [] "";
    params "extensions-path" 18 OPT_STRING_TYPE false [] "";
    params "ip-forwarding" 19 OPT_BOOLEAN_TYPE false [] "";
    params "non-local-source-routing" 20 OPT_BOOLEAN_TYPE false [] "";
    params "policy-filter" 21 OPT_IPV4_ADDRESS_TYPE true [] "";
    params "max-dgram-reassembly" 22 OPT_UINT16_TYPE false [] "";
    params "default-ip-ttl" 23 OPT_UINT8_TYPE false [] "";
    params "path-mtu-aging-timeout" 24 OPT_UINT32_TYPE false [] "";
    params "path-mtu-plateau-table" 25 OPT_UINT16_TYPE true [] "";
    params "interface-mtu" 26 OPT_UINT16_TYPE false [] "";
    params "all-subnets-local" 27 OPT_BOOLEAN_TYPE false [] "";
    params "broadcast-address" 28 OPT_IPV4_ADDRESS_TYPE false [] "";
    params "perform-mask-discovery" 29 OPT_BOOLEAN_TYPE false [] "";
    params "mask-supplier" 30 OPT_BOOLEAN_TYPE false [] "";
    params "router-discovery" 31 OPT_BOOLEAN_TYPE false [] "";
    params "router-solicitation-address" 32 OPT_IPV4_ADDRESS_TYPE false [] "";
    params "static-routes" 33 OPT_IPV4_ADDRESS_TYPE true [] "";
    params "trailer-encapsulation" 34 OPT_BOOLEAN_TYPE false [] "";
    params "arp-cache-timeout" 35 OPT_UINT32_TYPE false [] "";
    params "ieee802-3-encapsulation" 36 OPT_BOOLEAN_TYPE false [] "";
    params "default-tcp-ttl" 37 OPT_UINT8_TYPE false [] "";
    params "tcp-keepalive-interval" 38 OPT_UINT32_TYPE false [] "";
    params "tcp-keepalive-garbage" 39 OPT_BOOLEAN_TYPE false [] "";
    params "nis-domain" 40 OPT_STRING_TYPE false [] "";
    params "nis-servers" 41 OPT_IPV4_ADDRESS_TYPE true [] "";
    params "ntp-servers" 42 OPT_IPV4_ADDRESS_TYPE true [] "";
    params "netbios-name-servers" 44 OPT_IPV4_ADDRESS_TYPE true [] "";
    params "netbios-dd-server" 45 OPT_IPV4_ADDRESS_TYPE true [] "";
    params "netbios-node-type" 46 OPT_UINT8_TYPE false [] "";
    params "netbios-scope" 47 OPT_STRING_TYPE false [] "";
    params "font-servers" 48 OPT_IPV4_ADDRESS_TYPE true [] "";
    params "x-display-manager" 49 OPT_IPV4_ADDRESS_TYPE true [] "";
    params "dhcp-requested-address" 50 OPT_IPV4_ADDRESS_TYPE false [] "";
    params "dhcp-lease-time" 51 OPT_UINT32_TYPE false [] "";
    params "dhcp-option-overload" 52 OPT_UINT8_TYPE false [] "";
    params "dhcp-message-type" 53 OPT_UINT8_TYPE false [] "";
    params "dhcp-server-identifier" 54 OPT_IPV4_ADDRESS_TYPE false [] "";
    params "dhcp-parameter-request-list" 55 OPT_UINT8_TYPE true [] "";
    params "dhcp-message" 56 OPT_STRING_TYPE false [] "";
    params "dhcp-max-message-size" 57 OPT_UINT16_TYPE false [] "";
    params "dhcp-renewal-time" 58 OPT_UINT32_TYPE false [] "";
    params "dhcp-rebinding-time" 59 OPT_UINT32_TYPE false [] "";
    params "vendor-class-identifier" 60 OPT_STRING_TYPE false [] "";
    params "dhcp-client-identifier" 61 OPT_BINARY_TYPE false [] "";
    params "nwip-domain-name" 62 OPT_STRING_TYPE false [] "";
    params "nwip-suboptions" 63 OPT_BINARY_TYPE false [] "";
    params "nisplus-domain-name" 64 OPT_STRING_TYPE false [] "";
    params "nisplus-servers" 65 OPT_IPV4_ADDRESS_TYPE true [] "";
    params "tftp-server-name" 66 OPT_STRING_TYPE false [] "";
    params "boot-file-name" 67 OPT_STRING_TYPE false [] "";
    params "mobile-ip-home-agent" 68 OPT_IPV4_ADDRESS_TYPE true [] "";
    params "smtp-server" 69 OPT_IPV4_ADDRESS_TYPE true [] "";
    params "pop-server" 70 OPT_IPV4_ADDRESS_TYPE true [] "";
    params "nntp-server" 71 OPT_IPV4_ADDRESS_TYPE true [] "";
    params "www-server" 72 OPT_IPV4_ADDRESS_TYPE true [] "";
    params "finger-server" 73 OPT_IPV4_ADDRESS_TYPE true [] "";
    params "irc-server" 74 OPT_IPV4_ADDRESS_TYPE true [] "";
    params "streettalk-server" 75 OPT_IPV4_ADDRESS_TYPE true [] "";
    params "streettalk-directory-assistance-server" 76 OPT_IPV4_ADDRESS_TYPE true [] "";
    params "user-class" 77 OPT_BINARY_TYPE false [] "";
    params "slp-directory-agent" 78 OPT_RECORD_TYPE true DIRECTORY_AGENT_RECORDS "";
    params "slp-service-scope" 79 OPT_RECORD_TYPE false SERVICE_SCOPE_RECORDS "";
    params "fqdn" 81 OPT_RECORD_TYPE false FQDN_RECORDS "";
    params "dhcp-agent-options" 82 OPT_EMPTY_TYPE false [] "dhcp-agent-options-space";
    params "nds-servers" 85 OPT_IPV4_ADDRESS_TYPE true [] "";
    params "nds-tree-name" 86 OPT_STRING_TYPE false [] "";
    params "nds-context" 87 OPT_STRING_TYPE false [] "";
    params "bcms-controller-names" 88 OPT_FQDN_TYPE true [] "";
    params "bcms-controller-address" 89 OPT_IPV4_ADDRESS_TYPE true [] "";
    params "authenticate" 90 OPT_BINARY_TYPE false [] "";
    params "client-last-transaction-time" 91 OPT_UINT32_TYPE false [] "";
    params "associated-ip" 92 OPT_IPV4_ADDRESS_TYPE true [] "";
    params "client-system" 93 OPT_UINT16_TYPE true [] "";
    params "client-ndi" 94 OPT_RECORD_TYPE false CLIENT_NDI_RECORDS "";
    params "uuid-guid" 97 OPT_RECORD_TYPE false UUID_GUID_RECORDS "";
    params "uap-servers" 98 OPT_STRING_TYPE false [] "";
    params "geoconf-civic" 99 OPT_BINARY_TYPE false [] "";
    params "pcode" 100 OPT_STRING_TYPE false [] "";
    params "tcode" 101 OPT_STRING_TYPE false [] "";
    params "netinfo-server-address" 112 OPT_IPV4_ADDRESS_TYPE true [] "";
    params "netinfo-server-tag" 113 OPT_STRING_TYPE false [] "";
    params "default-url" 114 OPT_STRING_TYPE false [] "";
    params "auto-config" 116 OPT_UINT8_TYPE false [] "";
    params "name-service-search" 117 OPT_UINT16_TYPE true [] "";
    params "subnet-selection" 118 OPT_IPV4_ADDRESS_TYPE false [] "";
    params "domain-search" 119 OPT_FQDN_TYPE true [] "";
    params "vivco-suboptions" 124 OPT_RECORD_TYPE false VIVCO_RECORDS "";
    params "vivso-suboptions" 125 OPT_UINT32_TYPE false [] "";
    params "pana-agent" 136 OPT_IPV4_ADDRESS_TYPE true [] "";
    params "v4-lost" 137 OPT_FQDN_TYPE false [] "";
    params "capwap-ac-v4" 138 OPT_IPV4_ADDRESS_TYPE true [] "";
    params "sip-ua-cs-domains" 141 OPT_FQDN_TYPE true [] "";
    params "rdnss-selection" 146 OPT_RECORD_TYPE true V4_RDNSS_SELECT_RECORDS "";
    params "v4-portparams" 159 OPT_RECORD_TYPE false V4_PORTPARAMS_RECORDS "";
    params "v4-captive-portal" 160 OPT_STRING_TYPE false [] "";
    params "option-6rd" 212 OPT_RECORD_TYPE true OPT_6RD_RECORDS "";
    params "v4-access-domain" 213 OPT_FQDN_TYPE false [] "" ].

Definition LAST_RESORT_V4_OPTION_DEFINITIONS : list OptionDefParams :=
  [ params "vendor-encapsulated-options" 43 OPT_EMPTY_TYPE false [] "vendor-encapsulated-options-space" ].

Definition STANDARD_V6_OPTION_DEFINITIONS : list OptionDefParams :=
  [ params "clientid" 1 OPT_BINARY_TYPE false [] "";
    params "serverid" 2 OPT_BINARY_TYPE false [] "";
    params "ia-na" 3 OPT_RECORD_TYPE false IA_NA_RECORDS "";
    params "ia-ta" 4 OPT_UINT32_TYPE false [] "";
    params "iaaddr" 5 OPT_RECORD_TYPE false IAADDR_RECORDS "";
    params "oro" 6 OPT_UINT16_TYPE true [] "";
    params "preference" 7 OPT_UINT8_TYPE false [] "";
    params "elapsed-time" 8 OPT_UINT16_TYPE false [] "";
    params "relay-msg" 9 OPT_BINARY_TYPE false [] "";
    params "auth" 11 OPT_BINARY_TYPE false [] "";
    params "unicast" 12 OPT_IPV6_ADDRESS_TYPE false [] "";
    params "status-code" 13 OPT_RECORD_TYPE false STATUS_CODE_RECORDS "";
    params "rapid-commit" 14 OPT_EMPTY_TYPE false [] "";
    params "user-class" 15 OPT_BINARY_TYPE false [] "";
    params "vendor-class" 16 OPT_RECORD_TYPE false VENDOR_CLASS_RECORDS "";
    params "vendor-opts" 17 OPT_UINT32_TYPE false [] "vendor-opts-space";
    params "interface-id" 18 OPT_BINARY_TYPE false [] "";
    params "reconf-msg" 19 OPT_UINT8_TYPE false [] "";
    params "reconf-accept" 20 OPT_EMPTY_TYPE false [] "";
    params "sip-server-dns" 21 OPT_FQDN_TYPE true [] "";
    params "sip-server-addr" 22 OPT_IPV6_ADDRESS_TYPE true [] "";
    params "dns-servers" 23 OPT_IPV6_ADDRESS_TYPE true [] "";
    params "domain-search" 24 OPT_FQDN_TYPE true [] "";
    params "ia-pd" 25 OPT_RECORD_TYPE false IA_PD_RECORDS "";
    params "iaprefix" 26 OPT_RECORD_TYPE false IA_PREFIX_RECORDS "";
    params "nis-servers" 27 OPT_IPV6_ADDRESS_TYPE true [] "";
    params "nisp-servers" 28 OPT_IPV6_ADDRESS_TYPE true [] "";
    params "nis-domain-name" 29 OPT_FQDN_TYPE true [] "";
    params "nisp-domain-name" 30 OPT_FQDN_TYPE true [] "";
    params "sntp-servers" 31 OPT_IPV6_ADDRESS_TYPE true [] "";
    params "information-refresh-time" 32 OPT_UINT32_TYPE false [] "";
    params "bcmcs-server-dns" 33 OPT_FQDN_TYPE true [] "";
    params "bcmcs-server-addr" 34 OPT_IPV6_ADDRESS_TYPE true [] "";
    params "geoconf-civic" 36 OPT_RECORD_TYPE false GEOCONF_CIVIC_RECORDS "";
    params "remote-id" 37 OPT_RECORD_TYPE false REMOTE_ID_RECORDS "";
    params "subscriber-id" 38 OPT_BINARY_TYPE false [] "";
    params "client-fqdn" 39 OPT_RECORD_TYPE false CLIENT_FQDN_RECORDS "";
    params "pana-agent" 40 OPT_IPV6_ADDRESS_TYPE true [] "";
    params "new-posix-timezone" 41 OPT_STRING_TYPE false [] "";
    params "new-tzdb-timezone" 42 OPT_STRING_TYPE false [] "";
    params "ero" 43 OPT_UINT16_TYPE true [] "";
    params "lq-query" 44 OPT_RECORD_TYPE false LQ_QUERY_RECORDS "";
    params "client-data" 45 OPT_EMPTY_TYPE false [] "";
    params "clt-time" 46 OPT_UINT32_TYPE false [] "";
    params "lq-relay-data" 47 OPT_RECORD_TYPE false LQ_RELAY_DATA_RECORDS "";
    params "lq-client-link" 48 OPT_IPV6_ADDRESS_TYPE true [] "";
    params "v6-lost" 51 OPT_FQDN_TYPE false [] "";
    params "capwap-ac-v6" 52 OPT_IPV6_ADDRESS_TYPE true [] "";
    params "relay-id" 53 OPT_BINARY_TYPE false [] "";
    params "v6-access-domain" 57 OPT_FQDN_TYPE false [] "";
    params "sip-ua-cs-list" 58 OPT_FQDN_TYPE true [] "";
    params "bootfile-url" 59 OPT_STRING_TYPE false [] "";
    params "bootfile-param" 60 OPT_TUPLE_TYPE true [] "";
    params "client-arch-type" 61 OPT_UINT16_TYPE true [] "";
    params "nii" 62 OPT_RECORD_TYPE false CLIENT_NII_RECORDS "";
    params "aftr-name" 64 OPT_FQDN_TYPE false [] "";
    params "erp-local-domain-name" 65 OPT_FQDN_TYPE false [] "";
    params "rsoo" 66 OPT_EMPTY_TYPE false [] "rsoo-opts";
    params "pd-exclude" 67 OPT_IPV6_PREFIX_TYPE false [] "";
    params "rdnss-selection" 74 OPT_RECORD_TYPE true V6_RDNSS_SELECT_RECORDS "";
    params "client-linklayer-addr" 79 OPT_BINARY_TYPE false [] "";
    params "link-address" 80 OPT_IPV6_ADDRESS_TYPE false [] "";
    params "solmax-rt" 82 OPT_UINT32_TYPE false [] "";
    params "inf-max-rt" 83 OPT_UINT32_TYPE false [] "";
    params "dhcpv4-message" 87 OPT_BINARY_TYPE false [] "";
    params "dhcp4o6-server-addr" 88 OPT_IPV6_ADDRESS_TYPE true [] "";
    params "v6-captive-portal" 103 OPT_STRING_TYPE false [] "";
    params "relay-source-port" 135 OPT_UINT16_TYPE false [] "";
    params "ipv6-address-andsf" 143 OPT_IPV6_ADDRESS_TYPE true [] "";
    params "public-key" 701 OPT_BINARY_TYPE false [] "";
    params "certificate" 702 OPT_BINARY_TYPE false [] "";
    params "signature" 703 OPT_RECORD_TYPE false SIGNATURE_RECORDS "";
    params "timestamp" 704 OPT_BINARY_TYPE false [] "";
    params "s46-cont-mape" 94 OPT_EMPTY_TYPE false [] MAPE_V6_OPTION_SPACE;
    params "s46-cont-mapt" 95 OPT_EMPTY_TYPE false [] MAPT_V6_OPTION_SPACE;
    params "s46-cont-lw" 96 OPT_EMPTY_TYPE false [] LW_V6_OPTION_SPACE ].

Definition ISC_V6_OPTION_DEFINITIONS : list OptionDefParams :=
  [ params "4o6-interface" 60000 OPT_STRING_TYPE false [] "";
    params "4o6-source-address" 60001 OPT_IPV6_ADDRESS_TYPE false [] "";
    params "4o6-source-port" 60002 OPT_UINT16_TYPE false [] "" ].

Definition MAPE_V6_OPTION_DEFINITIONS : list OptionDefParams :=
  [ OPTION_DEF_PARAMS_S46_BR;
    OPTION_DEF_PARAMS_S46_RULE ].

Definition MAPT_V6_OPTION_DEFINITIONS : list OptionDefParams :=
  [ OPTION_DEF_PARAMS_S46_RULE;
    params "s46-dmr" 91 OPT_IPV6_PREFIX_TYPE false [] "" ].

Definition LW_V6_OPTION_DEFINITIONS : list OptionDefParams :=
  [ OPTION_DEF_PARAMS_S46_BR;
    params "s46-v4v6bind" 92 OPT_RECORD_TYPE false S46_V4V6BIND V4V6_BIND_OPTION_SPACE ].

Definition V4V6_RULE_OPTION_DEFINITIONS : list OptionDefParams :=
  [ OPTION_DEF_PARAMS_S46_PORTPARAMS ].

Definition V4V6_BIND_OPTION_DEFINITIONS : list OptionDefParams :=
  [ OPTION_DEF_PARAMS_S46_PORTPARAMS ].

Definition DOCSIS3_V4_DEFS : list OptionDefParams :=
  [ params "oro" 1 OPT_UINT8_TYPE true [] "";
    params "tftp-servers" 2 OPT_IPV4_ADDRESS_TYPE true [] "" ].

Definition DOCSIS3_V6_DEFS : list OptionDefParams :=
  [ params "oro" 1 OPT_UINT16_TYPE true [] "";
    params "device-type" 2 OPT_STRING_TYPE false [] "";
    params "vendor-type" 10 OPT_STRING_TYPE false [] "";
    params "tftp-servers" 32 OPT_IPV6_ADDRESS_TYPE true [] "";
    params "time-servers" 37 OPT_IPV6_ADDRESS_TYPE true [] "";
    params "config-file" 33 OPT_STRING_TYPE false [] "";
    params "syslog-servers" 34 OPT_IPV6_ADDRESS_TYPE true [] "";
    params "device-id" 36 OPT_BINARY_TYPE false [] "";
    params "time-offset" 38 OPT_INT32_TYPE false [] "";
    params "cmts-cm-mac" 1026 OPT_BINARY_TYPE false [] "" ].

(** ** Containers *)

(** What [initOptionSpace] puts into a container; the tables are all accepted. *)
Definition container (l : list OptionDefParams) : list OptionDefinition :=
  match initOptionSpace l with Ok defs => defs | Throw _ => [] end.

Definition v4option_defs_ : list OptionDefinition := Eval vm_compute in container STANDARD_V4_OPTION_DEFINITIONS.
Definition v6option_defs_ : list OptionDefinition := Eval vm_compute in container STANDARD_V6_OPTION_DEFINITIONS.
Definition lastresort_defs_ : list OptionDefinition := Eval vm_compute in container LAST_RESORT_V4_OPTION_DEFINITIONS.

(** [LibDHCP::getOptionDefs]. *)
Definition getOptionDefs (space : string) : list OptionDefinition :=
  if bool_decide (space = DHCP4_OPTION_SPACE) then v4option_defs_
  else if bool_decide (space = DHCP6_OPTION_SPACE) then v6option_defs_
  else if bool_decide (space = MAPE_V6_OPTION_SPACE) then container MAPE_V6_OPTION_DEFINITIONS
  else if bool_decide (space = MAPT_V6_OPTION_SPACE) then container MAPT_V6_OPTION_DEFINITIONS
  else if bool_decide (space = LW_V6_OPTION_SPACE) then container LW_V6_OPTION_DEFINITIONS
  else if bool_decide (space = V4V6_RULE_OPTION_SPACE) then container V4V6_RULE_OPTION_DEFINITIONS
  else if bool_decide (space = V4V6_BIND_OPTION_SPACE) then container V4V6_BIND_OPTION_DEFINITIONS
  else [].

Definition getVendorOption4Defs (vendor_id : Z) : list OptionDefinition :=
  if vendor_id =? VENDOR_ID_CABLE_LABS then container DOCSIS3_V4_DEFS else [].
Definition getVendorOption6Defs (vendor_id : Z) : list OptionDefinition :=
  if vendor_id =? VENDOR_ID_CABLE_LABS then container DOCSIS3_V6_DEFS
  else if vendor_id =? ENTERPRISE_ID_ISC then container ISC_V6_OPTION_DEFINITIONS
  else [].

(** [LibDHCP::getLastResortOptionDefs]. *)
Definition getLastResortOptionDefs (space : string) : list OptionDefinition :=
  if bool_decide (space = DHCP4_OPTION_SPACE) then lastresort_defs_ else [].

(** [getOptionDef], [getRuntimeOptionDef] and [getLastResortOptionDef] by code: the first
    definition of the range. *)
Definition first_def (code : Z) (defs : list OptionDefinition) : option OptionDefinition :=
  head (with_code code defs).
Definition getOptionDef (space : string) (code : Z) : option OptionDefinition :=
  first_def code (getOptionDefs space).
Definition getLastResortOptionDef (space : string) (code : Z) : option OptionDefinition :=
  first_def code (getLastResortOptionDefs space).

(** ** The tables *)

Definition standard_tables : list (list OptionDefParams) :=
  [ STANDARD_V4_OPTION_DEFINITIONS; LAST_RESORT_V4_OPTION_DEFINITIONS;
    STANDARD_V6_OPTION_DEFINITIONS; ISC_V6_OPTION_DEFINITIONS; MAPE_V6_OPTION_DEFINITIONS;
    MAPT_V6_OPTION_DEFINITIONS; LW_V6_OPTION_DEFINITIONS; V4V6_RULE_OPTION_DEFINITIONS;
    V4V6_BIND_OPTION_DEFINITIONS; DOCSIS3_V4_DEFS; DOCSIS3_V6_DEFS ].

(** What a container promises to [LibDHCP]. *)
Definition defs_ok (max_code : Z) (defs : list OptionDefinition) : bool :=
  forallb def_ok defs && bool_decide (NoDup (def_code_ <$> defs))
  && forallb (λ d, (0 <? def_code_ d) && (def_code_ d <? max_code)) defs.

Lemma defs_ok_spec max_code defs :
  defs_ok max_code defs = true ↔
  Forall (λ d, validate d = Ok tt ∧ 0 < def_code_ d < max_code) defs ∧ NoDup (def_code_ <$> defs).
Proof.
  unfold defs_ok. rewrite !andb_true_iff, bool_decide_eq_true, !forallb_forall, Forall_forall.
  setoid_rewrite <- list_elem_of_In.
  split; [intros [[Hv Hn] Hc]|intros [Hv Hn]].
  - split; [|done]. intros d Hd. specialize (Hv d Hd). specialize (Hc d Hd).
    unfold validate. rewrite Hv. split; [done|]. lia.
  - split; [split; [|done]|]; intros d Hd; specialize (Hv d Hd); destruct Hv as [Hv Hc]; [|lia].
    unfold validate in Hv. by destruct (def_ok d).
Qed.

(** The first definition of a code is the only one. *)
Lemma with_code_unique code defs :
  NoDup (def_code_ <$> defs) → (length (with_code code defs) ≤ 1)%nat.
Proof.
  induction defs as [|d defs IH]; [cbn; lia|]. rewrite fmap_cons. intros [Hni Hnd]%NoDup_cons. specialize (IH Hnd).
  unfold with_code in *. rewrite filter_cons. destruct (decide (def_code_ d = code)) as [<-|]; [|done].
  assert (filter (λ d', def_code_ d' = def_code_ d) defs = []) as ->; [|done].
  apply elem_of_nil_inv. intros d' [Heq Hd']%list_elem_of_filter.
  apply Hni. rewrite <- Heq. apply list_elem_of_fmap_2, Hd'.
Qed.

(** Every table of definitions is accepted as it is: each entry gives a valid definition, the
    codes are the entries' own, and they fit the code field of the protocol. *)
Definition tables_with_limits : list (list OptionDefParams * Z) :=
  [ (STANDARD_V4_OPTION_DEFINITIONS, 255); (LAST_RESORT_V4_OPTION_DEFINITIONS, 255);
    (DOCSIS3_V4_DEFS, 255); (STANDARD_V6_OPTION_DEFINITIONS, 65536);
    (ISC_V6_OPTION_DEFINITIONS, 65536); (MAPE_V6_OPTION_DEFINITIONS, 65536);
    (MAPT_V6_OPTION_DEFINITIONS, 65536); (LW_V6_OPTION_DEFINITIONS, 65536);
    (V4V6_RULE_OPTION_DEFINITIONS, 65536); (V4V6_BIND_OPTION_DEFINITIONS, 65536);
    (DOCSIS3_V6_DEFS, 65536) ].

Lemma tables_accepted :
  forallb (λ '(l, max_code),
    match initOptionSpace l with
    | Ok defs => bool_decide (par_code <$> l = def_code_ <$> defs) && defs_ok max_code defs
    | Throw _ => false
    end) tables_with_limits = true.
Proof. by vm_compute. Qed.

Theorem standard_tables_ok (l : list OptionDefParams) (max_code : Z)
    (Hl : (l, max_code) ∈ tables_with_limits) :
  ∃ defs, initOptionSpace l = Ok defs
    ∧ def_code_ <$> defs = par_code <$> l ∧ NoDup (def_code_ <$> defs)
    ∧ Forall (λ d, validate d = Ok tt ∧ 0 < def_code_ d < max_code) defs.
Proof.
  pose proof tables_accepted as Hall. rewrite forallb_forall in Hall.
  specialize (Hall _ (proj1 (list_elem_of_In _ _) Hl)). cbn beta iota in Hall.
  destruct (initOptionSpace l) as [defs|]; [|done]. exists defs.
  apply andb_true_iff in Hall as [Hcodes [Hf Hn]%defs_ok_spec].
  apply bool_decide_eq_true in Hcodes. auto.
Qed.

Lemma standard_tables_ok_witness :
  (DOCSIS3_V4_DEFS, 255) ∈ tables_with_limits
  ∧ ∃ defs, initOptionSpace DOCSIS3_V4_DEFS = Ok defs
    ∧ def_code_ <$> defs = [1; 2] ∧ NoDup (def_code_ <$> defs)
    ∧ Forall (λ d, validate d = Ok tt ∧ 0 < def_code_ d < 255) defs.
Proof.
  assert ((DOCSIS3_V4_DEFS, 255) ∈ tables_with_limits) as Hl
    by (do 2 apply list_elem_of_further; apply list_elem_of_here).
  split; [exact Hl|]. exact (standard_tables_ok DOCSIS3_V4_DEFS 255 Hl).
Defined.

(** No code has two definitions in a container, so that [LibDHCP] never finds more than one. *)
Lemma getOptionDefs_unique space code : (length (with_code code (getOptionDefs space)) ≤ 1)%nat.
Proof.
  apply with_code_unique. unfold getOptionDefs.
  repeat case_bool_decide; apply (bool_decide_eq_true_1 _); by vm_compute.
Qed.

Lemma getVendorOption4Defs_unique id code :
  (length (with_code code (getVendorOption4Defs id)) ≤ 1)%nat.
Proof.
  apply with_code_unique. unfold getVendorOption4Defs.
  destruct (id =? _); apply (bool_decide_eq_true_1 _); by vm_compute.
Qed.
