(* ===== verification/Option6ClientFqdn.v ===== *)
(** * The DHCPv6 Client FQDN option ([src/lib/dhcp/option6_client_fqdn.cc])

    The option of RFC 4704: the flags and a domain name, which is kept in lower case.  As in the
    DHCPv4 option, the type of a name that is not there is not set by the constructor from wire
    data. *)

From S2P Require Import Prelude DnsName NameWire Option4ClientFqdn.
Local Open Scope Z_scope.

Definition FLAG6_S : Z := 1.
Definition FLAG6_O : Z := 2.
Definition FLAG6_N : Z := 4.
Definition FLAG6_MASK : Z := 7.

Record Fqdn6 := {
  flags6_ : Z;
  domain_name6_ : option Name;
  domain_name_type6_ : option DomainNameType
}.

Definition with_flags6 (f : Z) (o : Fqdn6) : Fqdn6 :=
  {| flags6_ := f; domain_name6_ := domain_name6_ o; domain_name_type6_ := domain_name_type6_ o |}.
Definition with_domain6 (n : option Name) (t : option DomainNameType) (o : Fqdn6) : Fqdn6 :=
  {| flags6_ := flags6_ o; domain_name6_ := n; domain_name_type6_ := t |}.

Definition checkFlags6 (flags : Z) (check_mbz : bool) : res unit :=
  _ ← throw_if (check_mbz && negb (Z.land flags (unot 32 FLAG6_MASK) =? 0)) InvalidOption6FqdnFlags;
  throw_if (Z.land flags (Z.lor FLAG6_N FLAG6_S) =? Z.lor FLAG6_N FLAG6_S) InvalidOption6FqdnFlags.

Definition to_fqdn6_error {A} (r : res A) : res A :=
  match r with
  | Ok a => Ok a
  | Throw e => if catchable e then Throw InvalidOption6FqdnDomainName else Throw e
  end.

Definition setDomainName6 (domain_name : string) (name_type : DomainNameType) (o : Fqdn6)
    : res Fqdn6 :=
  let name := trim domain_name in
  if bool_decide (name = "") then
    _ ← throw_if (bool_decide (name_type = FULL)) InvalidOption6FqdnDomainName;
    mret (with_domain6 None (Some name_type) o)
  else
    n ← to_fqdn6_error (mkName true (bytes_of_string name));
    mret (with_domain6 (Some n) (Some name_type) o).
Definition resetDomainName6 (o : Fqdn6) : res Fqdn6 := setDomainName6 "" PARTIAL o.

(** The constructor from its values. *)
Definition mkFqdn6 (flags : Z) (domain_name : string) (name_type : DomainNameType) : res Fqdn6 :=
  _ ← checkFlags6 flags true;
  setDomainName6 domain_name name_type
    {| flags6_ := flags; domain_name6_ := None; domain_name_type6_ := Some name_type |}.

Definition getFlag6 (flag : Z) (o : Fqdn6) : res bool :=
  _ ← throw_if (negb (flag =? FLAG6_S) && negb (flag =? FLAG6_O) && negb (flag =? FLAG6_N))
        InvalidOption6FqdnFlags;
  mret (negb (Z.land (flags6_ o) flag =? 0)).

Definition setFlag6 (flag : Z) (set_flag : bool) (o : Fqdn6) : res Fqdn6 :=
  _ ← throw_if (negb (Z.land flag (unot 32 FLAG6_MASK) =? 0) || (flag =? 0)) InvalidOption6FqdnFlags;
  let new_flag := if set_flag then u8 (Z.lor (flags6_ o) flag) else Z.land (flags6_ o) (unot 8 flag) in
  _ ← checkFlags6 new_flag true;
  mret (with_flags6 new_flag o).
Definition resetFlags6 (o : Fqdn6) : Fqdn6 := with_flags6 0 o.

Definition domain_text6 (o : Fqdn6) : res (list Z) :=
  match domain_name6_ o with
  | Some n => name_toText (bool_decide (domain_name_type6_ o = Some PARTIAL)) n
  | None => mret []
  end.
Definition getDomainName6 (o : Fqdn6) : res string := string_of_chars <$> domain_text6 o.

(** ** The wire format, after the code and the length of the option *)

Definition parseWireData6 (data : list Z) (o : Fqdn6) : res Fqdn6 :=
  match data with
  | [] => Throw OutOfRange
  | flags :: name =>
      let o := with_flags6 flags o in
      match last name with
      | None => mret o
      | Some c =>
          if negb (c =? 0) then
            '(n, _) ← to_fqdn6_error (name_fromWire true (name ++ [0]) 0);
            mret (with_domain6 (Some n) (Some PARTIAL) o)
          else
            '(n, _) ← to_fqdn6_error (name_fromWire true name 0);
            mret (with_domain6 (Some n) (Some FULL) o)
      end
  end.

Definition fqdn6_unpack (data : list Z) (o : Fqdn6) : res Fqdn6 :=
  o ← parseWireData6 data o;
  _ ← checkFlags6 (flags6_ o) false;
  mret o.
Definition fqdn6_fromWire (data : list Z) : res Fqdn6 :=
  fqdn6_unpack data {| flags6_ := 0; domain_name6_ := None; domain_name_type6_ := None |}.

Definition packDomainName6 (o : Fqdn6) : list Z :=
  match domain_name6_ o with
  | None => []
  | Some n =>
      if (0 <? getLength n)%nat then
        if bool_decide (domain_name_type6_ o = Some PARTIAL)
        then take (getLength n - 1) (ndata_ n) else ndata_ n
      else []
  end.
Definition fqdn6_pack (o : Fqdn6) : list Z := flags6_ o :: packDomainName6 o.

(** [len() - getHeaderLen()] *)
Definition fqdn6_len (o : Fqdn6) : nat :=
  S match domain_name6_ o with
    | None => 0
    | Some n => if bool_decide (domain_name_type6_ o = Some FULL) then getLength n
                else getLength n - 1
    end.

(** ** Correctness *)

(** The flags and the name of an option that is read have been checked. *)
Definition fqdn6_wf (o : Fqdn6) : Prop :=
  checkFlags6 (flags6_ o) false = Ok tt
  ∧ match domain_name6_ o with
    | Some n => wf_name n ∧ domain_name_type6_ o ≠ None
    | None => True
    end.

Lemma fqdn6_fromWire_wf (data : list Z) :
  Forall is_byte data →
  match fqdn6_fromWire data with
  | Ok o => fqdn6_wf o
  | Throw e => e = OutOfRange ∨ e = InvalidOption6FqdnFlags ∨ e = InvalidOption6FqdnDomainName
  end.
Proof.
  intros Hd. unfold fqdn6_fromWire, fqdn6_unpack, parseWireData6.
  destruct data as [|flags name]; [by left|]. apply Forall_cons in Hd as [_ Hd].
  assert (∀ o, match checkFlags6 (flags6_ o) false with
               | Ok _ => checkFlags6 (flags6_ o) false = Ok tt
               | Throw e => e = InvalidOption6FqdnFlags end) as Hflags.
  { intros o. unfold checkFlags6. cbn [andb throw_if mbind res_bind].
    unfold throw_if. by destruct (_ =? _). }
  assert (∀ l t o, Forall is_byte l → t ≠ None → domain_name6_ o = None →
    match ('(n, _) ← to_fqdn6_error (name_fromWire true l 0); mret (with_domain6 (Some n) t o))
          ≫= λ o, checkFlags6 (flags6_ o) false ≫= λ _, mret o with
    | Ok o => fqdn6_wf o
    | Throw e => e = OutOfRange ∨ e = InvalidOption6FqdnFlags ∨ e = InvalidOption6FqdnDomainName
    end) as Hname.
  { intros l t o Hl Ht _. pose proof (name_fromWire_ok true l 0 Hl ltac:(lia)) as Hn.
    destruct (name_fromWire true l 0) as [[n k]|e]; [|subst e; right; right; reflexivity].
    cbn [to_fqdn6_error mbind res_bind mret res_ret].
    change (flags6_ (with_domain6 (Some n) t o)) with (flags6_ o).
    specialize (Hflags o). destruct (checkFlags6 (flags6_ o) false) as [[]|e] eqn:E;
      [|right; left; exact Hflags].
    change (fqdn6_wf (with_domain6 (Some n) t o)). split; [done|]. cbn. by split; [apply Hn|]. }
  destruct (last name) as [c|] eqn:El; cbn [mbind res_bind].
  - destruct (c =? 0); cbn [negb]; apply Hname; auto.
    apply Forall_app; split; [done|]. constructor; [unfold is_byte; lia|done].
  - set (o := with_flags6 _ _). specialize (Hflags o).
    cbn [mret res_ret mbind res_bind]. destruct (checkFlags6 (flags6_ o) false) as [[]|e] eqn:E;
      [change (fqdn6_wf o); by split|right; left; exact Hflags].
Qed.
