(* ===== verification/OptionWire.v ===== *)
(** * Options read from the wire ([src/lib/dhcp/libdhcp++.cc], [option_definition.cc],
      [option_custom.cc] and the classes derived from [Option])

    How a buffer of bytes becomes a collection of option objects: [unpackOptions4] and
    [unpackOptions6] split it, [OptionDefinition::optionFactory] chooses the class of an option by
    its definition, and the constructors of the classes read its data, suboptions included.

    An option object is a [WOption]; its payload has the members that its class adds to [Option].
    The suboptions of an object are in the order of [std::multimap].  Definitions that the
    configuration adds are a function [runtime] of the option space.  A factory makes
    the suboptions of an option by calling the functions that read a collection, which call
    the factory again, on less data each time: [depth] counts how often. *)

From S2P Require Import Prelude IoAddress PdExclude DnsName NameWire Option4ClientFqdn Packet.
From S2P Require Import OptionSpace OptionTypes OptionDef StdOptionDefs Option6ClientFqdn.
Local Open Scope Z_scope.

Definition DHO_PAD : Z := 0.
Definition DHO_VENDOR_ENCAPSULATED_OPTIONS : Z := 43.
Definition DHO_SERVICE_SCOPE : Z := 79.
Definition DHO_CLIENT_FQDN4 : Z := 81.
Definition DHO_END : Z := 255.
Definition D6O_IA_NA : Z := 3.
Definition D6O_IA_TA : Z := 4.
Definition D6O_IAADDR : Z := 5.
Definition D6O_RELAY_MSG : Z := 9.
Definition D6O_STATUS_CODE : Z := 13.
Definition D6O_IA_PD : Z := 25.
Definition D6O_IAPREFIX : Z := 26.
Definition D6O_CLIENT_FQDN : Z := 39.
Definition D6O_BOOTFILE_PARAM : Z := 60.
Definition D6O_PD_EXCLUDE : Z := 67.

(** ** Option objects *)

Inductive Payload :=
  | WGeneric
  | WCustom (definition : OptionDefinition) (buffers : list (list Z))
  | WInt (size : nat) (is_signed : bool) (value : Z)
  | WIntArray (size : nat) (is_signed : bool) (values : list Z)
  | WAddrLst4 (addrs : list IOAddress)
  | WAddrLst6 (addrs : list IOAddress)
  | WString
  | WTuples (tuples : list (list Z))
  | WVendor (vendor_id : Z)
  | WVendorClass (vendor_id : Z) (tuples : list (list Z))
  | WSlpServiceScope (mandatory_flag : bool) (scope_list : list Z)
  | WClientFqdn4 (impl : Fqdn)
  | WIA (iaid t1 t2 : Z)
  | WIAAddr (addr : IOAddress) (preferred valid : Z)
  | WIAPrefix (addr : IOAddress) (prefix_len preferred valid : Z)
  | WStatusCode (status_code : Z) (status_message : list Z)
  | WPDExclude (exclude : Option6PDExclude)
  | WClientFqdn6 (impl : Fqdn6).

Inductive WOption := mkWOption {
  w_universe : Universe;
  w_type : Z;
  w_data : list Z;
  w_payload : Payload;
  w_encapsulated_space : string;
  w_options : list WOption
}.

(** [std::multimap::insert]: after the options of the same code. *)
Fixpoint insert_option (o : WOption) (l : list WOption) : list WOption :=
  match l with
  | [] => [o]
  | x :: l' => if w_type o <? w_type x then o :: l else x :: insert_option o l'
  end.

(** [Option::Option(u, type)] and [Option::check]. *)
Definition check_type (u : Universe) (type : Z) : res unit :=
  throw_if (bool_decide (u = UniverseV4) && ((type =? 0) || (254 <? type))) BadValue.
Definition check (u : Universe) (type : Z) (data : list Z) : res unit :=
  match u with
  | UniverseV4 =>
      _ ← throw_if (255 <? type) OutOfRange;
      throw_if (255 <? length data)%nat OutOfRange
  | UniverseV6 => mret tt
  end.

(** An option that keeps its data as they are, and one that reads them into its members. *)
Definition generic (u : Universe) (type : Z) (data : list Z) : res WOption :=
  _ ← check u type data; mret (mkWOption u type data WGeneric "" []).
Definition typed (u : Universe) (type : Z) (payload : Payload) : WOption :=
  mkWOption u type [] payload "" [].

Definition with_space (space : string) (o : WOption) : WOption :=
  mkWOption (w_universe o) (w_type o) (w_data o) (w_payload o) space (w_options o).

(** The length field of the tuples of a protocol. *)
Definition tuple_length_field (u : Universe) : LengthFieldType :=
  match u with UniverseV4 => LENGTH_1_BYTE | UniverseV6 => LENGTH_2_BYTES end.

(** A conversion to a signed integer of [size] bytes. *)
Definition to_signed (size : nat) (z : Z) : Z :=
  if z <? 2 ^ (8 * Z.of_nat size - 1) then z else z - 256 ^ Z.of_nat size.
Definition read_int (size : nat) (is_signed : bool) (data : list Z) : Z :=
  let z := be_combine (take size data) in if is_signed then to_signed size z else z.

(** ** Classes without suboptions *)

Fixpoint int_array (fuel size : nat) (is_signed : bool) (data : list Z) : list Z :=
  match fuel with
  | O => []
  | S fuel =>
      match data with
      | [] => []
      | _ => read_int size is_signed data :: int_array fuel size is_signed (drop size data)
      end
  end.
Definition OptionIntArray_new (u : Universe) (type : Z) (size : nat) (is_signed : bool)
    (data : list Z) : res WOption :=
  _ ← check_type u type;
  _ ← throw_if (length data =? 0)%nat OutOfRange;
  _ ← throw_if (negb (length data mod size =? 0)%nat) OutOfRange;
  mret (typed u type (WIntArray size is_signed (int_array (length data) size is_signed data))).

Fixpoint address_list (fuel size : nat) (mk : list Z → IOAddress) (data : list Z) : list IOAddress :=
  match fuel with
  | O => []
  | S fuel =>
      match data with
      | [] => []
      | _ => mk (take size data) :: address_list fuel size mk (drop size data)
      end
  end.
Definition Option4AddrLst_new (type : Z) (data : list Z) : res WOption :=
  _ ← check_type UniverseV4 type;
  _ ← throw_if (negb (length data mod 4 =? 0)%nat) OutOfRange;
  mret (typed UniverseV4 type
          (WAddrLst4 (address_list (length data) 4 (λ b, V4 (be_combine b)) data))).
Definition Option6AddrLst_new (type : Z) (data : list Z) : res WOption :=
  _ ← throw_if (negb (length data mod 16 =? 0)%nat) OutOfRange;
  mret (typed UniverseV6 type
          (WAddrLst6 (address_list (length data) 16 (λ b, V6 (be_combine b)) data))).

Definition OptionString_new (u : Universe) (type : Z) (data : list Z) : res WOption :=
  _ ← check_type u type;
  _ ← throw_if (length data =? 0)%nat OutOfRange;
  mret (mkWOption u type data WString "" []).

(** The loop that reads tuples one after the other. *)
Fixpoint tuples_loop (fuel : nat) (t : LengthFieldType) (data : list Z) : res (list (list Z)) :=
  match fuel with
  | O => Throw OutOfFuel
  | S fuel =>
      match data with
      | [] => mret []
      | _ =>
          tuple ← tuple_unpack t data;
          tuples ← tuples_loop fuel t (drop (getDataFieldSize t + length tuple) data);
          mret (tuple :: tuples)
      end
  end.
Definition OptionOpaqueDataTuples_new (u : Universe) (type : Z) (data : list Z) : res WOption :=
  _ ← check_type u type;
  _ ← throw_if (bool_decide (u = UniverseV4) && (length data <? 2)%nat) OutOfRange;
  tuples ← tuples_loop (S (length data)) (tuple_length_field u) data;
  mret (typed u type (WTuples tuples)).

(** In DHCPv4 an enterprise id comes before every tuple; only the first one is read. *)
Fixpoint vendor_class_loop (fuel : nat) (u : Universe) (data : list Z) : res (list (list Z)) :=
  match fuel with
  | O => Throw OutOfFuel
  | S fuel =>
      match data with
      | [] => mret []
      | _ =>
          let t := tuple_length_field u in
          tuple ← tuple_unpack t data;
          let rest := drop (getDataFieldSize t + length tuple) data in
          rest ← (if bool_decide (u = UniverseV4) && negb (bool_decide (rest = [])) then
                    _ ← throw_if (length rest <=? 5)%nat OutOfRange;
                    mret (drop 4 rest)
                  else mret rest);
          tuples ← vendor_class_loop fuel u rest;
          mret (tuple :: tuples)
      end
  end.
Definition vendor_class_type (u : Universe) : Z :=
  match u with UniverseV4 => DHO_VIVCO_SUBOPTIONS | UniverseV6 => D6O_VENDOR_CLASS end.
Definition OptionVendorClass_new (u : Universe) (data : list Z) : res WOption :=
  _ ← check_type u (vendor_class_type u);
  _ ← throw_if (length data <? 4)%nat OutOfRange;
  vendor_id ← readUint32 data;
  tuples ← vendor_class_loop (S (length data)) u (drop 4 data);
  mret (typed u (vendor_class_type u) (WVendorClass vendor_id tuples)).

Definition Option4SlpServiceScope_new (data : list Z) : res WOption :=
  match data with
  | [] => Throw OutOfRange
  | b :: scope_list =>
      mandatory ← (if b =? 1 then mret true else if b =? 0 then mret false else Throw BadDataTypeCast);
      mret (typed UniverseV4 DHO_SERVICE_SCOPE (WSlpServiceScope mandatory scope_list))
  end.

Definition Option4ClientFqdn_new (data : list Z) : res WOption :=
  _ ← check UniverseV4 DHO_CLIENT_FQDN4 data;
  impl ← fqdn_fromWire data;
  mret (mkWOption UniverseV4 DHO_CLIENT_FQDN4 data (WClientFqdn4 impl) "" []).

Definition Option6StatusCode_new (data : list Z) : res WOption :=
  _ ← throw_if (length data <? 2)%nat OutOfRange;
  status_code ← readUint16 data;
  mret (typed UniverseV6 D6O_STATUS_CODE (WStatusCode status_code (drop 2 data))).

Definition Option6PDExclude_new (data : list Z) : res WOption :=
  exclude ← PdExclude.unpack data;
  mret (typed UniverseV6 D6O_PD_EXCLUDE (WPDExclude exclude)).

Definition Option6ClientFqdn_new (data : list Z) : res WOption :=
  impl ← fqdn6_fromWire data;
  mret (mkWOption UniverseV6 D6O_CLIENT_FQDN data (WClientFqdn6 impl) "" []).

(** [Option6IAPrefix::mask] of the 16 bytes of an address. *)
Definition mask_prefix (len : Z) (bytes : list Z) : list Z :=
  if 128 <=? len then bytes
  else if 0 <? len then
    let n := Z.to_nat (len `div` 8) in
    <[n := Z.land (default 0 (bytes !! n)) (u8 (Z.shiftl 0xFF (8 - len `mod` 8)))]>
      (take n bytes ++ replicate (16 - n)%nat 0)
  else replicate 16 0.

(** ** Classes with suboptions *)

Section Factory.
(** [unpackOptions] and [unpackVendorOptions] of a universe: the suboptions in a buffer. *)
Context (unpack_sub : Universe → string → list Z → res (list WOption)).
Context (unpack_vendor : Universe → Z → list Z → res (list WOption)).

(** [OptionDefinition::factoryInteger]. *)
Definition OptionInt_new (u : Universe) (type : Z) (size : nat) (is_signed : bool)
    (space : string) (data : list Z) : res WOption :=
  _ ← check_type u type;
  _ ← throw_if (length data <? size)%nat OutOfRange;
  options ← unpack_sub u space (drop size data);
  mret (mkWOption u type [] (WInt size is_signed (read_int size is_signed data)) space options).

Definition OptionVendor_new (u : Universe) (data : list Z) : res WOption :=
  _ ← throw_if (length data <? 4)%nat SkipRemainingOptionsError;
  vendor_id ← readUint32 data;
  options ← unpack_vendor u vendor_id (drop 4 data);
  mret (mkWOption u (match u with UniverseV4 => DHO_VIVSO_SUBOPTIONS | UniverseV6 => D6O_VENDOR_OPTS end)
          [] (WVendor vendor_id) "" options).

Definition Option6IA_new (type : Z) (data : list Z) : res WOption :=
  _ ← throw_if (type =? D6O_IA_TA) BadValue;
  _ ← throw_if (length data <? 12)%nat OutOfRange;
  options ← unpack_sub UniverseV6 DHCP6_OPTION_SPACE (drop 12 data);
  mret (mkWOption UniverseV6 type []
          (WIA (be_combine (take 4 data)) (be_combine (take 4 (drop 4 data)))
               (be_combine (take 4 (drop 8 data)))) DHCP6_OPTION_SPACE options).

Definition Option6IAAddr_new (type : Z) (data : list Z) : res WOption :=
  _ ← throw_if (length data <? 24)%nat OutOfRange;
  options ← unpack_sub UniverseV6 DHCP6_OPTION_SPACE (drop 24 data);
  mret (mkWOption UniverseV6 type []
          (WIAAddr (V6 (be_combine (take 16 data))) (be_combine (take 4 (drop 16 data)))
                   (be_combine (take 4 (drop 20 data)))) DHCP6_OPTION_SPACE options).

(** The constructor of the base class reads the data as an address option first, and leaves its
    suboptions in the object. *)
Definition Option6IAPrefix_new (type : Z) (data : list Z) : res WOption :=
  base ← Option6IAAddr_new type data;
  _ ← throw_if (length data <? 25)%nat OutOfRange;
  let prefix_len := default 0 (data !! 8%nat) in
  options ← unpack_sub UniverseV6 DHCP6_OPTION_SPACE (drop 25 data);
  mret (mkWOption UniverseV6 type []
          (WIAPrefix (V6 (be_combine (mask_prefix prefix_len (take 16 (drop 9 data))))) prefix_len
                     (be_combine (take 4 data)) (be_combine (take 4 (drop 4 data))))
          DHCP6_OPTION_SPACE (foldl (λ l o, insert_option o l) (w_options base) options)).

(** *** [OptionCustom] *)

Section Custom.
Context (def : OptionDefinition) (u : Universe).

Definition bufferLength (data_type : OptionDataType) (in_array : bool) (data : list Z) : res nat :=
  let data_size := getDataTypeLen data_type in
  if (data_size =? 0)%nat then
    if bool_decide (data_type = OPT_FQDN_TYPE) then
      fqdn ← readFqdn data; mret (length fqdn + 1)%nat
    else if negb (def_array_type_ def) && (bool_decide (data_type = OPT_BINARY_TYPE)
                                           || bool_decide (data_type = OPT_STRING_TYPE)) then
      mret (length data)
    else if bool_decide (data_type = OPT_IPV6_PREFIX_TYPE) then
      if bool_decide (data = []) && negb in_array then mret 0%nat
      else
        '(prefix_len, _) ← readPrefix data;
        mret (1 + Z.to_nat ((prefix_len + 7) `div` 8))%nat
    else if bool_decide (data_type = OPT_TUPLE_TYPE) then
      value ← readTuple data (tuple_length_field u);
      mret (length value + match u with UniverseV4 => 1 | UniverseV6 => 2 end)%nat
    else Throw OutOfRange
  else mret data_size.

(** The loop over the fields of a record: their buffers and what is left of the data. *)
Fixpoint record_buffers (fields : list OptionDataType) (data : list Z)
    : res (list (list Z) * list Z) :=
  match fields with
  | [] => mret ([], data)
  | field :: fields =>
      data_size ← bufferLength field false data;
      _ ← throw_if (length data <? data_size)%nat OutOfRange;
      '(buffers, rest) ← record_buffers fields (drop data_size data);
      mret (take data_size data :: buffers, rest)
  end.

(** The loop over the values of an array; what is too short for a value is left out. *)
Fixpoint array_buffers (fuel : nat) (data_type : OptionDataType) (data : list Z)
    : res (list (list Z)) :=
  match fuel with
  | O => Throw OutOfFuel
  | S fuel =>
      match data with
      | [] => mret []
      | _ =>
          data_size ← bufferLength data_type true data;
          _ ← throw_if (data_size =? 0)%nat AssertionFailure;
          if (length data <? data_size)%nat then mret []
          else
            buffers ← array_buffers fuel data_type (drop data_size data);
            mret (take data_size data :: buffers)
      end
  end.

(** [if (data != data_buf.end() && !getEncapsulatedSpace().empty()) unpackOptions(...)] *)
Definition custom_suboptions (data : list Z) : res (list WOption) :=
  if negb (bool_decide (data = [])) && negb (bool_decide (def_encapsulated_space_ def = ""))
  then unpack_sub u (def_encapsulated_space_ def) data
  else mret [].

(** [createBuffers(data_buf)]. *)
Definition createBuffers (data : list Z) : res (list (list Z) * list WOption) :=
  _ ← validate def;
  match def_type_ def with
  | OPT_RECORD_TYPE =>
      '(buffers, rest) ← record_buffers (record_fields_ def) data;
      if def_array_type_ def then
        more ← array_buffers (S (length rest)) (default OPT_UNKNOWN_TYPE (last (record_fields_ def))) rest;
        mret (buffers ++ more, [])
      else
        options ← custom_suboptions rest;
        mret (buffers, options)
  | OPT_EMPTY_TYPE =>
      options ← custom_suboptions data;
      mret ([], options)
  | data_type =>
      _ ← throw_if (length data <? getDataTypeLen data_type)%nat OutOfRange;
      if def_array_type_ def then
        buffers ← array_buffers (S (length data)) data_type data;
        mret (buffers, [])
      else
        data_size ← bufferLength data_type false data;
        _ ← throw_if (negb ((0 <? data_size)%nat && (data_size <=? length data)%nat)) OutOfRange;
        options ← custom_suboptions (drop data_size data);
        mret ([take data_size data], options)
  end.

Definition OptionCustom_new (data : list Z) : res WOption :=
  _ ← check u (def_code_ def) data;
  '(buffers, options) ← createBuffers data;
  mret (mkWOption u (def_code_ def) data (WCustom def buffers) (def_encapsulated_space_ def) options).

(** [factoryFqdnList]: the names without compression, one after the other. *)
Fixpoint fqdn_list_loop (fuel : nat) (data : list Z) (pos : nat) : res (list Z) :=
  match fuel with
  | O => Throw OutOfFuel
  | S fuel =>
      if (length data <=? pos)%nat then mret []
      else
        '(name, next) ← rethrow InvalidOptionValue (name_fromWire false data pos);
        out_buf ← fqdn_list_loop fuel data next;
        mret (ndata_ name ++ out_buf)
  end.
Definition factoryFqdnList (data : list Z) : res WOption :=
  _ ← throw_if (bool_decide (data = [])) InvalidOptionValue;
  out_buf ← fqdn_list_loop (S (length data)) data 0;
  OptionCustom_new out_buf.
End Custom.

(** *** The choice of the class *)

(** [None] stands for the null pointer. *)
Definition factorySpecialFormatOption (u : Universe) (def : OptionDefinition) (data : list Z)
    : option (res WOption) :=
  let code := def_code_ def in
  match u with
  | UniverseV6 =>
      if ((code =? D6O_IA_NA) || (code =? D6O_IA_PD)) && haveIA6Format def
      then Some (Option6IA_new code data)
      else if (code =? D6O_IAADDR) && haveIAAddr6Format def then Some (Option6IAAddr_new code data)
      else if (code =? D6O_IAPREFIX) && haveIAPrefix6Format def then Some (Option6IAPrefix_new code data)
      else if (code =? D6O_CLIENT_FQDN) && haveClientFqdnFormat def then Some (Option6ClientFqdn_new data)
      else if (code =? D6O_VENDOR_OPTS) && haveVendor6Format def then Some (OptionVendor_new u data)
      else if (code =? D6O_VENDOR_CLASS) && haveVendorClass6Format def
      then Some (OptionVendorClass_new u data)
      else if (code =? D6O_STATUS_CODE) && haveStatusCodeFormat def then Some (Option6StatusCode_new data)
      else if (code =? D6O_BOOTFILE_PARAM) && haveOpaqueDataTuplesFormat def
      then Some (OptionOpaqueDataTuples_new u code data)
      else if (code =? D6O_PD_EXCLUDE) && haveType OPT_IPV6_PREFIX_TYPE def
      then Some (Option6PDExclude_new data)
      else None
  | UniverseV4 =>
      if (code =? DHO_SERVICE_SCOPE) && haveServiceScopeFormat def
      then Some (Option4SlpServiceScope_new data)
      else if (code =? DHO_CLIENT_FQDN4) && haveFqdn4Format def then Some (Option4ClientFqdn_new data)
      else if haveCompressedFqdnListFormat def then Some (factoryFqdnList def u data)
      else if (code =? DHO_VIVCO_SUBOPTIONS) && haveVendorClass4Format def
      then Some (OptionVendorClass_new u data)
      else if (code =? DHO_VIVSO_SUBOPTIONS) && haveVendor4Format def then Some (OptionVendor_new u data)
      else None
  end.

Definition factory_integer (u : Universe) (def : OptionDefinition) (type : Z) (size : nat)
    (is_signed array_signed : bool) (data : list Z) : res WOption :=
  if def_array_type_ def then OptionIntArray_new u type size array_signed data
  else OptionInt_new u type size is_signed (def_encapsulated_space_ def) data.

(** The switch of [optionFactory]; the arrays of 16 and 32 bits are all unsigned. *)
Definition factory_by_type (u : Universe) (def : OptionDefinition) (type : Z) (data : list Z)
    : res WOption :=
  match def_type_ def with
  | OPT_EMPTY_TYPE =>
      if bool_decide (def_encapsulated_space_ def = "")
      then _ ← check_type u type; mret (typed u type WGeneric)
      else OptionCustom_new def u data
  | OPT_BINARY_TYPE => generic u type data
  | OPT_UINT8_TYPE => factory_integer u def type 1 false false data
  | OPT_INT8_TYPE => factory_integer u def type 1 true true data
  | OPT_UINT16_TYPE => factory_integer u def type 2 false false data
  | OPT_INT16_TYPE => factory_integer u def type 2 true false data
  | OPT_UINT32_TYPE => factory_integer u def type 4 false false data
  | OPT_INT32_TYPE => factory_integer u def type 4 true false data
  | OPT_IPV4_ADDRESS_TYPE =>
      if def_array_type_ def then Option4AddrLst_new (u8 type) data else OptionCustom_new def u data
  | OPT_IPV6_ADDRESS_TYPE =>
      if def_array_type_ def then Option6AddrLst_new type data else OptionCustom_new def u data
  | OPT_STRING_TYPE => OptionString_new u type data
  | OPT_TUPLE_TYPE =>
      if def_array_type_ def then OptionOpaqueDataTuples_new u type data
      else OptionCustom_new def u data
  | _ => OptionCustom_new def u data
  end.

(** [OptionDefinition::optionFactory], with its handlers. *)
Definition factory (u : Universe) (def : OptionDefinition) (type : Z) (data : list Z) : res WOption :=
  match match factorySpecialFormatOption u def data with
        | Some r => r
        | None => factory_by_type u def type data
        end with
  | Throw SkipRemainingOptionsError => Throw SkipRemainingOptionsError
  | r => rethrow InvalidOptionValue r
  end.
End Factory.

(** ** Collections *)

(** The collection that is being filled, the codes of the options that are left for later, and
    where a relayed message is in the buffer. *)
Record Collection := {
  c_options : list WOption;
  c_deferred : list Z;
  c_relay_msg : option (nat * nat)
}.
Definition empty_collection : Collection :=
  {| c_options := []; c_deferred := []; c_relay_msg := None |}.

Definition add_option (o : WOption) (c : Collection) : Collection :=
  {| c_options := insert_option o (c_options c); c_deferred := c_deferred c;
     c_relay_msg := c_relay_msg c |}.
Definition add_deferred (type : Z) (c : Collection) : Collection :=
  {| c_options := c_options c; c_deferred := c_deferred c ++ [type]; c_relay_msg := c_relay_msg c |}.
Definition set_relay_msg (offset len : nat) (c : Collection) : Collection :=
  {| c_options := c_options c; c_deferred := c_deferred c; c_relay_msg := Some (offset, len) |}.

(** What a caller that gives an empty collection sees of a call. *)
Definition collect {A} (m : ST Collection A) : res (list WOption) :=
  match m empty_collection with
  | (c, Ok _) => Ok (c_options c)
  | (_, Throw e) => Throw e
  end.

(** [LibDHCP::shouldDeferOptionUnpack]. *)
Definition shouldDeferOptionUnpack (space : string) (code : Z) : bool :=
  bool_decide (space = DHCP4_OPTION_SPACE)
  && ((code =? DHO_VENDOR_ENCAPSULATED_OPTIONS) || ((224 <=? code) && (code <=? 254))).

Section Unpack.
Context (runtime : string → list OptionDefinition).

(** The definitions of a code: standard ones before those of the configuration. *)
Definition find_defs (space : string) (code : Z) : list OptionDefinition :=
  match with_code code (getOptionDefs space) with
  | [] => with_code code (runtime space)
  | defs => defs
  end.

Section Loops.
Context (make : Universe → OptionDefinition → Z → list Z → res WOption).

(** The object for an option whose definitions have been looked up. *)
Definition make_option (u : Universe) (space : string) (defs : list OptionDefinition) (type : Z)
    (data : list Z) : res WOption :=
  match defs with
  | [] => o ← generic u type data; mret (with_space space o)
  | [def] => make u def type data
  | _ => Throw Unexpected
  end.

(** The loop over the options of a chunk of an enterprise in DHCPv4. *)
Fixpoint vendor4_loop (fuel : nat) (vendor_id : Z) (buf : list Z) : ST Collection unit :=
  match fuel with
  | O => throw OutOfFuel
  | S fuel =>
      match buf with
      | [] => mret tt
      | [_] => throw SkipRemainingOptionsError
      | opt_type :: opt_len :: buf' =>
          let n := Z.to_nat opt_len in
          _ ← lift (throw_if (length buf' <? n)%nat SkipRemainingOptionsError);
          opt ← lift (make_option UniverseV4 "" (with_code opt_type (getVendorOption4Defs vendor_id))
                        opt_type (take n buf'));
          _ ← modify (add_option opt);
          vendor4_loop fuel vendor_id (drop n buf')
      end
  end.
(** Only the first chunk is read; where it ends is an 8-bit integer. *)
Definition unpackVendorOptions4 (vendor_id : Z) (buf : list Z) : ST Collection unit :=
  match buf with
  | [] => mret tt
  | data_len :: rest =>
      _ ← lift (throw_if (length rest <? Z.to_nat data_len)%nat SkipRemainingOptionsError);
      let offset_end := Z.to_nat (u8 (1 + data_len)) in
      let chunk := take (offset_end - 1) rest in
      vendor4_loop (S (length chunk)) vendor_id chunk
  end.

Fixpoint vendor6_loop (fuel : nat) (vendor_id : Z) (buf : list Z) : ST Collection unit :=
  match fuel with
  | O => throw OutOfFuel
  | S fuel =>
      match buf with
      | [] => mret tt
      | t1 :: t2 :: l1 :: l2 :: buf' =>
          let opt_type := be_combine [t1; t2] in
          let n := Z.to_nat (be_combine [l1; l2]) in
          _ ← lift (throw_if (length buf' <? n)%nat SkipRemainingOptionsError);
          opt ← lift (make_option UniverseV6 "" (with_code opt_type (getVendorOption6Defs vendor_id))
                        opt_type (take n buf'));
          _ ← modify (add_option opt);
          vendor6_loop fuel vendor_id (drop n buf')
      | _ => throw SkipRemainingOptionsError
      end
  end.
Definition unpackVendorOptions6 (vendor_id : Z) (buf : list Z) : ST Collection unit :=
  vendor6_loop (S (length buf)) vendor_id buf.
Definition unpackVendorOptions (u : Universe) (vendor_id : Z) (buf : list Z) : res (list WOption) :=
  collect (match u with
           | UniverseV4 => unpackVendorOptions4 vendor_id buf
           | UniverseV6 => unpackVendorOptions6 vendor_id buf
           end).

(** The loop of [unpackOptions4] at [offset], with the bytes from there on. *)
Fixpoint unpackOptions4_loop (fuel : nat) (space : string) (offset : nat) (buf : list Z)
    : ST Collection nat :=
  match fuel with
  | O => throw OutOfFuel
  | S fuel =>
      match buf with
      | [] => mret offset
      | opt_type :: buf1 =>
          if opt_type =? DHO_END then mret offset
          else if opt_type =? DHO_PAD then unpackOptions4_loop fuel space (offset + 1) buf1
          else match buf1 with
          | [] => mret offset
          | opt_len :: buf2 =>
              let n := Z.to_nat opt_len in
              if (length buf2 <? n)%nat then mret offset
              else
                let defer := shouldDeferOptionUnpack space opt_type in
                _ ← (if defer then modify (add_deferred opt_type) else mret tt);
                let defs := if defer then [] else find_defs space opt_type in
                opt ← lift (make_option UniverseV4 DHCP4_OPTION_SPACE defs opt_type (take n buf2));
                _ ← modify (add_option opt);
                unpackOptions4_loop fuel space (offset + 2 + n) (drop n buf2)
          end
      end
  end.

(** The loop of [unpackOptions6]; [relay] says whether the caller asks for the relayed message. *)
Fixpoint unpackOptions6_loop (fuel : nat) (space : string) (relay : bool) (offset : nat)
    (buf : list Z) : ST Collection nat :=
  match fuel with
  | O => throw OutOfFuel
  | S fuel =>
      match buf with
      | [] => mret offset
      | t1 :: t2 :: l1 :: l2 :: buf' =>
          let opt_type := be_combine [t1; t2] in
          let n := Z.to_nat (be_combine [l1; l2]) in
          if (length buf' <? n)%nat then mret offset
          else
            let next := unpackOptions6_loop fuel space relay (offset + 4 + n) (drop n buf') in
            if (opt_type =? D6O_RELAY_MSG) && relay then
              _ ← modify (set_relay_msg (offset + 4) n); next
            else if opt_type =? D6O_VENDOR_OPTS then
              if (length buf' <? 4)%nat then mret offset
              else
                opt ← lift (OptionVendor_new unpackVendorOptions UniverseV6 (take n buf'));
                _ ← modify (add_option opt); next
            else
              opt ← lift (make_option UniverseV6 "" (find_defs space opt_type) opt_type (take n buf'));
              _ ← modify (add_option opt); next
      | _ => mret offset
      end
  end.

Definition unpack_collection (u : Universe) (space : string) (buf : list Z) : ST Collection nat :=
  match u with
  | UniverseV4 => unpackOptions4_loop (S (length buf)) space 0 buf
  | UniverseV6 => unpackOptions6_loop (S (length buf)) space false 0 buf
  end.
(** [Option::unpackOptions]. *)
Definition unpack_suboptions (u : Universe) (space : string) (buf : list Z) : res (list WOption) :=
  collect (unpack_collection u space buf).
End Loops.

Fixpoint make_with (depth : nat) (u : Universe) (def : OptionDefinition) (type : Z) (data : list Z)
    : res WOption :=
  match depth with
  | O => Throw OutOfFuel
  | S depth =>
      factory (unpack_suboptions (make_with depth)) (unpackVendorOptions (make_with depth))
        u def type data
  end.

Definition optionFactory (u : Universe) (def : OptionDefinition) (type : Z) (data : list Z)
    : res WOption :=
  make_with (S (length data)) u def type data.

(** [LibDHCP::unpackOptions4] and [unpackOptions6]. *)
Definition unpackOptions4 (space : string) (buf : list Z) : ST Collection nat :=
  unpackOptions4_loop optionFactory (S (length buf)) space 0 buf.
Definition unpackOptions6 (space : string) (relay : bool) (buf : list Z) : ST Collection nat :=
  unpackOptions6_loop optionFactory (S (length buf)) space relay 0 buf.
End Unpack.
