(* ===== verification/OptionWireSafe.v ===== *)
(** * Reading options is safe

    Any bytes are read to the end, as options or with an exception of the library: no read beyond a
    buffer, no assertion of the code that fails, no loop without end; and which
    exceptions can leave [unpackOptions4] and [unpackOptions6]. *)

From S2P Require Import Prelude IoAddress PdExclude DnsName NameWire Option4ClientFqdn Packet.
From S2P Require Import OptionSpace OptionTypes OptionDef StdOptionDefs Option6ClientFqdn OptionWire.
Local Open Scope Z_scope.

(** ** Calls that end with a value or an exception of the library *)

Definition no_crash {A} (r : res A) : Prop :=
  match r with Ok _ => True | Throw e => catchable e = true end.

Section Safe.
Context {A B : Type}.

Lemma no_crash_bind (m : res A) (f : A → res B) :
  no_crash m → (∀ a, m = Ok a → no_crash (f a)) → no_crash (m ≫= f).
Proof. destruct m; cbn; auto. Qed.
Lemma safe_throw_if b e : catchable e = true → no_crash (throw_if b e).
Proof. by destruct b. Qed.
(** The condition is false after the test. *)
Lemma safe_throw_if_bind b e (f : unit → res B) :
  catchable e = true → (b = false → no_crash (f tt)) → no_crash (throw_if b e ≫= f).
Proof. destruct b; cbn; auto. Qed.
Lemma safe_rethrow e (m : res A) : catchable e = true → no_crash m → no_crash (rethrow e m).
Proof. intros He. destruct m as [|e']; cbn; [done|]. intros ->. done. Qed.
Lemma safe_to_fqdn_error (m : res A) : no_crash m → no_crash (to_fqdn_error m).
Proof. destruct m as [|e]; cbn; [done|]. intros ->. done. Qed.
Lemma safe_match {C} (x : A * C) (f : A → C → res B) :
  (∀ a c, no_crash (f a c)) → no_crash (let '(a, c) := x in f a c).
Proof. destruct x. auto. Qed.
End Safe.

Ltac safe_step :=
  match goal with
  | |- no_crash (throw_if _ _ ≫= _) => apply safe_throw_if_bind; [reflexivity|intros ?]
  | |- no_crash (throw_if _ _) => apply safe_throw_if; reflexivity
  | |- no_crash (mret _) => exact I
  | |- no_crash (Ok _) => exact I
  | |- no_crash (Throw _) => reflexivity
  | |- no_crash (rethrow _ _) => apply safe_rethrow; [reflexivity|]
  | |- no_crash (_ ≫= _) => apply no_crash_bind; [|intros ? ?]
  end.

(** ** Data fields *)

Lemma byte_at_safe buf i : (i < length buf)%nat → no_crash (byte_at buf i).
Proof.
  intros H. unfold byte_at. destruct (lookup_lt_is_Some_2 buf i H) as [b ->]. done.
Qed.
Lemma bytes_at_safe buf i n : (i + n ≤ length buf)%nat → no_crash (bytes_at buf i n).
Proof. intros H. unfold bytes_at. by rewrite (proj2 (Nat.leb_le _ _)). Qed.

Lemma readUint16_safe buf : no_crash (readUint16 buf).
Proof. unfold readUint16. repeat safe_step. Qed.
Lemma readUint32_safe buf : no_crash (readUint32 buf).
Proof. unfold readUint32. repeat safe_step. Qed.

Lemma readUint16_bound buf z : Forall is_byte buf → readUint16 buf = Ok z → 0 ≤ z < 65536.
Proof.
  intros Hb. unfold readUint16. intros H. res_inv.
  pose proof (be_combine_bound (take 2 buf) (Forall_take _ _ _ Hb)) as H.
  pose proof (length_take buf 2).
  assert (256 ^ Z.of_nat (length (take 2 buf)) ≤ 256 ^ 2) by (apply Z.pow_le_mono_r; lia). lia.
Qed.

Lemma byte_at_bound buf i z : Forall is_byte buf → byte_at buf i = Ok z → 0 ≤ z < 256.
Proof.
  intros Hb. unfold byte_at. destruct (buf !! i) as [b|] eqn:E; [|done]. intros [= <-].
  exact (Forall_lookup_1 _ _ _ _ Hb E).
Qed.

Lemma tuple_unpack_safe t buf : Forall is_byte buf → no_crash (tuple_unpack t buf).
Proof.
  intros Hb. unfold tuple_unpack. safe_step. apply Nat.ltb_ge in H.
  assert (∃ len, match t with LENGTH_1_BYTE => byte_at buf 0 | LENGTH_2_BYTES => readUint16 buf end
                 = Ok len ∧ 0 ≤ len) as (len & -> & Hlen).
  { destruct t; cbn in H.
    - destruct (lookup_lt_is_Some_2 buf 0 ltac:(lia)) as [b E]. exists b. unfold byte_at. rewrite E.
      split; [done|]. apply (Forall_lookup_1 _ _ _ _ Hb E).
    - exists (be_combine (take 2 buf)). unfold readUint16.
      rewrite (proj2 (Nat.ltb_ge _ _)) by lia. split; [done|].
      apply be_combine_bound, Forall_take, Hb. }
  cbn [mbind res_bind]. safe_step. apply Z.ltb_ge in H0. apply bytes_at_safe. lia.
Qed.

Lemma readTuple_safe t buf : Forall is_byte buf → no_crash (readTuple buf t).
Proof.
  intros Hb. unfold readTuple. destruct t; safe_step; apply Nat.ltb_ge in H.
  - apply no_crash_bind; [apply byte_at_safe; lia|]. intros len Hlen.
    apply byte_at_bound in Hlen; [|done]. safe_step. apply Z.ltb_ge in H0. apply bytes_at_safe. lia.
  - apply no_crash_bind; [apply readUint16_safe|]. intros len Hlen.
    apply readUint16_bound in Hlen; [|done]. safe_step. apply Z.ltb_ge in H0. apply bytes_at_safe. lia.
Qed.

Lemma bytes_lt_is_byte l : Forall is_byte l → Forall (λ c, 0 ≤ c < 256) l.
Proof. done. Qed.

Lemma name_fromWire_safe downcase buf pos :
  Forall is_byte buf → (pos ≤ length buf)%nat → no_crash (name_fromWire downcase buf pos).
Proof.
  intros Hb Hp. pose proof (name_fromWire_ok downcase buf pos Hb Hp) as H.
  destruct (name_fromWire _ _ _) as [|e]; [done|]. by subst e.
Qed.

Lemma name_toText_safe omit n : wf_name n → no_crash (name_toText omit n).
Proof. intros (ls & [Hls _] & ->). by rewrite name_toText_name_of. Qed.

Lemma readFqdn_safe buf : Forall is_byte buf → no_crash (readFqdn buf).
Proof.
  intros Hb. unfold readFqdn. do 2 safe_step.
  pose proof (name_fromWire_ok false buf 0 Hb ltac:(lia)) as Hn.
  destruct (name_fromWire _ _ _) as [[n k]|e]; [|by subst e]. apply name_toText_safe, Hn.
Qed.

Lemma readPrefix_safe buf : no_crash (readPrefix buf).
Proof.
  unfold readPrefix. safe_step. destruct buf as [|b buf]; [done|].
  apply no_crash_bind; [apply byte_at_safe; cbn; lia|]. intros len _. safe_step.
  apply no_crash_bind; [|by intros].
  destruct (1 <? _)%nat; [|done]. unfold fromBytes. done.
Qed.

Lemma checkFlags_safe f c : no_crash (checkFlags f c).
Proof. unfold checkFlags. repeat safe_step. Qed.

Lemma fqdn_fromWire_safe data : Forall is_byte data → (length data < 258)%nat → no_crash (fqdn_fromWire data).
Proof.
  intros Hb Hlen. unfold fqdn_fromWire, fqdn_unpack, parseWireData.
  apply no_crash_bind; [|intros o _; apply no_crash_bind; [apply checkFlags_safe|done]].
  destruct data as [|f [|r1 [|r2 name]]]; [done..|].
  do 3 (apply Forall_cons in Hb as [? Hb]). cbn in Hlen. apply safe_to_fqdn_error.
  unfold parseCanonicalDomainName, parseASCIIDomainName.
  destruct (negb _); destruct (last name) as [c|]; try done.
  - destruct (negb _); (apply no_crash_bind; [|by intros [] _]); apply name_fromWire_safe; try lia; [|done].
    apply Forall_app; split; [done|]. constructor; [unfold is_byte; lia|done].
  - apply no_crash_bind; [|done]. pose proof (mkName_wf false name Hb) as Hn.
    destruct (mkName false name) as [|e]; [done|]. cbn. destruct Hn as [|[_ Hn]]; [done|lia].
Qed.

Lemma fqdn6_fromWire_safe data : Forall is_byte data → no_crash (fqdn6_fromWire data).
Proof.
  intros Hb. pose proof (fqdn6_fromWire_wf data Hb) as H.
  destruct (fqdn6_fromWire data) as [|e]; [done|]. by destruct H as [->|[->| ->]].
Qed.

Lemma PdExclude_unpack_safe data : no_crash (PdExclude.unpack data).
Proof.
  unfold PdExclude.unpack. destruct (_ <? _)%nat; [done|]. destruct data; [done|]. by destruct (_ =? _).
Qed.

(** ** Constructors *)

Ltac safe_steps := repeat first [safe_step | done].

Lemma check_type_safe u type : no_crash (check_type u type).
Proof. unfold check_type. by safe_steps. Qed.
Lemma check_safe u type data : no_crash (check u type data).
Proof. unfold check. destruct u; by safe_steps. Qed.
Lemma generic_safe u type data : no_crash (generic u type data).
Proof. unfold generic. apply no_crash_bind; [apply check_safe|done]. Qed.

Lemma tuples_loop_safe fuel t : ∀ data,
  Forall is_byte data → (length data < fuel)%nat → no_crash (tuples_loop fuel t data).
Proof.
  induction fuel as [|fuel IH]; intros data Hb Hf; [lia|]. cbn [tuples_loop].
  destruct data as [|b data]; [done|]. apply no_crash_bind; [by apply tuple_unpack_safe|].
  intros tuple _. apply no_crash_bind; [|done].
  apply IH; [by apply Forall_drop|]. rewrite length_drop. cbn in *. destruct t; cbn; lia.
Qed.

Lemma vendor_class_loop_safe fuel u : ∀ data,
  Forall is_byte data → (length data < fuel)%nat → no_crash (vendor_class_loop fuel u data).
Proof.
  induction fuel as [|fuel IH]; intros data Hb Hf; [lia|]. cbn [vendor_class_loop].
  destruct data as [|b data]; [done|]. apply no_crash_bind; [by apply tuple_unpack_safe|].
  intros tuple _. set (rest := drop _ (b :: data)).
  assert (Forall is_byte rest ∧ (length rest < fuel)%nat) as [Hrb Hrl].
  { split; [by apply Forall_drop|]. unfold rest. rewrite length_drop. cbn in *. destruct u; cbn; lia. }
  apply no_crash_bind; [destruct (_ && _); by safe_steps|]. intros rest' Hr.
  apply no_crash_bind; [|done]. apply IH.
  - destruct (_ && _); res_inv; [by apply Forall_drop|done].
  - destruct (_ && _); res_inv; [rewrite length_drop; lia|done].
Qed.

Lemma fqdn_list_loop_safe fuel data : Forall is_byte data → ∀ pos,
  (pos ≤ length data)%nat → (length data - pos < fuel)%nat → no_crash (fqdn_list_loop fuel data pos).
Proof.
  intros Hb. induction fuel as [|fuel IH]; intros pos Hp Hf; [lia|]. cbn [fqdn_list_loop].
  destruct (Nat.leb_spec (length data) pos); [done|].
  pose proof (name_fromWire_ok false data pos Hb Hp) as Hn.
  destruct (name_fromWire false data pos) as [[n next]|e]; [|by subst e].
  cbn [rethrow mbind res_bind]. apply no_crash_bind; [|done]. apply IH; lia.
Qed.

Lemma fqdn_list_loop_bytes fuel data : Forall is_byte data → ∀ pos out,
  (pos ≤ length data)%nat → fqdn_list_loop fuel data pos = Ok out → Forall is_byte out.
Proof.
  intros Hb. induction fuel as [|fuel IH]; intros pos out Hp Hout; [done|]. cbn [fqdn_list_loop] in Hout.
  destruct (Nat.leb_spec (length data) pos); [by injection Hout as <-|].
  pose proof (name_fromWire_ok false data pos Hb Hp) as Hn.
  destruct (name_fromWire false data pos) as [[n next]|e]; [|by subst e].
  cbn [rethrow mbind res_bind] in Hout. res_inv. apply Forall_app. split.
  - destruct Hn as [(ls & [Hls _] & ->) _]. cbn.
    apply Forall_app. split; [|constructor; [unfold is_byte; lia|done]].
    clear -Hls. induction Hls as [|l ls (Hl & Hlen & Hc) Hls IH]; [done|]. rewrite wire_cons.
    constructor; [unfold is_byte, MAX_LABELLEN in *; lia|]. by apply Forall_app.
  - apply (IH next); [lia|done].
Qed.

Section Factory.
Context (us : Universe → string → list Z → res (list WOption)).
Context (uv : Universe → Z → list Z → res (list WOption)).
Context (bound : nat).
Context (Hus : ∀ u space buf, Forall is_byte buf → (length buf ≤ bound)%nat → no_crash (us u space buf)).
Context (Huv : ∀ u id buf, Forall is_byte buf → (length buf ≤ bound)%nat → no_crash (uv u id buf)).

Lemma sub_safe u space k data :
  Forall is_byte data → (length data ≤ bound)%nat → no_crash (us u space (drop k data)).
Proof using Hus. intros Hb Hl. apply Hus; [by apply Forall_drop|]. rewrite length_drop. lia. Qed.

Section Custom.
Context (def : OptionDefinition) (u : Universe).

Lemma bufferLength_safe t in_array data :
  Forall is_byte data → no_crash (bufferLength def u t in_array data).
Proof.
  intros Hb. unfold bufferLength. destruct (_ =? 0)%nat; [|done].
  destruct (bool_decide _); [apply no_crash_bind; [by apply readFqdn_safe|done]|].
  destruct (_ && _); [done|]. destruct (bool_decide _).
  - destruct (_ && _); [done|]. apply no_crash_bind; [apply readPrefix_safe|by intros []].
  - destruct (bool_decide _); [|done]. apply no_crash_bind; [by apply readTuple_safe|done].
Qed.

(** A value in an array takes at least one byte. *)
Lemma bufferLength_positive t data n : bufferLength def u t true data = Ok n → def_array_type_ def = true → (0 < n)%nat.
Proof.
  unfold bufferLength. destruct (Nat.eqb_spec (getDataTypeLen t) 0) as [E|E]; intros H Harr.
  - rewrite Harr in H. cbn [negb andb] in H. destruct (bool_decide _); [res_inv; lia|].
    destruct (bool_decide _).
    + rewrite andb_false_r in H. apply res_bind_Ok in H as ([l p] & _ & H). res_inv. lia.
    + destruct (bool_decide _); [|done]. res_inv. destruct u; lia.
  - res_inv. lia.
Qed.

Lemma record_buffers_safe fields : ∀ data,
  Forall is_byte data → no_crash (record_buffers def u fields data).
Proof.
  induction fields as [|field fields IH]; intros data Hb; [done|]. cbn [record_buffers].
  apply no_crash_bind; [by apply bufferLength_safe|]. intros n _. safe_step.
  apply no_crash_bind; [|by intros []]. apply IH. by apply Forall_drop.
Qed.

Lemma record_buffers_rest fields : ∀ data bufs rest,
  record_buffers def u fields data = Ok (bufs, rest) → ∃ k, rest = drop k data.
Proof.
  induction fields as [|field fields IH]; intros data bufs rest H; cbn [record_buffers] in H.
  - injection H as <- <-. by exists 0%nat.
  - apply res_bind_Ok in H as (n & _ & H). apply throw_if_Ok in H as [_ H].
    apply res_bind_Ok in H as ([bufs' rest'] & H1 & H). injection H as <- <-.
    destruct (IH _ _ _ H1) as [k ->]. exists (n + k)%nat. by rewrite drop_drop.
Qed.

Lemma array_buffers_safe fuel t : def_array_type_ def = true → ∀ data,
  Forall is_byte data → (length data < fuel)%nat → no_crash (array_buffers def u fuel t data).
Proof.
  intros Harr. induction fuel as [|fuel IH]; intros data Hb Hf; [lia|]. cbn [array_buffers].
  destruct data as [|b data]; [done|]. apply no_crash_bind; [by apply bufferLength_safe|]. intros n Hn.
  apply bufferLength_positive in Hn; [|done].
  rewrite (proj2 (Nat.eqb_neq n 0)) by lia. cbn [throw_if mbind res_bind].
  destruct (_ <? n)%nat; [done|]. apply no_crash_bind; [|done].
  apply IH; [by apply Forall_drop|]. rewrite length_drop. cbn in *. lia.
Qed.

Lemma custom_suboptions_safe k data :
  Forall is_byte data → (length data ≤ bound)%nat →
  no_crash (custom_suboptions us def u (drop k data)).
Proof using Hus. intros Hb Hl. unfold custom_suboptions. destruct (_ && _); [by apply sub_safe|done]. Qed.

(** An array has no suboptions, so that the length of its data does not matter. *)
Lemma createBuffers_safe data :
  Forall is_byte data → ((length data ≤ bound)%nat ∨ def_array_type_ def = true ∧ def_type_ def = OPT_FQDN_TYPE) →
  no_crash (createBuffers us def u data).
Proof using Hus.
  intros Hb Hl. unfold createBuffers. apply no_crash_bind; [unfold validate; safe_step|]. intros _ _.
  assert (∀ t, t ≠ OPT_EMPTY_TYPE → def_type_ def = t → t ≠ OPT_RECORD_TYPE → no_crash (
      _ ← throw_if (length data <? getDataTypeLen t)%nat OutOfRange;
      if def_array_type_ def then
        buffers ← array_buffers def u (S (length data)) t data;
        mret (buffers, [])
      else
        data_size ← bufferLength def u t false data;
        _ ← throw_if (negb ((0 <? data_size)%nat && (data_size <=? length data)%nat)) OutOfRange;
        options ← custom_suboptions us def u (drop data_size data);
        mret ([take data_size data], options))) as Hvalue.
  { intros t _ Ht _. safe_step. destruct (def_array_type_ def) eqn:Harr.
    - apply no_crash_bind; [apply array_buffers_safe; [done..|lia]|done].
    - destruct Hl as [Hl|[? _]]; [|done].
      apply no_crash_bind; [by apply bufferLength_safe|]. intros n _. safe_step.
      apply no_crash_bind; [by apply custom_suboptions_safe|done]. }
  destruct (def_type_ def) eqn:Et; try (apply Hvalue; congruence).
  - destruct Hl as [Hl|[_ ?]]; [|done].
    apply no_crash_bind; [by apply (custom_suboptions_safe 0)|done].
  - destruct Hl as [Hl|[_ ?]]; [|done].
    apply no_crash_bind; [by apply record_buffers_safe|]. intros [bufs rest] Hr.
    apply record_buffers_rest in Hr as [k ->]. destruct (def_array_type_ def) eqn:Harr.
    + apply no_crash_bind; [|done]. apply array_buffers_safe; [done|by apply Forall_drop|lia].
    + apply no_crash_bind; [by apply custom_suboptions_safe|done].
Qed.

Lemma OptionCustom_safe data :
  Forall is_byte data → ((length data ≤ bound)%nat ∨ def_array_type_ def = true ∧ def_type_ def = OPT_FQDN_TYPE) →
  no_crash (OptionCustom_new us def u data).
Proof using Hus.
  intros Hb Hl. unfold OptionCustom_new. apply no_crash_bind; [apply check_safe|]. intros _ _.
  apply no_crash_bind; [by apply createBuffers_safe|by intros []].
Qed.

Lemma factoryFqdnList_safe data :
  haveCompressedFqdnListFormat def = true → Forall is_byte data →
  no_crash (factoryFqdnList us def u data).
Proof using Hus.
  intros Hf Hb. unfold factoryFqdnList. safe_step.
  apply andb_true_iff in Hf as [Ht Harr]. apply bool_decide_eq_true in Ht.
  apply no_crash_bind; [apply fqdn_list_loop_safe; [done|lia..]|]. intros out Hout.
  apply OptionCustom_safe; [|by right]. by apply (fqdn_list_loop_bytes _ data Hb 0 out ltac:(lia) Hout).
Qed.
End Custom.

Lemma OptionVendor_safe u data :
  Forall is_byte data → (length data ≤ bound)%nat → no_crash (OptionVendor_new uv u data).
Proof using Huv.
  intros Hb Hl. unfold OptionVendor_new. safe_step. apply no_crash_bind; [apply readUint32_safe|].
  intros id _. apply no_crash_bind; [|done]. apply Huv; [by apply Forall_drop|]. rewrite length_drop. lia.
Qed.

Lemma OptionVendorClass_safe u data : Forall is_byte data → no_crash (OptionVendorClass_new u data).
Proof.
  intros Hb. unfold OptionVendorClass_new. apply no_crash_bind; [apply check_type_safe|]. intros _ _.
  safe_step. apply no_crash_bind; [apply readUint32_safe|]. intros id _. apply no_crash_bind; [|done].
  apply vendor_class_loop_safe; [by apply Forall_drop|]. rewrite length_drop. lia.
Qed.

Lemma OptionTuples_safe u type data :
  Forall is_byte data → no_crash (OptionOpaqueDataTuples_new u type data).
Proof.
  intros Hb. unfold OptionOpaqueDataTuples_new. apply no_crash_bind; [apply check_type_safe|]. intros _ _.
  safe_step. apply no_crash_bind; [|done]. apply tuples_loop_safe; [done|lia].
Qed.

Lemma Option4SlpServiceScope_safe data : no_crash (Option4SlpServiceScope_new data).
Proof.
  unfold Option4SlpServiceScope_new. destruct data as [|b data]; [done|].
  apply no_crash_bind; [|done]. destruct (_ =? _); [done|]. by destruct (_ =? _).
Qed.

Lemma Option4ClientFqdn_safe data : Forall is_byte data → no_crash (Option4ClientFqdn_new data).
Proof.
  intros Hb. unfold Option4ClientFqdn_new, check.
  destruct (Nat.ltb_spec 255 (length data)); [done|].
  apply no_crash_bind; [by apply safe_throw_if|]. intros _ _.
  apply no_crash_bind; [apply fqdn_fromWire_safe; [done|lia]|done].
Qed.

Lemma Option6ClientFqdn_safe data : Forall is_byte data → no_crash (Option6ClientFqdn_new data).
Proof. intros Hb. apply no_crash_bind; [by apply fqdn6_fromWire_safe|done]. Qed.

Lemma Option6StatusCode_safe data : no_crash (Option6StatusCode_new data).
Proof. unfold Option6StatusCode_new. safe_step. apply no_crash_bind; [apply readUint16_safe|done]. Qed.

Lemma Option6PDExclude_safe data : no_crash (Option6PDExclude_new data).
Proof. apply no_crash_bind; [apply PdExclude_unpack_safe|done]. Qed.

Lemma Option6IAAddr_safe type data :
  Forall is_byte data → (length data ≤ bound)%nat → no_crash (Option6IAAddr_new us type data).
Proof using Hus.
  intros Hb Hl. unfold Option6IAAddr_new. safe_step. apply no_crash_bind; [by apply sub_safe|done].
Qed.

Lemma Option6IA_safe type data :
  Forall is_byte data → (length data ≤ bound)%nat → no_crash (Option6IA_new us type data).
Proof using Hus.
  intros Hb Hl. unfold Option6IA_new. do 2 safe_step. apply no_crash_bind; [by apply sub_safe|done].
Qed.

Lemma Option6IAPrefix_safe type data :
  Forall is_byte data → (length data ≤ bound)%nat → no_crash (Option6IAPrefix_new us type data).
Proof using Hus.
  intros Hb Hl. unfold Option6IAPrefix_new.
  apply no_crash_bind; [by apply Option6IAAddr_safe|]. intros base _. safe_step.
  apply no_crash_bind; [by apply sub_safe|done].
Qed.

Lemma special_safe u def data :
  Forall is_byte data → (length data ≤ bound)%nat →
  match factorySpecialFormatOption us uv u def data with Some r => no_crash r | None => True end.
Proof using Hus Huv.
  intros Hb Hl. unfold factorySpecialFormatOption.
  destruct u; repeat match goal with |- context [if ?b then _ else _] => destruct b eqn:? end;
    auto using Option4SlpServiceScope_safe, Option4ClientFqdn_safe, factoryFqdnList_safe,
      OptionVendorClass_safe, OptionVendor_safe, Option6IA_safe, Option6IAAddr_safe,
      Option6IAPrefix_safe, Option6ClientFqdn_safe, Option6StatusCode_safe, OptionTuples_safe,
      Option6PDExclude_safe.
Qed.

Lemma integer_safe u def type size s1 s2 data :
  Forall is_byte data → (length data ≤ bound)%nat →
  no_crash (factory_integer us u def type size s1 s2 data).
Proof using Hus.
  intros Hb Hl. unfold factory_integer. destruct (def_array_type_ def).
  - unfold OptionIntArray_new. apply no_crash_bind; [apply check_type_safe|]. intros _ _. by safe_steps.
  - unfold OptionInt_new. apply no_crash_bind; [apply check_type_safe|]. intros _ _. safe_step.
    apply no_crash_bind; [by apply sub_safe|done].
Qed.

Lemma by_type_safe u def type data :
  Forall is_byte data → (length data ≤ bound)%nat →
  no_crash (factory_by_type us u def type data).
Proof using Hus.
  intros Hb Hl. unfold factory_by_type.
  assert (no_crash (OptionCustom_new us def u data)) by (apply OptionCustom_safe; auto).
  destruct (def_type_ def); auto using integer_safe, generic_safe;
    repeat match goal with |- context [if ?b then _ else _] => destruct b end;
    auto using OptionTuples_safe.
  - apply no_crash_bind; [apply check_type_safe|done].
  - unfold Option4AddrLst_new. apply no_crash_bind; [apply check_type_safe|]. intros _ _. by safe_steps.
  - unfold Option6AddrLst_new. by safe_steps.
  - unfold OptionString_new. apply no_crash_bind; [apply check_type_safe|]. intros _ _. by safe_steps.
Qed.

(** What [optionFactory] lets through. *)
Definition factory_error (e : exc) : Prop := e = SkipRemainingOptionsError ∨ e = InvalidOptionValue.

Lemma factory_ok u def type data :
  Forall is_byte data → (length data ≤ bound)%nat →
  match factory us uv u def type data with Ok _ => True | Throw e => factory_error e end.
Proof using Hus Huv.
  intros Hb Hl. unfold factory.
  assert (no_crash (match factorySpecialFormatOption us uv u def data with
                | Some r => r | None => factory_by_type us u def type data end)) as H.
  { pose proof (special_safe u def data Hb Hl).
    destruct (factorySpecialFormatOption _ _ _ _ _); [done|by apply by_type_safe]. }
  destruct (match factorySpecialFormatOption _ _ _ _ _ with Some _ => _ | None => _ end) as [o|e];
    [done|]. cbn in H. unfold factory_error. destruct e; cbn [rethrow]; rewrite ?H; auto.
Qed.
End Factory.

(** ** Collections *)

(** The order of [std::multimap]. *)
Definition in_order (l : list WOption) : Prop := StronglySorted (λ o o', w_type o ≤ w_type o') l.

Lemma insert_option_Permutation o l : insert_option o l ≡ₚ o :: l.
Proof.
  induction l as [|x l IH]; cbn [insert_option]; [done|]. destruct (_ <? _); [done|].
  rewrite IH. constructor.
Qed.

Lemma insert_option_in_order o l : in_order l → in_order (insert_option o l).
Proof.
  induction 1 as [|x l Hl IH Hx]; cbn [insert_option]; [repeat constructor|].
  destruct (Z.ltb_spec (w_type o) (w_type x)).
  - constructor; [by constructor|]. constructor; [lia|].
    eapply Forall_impl; [exact Hx|]. cbn. intros; lia.
  - constructor; [done|]. rewrite insert_option_Permutation. constructor; [lia|done].
Qed.

(** Options are only added, and in their place. *)
Definition grows (c c' : Collection) : Prop :=
  c_options c ⊆+ c_options c' ∧ (in_order (c_options c) → in_order (c_options c')).

#[export] Instance grows_preorder : PreOrder grows.
Proof.
  split; [by split|]. intros c1 c2 c3 [H1 S1] [H2 S2]. split; [by etrans|auto].
Qed.

Lemma add_option_grows o c : grows c (add_option o c).
Proof.
  split; cbn; [|apply insert_option_in_order].
  rewrite insert_option_Permutation. by apply submseteq_cons.
Qed.
Lemma add_option_preserves o : preserves grows (modify (add_option o)).
Proof. apply preserves_modify. intros; apply add_option_grows. Qed.
Lemma add_deferred_preserves t : preserves grows (modify (add_deferred t)).
Proof. by apply preserves_modify. Qed.
Lemma set_relay_msg_preserves o n : preserves grows (modify (set_relay_msg o n)).
Proof. by apply preserves_modify. Qed.
#[export] Hint Resolve add_option_preserves add_deferred_preserves set_relay_msg_preserves : preserves.

(** The exceptions of a collection of options. *)
Definition unpack_error (e : exc) : Prop := factory_error e ∨ e = Unexpected.

Section Loops.
Context (runtime : string → list OptionDefinition).
Context (make : Universe → OptionDefinition → Z → list Z → res WOption).

Lemma unpackOptions4_loop_grows fuel space : ∀ offset buf,
  preserves grows (unpackOptions4_loop runtime make fuel space offset buf).
Proof.
  induction fuel as [|fuel IH]; intros offset buf; cbn [unpackOptions4_loop]; preserve; apply IH.
Qed.
Lemma unpackOptions6_loop_grows fuel space relay : ∀ offset buf,
  preserves grows (unpackOptions6_loop runtime make fuel space relay offset buf).
Proof.
  induction fuel as [|fuel IH]; intros offset buf; cbn [unpackOptions6_loop]; preserve; apply IH.
Qed.

Context (bound : nat).
Context (Hmake : ∀ u def type data, Forall is_byte data → (length data < bound)%nat →
  match make u def type data with Ok _ => True | Throw e => factory_error e end).

Lemma make_option_ok u space defs type data :
  Forall is_byte data → (length data < bound)%nat → (type ≤ 255 ∧ (length data ≤ 255)%nat ∨ u = UniverseV6) →
  match make_option make u space defs type data with Ok _ => True | Throw e => unpack_error e end.
Proof using Hmake.
  intros Hb Hl Hsmall. unfold make_option, unpack_error. destruct defs as [|def [|]].
  - unfold generic, check. destruct u.
    + destruct Hsmall as [[Ht Hd]|]; [|done].
      rewrite (proj2 (Z.ltb_ge 255 type)), (proj2 (Nat.ltb_ge 255 _)) by done. done.
    + done.
  - specialize (Hmake u def type data Hb Hl). destruct (make u def type data); auto.
  - auto.
Qed.

Lemma wp_make_option {A} u space defs type data (k : WOption → ST Collection A) c Q :
  Forall is_byte data → (length data < bound)%nat → (type ≤ 255 ∧ (length data ≤ 255)%nat ∨ u = UniverseV6) →
  (∀ o, wp (k o) c Q (λ e _, unpack_error e)) →
  wp (lift (make_option make u space defs type data) ≫= k) c Q (λ e _, unpack_error e).
Proof using Hmake.
  intros Hb Hl Hs Hk. apply wp_bind, wp_lift.
  pose proof (make_option_ok u space defs type data Hb Hl Hs) as H.
  by destruct (make_option _ _ _ _ _ _).
Qed.

Lemma split_bytes n (buf : list Z) :
  Forall is_byte buf → Forall is_byte (take n buf) ∧ Forall is_byte (drop n buf).
Proof. split; [by apply Forall_take|by apply Forall_drop]. Qed.

Lemma two_bytes a b : is_byte a → is_byte b → 0 ≤ be_combine [a; b] < 65536.
Proof. unfold is_byte. cbn. lia. Qed.

Lemma vendor4_loop_ok fuel id : ∀ buf c,
  Forall is_byte buf → (length buf ≤ bound)%nat → (length buf < fuel)%nat →
  wp (vendor4_loop make fuel id buf) c (λ _ _, True) (λ e _, unpack_error e).
Proof using Hmake.
  induction fuel as [|fuel IH]; intros buf c Hb Hl Hf; [lia|]. cbn [vendor4_loop].
  destruct buf as [|t [|n buf]]; [done|by left; left|].
  apply Forall_cons in Hb as [Ht Hb]. apply Forall_cons in Hb as [Hn Hb]. cbn in Hl, Hf.
  unfold is_byte in Ht, Hn. destruct (split_bytes (Z.to_nat n) buf Hb).
  apply wp_bind, wp_lift. destruct (Nat.ltb_spec (length buf) (Z.to_nat n)); [by left; left|].
  apply wp_make_option; [done|rewrite length_take; lia|left; rewrite length_take; lia|].
  intros o. apply wp_bind, wp_modify. apply IH; [done|rewrite length_drop; lia..].
Qed.

Lemma vendor6_loop_ok fuel id : ∀ buf c,
  Forall is_byte buf → (length buf ≤ bound)%nat → (length buf < fuel)%nat →
  wp (vendor6_loop make fuel id buf) c (λ _ _, True) (λ e _, unpack_error e).
Proof using Hmake.
  induction fuel as [|fuel IH]; intros buf c Hb Hl Hf; [lia|]. cbn [vendor6_loop].
  destruct buf as [|t1 [|t2 [|l1 [|l2 buf]]]]; [done|by left; left..|].
  do 4 (apply Forall_cons in Hb as [? Hb]). cbn in Hl, Hf.
  destruct (split_bytes (Z.to_nat (be_combine [l1; l2])) buf Hb).
  apply wp_bind, wp_lift. destruct (_ <? _)%nat; [by left; left|].
  apply wp_make_option; [done|rewrite length_take; lia|by right|].
  intros o. apply wp_bind, wp_modify. apply IH; [done|rewrite length_drop; lia..].
Qed.

Lemma unpackVendorOptions_ok u id buf :
  Forall is_byte buf → (length buf ≤ bound)%nat →
  match unpackVendorOptions make u id buf with Ok _ => True | Throw e => unpack_error e end.
Proof using Hmake.
  intros Hb Hl. unfold unpackVendorOptions, collect.
  assert (wp (match u with
              | UniverseV4 => unpackVendorOptions4 make id buf
              | UniverseV6 => unpackVendorOptions6 make id buf
              end) empty_collection (λ _ _, True) (λ e _, unpack_error e)) as H.
  { destruct u.
    - unfold unpackVendorOptions4. destruct buf as [|n buf]; [done|].
      apply Forall_cons in Hb as [? Hb]. apply wp_bind, wp_lift.
      destruct (_ <? _)%nat; [by left; left|]. cbn in Hl.
      apply vendor4_loop_ok; [by apply Forall_take|rewrite length_take; lia|lia].
    - apply vendor6_loop_ok; [done..|lia]. }
  unfold wp in H. destruct u; [by destruct (unpackVendorOptions4 _ _ _ _) as [c []]|].
  by destruct (unpackVendorOptions6 _ _ _ _) as [c []].
Qed.

Lemma unpackOptions4_loop_ok fuel space : ∀ offset buf c,
  Forall is_byte buf → (length buf ≤ bound)%nat → (length buf < fuel)%nat →
  wp (unpackOptions4_loop runtime make fuel space offset buf) c
     (λ last _, (offset ≤ last ≤ offset + length buf)%nat) (λ e _, unpack_error e).
Proof using Hmake.
  induction fuel as [|fuel IH]; intros offset buf c Hb Hl Hf; [lia|]. cbn [unpackOptions4_loop].
  destruct buf as [|t buf]; [apply wp_ret; cbn; lia|].
  destruct (_ =? DHO_END); [apply wp_ret; lia|].
  apply Forall_cons in Hb as [Ht Hb]. cbn in Hl, Hf. unfold is_byte in Ht.
  destruct (_ =? DHO_PAD).
  { eapply wp_mono; [apply IH; [done|lia..]|cbn; intros; lia|done]. }
  destruct buf as [|n buf]; [apply wp_ret; cbn; lia|].
  apply Forall_cons in Hb as [Hn Hb]. cbn in Hl, Hf. unfold is_byte in Hn.
  destruct (split_bytes (Z.to_nat n) buf Hb).
  destruct (Nat.ltb_spec (length buf) (Z.to_nat n)); [apply wp_ret; cbn; lia|].
  apply wp_bind. set (defs := if shouldDeferOptionUnpack space t then [] else _).
  assert (∀ c, wp (opt ← lift (make_option make UniverseV4 DHCP4_OPTION_SPACE defs t (take (Z.to_nat n) buf));
                   _ ← modify (add_option opt);
                   unpackOptions4_loop runtime make fuel space (offset + 2 + Z.to_nat n) (drop (Z.to_nat n) buf)) c
    (λ last _, (offset ≤ last ≤ offset + length (t :: n :: buf))%nat) (λ e _, unpack_error e)) as Hrest.
  { intros c'. apply wp_make_option; [done|rewrite length_take; lia|left; rewrite length_take; lia|].
    intros o. apply wp_bind, wp_modify.
    eapply wp_mono; [apply IH; [done|rewrite length_drop; lia..]|..]; [|done].
    rewrite length_drop. cbn. intros; lia. }
  destruct (shouldDeferOptionUnpack space t); apply Hrest.
Qed.

Lemma OptionVendor_ok u data :
  Forall is_byte data → (length data ≤ bound)%nat →
  match OptionVendor_new (unpackVendorOptions make) u data with
  | Ok _ => True | Throw e => unpack_error e
  end.
Proof using Hmake.
  intros Hb Hl. unfold OptionVendor_new, readUint32.
  destruct (length data <? 4)%nat; [by left; left|]. cbn [throw_if mbind res_bind mret res_ret].
  pose proof (unpackVendorOptions_ok u (be_combine (take 4 data)) (drop 4 data)
    ltac:(by apply Forall_drop) ltac:(rewrite length_drop; lia)) as Hv.
  by destruct (unpackVendorOptions _ _ _ _).
Qed.

Lemma unpackOptions6_loop_ok fuel space relay : ∀ offset buf c,
  Forall is_byte buf → (length buf ≤ bound)%nat → (length buf < fuel)%nat →
  wp (unpackOptions6_loop runtime make fuel space relay offset buf) c
     (λ last _, (offset ≤ last ≤ offset + length buf)%nat) (λ e _, unpack_error e).
Proof using Hmake.
  induction fuel as [|fuel IH]; intros offset buf c Hb Hl Hf; [lia|]. cbn [unpackOptions6_loop].
  destruct buf as [|t1 [|t2 [|l1 [|l2 buf]]]]; try (apply wp_ret; cbn; lia).
  do 4 (apply Forall_cons in Hb as [? Hb]). cbn in Hl, Hf.
  set (n := Z.to_nat (be_combine [l1; l2])). destruct (split_bytes n buf Hb).
  destruct (Nat.ltb_spec (length buf) n); [apply wp_ret; cbn; lia|].
  assert (∀ c, wp (unpackOptions6_loop runtime make fuel space relay (offset + 4 + n) (drop n buf)) c
    (λ last _, (offset ≤ last ≤ offset + length (t1 :: t2 :: l1 :: l2 :: buf))%nat)
    (λ e _, unpack_error e)) as Hrest.
  { intros c'. eapply wp_mono; [apply IH; [done|rewrite length_drop; lia..]|..]; [|done].
    rewrite length_drop. cbn. intros; lia. }
  destruct (_ && _); [apply wp_bind, wp_modify, Hrest|].
  destruct (_ =? D6O_VENDOR_OPTS).
  - destruct (_ <? 4)%nat; [apply wp_ret; cbn; lia|].
    apply wp_bind, wp_lift.
    pose proof (OptionVendor_ok UniverseV6 (take n buf) ltac:(done) ltac:(rewrite length_take; lia)) as Hv.
    destruct (OptionVendor_new _ _ _); [|done]. apply wp_bind, wp_modify, Hrest.
  - apply wp_make_option; [done|rewrite length_take; lia|by right|].
    intros o. apply wp_bind, wp_modify, Hrest.
Qed.

Lemma unpack_suboptions_ok u space buf :
  Forall is_byte buf → (length buf ≤ bound)%nat →
  match unpack_suboptions runtime make u space buf with Ok _ => True | Throw e => unpack_error e end.
Proof using Hmake.
  intros Hb Hl. unfold unpack_suboptions, collect.
  assert (wp (unpack_collection runtime make u space buf) empty_collection
    (λ last _, (0 ≤ last ≤ 0 + length buf)%nat) (λ e _, unpack_error e)) as H.
  { destruct u; [apply unpackOptions4_loop_ok|apply unpackOptions6_loop_ok]; auto. }
  unfold wp in H. by destruct (unpack_collection _ _ _ _ _ _) as [c []].
Qed.
End Loops.

(** ** The whole parser *)

Lemma unpack_error_catchable e : unpack_error e → catchable e = true.
Proof. by intros [[-> | ->]| ->]. Qed.

(** A suboption has less data than the option: the depth is enough. *)
Lemma make_with_ok runtime depth : ∀ u def type data,
  Forall is_byte data → (length data < depth)%nat →
  match make_with runtime depth u def type data with Ok _ => True | Throw e => factory_error e end.
Proof.
  induction depth as [|depth IH]; intros u def type data Hb Hl; [lia|]. cbn [make_with].
  apply (factory_ok _ _ depth); [| |done|lia].
  - intros u' space buf Hb' Hl'.
    pose proof (unpack_suboptions_ok runtime (make_with runtime depth) depth IH u' space buf Hb' Hl') as H.
    destruct (unpack_suboptions _ _ _ _ _); [done|]. by apply unpack_error_catchable.
  - intros u' id buf Hb' Hl'.
    pose proof (unpackVendorOptions_ok (make_with runtime depth) depth IH u' id buf Hb' Hl') as H.
    destruct (unpackVendorOptions _ _ _ _); [done|]. by apply unpack_error_catchable.
Qed.

Lemma optionFactory_ok runtime u def type data :
  Forall is_byte data →
  match optionFactory runtime u def type data with Ok _ => True | Throw e => factory_error e end.
Proof. intros Hb. apply make_with_ok; [done|lia]. Qed.

(** What a reader of a collection promises, whatever the bytes are: it stops inside the buffer or
    throws one of three exceptions, and adds options in their order to those that were there. *)
Definition unpack_spec (buf : list Z) (c c' : Collection) (r : res nat) : Prop :=
  grows c c' ∧ match r with Ok last => (last ≤ length buf)%nat | Throw e => unpack_error e end.

Lemma unpackOptions4_ok (runtime : string → list OptionDefinition) (space : string)
    (buf : list Z) (c : Collection) :
  Forall is_byte buf → ∃ c' r, unpackOptions4 runtime space buf c = (c', r) ∧ unpack_spec buf c c' r.
Proof.
  intros Hb.
  pose proof (unpackOptions4_loop_grows runtime (optionFactory runtime) (S (length buf)) space 0 buf c) as Hg.
  pose proof (unpackOptions4_loop_ok runtime (optionFactory runtime) (length buf)
    (λ u def type data Hd _, optionFactory_ok runtime u def type data Hd) (S (length buf)) space 0 buf c Hb
    ltac:(lia) ltac:(lia)) as Hw.
  unfold unpackOptions4, unpack_spec, wp in *.
  destruct (unpackOptions4_loop _ _ _ _ _ _ _) as [c' r]. exists c', r.
  split; [done|]. split; [done|]. destruct r; [lia|done].
Qed.

Lemma unpackOptions6_ok (runtime : string → list OptionDefinition) (space : string) (relay : bool)
    (buf : list Z) (c : Collection) :
  Forall is_byte buf → ∃ c' r, unpackOptions6 runtime space relay buf c = (c', r) ∧ unpack_spec buf c c' r.
Proof.
  intros Hb.
  pose proof (unpackOptions6_loop_grows runtime (optionFactory runtime) (S (length buf)) space relay 0 buf c) as Hg.
  pose proof (unpackOptions6_loop_ok runtime (optionFactory runtime) (length buf)
    (λ u def type data Hd _, optionFactory_ok runtime u def type data Hd) (S (length buf)) space relay 0 buf c Hb
    ltac:(lia) ltac:(lia)) as Hw.
  unfold unpackOptions6, unpack_spec, wp in *.
  destruct (unpackOptions6_loop _ _ _ _ _ _ _ _) as [c' r]. exists c', r.
  split; [done|]. split; [done|]. destruct r; [lia|done].
Qed.

(** [unpackOptions4] reads any bytes, with any definitions in the configuration, within its
    buffer, and never ends the server. *)
Theorem unpackOptions4_total (runtime : string → list OptionDefinition) (space : string)
    (buf : list Z) (c : Collection) (Hb : Forall is_byte buf) :
  ∃ c' r, unpackOptions4 runtime space buf c = (c', r) ∧ unpack_spec buf c c' r.
Proof.
  by apply unpackOptions4_ok.
Qed.

Lemma unpackOptions4_total_witness :
  Forall is_byte [53; 1; 1; 125; 2; 0; 0; 255]
  ∧ ∃ c' r, unpackOptions4 (λ _, []) DHCP4_OPTION_SPACE [53; 1; 1; 125; 2; 0; 0; 255] empty_collection
            = (c', r) ∧ unpack_spec [53; 1; 1; 125; 2; 0; 0; 255] empty_collection c' r.
Proof.
  assert (Forall is_byte [53; 1; 1; 125; 2; 0; 0; 255]) as Hb by (repeat constructor; lia).
  split; [exact Hb|]. exact (unpackOptions4_total (λ _, []) DHCP4_OPTION_SPACE _ empty_collection Hb).
Defined.

(** The same for [unpackOptions6], also when it looks for a relayed message. *)
Theorem unpackOptions6_total (runtime : string → list OptionDefinition) (space : string) (relay : bool)
    (buf : list Z) (c : Collection) (Hb : Forall is_byte buf) :
  ∃ c' r, unpackOptions6 runtime space relay buf c = (c', r) ∧ unpack_spec buf c c' r.
Proof.
  by apply unpackOptions6_ok.
Qed.

Lemma unpackOptions6_total_witness :
  Forall is_byte [0; 14; 0; 0; 0]
  ∧ ∃ c' r, unpackOptions6 (λ _, []) DHCP6_OPTION_SPACE false [0; 14; 0; 0; 0] empty_collection
            = (c', r) ∧ unpack_spec [0; 14; 0; 0; 0] empty_collection c' r.
Proof.
  assert (Forall is_byte [0; 14; 0; 0; 0]) as Hb by (repeat constructor; lia).
  split; [exact Hb|]. exact (unpackOptions6_total (λ _, []) DHCP6_OPTION_SPACE false _ empty_collection Hb).
Defined.
