(* ===== verification/OptionPack.v ===== *)
(** * Options written to the wire ([src/lib/dhcp/option.cc], [libdhcp++.cc] and the classes
      derived from [Option])

    [len] and [pack] of the option classes, and [packOptions4] and [packOptions6].  The text of
    a domain name decides the length of a DHCPv4 client FQDN option, hence lengths are results. *)

From S2P Require Import Prelude IoAddress PdExclude DnsName Option4ClientFqdn Packet.
From S2P Require Import OptionSpace OptionTypes OptionDef StdOptionDefs Option6ClientFqdn OptionWire.
Local Open Scope Z_scope.

Definition getHeaderLen (u : Universe) : Z := match u with UniverseV4 => 2 | UniverseV6 => 4 end.

(** The length of a tuple with its length field. *)
Definition getTotalLength (t : LengthFieldType) (tuple : list Z) : Z :=
  Z.of_nat (getDataFieldSize t + length tuple).
Definition sum_list (l : list Z) : Z := foldr Z.add 0 l.

(** The length of what an object writes between its header and its suboptions. *)
Definition payload_len (u : Universe) (data : list Z) (p : Payload) : res Z :=
  let t := tuple_length_field u in
  match p with
  | WGeneric | WString => mret (Z.of_nat (length data))
  | WCustom _ buffers => mret (sum_list ((λ b, Z.of_nat (length b)) <$> buffers))
  | WInt size _ _ => mret (Z.of_nat size)
  | WIntArray size _ values => mret (Z.of_nat (length values * size))
  | WAddrLst4 addrs => mret (Z.of_nat (length addrs * 4))
  | WAddrLst6 addrs => mret (Z.of_nat (length addrs * 16))
  | WTuples tuples => mret (sum_list (getTotalLength t <$> tuples))
  | WVendor _ => mret (match u with UniverseV4 => 5 | UniverseV6 => 4 end)
  | WVendorClass _ tuples =>
      mret (4 + sum_list (getTotalLength t <$> tuples)
            + match u with UniverseV4 => Z.of_nat (4 * (length tuples - 1)) | UniverseV6 => 0 end)
  | WSlpServiceScope _ scope_list => mret (1 + Z.of_nat (length scope_list))
  | WClientFqdn4 impl => n ← fqdn_len impl; mret (Z.of_nat n)
  | WIA _ _ _ => mret 12
  | WIAAddr _ _ _ => mret 24
  | WIAPrefix _ _ _ _ => mret 25
  | WStatusCode _ msg => mret (2 + Z.of_nat (length msg))
  | WPDExclude e => mret (1 + Z.of_nat (length (subnet_id_ e)))
  | WClientFqdn6 impl => mret (Z.of_nat (fqdn6_len impl))
  end.

(** The classes that do not count their suboptions, and do not write them. *)
Definition without_suboptions (p : Payload) : bool :=
  match p with
  | WAddrLst4 _ | WAddrLst6 _ | WString | WTuples _ | WVendorClass _ _ | WSlpServiceScope _ _
  | WClientFqdn4 _ | WStatusCode _ _ | WPDExclude _ | WClientFqdn6 _ => true
  | _ => false
  end.

(** [len], an unsigned integer of 16 bits. *)
Fixpoint w_len (o : WOption) : res Z :=
  match o with
  | mkWOption u _ data p _ options =>
      n ← payload_len u data p;
      sub ← (if without_suboptions p then mret 0
             else foldr (λ x sum, n ← w_len x; sum ← sum; mret (n + sum)) (mret 0) options);
      mret (u16 (getHeaderLen u + n + sub))
  end.

(** [Option::packHeader]. *)
Definition packHeader (u : Universe) (type len : Z) : res (list Z) :=
  match u with
  | UniverseV4 =>
      _ ← throw_if (255 <? len) OutOfRange;
      mret [u8 type; u8 (len - getHeaderLen u)]
  | UniverseV6 => mret (be_split 2 type ++ be_split 2 (u16 (len - getHeaderLen u)))
  end.
(** The header that some classes write without the check of [packHeader]. *)
Definition plain_header (u : Universe) (type len : Z) : list Z :=
  match u with
  | UniverseV4 => [u8 type; u8 (len - getHeaderLen u)]
  | UniverseV6 => be_split 2 type ++ be_split 2 (u16 (len - getHeaderLen u))
  end.

(** [packOptions4] on the codes of the options with what they pack: the relay agent information
    and the end option come last, the last one of each kind. *)
Fixpoint pack_all (l : list (res (list Z))) : res (list Z) :=
  match l with
  | [] => mret []
  | r :: l => b ← r; bs ← pack_all l; mret (b ++ bs)
  end.
Definition last_of (code : Z) (l : list (Z * res (list Z))) : list (res (list Z)) :=
  option_list (snd <$> last (filter (λ x, x.1 = code) l)).
Definition packOptions4 (l : list (Z * res (list Z))) : res (list Z) :=
  pack_all ((snd <$> filter (λ x, x.1 ≠ DHO_DHCP_AGENT_OPTIONS ∧ x.1 ≠ DHO_END) l)
            ++ last_of DHO_DHCP_AGENT_OPTIONS l ++ last_of DHO_END l).
Definition packOptions6 (l : list (Z * res (list Z))) : res (list Z) := pack_all (snd <$> l).
Definition packOptions (u : Universe) (l : list (Z * res (list Z))) : res (list Z) :=
  match u with UniverseV4 => packOptions4 l | UniverseV6 => packOptions6 l end.

(** What an object writes between its header and its suboptions.  [writeUint8] and the others
    take the low bytes of a value. *)
Definition write_int (size : nat) (value : Z) : list Z := be_split size value.
Definition pack_tuples (t : LengthFieldType) (tuples : list (list Z)) : list (res (list Z)) :=
  tuple_pack t <$> tuples.
Definition addrs6 (addrs : list IOAddress) : list (res (list Z)) :=
  (λ a, if isV6 a then Ok (toBytes a) else Throw BadValue) <$> addrs.

(** In DHCPv4 the enterprise id is written before every tuple. *)
Definition pack_vendor_class (u : Universe) (vendor_id : Z) (tuples : list (list Z)) : res (list Z) :=
  match pack_tuples (tuple_length_field u) tuples with
  | [] => Ok (be_split 4 vendor_id)
  | first :: rest =>
      pack_all (Ok (be_split 4 vendor_id) :: first
                :: match u with
                   | UniverseV4 => flat_map (λ r, [Ok (be_split 4 vendor_id); r]) rest
                   | UniverseV6 => rest
                   end)
  end.

Definition pack_payload (u : Universe) (len : Z) (data : list Z) (p : Payload) : res (list Z) :=
  let t := tuple_length_field u in
  match p with
  | WGeneric | WString => mret data
  | WCustom _ buffers => mret (concat buffers)
  | WInt size _ value => mret (write_int size value)
  | WIntArray size _ values => mret (values ≫= write_int size)
  | WAddrLst4 addrs => pack_all ((λ a, a ← toUint32 a; mret (be_split 4 a)) <$> addrs)
  | WAddrLst6 addrs => pack_all (addrs6 addrs)
  | WTuples tuples => pack_all (pack_tuples t tuples)
  | WVendor vendor_id =>
      mret (be_split 4 vendor_id
            ++ match u with UniverseV4 => [u8 (len - getHeaderLen u - 4 - 1)] | UniverseV6 => [] end)
  | WVendorClass vendor_id tuples => pack_vendor_class u vendor_id tuples
  | WSlpServiceScope mandatory scope_list => mret ((if mandatory then 1 else 0) :: scope_list)
  | WClientFqdn4 impl => fqdn_pack impl
  | WIA iaid t1 t2 => mret (be_split 4 iaid ++ be_split 4 t1 ++ be_split 4 t2)
  | WIAAddr addr preferred valid =>
      _ ← throw_if (negb (isV6 addr)) BadValue;
      mret (toBytes addr ++ be_split 4 preferred ++ be_split 4 valid)
  | WIAPrefix addr prefix_len preferred valid =>
      _ ← throw_if (negb (isV6 addr)) BadValue;
      mret (be_split 4 preferred ++ be_split 4 valid ++ [prefix_len] ++ toBytes addr)
  | WStatusCode code msg => mret (be_split 2 code ++ msg)
  | WPDExclude e => PdExclude.pack e
  | WClientFqdn6 impl => mret (fqdn6_pack impl)
  end.

(** The header of a class; [Option4AddrLst] checks the length of its addresses only. *)
Definition pack_header (u : Universe) (type len : Z) (p : Payload) : res (list Z) :=
  match p with
  | WAddrLst4 addrs =>
      _ ← throw_if (255 <? length addrs * 4)%nat OutOfRange;
      mret (plain_header u type len)
  | WAddrLst6 _ | WIA _ _ _ | WIAAddr _ _ _ | WIAPrefix _ _ _ _ => mret (plain_header u type len)
  | _ => packHeader u type len
  end.

(** [pack] of an option object: the bytes it appends to a buffer. *)
Fixpoint w_pack (o : WOption) : res (list Z) :=
  match o with
  | mkWOption u type data p _ options =>
      len ← w_len o;
      header ← pack_header u type len p;
      payload ← pack_payload u len data p;
      sub ← (if without_suboptions p then mret []
             else match p with
                  | WIntArray _ _ _ => mret []
                  | _ => packOptions u ((λ x, (w_type x, w_pack x)) <$> options)
                  end);
      mret (header ++ payload ++ sub)
  end.

Definition pack_collection (u : Universe) (l : list WOption) : res (list Z) :=
  packOptions u ((λ x, (w_type x, w_pack x)) <$> l).
