(* ===== verification/OptionRoundTrip.v ===== *)
(** * Options that are written and read

    A collection of DHCPv4 options that is packed and unpacked gives the same collection, when every
    option survives on its own; and the options that do: data fields of the standard
    types, and options that only hold options that survive.  The last part has runs in which options
    are lost or changed. *)

From S2P Require Import Prelude IoAddress PdExclude DnsName Option4ClientFqdn Packet.
From S2P Require Import OptionSpace OptionTypes OptionDef StdOptionDefs Option6ClientFqdn OptionWire OptionWireSafe OptionPack.
Local Open Scope Z_scope.

(** ** Frames *)

Definition frame (o : WOption) (payload : list Z) : list Z :=
  w_type o :: Z.of_nat (length payload) :: payload.

Section RoundTrip.
Context (runtime : string → list OptionDefinition).

(** [payload] is read as [o] in an option space. *)
Definition reads_as (make : Universe → OptionDefinition → Z → list Z → res WOption) (space : string)
    (o : WOption) (payload : list Z) : Prop :=
  make_option make UniverseV4 DHCP4_OPTION_SPACE
    (if shouldDeferOptionUnpack space (w_type o) then [] else find_defs runtime space (w_type o))
    (w_type o) payload = Ok o.

(** The option is packed as a frame from which it is read, at any depth that is enough. *)
Definition survives (space : string) (o : WOption) : Prop :=
  0 < w_type o < 255 ∧ ∃ payload, w_pack o = Ok (frame o payload)
    ∧ w_len o = Ok (Z.of_nat (length (frame o payload))) ∧ (length payload ≤ 253)%nat
    ∧ ∀ depth, (length payload < depth)%nat → reads_as (make_with runtime depth) space o payload.

Definition add_read (space : string) (c : Collection) (o : WOption) : Collection :=
  add_option o (if shouldDeferOptionUnpack space (w_type o) then add_deferred (w_type o) c else c).

Lemma loop_frame make fuel space offset o payload rest c :
  0 < w_type o < 255 → reads_as make space o payload →
  unpackOptions4_loop runtime make (S fuel) space offset (frame o payload ++ rest) c
  = unpackOptions4_loop runtime make fuel space (offset + length (frame o payload)) rest
      (add_read space c o).
Proof.
  intros Ht Hr. cbn [frame app unpackOptions4_loop]. unfold DHO_END, DHO_PAD.
  rewrite (proj2 (Z.eqb_neq (w_type o) 255)), (proj2 (Z.eqb_neq (w_type o) 0)) by lia.
  rewrite Nat2Z.id, length_app, (proj2 (Nat.ltb_ge _ _)) by lia.
  rewrite take_app_length, drop_app_length. unfold reads_as in Hr. unfold add_read.
  replace (offset + length (frame o payload))%nat with (offset + 2 + length payload)%nat
    by (cbn [frame length]; lia).
  unfold mbind, ST_bind, modify, lift.
  destruct (shouldDeferOptionUnpack space (w_type o)); by rewrite Hr.
Qed.

(** A list of frames. *)
Inductive frames (make : Universe → OptionDefinition → Z → list Z → res WOption) (space : string)
    : list WOption → list Z → Prop :=
  | frames_nil : frames make space [] []
  | frames_cons o payload l bytes :
      0 < w_type o < 255 → w_pack o = Ok (frame o payload) → reads_as make space o payload →
      frames make space l bytes → frames make space (o :: l) (frame o payload ++ bytes).

Lemma loop_frames make space l bytes rest : frames make space l bytes → ∀ fuel offset c,
  unpackOptions4_loop runtime make (length l + fuel) space offset (bytes ++ rest) c
  = unpackOptions4_loop runtime make fuel space (offset + length bytes) rest
      (foldl (add_read space) c l).
Proof.
  induction 1 as [|o payload l bytes Ht _ Hr _ IH]; intros fuel offset c.
  - cbn. by rewrite Nat.add_0_r.
  - cbn [length plus]. rewrite <- app_assoc, loop_frame, IH by done. cbn [foldl].
    rewrite length_app, Nat.add_assoc. done.
Qed.

Lemma frames_pack make space l bytes : frames make space l bytes → pack_all (w_pack <$> l) = Ok bytes.
Proof.
  induction 1 as [|o payload l bytes _ Hp _ _ IH]; [done|].
  rewrite fmap_cons. cbn [pack_all]. by rewrite Hp, IH.
Qed.

Lemma frames_length make space l bytes : frames make space l bytes → (2 * length l ≤ length bytes)%nat.
Proof. induction 1; [done|]. rewrite length_app. cbn [frame length]. lia. Qed.

Lemma frames_app make space l1 l2 b1 b2 :
  frames make space l1 b1 → frames make space l2 b2 → frames make space (l1 ++ l2) (b1 ++ b2).
Proof.
  induction 1; [done|]. intros. cbn [app]. rewrite <- app_assoc. econstructor; eauto.
Qed.

(** ** The order of the options *)

Lemma c_options_foldl space l : ∀ c,
  c_options (foldl (add_read space) c l) = foldl (λ l o, insert_option o l) (c_options c) l.
Proof.
  induction l as [|o l IH]; intros c; [done|]. cbn [foldl]. rewrite IH.
  unfold add_read. by destruct (shouldDeferOptionUnpack _ _).
Qed.

Lemma insert_option_end o l : Forall (λ x, w_type x ≤ w_type o) l → insert_option o l = l ++ [o].
Proof.
  induction 1 as [|x l Hx _ IH]; [done|]. cbn [insert_option app].
  by rewrite (proj2 (Z.ltb_ge _ _)), IH.
Qed.

Lemma insert_option_middle o l1 l2 :
  Forall (λ x, w_type x ≤ w_type o) l1 → Forall (λ x, w_type o < w_type x) l2 →
  insert_option o (l1 ++ l2) = l1 ++ o :: l2.
Proof.
  intros H1 H2. induction H1 as [|x l1 Hx _ IH]; cbn [insert_option app].
  - destruct H2 as [|y l2 Hy _]; [done|]. cbn [insert_option]. by rewrite (proj2 (Z.ltb_lt _ _)).
  - by rewrite (proj2 (Z.ltb_ge _ _)), IH.
Qed.

(** Options that are inserted in order stay in order. *)
Lemma foldl_insert l : ∀ acc,
  in_order (acc ++ l) → foldl (λ l o, insert_option o l) acc l = acc ++ l.
Proof.
  induction l as [|o l IH]; intros acc H; [by rewrite app_nil_r|]. cbn [foldl].
  rewrite insert_option_end.
  - rewrite IH; rewrite <- app_assoc; done.
  - unfold in_order in H. clear IH. induction acc as [|x acc IH]; [done|]. cbn in H.
    inversion H as [|?? H1 H2]; subst. constructor; [|auto].
    rewrite Forall_forall in H2. apply H2. apply elem_of_app. right. by left.
Qed.

Definition is_rai (o : WOption) : Prop := w_type o = DHO_DHCP_AGENT_OPTIONS.
#[export] Instance is_rai_dec o : Decision (is_rai o) := decide (w_type o = DHO_DHCP_AGENT_OPTIONS).

(** The order in which a collection is packed. *)
Definition packed_order (l : list WOption) : list WOption :=
  filter (λ o, ¬ is_rai o) l ++ filter is_rai l.

(** A collection in order with at most one relay agent information option. *)
Definition one_rai (l : list WOption) : Prop := (length (filter is_rai l) ≤ 1)%nat.

Lemma pack_collection_order l :
  Forall (λ o, w_type o ≠ DHO_END) l → one_rai l →
  pack_collection UniverseV4 l = pack_all (w_pack <$> packed_order l).
Proof.
  intros Hend Hrai. unfold pack_collection, packOptions, packOptions4, packed_order.
  assert (∀ (P : Z * res (list Z) → Prop) (Q : WOption → Prop) (DP : ∀ x, Decision (P x))
    (DQ : ∀ o, Decision (Q o)), Forall (λ o, P (w_type o, w_pack o) ↔ Q o) l →
    snd <$> filter P ((λ x, (w_type x, w_pack x)) <$> l) = w_pack <$> filter Q l) as Hfilter.
  { intros P Q DP DQ Hl. clear Hend Hrai. induction Hl as [|o l Ho _ IH]; [done|].
    rewrite fmap_cons, !filter_cons.
    destruct (decide (P (w_type o, w_pack o))), (decide (Q o)); try tauto.
    rewrite !fmap_cons, IH. done. }
  assert (last_of DHO_END ((λ x, (w_type x, w_pack x)) <$> l) = []) as ->.
  { unfold last_of. assert (filter (λ x : Z * res (list Z), x.1 = DHO_END) ((λ x, (w_type x, w_pack x)) <$> l) = []) as ->; [|done].
    apply elem_of_nil_inv. intros x [Hx Hin]%list_elem_of_filter.
    apply list_elem_of_fmap in Hin as (o & -> & Ho). rewrite Forall_forall in Hend. by apply (Hend o). }
  assert (last_of DHO_DHCP_AGENT_OPTIONS ((λ x, (w_type x, w_pack x)) <$> l) = w_pack <$> filter is_rai l) as ->.
  { unfold last_of.
    assert (snd <$> filter (λ x : Z * res (list Z), x.1 = DHO_DHCP_AGENT_OPTIONS) ((λ x, (w_type x, w_pack x)) <$> l)
            = w_pack <$> filter is_rai l) as E
      by (apply Hfilter; by apply Forall_forall).
    unfold one_rai in Hrai. rewrite <- E.
    assert (length (filter (λ x : Z * res (list Z), x.1 = DHO_DHCP_AGENT_OPTIONS) ((λ x, (w_type x, w_pack x)) <$> l)) ≤ 1)%nat as Hl
      by (apply (f_equal length) in E; rewrite !length_fmap in E; rewrite E; done).
    destruct (filter _ ((λ x, (w_type x, w_pack x)) <$> l)) as [|x [|]]; [done..|cbn in Hl; lia]. }
  rewrite app_nil_r, fmap_app. f_equal. f_equal.
  apply Hfilter. unfold is_rai.
  eapply Forall_impl; [exact Hend|]. cbn. tauto.
Qed.

Lemma packed_order_insert l :
  in_order l → one_rai l → foldl (λ l o, insert_option o l) [] (packed_order l) = l.
Proof.
  intros Hl Hrai. unfold packed_order. rewrite foldl_app.
  assert (∀ P : WOption → Prop, ∀ DP : (∀ o, Decision (P o)), in_order (filter P l)) as Hsub.
  { intros P DP. clear Hrai. induction Hl as [|o l Hl IH Ho]; [constructor|].
    rewrite filter_cons. destruct (decide (P o)); [|done]. constructor; [done|].
    apply Forall_forall. intros x [_ Hx]%list_elem_of_filter. rewrite Forall_forall in Ho. by apply Ho. }
  rewrite (foldl_insert (filter (λ o, ¬ is_rai o) l) []) by apply Hsub. cbn [app].
  unfold one_rai in Hrai. induction Hl as [|o l Hl IH Ho]; [done|].
  rewrite !filter_cons in *. destruct (decide (is_rai o)) as [Hr|Hr].
  - rewrite decide_False by tauto. cbn [length] in Hrai. assert (filter is_rai l = []) as ->.
    { apply length_zero_iff_nil. lia. }
    cbn [foldl]. assert (filter (λ o, ¬ is_rai o) l = l) as ->.
    { clear -Hrai. induction l as [|x l IH]; [done|]. rewrite filter_cons in *.
      destruct (decide (is_rai x)); [cbn in Hrai; lia|]. rewrite decide_True by done. by rewrite IH. }
    apply (insert_option_middle o [] l); [done|].
    assert (Forall (λ x, ¬ is_rai x) l) as Hn.
    { apply Forall_forall. intros x Hx Hrx.
      assert (x ∈ filter is_rai l) as Hin by (by apply list_elem_of_filter).
      destruct (filter is_rai l); [by apply not_elem_of_nil in Hin|cbn in Hrai; lia]. }
    rewrite Forall_forall in *. intros x Hx. specialize (Ho x Hx). specialize (Hn x Hx).
    unfold is_rai in *. lia.
  - rewrite decide_True by done. cbn [foldl] in *.
    assert (∀ acc ls, Forall (λ x, w_type o ≤ w_type x) ls →
      Forall is_rai ls → ¬ is_rai o →
      foldl (λ l o, insert_option o l) (o :: acc) ls
      = o :: foldl (λ l o, insert_option o l) acc ls) as Hcons.
    { clear. intros acc ls. revert acc. induction ls as [|x ls IH]; intros acc H1 H2 H3; [done|].
      apply Forall_cons in H1 as [Hx H1]. apply Forall_cons in H2 as [_ H2]. cbn [foldl insert_option].
      rewrite (proj2 (Z.ltb_ge _ _)) by lia. by apply IH. }
    rewrite Hcons; [|apply Forall_forall; intros x [_ Hx]%list_elem_of_filter; rewrite Forall_forall in Ho; by apply Ho
      |apply Forall_forall; by intros x [? _]%list_elem_of_filter|done].
    f_equal. apply IH; [done|]. intros P DP. specialize (Hsub P DP). rewrite filter_cons in Hsub.
    destruct (decide (P o)); [by inversion Hsub|done].
Qed.

(** ** Collections *)

(** All the options of a collection survive; they are in the order of the codes. *)
Record collection_ok (space : string) (l : list WOption) : Prop := {
  ok_survives : Forall (survives space) l;
  ok_order : in_order l;
  ok_rai : one_rai l
}.

Lemma optionFactory_reads space o payload :
  reads_as (make_with runtime (S (length payload))) space o payload →
  reads_as (optionFactory runtime) space o payload.
Proof. done. Qed.

Lemma survives_frames space l : Forall (survives space) l →
  ∃ bytes, pack_all (w_pack <$> l) = Ok bytes ∧ frames (optionFactory runtime) space l bytes
    ∧ ∀ depth, (length bytes ≤ depth)%nat → frames (make_with runtime depth) space l bytes.
Proof.
  induction 1 as [|o l (Ht & payload & Hp & _ & Hlen & Hr) _ (bytes & Hb & Ho & Hf)].
  - exists []. split; [done|]. split; constructor.
  - exists (frame o payload ++ bytes). rewrite fmap_cons. cbn [pack_all]. rewrite Hp, Hb.
    split; [done|]. split.
    + constructor; [done..| |done]. apply optionFactory_reads, Hr. lia.
    + intros depth Hd. rewrite length_app in Hd. cbn [frame length] in Hd.
      constructor; [done..| |]; [apply Hr; lia|apply Hf; lia].
Qed.

Lemma filter_survives space (P : WOption → Prop) `{∀ o, Decision (P o)} l :
  Forall (survives space) l → Forall (survives space) (filter P l).
Proof.
  rewrite !Forall_forall. intros Hl o [_ Ho]%list_elem_of_filter. by apply Hl.
Qed.

Lemma packed_order_survives space l :
  Forall (survives space) l → Forall (survives space) (packed_order l).
Proof. intros Hl. apply Forall_app. split; by apply filter_survives. Qed.

(** The codes of the options that are left for later, in the order they are read. *)
Definition deferred_codes (space : string) (l : list WOption) : list Z :=
  filter (λ t, shouldDeferOptionUnpack space t = true) (w_type <$> l).

Lemma c_deferred_foldl space l : ∀ c,
  c_deferred (foldl (add_read space) c l) = c_deferred c ++ deferred_codes space l.
Proof.
  induction l as [|o l IH]; intros c; [cbn; by rewrite app_nil_r|]. cbn [foldl].
  rewrite IH. unfold deferred_codes. rewrite fmap_cons, filter_cons. unfold add_read.
  destruct (shouldDeferOptionUnpack space (w_type o)); cbn; [|done]. by rewrite <- app_assoc.
Qed.

Lemma c_relay_msg_foldl space l : ∀ c, c_relay_msg (foldl (add_read space) c l) = c_relay_msg c.
Proof.
  induction l as [|o l IH]; intros c; [done|]. cbn [foldl]. rewrite IH. unfold add_read.
  by destruct (shouldDeferOptionUnpack _ _).
Qed.

(** Reading frames with any factory that reads each of them, up to the end of the buffer or an
    end option. *)
Lemma frames_unpack make space l bytes rest :
  in_order l → one_rai l → frames make space (packed_order l) bytes →
  (rest = [] ∨ ∃ t, rest = DHO_END :: t) →
  unpackOptions4_loop runtime make (S (length (bytes ++ rest))) space 0 (bytes ++ rest) empty_collection
  = ({| c_options := l; c_deferred := deferred_codes space (packed_order l); c_relay_msg := None |},
     Ok (length bytes)).
Proof.
  intros Hl Hrai Hf Hrest. pose proof (frames_length _ _ _ _ Hf) as Hlen.
  rewrite length_app.
  replace (S (length bytes + length rest))
    with (length (packed_order l) + S (length bytes + length rest - length (packed_order l)))%nat by lia.
  rewrite (loop_frames _ _ _ _ _ Hf).
  assert (foldl (add_read space) empty_collection (packed_order l)
    = {| c_options := l; c_deferred := deferred_codes space (packed_order l); c_relay_msg := None |}) as ->.
  { pose proof (c_options_foldl space (packed_order l) empty_collection) as E1.
    pose proof (c_deferred_foldl space (packed_order l) empty_collection) as E2.
    pose proof (c_relay_msg_foldl space (packed_order l) empty_collection) as E3.
    cbn [c_options c_deferred c_relay_msg empty_collection app] in *.
    rewrite packed_order_insert in E1 by done.
    destruct (foldl _ _ _) as [os ds rm]. cbn in E1, E2, E3. by subst. }
  cbn [unpackOptions4_loop]. by destruct Hrest as [->|[t ->]].
Qed.

(** A collection whose options survive is packed, and is read back from there with the end option
    behind it. *)
Lemma collection_roundtrip space l rest : collection_ok space l →
  ∃ bytes, pack_collection UniverseV4 l = Ok bytes
    ∧ unpackOptions4 runtime space (bytes ++ DHO_END :: rest) empty_collection
      = ({| c_options := l; c_deferred := deferred_codes space (packed_order l); c_relay_msg := None |},
         Ok (length bytes)).
Proof.
  intros [Hs Hl Hrai].
  assert (Forall (λ o, w_type o ≠ DHO_END) l) as Hend.
  { eapply Forall_impl; [exact Hs|]. cbn. intros o [Ht _]. unfold DHO_END. lia. }
  rewrite pack_collection_order by done.
  destruct (survives_frames space (packed_order l) (packed_order_survives _ _ Hs)) as (bytes & Hb & Hf & _).
  exists bytes. split; [done|]. apply frames_unpack; [done..|]. right. by exists rest.
Qed.

(** ** Options without suboptions *)

Lemma u16_small z : 0 ≤ z < 65536 → u16 z = z.
Proof. apply Z.mod_small. Qed.
Lemma u8_small z : 0 ≤ z < 256 → u8 z = z.
Proof. apply Z.mod_small. Qed.

(** The header, when the length fits. *)
Lemma pack_header_small type n p :
  0 < type < 255 → (n ≤ 253)%nat →
  match p with WAddrLst4 addrs => (length addrs * 4 ≤ 255)%nat | _ => True end →
  pack_header UniverseV4 type (2 + Z.of_nat n) p = Ok [type; Z.of_nat n].
Proof.
  intros Ht Hn Hp.
  assert ([u8 type; u8 (2 + Z.of_nat n - 2)] = [type; Z.of_nat n]) as E.
  { rewrite !u8_small by lia. repeat f_equal. lia. }
  destruct p; cbn [pack_header packHeader plain_header getHeaderLen];
    rewrite ?(proj2 (Z.ltb_ge 255 (2 + Z.of_nat n))) by lia; try (cbn [throw_if mbind res_bind mret res_ret]; by rewrite E).
  rewrite (proj2 (Nat.ltb_ge 255 _)) by lia. cbn [throw_if mbind res_bind mret res_ret]. by rewrite E.
Qed.

Lemma leaf_pack type data p space bytes :
  0 < type < 255 → (length bytes ≤ 253)%nat →
  payload_len UniverseV4 data p = Ok (Z.of_nat (length bytes)) →
  (∀ len, pack_payload UniverseV4 len data p = Ok bytes) →
  match p with WAddrLst4 addrs => (length addrs * 4 ≤ 255)%nat | _ => True end →
  let o := mkWOption UniverseV4 type data p space [] in
  w_pack o = Ok (frame o bytes) ∧ w_len o = Ok (Z.of_nat (length (frame o bytes))).
Proof.
  intros Ht Hn Hlen Hpack Hp o.
  assert (w_len o = Ok (2 + Z.of_nat (length bytes))) as Hw.
  { cbn [w_len o]. rewrite Hlen. cbn [mbind res_bind].
    assert ((if without_suboptions p then mret 0 else foldr _ (mret 0) []) = (Ok 0 : res Z)) as ->
      by (by destruct (without_suboptions p)).
    cbn [mbind res_bind mret res_ret getHeaderLen]. rewrite u16_small by lia. f_equal. lia. }
  split; [|rewrite Hw; cbn [frame length]; f_equal; lia].
  assert (w_pack o = (len ← w_len o; header ← pack_header UniverseV4 type len p;
                      payload ← pack_payload UniverseV4 len data p; mret (header ++ payload ++ []))) as ->.
  { cbn [w_pack o]. destruct (w_len _) as [len|]; [|done]. cbn [mbind res_bind].
    destruct (pack_header _ _ _ _); [|done]. cbn [mbind res_bind].
    destruct (pack_payload _ _ _ _); [|done]. cbn [mbind res_bind]. by destruct p. }
  rewrite Hw. cbn [mbind res_bind]. rewrite pack_header_small by done. cbn [mbind res_bind].
  rewrite Hpack. cbn [mbind res_bind mret res_ret]. rewrite app_nil_r. done.
Qed.

(** A definition that is found for its code, and has no class of its own. *)
Record defined (space : string) (def : OptionDefinition) : Prop := {
  defined_found : find_defs runtime space (def_code_ def) = [def];
  defined_here : shouldDeferOptionUnpack space (def_code_ def) = false;
  defined_valid : validate def = Ok tt;
  defined_code : 0 < def_code_ def < 255;
  defined_plain : def_code_ def ∉ [DHO_SERVICE_SCOPE; DHO_CLIENT_FQDN4; DHO_VIVCO_SUBOPTIONS; DHO_VIVSO_SUBOPTIONS];
  defined_not_list : haveCompressedFqdnListFormat def = false
}.

Lemma defined_special us uv space def data :
  defined space def → factorySpecialFormatOption us uv UniverseV4 def data = None.
Proof.
  intros [_ _ _ _ Hp Hl]. unfold factorySpecialFormatOption.
  rewrite !not_elem_of_cons in Hp. destruct Hp as (H1 & H2 & H3 & H4 & _).
  rewrite (proj2 (Z.eqb_neq _ _) H1), (proj2 (Z.eqb_neq _ _) H2), (proj2 (Z.eqb_neq _ _) H3),
    (proj2 (Z.eqb_neq _ _) H4), Hl. done.
Qed.

(** It is enough that the factory for the type of the data reads the payload. *)
Lemma defined_reads space def o payload :
  defined space def → w_type o = def_code_ def →
  (∀ us, (∀ space, us UniverseV4 space [] = Ok []) →
    factory_by_type us UniverseV4 def (def_code_ def) payload = Ok o) →
  ∀ depth, (length payload < depth)%nat → reads_as (make_with runtime depth) space o payload.
Proof.
  intros Hd Ht Hf depth Hdepth. unfold reads_as. rewrite Ht.
  rewrite (defined_here _ _ Hd), (defined_found _ _ Hd). cbn [make_option].
  destruct depth as [|depth]; [lia|]. cbn [make_with]. unfold factory.
  rewrite (defined_special _ _ space) by done. by rewrite Hf.
Qed.

Lemma leaf_survives space def data p sp bytes :
  defined space def → (length bytes ≤ 253)%nat →
  payload_len UniverseV4 data p = Ok (Z.of_nat (length bytes)) →
  (∀ len, pack_payload UniverseV4 len data p = Ok bytes) →
  match p with WAddrLst4 addrs => (length addrs * 4 ≤ 255)%nat | _ => True end →
  (∀ us, (∀ space, us UniverseV4 space [] = Ok []) →
    factory_by_type us UniverseV4 def (def_code_ def) bytes
    = Ok (mkWOption UniverseV4 (def_code_ def) data p sp [])) →
  survives space (mkWOption UniverseV4 (def_code_ def) data p sp []).
Proof.
  intros Hd Hn Hlen Hpack Hp Hf. pose proof (defined_code _ _ Hd) as Hc.
  destruct (leaf_pack (def_code_ def) data p sp bytes Hc Hn Hlen Hpack Hp) as [H1 H2].
  split; [done|]. exists bytes. repeat split; try done.
  by apply (defined_reads space def).
Qed.

(** ** Values of the data types *)

Definition int_type (t : OptionDataType) : option (nat * bool) :=
  match t with
  | OPT_UINT8_TYPE => Some (1%nat, false) | OPT_INT8_TYPE => Some (1%nat, true)
  | OPT_UINT16_TYPE => Some (2%nat, false) | OPT_INT16_TYPE => Some (2%nat, true)
  | OPT_UINT32_TYPE => Some (4%nat, false) | OPT_INT32_TYPE => Some (4%nat, true)
  | _ => None
  end.
Definition int_range (size : nat) (is_signed : bool) (v : Z) : Prop :=
  if is_signed then - 2 ^ (8 * Z.of_nat size - 1) ≤ v < 2 ^ (8 * Z.of_nat size - 1)
  else 0 ≤ v < 256 ^ Z.of_nat size.

(** The types whose single values are kept as one buffer. *)
Definition buffer_type (t : OptionDataType) : bool :=
  match t with
  | OPT_BOOLEAN_TYPE | OPT_IPV4_ADDRESS_TYPE | OPT_IPV6_ADDRESS_TYPE | OPT_PSID_TYPE => true
  | _ => false
  end.

(** The buffers of the fields of a record: each field has a fixed size, or it is the last one and
    takes what is left. *)
Fixpoint fields_fit (fields : list OptionDataType) (buffers : list (list Z)) : Prop :=
  match fields, buffers with
  | [], [] => True
  | [t], [b] => (getDataTypeLen t ≠ 0%nat ∧ length b = getDataTypeLen t)
                ∨ t = OPT_STRING_TYPE ∨ t = OPT_BINARY_TYPE
  | t :: fields, b :: buffers =>
      getDataTypeLen t ≠ 0%nat ∧ length b = getDataTypeLen t ∧ fields_fit fields buffers
  | _, _ => False
  end.

(** The options of a definition without suboptions, with their values. *)
Inductive value_option (def : OptionDefinition) : WOption → Prop :=
  | value_empty :
      def_type_ def = OPT_EMPTY_TYPE → def_encapsulated_space_ def = "" →
      value_option def (mkWOption UniverseV4 (def_code_ def) [] WGeneric "" [])
  | value_binary data :
      def_type_ def = OPT_BINARY_TYPE → (length data ≤ 253)%nat →
      value_option def (mkWOption UniverseV4 (def_code_ def) data WGeneric "" [])
  | value_string data :
      def_type_ def = OPT_STRING_TYPE → (0 < length data ≤ 253)%nat →
      value_option def (mkWOption UniverseV4 (def_code_ def) data WString "" [])
  | value_int size is_signed v :
      int_type (def_type_ def) = Some (size, is_signed) → def_array_type_ def = false →
      int_range size is_signed v →
      value_option def (mkWOption UniverseV4 (def_code_ def) [] (WInt size is_signed v)
                          (def_encapsulated_space_ def) [])
  | value_int_array size is_signed values :
      int_type (def_type_ def) = Some (size, is_signed) → def_array_type_ def = true →
      (0 < length values * size ≤ 253)%nat →
      Forall (int_range size (is_signed && (size =? 1)%nat)) values →
      value_option def (mkWOption UniverseV4 (def_code_ def) []
                          (WIntArray size (is_signed && (size =? 1)%nat) values) "" [])
  | value_addresses addrs :
      def_type_ def = OPT_IPV4_ADDRESS_TYPE → def_array_type_ def = true →
      (length addrs * 4 ≤ 253)%nat → Forall (λ z, 0 ≤ z < 2 ^ 32) addrs →
      value_option def (mkWOption UniverseV4 (def_code_ def) [] (WAddrLst4 (V4 <$> addrs)) "" [])
  | value_buffer b :
      buffer_type (def_type_ def) = true → def_array_type_ def = false →
      length b = getDataTypeLen (def_type_ def) →
      value_option def (mkWOption UniverseV4 (def_code_ def) b (WCustom def [b])
                          (def_encapsulated_space_ def) [])
  | value_record buffers :
      def_type_ def = OPT_RECORD_TYPE → def_array_type_ def = false →
      fields_fit (record_fields_ def) buffers → (length (concat buffers) ≤ 253)%nat →
      value_option def (mkWOption UniverseV4 (def_code_ def) (concat buffers) (WCustom def buffers)
                          (def_encapsulated_space_ def) []).

Lemma read_int_split size is_signed v rest :
  (0 < size)%nat → int_range size is_signed v →
  read_int size is_signed (be_split size v ++ rest) = v.
Proof.
  intros Hs Hv. unfold read_int.
  rewrite take_app_length', be_combine_split by (by rewrite length_be_split).
  assert (256 ^ Z.of_nat size = 2 * 2 ^ (8 * Z.of_nat size - 1)) as E
    by (rewrite pow256_pow2, <- Z.pow_succ_r by lia; f_equal; lia).
  assert (0 < 2 ^ (8 * Z.of_nat size - 1)) by (apply Z.pow_pos_nonneg; lia).
  destruct is_signed; cbn [int_range] in Hv; [|by apply Z.mod_small].
  unfold to_signed. destruct (Z.ltb_spec v 0).
  - rewrite <- (Z.mod_add v 1), Z.mul_1_l, Z.mod_small by lia.
    rewrite (proj2 (Z.ltb_ge _ _)) by lia. lia.
  - rewrite Z.mod_small by lia. rewrite (proj2 (Z.ltb_lt _ _)) by lia. done.
Qed.

Lemma int_array_values size is_signed values : (0 < size)%nat →
  Forall (int_range size is_signed) values → ∀ fuel, (length values ≤ fuel)%nat →
  int_array fuel size is_signed (values ≫= write_int size) = values.
Proof.
  intros Hs. induction 1 as [|v values Hv _ IH]; intros fuel Hf; [by destruct fuel|].
  cbn in Hf. destruct fuel as [|fuel]; [lia|].
  assert ((v :: values) ≫= write_int size = be_split size v ++ (values ≫= write_int size)) as -> by done.
  cbn [int_array]. destruct (be_split size v ++ _) eqn:E.
  { apply (f_equal length) in E. rewrite length_app, length_be_split in E. cbn in E. lia. }
  rewrite <- E, read_int_split by done.
  rewrite drop_app_length' by (by rewrite length_be_split). rewrite IH by lia. done.
Qed.

Lemma length_write_ints size values :
  length (values ≫= write_int size) = (length values * size)%nat.
Proof.
  induction values as [|v values IH]; [done|].
  assert ((v :: values) ≫= write_int size = be_split size v ++ (values ≫= write_int size)) as -> by done.
  rewrite length_app, length_be_split, IH. done.
Qed.

Lemma address_list_values addrs : Forall (λ z, 0 ≤ z < 2 ^ 32) addrs → ∀ fuel,
  (length addrs ≤ fuel)%nat →
  address_list fuel 4 (λ b, V4 (be_combine b)) (addrs ≫= write_int 4) = V4 <$> addrs.
Proof.
  induction 1 as [|z addrs Hz _ IH]; intros fuel Hf; [by destruct fuel|].
  cbn in Hf. destruct fuel as [|fuel]; [lia|].
  assert ((z :: addrs) ≫= write_int 4 = be_split 4 z ++ (addrs ≫= write_int 4)) as -> by done.
  cbn [address_list]. destruct (be_split 4 z ++ _) eqn:E; [done|]. rewrite <- E. clear E.
  rewrite take_app_length', drop_app_length' by (by rewrite length_be_split).
  rewrite be_combine_split_small by (change (256 ^ Z.of_nat 4) with (2 ^ 32); lia).
  rewrite IH by lia. done.
Qed.

Lemma pack_addresses addrs :
  pack_all ((λ a, a ← toUint32 a; mret (be_split 4 a)) <$> (V4 <$> addrs)) = Ok (addrs ≫= write_int 4).
Proof.
  induction addrs as [|z addrs IH]; [done|]. rewrite !fmap_cons. cbn [pack_all]. rewrite IH. done.
Qed.

Lemma record_buffers_fit def fields : def_array_type_ def = false → ∀ buffers,
  fields_fit fields buffers → record_buffers def UniverseV4 fields (concat buffers) = Ok (buffers, []).
Proof.
  intros Harr. induction fields as [|t fields IH]; intros buffers Hf.
  { by destruct buffers. }
  destruct buffers as [|b buffers]; [by destruct fields|]. cbn [record_buffers concat].
  assert ((getDataTypeLen t ≠ 0%nat ∧ length b = getDataTypeLen t ∧ fields_fit fields buffers)
    ∨ (fields = [] ∧ buffers = [] ∧ (t = OPT_STRING_TYPE ∨ t = OPT_BINARY_TYPE))) as [(H0 & Hl & Hf')|(-> & -> & Ht)].
  { destruct fields, buffers; cbn in Hf |- *; try tauto. }
  - assert (bufferLength def UniverseV4 t false (b ++ concat buffers) = Ok (length b)) as ->.
    { unfold bufferLength. rewrite (proj2 (Nat.eqb_neq _ _)) by done. by rewrite Hl. }
    cbn [mbind res_bind]. rewrite length_app, (proj2 (Nat.ltb_ge _ _)) by lia.
    cbn [throw_if mbind res_bind]. rewrite drop_app_length, take_app_length, IH by done. done.
  - cbn [concat]. rewrite app_nil_r.
    assert (bufferLength def UniverseV4 t false b = Ok (length b)) as ->.
    { unfold bufferLength. rewrite Harr. by destruct Ht as [->| ->]. }
    cbn [mbind res_bind]. rewrite Nat.ltb_irrefl. cbn [throw_if mbind res_bind record_buffers].
    rewrite drop_all, firstn_all. done.
Qed.

Lemma check_type_small type : 0 < type < 255 → check_type UniverseV4 type = Ok tt.
Proof.
  intros Ht. unfold check_type. cbn [bool_decide decide].
  rewrite (proj2 (Z.eqb_neq _ _)), (proj2 (Z.ltb_ge _ _)) by lia. by rewrite andb_false_r.
Qed.
Lemma check_small type data :
  0 < type < 255 → (length data ≤ 253)%nat → check UniverseV4 type data = Ok tt.
Proof.
  intros Ht Hd. unfold check. rewrite (proj2 (Z.ltb_ge _ _)), (proj2 (Nat.ltb_ge _ _)) by lia. done.
Qed.

Lemma custom_survives space def buffers :
  defined space def → (length (concat buffers) ≤ 253)%nat →
  (∀ us, factory_by_type us UniverseV4 def (def_code_ def) (concat buffers)
         = OptionCustom_new us def UniverseV4 (concat buffers)) →
  (∀ us, createBuffers us def UniverseV4 (concat buffers) = Ok (buffers, [])) →
  survives space (mkWOption UniverseV4 (def_code_ def) (concat buffers) (WCustom def buffers)
                    (def_encapsulated_space_ def) []).
Proof.
  intros Hd Hl Hf Hc. apply (leaf_survives space def _ _ _ (concat buffers)); [done..| | |done|].
  - cbn [payload_len]. cbn [mret res_ret]. f_equal. clear. induction buffers as [|b buffers IH]; [done|].
    rewrite fmap_cons. cbn [sum_list foldr concat]. unfold sum_list in IH. rewrite IH, length_app. lia.
  - done.
  - intros us _. rewrite Hf. unfold OptionCustom_new.
    rewrite check_small by (done || apply (defined_code _ _ Hd)). cbn [mbind res_bind].
    by rewrite Hc.
Qed.

Lemma int_survives space def size is_signed v :
  defined space def → int_type (def_type_ def) = Some (size, is_signed) → def_array_type_ def = false →
  int_range size is_signed v →
  survives space (mkWOption UniverseV4 (def_code_ def) [] (WInt size is_signed v)
                    (def_encapsulated_space_ def) []).
Proof.
  intros Hd Ht Harr Hv.
  assert (0 < size ≤ 4)%nat as Hs by (destruct (def_type_ def); naive_solver lia).
  apply (leaf_survives space def _ _ _ (be_split size v)); try done.
  - rewrite length_be_split. lia.
  - cbn. by rewrite length_be_split.
  - intros us Hus.
    assert (factory_by_type us UniverseV4 def (def_code_ def) (be_split size v)
      = OptionInt_new us UniverseV4 (def_code_ def) size is_signed (def_encapsulated_space_ def) (be_split size v)) as ->.
    { unfold factory_by_type, factory_integer. rewrite Harr. destruct (def_type_ def); naive_solver. }
    unfold OptionInt_new. rewrite check_type_small by apply (defined_code _ _ Hd). cbn [mbind res_bind].
    rewrite length_be_split, Nat.ltb_irrefl. cbn [throw_if mbind res_bind].
    rewrite drop_ge by (by rewrite length_be_split). rewrite Hus. cbn [mbind res_bind mret res_ret].
    rewrite <- (app_nil_r (be_split size v)), read_int_split by (done || lia). done.
Qed.

Lemma int_array_survives space def size is_signed values :
  defined space def → int_type (def_type_ def) = Some (size, is_signed) → def_array_type_ def = true →
  (0 < length values * size ≤ 253)%nat →
  Forall (int_range size (is_signed && (size =? 1)%nat)) values →
  survives space (mkWOption UniverseV4 (def_code_ def) []
                    (WIntArray size (is_signed && (size =? 1)%nat) values) "" []).
Proof.
  intros Hd Ht Harr Hl Hv. set (sg := is_signed && _) in *.
  assert (0 < size)%nat as Hs by lia.
  apply (leaf_survives space def _ _ _ (values ≫= write_int size)); try done.
  - rewrite length_write_ints. lia.
  - cbn. by rewrite length_write_ints.
  - intros us _.
    assert (factory_by_type us UniverseV4 def (def_code_ def) (values ≫= write_int size)
      = OptionIntArray_new UniverseV4 (def_code_ def) size sg (values ≫= write_int size)) as ->.
    { unfold factory_by_type, factory_integer. rewrite Harr. destruct (def_type_ def); naive_solver. }
    unfold OptionIntArray_new. rewrite check_type_small by apply (defined_code _ _ Hd).
    rewrite length_write_ints. cbn [mbind res_bind].
    rewrite (proj2 (Nat.eqb_neq (length values * size) 0)) by lia. rewrite Nat.Div0.mod_mul, Nat.eqb_refl.
    cbn [throw_if negb mbind res_bind mret res_ret]. rewrite int_array_values by (done || nia). done.
Qed.

Lemma addresses_survive space def addrs :
  defined space def → def_type_ def = OPT_IPV4_ADDRESS_TYPE → def_array_type_ def = true →
  (length addrs * 4 ≤ 253)%nat → Forall (λ z, 0 ≤ z < 2 ^ 32) addrs →
  survives space (mkWOption UniverseV4 (def_code_ def) [] (WAddrLst4 (V4 <$> addrs)) "" []).
Proof.
  intros Hd Ht Harr Hl Ha. pose proof (defined_code _ _ Hd) as Hc.
  apply (leaf_survives space def _ _ _ (addrs ≫= write_int 4)); try done.
  - by rewrite length_write_ints.
  - cbn [payload_len]. by rewrite length_fmap, length_write_ints.
  - intros len. apply pack_addresses.
  - rewrite length_fmap. lia.
  - intros us _. unfold factory_by_type. rewrite Ht, Harr, u8_small by lia.
    unfold Option4AddrLst_new. rewrite check_type_small by done. cbn [mbind res_bind].
    rewrite length_write_ints, Nat.Div0.mod_mul. cbn [Nat.eqb negb throw_if mbind res_bind mret res_ret].
    rewrite address_list_values by (done || lia). done.
Qed.

Lemma value_survives space def o :
  defined space def → value_option def o → survives space o.
Proof.
  intros Hd Ho. pose proof (defined_code _ _ Hd) as Hc.
  pose proof (defined_valid _ _ Hd) as Hv.
  destruct Ho as [Ht He|data Ht Hl|data Ht Hl|size sg v Ht Harr Hr|size sg vs Ht Harr Hl Hr|addrs Ht Harr Hl Ha
                 |b Ht Harr Hl|buffers Ht Harr Hf Hl].
  - apply (leaf_survives space def _ _ _ []); try done; [cbn; lia|]. intros us _.
    unfold factory_by_type. rewrite Ht, bool_decide_eq_true_2 by done.
    by rewrite check_type_small.
  - apply (leaf_survives space def _ _ _ data); try done. intros us _.
    unfold factory_by_type, generic. rewrite Ht, check_small by done. done.
  - apply (leaf_survives space def _ _ _ data); try done; [lia|]. intros us _.
    unfold factory_by_type, OptionString_new. rewrite Ht, check_type_small by done.
    cbn [mbind res_bind]. rewrite (proj2 (Nat.eqb_neq _ _)) by lia. done.
  - by apply int_survives.
  - by apply int_array_survives.
  - by apply addresses_survive.
  - rewrite <- (app_nil_r b) at 1. change (b ++ []) with (concat [b]).
    apply custom_survives; [done| | |].
    + cbn. rewrite app_nil_r, Hl. destruct (def_type_ def); cbn; lia.
    + intros us. unfold factory_by_type. rewrite Harr. destruct (def_type_ def); done.
    + intros us. cbn [concat]. rewrite app_nil_r. unfold createBuffers. rewrite Hv. cbn [mbind res_bind].
      assert (∀ t, t = def_type_ def → buffer_type t = true →
        (_ ← throw_if (length b <? getDataTypeLen t)%nat OutOfRange;
         if def_array_type_ def then
           buffers ← array_buffers def UniverseV4 (S (length b)) t b; mret (buffers, [])
         else
           data_size ← bufferLength def UniverseV4 t false b;
           _ ← throw_if (negb ((0 <? data_size)%nat && (data_size <=? length b)%nat)) OutOfRange;
           options ← custom_suboptions us def UniverseV4 (drop data_size b);
           mret ([take data_size b], options)) = Ok ([b], [])) as Hvalue.
      { intros t Et Hb. rewrite Hl, <- Et, Nat.ltb_irrefl, Harr. cbn [throw_if mbind res_bind].
        assert (bufferLength def UniverseV4 t false b = Ok (getDataTypeLen t)) as ->
          by (destruct t; done).
        cbn [mbind res_bind]. rewrite Nat.leb_refl.
        rewrite (proj2 (Nat.ltb_lt 0 _)) by (destruct t; cbn in *; lia || done).
        cbn [andb negb throw_if mbind res_bind].
        rewrite drop_ge, take_ge by (rewrite Hl, <- Et; lia). done. }
      destruct (def_type_ def) eqn:Et; try done; by apply Hvalue.
  - apply custom_survives; [done..| |].
    + intros us. unfold factory_by_type. by rewrite Ht.
    + intros us. unfold createBuffers. rewrite Hv, Ht. cbn [mbind res_bind].
      rewrite record_buffers_fit by done. cbn [mbind res_bind]. by rewrite Harr.
Qed.

(** ** Options that are not defined, or that are left for later *)

Lemma unknown_survives space type data :
  0 < type < 255 → (length data ≤ 253)%nat →
  find_defs runtime space type = [] ∨ shouldDeferOptionUnpack space type = true →
  survives space (with_space DHCP4_OPTION_SPACE (mkWOption UniverseV4 type data WGeneric "" [])).
Proof.
  intros Ht Hl Hf. split; [done|]. exists data.
  destruct (leaf_pack type data WGeneric DHCP4_OPTION_SPACE data Ht Hl eq_refl (λ _, eq_refl) I) as [H1 H2].
  split; [exact H1|]. split; [exact H2|]. split; [done|]. intros depth _.
  unfold reads_as. cbn [w_type with_space].
  assert ((if shouldDeferOptionUnpack space type then [] else find_defs runtime space type) = []) as ->
    by (destruct Hf as [-> | ->]; [by destruct (shouldDeferOptionUnpack space type)|done]).
  cbn [make_option]. unfold generic. by rewrite check_small.
Qed.

(** ** Options that hold options *)

Definition sum_len (l : list WOption) : res Z :=
  foldr (λ x sum, n ← w_len x; sum ← sum; mret (n + sum)) (mret 0) l.

Lemma sum_len_cons o l n m : w_len o = Ok n → sum_len l = Ok m → sum_len (o :: l) = Ok (n + m).
Proof. intros Ho Hl. unfold sum_len in *. cbn [foldr]. by rewrite Ho, Hl. Qed.

Lemma sum_len_survives space l : Forall (survives space) l →
  ∃ bytes, pack_all (w_pack <$> l) = Ok bytes ∧ sum_len l = Ok (Z.of_nat (length bytes)).
Proof.
  induction 1 as [|o l (_ & payload & Hp & Hn & _) _ (bytes & Hb & Hs)]; [by exists []|].
  exists (frame o payload ++ bytes). rewrite fmap_cons. cbn [pack_all]. rewrite Hp, Hb.
  split; [done|]. rewrite (sum_len_cons _ _ _ _ Hn Hs), length_app. f_equal. lia.
Qed.

(** The lengths can be added in any order. *)
Lemma sum_len_perm space l l' : Forall (survives space) l → l ≡ₚ l' → sum_len l = sum_len l'.
Proof.
  intros Hl Hp. induction Hp as [|o l l' Hp IH|o o' l|l1 l2 l3 H1 IH1 H2 IH2].
  - done.
  - apply Forall_cons in Hl as [_ Hl]. unfold sum_len in *. cbn [foldr]. by rewrite IH.
  - apply Forall_cons in Hl as [(_ & p1 & _ & E1 & _) Hl]. apply Forall_cons in Hl as [(_ & p2 & _ & E2 & _) Hl].
    destruct (sum_len_survives _ _ Hl) as (bytes & _ & E).
    rewrite (sum_len_cons _ _ _ _ E1 (sum_len_cons _ _ _ _ E2 E)).
    rewrite (sum_len_cons _ _ _ _ E2 (sum_len_cons _ _ _ _ E1 E)). f_equal. lia.
  - rewrite IH1 by done. apply IH2. by rewrite <- H1.
Qed.

Lemma packed_order_perm l : packed_order l ≡ₚ l.
Proof. unfold packed_order. rewrite Permutation_app_comm. apply filter_app_complement. Qed.

Lemma collection_ok_pack space l : collection_ok space l →
  pack_collection UniverseV4 l = pack_all (w_pack <$> packed_order l).
Proof.
  intros [Hs _ Hrai]. apply pack_collection_order; [|done].
  eapply Forall_impl; [exact Hs|]. cbn. intros o [Ht _]. unfold DHO_END. lia.
Qed.

(** An option without data of its own holds a collection of the space it encapsulates. *)
Lemma container_survives space def sub bytes :
  defined space def → def_type_ def = OPT_EMPTY_TYPE → def_encapsulated_space_ def ≠ "" →
  collection_ok (def_encapsulated_space_ def) sub →
  pack_collection UniverseV4 sub = Ok bytes → (length bytes ≤ 253)%nat →
  survives space (mkWOption UniverseV4 (def_code_ def) bytes (WCustom def [])
                    (def_encapsulated_space_ def) sub).
Proof.
  intros Hd Ht He Hsub Hb Hl. pose proof (defined_code _ _ Hd) as Hc.
  set (inner := def_encapsulated_space_ def) in *.
  pose proof Hb as Hall. rewrite (collection_ok_pack _ _ Hsub) in Hall.
  destruct (survives_frames inner _ (packed_order_survives _ _ (ok_survives _ _ Hsub)))
    as (bytes' & Hb' & _ & Hframes).
  rewrite Hall in Hb'. injection Hb' as <-.
  destruct (sum_len_survives inner _ (packed_order_survives _ _ (ok_survives _ _ Hsub)))
    as (bytes' & Hb' & Hsum).
  rewrite Hall in Hb'. injection Hb' as <-.
  rewrite (sum_len_perm inner _ sub (packed_order_survives _ _ (ok_survives _ _ Hsub))
             (packed_order_perm sub)) in Hsum.
  set (o := mkWOption _ _ _ _ _ _).
  assert (w_len o = Ok (2 + Z.of_nat (length bytes))) as Hw.
  { unfold o. cbn [w_len payload_len without_suboptions].
    change (foldr _ (mret 0) sub) with (sum_len sub). rewrite Hsum.
    cbn [fmap list_fmap sum_list foldr mbind res_bind mret res_ret getHeaderLen].
    rewrite u16_small by lia. f_equal. }
  split; [done|]. exists bytes.
  assert (w_pack o = Ok (frame o bytes)) as Hpack.
  { unfold o. cbn [w_pack without_suboptions]. fold o. rewrite Hw. cbn [mbind res_bind].
    rewrite pack_header_small by done. cbn [pack_payload mret res_ret mbind res_bind concat].
    unfold pack_collection in Hb. cbn [packOptions] in Hb |- *. by rewrite Hb. }
  split; [done|]. split; [rewrite Hw; cbn [frame length]; f_equal; lia|]. split; [done|].
  intros depth Hdepth. unfold reads_as, o. cbn [w_type].
  rewrite (defined_here _ _ Hd), (defined_found _ _ Hd). cbn [make_option].
  destruct depth as [|depth]; [lia|]. cbn [make_with]. unfold factory.
  rewrite (defined_special _ _ space) by done. unfold factory_by_type.
  rewrite Ht, bool_decide_eq_false_2 by done. unfold OptionCustom_new.
  rewrite check_small by done. cbn [mbind res_bind]. unfold createBuffers.
  rewrite (defined_valid _ _ Hd), Ht. cbn [mbind res_bind]. unfold custom_suboptions. fold inner.
  assert (unpack_suboptions runtime (make_with runtime depth) UniverseV4 inner bytes = Ok sub) as Hread.
  { unfold unpack_suboptions, collect, unpack_collection.
    pose proof (frames_unpack (make_with runtime depth) inner sub bytes []
      (ok_order _ _ Hsub) (ok_rai _ _ Hsub) (Hframes depth ltac:(lia)) (or_introl eq_refl)) as E.
    rewrite app_nil_r in E. by rewrite E. }
  destruct (decide (bytes = [])) as [->|Hne].
  - rewrite bool_decide_eq_true_2 by done. cbn [negb andb mret res_ret mbind res_bind rethrow].
    cbn in Hread. by injection Hread as <-.
  - rewrite bool_decide_eq_false_2, bool_decide_eq_false_2 by done. cbn [negb andb].
    rewrite Hread. done.
Qed.

(** ** Collections of a message *)

(** The options of a collection: values of defined types, options without a definition, and options that hold such options. *)
Inductive readable (space : string) : WOption → Prop :=
  | readable_value def o : defined space def → value_option def o → readable space o
  | readable_unknown type data :
      0 < type < 255 → (length data ≤ 253)%nat →
      find_defs runtime space type = [] ∨ shouldDeferOptionUnpack space type = true →
      readable space (with_space DHCP4_OPTION_SPACE (mkWOption UniverseV4 type data WGeneric "" []))
  | readable_container def sub bytes :
      defined space def → def_type_ def = OPT_EMPTY_TYPE → def_encapsulated_space_ def ≠ "" →
      Forall (readable (def_encapsulated_space_ def)) sub → in_order sub → one_rai sub →
      pack_collection UniverseV4 sub = Ok bytes → (length bytes ≤ 253)%nat →
      readable space (mkWOption UniverseV4 (def_code_ def) bytes (WCustom def [])
                        (def_encapsulated_space_ def) sub).

Fixpoint readable_survives space o (H : readable space o) {struct H} : survives space o.
Proof.
  destruct H as [def o Hd Ho|type data Ht Hl Hf|def sub bytes Hd Ht He Hsub Ho Hrai Hb Hl].
  - by apply (value_survives space def).
  - by apply unknown_survives.
  - apply container_survives; try done. split; [|done..].
    clear -Hsub readable_survives. induction Hsub; constructor; [by apply readable_survives|done].
Qed.

(** A DHCPv4 collection of readable options (in the order of the codes, at most one relay agent
    information) is packed without an error, and [unpackOptions4] on the packed bytes, with the end option and any
    padding behind them, gives the same collection, option by option with all their suboptions,
    stops at the end option, and lists the codes that wait for the class of the client. *)
Theorem options4_roundtrip space l rest :
  Forall (readable space) l → in_order l → one_rai l →
  ∃ bytes, pack_collection UniverseV4 l = Ok bytes
    ∧ unpackOptions4 runtime space (bytes ++ DHO_END :: rest) empty_collection
      = ({| c_options := l; c_deferred := deferred_codes space (packed_order l); c_relay_msg := None |},
         Ok (length bytes)).
Proof.
  intros Hl Ho Hrai. apply collection_roundtrip. split; [|done..].
  eapply Forall_impl; [exact Hl|]. apply readable_survives.
Qed.
End RoundTrip.

(** ** A collection of a client *)

Definition no_runtime : string → list OptionDefinition := λ _, [].
Definition standard4 (code : Z) : OptionDefinition :=
  match find_defs no_runtime DHCP4_OPTION_SPACE code with
  | def :: _ => def
  | [] => mkOptionDefinition "" code OPT_UNKNOWN_TYPE false
  end.
Definition relay_suboption (type : Z) (data : list Z) : WOption :=
  with_space DHCP4_OPTION_SPACE (mkWOption UniverseV4 type data WGeneric "" []).
Definition client_options : list WOption :=
  [ mkWOption UniverseV4 1 [255; 255; 255; 0] (WCustom (standard4 1) [[255; 255; 255; 0]]) "" [];
    mkWOption UniverseV4 3 [] (WAddrLst4 (V4 <$> [3221225985; 3221225986])) "" [];
    mkWOption UniverseV4 12 [104; 111; 115; 116] WString "" [];
    relay_suboption 43 [1; 2; 3];
    mkWOption UniverseV4 51 [] (WInt 4 false 3600) "" [];
    mkWOption UniverseV4 53 [] (WInt 1 false 1) "" [];
    mkWOption UniverseV4 82 [1; 2; 7; 8; 2; 1; 9]
      (WCustom (standard4 82) []) "dhcp-agent-options-space"
      [relay_suboption 1 [7; 8]; relay_suboption 2 [9]];
    mkWOption UniverseV4 116 [] (WInt 1 false 1) "" [] ].

Example client_options_packed :
  pack_collection UniverseV4 client_options
  = Ok [1; 4; 255; 255; 255; 0; 3; 8; 192; 0; 2; 1; 192; 0; 2; 2; 12; 4; 104; 111; 115; 116; 43; 3; 1; 2; 3;
        51; 4; 0; 0; 14; 16; 53; 1; 1; 116; 1; 1; 82; 7; 1; 2; 7; 8; 2; 1; 9].
Proof. by vm_compute. Qed.

Lemma standard4_defined code :
  code ∈ [1; 3; 12; 51; 53; 82; 116] → defined no_runtime DHCP4_OPTION_SPACE (standard4 code).
Proof.
  intros Hc.
  assert (Forall (λ code, find_defs no_runtime DHCP4_OPTION_SPACE (def_code_ (standard4 code)) = [standard4 code]
    ∧ shouldDeferOptionUnpack DHCP4_OPTION_SPACE (def_code_ (standard4 code)) = false
    ∧ def_code_ (standard4 code) = code
    ∧ def_ok (standard4 code) = true
    ∧ haveCompressedFqdnListFormat (standard4 code) = false) [1; 3; 12; 51; 53; 82; 116]) as H
    by (repeat constructor; by vm_compute).
  rewrite Forall_forall in H. destruct (H code Hc) as (H1 & H2 & H3 & H4 & H5).
  split; [done|done|unfold validate; by rewrite H4|rewrite H3|rewrite H3|done];
    rewrite !elem_of_cons, elem_of_nil in Hc; [lia|].
  unfold DHO_SERVICE_SCOPE, DHO_CLIENT_FQDN4, DHO_VIVCO_SUBOPTIONS, DHO_VIVSO_SUBOPTIONS.
  rewrite !not_elem_of_cons. split_and!; [lia..|apply not_elem_of_nil].
Qed.

Lemma suboption_readable space type data :
  (0 <? type) && (type <? 255) && (length data <=? 253)%nat = true →
  bool_decide (find_defs no_runtime space type = []) || shouldDeferOptionUnpack space type = true →
  readable no_runtime space (relay_suboption type data).
Proof.
  intros [[H1%Z.ltb_lt H2%Z.ltb_lt]%andb_prop H3%Nat.leb_le]%andb_prop Hf.
  apply readable_unknown; [lia|done|].
  apply orb_prop in Hf as [Hf|Hf]; [left; by apply bool_decide_eq_true_1 in Hf|by right].
Qed.

Lemma client_options_readable :
  Forall (readable no_runtime DHCP4_OPTION_SPACE) client_options.
Proof.
  assert (∀ code o, code ∈ [1; 3; 12; 51; 53; 82; 116] → value_option (standard4 code) o →
    readable no_runtime DHCP4_OPTION_SPACE o) as value.
  { intros code o Hc Ho. apply (readable_value _ _ (standard4 code)); [by apply standard4_defined|done]. }
  unfold client_options. repeat apply Forall_cons_2; [..|apply Forall_nil_2].
  - apply (value 1); [set_solver|]. by apply (value_buffer (standard4 1)).
  - apply (value 3); [set_solver|]. apply (value_addresses (standard4 3)); [done|done|cbn; lia|].
    repeat constructor; lia.
  - apply (value 12); [set_solver|]. apply (value_string (standard4 12)); [done|cbn; lia].
  - by apply suboption_readable.
  - apply (value 51); [set_solver|]. apply (value_int (standard4 51)); [done|done|cbn; lia].
  - apply (value 53); [set_solver|]. apply (value_int (standard4 53)); [done|done|cbn; lia].
  - apply (readable_container no_runtime DHCP4_OPTION_SPACE (standard4 82));
      [apply standard4_defined; set_solver|done|done| | | |done|cbn; lia].
    + repeat apply Forall_cons_2; [..|apply Forall_nil_2]; by apply suboption_readable.
    + repeat constructor; cbn; lia.
    + by vm_compute; lia.
  - apply (value 116); [set_solver|]. apply (value_int (standard4 116)); [done|done|cbn; lia].
Qed.

Lemma options4_roundtrip_witness :
  ∃ bytes, pack_collection UniverseV4 client_options = Ok bytes
    ∧ unpackOptions4 no_runtime DHCP4_OPTION_SPACE (bytes ++ [255; 0; 0]) empty_collection
      = ({| c_options := client_options; c_deferred := [43]; c_relay_msg := None |}, Ok (length bytes)).
Proof.
  exact (options4_roundtrip no_runtime DHCP4_OPTION_SPACE client_options [0; 0] client_options_readable
           ltac:(repeat constructor; cbn; lia) ltac:(vm_compute; lia)).
Defined.

(** ** Options that are read or written in unexpected ways

    Runs of the readers and writers of options that go against their comments or lose what was
    received. *)

Definition read4 (buf : list Z) : Collection * res nat :=
  unpackOptions4 no_runtime DHCP4_OPTION_SPACE buf empty_collection.
Definition read6 (buf : list Z) : Collection * res nat :=
  unpackOptions6 no_runtime DHCP6_OPTION_SPACE false buf empty_collection.
Definition payloads (c : Collection) : list Payload := w_payload <$> c_options c.

(** The size of a name is taken from its text: a list of domains that contains the root is refused,
    and so is one with a label that needs an escape ([option_custom.cc:233]). *)
Theorem domain_search_with_root_refused :
  (read4 [119; 6; 0; 3; 99; 111; 109; 0]).2 = Throw InvalidOptionValue
  ∧ (read4 [119; 10; 3; 97; 46; 98; 0; 3; 99; 111; 109; 0]).2 = Throw InvalidOptionValue.
Proof. split; by vm_compute. Qed.

(** A single name with an escape is accepted and lost. *)
Theorem escaped_domain_search_lost :
  ∃ def, payloads (read4 [119; 5; 3; 97; 46; 98; 0]).1 = [WCustom def []].
Proof. eexists. by vm_compute. Qed.

(** An option with 254 bytes of data is read, but cannot be written again: the check of the length
    counts the header ([option.cc:119]). *)
Theorem longest_option_not_packed :
  let '(c, r) := read4 ([61; 254] ++ replicate 254 7) in
  r = Ok 256%nat ∧ pack_collection UniverseV4 (c_options c) = Throw OutOfRange.
Proof. split; by vm_compute. Qed.

(** Arrays of signed integers of 16 and 32 bits hold unsigned ones ([option_definition.cc:173] and
    [185]); a single integer of the same type is signed. *)
Theorem signed_arrays_are_unsigned us :
  let def is_array := {| def_name_ := "x"; def_code_ := 230; def_type_ := OPT_INT16_TYPE;
                         def_array_type_ := is_array; def_encapsulated_space_ := ""; record_fields_ := [] |} in
  us UniverseV6 "" [] = Ok [] →
  w_payload <$> factory_by_type us UniverseV6 (def true) 230 [255; 255] = Ok (WIntArray 2 false [65535])
  ∧ w_payload <$> factory_by_type us UniverseV6 (def false) 230 [255; 255] = Ok (WInt 2 true (-1)).
Proof. intros def Hus. split; [done|]. unfold factory_by_type, factory_integer, OptionInt_new. cbn -[read_int]. rewrite Hus. by vm_compute. Qed.

Lemma signed_arrays_are_unsigned_witness :
  let def is_array := {| def_name_ := "x"; def_code_ := 230; def_type_ := OPT_INT16_TYPE;
                         def_array_type_ := is_array; def_encapsulated_space_ := ""; record_fields_ := [] |} in
  w_payload <$> factory_by_type (λ _ _ _, Ok []) UniverseV6 (def true) 230 [255; 255] = Ok (WIntArray 2 false [65535])
  ∧ w_payload <$> factory_by_type (λ _ _ _, Ok []) UniverseV6 (def false) 230 [255; 255] = Ok (WInt 2 true (-1)).
Proof. exact (signed_arrays_are_unsigned (λ _ _ _, Ok []) eq_refl). Defined.

(** The vendor class option keeps the enterprise id of its first tuple only: the data of the
    second vendor are packed under the first one ([option_vendor_class.cc:80]). *)
Theorem second_enterprise_id_lost :
  let '(c, r) := read4 [124; 12; 0; 0; 0; 1; 1; 65; 0; 0; 0; 2; 1; 66] in
  r = Ok 14%nat ∧ payloads c = [WVendorClass 1 [[65]; [66]]]
  ∧ pack_collection UniverseV4 (c_options c) = Ok [124; 12; 0; 0; 0; 1; 1; 65; 0; 0; 0; 1; 1; 66].
Proof. vm_compute. by repeat split. Qed.

(** An empty tuple at the end is refused, although the comment leaves room for it
    ([option_vendor_class.cc:84]). *)
Theorem empty_last_tuple_refused :
  (read4 [124; 11; 0; 0; 0; 1; 1; 65; 0; 0; 0; 2; 0]).2 = Throw InvalidOptionValue.
Proof. by vm_compute. Qed.

(** Of a vendor-identifying option with two enterprises only the first is read
    ([libdhcp++.cc:783]). *)
Theorem second_vendor_ignored :
  payloads (read4 [125; 16; 0; 0; 17; 139; 3; 1; 1; 7; 0; 0; 0; 9; 3; 1; 1; 7]).1
  = payloads (read4 [125; 8; 0; 0; 17; 139; 3; 1; 1; 7]).1.
Proof. by vm_compute. Qed.

(** The data of a prefix option are read twice, the first time as those of an address option, which
    are one byte shorter: the suboptions that are found there stay in the option
    ([option6_iaprefix.cc:43]).  Here an unknown option of code 256 is taken for a client
    identifier as well. *)
Definition prefix_data : list Z :=
  [0; 0; 0; 1; 0; 0; 0; 2; 64] ++ [32; 1] ++ replicate 14 0 ++ [1; 0; 0; 0].
Theorem prefix_has_false_client_id :
  (λ o, (w_type o, w_type <$> w_options o)) <$> c_options (read6 ([0; 26; 0; 29] ++ prefix_data)).1
  = [(26, [1; 256])].
Proof. by vm_compute. Qed.
