(* ===== verification/OptionRoundTrip6.v ===== *)
(** * DHCPv6 options that are written and read

    As for DHCPv4: a collection of options that survive on their own survives; then the options that
    do: values of the standard types, options without a definition, status codes, and identity
    associations and their addresses with the options they hold. *)

From S2P Require Import Prelude IoAddress PdExclude DnsName Option4ClientFqdn Packet.
From S2P Require Import OptionSpace OptionTypes OptionDef StdOptionDefs Option6ClientFqdn OptionWire OptionWireSafe OptionPack OptionRoundTrip.
Local Open Scope Z_scope.

(** ** Frames *)

Definition frame6 (o : WOption) (payload : list Z) : list Z :=
  be_split 2 (w_type o) ++ be_split 2 (Z.of_nat (length payload)) ++ payload.

Lemma length_frame6 o payload : length (frame6 o payload) = (4 + length payload)%nat.
Proof. unfold frame6. rewrite !length_app, !length_be_split. lia. Qed.

Section RoundTrip.
Context (runtime : string → list OptionDefinition).

(** [payload] is read as [o] in an option space. *)
Definition reads_as6 (make : Universe → OptionDefinition → Z → list Z → res WOption) (space : string)
    (o : WOption) (payload : list Z) : Prop :=
  make_option make UniverseV6 "" (find_defs runtime space (w_type o)) (w_type o) payload = Ok o.

(** The codes that the reader of a collection treats like any other. *)
Definition ordinary (type : Z) : Prop :=
  0 ≤ type < 65536 ∧ type ≠ D6O_VENDOR_OPTS ∧ type ≠ D6O_RELAY_MSG.

(** The longest payload whose option has a length of 16 bits. *)
Definition max_payload : Z := 65531.

(** The option is packed as a frame from which it is read, at any depth that is enough. *)
Definition survives6 (space : string) (o : WOption) : Prop :=
  ordinary (w_type o) ∧ ∃ payload, w_pack o = Ok (frame6 o payload)
    ∧ w_len o = Ok (4 + Z.of_nat (length payload)) ∧ Z.of_nat (length payload) ≤ max_payload
    ∧ ∀ depth, (length payload < depth)%nat → reads_as6 (make_with runtime depth) space o payload.

Lemma two_byte_split z : 0 ≤ z < 65536 → ∃ a b, be_split 2 z = [a; b] ∧ be_combine [a; b] = z.
Proof.
  intros Hz. do 2 eexists. split; [reflexivity|].
  change (be_combine (be_split 2 z) = z). rewrite be_combine_split. apply Z.mod_small. lia.
Qed.

(** The reader of a collection at a frame. *)
Lemma loop_head6 make fuel space relay offset type payload rest c :
  0 ≤ type < 65536 → Z.of_nat (length payload) < 65536 →
  unpackOptions6_loop runtime make (S fuel) space relay offset
    (be_split 2 type ++ be_split 2 (Z.of_nat (length payload)) ++ payload ++ rest) c
  = (let next := unpackOptions6_loop runtime make fuel space relay (offset + 4 + length payload) rest in
     if (type =? D6O_RELAY_MSG) && relay then
       _ ← modify (set_relay_msg (offset + 4) (length payload)); next
     else if type =? D6O_VENDOR_OPTS then
       if (length (payload ++ rest) <? 4)%nat then mret offset
       else
         opt ← lift (OptionVendor_new (unpackVendorOptions make) UniverseV6 payload);
         _ ← modify (add_option opt); next
     else
       opt ← lift (make_option make UniverseV6 "" (find_defs runtime space type) type payload);
       _ ← modify (add_option opt); next) c.
Proof.
  intros Ht Hl. destruct (two_byte_split type Ht) as (t1 & t2 & -> & Et).
  destruct (two_byte_split (Z.of_nat (length payload)) ltac:(lia)) as (l1 & l2 & -> & El).
  cbn [app unpackOptions6_loop]. rewrite Et, El, Nat2Z.id.
  rewrite length_app, (proj2 (Nat.ltb_ge _ (length payload))) by lia.
  rewrite take_app_length, drop_app_length. done.
Qed.

Lemma loop_frame6 make fuel space relay offset o payload rest c :
  ordinary (w_type o) → Z.of_nat (length payload) ≤ max_payload → reads_as6 make space o payload →
  unpackOptions6_loop runtime make (S fuel) space relay offset (frame6 o payload ++ rest) c
  = unpackOptions6_loop runtime make fuel space relay (offset + length (frame6 o payload)) rest
      (add_option o c).
Proof.
  intros (Ht & Hv & Hr) Hl Hm. unfold frame6 at 1. rewrite <- !app_assoc.
  rewrite loop_head6 by (unfold max_payload in *; lia).
  rewrite (proj2 (Z.eqb_neq _ _) Hr), (proj2 (Z.eqb_neq _ _) Hv). cbn [andb].
  unfold reads_as6 in Hm. rewrite Hm, length_frame6.
  replace (offset + (4 + length payload))%nat with (offset + 4 + length payload)%nat by lia. done.
Qed.

(** A list of frames. *)
Inductive frames6 (make : Universe → OptionDefinition → Z → list Z → res WOption) (space : string)
    : list WOption → list Z → Prop :=
  | frames6_nil : frames6 make space [] []
  | frames6_cons o payload l bytes :
      ordinary (w_type o) → Z.of_nat (length payload) ≤ max_payload → reads_as6 make space o payload →
      frames6 make space l bytes → frames6 make space (o :: l) (frame6 o payload ++ bytes).

Definition add_all (l : list WOption) (c : Collection) : Collection :=
  foldl (λ c o, add_option o c) c l.

Lemma loop_frames6 make space relay l bytes rest : frames6 make space l bytes → ∀ fuel offset c,
  unpackOptions6_loop runtime make (length l + fuel) space relay offset (bytes ++ rest) c
  = unpackOptions6_loop runtime make fuel space relay (offset + length bytes) rest (add_all l c).
Proof.
  induction 1 as [|o payload l bytes Ht Hl Hr _ IH]; intros fuel offset c.
  - cbn. by rewrite Nat.add_0_r.
  - cbn [length plus]. rewrite <- app_assoc, loop_frame6, IH by done. cbn [add_all foldl].
    rewrite length_app, Nat.add_assoc. done.
Qed.

Lemma frames6_length make space l bytes : frames6 make space l bytes → (4 * length l ≤ length bytes)%nat.
Proof. induction 1; [done|]. rewrite length_app, length_frame6. cbn [length]. lia. Qed.

Lemma add_all_options l : ∀ c,
  add_all l c = {| c_options := foldl (λ l o, insert_option o l) (c_options c) l;
                   c_deferred := c_deferred c; c_relay_msg := c_relay_msg c |}.
Proof. induction l as [|o l IH]; intros c; [by destruct c|]. exact (IH (add_option o c)). Qed.

Lemma add_all_in_order l : in_order l →
  add_all l empty_collection = {| c_options := l; c_deferred := []; c_relay_msg := None |}.
Proof. intros Hl. rewrite add_all_options. cbn [c_options empty_collection]. by rewrite (foldl_insert l []). Qed.

(** ** Collections *)

Lemma pack_collection6 l : pack_collection UniverseV6 l = pack_all (w_pack <$> l).
Proof.
  unfold pack_collection, packOptions, packOptions6. f_equal.
  induction l as [|o l IH]; [done|]. rewrite !fmap_cons, IH. done.
Qed.

Lemma survives_frames6 space l : Forall (survives6 space) l →
  ∃ bytes, pack_collection UniverseV6 l = Ok bytes
    ∧ (∀ depth, (length bytes ≤ depth)%nat → frames6 (make_with runtime depth) space l bytes)
    ∧ frames6 (optionFactory runtime) space l bytes
    ∧ sum_len l = Ok (Z.of_nat (length bytes)).
Proof.
  setoid_rewrite pack_collection6.
  induction 1 as [|o l (Ht & payload & Hp & Hn & Hlen & Hr) _ (bytes & Hb & Hf & Ho & Hs)].
  - exists []. split; [done|]. split; [constructor|]. split; [constructor|done].
  - exists (frame6 o payload ++ bytes). rewrite fmap_cons. cbn [pack_all]. rewrite Hp, Hb.
    split; [done|]. split; [|split].
    + intros depth Hd. rewrite length_app, length_frame6 in Hd.
      constructor; [done|done|apply Hr; lia|apply Hf; lia].
    + constructor; [done|done| |done]. change (reads_as6 (make_with runtime (S (length payload))) space o payload).
      apply Hr. lia.
    + rewrite (sum_len_cons _ _ _ _ Hn Hs), length_app, length_frame6. f_equal. lia.
Qed.

(** What a reader makes of frames that end the buffer. *)
Lemma frames6_unpack make space relay l bytes :
  in_order l → frames6 make space l bytes →
  unpackOptions6_loop runtime make (S (length bytes)) space relay 0 bytes empty_collection
  = ({| c_options := l; c_deferred := []; c_relay_msg := None |}, Ok (length bytes)).
Proof.
  intros Hl Hf. pose proof (frames6_length _ _ _ _ Hf).
  replace (S (length bytes)) with (length l + S (length bytes - length l))%nat by lia.
  pose proof (loop_frames6 make space relay l bytes [] Hf (S (length bytes - length l)) 0 empty_collection) as E.
  rewrite app_nil_r in E. rewrite E. cbn [unpackOptions6_loop]. by rewrite add_all_in_order.
Qed.

(** Frames with the message of a relay behind them. *)
Lemma frames6_unpack_relay space l bytes inner :
  in_order l → frames6 (optionFactory runtime) space l bytes → Z.of_nat (length inner) < 65536 →
  unpackOptions6 runtime space true
    (bytes ++ be_split 2 D6O_RELAY_MSG ++ be_split 2 (Z.of_nat (length inner)) ++ inner) empty_collection
  = ({| c_options := l; c_deferred := []; c_relay_msg := Some ((length bytes + 4)%nat, length inner) |},
     Ok (length bytes + 4 + length inner)%nat).
Proof.
  intros Hl Hf Hi. pose proof (frames6_length _ _ _ _ Hf). unfold unpackOptions6.
  rewrite !length_app, !length_be_split.
  replace (S (length bytes + (2 + (2 + length inner))))
    with (length l + S (S (length bytes + 3 + length inner - length l)))%nat by lia.
  rewrite (loop_frames6 _ _ _ _ _ _ Hf).
  pose proof (λ fuel offset c, loop_head6 (optionFactory runtime) fuel space true offset D6O_RELAY_MSG
    inner [] c ltac:(unfold D6O_RELAY_MSG; lia) Hi) as E.
  setoid_rewrite app_nil_r in E. rewrite E, Z.eqb_refl. cbn [andb].
  rewrite add_all_in_order by done. done.
Qed.

(** ** The classes *)

Lemma pack_header6 type n p :
  0 ≤ type < 65536 → Z.of_nat n ≤ max_payload → (match p with WAddrLst4 _ => False | _ => True end) →
  pack_header UniverseV6 type (4 + Z.of_nat n) p = Ok (be_split 2 type ++ be_split 2 (Z.of_nat n)).
Proof.
  intros Ht Hn Hp.
  assert (be_split 2 type ++ be_split 2 (u16 (4 + Z.of_nat n - 4)) = be_split 2 type ++ be_split 2 (Z.of_nat n)) as E
    by (do 2 f_equal; rewrite u16_small by (unfold max_payload in Hn; lia); lia).
  destruct p; cbn [pack_header packHeader plain_header getHeaderLen mret res_ret]; by rewrite E || done.
Qed.

(** What an object packs: its own bytes, then its suboptions. *)
Lemma pack6 type data p space options own sub :
  0 ≤ type < 65536 → Z.of_nat (length own + length sub) ≤ max_payload →
  (match p with WAddrLst4 _ => False | WIntArray _ _ _ => options = [] | _ => True end) →
  payload_len UniverseV6 data p = Ok (Z.of_nat (length own)) →
  (∀ len, pack_payload UniverseV6 len data p = Ok own) →
  (without_suboptions p = true → sub = []) →
  sum_len options = Ok (Z.of_nat (length sub)) → pack_collection UniverseV6 options = Ok sub →
  let o := mkWOption UniverseV6 type data p space options in
  w_pack o = Ok (frame6 o (own ++ sub)) ∧ w_len o = Ok (4 + Z.of_nat (length (own ++ sub))).
Proof.
  intros Ht Hn Hp Hlen Hpack Hno Hsum Hcoll o.
  assert (w_len o = Ok (4 + Z.of_nat (length (own ++ sub)))) as Hw.
  { cbn [w_len o]. rewrite Hlen. cbn [mbind res_bind].
    change (foldr _ (mret 0) options) with (sum_len options). rewrite Hsum.
    assert ((if without_suboptions p then mret 0 else Ok (Z.of_nat (length sub))) = (Ok (Z.of_nat (length sub)) : res Z)) as ->
      by (destruct (without_suboptions p); [by rewrite Hno|done]).
    cbn [mbind res_bind mret res_ret getHeaderLen]. rewrite u16_small by (unfold max_payload in Hn; lia).
    rewrite length_app. f_equal. lia. }
  split; [|exact Hw].
  assert (w_pack o = (len ← w_len o; header ← pack_header UniverseV6 type len p;
                      payload ← pack_payload UniverseV6 len data p;
                      sub ← (if without_suboptions p then mret []
                             else match p with WIntArray _ _ _ => mret []
                                  | _ => pack_collection UniverseV6 options end);
                      mret (header ++ payload ++ sub))) as -> by done.
  rewrite Hw. cbn [mbind res_bind].
  rewrite pack_header6 by (done || (rewrite length_app; lia) || (by destruct p)). cbn [mbind res_bind].
  rewrite Hpack, Hcoll. cbn [mbind res_bind].
  assert ((if without_suboptions p then mret []
           else match p with WIntArray _ _ _ => mret [] | _ => Ok sub end) = (Ok sub : res (list Z))) as ->.
  { destruct (without_suboptions p) eqn:E; [by rewrite Hno|].
    destruct p; try done. subst options. rewrite pack_collection6 in Hcoll. by injection Hcoll as <-. }
  cbn [mbind res_bind mret res_ret frame6 w_type o]. by rewrite <- !app_assoc.
Qed.

(** An option without a definition keeps its data. *)
Lemma unknown_survives6 space type data :
  ordinary type → Z.of_nat (length data) ≤ max_payload → find_defs runtime space type = [] →
  survives6 space (mkWOption UniverseV6 type data WGeneric "" []).
Proof.
  intros Ht Hl Hf. split; [done|].
  destruct (pack6 type data WGeneric "" [] data [] (proj1 Ht) ltac:(cbn; lia) I eq_refl (λ _, eq_refl)
    ltac:(done) eq_refl ltac:(by rewrite pack_collection6)) as [H1 H2].
  rewrite app_nil_r in H1, H2. exists data. split; [exact H1|]. split; [exact H2|]. split; [done|].
  intros depth _. unfold reads_as6. cbn [w_type]. by rewrite Hf.
Qed.

(** A definition that is found for its code, and has no class of its own. *)
Record defined6 (space : string) (def : OptionDefinition) : Prop := {
  defined6_found : find_defs runtime space (def_code_ def) = [def];
  defined6_code : ordinary (def_code_ def);
  defined6_plain : def_code_ def ∉ [D6O_IA_NA; D6O_IA_PD; D6O_IAADDR; D6O_IAPREFIX; D6O_CLIENT_FQDN;
                                     D6O_VENDOR_CLASS; D6O_STATUS_CODE; D6O_BOOTFILE_PARAM; D6O_PD_EXCLUDE]
}.

Lemma defined6_special us uv space def data :
  defined6 space def → factorySpecialFormatOption us uv UniverseV6 def data = None.
Proof.
  intros [_ (_ & Hv & _) Hp]. unfold factorySpecialFormatOption.
  rewrite !not_elem_of_cons in Hp. destruct Hp as (H1 & H2 & H3 & H4 & H5 & H6 & H7 & H8 & H9 & _).
  rewrite (proj2 (Z.eqb_neq _ _) H1), (proj2 (Z.eqb_neq _ _) H2), (proj2 (Z.eqb_neq _ _) H3),
    (proj2 (Z.eqb_neq _ _) H4), (proj2 (Z.eqb_neq _ _) H5), (proj2 (Z.eqb_neq _ _) H6),
    (proj2 (Z.eqb_neq _ _) H7), (proj2 (Z.eqb_neq _ _) H8), (proj2 (Z.eqb_neq _ _) H9),
    (proj2 (Z.eqb_neq _ _) Hv). done.
Qed.

Lemma leaf_survives6 space def data p sp own :
  defined6 space def → Z.of_nat (length own) ≤ max_payload →
  (match p with WAddrLst4 _ => False | _ => True end) →
  payload_len UniverseV6 data p = Ok (Z.of_nat (length own)) →
  (∀ len, pack_payload UniverseV6 len data p = Ok own) →
  (∀ us, (∀ space, us UniverseV6 space [] = Ok []) →
    factory_by_type us UniverseV6 def (def_code_ def) own
    = Ok (mkWOption UniverseV6 (def_code_ def) data p sp [])) →
  survives6 space (mkWOption UniverseV6 (def_code_ def) data p sp []).
Proof.
  intros Hd Hn Hp Hlen Hpack Hf. pose proof (defined6_code _ _ Hd) as Hc. split; [done|].
  destruct (pack6 (def_code_ def) data p sp [] own [] (proj1 Hc) ltac:(cbn; lia) ltac:(by destruct p)
    Hlen Hpack ltac:(done) eq_refl ltac:(by rewrite pack_collection6)) as [H1 H2].
  rewrite app_nil_r in H1, H2. exists own. split; [exact H1|]. split; [exact H2|]. split; [done|].
  intros depth Hdepth. unfold reads_as6. cbn [w_type]. rewrite (defined6_found _ _ Hd). cbn [make_option].
  destruct depth as [|depth]; [lia|]. cbn [make_with]. unfold factory.
  rewrite (defined6_special _ _ space) by done. by rewrite Hf.
Qed.

(** Values of the standard types. *)
Inductive value_option6 (def : OptionDefinition) : WOption → Prop :=
  | value6_binary data :
      def_type_ def = OPT_BINARY_TYPE → Z.of_nat (length data) ≤ max_payload →
      value_option6 def (mkWOption UniverseV6 (def_code_ def) data WGeneric "" [])
  | value6_string data :
      def_type_ def = OPT_STRING_TYPE → (0 < length data)%nat → Z.of_nat (length data) ≤ max_payload →
      value_option6 def (mkWOption UniverseV6 (def_code_ def) data WString "" [])
  | value6_int size is_signed v :
      int_type (def_type_ def) = Some (size, is_signed) → def_array_type_ def = false →
      int_range size is_signed v →
      value_option6 def (mkWOption UniverseV6 (def_code_ def) [] (WInt size is_signed v)
                           (def_encapsulated_space_ def) [])
  | value6_int_array size is_signed values :
      int_type (def_type_ def) = Some (size, is_signed) → def_array_type_ def = true →
      (0 < length values * size)%nat → Z.of_nat (length values * size) ≤ max_payload →
      Forall (int_range size (is_signed && (size =? 1)%nat)) values →
      value_option6 def (mkWOption UniverseV6 (def_code_ def) []
                           (WIntArray size (is_signed && (size =? 1)%nat) values) "" [])
  | value6_addresses addrs :
      def_type_ def = OPT_IPV6_ADDRESS_TYPE → def_array_type_ def = true →
      Z.of_nat (length addrs * 16) ≤ max_payload → Forall (λ z, 0 ≤ z < 2 ^ 128) addrs →
      value_option6 def (mkWOption UniverseV6 (def_code_ def) [] (WAddrLst6 (V6 <$> addrs)) "" []).

Lemma address_list_values6 addrs : Forall (λ z, 0 ≤ z < 2 ^ 128) addrs → ∀ fuel,
  (length addrs ≤ fuel)%nat →
  address_list fuel 16 (λ b, V6 (be_combine b)) (addrs ≫= write_int 16) = V6 <$> addrs.
Proof.
  induction 1 as [|z addrs Hz _ IH]; intros fuel Hf; [by destruct fuel|].
  cbn in Hf. destruct fuel as [|fuel]; [lia|].
  assert ((z :: addrs) ≫= write_int 16 = be_split 16 z ++ (addrs ≫= write_int 16)) as -> by done.
  cbn [address_list]. destruct (be_split 16 z ++ _) eqn:E; [done|]. rewrite <- E. clear E.
  rewrite take_app_length', drop_app_length' by (by rewrite length_be_split).
  rewrite be_combine_split_small by (change (256 ^ Z.of_nat 16) with (2 ^ 128); lia).
  rewrite IH by lia. done.
Qed.

Lemma pack_addresses6 addrs : pack_all (addrs6 (V6 <$> addrs)) = Ok (addrs ≫= write_int 16).
Proof.
  unfold addrs6. induction addrs as [|z addrs IH]; [done|]. rewrite !fmap_cons. cbn [pack_all].
  by rewrite IH.
Qed.

Lemma value_survives6 space def o : defined6 space def → value_option6 def o → survives6 space o.
Proof.
  intros Hd Ho.
  destruct Ho as [data Ht Hl|data Ht H0 Hl|size sg v Ht Harr Hr|size sg vs Ht Harr H0 Hl Hr|addrs Ht Harr Hl Ha].
  - apply (leaf_survives6 space def _ _ _ data); try done. intros us _.
    unfold factory_by_type, generic. by rewrite Ht.
  - apply (leaf_survives6 space def _ _ _ data); try done. intros us _.
    unfold factory_by_type, OptionString_new. rewrite Ht.
    cbn [check_type throw_if mbind res_bind]. by rewrite (proj2 (Nat.eqb_neq (length data) 0)) by lia.
  - assert (0 < size ≤ 4)%nat as Hs by (destruct (def_type_ def); naive_solver lia).
    apply (leaf_survives6 space def _ _ _ (be_split size v)); try done.
    + rewrite length_be_split. unfold max_payload. lia.
    + cbn. by rewrite length_be_split.
    + intros us Hus.
      assert (factory_by_type us UniverseV6 def (def_code_ def) (be_split size v)
        = OptionInt_new us UniverseV6 (def_code_ def) size sg (def_encapsulated_space_ def) (be_split size v)) as ->.
      { unfold factory_by_type, factory_integer. rewrite Harr. destruct (def_type_ def); naive_solver. }
      unfold OptionInt_new. cbn [check_type throw_if mbind res_bind].
      rewrite length_be_split, Nat.ltb_irrefl. cbn [throw_if mbind res_bind].
      rewrite drop_ge by (by rewrite length_be_split). rewrite Hus. cbn [mbind res_bind mret res_ret].
      rewrite <- (app_nil_r (be_split size v)), read_int_split by (done || lia). done.
  - set (sg' := sg && _) in *. assert (0 < size)%nat as Hs by lia.
    apply (leaf_survives6 space def _ _ _ (vs ≫= write_int size)); try done.
    + by rewrite length_write_ints.
    + cbn. by rewrite length_write_ints.
    + intros us _.
      assert (factory_by_type us UniverseV6 def (def_code_ def) (vs ≫= write_int size)
        = OptionIntArray_new UniverseV6 (def_code_ def) size sg' (vs ≫= write_int size)) as ->.
      { unfold factory_by_type, factory_integer. rewrite Harr. destruct (def_type_ def); naive_solver. }
      unfold OptionIntArray_new. rewrite length_write_ints. cbn [check_type throw_if mbind res_bind].
      rewrite (proj2 (Nat.eqb_neq (length vs * size) 0)) by lia. rewrite Nat.Div0.mod_mul, Nat.eqb_refl.
      cbn [throw_if negb mbind res_bind mret res_ret]. rewrite int_array_values by (done || nia). done.
  - apply (leaf_survives6 space def _ _ _ (addrs ≫= write_int 16)); try done.
    + by rewrite length_write_ints.
    + cbn [payload_len]. by rewrite length_fmap, length_write_ints.
    + intros len. apply pack_addresses6.
    + intros us _. unfold factory_by_type. rewrite Ht, Harr. unfold Option6AddrLst_new.
      rewrite length_write_ints, Nat.Div0.mod_mul. cbn [Nat.eqb negb throw_if mbind res_bind mret res_ret].
      rewrite address_list_values6 by (done || lia). done.
Qed.

(** ** Identity associations and their addresses *)

(** A class with fixed fields and options of the space [dhcp6] behind them. *)
Lemma container_survives6 type p own sub bytes :
  ordinary type → Forall (survives6 DHCP6_OPTION_SPACE) sub → in_order sub →
  pack_collection UniverseV6 sub = Ok bytes → Z.of_nat (length own + length bytes) ≤ max_payload →
  (match p with WAddrLst4 _ | WIntArray _ _ _ => False | _ => without_suboptions p = false end) →
  payload_len UniverseV6 [] p = Ok (Z.of_nat (length own)) →
  (∀ len, pack_payload UniverseV6 len [] p = Ok own) →
  (∀ us uv, us UniverseV6 DHCP6_OPTION_SPACE bytes = Ok sub →
    ∃ def, find_defs runtime DHCP6_OPTION_SPACE type = [def]
      ∧ factory us uv UniverseV6 def type (own ++ bytes)
        = Ok (mkWOption UniverseV6 type [] p DHCP6_OPTION_SPACE sub)) →
  survives6 DHCP6_OPTION_SPACE (mkWOption UniverseV6 type [] p DHCP6_OPTION_SPACE sub).
Proof.
  intros Ht Hsub Ho Hb Hn Hp Hlen Hpack Hf. split; [done|]. exists (own ++ bytes).
  destruct (survives_frames6 _ _ Hsub) as (bytes' & Hb' & Hframes & _ & Hsum).
  rewrite Hb in Hb'. injection Hb' as <-.
  destruct (pack6 type [] p DHCP6_OPTION_SPACE sub own bytes (proj1 Ht) Hn ltac:(by destruct p)
    Hlen Hpack ltac:(by destruct p) Hsum Hb) as [H1 H2].
  split; [exact H1|]. split; [exact H2|]. split; [rewrite length_app; lia|].
  intros depth Hdepth. rewrite length_app in Hdepth. unfold reads_as6. cbn [w_type].
  destruct depth as [|depth]; [lia|].
  destruct (Hf (unpack_suboptions runtime (make_with runtime depth))
    (unpackVendorOptions (make_with runtime depth))) as (def & -> & Hfac).
  - unfold unpack_suboptions, collect, unpack_collection.
    by rewrite (frames6_unpack _ _ false _ _ Ho (Hframes depth ltac:(lia))).
  - cbn [make_option make_with]. exact Hfac.
Qed.

(** The standard definitions of these options have the formats that are asked for. *)
Lemma standard_def type (have : OptionDefinition → bool) :
  match with_code type v6option_defs_ with [def] => (def_code_ def =? type) && have def | _ => false end = true →
  ∃ def, find_defs runtime DHCP6_OPTION_SPACE type = [def] ∧ def_code_ def = type ∧ have def = true.
Proof.
  unfold find_defs. change (getOptionDefs DHCP6_OPTION_SPACE) with v6option_defs_.
  destruct (with_code type v6option_defs_) as [|def [|]]; try done.
  intros [H1%Z.eqb_eq H2]%andb_prop. by exists def.
Qed.

Lemma read_u32 z rest : 0 ≤ z < 2 ^ 32 → be_combine (take 4 (be_split 4 z ++ rest)) = z.
Proof.
  intros Hz. rewrite take_app_length' by (by rewrite length_be_split).
  by rewrite be_combine_split, Z.mod_small.
Qed.
Lemma drop_field n z rest : drop n (be_split n z ++ rest) = rest.
Proof. by rewrite drop_app_length' by (by rewrite length_be_split). Qed.

Lemma ia_survives type iaid t1 t2 sub bytes :
  type = D6O_IA_NA ∨ type = D6O_IA_PD →
  0 ≤ iaid < 2 ^ 32 → 0 ≤ t1 < 2 ^ 32 → 0 ≤ t2 < 2 ^ 32 →
  Forall (survives6 DHCP6_OPTION_SPACE) sub → in_order sub →
  pack_collection UniverseV6 sub = Ok bytes → Z.of_nat (12 + length bytes) ≤ max_payload →
  survives6 DHCP6_OPTION_SPACE (mkWOption UniverseV6 type [] (WIA iaid t1 t2) DHCP6_OPTION_SPACE sub).
Proof.
  intros Ht Hi H1 H2 Hsub Ho Hb Hl.
  apply (container_survives6 type _ (be_split 4 iaid ++ be_split 4 t1 ++ be_split 4 t2) sub bytes); try done.
  - destruct Ht as [-> | ->]; unfold ordinary, D6O_IA_NA, D6O_IA_PD, D6O_VENDOR_OPTS, D6O_RELAY_MSG; lia.
  - intros us uv Hus.
    destruct (standard_def type haveIA6Format) as (def & Hd & Hc & Hh); [by destruct Ht as [-> | ->]|].
    exists def. split; [done|]. unfold factory, factorySpecialFormatOption. rewrite Hc, Hh.
    assert (((type =? D6O_IA_NA) || (type =? D6O_IA_PD)) = true) as -> by (by destruct Ht as [-> | ->]).
    cbn [andb]. unfold Option6IA_new.
    assert ((type =? D6O_IA_TA) = false) as -> by (by destruct Ht as [-> | ->]).
    rewrite <- !app_assoc. rewrite (proj2 (Nat.ltb_ge _ 12)) by (rewrite !length_app, !length_be_split; lia).
    cbn [throw_if mbind res_bind]. rewrite read_u32 by done.
    change 12%nat with (4 + (4 + 4))%nat. rewrite <- !drop_drop, !drop_field, Hus.
    change 8%nat with (4 + 4)%nat. rewrite <- drop_drop, !drop_field, !read_u32 by done. done.
Qed.

Lemma iaaddr_survives addr preferred valid sub bytes :
  0 ≤ addr < 2 ^ 128 → 0 ≤ preferred < 2 ^ 32 → 0 ≤ valid < 2 ^ 32 →
  Forall (survives6 DHCP6_OPTION_SPACE) sub → in_order sub →
  pack_collection UniverseV6 sub = Ok bytes → Z.of_nat (24 + length bytes) ≤ max_payload →
  survives6 DHCP6_OPTION_SPACE
    (mkWOption UniverseV6 D6O_IAADDR [] (WIAAddr (V6 addr) preferred valid) DHCP6_OPTION_SPACE sub).
Proof.
  intros Ha Hp Hv Hsub Ho Hb Hl.
  apply (container_survives6 D6O_IAADDR _ (be_split 16 addr ++ be_split 4 preferred ++ be_split 4 valid) sub bytes);
    try done.
  intros us uv Hus.
  destruct (standard_def D6O_IAADDR haveIAAddr6Format) as (def & Hd & Hc & Hh); [done|].
  exists def. split; [done|]. unfold factory, factorySpecialFormatOption. rewrite Hc, Hh.
  cbn [Z.eqb orb andb D6O_IAADDR D6O_IA_NA D6O_IA_PD Pos.eqb]. unfold Option6IAAddr_new.
  rewrite <- !app_assoc. rewrite (proj2 (Nat.ltb_ge _ 24)) by (rewrite !length_app, !length_be_split; lia).
  cbn [throw_if mbind res_bind].
  rewrite (take_app_length' (be_split 16 addr)) by (by rewrite length_be_split).
  rewrite be_combine_split_small by (change (256 ^ Z.of_nat 16) with (2 ^ 128); lia).
  change 24%nat with (16 + (4 + 4))%nat. rewrite <- !drop_drop, !drop_field, Hus.
  change 20%nat with (16 + 4)%nat. rewrite <- drop_drop, !drop_field, !read_u32 by done. done.
Qed.

Lemma status_survives code msg :
  0 ≤ code < 65536 → Z.of_nat (2 + length msg) ≤ max_payload →
  survives6 DHCP6_OPTION_SPACE (mkWOption UniverseV6 D6O_STATUS_CODE [] (WStatusCode code msg) "" []).
Proof.
  intros Hc Hl. split; [done|]. exists (be_split 2 code ++ msg).
  destruct (pack6 D6O_STATUS_CODE [] (WStatusCode code msg) "" [] (be_split 2 code ++ msg) []
    ltac:(done) ltac:(rewrite length_app, length_be_split; cbn [length]; lia) I) as [H1 H2]; try done.
  - cbn [payload_len mret res_ret]. f_equal. rewrite length_app, length_be_split. lia.
  - rewrite app_nil_r in H1, H2. split; [exact H1|]. split; [exact H2|].
    split; [rewrite length_app, length_be_split; lia|].
    intros depth Hdepth. unfold reads_as6. cbn [w_type].
    destruct (standard_def D6O_STATUS_CODE haveStatusCodeFormat) as (def & -> & Hd & Hh); [done|].
    cbn [make_option]. destruct depth as [|depth]; [lia|]. cbn [make_with]. unfold factory.
    assert (factorySpecialFormatOption (unpack_suboptions runtime (make_with runtime depth))
      (unpackVendorOptions (make_with runtime depth)) UniverseV6 def (be_split 2 code ++ msg)
      = Some (Option6StatusCode_new (be_split 2 code ++ msg))) as ->
      by (unfold factorySpecialFormatOption; by rewrite Hd, Hh).
    unfold Option6StatusCode_new, OptionTypes.readUint16.
    rewrite (proj2 (Nat.ltb_ge _ 2)) by (rewrite length_app, length_be_split; lia).
    cbn [throw_if mbind res_bind mret res_ret].
    rewrite take_app_length', drop_field by (by rewrite length_be_split).
    by rewrite be_combine_split, Z.mod_small.
Qed.

(** ** Collections of a message *)

(** The options of a collection that is read back. *)
Inductive readable6 : string → WOption → Prop :=
  | readable6_value space def o : defined6 space def → value_option6 def o → readable6 space o
  | readable6_unknown space type data :
      ordinary type → Z.of_nat (length data) ≤ max_payload → find_defs runtime space type = [] →
      readable6 space (mkWOption UniverseV6 type data WGeneric "" [])
  | readable6_status code msg :
      0 ≤ code < 65536 → Z.of_nat (2 + length msg) ≤ max_payload →
      readable6 DHCP6_OPTION_SPACE (mkWOption UniverseV6 D6O_STATUS_CODE [] (WStatusCode code msg) "" [])
  | readable6_ia type iaid t1 t2 sub bytes :
      type = D6O_IA_NA ∨ type = D6O_IA_PD →
      0 ≤ iaid < 2 ^ 32 → 0 ≤ t1 < 2 ^ 32 → 0 ≤ t2 < 2 ^ 32 →
      Forall (readable6 DHCP6_OPTION_SPACE) sub → in_order sub →
      pack_collection UniverseV6 sub = Ok bytes → Z.of_nat (12 + length bytes) ≤ max_payload →
      readable6 DHCP6_OPTION_SPACE
        (mkWOption UniverseV6 type [] (WIA iaid t1 t2) DHCP6_OPTION_SPACE sub)
  | readable6_iaaddr addr preferred valid sub bytes :
      0 ≤ addr < 2 ^ 128 → 0 ≤ preferred < 2 ^ 32 → 0 ≤ valid < 2 ^ 32 →
      Forall (readable6 DHCP6_OPTION_SPACE) sub → in_order sub →
      pack_collection UniverseV6 sub = Ok bytes → Z.of_nat (24 + length bytes) ≤ max_payload →
      readable6 DHCP6_OPTION_SPACE
        (mkWOption UniverseV6 D6O_IAADDR [] (WIAAddr (V6 addr) preferred valid) DHCP6_OPTION_SPACE sub).

Fixpoint readable6_survives space o (H : readable6 space o) {struct H} : survives6 space o.
Proof.
  destruct H as [space def o Hd Ho|space type data Ht Hl Hf|code msg Hc Hl
    |type iaid t1 t2 sub bytes Ht Hi H1 H2 Hsub Ho Hb Hl|addr pr va sub bytes Ha Hp Hv Hsub Ho Hb Hl].
  - by apply (value_survives6 space def).
  - by apply unknown_survives6.
  - by apply status_survives.
  - apply (ia_survives _ _ _ _ _ bytes); try done.
    clear -Hsub readable6_survives. induction Hsub; constructor; [by apply readable6_survives|done].
  - apply (iaaddr_survives _ _ _ _ bytes); try done.
    clear -Hsub readable6_survives. induction Hsub; constructor; [by apply readable6_survives|done].
Qed.

(** What a packet relies on: the packed options are frames that are read back. *)
Lemma readable6_frames space l : Forall (readable6 space) l →
  ∃ bytes, pack_collection UniverseV6 l = Ok bytes ∧ frames6 (optionFactory runtime) space l bytes
    ∧ sum_len l = Ok (Z.of_nat (length bytes)).
Proof.
  intros Hl. destruct (survives_frames6 space l) as (bytes & H1 & _ & H2 & H3);
    [eapply Forall_impl; [exact Hl|apply readable6_survives]|]. by exists bytes.
Qed.

(** A DHCPv6 collection of readable options, in the order of the codes, is packed without an
    error, and [unpackOptions6] on the packed bytes gives the same collection, with the options
    inside identity associations and addresses, and reads to the end. *)
Theorem options6_roundtrip (space : string) (relay : bool) (l : list WOption)
    (Hl : Forall (readable6 space) l) (Ho : in_order l) :
  ∃ bytes, pack_collection UniverseV6 l = Ok bytes
    ∧ unpackOptions6 runtime space relay bytes empty_collection
      = ({| c_options := l; c_deferred := []; c_relay_msg := None |}, Ok (length bytes)).
Proof.
  destruct (readable6_frames space l Hl) as (bytes & Hb & Hf & _). exists bytes. split; [done|].
  by apply frames6_unpack.
Qed.
End RoundTrip.

(** ** A collection of a server *)

Definition standard6 (code : Z) : OptionDefinition :=
  match find_defs no_runtime DHCP6_OPTION_SPACE code with
  | def :: _ => def
  | [] => mkOptionDefinition "" code OPT_UNKNOWN_TYPE false
  end.

Definition address_option : WOption :=
  mkWOption UniverseV6 D6O_IAADDR [] (WIAAddr (V6 1) 3000 4000) DHCP6_OPTION_SPACE
    [mkWOption UniverseV6 D6O_STATUS_CODE [] (WStatusCode 0 [79; 75]) "" []].
Definition ia_option : WOption :=
  mkWOption UniverseV6 D6O_IA_NA [] (WIA 7 1000 2000) DHCP6_OPTION_SPACE [address_option].
Definition server_options : list WOption :=
  [ mkWOption UniverseV6 1 [0; 1; 2; 3] WGeneric "" [];
    ia_option;
    mkWOption UniverseV6 6 [] (WIntArray 2 false [23; 24]) "" [];
    mkWOption UniverseV6 7 [] (WInt 1 false 255) "" [];
    mkWOption UniverseV6 23 [] (WAddrLst6 (V6 <$> [1; 2])) "" [];
    mkWOption UniverseV6 40000 [1; 2; 3] WGeneric "" [] ].

Lemma standard6_defined code :
  code ∈ [1; 6; 7; 18; 23] → defined6 no_runtime DHCP6_OPTION_SPACE (standard6 code).
Proof.
  intros Hc.
  assert (Forall (λ code, find_defs no_runtime DHCP6_OPTION_SPACE (def_code_ (standard6 code)) = [standard6 code]
    ∧ def_code_ (standard6 code) = code) [1; 6; 7; 18; 23]) as H
    by (repeat constructor; by vm_compute).
  rewrite Forall_forall in H. destruct (H code Hc) as [H1 H2].
  split; [done|rewrite H2..]; rewrite !elem_of_cons, elem_of_nil in Hc.
  - unfold ordinary, D6O_VENDOR_OPTS, D6O_RELAY_MSG. lia.
  - unfold D6O_IA_NA, D6O_IA_PD, D6O_IAADDR, D6O_IAPREFIX, D6O_CLIENT_FQDN, D6O_VENDOR_CLASS,
      D6O_STATUS_CODE, D6O_BOOTFILE_PARAM, D6O_PD_EXCLUDE.
    rewrite !not_elem_of_cons. split_and!; [lia..|apply not_elem_of_nil].
Qed.

Lemma ia_option_readable : readable6 no_runtime DHCP6_OPTION_SPACE ia_option.
Proof.
  apply (readable6_ia no_runtime _ _ _ _ _ (be_split 2 5 ++ be_split 2 32 ++ be_split 16 1 ++ be_split 4 3000
    ++ be_split 4 4000 ++ [0; 13; 0; 4; 0; 0; 79; 75])); try done; [by left| |repeat constructor].
  constructor; [|done].
  apply (readable6_iaaddr no_runtime _ _ _ _ [0; 13; 0; 4; 0; 0; 79; 75]); try done; [|repeat constructor].
  constructor; [|done]. by apply readable6_status.
Qed.

Lemma server_options_readable : Forall (readable6 no_runtime DHCP6_OPTION_SPACE) server_options.
Proof.
  assert (∀ code o, code ∈ [1; 6; 7; 18; 23] → value_option6 (standard6 code) o →
    readable6 no_runtime DHCP6_OPTION_SPACE o) as value.
  { intros code o Hc Ho. apply (readable6_value _ _ (standard6 code)); [by apply standard6_defined|done]. }
  unfold server_options. repeat apply Forall_cons_2; [..|apply Forall_nil_2].
  - apply (value 1); [set_solver|]. by apply (value6_binary (standard6 1)).
  - apply ia_option_readable.
  - apply (value 6); [set_solver|]. apply (value6_int_array (standard6 6) 2 false); [done|done|cbn; lia|done|].
    repeat constructor; cbn; lia.
  - apply (value 7); [set_solver|]. apply (value6_int (standard6 7)); [done|done|cbn; lia].
  - apply (value 23); [set_solver|]. apply (value6_addresses (standard6 23)); [done|done|done|].
    repeat constructor; lia.
  - apply readable6_unknown; [|done|by vm_compute].
    unfold ordinary, D6O_VENDOR_OPTS, D6O_RELAY_MSG. lia.
Qed.

Lemma server_options_in_order : in_order server_options.
Proof.
  unfold in_order, server_options.
  repeat (apply SSorted_cons; [|repeat apply Forall_cons_2; [..|apply Forall_nil_2]; done]). apply SSorted_nil.
Qed.

Lemma options6_roundtrip_witness :
  ∃ bytes, pack_collection UniverseV6 server_options = Ok bytes
    ∧ unpackOptions6 no_runtime DHCP6_OPTION_SPACE false bytes empty_collection
      = ({| c_options := server_options; c_deferred := []; c_relay_msg := None |}, Ok (length bytes)).
Proof.
  exact (options6_roundtrip no_runtime DHCP6_OPTION_SPACE false server_options server_options_readable
           server_options_in_order).
Defined.
