(* ===== verification/Pkt6Wire.v ===== *)
(** * DHCPv6 packets on the wire ([src/lib/dhcp/pkt6.cc])

    [Pkt6::unpack] and [Pkt6::pack]: a message is read and written directly or inside the messages
    of the relays it went through.  A packet is a [WPkt6] with the members of [Pkt6] that go to the
    wire, a relay a [WRelay].  The bytes of a message stay in one array; [AssertionFailure] stands
    for a position outside of it. *)

From S2P Require Import Prelude IoAddress DnsName Packet.
From S2P Require Import OptionSpace OptionTypes OptionDef StdOptionDefs OptionWire OptionWireSafe OptionPack.
Local Open Scope Z_scope.

Definition DHCPV6_RELAY_FORW : Z := 12.
Definition DHCPV6_RELAY_REPL : Z := 13.
Definition D6O_RELAY_SOURCE_PORT : Z := 135.
Definition DHCPV6_PKT_HDR_LEN : nat := 4.
Definition DHCPV6_RELAY_HDR_LEN : nat := 34.

Inductive DHCPv6Proto := UDP | TCP.

(** ** Packets *)

Record WRelay := {
  wr_msg_type_ : Z;
  wr_hop_count_ : Z;
  wr_linkaddr_ : IOAddress;
  wr_peeraddr_ : IOAddress;
  wr_relay_msg_len_ : Z;
  wr_options_ : list WOption
}.

Record WPkt6 := {
  p6_proto_ : DHCPv6Proto;
  p6_msg_type_ : Z;
  p6_transid_ : Z;
  p6_relay_info_ : list WRelay;
  p6_options_ : list WOption
}.

Definition new_pkt6 (msg_type transid : Z) (proto : DHCPv6Proto) : WPkt6 :=
  {| p6_proto_ := proto; p6_msg_type_ := msg_type; p6_transid_ := transid; p6_relay_info_ := [];
     p6_options_ := [] |}.
(** The packet for a received buffer. *)
Definition received_pkt6 (proto : DHCPv6Proto) : WPkt6 := new_pkt6 0 0 proto.

Definition with_p6_msg_type (t : Z) (p : WPkt6) : WPkt6 :=
  {| p6_proto_ := p6_proto_ p; p6_msg_type_ := t; p6_transid_ := p6_transid_ p;
     p6_relay_info_ := p6_relay_info_ p; p6_options_ := p6_options_ p |}.
Definition with_p6_transid (t : Z) (p : WPkt6) : WPkt6 :=
  {| p6_proto_ := p6_proto_ p; p6_msg_type_ := p6_msg_type_ p; p6_transid_ := t;
     p6_relay_info_ := p6_relay_info_ p; p6_options_ := p6_options_ p |}.
Definition with_p6_relays (l : list WRelay) (p : WPkt6) : WPkt6 :=
  {| p6_proto_ := p6_proto_ p; p6_msg_type_ := p6_msg_type_ p; p6_transid_ := p6_transid_ p;
     p6_relay_info_ := l; p6_options_ := p6_options_ p |}.
Definition with_p6_options (l : list WOption) (p : WPkt6) : WPkt6 :=
  {| p6_proto_ := p6_proto_ p; p6_msg_type_ := p6_msg_type_ p; p6_transid_ := p6_transid_ p;
     p6_relay_info_ := p6_relay_info_ p; p6_options_ := l |}.
Definition with_wr_len (len : Z) (r : WRelay) : WRelay :=
  {| wr_msg_type_ := wr_msg_type_ r; wr_hop_count_ := wr_hop_count_ r;
     wr_linkaddr_ := wr_linkaddr_ r; wr_peeraddr_ := wr_peeraddr_ r; wr_relay_msg_len_ := len;
     wr_options_ := wr_options_ r |}.

(** [Pkt6::addRelayInfo]. *)
Definition p6_addRelayInfo (relay : WRelay) : ST WPkt6 unit :=
  p ← get;
  _ ← lift (throw_if (HOP_COUNT_LIMIT <? Z.of_nat (length (p6_relay_info_ p))) BadValue);
  modify (with_p6_relays (p6_relay_info_ p ++ [relay])).

(** [Pkt6::copyRelayInfo]: the interface id and the source port of a relay are echoed. *)
Definition echoed (code : Z) (options : list WOption) : list WOption :=
  option_list (head (filter (λ o, w_type o = code) options)).
Definition p6_copyRelayInfo (question p : WPkt6) : WPkt6 :=
  with_p6_relays
    (p6_relay_info_ p
     ++ ((λ r, {| wr_msg_type_ := DHCPV6_RELAY_REPL; wr_hop_count_ := wr_hop_count_ r;
                  wr_linkaddr_ := wr_linkaddr_ r; wr_peeraddr_ := wr_peeraddr_ r;
                  wr_relay_msg_len_ := 0;
                  wr_options_ := foldl (λ l o, insert_option o l) []
                    (echoed D6O_INTERFACE_ID (wr_options_ r)
                     ++ echoed D6O_RELAY_SOURCE_PORT (wr_options_ r)) |})
         <$> p6_relay_info_ question)) p.

(** ** From the wire *)

Section Unpack.
Context (runtime : string → list OptionDefinition).

(** [unpackMsg] of the bytes between [begin] and [end]; the bytes of the transaction id are
    taken from the left to the right. *)
Definition p6_unpackMsg (data : list Z) : ST WPkt6 unit :=
  _ ← lift (throw_if (length data <? 4)%nat BadValue);
  msg_type ← lift (byte_at data 0);
  _ ← modify (with_p6_msg_type msg_type);
  transid ← lift (bytes_at data 1 3);
  _ ← modify (with_p6_transid (Z.land (be_combine transid) 0xffffff));
  _ ← zoom (λ p, {| c_options := p6_options_ p; c_deferred := []; c_relay_msg := None |})
           (λ c, with_p6_options (c_options c))
           (unpackOptions6 runtime DHCP6_OPTION_SPACE false (drop 4 data));
  mret tt.

(** The loop of [unpackRelayMsg] over the messages of relays, each inside the one before. *)
Fixpoint unpack_relays (fuel : nat) (data : list Z) (offset bufsize : nat) : ST WPkt6 unit :=
  match fuel with
  | O => throw OutOfFuel
  | S fuel =>
      if (bufsize <? DHCPV6_RELAY_HDR_LEN)%nat then mret tt
      else
        msg_type ← lift (byte_at data offset);
        hop_count ← lift (byte_at data (offset + 1));
        linkaddr ← lift (bytes_at data (offset + 2) 16);
        peeraddr ← lift (bytes_at data (offset + 18) 16);
        let offset := (offset + DHCPV6_RELAY_HDR_LEN)%nat in
        let bufsize := (bufsize - DHCPV6_RELAY_HDR_LEN)%nat in
        opt_buffer ← lift (bytes_at data offset bufsize);
        let '(c, r) := unpackOptions6 runtime DHCP6_OPTION_SPACE true opt_buffer empty_collection in
        _ ← lift r;
        let '(relay_msg_offset, relay_msg_len) := default (0%nat, 0%nat) (c_relay_msg c) in
        _ ← lift (throw_if ((relay_msg_offset =? 0)%nat || (relay_msg_len =? 0)%nat) BadValue);
        _ ← p6_addRelayInfo
              {| wr_msg_type_ := msg_type; wr_hop_count_ := hop_count;
                 wr_linkaddr_ := V6 (be_combine linkaddr); wr_peeraddr_ := V6 (be_combine peeraddr);
                 wr_relay_msg_len_ := 0; wr_options_ := c_options c |};
        _ ← lift (throw_if (bufsize <=? relay_msg_len)%nat Unexpected);
        inner_type ← lift (byte_at data (offset + relay_msg_offset));
        let offset := (offset + relay_msg_offset)%nat in
        if negb (inner_type =? DHCPV6_RELAY_FORW) && negb (inner_type =? DHCPV6_RELAY_REPL) then
          inner ← lift (bytes_at data offset relay_msg_len);
          p6_unpackMsg inner
        else unpack_relays fuel data offset relay_msg_len
  end.
Definition unpackRelayMsg (data : list Z) : ST WPkt6 unit :=
  unpack_relays (S (length data)) data 0 (length data).

Definition unpackUDP (data : list Z) : ST WPkt6 unit :=
  _ ← lift (throw_if (length data <? 4)%nat BadValue);
  msg_type ← lift (byte_at data 0);
  _ ← modify (with_p6_msg_type msg_type);
  if (msg_type =? DHCPV6_RELAY_FORW) || (msg_type =? DHCPV6_RELAY_REPL)
  then unpackRelayMsg data else p6_unpackMsg data.

(** [Pkt6::unpack]. *)
Definition p6_unpack (data : list Z) : ST WPkt6 unit :=
  p ← get;
  match p6_proto_ p with UDP => unpackUDP data | TCP => throw Unexpected end.
End Unpack.

(** ** To the wire *)

(** The lengths of the options of a message or a relay, in 16 bits. *)
Fixpoint add_lens (length : Z) (options : list WOption) : res Z :=
  match options with
  | [] => mret length
  | o :: options => n ← w_len o; add_lens (u16 (length + n)) options
  end.
Definition directLen (p : WPkt6) : res Z := add_lens (Z.of_nat DHCPV6_PKT_HDR_LEN) (p6_options_ p).
Definition getRelayOverhead (relay : WRelay) : res Z :=
  add_lens (Z.of_nat DHCPV6_RELAY_HDR_LEN + 4) (wr_options_ relay).

(** [calculateRelaySizes] from the innermost relay outwards: the relays with the lengths of
    what is inside them, and the length of the whole. *)
Fixpoint relay_sizes (direct : Z) (relays : list WRelay) : res (list WRelay * Z) :=
  match relays with
  | [] => mret ([], direct)
  | relay :: relays =>
      '(inner, len) ← relay_sizes direct relays;
      overhead ← getRelayOverhead relay;
      mret (with_wr_len len relay :: inner, u16 (len + overhead))
  end.
Definition calculateRelaySizes (p : WPkt6) : res (WPkt6 * Z) :=
  len ← directLen p;
  '(relays, len) ← relay_sizes len (p6_relay_info_ p);
  mret (with_p6_relays relays p, len).

(** [Pkt6::len]. *)
Definition p6_len (p : WPkt6) : res Z :=
  match p6_relay_info_ p with
  | [] => directLen p
  | _ =>
      '(p, _) ← calculateRelaySizes p;
      match p6_relay_info_ p with
      | relay :: _ => overhead ← getRelayOverhead relay; mret (wr_relay_msg_len_ relay + overhead)
      | [] => Throw AssertionFailure
      end
  end.

(** 16 bytes of an address; [AssertionFailure] when it has only 4. *)
Definition v6_bytes (a : IOAddress) : res (list Z) :=
  if isV6 a then mret (toBytes a) else Throw AssertionFailure.
Definition pack_relay (relay : WRelay) : res (list Z) :=
  link ← v6_bytes (wr_linkaddr_ relay);
  peer ← v6_bytes (wr_peeraddr_ relay);
  options ← pack_collection UniverseV6 (wr_options_ relay);
  mret (be_split 1 (wr_msg_type_ relay) ++ be_split 1 (wr_hop_count_ relay) ++ link ++ peer ++ options
        ++ be_split 2 D6O_RELAY_MSG ++ be_split 2 (wr_relay_msg_len_ relay)).
Definition pack_direct (p : WPkt6) : res (list Z) :=
  options ← pack_collection UniverseV6 (p6_options_ p);
  mret (be_split 1 (p6_msg_type_ p) ++ be_split 3 (p6_transid_ p) ++ options).
Definition packUDP (p : WPkt6) : res (list Z) :=
  rethrow InvalidOperation
    (p ← (if (length (p6_relay_info_ p) =? 0)%nat then mret p else fst <$> calculateRelaySizes p);
     relays ← pack_all (pack_relay <$> p6_relay_info_ p);
     direct ← pack_direct p;
     mret (relays ++ direct)).
Definition p6_pack (p : WPkt6) : res (list Z) :=
  match p6_proto_ p with UDP => packUDP p | TCP => Throw NotImplemented end.

(** ** Correctness *)

(** *** The relayed message lies inside the options *)

Definition relay_msg_within (size : nat) (c : Collection) : Prop :=
  match c_relay_msg c with Some (offset, len) => (4 ≤ offset ∧ offset + len ≤ size)%nat | None => True end.
Definition keeps_within (size : nat) (c c' : Collection) : Prop :=
  relay_msg_within size c → relay_msg_within size c'.

#[export] Instance keeps_within_preorder size : PreOrder (keeps_within size).
Proof. unfold keeps_within. split; [intros c H; exact H|intros c1 c2 c3 H1 H2 H; auto]. Qed.

Lemma add_option_within size o : preserves (keeps_within size) (modify (add_option o)).
Proof. apply preserves_modify. intros c H. exact H. Qed.
Lemma set_relay_msg_within size offset len :
  (4 ≤ offset ∧ offset + len ≤ size)%nat →
  preserves (keeps_within size) (modify (set_relay_msg offset len)).
Proof. intros H. apply preserves_modify. intros c _. exact H. Qed.

Lemma unpackOptions6_loop_within runtime make fuel space relay size : ∀ offset buf,
  (offset + length buf ≤ size)%nat →
  preserves (keeps_within size) (unpackOptions6_loop runtime make fuel space relay offset buf).
Proof.
  induction fuel as [|fuel IH]; intros offset buf Hs; cbn [unpackOptions6_loop]; [apply preserves_throw, _|].
  destruct buf as [|t1 [|t2 [|l1 [|l2 buf]]]]; try apply preserves_ret, _.
  cbn [length] in Hs. set (n := Z.to_nat (be_combine [l1; l2])).
  destruct (Nat.ltb_spec (length buf) n) as [|Hn]; [apply preserves_ret, _|].
  assert (preserves (keeps_within size)
    (unpackOptions6_loop runtime make fuel space relay (offset + 4 + n) (drop n buf))) as Hrest
    by (apply IH; rewrite length_drop; lia).
  destruct (_ && _); [|destruct (_ =? _); [destruct (_ <? 4)%nat; [apply preserves_ret, _|]|]];
    repeat (apply (preserves_bind _); [|intros ?]); try exact Hrest;
    first [apply (preserves_lift _)|apply add_option_within|apply set_relay_msg_within; lia|idtac].
Qed.

Lemma unpackOptions6_within runtime space relay buf :
  relay_msg_within (length buf) (unpackOptions6 runtime space relay buf empty_collection).1.
Proof. by apply (unpackOptions6_loop_within runtime _ _ space relay (length buf) 0 buf). Qed.

(** *** Reading never fails otherwise *)

Section Total.
Context (runtime : string → list OptionDefinition).

(** The exceptions of [unpack]. *)
Definition unpack6_error (e : exc) : Prop := e = BadValue ∨ unpack_error e.

(** The relays that were there stay, and there are never more than 33. *)
Definition relays_grow (p p' : WPkt6) : Prop :=
  ((length (p6_relay_info_ p) ≤ 33)%nat → (length (p6_relay_info_ p') ≤ 33)%nat)
  ∧ p6_relay_info_ p `prefix_of` p6_relay_info_ p'.

#[export] Instance relays_grow_preorder : PreOrder relays_grow.
Proof.
  split; [by split|]. intros p1 p2 p3 [L1 P1] [L2 P2]. split; [auto|by etrans].
Qed.

Definition unpacks6 (m : ST WPkt6 unit) (p : WPkt6) : Prop :=
  wp m p (λ _ p', relays_grow p p') (λ e p', unpack6_error e ∧ relays_grow p p').

Lemma unpacks6_bind p (m : ST WPkt6 unit) (k : unit → ST WPkt6 unit) :
  unpacks6 m p → (∀ p', relays_grow p p' → unpacks6 (k tt) p') → unpacks6 (m ≫= k) p.
Proof.
  intros Hm Hk. apply wp_bind. eapply wp_mono; [exact Hm| |done].
  intros [] p' Hp. eapply wp_mono; [by apply Hk| |]; cbn.
  - intros _ p'' H. by etrans.
  - intros e p'' [He H]. split; [done|by etrans].
Qed.
Lemma unpacks6_throw_if p b e (k : unit → ST WPkt6 unit) :
  unpack6_error e → (b = false → unpacks6 (k tt) p) → unpacks6 (lift (throw_if b e) ≫= k) p.
Proof.
  intros He Hk. apply wp_bind, wp_lift. destruct b; cbn; [split; [done|reflexivity]|by apply Hk].
Qed.
Lemma unpacks6_byte_at p data i (k : Z → ST WPkt6 unit) :
  (i < length data)%nat → (∀ b, unpacks6 (k b) p) → unpacks6 (lift (byte_at data i) ≫= k) p.
Proof.
  intros Hi Hk. apply wp_bind, wp_lift. unfold byte_at.
  destruct (lookup_lt_is_Some_2 data i Hi) as [b ->]. apply Hk.
Qed.
Lemma unpacks6_bytes_at p data i n (k : list Z → ST WPkt6 unit) :
  (i + n ≤ length data)%nat → unpacks6 (k (take n (drop i data))) p →
  unpacks6 (lift (bytes_at data i n) ≫= k) p.
Proof.
  intros Hi Hk. apply wp_bind, wp_lift. unfold bytes_at. by rewrite (proj2 (Nat.leb_le _ _)).
Qed.
Lemma unpacks6_modify p f (k : unit → ST WPkt6 unit) :
  p6_relay_info_ (f p) = p6_relay_info_ p → unpacks6 (k tt) (f p) → unpacks6 (modify f ≫= k) p.
Proof.
  intros Hf Hk. apply wp_bind, wp_modify.
  assert (relays_grow p (f p)) as Hg by (split; rewrite Hf; [done|reflexivity]).
  eapply wp_mono; [exact Hk| |]; cbn.
  - intros _ p' H. by etrans.
  - intros e p' [He H]. split; [done|by etrans].
Qed.

Lemma unpackMsg_total data p : Forall is_byte data → unpacks6 (p6_unpackMsg runtime data) p.
Proof.
  intros Hb. unfold p6_unpackMsg.
  apply unpacks6_throw_if; [by left|]. intros Hl%Nat.ltb_ge.
  apply unpacks6_byte_at; [lia|]. intros t. apply unpacks6_modify; [done|].
  apply unpacks6_bytes_at; [lia|]. apply unpacks6_modify; [done|].
  generalize (with_p6_transid (Z.land (be_combine (take 3 (drop 1 data))) 16777215) (with_p6_msg_type t p)).
  clear p. intros p. unfold unpacks6. apply wp_bind, wp_zoom. unfold wp. cbn beta.
  destruct (unpackOptions6_ok runtime DHCP6_OPTION_SPACE false (drop 4 data)
    {| c_options := p6_options_ p; c_deferred := []; c_relay_msg := None |} ltac:(by apply Forall_drop))
    as (c & r & E & _ & Hr). rewrite E.
  assert (relays_grow p (with_p6_options (c_options c) p)) as Hg by (split; [done|reflexivity]).
  destruct r; [exact Hg|]. split; [by right|exact Hg].
Qed.

Lemma addRelayInfo_total relay p : unpacks6 (p6_addRelayInfo relay) p.
Proof.
  unfold unpacks6, p6_addRelayInfo. apply wp_bind, wp_get, wp_bind, wp_lift.
  destruct (Z.ltb_spec HOP_COUNT_LIMIT (Z.of_nat (length (p6_relay_info_ p)))); cbn [throw_if].
  - split; [by left|reflexivity].
  - apply wp_modify. split; cbn; [|by eexists].
    rewrite length_app. unfold HOP_COUNT_LIMIT in *. cbn. lia.
Qed.

(** Every round looks at a message inside the one before. *)
Lemma unpack_relays_total data fuel : Forall is_byte data → ∀ offset bufsize p,
  (offset + bufsize ≤ length data)%nat → (bufsize < fuel)%nat →
  unpacks6 (unpack_relays runtime fuel data offset bufsize) p.
Proof.
  intros Hb. induction fuel as [|fuel IH]; intros offset bufsize p Ho Hf; [lia|]. cbn [unpack_relays].
  destruct (Nat.ltb_spec bufsize DHCPV6_RELAY_HDR_LEN) as [|Hs]; [apply wp_ret; reflexivity|].
  unfold DHCPV6_RELAY_HDR_LEN in *.
  do 2 (apply unpacks6_byte_at; [lia|intros ?]). do 3 (apply unpacks6_bytes_at; [lia|]).
  set (opt_buffer := take (bufsize - 34) (drop (offset + 34) data)).
  assert (length opt_buffer = bufsize - 34)%nat as Hlen
    by (unfold opt_buffer; rewrite length_take, length_drop; lia).
  pose proof (unpackOptions6_within runtime DHCP6_OPTION_SPACE true opt_buffer) as Hw.
  destruct (unpackOptions6_ok runtime DHCP6_OPTION_SPACE true opt_buffer empty_collection
    ltac:(by apply Forall_take, Forall_drop)) as (c & r & E & _ & Hr).
  rewrite E in *. cbn [fst] in Hw. rewrite Hlen in Hw.
  unfold unpacks6. apply wp_bind, wp_lift. destruct r as [last|e]; [|split; [by right|reflexivity]].
  unfold relay_msg_within in Hw.
  destruct (c_relay_msg c) as [[relay_msg_offset relay_msg_len]|]; cbn [default].
  2:{ apply unpacks6_throw_if; [by left|done]. }
  apply unpacks6_throw_if; [by left|]. intros [_ Hne%Nat.eqb_neq]%orb_false_elim.
  apply unpacks6_bind; [apply addRelayInfo_total|]. intros p' _.
  apply unpacks6_throw_if; [by right; right|]. intros Hlt%Nat.leb_gt.
  apply unpacks6_byte_at; [lia|]. intros inner_type. destruct (_ && _).
  - apply unpacks6_bytes_at; [lia|]. by apply unpackMsg_total, Forall_take, Forall_drop.
  - apply IH; lia.
Qed.

(** C19: [Pkt6::unpack] on any bytes, with messages of relays nested in any way, ends, never looks
    outside the bytes, and throws nothing but four exceptions that its callers catch; the relays it
    finds are appended, and a packet never has more than 33. *)
Theorem p6_unpack_total (data : list Z) (p : WPkt6) (Hb : Forall is_byte data) :
  ∃ p' r, p6_unpack runtime data p = (p', r) ∧ relays_grow p p'
    ∧ match r with Ok _ => True | Throw e => unpack6_error e end.
Proof.
  assert (unpacks6 (p6_unpack runtime data) p) as H.
  { unfold p6_unpack, unpacks6. apply wp_bind, wp_get.
    destruct (p6_proto_ p); [|split; [by right; right|reflexivity]].
    apply unpacks6_throw_if; [by left|]. intros Hl%Nat.ltb_ge.
    apply unpacks6_byte_at; [lia|]. intros t. apply unpacks6_modify; [done|].
    destruct (_ || _); [apply unpack_relays_total; [done|lia..]|by apply unpackMsg_total]. }
  unfold unpacks6, wp in H. destruct (p6_unpack runtime data p) as [p' r]. exists p', r.
  split; [done|]. by destruct r; [|destruct H].
Qed.
End Total.

(** A SOLICIT inside the message of a relay. *)
Definition relayed_solicit : list Z :=
  [12; 0] ++ replicate 32 0 ++ [0; 9; 0; 8; 1; 0; 0; 7; 0; 14; 0; 0] ++ [0; 18; 0; 1; 5].

Lemma p6_unpack_total_witness :
  Forall is_byte relayed_solicit
  ∧ ∃ p' r, p6_unpack (λ _, []) relayed_solicit (received_pkt6 UDP) = (p', r)
    ∧ relays_grow (received_pkt6 UDP) p'
    ∧ match r with Ok _ => True | Throw e => unpack6_error e end.
Proof.
  assert (Forall is_byte relayed_solicit) as Hb by (repeat constructor; lia).
  split; [exact Hb|]. exact (p6_unpack_total (λ _, []) _ _ Hb).
Defined.

Example relayed_solicit_read :
  ∃ p, p6_unpack (λ _, []) relayed_solicit (received_pkt6 UDP) = (p, Ok tt)
    ∧ p6_msg_type_ p = 1 ∧ p6_transid_ p = 7 ∧ w_type <$> p6_options_ p = [14]
    ∧ (λ r, w_type <$> wr_options_ r) <$> p6_relay_info_ p = [[18]].
Proof. eexists. split; [by vm_compute|]. by vm_compute. Qed.

(** The message of a relay that ends before its header does is accepted without a relay and without
    options; the comment at the end of [unpackRelayMsg] only speaks of additional bytes. *)
Theorem truncated_relay_accepted :
  ∀ rest, (length rest < 33)%nat → (3 ≤ length rest)%nat →
  p6_unpack (λ _, []) (DHCPV6_RELAY_FORW :: rest) (received_pkt6 UDP)
  = (with_p6_msg_type DHCPV6_RELAY_FORW (received_pkt6 UDP), Ok tt).
Proof.
  intros rest H1 H2. unfold p6_unpack, unpackUDP, unpackRelayMsg. cbn [length].
  unfold mbind, ST_bind. cbn [get p6_proto_ received_pkt6 new_pkt6]. unfold lift, modify.
  rewrite (proj2 (Nat.ltb_ge _ _)) by lia. cbn.
  by rewrite (proj2 (Nat.leb_le (length rest) 32)) by lia.
Qed.
