(* ===== verification/Pkt6RoundTrip.v ===== *)
(** * DHCPv6 packets that are written and read

    A message that is packed, inside the messages of any number of relays up to the limit, is read
    back as it was. *)

From S2P Require Import Prelude IoAddress DnsName Packet InputBuffer.
From S2P Require Import OptionSpace OptionTypes OptionDef StdOptionDefs OptionWire OptionWireSafe OptionPack OptionRoundTrip OptionRoundTrip6 Pkt6Wire.
Local Open Scope Z_scope.

(** ** The size of a packet *)

Definition options_size (l : list WOption) : nat :=
  match pack_collection UniverseV6 l with Ok bytes => length bytes | Throw _ => 0 end.
Definition message_size (p : WPkt6) : nat := 4 + options_size (p6_options_ p).
Definition relays_size (relays : list WRelay) (inner : nat) : nat :=
  foldr (λ r n, 38 + options_size (wr_options_ r) + n)%nat inner relays.

(** ** Packets that can be sent *)

Definition v6_address (a : IOAddress) : Prop := ∃ z, a = V6 z ∧ 0 ≤ z < 2 ^ 128.

Section RoundTrip.
Context (runtime : string → list OptionDefinition).

Definition options_ok (l : list WOption) : Prop :=
  Forall (readable6 runtime DHCP6_OPTION_SPACE) l ∧ in_order l.

(** A relay as [addRelayInfo] and [copyRelayInfo] leave it. *)
Record relay_ok (r : WRelay) : Prop := {
  relay_type : wr_msg_type_ r = DHCPV6_RELAY_FORW ∨ wr_msg_type_ r = DHCPV6_RELAY_REPL;
  relay_hops : is_byte (wr_hop_count_ r);
  relay_link : v6_address (wr_linkaddr_ r);
  relay_peer : v6_address (wr_peeraddr_ r);
  relay_len : wr_relay_msg_len_ r = 0;
  relay_options : options_ok (wr_options_ r)
}.

Record sendable6 (p : WPkt6) : Prop := {
  sendable6_proto : p6_proto_ p = UDP;
  sendable6_type : is_byte (p6_msg_type_ p) ∧ p6_msg_type_ p ≠ DHCPV6_RELAY_FORW
                   ∧ p6_msg_type_ p ≠ DHCPV6_RELAY_REPL;
  sendable6_transid : 0 ≤ p6_transid_ p < 2 ^ 24;
  sendable6_options : options_ok (p6_options_ p);
  sendable6_relays : Forall relay_ok (p6_relay_info_ p);
  sendable6_count : (length (p6_relay_info_ p) ≤ 33)%nat;
  sendable6_size : Z.of_nat (relays_size (p6_relay_info_ p) (message_size p)) ≤ 65535
}.

(** ** Positions in an array *)

Lemma byte_at_eq data pre b rest i : data = pre ++ b :: rest → i = length pre → byte_at data i = Ok b.
Proof.
  intros -> ->. unfold byte_at. rewrite lookup_app_r, Nat.sub_diag by lia. done.
Qed.
Lemma bytes_at_eq data pre mid rest i n :
  data = pre ++ mid ++ rest → i = length pre → n = length mid → bytes_at data i n = Ok mid.
Proof.
  intros -> -> ->. unfold bytes_at. rewrite !length_app, (proj2 (Nat.leb_le _ _)) by lia.
  by rewrite drop_app_length, take_app_length.
Qed.

Lemma be_split_byte z : is_byte z → be_split 1 z = [z].
Proof.
  intros Hz. cbn [be_split]. change (256 ^ Z.of_nat 0) with 1. rewrite Z.div_1_r.
  by rewrite Z.mod_small.
Qed.

(** Equations between the parts of an array, and between positions in it. *)
Ltac regroup := cbn [app]; rewrite <- ?app_assoc; cbn [app]; rewrite <- ?app_assoc, ?app_nil_r; reflexivity.
Ltac position := rewrite ?length_app, ?length_be_split; cbn [length]; lia.

(** ** Options *)

Lemma add_lens_survives space l : Forall (survives6 runtime space) l → ∀ bytes m,
  pack_collection UniverseV6 l = Ok bytes → 0 ≤ m → m + Z.of_nat (length bytes) ≤ 65535 →
  add_lens m l = Ok (m + Z.of_nat (length bytes)).
Proof.
  setoid_rewrite pack_collection6.
  induction 1 as [|o l (_ & payload & Hp & Hn & _ & _) _ IH]; intros bytes m Hb Hm Hs.
  - injection Hb as <-. cbn. f_equal. lia.
  - rewrite fmap_cons in Hb. cbn [pack_all] in Hb. rewrite Hp in Hb. cbn [mbind res_bind] in Hb.
    destruct (pack_all (w_pack <$> l)) as [bytes'|] eqn:E; [|done].
    assert (bytes = frame6 o payload ++ bytes') as -> by (by inversion Hb).
    rewrite length_app, length_frame6 in Hs |- *. cbn [add_lens]. rewrite Hn. cbn [mbind res_bind].
    rewrite u16_small by lia. rewrite (IH bytes') by (done || lia). f_equal. lia.
Qed.

(** The options of a packet or a relay. *)
Lemma options_ok_frames l : options_ok l →
  ∃ bytes, pack_collection UniverseV6 l = Ok bytes ∧ options_size l = length bytes
    ∧ frames6 runtime (optionFactory runtime) DHCP6_OPTION_SPACE l bytes
    ∧ (∀ m, 0 ≤ m → m + Z.of_nat (length bytes) ≤ 65535 →
        add_lens m l = Ok (m + Z.of_nat (length bytes))).
Proof.
  intros [Hl _]. destruct (readable6_frames runtime _ _ Hl) as (bytes & Hb & Hf & _).
  exists bytes. split; [done|]. split; [unfold options_size; by rewrite Hb|]. split; [done|].
  intros m. apply (add_lens_survives DHCP6_OPTION_SPACE); [|done].
  eapply Forall_impl; [exact Hl|]. apply readable6_survives.
Qed.

(** ** Messages inside messages of relays *)

(** [m] is the message [d] inside the messages of relays. *)
Inductive nested (d : list Z) : list WRelay → list Z → Prop :=
  | nested_message : nested d [] d
  | nested_relay r rs link peer options inner :
      relay_ok r → wr_linkaddr_ r = V6 link → wr_peeraddr_ r = V6 peer →
      0 ≤ link < 2 ^ 128 → 0 ≤ peer < 2 ^ 128 →
      frames6 runtime (optionFactory runtime) DHCP6_OPTION_SPACE (wr_options_ r) options →
      nested d rs inner → inner ≠ [] → Z.of_nat (length inner) < 65536 →
      nested d (r :: rs)
        (wr_msg_type_ r :: wr_hop_count_ r :: be_split 16 link ++ be_split 16 peer ++ options
         ++ be_split 2 D6O_RELAY_MSG ++ be_split 2 (Z.of_nat (length inner)) ++ inner).

Lemma with_wr_len_0 r : wr_relay_msg_len_ r = 0 → with_wr_len 0 r = r.
Proof. destruct r. cbn. by intros ->. Qed.

(** The relays with their lengths are packed as nested messages. *)
Lemma pack_relays_nested d rs : Forall relay_ok rs → d ≠ [] →
  Z.of_nat (relays_size rs (length d)) ≤ 65535 →
  ∃ rs' total bytes, relay_sizes (Z.of_nat (length d)) rs = Ok (rs', total)
    ∧ pack_all (pack_relay <$> rs') = Ok bytes ∧ nested d rs (bytes ++ d)
    ∧ total = Z.of_nat (length (bytes ++ d)) ∧ length (bytes ++ d) = relays_size rs (length d).
Proof.
  intros Hrs Hd. induction Hrs as [|r rs Hr _ IH]; intros Hs.
  - exists [], (Z.of_nat (length d)), []. repeat split; try done. constructor.
  - pose proof Hr as [Ht Hh (link & El & Hlink) (peer & Ep & Hpeer) Hn Ho].
    cbn [relays_size foldr] in Hs. fold (relays_size rs (length d)) in Hs.
    destruct IH as (rs' & total & bytes & E1 & E2 & Hnest & -> & Hlen); [lia|].
    destruct (options_ok_frames _ Ho) as (options & Hpack & Hsize & Hframes & Hadd).
    rewrite Hsize in Hs.
    eexists (with_wr_len _ r :: rs'), _, (_ ++ bytes). split; [|split; [|split; [|split]]].
    + cbn [relay_sizes]. rewrite E1. cbn [mbind res_bind]. unfold getRelayOverhead.
      change (Z.of_nat DHCPV6_RELAY_HDR_LEN + 4) with 38.
      rewrite Hadd by lia. cbn [mbind res_bind]. rewrite u16_small by lia. done.
    + rewrite fmap_cons. cbn [pack_all]. rewrite E2. unfold pack_relay. cbn [with_wr_len wr_linkaddr_ wr_peeraddr_ wr_options_ wr_msg_type_ wr_hop_count_ wr_relay_msg_len_].
      rewrite El, Ep, Hpack. cbn [v6_bytes isV6 isV4 negb toBytes mbind res_bind mret res_ret]. done.
    + rewrite !be_split_byte by (done || (destruct Ht as [-> | ->]; done)).
      cbn [app]. rewrite <- !app_assoc. apply nested_relay; try done.
      * intros Hnil%app_eq_nil. naive_solver.
      * lia.
    + rewrite !length_app, !length_be_split in *. cbn [length] in *. lia.
    + cbn [relays_size foldr]. fold (relays_size rs (length d)). rewrite Hsize, <- Hlen.
      rewrite !length_app, !length_be_split. lia.
Qed.

Lemma run_get {S B} (f : S → ST S B) s : (get ≫= f) s = f s s.
Proof. done. Qed.

(** A message that is not of a relay. *)
Definition direct (d : list Z) : Prop :=
  ∃ t rest, d = t :: rest ∧ t ≠ DHCPV6_RELAY_FORW ∧ t ≠ DHCPV6_RELAY_REPL.

Lemma nested_head d rs m : nested d rs m → direct d →
  ∃ t rest, m = t :: rest ∧ (negb (t =? DHCPV6_RELAY_FORW) && negb (t =? DHCPV6_RELAY_REPL))
    = bool_decide (rs = []).
Proof.
  intros Hn (t & rest & -> & H1 & H2).
  destruct Hn as [|r rs link peer options inner Hr]; do 2 eexists; split; try done.
  - by rewrite (proj2 (Z.eqb_neq _ _) H1), (proj2 (Z.eqb_neq _ _) H2).
  - by destruct (relay_type _ Hr) as [-> | ->].
Qed.

(** The relay that is read. *)
Lemma read_relay r link peer :
  wr_linkaddr_ r = V6 link → wr_peeraddr_ r = V6 peer → wr_relay_msg_len_ r = 0 →
  0 ≤ link < 2 ^ 128 → 0 ≤ peer < 2 ^ 128 →
  {| wr_msg_type_ := wr_msg_type_ r; wr_hop_count_ := wr_hop_count_ r;
     wr_linkaddr_ := V6 (be_combine (be_split 16 link));
     wr_peeraddr_ := V6 (be_combine (be_split 16 peer));
     wr_relay_msg_len_ := 0; wr_options_ := wr_options_ r |} = r.
Proof.
  intros E1 E2 E3 H1 H2. rewrite !be_combine_split, !Z.mod_small, <- E1, <- E2, <- E3
    by (change (256 ^ Z.of_nat 16) with (2 ^ 128); lia). by destruct r.
Qed.

Lemma unpack_nested d rs m : nested d rs m → direct d → ∀ fuel pre p,
  rs ≠ [] → (length m < fuel)%nat → (length (p6_relay_info_ p) + length rs ≤ 33)%nat →
  unpack_relays runtime fuel (pre ++ m) (length pre) (length m) p
  = p6_unpackMsg runtime d (with_p6_relays (p6_relay_info_ p ++ rs) p).
Proof.
  intros Hn Hd. induction Hn as [|r rs link peer options inner Hr El Ep Hlink Hpeer Hf Hn IH Hne Hi];
    intros fuel pre p Hrs Hfuel Hcount; [done|].
  pose proof (frames6_unpack_relay runtime _ _ _ inner (proj2 (relay_options _ Hr)) Hf Hi) as Hopts.
  destruct (nested_head _ _ _ Hn Hd) as (t & rest & Et & Hinner).
  set (buffer := options ++ be_split 2 D6O_RELAY_MSG ++ be_split 2 (Z.of_nat (length inner)) ++ inner) in *.
  assert (length buffer = length options + 4 + length inner)%nat as Hlb
    by (unfold buffer; rewrite !length_app, !length_be_split; lia).
  set (m := wr_msg_type_ r :: wr_hop_count_ r :: be_split 16 link ++ be_split 16 peer ++ buffer) in *.
  assert (length m = 34 + length buffer)%nat as Hlm
    by (unfold m; cbn [length]; rewrite !length_app, !length_be_split; lia).
  assert (0 < length inner)%nat as Hpos by (destruct inner; [done|cbn; lia]).
  destruct fuel as [|fuel]; [lia|]. cbn [unpack_relays].
  rewrite (proj2 (Nat.ltb_ge _ DHCPV6_RELAY_HDR_LEN)) by (rewrite Hlm; unfold DHCPV6_RELAY_HDR_LEN; lia).
  unfold DHCPV6_RELAY_HDR_LEN. rewrite Hlm.
  rewrite (byte_at_eq (pre ++ m) pre (wr_msg_type_ r)
    (wr_hop_count_ r :: be_split 16 link ++ be_split 16 peer ++ buffer) _ eq_refl eq_refl), run_lift.
  rewrite (byte_at_eq (pre ++ m) (pre ++ [wr_msg_type_ r]) (wr_hop_count_ r)
    (be_split 16 link ++ be_split 16 peer ++ buffer) (length pre + 1)), run_lift
    by (unfold m; regroup || position).
  rewrite (bytes_at_eq (pre ++ m) (pre ++ [wr_msg_type_ r; wr_hop_count_ r]) (be_split 16 link)
    (be_split 16 peer ++ buffer) (length pre + 2) 16), run_lift
    by (unfold m; regroup || position).
  rewrite (bytes_at_eq (pre ++ m) (pre ++ [wr_msg_type_ r; wr_hop_count_ r] ++ be_split 16 link) (be_split 16 peer)
    buffer (length pre + 18) 16), run_lift
    by (unfold m; regroup || position).
  rewrite (bytes_at_eq (pre ++ m) (pre ++ [wr_msg_type_ r; wr_hop_count_ r] ++ be_split 16 link ++ be_split 16 peer)
    buffer [] (length pre + 34) (34 + length buffer - 34)), run_lift
    by (unfold m; regroup || position).
  rewrite Hopts, run_lift. cbn [c_relay_msg from_option id c_options].
  rewrite (proj2 (Nat.eqb_neq (length options + 4) 0)), (proj2 (Nat.eqb_neq (length inner) 0)) by lia.
  cbn [orb throw_if]. rewrite run_lift, read_relay by (done || apply (relay_len _ Hr)).
  assert (p6_addRelayInfo r p = (with_p6_relays (p6_relay_info_ p ++ [r]) p, Ok tt)) as Hadd.
  { unfold p6_addRelayInfo. rewrite run_get. cbn [length] in Hcount.
    rewrite (proj2 (Z.ltb_ge _ _)) by (unfold HOP_COUNT_LIMIT; lia). done. }
  unfold mbind at 1, ST_bind at 1. rewrite Hadd.
  rewrite (proj2 (Nat.leb_gt _ (length inner))) by lia. cbn [throw_if]. rewrite run_lift.
  set (pre' := pre ++ [wr_msg_type_ r; wr_hop_count_ r] ++ be_split 16 link ++ be_split 16 peer ++ options
    ++ be_split 2 D6O_RELAY_MSG ++ be_split 2 (Z.of_nat (length inner))).
  assert (pre ++ m = pre' ++ inner) as Hsplit
    by (unfold m, pre', buffer; regroup).
  assert (length pre + 34 + (length options + 4) = length pre')%nat as Hpre'
    by (unfold pre'; position).
  rewrite Hsplit, Hpre'.
  rewrite (byte_at_eq (pre' ++ inner) pre' t rest) by (done || by rewrite Et).
  rewrite run_lift, Hinner. destruct rs as [|r2 rs2].
  - assert (inner = d) as -> by (by inversion Hn). rewrite bool_decide_eq_true_2 by done.
    rewrite (bytes_at_eq (pre' ++ d) pre' d [] (length pre') (length d)), run_lift by (done || by rewrite app_nil_r). done.
  - rewrite bool_decide_eq_false_2 by done. rewrite IH; [|done|lia|].
    + unfold with_p6_relays. cbn. by rewrite <- app_assoc.
    + cbn. rewrite length_app. cbn [length] in *. lia.
Qed.

(** ** The packet *)

(** The message itself is read into a packet without options. *)
Lemma unpackMsg_packed p q options :
  is_byte (p6_msg_type_ p) → 0 ≤ p6_transid_ p < 2 ^ 24 → in_order (p6_options_ p) →
  frames6 runtime (optionFactory runtime) DHCP6_OPTION_SPACE (p6_options_ p) options →
  p6_options_ q = [] →
  p6_unpackMsg runtime (be_split 1 (p6_msg_type_ p) ++ be_split 3 (p6_transid_ p) ++ options) q
  = (with_p6_options (p6_options_ p) (with_p6_transid (p6_transid_ p) (with_p6_msg_type (p6_msg_type_ p) q)),
     Ok tt).
Proof.
  intros Ht Hid Ho Hf Hq. rewrite be_split_byte by done.
  set (d := [p6_msg_type_ p] ++ be_split 3 (p6_transid_ p) ++ options).
  unfold p6_unpackMsg.
  rewrite (proj2 (Nat.ltb_ge (length d) 4)) by (unfold d; position). cbn [throw_if]. rewrite run_lift.
  rewrite (byte_at_eq d [] (p6_msg_type_ p) (be_split 3 (p6_transid_ p) ++ options) 0) by done.
  rewrite run_lift, run_modify.
  rewrite (bytes_at_eq d [p6_msg_type_ p] (be_split 3 (p6_transid_ p)) options 1 3) by (done || position).
  rewrite run_lift, run_modify, be_combine_split, Z.mod_small by (change (256 ^ Z.of_nat 3) with (2 ^ 24); done).
  change 0xffffff with (Z.ones 24). rewrite Z.land_ones, Z.mod_small by lia.
  assert (drop 4 d = options) as -> by (unfold d; rewrite app_assoc; by rewrite drop_app_length' by position).
  unfold mbind, ST_bind, zoom. cbn [with_p6_transid with_p6_msg_type p6_options_]. rewrite Hq.
  change {| c_options := []; c_deferred := []; c_relay_msg := None |} with empty_collection.
  unfold unpackOptions6. rewrite (frames6_unpack runtime _ _ false _ _ Ho Hf). done.
Qed.

(** C17: A DHCPv6 packet that is packed and unpacked is the same packet: the message with its type,
    transaction id and options, and all the relays it is wrapped in, from the outermost to the
    innermost, with their addresses, hop counts and options.  The packets are those that can be
    sent over UDP as they are ([sendable6]): a message that is not itself one of a relay, at most
    33 relays with IPv6 addresses and the length of their message not yet filled in, options of
    kinds that are read back, in the order of their codes, and 65535 bytes in all at most. *)
Theorem p6_pack_unpack (p : WPkt6) (Hp : sendable6 p) :
  ∃ bytes, p6_pack p = Ok bytes ∧ p6_unpack runtime bytes (received_pkt6 UDP) = (p, Ok tt).
Proof.
  destruct Hp as [Hproto (Htype & Hn1 & Hn2) Hid Hopts Hrelays Hcount Hsize].
  destruct (options_ok_frames _ Hopts) as (options & Hpack & Hos & Hf & Hadd).
  set (d := be_split 1 (p6_msg_type_ p) ++ be_split 3 (p6_transid_ p) ++ options).
  assert (length d = message_size p) as Hd by (unfold d, message_size; rewrite Hos; position).
  assert (direct d) as Hdirect by (unfold d; rewrite be_split_byte by done; by do 2 eexists).
  assert (∀ q, p6_options_ q = [] → p6_unpackMsg runtime d q
    = (with_p6_options (p6_options_ p) (with_p6_transid (p6_transid_ p) (with_p6_msg_type (p6_msg_type_ p) q)), Ok tt)) as Hmsg
    by (intros q Hq; apply unpackMsg_packed; try done; apply Hopts).
  assert (pack_direct p = Ok d) as Hpd by (unfold pack_direct; by rewrite Hpack).
  rewrite <- Hd in Hsize.
  destruct (pack_relays_nested d (p6_relay_info_ p) Hrelays ltac:(by destruct Hdirect as (? & ? & -> & _)) Hsize)
    as (rs' & total & bytes & E1 & E2 & Hnest & -> & Hlen).
  exists (bytes ++ d). split.
  - unfold p6_pack, packUDP. rewrite Hproto. destruct (Nat.eqb_spec (length (p6_relay_info_ p)) 0) as [E|E].
    + apply length_zero_iff_nil in E. rewrite E in E1. injection E1 as <- _.
      cbn in E2. injection E2 as <-. cbn [mbind res_bind mret res_ret]. rewrite E. cbn [pack_all fmap list_fmap mbind res_bind mret res_ret app].
      by rewrite Hpd.
    + unfold calculateRelaySizes, directLen.
      assert (Z.of_nat (length d) ≤ 65535) as Hdl
        by (rewrite <- Hlen, length_app in Hsize; lia).
      rewrite Hadd by (unfold DHCPV6_PKT_HDR_LEN; rewrite Hd in Hdl; unfold message_size in Hdl; rewrite Hos in Hdl; lia).
      replace (Z.of_nat DHCPV6_PKT_HDR_LEN + Z.of_nat (length options)) with (Z.of_nat (length d))
        by (unfold d, DHCPV6_PKT_HDR_LEN; position).
      cbn [mbind res_bind]. rewrite E1. cbn [mbind res_bind mret res_ret fmap res_fmap fst p6_relay_info_ with_p6_relays].
      rewrite E2. cbn [mbind res_bind].
      assert (pack_direct (with_p6_relays rs' p) = Ok d) as -> by exact Hpd. done.
  - pose proof (nested_head _ _ _ Hnest Hdirect) as (t & rest & Et & Hb).
    assert (4 ≤ length (bytes ++ d))%nat as H4 by (rewrite length_app, Hd; unfold message_size; lia).
    unfold p6_unpack, unpackUDP. rewrite run_get. cbn [p6_proto_ received_pkt6 new_pkt6].
    rewrite (proj2 (Nat.ltb_ge _ 4)) by done. cbn [throw_if].
    rewrite run_lift, (byte_at_eq (bytes ++ d) [] t rest 0), run_lift, run_modify by done.
    destruct (decide (p6_relay_info_ p = [])) as [E|E].
    + rewrite E in Hb, Hnest. rewrite bool_decide_eq_true_2 in Hb by done.
      apply andb_prop in Hb as [Hb1%negb_true_iff Hb2%negb_true_iff]. rewrite Hb1, Hb2. cbn [orb].
      assert (bytes ++ d = d) as -> by (by inversion Hnest). rewrite Hmsg by done.
      destruct p. cbn in *. by subst.
    + rewrite bool_decide_eq_false_2 in Hb by done.
      assert ((t =? DHCPV6_RELAY_FORW) || (t =? DHCPV6_RELAY_REPL) = true) as ->
        by (destruct (t =? DHCPV6_RELAY_FORW), (t =? DHCPV6_RELAY_REPL); done).
      unfold unpackRelayMsg.
      rewrite (unpack_nested _ _ _ Hnest Hdirect (S (length (bytes ++ d))) []) by (done || cbn; lia).
      rewrite Hmsg by done. destruct p. cbn in *. by subst.
Qed.
End RoundTrip.

(** ** A reply to a relayed message *)

Definition relay_option : WOption := mkWOption UniverseV6 18 [101; 116; 104] WGeneric "" [].
Definition some_relay (hop_count addr : Z) : WRelay :=
  {| wr_msg_type_ := DHCPV6_RELAY_REPL; wr_hop_count_ := hop_count; wr_linkaddr_ := V6 addr;
     wr_peeraddr_ := V6 (addr + 1); wr_relay_msg_len_ := 0; wr_options_ := [relay_option] |}.
Definition relayed_reply : WPkt6 :=
  with_p6_options server_options
    (with_p6_relays [some_relay 1 100; some_relay 0 200] (new_pkt6 7 0x123456 UDP)).

Lemma relayed_reply_sendable : sendable6 no_runtime relayed_reply.
Proof.
  assert (readable6 no_runtime DHCP6_OPTION_SPACE relay_option) as Ho.
  { apply (readable6_value _ _ (standard6 18)); [apply standard6_defined; set_solver|].
    by apply (value6_binary (standard6 18)). }
  assert (∀ hops a, is_byte hops → 0 ≤ a < 1000 → relay_ok no_runtime (some_relay hops a)) as Hr.
  { intros hops a Hh Ha. split; try done; [by right|eexists; split; [done|lia]|eexists; split; [done|lia]|].
    split; [by apply Forall_cons_2, Forall_nil_2|]. apply SSorted_cons; [apply SSorted_nil|constructor]. }
  split; try done.
  - split; [apply server_options_readable|apply server_options_in_order].
  - repeat apply Forall_cons_2; [..|apply Forall_nil_2]; apply Hr; unfold is_byte; lia.
  - cbn. lia.
Qed.

Lemma p6_pack_unpack_witness :
  ∃ bytes, p6_pack relayed_reply = Ok bytes
    ∧ p6_unpack no_runtime bytes (received_pkt6 UDP) = (relayed_reply, Ok tt).
Proof. exact (p6_pack_unpack no_runtime relayed_reply relayed_reply_sendable). Defined.
