(* ===== verification/CfgOption.v ===== *)
(** * Configured options ([src/lib/dhcpsrv/cfg_option.h], [cfg_option.cc],
      [src/lib/dhcp/option_space_container.h], [option_space.cc])

    The options that are configured for a host, a pool, a subnet, a shared network, a class or
    globally: for every option space, and every vendor, a container of descriptors.  The
    order of elements with the same key in the container's hashed indexes is not
    specified, so the two lookups are a class with the laws that are.  [encapsulate], which
    links option objects to each other, and the conversion to JSON are left out. *)

From S2P Require Import Prelude DnsName Packet OptionSpace.
From Stdlib Require Import Ascii.
Local Open Scope Z_scope.

(** A descriptor that is stored has an option: [add] refuses a null pointer. *)
Record OptionDescriptor := {
  option_ : Option;
  persistent_ : bool;
  formatted_value_ : string
}.

Definition desc_code (d : OptionDescriptor) : Z := option_type_ (option_ d).

(** The indexes #1 (by code) and #2 (by persistence) of [OptionContainer]. *)
Class OptionIndexes := {
  index_find : Z → list OptionDescriptor → option OptionDescriptor;
  index_persistent : list OptionDescriptor → list OptionDescriptor
}.
Class OptionIndexesLaws `{OptionIndexes} : Prop := {
  index_find_Some code l d : index_find code l = Some d → d ∈ l ∧ desc_code d = code;
  index_find_None code l : index_find code l = None → ∀ d, d ∈ l → desc_code d ≠ code;
  index_persistent_spec l d : d ∈ index_persistent l ↔ d ∈ l ∧ persistent_ d = true
}.

(** The first element, and the elements in their order. *)
#[export] Instance ListIndexes : OptionIndexes := {|
  index_find code l := snd <$> list_find (λ d, desc_code d = code) l;
  index_persistent l := filter (λ d, persistent_ d = true) l
|}.
#[export] Instance ListIndexesLaws : OptionIndexesLaws.
Proof.
  split.
  - intros code l d. cbn. destruct (list_find _ l) as [[i x]|] eqn:E; [|done]. cbn. intros [= <-].
    apply list_find_Some in E as (E & Hx & _). split; [|done]. by eapply list_elem_of_lookup_2.
  - intros code l. cbn. destruct (list_find _ l) as [[i x]|] eqn:E; [done|]. intros _ d Hd.
    apply list_find_None in E. rewrite Forall_forall in E. by apply E.
  - intros l d. cbn. rewrite list_elem_of_filter. naive_solver.
Qed.

(** ** [OptionSpaceContainer] *)

Section Container.
Context {K : Type} `{Countable K}.
Abbreviation Spaces := (gmap K (list OptionDescriptor)).

Definition getItems (option_space : K) (m : Spaces) : list OptionDescriptor :=
  default [] (m !! option_space).
Definition addItem (item : OptionDescriptor) (option_space : K) (m : Spaces) : Spaces :=
  <[option_space := getItems option_space m ++ [item]]> m.

Context `{OptionIndexes}.

(** The inner loop of [mergeInternal].  The container of a space that is not in the
    destination is a new one, which the items that are added do not go to. *)
Definition merge_space (space : K) (src : list OptionDescriptor) (dest : Spaces) : Spaces :=
  let had := bool_decide (is_Some (dest !! space)) in
  foldl (λ dest d,
    match index_find (desc_code d) (if had then getItems space dest else []) with
    | Some _ => dest
    | None => addItem d space dest
    end) dest src.

Definition mergeInternal (src dest : Spaces) : Spaces :=
  foldl (λ dest space, merge_space space (getItems space src) dest) dest (map_to_list src).*1.
End Container.

(** ** [CfgOption] *)

Record CfgOption := {
  cfg_options_ : gmap string (list OptionDescriptor);
  vendor_options_ : gmap Z (list OptionDescriptor)
}.

Definition mkCfgOption : CfgOption := {| cfg_options_ := ∅; vendor_options_ := ∅ |}.
Definition cfg_option_empty (c : CfgOption) : bool :=
  bool_decide (cfg_options_ c = ∅) && bool_decide (vendor_options_ c = ∅).

(** [getAll] of a space and of a vendor. *)
Definition getAll (option_space : string) (c : CfgOption) : list OptionDescriptor :=
  getItems option_space (cfg_options_ c).
Definition getAll_vendor (vendor_id : Z) (c : CfgOption) : list OptionDescriptor :=
  getItems vendor_id (vendor_options_ c).

Section Cfg.
Context `{OptionIndexes} (lexical_cast_int64 : string → option Z).

(** [LibDHCP::optionSpaceToVendorId]; 0 if the space is not one of a vendor. *)
Definition optionSpaceToVendorId (option_space : string) : Z :=
  if (String.length option_space <? 8)%nat
     || negb (bool_decide (String.substring 0 7 option_space = "vendor-"))
  then 0
  else
    match lexical_cast_int64
            (String.substring 7 (String.length option_space - 7) option_space) with
    | None => 0
    | Some check => if (check <? 0) || (2 ^ 32 - 1 <? check) then 0 else check
    end.

Definition cfg_option_add (option : option Option) (persistent : bool) (formatted : string)
    (option_space : string) (c : CfgOption) : res CfgOption :=
  match option with
  | None => Throw BadValue
  | Some o =>
      _ ← throw_if (negb (validateName option_space)) BadValue;
      let desc := {| option_ := o; persistent_ := persistent; formatted_value_ := formatted |} in
      let vendor_id := optionSpaceToVendorId option_space in
      mret (if negb (vendor_id =? 0) then
              {| cfg_options_ := cfg_options_ c;
                 vendor_options_ := addItem desc vendor_id (vendor_options_ c) |}
            else
              {| cfg_options_ := addItem desc option_space (cfg_options_ c);
                 vendor_options_ := vendor_options_ c |})
  end.

(** [get] of a space and of a vendor. *)
Definition get_items (items : list OptionDescriptor) (code : Z) : option OptionDescriptor :=
  if bool_decide (items = []) then None else index_find code items.
Definition cfg_get (option_space : string) (code : Z) (c : CfgOption) : option OptionDescriptor :=
  get_items (getAll option_space c) code.
Definition cfg_get_vendor (vendor_id code : Z) (c : CfgOption) : option OptionDescriptor :=
  get_items (getAll_vendor vendor_id c) code.

Definition mergeTo (c other : CfgOption) : CfgOption :=
  {| cfg_options_ := mergeInternal (cfg_options_ c) (cfg_options_ other);
     vendor_options_ := mergeInternal (vendor_options_ c) (vendor_options_ other) |}.
Definition copyTo (c other : CfgOption) : CfgOption :=
  mergeTo c {| cfg_options_ := ∅; vendor_options_ := ∅ |}.
End Cfg.

(** ** Correctness *)

Section Merge.
Context {K : Type} `{Countable K} `{OptionIndexesLaws}.
Abbreviation Spaces := (gmap K (list OptionDescriptor)).

Lemma merge_space_other space src : ∀ (dest : Spaces) k,
  k ≠ space → merge_space space src dest !! k = dest !! k.
Proof.
  intros dest k Hk. unfold merge_space. generalize (bool_decide (is_Some (dest !! space))) as had.
  intros had. revert dest. induction src as [|d src IH]; intros dest; [done|]. cbn.
  rewrite IH. destruct (index_find _ _); [done|]. unfold addItem. by rewrite lookup_insert_ne.
Qed.

Lemma mergeInternal_other (src dest : Spaces) k :
  src !! k = None → mergeInternal src dest !! k = dest !! k.
Proof.
  intros Hk. unfold mergeInternal.
  assert (k ∉ (map_to_list src).*1) as Hin.
  { intros ((k' & l) & -> & Hl)%list_elem_of_fmap. apply elem_of_map_to_list in Hl. cbn in Hk. congruence. }
  revert dest Hin. induction (map_to_list src).*1 as [|k' ks IH]; intros dest Hin; [done|]. cbn.
  apply not_elem_of_cons in Hin as [Hne Hin]. rewrite IH by done. by apply merge_space_other.
Qed.

Lemma mergeInternal_at (src dest : Spaces) k l :
  src !! k = Some l → mergeInternal src dest !! k = merge_space k l dest !! k.
Proof.
  intros Hk. unfold mergeInternal.
  assert (k ∈ (map_to_list src).*1) as Hin
    by (apply list_elem_of_fmap; exists (k, l); split; [done|by apply elem_of_map_to_list]).
  pose proof (NoDup_fst_map_to_list src) as Hnd.
  assert (∀ ks (d : Spaces), k ∉ ks →
    foldl (λ dest space, merge_space space (getItems space src) dest) d ks !! k = d !! k) as Hno.
  { induction ks as [|k' ks IH]; intros d Hd; [done|]. cbn. apply not_elem_of_cons in Hd as [Hne Hd].
    rewrite IH by done. by apply merge_space_other. }
  assert (∀ (d : Spaces), d !! k = dest !! k →
    merge_space k l d !! k = merge_space k l dest !! k) as Heq.
  { intros d Hd. unfold merge_space. rewrite Hd.
    generalize (bool_decide (is_Some (dest !! k))) as had. intros had. clear -Hd.
    revert d dest Hd. induction l as [|x l IH]; intros d dest Hd; [done|]. cbn. apply IH.
    unfold getItems. rewrite Hd. destruct (index_find _ _); [done|].
    unfold addItem, getItems. by rewrite Hd, !lookup_insert_eq. }
  clear -Hk Hin Hnd Hno Heq H0 H1. generalize (eq_refl (dest !! k)). generalize dest at 1 3 as d.
  induction (map_to_list src).*1 as [|k' ks IH]; intros d Hd; [by apply elem_of_nil in Hin|]. cbn.
  apply NoDup_cons in Hnd as [Hk' Hnd].
  destruct (decide (k = k')) as [->|Hne].
  - rewrite Hno by done. unfold getItems at 1. rewrite Hk. by apply Heq.
  - apply elem_of_cons in Hin as [?|Hin]; [done|]. apply IH; [done|done|].
    by rewrite merge_space_other.
Qed.

(** Into a space that is not there everything is copied. *)
Lemma merge_space_new k src (dest : Spaces) :
  dest !! k = None → src ≠ [] → merge_space k src dest !! k = Some src.
Proof using All.
  intros Hk Hsrc. unfold merge_space. rewrite Hk, bool_decide_eq_false_2 by (by intros [? ?]).
  assert (∀ l d, index_find d (if false then l else []) = None) as Hnone.
  { intros l d. cbn. destruct (index_find d []) as [x|] eqn:E; [|done].
    apply index_find_Some in E as [E _]. by apply elem_of_nil in E. }
  assert (∀ (d : Spaces), foldl (λ dest x,
      match index_find (desc_code x) (if false then getItems k dest else []) with
      | Some _ => dest | None => addItem x k dest end) d src !! k
      = if decide (src = []) then d !! k else Some (getItems k d ++ src)) as E.
  { clear Hk Hsrc. induction src as [|x src IH]; intros d; [done|]. cbn [foldl]. rewrite IH.
    destruct (decide (x :: src = [])); [done|]. rewrite (Hnone []). unfold addItem, getItems. rewrite lookup_insert_eq. cbn.
    destruct (decide (src = [])) as [->|]; [done|]. by rewrite <- app_assoc. }
  rewrite E. destruct (decide (src = [])); [done|]. unfold getItems. by rewrite Hk.
Qed.

(** Into a space that is there, the options with new codes are added at the end. *)
Lemma merge_space_get k src (dest : Spaces) items code :
  dest !! k = Some items →
  ∃ items', merge_space k src dest !! k = Some items' ∧
    (∀ d, d ∈ items → d ∈ items') ∧
    (∀ d, d ∈ items' → d ∈ items ∨ d ∈ src) ∧
    (index_find code items = None → index_find code src ≠ None → index_find code items' ≠ None) ∧
    (∀ d d', d ∈ items → d' ∈ items' → desc_code d = desc_code d' → d' ∈ items).
Proof using All.
  intros Hk. unfold merge_space. rewrite Hk, bool_decide_eq_true_2 by done.
  revert dest items Hk. induction src as [|x src IH]; intros dest items Hk.
  - exists items. split_and!; try done; [by left|]. intros _ Hne. exfalso. apply Hne.
    destruct (index_find code []) as [d|] eqn:E; [|done].
    apply index_find_Some in E as [E _]. by apply elem_of_nil in E.
  - cbn [foldl]. assert (getItems k dest = items) as Hg by (unfold getItems; by rewrite Hk).
    rewrite Hg.
    destruct (index_find (desc_code x) items) as [y|] eqn:E.
    + destruct (IH dest items Hk) as (items' & E1 & E2 & E3 & E4 & E5).
      exists items'. split_and!; try done; [set_solver|].
      intros Hnone Hsome. apply E4; [done|]. intros Hsrc. apply Hsome.
      destruct (index_find code (x :: src)) as [z|] eqn:Ez; [|done]. exfalso.
      apply index_find_Some in Ez as [[-> |Hz]%elem_of_cons Hc].
      * congruence.
      * by apply (index_find_None code src Hsrc z).
    + destruct (IH (addItem x k dest) (items ++ [x])) as (items' & E1 & E2 & E3 & E4 & E5).
      { unfold addItem, getItems. by rewrite lookup_insert_eq, Hk. }
      exists items'. split_and!; [done|set_solver|set_solver| |].
      * intros Hnone Hsome.
        destruct (index_find code items') as [z|] eqn:Ez; [done|]. exfalso.
        pose proof (index_find_None _ _ Ez) as Hz.
        destruct (index_find code (x :: src)) as [y|] eqn:Ey; [|done].
        apply index_find_Some in Ey as [[-> |Hy]%elem_of_cons Hc].
        -- by apply (Hz x); [apply E2; set_solver|].
        -- apply E4; [| |done].
           ++ destruct (index_find code (items ++ [x])) as [w|] eqn:Ew; [|done]. exfalso.
              apply index_find_Some in Ew as [Hw Hcw]. by apply (Hz w); [apply E2|].
           ++ intros Hn. by apply (index_find_None _ _ Hn y).
      * intros d d' Hd Hd' Hc. assert (d' ∈ items ++ [x]) as Hin by (apply (E5 d); set_solver).
        apply elem_of_app in Hin as [?| ->%list_elem_of_singleton]; [done|]. exfalso.
        by apply (index_find_None _ _ E d).
Qed.
End Merge.

(** No space is without options, as [addItem] makes them. *)
Definition spaces_ok (c : CfgOption) : Prop :=
  (∀ k l, cfg_options_ c !! k = Some l → l ≠ []) ∧ (∀ k l, vendor_options_ c !! k = Some l → l ≠ []).

Lemma mergeInternal_empty `{Countable K, OptionIndexesLaws} (src : gmap K (list OptionDescriptor)) :
  (∀ k l, src !! k = Some l → l ≠ []) → mergeInternal src ∅ = src.
Proof.
  intros Hsrc. apply map_eq. intros k. destruct (src !! k) as [l|] eqn:E.
  - rewrite (mergeInternal_at _ _ _ l) by done. by apply merge_space_new; [|eapply Hsrc].
  - by rewrite mergeInternal_other.
Qed.

Section Promises.
Context `{OptionIndexesLaws}.

(** Copying replaces what the destination had by the same options, in the same order. *)
Theorem copyTo_same (c other : CfgOption) (Hc : spaces_ok c) : copyTo c other = c.
Proof using All.
  destruct Hc as [H1 H2]. unfold copyTo, mergeTo. cbn. rewrite !mergeInternal_empty by done.
  by destruct c.
Qed.

Lemma get_items_index items code : get_items items code = index_find code items.
Proof using All.
  unfold get_items. case_bool_decide as E; [|done]. subst.
  destruct (index_find code []) as [d|] eqn:Ei; [|done].
  apply index_find_Some in Ei as [Ei _]. by apply elem_of_nil in Ei.
Qed.

Lemma index_find_elem code items d : d ∈ items → desc_code d = code → index_find code items ≠ None.
Proof using All. intros Hd Hc E. by apply (index_find_None _ _ E d). Qed.

Lemma mergeInternal_get `{Countable K} (src dest : gmap K (list OptionDescriptor)) k code :
  (∀ k l, src !! k = Some l → l ≠ []) →
  (∀ d, d ∈ getItems k dest → d ∈ getItems k (mergeInternal src dest)) ∧
  (∀ d, index_find code (getItems k (mergeInternal src dest)) = Some d →
        desc_code d = code ∧
        (d ∈ getItems k dest ∨ index_find code (getItems k dest) = None ∧ d ∈ getItems k src)) ∧
  (index_find code (getItems k (mergeInternal src dest)) = None ↔
   index_find code (getItems k dest) = None ∧ index_find code (getItems k src) = None).
Proof using All.
  intros Hsrc. assert (∀ c, index_find c [] = None) as Hnil.
  { intros c. destruct (index_find c []) as [x|] eqn:E; [|done].
    apply index_find_Some in E as [E _]. by apply elem_of_nil in E. }
  destruct (src !! k) as [l|] eqn:E.
  - assert (getItems k src = l) as -> by (unfold getItems; by rewrite E).
    assert (mergeInternal src dest !! k = merge_space k l dest !! k) as Em
      by (by rewrite (mergeInternal_at _ _ _ l)).
    destruct (dest !! k) as [items|] eqn:Ed.
    + assert (getItems k dest = items) as -> by (unfold getItems; by rewrite Ed).
      destruct (merge_space_get k l dest items code Ed) as (items' & E1 & E2 & E3 & E4 & E5).
      assert (getItems k (mergeInternal src dest) = items') as ->
        by (unfold getItems; by rewrite Em, E1).
      split; [done|]. split.
      * intros d [Hd Hc]%index_find_Some. split; [done|].
        destruct (index_find code items) as [y|] eqn:Ey; [|naive_solver].
        apply index_find_Some in Ey as [Hy Hcy]. left. apply (E5 y); [done|done|congruence].
      * split.
        -- intros Hnone.
           assert (index_find code items = None) as Hi.
           { destruct (index_find code items) as [y|] eqn:Ey; [|done]. exfalso.
             apply index_find_Some in Ey as [Hy Hcy].
             by apply (index_find_None _ _ Hnone y); [apply E2|]. }
           split; [done|]. destruct (index_find code l) eqn:El; [|done]. exfalso.
           by apply (E4 Hi).
        -- intros [Hi Hl]. destruct (index_find code items') as [y|] eqn:Ey; [|done]. exfalso.
           apply index_find_Some in Ey as [Hy Hcy]. apply E3 in Hy as [Hy|Hy].
           ++ by apply (index_find_None _ _ Hi y).
           ++ by apply (index_find_None _ _ Hl y).
    + assert (getItems k dest = []) as -> by (unfold getItems; by rewrite Ed).
      assert (getItems k (mergeInternal src dest) = l) as ->.
      { unfold getItems. rewrite Em, merge_space_new; [done|done|by eapply Hsrc]. }
      split; [by intros d ?%elem_of_nil|]. rewrite Hnil. split; [|tauto].
      intros d [Hd Hc]%index_find_Some. auto.
  - assert (getItems k (mergeInternal src dest) = getItems k dest) as ->
      by (unfold getItems; by rewrite mergeInternal_other).
    assert (getItems k src = []) as -> by (unfold getItems; by rewrite E).
    rewrite Hnil. split; [done|]. split; [|tauto]. intros d [Hd Hc]%index_find_Some. auto.
Qed.

(** Merging keeps the options of the destination: an option is looked up among them first and
    among the merged ones only if none of them has its code, and it is found if either has
    it. *)
Theorem mergeTo_get (c other : CfgOption) (space : string) (code : Z) (Hc : spaces_ok c) :
  (∀ d, d ∈ getAll space other → d ∈ getAll space (mergeTo c other)) ∧
  (∀ d, cfg_get space code (mergeTo c other) = Some d →
        desc_code d = code ∧
        (d ∈ getAll space other ∨ cfg_get space code other = None ∧ d ∈ getAll space c)) ∧
  (cfg_get space code (mergeTo c other) = None ↔
   cfg_get space code other = None ∧ cfg_get space code c = None).
Proof using All.
  unfold cfg_get, getAll, mergeTo. rewrite !get_items_index. cbn [cfg_options_].
  apply mergeInternal_get. apply Hc.
Qed.
End Promises.

Definition sample_desc (code : Z) (data : list Z) (persistent : bool) : OptionDescriptor :=
  {| option_ := mkOption code data OptionGeneric (Ok "") (Ok data) []; persistent_ := persistent;
     formatted_value_ := "" |}.
Definition sample_cfg_option (l : list OptionDescriptor) : CfgOption :=
  {| cfg_options_ := {[DHCP4_OPTION_SPACE := l]}; vendor_options_ := ∅ |}.

Lemma sample_spaces_ok l : l ≠ [] → spaces_ok (sample_cfg_option l).
Proof.
  intros Hl. split; intros k x; cbn; [|done].
  intros [_ <-]%lookup_singleton_Some. done.
Qed.

Lemma copyTo_same_witness :
  spaces_ok (sample_cfg_option [sample_desc 6 [1] true; sample_desc 6 [2] true]) ∧
  copyTo (sample_cfg_option [sample_desc 6 [1] true; sample_desc 6 [2] true]) mkCfgOption
  = sample_cfg_option [sample_desc 6 [1] true; sample_desc 6 [2] true].
Proof.
  assert (spaces_ok (sample_cfg_option [sample_desc 6 [1] true; sample_desc 6 [2] true])) as H
    by (by apply sample_spaces_ok).
  split; [exact H|]. exact (copyTo_same _ mkCfgOption H).
Defined.

Lemma mergeTo_get_witness :
  spaces_ok (sample_cfg_option [sample_desc 6 [1] true; sample_desc 3 [3] true]) ∧
  (cfg_get DHCP4_OPTION_SPACE 6 (mergeTo (sample_cfg_option [sample_desc 6 [1] true; sample_desc 3 [3] true])
     (sample_cfg_option [sample_desc 6 [2] true])) = None ↔
   cfg_get DHCP4_OPTION_SPACE 6 (sample_cfg_option [sample_desc 6 [2] true]) = None ∧
   cfg_get DHCP4_OPTION_SPACE 6 (sample_cfg_option [sample_desc 6 [1] true; sample_desc 3 [3] true]) = None).
Proof.
  assert (spaces_ok (sample_cfg_option [sample_desc 6 [1] true; sample_desc 3 [3] true])) as H
    by (by apply sample_spaces_ok).
  split; [exact H|].
  exact (proj2 (proj2 (mergeTo_get _ (sample_cfg_option [sample_desc 6 [2] true])
    DHCP4_OPTION_SPACE 6 H))).
Defined.

(** Two options of one code are merged into a space that is not there, and only the first
    of them into a space that is there. *)
Theorem merge_depends_on_space :
  let c := sample_cfg_option [sample_desc 6 [1] true; sample_desc 6 [2] true] in
  length (getAll DHCP4_OPTION_SPACE (mergeTo c mkCfgOption)) = 2%nat ∧
  length (getAll DHCP4_OPTION_SPACE (mergeTo c (sample_cfg_option [sample_desc 3 [3] true]))) = 2%nat.
Proof. split; vm_compute; reflexivity. Qed.
