(* ===== verification/CfgSubnets.v ===== *)
(** * The configured subnets and the choice of a subnet for a client
      ([src/lib/dhcpsrv/cfg_subnets4.cc], [cfg_subnets6.cc], [network.cc], [cfg_4o6.h],
      [cfg_shared_networks.h])

    A configuration lists its subnets and its shared networks; the server chooses
    the subnet of a client by the addresses, options and interface of the message it got.
    [Heap] has the members of subnets and networks that the allocation engine reads;
    the others, which only the choice reads, are in [Objects], by the same pointers.

    The theorems compare the cascade of loops with the list of criteria that it tries:
    the first criterion that some subnet meets decides, and of these subnets the
    first one is chosen. *)

From stdpp Require Import pretty.
From S2P Require Import Prelude Algorithms IoAddress AddrUtilities Pool Subnet.
From S2P Require Import SharedNetwork Lease Packet.
Local Open Scope Z_scope.

(** ** Networks ([Network], [Network::RelayInfo], [Network6], [Cfg4o6]) *)

Record Network := {
  iface_name_ : string;
  relay_ : list IOAddress;
  interface_id_ : option Option;
  name_ : string
}.

Definition containsAddress (addr : IOAddress) (relay : list IOAddress) : bool :=
  existsb (λ a, equals a addr) relay.
Definition addAddress (addr : IOAddress) (relay : list IOAddress) : res (list IOAddress) :=
  _ ← throw_if (containsAddress addr relay) BadValue;
  mret (relay ++ [addr]).
Definition hasRelays (n : Network) : bool := bool_decide (relay_ n ≠ []).
Definition hasRelayAddress (address : IOAddress) (n : Network) : bool :=
  containsAddress address (relay_ n).

Record Cfg4o6 := {
  enabled_ : bool;
  iface4o6_ : string;
  subnet4o6_ : IOAddress * Z;
  interface_id4o6_ : option Option
}.
Definition mkCfg4o6 : Cfg4o6 :=
  {| enabled_ := false; iface4o6_ := ""; subnet4o6_ := (IPV6_ZERO_ADDRESS, 128);
     interface_id4o6_ := None |}.
Definition setIface4o6 (iface : string) (c : Cfg4o6) : Cfg4o6 :=
  {| enabled_ := true; iface4o6_ := iface; subnet4o6_ := subnet4o6_ c;
     interface_id4o6_ := interface_id4o6_ c |}.
Definition setSubnet4o6 (subnet : IOAddress) (prefix : Z) (c : Cfg4o6) : Cfg4o6 :=
  {| enabled_ := true; iface4o6_ := iface4o6_ c; subnet4o6_ := (subnet, prefix);
     interface_id4o6_ := interface_id4o6_ c |}.
Definition setInterfaceId4o6 (opt : option Option) (c : Cfg4o6) : Cfg4o6 :=
  {| enabled_ := true; iface4o6_ := iface4o6_ c; subnet4o6_ := subnet4o6_ c;
     interface_id4o6_ := opt |}.

(** The objects of a configuration. *)
Record Objects := {
  heap : Heap;
  subnet_net : gmap Z Network;
  network_net : gmap Z Network;
  get4o6 : gmap Z Cfg4o6
}.

Definition follow {A} (m : gmap Z A) (p : Z) : res A :=
  match m !! p with Some x => Ok x | None => Throw AssertionFailure end.

(** The members of the shared network of a subnet, if it belongs to one. *)
Definition shared_network (o : Objects) (s : Subnet) : res (option Network) :=
  match shared_network_ s with
  | None => mret None
  | Some n => x ← follow (network_net o) n; mret (Some x)
  end.

(** [a && b] of calls that may throw. *)
Definition andalso (a b : res bool) : res bool := x ← a; if x : bool then b else mret false.

(** [for (subnet : subnets_) if (cond) return (subnet);] *)
Fixpoint first_subnet (cond : Z → res bool) (l : list Z) : res (option Z) :=
  match l with
  | [] => mret None
  | p :: l' => b ← cond p; if b : bool then mret (Some p) else first_subnet cond l'
  end.

(** ** The container of subnets *)

Section Container.
Context `{AddressText}.

(** [Subnet::toText]. *)
Definition subnet_toText (s : Subnet) : string :=
  address_toText (prefix_ s) +:+ "/" +:+ pretty (subnet_len_ s).

Definition has_prefix (h : Heap) (text : string) (p : Z) : Prop :=
  subnet_toText <$> subnets h !! p = Some text.
#[export] Instance has_prefix_dec h t p : Decision (has_prefix h t p).
Proof. unfold has_prefix. apply _. Defined.

Definition getBySubnetId (h : Heap) (l : list Z) (subnet_id : Z) : option Z :=
  snd <$> list_find (has_id h subnet_id) l.
Definition getByPrefix (h : Heap) (l : list Z) (subnet_text : string) : option Z :=
  snd <$> list_find (has_prefix h subnet_text) l.

(** [CfgSubnets4::add] and [CfgSubnets6::add]; the result is the new container. *)
Definition cfg_add (h : Heap) (subnet : Z) (l : list Z) : res (list Z) :=
  s ← subnet_at h subnet;
  match getBySubnetId h l (id_ s) with
  | Some _ => Throw DuplicateSubnetID
  | None =>
      match getByPrefix h l (subnet_toText s) with
      | Some _ => Throw DuplicateSubnetID
      | None => mret (l ++ [subnet])
      end
  end.

(** [CfgSubnets4::del] and [CfgSubnets6::del]. *)
Definition cfg_del (h : Heap) (subnet : Z) (l : list Z) : res (list Z) :=
  s ← subnet_at h subnet;
  match list_find (has_id h (id_ s)) l with
  | None => Throw BadValue
  | Some (i, _) => mret (delete i l)
  end.
End Container.

(** [getSubnet], the full scan. *)
Definition cfg_getSubnet (h : Heap) (l : list Z) (id : Z) : res (option Z) :=
  first_subnet (λ p, s ← subnet_at h p; mret (id_ s =? id)) l.

(** ** The container of shared networks *)

Definition has_name (o : Objects) (name : string) (n : Z) : Prop :=
  name_ <$> network_net o !! n = Some name.
#[export] Instance has_name_dec o name n : Decision (has_name o name n).
Proof. unfold has_name. apply _. Defined.

Definition getByName (o : Objects) (name : string) (l : list Z) : option Z :=
  snd <$> list_find (has_name o name) l.

Definition networks_add (o : Objects) (network : Z) (l : list Z) : res (list Z) :=
  n ← follow (network_net o) network;
  _ ← throw_if (bool_decide (getByName o (name_ n) l ≠ None)) BadValue;
  mret (l ++ [network]).

Definition networks_del (o : Objects) (name : string) (l : list Z) : ST Heap (list Z) :=
  match list_find (has_name o name) l with
  | Some (i, n) => _ ← network_delAll n; mret (delete i l)
  | None => throw BadValue
  end.

(** ** What is read from the message of a client *)

Record SubnetSelector := {
  ciaddr_ : IOAddress;
  giaddr_ : IOAddress;
  option_select_ : IOAddress;
  sel_interface_id_ : option Option;
  first_relay_linkaddr_ : IOAddress;
  local_address_ : IOAddress;
  remote_address_ : IOAddress;
  client_classes_ : ClientClasses;
  sel_iface_name_ : string
}.

(** The address in the Link Selection suboption of the relay agent, or else in the Subnet
    Selection option. *)
Definition option_select (query : Pkt) : res IOAddress :=
  match getOption query DHO_DHCP_AGENT_OPTIONS with
  | Some rai =>
      match option_class_ rai with
      | OptionCustom _ =>
          match suboption rai RAI_OPTION_LINK_SELECTION with
          | Some link_select =>
              if (length (option_data_ link_select) =? 4)%nat
              then fromBytes AF_INET (option_data_ link_select) else mret IPV4_ZERO_ADDRESS
          | None => mret IPV4_ZERO_ADDRESS
          end
      | _ => mret IPV4_ZERO_ADDRESS
      end
  | None =>
      match getOption query DHO_SUBNET_SELECTION with
      | Some sbnsel =>
          match option_class_ sbnsel with
          | OptionCustom buffers => readAddress buffers 0
          | _ => mret IPV4_ZERO_ADDRESS
          end
      | None => mret IPV4_ZERO_ADDRESS
      end
  end.

(** [CfgSubnets4::initSelector], on a [Pkt4]. *)
Definition initSelector4 (query : Pkt) : res SubnetSelector :=
  match pkt_kind query with
  | Pkt4 _ ciaddr _ _ giaddr =>
      select ← option_select query;
      mret {| ciaddr_ := ciaddr; giaddr_ := giaddr; option_select_ := select;
              sel_interface_id_ := None; first_relay_linkaddr_ := IPV6_ZERO_ADDRESS;
              local_address_ := local_addr_ query; remote_address_ := remote_addr_ query;
              client_classes_ := classes_ query; sel_iface_name_ := iface_ query |}
  | Pkt6 _ _ => Throw AssertionFailure
  end.

(** The link address of the relay closest to the client that has one of use. *)
Definition first_linkaddr (relay_info : list RelayInfo) : IOAddress :=
  match list_find (λ r, negb (isV6Zero (linkaddr_ r)) && negb (isV6LinkLocal (linkaddr_ r)))
          (reverse relay_info) with
  | Some (_, r) => linkaddr_ r
  | None => IPV6_ZERO_ADDRESS
  end.

(** [CfgSubnets6::initSelector], on a [Pkt6]. *)
Definition initSelector6 (query : Pkt) : res SubnetSelector :=
  match pkt_kind query with
  | Pkt6 _ relay_info =>
      interface_id ← (if bool_decide (relay_info = []) then mret None
                      else getAnyRelayOption relay_info D6O_INTERFACE_ID RELAY_GET_FIRST);
      mret {| ciaddr_ := IPV4_ZERO_ADDRESS; giaddr_ := IPV4_ZERO_ADDRESS;
              option_select_ := IPV4_ZERO_ADDRESS; sel_interface_id_ := interface_id;
              first_relay_linkaddr_ := first_linkaddr relay_info;
              local_address_ := IPV4_ZERO_ADDRESS; remote_address_ := remote_addr_ query;
              client_classes_ := classes_ query; sel_iface_name_ := iface_ query |}
  | Pkt4 _ _ _ _ _ => Throw AssertionFailure
  end.

(** ** The choice *)

(** The interfaces of the machine with their addresses, in the order of [IfaceMgr]. *)
Abbreviation Ifaces := (list (string * list IOAddress)).
Definition getIface (ifaces : Ifaces) (ifname : string) : option (list IOAddress) :=
  snd ∘ snd <$> list_find (λ i, i.1 = ifname) ifaces.
(** [Iface::getAddress4]: the argument keeps its value if there is no IPv4 address. *)
Definition getAddress4 (iface : list IOAddress) (address : IOAddress) : IOAddress :=
  match list_find isV4 iface with Some (_, a) => a | None => address end.

Section Select.
Context (o : Objects) (subnets_ : list Z).

(** [subnet->clientSupported(classes)] and [subnet->inRange(address)]. *)
Definition supported (classes : ClientClasses) (p : Z) : res bool :=
  s ← subnet_at (heap o) p; clientSupported (heap o) s classes.
Definition subnet_inRange (address : IOAddress) (p : Z) : res bool :=
  s ← subnet_at (heap o) p; inRange s address.

(** [selectSubnet(address, client_classes)]. *)
Definition selectSubnet4_address (address : IOAddress) (classes : ClientClasses) :
    res (option Z) :=
  first_subnet (λ p, andalso (subnet_inRange address p) (supported classes p)) subnets_.

Definition iface_matches (iface : string) (p : Z) : res bool :=
  n ← follow (subnet_net o) p;
  if bool_decide (iface_name_ n ≠ "") then mret (bool_decide (iface_name_ n = iface))
  else
    s ← subnet_at (heap o) p;
    network ← shared_network o s;
    mret match network with
         | Some x => bool_decide (iface_name_ x ≠ "") && bool_decide (iface_name_ x = iface)
         | None => false
         end.

(** [selectSubnet(iface, client_classes)]. *)
Definition selectSubnet4_iface (iface : string) (classes : ClientClasses) : res (option Z) :=
  first_subnet (λ p, andalso (iface_matches iface p) (supported classes p)) subnets_.

(** The relays of the subnet, or else those of its network, have the address. *)
Definition relay_matches (giaddr : IOAddress) (p : Z) : res bool :=
  n ← follow (subnet_net o) p;
  if hasRelays n then mret (hasRelayAddress giaddr n)
  else
    s ← subnet_at (heap o) p;
    network ← shared_network o s;
    mret match network with Some x => hasRelayAddress giaddr x | None => false end.

Definition selectSubnet4_relay (giaddr : IOAddress) (classes : ClientClasses) :
    res (option Z) :=
  first_subnet (λ p, andalso (relay_matches giaddr p) (supported classes p)) subnets_.

(** The address that is matched with the prefixes of the subnets, or the subnet
    that belongs to the interface. *)
Definition address_to_match (ifaces : Ifaces) (selector : SubnetSelector) :
    res (IOAddress + Z) :=
  if negb (isV4Zero (giaddr_ selector)) then mret (inl (giaddr_ selector))
  else if negb (isV4Zero (ciaddr_ selector)) && negb (isV4Bcast (local_address_ selector))
  then mret (inl (ciaddr_ selector))
  else if negb (isV4Zero (remote_address_ selector)) && negb (isV4Bcast (local_address_ selector))
  then mret (inl (remote_address_ selector))
  else if bool_decide (sel_iface_name_ selector ≠ "") then
    match getIface ifaces (sel_iface_name_ selector) with
    | None => Throw BadValue
    | Some iface =>
        subnet ← selectSubnet4_iface (sel_iface_name_ selector) (client_classes_ selector);
        mret match subnet with
             | Some p => inr p
             | None => inl (getAddress4 iface IPV4_ZERO_ADDRESS)
             end
    end
  else mret (inl IPV4_ZERO_ADDRESS).

(** [CfgSubnets4::selectSubnet(selector)]. *)
Definition selectSubnet4 (ifaces : Ifaces) (selector : SubnetSelector) : res (option Z) :=
  if negb (isV4Zero (option_select_ selector)) then
    selectSubnet4_address (option_select_ selector) (client_classes_ selector)
  else
    relayed ← (if negb (isV4Zero (giaddr_ selector)) then
                 selectSubnet4_relay (giaddr_ selector) (client_classes_ selector)
               else mret None);
    match relayed with
    | Some p => mret (Some p)
    | None =>
        found ← address_to_match ifaces selector;
        match found with
        | inr p => mret (Some p)
        | inl address =>
            if isV4Zero address then mret None
            else selectSubnet4_address address (client_classes_ selector)
        end
    end.

(** The criteria of [selectSubnet4o6] for one subnet. *)
Definition matches4o6 (selector : SubnetSelector) (p : Z) : res bool :=
  cfg4o6 ← follow (get4o6 o) p;
  if negb (enabled_ cfg4o6) then mret false
  else
    let '(prefix, len) := subnet4o6_ cfg4o6 in
    in_prefix ← (if negb (isV6Zero prefix) then
                   first ← firstAddrInPrefix prefix len;
                   last ← lastAddrInPrefix prefix len;
                   mret (smallerEqual first (remote_address_ selector)
                         && smallerEqual (remote_address_ selector) last)
                 else mret false);
    if in_prefix : bool then mret true
    else if match interface_id4o6_ cfg4o6, sel_interface_id_ selector with
            | Some i, Some j => option_equals i j
            | _, _ => false
            end then mret true
    else mret (bool_decide (iface4o6_ cfg4o6 ≠ "") && bool_decide (sel_iface_name_ selector ≠ "")
               && bool_decide (iface4o6_ cfg4o6 = sel_iface_name_ selector)).

Definition selectSubnet4o6 (selector : SubnetSelector) : res (option Z) :=
  first_subnet (matches4o6 selector) subnets_.

(** [CfgSubnets6::selectSubnet(address, client_classes, is_relay_address)]. *)
Definition selectSubnet6_address (address : IOAddress) (classes : ClientClasses)
    (is_relay_address : bool) : res (option Z) :=
  relayed ← (if is_relay_address then
               first_subnet (λ p, n ← follow (subnet_net o) p;
                 andalso (mret (hasRelayAddress address n)) (supported classes p)) subnets_
             else mret None);
  match relayed with
  | Some p => mret (Some p)
  | None => first_subnet (λ p, andalso (subnet_inRange address p) (supported classes p)) subnets_
  end.

(** [CfgSubnets6::selectSubnet(iface_name, client_classes)]. *)
Definition selectSubnet6_iface (iface_name : string) (classes : ClientClasses) :
    res (option Z) :=
  if bool_decide (iface_name ≠ "") then
    first_subnet (λ p, n ← follow (subnet_net o) p;
      andalso (mret (bool_decide (iface_name = iface_name_ n))) (supported classes p)) subnets_
  else mret None.

(** [CfgSubnets6::selectSubnet(interface_id, client_classes)]. *)
Definition selectSubnet6_id (interface_id : option Option) (classes : ClientClasses) :
    res (option Z) :=
  match interface_id with
  | Some id =>
      first_subnet (λ p, n ← follow (subnet_net o) p;
        andalso (mret match interface_id_ n with Some i => option_equals i id | None => false end)
          (supported classes p)) subnets_
  | None => mret None
  end.

(** [CfgSubnets6::selectSubnet(selector)]. *)
Definition selectSubnet6 (selector : SubnetSelector) : res (option Z) :=
  let classes := client_classes_ selector in
  if isV6Zero (first_relay_linkaddr_ selector) then
    subnet ← (if bool_decide (sel_iface_name_ selector ≠ "")
              then selectSubnet6_iface (sel_iface_name_ selector) classes else mret None);
    match subnet with
    | None => if negb (isV6Zero (remote_address_ selector))
              then selectSubnet6_address (remote_address_ selector) classes false
              else mret None
    | Some p => mret (Some p)
    end
  else
    subnet ← selectSubnet6_id (sel_interface_id_ selector) classes;
    match subnet with
    | None => selectSubnet6_address (first_relay_linkaddr_ selector) classes true
    | Some p => mret (Some p)
    end.
End Select.

(** ** The criteria of the choice *)

(** What a subnet can be chosen by.  The relays and the interface of a shared network
    count for DHCPv4 only, and only if the subnet has none of its own. *)
Inductive Criterion :=
  | ByAddress (address : IOAddress)
  | ByRelay (address : IOAddress)
  | ByIface (name : string)
  | ByOwnRelay (address : IOAddress)
  | ByOwnIface (name : string)
  | ByInterfaceId (id : Option).

(** The criteria that [selectSubnet4] and [selectSubnet6] try, in their order. *)
Definition criteria4 (ifaces : Ifaces) (sel : SubnetSelector) : list Criterion :=
  let by_address a := if isV4Zero a then [] else [ByAddress a] in
  if negb (isV4Zero (option_select_ sel)) then [ByAddress (option_select_ sel)]
  else if negb (isV4Zero (giaddr_ sel)) then [ByRelay (giaddr_ sel); ByAddress (giaddr_ sel)]
  else if negb (isV4Bcast (local_address_ sel)) && negb (isV4Zero (ciaddr_ sel))
  then [ByAddress (ciaddr_ sel)]
  else if negb (isV4Bcast (local_address_ sel)) && negb (isV4Zero (remote_address_ sel))
  then [ByAddress (remote_address_ sel)]
  else match getIface ifaces (sel_iface_name_ sel) with
       | Some iface =>
           if bool_decide (sel_iface_name_ sel = "") then []
           else ByIface (sel_iface_name_ sel) :: by_address (getAddress4 iface IPV4_ZERO_ADDRESS)
       | None => []
       end.

Definition criteria6 (sel : SubnetSelector) : list Criterion :=
  if isV6Zero (first_relay_linkaddr_ sel) then
    (if bool_decide (sel_iface_name_ sel = "") then [] else [ByOwnIface (sel_iface_name_ sel)])
    ++ (if isV6Zero (remote_address_ sel) then [] else [ByAddress (remote_address_ sel)])
  else
    (ByInterfaceId <$> option_list (sel_interface_id_ sel))
    ++ [ByOwnRelay (first_relay_linkaddr_ sel); ByAddress (first_relay_linkaddr_ sel)].

(** The only selector without an answer: it names an interface that is not there and
    has no address to use. *)
Definition no_interface (ifaces : Ifaces) (sel : SubnetSelector) : Prop :=
  isV4Zero (option_select_ sel) ∧ isV4Zero (giaddr_ sel) ∧
  (isV4Bcast (local_address_ sel) ∨ isV4Zero (ciaddr_ sel) ∧ isV4Zero (remote_address_ sel)) ∧
  sel_iface_name_ sel ≠ "" ∧ getIface ifaces (sel_iface_name_ sel) = None.

Section Spec.
Context (o : Objects) (subnets_ : list Z).

(** The subnet with the members of it that are read, and those of its network. *)
Definition is_subnet (p : Z) (s : Subnet) (n : Network) : Prop :=
  subnets (heap o) !! p = Some s ∧ subnet_net o !! p = Some n.
Definition has_network (s : Subnet) (x : Network) : Prop :=
  ∃ m, shared_network_ s = Some m ∧ network_net o !! m = Some x.

(** The classes of the client are those that the subnet and its network ask for. *)
Definition allows (classes : ClientClasses) (p : Z) : Prop :=
  ∃ s, subnets (heap o) !! p = Some s ∧
    (client_class_ s = "" ∨ contains classes (client_class_ s)) ∧
    ∀ m net, shared_network_ s = Some m → networks (heap o) !! m = Some net →
      net_class_ net = "" ∨ contains classes (net_class_ net).

Definition meets (c : Criterion) (p : Z) : Prop :=
  ∃ s n, is_subnet p s n ∧
    match c with
    | ByAddress a => subnet_contains s a
    | ByRelay a => a ∈ relay_ n ∨ relay_ n = [] ∧ ∃ x, has_network s x ∧ a ∈ relay_ x
    | ByIface i => i ≠ "" ∧ (iface_name_ n = i ∨
                   iface_name_ n = "" ∧ ∃ x, has_network s x ∧ iface_name_ x = i)
    | ByOwnRelay a => a ∈ relay_ n
    | ByOwnIface i => iface_name_ n = i
    | ByInterfaceId id => ∃ i, interface_id_ n = Some i ∧ option_type_ i = option_type_ id ∧
                               option_data_ i = option_data_ id
    end.

(** The first subnet of the configuration with a property. *)
Definition is_first (P : Z → Prop) (p : Z) : Prop :=
  ∃ i, subnets_ !! i = Some p ∧ P p ∧ ∀ j q, (j < i)%nat → subnets_ !! j = Some q → ¬ P q.

(** [r] is the first subnet that meets the first of the criteria that one meets. *)
Fixpoint chosen (classes : ClientClasses) (cs : list Criterion) (r : option Z) : Prop :=
  match cs with
  | [] => r = None
  | c :: cs' =>
      (∃ p, r = Some p ∧ is_first (λ p, meets c p ∧ allows classes p) p) ∨
      (∀ p, p ∈ subnets_ → ¬ (meets c p ∧ allows classes p)) ∧ chosen classes cs' r
  end.

(** The pointers of the configuration are those of its objects. *)
Definition wf_objects : Prop :=
  ∀ p, p ∈ subnets_ → ∃ s n, is_subnet p s n ∧ wf_subnet s ∧
    ∀ m, shared_network_ s = Some m → is_Some (networks (heap o) !! m) ∧
                                      is_Some (network_net o !! m).
Context (Hwf : wf_objects).

(** A condition of a loop decides a property of the subnets of the configuration. *)
Definition decides (cond : Z → res bool) (P : Z → Prop) : Prop :=
  ∀ p, p ∈ subnets_ → ∃ b, cond p = Ok b ∧ (b = true ↔ P p).

Lemma andalso_decides f g P Q :
  decides f P → decides g Q → decides (λ p, andalso (f p) (g p)) (λ p, P p ∧ Q p).
Proof.
  intros Hf Hg p Hp. destruct (Hf p Hp) as (b & E & Hb), (Hg p Hp) as (b' & E' & Hb').
  unfold andalso. rewrite E. cbn. destruct b.
  - rewrite E'. exists b'. naive_solver.
  - exists false. naive_solver.
Qed.

Lemma first_subnet_spec cond P :
  decides cond P →
  ∃ r, first_subnet cond subnets_ = Ok r ∧
    match r with Some p => is_first P p | None => ∀ p, p ∈ subnets_ → ¬ P p end.
Proof.
  unfold decides, is_first. clear Hwf. induction subnets_ as [|q l IH]; intros H.
  { exists None. split; [done|]. intros p Hp. by apply not_elem_of_nil in Hp. }
  destruct (H q ltac:(left)) as (b & E & Hb). cbn [first_subnet]. rewrite E.
  cbn [mbind res_bind]. destruct b.
  { exists (Some q). split; [done|]. exists 0%nat. split; [done|]. split; [by apply Hb|]. lia. }
  assert (¬ P q) as Hq by (intros ?%Hb; done).
  destruct IH as (r & -> & Hr); [by intros p Hp; apply H; right|]. exists r. split; [done|].
  destruct r as [p|].
  - destruct Hr as (i & Hi & HP & Hj). exists (S i). split; [done|]. split; [done|].
    intros [|j] q' Hlt; [by intros [= <-]|]. intros Hq'. apply (Hj j); [lia|done].
  - intros p [->|Hp]%elem_of_cons; [done|by apply Hr].
Qed.

Lemma subnet_inRange_decides a : decides (subnet_inRange o a) (meets (ByAddress a)).
Proof using Hwf.
  intros p Hp. destruct (Hwf p Hp) as (s & n & [Es En] & Hs & _).
  unfold subnet_inRange, subnet_at. rewrite Es. cbn. rewrite inRange_Ok by done.
  eexists. split; [done|]. rewrite bool_decide_eq_true. unfold meets, is_subnet.
  split; [by exists s, n|]. intros (s' & n' & [E _] & ?). by simplify_eq.
Qed.

Lemma supported_decides classes : decides (supported o classes) (allows classes).
Proof using Hwf.
  intros p Hp. destruct (Hwf p Hp) as (s & n & [Es En] & Hs & Hnet).
  unfold supported, subnet_at, allows. rewrite Es. cbn. unfold clientSupported, network_at.
  assert (∀ c, network_clientSupported c classes = true ↔ c = "" ∨ contains classes c) as Hc.
  { intros c. unfold network_clientSupported.
    case_bool_decide; [naive_solver|]. rewrite <- Is_true_true. naive_solver. }
  destruct (shared_network_ s) as [m|] eqn:Em; cbn.
  - destruct (Hnet m eq_refl) as [[net En'] _]. rewrite En'. cbn.
    destruct (network_clientSupported (net_class_ net) classes) eqn:E1; cbn; eexists;
      (split; [done|]).
    + apply Hc in E1. rewrite Hc. split.
      * intros ?. exists s. split_and!; [done|done|]. intros; by simplify_eq.
      * intros (? & ? & ? & _). by simplify_eq.
    + split; [done|]. intros (? & ? & _ & H). simplify_eq.
      by rewrite (proj2 (Hc _) (H m net Em En')) in E1.
  - eexists. split; [done|]. rewrite Hc. split.
    + intros ?. exists s. split_and!; [done|done|]. intros; by simplify_eq.
    + intros (? & ? & ? & _). by simplify_eq.
Qed.

(** Every other condition reads the members of the subnet and of its network. *)
Lemma network_of p s n :
  p ∈ subnets_ → is_subnet p s n →
  ∃ x, shared_network o s = Ok x ∧ ∀ y, x = Some y ↔ has_network s y.
Proof using Hwf.
  intros Hp [Es En]. destruct (Hwf p Hp) as (s' & n' & [Es' _] & _ & Hnet). simplify_eq.
  unfold shared_network, follow, has_network. destruct (shared_network_ s) as [m|] eqn:Em.
  - destruct (Hnet m eq_refl) as [_ [x Hx]]. rewrite Hx. exists (Some x). naive_solver.
  - exists None. naive_solver.
Qed.

Lemma containsAddress_true a l : containsAddress a l = true ↔ a ∈ l.
Proof.
  unfold containsAddress. rewrite existsb_exists. split.
  - intros (b & Hb & E%bool_decide_eq_true). subst b. by apply list_elem_of_In.
  - intros Ha. exists a. split; [by apply list_elem_of_In|]. by apply bool_decide_eq_true.
Qed.

Lemma relay_matches_decides a : decides (relay_matches o a) (meets (ByRelay a)).
Proof using Hwf.
  intros p Hp. destruct (Hwf p Hp) as (s & n & Hsn & _). pose proof Hsn as [Es En].
  destruct (network_of p s n Hp Hsn) as (x & Ex & Hx).
  unfold relay_matches, follow, subnet_at. rewrite En. cbn [mbind res_bind].
  unfold hasRelays, hasRelayAddress. case_bool_decide as Hr.
  - eexists. split; [done|]. rewrite containsAddress_true. split.
    + intros Ha. exists s, n. naive_solver.
    + intros (s' & n' & [E1 E2] & ?). simplify_eq. naive_solver.
  - rewrite Es. cbn [mbind res_bind]. rewrite Ex. eexists. split; [done|].
    destruct x as [y|]; [rewrite containsAddress_true|]; split.
    + intros Ha. exists s, n. split; [done|]. right. split; [done|]. exists y. naive_solver.
    + intros (s' & n' & [E1 E2] & H). simplify_eq. destruct H as [H|(_ & z & Hz & ?)].
      { rewrite Hr in H. by apply not_elem_of_nil in H. }
      apply Hx in Hz. by simplify_eq.
    + done.
    + intros (s' & n' & [E1 E2] & H). simplify_eq. destruct H as [H|(_ & z & Hz & ?)].
      { rewrite Hr in H. by apply not_elem_of_nil in H. }
      by apply Hx in Hz.
Qed.

Lemma iface_matches_decides i : i ≠ "" → decides (iface_matches o i) (meets (ByIface i)).
Proof using Hwf.
  intros Hi p Hp. destruct (Hwf p Hp) as (s & n & Hsn & _). pose proof Hsn as [Es En].
  destruct (network_of p s n Hp Hsn) as (x & Ex & Hx).
  unfold iface_matches, follow, subnet_at. rewrite En. cbn [mbind res_bind].
  case_bool_decide as Hn.
  - eexists. split; [done|]. rewrite bool_decide_eq_true. split.
    + intros ?. exists s, n. naive_solver.
    + intros (s' & n' & [E1 E2] & ? & H). simplify_eq. naive_solver.
  - rewrite Es. cbn [mbind res_bind]. rewrite Ex. eexists. split; [done|].
    destruct x as [y|]; [rewrite andb_true_iff, !bool_decide_eq_true|]; split.
    + intros [_ ?]. exists s, n. split_and!; [done|done|]. right. split; [done|].
      exists y. naive_solver.
    + intros (s' & n' & [E1 E2] & _ & H). simplify_eq.
      destruct H as [H|(_ & z & Hz & ?)]; [congruence|]. apply Hx in Hz. by simplify_eq.
    + done.
    + intros (s' & n' & [E1 E2] & _ & H). simplify_eq.
      destruct H as [H|(_ & z & Hz & ?)]; [congruence|]. by apply Hx in Hz.
Qed.

(** A condition on the members of the subnet alone. *)
Lemma own_decides f g classes c :
  (∀ s n, f n = true ↔ g s n) →
  (∀ p, meets c p ↔ ∃ s n, is_subnet p s n ∧ g s n) →
  decides (λ p, n ← follow (subnet_net o) p; andalso (mret (f n)) (supported o classes p))
    (λ p, meets c p ∧ allows classes p).
Proof using Hwf.
  intros Hfg Hc. set (h := λ p, n ← follow (subnet_net o) p; mret (f n)).
  assert (decides (λ p, andalso (h p) (supported o classes p))
            (λ p, meets c p ∧ allows classes p)) as H.
  { apply andalso_decides; [|apply supported_decides].
    intros p Hp. destruct (Hwf p Hp) as (s & n & Hsn & _). pose proof Hsn as [Es En].
    unfold h, follow. rewrite En. eexists. split; [done|]. rewrite Hc, (Hfg s). split.
    - intros ?. by exists s, n.
    - intros (s' & n' & [E1 E2] & ?). by simplify_eq. }
  intros p Hp. destruct (H p Hp) as (b & E & Hb). exists b. split; [|done]. rewrite <- E.
  unfold h. by destruct (follow (subnet_net o) p).
Qed.

(** ** The choice follows the criteria *)

(** A loop over the subnets, followed by what the code does if it finds none. *)
Lemma chosen_cons c classes cs cond k :
  decides cond (λ p, meets c p ∧ allows classes p) →
  (∃ r, k = Ok r ∧ chosen classes cs r) →
  ∃ r, (x ← first_subnet cond subnets_; match x with Some p => mret (Some p) | None => k end)
         = Ok r ∧ chosen classes (c :: cs) r.
Proof.
  intros Hd (r' & Hk & Hr'). destruct (first_subnet_spec _ _ Hd) as (r & -> & Hr).
  cbn [mbind res_bind]. destruct r as [p|].
  - exists (Some p). split; [done|]. left. by exists p.
  - exists r'. split; [done|]. by right.
Qed.

Lemma chosen_one c classes cond :
  decides cond (λ p, meets c p ∧ allows classes p) →
  ∃ r, first_subnet cond subnets_ = Ok r ∧ chosen classes [c] r.
Proof.
  intros Hd. destruct (first_subnet_spec _ _ Hd) as (r & -> & Hr). exists r. split; [done|].
  destruct r as [p|]; [left; by exists p|by right].
Qed.

Lemma by_address a classes :
  decides (λ p, andalso (subnet_inRange o a p) (supported o classes p))
    (λ p, meets (ByAddress a) p ∧ allows classes p).
Proof using Hwf.
  apply andalso_decides; [apply subnet_inRange_decides|apply supported_decides].
Qed.

Lemma chosen_nil classes : ∃ r, Ok None = Ok r ∧ chosen classes [] r.
Proof. by exists None. Qed.

Lemma address_spec a classes :
  ∃ r, (if isV4Zero a then mret None else selectSubnet4_address o subnets_ a classes) = Ok r ∧
    chosen classes (if isV4Zero a then [] else [ByAddress a]) r.
Proof using Hwf.
  destruct (isV4Zero a); [by apply chosen_nil|]. apply chosen_one, by_address.
Qed.

(** What is tried after the relays. *)
Definition match_found (classes : ClientClasses) (found : IOAddress + Z) : res (option Z) :=
  match found with
  | inr p => mret (Some p)
  | inl address => if isV4Zero address then mret None
                   else selectSubnet4_address o subnets_ address classes
  end.

Lemma by_iface_spec (ifaces : Ifaces) name classes :
  let k := (found ← (if bool_decide (name ≠ "") then
      match getIface ifaces name with
      | None => Throw BadValue
      | Some iface =>
          subnet ← selectSubnet4_iface o subnets_ name classes;
          mret match subnet with
               | Some p => inr p
               | None => inl (getAddress4 iface IPV4_ZERO_ADDRESS)
               end
      end else mret (inl IPV4_ZERO_ADDRESS)); match_found classes found) in
  let cs := match getIface ifaces name with
            | Some iface =>
                if bool_decide (name = "") then []
                else ByIface name :: (if isV4Zero (getAddress4 iface IPV4_ZERO_ADDRESS) then []
                                      else [ByAddress (getAddress4 iface IPV4_ZERO_ADDRESS)])
            | None => []
            end in
  (name ≠ "" ∧ getIface ifaces name = None → k = Throw BadValue) ∧
  (¬ (name ≠ "" ∧ getIface ifaces name = None) → ∃ r, k = Ok r ∧ chosen classes cs r).
Proof using Hwf.
  intros k cs. subst k cs. destruct (decide (name = "")) as [Hi|Hi].
  { rewrite bool_decide_eq_false_2 by naive_solver. split; [naive_solver|]. intros _.
    destruct (getIface _ _); [rewrite bool_decide_eq_true_2 by done|]; apply chosen_nil. }
  rewrite bool_decide_eq_true_2 by done.
  destruct (getIface ifaces name) as [iface|]; [|split; [done|naive_solver]].
  split; [naive_solver|]. intros _. rewrite bool_decide_eq_false_2 by done.
  pose proof (andalso_decides _ _ _ _ (iface_matches_decides _ Hi) (supported_decides classes))
    as Hd.
  destruct (chosen_cons _ _ _ _ _ Hd (address_spec (getAddress4 iface IPV4_ZERO_ADDRESS) classes))
    as (r & Er & Hch).
  exists r. split; [|done]. rewrite <- Er. unfold selectSubnet4_iface.
  by destruct (first_subnet _ _) as [[p|]|].
Qed.

Lemma address_to_match_spec ifaces sel :
  isV4Zero (option_select_ sel) = true → isV4Zero (giaddr_ sel) = true →
  let k := (found ← address_to_match o subnets_ ifaces sel;
            match_found (client_classes_ sel) found) in
  (no_interface ifaces sel → k = Throw BadValue) ∧
  (¬ no_interface ifaces sel →
   ∃ r, k = Ok r ∧ chosen (client_classes_ sel) (criteria4 ifaces sel) r).
Proof using Hwf.
  intros Ho Hg. unfold address_to_match, criteria4, no_interface. rewrite Ho, Hg. cbn [negb andb].
  destruct (by_iface_spec ifaces (sel_iface_name_ sel) (client_classes_ sel)) as [H1 H2].
  destruct (isV4Bcast (local_address_ sel)), (isV4Zero (ciaddr_ sel)) eqn:Hc,
    (isV4Zero (remote_address_ sel)) eqn:Hr; cbn [negb andb];
    try (split; [intros (_ & _ & _ & ? & ?); by apply H1|intros H; apply H2; naive_solver]);
    (split; [intros (_ & _ & ? & _); naive_solver|]; intros _; cbn [mbind res_bind mret res_ret];
     unfold match_found; rewrite ?Hc, ?Hr; apply chosen_one, by_address).
Qed.
End Spec.

(** C36: The subnet of a DHCPv4 client is the first one that meets the first of the criteria:
    the address of the Link Selection or Subnet Selection option, or else the relay and
    then the address of the relay, or else the address of the client, or else the interface
    and then its address.  A subnet is chosen only for a client whose classes it and its
    network allow; no selector makes the choice fail but one with the name of an interface
    that does not exist and no address. *)
Theorem selectSubnet4_spec (o : Objects) (l : list Z) (ifaces : Ifaces) (sel : SubnetSelector)
    (Hwf : wf_objects o l) :
  (no_interface ifaces sel → selectSubnet4 o l ifaces sel = Throw BadValue) ∧
  (¬ no_interface ifaces sel →
   ∃ r, selectSubnet4 o l ifaces sel = Ok r ∧
     chosen o l (client_classes_ sel) (criteria4 ifaces sel) r).
Proof.
  unfold selectSubnet4.
  destruct (isV4Zero (option_select_ sel)) eqn:Ho; cbn [negb].
  2: { split; [intros [E _]; by rewrite Ho in E|]. intros _. unfold criteria4. rewrite Ho.
       by apply chosen_one, by_address. }
  destruct (isV4Zero (giaddr_ sel)) eqn:Hg; cbn [negb].
  { cbn [mbind res_bind]. by apply address_to_match_spec. }
  split; [intros (_ & E & _); by rewrite Hg in E|]. intros _.
  unfold criteria4, address_to_match. rewrite Ho, Hg. cbn [negb mbind res_bind].
  apply (chosen_cons o l (ByRelay (giaddr_ sel))).
  - apply andalso_decides; [by apply relay_matches_decides|by apply supported_decides].
  - pose proof (address_spec o l Hwf (giaddr_ sel) (client_classes_ sel)) as H.
    cbn [mbind res_bind mret res_ret]. rewrite Hg in H |- *. exact H.
Qed.

(** ** The choice of a DHCPv6 subnet *)

Section Spec6.
Context (o : Objects) (l : list Z) (Hwf : wf_objects o l).

Lemma option_equals_spec a b :
  option_equals a b = true ↔ option_type_ a = option_type_ b ∧ option_data_ a = option_data_ b.
Proof. unfold option_equals. by rewrite andb_true_iff, Z.eqb_eq, bool_decide_eq_true. Qed.

Lemma relay6_decides a classes :
  decides l (λ p, n ← follow (subnet_net o) p;
               andalso (mret (hasRelayAddress a n)) (supported o classes p))
    (λ p, meets o (ByOwnRelay a) p ∧ allows o classes p).
Proof using Hwf.
  apply (own_decides o l Hwf (hasRelayAddress a) (λ s n, a ∈ relay_ n)); [|done].
  intros _ n. apply containsAddress_true.
Qed.

Lemma iface6_decides i classes :
  decides l (λ p, n ← follow (subnet_net o) p;
               andalso (mret (bool_decide (i = iface_name_ n))) (supported o classes p))
    (λ p, meets o (ByOwnIface i) p ∧ allows o classes p).
Proof using Hwf.
  apply (own_decides o l Hwf (λ n, bool_decide (i = iface_name_ n)) (λ s n, iface_name_ n = i));
    [|done].
  intros _ n. rewrite bool_decide_eq_true. naive_solver.
Qed.

Lemma interface_id_decides id classes :
  decides l (λ p, n ← follow (subnet_net o) p;
               andalso (mret match interface_id_ n with Some i => option_equals i id | None => false end)
                 (supported o classes p))
    (λ p, meets o (ByInterfaceId id) p ∧ allows o classes p).
Proof using Hwf.
  apply (own_decides o l Hwf (λ n, match interface_id_ n with
    Some i => option_equals i id | None => false end) (λ s n, ∃ i, interface_id_ n = Some i ∧
      option_type_ i = option_type_ id ∧ option_data_ i = option_data_ id)); [|done].
  intros _ n. destruct (interface_id_ n); [rewrite option_equals_spec|]; naive_solver.
Qed.

Lemma selectSubnet6_address_spec a classes :
  ∃ r, selectSubnet6_address o l a classes true = Ok r ∧
    chosen o l classes [ByOwnRelay a; ByAddress a] r.
Proof using Hwf.
  apply (chosen_cons o l); [apply relay6_decides|]. by apply chosen_one, by_address.
Qed.

Lemma selectSubnet6_direct sel classes :
  ∃ r, (if negb (isV6Zero (remote_address_ sel))
        then selectSubnet6_address o l (remote_address_ sel) classes false else mret None) = Ok r ∧
    chosen o l classes (if isV6Zero (remote_address_ sel) then [] else
                          [ByAddress (remote_address_ sel)]) r.
Proof using Hwf.
  destruct (isV6Zero _); cbn [negb]; [apply chosen_nil|].
  unfold selectSubnet6_address. cbn [mbind res_bind mret res_ret]. by apply chosen_one, by_address.
Qed.
End Spec6.

(** C37: The choice of a subnet for a DHCPv6 client always returns.  The result is the first subnet
    that meets the first criterion which any subnet of the client's classes meets, or none when
    no subnet meets any of them.  The criteria are, in this order: without a relay the interface
    and then the address of the client, behind a relay its Interface-Id, then the addresses of
    relays configured for subnets, then the address of the link. *)
Theorem selectSubnet6_spec (o : Objects) (l : list Z) (sel : SubnetSelector)
    (Hwf : wf_objects o l) :
  ∃ r, selectSubnet6 o l sel = Ok r ∧ chosen o l (client_classes_ sel) (criteria6 sel) r.
Proof.
  unfold selectSubnet6, criteria6. destruct (isV6Zero (first_relay_linkaddr_ sel)).
  - pose proof (selectSubnet6_direct o l Hwf sel (client_classes_ sel)) as Hd.
    case_bool_decide as Hi; [|by rewrite bool_decide_eq_true_2 by naive_solver].
    rewrite bool_decide_eq_false_2 by done. unfold selectSubnet6_iface.
    rewrite bool_decide_eq_true_2 by done.
    destruct (chosen_cons o l _ _ _ _ _ (iface6_decides o l Hwf (sel_iface_name_ sel)
      (client_classes_ sel)) Hd) as (r & Er & Hr).
    exists r. split; [|done]. rewrite <- Er. by destruct (first_subnet _ _) as [[]|].
  - pose proof (selectSubnet6_address_spec o l Hwf (first_relay_linkaddr_ sel)
      (client_classes_ sel)) as Hd.
    unfold selectSubnet6_id. destruct (sel_interface_id_ sel) as [id|]; [|exact Hd].
    destruct (chosen_cons o l _ _ _ _ _ (interface_id_decides o l Hwf id
      (client_classes_ sel)) Hd) as (r & Er & Hr).
    exists r. split; [|done]. rewrite <- Er. by destruct (first_subnet _ _) as [[]|].
Qed.

(** ** The container keeps identifiers and prefixes apart *)

Section ContainerSpec.
Context `{AddressText}.

Record wf_container (h : Heap) (l : list Z) : Prop := {
  wf_container_ids : NoDup ((λ p, id_ <$> subnets h !! p) <$> l);
  wf_container_texts : NoDup ((λ p, subnet_toText <$> subnets h !! p) <$> l);
  wf_container_known : ∀ p, p ∈ l → is_Some (subnets h !! p)
}.

Lemma list_find_none (P : Z → Prop) `{!∀ x, Decision (P x)} l :
  list_find P l = None ↔ ∀ q, q ∈ l → ¬ P q.
Proof. by rewrite list_find_None, Forall_forall. Qed.

Lemma found {P : Z → Prop} `{!∀ x, Decision (P x)} l :
  snd <$> list_find P l ≠ None → ∃ q, q ∈ l ∧ P q.
Proof.
  destruct (list_find P l) as [[i q]|] eqn:E; [|done]. intros _.
  apply list_find_Some in E as (Hi & HP & _). exists q. split; [|done].
  by eapply list_elem_of_lookup_2.
Qed.

Lemma add_NoDup {A} (f : Z → option A) p l (x : A) :
  NoDup (f <$> l) → f p = Some x → (∀ q, q ∈ l → f q ≠ Some x) → NoDup (f <$> (l ++ [p])).
Proof.
  intros Hl Hx Hnew. rewrite fmap_app. apply NoDup_app. split_and!; [done| |by apply NoDup_singleton].
  intros y Hy ->%list_elem_of_singleton. apply list_elem_of_fmap in Hy as (q & E & Hq).
  apply (Hnew q Hq). congruence.
Qed.

Lemma delete_sublist {A} (l : list A) i : sublist (delete i l) l.
Proof.
  revert i. induction l as [|x l IH]; intros [|i]; cbn.
  - constructor.
  - constructor.
  - by apply sublist_cons.
  - by apply sublist_skip.
Qed.

Lemma wf_container_sublist h l l' : sublist l' l → wf_container h l → wf_container h l'.
Proof.
  intros Hs [H1 H2 H3]. split.
  - eapply sublist_NoDup; [exact H1|by apply fmap_sublist].
  - eapply sublist_NoDup; [exact H2|by apply fmap_sublist].
  - intros p Hp. apply H3. eapply elem_of_submseteq; [exact Hp|]. by apply sublist_submseteq.
Qed.

(** A subnet is added, at the end, unless a subnet of the configuration has its
    identifier or its prefix; deleting takes out the subnet that has the identifier, which
    need not be the same object, and fails when there is none.  No two subnets of a
    configuration have the same identifier or the same prefix. *)
Theorem container_spec (h : Heap) (l : list Z) (p : Z) (s : Subnet)
    (Hl : wf_container h l) (Hs : subnets h !! p = Some s) :
  let same_id q := id_ <$> subnets h !! q = Some (id_ s) in
  let same_prefix q := subnet_toText <$> subnets h !! q = Some (subnet_toText s) in
  match cfg_add h p l with
  | Ok l' => l' = l ++ [p] ∧ wf_container h l' ∧ ∀ q, q ∈ l → ¬ same_id q ∧ ¬ same_prefix q
  | Throw e => e = DuplicateSubnetID ∧ ∃ q, q ∈ l ∧ (same_id q ∨ same_prefix q)
  end ∧
  match cfg_del h p l with
  | Ok l' => ∃ i q, l !! i = Some q ∧ same_id q ∧ l' = delete i l ∧ wf_container h l' ∧
               ∀ r, r ∈ l' → ¬ same_id r
  | Throw e => e = BadValue ∧ ∀ q, q ∈ l → ¬ same_id q
  end.
Proof.
  intros same_id same_prefix. split.
  - unfold cfg_add, subnet_at. rewrite Hs. cbn [mbind res_bind].
    unfold getBySubnetId, getByPrefix.
    destruct (snd <$> list_find (has_id h (id_ s)) l) eqn:E1.
    { split; [done|]. destruct (found (P := has_id h (id_ s)) l) as (q & ? & ?);
        [by rewrite E1|]. exists q. by split; [|left]. }
    destruct (snd <$> list_find (has_prefix h (subnet_toText s)) l) eqn:E2.
    { split; [done|]. destruct (found (P := has_prefix h (subnet_toText s)) l) as (q & ? & ?);
        [by rewrite E2|]. exists q. by split; [|right]. }
    apply fmap_None in E1, E2. rewrite list_find_none in E1, E2. split; [done|].
    destruct Hl as [H1 H2 H3]. split; [|by split; [apply E1|apply E2]]. split.
    + eapply add_NoDup; [exact H1|by rewrite Hs|apply E1].
    + eapply add_NoDup; [exact H2|by rewrite Hs|apply E2].
    + intros q [Hq| ->%list_elem_of_singleton]%elem_of_app; [by apply H3|by rewrite Hs].
  - unfold cfg_del, subnet_at. rewrite Hs. cbn [mbind res_bind].
    destruct (list_find (has_id h (id_ s)) l) as [[i q]|] eqn:E.
    2: { split; [done|]. by apply (list_find_none (has_id h (id_ s))). }
    apply list_find_Some in E as (Hi & Hq & _). exists i, q. split_and!; try done.
    { eapply wf_container_sublist; [apply delete_sublist|done]. }
    intros r Hr Hsame. destruct Hl as [H1 _ _].
    apply list_elem_of_lookup in Hr as (j & Hj).
    assert (∃ k, l !! k = Some r ∧ k ≠ i) as (k & Hk & Hne).
    { destruct (decide (j < i)%nat).
      - rewrite list_lookup_delete_lt in Hj by done. exists j. split; [done|lia].
      - rewrite list_lookup_delete_ge in Hj by lia. exists (S j). split; [done|lia]. }
    apply Hne. eapply NoDup_lookup; [exact H1|..]; rewrite list_lookup_fmap.
    + rewrite Hk. cbn. by rewrite Hsame.
    + rewrite Hi. cbn. by rewrite Hq.
Qed.
End ContainerSpec.

(** ** A configuration of two subnets and a network *)

Module Sample.
(** 192.0.2.0/24, reached over eth0, and 198.51.100.0/24 behind the relay of its network,
    10.0.0.1, and only for clients of the class gold. *)
Definition gold (s : Subnet) : Subnet :=
  {| kind := kind s; id_ := id_ s; prefix_ := prefix_ s; subnet_len_ := subnet_len_ s;
     pools_ := pools_ s; pools_ta_ := pools_ta_ s; pools_pd_ := pools_pd_ s;
     last_allocated_ia_ := last_allocated_ia_ s; last_allocated_ta_ := last_allocated_ta_ s;
     last_allocated_pd_ := last_allocated_pd_ s; last_allocated_time_ := last_allocated_time_ s;
     shared_network_ := Some 1; client_class_ := "gold"; net_t1_ := net_t1_ s;
     net_t2_ := net_t2_ s; preferred_ := preferred_ s; valid_ := valid_ s;
     host_reservation_mode_ := host_reservation_mode_ s; match_client_id_ := match_client_id_ s |}.
Definition new (k : SubnetKind) (prefix : IOAddress) (len id : Z) : Subnet :=
  match mkSubnet k prefix len 1000 2000 3000 4000 id with Ok s => s | Throw _ => sample_subnet end.

Lemma new_wf k prefix len id s :
  mkSubnet k prefix len 1000 2000 3000 4000 id = Ok s → wf_addr prefix → 0 ≤ len →
  wf_subnet (new k prefix len id).
Proof. intros E ? ?. unfold new. rewrite E. by eapply mkSubnet_wf. Qed.

Definition plain (iface : string) : Network :=
  {| iface_name_ := iface; relay_ := []; interface_id_ := None; name_ := "" |}.
Definition office : Network :=
  {| iface_name_ := ""; relay_ := [V4 0x0A000001]; interface_id_ := None; name_ := "office" |}.

Definition objects : Objects := {|
  heap := {| subnets := <[1 := sample_subnet]> (<[2 := gold (new Kind4 (V4 0xC6336400) 24 2)]> ∅);
             networks := {[1 := {| net_class_ := ""; subnets_ := [2] |}]} |};
  subnet_net := <[1 := plain "eth0"]> (<[2 := plain ""]> ∅);
  network_net := {[1 := office]};
  get4o6 := <[1 := setIface4o6 "eth0" mkCfg4o6]>
              (<[2 := setSubnet4o6 (V6 (0x20010db8 * 2 ^ 96)) 64 mkCfg4o6]> ∅) |}.

Lemma gold_wf s : wf_subnet s → wf_subnet (gold s).
Proof. intros [H1 H2 H3 H4 H5 H6 H7]. by split. Qed.

Lemma objects_ok : wf_objects objects [1; 2].
Proof.
  intros p [->|[->|[]%not_elem_of_nil]%elem_of_cons]%elem_of_cons.
  - exists sample_subnet, (plain "eth0"). split; [by split|].
    split; [apply sample_subnet_wf|]. intros m [=].
  - exists (gold (new Kind4 (V4 0xC6336400) 24 2)), (plain ""). split; [by split|].
    split; [|intros m [= <-]; by split; eexists].
    apply gold_wf. eapply new_wf; [vm_compute; reflexivity|done|lia].
Qed.

(** A message that the relay 10.0.0.1 passed on, for a client of the class gold. *)
Definition selector (classes : ClientClasses) : SubnetSelector := {|
  ciaddr_ := V4 0; giaddr_ := V4 0x0A000001; option_select_ := V4 0;
  sel_interface_id_ := None; first_relay_linkaddr_ := V6 0;
  local_address_ := V4 0xC0000201; remote_address_ := V4 0x0A000001;
  client_classes_ := classes; sel_iface_name_ := "eth0" |}.
(** A message in DHCPv6, from 2001:db8::1 over eth0. *)
Definition selector4o6 (classes : ClientClasses) : SubnetSelector := {|
  ciaddr_ := V4 0; giaddr_ := V4 0; option_select_ := V4 0;
  sel_interface_id_ := None; first_relay_linkaddr_ := V6 0;
  local_address_ := V4 0xC0000201; remote_address_ := V6 (0x20010db8 * 2 ^ 96 + 1);
  client_classes_ := classes; sel_iface_name_ := "eth0" |}.

(** 2001:db8:1::/64 behind an interface of a relay with the identifier 1. *)
Definition interface_1 : Option :=
  mkOption D6O_INTERFACE_ID [1] OptionGeneric (Ok "1"%string) (Ok [1]) [].
Definition objects6 : Objects := {|
  heap := {| subnets := {[7 := new Kind6 (V6 (0x20010db80001 * 2 ^ 80)) 64 7]}; networks := ∅ |};
  subnet_net := {[7 := {| iface_name_ := ""; relay_ := []; interface_id_ := Some interface_1;
                          name_ := "" |}]};
  network_net := ∅; get4o6 := ∅ |}.
Definition selector6 : SubnetSelector := {|
  ciaddr_ := V4 0; giaddr_ := V4 0; option_select_ := V4 0;
  sel_interface_id_ := Some interface_1; first_relay_linkaddr_ := V6 (0x20010db80002 * 2 ^ 80);
  local_address_ := V4 0; remote_address_ := V6 0;
  client_classes_ := []; sel_iface_name_ := "eth0" |}.

Lemma objects6_ok : wf_objects objects6 [7].
Proof.
  intros p [->|[]%not_elem_of_nil]%elem_of_cons. eexists _, _. split; [by split|].
  split; [|intros m [=]]. eapply new_wf; [vm_compute; reflexivity|done|lia].
Qed.
End Sample.

Lemma selectSubnet4_spec_witness :
  wf_objects Sample.objects [1; 2] ∧
  selectSubnet4 Sample.objects [1; 2] [] (Sample.selector ["gold"]) = Ok (Some 2) ∧
  chosen Sample.objects [1; 2] ["gold"]
    (criteria4 [] (Sample.selector ["gold"])) (Some 2).
Proof.
  split; [exact Sample.objects_ok|]. split; [vm_compute; reflexivity|].
  destruct (proj2 (selectSubnet4_spec _ _ [] (Sample.selector ["gold"]) Sample.objects_ok))
    as (r & E & H); [by intros (_ & [] & _)|].
  assert (r = Some 2) as ->; [|exact H].
  assert (selectSubnet4 Sample.objects [1; 2] [] (Sample.selector ["gold"]) = Ok (Some 2))
    by (vm_compute; reflexivity). congruence.
Defined.

Lemma selectSubnet6_spec_witness :
  wf_objects Sample.objects6 [7] ∧
  ∃ r, selectSubnet6 Sample.objects6 [7] Sample.selector6 = Ok r ∧ r = Some 7 ∧
    chosen Sample.objects6 [7] [] (criteria6 Sample.selector6) r.
Proof.
  split; [exact Sample.objects6_ok|].
  destruct (selectSubnet6_spec _ _ Sample.selector6 Sample.objects6_ok) as (r & E & H).
  exists r. split; [exact E|]. split; [|exact H].
  assert (selectSubnet6 Sample.objects6 [7] Sample.selector6 = Ok (Some 7))
    by (vm_compute; reflexivity). congruence.
Defined.

#[local] Instance no_text : AddressText := {| address_toText := λ a, pretty (value a) |}.
Lemma container_spec_witness :
  wf_container (heap Sample.objects) [1] ∧ subnets (heap Sample.objects) !! 1 = Some sample_subnet ∧
  cfg_add (heap Sample.objects) 1 [1] = Throw DuplicateSubnetID.
Proof.
  assert (wf_container (heap Sample.objects) [1]) as Hwf.
  { split; [apply NoDup_singleton..|]. intros p ->%list_elem_of_singleton. by eexists. }
  assert (subnets (heap Sample.objects) !! 1 = Some sample_subnet) as Hs by done.
  split; [exact Hwf|]. split; [exact Hs|].
  destruct (container_spec _ _ _ _ Hwf Hs) as [H _].
  destruct (cfg_add (heap Sample.objects) 1 [1]); [|by destruct H as [-> _]].
  destruct H as (_ & _ & Hno). destruct (Hno 1 ltac:(left)) as [[] _]. done.
Defined.

(** [selectSubnet4o6] tries the criteria on one subnet after another, and not one criterion
    after another on all the subnets as its description says; and it does not ask whether
    the classes of the client are allowed. *)
Theorem selectSubnet4o6_by_subnet :
  (∀ classes, selectSubnet4o6 Sample.objects [1; 2] (Sample.selector4o6 classes) = Ok (Some 1)) ∧
  (∀ classes, selectSubnet4o6 Sample.objects [2] (Sample.selector4o6 classes) = Ok (Some 2)) ∧
  ¬ allows Sample.objects [] 2.
Proof.
  split_and!; [by intros; vm_compute..|].
  intros (s & E & [H|H] & _); vm_compute in E; injection E as <-; done.
Qed.
