(* ===== verification/Token.v ===== *)
(** * The tokens of client class expressions ([src/lib/eval/token.cc], [token.h],
      [evaluate.cc])

    An expression is a list of tokens that run on a stack of strings; the
    expression is true of a packet when it leaves the string ["true"].  The subclasses of
    [Token] are the constructors of one type, with the members of their objects as
    arguments, and the methods [evaluate] are one function.  The top of the stack is
    the head of the list.  Truth values, numbers and addresses are strings here: the
    compiler in [Eval] is what makes them fit together.

    [boost::lexical_cast] and the constructor of an address from text, which is Boost as
    well, are parameters ([TextConversions]). *)

From Stdlib Require Import Ascii.
From S2P Require Import Prelude IoAddress Pool Lease Packet.
Local Open Scope Z_scope.

(** Conversions of text; [None] is a [bad_lexical_cast] or an [IOError]. *)
Class TextConversions := {
  lexical_cast_int : string → option Z;
  lexical_cast_int_range : ∀ s z, lexical_cast_int s = Some z → -(2 ^ 31) ≤ z < 2 ^ 31;
  lexical_cast_uint64 : string → option Z;
  lexical_cast_uint64_range : ∀ s z, lexical_cast_uint64 s = Some z → 0 ≤ z < 2 ^ 64;
  address_of_text : string → option IOAddress
}.

(** ** The types of tokens *)

(** [TokenOption::RepresentationType]. *)
Inductive RepresentationType := TEXTUAL | HEXADECIMAL | EXISTS.

(** [TokenPkt::MetadataType]. *)
Inductive MetadataType := IFACE | SRC | DST | LEN.

(** [TokenPkt4::FieldType], [TokenPkt6::FieldType], [TokenRelay6Field::FieldType]. *)
Inductive Pkt4Field := CHADDR | GIADDR | CIADDR | YIADDR | SIADDR | HLEN | HTYPE | MSGTYPE | TRANSID.
Inductive Pkt6Field := MSGTYPE6 | TRANSID6.
Inductive Relay6Field := PEERADDR | LINKADDR.

(** [TokenVendor::FieldType]. *)
Inductive VendorField := SUBOPTION | ENTERPRISE_ID | FIELD_EXISTS | DATA.

Inductive Token :=
  | TokenString (value : string)
  | TokenHexString (value : string)
  | TokenInteger (int_value : Z)
  | TokenIpAddress (value : string)
  | TokenOption (option_code : Z) (rep : RepresentationType)
  | TokenRelay4Option (option_code : Z) (rep : RepresentationType)
  | TokenRelay6Option (nest_level option_code : Z) (rep : RepresentationType)
  | TokenPkt (type : MetadataType)
  | TokenPkt4 (type : Pkt4Field)
  | TokenPkt6 (type : Pkt6Field)
  | TokenRelay6Field (nest_level : Z) (type : Relay6Field)
  | TokenEqual
  | TokenSubstring
  | TokenConcat
  | TokenIfElse
  | TokenNot
  | TokenAnd
  | TokenOr
  | TokenMember (client_class : string)
  | TokenVendor (universe : Universe) (vendor_id : Z) (field : VendorField)
      (rep : RepresentationType) (option_code : Z)
  | TokenVendorClass (universe : Universe) (vendor_id : Z) (field : VendorField)
      (rep : RepresentationType) (index : Z).

Abbreviation Expression := (list Token).
Abbreviation ValueStack := (list string).

(** ** Constructors that do more than store their arguments *)

(** [isspace] in the C locale; the value of a digit in [binary_from_base16.h]. *)
Definition isspace (c : ascii) : bool :=
  let n := Z.of_N (N_of_ascii c) in ((9 <=? n) && (n <=? 13)) || (n =? 32).

Definition to_4_bit (c : ascii) : option Z :=
  let n := Z.of_N (N_of_ascii c) in
  if (48 <=? n) && (n <=? 57) then Some (n - 48)
  else if (65 <=? n) && (n <=? 70) then Some (n - 55)
  else if (97 <=? n) && (n <=? 102) then Some (n - 87)
  else None.

(** Two digits make a byte; a digit that is left over is an incomplete input. *)
Fixpoint join_digits (l : list Z) : res (list Z) :=
  match l with
  | [] => Ok []
  | [_] => Throw BadValue
  | a :: b :: l' => bytes ← join_digits l'; mret (a * 16 + b :: bytes)
  end.

(** [decodeHex]: white space is skipped and base 16 has no padding. *)
Definition decodeHex (input : string) : res (list Z) :=
  match mapM to_4_bit (filter (λ c, isspace c = false) (String.list_ascii_of_string input)) with
  | None => Throw BadValue
  | Some digits => join_digits digits
  end.

(** [TokenHexString::TokenHexString]; a text that cannot be decoded is the empty
    string. *)
Definition mkTokenHexString (str : string) : Token :=
  let x := String.get 1 str in
  if (String.length str <? 3)%nat || negb (bool_decide (String.get 0 str = Some "0"%char))
     || (negb (bool_decide (x = Some "x"%char)) && negb (bool_decide (x = Some "X"%char)))
  then TokenHexString ""
  else
    let digits := String.substring 2 (String.length str - 2) str in
    let digits := if Nat.even (String.length digits) then digits else String "0" digits in
    match decodeHex digits with
    | Ok binary => TokenHexString (string_of_bytes binary)
    | Throw _ => TokenHexString ""
    end.

(** [TokenIpAddress::TokenIpAddress]. *)
Definition mkTokenIpAddress `{TextConversions} (addr : string) : Token :=
  match address_of_text addr with
  | Some ip => TokenIpAddress (string_of_bytes (toBytes ip))
  | None => TokenIpAddress ""
  end.

(** The constructors of [TokenVendor] for an option and for a field. *)
Definition mkTokenVendor_option (u : Universe) (vendor_id : Z) (rep : RepresentationType)
    (option_code : Z) : Token :=
  TokenVendor u vendor_id (if option_code =? 0 then FIELD_EXISTS else SUBOPTION) rep option_code.

Definition mkTokenVendor_field (u : Universe) (vendor_id : Z) (field : VendorField) : Token :=
  TokenVendor u vendor_id field
    (match field with FIELD_EXISTS => EXISTS | _ => HEXADECIMAL end) 0.

(** The constructors of [TokenVendorClass]. *)
Definition mkTokenVendorClass_option (u : Universe) (vendor_id : Z) (rep : RepresentationType) :
    Token := TokenVendorClass u vendor_id FIELD_EXISTS rep 0.

Definition mkTokenVendorClass_field (u : Universe) (vendor_id : Z) (field : VendorField)
    (index : Z) : Token := TokenVendorClass u vendor_id field HEXADECIMAL index.

(** ** Evaluation *)

(** [Token::toBool]. *)
Definition toBool (value : string) : res bool :=
  if bool_decide (value = "true") then Ok true
  else if bool_decide (value = "false") then Ok false
  else Throw EvalTypeError.

Definition of_bool (b : bool) : string := if b then "true" else "false".

(** [EvalContext::fromUint32]. *)
Definition fromUint32 (integer : Z) : string :=
  string_of_bytes [Z.land (Z.shiftr integer 24) 255; Z.land (Z.shiftr integer 16) 255;
                   Z.land (Z.shiftr integer 8) 255; Z.land integer 255].

(** What [TokenOption::evaluate] pushes for the option [getOption] found. *)
Definition option_value (rep : RepresentationType) (opt : option Option) : res string :=
  match opt with
  | Some o => match rep with
              | TEXTUAL => option_toString o
              | HEXADECIMAL => binary ← option_toBinary o; mret (string_of_bytes binary)
              | EXISTS => Ok "true"
              end
  | None => Ok match rep with EXISTS => "false" | _ => "" end
  end.

(** [TokenOption::pushFailure]. *)
Definition failure_value (rep : RepresentationType) : string :=
  match rep with EXISTS => "false" | _ => "" end.

(** [TokenRelay4Option::getOption]. *)
Definition relay4_option (option_code : Z) (p : Pkt) : option Option :=
  rai ← getOption p DHO_DHCP_AGENT_OPTIONS; suboption rai option_code.

(** [catch (const isc::OutOfRange&)]. *)
Definition catch_out_of_range {A} (r : res A) (a : A) : res A :=
  match r with Throw OutOfRange => Ok a | _ => r end.

(** [TokenRelay6Option::getOption]. *)
Definition relay6_option (nest_level option_code : Z) (p : Pkt) : res (option Option) :=
  match pkt_kind p with
  | Pkt4 _ _ _ _ _ => Throw EvalTypeError
  | Pkt6 _ relay_info =>
      catch_out_of_range
        (if 0 <=? nest_level then getRelayOption relay_info option_code (u8 nest_level)
         else let nesting_level := Z.of_nat (length relay_info) + nest_level in
              if nesting_level <? 0 then Ok None
              else getRelayOption relay_info option_code (u8 nesting_level)) None
  end.

(** [TokenPkt::evaluate]. *)
Definition pkt_value (type : MetadataType) (p : Pkt) : string :=
  match type with
  | IFACE => iface_ p
  | SRC => string_of_bytes (toBytes (remote_addr_ p))
  | DST => string_of_bytes (toBytes (local_addr_ p))
  | LEN => fromUint32 (u32 (pkt_len p))
  end.

(** [TokenPkt4::evaluate]. *)
Definition pkt4_value (type : Pkt4Field) (p : Pkt) : res string :=
  match pkt_kind p with
  | Pkt6 _ _ => Throw EvalTypeError
  | Pkt4 hwaddr ciaddr yiaddr siaddr giaddr =>
      match type with
      | CHADDR => match hwaddr with
                  | None => Throw EvalTypeError
                  | Some h => Ok (string_of_bytes (hwaddr_bytes h))
                  end
      | GIADDR => Ok (string_of_bytes (toBytes giaddr))
      | CIADDR => Ok (string_of_bytes (toBytes ciaddr))
      | YIADDR => Ok (string_of_bytes (toBytes yiaddr))
      | SIADDR => Ok (string_of_bytes (toBytes siaddr))
      | HLEN => Ok (fromUint32 (getHlen hwaddr))
      | HTYPE => Ok (fromUint32 (getHtype hwaddr))
      | MSGTYPE => type ← pkt4_getType p; mret (fromUint32 type)
      | TRANSID => Ok (fromUint32 (transid_ p))
      end
  end.

(** [TokenPkt6::evaluate]. *)
Definition pkt6_value (type : Pkt6Field) (p : Pkt) : res string :=
  match pkt_kind p with
  | Pkt4 _ _ _ _ _ => Throw EvalTypeError
  | Pkt6 msg_type _ =>
      match type with
      | MSGTYPE6 => Ok (fromUint32 msg_type)
      | TRANSID6 => Ok (fromUint32 (transid_ p))
      end
  end.

(** [TokenRelay6Field::evaluate]. *)
Definition relay6_value (nest_level : Z) (type : Relay6Field) (p : Pkt) : res string :=
  match pkt_kind p with
  | Pkt4 _ _ _ _ _ => Throw EvalTypeError
  | Pkt6 _ relay_info =>
      let relay_level :=
        if 0 <=? nest_level then u8 nest_level
        else let nesting_level := Z.of_nat (length relay_info) + nest_level in
             u8 (if nesting_level <? 0 then 32 else nesting_level) in
      catch_out_of_range
        (addr ← match type with
                | LINKADDR => getRelay6LinkAddress relay_info relay_level
                | PEERADDR => getRelay6PeerAddress relay_info relay_level
                end;
         mret (string_of_bytes (toBytes addr))) ""
  end.

(** [TokenSubstring::evaluate] after it has taken its arguments.  [length = -length] is
    undefined for the least integer. *)
Definition substring_value `{TextConversions} (string_str start_str len_str : string) :
    res string :=
  if bool_decide (string_str = "") then Ok "" else
  match lexical_cast_int start_str with
  | None => Throw EvalTypeError
  | Some start_pos =>
      let string_length := Z.of_nat (String.length string_str) in
      match (if bool_decide (len_str = "all") then Some string_length
             else lexical_cast_int len_str) with
      | None => Throw EvalTypeError
      | Some length =>
          if (start_pos <? - string_length) || (string_length <=? start_pos) then Ok "" else
          let start_pos := if start_pos <? 0 then string_length + start_pos else start_pos in
          if length <? 0 then
            if length =? - 2 ^ 31 then Throw AssertionFailure else
            let length := - length in
            let '(start_pos, length) :=
              if length <=? start_pos then (start_pos - length, length) else (0, start_pos) in
            Ok (String.substring (Z.to_nat start_pos) (Z.to_nat length) string_str)
          else Ok (String.substring (Z.to_nat start_pos) (Z.to_nat length) string_str)
      end
  end.

Definition vendor_code (u : Universe) : Z :=
  match u with UniverseV4 => DHO_VIVSO_SUBOPTIONS | UniverseV6 => D6O_VENDOR_OPTS end.

Definition vendor_class_code (u : Universe) : Z :=
  match u with UniverseV4 => DHO_VIVCO_SUBOPTIONS | UniverseV6 => D6O_VENDOR_CLASS end.

(** [TokenVendor::getOption]. *)
Definition vendor_suboption (u : Universe) (option_code : Z) (p : Pkt) : option Option :=
  opt ← getOption p (vendor_code u); suboption opt option_code.

(** [dynamic_pointer_cast<OptionVendor>(opt)] and its vendor. *)
Definition as_vendor (opt : option Option) : option Z :=
  o ← opt; match option_class_ o with OptionVendor id => Some id | _ => None end.
Definition as_vendor_class (opt : option Option) : option (Z * list (list Z)) :=
  o ← opt; match option_class_ o with OptionVendorClass id tuples => Some (id, tuples)
                                    | _ => None end.

(** [htonl] and [memcpy]: the bytes in network order. *)
Definition enterprise_bytes (vendor_id : Z) : string := string_of_bytes (be_split 4 vendor_id).

(** [TokenVendor::evaluate]. *)
Definition vendor_value (u : Universe) (vendor_id : Z) (field : VendorField)
    (rep : RepresentationType) (option_code : Z) (p : Pkt) : res string :=
  match as_vendor (getOption p (vendor_code u)) with
  | None => Ok (failure_value rep)
  | Some id =>
      if negb (vendor_id =? 0) && negb (vendor_id =? id) then Ok (failure_value rep)
      else match field with
           | ENTERPRISE_ID => Ok (enterprise_bytes id)
           | SUBOPTION => option_value rep (vendor_suboption u option_code p)
           | FIELD_EXISTS => Ok "true"
           | DATA => Throw EvalTypeError
           end
  end.

(** [TokenVendorClass::evaluate]. *)
Definition vendor_class_value (u : Universe) (vendor_id : Z) (field : VendorField)
    (rep : RepresentationType) (index : Z) (p : Pkt) : res string :=
  match as_vendor_class (getOption p (vendor_class_code u)) with
  | None => Ok (failure_value rep)
  | Some (id, tuples) =>
      if negb (vendor_id =? 0) && negb (vendor_id =? id) then Ok (failure_value rep)
      else match field with
           | ENTERPRISE_ID => Ok (enterprise_bytes id)
           | SUBOPTION => Throw EvalTypeError
           | FIELD_EXISTS => Ok "true"
           | DATA =>
               let max := Z.of_nat (length tuples) in
               if max <? index + 1 then Ok ""
               else match tuples !! Z.to_nat index with
                    | Some t => Ok (tuple_getText t)
                    | None => Throw OutOfRange
                    end
           end
  end.

(** [Token::evaluate]: the stack afterwards. *)
Definition evaluate `{TextConversions} (t : Token) (p : Pkt) (values : ValueStack) :
    res ValueStack :=
  match t with
  | TokenString v | TokenHexString v | TokenIpAddress v => Ok (v :: values)
  | TokenInteger n => Ok (fromUint32 n :: values)
  | TokenOption code rep => v ← option_value rep (getOption p code); mret (v :: values)
  | TokenRelay4Option code rep => v ← option_value rep (relay4_option code p); mret (v :: values)
  | TokenRelay6Option nest code rep =>
      opt ← relay6_option nest code p; v ← option_value rep opt; mret (v :: values)
  | TokenPkt type => Ok (pkt_value type p :: values)
  | TokenPkt4 type => v ← pkt4_value type p; mret (v :: values)
  | TokenPkt6 type => v ← pkt6_value type p; mret (v :: values)
  | TokenRelay6Field nest type => v ← relay6_value nest type p; mret (v :: values)
  | TokenEqual =>
      match values with
      | op1 :: op2 :: values' => Ok (of_bool (bool_decide (op1 = op2)) :: values')
      | _ => Throw EvalBadStack
      end
  | TokenSubstring =>
      match values with
      | len_str :: start_str :: string_str :: values' =>
          v ← substring_value string_str start_str len_str; mret (v :: values')
      | _ => Throw EvalBadStack
      end
  | TokenConcat =>
      match values with
      | op1 :: op2 :: values' => Ok ((op2 +:+ op1) :: values')
      | _ => Throw EvalBadStack
      end
  | TokenIfElse =>
      match values with
      | iffalse :: iftrue :: cond :: values' =>
          val ← toBool cond; mret ((if (val : bool) then iftrue else iffalse) :: values')
      | _ => Throw EvalBadStack
      end
  | TokenNot =>
      match values with
      | op :: values' => val ← toBool op; mret (of_bool (negb val) :: values')
      | _ => Throw EvalBadStack
      end
  | TokenAnd =>
      match values with
      | op1 :: op2 :: values' =>
          val1 ← toBool op1; val2 ← toBool op2; mret (of_bool (val1 && val2) :: values')
      | _ => Throw EvalBadStack
      end
  | TokenOr =>
      match values with
      | op1 :: op2 :: values' =>
          val1 ← toBool op1; val2 ← toBool op2; mret (of_bool (val1 || val2) :: values')
      | _ => Throw EvalBadStack
      end
  | TokenMember client_class => Ok (of_bool (inClass p client_class) :: values)
  | TokenVendor u id field rep code => v ← vendor_value u id field rep code p; mret (v :: values)
  | TokenVendorClass u id field rep index =>
      v ← vendor_class_value u id field rep index p; mret (v :: values)
  end.

(** The loop of [evaluateBool] and [evaluateString]. *)
Fixpoint evaluate_loop `{TextConversions} (expr : Expression) (p : Pkt) (values : ValueStack) :
    res ValueStack :=
  match expr with
  | [] => Ok values
  | t :: expr' => values' ← evaluate t p values; evaluate_loop expr' p values'
  end.

Definition evaluateBool `{TextConversions} (expr : Expression) (p : Pkt) : res bool :=
  values ← evaluate_loop expr p [];
  match values with [v] => toBool v | _ => Throw EvalBadStack end.

Definition evaluateString `{TextConversions} (expr : Expression) (p : Pkt) : res string :=
  values ← evaluate_loop expr p [];
  match values with [v] => Ok v | _ => Throw EvalBadStack end.
