(* ===== verification/Eval.v ===== *)
(** * The compiler of client class expressions ([src/lib/eval/parser.yy],
      [eval_context.cc])

    [bool_expr] and [string_expr] are the derivations of the grammar, one constructor for
    each production, with the texts of its terminals; finding the derivation of a text is
    the work of the tables that bison and flex generate.  The semantic actions, which check
    the numbers and names and append tokens to the expression of the [EvalContext], are
    [bool_action] and [string_action]: they run in the order in which the productions are
    reduced, from left to right and the operands before the operator.  An error is
    [EvalParseError].

    [sem_bool] and [sem_string] say what an expression means, as a function of the
    packet, without tokens or a stack.

    The definitions of options, through which the names of options are looked up, are the
    tables [OptionDefs]; the check that a class is defined is a callback with a state of
    its own. *)

From Stdlib Require Import Ascii.
From S2P Require Import Prelude IoAddress Pool Lease Packet Token.
Local Open Scope Z_scope.

(** ** The grammar *)

Inductive option_code := CodeInteger (text : string) | CodeName (text : string).
Inductive enterprise_id := EnterpriseInteger (text : string) | EnterpriseAny.
Inductive option_repr_type := TEXT | HEX.
Inductive length_expr := LengthInteger (text : string) | LengthAll.

Inductive bool_expr :=
  | BParen (e : bool_expr)
  | BNot (e : bool_expr)
  | BAnd (e1 e2 : bool_expr)
  | BOr (e1 e2 : bool_expr)
  | BEqual (s1 s2 : string_expr)
  | BOptionExists (c : option_code)
  | BRelay4Exists (c : option_code)
  | BRelay6Exists (nest_level : string) (c : option_code)
  | BVendorClassExists (id : enterprise_id)
  | BVendorExists (id : enterprise_id)
  | BVendorOptionExists (id : enterprise_id) (c : option_code)
  | BMember (client_class : string)
with string_expr :=
  | SString (text : string)
  | SHexString (text : string)
  | SIpAddress (text : string)
  | SOption (c : option_code) (r : option_repr_type)
  | SRelay4 (c : option_code) (r : option_repr_type)
  | SRelay6Option (nest_level : string) (c : option_code) (r : option_repr_type)
  | SPkt (m : MetadataType)
  | SPkt4 (f : Pkt4Field)
  | SPkt6 (f : Pkt6Field)
  | SRelay6Field (nest_level : string) (f : Relay6Field)
  | SSubstring (s : string_expr) (start : string) (len : length_expr)
  | SConcat (s1 s2 : string_expr)
  | SIfElse (e : bool_expr) (s1 s2 : string_expr)
  | SVendorEnterprise
  | SVendorClassEnterprise
  | SVendorOption (id : enterprise_id) (c : option_code) (r : option_repr_type)
  | SVendorClassData (id : enterprise_id)
  | SVendorClassDataIndex (id : enterprise_id) (index : string)
  | SInteger (text : string).

Scheme bool_expr_rec2 := Induction for bool_expr Sort Prop
  with string_expr_rec2 := Induction for string_expr Sort Prop.
Combined Scheme expr_ind from bool_expr_rec2, string_expr_rec2.

(** ** Option definitions ([src/lib/dhcp/libdhcp++.cc]) *)

(** The containers of definitions, as names with codes: the standard ones and those of the
    configuration for the option spaces of the two protocols, and those of last resort,
    which DHCPv4 only has. *)
Record OptionDefs := {
  option_defs_ : Universe → list (string * Z);
  runtime_option_defs_ : Universe → list (string * Z);
  lastresort_defs_ : list (string * Z)
}.

Definition find_name (name : string) (l : list (string * Z)) : option Z :=
  (λ x : nat * (string * Z), x.2.2) <$> list_find (λ d, d.1 = name) l.

Definition getOptionDef (defs : OptionDefs) (u : Universe) (name : string) : option Z :=
  find_name name (option_defs_ defs u).
Definition getRuntimeOptionDef (defs : OptionDefs) (u : Universe) (name : string) : option Z :=
  find_name name (runtime_option_defs_ defs u).
Definition getLastResortOptionDef (defs : OptionDefs) (u : Universe) (name : string) : option Z :=
  match u with UniverseV4 => find_name name (lastresort_defs_ defs) | UniverseV6 => None end.

Section Parser.
Context `{TextConversions} (defs : OptionDefs) (option_universe_ : Universe).
Context {D : Type} (check_defined_ : string → ST D bool).

(** ** Conversions of [EvalContext] *)

Definition convertOptionCode (text : string) : res Z :=
  match lexical_cast_int text with
  | None => Throw EvalParseError
  | Some n =>
      let bad := match option_universe_ with
                 | UniverseV6 => (n <? 0) || (65535 <? n)
                 | UniverseV4 => (n <? 0) || (255 <? n)
                 end in
      if bad then Throw EvalParseError else Ok (n `mod` 2 ^ 16)
  end.

Definition convertOptionName (name : string) : res Z :=
  let option_def := getOptionDef defs option_universe_ name in
  let option_def := match option_def with
                    | None => getRuntimeOptionDef defs option_universe_ name | d => d end in
  let option_def := match option_def with
                    | None => getLastResortOptionDef defs option_universe_ name | d => d end in
  match option_def with None => Throw EvalParseError | Some code => Ok code end.

Definition convertUint8 (number : string) : res Z :=
  match lexical_cast_int number with
  | None => Throw EvalParseError
  | Some n => if (n <? 0) || (255 <? n) then Throw EvalParseError else Ok (u8 n)
  end.

(** The value of a byte as a signed integer. *)
Definition int8 (n : Z) : Z := if n <? 128 then n else n - 256.

Definition convertInt8 (number : string) : res Z :=
  match lexical_cast_int number with
  | None => Throw EvalParseError
  | Some n => if (n <? -128) || (127 <? n) then Throw EvalParseError else Ok (int8 (u8 n))
  end.

Definition convertNestLevelNumber (nest_level : string) : res Z :=
  n ← convertInt8 nest_level;
  match option_universe_ with
  | UniverseV6 => if (n <? - HOP_COUNT_LIMIT) || (HOP_COUNT_LIMIT <=? n)
                  then Throw EvalParseError else Ok n
  | UniverseV4 => Throw EvalParseError
  end.

Definition convertUint32 (number : string) : res Z :=
  match lexical_cast_uint64 number with
  | None => Throw EvalParseError
  | Some n => if 2 ^ 32 - 1 <? n then Throw EvalParseError else Ok (u32 n)
  end.

(** ** The semantic actions *)

(** The parsed expression and what the callback has changed. *)
Record EvalContext := { expression : Expression; check_state : D }.

Definition push_back (t : Token) : ST EvalContext unit :=
  modify (λ c, {| expression := expression c ++ [t]; check_state := check_state c |}).

Definition isClientClassDefined_ctx (client_class : string) : ST EvalContext bool :=
  zoom check_state (λ d c, {| expression := expression c; check_state := d |})
    (check_defined_ client_class).

Definition option_code_action (c : option_code) : ST EvalContext Z :=
  match c with
  | CodeInteger s => lift (convertOptionCode s)
  | CodeName s => lift (convertOptionName s)
  end.

Definition enterprise_id_action (id : enterprise_id) : ST EvalContext Z :=
  match id with
  | EnterpriseInteger s => lift (convertUint32 s)
  | EnterpriseAny => mret 0
  end.

Definition repr_action (r : option_repr_type) : RepresentationType :=
  match r with TEXT => TEXTUAL | HEX => HEXADECIMAL end.

Definition length_action (l : length_expr) : ST EvalContext unit :=
  match l with
  | LengthInteger s => push_back (TokenString s)
  | LengthAll => push_back (TokenString "all")
  end.

(** [switch (ctx.getUniverse())] of the productions for one protocol only. *)
Definition only_in (u : Universe) (t : Token) : ST EvalContext unit :=
  if bool_decide (option_universe_ = u) then push_back t else throw EvalParseError.

Fixpoint bool_action (e : bool_expr) : ST EvalContext unit :=
  match e with
  | BParen e => bool_action e
  | BNot e => _ ← bool_action e; push_back TokenNot
  | BAnd e1 e2 => _ ← bool_action e1; _ ← bool_action e2; push_back TokenAnd
  | BOr e1 e2 => _ ← bool_action e1; _ ← bool_action e2; push_back TokenOr
  | BEqual s1 s2 => _ ← string_action s1; _ ← string_action s2; push_back TokenEqual
  | BOptionExists c => c ← option_code_action c; push_back (TokenOption c EXISTS)
  | BRelay4Exists c =>
      c ← option_code_action c; only_in UniverseV4 (TokenRelay4Option c EXISTS)
  | BRelay6Exists n c =>
      n ← lift (convertNestLevelNumber n);
      c ← option_code_action c; only_in UniverseV6 (TokenRelay6Option n c EXISTS)
  | BVendorClassExists id =>
      id ← enterprise_id_action id;
      push_back (mkTokenVendorClass_option option_universe_ id EXISTS)
  | BVendorExists id =>
      id ← enterprise_id_action id;
      push_back (mkTokenVendor_option option_universe_ id EXISTS 0)
  | BVendorOptionExists id c =>
      id ← enterprise_id_action id; c ← option_code_action c;
      push_back (mkTokenVendor_option option_universe_ id EXISTS c)
  | BMember cc =>
      defined ← isClientClassDefined_ctx cc;
      _ ← lift (throw_if (negb defined) EvalParseError);
      push_back (TokenMember cc)
  end
with string_action (s : string_expr) : ST EvalContext unit :=
  match s with
  | SString v => push_back (TokenString v)
  | SHexString v => push_back (mkTokenHexString v)
  | SIpAddress v => push_back (mkTokenIpAddress v)
  | SOption c r => c ← option_code_action c; push_back (TokenOption c (repr_action r))
  | SRelay4 c r =>
      c ← option_code_action c; only_in UniverseV4 (TokenRelay4Option c (repr_action r))
  | SRelay6Option n c r =>
      n ← lift (convertNestLevelNumber n);
      c ← option_code_action c; only_in UniverseV6 (TokenRelay6Option n c (repr_action r))
  | SPkt m => push_back (TokenPkt m)
  | SPkt4 f => only_in UniverseV4 (TokenPkt4 f)
  | SPkt6 f => only_in UniverseV6 (TokenPkt6 f)
  | SRelay6Field n f =>
      n ← lift (convertNestLevelNumber n); only_in UniverseV6 (TokenRelay6Field n f)
  | SSubstring s start len =>
      _ ← string_action s; _ ← push_back (TokenString start); _ ← length_action len;
      push_back TokenSubstring
  | SConcat s1 s2 => _ ← string_action s1; _ ← string_action s2; push_back TokenConcat
  | SIfElse e s1 s2 =>
      _ ← bool_action e; _ ← string_action s1; _ ← string_action s2; push_back TokenIfElse
  | SVendorEnterprise => push_back (mkTokenVendor_field option_universe_ 0 ENTERPRISE_ID)
  | SVendorClassEnterprise =>
      push_back (mkTokenVendorClass_field option_universe_ 0 ENTERPRISE_ID 0)
  | SVendorOption id c r =>
      id ← enterprise_id_action id; c ← option_code_action c;
      push_back (mkTokenVendor_option option_universe_ id (repr_action r) c)
  | SVendorClassData id =>
      id ← enterprise_id_action id;
      push_back (mkTokenVendorClass_field option_universe_ id DATA 0)
  | SVendorClassDataIndex id n =>
      id ← enterprise_id_action id; n ← lift (convertUint8 n);
      push_back (mkTokenVendorClass_field option_universe_ id DATA n)
  | SInteger n => n ← lift (convertUint32 n); push_back (TokenInteger n)
  end.

(** [EvalContext::parseString] of a text with the derivation [e], or of a text that is not
    in the grammar; the parsed expression is left in the context, which is new. *)
Definition parseString (text : option bool_expr) : ST D Expression := λ d,
  match text with
  | None => (d, Throw EvalParseError)
  | Some e =>
      match bool_action e {| expression := []; check_state := d |} with
      | (c, Ok _) => (check_state c, Ok (expression c))
      | (c, Throw x) => (check_state c, Throw x)
      end
  end.

(** ** What expressions mean *)

Definition name_code (name : string) : option Z :=
  match getOptionDef defs option_universe_ name with
  | Some c => Some c
  | None => match getRuntimeOptionDef defs option_universe_ name with
            | Some c => Some c
            | None => getLastResortOptionDef defs option_universe_ name
            end
  end.

(** The numbers that texts stand for, 0 for a text that stands for none. *)
Definition number (s : string) : Z := default 0 (lexical_cast_int s).
Definition unsigned (s : string) : Z := default 0 (lexical_cast_uint64 s).
Definition code_of (c : option_code) : Z :=
  match c with CodeInteger s => number s | CodeName s => default 0 (name_code s) end.
Definition vendor_of (id : enterprise_id) : Z :=
  match id with EnterpriseInteger s => unsigned s | EnterpriseAny => 0 end.

Definition sem_repr (r : option_repr_type) (o : option Option) : res string :=
  match o, r with
  | None, _ => Ok ""
  | Some o, TEXT => option_toString o
  | Some o, HEX => string_of_bytes <$> option_toBinary o
  end.

(** Relays are counted from the server from 0 on and from the client from -1 on down. *)
Definition relay_at (p : Pkt) (n : Z) : option RelayInfo :=
  match pkt_kind p with
  | Pkt6 _ relays => if 0 <=? n then relays !! Z.to_nat n
                     else reverse relays !! Z.to_nat (- n - 1)
  | Pkt4 _ _ _ _ _ => None
  end.

Definition relay6_opt (p : Pkt) (n code : Z) : option Option :=
  r ← relay_at p n; find_option code (relay_options_ r).

(** The vendor option of the packet, if it is of the vendor asked for; vendor 0 is any. *)
Definition vendor_option (p : Pkt) (id : Z) : option (Z * Option) :=
  o ← getOption p (vendor_code option_universe_);
  match option_class_ o with
  | OptionVendor v => if (id =? 0) || (id =? v) then Some (v, o) else None
  | _ => None
  end.
Definition vendor_class_option (p : Pkt) (id : Z) : option (Z * list (list Z)) :=
  o ← getOption p (vendor_class_code option_universe_);
  match option_class_ o with
  | OptionVendorClass v tuples => if (id =? 0) || (id =? v) then Some (v, tuples) else None
  | _ => None
  end.

(** The characters of [s] from position [i] up to position [j]. *)
Definition slice (s : string) (i j : Z) : string :=
  String.string_of_list_ascii
    (take (Z.to_nat (j - i)) (drop (Z.to_nat i) (String.list_ascii_of_string s))).

(** A start below 0 counts from the end, a length below 0 takes the characters before the
    start; where there is nothing to take from, the numbers do not matter. *)
Definition sem_substring (s : string) (start : string) (len : length_expr) : res string :=
  let n := Z.of_nat (String.length s) in
  if n =? 0 then Ok "" else
  match lexical_cast_int start,
        match len with LengthAll => Some n
                  | LengthInteger t => if bool_decide (t = "all") then Some n
                                       else lexical_cast_int t end with
  | Some i, Some k =>
      if (i <? - n) || (n <=? i) then Ok "" else
      let i := if i <? 0 then n + i else i in
      if 0 <=? k then Ok (slice s i (i + k))
      else if k =? - 2 ^ 31 then Throw AssertionFailure
      else Ok (slice s (Z.max 0 (i + k)) i)
  | _, _ => Throw EvalTypeError
  end.

(** The field of a token that is a literal. *)
Definition literal (t : Token) : string :=
  match t with TokenString v | TokenHexString v | TokenIpAddress v => v | _ => "" end.

(** All operands are evaluated, also those that do not change the result. *)
Fixpoint sem_bool (e : bool_expr) (p : Pkt) : res bool :=
  match e with
  | BParen e => sem_bool e p
  | BNot e => negb <$> sem_bool e p
  | BAnd e1 e2 => b1 ← sem_bool e1 p; b2 ← sem_bool e2 p; mret (b1 && b2)
  | BOr e1 e2 => b1 ← sem_bool e1 p; b2 ← sem_bool e2 p; mret (b1 || b2)
  | BEqual s1 s2 => v1 ← sem_string s1 p; v2 ← sem_string s2 p; mret (bool_decide (v1 = v2))
  | BOptionExists c => Ok (bool_decide (is_Some (getOption p (code_of c))))
  | BRelay4Exists c => Ok (bool_decide (is_Some (relay4_option (code_of c) p)))
  | BRelay6Exists n c => Ok (bool_decide (is_Some (relay6_opt p (number n) (code_of c))))
  | BVendorClassExists id => Ok (bool_decide (is_Some (vendor_class_option p (vendor_of id))))
  | BVendorExists id => Ok (bool_decide (is_Some (vendor_option p (vendor_of id))))
  | BVendorOptionExists id c =>
      Ok match vendor_option p (vendor_of id) with
         | Some (_, o) => (code_of c =? 0) || bool_decide (is_Some (suboption o (code_of c)))
         | None => false
         end
  | BMember cc => Ok (bool_decide (cc ∈@{list string} classes_ p))
  end
with sem_string (s : string_expr) (p : Pkt) : res string :=
  match s with
  | SString v => Ok v
  | SHexString v => Ok (literal (mkTokenHexString v))
  | SIpAddress v => Ok (literal (mkTokenIpAddress v))
  | SOption c r => sem_repr r (getOption p (code_of c))
  | SRelay4 c r => sem_repr r (relay4_option (code_of c) p)
  | SRelay6Option n c r => sem_repr r (relay6_opt p (number n) (code_of c))
  | SPkt m => Ok (pkt_value m p)
  | SPkt4 f => pkt4_value f p
  | SPkt6 f => pkt6_value f p
  | SRelay6Field n f =>
      Ok match relay_at p (number n) with
         | Some r => string_of_bytes (toBytes match f with LINKADDR => linkaddr_ r
                                                         | PEERADDR => peeraddr_ r end)
         | None => ""
         end
  | SSubstring s start len => v ← sem_string s p; sem_substring v start len
  | SConcat s1 s2 => v1 ← sem_string s1 p; v2 ← sem_string s2 p; mret (v1 +:+ v2)
  | SIfElse e s1 s2 =>
      b ← sem_bool e p; v1 ← sem_string s1 p; v2 ← sem_string s2 p;
      mret (if (b : bool) then v1 else v2)
  | SVendorEnterprise =>
      Ok match vendor_option p 0 with Some (v, _) => enterprise_bytes v | None => "" end
  | SVendorClassEnterprise =>
      Ok match vendor_class_option p 0 with Some (v, _) => enterprise_bytes v | None => "" end
  | SVendorOption id c r =>
      match vendor_option p (vendor_of id) with
      | Some (_, o) => if code_of c =? 0 then Ok "true" else sem_repr r (suboption o (code_of c))
      | None => Ok ""
      end
  | SVendorClassData id =>
      Ok match vendor_class_option p (vendor_of id) with
         | Some (_, tuples) => default "" (string_of_bytes <$> head tuples)
         | None => ""
         end
  | SVendorClassDataIndex id n =>
      Ok match vendor_class_option p (vendor_of id) with
         | Some (_, tuples) => default "" (string_of_bytes <$> tuples !! Z.to_nat (number n))
         | None => ""
         end
  | SInteger n => Ok (string_of_bytes (be_split 4 (unsigned n)))
  end.
End Parser.

(** ** Which expressions are accepted, and what they are compiled to

    A specification of the semantic actions without exceptions and context: the
    conditions they check, the tokens they append and the classes they ask the callback
    about. *)

Section Compiled.
Context `{TextConversions} (defs : OptionDefs) (u : Universe) (defined : string → bool).

Definition in_range (lo hi : Z) (o : option Z) : bool :=
  match o with Some n => (lo <=? n) && (n <=? hi) | None => false end.
Definition code_ok (c : option_code) : bool :=
  match c with
  | CodeInteger s => in_range 0 (match u with UniverseV4 => 255 | UniverseV6 => 65535 end)
                       (lexical_cast_int s)
  | CodeName s => bool_decide (is_Some (name_code defs u s))
  end.
Definition unsigned_ok (s : string) : bool := in_range 0 (2 ^ 32 - 1) (lexical_cast_uint64 s).
Definition vendor_ok (id : enterprise_id) : bool :=
  match id with EnterpriseInteger s => unsigned_ok s | EnterpriseAny => true end.
Definition universe_is (v : Universe) : bool := bool_decide (u = v).
Definition nest_ok (s : string) : bool :=
  universe_is UniverseV6 && in_range (-32) 31 (lexical_cast_int s).
Definition index_ok (s : string) : bool := in_range 0 255 (lexical_cast_int s).

(** The numbers are in their ranges, the names are defined, and what only one of the
    protocols has is used with that protocol. *)
Fixpoint ok_bool (e : bool_expr) : bool :=
  match e with
  | BParen e | BNot e => ok_bool e
  | BAnd e1 e2 | BOr e1 e2 => ok_bool e1 && ok_bool e2
  | BEqual s1 s2 => ok_string s1 && ok_string s2
  | BOptionExists c => code_ok c
  | BRelay4Exists c => code_ok c && universe_is UniverseV4
  | BRelay6Exists n c => nest_ok n && code_ok c
  | BVendorClassExists id | BVendorExists id => vendor_ok id
  | BVendorOptionExists id c => vendor_ok id && code_ok c
  | BMember cc => defined cc
  end
with ok_string (s : string_expr) : bool :=
  match s with
  | SString _ | SHexString _ | SIpAddress _ | SPkt _ => true
  | SVendorEnterprise | SVendorClassEnterprise => true
  | SOption c _ => code_ok c
  | SRelay4 c _ => code_ok c && universe_is UniverseV4
  | SRelay6Option n c _ => nest_ok n && code_ok c
  | SPkt4 _ => universe_is UniverseV4
  | SPkt6 _ => universe_is UniverseV6
  | SRelay6Field n _ => nest_ok n
  | SSubstring s _ _ => ok_string s
  | SConcat s1 s2 => ok_string s1 && ok_string s2
  | SIfElse e s1 s2 => ok_bool e && (ok_string s1 && ok_string s2)
  | SVendorOption id c _ => vendor_ok id && code_ok c
  | SVendorClassData id => vendor_ok id
  | SVendorClassDataIndex id n => vendor_ok id && index_ok n
  | SInteger n => unsigned_ok n
  end.

Fixpoint members_bool (e : bool_expr) : list string :=
  match e with
  | BParen e | BNot e => members_bool e
  | BAnd e1 e2 | BOr e1 e2 => members_bool e1 ++ members_bool e2
  | BEqual s1 s2 => members_string s1 ++ members_string s2
  | BMember cc => [cc]
  | _ => []
  end
with members_string (s : string_expr) : list string :=
  match s with
  | SSubstring s _ _ => members_string s
  | SConcat s1 s2 => members_string s1 ++ members_string s2
  | SIfElse e s1 s2 => members_bool e ++ members_string s1 ++ members_string s2
  | _ => []
  end.

Abbreviation code := (code_of defs u).

Fixpoint tokens_bool (e : bool_expr) : Expression :=
  match e with
  | BParen e => tokens_bool e
  | BNot e => tokens_bool e ++ [TokenNot]
  | BAnd e1 e2 => tokens_bool e1 ++ tokens_bool e2 ++ [TokenAnd]
  | BOr e1 e2 => tokens_bool e1 ++ tokens_bool e2 ++ [TokenOr]
  | BEqual s1 s2 => tokens_string s1 ++ tokens_string s2 ++ [TokenEqual]
  | BOptionExists c => [TokenOption (code c) EXISTS]
  | BRelay4Exists c => [TokenRelay4Option (code c) EXISTS]
  | BRelay6Exists n c => [TokenRelay6Option (number n) (code c) EXISTS]
  | BVendorClassExists id => [mkTokenVendorClass_option u (vendor_of id) EXISTS]
  | BVendorExists id => [mkTokenVendor_option u (vendor_of id) EXISTS 0]
  | BVendorOptionExists id c => [mkTokenVendor_option u (vendor_of id) EXISTS (code c)]
  | BMember cc => [TokenMember cc]
  end
with tokens_string (s : string_expr) : Expression :=
  match s with
  | SString v => [TokenString v]
  | SHexString v => [mkTokenHexString v]
  | SIpAddress v => [mkTokenIpAddress v]
  | SOption c r => [TokenOption (code c) (repr_action r)]
  | SRelay4 c r => [TokenRelay4Option (code c) (repr_action r)]
  | SRelay6Option n c r => [TokenRelay6Option (number n) (code c) (repr_action r)]
  | SPkt m => [TokenPkt m]
  | SPkt4 f => [TokenPkt4 f]
  | SPkt6 f => [TokenPkt6 f]
  | SRelay6Field n f => [TokenRelay6Field (number n) f]
  | SSubstring s start len =>
      tokens_string s ++ [TokenString start;
        TokenString match len with LengthInteger t => t | LengthAll => "all" end; TokenSubstring]
  | SConcat s1 s2 => tokens_string s1 ++ tokens_string s2 ++ [TokenConcat]
  | SIfElse e s1 s2 => tokens_bool e ++ tokens_string s1 ++ tokens_string s2 ++ [TokenIfElse]
  | SVendorEnterprise => [mkTokenVendor_field u 0 ENTERPRISE_ID]
  | SVendorClassEnterprise => [mkTokenVendorClass_field u 0 ENTERPRISE_ID 0]
  | SVendorOption id c r => [mkTokenVendor_option u (vendor_of id) (repr_action r) (code c)]
  | SVendorClassData id => [mkTokenVendorClass_field u (vendor_of id) DATA 0]
  | SVendorClassDataIndex id n => [mkTokenVendorClass_field u (vendor_of id) DATA (number n)]
  | SInteger n => [TokenInteger (unsigned n)]
  end.

(** *** The conversions *)

Lemma number_range s lo hi :
  in_range lo hi (lexical_cast_int s) = true → lo ≤ number s ≤ hi.
Proof. unfold in_range, number. destruct (lexical_cast_int s); simpl; [|done]. lia. Qed.
Lemma unsigned_range s : unsigned_ok s = true → 0 ≤ unsigned s < 2 ^ 32.
Proof.
  unfold unsigned_ok, in_range, unsigned. destruct (lexical_cast_uint64 s); simpl; [|done]. lia.
Qed.

Lemma convertOptionCode_ok s :
  convertOptionCode u s
  = if code_ok (CodeInteger s) then Ok (code (CodeInteger s)) else Throw EvalParseError.
Proof.
  unfold convertOptionCode, code_ok, in_range, code_of, number.
  destruct (lexical_cast_int s) as [n|]; [|done]. simpl default.
  destruct u; (destruct (Z.ltb_spec n 0), (Z.leb_spec 0 n); try lia; [done|]).
  - destruct (Z.ltb_spec 255 n), (Z.leb_spec n 255); try lia; [done|].
    simpl. by rewrite Z.mod_small by lia.
  - destruct (Z.ltb_spec 65535 n), (Z.leb_spec n 65535); try lia; [done|].
    simpl. by rewrite Z.mod_small by lia.
Qed.

Lemma convertOptionName_ok s :
  convertOptionName defs u s
  = if code_ok (CodeName s) then Ok (code (CodeName s)) else Throw EvalParseError.
Proof.
  unfold convertOptionName, code_ok, code_of, name_code.
  destruct (getOptionDef defs u s); [done|]. destruct (getRuntimeOptionDef defs u s); [done|].
  by destruct (getLastResortOptionDef defs u s).
Qed.

Lemma convertUint8_ok s :
  convertUint8 s = if index_ok s then Ok (number s) else Throw EvalParseError.
Proof.
  unfold convertUint8, index_ok, in_range, number, u8.
  destruct (lexical_cast_int s) as [n|]; [|done]. simpl default.
  destruct (Z.ltb_spec n 0), (Z.leb_spec 0 n); try lia; [done|].
  destruct (Z.ltb_spec 255 n), (Z.leb_spec n 255); try lia; [done|].
  simpl. by rewrite Z.mod_small by lia.
Qed.

Lemma int8_u8 n : -128 ≤ n ≤ 127 → int8 (u8 n) = n.
Proof.
  intros Hn. unfold int8, u8. destruct (Z.leb_spec 0 n).
  - rewrite Z.mod_small by lia. destruct (Z.ltb_spec n 128); lia.
  - assert (n `mod` 256 = n + 256) as ->.
    { symmetry. apply (Z.mod_unique_pos _ _ (-1)); lia. }
    destruct (Z.ltb_spec (n + 256) 128); lia.
Qed.

Lemma convertNestLevelNumber_ok s :
  convertNestLevelNumber u s = if nest_ok s then Ok (number s) else Throw EvalParseError.
Proof.
  unfold convertNestLevelNumber, convertInt8, nest_ok, universe_is, in_range, number.
  destruct (lexical_cast_int s) as [n|]; [|by rewrite andb_false_r]. simpl default.
  destruct (Z.ltb_spec n (-128)); simpl.
  { destruct (Z.leb_spec (-32) n); [lia|]. by rewrite andb_false_r. }
  destruct (Z.ltb_spec 127 n); simpl.
  { destruct (Z.leb_spec n 31); [lia|]. by rewrite !andb_false_r. }
  rewrite int8_u8 by lia. change HOP_COUNT_LIMIT with 32. change (- (32)) with (-32).
  destruct u; [done|]. simpl.
  destruct (Z.ltb_spec n (-32)), (Z.leb_spec (-32) n); try lia; [done|].
  destruct (Z.leb_spec 32 n), (Z.leb_spec n 31); try lia; done.
Qed.

Lemma convertUint32_ok s :
  convertUint32 s = if unsigned_ok s then Ok (unsigned s) else Throw EvalParseError.
Proof.
  unfold convertUint32, unsigned_ok, in_range, unsigned.
  destruct (lexical_cast_uint64 s) as [n|] eqn:E; [|done]. simpl default.
  apply lexical_cast_uint64_range in E as [??].
  destruct (Z.leb_spec 0 n); [|lia].
  destruct (Z.ltb_spec (2 ^ 32 - 1) n), (Z.leb_spec n (2 ^ 32 - 1)); try lia; [done|].
  simpl. unfold u32. by rewrite Z.mod_small by lia.
Qed.
End Compiled.

(** *** The semantic actions *)

Section Actions.
Context `{TextConversions} (defs : OptionDefs) (u : Universe).
Context {D : Type} (check_defined_ : string → ST D bool).
(** What the callback answers does not depend on what it was asked before. *)
Context (defined : string → bool) (effect : D → string → D).
Hypothesis Hcheck : ∀ c d, check_defined_ c d = (effect d c, Ok (defined c)).

Abbreviation Ctx := (EvalContext (D:=D)).

Definition extend (ctx : Ctx) (ts : Expression) (ms : list string) : Ctx :=
  {| expression := expression ctx ++ ts; check_state := foldl effect (check_state ctx) ms |}.

(** [m] appends [ts] and asks about [ms] if [ok], and is an error otherwise. *)
Definition runs (m : ST Ctx unit) (ok : bool) (ts : Expression) (ms : list string) : Prop :=
  ∀ ctx, if ok then m ctx = (extend ctx ts ms, Ok tt) else (m ctx).2 = Throw EvalParseError.

Lemma extend_nil ctx : extend ctx [] [] = ctx.
Proof. destruct ctx. unfold extend. simpl. by rewrite app_nil_r. Qed.

Lemma runs_push t : runs (push_back t) true [t] [].
Proof. intros ctx. done. Qed.

Lemma runs_seq m1 m2 ok1 ok2 ts1 ts2 ms1 ms2 :
  runs m1 ok1 ts1 ms1 → runs m2 ok2 ts2 ms2 →
  runs (m1 ≫= λ _, m2) (ok1 && ok2) (ts1 ++ ts2) (ms1 ++ ms2).
Proof.
  intros H1 H2 ctx. specialize (H1 ctx). unfold mbind, ST_bind.
  destruct (m1 ctx) as [ctx' r]. destruct ok1; cbn [andb] in *; [|by destruct r].
  injection H1 as -> ->. specialize (H2 (extend ctx ts1 ms1)). destruct ok2; [|done].
  rewrite H2. unfold extend. simpl. by rewrite <- app_assoc, <- foldl_app.
Qed.

Lemma runs_then m t ok ts ms :
  runs m ok ts ms → runs (m ≫= λ _, push_back t) ok (ts ++ [t]) ms.
Proof.
  intros Hm. pose proof (runs_seq _ _ _ _ _ _ _ _ Hm (runs_push t)) as Hs.
  by rewrite andb_true_r, app_nil_r in Hs.
Qed.

Lemma runs_lift {A} (r : res A) (v : A) (k : A → ST Ctx unit) ok1 ok2 ts ms :
  r = (if ok1 : bool then Ok v else Throw EvalParseError) → runs (k v) ok2 ts ms →
  runs (lift r ≫= k) (ok1 && ok2) ts ms.
Proof.
  intros -> Hk ctx. unfold lift, mbind, ST_bind. destruct ok1; [|done]. apply Hk.
Qed.

Lemma runs_code c k ok ts ms :
  runs (k (code_of defs u c)) ok ts ms →
  runs (option_code_action defs u c ≫= k) (code_ok defs u c && ok) ts ms.
Proof.
  intros Hk. destruct c; simpl; eapply runs_lift; eauto.
  - apply convertOptionCode_ok.
  - apply convertOptionName_ok.
Qed.

Lemma runs_vendor id k ok ts ms :
  runs (k (vendor_of id)) ok ts ms →
  runs (enterprise_id_action id ≫= k) (vendor_ok id && ok) ts ms.
Proof.
  intros Hk. destruct id; simpl; [|intros ctx; apply Hk].
  eapply runs_lift; [apply convertUint32_ok|done].
Qed.

Lemma runs_nest n k ok ts ms :
  runs (k (number n)) ok ts ms →
  runs (lift (convertNestLevelNumber u n) ≫= k) (nest_ok u n && ok) ts ms.
Proof. apply runs_lift, convertNestLevelNumber_ok. Qed.

Lemma runs_index n k ok ts ms :
  runs (k (number n)) ok ts ms → runs (lift (convertUint8 n) ≫= k) (index_ok n && ok) ts ms.
Proof. apply runs_lift, convertUint8_ok. Qed.

Lemma runs_uint32 n k ok ts ms :
  runs (k (unsigned n)) ok ts ms → runs (lift (convertUint32 n) ≫= k) (unsigned_ok n && ok) ts ms.
Proof. apply runs_lift, convertUint32_ok. Qed.

Lemma runs_length len :
  runs (length_action len) true
    [TokenString match len with LengthInteger t => t | LengthAll => "all" end] [].
Proof. by destruct len. Qed.

Lemma runs_only_in v t : runs (only_in u v t) (universe_is u v) [t] [].
Proof.
  intros ctx. unfold only_in, universe_is. case_bool_decide; [apply runs_push|done].
Qed.

Lemma runs_member cc :
  runs (defined ← isClientClassDefined_ctx check_defined_ cc;
        _ ← lift (throw_if (negb defined) EvalParseError); push_back (TokenMember cc))
    (defined cc) [TokenMember cc] [cc].
Proof using Hcheck.
  intros ctx. unfold isClientClassDefined_ctx, zoom, mbind, ST_bind. rewrite Hcheck.
  by destruct (defined cc).
Qed.

Lemma nest_only_in n : nest_ok u n = true → universe_is u UniverseV6 = true.
Proof. unfold nest_ok. by intros [? _]%andb_prop. Qed.

Lemma runs_eq m ok ok' ts ts' ms ms' :
  runs m ok ts ms → ok = ok' → ts = ts' → ms = ms' → runs m ok' ts' ms'.
Proof. by intros ? <- <- <-. Qed.

Create HintDb runs discriminated.
#[local] Hint Resolve runs_push runs_seq runs_then runs_code runs_vendor runs_nest runs_index
  runs_uint32 runs_length runs_only_in runs_member : runs.

Lemma nest_absorbs n ok :
  nest_ok u n && (ok && universe_is u UniverseV6) = nest_ok u n && ok.
Proof.
  destruct (nest_ok u n) eqn:E; [|done]. by rewrite (nest_only_in _ E), andb_true_r.
Qed.

Lemma nest_universe n : nest_ok u n && universe_is u UniverseV6 = nest_ok u n.
Proof. pose proof (nest_absorbs n true) as Hn. by rewrite andb_true_r in Hn. Qed.

Lemma actions_run :
  (∀ e, runs (bool_action defs u check_defined_ e) (ok_bool defs u defined e)
          (tokens_bool defs u e) (members_bool e)) ∧
  (∀ s, runs (string_action defs u check_defined_ s) (ok_string defs u defined s)
          (tokens_string defs u s) (members_string s)).
Proof using Hcheck.
  apply expr_ind; intros; cbn [bool_action string_action];
    (eapply runs_eq; [eauto 8 with runs|..]);
    cbn [ok_bool ok_string tokens_bool tokens_string members_bool members_string];
    rewrite ?andb_true_r, ?app_nil_r, <- ?app_assoc, ?nest_absorbs, ?nest_universe; try done.
Qed.
End Actions.

(** *** What the tokens compute *)

Section Meaning.
Context `{TextConversions} (defs : OptionDefs) (u : Universe) (defined : string → bool).
Context (p : Pkt).
Hypothesis Hu : pkt_universe p = u.
Hypothesis Hrelays : relays_ok p.

Lemma toBool_of_bool b : toBool (of_bool b) = Ok b.
Proof. by destruct b. Qed.

Lemma option_value_exists o : option_value EXISTS o = Ok (of_bool (bool_decide (is_Some o))).
Proof. by destruct o. Qed.

Lemma option_value_repr r o : option_value (repr_action r) o = sem_repr r o.
Proof. by destruct o, r. Qed.

(** A level counted from the client, from the end of the list. *)
Lemma lookup_from_end {A} (l : list A) n :
  n < 0 → 0 ≤ Z.of_nat (length l) + n →
  l !! Z.to_nat (Z.of_nat (length l) + n) = reverse l !! Z.to_nat (- n - 1).
Proof.
  intros H1 H2. rewrite reverse_lookup by lia. f_equal. lia.
Qed.

Lemma relay_level n relays :
  (∃ t, pkt_kind p = Pkt6 t relays) → -32 ≤ n ≤ 31 →
  relay_at p n
  = (if 0 <=? n then relays !! Z.to_nat (u8 n)
     else let k := Z.of_nat (length relays) + n in
          if k <? 0 then None else relays !! Z.to_nat (u8 k)).
Proof using Hrelays.
  intros [t E] Hn.
  pose proof Hrelays as Hr. unfold relays_ok in Hr. unfold relay_at, u8. rewrite E in *.
  destruct (Z.leb_spec 0 n); [by rewrite Z.mod_small by lia|]. cbn zeta.
  destruct (Z.ltb_spec (Z.of_nat (length relays) + n) 0).
  - apply lookup_ge_None_2. rewrite length_reverse. lia.
  - rewrite Z.mod_small by lia. by rewrite lookup_from_end by lia.
Qed.

Lemma relay6_option_spec n code :
  u = UniverseV6 → -32 ≤ n ≤ 31 → relay6_option n code p = Ok (relay6_opt p n code).
Proof using Hu Hrelays.
  intros -> Hn. unfold pkt_universe in Hu. unfold relay6_option, relay6_opt.
  destruct (pkt_kind p) as [|t relays] eqn:E; [done|].
  rewrite (relay_level n relays) by eauto. cbn zeta. unfold getRelayOption.
  destruct (Z.leb_spec 0 n).
  - by destruct (relays !! Z.to_nat (u8 n)).
  - destruct (Z.ltb_spec (Z.of_nat (length relays) + n) 0); [done|].
    by destruct (relays !! Z.to_nat (u8 (Z.of_nat (length relays) + n))).
Qed.

Lemma relay6_value_spec n f :
  u = UniverseV6 → -32 ≤ n ≤ 31 →
  relay6_value n f p
  = Ok match relay_at p n with
       | Some r => string_of_bytes (toBytes match f with LINKADDR => linkaddr_ r
                                                       | PEERADDR => peeraddr_ r end)
       | None => ""
       end.
Proof using Hu Hrelays.
  intros -> Hn. unfold pkt_universe in Hu.
  pose proof Hrelays as Hr. unfold relays_ok in Hr.
  unfold relay6_value. destruct (pkt_kind p) as [|t relays] eqn:E; [done|].
  assert (relay_at p n = relays !! Z.to_nat (if 0 <=? n then u8 n
     else let k := Z.of_nat (length relays) + n in u8 (if k <? 0 then 32 else k))) as ->.
  { rewrite (relay_level n relays) by eauto. cbn zeta.
    destruct (Z.leb_spec 0 n); [done|].
    destruct (Z.ltb_spec (Z.of_nat (length relays) + n) 0); [|done].
    symmetry. apply lookup_ge_None_2. change (u8 32) with 32. lia. }
  unfold getRelay6LinkAddress, getRelay6PeerAddress. cbn zeta.
  destruct f; by destruct (relays !! _).
Qed.

Lemma vendor_value_spec id field rep code :
  vendor_value u id field rep code p
  = match vendor_option u p id with
    | None => Ok (failure_value rep)
    | Some (v, o) => match field with
                     | ENTERPRISE_ID => Ok (enterprise_bytes v)
                     | SUBOPTION => option_value rep (suboption o code)
                     | FIELD_EXISTS => Ok "true"
                     | DATA => Throw EvalTypeError
                     end
    end.
Proof.
  unfold vendor_value, vendor_option, as_vendor, vendor_suboption.
  destruct (getOption p (vendor_code u)) as [o|]; [|done]. simpl.
  destruct (option_class_ o); try done. by destruct (id =? 0), (id =? vendor_id); destruct field.
Qed.

Lemma vendor_class_value_spec id field rep index :
  0 ≤ index →
  vendor_class_value u id field rep index p
  = match vendor_class_option u p id with
    | None => Ok (failure_value rep)
    | Some (v, tuples) =>
        match field with
        | ENTERPRISE_ID => Ok (enterprise_bytes v)
        | SUBOPTION => Throw EvalTypeError
        | FIELD_EXISTS => Ok "true"
        | DATA => Ok (default "" (string_of_bytes <$> tuples !! Z.to_nat index))
        end
    end.
Proof.
  intros Hi. unfold vendor_class_value, vendor_class_option, as_vendor_class.
  destruct (getOption p (vendor_class_code u)) as [o|]; [|done]. simpl.
  destruct (option_class_ o) as [| | | | | |v tuples|]; try done.
  assert (Hd : (if Z.of_nat (length tuples) <? index + 1 then Ok ""
                else match tuples !! Z.to_nat index with
                     | Some t => Ok (tuple_getText t) | None => Throw OutOfRange end)
               = Ok (default "" (string_of_bytes <$> tuples !! Z.to_nat index))).
  { destruct (Z.ltb_spec (Z.of_nat (length tuples)) (index + 1)).
    - by rewrite lookup_ge_None_2 by lia.
    - destruct (lookup_lt_is_Some_2 tuples (Z.to_nat index)) as [t ->]; [lia|done]. }
  by destruct (id =? 0), (id =? v); destruct field.
Qed.

(** [std::string::substr]. *)
Lemma substring_slice s n m :
  String.substring n m s
  = String.string_of_list_ascii (take m (drop n (String.list_ascii_of_string s))).
Proof.
  revert n m. induction s as [|c s IH]; intros n m; simpl.
  { by destruct n, m. }
  destruct n as [|n].
  - destruct m as [|m]; [done|]. simpl. f_equal. apply IH.
  - apply IH.
Qed.

Lemma substring_value_spec s start len :
  substring_value s start (match len with LengthInteger t => t | LengthAll => "all" end)
  = sem_substring s start len.
Proof.
  unfold substring_value, sem_substring. case_bool_decide as E0; [by subst|].
  destruct (Z.eqb_spec (Z.of_nat (String.length s)) 0) as [E|_].
  { destruct s; [done|simpl in E; lia]. }
  destruct (lexical_cast_int start) as [i|]; [|by destruct len].
  set (n := Z.of_nat (String.length s)).
  replace (if bool_decide (match len with LengthInteger t => t | LengthAll => "all" end = "all")
           then Some n
           else lexical_cast_int match len with LengthInteger t => t | LengthAll => "all" end)
    with (match len with LengthAll => Some n
          | LengthInteger t => if bool_decide (t = "all") then Some n
                               else lexical_cast_int t end) by (by destruct len).
  destruct (match len with LengthAll => Some n
            | LengthInteger t => if bool_decide (t = "all") then Some n
                                 else lexical_cast_int t end) as [k|]; [|done].
  destruct ((i <? - n) || (n <=? i)) eqn:Ei; [done|].
  apply orb_false_elim in Ei as [Ei1%Z.ltb_ge Ei2%Z.leb_gt]. cbn zeta.
  set (j := if i <? 0 then n + i else i).
  assert (0 ≤ j). { subst j. destruct (Z.ltb_spec i 0); lia. }
  unfold slice. destruct (Z.ltb_spec k 0), (Z.leb_spec 0 k); try lia.
  - destruct (k =? - 2 ^ 31); [done|]. destruct (Z.leb_spec (- k) j); f_equal.
    + rewrite substring_slice. do 3 f_equal; lia.
    + rewrite substring_slice. do 3 f_equal; lia.
  - rewrite substring_slice. do 3 f_equal; lia.
Qed.

Lemma be_split4 n :
  be_split 4 n = [(n `div` 2 ^ 24) `mod` 256; (n `div` 2 ^ 16) `mod` 256;
                  (n `div` 2 ^ 8) `mod` 256; n `mod` 256].
Proof. cbn. by rewrite Z.div_1_r. Qed.

Lemma fromUint32_spec n : fromUint32 n = string_of_bytes (be_split 4 n).
Proof.
  unfold fromUint32. rewrite be_split4.
  by rewrite !(Z.land_ones _ 8 : _ → Z.land _ 255 = _), !Z.shiftr_div_pow2 by lia.
Qed.

Lemma evaluate_loop_cons t ts vs :
  evaluate_loop (t :: ts) p vs = (vs' ← evaluate t p vs; evaluate_loop ts p vs').
Proof. done. Qed.

(** A token that pushes one value. *)
Lemma push_value (r : res string) ts vs :
  (vs' ← (v ← r; mret (v :: vs)); evaluate_loop ts p vs')
  = (v ← r; evaluate_loop ts p (v :: vs)).
Proof. by destruct r. Qed.

Lemma hex_literal v vs : evaluate (mkTokenHexString v) p vs = Ok (literal (mkTokenHexString v) :: vs).
Proof.
  unfold mkTokenHexString. destruct (_ || _); [done|]. cbn zeta.
  by destruct (decodeHex _).
Qed.

Lemma ip_literal v vs : evaluate (mkTokenIpAddress v) p vs = Ok (literal (mkTokenIpAddress v) :: vs).
Proof. unfold mkTokenIpAddress. by destruct (address_of_text v). Qed.

Lemma head_lookup {A} (l : list A) : head l = l !! 0%nat.
Proof. by destruct l. Qed.

Lemma nest_ok_spec n : nest_ok u n = true → u = UniverseV6 ∧ -32 ≤ number n ≤ 31.
Proof.
  unfold nest_ok, universe_is. intros [Hv Hn]%andb_prop.
  split; [by apply bool_decide_eq_true in Hv|by apply number_range].
Qed.

(** The tokens of an expression leave its value on the stack, or throw what it throws. *)
Definition bool_means (e : bool_expr) : Prop :=
  ok_bool defs u defined e = true → ∀ rest vs,
  evaluate_loop (tokens_bool defs u e ++ rest) p vs
  = (b ← sem_bool defs u e p; evaluate_loop rest p (of_bool b :: vs)).
Definition string_means (s : string_expr) : Prop :=
  ok_string defs u defined s = true → ∀ rest vs,
  evaluate_loop (tokens_string defs u s ++ rest) p vs
  = (v ← sem_string defs u s p; evaluate_loop rest p (v :: vs)).

(** Expressions compiled to one token. *)
Lemma leaf_bool e t b :
  tokens_bool defs u e = [t] → sem_bool defs u e p = Ok b →
  (ok_bool defs u defined e = true → ∀ vs, evaluate t p vs = Ok (of_bool b :: vs)) →
  bool_means e.
Proof.
  intros Ht Hb He Hok rest vs. rewrite Ht, Hb. cbn [app]. by rewrite evaluate_loop_cons, He.
Qed.

Lemma leaf_string s t r :
  tokens_string defs u s = [t] → sem_string defs u s p = r →
  (ok_string defs u defined s = true → ∀ vs, evaluate t p vs = (v ← r; mret (v :: vs))) →
  string_means s.
Proof.
  intros Ht Hr He Hok rest vs. rewrite Ht, Hr. cbn [app].
  by rewrite evaluate_loop_cons, He, push_value.
Qed.

(** Operators: the tokens of the operands, then the token of the operator. *)
Lemma eval_bool e rest vs :
  bool_means e → ok_bool defs u defined e = true →
  evaluate_loop (tokens_bool defs u e ++ rest) p vs
  = (b ← sem_bool defs u e p; evaluate_loop rest p (of_bool b :: vs)).
Proof. auto. Qed.

Lemma eval_string s rest vs :
  string_means s → ok_string defs u defined s = true →
  evaluate_loop (tokens_string defs u s ++ rest) p vs
  = (v ← sem_string defs u s p; evaluate_loop rest p (v :: vs)).
Proof. auto. Qed.

Ltac operands :=
  repeat match goal with
  | |- context [evaluate_loop (tokens_bool defs u ?e ++ _) _ _] =>
      rewrite (eval_bool e) by auto; destruct (sem_bool defs u e p); [|done];
      cbn [mbind res_bind fmap res_fmap]
  | |- context [evaluate_loop (tokens_string defs u ?s ++ _) _ _] =>
      rewrite (eval_string s) by auto; destruct (sem_string defs u s p); [|done];
      cbn [mbind res_bind fmap res_fmap]
  end.

Lemma not_means e : bool_means e → bool_means (BNot e).
Proof.
  intros IH Hok rest vs. cbn [tokens_bool tokens_string sem_bool sem_string] in *. rewrite <- app_assoc.
  operands. by destruct a.
Qed.

Lemma and_means e1 e2 : bool_means e1 → bool_means e2 → bool_means (BAnd e1 e2).
Proof.
  intros IH1 IH2 [??]%andb_prop rest vs. cbn [tokens_bool tokens_string sem_bool sem_string]. rewrite <- !app_assoc.
  operands. by destruct a, a0.
Qed.

Lemma or_means e1 e2 : bool_means e1 → bool_means e2 → bool_means (BOr e1 e2).
Proof.
  intros IH1 IH2 [??]%andb_prop rest vs. cbn [tokens_bool tokens_string sem_bool sem_string]. rewrite <- !app_assoc.
  operands. by destruct a, a0.
Qed.

Lemma equal_means s1 s2 : string_means s1 → string_means s2 → bool_means (BEqual s1 s2).
Proof.
  intros IH1 IH2 [Hok1 Hok2]%andb_prop rest vs.
  change (tokens_bool defs u (BEqual s1 s2))
    with (tokens_string defs u s1 ++ tokens_string defs u s2 ++ [TokenEqual]).
  change (sem_bool defs u (BEqual s1 s2) p)
    with (v1 ← sem_string defs u s1 p; v2 ← sem_string defs u s2 p;
          mret (bool_decide (v1 = v2))).
  rewrite <- !app_assoc. operands. cbn [app]. rewrite evaluate_loop_cons.
  cbn [evaluate mbind res_bind mret res_ret].
  by rewrite (bool_decide_ext (a0 = a) (a = a0)) by done.
Qed.

Lemma concat_means s1 s2 : string_means s1 → string_means s2 → string_means (SConcat s1 s2).
Proof.
  intros IH1 IH2 [??]%andb_prop rest vs. cbn [tokens_bool tokens_string sem_bool sem_string]. rewrite <- !app_assoc.
  by operands.
Qed.

Lemma ifelse_means e s1 s2 :
  bool_means e → string_means s1 → string_means s2 → string_means (SIfElse e s1 s2).
Proof.
  intros IH IH1 IH2 [Hok [Hok1 Hok2]%andb_prop]%andb_prop rest vs.
  change (tokens_string defs u (SIfElse e s1 s2))
    with (tokens_bool defs u e ++ tokens_string defs u s1 ++ tokens_string defs u s2
          ++ [TokenIfElse]).
  change (sem_string defs u (SIfElse e s1 s2) p)
    with (b ← sem_bool defs u e p; v1 ← sem_string defs u s1 p; v2 ← sem_string defs u s2 p;
          mret (if (b : bool) then v1 else v2)).
  rewrite <- !app_assoc. operands. by destruct a.
Qed.

Lemma substring_means s start len : string_means s → string_means (SSubstring s start len).
Proof.
  intros IH Hok rest vs. cbn [tokens_bool tokens_string sem_bool sem_string] in *. rewrite <- app_assoc.
  operands. cbn [app]. rewrite !evaluate_loop_cons. cbn [evaluate].
  cbn [mbind res_bind]. rewrite evaluate_loop_cons. cbn [evaluate mbind res_bind].
  rewrite evaluate_loop_cons. cbn [evaluate]. by rewrite substring_value_spec, push_value.
Qed.

Lemma vendor_means id rep code (b : res string) vs :
  b = match vendor_option u p id with
      | Some (_, o) => if code =? 0 then Ok "true" else option_value rep (suboption o code)
      | None => Ok (failure_value rep)
      end →
  evaluate (mkTokenVendor_option u id rep code) p vs = (v ← b; mret (v :: vs)).
Proof.
  intros ->. unfold mkTokenVendor_option. cbn [evaluate]. rewrite vendor_value_spec.
  destruct (vendor_option u p id) as [[v o]|]; [|done]. by destruct (code =? 0).
Qed.

Lemma vendor_class_field_means id index vs :
  0 ≤ index →
  evaluate (mkTokenVendorClass_field u id DATA index) p vs
  = Ok (match vendor_class_option u p id with
        | Some (_, tuples) => default "" (string_of_bytes <$> tuples !! Z.to_nat index)
        | None => ""
        end :: vs).
Proof.
  intros Hi. unfold mkTokenVendorClass_field. cbn [evaluate].
  rewrite vendor_class_value_spec by done. by destruct (vendor_class_option u p id) as [[]|].
Qed.

Lemma tokens_mean : (∀ e, bool_means e) ∧ (∀ s, string_means s).
Proof using Hu Hrelays.
  apply expr_ind; intros; auto using not_means, and_means, or_means, equal_means, concat_means,
    ifelse_means, substring_means.
  all: first [eapply leaf_bool; [done..|intros Hok vs] | eapply leaf_string; [done..|intros Hok vs]].
  all: cbn [ok_bool ok_string] in Hok; cbn [evaluate]; rewrite ?option_value_repr, ?option_value_exists.
  all: try done.
  - apply andb_prop in Hok as [[Hv Hn]%nest_ok_spec _].
    rewrite relay6_option_spec by done. cbn [mbind res_bind]. by rewrite option_value_exists.
  - unfold mkTokenVendorClass_option. cbn [evaluate]. rewrite vendor_class_value_spec by done.
    by destruct (vendor_class_option u p (vendor_of id)) as [[]|].
  - rewrite (vendor_means _ _ _ _ _ eq_refl).
    by destruct (vendor_option u p (vendor_of id)) as [[]|].
  - rewrite (vendor_means _ _ _ _ _ eq_refl).
    destruct (vendor_option u p (vendor_of id)) as [[v o]|]; [|done].
    destruct (code_of defs u c =? 0); [done|]. by rewrite option_value_exists.
  - by rewrite hex_literal.
  - by rewrite ip_literal.
  - apply andb_prop in Hok as [[Hv Hn]%nest_ok_spec _].
    rewrite relay6_option_spec by done. cbn [mbind res_bind]. by rewrite option_value_repr.
  - apply nest_ok_spec in Hok as [Hv Hn]. by rewrite relay6_value_spec.
  - unfold mkTokenVendor_field. cbn [evaluate]. rewrite vendor_value_spec.
    cbn [sem_string]. by destruct (vendor_option u p 0) as [[]|].
  - unfold mkTokenVendorClass_field. cbn [evaluate]. rewrite vendor_class_value_spec by done.
    cbn [sem_string]. by destruct (vendor_class_option u p 0) as [[]|].
  - rewrite (vendor_means _ _ _ _ _ eq_refl). cbn [sem_string].
    destruct (vendor_option u p (vendor_of id)) as [[v o]|]; [|by destruct r].
    destruct (code_of defs u c =? 0); [done|]. by rewrite option_value_repr.
  - rewrite vendor_class_field_means by done. cbn [sem_string].
    destruct (vendor_class_option u p (vendor_of id)) as [[v tuples]|]; [|done].
    by rewrite head_lookup.
  - apply andb_prop in Hok as [_ Hn%number_range]. rewrite vendor_class_field_means by lia.
    done.
  - by rewrite fromUint32_spec.
Qed.
End Meaning.

(** The text that is not in the grammar is no expression; the others are accepted
    exactly if [ok_bool] holds. *)
Lemma parseString_run `{TextConversions} (defs : OptionDefs) (u : Universe) {D : Type}
    (check_defined_ : string → ST D bool) (defined : string → bool) (effect : D → string → D)
    (Hcheck : ∀ c d, check_defined_ c d = (effect d c, Ok (defined c)))
    (text : option bool_expr) (d : D) :
  match text with
  | Some e => if ok_bool defs u defined e
              then parseString defs u check_defined_ text d
                   = (foldl effect d (members_bool e), Ok (tokens_bool defs u e))
              else (parseString defs u check_defined_ text d).2 = Throw EvalParseError
  | None => parseString defs u check_defined_ text d = (d, Throw EvalParseError)
  end.
Proof.
  destruct text as [e|]; [|done].
  pose proof (proj1 (actions_run defs u check_defined_ defined effect Hcheck) e
    {| expression := []; check_state := d |}) as Hrun.
  unfold parseString. destruct (ok_bool defs u defined e); [by rewrite Hrun|].
  destruct (bool_action _ _ _ _ _) as [c [?|?]]; by simplify_eq/=.
Qed.

Lemma tokens_evaluate `{TextConversions} (defs : OptionDefs) (u : Universe)
    (defined : string → bool) (e : bool_expr) (p : Pkt) :
  ok_bool defs u defined e = true → pkt_universe p = u → relays_ok p →
  evaluateBool (tokens_bool defs u e) p = sem_bool defs u e p.
Proof.
  intros Hok Hu Hr. pose proof (proj1 (tokens_mean defs u defined p Hu Hr) e Hok [] []) as Hm.
  rewrite app_nil_r in Hm. unfold evaluateBool. rewrite Hm.
  destruct (sem_bool defs u e p); [|done]. simpl. by rewrite toBool_of_bool.
Qed.

(** *** What evaluation can throw

    [good] are the exceptions that may come; with none of them, evaluation always
    safe. *)

Section Total.
Context `{TextConversions} (defs : OptionDefs) (u : Universe) (good : exc → bool).

Definition safe {A} (r : res A) : Prop :=
  match r with Ok _ => True | Throw x => good x = true end.

Definition converts (o : Option) : Prop := safe (option_toString o) ∧ safe (option_toBinary o).

(** Every option can be printed and packed, or the exception is a good one, and a DHCPv4
    packet has a hardware address and a message type that can be read. *)
Record pkt_ok (p : Pkt) : Prop := {
  ok_options : Forall (λ o, converts o ∧ Forall converts (suboptions_ o)) (options_ p);
  ok_relays : relays_ok p;
  ok_relay_options : ∀ t l, pkt_kind p = Pkt6 t l →
    Forall (λ r, Forall converts (relay_options_ r)) l;
  ok_type : safe (pkt4_getType p);
  ok_hwaddr : ∀ h a b c d, pkt_kind p = Pkt4 h a b c d → is_Some h ∨ good EvalTypeError = true
}.

(** The numbers of a substring fit into an [int], and the length can be negated. *)
Definition number_fits (t : string) : bool :=
  bool_decide (is_Some (lexical_cast_int t)) || good EvalTypeError.
Definition length_fits (len : length_expr) : bool :=
  match len with
  | LengthInteger t =>
      number_fits t && (negb (bool_decide (lexical_cast_int t = Some (- 2 ^ 31)))
                        || good AssertionFailure)
  | LengthAll => true
  end.

Fixpoint fits_bool (e : bool_expr) : bool :=
  match e with
  | BParen e | BNot e => fits_bool e
  | BAnd e1 e2 | BOr e1 e2 => fits_bool e1 && fits_bool e2
  | BEqual s1 s2 => fits_string s1 && fits_string s2
  | _ => true
  end
with fits_string (s : string_expr) : bool :=
  match s with
  | SSubstring s start len =>
      fits_string s && (number_fits start && length_fits len)
  | SConcat s1 s2 => fits_string s1 && fits_string s2
  | SIfElse e s1 s2 => fits_bool e && (fits_string s1 && fits_string s2)
  | _ => true
  end.

Lemma safe_res_bind {A B} (r : res A) (f : A → res B) :
  safe r → (∀ a, safe (f a)) → safe (r ≫= f).
Proof. destruct r; [intros _ Hf; apply Hf|done]. Qed.
Lemma safe_res_fmap {A B} (r : res A) (f : A → B) : safe r → safe (f <$> r).
Proof. by destruct r. Qed.
Lemma safe_ok {A} (a : A) : safe (Ok a).
Proof. done. Qed.

Lemma safe_mret {A} (a : A) : safe (mret a : res A).
Proof. done. Qed.

Lemma find_option_elem c l o : find_option c l = Some o → o ∈ l.
Proof.
  unfold find_option. rewrite fmap_Some. intros ([i o'] & Hf & ->).
  apply list_find_Some in Hf as (Hl & _ & _). by eapply list_elem_of_lookup_2.
Qed.

Lemma sem_repr_safe r o : (∀ x, o = Some x → converts x) → safe (sem_repr r o).
Proof.
  intros Ho. destruct o as [x|]; [|done].
  destruct (Ho x eq_refl) as [Hs Hb]. destruct r; simpl; [done|by apply safe_res_fmap].
Qed.

Lemma getOption_converts p c o :
  pkt_ok p → getOption p c = Some o → converts o ∧ Forall converts (suboptions_ o).
Proof.
  intros Hp Ho%find_option_elem. by apply (proj1 (Forall_forall _ _) (ok_options _ Hp)).
Qed.

Lemma suboption_converts p c o k x :
  pkt_ok p → getOption p c = Some o → suboption o k = Some x → converts x.
Proof.
  intros Hp Ho Hx%find_option_elem. destruct (getOption_converts _ _ _ Hp Ho) as [_ Hs].
  by apply (proj1 (Forall_forall _ _) Hs).
Qed.

Lemma relay6_converts p n c o : pkt_ok p → relay6_opt p n c = Some o → converts o.
Proof.
  intros Hp. unfold relay6_opt, relay_at. destruct (pkt_kind p) as [|t relays] eqn:E; [done|].
  pose proof (ok_relay_options _ Hp t relays E) as Hr. rewrite Forall_forall in Hr.
  intros Ho. apply bind_Some in Ho as (r & Hl & Ho%find_option_elem).
  assert (Hin : r ∈ relays).
  { destruct (0 <=? n); apply list_elem_of_lookup_2 in Hl; [done|by apply elem_of_reverse]. }
  specialize (Hr r Hin). rewrite Forall_forall in Hr. auto.
Qed.

Lemma sem_substring_safe s start len :
  number_fits start = true → length_fits len = true → safe (sem_substring s start len).
Proof.
  unfold number_fits, length_fits, sem_substring. intros Hstart Hlen.
  destruct (Z.of_nat (String.length s) =? 0); [done|].
  destruct (lexical_cast_int start) as [i|]; [|done].
  destruct len as [t|]; unfold number_fits in Hlen.
  - destruct (bool_decide (t = "all")).
    { destruct ((i <? _) || _); [done|]. cbn zeta.
      by destruct (Z.leb_spec 0 (Z.of_nat (String.length s))); [|lia]. }
    destruct (lexical_cast_int t) as [k|]; [|by apply andb_prop in Hlen as [? _]].
    destruct ((i <? _) || _); [done|]. cbn zeta. destruct (0 <=? k); [done|].
    destruct (Z.eqb_spec k (- 2 ^ 31)) as [->|]; [|done].
    by rewrite bool_decide_true in Hlen by done.
  - destruct ((i <? _) || _); [done|]. cbn zeta.
    by destruct (Z.leb_spec 0 (Z.of_nat (String.length s))); [|lia].
Qed.

Lemma pkt4_value_safe f p :
  pkt_ok p → pkt_universe p = UniverseV4 → safe (pkt4_value f p).
Proof.
  intros Hp Hu. unfold pkt4_value, pkt_universe in *.
  destruct (pkt_kind p) as [h a b c d|] eqn:E; [|done].
  destruct f; try done.
  - destruct h; [done|]. by destruct (ok_hwaddr _ Hp _ _ _ _ _ E) as [[? ?]|?].
  - apply safe_res_bind; [apply (ok_type _ Hp)|done].
Qed.

Lemma vendor_option_elem p id v o :
  vendor_option u p id = Some (v, o) → getOption p (vendor_code u) = Some o.
Proof.
  unfold vendor_option. destruct (getOption p (vendor_code u)) as [o'|]; [|done]. simpl.
  destruct (option_class_ o'); try done. by case_match; intros [= -> ->].
Qed.

Create HintDb safe discriminated.
#[local] Hint Resolve safe_res_bind safe_res_fmap safe_ok safe_mret sem_repr_safe sem_substring_safe
  suboption_converts relay6_converts : safe.

Lemma sem_safe p (defined : string → bool) : pkt_ok p → pkt_universe p = u →
  (∀ e, ok_bool defs u defined e = true → fits_bool e = true → safe (sem_bool defs u e p)) ∧
  (∀ s, ok_string defs u defined s = true → fits_string s = true → safe (sem_string defs u s p)).
Proof.
  intros Hp Hu. apply expr_ind; intros; simpl in *;
    repeat match goal with Hb : _ && _ = true |- _ => apply andb_prop in Hb as [??] end;
    auto with safe.
  all: try (apply safe_res_bind; [by auto|intros]; apply safe_res_bind; [by auto|intros];
            first [apply safe_mret | apply safe_res_bind; [by auto|intros; apply safe_mret]]).
  - apply sem_repr_safe. intros x Hx. by apply (getOption_converts _ _ _ Hp Hx).
  - apply sem_repr_safe. intros x (rai & Hr & Hx)%bind_Some.
    by apply (suboption_converts _ _ _ _ _ Hp Hr Hx).
  - apply sem_repr_safe. intros x Hx. by apply (relay6_converts _ _ _ _ Hp Hx).
  - unfold universe_is in *. rewrite bool_decide_eq_true in *. subst.
    by apply pkt4_value_safe.
  - unfold universe_is in *. rewrite bool_decide_eq_true in *. unfold pkt6_value, pkt_universe in *.
    subst. destruct (pkt_kind p); [done|]. destruct f; apply safe_ok.
  - destruct (vendor_option u p (vendor_of id)) as [[v o]|] eqn:E; [|apply safe_ok].
    destruct (code_of defs u c =? 0); [apply safe_ok|].
    apply sem_repr_safe. intros x Hx.
    by apply (suboption_converts _ _ _ _ _ Hp (vendor_option_elem _ _ _ _ E) Hx).
Qed.
End Total.

(** *** What an expression depends on *)

Section Classes.
Context `{TextConversions} (defs : OptionDefs) (u : Universe).

(** Of the classes of a packet, an expression only reads those it names. *)
Lemma sem_classes (p : Pkt) (cl req : ClientClasses) :
  (∀ e, (∀ m, m ∈ members_bool e → m ∈@{list string} cl ↔ m ∈@{list string} classes_ p) →
        sem_bool defs u e (with_classes cl req p) = sem_bool defs u e p) ∧
  (∀ s, (∀ m, m ∈ members_string s → m ∈@{list string} cl ↔ m ∈@{list string} classes_ p) →
        sem_string defs u s (with_classes cl req p) = sem_string defs u s p).
Proof.
  apply expr_ind; intros; simpl in *;
    repeat match goal with
    | IH : _ → sem_bool _ _ ?e _ = _ |- context [sem_bool _ _ ?e (with_classes _ _ _)] =>
        rewrite IH by set_solver
    | IH : _ → sem_string _ _ ?e _ = _ |- context [sem_string _ _ ?e (with_classes _ _ _)] =>
        rewrite IH by set_solver
    end; try done.
  f_equal. apply bool_decide_ext. set_solver.
Qed.

Lemma ok_members (defined : string → bool) :
  (∀ e, ok_bool defs u defined e = true → Forall (λ m, defined m = true) (members_bool e)) ∧
  (∀ s, ok_string defs u defined s = true → Forall (λ m, defined m = true) (members_string s)).
Proof.
  apply expr_ind; intros; simpl in *;
    repeat match goal with Hb : _ && _ = true |- _ => apply andb_prop in Hb as [??] end;
    rewrite ?Forall_app; auto using Forall_nil, Forall_cons.
Qed.
End Classes.

(** ** What the code promises *)

(** C31: A client class expression is compiled exactly if its numbers, names and classes are
    acceptable, with a parse error otherwise; what it is compiled to leaves on every packet
    of its protocol the value the expression means there, and never finds the stack in
    disorder or a value of the wrong type. *)
Theorem parseString_correct `{TextConversions} (defs : OptionDefs) (u : Universe) {D : Type}
    (check_defined_ : string → ST D bool) (defined : string → bool) (effect : D → string → D)
    (Hcheck : ∀ c d, check_defined_ c d = (effect d c, Ok (defined c)))
    (e : bool_expr) (d : D) :
  match parseString defs u check_defined_ (Some e) d with
  | (d', Ok expr) =>
      ok_bool defs u defined e = true ∧ d' = foldl effect d (members_bool e) ∧
      ∀ p, pkt_universe p = u → relays_ok p → evaluateBool expr p = sem_bool defs u e p
  | (_, Throw x) => ok_bool defs u defined e = false ∧ x = EvalParseError
  end.
Proof.
  pose proof (parseString_run defs u check_defined_ defined effect Hcheck (Some e) d) as Hrun.
  cbn beta iota in Hrun. destruct (ok_bool defs u defined e) eqn:Hok.
  - rewrite Hrun. split; [done|]. split; [done|]. intros p Hu Hr.
    by apply (tokens_evaluate defs u defined).
  - destruct (parseString _ _ _ _ _) as [d' [?|x]]; [done|]. by injection Hrun as ->.
Qed.

(** C32: When the numbers of its substrings fit into an [int], evaluating a compiled
    expression returns on every packet of its protocol whose options can be converted: it
    throws nothing and does nothing undefined. *)
Theorem evaluateBool_returns `{TextConversions} (defs : OptionDefs) (u : Universe) {D : Type}
    (check_defined_ : string → ST D bool) (defined : string → bool) (effect : D → string → D)
    (Hcheck : ∀ c d, check_defined_ c d = (effect d c, Ok (defined c)))
    (e : bool_expr) (d d' : D) (expr : Expression) (p : Pkt)
    (Hparse : parseString defs u check_defined_ (Some e) d = (d', Ok expr))
    (Hfits : fits_bool (λ _, false) e = true) (Hp : pkt_ok (λ _, false) p) (Hu : pkt_universe p = u) :
  ∃ b, evaluateBool expr p = Ok b.
Proof.
  pose proof (parseString_run defs u check_defined_ defined effect Hcheck (Some e) d) as Hrun.
  cbn beta iota in Hrun. destruct (ok_bool defs u defined e) eqn:Hok.
  - rewrite Hrun in Hparse. injection Hparse as _ <-.
    rewrite (tokens_evaluate defs u defined) by (done || apply (ok_relays _ p Hp)).
    pose proof (proj1 (sem_safe defs u _ p defined Hp Hu) e Hok Hfits) as Hs.
    destruct (sem_bool defs u e p) as [b|]; [by exists b|done].
  - by rewrite Hparse in Hrun.
Qed.

(** *** Concrete expressions *)

Module Sample.

(** The conversions of decimal numbers. *)
Definition digits (l : list ascii) : option Z :=
  match l with
  | [] => None
  | _ => foldl (λ acc c, a ← acc; d ← to_4_bit c; if d <? 10 then Some (a * 10 + d) else None)
           (Some 0) l
  end.
Definition decimal (s : string) : option Z :=
  match String.list_ascii_of_string s with
  | "-"%char :: l => Z.opp <$> digits l
  | l => digits l
  end.
Definition within (lo hi : Z) (o : option Z) : option Z :=
  n ← o; if (lo <=? n) && (n <? hi) then Some n else None.

Lemma within_range lo hi o z : within lo hi o = Some z → lo ≤ z < hi.
Proof.
  unfold within. destruct o as [n|]; [|done]. simpl.
  destruct (_ && _) eqn:E; [|done]. intros [= <-]. lia.
Qed.

#[export] Instance conversions : TextConversions := {|
  lexical_cast_int s := within (- 2 ^ 31) (2 ^ 31) (decimal s);
  lexical_cast_int_range s z Hz := within_range _ _ _ _ Hz;
  lexical_cast_uint64 s := within 0 (2 ^ 64) (decimal s);
  lexical_cast_uint64_range s z Hz := within_range _ _ _ _ Hz;
  address_of_text s := None
|}.

Definition no_defs : OptionDefs :=
  {| option_defs_ := λ u, [("host-name", 12)]; runtime_option_defs_ := λ _, [];
     lastresort_defs_ := [] |}.

(** A callback that counts how often it is asked. *)
Definition check (c : string) : ST Z bool := λ n, (n + 1, Ok (bool_decide (c = "known"))).

Definition host_name : Option :=
  mkOption 12 [104; 105] OptionString (Ok "hi") (Ok [104; 105]) [].
Definition packet : Pkt :=
  {| pkt_kind := Pkt4 (Some {| hwaddr_bytes := [1; 2; 3; 4; 5; 6]; htype_ := 1 |})
       (V4 0) (V4 0) (V4 0) (V4 0);
     transid_ := 7; iface_ := "eth0"; local_addr_ := V4 0; remote_addr_ := V4 1; pkt_len := 300;
     options_ := [host_name]; classes_ := ["known"]; required_classes_ := [] |}.

(** [substring(option[host-name].text, -1, all) == 'i' and not member('known')] *)
Definition test : bool_expr :=
  BAnd (BEqual (SSubstring (SOption (CodeName "host-name") TEXT) "-1" LengthAll) (SString "i"))
    (BNot (BMember "known")).

Lemma sample_packet_ok : pkt_ok (λ _, false) packet.
Proof.
  split.
  - repeat constructor.
  - exact I.
  - by intros.
  - exact I.
  - intros h a b c d [= <- _ _ _ _]. by left.
Qed.

Lemma check_spec c d :
  check c d = ((λ n _, n + 1) d c, Ok (bool_decide (c = "known"))).
Proof. done. Qed.
End Sample.

#[local] Existing Instance Sample.conversions.

Lemma parseString_correct_witness :
  parseString Sample.no_defs UniverseV4 Sample.check (Some Sample.test) 0
  = (1, Ok (tokens_bool Sample.no_defs UniverseV4 Sample.test)) ∧
  match parseString Sample.no_defs UniverseV4 Sample.check (Some Sample.test) 0 with
  | (_, Ok expr) => evaluateBool expr Sample.packet = Ok false
  | _ => False
  end.
Proof.
  split; [vm_compute; reflexivity|].
  pose proof (parseString_correct Sample.no_defs UniverseV4 Sample.check
    (λ c, bool_decide (c = "known")) (λ n _, n + 1) Sample.check_spec Sample.test 0) as Hc.
  destruct (parseString _ _ _ _ _) as [d' [expr|x]].
  - destruct Hc as (_ & _ & Hc). rewrite Hc; [vm_compute; reflexivity|reflexivity|exact I].
  - destruct Hc as [Hc _]. vm_compute in Hc. discriminate Hc.
Defined.

Lemma evaluateBool_returns_witness :
  ∃ b, evaluateBool (tokens_bool Sample.no_defs UniverseV4 Sample.test) Sample.packet = Ok b.
Proof.
  apply (evaluateBool_returns Sample.no_defs UniverseV4 Sample.check
    (λ c, bool_decide (c = "known")) (λ n _, n + 1) Sample.check_spec Sample.test 0 1).
  - vm_compute. reflexivity.
  - vm_compute. reflexivity.
  - apply Sample.sample_packet_ok.
  - reflexivity.
Defined.

(** *** Departures from the documentation *)

Definition compiled (e : bool_expr) : Expression :=
  match parseString Sample.no_defs UniverseV4 Sample.check (Some e) 0 with
  | (_, Ok expr) => expr
  | _ => []
  end.

(** A length of -2147483648 is accepted, and negating it is undefined. *)
Definition least_length : bool_expr :=
  BEqual (SSubstring (SString "ab") "0" (LengthInteger "-2147483648")) (SString "").
Theorem substring_least_length :
  ok_bool Sample.no_defs UniverseV4 (λ _, true) least_length = true ∧
  evaluateBool (compiled least_length) Sample.packet = Throw AssertionFailure.
Proof. split; vm_compute; reflexivity. Qed.

(** The numbers of a substring are not checked when the expression is parsed: one that does not
    fit makes every evaluation fail. *)
Definition large_length : bool_expr :=
  BEqual (SSubstring (SString "ab") "0" (LengthInteger "3000000000")) (SString "ab").
Theorem substring_checked_late :
  ok_bool Sample.no_defs UniverseV4 (λ _, true) large_length = true ∧
  evaluateBool (compiled large_length) Sample.packet = Throw EvalTypeError.
Proof. split; vm_compute; reflexivity. Qed.

(** [vendor[4491].option[0].hex] is not the content of a suboption but the text "true". *)
Definition vendor_zero : bool_expr :=
  BEqual (SVendorOption (EnterpriseInteger "4491") (CodeInteger "0") HEX) (SString "true").
Theorem vendor_suboption_zero :
  evaluateBool (compiled vendor_zero)
    {| pkt_kind := pkt_kind Sample.packet; transid_ := 7; iface_ := "eth0"; local_addr_ := V4 0;
       remote_addr_ := V4 1; pkt_len := 300;
       options_ := [mkOption 125 [] (OptionVendor 4491) (Ok "") (Ok []) []];
       classes_ := []; required_classes_ := [] |} = Ok true.
Proof. vm_compute. reflexivity. Qed.
