(* ===== verification/ClientClass.v ===== *)
(** * Client classes of the configuration ([src/lib/dhcpsrv/client_class_def.cc],
      [parsers/client_class_def_parser.cc])

    The definitions of client classes, the dictionary of them and the parser that
    fills it from the configuration.  An element of the configuration is a map from
    names to values, of which the text, the flags and whether a value is there matter; the
    options of a class, option definitions and user contexts are left out, and so are
    comparison and JSON.  The definitions are shared by pointers in the source but nobody
    changes one that is in a dictionary.

    The derivation of an expression from its text is an argument ([parse_text]), as
    explained in [Eval]. *)

From S2P Require Import Prelude IoAddress Pool Lease Packet Token Eval.
Local Open Scope Z_scope.

(** ** Definitions *)

Record ClientClassDef := {
  cc_name_ : string;
  match_expr_ : option Expression;
  test_ : string;
  required_ : bool;
  depend_on_known_ : bool;
  (** Whether [cfg_option_def_] points to something. *)
  has_option_def : bool;
  class_next_server_ : IOAddress;
  sname_ : string;
  filename_ : string
}.

(** [ClientClassDef::ClientClassDef]. *)
Definition mkClientClassDef (name : string) (match_expr : option Expression) :
    res ClientClassDef :=
  _ ← throw_if (bool_decide (name = "")) BadValue;
  mret {| cc_name_ := name; match_expr_ := match_expr; test_ := ""; required_ := false;
          depend_on_known_ := false; has_option_def := false;
          class_next_server_ := IPV4_ZERO_ADDRESS; sname_ := ""; filename_ := "" |}.

(** The copy constructor: [rhs.cfg_option_def_->copyTo( *cfg_option_def_ )] follows the
    pointer of the new object, which is null.  The test is not copied. *)
Definition copyClientClassDef (rhs : ClientClassDef) : res ClientClassDef :=
  _ ← throw_if (has_option_def rhs) AssertionFailure;
  mret {| cc_name_ := cc_name_ rhs; match_expr_ := match_expr_ rhs; test_ := "";
          required_ := required_ rhs; depend_on_known_ := depend_on_known_ rhs;
          has_option_def := false; class_next_server_ := class_next_server_ rhs;
          sname_ := sname_ rhs; filename_ := filename_ rhs |}.

(** ** The dictionary *)

Record ClientClassDictionary := {
  map_ : gmap string ClientClassDef;
  list_ : list ClientClassDef
}.

Definition new_dictionary : ClientClassDictionary := {| map_ := ∅; list_ := [] |}.

Definition findClass (name : string) (dict : ClientClassDictionary) : option ClientClassDef :=
  map_ dict !! name.

Definition addClass_def (class_def : option ClientClassDef) (dict : ClientClassDictionary) :
    res ClientClassDictionary :=
  match class_def with
  | None => Throw BadValue
  | Some d =>
      match findClass (cc_name_ d) dict with
      | Some _ => Throw DuplicateClientClassDef
      | None => Ok {| map_ := <[cc_name_ d := d]> (map_ dict); list_ := list_ dict ++ [d] |}
      end
  end.

(** [addClass] with the members of the definition. *)
Definition dict_addClass (name : string) (match_expr : option Expression) (test : string)
    (required depend_on_known option_def : bool) (next_server : IOAddress)
    (sname filename : string) (dict : ClientClassDictionary) : res ClientClassDictionary :=
  d ← mkClientClassDef name match_expr;
  addClass_def (Some {| cc_name_ := cc_name_ d; match_expr_ := match_expr_ d; test_ := test;
                        required_ := required; depend_on_known_ := depend_on_known;
                        has_option_def := option_def; class_next_server_ := next_server;
                        sname_ := sname; filename_ := filename |}) dict.

(** The copy constructor of the dictionary. *)
Fixpoint copy_loop (l : list ClientClassDef) (dict : ClientClassDictionary) :
    res ClientClassDictionary :=
  match l with
  | [] => Ok dict
  | cclass :: l' =>
      copy ← copyClientClassDef cclass;
      dict' ← addClass_def (Some copy) dict;
      copy_loop l' dict'
  end.
Definition copyDictionary (rhs : ClientClassDictionary) : res ClientClassDictionary :=
  copy_loop (list_ rhs) new_dictionary.

(** The loop of [removeClass] erases the first definition of the name. *)
Fixpoint remove_loop (name : string) (l : list ClientClassDef) : list ClientClassDef :=
  match l with
  | [] => []
  | d :: l' => if bool_decide (cc_name_ d = name) then l' else d :: remove_loop name l'
  end.
Definition removeClass (name : string) (dict : ClientClassDictionary) : ClientClassDictionary :=
  {| map_ := delete name (map_ dict); list_ := remove_loop name (list_ dict) |}.

Definition getDictClasses (dict : ClientClassDictionary) : list ClientClassDef := list_ dict.

Definition builtinNames : list string := ["ALL"; "KNOWN"; "UNKNOWN"].
Definition builtinPrefixes : list string := ["VENDOR_CLASS_"; "HA_"; "AFTER_"; "EXTERNAL_"].

Definition isClientClassBuiltIn (client_class : string) : bool :=
  existsb (λ bn, bool_decide (client_class = bn)) builtinNames
  || existsb (λ bt, negb (String.length client_class <=? String.length bt)%nat
                    && String.prefix bt client_class) builtinPrefixes.

(** The answer, with [depend_on_known] as the state. *)
Definition isClientClassDefined (class_dictionary : ClientClassDictionary)
    (client_class : string) : ST bool bool :=
  if isClientClassBuiltIn client_class then
    _ ← (if bool_decide (client_class = "KNOWN") || bool_decide (client_class = "UNKNOWN")
         then put true else mret tt);
    mret true
  else
    match findClass client_class class_dictionary with
    | Some def => _ ← (if depend_on_known_ def then put true else mret tt); mret true
    | None => mret false
    end.

(** ** The parser *)

Inductive Element := StringElement (s : string) | BoolElement (b : bool) | OtherElement.

Abbreviation MapElement := (gmap string Element).

Definition getString (scope : MapElement) (name : string) : res string :=
  match scope !! name with Some (StringElement s) => Ok s | _ => Throw DhcpConfigError end.
Definition getBoolean (scope : MapElement) (name : string) : res bool :=
  match scope !! name with Some (BoolElement b) => Ok b | _ => Throw DhcpConfigError end.

Definition MAX_SNAME_LEN : Z := 64.
Definition MAX_FILE_LEN : Z := 128.

Section Parser.
Context `{TextConversions} (defs : OptionDefs) (family : Universe).
Context (parse_text : string → option bool_expr).

(** [catch (const std::exception&)]. *)
Definition to_config_error {A} (r : res A) : res A :=
  match r with
  | Throw e => Throw (if catchable e then DhcpConfigError else e)
  | Ok a => Ok a
  end.

(** [ExpressionParser::parse], with the state of the callback. *)
Definition ExpressionParser_parse (check_defined : string → ST bool bool)
    (expression_cfg : Element) : ST bool Expression :=
  match expression_cfg with
  | StringElement value => λ d,
      let '(d', r) := parseString defs family check_defined (parse_text value) d in
      (d', to_config_error r)
  | _ => throw DhcpConfigError
  end.

(** The expression of [test], and [depend_on_known]. *)
Definition parse_test (class_dictionary : ClientClassDictionary) (test_cfg : option Element) :
    res (option Expression * string * bool) :=
  match test_cfg with
  | None => Ok (None, "", false)
  | Some t =>
      match ExpressionParser_parse (isClientClassDefined class_dictionary) t false with
      | (depend_on_known, Ok e) =>
          Ok (Some e, match t with StringElement s => s | _ => "" end, depend_on_known)
      | (_, Throw x) => Throw x
      end
  end.

Definition parse_next_server (class_def_cfg : MapElement) : res IOAddress :=
  match class_def_cfg !! "next-server" with
  | None => Ok IPV4_ZERO_ADDRESS
  | Some _ =>
      txt ← getString class_def_cfg "next-server";
      match address_of_text txt with
      | None => Throw DhcpConfigError
      | Some a => _ ← throw_if (negb (isV4 a)) DhcpConfigError;
                  _ ← throw_if (isV4Bcast a) DhcpConfigError;
                  mret a
      end
  end.

Definition optional_string (class_def_cfg : MapElement) (name : string)
    (bad : Z → bool) : res string :=
  match class_def_cfg !! name with
  | None => Ok ""
  | Some _ => s ← getString class_def_cfg name;
              _ ← throw_if (bad (Z.of_nat (String.length s))) DhcpConfigError; mret s
  end.

(** [ClientClassDefParser::parse]. *)
Definition ClientClassDefParser_parse (class_dictionary : ClientClassDictionary)
    (class_def_cfg : MapElement) : res ClientClassDictionary :=
  name ← getString class_def_cfg "name";
  _ ← throw_if (bool_decide (name = "")) DhcpConfigError;
  t ← parse_test class_dictionary (class_def_cfg !! "test");
  let '(match_expr, test, depend_on_known) := t in
  required ← match class_def_cfg !! "only-if-required" with
             | None => mret false
             | Some _ => getBoolean class_def_cfg "only-if-required"
             end;
  next_server ← parse_next_server class_def_cfg;
  sname ← optional_string class_def_cfg "server-hostname" (λ n, MAX_SNAME_LEN <=? n);
  filename ← optional_string class_def_cfg "boot-file-name" (λ n, MAX_FILE_LEN <? n);
  to_config_error
    (dict_addClass name match_expr test required depend_on_known true next_server sname filename
       class_dictionary).

(** [ClientClassDefListParser::parse]. *)
Fixpoint parse_loop (l : list MapElement) (dictionary : ClientClassDictionary) :
    res ClientClassDictionary :=
  match l with
  | [] => Ok dictionary
  | client_class_def :: l' =>
      dictionary' ← ClientClassDefParser_parse dictionary client_class_def;
      parse_loop l' dictionary'
  end.
Definition ClientClassDefListParser_parse (client_class_def_list : list MapElement) :
    res ClientClassDictionary := parse_loop client_class_def_list new_dictionary.
End Parser.

(** ** What the code promises *)

Definition names (l : list ClientClassDef) : list string := cc_name_ <$> l.

(** The map and the list hold the same definitions, one for each name. *)
Definition dict_wf (dict : ClientClassDictionary) : Prop :=
  NoDup (names (list_ dict)) ∧
  ∀ n c, map_ dict !! n = Some c ↔ c ∈ list_ dict ∧ cc_name_ c = n.

Lemma new_dictionary_wf : dict_wf new_dictionary.
Proof.
  split; [constructor|]. intros n c. simpl. rewrite lookup_empty.
  split; [done|]. intros [Hc _]. by apply not_elem_of_nil in Hc.
Qed.

Lemma findClass_None dict n : dict_wf dict → findClass n dict = None ↔ n ∉ names (list_ dict).
Proof.
  intros [_ Hm]. unfold findClass, names. rewrite eq_None_not_Some. split; intros Hn Hin; apply Hn.
  - apply list_elem_of_fmap in Hin as (c & -> & Hc). exists c. by apply Hm.
  - destruct Hin as [c Hc]. apply Hm in Hc as [Hc <-]. by apply list_elem_of_fmap_2.
Qed.

Lemma names_app l1 l2 : names (l1 ++ l2) = names l1 ++ names l2.
Proof. apply fmap_app. Qed.

Lemma elem_of_names n l : n ∈ names l ↔ ∃ c, n = cc_name_ c ∧ c ∈ l.
Proof. apply list_elem_of_fmap. Qed.

(** The result of adding a definition. *)
Lemma addClass_def_spec (c : ClientClassDef) (dict : ClientClassDictionary) :
  dict_wf dict →
  match addClass_def (Some c) dict with
  | Ok dict' => (cc_name_ c ∉ names (list_ dict)) ∧ dict_wf dict'
                ∧ list_ dict' = list_ dict ++ [c]
  | Throw x => cc_name_ c ∈ names (list_ dict) ∧ x = DuplicateClientClassDef
  end.
Proof.
  intros Hwf. pose proof (findClass_None dict (cc_name_ c) Hwf) as HN.
  unfold addClass_def. destruct (findClass (cc_name_ c) dict) as [c'|].
  { split; [|done]. apply dec_stable. by intros Hn%HN. }
  destruct HN as [HN _]. specialize (HN eq_refl). destruct Hwf as [Hnd Hm].
  split; [done|]. split; [|done]. split; simpl.
  - rewrite names_app. apply NoDup_app. split; [done|]. split; [|apply NoDup_singleton].
    intros x Hx Hc. apply list_elem_of_singleton in Hc. by subst.
  - intros n c'. rewrite elem_of_app, list_elem_of_singleton, lookup_insert_Some, Hm.
    rewrite elem_of_names in HN. split.
    + intros [[<- <-]|[Hn [Hc <-]]]; auto.
    + intros [[Hc | ->] <-]; [|auto]. right. split; [|done]. intros Hn. apply HN. eauto.
Qed.

Lemma filter_absent n l : n ∉ names l → filter (λ c, cc_name_ c ≠ n) l = l.
Proof.
  induction l as [|c l IH]; [done|]. cbn [names fmap list_fmap].
  intros [Hc Hl]%not_elem_of_cons. rewrite filter_cons, decide_True by done. by rewrite IH.
Qed.

Lemma remove_loop_filter n l :
  NoDup (names l) → remove_loop n l = filter (λ c, cc_name_ c ≠ n) l.
Proof.
  induction l as [|c l IH]; [done|]. cbn [names fmap list_fmap remove_loop].
  intros [Hc Hnd]%NoDup_cons. rewrite filter_cons. case_bool_decide as E.
  - subst. rewrite decide_False by naive_solver. by rewrite filter_absent.
  - rewrite decide_True by done. f_equal. by apply IH.
Qed.

(** Adding a class appends it to the dictionary unless there is a class of that name, which is an
    error; removing a class takes away exactly the class of the name; in both cases the
    index by names and the list stay in step. *)
Theorem dictionary_operations (dict : ClientClassDictionary) (Hwf : dict_wf dict) :
  (∀ c, match addClass_def (Some c) dict with
        | Ok dict' => (cc_name_ c ∉ names (list_ dict)) ∧ dict_wf dict' ∧
                      list_ dict' = list_ dict ++ [c]
        | Throw x => cc_name_ c ∈ names (list_ dict) ∧ x = DuplicateClientClassDef
        end) ∧
  (∀ n, dict_wf (removeClass n dict) ∧
        list_ (removeClass n dict) = filter (λ c, cc_name_ c ≠ n) (list_ dict) ∧
        ∀ k, findClass k (removeClass n dict)
             = (if bool_decide (k = n) then None else findClass k dict)).
Proof.
  split; [by intros c; apply addClass_def_spec|]. intros n.
  pose proof (remove_loop_filter n (list_ dict) (proj1 Hwf)) as Hr.
  destruct Hwf as [Hnd Hm]. split; [|split; [done|]].
  - split; simpl; rewrite Hr.
    + apply (sublist_NoDup _ (names (list_ dict))); [done|].
      by apply fmap_sublist, sublist_filter.
    + intros k c. rewrite lookup_delete_Some, list_elem_of_filter, Hm. naive_solver.
  - intros k. unfold findClass. simpl. case_bool_decide as E.
    + subst. apply lookup_delete_eq.
    + by apply lookup_delete_ne.
Qed.

(** *** Dictionaries that come from the configuration *)

Section Built.
Context `{TextConversions} (defs : OptionDefs) (family : Universe).
Context (parse_text : string → option bool_expr).

(** What may be referred to after the definitions [l], and what depends on whether the
    client is known. *)
Definition known_in (l : list ClientClassDef) (m : string) : bool :=
  isClientClassBuiltIn m || bool_decide (m ∈ names l).
Definition needs_known (l : list ClientClassDef) (m : string) : bool :=
  if isClientClassBuiltIn m then bool_decide (m = "KNOWN") || bool_decide (m = "UNKNOWN")
  else existsb (λ c, bool_decide (cc_name_ c = m) && depend_on_known_ c) l.

(** The expression of a class is the compiled form of one that is acceptable after the
    definitions [l], and the flag tells whether it depends on the client being known,
    itself or through the classes it names. *)
Definition test_ok (l : list ClientClassDef) (c : ClientClassDef) : Prop :=
  match match_expr_ c with
  | None => depend_on_known_ c = false
  | Some expr => ∃ e, parse_text (test_ c) = Some e ∧ expr = tokens_bool defs family e ∧
                      ok_bool defs family (known_in l) e = true ∧
                      depend_on_known_ c = existsb (needs_known l) (members_bool e)
  end.

Inductive built : list ClientClassDef → Prop :=
  | built_nil : built []
  | built_snoc l c : built l → cc_name_ c ∉ names l → cc_name_ c ≠ "" → test_ok l c →
                     built (l ++ [c]).

Lemma find_depends dict m :
  dict_wf dict →
  existsb (λ c, bool_decide (cc_name_ c = m) && depend_on_known_ c) (list_ dict)
  = match findClass m dict with Some c => depend_on_known_ c | None => false end.
Proof.
  intros [Hnd Hm]. unfold findClass. destruct (map_ dict !! m) as [c|] eqn:E.
  - apply Hm in E as [Hc Hn]. apply eq_true_iff_eq. rewrite existsb_elem_of. split.
    + intros (c' & Hc' & [Hn' Hd]%andb_prop). apply bool_decide_eq_true in Hn'.
      assert (Some c = Some c') as [= ->] by (rewrite <- (proj2 (Hm m c)), <- (proj2 (Hm m c')); done).
      done.
    + intros Hd. exists c. by rewrite bool_decide_true.
  - apply not_true_is_false. rewrite existsb_elem_of. intros (c & Hc & [Hn _]%andb_prop).
    apply bool_decide_eq_true in Hn. assert (map_ dict !! m = Some c) by (by apply Hm). congruence.
Qed.

(** The callback of the parser. *)
Lemma isClientClassDefined_spec dict (Hwf : dict_wf dict) c d :
  isClientClassDefined dict c d
  = (d || needs_known (list_ dict) c, Ok (known_in (list_ dict) c)).
Proof.
  unfold isClientClassDefined, known_in, needs_known. rewrite find_depends by done.
  pose proof (findClass_None dict c Hwf) as HN.
  destruct (isClientClassBuiltIn c).
  - destruct (_ || _); by destruct d.
  - destruct (findClass c dict) as [def|].
    + rewrite bool_decide_true; [|by apply dec_stable; intros Hn%HN].
      destruct (depend_on_known_ def); by destruct d.
    + rewrite bool_decide_false by (by apply HN). by destruct d.
Qed.

Lemma foldl_needs l d ms :
  foldl (λ d m, d || needs_known l m) d ms = d || existsb (needs_known l) ms.
Proof.
  revert d. induction ms as [|m ms IH]; intros d; simpl; [by rewrite orb_false_r|].
  by rewrite IH, orb_assoc.
Qed.

Lemma parse_test_ok dict t e test k :
  dict_wf dict → parse_test defs family parse_text dict t = Ok (e, test, k) →
  ∀ n r o a sn f, test_ok (list_ dict)
    {| cc_name_ := n; match_expr_ := e; test_ := test; required_ := r; depend_on_known_ := k;
       has_option_def := o; class_next_server_ := a; sname_ := sn; filename_ := f |}.
Proof.
  intros Hwf Hp n r o a sn f. unfold test_ok. simpl. unfold parse_test in Hp.
  destruct t as [[s|b|]|]; [|done..|by injection Hp as <- <- <-].
  unfold ExpressionParser_parse in Hp.
  pose proof (parseString_run defs family (isClientClassDefined dict) (known_in (list_ dict))
    (λ d m, d || needs_known (list_ dict) m) (λ c d, isClientClassDefined_spec dict Hwf c d)
    (parse_text s) false) as Hrun.
  destruct (parse_text s) as [x|] eqn:Ex; [|by rewrite Hrun in Hp].
  destruct (ok_bool defs family (known_in (list_ dict)) x) eqn:Hok.
  - rewrite Hrun in Hp. injection Hp as <- <- <-. exists x.
    by rewrite foldl_needs.
  - by destruct (parseString _ _ _ _ _) as [? []]; simplify_eq/=.
Qed.

Lemma parse_class_ok dict cfg dict' :
  dict_wf dict → built (list_ dict) →
  ClientClassDefParser_parse defs family parse_text dict cfg = Ok dict' →
  dict_wf dict' ∧ built (list_ dict').
Proof.
  intros Hwf Hb Hp. unfold ClientClassDefParser_parse in Hp. res_inv.
  destruct a0 as [[e test] k]. res_inv.
  unfold to_config_error in Hp.
  destruct (dict_addClass _ _ _ _ _ _ _ _ _ _) as [d|] eqn:E; [|done]. injection Hp as ->.
  unfold dict_addClass, mkClientClassDef in E. res_inv.
  match type of E with addClass_def (Some ?c) _ = _ =>
    pose proof (addClass_def_spec c dict Hwf) as Hs; rewrite E in Hs end.
  destruct Hs as (Hn & Hwf' & ->). split; [done|].
  apply built_snoc; [done|done| |].
  - simpl. by apply bool_decide_eq_false in Hg.
  - by eapply parse_test_ok.
Qed.

Lemma parse_loop_ok l dict dict' :
  dict_wf dict → built (list_ dict) →
  parse_loop defs family parse_text l dict = Ok dict' → dict_wf dict' ∧ built (list_ dict').
Proof.
  revert dict. induction l as [|c l IH]; intros dict Hwf Hb Hp; simpl in Hp; res_inv; [done|].
  destruct (parse_class_ok _ _ _ Hwf Hb Ha). by eapply IH.
Qed.

(** In the dictionary of a configuration that is accepted, names are unique and not empty, an
    expression only names classes defined before it or built-in ones, and the flag
    [depend_on_known] is set exactly when the expression depends on whether the client has
    a reservation, itself or through other classes. *)
Theorem configuration_dictionary (l : list MapElement) (dict : ClientClassDictionary)
    (Hparse : ClientClassDefListParser_parse defs family parse_text l = Ok dict) :
  dict_wf dict ∧ built (list_ dict).
Proof.
  apply (parse_loop_ok l new_dictionary); [apply new_dictionary_wf|constructor|done].
Qed.
End Built.

Section BuiltLists.
Context `{TextConversions} (defs : OptionDefs) (family : Universe).
Context (parse_text : string → option bool_expr).
Abbreviation built := (built defs family parse_text).

Lemma built_NoDup l : built l → NoDup (names l).
Proof.
  induction 1 as [|l c Hb IH Hc _ _]; [constructor|]. rewrite names_app.
  apply NoDup_app. split; [done|]. split; [|apply NoDup_singleton].
  intros x Hx Hx'. apply list_elem_of_singleton in Hx'. by subst.
Qed.

Lemma built_test l1 c l2 : built (l1 ++ c :: l2) → test_ok defs family parse_text l1 c.
Proof.
  intros Hb. remember (l1 ++ c :: l2) as l eqn:E. revert l1 l2 E.
  induction Hb as [|l d Hb IH Hn Hne Ht]; intros l1 l2 E.
  { by destruct l1. }
  destruct l2 as [|x l2 _] using rev_ind.
  - apply app_inj_tail in E as [-> ->]. done.
  - rewrite app_comm_cons, app_assoc in E. apply app_inj_tail in E as [-> _].
    by apply (IH _ l2).
Qed.

(** The definitions before and after a class have other names. *)
Lemma built_split l1 c l2 :
  built (l1 ++ c :: l2) →
  (cc_name_ c ∉ names l1) ∧ (cc_name_ c ∉ names l2) ∧
  ∀ m, m ∈ names l1 → m ≠ cc_name_ c ∧ m ∉ names l2.
Proof.
  intros Hb%built_NoDup. rewrite names_app in Hb. cbn [names fmap list_fmap] in Hb.
  apply NoDup_app in Hb as (_ & Hd & [H2 _]%NoDup_cons).
  split; [|split; [done|]].
  - intros Hc. apply (Hd _ Hc). by left.
  - intros m Hm. specialize (Hd m Hm). apply not_elem_of_cons in Hd as [? ?]. done.
Qed.
End BuiltLists.

Lemma dictionary_operations_witness :
  dict_wf new_dictionary ∧ dict_wf (removeClass "a" new_dictionary).
Proof.
  split; [apply new_dictionary_wf|].
  destruct (dictionary_operations new_dictionary new_dictionary_wf) as [_ Hr]. apply Hr.
Defined.

(** *** A concrete configuration *)

#[local] Existing Instance Sample.conversions.

Module ClassSample.

(** [option[12].exists], [member('one') and member('KNOWN')], [not member('HA_self')]. *)
Definition parse_text (s : string) : option bool_expr :=
  if bool_decide (s = "option[12].exists") then Some (BOptionExists (CodeInteger "12"))
  else if bool_decide (s = "member('one') and member('KNOWN')")
       then Some (BAnd (BMember "one") (BMember "KNOWN"))
  else if bool_decide (s = "not member('HA_self')") then Some (BNot (BMember "HA_self"))
  else None.

Definition class_cfg (name test : string) : gmap string Element :=
  {[ "name" := StringElement name; "test" := StringElement test ]}.

Definition parse (l : list (gmap string Element)) : res ClientClassDictionary :=
  ClientClassDefListParser_parse Sample.no_defs UniverseV4 parse_text l.
Definition dictionary (r : res ClientClassDictionary) : ClientClassDictionary :=
  match r with Ok d => d | Throw _ => new_dictionary end.

Definition config : list (gmap string Element) :=
  [class_cfg "one" "option[12].exists"; class_cfg "two" "member('one') and member('KNOWN')"].
Definition dict : ClientClassDictionary := dictionary (parse config).

Lemma parse_config : parse config = Ok dict.
Proof. vm_compute. reflexivity. Qed.

(** The class that is defined by not being in it. *)
Definition loop_config : list (gmap string Element) :=
  [class_cfg "HA_self" "not member('HA_self')"].
Definition loop_dict : ClientClassDictionary := dictionary (parse loop_config).
End ClassSample.

Lemma configuration_dictionary_witness :
  length (list_ ClassSample.dict) = 2%nat ∧
  built Sample.no_defs UniverseV4 ClassSample.parse_text (list_ ClassSample.dict).
Proof.
  split; [vm_compute; reflexivity|].
  apply (configuration_dictionary Sample.no_defs UniverseV4 ClassSample.parse_text
    ClassSample.config ClassSample.dict ClassSample.parse_config).
Defined.
