(* ===== verification/Classify.v ===== *)
(** * Classification of packets by the servers ([src/bin/dhcp4/dhcp4_srv.cc],
      [src/bin/dhcp6/dhcp6_srv.cc])

    When a packet comes in, [classifyPacket] puts it into the built-in classes and those
    whose expressions hold.  Classes that depend on whether the client has a reservation
    are evaluated in a second pass, after the reservations were looked up
    ([Dhcpv4Exchange::Dhcpv4Exchange], [Dhcpv6Srv::initContext]).  [requiredClassify]
    evaluates, before options are added to a response, the classes that the subnet, its
    shared network and the pool require.

    A server changes the packet; that is the state here.  An exception of an expression is
    caught, so the loops go on.  The required classes of networks, subnets and pools, which
    [Subnet] and [Pool] leave out, are functions of them. *)

From S2P Require Import Prelude IoAddress Pool Subnet SharedNetwork.
From S2P Require Import Lease Packet Token Eval ClientClass.
Local Open Scope Z_scope.

Definition VENDOR_CLASS_PREFIX : string := "VENDOR_CLASS_".
Definition DOCSIS3_CLASS_MODEM : string := "docsis3.0".
Definition DOCSIS3_CLASS_EROUTER : string := "eRouter1.0".

Section Classify.
Context `{TextConversions} (dict : ClientClassDictionary).

(** [bool status = evaluateBool( *expr_ptr, *pkt)]. *)
Definition evaluate_status (expr : Expression) : ST Pkt bool := λ p, (p, evaluateBool expr p).

(** The [try] block of the loops: the class is added if its expression matches. *)
Definition match_class (name : string) (expr : Expression) : ST Pkt unit :=
  try_catch
    (status ← evaluate_status expr;
     if (status : bool) then modify (addClass name false) else mret tt)
    (mret tt).

(** The loop of [evaluateClasses]. *)
Fixpoint evaluate_classes_loop (depend_on_known : bool) (l : list ClientClassDef) :
    ST Pkt unit :=
  match l with
  | [] => mret tt
  | c :: l' =>
      match match_expr_ c with
      | None => evaluate_classes_loop depend_on_known l'
      | Some expr =>
          if required_ c then evaluate_classes_loop depend_on_known l'
          else if negb (Bool.eqb (depend_on_known_ c) depend_on_known)
          then evaluate_classes_loop depend_on_known l'
          else _ ← match_class (cc_name_ c) expr; evaluate_classes_loop depend_on_known l'
      end
  end.

(** [Dhcpv4Srv::evaluateClasses] and [Dhcpv6Srv::evaluateClasses]. *)
Definition evaluateClasses (depend_on_known : bool) : ST Pkt unit :=
  evaluate_classes_loop depend_on_known (getDictClasses dict).

(** *** DHCPv4 *)

Definition classifyByVendor4 : ST Pkt unit :=
  pkt ← get;
  match getOption pkt DHO_VENDOR_CLASS_IDENTIFIER with
  | Some vendor_class =>
      match option_class_ vendor_class with
      | OptionString =>
          modify (addClass (VENDOR_CLASS_PREFIX +:+ option_getValue vendor_class) false)
      | _ => mret tt
      end
  | None => mret tt
  end.

Definition classifyPacket4 : ST Pkt unit :=
  _ ← modify (addClass "ALL" false);
  _ ← classifyByVendor4;
  evaluateClasses false.

(** *** DHCPv6 *)

Definition classifyByVendor6 : ST Pkt unit :=
  pkt ← get;
  match as_vendor_class (getOption pkt D6O_VENDOR_CLASS) with
  | Some (_, tuples) =>
      match tuples with
      | [] => mret tt
      | tuple0 :: _ =>
          if hasTuple tuples DOCSIS3_CLASS_MODEM
          then modify (addClass (VENDOR_CLASS_PREFIX +:+ DOCSIS3_CLASS_MODEM) false)
          else if hasTuple tuples DOCSIS3_CLASS_EROUTER
          then modify (addClass (VENDOR_CLASS_PREFIX +:+ DOCSIS3_CLASS_EROUTER) false)
          else modify (addClass (VENDOR_CLASS_PREFIX +:+ tuple_getText tuple0) false)
      end
  | None => mret tt
  end.

Definition classifyPacket6 : ST Pkt unit :=
  _ ← modify (addClass "ALL" false);
  _ ← classifyByVendor6;
  evaluateClasses false.

(** The end of the constructor of [Dhcpv4Exchange] and of [Dhcpv6Srv::initContext]: whether
    [hosts_] is empty decides between the built-in classes. *)
Definition classify_by_hosts (hosts_empty : bool) : ST Pkt unit :=
  _ ← modify (addClass (if hosts_empty then "UNKNOWN" else "KNOWN") false);
  evaluateClasses true.

(** [setReservedClientClasses] with the classes of the current host. *)
Fixpoint reserved_loop (classes : ClientClasses) : ST Pkt unit :=
  match classes with
  | [] => mret tt
  | cclass :: classes' => _ ← modify (addClass cclass false); reserved_loop classes'
  end.
Definition setReservedClientClasses (current_host : option ClientClasses) : ST Pkt unit :=
  match current_host with Some classes => reserved_loop classes | None => mret tt end.

(** *** Required classes *)

Context (network_required : SharedNetwork → ClientClasses).
Context (subnet_required : Subnet → ClientClasses) (pool_required : Pool → ClientClasses).

(** The classes of the shared network and of the subnet are appended to [classes]. *)
Definition collect_subnet (h : Heap) (subnet : Subnet) (classes : ClientClasses) :
    res ClientClasses :=
  network ← match shared_network_ subnet with
            | None => mret []
            | Some n => net ← network_at h n; mret (network_required net)
            end;
  mret (classes ++ network ++ subnet_required subnet).

Definition collect_pool (pool : option Pool) (classes : ClientClasses) : ClientClasses :=
  match pool with Some p => classes ++ pool_required p | None => classes end.

(** The first half of [Dhcpv4Srv::requiredClassify]; [resp] is the address of the response,
    if there is one. *)
Definition required4 (h : Heap) (subnet : option Z) (resp : option IOAddress) (query : Pkt) :
    res ClientClasses :=
  let classes := getClasses true query in
  match subnet with
  | None => Ok classes
  | Some p =>
      s ← subnet_at h p;
      classes ← collect_subnet h s classes;
      let addr := default IPV4_ZERO_ADDRESS resp in
      if isV4Zero addr then mret classes
      else pool ← getPool s TYPE_V4 addr false; mret (collect_pool pool classes)
  end.

(** The pools of the allocated resources, in the first half of
    [Dhcpv6Srv::requiredClassify]. *)
Fixpoint resources_loop (s : Subnet) (resources : list (IOAddress * Z)) (classes : ClientClasses) :
    res ClientClasses :=
  match resources with
  | [] => Ok classes
  | (addr, len) :: resources' =>
      pool ← getPool s (if len =? 128 then TYPE_NA else TYPE_PD) addr false;
      resources_loop s resources' (collect_pool pool classes)
  end.

Definition required6 (h : Heap) (subnet : option Z) (allocated_resources : list (IOAddress * Z))
    (pkt : Pkt) : res ClientClasses :=
  let classes := getClasses true pkt in
  match subnet with
  | None => Ok classes
  | Some p =>
      s ← subnet_at h p;
      classes ← collect_subnet h s classes;
      resources_loop s allocated_resources classes
  end.

(** The loop over the required classes. *)
Fixpoint required_loop (classes : ClientClasses) : ST Pkt unit :=
  match classes with
  | [] => mret tt
  | cclass :: classes' =>
      match findClass cclass dict with
      | None => required_loop classes'
      | Some class_def =>
          match match_expr_ class_def with
          | None => required_loop classes'
          | Some expr => _ ← match_class cclass expr; required_loop classes'
          end
      end
  end.

Definition requiredClassify4 (h : Heap) (subnet : option Z) (resp : option IOAddress) :
    ST Pkt unit :=
  query ← get;
  classes ← lift (required4 h subnet resp query);
  required_loop classes.

Definition requiredClassify6 (h : Heap) (subnet : option Z)
    (allocated_resources : list (IOAddress * Z)) : ST Pkt unit :=
  pkt ← get;
  classes ← lift (required6 h subnet allocated_resources pkt);
  required_loop classes.
End Classify.

(** ** What the code promises *)

Section Passes.
Context `{TextConversions}.

(** [q] is [p] with more classes. *)
Definition extends (p q : Pkt) : Prop :=
  ∃ cl, q = with_classes cl (required_classes_ p) p ∧
        ∀ m, m ∈@{list string} classes_ p → m ∈@{list string} cl.

Lemma extends_refl p : extends p p.
Proof. exists (classes_ p). by destruct p. Qed.

Lemma extends_trans p q r : extends p q → extends q r → extends p r.
Proof. intros (cl & -> & H1) (cl' & -> & H2). exists cl'. split; [done|]. auto. Qed.

Lemma extends_addClass c p : extends p (addClass c false p).
Proof.
  unfold addClass. destruct (contains (classes_ p) c); [apply extends_refl|].
  eexists. split; [done|]. unfold classes_insert. set_solver.
Qed.





(** *** One class, and a pass over the classes *)

Definition matches (expr : Expression) (p : Pkt) : bool :=
  match evaluateBool expr p with Ok b => b | Throw _ => false end.

Definition catchable_expr (expr : Expression) (p : Pkt) : Prop :=
  safe catchable (evaluateBool expr p).

Lemma match_class_run name expr p :
  catchable_expr expr p →
  match_class name expr p = (if matches expr p then addClass name false p else p, Ok tt).
Proof.
  unfold catchable_expr, safe, match_class, matches, try_catch, evaluate_status, mbind, ST_bind.
  destruct (evaluateBool expr p) as [[]|x]; [done|done|]. by intros ->.
Qed.








End Passes.

(** *** The classes of a packet *)

Section Spec.
Context `{TextConversions} (defs : OptionDefs) (family : Universe).
Context (parse_text : string → option bool_expr) (L : list ClientClassDef).
Hypothesis Hbuilt : built defs family parse_text L.
Hypothesis Hnames : Forall (λ c, isClientClassBuiltIn (cc_name_ c) = false) L.
Hypothesis Hfits : ∀ c e, c ∈ L → match_expr_ c ≠ None → parse_text (test_ c) = Some e →
  fits_bool catchable e = true.








End Spec.

(** *** The servers *)

(** The built-in class of the vendor of the client. *)
Definition vendor_class (p : Pkt) : option string :=
  match pkt_universe p with
  | UniverseV4 =>
      o ← getOption p DHO_VENDOR_CLASS_IDENTIFIER;
      match option_class_ o with
      | OptionString => Some (VENDOR_CLASS_PREFIX +:+ option_getValue o)
      | _ => None
      end
  | UniverseV6 =>
      v ← as_vendor_class (getOption p D6O_VENDOR_CLASS);
      t ← head v.2;
      Some (VENDOR_CLASS_PREFIX +:+
        if bool_decide (DOCSIS3_CLASS_MODEM ∈ (tuple_getText <$> v.2)) then DOCSIS3_CLASS_MODEM
        else if bool_decide (DOCSIS3_CLASS_EROUTER ∈ (tuple_getText <$> v.2))
             then DOCSIS3_CLASS_EROUTER
        else tuple_getText t)
  end.






(** What a server does before it answers a query. *)
Definition classify `{TextConversions} (family : Universe) (dict : ClientClassDictionary)
    (hosts_empty : bool) : ST Pkt unit :=
  _ ← match family with
      | UniverseV4 => classifyPacket4 dict
      | UniverseV6 => classifyPacket6 dict
      end;
  classify_by_hosts dict hosts_empty.


(** *** Required classes *)

Section Required.
Context `{TextConversions} (dict : ClientClassDictionary).

Lemma required_loop_run classes p :
  (∀ n c expr q, n ∈@{list string} classes → findClass n dict = Some c →
     match_expr_ c = Some expr → extends p q → catchable_expr expr q) →
  ∃ q, required_loop dict classes p = (q, Ok tt) ∧ extends p q ∧
  ∀ n, n ∈@{list string} classes_ q → n ∈@{list string} classes_ p ∨
    (n ∈@{list string} classes ∧
     ∃ c expr, findClass n dict = Some c ∧ match_expr_ c = Some expr).
Proof.
  revert p. induction classes as [|n classes IH]; intros p Hsafe; cbn [required_loop].
  { exists p. split; [done|]. split; [apply extends_refl|auto]. }
  assert (Hrest : ∀ q, extends p q →
    (∀ m, m ∈@{list string} classes_ q → m ∈@{list string} classes_ p ∨
       (m = n ∧ ∃ c expr, findClass m dict = Some c ∧ match_expr_ c = Some expr)) →
    ∃ q', required_loop dict classes q = (q', Ok tt) ∧ extends p q' ∧
    ∀ m, m ∈@{list string} classes_ q' → m ∈@{list string} classes_ p ∨
      (m ∈@{list string} n :: classes ∧
       ∃ c expr, findClass m dict = Some c ∧ match_expr_ c = Some expr)).
  { intros q Hq Hnew. destruct (IH q) as (q' & Hrun & Hq' & Hn').
    { intros m c expr q' Hm Hc He Hq'. apply (Hsafe m c); [by right|done..|].
      by eapply extends_trans. }
    exists q'. split; [done|]. split; [by eapply extends_trans|]. intros m Hm.
    apply Hn' in Hm as [Hm|[Hm ?]]; [|right; split; [by right|done]].
    apply Hnew in Hm as [?|[-> ?]]; [by left|right; split; [by left|done]]. }
  destruct (findClass n dict) as [c|] eqn:Ec; [|apply Hrest; [apply extends_refl|auto]].
  destruct (match_expr_ c) as [expr|] eqn:Ee; [|apply Hrest; [apply extends_refl|auto]].
  unfold mbind, ST_bind. rewrite match_class_run by (apply (Hsafe n c); [by left|done..|apply extends_refl]).
  destruct (matches expr p); [|apply Hrest; [apply extends_refl|auto]].
  apply Hrest; [apply extends_addClass|]. intros m [->|Hm]%elem_of_addClass; [|by left].
  right. split; [done|]. eauto.
Qed.

(** Evaluating the required classes of a response never fails and adds nothing but
    required classes with an expression. *)
Theorem requiredClassify4_spec network_required subnet_required pool_required (h : Heap)
    (subnet : option Z) (resp : option IOAddress) (p : Pkt) (classes : ClientClasses)
    (Hclasses : required4 network_required subnet_required pool_required h subnet resp p
                = Ok classes)
    (Hsafe : ∀ n c expr q, n ∈@{list string} classes → findClass n dict = Some c →
       match_expr_ c = Some expr → extends p q → catchable_expr expr q) :
  ∃ q, requiredClassify4 dict network_required subnet_required pool_required h subnet resp p
       = (q, Ok tt) ∧ extends p q ∧
  ∀ n, n ∈@{list string} classes_ q → n ∈@{list string} classes_ p ∨
    (n ∈@{list string} classes ∧
     ∃ c expr, findClass n dict = Some c ∧ match_expr_ c = Some expr).
Proof.
  unfold requiredClassify4, mbind, ST_bind, get, lift. rewrite Hclasses.
  by apply required_loop_run.
Qed.
End Required.

(** *** A concrete configuration *)

#[local] Existing Instance Sample.conversions.

Module ClassifySample.
Import ClassSample.




End ClassifySample.


(** A class with the name of a built-in one may name itself: the parser takes the name for a
    class that is there, and after the classification the packet is in a class whose
    expression is false. *)
Theorem class_named_like_builtin :
  ClassSample.parse ClassSample.loop_config = Ok ClassSample.loop_dict ∧
  let p' := (classify UniverseV4 ClassSample.loop_dict false Sample.packet).1 in
  inClass p' "HA_self" = true ∧
  (λ c, (λ expr, evaluateBool expr p') <$> match_expr_ c) <$> list_ ClassSample.loop_dict
  = [Some (Ok false)].
Proof. split; [vm_compute; reflexivity|]. split; vm_compute; reflexivity. Qed.

(** Copying a dictionary with a class of the configuration follows a null pointer. *)
Theorem copy_of_parsed_class : copyDictionary ClassSample.dict = Throw AssertionFailure.
Proof. vm_compute. reflexivity. Qed.

(** A file name of 128 characters is accepted, one more than the message of the check allows. *)
Definition long_name (n : nat) : string :=
  String.string_of_list_ascii (replicate n (Ascii.Ascii true false false false false true true false)).
Theorem file_name_of_128 :
  match ClassSample.parse [ {[ "name" := StringElement "c";
                               "boot-file-name" := StringElement (long_name 128) ]} ] with
  | Ok d => (λ c, String.length (filename_ c)) <$> list_ d = [128%nat]
  | Throw _ => False
  end.
Proof. vm_compute. reflexivity. Qed.
