(* ===== verification/LeaseMgr.v ===== *)
(** * The interface of the lease database ([src/lib/dhcpsrv/lease_mgr.h])

    [LeaseMgr] has the calls of the abstract class that the allocation engine
    makes, and [LeaseMgrLaws] what a backend promises: the database is a map from
    addresses to leases, lookups return copies of its leases, and a call that
    throws has not changed it.  Every call that changes leases can throw, and so can the search
    for expired leases; the other lookups, which the SQL backends can make fail as well, are
    functions that return.  [MemfileLeaseMgr] discharges the laws for the
    in-memory backend; the engine is proved against the laws. *)

From S2P Require Import Prelude IoAddress Pool Lease Lease6.
Local Open Scope Z_scope.

Class LeaseMgr (M : Type) := {
  lm_addLease : Lease4 → ST M bool;
  lm_getLease4 : IOAddress → M → option Lease4;
  (** [getLease4(client_id)] and [getLease4(hwaddr)] *)
  lm_getLease4_cid : list Z → M → list Lease4;
  lm_getLease4_hwaddr : HWAddr → M → list Lease4;
  (** the leases to reclaim at a given time, at most a number of them (0: all) *)
  lm_getExpiredLeases4 : Z → nat → M → res (list Lease4);
  lm_updateLease4 : Lease4 → ST M unit;
  lm_deleteLease : IOAddress → ST M bool;
  (** the removal of the leases reclaimed a number of seconds ago *)
  lm_deleteExpiredReclaimedLeases4 : Z → Z → ST M nat
}.

Class LeaseMgrLaws (M : Type) `{LeaseMgr M} := {
  lm_leases : M → gmap IOAddress Lease4;
  lm_leases_addr : ∀ m a l, lm_leases m !! a = Some l → addr_ l = a;
  lm_getLease4_eq : ∀ a m, lm_getLease4 a m = lm_leases m !! a;
  lm_getLease4_cid_elem : ∀ cid m l, l ∈ lm_getLease4_cid cid m ↔
    lm_leases m !! addr_ l = Some l ∧ getClientIdVector l = cid;
  lm_getLease4_hwaddr_elem : ∀ hw m l, l ∈ lm_getLease4_hwaddr hw m ↔
    lm_leases m !! addr_ l = Some l ∧ getHWAddrVector l = hwaddr_bytes hw;
  lm_getExpiredLeases4_elem : ∀ now m all, lm_getExpiredLeases4 now 0 m = Ok all →
    ∀ l, l ∈ all ↔ lm_leases m !! addr_ l = Some l ∧ stateExpiredReclaimed l = false ∧
                   getExpirationTime l ≤ now;
  lm_getExpiredLeases4_nodup : ∀ now m all, lm_getExpiredLeases4 now 0 m = Ok all →
    NoDup (addr_ <$> all);
  lm_getExpiredLeases4_limit : ∀ now k m, (0 < k)%nat →
    lm_getExpiredLeases4 now k m =
      (all ← lm_getExpiredLeases4 now 0 m; mret (take k all));
  lm_addLease_spec : ∀ l m, wp (lm_addLease l) m
    (λ b m', match lm_leases m !! addr_ l with
             | Some _ => b = false ∧ lm_leases m' = lm_leases m
             | None => b = true ∧ lm_leases m' = <[addr_ l := l]> (lm_leases m)
             end)
    (λ e m', catchable e = true ∧ lm_leases m' = lm_leases m);
  lm_updateLease4_spec : ∀ l m, wp (lm_updateLease4 l) m
    (λ _ m', is_Some (lm_leases m !! addr_ l) ∧
             lm_leases m' = <[addr_ l := l]> (lm_leases m))
    (λ e m', catchable e = true ∧ lm_leases m' = lm_leases m);
  lm_deleteLease_spec : ∀ a m, wp (lm_deleteLease a) m
    (λ b m', b = bool_decide (is_Some (lm_leases m !! a)) ∧
             lm_leases m' = delete a (lm_leases m))
    (λ e m', catchable e = true ∧ lm_leases m' = lm_leases m)
}.

(** ** IPv6 leases *)

Class LeaseMgr6 (M : Type) := {
  lm6_addLease : Lease6 → ST M bool;
  lm6_getLease6 : LeaseType → IOAddress → M → option Lease6;
  (** [getLeases6(type, duid, iaid)] and [getLeases6(type, duid, iaid, subnet_id)] *)
  lm6_getLeases6 : LeaseType → list Z → Z → M → list Lease6;
  lm6_getLeases6_subnet : LeaseType → list Z → Z → Z → M → list Lease6;
  lm6_getExpiredLeases6 : Z → nat → M → res (list Lease6);
  lm6_updateLease6 : Lease6 → ST M unit;
  lm6_deleteLease : IOAddress → ST M bool;
  lm6_deleteExpiredReclaimedLeases6 : Z → Z → ST M nat
}.

(** An address has one lease at most, of whatever type.  Only a lease of the same type
    makes [addLease] refuse another one; with a lease of another type there the answer is
    not specified, but that lease stays. *)
Class LeaseMgr6Laws (M : Type) `{LeaseMgr6 M} := {
  lm6_leases : M → gmap IOAddress Lease6;
  lm6_leases_addr : ∀ m a l, lm6_leases m !! a = Some l → addr6_ l = a;
  lm6_getLease6_eq : ∀ t a m, lm6_getLease6 t a m =
    (l ← lm6_leases m !! a; if decide (lease_type_ l = t) then Some l else None);
  lm6_getLeases6_elem : ∀ t duid iaid m l, l ∈ lm6_getLeases6 t duid iaid m ↔
    lm6_leases m !! addr6_ l = Some l ∧ lease_type_ l = t ∧ getDuidVector l = duid ∧
    iaid_ l = iaid;
  lm6_getLeases6_subnet_elem : ∀ t duid iaid sid m l,
    l ∈ lm6_getLeases6_subnet t duid iaid sid m ↔
    l ∈ lm6_getLeases6 t duid iaid m ∧ subnet_id6_ l = sid;
  lm6_getExpiredLeases6_elem : ∀ now m all, lm6_getExpiredLeases6 now 0 m = Ok all →
    ∀ l, l ∈ all ↔ lm6_leases m !! addr6_ l = Some l ∧ stateExpiredReclaimed6 l = false ∧
                   getExpirationTime6 l ≤ now;
  lm6_getExpiredLeases6_nodup : ∀ now m all, lm6_getExpiredLeases6 now 0 m = Ok all →
    NoDup (addr6_ <$> all);
  lm6_getExpiredLeases6_limit : ∀ now k m, (0 < k)%nat →
    lm6_getExpiredLeases6 now k m =
      (all ← lm6_getExpiredLeases6 now 0 m; mret (take k all));
  lm6_addLease_spec : ∀ l m, wp (lm6_addLease l) m
    (λ b m', match lm6_leases m !! addr6_ l with
             | Some l0 => (lease_type_ l0 = lease_type_ l → b = false) ∧
                          lm6_leases m' = lm6_leases m
             | None => b = true ∧ lm6_leases m' = <[addr6_ l := l]> (lm6_leases m)
             end)
    (λ e m', e ≠ OutOfFuel ∧ lm6_leases m' = lm6_leases m);
  lm6_updateLease6_spec : ∀ l m, wp (lm6_updateLease6 l) m
    (λ _ m', is_Some (lm6_leases m !! addr6_ l) ∧
             lm6_leases m' = <[addr6_ l := l]> (lm6_leases m))
    (λ e m', e ≠ OutOfFuel ∧ lm6_leases m' = lm6_leases m);
  lm6_deleteLease_spec : ∀ a m, wp (lm6_deleteLease a) m
    (λ b m', b = bool_decide (is_Some (lm6_leases m !! a)) ∧
             lm6_leases m' = delete a (lm6_leases m))
    (λ e m', e ≠ OutOfFuel ∧ lm6_leases m' = lm6_leases m)
}.
