(* ===== verification/Host.v ===== *)
(** * Host reservations ([src/lib/dhcpsrv/host.{h,cc}])

    A host is what the administrator reserves for one client: an identifier, the
    subnets it is valid in, an IPv4 address and IPv6 addresses or prefixes.  The
    options, user context and authentication key of a host are not modelled, only
    whether it has options at all.

    [HostMgr] is the interface through which the allocation engine looks hosts up. *)

From S2P Require Import Prelude Algorithms IoAddress Pool Subnet Lease.
Local Open Scope Z_scope.

(** [Host::IdentifierType]. *)
Inductive IdentifierType :=
  | IDENT_HWADDR | IDENT_DUID | IDENT_CIRCUIT_ID | IDENT_CLIENT_ID | IDENT_FLEX.

#[export] Instance IdentifierType_eq_dec : EqDecision IdentifierType.
Proof. solve_decision. Defined.

Definition getIdentifierType_name (identifier_name : string) : res IdentifierType :=
  if decide (identifier_name = "hw-address") then Ok IDENT_HWADDR
  else if decide (identifier_name = "duid") then Ok IDENT_DUID
  else if decide (identifier_name = "circuit-id") then Ok IDENT_CIRCUIT_ID
  else if decide (identifier_name = "client-id") then Ok IDENT_CLIENT_ID
  else if decide (identifier_name = "flex-id") then Ok IDENT_FLEX
  else Throw BadValue.

Definition getIdentifierName (type : IdentifierType) : string :=
  match type with
  | IDENT_HWADDR => "hw-address"
  | IDENT_DUID => "duid"
  | IDENT_CIRCUIT_ID => "circuit-id"
  | IDENT_CLIENT_ID => "client-id"
  | IDENT_FLEX => "flex-id"
  end.

(** [IPv6Resrv]. *)
Inductive ResrvType := RESRV_NA | RESRV_PD.

#[export] Instance ResrvType_eq_dec : EqDecision ResrvType.
Proof. solve_decision. Defined.

Record IPv6Resrv := { resrv_type_ : ResrvType; resrv_prefix_ : IOAddress; resrv_len_ : Z }.

#[export] Instance IPv6Resrv_eq_dec : EqDecision IPv6Resrv.
Proof. solve_decision. Defined.

Definition mkIPv6Resrv (type : ResrvType) (prefix : IOAddress) (prefix_len : Z) : res IPv6Resrv :=
  if negb (isV6 prefix) || isV6Multicast prefix then Throw BadValue
  else if 128 <? prefix_len then Throw BadValue
  else if bool_decide (type = RESRV_NA) && negb (prefix_len =? 128) then Throw BadValue
  else Ok {| resrv_type_ := type; resrv_prefix_ := prefix; resrv_len_ := prefix_len |}.

Record Host := {
  identifier_type_ : IdentifierType;
  identifier_value_ : list Z;
  ipv4_subnet_id_ : Z;
  ipv6_subnet_id_ : Z;
  ipv4_reservation_ : IOAddress;
  ipv6_reservations_ : list IPv6Resrv;
  host_hostname_ : string;
  dhcp4_client_classes_ : list string;
  dhcp6_client_classes_ : list string;
  next_server_ : IOAddress;
  server_host_name_ : string;
  boot_file_name_ : string;
  has_options4_ : bool;
  has_options6_ : bool;
  negative_ : bool
}.

#[export] Instance Host_eq_dec : EqDecision Host.
Proof. solve_decision. Defined.

Definition host_with (h : Host) (v4 : IOAddress) (v6 : list IPv6Resrv) (next : IOAddress) : Host :=
  {| identifier_type_ := identifier_type_ h; identifier_value_ := identifier_value_ h;
     ipv4_subnet_id_ := ipv4_subnet_id_ h; ipv6_subnet_id_ := ipv6_subnet_id_ h;
     ipv4_reservation_ := v4; ipv6_reservations_ := v6;
     host_hostname_ := host_hostname_ h; dhcp4_client_classes_ := dhcp4_client_classes_ h;
     dhcp6_client_classes_ := dhcp6_client_classes_ h; next_server_ := next;
     server_host_name_ := server_host_name_ h; boot_file_name_ := boot_file_name_ h;
     has_options4_ := has_options4_ h; has_options6_ := has_options6_ h;
     negative_ := negative_ h |}.

Definition setIPv4Reservation (address : IOAddress) (h : Host) : res Host :=
  if negb (isV4 address) then Throw BadValue
  else if isV4Zero address || isV4Bcast address then Throw BadValue
  else Ok (host_with h address (ipv6_reservations_ h) (next_server_ h)).

Definition removeIPv4Reservation (h : Host) : Host :=
  host_with h IPV4_ZERO_ADDRESS (ipv6_reservations_ h) (next_server_ h).

Definition setNextServer (next_server : IOAddress) (h : Host) : res Host :=
  if negb (isV4 next_server) then Throw BadValue
  else if isV4Bcast next_server then Throw BadValue
  else Ok (host_with h (ipv4_reservation_ h) (ipv6_reservations_ h) next_server).

(** The constructor from a binary identifier. *)
Definition mkHost (identifier : list Z) (type : IdentifierType) (subnet4 subnet6 : Z)
    (ipv4_reservation : IOAddress) (hostname : string) (classes4 classes6 : list string)
    (next_server : IOAddress) (server_host_name boot_file_name : string) : res Host :=
  _ ← throw_if (length identifier <? 1)%nat BadValue;
  let h := {| identifier_type_ := type; identifier_value_ := identifier;
              ipv4_subnet_id_ := subnet4; ipv6_subnet_id_ := subnet6;
              ipv4_reservation_ := IPV4_ZERO_ADDRESS; ipv6_reservations_ := [];
              host_hostname_ := hostname; dhcp4_client_classes_ := classes4;
              dhcp6_client_classes_ := classes6; next_server_ := IPV4_ZERO_ADDRESS;
              server_host_name_ := server_host_name; boot_file_name_ := boot_file_name;
              has_options4_ := false; has_options6_ := false; negative_ := false |} in
  h ← (if isV4Zero ipv4_reservation then Ok h else setIPv4Reservation ipv4_reservation h);
  if isV4Zero next_server then Ok h else setNextServer next_server h.

(** [getHWAddress] and [getDuid]: the objects are built from the identifier, and
    their constructors check its length. *)
Definition getHWAddress (h : Host) : res (option HWAddr) :=
  if decide (identifier_type_ h = IDENT_HWADDR) then
    if (20 <? length (identifier_value_ h))%nat then Throw BadValue
    else Ok (Some {| hwaddr_bytes := identifier_value_ h; htype_ := HTYPE_ETHER |})
  else Ok None.

Definition getDuid (h : Host) : res (option (list Z)) :=
  if decide (identifier_type_ h = IDENT_DUID) then
    if (128 <? length (identifier_value_ h))%nat || bool_decide (identifier_value_ h = [])
    then Throw BadValue
    else Ok (Some (identifier_value_ h))
  else Ok None.

Definition hasIPv6Reservation (h : Host) : bool := bool_decide (ipv6_reservations_ h ≠ []).

Definition hasReservation (h : Host) (r : IPv6Resrv) : bool :=
  existsb (λ r', bool_decide (r' = r))
    (filter (λ r', resrv_type_ r' = resrv_type_ r) (ipv6_reservations_ h)).

(** Insertion into the multimap from types to reservations: after the elements
    of the same or a smaller type. *)
Definition multimap_insert (r : IPv6Resrv) (l : list IPv6Resrv) : list IPv6Resrv :=
  match resrv_type_ r with
  | RESRV_NA => filter (λ r', resrv_type_ r' = RESRV_NA) l ++ [r] ++
                filter (λ r', resrv_type_ r' = RESRV_PD) l
  | RESRV_PD => l ++ [r]
  end.

Definition addReservation (r : IPv6Resrv) (h : Host) : res Host :=
  if hasReservation h r then Throw InvalidOperation
  else Ok (host_with h (ipv4_reservation_ h) (multimap_insert r (ipv6_reservations_ h))
             (next_server_ h)).

Definition getIPv6Reservations (h : Host) (type : ResrvType) : list IPv6Resrv :=
  filter (λ r, resrv_type_ r = type) (ipv6_reservations_ h).

(** What every [Host] object satisfies. *)
Record wf_host (h : Host) : Prop := {
  wf_host_identifier : identifier_value_ h ≠ [];
  wf_host_ipv4 : isV4 (ipv4_reservation_ h) = true;
  wf_host_ipv6 : Forall (λ r, isV6 (resrv_prefix_ r) = true ∧ resrv_len_ r ≤ 128 ∧
                    (resrv_type_ r = RESRV_NA → resrv_len_ r = 128)) (ipv6_reservations_ h);
  wf_host_distinct : NoDup (ipv6_reservations_ h);
  wf_host_grouped : ipv6_reservations_ h =
    getIPv6Reservations h RESRV_NA ++ getIPv6Reservations h RESRV_PD
}.

Lemma filter_type_same t (l : list IPv6Resrv) :
  filter (λ r, resrv_type_ r = t) (filter (λ r, resrv_type_ r = t) l)
  = filter (λ r, resrv_type_ r = t) l.
Proof. apply filter_all, Forall_forall. by intros r [? _]%list_elem_of_filter. Qed.

Lemma filter_type_other t t' (l : list IPv6Resrv) :
  t ≠ t' → filter (λ r, resrv_type_ r = t) (filter (λ r, resrv_type_ r = t') l) = [].
Proof.
  intros Hne. apply filter_none, Forall_forall. intros r [? _]%list_elem_of_filter. congruence.
Qed.

Lemma multimap_insert_perm r l : multimap_insert r l ≡ₚ r :: l.
Proof.
  unfold multimap_insert. destruct (resrv_type_ r).
  - rewrite (Permutation_app_comm [r]), app_assoc, <- Permutation_cons_append. f_equiv.
    induction l as [|x l IH]; [done|]. rewrite !filter_cons. destruct (resrv_type_ x) eqn:E.
    + rewrite decide_True, decide_False by congruence. simpl. by rewrite IH.
    + rewrite decide_False, decide_True by congruence. by rewrite <- Permutation_middle, IH.
  - by rewrite <- Permutation_cons_append.
Qed.

Lemma hasReservation_spec h r : hasReservation h r = true ↔ r ∈ ipv6_reservations_ h.
Proof.
  unfold hasReservation. rewrite existsb_elem_of. split.
  - intros (x & [_ Hx]%list_elem_of_filter & ->%bool_decide_eq_true). done.
  - intros Hr. exists r. rewrite bool_decide_eq_true, list_elem_of_filter. done.
Qed.

(** adding an IPv6 reservation to a host adds exactly that one, after those
    of its type, and keeps the invariant; a reservation the host already has is
    refused. *)
Theorem addReservation_spec (h : Host) (r : IPv6Resrv) (Hh : wf_host h)
    (Hr : mkIPv6Resrv (resrv_type_ r) (resrv_prefix_ r) (resrv_len_ r) = Ok r) :
  match addReservation r h with
  | Ok h' =>
      wf_host h' ∧ (r ∉ ipv6_reservations_ h) ∧
      getIPv6Reservations h' (resrv_type_ r) = getIPv6Reservations h (resrv_type_ r) ++ [r] ∧
      ∀ t, t ≠ resrv_type_ r → getIPv6Reservations h' t = getIPv6Reservations h t
  | Throw e => e = InvalidOperation ∧ r ∈ ipv6_reservations_ h
  end.
Proof.
  unfold addReservation. destruct (hasReservation h r) eqn:E.
  { by apply hasReservation_spec in E. }
  assert (r ∉ ipv6_reservations_ h) as Hnew by (rewrite <- hasReservation_spec; congruence).
  destruct Hh as [Hid H4 H6 Hnd Hg].
  pose proof (multimap_insert_perm r (ipv6_reservations_ h)) as Hperm.
  assert (∀ t, filter (λ r', resrv_type_ r' = t) (multimap_insert r (ipv6_reservations_ h)) =
    (if decide (t = resrv_type_ r) then getIPv6Reservations h t ++ [r]
     else getIPv6Reservations h t)) as Hf.
  { intros t. unfold multimap_insert, getIPv6Reservations.
    destruct (resrv_type_ r) eqn:Et, t; rewrite ?filter_app, ?filter_cons, ?filter_nil;
      rewrite ?filter_type_same, ?filter_type_other by done; simpl; rewrite ?Et; simpl;
      by rewrite ?app_nil_r. }
  unfold getIPv6Reservations in *. cbn [ipv6_reservations_ host_with].
  split_and!; [|done| |].
  - split; cbn [identifier_value_ ipv4_reservation_ ipv6_reservations_ host_with]; [done|done| | |].
    + rewrite Hperm. constructor; [|done].
      unfold mkIPv6Resrv in Hr.
      destruct (isV6 (resrv_prefix_ r)); [|done].
      destruct (isV6Multicast _); [done|]. simpl in Hr.
      destruct (Z.ltb_spec 128 (resrv_len_ r)); [done|].
      split_and!; [done|lia|]. intros Ht. rewrite bool_decide_eq_true_2 in Hr by done.
      destruct (Z.eqb_spec (resrv_len_ r) 128); done.
    + rewrite Hperm. by constructor.
    + unfold getIPv6Reservations. cbn [ipv6_reservations_ host_with]. rewrite !Hf.
      unfold multimap_insert, getIPv6Reservations. destruct (resrv_type_ r); simpl.
      * by rewrite <- app_assoc.
      * rewrite app_assoc. by rewrite Hg at 1.
  - rewrite Hf. by rewrite decide_True.
  - intros t Ht. rewrite Hf. by rewrite decide_False.
Qed.

(** A host with one reserved address and one delegated prefix. *)
Definition sample_host6 : Host :=
  {| identifier_type_ := IDENT_DUID; identifier_value_ := [1; 2; 3; 4];
     ipv4_subnet_id_ := SUBNET_ID_UNUSED; ipv6_subnet_id_ := 7;
     ipv4_reservation_ := IPV4_ZERO_ADDRESS;
     ipv6_reservations_ :=
       [{| resrv_type_ := RESRV_NA; resrv_prefix_ := V6 0x10; resrv_len_ := 128 |};
        {| resrv_type_ := RESRV_PD; resrv_prefix_ := V6 (2 ^ 64); resrv_len_ := 64 |}];
     host_hostname_ := ""; dhcp4_client_classes_ := []; dhcp6_client_classes_ := [];
     next_server_ := IPV4_ZERO_ADDRESS; server_host_name_ := ""; boot_file_name_ := "";
     has_options4_ := false; has_options6_ := false; negative_ := false |}.

Lemma sample_host6_wf : wf_host sample_host6.
Proof.
  split; [done|done| | |reflexivity].
  - repeat constructor; done.
  - apply (bool_decide_unpack _). vm_compute. exact I.
Qed.

Lemma addReservation_spec_witness :
  let r := {| resrv_type_ := RESRV_NA; resrv_prefix_ := V6 0x11; resrv_len_ := 128 |} in
  wf_host sample_host6 ∧
  ∃ h', addReservation r sample_host6 = Ok h' ∧ wf_host h' ∧
    getIPv6Reservations h' RESRV_NA =
      [{| resrv_type_ := RESRV_NA; resrv_prefix_ := V6 0x10; resrv_len_ := 128 |}; r].
Proof.
  intros r. split; [exact sample_host6_wf|].
  assert (∃ h', addReservation r sample_host6 = Ok h') as [h' E] by (vm_compute; by eexists).
  exists h'. split; [exact E|].
  pose proof (addReservation_spec sample_host6 r sample_host6_wf eq_refl) as H.
  rewrite E in H. destruct H as (H1 & _ & H2 & _). split; [exact H1|exact H2].
Defined.

(** What the engine and the configuration promise about lookups of hosts. *)
Class HostMgr := {
  host_get4_address : Z → IOAddress → res (option Host);
  host_get4_identifier : Z → IdentifierType → list Z → res (option Host);
  host_getAll : IdentifierType → list Z → res (list Host)
}.

(** A lookup may fail, with an exception of the code. *)
Class HostMgrLaws `{HostMgr} : Prop := {
  host_get4_address_exn : ∀ s a, host_get4_address s a ≠ Throw OutOfFuel;
  host_get4_identifier_exn : ∀ s t i, host_get4_identifier s t i ≠ Throw OutOfFuel;
  host_getAll_exn : ∀ t i, host_getAll t i ≠ Throw OutOfFuel
}.

(** The lookups of the DHCPv6 engine, by subnet and address or identifier; those by
    identifier alone are [host_getAll]. *)
Class HostMgr6 := {
  host_get6_address : Z → IOAddress → res (option Host);
  host_get6_identifier : Z → IdentifierType → list Z → res (option Host)
}.

Class HostMgr6Laws `{HostMgr6} : Prop := {
  host_get6_address_exn : ∀ s a, host_get6_address s a ≠ Throw OutOfFuel;
  host_get6_identifier_exn : ∀ s t i, host_get6_identifier s t i ≠ Throw OutOfFuel
}.
