(* ===== verification/CfgHosts.v ===== *)
(** * The reservations of the configuration ([src/lib/dhcpsrv/cfg_hosts.cc],
      [host_container.h])

    [CfgHosts] keeps two Boost containers: [hosts_], indexed (not uniquely) by
    the identifier and by the reserved IPv4 address, and [hosts6_], with one entry
    per IPv6 reservation, indexed by the prefix and (uniquely) by the IPv6 subnet
    and the prefix.  An ordered index that is not unique keeps equal keys in the
    order of insertion, so a container is the list of its elements in that order
    and the range of a key is a filter of the list. *)

From S2P Require Import Prelude Algorithms IoAddress Pool Subnet Lease Host.
Local Open Scope Z_scope.

(** [HostResrv6Tuple]. *)
Record HostResrv6Tuple := { resrv_ : IPv6Resrv; host_ : Host; resrv_subnet_id_ : Z }.

Definition mkHostResrv6Tuple (r : IPv6Resrv) (h : Host) : HostResrv6Tuple :=
  {| resrv_ := r; host_ := h; resrv_subnet_id_ := ipv6_subnet_id_ h |}.

Record CfgHosts := { hosts_ : list Host; hosts6_ : list HostResrv6Tuple }.

Definition has_identifier (type : IdentifierType) (identifier : list Z) (h : Host) : Prop :=
  identifier_value_ h = identifier ∧ identifier_type_ h = type.
#[export] Instance has_identifier_dec type i h : Decision (has_identifier type i h).
Proof. unfold has_identifier. apply _. Defined.

Definition getAllInternal (c : CfgHosts) (type : IdentifierType) (identifier : list Z) : list Host :=
  filter (has_identifier type identifier) (hosts_ c).

Definition getAllInternal4 (c : CfgHosts) (address : IOAddress) : res (list Host) :=
  _ ← throw_if (negb (isV4 address)) BadHostAddress;
  mret (filter (λ h, ipv4_reservation_ h = address) (hosts_ c)).

(** The search by an IPv6 address looks in the index of IPv4 reservations. *)
Definition getAllInternal6_any (c : CfgHosts) (address : IOAddress) : res (list Host) :=
  _ ← throw_if (negb (isV6 address)) BadHostAddress;
  mret (filter (λ h, ipv4_reservation_ h = address) (hosts_ c)).

Definition getAllInternal6 (c : CfgHosts) (subnet_id : Z) (address : IOAddress) : res (list Host) :=
  _ ← throw_if (negb (isV6 address)) BadHostAddress;
  mret (host_ <$> filter (λ t, resrv_subnet_id_ t = subnet_id ∧ resrv_prefix_ (resrv_ t) = address)
                    (hosts6_ c)).

(** The loop of [getHostInternal] over the hosts with the identifier. *)
Fixpoint getHostInternal_loop (subnet_id : Z) (subnet6 : bool) (host : option Host)
    (hosts : list Host) : res (option Host) :=
  match hosts with
  | [] => Ok host
  | h :: hosts' =>
      let host_subnet_id := if subnet6 then ipv6_subnet_id_ h else ipv4_subnet_id_ h in
      if subnet_id =? host_subnet_id then
        match host with
        | None => getHostInternal_loop subnet_id subnet6 (Some h) hosts'
        | Some _ => Throw DuplicateHost
        end
      else getHostInternal_loop subnet_id subnet6 host hosts'
  end.

Definition getHostInternal (c : CfgHosts) (subnet_id : Z) (subnet6 : bool)
    (type : IdentifierType) (identifier : list Z) : res (option Host) :=
  getHostInternal_loop subnet_id subnet6 None (getAllInternal c type identifier).

Definition cfg_get4 (c : CfgHosts) := λ subnet_id, getHostInternal c subnet_id false.
Definition cfg_get6 (c : CfgHosts) := λ subnet_id, getHostInternal c subnet_id true.

Definition cfg_get4_address (c : CfgHosts) (subnet_id : Z) (address : IOAddress)
    : res (option Host) :=
  hosts ← getAllInternal4 c address;
  mret (find (λ h, ipv4_subnet_id_ h =? subnet_id) hosts).

(** [getHostInternal6] by subnet and address, and by prefix and length. *)
Definition cfg_get6_address (c : CfgHosts) (subnet_id : Z) (address : IOAddress)
    : res (option Host) :=
  storage ← getAllInternal6 c subnet_id address;
  match storage with
  | [] => Ok None
  | [h] => Ok (Some h)
  | _ => Throw DuplicateHost
  end.

Definition cfg_get6_prefix (c : CfgHosts) (prefix : IOAddress) (prefix_len : Z) : option Host :=
  host_ <$> find (λ t, resrv_len_ (resrv_ t) =? prefix_len)
              (filter (λ t, resrv_prefix_ (resrv_ t) = prefix) (hosts6_ c)).

(** No resource at all is reserved. *)
Definition reserves_nothing (h : Host) : bool :=
  bool_decide (host_hostname_ h = "") && isV4Zero (ipv4_reservation_ h) &&
  negb (hasIPv6Reservation h) && isV4Zero (next_server_ h) &&
  bool_decide (server_host_name_ h = "") && bool_decide (boot_file_name_ h = "") &&
  negb (has_options4_ h) && negb (has_options6_ h) &&
  bool_decide (dhcp4_client_classes_ h = []) && bool_decide (dhcp6_client_classes_ h = []).

(** [if (present && get(...)) isc_throw(DuplicateHost, ...)]: the lookup is only
    done when the identifier is there and not empty. *)
Definition check_duplicate (get : IdentifierType → list Z → res (option Host))
    (type : IdentifierType) (identifier : option (list Z)) : res unit :=
  match identifier with
  | Some (b :: l) =>
      h ← get type (b :: l);
      throw_if (bool_decide (is_Some h)) DuplicateHost
  | _ => Ok tt
  end.

Definition add4 (h : Host) (c : CfgHosts) : res CfgHosts :=
  hwaddr ← getHWAddress h;
  duid ← getDuid h;
  _ ← throw_if (reserves_nothing h) BadValue;
  _ ← (if negb (ipv4_subnet_id_ h =? SUBNET_ID_UNUSED) then
         _ ← check_duplicate (cfg_get4 c (ipv4_subnet_id_ h)) IDENT_HWADDR (hwaddr_bytes <$> hwaddr);
         check_duplicate (cfg_get4 c (ipv4_subnet_id_ h)) IDENT_DUID duid
       else if negb (ipv6_subnet_id_ h =? SUBNET_ID_UNUSED) then
         _ ← check_duplicate (cfg_get6 c (ipv6_subnet_id_ h)) IDENT_DUID duid;
         check_duplicate (cfg_get6 c (ipv6_subnet_id_ h)) IDENT_HWADDR (hwaddr_bytes <$> hwaddr)
       else Ok tt);
  _ ← (if negb (isV4Zero (ipv4_reservation_ h)) && negb (ipv4_subnet_id_ h =? SUBNET_ID_UNUSED)
       then r ← cfg_get4_address c (ipv4_subnet_id_ h) (ipv4_reservation_ h);
            throw_if (bool_decide (is_Some r)) ReservedAddress
       else Ok tt);
  _ ← (if negb (ipv4_subnet_id_ h =? SUBNET_ID_UNUSED)
       then check_duplicate (cfg_get4 c (ipv4_subnet_id_ h)) (identifier_type_ h)
              (Some (identifier_value_ h))
       else Ok tt);
  mret {| hosts_ := hosts_ c ++ [h]; hosts6_ := hosts6_ c |}.

(** The insertion into [hosts6_], which the unique index may refuse. *)
Definition hosts6_insert (t : HostResrv6Tuple) (l : list HostResrv6Tuple) : list HostResrv6Tuple :=
  if existsb (λ t', (resrv_subnet_id_ t' =? resrv_subnet_id_ t) &&
                    bool_decide (resrv_prefix_ (resrv_ t') = resrv_prefix_ (resrv_ t))) l
  then l else l ++ [t].

(** The loop of [add6]; the entries made before an exception stay. *)
Fixpoint add6_loop (h : Host) (reservations : list IPv6Resrv) : ST CfgHosts unit :=
  match reservations with
  | [] => mret tt
  | r :: reservations' =>
      c ← get;
      found ← lift (cfg_get6_address c (ipv6_subnet_id_ h) (resrv_prefix_ r));
      match found with
      | Some _ => throw DuplicateHost
      | None =>
          _ ← put {| hosts_ := hosts_ c;
                     hosts6_ := hosts6_insert (mkHostResrv6Tuple r h) (hosts6_ c) |};
          add6_loop h reservations'
      end
  end.

Definition add6 (h : Host) : ST CfgHosts unit :=
  if ipv6_subnet_id_ h =? SUBNET_ID_UNUSED then mret tt
  else
    _ ← lift (getHWAddress h);
    _ ← lift (getDuid h);
    add6_loop h (ipv6_reservations_ h).

(** [add], on a pointer that may be null. *)
Definition hosts_add (host : option Host) : ST CfgHosts unit :=
  match host with
  | None => throw BadValue
  | Some h =>
      if (ipv4_subnet_id_ h =? SUBNET_ID_UNUSED) && (ipv6_subnet_id_ h =? SUBNET_ID_UNUSED)
      then throw BadValue
      else
        c ← get;
        c' ← lift (add4 h c);
        _ ← put c';
        add6 h
  end.

(** [del], [del4] and [del6] are not implemented by the code. *)
Definition hosts_del (c : CfgHosts) : res bool := Throw NotImplemented.

(** ** The invariant and the lookups *)

Definition subnet_of (subnet6 : bool) (h : Host) : Z :=
  if subnet6 then ipv6_subnet_id_ h else ipv4_subnet_id_ h.

(** At most one element of a list satisfies the predicate. *)
Definition at_most_one {A} (P : A → Prop) (l : list A) : Prop :=
  ∀ i j x y, l !! i = Some x → l !! j = Some y → P x → P y → i = j.

(** Within an IPv4 subnet, identifiers and addresses are reserved once, and
    within an IPv6 subnet an address or prefix is; the entries by IPv6 reservation
    are reservations of hosts of the configuration. *)
Record wf_cfg (c : CfgHosts) : Prop := {
  wf_cfg_hosts : Forall wf_host (hosts_ c);
  wf_cfg_identifiers : ∀ s type identifier, s ≠ SUBNET_ID_UNUSED →
    at_most_one (λ h, has_identifier type identifier h ∧ ipv4_subnet_id_ h = s) (hosts_ c);
  wf_cfg_addresses : ∀ s a, s ≠ SUBNET_ID_UNUSED → a ≠ IPV4_ZERO_ADDRESS →
    at_most_one (λ h, ipv4_reservation_ h = a ∧ ipv4_subnet_id_ h = s) (hosts_ c);
  wf_cfg_unique6 : ∀ s a,
    at_most_one (λ t, resrv_subnet_id_ t = s ∧ resrv_prefix_ (resrv_ t) = a) (hosts6_ c);
  wf_cfg_entries : Forall (λ t, host_ t ∈ hosts_ c ∧
    resrv_ t ∈ ipv6_reservations_ (host_ t) ∧ resrv_subnet_id_ t = ipv6_subnet_id_ (host_ t))
    (hosts6_ c)
}.

Lemma at_most_one_filter {A} (P : A → Prop) `{∀ x, Decision (P x)} l :
  at_most_one P l → filter P l = [] ∨ ∃ x, filter P l = [x].
Proof.
  induction l as [|x l IH]; intros H1; [by left|].
  assert (at_most_one P l) as Hl.
  { intros i j y z Hi Hj Hy Hz. enough (S i = S j) by lia.
    eapply (H1 (S i) (S j)); eauto. }
  rewrite filter_cons. destruct (decide (P x)) as [Hx|Hx]; [|by apply IH].
  right. exists x. f_equal. apply filter_none, Forall_lookup_2. intros i y Hi Hy.
  assert (0%nat = S i); [|done]. eapply (H1 0%nat (S i)); eauto.
Qed.

Lemma at_most_one_snoc {A} (P : A → Prop) l x :
  at_most_one P l → (P x → ∀ y, y ∈ l → ¬ P y) → at_most_one P (l ++ [x]).
Proof.
  intros H1 H2 i j y z Hi Hj Hy Hz.
  apply lookup_app_Some in Hi as [Hi|[Hi Hi']], Hj as [Hj|[Hj Hj']].
  - eauto.
  - apply list_lookup_singleton_Some in Hj' as [_ ->]. destruct (H2 Hz y); [|done].
    by eapply list_elem_of_lookup_2.
  - apply list_lookup_singleton_Some in Hi' as [_ ->]. destruct (H2 Hy z); [|done].
    by eapply list_elem_of_lookup_2.
  - apply list_lookup_singleton_Some in Hi' as [? _], Hj' as [? _]. lia.
Qed.

Lemma find_filter {A} (f : A → bool) l : find f l = head (filter (λ x, f x = true) l).
Proof.
  induction l as [|x l IH]; [done|]. rewrite filter_cons. simpl.
  destruct (f x); [by rewrite decide_True|by rewrite decide_False].
Qed.

Lemma getHostInternal_loop_spec s b host hosts :
  getHostInternal_loop s b host hosts =
    match host, filter (λ h, subnet_of b h = s) hosts with
    | _, [] => Ok host
    | None, [h] => Ok (Some h)
    | _, _ => Throw DuplicateHost
    end.
Proof.
  revert host. induction hosts as [|h hosts IH]; intros host; [by destruct host|].
  cbn [getHostInternal_loop]. rewrite filter_cons. fold (subnet_of b h).
  destruct (Z.eqb_spec s (subnet_of b h)) as [->|Hne].
  - rewrite decide_True by done. destruct host; [done|]. rewrite IH.
    by destruct (filter _ hosts).
  - rewrite decide_False by congruence. by rewrite IH.
Qed.

Lemma getHostInternal_eq c s b type identifier :
  getHostInternal c s b type identifier =
    match filter (λ h, has_identifier type identifier h ∧ subnet_of b h = s) (hosts_ c) with
    | [] => Ok None
    | [h] => Ok (Some h)
    | _ => Throw DuplicateHost
    end.
Proof.
  unfold getHostInternal, getAllInternal. rewrite getHostInternal_loop_spec.
  rewrite list_filter_filter. rewrite (list_filter_iff _
    (λ h, has_identifier type identifier h ∧ subnet_of b h = s)) by tauto. done.
Qed.

(** What a lookup that finds at most one host answers. *)
Definition finds (r : res (option Host)) (l : list Host) (P : Host → Prop) : Prop :=
  match r with
  | Ok (Some h) => h ∈ l ∧ P h ∧ ∀ h', h' ∈ l → P h' → h' = h
  | Ok None => ∀ h', h' ∈ l → ¬ P h'
  | Throw _ => False
  end.

Lemma finds_filter (P : Host → Prop) `{∀ h, Decision (P h)} l :
  at_most_one P l → finds (Ok (head (filter P l))) l P.
Proof.
  intros H1. assert (∀ h, h ∈ filter P l ↔ P h ∧ h ∈ l) as Hin by (intros; apply list_elem_of_filter).
  destruct (at_most_one_filter P l H1) as [E|[h E]]; rewrite E in *; simpl.
  - intros h' Hh' HP. by eapply not_elem_of_nil, Hin.
  - setoid_rewrite list_elem_of_singleton in Hin. destruct (proj1 (Hin h) eq_refl).
    split_and!; [done..|]. intros h' ??. by apply Hin.
Qed.

Lemma cfg_get4_finds c s type identifier :
  wf_cfg c → s ≠ SUBNET_ID_UNUSED →
  finds (cfg_get4 c s type identifier) (hosts_ c)
    (λ h, has_identifier type identifier h ∧ ipv4_subnet_id_ h = s).
Proof.
  intros Hc Hs. pose proof (wf_cfg_identifiers c Hc s type identifier Hs) as H1.
  unfold cfg_get4. rewrite getHostInternal_eq. cbn [subnet_of].
  pose proof (finds_filter _ _ H1) as H2.
  by destruct (at_most_one_filter _ _ H1) as [E|[h E]]; rewrite E in *.
Qed.

Lemma cfg_get4_address_finds c s a :
  wf_cfg c → s ≠ SUBNET_ID_UNUSED → isV4 a = true → a ≠ IPV4_ZERO_ADDRESS →
  finds (cfg_get4_address c s a) (hosts_ c)
    (λ h, ipv4_reservation_ h = a ∧ ipv4_subnet_id_ h = s).
Proof.
  intros Hc Hs Ha Hz. unfold cfg_get4_address, getAllInternal4. rewrite Ha.
  cbn [negb throw_if mbind res_bind mret res_ret]. rewrite find_filter, list_filter_filter.
  rewrite (list_filter_iff _ (λ h, ipv4_reservation_ h = a ∧ ipv4_subnet_id_ h = s))
    by (intros; rewrite Z.eqb_eq; tauto).
  apply finds_filter. by apply (wf_cfg_addresses c Hc).
Qed.

(** in a configuration built by [add], the lookups in an IPv4 subnet never
    throw: they return the one host with the identifier, or with the reserved
    address, and none only when there is none. *)
Theorem cfg_lookup_spec (c : CfgHosts) (s : Z) (type : IdentifierType) (identifier : list Z)
    (a : IOAddress) (Hc : wf_cfg c) (Hs : s ≠ SUBNET_ID_UNUSED)
    (Ha : isV4 a = true) (Hz : a ≠ IPV4_ZERO_ADDRESS) :
  finds (cfg_get4 c s type identifier) (hosts_ c)
    (λ h, has_identifier type identifier h ∧ ipv4_subnet_id_ h = s) ∧
  finds (cfg_get4_address c s a) (hosts_ c)
    (λ h, ipv4_reservation_ h = a ∧ ipv4_subnet_id_ h = s).
Proof. split; [by apply cfg_get4_finds|by apply cfg_get4_address_finds]. Qed.

(** ** Adding a host *)

Lemma check_duplicate_Ok get type identifier :
  check_duplicate get type identifier = Ok tt →
  ∀ b l, identifier = Some (b :: l) → get type (b :: l) = Ok None.
Proof.
  intros H b l ->. cbn [check_duplicate] in H. res_inv.
  by destruct a.
Qed.

(** The checks of [add4] that matter for the invariant. *)
Lemma add4_Ok h c c' :
  add4 h c = Ok c' →
  c' = {| hosts_ := hosts_ c ++ [h]; hosts6_ := hosts6_ c |} ∧
  (ipv4_subnet_id_ h ≠ SUBNET_ID_UNUSED →
    (identifier_value_ h ≠ [] →
     cfg_get4 c (ipv4_subnet_id_ h) (identifier_type_ h) (identifier_value_ h) = Ok None) ∧
    (ipv4_reservation_ h ≠ IPV4_ZERO_ADDRESS →
     cfg_get4_address c (ipv4_subnet_id_ h) (ipv4_reservation_ h) = Ok None)).
Proof.
  intros H. unfold add4 in H.
  apply res_bind_Ok in H as (hw & _ & H). apply res_bind_Ok in H as (d & _ & H).
  apply throw_if_Ok in H as [_ H]. apply res_bind_Ok in H as (u1 & _ & H).
  apply res_bind_Ok in H as (u2 & H2 & H). apply res_bind_Ok in H as (u3 & H3 & H).
  injection H as <-. split; [done|]. intros Hs.
  rewrite (proj2 (Z.eqb_neq _ _) Hs) in H2, H3. cbn [negb] in H2, H3. split.
  - intros Hid. destruct (identifier_value_ h) as [|b l] eqn:E; [done|]. destruct u3.
    eapply check_duplicate_Ok; eauto.
  - intros Ha. assert (isV4Zero (ipv4_reservation_ h) = false) as Hz.
    { unfold isV4Zero, equals. by apply bool_decide_eq_false_2. }
    rewrite Hz in H2. cbn [negb andb] in H2. res_inv. by destruct a.
Qed.

Lemma add4_wf h c c' :
  wf_cfg c → wf_host h → add4 h c = Ok c' → wf_cfg c'.
Proof.
  intros Hc Hh H. apply add4_Ok in H as [-> H]. pose proof Hc as Hc'.
  destruct Hc' as [H1 H2 H3 H4 H5]. split; cbn [hosts_ hosts6_].
  - by apply Forall_app_2; [|constructor].
  - intros s type identifier Hs. apply at_most_one_snoc; [by apply H2|].
    intros [[<- <-] <-] y Hy HP. destruct (H Hs) as [Hget _].
    specialize (Hget (wf_host_identifier h Hh)).
    pose proof (cfg_get4_finds c _ (identifier_type_ h) (identifier_value_ h) Hc Hs) as Hf.
    rewrite Hget in Hf. by eapply Hf.
  - intros s a Hs Ha. apply at_most_one_snoc; [by apply H3|].
    intros [<- <-] y Hy HP. destruct (H Hs) as [_ Hget]. specialize (Hget Ha).
    pose proof (cfg_get4_address_finds c _ _ Hc Hs (wf_host_ipv4 h Hh) Ha) as Hf.
    rewrite Hget in Hf. by eapply Hf.
  - done.
  - eapply Forall_impl; [done|]. intros t (? & ? & ?). rewrite elem_of_app. tauto.
Qed.

Lemma getAllInternal6_none c s a :
  cfg_get6_address c s a = Ok None →
  isV6 a = true ∧ ∀ t, t ∈ hosts6_ c → ¬ (resrv_subnet_id_ t = s ∧ resrv_prefix_ (resrv_ t) = a).
Proof.
  unfold cfg_get6_address, getAllInternal6. destruct (isV6 a); [|done].
  cbn [negb throw_if mbind res_bind mret res_ret]. intros H. split; [done|].
  destruct (filter _ _) as [|t l] eqn:E; [|by destruct l].
  intros t Ht HP. eapply not_elem_of_nil. rewrite <- E. by apply list_elem_of_filter.
Qed.

Lemma hosts6_insert_new t l :
  (∀ t', t' ∈ l → ¬ (resrv_subnet_id_ t' = resrv_subnet_id_ t ∧
                     resrv_prefix_ (resrv_ t') = resrv_prefix_ (resrv_ t))) →
  hosts6_insert t l = l ++ [t].
Proof.
  intros H. unfold hosts6_insert. destruct (existsb _ l) eqn:E; [|done].
  apply existsb_elem_of in E as (t' & Ht' & [E1%Z.eqb_eq E2%bool_decide_eq_true]%andb_true_iff).
  by destruct (H t' Ht').
Qed.

Lemma add6_loop_wf h l c :
  wf_cfg c → h ∈ hosts_ c → (∀ r, r ∈ l → r ∈ ipv6_reservations_ h) →
  let '(c', r) := add6_loop h l c in
  wf_cfg c' ∧ hosts_ c' = hosts_ c ∧ (∃ l', hosts6_ c' = hosts6_ c ++ l') ∧
  (r = Ok tt → hosts6_ c' = hosts6_ c ++ ((λ r, mkHostResrv6Tuple r h) <$> l)).
Proof.
  revert c. induction l as [|r l IH]; intros c Hc Hh Hl.
  { cbn. split_and!; [done|done|by exists []; rewrite app_nil_r|by rewrite app_nil_r]. }
  cbn [add6_loop]. unfold get, lift, put, throw, mbind, ST_bind.
  destruct (cfg_get6_address c _ _) as [[h'|]|e] eqn:E;
    try (split_and!; [done|done|by exists []; rewrite app_nil_r|done]).
  apply getAllInternal6_none in E as [_ Hnew].
  set (t := mkHostResrv6Tuple r h).
  rewrite (hosts6_insert_new t (hosts6_ c)) by (intros t' Ht'; by apply Hnew).
  set (c1 := {| hosts_ := _; hosts6_ := _ |}).
  assert (wf_cfg c1) as Hc1.
  { destruct Hc as [H1 H2 H3 H4 H5]. split; [done|done|done| |]; cbn [hosts6_ c1].
    - intros s a. apply at_most_one_snoc; [apply H4|]. intros [<- <-] y Hy. by apply Hnew.
    - apply Forall_app_2; [done|]. constructor; [|done]. cbn.
      split_and!; [done|apply Hl; by left|done]. }
  specialize (IH c1 Hc1 Hh ltac:(intros; apply Hl; by right)).
  destruct (add6_loop h l c1) as [c' r']. destruct IH as (I1 & I2 & (l' & I3) & I4).
  cbn [hosts6_ c1] in *. split_and!; [done|done| |].
  - exists (t :: l'). by rewrite I3, <- app_assoc.
  - intros Hr. rewrite (I4 Hr). by rewrite <- app_assoc.
Qed.

(** adding a reservation keeps the invariant even when it fails; a host is
    accepted only with an identifier and an address new to its IPv4 subnet, and is
    then the last of the hosts, with an entry for each of its IPv6 reservations;
    a host refused before it is stored changes nothing. *)
Theorem hosts_add_spec (c : CfgHosts) (h : Host) (Hc : wf_cfg c) (Hh : wf_host h) :
  match hosts_add (Some h) c with
  | (c', Ok _) =>
      wf_cfg c' ∧ hosts_ c' = hosts_ c ++ [h] ∧
      hosts6_ c' = hosts6_ c ++
        (if ipv6_subnet_id_ h =? SUBNET_ID_UNUSED then []
         else (λ r, mkHostResrv6Tuple r h) <$> ipv6_reservations_ h) ∧
      (ipv4_subnet_id_ h ≠ SUBNET_ID_UNUSED →
       cfg_get4 c (ipv4_subnet_id_ h) (identifier_type_ h) (identifier_value_ h) = Ok None ∧
       cfg_get4 c' (ipv4_subnet_id_ h) (identifier_type_ h) (identifier_value_ h) = Ok (Some h))
  | (c', Throw _) => wf_cfg c' ∧ (c' = c ∨ hosts_ c' = hosts_ c ++ [h])
  end.
Proof.
  unfold hosts_add. destruct (_ && _); [split; [done|by left]|].
  unfold get, lift, put, mbind, ST_bind. cbn beta iota.
  destruct (add4 h c) as [c1|e] eqn:E; [|by auto].
  pose proof (add4_wf h c c1 Hc Hh E) as Hc1. apply add4_Ok in E as [-> Hnew].
  assert (∀ c', hosts_ c' = hosts_ c ++ [h] → wf_cfg c' → ipv4_subnet_id_ h ≠ SUBNET_ID_UNUSED →
    cfg_get4 c (ipv4_subnet_id_ h) (identifier_type_ h) (identifier_value_ h) = Ok None ∧
    cfg_get4 c' (ipv4_subnet_id_ h) (identifier_type_ h) (identifier_value_ h) = Ok (Some h))
    as Hget.
  { intros c' Ehosts Hwf Hs. split; [by apply (Hnew Hs), wf_host_identifier|].
    pose proof (cfg_get4_finds c' _ (identifier_type_ h) (identifier_value_ h) Hwf Hs) as Hf.
    destruct (cfg_get4 c' _ _ _) as [[x|]|]; cbn [finds] in Hf; [| |done].
    - destruct Hf as (_ & _ & Hx). do 2 f_equal. symmetry. apply Hx; [|by repeat split].
      rewrite Ehosts, elem_of_app. right. by left.
    - destruct (Hf h); [|by repeat split]. rewrite Ehosts, elem_of_app. right. by left. }
  unfold add6. destruct (ipv6_subnet_id_ h =? SUBNET_ID_UNUSED).
  { unfold mret, ST_ret. cbn beta iota.
    split; [done|split; [done|split; [by rewrite app_nil_r|by apply Hget]]]. }
  unfold lift, mbind, ST_bind.
  destruct (getHWAddress h); [|by auto]. destruct (getDuid h); [|by auto].
  pose proof (add6_loop_wf h (ipv6_reservations_ h) _ Hc1
    ltac:(cbn; rewrite elem_of_app; right; by left) ltac:(done)) as H6.
  destruct (add6_loop _ _ _) as [c' [[]|e]]; cbn [hosts_ hosts6_] in H6;
    destruct H6 as (I1 & I2 & _ & I4); [|by auto].
  split; [done|split; [done|split; [by apply I4|by apply Hget]]].
Qed.

(** Two clients of IPv4 subnet 1, with one reserved address each. *)
Definition sample_host4 (identifier : list Z) (address : Z) : Host :=
  {| identifier_type_ := IDENT_HWADDR; identifier_value_ := identifier;
     ipv4_subnet_id_ := 1; ipv6_subnet_id_ := SUBNET_ID_UNUSED;
     ipv4_reservation_ := V4 address; ipv6_reservations_ := [];
     host_hostname_ := ""; dhcp4_client_classes_ := []; dhcp6_client_classes_ := [];
     next_server_ := IPV4_ZERO_ADDRESS; server_host_name_ := ""; boot_file_name_ := "";
     has_options4_ := false; has_options6_ := false; negative_ := false |}.

Lemma sample_host4_wf identifier address :
  identifier ≠ [] → wf_host (sample_host4 identifier address).
Proof. split; try done; constructor. Qed.

Definition empty_cfg : CfgHosts := {| hosts_ := []; hosts6_ := [] |}.
Definition sample_cfg : CfgHosts :=
  {| hosts_ := [sample_host4 [1; 1] 0xC0000264]; hosts6_ := [] |}.

Lemma empty_cfg_wf : wf_cfg empty_cfg.
Proof. by split; try constructor. Qed.

Lemma sample_cfg_wf : wf_cfg sample_cfg.
Proof.
  assert (add4 (sample_host4 [1; 1] 0xC0000264) empty_cfg = Ok sample_cfg) as E
    by (vm_compute; reflexivity).
  eapply add4_wf; [exact empty_cfg_wf| |exact E]. by apply sample_host4_wf.
Qed.

Lemma cfg_lookup_spec_witness :
  wf_cfg sample_cfg ∧
  finds (cfg_get4_address sample_cfg 1 (V4 0xC0000264)) (hosts_ sample_cfg)
    (λ h, ipv4_reservation_ h = V4 0xC0000264 ∧ ipv4_subnet_id_ h = 1).
Proof.
  split; [exact sample_cfg_wf|].
  refine (proj2 (cfg_lookup_spec sample_cfg 1 IDENT_HWADDR [1; 1] (V4 0xC0000264)
    sample_cfg_wf _ _ _)); done.
Defined.

Lemma hosts_add_spec_witness :
  let h := sample_host4 [2; 2] 0xC0000265 in
  wf_cfg sample_cfg ∧ wf_host h ∧
  ∃ c', hosts_add (Some h) sample_cfg = (c', Ok tt) ∧ wf_cfg c' ∧
    hosts_ c' = hosts_ sample_cfg ++ [h].
Proof.
  intros h. assert (wf_host h) as Hh by (by apply sample_host4_wf).
  split; [exact sample_cfg_wf|split; [exact Hh|]].
  assert (∃ c', hosts_add (Some h) sample_cfg = (c', Ok tt)) as [c' E] by (vm_compute; by eexists).
  exists c'. split; [exact E|].
  pose proof (hosts_add_spec sample_cfg h sample_cfg_wf Hh) as H. rewrite E in H.
  split; apply H.
Defined.

(** ** What the checks of [add] miss *)

Definition with_identifier (h : Host) (identifier : list Z) (subnet4 : Z) : Host :=
  {| identifier_type_ := identifier_type_ h; identifier_value_ := identifier;
     ipv4_subnet_id_ := subnet4; ipv6_subnet_id_ := ipv6_subnet_id_ h;
     ipv4_reservation_ := ipv4_reservation_ h; ipv6_reservations_ := [];
     host_hostname_ := "host"; dhcp4_client_classes_ := dhcp4_client_classes_ h;
     dhcp6_client_classes_ := dhcp6_client_classes_ h; next_server_ := next_server_ h;
     server_host_name_ := server_host_name_ h; boot_file_name_ := boot_file_name_ h;
     has_options4_ := has_options4_ h; has_options6_ := has_options6_ h;
     negative_ := negative_ h |}.

(** [add] is not atomic, and does not check identifiers in the IPv6 subnet
    of a host that also has an IPv4 subnet: a host refused because of one of its
    IPv6 reservations is found afterwards, and after two hosts with one DUID have
    been accepted for IPv6 subnet 7 the lookup by this DUID throws. *)
Theorem hosts_add_not_atomic :
  (let h := host_with (with_identifier sample_host6 [9; 9] SUBNET_ID_UNUSED)
              IPV4_ZERO_ADDRESS (ipv6_reservations_ sample_host6) IPV4_ZERO_ADDRESS in
   ∃ c c', hosts_add (Some sample_host6) empty_cfg = (c, Ok tt) ∧
     hosts_add (Some h) c = (c', Throw DuplicateHost) ∧
     cfg_get6 c 7 IDENT_DUID [9; 9] = Ok None ∧
     cfg_get6 c' 7 IDENT_DUID [9; 9] = Ok (Some h)) ∧
  (∃ c c', hosts_add (Some (with_identifier sample_host6 [9; 9] 1)) empty_cfg = (c, Ok tt) ∧
     hosts_add (Some (with_identifier sample_host6 [9; 9] 2)) c = (c', Ok tt) ∧
     cfg_get6 c' 7 IDENT_DUID [9; 9] = Throw DuplicateHost).
Proof.
  split.
  - do 2 eexists. split; [vm_compute; reflexivity|]. repeat split; vm_compute; reflexivity.
  - do 2 eexists. split; [vm_compute; reflexivity|]. repeat split; vm_compute; reflexivity.
Qed.

(** The search of all reservations of an IPv6 address finds none. *)
Lemma getAllInternal6_any_empty c a :
  wf_cfg c → isV6 a = true → getAllInternal6_any c a = Ok [].
Proof.
  intros Hc Ha. unfold getAllInternal6_any. rewrite Ha. cbn [negb throw_if mbind res_bind mret res_ret].
  f_equal. apply filter_none. eapply Forall_impl; [apply (wf_cfg_hosts c Hc)|].
  intros h Hh <-. pose proof (wf_host_ipv4 h Hh). by destruct (ipv4_reservation_ h).
Qed.

(** The reservations of the configuration, without other sources of hosts. *)
Definition cfg_host_mgr (c : CfgHosts) : HostMgr := {|
  host_get4_address := cfg_get4_address c;
  host_get4_identifier := cfg_get4 c;
  host_getAll := λ type identifier, Ok (getAllInternal c type identifier)
|}.

Lemma getHostInternal_loop_exn s b host l : getHostInternal_loop s b host l ≠ Throw OutOfFuel.
Proof.
  revert host. induction l as [|h l IH]; intros host; [done|]. cbn [getHostInternal_loop].
  destruct (s =? _); [|done]. by destruct host.
Qed.

#[export] Instance cfg_host_mgr_laws c : @HostMgrLaws (cfg_host_mgr c).
Proof.
  split; cbn.
  - intros s a. unfold cfg_get4_address, getAllInternal4. by destruct (isV4 a).
  - intros s t i. apply getHostInternal_loop_exn.
  - done.
Qed.

Definition cfg_host_mgr6 (c : CfgHosts) : HostMgr6 := {|
  host_get6_address := cfg_get6_address c;
  host_get6_identifier := cfg_get6 c
|}.

#[export] Instance cfg_host_mgr6_laws c : @HostMgr6Laws (cfg_host_mgr6 c).
Proof.
  split; cbn.
  - intros s a. unfold cfg_get6_address, getAllInternal6. destruct (isV6 a); [|done]. cbn.
    by destruct (_ <$> _) as [|? []].
  - intros s t i. apply getHostInternal_loop_exn.
Qed.
