(* ===== verification/CsvLeaseFile4.v ===== *)
(** * The lease file ([src/lib/dhcpsrv/csv_lease_file4.cc], [lease_file_loader.h],
      [src/lib/util/csv_file.cc])

    A lease is written as a line of values with commas between them, and a line that is read
    is split at every comma.  The values of addresses, identifiers and numbers are modelled
    by what they stand for: their text holds no comma, and reading it gives the value back,
    unless it does not fit the type it is read into.  The name of the client is text that is
    written as it is, and can hold what separates values and lines.  The lease has no user
    context: its column is written empty, and a text that a name brings there is taken for
    one that is not a JSON map, which the code would accept and keep.  Of a name with a line
    feed the model keeps the line up to it; the code reads the rest as lines of their own. *)

From Stdlib Require Import Ascii.
From S2P Require Import Prelude IoAddress Pool Lease.
Local Open Scope Z_scope.

(** ** Lines and values *)

Inductive CSVValue :=
  | VAddress (a : IOAddress)
  | VBytes (b : list Z)
  | VNumber (z : Z)
  | VBool (b : bool)
  | VLeaseType (t : LeaseType)
  | VText (s : string).

Definition COMMA : ascii := ","%char.
Definition COLON : ascii := ":"%char.
Definition LINE_FEED : ascii := "010"%char.

Fixpoint has_char (sep : ascii) (s : string) : bool :=
  match s with
  | EmptyString => false
  | String c s' => Ascii.eqb c sep || has_char sep s'
  end.

(** [boost::split] without compression: [n] separators give [n + 1] tokens. *)
Fixpoint boost_split (sep : ascii) (s : string) : list string :=
  match s with
  | EmptyString => [""]
  | String c s' =>
      if Ascii.eqb c sep then "" :: boost_split sep s'
      else match boost_split sep s' with
           | t :: ts => String c t :: ts
           | [] => [String c ""]
           end
  end.

(** [std::getline]. *)
Fixpoint getline (line : list CSVValue) : list CSVValue :=
  match line with
  | [] => []
  | VText s :: line' =>
      if has_char LINE_FEED s then [VText (default "" (head (boost_split LINE_FEED s)))]
      else VText s :: getline line'
  | v :: line' => v :: getline line'
  end.

(** [CSVRow::parse], of a line that [CSVRow::render] has made of values. *)
Definition parse (line : list CSVValue) : list CSVValue :=
  line ≫= λ v, match v with VText s => VText <$> boost_split COMMA s | _ => [v] end.

(** [CSVFile::getColumnIndex] and [CSVRow::readAt]. *)
Fixpoint getColumnIndex (columns : list string) (col_name : string) : res nat :=
  match columns with
  | [] => Throw OutOfRange
  | c :: columns' =>
      if String.eqb c col_name then Ok 0%nat
      else i ← getColumnIndex columns' col_name; Ok (S i)
  end.
Definition readAt (columns : list string) (values : list CSVValue) (col_name : string) :
    res CSVValue :=
  i ← getColumnIndex columns col_name;
  match values !! i with Some v => Ok v | None => Throw CSVFileError end.

(** ** Values that are read *)

(** [readAndConvertAt<uint32_t>] of a number and of a text: an optional sign and decimal
    digits, of a number of 32 bits. *)
Definition read_uint32 (z : Z) : res Z :=
  if (0 <=? z) && (z <? 2 ^ 32) then Ok z else Throw BadValue.

Definition digit_value (base : Z) (c : ascii) : option Z :=
  let n := Z.of_nat (nat_of_ascii c) in
  let d := if (48 <=? n) && (n <=? 57) then Some (n - 48)
           else if (97 <=? n) && (n <=? 102) then Some (n - 87)
           else if (65 <=? n) && (n <=? 70) then Some (n - 55)
           else None in
  d ← d; if d <? base then Some d else None.
Fixpoint digits (base acc : Z) (s : string) : option Z :=
  match s with
  | EmptyString => Some acc
  | String c s' => d ← digit_value base c; digits base (base * acc + d) s'
  end.
Definition text_uint32 (s : string) : res Z :=
  let '(negative, t) :=
    match s with
    | String c t => if Ascii.eqb c "-"%char then (true, t) else if Ascii.eqb c "+"%char then (false, t)
                    else (false, s)
    | EmptyString => (false, s)
    end in
  if String.eqb t "" then Throw CSVFileError
  else match digits 10 0 t with
       | Some z => n ← read_uint32 z; Ok (if (negative : bool) then u32 (- n) else n)
       | None => Throw CSVFileError
       end.

(** The text of one byte is two hexadecimal digits, which can be decimal ones. *)
Definition value_uint32 (v : CSVValue) : res Z :=
  match v with
  | VNumber z => read_uint32 z
  | VBool b => Ok (if b then 1 else 0)
  | VText s => text_uint32 s
  | VBytes [b] =>
      if (b `mod` 16 <? 10) && (b `div` 16 <? 10) then Ok (10 * (b `div` 16) + b `mod` 16)
      else Throw CSVFileError
  | _ => Throw CSVFileError
  end.

(** [decodeColonSeparatedHexString]. *)
Definition hex_token (many : bool) (t : string) : res (list Z) :=
  if String.eqb t "" then (if many then Throw BadValue else Ok [])
  else if (2 <? String.length t)%nat then Throw BadValue
  else match digits 16 0 t with Some b => Ok [b] | None => Throw BadValue end.
Fixpoint hex_tokens (many : bool) (ts : list string) : res (list Z) :=
  match ts with
  | [] => Ok []
  | t :: ts' => b ← hex_token many t; bs ← hex_tokens many ts'; Ok (b ++ bs)
  end.
Definition decodeColonSeparatedHexString (s : string) : res (list Z) :=
  let tokens := boost_split COLON s in hex_tokens (1 <? length tokens)%nat tokens.

(** [HWAddr::fromText]. *)
Definition MAX_HWADDR_LEN : nat := 20.
Definition value_hwaddr (v : CSVValue) : res HWAddr :=
  binary ← match v with
           | VBytes b => Ok b
           | VText s => decodeColonSeparatedHexString s
           | _ => Throw BadValue
           end;
  _ ← throw_if (MAX_HWADDR_LEN <? length binary)%nat BadValue;
  mret {| hwaddr_bytes := binary; htype_ := HTYPE_ETHER |}.

(** Columns that are read only where a value of their kind was written. *)
Definition value_address (v : CSVValue) : res IOAddress :=
  match v with VAddress a => Ok a | _ => Throw BadValue end.
Definition value_bytes (v : CSVValue) : res (list Z) :=
  match v with VBytes b => Ok b | _ => Throw BadValue end.
Definition value_bool (v : CSVValue) : res bool :=
  match v with VBool b => Ok b | _ => Throw CSVFileError end.
Definition value_text (v : CSVValue) : res string :=
  match v with VText s => Ok s | _ => Throw CSVFileError end.

(** [readContext]: an empty text, or a JSON map. *)
Definition value_context (v : CSVValue) : res unit :=
  match v with
  | VText EmptyString | VBytes [] => Ok tt
  | _ => Throw BadValue
  end.

(** ** Rows of IPv4 leases *)

Record CSVRow := {
  col_address : IOAddress;
  col_hwaddr : list Z;
  col_client_id : list Z;
  col_valid_lifetime : Z;
  col_expire : Z;
  col_subnet_id : Z;
  col_fqdn_fwd : bool;
  col_fqdn_rev : bool;
  col_hostname : string;
  col_state : Z
}.

(** [CSVLeaseFile4::initColumns], and the line written. *)
Definition initColumns4 : list string :=
  ["address"; "hwaddr"; "client_id"; "valid_lifetime"; "expire"; "subnet_id"; "fqdn_fwd";
   "fqdn_rev"; "hostname"; "state"; "user_context"].
Definition render4 (row : CSVRow) : list CSVValue :=
  [VAddress (col_address row); VBytes (col_hwaddr row); VBytes (col_client_id row);
   VNumber (col_valid_lifetime row); VNumber (col_expire row); VNumber (col_subnet_id row);
   VBool (col_fqdn_fwd row); VBool (col_fqdn_rev row); VText (col_hostname row);
   VNumber (col_state row); VText ""].

(** [CSVLeaseFile4::append]: the row written, or an exception for a lease
    without hardware address. *)
Definition append_row (lease : Lease4) : res CSVRow :=
  match hwaddr_ lease with
  | None => Throw BadValue
  | Some hw =>
      mret {| col_address := addr_ lease; col_hwaddr := hwaddr_bytes hw;
              col_client_id := default [] (client_id_ lease);
              col_valid_lifetime := valid_lft_ lease;
              col_expire := cltt_ lease + valid_lft_ lease;
              col_subnet_id := subnet_id_ lease; col_fqdn_fwd := fqdn_fwd_ lease;
              col_fqdn_rev := fqdn_rev_ lease; col_hostname := hostname_ lease;
              col_state := state_ lease |}
  end.

(** The functions that read a column of the values of a line. *)
Definition read4 {A} (convert : CSVValue → res A) (col_name : string) (values : list CSVValue) :
    res A :=
  v ← readAt initColumns4 values col_name; convert v.
Definition readAddress := read4 value_address "address".
Definition readHWAddr := read4 value_hwaddr "hwaddr".
Definition readValid := read4 value_uint32 "valid_lifetime".
Definition readCltt (values : list CSVValue) : res Z :=
  expire ← read4 value_uint32 "expire" values;
  valid ← readValid values;
  mret (u32 (expire - valid)).
Definition readSubnetID := read4 value_uint32 "subnet_id".
Definition readFqdnFwd := read4 value_bool "fqdn_fwd".
Definition readFqdnRev := read4 value_bool "fqdn_rev".
Definition readHostname := read4 value_text "hostname".
Definition readState := read4 value_uint32 "state".
Definition readContext := read4 value_context "user_context".

(** The constructor of a client identifier. *)
Definition MIN_CLIENT_ID_LEN : nat := 2.
Definition MAX_DUID_LEN : nat := 128.
Definition readClientId (values : list CSVValue) : res (option (list Z)) :=
  client_id ← read4 value_bytes "client_id" values;
  if bool_decide (client_id = []) then mret None
  else
    _ ← throw_if (MAX_DUID_LEN <? length client_id)%nat BadValue;
    _ ← throw_if (length client_id <? MIN_CLIENT_ID_LEN)%nat BadValue;
    mret (Some client_id).

(** [CSVLeaseFile4::next]: [None] for a row that cannot be read.  The check of the number of
    values ([VersionedCSVFile::next]) is made but its result is not used. *)
Definition next (row : CSVRow) : option Lease4 :=
  let values := parse (getline (render4 row)) in
  let r :=
    client_id ← readClientId values;
    hwaddr ← readHWAddr values;
    state ← readState values;
    _ ← throw_if (bool_decide (hwaddr_bytes hwaddr = []) && negb (state =? STATE_DECLINED))
          BadValue;
    _ ← readContext values;
    address ← readAddress values;
    valid ← readValid values;
    cltt ← readCltt values;
    subnet_id ← readSubnetID values;
    fqdn_fwd ← readFqdnFwd values;
    fqdn_rev ← readFqdnRev values;
    hostname ← readHostname values;
    mret (with_state
            (mkLease4 address (Some hwaddr) client_id valid 0 0 cltt subnet_id fqdn_fwd
               fqdn_rev hostname)
            state) in
  match r with Ok l => Some l | Throw _ => None end.

(** ** Reading back what was written *)

(** A text that is one value of one line. *)
Definition plain_text (s : string) : bool :=
  negb (has_char LINE_FEED s) && negb (has_char COMMA s).

Lemma split_plain sep s : has_char sep s = false → boost_split sep s = [s].
Proof.
  induction s as [|c s IH]; [done|]. cbn. intros [-> Hs]%orb_false_iff. by rewrite IH.
Qed.

(** A line without separators in its text is read as the values it was made of. *)
Definition plain_value (v : CSVValue) : Prop :=
  match v with VText s => plain_text s = true | _ => True end.
Lemma parse_plain line : Forall plain_value line → parse (getline line) = line.
Proof.
  unfold parse. induction 1 as [|v line Hv _ IH]; [done|].
  destruct v; cbn -[boost_split]; rewrite ?bind_cons; cbn -[boost_split]; try by rewrite IH.
  cbn in Hv. apply andb_true_iff in Hv as [Hl%negb_true_iff Hc%negb_true_iff].
  rewrite Hl, bind_cons, IH, split_plain by done. done.
Qed.

(** What the file does not keep: the renewal timers and the hardware type. *)
Definition persisted (l : Lease4) : Lease4 :=
  {| addr_ := addr_ l; t1_ := 0; t2_ := 0; valid_lft_ := valid_lft_ l;
     cltt_ := cltt_ l; subnet_id_ := subnet_id_ l; hostname_ := hostname_ l;
     fqdn_fwd_ := fqdn_fwd_ l; fqdn_rev_ := fqdn_rev_ l;
     hwaddr_ := (λ h, {| hwaddr_bytes := hwaddr_bytes h; htype_ := HTYPE_ETHER |})
                  <$> hwaddr_ l;
     client_id_ := client_id_ l; state_ := state_ l |}.

(** The leases that a file keeps: 32-bit members, a hardware address (blank only when the
    lease is declined), identifiers of the lengths their constructors take, and a name
    without separators. *)
Record wf_lease (l : Lease4) : Prop := {
  wf_lease_valid : 0 ≤ valid_lft_ l < 2 ^ 32;
  wf_lease_cltt : 0 ≤ cltt_ l;
  wf_lease_subnet : 0 ≤ subnet_id_ l < 2 ^ 32;
  wf_lease_state : state_ l = STATE_DEFAULT ∨ state_ l = STATE_DECLINED ∨
                   state_ l = STATE_EXPIRED_RECLAIMED;
  wf_lease_hwaddr : ∃ h, hwaddr_ l = Some h ∧ (length (hwaddr_bytes h) ≤ MAX_HWADDR_LEN)%nat ∧
                    (hwaddr_bytes h = [] → state_ l = STATE_DECLINED);
  wf_lease_cid : ∀ c, client_id_ l = Some c →
                 (MIN_CLIENT_ID_LEN ≤ length c ≤ MAX_DUID_LEN)%nat;
  wf_lease_hostname : plain_text (hostname_ l) = true
}.

Lemma read_uint32_Ok z : 0 ≤ z < 2 ^ 32 → read_uint32 z = Ok z.
Proof.
  intros H. unfold read_uint32. by rewrite (proj2 (Z.leb_le _ _)), (proj2 (Z.ltb_lt _ _)) by lia.
Qed.
Lemma read_uint32_large z : 2 ^ 32 ≤ z → read_uint32 z = Throw BadValue.
Proof.
  intros H. unfold read_uint32. rewrite (proj2 (Z.ltb_ge _ _)) by lia. by rewrite andb_false_r.
Qed.

Lemma readClientId_render row :
  readClientId (render4 row) =
  if bool_decide (col_client_id row = []) then Ok None
  else
    _ ← throw_if (MAX_DUID_LEN <? length (col_client_id row))%nat BadValue;
    _ ← throw_if (length (col_client_id row) <? MIN_CLIENT_ID_LEN)%nat BadValue;
    mret (Some (col_client_id row)).
Proof. reflexivity. Qed.

Lemma readClientId_Ok row c :
  col_client_id row = default [] c →
  (∀ c', c = Some c' → (MIN_CLIENT_ID_LEN ≤ length c' ≤ MAX_DUID_LEN)%nat) →
  readClientId (render4 row) = Ok c.
Proof.
  intros Ec Hc. rewrite readClientId_render, Ec. destruct c as [c|]; [|done].
  specialize (Hc c eq_refl). change (default [] (Some c)) with c.
  unfold MIN_CLIENT_ID_LEN, MAX_DUID_LEN in *.
  rewrite bool_decide_eq_false_2 by (intros ->; cbn in Hc; lia).
  by rewrite !(proj2 (Nat.ltb_ge _ _)) by lia.
Qed.

Lemma value_hwaddr_Ok b :
  (length b ≤ MAX_HWADDR_LEN)%nat →
  value_hwaddr (VBytes b) = Ok {| hwaddr_bytes := b; htype_ := HTYPE_ETHER |}.
Proof. intros Hb. unfold value_hwaddr. cbn -[Nat.ltb]. by rewrite (proj2 (Nat.ltb_ge _ _)). Qed.

(** Reading a row whose name holds no separator. *)
Lemma append_next l r :
  wf_lease l → append_row l = Ok r →
  next r = if getExpirationTime l <? 2 ^ 32 then Some (persisted l) else None.
Proof.
  intros [Hv Hc Hs Hst (h & Hh & Hlen & Hh') Hcid Hname] Hr. unfold append_row in Hr.
  rewrite Hh in Hr. injection Hr as <-. unfold next. set (row := Build_CSVRow _ _ _ _ _ _ _ _ _ _).
  rewrite (parse_plain (render4 row)) by (repeat constructor; exact Hname).
  rewrite (readClientId_Ok row (client_id_ l)) by done.
  assert (readHWAddr (render4 row) = Ok {| hwaddr_bytes := hwaddr_bytes h; htype_ := HTYPE_ETHER |})
    as -> by (by apply (value_hwaddr_Ok (hwaddr_bytes h))). cbn -[Z.pow].
  rewrite (read_uint32_Ok (state_ l))
    by (unfold STATE_DEFAULT, STATE_DECLINED, STATE_EXPIRED_RECLAIMED in *; lia).
  cbn -[Z.pow]. assert (bool_decide (hwaddr_bytes h = []) && negb (state_ l =? STATE_DECLINED) = false) as ->.
  { case_bool_decide as E; [|done]. rewrite (Hh' E). done. }
  cbn -[Z.pow]. rewrite !read_uint32_Ok by lia. cbn -[Z.pow]. unfold getExpirationTime.
  destruct (Z.ltb_spec (cltt_ l + valid_lft_ l) (2 ^ 32)) as [H|H];
    [|by rewrite read_uint32_large by lia].
  rewrite !read_uint32_Ok by lia. cbn -[Z.pow].
  f_equal. unfold persisted, with_state, mkLease4. cbn. rewrite Hh. cbn.
  replace (cltt_ l + valid_lft_ l - valid_lft_ l) with (cltt_ l) by lia.
  unfold u32. rewrite Z.mod_small by lia. by destruct (client_id_ l).
Qed.

(** a lease written to the lease file is read back, without its renewal
    timers and hardware type, exactly when its expiration time fits in 32 bits;
    a row with a later expiration time, such as the one of a lease with an
    infinite lifetime, cannot be read and the lease is lost. *)
Theorem csv_roundtrip (l : Lease4) (Hwf : wf_lease l) :
  ∃ r, append_row l = Ok r ∧
    next r = if getExpirationTime l <? 2 ^ 32 then Some (persisted l) else None.
Proof.
  destruct (wf_lease_hwaddr l Hwf) as (h & Hh & _).
  assert (∃ r, append_row l = Ok r) as [r Hr] by (unfold append_row; rewrite Hh; by eexists).
  exists r. split; [done|]. by apply append_next.
Qed.

Definition sample_lease : Lease4 :=
  mkLease4 (V4 0xC000020A) (Some {| hwaddr_bytes := [2; 0; 0; 0; 0; 1]; htype_ := 1 |})
    (Some [1; 2; 3]) 4000 0 0 1500000000 1 false false "".

Lemma sample_lease_wf : wf_lease sample_lease.
Proof.
  split; simpl; try lia; [| |done].
  - eexists. split; [done|]. split; [unfold MAX_HWADDR_LEN; cbn; lia|done].
  - intros c [= <-]. unfold MIN_CLIENT_ID_LEN, MAX_DUID_LEN. cbn. lia.
Qed.

Lemma csv_roundtrip_witness :
  wf_lease sample_lease ∧
  ∃ r, append_row sample_lease = Ok r ∧ next r = Some (persisted sample_lease).
Proof. split; [exact sample_lease_wf|]. exact (csv_roundtrip sample_lease sample_lease_wf). Defined.

(** The name that the client gives is written as it is.  With a comma in it the lease cannot
    be read from the file, and with two the text after the first is read as the state of the
    lease: it can be a declined one after a restart. *)
Definition named (name : string) : Lease4 :=
  mkLease4 (V4 0xC000020A) (Some {| hwaddr_bytes := [2; 0; 0; 0; 0; 1]; htype_ := 1 |})
    (Some [1; 2; 3]) 4000 0 0 1500000000 1 false false name.

Theorem name_with_comma_is_not_read_back :
  (∃ r, append_row (named "a,b") = Ok r ∧ next r = None) ∧
  (∃ r, append_row (named "a,1,") = Ok r ∧
        next r = Some (with_state (persisted (named "a")) STATE_DECLINED)).
Proof. split; (eexists; split; [reflexivity|vm_compute; reflexivity]). Qed.
