(* ===== verification/LeaseStorage.v ===== *)
(** * Containers of leases and lease files
      ([src/lib/dhcpsrv/memfile_lease_storage.h], [lease_file_loader.h], and the templates of
      [memfile_lease_mgr.cc])

    What the in-memory database does in the same way for IPv4 and IPv6 leases, for any type
    [L] of leases with the members the indices use ([StoredLease]).  The leases are kept in
    a Boost multi-index container; every change is first appended to the lease file.  The
    container is library code: [LeaseStorage] is the interface the code uses and
    [LeaseStorageLaws] its documented behaviour.  It has a unique index by address; the other
    indices are ordered and not unique, and the order among equal keys is left open. *)

From S2P Require Import Prelude Algorithms IoAddress.
Local Open Scope Z_scope.

(** What the containers and the lease files use of a lease. *)
Class StoredLease (L : Type) := {
  rec_addr : L → IOAddress;
  rec_reclaimed : L → bool;
  rec_expiration : L → Z;
  rec_valid : L → Z;
  (** [lease_copy.valid_lft_ = 0] *)
  mark_removed : L → L
}.

(** The rows of a lease file: [append] and [next]. *)
Class LeaseFile (L R : Type) := {
  file_append : L → res R;
  file_next : R → option L
}.

(** The key of the expiration index: [(stateExpiredReclaimed, expiration time)],
    in lexicographic order with [false < true]. *)
Definition exp_lt (a b : bool * Z) : bool :=
  match fst a, fst b with
  | false, true => true
  | true, false => false
  | _, _ => snd a <? snd b
  end.

Section Keys.
Context {L : Type} `{StoredLease L}.

Definition exp_key (l : L) : bool * Z := (rec_reclaimed l, rec_expiration l).
Definition exp_le (l l' : L) : Prop := exp_lt (exp_key l') (exp_key l) = false.
Definition addr_before (l l' : L) : Prop := addr_le (rec_addr l) (rec_addr l').
End Keys.

Class LeaseStorage (L S : Type) := {
  st_empty : S;
  (** the unique index by address, and the leases in the order of addresses *)
  st_find : IOAddress → S → option L;
  st_by_address : S → list L;
  (** the elements of an index whose key matches, in the order of the index *)
  st_range : (L → bool) → S → list L;
  st_by_expiration : S → list L;
  st_insert : L → S → S;
  st_replace : L → S → S;
  st_erase : IOAddress → S → S
}.

(** The contents of the container, as a map from addresses to leases.  An insertion that
    the unique index refuses changes nothing. *)
Class LeaseStorageLaws (L S : Type) `{StoredLease L} `{LeaseStorage L S} := {
  st_leases : S → gmap IOAddress L;
  st_leases_addr : ∀ s a l, st_leases s !! a = Some l → rec_addr l = a;
  st_empty_leases : st_leases st_empty = ∅;
  st_find_leases : ∀ s a, st_find a s = st_leases s !! a;
  st_by_address_perm : ∀ s, st_by_address s ≡ₚ (map_to_list (st_leases s)).*2;
  st_by_address_sorted : ∀ s, StronglySorted addr_before (st_by_address s);
  st_range_perm : ∀ P s, st_range P s ≡ₚ filter (λ l, P l = true) (map_to_list (st_leases s)).*2;
  st_by_expiration_perm : ∀ s, st_by_expiration s ≡ₚ (map_to_list (st_leases s)).*2;
  st_by_expiration_sorted : ∀ s, StronglySorted exp_le (st_by_expiration s);
  st_insert_leases : ∀ l s, st_leases s !! rec_addr l = None →
    st_leases (st_insert l s) = <[rec_addr l := l]> (st_leases s);
  st_insert_taken : ∀ l s, is_Some (st_leases s !! rec_addr l) →
    st_leases (st_insert l s) = st_leases s;
  st_replace_leases : ∀ l s, is_Some (st_leases s !! rec_addr l) →
    st_leases (st_replace l s) = <[rec_addr l := l]> (st_leases s);
  st_erase_leases : ∀ a s, st_leases (st_erase a s) = delete a (st_leases s)
}.

(** The database of a server: the container, the lease file and whether it is written. *)
Record Memfile (S R : Type) := {
  storage_ : S;
  lease_file_ : list R;
  persistLeases : bool
}.
Arguments storage_ {S R}.
Arguments lease_file_ {S R}.
Arguments persistLeases {S R}.

Section Memfile.
Context {L S R : Type} `{StoredLease L} `{LeaseFile L R} `{LeaseStorage L S}.
(** Whether the operating system writes a row; a failed write throws. *)
Context (disk_ok : R → bool).
#[local] Abbreviation M := (Memfile S R).

Definition set_storage (s : S) (m : M) : M :=
  {| storage_ := s; lease_file_ := lease_file_ m; persistLeases := persistLeases m |}.

(** [if (persistLeases(...)) lease_file_->append(lease)]. *)
Definition persist (lease : L) : ST M unit :=
  m ← get;
  if persistLeases (m : M) then
    row ← lift (file_append lease);
    if disk_ok row then
      modify (λ m : M, {| storage_ := storage_ m; lease_file_ := lease_file_ m ++ [row];
                          persistLeases := persistLeases m |})
    else throw CSVFileError
  else mret tt.

(** [if (!persisted already) append; storage.insert(lease)] and the other two ways a change
    is made: the file first, then the container. *)
Definition persist_insert (lease : L) : ST M unit :=
  _ ← persist lease; modify (λ m, set_storage (st_insert lease (storage_ m)) m).
Definition persist_replace (lease : L) : ST M unit :=
  _ ← persist lease; modify (λ m, set_storage (st_replace lease (storage_ m)) m).
Definition persist_erase (removal : L) : ST M unit :=
  _ ← persist removal; modify (λ m, set_storage (st_erase (rec_addr removal) (storage_ m)) m).

(** The leases after an address: [lower_bound] is the first lease whose address is not
    before the argument. *)
Definition page (lower_bound_address : IOAddress) (page_size : nat) (m : M) : list L :=
  let idx := st_by_address (storage_ m) in
  let lb := upper_bound (λ l, negb (lessThan (rec_addr l) lower_bound_address)) idx in
  let lb := match idx !! lb with
            | Some l => if equals (rec_addr l) lower_bound_address then Datatypes.S lb else lb
            | None => lb
            end in
  take page_size (drop lb idx).

Definition expired_range (now : Z) (max_leases : nat) (m : M) : list L :=
  let index := st_by_expiration (storage_ m) in
  let ub := upper_bound (λ l, exp_lt (false, now) (exp_key l)) index in
  take (if (max_leases =? 0)%nat then ub else ub `min` max_leases)%nat index.

(** The loop that marks the leases of a range as deleted in the file. *)
Fixpoint mark_deleted (l : list L) : ST M unit :=
  match l with
  | [] => mret tt
  | lease :: l' => _ ← persist (mark_removed lease); mark_deleted l'
  end.

Definition int64_min : Z := - 2 ^ 63.

Definition deleteExpiredReclaimedLeases (now secs : Z) : ST M nat :=
  m ← get;
  let index := st_by_expiration (storage_ (m : M)) in
  let upper_limit := upper_bound (λ l, exp_lt (true, now - secs) (exp_key l)) index in
  let lower_limit := upper_bound (λ l, exp_lt (true, int64_min) (exp_key l)) index in
  let range := take (upper_limit - lower_limit) (drop lower_limit index) in
  let num_leases := length range in
  if (0 <? num_leases)%nat then
    _ ← mark_deleted range;
    _ ← modify (λ m, set_storage
           (foldl (λ s l, st_erase (rec_addr l) s) (storage_ m) range) m);
    mret num_leases
  else mret num_leases.

(** [LeaseFileLoader::load]: one row; [check] is the sanity checker, which may
    drop a lease. *)
Definition load_row (check : L → option L) (s : S) (row : R) : S :=
  match file_next row with
  | None => s
  | Some lease =>
      match check lease with
      | None => s
      | Some lease =>
          match st_find (rec_addr lease) s with
          | None => if 0 <? rec_valid lease then st_insert lease s else s
          | Some _ =>
              if rec_valid lease =? 0 then st_erase (rec_addr lease) s
              else st_replace lease s
          end
      end
  end.
Definition load (check : L → option L) (rows : list R) : S :=
  foldl (load_row check) st_empty rows.
End Memfile.

(** ** The database is a map from addresses to leases *)

Section Contents.
Context {L S R : Type} `{LeaseStorageLaws L S} `{!LeaseFile L R} (disk_ok : R → bool).
#[local] Abbreviation M := (Memfile S R).

Definition contents (m : M) : gmap IOAddress L := st_leases (storage_ m).

(** A write changes the file only, and only when it succeeds. *)
Lemma persist_cases l (m : M) :
  (∃ rows, persist disk_ok l m =
     ({| storage_ := storage_ m; lease_file_ := lease_file_ m ++ rows;
         persistLeases := persistLeases m |}, Ok tt) ∧
     (persistLeases m = true → ∃ r, file_append l = Ok r ∧ rows = [r])) ∨
  (∃ e, persist disk_ok l m = (m, Throw e) ∧ persistLeases m = true ∧
     (file_append l = Throw e ∨ e = CSVFileError)).
Proof.
  unfold persist, get, mbind, ST_bind, lift. destruct (persistLeases m) eqn:E.
  - destruct (file_append l) as [r|e] eqn:Er; [|right; exists e; auto].
    destruct (disk_ok r); [left|right].
    + exists [r]. split; [by unfold modify; rewrite E|]. intros _. by exists r.
    + exists CSVFileError. by auto.
  - left. exists []. split; [|done]. rewrite app_nil_r. by destruct m; simpl in *; subst.
Qed.

(** What an operation leads to: a result with its property, or a failure of the lease file
    that leaves everything as it was. *)
Definition outcome (A : Type) (m : M) (r : M * res A) (P : M → A → Prop) : Prop :=
  match r with
  | (m', Ok x) => P m' x ∧ persistLeases m' = persistLeases m
  | (m', Throw e) => m' = m ∧ persistLeases m = true
  end.

Lemma outcome_bind {A} (m : M) (f : ST M unit) (k : ST M A) a P :
  outcome unit m (f m) (λ m' _, P m' a) → (∀ m', k m' = (m', Ok a)) →
  outcome A m ((_ ← f; k) m) P.
Proof.
  intros Hf Hk. unfold mbind, ST_bind. destruct (f m) as [m' [u|e]]; [|done].
  by rewrite Hk.
Qed.

(** What a change of the database comes to.  When the file is kept, the row of [lease] is
    written at its end, and the call returns with the property [P] of the leases; or the
    lease has no row or the row cannot be written, and the call throws with nothing changed. *)
Definition journaled {A} (m : M) (lease : L) (r : M * res A) (P : gmap IOAddress L → A → Prop) :
    Prop :=
  let returns rows := ∃ m' x, r = (m', Ok x) ∧ P (contents m') x ∧
    lease_file_ m' = lease_file_ m ++ rows ∧ persistLeases m' = persistLeases m in
  if persistLeases m then
    match file_append lease with
    | Ok row => if disk_ok row then returns [row] else r = (m, Throw CSVFileError)
    | Throw e => r = (m, Throw e)
    end
  else returns [].

Lemma persist_journaled l m (g : M → M) (P : gmap IOAddress L → Prop) :
  (∀ m', storage_ m' = storage_ m → P (contents (g m')) ∧
     lease_file_ (g m') = lease_file_ m' ∧ persistLeases (g m') = persistLeases m') →
  journaled m l ((_ ← persist disk_ok l; modify g) m) (λ c _, P c).
Proof.
  intros Hg. unfold journaled, persist, get, lift, mbind, ST_bind.
  destruct (persistLeases m) eqn:Ep; cbn.
  - destruct (file_append l) as [row|e]; [|done]. destruct (disk_ok row); [|done].
    unfold modify. set (m' := {| storage_ := _ |}). destruct (Hg m' eq_refl) as (? & Ef & Epl).
    exists (g m'), tt. split_and!; [done|done|by rewrite Ef|by rewrite Epl].
  - unfold modify. destruct (Hg m eq_refl) as (? & Ef & Epl). exists (g m), tt.
    split_and!; [done|done|by rewrite Ef, app_nil_r|by rewrite Epl].
Qed.

Lemma journaled_ret {A} m l (f : ST M unit) (a : A) (P : gmap IOAddress L → Prop) :
  journaled m l (f m) (λ c _, P c) →
  journaled m l ((_ ← f; mret a) m) (λ c x, x = a ∧ P c).
Proof.
  assert (∀ m' r, f m = (m', r) →
    (_ ← f; mret a) m = (m', match r with Ok _ => Ok a | Throw e => Throw e end)) as Hret.
  { intros m' r E. unfold mbind, ST_bind. rewrite E. by destruct r. }
  unfold journaled. intros Hj.
  repeat case_match; try (by rewrite (Hret _ _ Hj));
    destruct Hj as (m' & [] & E & ? & ? & ?); exists m', a; by rewrite (Hret _ _ E).
Qed.

Lemma journaled_outcome {A} m l (r : M * res A) P :
  journaled m l r P → outcome A m r (λ m' x, P (contents m') x).
Proof.
  unfold journaled, outcome. intros Hj.
  repeat case_match; simplify_eq; try done; destruct Hj as (m' & x & E & ? & ? & ?); by simplify_eq.
Qed.

Lemma persist_insert_journaled l m :
  contents m !! rec_addr l = None →
  journaled m l (persist_insert disk_ok l m) (λ c _, c = <[rec_addr l := l]> (contents m)).
Proof.
  intros Hn. apply (persist_journaled l m _ (λ c, c = _)). intros m' Em. split; [|done].
  unfold contents in *. cbn. rewrite Em. by apply st_insert_leases.
Qed.
Lemma persist_insert_spec l m :
  contents m !! rec_addr l = None →
  outcome unit m (persist_insert disk_ok l m) (λ m' _,
    contents m' = <[rec_addr l := l]> (contents m)).
Proof. intros Hn. apply (journaled_outcome m l _ (λ c _, c = _)). by apply persist_insert_journaled. Qed.

Lemma persist_insert_taken l m :
  is_Some (contents m !! rec_addr l) →
  outcome unit m (persist_insert disk_ok l m) (λ m' _, contents m' = contents m).
Proof.
  intros Hn. apply (journaled_outcome m l _ (λ c _, c = _)).
  apply (persist_journaled l m _ (λ c, c = _)). intros m' Em. split; [|done].
  unfold contents in *. cbn. rewrite Em. by apply st_insert_taken.
Qed.

Lemma persist_replace_journaled l m :
  is_Some (contents m !! rec_addr l) →
  journaled m l (persist_replace disk_ok l m) (λ c _, c = <[rec_addr l := l]> (contents m)).
Proof.
  intros Hn. apply (persist_journaled l m _ (λ c, c = _)). intros m' Em. split; [|done].
  unfold contents in *. cbn. rewrite Em. by apply st_replace_leases.
Qed.
Lemma persist_replace_spec l m :
  is_Some (contents m !! rec_addr l) →
  outcome unit m (persist_replace disk_ok l m) (λ m' _,
    contents m' = <[rec_addr l := l]> (contents m)).
Proof. intros Hn. apply (journaled_outcome m l _ (λ c _, c = _)). by apply persist_replace_journaled. Qed.

Lemma persist_erase_journaled l m :
  journaled m l (persist_erase disk_ok l m) (λ c _, c = delete (rec_addr l) (contents m)).
Proof.
  apply (persist_journaled l m _ (λ c, c = _)). intros m' Em. split; [|done].
  unfold contents in *. cbn. rewrite Em. by apply st_erase_leases.
Qed.
Lemma persist_erase_spec l m :
  outcome unit m (persist_erase disk_ok l m) (λ m' _,
    contents m' = delete (rec_addr l) (contents m)).
Proof. apply (journaled_outcome m l _ (λ c _, c = _)). apply persist_erase_journaled. Qed.

(** ** Searching *)

Lemma elem_of_values (c : gmap IOAddress L) l :
  l ∈ (map_to_list c).*2 ↔ ∃ a, c !! a = Some l.
Proof.
  rewrite list_elem_of_fmap. split.
  - intros ([a l'] & -> & Hm). exists a. by apply elem_of_map_to_list.
  - intros [a Ha]. exists (a, l). split; [done|]. by apply elem_of_map_to_list.
Qed.

Lemma range_elem P (s : S) l :
  l ∈ st_range P s ↔ st_leases s !! rec_addr l = Some l ∧ P l = true.
Proof.
  rewrite st_range_perm, list_elem_of_filter, elem_of_values. split.
  - intros [HP [a Ha]]. split; [|done]. by rewrite (st_leases_addr _ _ _ Ha).
  - intros [Ha HP]. split; [done|]. by exists (rec_addr l).
Qed.

Lemma range_head P (s : S) :
  match head (st_range P s) with
  | Some l => st_leases s !! rec_addr l = Some l ∧ P l = true
  | None => ∀ a l, st_leases s !! a = Some l → P l = false
  end.
Proof.
  pose proof (range_elem P s) as Hel. destruct (st_range P s) as [|l r]; simpl.
  - intros a l Ha. destruct (P l) eqn:E; [|done].
    assert (l ∈ @nil L) as ?%elem_of_nil; [|done]. apply Hel.
    by rewrite (st_leases_addr _ _ _ Ha).
  - apply Hel. by left.
Qed.

(** ** The expiration index *)

Lemma exp_lt_trans_le a (l l' : L) :
  exp_lt a (exp_key l) = true → exp_le l l' → exp_lt a (exp_key l') = true.
Proof.
  unfold exp_le, exp_lt, exp_key. destruct a as [[] x]; simpl;
    destruct (rec_reclaimed l), (rec_reclaimed l'); simpl;
    rewrite ?Z.ltb_lt, ?Z.ltb_ge; intros; try done; lia.
Qed.

Lemma exp_partition a (idx : list L) :
  StronglySorted exp_le idx →
  partition_point (λ l, exp_lt a (exp_key l)) idx (upper_bound (λ l, exp_lt a (exp_key l)) idx).
Proof.
  intros Hs. apply upper_bound_spec. intros i j x y Hi Hj Hle Hx.
  destruct (decide (i = j)) as [->|]; [by simplify_eq|].
  eapply exp_lt_trans_le; [done|]. eapply StronglySorted_lookup; eauto with lia.
Qed.

Lemma by_expiration_elem (s : S) l :
  l ∈ st_by_expiration s ↔ st_leases s !! rec_addr l = Some l.
Proof.
  rewrite st_by_expiration_perm, elem_of_values. split.
  - intros [a Ha]. by rewrite (st_leases_addr _ _ _ Ha).
  - by exists (rec_addr l).
Qed.

Lemma not_yet_spec now (l : L) :
  exp_lt (false, now) (exp_key l) = false ↔ rec_reclaimed l = false ∧ rec_expiration l ≤ now.
Proof.
  unfold exp_lt, exp_key. destruct (rec_reclaimed l); simpl;
    rewrite ?Z.ltb_ge; naive_solver.
Qed.

Lemma expired_range_ok (m : M) (now : Z) :
  (∀ l, l ∈ expired_range now 0 m ↔
     contents m !! rec_addr l = Some l ∧ rec_reclaimed l = false ∧ rec_expiration l ≤ now) ∧
  StronglySorted exp_le (expired_range now 0 m) ∧
  ∀ k, (0 < k)%nat → expired_range now k m = take k (expired_range now 0 m).
Proof.
  unfold expired_range. rewrite Nat.eqb_refl.
  set (idx := st_by_expiration (storage_ m)).
  pose proof (st_by_expiration_sorted (storage_ m)) as Hs. fold idx in Hs.
  pose proof (exp_partition (false, now) idx Hs) as Hp.
  set (n := upper_bound _ _) in *. split_and!.
  - intros l. rewrite (take_partition _ _ _ Hp), list_elem_of_filter, not_yet_spec.
    unfold idx. rewrite by_expiration_elem. unfold contents. tauto.
  - rewrite <- (take_drop n idx) in Hs. by apply StronglySorted_app_1_l in Hs.
  - intros k Hk. rewrite (proj2 (Nat.eqb_neq k 0)) by lia.
    by rewrite take_take, Nat.min_comm.
Qed.

Lemma expired_nodup now (m : M) : NoDup (rec_addr <$> expired_range now 0 m).
Proof using H1.
  unfold expired_range. cbn [Nat.eqb].
  set (k := upper_bound _ _). clearbody k.
  apply (NoDup_app (rec_addr <$> take k (st_by_expiration (storage_ m)))
                   (rec_addr <$> drop k (st_by_expiration (storage_ m)))).
  rewrite <- fmap_app, take_drop, (st_by_expiration_perm (storage_ m)).
  assert (rec_addr <$> (map_to_list (st_leases (storage_ m))).*2 =
          (map_to_list (st_leases (storage_ m))).*1) as ->; [|apply NoDup_fst_map_to_list].
  rewrite <- list_fmap_compose. apply list_fmap_ext. intros i [a l] Hi. cbn.
  apply list_elem_of_lookup_2, elem_of_map_to_list in Hi. by apply st_leases_addr in Hi.
Qed.

Lemma erase_all (l : list L) (s : S) a :
  st_leases (foldl (λ s l, st_erase (rec_addr l) s) s l) !! a =
    if decide (a ∈ rec_addr <$> l) then None else st_leases s !! a.
Proof.
  revert s. induction l as [|x l IH]; intros s; cbn [foldl fmap list_fmap].
  { by rewrite decide_False by apply not_elem_of_nil. }
  rewrite IH, st_erase_leases. destruct (decide (a ∈ rec_addr <$> l)) as [Hin|Hin].
  - by rewrite decide_True by (by right).
  - destruct (decide (a = rec_addr x)) as [->|Hne].
    + by rewrite lookup_delete_eq, decide_True by (by left).
    + rewrite lookup_delete_ne, decide_False; [done| |done].
      rewrite elem_of_cons. tauto.
Qed.

Lemma mark_deleted_cases l (m : M) :
  ∃ rows r, mark_deleted disk_ok l m =
    ({| storage_ := storage_ m; lease_file_ := lease_file_ m ++ rows;
        persistLeases := persistLeases m |}, r) ∧
    (persistLeases m = false → r = Ok tt).
Proof.
  revert m. induction l as [|x l IH]; intros m; cbn [mark_deleted].
  { exists [], (Ok tt). rewrite app_nil_r. split; [by destruct m|done]. }
  unfold mbind, ST_bind.
  destruct (persist_cases (mark_removed x) m) as [(rows & -> & _)|(e & -> & Hp & _)].
  - destruct (IH {| storage_ := storage_ m; lease_file_ := lease_file_ m ++ rows;
                    persistLeases := persistLeases m |}) as (rows' & r & -> & Hr).
    exists (rows ++ rows'), r. cbn. by rewrite app_assoc.
  - exists [], (Throw e). rewrite app_nil_r. split; [by destruct m|congruence].
Qed.

(** The reclaimed leases old enough to be removed. *)
Definition removable (now secs : Z) (l : L) : bool :=
  rec_reclaimed l && (rec_expiration l <=? now - secs).

(** The part of the index between the two limits. *)
Definition removal_range (now secs : Z) (idx : list L) : list L :=
  let upper_limit := upper_bound (λ l, exp_lt (true, now - secs) (exp_key l)) idx in
  let lower_limit := upper_bound (λ l, exp_lt (true, int64_min) (exp_key l)) idx in
  take (upper_limit - lower_limit) (drop lower_limit idx).

Lemma removal_range_spec (s : S) now secs :
  (∀ a l, st_leases s !! a = Some l → int64_min < rec_expiration l) →
  int64_min ≤ now - secs →
  ∀ l, l ∈ removal_range now secs (st_by_expiration s) ↔
       st_leases s !! rec_addr l = Some l ∧ removable now secs l = true.
Proof.
  intros Hbound Hnow l. unfold removal_range. set (idx := st_by_expiration s).
  pose proof (st_by_expiration_sorted s) as Hs. fold idx in Hs.
  pose proof (exp_partition (true, now - secs) idx Hs) as Hu.
  pose proof (exp_partition (true, int64_min) idx Hs) as Hl.
  revert Hu Hl. generalize (upper_bound (λ l, exp_lt (true, now - secs) (exp_key l)) idx) as u.
  generalize (upper_bound (λ l, exp_lt (true, int64_min) (exp_key l)) idx) as lw.
  intros lw u Hu Hl.
  assert (st_leases s !! rec_addr l = Some l ↔ ∃ i, idx !! i = Some l) as ->.
  { rewrite <- by_expiration_elem. apply list_elem_of_lookup. }
  assert (∀ i, idx !! i = Some l → (lw ≤ i < u)%nat ↔ removable now secs l = true) as Hi.
  { intros i Hi. pose proof (proj2 Hu i l Hi) as H1'. pose proof (proj2 Hl i l Hi) as H2'.
    assert (int64_min < rec_expiration l) as Hb.
    { apply (Hbound (rec_addr l)). rewrite <- by_expiration_elem.
      by eapply list_elem_of_lookup_2. }
    unfold removable. revert H1' H2'. unfold exp_lt, exp_key.
    destruct (rec_reclaimed l); simpl; rewrite ?Z.ltb_lt, ?Z.leb_le; intros; [lia|].
    split; [|done]. intros [Hlw _]. by apply H2' in Hlw. }
  rewrite list_elem_of_lookup. split.
  - intros (i & [Hil Hlt]%lookup_take_Some). rewrite lookup_drop in Hil.
    split; [by eexists|]. apply (Hi _ Hil). lia.
  - intros ((i & Hil) & Hlt%(Hi _ Hil)). exists (i - lw)%nat.
    apply lookup_take_Some. rewrite lookup_drop.
    replace (lw + (i - lw))%nat with i by lia. split; [done|lia].
Qed.

Lemma deleteExpiredReclaimedLeases_ok (m : M) (now secs : Z) :
  (∀ a l, contents m !! a = Some l → int64_min < rec_expiration l) →
  int64_min ≤ now - secs →
  match deleteExpiredReclaimedLeases disk_ok now secs m with
  | (m', Ok _) => ∀ a, contents m' !! a =
      match contents m !! a with
      | Some l => if removable now secs l then None else Some l
      | None => None
      end
  | (m', Throw _) => contents m' = contents m
  end.
Proof.
  intros Hbound Hnow.
  unfold deleteExpiredReclaimedLeases, get. unfold mbind at 1, ST_bind at 1.
  fold (removal_range now secs (st_by_expiration (storage_ m))).
  pose proof (removal_range_spec (storage_ m) now secs Hbound Hnow) as Hr.
  set (range := removal_range _ _ _) in *. clearbody range.
  assert (∀ (m' : M), contents m' = st_leases (foldl (λ s l, st_erase (rec_addr l) s)
            (storage_ m) range) → ∀ a, contents m' !! a = match contents m !! a with
      | Some l => if removable now secs l then None else Some l | None => None end) as Hfin.
  { intros m' -> a. rewrite erase_all. fold (contents m).
    destruct (contents m !! a) as [l|] eqn:E; [|by destruct (decide _)].
    assert (rec_addr l = a) as <- by (by apply (st_leases_addr _ _ _ E)).
    destruct (removable now secs l) eqn:Er.
    - rewrite decide_True; [done|]. apply list_elem_of_fmap. exists l. split; [done|].
      by apply Hr.
    - rewrite decide_False; [done|]. intros (l' & Ha & [Hl' Hr']%Hr)%list_elem_of_fmap.
      unfold contents in E. rewrite <- Ha in Hl'. congruence. }
  destruct (Nat.ltb_spec 0 (length range)) as [Hlen|Hlen].
  - unfold mbind at 1, ST_bind at 1.
    destruct (mark_deleted_cases range m) as (rows & [[]|e] & -> & _); cbn; [|done].
    unfold modify, mbind, ST_bind, mret, ST_ret. by apply Hfin.
  - cbn. apply Hfin. by rewrite (nil_length_inv range) by lia.
Qed.
End Contents.

(** ** The lease file determines the leases *)

(** What a lease read back from the file is, for the leases that can be read back. *)
Class LeaseFileLaws (L R : Type) `{StoredLease L} `{LeaseFile L R} := {
  rec_persisted : L → L;
  rec_readable : L → Prop;
  persisted_addr : ∀ l, rec_addr (rec_persisted l) = rec_addr l;
  persisted_valid : ∀ l, rec_valid (rec_persisted l) = rec_valid l;
  append_next_readable : ∀ l r, rec_readable l → file_append l = Ok r →
    file_next r = Some (rec_persisted l)
}.

Section Journal.
Context {L S R : Type} `{LeaseStorageLaws L S} `{!LeaseFile L R} `{!LeaseFileLaws L R} (disk_ok : R → bool).
#[local] Abbreviation M := (Memfile S R).

(** Leases that survive in the file: a positive lifetime, since 0 marks a
    removal, and members that can be read back. *)
Definition durable (l : L) : Prop := rec_readable l ∧ 0 < rec_valid l.

(** A row that removes a lease. *)
Definition removal (l : L) : Prop := rec_readable l ∧ rec_valid l = 0.

(** Loading the file gives the leases in memory, up to what the file does not
    keep. *)
Definition journal (m : M) : Prop :=
  persistLeases m = true ∧ map_Forall (λ _, durable) (contents m) ∧
  st_leases (load (S:=S) Some (lease_file_ m)) = rec_persisted <$> contents m.

Lemma load_app rows r : load (S:=S) Some (rows ++ [r]) = load_row Some (load Some rows) r.
Proof. unfold load. by rewrite foldl_app. Qed.

(** One more row: an entry or a removal. *)
Lemma load_row_insert l r (s : S) :
  durable l → file_append l = Ok r →
  st_leases (load_row Some s r) = <[rec_addr l := rec_persisted l]> (st_leases s).
Proof.
  intros [Hrd Hpos] Hr. unfold load_row. rewrite (append_next_readable l r) by done.
  rewrite st_find_leases, persisted_valid, <- (persisted_addr l).
  destruct (st_leases s !! rec_addr (rec_persisted l)) as [l'|] eqn:E.
  - rewrite (proj2 (Z.eqb_neq _ _)) by lia. apply st_replace_leases. by exists l'.
  - rewrite (proj2 (Z.ltb_lt _ _)) by lia. by apply st_insert_leases.
Qed.

Lemma load_row_delete l r (s : S) :
  removal l → file_append l = Ok r →
  st_leases (load_row Some s r) = delete (rec_addr l) (st_leases s).
Proof.
  intros [Hrd Hz] Hr. unfold load_row. rewrite (append_next_readable l r Hrd Hr).
  rewrite st_find_leases, persisted_valid, persisted_addr, Hz. cbn.
  destruct (st_leases s !! rec_addr l) eqn:E; [apply st_erase_leases|].
  by rewrite delete_id.
Qed.

Lemma persist_row l m :
  persistLeases m = true →
  (∃ r, file_append l = Ok r ∧ persist (S:=S) disk_ok l m =
     ({| storage_ := storage_ m; lease_file_ := lease_file_ m ++ [r];
         persistLeases := true |}, Ok tt)) ∨
  (∃ e, persist disk_ok l m = (m, Throw e)).
Proof.
  intros Hp. destruct (persist_cases disk_ok l m) as [(rows & -> & Hr)|(e & -> & _)].
  - left. destruct (Hr Hp) as (r & Ha & ->). exists r. by rewrite Hp.
  - right. by exists e.
Qed.

(** One row and the change it stands for. *)
Lemma journal_change l (g : M → M) m c :
  journal m →
  (∀ m', storage_ m' = storage_ m → contents (g m') = c ∧ lease_file_ (g m') = lease_file_ m' ∧
     persistLeases (g m') = persistLeases m') →
  map_Forall (λ _, durable) c →
  (∀ r, file_append l = Ok r →
     st_leases (load_row Some (load (S:=S) Some (lease_file_ m)) r) = rec_persisted <$> c) →
  journal (fst ((_ ← persist disk_ok l; modify g) m)).
Proof.
  intros Hj Hg Hc Hload. pose proof Hj as (Hp & _). unfold mbind, ST_bind.
  destruct (persist_row l m Hp) as [(r & Hr & ->)|(e & ->)]; [|done]. cbn [modify fst].
  set (m' := {| storage_ := _ |}). destruct (Hg m' eq_refl) as (E1 & E2 & E3).
  split; [by rewrite E3|]. rewrite E1, E2. split; [done|]. subst m'. cbn [lease_file_].
  by rewrite load_app, Hload.
Qed.

Lemma journal_insert l m :
  journal m → durable l → contents m !! rec_addr l = None →
  journal (fst (persist_insert disk_ok l m)).
Proof.
  intros Hj Hl Hn. pose proof Hj as (_ & Hd & Hload).
  apply (journal_change l _ m (<[rec_addr l := l]> (contents m))); [done| | |].
  - intros m' Em. split; [|done]. unfold contents in *. cbn. rewrite Em. by apply st_insert_leases.
  - by apply map_Forall_insert_2.
  - intros r Hr. by rewrite (load_row_insert l r), Hload, fmap_insert.
Qed.

Lemma journal_replace l m :
  journal m → durable l → is_Some (contents m !! rec_addr l) →
  journal (fst (persist_replace disk_ok l m)).
Proof.
  intros Hj Hl Hn. pose proof Hj as (_ & Hd & Hload).
  apply (journal_change l _ m (<[rec_addr l := l]> (contents m))); [done| | |].
  - intros m' Em. split; [|done]. unfold contents in *. cbn. rewrite Em. by apply st_replace_leases.
  - by apply map_Forall_insert_2.
  - intros r Hr. by rewrite (load_row_insert l r), Hload, fmap_insert.
Qed.

Lemma journal_erase l m :
  journal m → removal l → journal (fst (persist_erase disk_ok l m)).
Proof.
  intros Hj Hl. pose proof Hj as (_ & Hd & Hload).
  apply (journal_change l _ m (delete (rec_addr l) (contents m))); [done| | |].
  - intros m' Em. split; [|done]. unfold contents in *. cbn. rewrite Em. by apply st_erase_leases.
  - by apply map_Forall_delete.
  - intros r Hr. by rewrite (load_row_delete l r), Hload, fmap_delete.
Qed.
End Journal.

(** ** A container that satisfies the interface *)

(** In a module of its own: only what imports it looks for this container. *)
Module ListContainer.
Section List.
Context {L : Type} `{StoredLease L}.

Definition ListStorage : Type := list L.

Definition list_leases (s : ListStorage) : gmap IOAddress L :=
  list_to_map ((λ l, (rec_addr l, l)) <$> s).

#[export] Instance exp_le_dec (l l' : L) : Decision (exp_le l l').
Proof. unfold exp_le. apply _. Defined.
#[export] Instance exp_le_total : Total (exp_le (L:=L)).
Proof.
  intros l l'. unfold exp_le, exp_lt, exp_key.
  destruct (rec_reclaimed l), (rec_reclaimed l'); simpl; rewrite ?Z.ltb_ge; auto; lia.
Qed.
#[export] Instance exp_le_transitive : Transitive (exp_le (L:=L)).
Proof.
  intros l l' l''. unfold exp_le, exp_lt, exp_key.
  destruct (rec_reclaimed l), (rec_reclaimed l'), (rec_reclaimed l'');
    simpl; rewrite ?Z.ltb_ge; try done; lia.
Qed.
#[export] Instance addr_before_dec (l l' : L) : Decision (addr_before l l').
Proof. apply _. Defined.
#[export] Instance addr_before_total : Total (addr_before (L:=L)).
Proof. intros l l'. unfold addr_before. rewrite !addr_le_lia. lia. Qed.
#[export] Instance addr_before_transitive : Transitive (addr_before (L:=L)).
Proof. intros l l' l''. unfold addr_before. apply transitivity. Qed.

Definition list_insert_lease (l : L) (s : ListStorage) : ListStorage :=
  match list_leases s !! rec_addr l with Some _ => s | None => l :: s end.

#[export] Instance list_storage : LeaseStorage L ListStorage := {|
  st_empty := [];
  st_find a s := list_leases s !! a;
  st_by_address s := merge_sort addr_before (map_to_list (list_leases s)).*2;
  st_range P s := filter (λ l, P l = true) (map_to_list (list_leases s)).*2;
  st_by_expiration s := merge_sort exp_le (map_to_list (list_leases s)).*2;
  st_insert := list_insert_lease;
  st_replace l s := l :: s;
  st_erase a s := filter (λ l, rec_addr l ≠ a) (s : list L)
|}.

Lemma list_leases_addr s a l : list_leases s !! a = Some l → rec_addr l = a.
Proof.
  intros Hl%elem_of_list_to_map_2. apply list_elem_of_fmap in Hl as (x & [= -> ->] & _). done.
Qed.

Lemma list_leases_erase a (s : list L) :
  list_leases (filter (λ l, rec_addr l ≠ a) s) = delete a (list_leases s).
Proof.
  unfold list_leases. induction s as [|l s IH]; [symmetry; apply delete_empty|].
  rewrite filter_cons, fmap_cons, list_to_map_cons.
  destruct (decide (rec_addr l ≠ a)) as [Hne|Heq].
  - rewrite fmap_cons, list_to_map_cons, IH. by rewrite delete_insert_ne.
  - apply dec_stable in Heq as <-. rewrite IH. by rewrite delete_insert_eq.
Qed.

#[export] Instance list_storage_laws : LeaseStorageLaws L ListStorage.
Proof.
  refine {| st_leases := list_leases |}; cbn.
  - apply list_leases_addr.
  - done.
  - done.
  - intros s. apply merge_sort_Permutation.
  - intros s. apply StronglySorted_merge_sort; apply _.
  - done.
  - intros s. apply merge_sort_Permutation.
  - intros s. apply StronglySorted_merge_sort; apply _.
  - intros l s Hl. unfold list_insert_lease. by rewrite Hl.
  - intros l s [l' Hl]. unfold list_insert_lease. by rewrite Hl.
  - done.
  - intros a s. apply list_leases_erase.
Defined.
End List.
Arguments ListStorage : clear implicits.
End ListContainer.
