(* ===== verification/MemfileLeaseMgr.v ===== *)
(** * The in-memory database of IPv4 leases ([src/lib/dhcpsrv/memfile_lease_mgr.cc])

    The container and the lease file are those of [LeaseStorage], with the IPv4 leases and
    the rows of [CsvLeaseFile4]. *)

From S2P Require Import Prelude Algorithms IoAddress Pool Lease LeaseMgr CsvLeaseFile4.
From S2P Require Import LeaseStorage.
Local Open Scope Z_scope.

#[export] Instance lease4_stored : StoredLease Lease4 := {|
  rec_addr := addr_;
  rec_reclaimed := stateExpiredReclaimed;
  rec_expiration := getExpirationTime;
  rec_valid := valid_lft_;
  mark_removed l := with_valid_lft l 0
|}.
#[export] Instance lease_file4 : LeaseFile Lease4 CSVRow := {|
  file_append := append_row;
  file_next := next
|}.

(** What is read back from the file. *)
#[export] Instance lease_file4_laws : LeaseFileLaws Lease4 CSVRow.
Proof.
  refine {| rec_persisted := persisted;
            rec_readable l := wf_lease l ∧ getExpirationTime l < 2 ^ 32 |}; [done|done|].
  intros l r [? ?] Hr. cbn in Hr |- *. rewrite (append_next l r) by done.
  by rewrite (proj2 (Z.ltb_lt _ _)).
Defined.

Abbreviation Memfile4 S := (Memfile S CSVRow).

Section Memfile4.
Context {S : Type} `{!LeaseStorage Lease4 S}.
Context (disk_ok : CSVRow → bool).

Definition memfile_getLease4 (addr : IOAddress) (m : Memfile4 S) : option Lease4 :=
  st_find addr (storage_ m).

Definition memfile_addLease (lease : Lease4) : ST (Memfile4 S) bool :=
  m ← get;
  match memfile_getLease4 (addr_ lease) m with
  | Some _ => mret false
  | None => _ ← persist_insert disk_ok lease; mret true
  end.

(** [getLease4(hwaddr)]. *)
Definition getLease4_hwaddr (hwaddr : HWAddr) (m : Memfile4 S) : list Lease4 :=
  st_range (λ l, bool_decide (getHWAddrVector l = hwaddr_bytes hwaddr)) (storage_ m).

(** [getLease4(hwaddr, subnet_id)]. *)
Definition getLease4_hwaddr_subnet (hwaddr : HWAddr) (subnet_id : Z) (m : Memfile4 S) :
    option Lease4 :=
  head (st_range (λ l, bool_decide (getHWAddrVector l = hwaddr_bytes hwaddr)
                       && (subnet_id_ l =? subnet_id)) (storage_ m)).

(** [getLease4(client_id)]. *)
Definition getLease4_cid (client_id : list Z) (m : Memfile4 S) : list Lease4 :=
  st_range (λ l, bool_decide (getClientIdVector l = client_id)) (storage_ m).

(** [getLease4(client_id, hwaddr, subnet_id)]. *)
Definition getLease4_cid_hwaddr_subnet (client_id : list Z) (hwaddr : HWAddr)
    (subnet_id : Z) (m : Memfile4 S) : option Lease4 :=
  head (st_range (λ l, bool_decide (getClientIdVector l = client_id)
                       && bool_decide (getHWAddrVector l = hwaddr_bytes hwaddr)
                       && (subnet_id_ l =? subnet_id)) (storage_ m)).

(** [getLease4(client_id, subnet_id)]. *)
Definition getLease4_cid_subnet (client_id : list Z) (subnet_id : Z) (m : Memfile4 S) :
    option Lease4 :=
  head (st_range (λ l, bool_decide (getClientIdVector l = client_id)
                       && (subnet_id_ l =? subnet_id)) (storage_ m)).

(** [getLeases4(subnet_id)] and [getLeases4()]. *)
Definition getLeases4_subnet (subnet_id : Z) (m : Memfile4 S) : list Lease4 :=
  st_range (λ l, subnet_id_ l =? subnet_id) (storage_ m).
Definition getLeases4 (m : Memfile4 S) : list Lease4 := st_by_address (storage_ m).

(** [getLeases4(lower_bound_address, page_size)]. *)
Definition getLeases4_page (lower_bound_address : IOAddress) (page_size : nat)
    (m : Memfile4 S) : res (list Lease4) :=
  _ ← throw_if (negb (isV4 lower_bound_address)) InvalidAddressFamily;
  mret (page lower_bound_address page_size m).

Definition getExpiredLeases4 (now : Z) (max_leases : nat) (m : Memfile4 S) : list Lease4 :=
  expired_range now max_leases m.

Definition memfile_updateLease4 (lease : Lease4) : ST (Memfile4 S) unit :=
  m ← get;
  match st_find (addr_ lease) (storage_ (m : Memfile4 S)) with
  | None => throw NoSuchLease
  | Some _ => persist_replace disk_ok lease
  end.

(** [deleteLease], for an IPv4 address. *)
Definition memfile_deleteLease (addr : IOAddress) : ST (Memfile4 S) bool :=
  m ← get;
  match st_find addr (storage_ (m : Memfile4 S)) with
  | None => mret false
  | Some l => _ ← persist_erase disk_ok (with_valid_lft l 0); mret true
  end.

Definition deleteExpiredReclaimedLeases4 (now secs : Z) : ST (Memfile4 S) nat :=
  deleteExpiredReclaimedLeases disk_ok now secs.
End Memfile4.

(** ** The database is a map from addresses to leases *)

Section Contents.
Context {S : Type} `{!LeaseStorage Lease4 S} `{!LeaseStorageLaws Lease4 S} (disk_ok : CSVRow → bool).

Lemma memfile_addLease_spec l (m : Memfile4 S) :
  match contents m !! addr_ l with
  | Some _ => memfile_addLease disk_ok l m = (m, Ok false)
  | None => journaled disk_ok m l (memfile_addLease disk_ok l m) (λ c b,
              b = true ∧ c = <[addr_ l := l]> (contents m))
  end.
Proof.
  unfold memfile_addLease, memfile_getLease4, get. unfold mbind at 1 3, ST_bind at 1 3.
  rewrite st_find_leases. fold (contents m).
  destruct (contents m !! addr_ l) eqn:E; [done|].
  exact (journaled_ret disk_ok m l _ true (λ c, c = _) (persist_insert_journaled disk_ok l m E)).
Qed.

Lemma memfile_updateLease4_spec l (m : Memfile4 S) :
  match contents m !! addr_ l with
  | Some _ => journaled disk_ok m l (memfile_updateLease4 disk_ok l m) (λ c _,
                c = <[addr_ l := l]> (contents m))
  | None => memfile_updateLease4 disk_ok l m = (m, Throw NoSuchLease)
  end.
Proof.
  destruct (contents m !! addr_ l) eqn:E; unfold memfile_updateLease4, get;
    unfold mbind at 1, ST_bind at 1; rewrite st_find_leases; fold (contents m); rewrite E;
    [|done]. exact (persist_replace_journaled disk_ok l m (mk_is_Some _ _ E)).
Qed.

Lemma memfile_deleteLease_spec a (m : Memfile4 S) :
  match contents m !! a with
  | Some l => journaled disk_ok m (with_valid_lft l 0) (memfile_deleteLease disk_ok a m) (λ c b,
                b = true ∧ c = delete a (contents m))
  | None => memfile_deleteLease disk_ok a m = (m, Ok false)
  end.
Proof.
  destruct (contents m !! a) as [l|] eqn:E; unfold memfile_deleteLease, get;
    unfold mbind at 1, ST_bind at 1; rewrite st_find_leases; fold (contents m); rewrite E; [|done].
  pose proof (persist_erase_journaled disk_ok (with_valid_lft l 0) m) as Hs.
  change (rec_addr (with_valid_lft l 0)) with (rec_addr l) in Hs.
  rewrite (st_leases_addr _ _ _ E) in Hs. exact (journaled_ret disk_ok m _ _ true (λ c, c = _) Hs).
Qed.

(** C38: the in-memory database behaves as a map from addresses to leases: a lease is found
    by its address; one is added where there is none, updated where there is one, and removed
    where there is one, otherwise the call says so and changes nothing; and nothing else
    changes.  Each change is journaled: when the leases are kept in a file, exactly one row is
    added to the file, that of the new lease or of the removed one with a lifetime of 0; and
    when this row cannot be written the call throws and neither memory nor file changes. *)
Theorem memfile_refines_map (m : Memfile4 S) (l : Lease4) (a : IOAddress) :
  memfile_getLease4 a m = contents m !! a ∧
  match contents m !! addr_ l with
  | Some _ => memfile_addLease disk_ok l m = (m, Ok false)
  | None => journaled disk_ok m l (memfile_addLease disk_ok l m) (λ c b,
              b = true ∧ c = <[addr_ l := l]> (contents m))
  end ∧
  match contents m !! addr_ l with
  | Some _ => journaled disk_ok m l (memfile_updateLease4 disk_ok l m) (λ c _,
                c = <[addr_ l := l]> (contents m))
  | None => memfile_updateLease4 disk_ok l m = (m, Throw NoSuchLease)
  end ∧
  match contents m !! a with
  | Some l0 => journaled disk_ok m (with_valid_lft l0 0) (memfile_deleteLease disk_ok a m)
                 (λ c b, b = true ∧ c = delete a (contents m))
  | None => memfile_deleteLease disk_ok a m = (m, Ok false)
  end.
Proof.
  split; [apply st_find_leases|]. split; [apply memfile_addLease_spec|].
  split; [apply memfile_updateLease4_spec|apply memfile_deleteLease_spec].
Qed.

(** ** Searching *)

(** the search by client identifier and subnet returns a lease of the
    database with that identifier and subnet, and reports none only when there
    is none. *)
Theorem getLease4_cid_subnet_spec (m : Memfile4 S) (cid : list Z) (subnet : Z) :
  match getLease4_cid_subnet cid subnet m with
  | Some l => contents m !! addr_ l = Some l ∧ getClientIdVector l = cid ∧ subnet_id_ l = subnet
  | None => ∀ a l, contents m !! a = Some l → getClientIdVector l ≠ cid ∨ subnet_id_ l ≠ subnet
  end.
Proof.
  unfold getLease4_cid_subnet. set (P := λ l, _). pose proof (range_head P (storage_ m)) as Hr.
  destruct (head _) as [l|]; subst P; cbn beta in Hr.
  - destruct Hr as [Hl [Hc%bool_decide_eq_true Hs%Z.eqb_eq]%andb_true_iff]. done.
  - intros a l Ha. specialize (Hr a l Ha). apply andb_false_iff in Hr as [Hc|Hs].
    + left. by apply bool_decide_eq_false in Hc.
    + right. by apply Z.eqb_neq.
Qed.

Lemma getLease4_hwaddr_subnet_spec (m : Memfile4 S) hw subnet :
  match getLease4_hwaddr_subnet hw subnet m with
  | Some l => contents m !! addr_ l = Some l ∧ getHWAddrVector l = hwaddr_bytes hw ∧
              subnet_id_ l = subnet
  | None => ∀ a l, contents m !! a = Some l →
              getHWAddrVector l ≠ hwaddr_bytes hw ∨ subnet_id_ l ≠ subnet
  end.
Proof.
  unfold getLease4_hwaddr_subnet. set (P := λ l, _).
  pose proof (range_head P (storage_ m)) as Hr.
  destruct (head _) as [l|]; subst P; cbn beta in Hr.
  - destruct Hr as [Hl [Hc%bool_decide_eq_true Hs%Z.eqb_eq]%andb_true_iff]. done.
  - intros a l Ha. specialize (Hr a l Ha). apply andb_false_iff in Hr as [Hc|Hs].
    + left. by apply bool_decide_eq_false in Hc.
    + right. by apply Z.eqb_neq.
Qed.
End Contents.

(** ** The expiration index *)

Section Expiration.
Context {S : Type} `{!LeaseStorage Lease4 S} `{!LeaseStorageLaws Lease4 S} (disk_ok : CSVRow → bool).

(** the leases to reclaim are exactly those that are not reclaimed yet
    and whose expiration time is not later than the current time, the earliest
    first; a limit keeps the first of them. *)
Theorem getExpiredLeases4_spec (m : Memfile4 S) (now : Z) :
  (∀ l, l ∈ getExpiredLeases4 now 0 m ↔
     contents m !! addr_ l = Some l ∧ stateExpiredReclaimed l = false ∧
     getExpirationTime l ≤ now) ∧
  StronglySorted exp_le (getExpiredLeases4 now 0 m) ∧
  ∀ k, (0 < k)%nat → getExpiredLeases4 now k m = take k (getExpiredLeases4 now 0 m).
Proof. exact (expired_range_ok m now). Qed.

(** [deleteExpiredReclaimedLeases4] removes exactly the reclaimed leases
    that expired at least [secs] seconds ago, or throws and removes none. *)
Theorem deleteExpiredReclaimedLeases4_spec (m : Memfile4 S) (now secs : Z)
    (Hbound : ∀ a l, contents m !! a = Some l → int64_min < getExpirationTime l)
    (Hnow : int64_min ≤ now - secs) :
  match deleteExpiredReclaimedLeases4 disk_ok now secs m with
  | (m', Ok _) => ∀ a, contents m' !! a =
      match contents m !! a with
      | Some l => if removable now secs l then None else Some l
      | None => None
      end
  | (m', Throw _) => contents m' = contents m
  end.
Proof. exact (deleteExpiredReclaimedLeases_ok disk_ok m now secs Hbound Hnow). Qed.
End Expiration.

(** ** The lease file determines the leases *)

Section Journal4.
Context {S : Type} `{!LeaseStorage Lease4 S} `{!LeaseStorageLaws Lease4 S} (disk_ok : CSVRow → bool).

Lemma durable_removal (l : Lease4) : durable l → removal (with_valid_lft l 0).
Proof.
  intros [[[Hv Hc Hs Hst Hh Hcid Hname] Hexp] Hpos]. unfold getExpirationTime in Hexp.
  cbn [rec_valid lease4_stored] in Hpos.
  split; [|done]. split; [split; simpl; try done; lia|]. unfold getExpirationTime. simpl. lia.
Qed.

(** the lease file is a journal of the database: if loading it gives
    the leases in memory (as it does at start-up), it still does after adding,
    updating or removing a lease, whether the operation succeeds or fails. *)
Theorem journal_preserved (m : Memfile4 S) (l : Lease4) (a : IOAddress)
    (Hj : journal m) (Hl : durable l) :
  journal (fst (memfile_addLease disk_ok l m)) ∧
  journal (fst (memfile_updateLease4 disk_ok l m)) ∧
  journal (fst (memfile_deleteLease disk_ok a m)).
Proof.
  assert (∀ (f : ST (Memfile4 S) unit) (b : bool), journal (fst (f m)) →
    journal (fst ((_ ← f; mret b) m))) as Hret
    by (intros f b; unfold mbind, ST_bind; destruct (f m) as [m' [u|e]]; done).
  split_and!.
  - unfold memfile_addLease, memfile_getLease4, get. unfold mbind at 1, ST_bind at 1.
    rewrite st_find_leases. destruct (st_leases (storage_ m) !! addr_ l) eqn:E; [done|].
    apply Hret. by apply journal_insert.
  - unfold memfile_updateLease4, get. unfold mbind at 1, ST_bind at 1.
    rewrite st_find_leases. destruct (st_leases (storage_ m) !! addr_ l) eqn:E; [|done].
    apply journal_replace; [done|done|]. by eexists.
  - unfold memfile_deleteLease, get. unfold mbind at 1, ST_bind at 1.
    rewrite st_find_leases. destruct (st_leases (storage_ m) !! a) as [l'|] eqn:E; [|done].
    apply Hret. apply journal_erase; [done|]. apply durable_removal.
    by apply (proj1 (proj2 Hj) a).
Qed.
End Journal4.

(** ** The in-memory database implements the interface of lease databases *)

#[export] Instance memfile_lease_mgr {S} `{!LeaseStorage Lease4 S} (disk_ok : CSVRow → bool) :
    LeaseMgr (Memfile4 S) := {|
  lm_addLease := memfile_addLease disk_ok;
  lm_getLease4 := memfile_getLease4;
  lm_getLease4_cid := getLease4_cid;
  lm_getLease4_hwaddr := getLease4_hwaddr;
  lm_getExpiredLeases4 now k m := Ok (getExpiredLeases4 now k m);
  lm_updateLease4 := memfile_updateLease4 disk_ok;
  lm_deleteLease := memfile_deleteLease disk_ok;
  lm_deleteExpiredReclaimedLeases4 := deleteExpiredReclaimedLeases4 disk_ok
|}.

Section Interface.
Context {S : Type} `{!LeaseStorage Lease4 S} `{!LeaseStorageLaws Lease4 S} (disk_ok : CSVRow → bool).

Lemma wp_persist l (g : Memfile4 S → Memfile4 S) (m : Memfile4 S) (Q : Memfile4 S → Prop) :
  (∀ m', storage_ m' = storage_ m → Q (g m')) →
  wp (_ ← persist disk_ok l; modify g) m (λ _, Q)
     (λ e m', catchable e = true ∧ contents m' = contents m).
Proof.
  intros HQ. apply wp_bind. unfold wp.
  destruct (persist_cases disk_ok l m) as [(rows & -> & _)|(e & -> & _ & [Ha| ->])].
  - set (m' := {| storage_ := _ |}). exact (HQ m' eq_refl).
  - cbn in Ha. unfold append_row in Ha. destruct (hwaddr_ l); [done|]. by injection Ha as <-.
  - done.
Qed.

#[export] Instance memfile_lease_mgr_laws :
  @LeaseMgrLaws (Memfile4 S) (memfile_lease_mgr disk_ok).
Proof using All.
  refine {| lm_leases := contents |}; cbn [lm_addLease lm_getLease4 lm_getLease4_cid
    lm_getLease4_hwaddr lm_getExpiredLeases4 lm_updateLease4 lm_deleteLease memfile_lease_mgr].
  - intros m a l Hl. exact (st_leases_addr _ _ _ Hl).
  - intros a m. apply st_find_leases.
  - intros cid m l. unfold getLease4_cid. by rewrite range_elem, bool_decide_eq_true.
  - intros hw m l. unfold getLease4_hwaddr. by rewrite range_elem, bool_decide_eq_true.
  - intros now m all [= <-]. exact (proj1 (expired_range_ok m now)).
  - intros now m all [= <-]. exact (expired_nodup now m).
  - intros now k m Hk. cbn. f_equal. exact (proj2 (proj2 (expired_range_ok m now)) k Hk).
  - intros l m. unfold memfile_addLease. apply wp_bind, wp_get.
    unfold memfile_getLease4. rewrite st_find_leases. fold (contents m).
    destruct (contents m !! addr_ l) eqn:E; [by apply wp_ret|].
    apply wp_bind, wp_persist. intros m' Hm'. apply wp_ret. split; [done|].
    unfold contents in *. cbn. rewrite Hm'. exact (st_insert_leases l (storage_ m) E).
  - intros l m. unfold memfile_updateLease4. apply wp_bind, wp_get.
    rewrite st_find_leases. fold (contents m).
    destruct (contents m !! addr_ l) eqn:E; [|by apply wp_throw].
    apply wp_persist. intros m' Hm'. split; [by eexists|].
    unfold contents in *. cbn. rewrite Hm'.
    exact (st_replace_leases l (storage_ m) (mk_is_Some _ _ E)).
  - intros a m. unfold memfile_deleteLease. apply wp_bind, wp_get.
    rewrite st_find_leases. fold (contents m).
    destruct (contents m !! a) as [l|] eqn:E.
    + apply wp_bind, wp_persist. intros m' Hm'. apply wp_ret.
      split; [done|]. unfold contents in *. cbn. rewrite Hm', st_erase_leases.
      by rewrite <- (st_leases_addr _ _ _ E).
    + apply wp_ret. split; [done|]. by rewrite delete_id.
Defined.
End Interface.

(** ** The theorems at a concrete database *)

Export LeaseStorage.ListContainer.
Abbreviation ListStorage4 := (ListStorage Lease4).

Definition sample_memfile : Memfile4 ListStorage4 :=
  fst (memfile_addLease (λ _, true) sample_lease
    {| storage_ := st_empty; lease_file_ := []; persistLeases := true |}).

Lemma memfile_refines_map_witness :
  memfile_getLease4 (addr_ sample_lease) sample_memfile = Some sample_lease ∧
  memfile_updateLease4 (λ _, true) (with_state sample_lease STATE_DECLINED) sample_memfile ≠
    (sample_memfile, Throw NoSuchLease).
Proof.
  split.
  - exact (proj1 (memfile_refines_map (λ _, true) sample_memfile sample_lease
      (addr_ sample_lease))).
  - vm_compute. congruence.
Defined.

Lemma getLease4_cid_subnet_spec_witness :
  getLease4_cid_subnet [1; 2; 3] 1 sample_memfile = Some sample_lease ∧
  contents sample_memfile !! addr_ sample_lease = Some sample_lease.
Proof.
  pose proof (getLease4_cid_subnet_spec sample_memfile [1; 2; 3] 1) as H.
  assert (getLease4_cid_subnet [1; 2; 3] 1 sample_memfile = Some sample_lease) as E
    by (vm_compute; reflexivity).
  rewrite E in H. split; [exact E|apply H].
Defined.

Lemma getExpiredLeases4_spec_witness :
  sample_lease ∈ getExpiredLeases4 1500004000 0 sample_memfile.
Proof.
  apply (proj2 (proj1 (getExpiredLeases4_spec sample_memfile 1500004000) sample_lease)).
  split; [vm_compute; reflexivity|]. split; [reflexivity|]. vm_compute. congruence.
Defined.

Lemma deleteExpiredReclaimedLeases4_spec_witness :
  match deleteExpiredReclaimedLeases4 (λ _, true) 1600000000 10 sample_memfile with
  | (m', Ok _) => contents m' !! addr_ sample_lease = Some sample_lease
  | (m', Throw _) => False
  end.
Proof.
  assert (∀ a l, contents sample_memfile !! a = Some l → int64_min < getExpirationTime l) as Hb.
  { intros a l Hl. assert (l = sample_lease) as ->; [|vm_compute; reflexivity].
    change (contents sample_memfile) with (list_leases [sample_lease]) in Hl.
    unfold list_leases in Hl. cbn in Hl.
    apply lookup_insert_Some in Hl as [[_ <-]|[_ Hl]]; [done|by rewrite lookup_empty in Hl]. }
  pose proof (deleteExpiredReclaimedLeases4_spec (λ _, true) sample_memfile 1600000000 10 Hb
    ltac:(unfold int64_min; lia)) as H.
  assert (∃ m', deleteExpiredReclaimedLeases4 (λ _, true) 1600000000 10 sample_memfile
    = (m', Ok 0%nat)) as [m' E] by (vm_compute; by eexists).
  rewrite E in *. rewrite H. vm_compute. reflexivity.
Defined.

Lemma journal_preserved_witness :
  let m := {| storage_ := (st_empty : ListStorage4); lease_file_ := [];
              persistLeases := true |} in
  journal m ∧ durable sample_lease ∧
  journal (fst (memfile_addLease (λ _, true) sample_lease m)).
Proof.
  intros m.
  assert (journal m) as Hj.
  { split; [done|]. split; [apply map_Forall_empty|vm_compute; reflexivity]. }
  assert (durable sample_lease) as Hd.
  { split; [split; [exact sample_lease_wf|vm_compute; reflexivity]|vm_compute; reflexivity]. }
  split; [exact Hj|]. split; [exact Hd|].
  exact (proj1 (journal_preserved (λ _, true) m sample_lease (addr_ sample_lease) Hj Hd)).
Defined.
