(* ===== verification/CsvLeaseFile6.v ===== *)
(** * The lease file of IPv6 leases ([src/lib/dhcpsrv/csv_lease_file6.cc])

    As in [CsvLeaseFile4], a line is made of values, of which the name of the client is text.
    The column of the lease type holds one of the types a lease can have. *)

From S2P Require Import Prelude IoAddress Pool Lease Lease6 CsvLeaseFile4.
Local Open Scope Z_scope.

Record CSVRow6 := {
  col6_address : IOAddress;
  col6_duid : list Z;
  col6_valid_lifetime : Z;
  col6_expire : Z;
  col6_subnet_id : Z;
  col6_pref_lifetime : Z;
  col6_lease_type : LeaseType;
  col6_iaid : Z;
  col6_prefix_len : Z;
  col6_fqdn_fwd : bool;
  col6_fqdn_rev : bool;
  col6_hostname : string;
  col6_hwaddr : list Z;
  col6_state : Z
}.

(** [CSVLeaseFile6::initColumns], and the line written. *)
Definition initColumns6 : list string :=
  ["address"; "duid"; "valid_lifetime"; "expire"; "subnet_id"; "pref_lifetime"; "lease_type";
   "iaid"; "prefix_len"; "fqdn_fwd"; "fqdn_rev"; "hostname"; "hwaddr"; "state"; "user_context"].
Definition render6 (row : CSVRow6) : list CSVValue :=
  [VAddress (col6_address row); VBytes (col6_duid row); VNumber (col6_valid_lifetime row);
   VNumber (col6_expire row); VNumber (col6_subnet_id row); VNumber (col6_pref_lifetime row);
   VLeaseType (col6_lease_type row); VNumber (col6_iaid row); VNumber (col6_prefix_len row);
   VBool (col6_fqdn_fwd row); VBool (col6_fqdn_rev row); VText (col6_hostname row);
   VBytes (col6_hwaddr row); VNumber (col6_state row); VText ""].

(** [CSVLeaseFile6::append]: the row written.  The DUID is followed without a check. *)
Definition append_row6 (lease : Lease6) : res CSVRow6 :=
  match duid_ lease with
  | None => Throw AssertionFailure
  | Some duid =>
      mret {| col6_address := addr6_ lease; col6_duid := duid;
              col6_valid_lifetime := valid_lft6_ lease;
              col6_expire := cltt6_ lease + valid_lft6_ lease;
              col6_subnet_id := subnet_id6_ lease; col6_pref_lifetime := preferred_lft_ lease;
              col6_lease_type := lease_type_ lease; col6_iaid := iaid_ lease;
              col6_prefix_len := prefixlen_ lease; col6_fqdn_fwd := fqdn_fwd6_ lease;
              col6_fqdn_rev := fqdn_rev6_ lease; col6_hostname := hostname6_ lease;
              col6_hwaddr := match hwaddr6_ lease with Some hw => hwaddr_bytes hw | None => [] end;
              col6_state := state6_ lease |}
  end.

(** The constructor of a DUID. *)
Definition mkDUID (duid : list Z) : res (list Z) :=
  _ ← throw_if (MAX_DUID_LEN <? length duid)%nat BadValue;
  _ ← throw_if (bool_decide (duid = [])) BadValue;
  mret duid.

(** The functions that read a column of the values of a line. *)
Definition read6 {A} (convert : CSVValue → res A) (col_name : string) (values : list CSVValue) :
    res A :=
  v ← readAt initColumns6 values col_name; convert v.
Definition value_lease_type (v : CSVValue) : res LeaseType :=
  match v with VLeaseType t => Ok t | _ => Throw CSVFileError end.
Definition readType := read6 value_lease_type "lease_type".
Definition readAddress6 := read6 value_address "address".
Definition readDUID (values : list CSVValue) : res (list Z) :=
  duid ← read6 value_bytes "duid" values; mkDUID duid.
Definition readIAID := read6 value_uint32 "iaid".
Definition readPreferred := read6 value_uint32 "pref_lifetime".
Definition readValid6 := read6 value_uint32 "valid_lifetime".
Definition readCltt6 (values : list CSVValue) : res Z :=
  expire ← read6 value_uint32 "expire" values;
  valid ← readValid6 values;
  mret (u32 (expire - valid)).
Definition readSubnetID6 := read6 value_uint32 "subnet_id".
(** The text must be a number of type [int]; the cast keeps 8 bits. *)
Definition value_int8 (v : CSVValue) : res Z :=
  match v with
  | VNumber z => if (- 2 ^ 31 <=? z) && (z <? 2 ^ 31) then Ok (z `mod` 2 ^ 8) else Throw BadValue
  | _ => Throw CSVFileError
  end.
Definition readPrefixLen := read6 value_int8 "prefix_len".
Definition readFqdnFwd6 := read6 value_bool "fqdn_fwd".
Definition readFqdnRev6 := read6 value_bool "fqdn_rev".
Definition readHostname6 := read6 value_text "hostname".
(** An address that cannot be read is given up. *)
Definition readHWAddr6 (values : list CSVValue) : option HWAddr :=
  match read6 value_hwaddr "hwaddr" values with
  | Ok hwaddr => if bool_decide (hwaddr_bytes hwaddr = []) then None else Some hwaddr
  | Throw _ => None
  end.
Definition readState6 := read6 value_uint32 "state".
Definition readContext6 := read6 value_context "user_context".

(** [CSVLeaseFile6::next]: [None] for a row that cannot be read.  The constructor sets the
    time of the transaction to the current time, which is replaced at once.  The check of the
    number of values ([VersionedCSVFile::next]) is made but its result is not used. *)
Definition next6 (row : CSVRow6) : option Lease6 :=
  let values := parse (getline (render6 row)) in
  let r :=
    type ← readType values;
    address ← readAddress6 values;
    duid ← readDUID values;
    iaid ← readIAID values;
    preferred ← readPreferred values;
    valid ← readValid6 values;
    subnet_id ← readSubnetID6 values;
    prefix_len ← readPrefixLen values;
    lease ← mkLease6 0 type address (Some duid) iaid preferred
              valid 0 0 subnet_id false false "" (readHWAddr6 values) prefix_len;
    cltt ← readCltt6 values;
    fqdn_fwd ← readFqdnFwd6 values;
    fqdn_rev ← readFqdnRev6 values;
    hostname ← readHostname6 values;
    state ← readState6 values;
    let lease := with_state6
      (with_dns6 (with_cltt6 lease cltt) fqdn_fwd fqdn_rev hostname) state in
    _ ← throw_if (bool_decide (duid = DUID_EMPTY) && negb (state =? STATE_DECLINED)) BadValue;
    _ ← readContext6 values;
    mret lease in
  match r with Ok l => Some l | Throw _ => None end.

(** ** Reading back what was written *)

(** What the file does not keep: the renewal timers, and of the hardware address the type
    or, if it is blank or too long, the whole address. *)
Definition persisted6 (l : Lease6) : Lease6 :=
  with_hwaddr6 (with_times6 l (preferred_lft_ l) (valid_lft6_ l) 0 0)
    (match hwaddr6_ l with
     | Some h => if bool_decide (hwaddr_bytes h = []) || (20 <? length (hwaddr_bytes h))%nat
                 then None
                 else Some {| hwaddr_bytes := hwaddr_bytes h; htype_ := HTYPE_ETHER |}
     | None => None
     end).

(** The leases that a file keeps: members of their widths, a DUID, which is the empty one
    only for declined leases, and a name without separators. *)
Record wf_lease6 (l : Lease6) : Prop := {
  wf_lease6_valid : 0 ≤ valid_lft6_ l < 2 ^ 32;
  wf_lease6_preferred : 0 ≤ preferred_lft_ l < 2 ^ 32;
  wf_lease6_cltt : 0 ≤ cltt6_ l;
  wf_lease6_subnet : 0 ≤ subnet_id6_ l < 2 ^ 32;
  wf_lease6_iaid : 0 ≤ iaid_ l < 2 ^ 32;
  wf_lease6_prefixlen : 0 ≤ prefixlen_ l < 2 ^ 8;
  wf_lease6_state : state6_ l = STATE_DEFAULT ∨ state6_ l = STATE_DECLINED ∨
                    state6_ l = STATE_EXPIRED_RECLAIMED;
  wf_lease6_duid : ∃ d, duid_ l = Some d ∧ (0 < length d ≤ MAX_DUID_LEN)%nat ∧
                   (d = DUID_EMPTY → state6_ l = STATE_DECLINED);
  wf_lease6_hostname : plain_text (hostname6_ l) = true
}.

Lemma mkDUID_Ok d : (0 < length d ≤ MAX_DUID_LEN)%nat → mkDUID d = Ok d.
Proof.
  intros Hd. unfold mkDUID. rewrite (proj2 (Nat.ltb_ge _ _)) by lia.
  rewrite bool_decide_eq_false_2; [done|]. intros ->. cbn in Hd. lia.
Qed.

Definition file_hwaddr (hwaddr : option HWAddr) : option HWAddr :=
  match hwaddr with
  | Some h => if bool_decide (hwaddr_bytes h = []) || (20 <? length (hwaddr_bytes h))%nat
              then None
              else Some {| hwaddr_bytes := hwaddr_bytes h; htype_ := HTYPE_ETHER |}
  | None => None
  end.
Lemma readHWAddr6_Ok row hw :
  col6_hwaddr row = match hw with Some h => hwaddr_bytes h | None => [] end →
  readHWAddr6 (render6 row) = file_hwaddr hw.
Proof.
  intros Erow. unfold readHWAddr6.
  assert (read6 value_hwaddr "hwaddr" (render6 row) = value_hwaddr (VBytes (col6_hwaddr row)))
    as -> by reflexivity.
  rewrite Erow. destruct hw as [h|]; [|done]. unfold value_hwaddr, file_hwaddr, MAX_HWADDR_LEN.
  cbn -[Nat.ltb]. destruct (20 <? _)%nat; cbn -[Nat.ltb]; [by rewrite orb_true_r|].
  by rewrite orb_false_r.
Qed.

Lemma append_next6 l r :
  wf_lease6 l → append_row6 l = Ok r →
  next6 r = if getExpirationTime6 l <? 2 ^ 32 then Some (persisted6 l) else None.
Proof.
  intros [Hv Hp Hc Hs Hi Hpl Hst (d & Ed & Hd & He) Hname] Hr. unfold append_row6 in Hr.
  rewrite Ed in Hr. injection Hr as <-. unfold next6. set (row := Build_CSVRow6 _ _ _ _ _ _ _ _ _ _ _ _ _ _).
  rewrite (parse_plain (render6 row)) by (repeat constructor; exact Hname).
  rewrite (readHWAddr6_Ok row (hwaddr6_ l)) by done.
  assert (readDUID (render6 row) = Ok d) as -> by (by apply (mkDUID_Ok d)).
  assert (readPrefixLen (render6 row) = Ok (prefixlen_ l)) as ->.
  { transitivity (value_int8 (VNumber (prefixlen_ l))); [reflexivity|]. unfold value_int8.
    rewrite (proj2 (Z.leb_le _ _)), (proj2 (Z.ltb_lt _ _)) by lia. cbn [andb].
    by rewrite Z.mod_small. }
  cbn -[Z.pow]. rewrite (read_uint32_Ok (iaid_ l)), (read_uint32_Ok (preferred_lft_ l)),
    (read_uint32_Ok (valid_lft6_ l)), (read_uint32_Ok (subnet_id6_ l)) by done. cbn -[Z.pow].
  unfold getExpirationTime6. set (e := cltt6_ l + valid_lft6_ l).
  destruct (Z.ltb_spec e (2 ^ 32)) as [Hexp|Hexp]; [|by rewrite (read_uint32_large e) by lia].
  rewrite (read_uint32_Ok e) by lia. cbn -[Z.pow]. rewrite (read_uint32_Ok (state6_ l))
    by (unfold STATE_DEFAULT, STATE_DECLINED, STATE_EXPIRED_RECLAIMED in *; lia).
  assert (bool_decide (d = DUID_EMPTY) && negb (state6_ l =? STATE_DECLINED) = false) as E.
  { case_bool_decide as Ee; [|done]. by rewrite (He Ee). }
  cbn -[Z.pow]. rewrite E. cbn -[Z.pow]. f_equal.
  unfold persisted6, with_state6, with_dns6, with_cltt6, with_hwaddr6, with_times6, u32.
  fold (file_hwaddr (hwaddr6_ l)). cbn. rewrite Ed.
  replace (e - valid_lft6_ l) with (cltt6_ l) by lia. by rewrite Z.mod_small by lia.
Qed.

(** An IPv6 lease written to the lease file is read back, without its renewal timers and
    hardware type, exactly when its expiration time fits in 32 bits. *)
Theorem csv6_roundtrip (l : Lease6) (Hwf : wf_lease6 l) :
  ∃ r, append_row6 l = Ok r ∧
    next6 r = if getExpirationTime6 l <? 2 ^ 32 then Some (persisted6 l) else None.
Proof.
  destruct (wf_lease6_duid l Hwf) as (d & Ed & _).
  assert (∃ r, append_row6 l = Ok r) as [r Hr] by (unfold append_row6; rewrite Ed; by eexists).
  exists r. split; [done|]. by apply append_next6.
Qed.

(** A lease of an address of 2001:db8::/64. *)
Definition sample_lease6 : Lease6 :=
  {| lease_type_ := TYPE_NA; addr6_ := V6 0x20010db8000000000000000000000010;
     prefixlen_ := 128; iaid_ := 7; duid_ := Some [0; 1; 2; 3]; preferred_lft_ := 3000;
     valid_lft6_ := 4000; t1_6_ := 0; t2_6_ := 0; cltt6_ := 1500000000; subnet_id6_ := 1;
     hostname6_ := ""; fqdn_fwd6_ := false; fqdn_rev6_ := false; hwaddr6_ := None;
     state6_ := STATE_DEFAULT |}.

Lemma sample_lease6_wf : wf_lease6 sample_lease6.
Proof.
  split; simpl; try lia; [|done]. exists [0; 1; 2; 3].
  split; [done|]. split; [unfold MAX_DUID_LEN; cbn; lia|done].
Qed.

Lemma csv6_roundtrip_witness :
  wf_lease6 sample_lease6 ∧
  ∃ r, append_row6 sample_lease6 = Ok r ∧ next6 r = Some (persisted6 sample_lease6).
Proof. split; [exact sample_lease6_wf|]. exact (csv6_roundtrip sample_lease6 sample_lease6_wf). Defined.
