(* ===== verification/MemfileLeaseMgr6.v ===== *)
(** * The in-memory database of IPv6 leases ([src/lib/dhcpsrv/memfile_lease_mgr.cc])

    The container and the lease file are those of [LeaseStorage], with the IPv6 leases and
    the rows of [CsvLeaseFile6]. *)

From S2P Require Import Prelude Algorithms IoAddress Pool Lease Lease6 LeaseMgr CsvLeaseFile4.
From S2P Require Import CsvLeaseFile6 LeaseStorage.
Local Open Scope Z_scope.

#[export] Instance lease6_stored : StoredLease Lease6 := {|
  rec_addr := addr6_;
  rec_reclaimed := stateExpiredReclaimed6;
  rec_expiration := getExpirationTime6;
  rec_valid := valid_lft6_;
  mark_removed l := with_times6 l (preferred_lft_ l) 0 (t1_6_ l) (t2_6_ l)
|}.
#[export] Instance lease_file6 : LeaseFile Lease6 CSVRow6 := {|
  file_append := append_row6;
  file_next := next6
|}.

(** What is read back from the file. *)
#[export] Instance lease_file6_laws : LeaseFileLaws Lease6 CSVRow6.
Proof.
  refine {| rec_persisted := persisted6;
            rec_readable l := wf_lease6 l ∧ getExpirationTime6 l < 2 ^ 32 |}; [done|done|].
  intros l r [? ?] Hr. cbn in Hr |- *. rewrite (append_next6 l r) by done.
  by rewrite (proj2 (Z.ltb_lt _ _)).
Defined.

Abbreviation Memfile6 S := (Memfile S CSVRow6).

Section Memfile6.
Context {S : Type} `{!LeaseStorage Lease6 S}.
Context (disk_ok : CSVRow6 → bool).

Definition memfile_getLease6 (type : LeaseType) (addr : IOAddress) (m : Memfile6 S) :
    option Lease6 :=
  match st_find addr (storage_ m) with
  | Some l => if bool_decide (lease_type_ l ≠ type) then None else Some l
  | None => None
  end.

Definition memfile_addLease6 (lease : Lease6) : ST (Memfile6 S) bool :=
  m ← get;
  match memfile_getLease6 (lease_type_ lease) (addr6_ lease) m with
  | Some _ => mret false
  | None => _ ← persist_insert disk_ok lease; mret true
  end.

(** [getLeases6(type, duid, iaid)]. *)
Definition getLeases6_client (type : LeaseType) (duid : list Z) (iaid : Z) (m : Memfile6 S) :
    list Lease6 :=
  st_range (λ l, bool_decide (getDuidVector l = duid) && (iaid_ l =? iaid)
                 && bool_decide (lease_type_ l = type)) (storage_ m).

(** [getLeases6(type, duid, iaid, subnet_id)]. *)
Definition getLeases6_client_subnet (type : LeaseType) (duid : list Z) (iaid subnet_id : Z)
    (m : Memfile6 S) : list Lease6 :=
  filter (λ l, subnet_id6_ l = subnet_id) (getLeases6_client type duid iaid m).

(** [getLeases6(subnet_id)], [getLeases6()], [getLeases6(duid)]. *)
Definition getLeases6_subnet (subnet_id : Z) (m : Memfile6 S) : list Lease6 :=
  st_range (λ l, subnet_id6_ l =? subnet_id) (storage_ m).
Definition getLeases6 (m : Memfile6 S) : list Lease6 := st_by_address (storage_ m).
Definition getLeases6_duid (duid : list Z) (m : Memfile6 S) : list Lease6 :=
  st_range (λ l, bool_decide (getDuidVector l = duid)) (storage_ m).

(** [getLeases6(lower_bound_address, page_size)]. *)
Definition getLeases6_page (lower_bound_address : IOAddress) (page_size : nat)
    (m : Memfile6 S) : res (list Lease6) :=
  _ ← throw_if (negb (isV6 lower_bound_address)) InvalidAddressFamily;
  mret (page lower_bound_address page_size m).

Definition getExpiredLeases6 (now : Z) (max_leases : nat) (m : Memfile6 S) : list Lease6 :=
  expired_range now max_leases m.

Definition memfile_updateLease6 (lease : Lease6) : ST (Memfile6 S) unit :=
  m ← get;
  match st_find (addr6_ lease) (storage_ (m : Memfile6 S)) with
  | None => throw NoSuchLease
  | Some _ => persist_replace disk_ok lease
  end.

(** [deleteLease], for an IPv6 address or prefix. *)
Definition memfile_deleteLease6 (addr : IOAddress) : ST (Memfile6 S) bool :=
  m ← get;
  match st_find addr (storage_ (m : Memfile6 S)) with
  | None => mret false
  | Some l => _ ← persist_erase disk_ok (with_times6 l 0 0 (t1_6_ l) (t2_6_ l)); mret true
  end.

Definition deleteExpiredReclaimedLeases6 (now secs : Z) : ST (Memfile6 S) nat :=
  deleteExpiredReclaimedLeases disk_ok now secs.
End Memfile6.

(** ** The database is a map from addresses to leases *)

Section Contents.
Context {S : Type} `{!LeaseStorage Lease6 S} `{!LeaseStorageLaws Lease6 S} (disk_ok : CSVRow6 → bool).

Lemma memfile_getLease6_eq type a (m : Memfile6 S) :
  memfile_getLease6 type a m =
    (l ← contents m !! a; if decide (lease_type_ l = type) then Some l else None).
Proof.
  unfold memfile_getLease6. rewrite st_find_leases. fold (contents m).
  destruct (contents m !! a) as [l|]; [|done]. cbn.
  case_bool_decide; by destruct (decide _).
Qed.

(** What [addLease] does; with a lease of another type at the address it only pretends. *)
Lemma memfile_addLease6_ok l (m : Memfile6 S) :
  outcome bool m (memfile_addLease6 disk_ok l m) (λ m' b,
    match contents m !! addr6_ l with
    | Some l0 => b = bool_decide (lease_type_ l0 ≠ lease_type_ l) ∧ contents m' = contents m
    | None => b = true ∧ contents m' = <[addr6_ l := l]> (contents m)
    end).
Proof.
  unfold memfile_addLease6, get. unfold mbind at 1, ST_bind at 1.
  rewrite memfile_getLease6_eq. destruct (contents m !! addr6_ l) as [l0|] eqn:E; cbn [mbind option_bind].
  - destruct (decide (lease_type_ l0 = lease_type_ l)).
    + split; [|done]. by rewrite bool_decide_eq_false_2 by auto.
    + apply (outcome_bind _ _ _ true); [|done].
      pose proof (persist_insert_taken disk_ok l m (mk_is_Some _ _ E)) as Hs. unfold outcome in *.
      destruct (persist_insert _ _ _) as [m' [u|e]]; [|done]. destruct Hs.
      by rewrite bool_decide_eq_true_2.
  - apply (outcome_bind _ _ _ true); [|done].
    pose proof (persist_insert_spec disk_ok l m E) as Hs. unfold outcome in *.
    destruct (persist_insert _ _ _) as [m' [u|e]]; [|done]. by destruct Hs.
Qed.

Lemma memfile_updateLease6_ok l (m : Memfile6 S) :
  match contents m !! addr6_ l with
  | Some _ => outcome unit m (memfile_updateLease6 disk_ok l m) (λ m' _,
                contents m' = <[addr6_ l := l]> (contents m))
  | None => memfile_updateLease6 disk_ok l m = (m, Throw NoSuchLease)
  end.
Proof.
  destruct (contents m !! addr6_ l) eqn:E; unfold memfile_updateLease6, get;
    unfold mbind at 1, ST_bind at 1; rewrite st_find_leases; fold (contents m); rewrite E;
    [|done]. exact (persist_replace_spec disk_ok l m (mk_is_Some _ _ E)).
Qed.

Lemma memfile_deleteLease6_ok a (m : Memfile6 S) :
  outcome bool m (memfile_deleteLease6 disk_ok a m) (λ m' b,
    contents m' = delete a (contents m) ∧ b = bool_decide (is_Some (contents m !! a))).
Proof.
  unfold memfile_deleteLease6, get. unfold mbind at 1, ST_bind at 1.
  rewrite st_find_leases. fold (contents m).
  destruct (contents m !! a) as [l|] eqn:E; [|by rewrite delete_id].
  apply (outcome_bind _ _ _ true); [|done]. set (l' := with_times6 _ _ _ _ _).
  pose proof (persist_erase_spec disk_ok l' m) as Hs. unfold outcome in *.
  destruct (persist_erase _ _ _) as [m' [u|e]]; [|done]. destruct Hs as [Hs Hp].
  change (rec_addr l') with (rec_addr l) in Hs.
  by rewrite (st_leases_addr _ _ _ E) in Hs.
Qed.

(** The in-memory database of IPv6 leases behaves as a map from addresses to leases, when
    no lease of another type is at the address of the lease added; when the lease file cannot
    be written an operation throws and neither memory nor file has changed. *)
Theorem memfile6_refines_map (m : Memfile6 S) (l : Lease6) (a : IOAddress)
    (Htype : ∀ l0, contents m !! addr6_ l = Some l0 → lease_type_ l0 = lease_type_ l) :
  memfile_getLease6 (lease_type_ l) (addr6_ l) m = contents m !! addr6_ l ∧
  outcome bool m (memfile_addLease6 disk_ok l m) (λ m' b,
    match contents m !! addr6_ l with
    | Some _ => b = false ∧ contents m' = contents m
    | None => b = true ∧ contents m' = <[addr6_ l := l]> (contents m)
    end) ∧
  match contents m !! addr6_ l with
  | Some _ => outcome unit m (memfile_updateLease6 disk_ok l m) (λ m' _,
                contents m' = <[addr6_ l := l]> (contents m))
  | None => memfile_updateLease6 disk_ok l m = (m, Throw NoSuchLease)
  end ∧
  outcome bool m (memfile_deleteLease6 disk_ok a m) (λ m' b,
    contents m' = delete a (contents m) ∧ b = bool_decide (is_Some (contents m !! a))).
Proof.
  split; [|split; [|split; [apply memfile_updateLease6_ok|apply memfile_deleteLease6_ok]]].
  - rewrite memfile_getLease6_eq. destruct (contents m !! addr6_ l) as [l0|]; [|done].
    cbn. by rewrite decide_True by auto.
  - pose proof (memfile_addLease6_ok l m) as Hadd. unfold outcome in *.
    destruct (memfile_addLease6 _ _ _) as [m' [b|e]]; [|done]. destruct Hadd as [Hadd ?].
    split; [|done]. destruct (contents m !! addr6_ l) as [l0|]; [|done].
    rewrite bool_decide_eq_false_2 in Hadd; [done|]. rewrite (Htype l0); auto.
Qed.

Lemma client_elem type duid iaid (m : Memfile6 S) l :
  l ∈ getLeases6_client type duid iaid m ↔
  contents m !! addr6_ l = Some l ∧ lease_type_ l = type ∧ getDuidVector l = duid ∧
  iaid_ l = iaid.
Proof.
  unfold getLeases6_client. rewrite range_elem, !andb_true_iff, !bool_decide_eq_true, Z.eqb_eq.
  change (rec_addr l) with (addr6_ l). unfold contents. tauto.
Qed.

(** [getLeases6] for a client: the leases of the database with the type, the DUID and the
    IAID, and in the second form those of one subnet. *)
Theorem getLeases6_client_spec (type : LeaseType) (duid : list Z) (iaid subnet_id : Z)
    (m : Memfile6 S) (l : Lease6) :
  (l ∈ getLeases6_client type duid iaid m ↔
     contents m !! addr6_ l = Some l ∧ lease_type_ l = type ∧ getDuidVector l = duid ∧
     iaid_ l = iaid) ∧
  (l ∈ getLeases6_client_subnet type duid iaid subnet_id m ↔
     l ∈ getLeases6_client type duid iaid m ∧ subnet_id6_ l = subnet_id).
Proof.
  split; [apply client_elem|]. unfold getLeases6_client_subnet. rewrite list_elem_of_filter. tauto.
Qed.

(** The IPv6 leases to reclaim. *)
Theorem getExpiredLeases6_spec (m : Memfile6 S) (now : Z) :
  (∀ l, l ∈ getExpiredLeases6 now 0 m ↔
     contents m !! addr6_ l = Some l ∧ stateExpiredReclaimed6 l = false ∧
     getExpirationTime6 l ≤ now) ∧
  StronglySorted exp_le (getExpiredLeases6 now 0 m) ∧
  ∀ k, (0 < k)%nat → getExpiredLeases6 now k m = take k (getExpiredLeases6 now 0 m).
Proof. exact (expired_range_ok m now). Qed.

(** [deleteExpiredReclaimedLeases6] removes exactly the reclaimed leases that expired at
    least [secs] seconds ago, or throws and removes none. *)
Theorem deleteExpiredReclaimedLeases6_spec (m : Memfile6 S) (now secs : Z)
    (Hbound : ∀ a l, contents m !! a = Some l → int64_min < getExpirationTime6 l)
    (Hnow : int64_min ≤ now - secs) :
  match deleteExpiredReclaimedLeases6 disk_ok now secs m with
  | (m', Ok _) => ∀ a, contents m' !! a =
      match contents m !! a with
      | Some l => if removable now secs l then None else Some l
      | None => None
      end
  | (m', Throw _) => contents m' = contents m
  end.
Proof. exact (deleteExpiredReclaimedLeases_ok disk_ok m now secs Hbound Hnow). Qed.

(** ** The lease file determines the leases *)

Lemma durable_removal6 (l : Lease6) pref :
  0 ≤ pref < 2 ^ 32 → durable l → removal (with_times6 l pref 0 (t1_6_ l) (t2_6_ l)).
Proof.
  intros Hpref [[[Hv Hp Hc Hs Hi Hpl Hst Hd Hname] Hexp] Hpos]. unfold getExpirationTime6 in Hexp.
  cbn [rec_valid lease6_stored] in Hpos.
  split; [|done]. split; [split; simpl; try done; lia|]. unfold getExpirationTime6. simpl. lia.
Qed.

(** The lease file of IPv6 leases is a journal of the database: if loading it gives the
    leases in memory, it still does after updating or removing a lease, and after adding one
    at an address that has no lease of another type. *)
Theorem journal6_preserved (m : Memfile6 S) (l : Lease6) (a : IOAddress)
    (Hj : journal m) (Hl : durable l)
    (Htype : ∀ l0, contents m !! addr6_ l = Some l0 → lease_type_ l0 = lease_type_ l) :
  journal (fst (memfile_addLease6 disk_ok l m)) ∧
  journal (fst (memfile_updateLease6 disk_ok l m)) ∧
  journal (fst (memfile_deleteLease6 disk_ok a m)).
Proof.
  assert (∀ (f : ST (Memfile6 S) unit) (b : bool), journal (fst (f m)) →
    journal (fst ((_ ← f; mret b) m))) as Hret
    by (intros f b; unfold mbind, ST_bind; destruct (f m) as [m' [u|e]]; done).
  split_and!.
  - unfold memfile_addLease6, get. unfold mbind at 1, ST_bind at 1.
    rewrite memfile_getLease6_eq. destruct (contents m !! addr6_ l) as [l0|] eqn:E.
    + cbn [mbind option_bind]. by rewrite decide_True by auto.
    + apply Hret. by apply journal_insert.
  - unfold memfile_updateLease6, get. unfold mbind at 1, ST_bind at 1.
    rewrite st_find_leases. destruct (st_leases (storage_ m) !! addr6_ l) eqn:E; [|done].
    apply journal_replace; [done|done|]. by eexists.
  - unfold memfile_deleteLease6, get. unfold mbind at 1, ST_bind at 1.
    rewrite st_find_leases. destruct (st_leases (storage_ m) !! a) as [l'|] eqn:E; [|done].
    apply Hret. apply journal_erase; [done|]. apply durable_removal6; [lia|].
    by apply (proj1 (proj2 Hj) a).
Qed.
End Contents.

(** ** The in-memory database implements the interface of lease databases *)

#[export] Instance memfile_lease_mgr6 {S} `{!LeaseStorage Lease6 S} (disk_ok : CSVRow6 → bool) :
    LeaseMgr6 (Memfile6 S) := {|
  lm6_addLease := memfile_addLease6 disk_ok;
  lm6_getLease6 := memfile_getLease6;
  lm6_getLeases6 := getLeases6_client;
  lm6_getLeases6_subnet := getLeases6_client_subnet;
  lm6_getExpiredLeases6 now k m := Ok (getExpiredLeases6 now k m);
  lm6_updateLease6 := memfile_updateLease6 disk_ok;
  lm6_deleteLease := memfile_deleteLease6 disk_ok;
  lm6_deleteExpiredReclaimedLeases6 := deleteExpiredReclaimedLeases6 disk_ok
|}.

Section Interface.
Context {S : Type} `{!LeaseStorage Lease6 S} `{!LeaseStorageLaws Lease6 S} (disk_ok : CSVRow6 → bool).

Lemma persist_exn l (m : Memfile6 S) : (persist disk_ok l m).2 ≠ Throw OutOfFuel.
Proof.
  destruct (persist_cases disk_ok l m) as [(rows & -> & _)|(e & -> & _ & [Ha| ->])]; [done| |done].
  cbn in Ha |- *. unfold append_row6 in Ha. destruct (duid_ l); [done|]. by injection Ha as <-.
Qed.

(** An outcome that says what becomes of the contents, as a triple. *)
Lemma outcome_wp {A} (m : Memfile6 S) (f : ST (Memfile6 S) A) (P : Memfile6 S → A → Prop) :
  (f m).2 ≠ Throw OutOfFuel → outcome A m (f m) P →
  wp f m (λ a m', P m' a) (λ e m', e ≠ OutOfFuel ∧ contents m' = contents m).
Proof.
  unfold wp, outcome. destruct (f m) as [m' [a|e]]; [by intros _ []|].
  cbn. intros He [-> _]. split; [congruence|done].
Qed.

Lemma persist_then_exn {A} l g (m : Memfile6 S) (a : A) :
  ((_ ← (_ ← persist disk_ok l; modify g); mret a) m).2 ≠ Throw OutOfFuel.
Proof.
  unfold mbind, ST_bind. pose proof (persist_exn l m) as He.
  destruct (persist disk_ok l m) as [m' [u|e]]; unfold modify; cbn in *; congruence.
Qed.

#[export] Instance memfile_lease_mgr6_laws :
  @LeaseMgr6Laws (Memfile6 S) (memfile_lease_mgr6 disk_ok).
Proof using All.
  refine {| lm6_leases := contents |}; cbn [lm6_addLease lm6_getLease6 lm6_getLeases6
    lm6_getLeases6_subnet lm6_getExpiredLeases6 lm6_updateLease6 lm6_deleteLease
    memfile_lease_mgr6].
  - intros m a l Hl. exact (st_leases_addr _ _ _ Hl).
  - intros t a m. apply memfile_getLease6_eq.
  - intros t duid iaid m l. apply client_elem.
  - intros t duid iaid sid m l. apply (getLeases6_client_spec t duid iaid sid m l).
  - intros now m all [= <-]. exact (proj1 (expired_range_ok m now)).
  - intros now m all [= <-]. exact (expired_nodup now m).
  - intros now k m Hk. cbn. f_equal. exact (proj2 (proj2 (expired_range_ok m now)) k Hk).
  - intros l m. eapply wp_mono; [apply outcome_wp; [|apply memfile_addLease6_ok]| |done].
    + unfold memfile_addLease6, get. unfold mbind at 1, ST_bind at 1.
      destruct (memfile_getLease6 _ _ m); [done|apply persist_then_exn].
    + intros b m'. destruct (contents m !! addr6_ l) as [l0|]; [|done].
      intros [-> Em]. split; [|done]. intros Et. apply bool_decide_eq_false_2. auto.
  - intros l m. pose proof (memfile_updateLease6_ok disk_ok l m) as Hup.
    destruct (contents m !! addr6_ l) as [l0|].
    + eapply wp_mono; [apply outcome_wp; [|exact Hup]| |done]; [|by intros [] m'; eauto].
      unfold memfile_updateLease6, get. unfold mbind at 1, ST_bind at 1.
      destruct (st_find _ _); [|done]. unfold persist_replace, mbind, ST_bind.
      pose proof (persist_exn l m).
      destruct (persist disk_ok l m) as [m' [u|e]]; unfold modify; cbn in *; congruence.
    + unfold wp. by rewrite Hup.
  - intros a m. eapply wp_mono; [apply outcome_wp; [|apply memfile_deleteLease6_ok]| |done].
    + unfold memfile_deleteLease6, get. unfold mbind at 1, ST_bind at 1.
      destruct (st_find _ _); [apply persist_then_exn|done].
    + by intros b m' [-> ->].
Defined.
End Interface.

(** ** The theorems at a concrete database *)

Export LeaseStorage.ListContainer.
Abbreviation ListStorage6 := (ListStorage Lease6).

Definition empty_memfile6 : Memfile6 ListStorage6 :=
  {| storage_ := st_empty; lease_file_ := []; persistLeases := true |}.
Lemma empty_memfile6_contents a : contents empty_memfile6 !! a = None.
Proof. apply lookup_empty. Qed.
Definition sample_memfile6 : Memfile6 ListStorage6 :=
  fst (memfile_addLease6 (λ _, true) sample_lease6 empty_memfile6).

Lemma memfile6_refines_map_witness :
  memfile_getLease6 TYPE_NA (addr6_ sample_lease6) sample_memfile6 = Some sample_lease6.
Proof.
  refine (proj1 (memfile6_refines_map (λ _, true) sample_memfile6 sample_lease6
    (addr6_ sample_lease6) _)).
  intros l0 Hl0. assert (contents sample_memfile6 !! addr6_ sample_lease6 = Some sample_lease6) as E
    by (vm_compute; reflexivity).
  rewrite E in Hl0. injection Hl0 as <-. reflexivity.
Defined.

Lemma deleteExpiredReclaimedLeases6_spec_witness :
  match deleteExpiredReclaimedLeases6 (λ _, true) 1600000000 10 empty_memfile6 with
  | (m', Ok _) => contents m' !! addr6_ sample_lease6 = None
  | (m', Throw _) => False
  end.
Proof.
  pose proof (deleteExpiredReclaimedLeases6_spec (λ _, true) empty_memfile6 1600000000 10
    ltac:(intros a l Hl; by rewrite empty_memfile6_contents in Hl) ltac:(unfold int64_min; lia)) as H.
  assert (∃ m', deleteExpiredReclaimedLeases6 (λ _, true) 1600000000 10 empty_memfile6
    = (m', Ok 0%nat)) as [m' E] by (vm_compute; by eexists).
  rewrite E in *. rewrite H. vm_compute. reflexivity.
Defined.

Lemma sample_lease6_durable : durable sample_lease6.
Proof. split; [split; [exact sample_lease6_wf|]|]; vm_compute; reflexivity. Qed.

Lemma journal6_preserved_witness :
  journal empty_memfile6 ∧ durable sample_lease6 ∧
  journal (fst (memfile_addLease6 (λ _, true) sample_lease6 empty_memfile6)).
Proof.
  assert (journal empty_memfile6) as Hj.
  { split; [done|]. split; [apply map_Forall_empty|vm_compute; reflexivity]. }
  pose proof sample_lease6_durable as Hd. split; [exact Hj|]. split; [exact Hd|].
  refine (proj1 (journal6_preserved (λ _, true) empty_memfile6 sample_lease6
    (addr6_ sample_lease6) Hj Hd _)).
  intros l0 Hl0. by rewrite empty_memfile6_contents in Hl0.
Defined.

(** A prefix at the address of a lease: the database says it has been added, writes it to
    the file, and does not keep it; after a restart it has replaced the other lease. *)
Definition sample_prefix6 : Lease6 :=
  {| lease_type_ := TYPE_PD; addr6_ := addr6_ sample_lease6; prefixlen_ := 64; iaid_ := 8;
     duid_ := Some [9; 9; 9]; preferred_lft_ := 3000; valid_lft6_ := 4000; t1_6_ := 0;
     t2_6_ := 0; cltt6_ := 1500000000; subnet_id6_ := 1; hostname6_ := ""; fqdn_fwd6_ := false;
     fqdn_rev6_ := false; hwaddr6_ := None; state6_ := STATE_DEFAULT |}.

Theorem addLease_of_other_type_is_lost :
  ∃ m', memfile_addLease6 (λ _, true) sample_prefix6 sample_memfile6 = (m', Ok true) ∧
    contents m' !! addr6_ sample_lease6 = Some sample_lease6 ∧
    st_leases (load (S:=ListStorage6) Some (lease_file_ m')) !! addr6_ sample_lease6
      = Some sample_prefix6.
Proof. eexists. split; [vm_compute; reflexivity|]. split; vm_compute; reflexivity. Qed.
