(* ===== verification/Lfc.v ===== *)
(** * The cleanup of lease files ([src/bin/lfc/lfc_controller.cc],
      [src/lib/dhcpsrv/memfile_lease_mgr.cc], [lease_file_loader.h])

    The server appends every change of a lease to its lease file.  From time to time it
    moves the file aside and starts a process, kea-lfc, that replaces the old files by one
    with a row for each lease; the process can fail or be killed at any point, and the
    server goes on meanwhile.  A server that starts loads what it finds.

    [LeaseStorage] models the lease file as one list that only grows.  This file models
    the files as they are, the steps of kea-lfc, of which each can fail, and the events of the
    two processes in any order, and shows that files whose rows can be read back load like that
    list.  A row is written at once or not at all; the versions of the format and the sanity
    checks of the leases that are loaded ([sanity_checker.cc], a parameter of the loader) are
    left out. *)

From S2P Require Import Prelude Algorithms IoAddress Pool Lease Lease6 LeaseStorage.
From S2P Require Import CsvLeaseFile4 MemfileLeaseMgr CsvLeaseFile6 MemfileLeaseMgr6.
Local Open Scope Z_scope.

(** [<name>.2], [<name>.1], [<name>.output], [<name>.completed] and [<name>]: the rows of
    the files that exist. *)
Record LeaseFiles (R : Type) := {
  previous_file : option (list R);
  copy_file : option (list R);
  output_file : option (list R);
  finish_file : option (list R);
  current_file : option (list R)
}.
Arguments previous_file {R}.
Arguments copy_file {R}.
Arguments output_file {R}.
Arguments finish_file {R}.
Arguments current_file {R}.

(** [MAX_LEASE_ERRORS], of the server and of kea-lfc. *)
Definition MAX_LEASE_ERRORS : nat := 100.

(** Where kea-lfc is; [todo] are the leases that it has not written yet. *)
Inductive LfcStep (L : Type) :=
  | LfcStart
  | LfcWrite (todo : list L)
  | LfcRename
  | LfcRemovePrevious
  | LfcRemoveCopy
  | LfcRotate
  | LfcDone.
Arguments LfcStart {L}.
Arguments LfcWrite {L} todo.
Arguments LfcRename {L}.
Arguments LfcRemovePrevious {L}.
Arguments LfcRemoveCopy {L}.
Arguments LfcRotate {L}.
Arguments LfcDone {L}.

Section Lfc.
Context {L S R : Type} `{StoredLease L} `{LeaseFile L R} `{LeaseStorage L S}.
#[local] Abbreviation Files := (LeaseFiles R).

(** [LeaseFileLoader::load] into a container, counting the rows that cannot be read. *)
Fixpoint load_rows (check : L → option L) (max_errors errcnt : nat) (rows : list R) (s : S) :
    res S :=
  match rows with
  | [] => mret s
  | row :: rows' =>
      match file_next row with
      | None =>
          if (max_errors <? Datatypes.S errcnt)%nat then Throw CSVFileError
          else load_rows check max_errors (Datatypes.S errcnt) rows' s
      | Some _ => load_rows check max_errors errcnt rows' (load_row check s row)
      end
  end.

(** Loading a file if it exists. *)
Definition load_file (check : L → option L) (file : option (list R)) (s : S) : res S :=
  match file with
  | None => mret s
  | Some rows => load_rows check MAX_LEASE_ERRORS 0 rows s
  end.

(** [Memfile_LeaseMgr::loadLeasesFromFiles]: [lfc_running] is the check of the PID file. *)
Definition loadLeasesFromFiles (check : L → option L) (lfc_running : bool) (fs : Files) : res S :=
  _ ← throw_if lfc_running DbOpenError;
  s ← match finish_file fs with
      | Some rows => load_file check (Some rows) st_empty
      | None => s ← load_file check (previous_file fs) st_empty;
                load_file check (copy_file fs) s
      end;
  load_file check (current_file fs) s.

(** ** kea-lfc *)

Definition set_previous (x : option (list R)) (fs : Files) : Files :=
  {| previous_file := x; copy_file := copy_file fs; output_file := output_file fs;
     finish_file := finish_file fs; current_file := current_file fs |}.
Definition set_copy (x : option (list R)) (fs : Files) : Files :=
  {| previous_file := previous_file fs; copy_file := x; output_file := output_file fs;
     finish_file := finish_file fs; current_file := current_file fs |}.
Definition set_output (x : option (list R)) (fs : Files) : Files :=
  {| previous_file := previous_file fs; copy_file := copy_file fs; output_file := x;
     finish_file := finish_file fs; current_file := current_file fs |}.
Definition set_finish (x : option (list R)) (fs : Files) : Files :=
  {| previous_file := previous_file fs; copy_file := copy_file fs;
     output_file := output_file fs; finish_file := x; current_file := current_file fs |}.
Definition set_current (x : option (list R)) (fs : Files) : Files :=
  {| previous_file := previous_file fs; copy_file := copy_file fs;
     output_file := output_file fs; finish_file := finish_file fs; current_file := x |}.

(** The leases that [processLeases] writes.  kea-lfc has no configuration, so that it does
    not check the leases. *)
Definition processLeases_read (fs : Files) : res S :=
  s ← load_file Some (previous_file fs) st_empty;
  load_file Some (copy_file fs) s.

(** One step of [launch]: what comes next, and the files.  [ok] is whether the operating
    system carries the step out.  The output file is opened where it is and appended to. *)
Definition lfc_step (ok : bool) (step : LfcStep L) (fs : Files) : LfcStep L * Files :=
  match step with
  | LfcStart =>
      match finish_file fs with
      | Some _ => (LfcRemovePrevious, fs)
      | None =>
          match processLeases_read fs with
          | Ok s => if ok then (LfcWrite (st_by_address s),
                                set_output (Some (default [] (output_file fs))) fs)
                    else (LfcDone, fs)
          | Throw _ => (LfcDone, fs)
          end
      end
  | LfcWrite [] => (LfcRename, fs)
  | LfcWrite (lease :: todo) =>
      match file_append lease with
      | Ok row => if ok then (LfcWrite todo,
                              set_output (Some (default [] (output_file fs) ++ [row])) fs)
                  else (LfcDone, fs)
      | Throw _ => (LfcDone, fs)
      end
  | LfcRename =>
      match ok, output_file fs with
      | true, Some rows => (LfcRemovePrevious, set_output None (set_finish (Some rows) fs))
      | _, _ => (LfcDone, fs)
      end
  | LfcRemovePrevious => if ok then (LfcRemoveCopy, set_previous None fs) else (LfcDone, fs)
  | LfcRemoveCopy => if ok then (LfcRotate, set_copy None fs) else (LfcDone, fs)
  | LfcRotate =>
      match ok, finish_file fs with
      | true, Some rows => (LfcDone, set_previous (Some rows) (set_finish None fs))
      | _, _ => (LfcDone, fs)
      end
  | LfcDone => (LfcDone, fs)
  end.

(** ** The server *)

(** [Memfile_LeaseMgr::lfcExecute]: whether kea-lfc is started, whether the server still
    writes its file, and the files. *)
Definition lfcExecute (rename_ok reopen_ok : bool) (fs : Files) : bool * bool * Files :=
  match finish_file fs, copy_file fs with
  | None, None =>
      let '(do_lfc, fs) :=
        match rename_ok, current_file fs with
        | true, Some rows => (true, set_current None (set_copy (Some rows) fs))
        | _, _ => (false, fs)
        end in
      if reopen_ok then (do_lfc, true, set_current (Some (default [] (current_file fs))) fs)
      else (false, false, fs)
  | _, _ => (true, true, fs)
  end.

(** The server and kea-lfc.  [spawning] is whether the server is about to start kea-lfc and
    [history] what a single lease file would have. *)
Record System := {
  files : Files;
  lfc : option (LfcStep L);
  writing : bool;
  spawning : bool;
  history : list R
}.

Inductive Event :=
  | EvAppend (row : R)
  | EvRotate (rename_ok reopen_ok : bool)
  | EvSpawn
  | EvLfc (ok : bool)
  | EvKillLfc
  | EvRestart.

Definition step (ev : Event) (sys : System) : System :=
  match ev with
  | EvAppend row =>
      match writing sys, current_file (files sys) with
      | true, Some rows =>
          {| files := set_current (Some (rows ++ [row])) (files sys); lfc := lfc sys;
             writing := true; spawning := spawning sys; history := history sys ++ [row] |}
      | _, _ => sys
      end
  | EvRotate rename_ok reopen_ok =>
      if writing sys then
        let '(do_lfc, writing', fs) := lfcExecute rename_ok reopen_ok (files sys) in
        {| files := fs; lfc := lfc sys; writing := writing'; spawning := do_lfc;
           history := history sys |}
      else sys
  | EvSpawn =>
      (* A process that finds another one running ends at once. *)
      if spawning sys then
        {| files := files sys;
           lfc := match lfc sys with None => Some LfcStart | Some step => Some step end;
           writing := writing sys; spawning := false; history := history sys |}
      else sys
  | EvLfc ok =>
      match lfc sys with
      | None => sys
      | Some step =>
          let '(step', fs) := lfc_step ok step (files sys) in
          {| files := fs; lfc := match step' with LfcDone => None | _ => Some step' end;
             writing := writing sys; spawning := spawning sys; history := history sys |}
      end
  | EvKillLfc =>
      {| files := files sys; lfc := None; writing := writing sys; spawning := spawning sys;
         history := history sys |}
  | EvRestart =>
      (* Loading the leases creates the lease file if need be. *)
      match lfc sys with
      | Some _ => sys
      | None =>
          {| files := set_current (Some (default [] (current_file (files sys)))) (files sys);
             lfc := None; writing := true; spawning := false; history := history sys |}
      end
  end.

Definition run (evs : list Event) (sys : System) : System := foldl (λ s e, step e s) sys evs.

(** A server that starts without any file. *)
Definition no_files : System :=
  {| files := {| previous_file := None; copy_file := None; output_file := None;
                 finish_file := None; current_file := Some [] |};
     lfc := None; writing := true; spawning := false; history := [] |}.
End Lfc.

(** ** What the rows of files stand for *)

(** A lease that was read from a file can be written and read again as it is. *)
Class LeaseFileRewrite (L R : Type) `{LeaseFileLaws L R} : Prop := {
  rewrite_readable : ∀ l, rec_readable l → rec_readable (rec_persisted l);
  rewrite_persisted : ∀ l, rec_readable l → rec_persisted (rec_persisted l) = rec_persisted l;
  rewrite_append : ∀ l, rec_readable l → ∃ r, file_append (rec_persisted l) = Ok r
}.

Section Rows.
Context {L S R : Type} `{LeaseStorageLaws L S} `{!LeaseFile L R} `{!LeaseFileLaws L R}.
Context `{!LeaseFileRewrite L R}.
#[local] Abbreviation Leases := (gmap IOAddress L).

(** The row of a lease that the file keeps. *)
Definition good_row (r : R) : Prop :=
  ∃ l, rec_readable l ∧ 0 ≤ rec_valid l ∧ file_append l = Ok r.

(** What reading a row does to the leases. *)
Definition apply_row (m : Leases) (r : R) : Leases :=
  match file_next r with
  | None => m
  | Some l =>
      match m !! rec_addr l with
      | None => if 0 <? rec_valid l then <[rec_addr l := l]> m else m
      | Some _ => if rec_valid l =? 0 then delete (rec_addr l) m else <[rec_addr l := l]> m
      end
  end.
Definition view (rows : list R) (m : Leases) : Leases := foldl apply_row m rows.

Lemma view_app rows rows' m : view (rows ++ rows') m = view rows' (view rows m).
Proof. apply foldl_app. Qed.

Lemma load_row_apply (s : S) r : st_leases (load_row Some s r) = apply_row (st_leases s) r.
Proof.
  unfold load_row, apply_row. destruct (file_next r) as [l|]; [|done]. rewrite st_find_leases.
  destruct (st_leases s !! rec_addr l) as [l'|] eqn:E.
  - destruct (rec_valid l =? 0); [apply st_erase_leases|]. apply st_replace_leases. by exists l'.
  - destruct (0 <? rec_valid l); [|done]. by apply st_insert_leases.
Qed.

Lemma load_view rows : st_leases (load (S:=S) Some rows) = view rows ∅.
Proof.
  unfold load, view. rewrite <- st_empty_leases. generalize (st_empty : S).
  induction rows as [|r rows IH]; intros s; [done|]. cbn. by rewrite IH, load_row_apply.
Qed.

(** A lease in the form in which it is read. *)
Definition settled (l : L) : Prop :=
  rec_readable l ∧ rec_persisted l = l ∧ ∃ r, file_append l = Ok r.

Lemma good_row_next r :
  good_row r → ∃ l, file_next r = Some l ∧ settled l ∧ 0 ≤ rec_valid l.
Proof using All.
  intros (l & Hl & Hv & Hr). exists (rec_persisted l). split; [by apply append_next_readable|].
  split; [|by rewrite persisted_valid].
  split; [by apply rewrite_readable|]. split; [by apply rewrite_persisted|by apply rewrite_append].
Qed.

Lemma settled_append l :
  settled l → 0 ≤ rec_valid l →
  ∃ r, file_append l = Ok r ∧ file_next r = Some l ∧ good_row r.
Proof.
  intros (Hl & E & r & Hr) Hv. exists r. split; [done|]. split; [|by exists l].
  rewrite (append_next_readable l r Hl Hr). by rewrite E.
Qed.

Lemma load_rows_good max errcnt rows : ∀ s : S,
  Forall good_row rows →
  ∃ s', load_rows Some max errcnt rows s = Ok s' ∧ st_leases s' = view rows (st_leases s).
Proof using All.
  induction rows as [|r rows IH]; intros s Hg; [by exists s|].
  apply Forall_cons in Hg as [Hr Hg]. destruct (good_row_next r Hr) as (l & Hl & _).
  cbn. rewrite Hl. destruct (IH (load_row Some s r) Hg) as (s' & E1 & E2).
  exists s'. split; [done|]. by rewrite E2, load_row_apply.
Qed.

(** The leases of good rows are settled and have not been removed. *)
Definition proper (m : Leases) : Prop :=
  map_Forall (λ a l, rec_addr l = a ∧ settled l ∧ 0 < rec_valid l) m.

Lemma apply_row_proper m r : good_row r → proper m → proper (apply_row m r).
Proof using All.
  intros Hr Hm. destruct (good_row_next r Hr) as (l & Hl & Hs & Hv).
  unfold apply_row. rewrite Hl. destruct (m !! rec_addr l).
  - destruct (rec_valid l =? 0) eqn:E; [by apply map_Forall_delete|].
    apply map_Forall_insert_2; [|done]. apply Z.eqb_neq in E. split_and!; [done|done|lia].
  - destruct (0 <? rec_valid l) eqn:E; [|done].
    apply map_Forall_insert_2; [|done]. apply Z.ltb_lt in E. done.
Qed.

Lemma view_proper rows : ∀ m, Forall good_row rows → proper m → proper (view rows m).
Proof using All.
  induction rows as [|r rows IH]; intros m Hg Hm; [done|].
  apply Forall_cons in Hg as [Hr Hg]. apply IH; [done|]. by apply apply_row_proper.
Qed.

(** Every row is that of a lease of [T]. *)
Definition sound (T : Leases) (rows : list R) : Prop :=
  Forall (λ r, good_row r ∧ ∃ l, file_next r = Some l ∧ T !! rec_addr l = Some l) rows.
(** Every lease of [T] has a row or is still to be written. *)
Definition complete (T : Leases) (rows : list R) (todo : list L) : Prop :=
  ∀ a l, T !! a = Some l → (∃ r, r ∈ rows ∧ file_next r = Some l) ∨ l ∈ todo.

Lemma sound_good T rows : sound T rows → Forall good_row rows.
Proof. intros Hs. eapply Forall_impl; [exact Hs|]. by intros r [? _]. Qed.

Lemma view_sound T rows : ∀ m,
  proper T → m ⊆ T → sound T rows →
  view rows m ⊆ T ∧ m ⊆ view rows m ∧
  ∀ r l, r ∈ rows → file_next r = Some l → view rows m !! rec_addr l = Some l.
Proof.
  induction rows as [|r rows IH]; intros m HT Hm Hs.
  { split_and!; [done|done|]. by intros r l ?%not_elem_of_nil. }
  apply Forall_cons in Hs as [(Hr & l & Hl & Tl) Hs].
  assert (apply_row m r = <[rec_addr l := l]> m) as E.
  { unfold apply_row. rewrite Hl. destruct (HT _ _ Tl) as (_ & _ & Hv).
    rewrite (proj2 (Z.eqb_neq _ _)), (proj2 (Z.ltb_lt _ _)) by lia.
    by destruct (m !! rec_addr l). }
  assert (<[rec_addr l := l]> m ⊆ T) as Hm'.
  { apply map_subseteq_spec. intros a x Hx. apply lookup_insert_Some in Hx as [[<- <-]|[_ Hx]];
      [done|]. by eapply lookup_weaken. }
  assert (m ⊆ <[rec_addr l := l]> m) as Hmm.
  { apply map_subseteq_spec. intros a x Hx. destruct (decide (a = rec_addr l)) as [->|];
      [|by rewrite lookup_insert_ne]. rewrite lookup_insert_eq.
    pose proof (lookup_weaken _ _ _ _ Hx Hm). congruence. }
  cbn [view foldl]. fold (view rows (apply_row m r)). rewrite E.
  destruct (IH _ HT Hm' Hs) as (I1 & I2 & I3). split_and!; [done|by etrans|].
  intros r' l' [->|Hr']%elem_of_cons Hl'; [|by eapply I3].
  assert (l' = l) as -> by congruence. eapply lookup_weaken; [|exact I2]. apply lookup_insert_eq.
Qed.

Lemma view_complete T rows : proper T → sound T rows → complete T rows [] → view rows ∅ = T.
Proof.
  intros HT Hs Hc. destruct (view_sound T rows ∅ HT (map_empty_subseteq T) Hs) as (Hsub & _ & Hin).
  apply (anti_symm (⊆)); [done|]. apply map_subseteq_spec. intros a l Hl.
  destruct (Hc a l Hl) as [(r & Hr & Hn)|[]%not_elem_of_nil].
  rewrite <- (proj1 (HT a l Hl)). by eapply Hin.
Qed.
End Rows.

(** ** The invariant of the two processes *)

Section Invariant.
Context {L S R : Type} `{LeaseStorageLaws L S} `{!LeaseFile L R} `{!LeaseFileLaws L R}.
Context `{!LeaseFileRewrite L R}.
#[local] Abbreviation Leases := (gmap IOAddress L).
#[local] Abbreviation Files := (LeaseFiles R).
#[local] Abbreviation System := (System (L:=L) (R:=R)).

Definition rows_of (file : option (list R)) : list R := default [] file.

(** The old leases: those of the files that kea-lfc reads. *)
Definition old_leases (fs : Files) : Leases :=
  view (rows_of (copy_file fs)) (view (rows_of (previous_file fs)) ∅).

Definition good_files (fs : Files) : Prop :=
  Forall good_row (rows_of (previous_file fs)) ∧ Forall good_row (rows_of (copy_file fs)) ∧
  Forall good_row (rows_of (finish_file fs)) ∧ Forall good_row (rows_of (current_file fs)).

(** The leases that a server loads. *)
Definition visible (fs : Files) : Leases :=
  view (rows_of (current_file fs))
    match finish_file fs with Some rows => view rows ∅ | None => old_leases fs end.

(** What is known of the output file while kea-lfc has not finished it: it has rows of
    the old leases only, and as long as it exists the copy does. *)
Definition output_ok (fs : Files) : Prop :=
  match output_file fs with
  | Some rows => finish_file fs = None ∧ copy_file fs ≠ None ∧ sound (old_leases fs) rows
  | None => True
  end.

Definition step_ok (s : LfcStep L) (fs : Files) : Prop :=
  match s with
  | LfcStart => finish_file fs = None → copy_file fs ≠ None
  | LfcWrite todo =>
      ∃ rows, output_file fs = Some rows ∧ complete (old_leases fs) rows todo ∧
        Forall (λ l, old_leases fs !! rec_addr l = Some l) todo
  | LfcRename => ∃ rows, output_file fs = Some rows ∧ complete (old_leases fs) rows []
  | LfcRemovePrevious | LfcRemoveCopy => finish_file fs ≠ None
  | LfcRotate => finish_file fs ≠ None ∧ copy_file fs = None
  | LfcDone => True
  end.

Record invariant (sys : System) : Prop := {
  inv_good : good_files (files sys);
  inv_output : output_ok (files sys);
  inv_step : from_option (λ s, step_ok s (files sys)) True (lfc sys);
  inv_visible : visible (files sys) = view (history sys) ∅
}.

Lemma old_leases_proper fs : good_files fs → proper (old_leases fs).
Proof using All.
  intros (H1' & H2' & _). unfold old_leases. apply view_proper; [done|].
  apply view_proper; [done|]. apply map_Forall_empty.
Qed.

Lemma load_file_good file (s : S) :
  Forall good_row (rows_of file) →
  ∃ s', load_file Some file s = Ok s' ∧ st_leases s' = view (rows_of file) (st_leases s).
Proof using All. destruct file as [rows|]; [apply load_rows_good|by exists s]. Qed.

Lemma processLeases_good fs :
  good_files fs →
  ∃ s : S, processLeases_read fs = Ok s ∧ st_leases s = old_leases fs.
Proof using All.
  intros (G1 & G2 & _). unfold processLeases_read, old_leases.
  destruct (load_file_good (previous_file fs) st_empty G1) as (s1 & -> & E1). cbn [mbind res_bind].
  destruct (load_file_good (copy_file fs) s1 G2) as (s2 & -> & E2). exists s2. split; [done|].
  by rewrite E2, E1, st_empty_leases.
Qed.

(** Loading what there is gives the leases that are visible. *)
Lemma loadLeases_good fs :
  good_files fs →
  ∃ s : S, loadLeasesFromFiles Some false fs = Ok s ∧ st_leases s = visible fs.
Proof using All.
  intros G. pose proof G as (G1 & G2 & G3 & G4). unfold loadLeasesFromFiles, visible.
  cbn [throw_if mbind res_bind].
  assert (∃ s : S, match finish_file fs with
    | Some rows => load_file Some (Some rows) st_empty
    | None => s ← load_file Some (previous_file fs) st_empty; load_file Some (copy_file fs) s
    end = Ok s ∧ st_leases s =
      match finish_file fs with Some rows => view rows ∅ | None => old_leases fs end)
    as (s1 & -> & E1).
  { destruct (finish_file fs) as [rows|].
    - destruct (load_file_good (Some rows) st_empty G3) as (s1 & -> & E1). exists s1.
      split; [done|]. by rewrite E1, st_empty_leases.
    - exact (processLeases_good fs G). }
  cbn [mbind res_bind]. destruct (load_file_good (current_file fs) s1 G4) as (s2 & -> & E2).
  exists s2. split; [done|]. by rewrite E2, E1.
Qed.

(** Only the current file has changed. *)
Definition same_old (fs fs' : Files) : Prop :=
  previous_file fs' = previous_file fs ∧ copy_file fs' = copy_file fs ∧
  output_file fs' = output_file fs ∧ finish_file fs' = finish_file fs.

Lemma same_old_ok fs fs' :
  same_old fs fs' → old_leases fs' = old_leases fs ∧ (output_ok fs → output_ok fs') ∧
  ∀ s, step_ok s fs → step_ok s fs'.
Proof.
  intros (E1 & E2 & E3 & E4). assert (old_leases fs' = old_leases fs) as E.
  { unfold old_leases. by rewrite E1, E2. }
  split; [done|]. unfold output_ok. rewrite E2, E3, E4, E. split; [done|].
  intros s. unfold step_ok. rewrite E2, E3, E4, E. done.
Qed.

(** What a step of kea-lfc keeps. *)
Definition kept (fs : Files) (r : LfcStep L * Files) : Prop :=
  good_files (snd r) ∧ output_ok (snd r) ∧ step_ok (fst r) (snd r) ∧ visible (snd r) = visible fs.

Lemma kept_done fs : good_files fs → output_ok fs → kept fs (LfcDone, fs).
Proof. done. Qed.

(** kea-lfc opens the output file and has all the old leases to write. *)
Lemma kept_start ok fs :
  good_files fs → output_ok fs → step_ok LfcStart fs → kept fs (lfc_step (S:=S) ok LfcStart fs).
Proof using All.
  intros G O Hs. cbn. destruct (finish_file fs) as [f|] eqn:Ef.
  { split_and!; [done|done|cbn; by rewrite Ef|done]. }
  destruct (processLeases_good fs G) as (s & -> & Es). destruct ok; [|by apply kept_done].
  specialize (Hs Ef). split_and!; [done| | |].
  - unfold output_ok in *. cbn. split_and!; [done|done|].
    destruct (output_file fs) as [rows|]; [by destruct O as (_ & _ & O)|apply Forall_nil_2].
  - cbn. eexists. split; [done|]. split.
    + intros a l Hl. right. rewrite st_by_address_perm, Es.
      apply list_elem_of_fmap. exists (a, l). split; [done|]. by apply elem_of_map_to_list.
    + apply Forall_forall. intros l Hl. rewrite st_by_address_perm, Es in Hl.
      apply list_elem_of_fmap in Hl as ([a l'] & -> & Hl). apply elem_of_map_to_list in Hl. cbn.
      destruct (old_leases_proper fs G a l' Hl) as (E & _). by rewrite E.
  - unfold visible. cbn. by rewrite Ef.
Qed.

Lemma kept_write ok todo fs :
  good_files fs → output_ok fs → step_ok (LfcWrite todo) fs →
  kept fs (lfc_step (S:=S) ok (LfcWrite todo) fs).
Proof using All.
  intros G O (rows & Eo & Hc & Ht). destruct todo as [|l todo].
  { split_and!; [done|done| |done]. by exists rows. }
  apply Forall_cons in Ht as [Hl Ht]. destruct (old_leases_proper fs G _ _ Hl) as (_ & Hset & Hv).
  destruct (settled_append l Hset ltac:(lia)) as (r & Hr & Hn & Hg). cbn. rewrite Hr.
  destruct ok; [|by apply kept_done]. unfold output_ok in O. rewrite Eo in O.
  destruct O as (Ef & Ecopy & Hsound).
  rewrite Eo. cbn [default from_option]. split_and!; [done| | |].
  - unfold output_ok. cbn. split_and!; [done|done|]. apply Forall_app. split; [done|].
    constructor; [|constructor]. split; [done|]. by exists l.
  - exists (rows ++ [r]). split; [done|]. split; [|exact Ht].
    intros a x Hx. change (old_leases fs !! a = Some x) in Hx. destruct (Hc a x Hx) as [(r' & Hr' & Hx')|[->|Hx']%elem_of_cons].
    + left. exists r'. split; [by apply elem_of_app; left|done].
    + left. exists r. split; [by apply elem_of_app; right; left|done].
    + by right.
  - unfold visible. cbn. by rewrite Ef.
Qed.

Lemma kept_rename ok fs :
  good_files fs → output_ok fs → step_ok LfcRename fs → kept fs (lfc_step (S:=S) ok LfcRename fs).
Proof using All.
  intros G O (rows & Eo & Hc). cbn. destruct ok; [|by apply kept_done].
  unfold output_ok in O. rewrite Eo in O. destruct O as (Ef & Ecopy & Hsound). rewrite Eo.
  pose proof G as (G1 & G2 & _ & G4). split_and!.
  - split_and!; [done|done| |done]. by eapply sound_good.
  - done.
  - done.
  - unfold visible. cbn. rewrite Ef. rewrite (view_complete (old_leases fs) rows); [done| |done|done].
    by apply old_leases_proper.
Qed.

Lemma kept_rotate ok s fs :
  (s = LfcRemovePrevious ∨ s = LfcRemoveCopy ∨ s = LfcRotate) →
  good_files fs → output_ok fs → step_ok s fs → kept fs (lfc_step (S:=S) ok s fs).
Proof using All.
  intros Hs G O Hok. pose proof G as (G1 & G2 & G3 & G4).
  assert (finish_file fs ≠ None) as Hf by (by destruct Hs as [->|[->| ->]]; [..|apply Hok]).
  destruct (finish_file fs) as [f|] eqn:Ef; [|done].
  assert (output_file fs = None) as Eo.
  { unfold output_ok in O. destruct (output_file fs); [|done]. destruct O as (? & _). congruence. }
  destruct ok; [|destruct Hs as [->|[->| ->]]; by apply kept_done].
  assert (∀ fs', output_file fs' = output_file fs → output_ok fs') as Hout.
  { intros fs' E. unfold output_ok. by rewrite E, Eo. }
  destruct Hs as [->|[->| ->]]; cbn; rewrite ?Ef; cbn; split_and!; try done; try (by apply Hout);
    try (unfold good_files; cbn; rewrite ?Ef; split_and!; first [done|apply Forall_nil_2]);
    try (cbn; by rewrite Ef); unfold visible; cbn; rewrite ?Ef; try done.
  destruct Hok as [_ Ecopy]. unfold old_leases. cbn. by rewrite Ecopy.
Qed.

Lemma lfc_step_kept ok s fs :
  good_files fs → output_ok fs → step_ok s fs → kept fs (lfc_step (S:=S) ok s fs).
Proof using All.
  destruct s.
  - apply kept_start.
  - apply kept_write.
  - apply kept_rename.
  - apply kept_rotate. auto.
  - apply kept_rotate. auto.
  - apply kept_rotate. auto.
  - intros. by apply kept_done.
Qed.

Lemma lfc_step_current ok s fs : current_file (snd (lfc_step (S:=S) ok s fs)) = current_file fs.
Proof.
  destruct s as [|[|l todo]| | | | |]; cbn; try (by destruct ok); try done.
  - destruct (finish_file fs); [done|]. by destruct (processLeases_read fs), ok.
  - by destruct (file_append l), ok.
  - by destruct ok, (output_file fs).
  - by destruct ok, (finish_file fs).
Qed.

(** The server moves its file aside, or fails to. *)
Lemma rotate_kept rename_ok reopen_ok (sys : System) :
  invariant sys → invariant (step (S:=S) (EvRotate rename_ok reopen_ok) sys).
Proof using All.
  intros Hinv. pose proof Hinv as [G O Hs V]. cbn. destruct (writing sys); [|done].
  unfold lfcExecute.
  destruct (finish_file (files sys)) as [f|] eqn:Ef; [by split|].
  destruct (copy_file (files sys)) as [c|] eqn:Ec; [by split|].
  assert (output_file (files sys) = None) as Eo.
  { unfold output_ok in O. destruct (output_file (files sys)); [|done]. by destruct O as (_ & ? & _). }
  assert (lfc sys = None ∨ lfc sys = Some LfcDone) as Hidle.
  { destruct (lfc sys) as [[]|]; cbn in Hs; auto; try (destruct Hs as (? & Hs & _); congruence);
      try congruence; [by destruct (Hs Ef)|by destruct Hs]. }
  assert (∀ fs', from_option (λ s, step_ok s fs') True (lfc sys)) as Hany
    by (intros; by destruct Hidle as [-> | ->]).
  set (moved := match rename_ok, current_file (files sys) with
                | true, Some rows => (true, set_current None (set_copy (Some rows) (files sys)))
                | _, _ => (false, files sys) end).
  assert (good_files (snd moved) ∧ output_file (snd moved) = None ∧
          finish_file (snd moved) = None ∧ visible (snd moved) = visible (files sys)) as
    (G' & Eo' & Ef' & V').
  { subst moved. destruct rename_ok; [|done]. destruct (current_file (files sys)) as [rows|] eqn:Ecur;
      [|done]. cbn. pose proof G as (G1 & G2 & G3 & G4). unfold good_files, visible, old_leases. cbn.
    rewrite Ef, Ec, Ecur. rewrite Ecur in G4. split_and!; try done; apply Forall_nil_2. }
  destruct moved as [do_lfc fs]. cbn [snd] in *. unfold output_ok in *.
  destruct reopen_ok; (split; cbn [files lfc history]; [|unfold output_ok; cbn; by rewrite Eo'|apply Hany|]);
    try done; try (by rewrite V', V).
  rewrite <- V, <- V'. unfold visible. cbn. by rewrite Ef'.
Qed.

(** The rows that the server appends. *)
Definition appended (ev : Event (R:=R)) : list R :=
  match ev with EvAppend row => [row] | _ => [] end.

(** kea-lfc is only started when there are files left to clean up. *)
Definition spawn_ok (ev : Event (R:=R)) (sys : System) : bool :=
  match ev, lfc sys, finish_file (files sys), copy_file (files sys) with
  | EvSpawn, None, None, None => negb (spawning sys)
  | _, _, _, _ => true
  end.
Fixpoint spawns_ok (evs : list (Event (R:=R))) (sys : System) : bool :=
  match evs with
  | [] => true
  | ev :: evs' => spawn_ok ev sys && spawns_ok evs' (step (S:=S) ev sys)
  end.

Lemma step_invariant ev (sys : System) :
  invariant sys → Forall good_row (appended ev) → spawn_ok ev sys = true →
  invariant (step (S:=S) ev sys).
Proof using All.
  intros Hinv Hrow Hev. pose proof Hinv as [G O Hs V].
  destruct ev as [row|rename_ok reopen_ok| |ok| |]; cbn.
  - destruct (writing sys); [|done]. destruct (current_file (files sys)) as [rows|] eqn:Ec; [|done].
    split; cbn [files lfc history].
    + destruct G as (G1 & G2 & G3 & G4). rewrite Ec in G4. split_and!; [done..|]. cbn.
      apply Forall_app. by split.
    + exact O.
    + exact Hs.
    + rewrite view_app, <- V. unfold visible. rewrite Ec. refine (view_app rows [row] _).
  - by apply rotate_kept.
  - destruct (spawning sys) eqn:E; [|done]. split; cbn [files lfc history]; try done.
    destruct (lfc sys) eqn:El; [done|]. cbn. intros Hf Hc. cbn in Hev.
    by rewrite El, Hf, Hc, E in Hev.
  - destruct (lfc sys) as [s|] eqn:El; [|done]. cbn in Hs.
    destruct (lfc_step_kept ok s (files sys) G O Hs) as (G' & O' & Hs' & V').
    destruct (lfc_step ok s (files sys)) as [s' fs]. cbn [fst snd] in *.
    split; cbn [files lfc history]; [done|done| |by rewrite V', V].
    by destruct s'.
  - by split.
  - destruct (lfc sys) eqn:El; [done|]. by split.
Qed.

Lemma run_invariant evs : ∀ sys : System,
  invariant sys → Forall good_row (evs ≫= appended) → spawns_ok evs sys = true →
  invariant (run (S:=S) evs sys).
Proof using All.
  induction evs as [|ev evs IH]; intros sys Hinv Hrows Hs; [done|].
  cbn in Hs. apply andb_true_iff in Hs as [Hev Hs].
  rewrite bind_cons in Hrows. apply Forall_app in Hrows as [Hrow Hrows].
  apply IH; [|done|done]. by apply step_invariant.
Qed.

Lemma no_files_invariant : invariant (no_files (L:=L) (R:=R)).
Proof. split; [|done..]. split_and!; apply Forall_nil_2. Qed.
End Invariant.

(** C35: Whatever the server and kea-lfc do, in whatever order, whichever step of kea-lfc
    fails and whenever it is killed: the files load, and give the leases that one file with
    all the rows would give.  This needs three conditions.  Every row that the server writes
    can be read back ([good_row]: the lease expires before 2^32, its name has no comma and no
    line feed, its identifiers have the lengths their constructors take;
    [unreadable_rows_stop_the_server] shows what other rows lead to).  The sanity checks of
    the server drop no lease that it loads (the loader is given [Some]; the settings "del" and
    "fix-del" drop leases).  And no process is started so late that another one has already
    cleaned up the files ([spawn_ok]; [late_spawn_restores_released_lease] shows why). *)
Theorem cleanup_is_invisible {L S R : Type} `{!StoredLease L} `{!LeaseStorage L S}
    `{!LeaseStorageLaws L S} `{!LeaseFile L R} `{!LeaseFileLaws L R} `{!LeaseFileRewrite L R}
    (evs : list (Event (R:=R))) (Hrows : Forall good_row (evs ≫= appended))
    (Hspawns : spawns_ok (S:=S) evs no_files = true) :
  let sys := run (S:=S) evs (no_files (L:=L)) in
  ∃ s : S, loadLeasesFromFiles Some false (files sys) = Ok s ∧
    st_leases s = st_leases (load (S:=S) Some (history sys)).
Proof.
  intros sys. pose proof (run_invariant (S:=S) evs no_files no_files_invariant Hrows Hspawns) as [G _ _ V].
  fold sys in G, V. destruct (loadLeases_good (S:=S) (files sys) G) as (s & E & Es).
  exists s. split; [exact E|]. by rewrite Es, V, load_view.
Qed.

(** ** kea-lfc ends *)

Section Ends.
Context {L S R : Type} `{LeaseStorageLaws L S} `{!LeaseFile L R} `{!LeaseFileLaws L R}.
Context `{!LeaseFileRewrite L R}.
#[local] Abbreviation Files := (LeaseFiles R).

(** A run of kea-lfc: what the operating system makes of each step. *)
Definition lfc_run (oks : list bool) (s : LfcStep L) (fs : Files) : LfcStep L * Files :=
  foldl (λ c ok, lfc_step (S:=S) ok (fst c) (snd c)) (s, fs) oks.

(** The steps that are left at most. *)
Definition steps_left (s : LfcStep L) (fs : Files) : nat :=
  match s with
  | LfcStart => 6 + base.size (old_leases fs)
  | LfcWrite todo => 5 + length todo
  | LfcRename => 4
  | LfcRemovePrevious => 3
  | LfcRemoveCopy => 2
  | LfcRotate => 1
  | LfcDone => 0
  end.

Lemma by_address_length (s : S) : length (st_by_address s) = base.size (st_leases s).
Proof. rewrite st_by_address_perm, length_fmap. apply length_map_to_list. Qed.

Lemma step_counts ok s fs :
  good_files fs → output_ok fs → step_ok s fs →
  (fst (lfc_step (S:=S) ok s fs) = LfcDone ∨
   steps_left (fst (lfc_step (S:=S) ok s fs)) (snd (lfc_step (S:=S) ok s fs)) < steps_left s fs)%nat.
Proof using All.
  intros G O Hs. destruct s as [|[|l todo]| | | | |]; cbn;
    try (destruct ok, (output_file fs), (finish_file fs); cbn; auto; lia).
  - destruct (finish_file fs); [cbn; lia|].
    destruct (processLeases_good fs G) as (s & -> & Es). destruct ok; [|auto]. right. cbn.
    rewrite by_address_length, Es. lia.
  - destruct (file_append l); [|auto]. destruct ok; [|auto]. right. cbn. lia.
Qed.

Lemma run_counts oks : ∀ s fs,
  good_files fs → output_ok fs → step_ok s fs → (steps_left s fs ≤ length oks)%nat →
  fst (lfc_run oks s fs) = LfcDone.
Proof using All.
  induction oks as [|ok oks IH]; intros s fs G O Hs Hn.
  { cbn. destruct s; cbn in Hn; try lia. done. }
  destruct (lfc_step_kept (S:=S) ok s fs G O Hs) as (G' & O' & Hs' & _).
  unfold lfc_run. cbn [foldl fst snd].
  destruct (step_counts ok s fs G O Hs) as [Hdone|Hlt];
    destruct (lfc_step ok s fs) as [s' fs']; cbn [fst snd] in *; apply IH; try done.
  - by rewrite Hdone; cbn; lia.
  - cbn in Hn. lia.
Qed.

Lemma run_app oks oks' s fs :
  lfc_run (oks ++ oks') s fs = lfc_run oks' (fst (lfc_run oks s fs)) (snd (lfc_run oks s fs)).
Proof. unfold lfc_run. rewrite foldl_app. by destruct (foldl _ _ oks). Qed.

(** Writing the leases one after another. *)
Lemma run_writes todo : ∀ rows fs,
  Forall (λ l, settled l ∧ 0 ≤ rec_valid l) todo → output_file fs = Some rows →
  ∃ rows', lfc_run (replicate (length todo) true) (LfcWrite todo) fs =
             (LfcWrite [], set_output (Some (rows ++ rows')) fs) ∧
    Forall2 (λ l r, file_next r = Some l ∧ good_row r) todo rows'.
Proof using All.
  induction todo as [|l todo IH]; intros rows fs Ht Eo.
  { exists []. split; [|constructor]. cbn. rewrite app_nil_r. by destruct fs; cbn in Eo |- *; subst. }
  apply Forall_cons in Ht as [[Hl Hv] Ht].
  destruct (settled_append l Hl Hv) as (r & Hr & Hn & Hg).
  unfold lfc_run. cbn [length replicate foldl fst snd]. cbn [lfc_step]. rewrite Hr, Eo.
  destruct (IH (rows ++ [r]) (set_output (Some (rows ++ [r])) fs) Ht eq_refl) as (rows' & E & H2).
  exists (r :: rows'). split; [|by constructor].
  transitivity (lfc_run (replicate (length todo) true) (LfcWrite todo)
    (set_output (Some (rows ++ [r])) fs)); [reflexivity|].
  rewrite E. unfold set_output. cbn. by rewrite <- app_assoc.
Qed.
End Ends.

(** kea-lfc ends, whichever of its steps fail; and when none fails and no earlier run left an
    unfinished output, there is one file, beside the current one, with one row for each
    lease of the old ones. *)
Theorem lfc_ends {L S R : Type} `{!StoredLease L} `{!LeaseStorage L S} `{!LeaseStorageLaws L S}
    `{!LeaseFile L R} `{!LeaseFileLaws L R} `{!LeaseFileRewrite L R}
    (fs : LeaseFiles R) (oks : list bool)
    (Hfs : good_files fs) (Hout : output_file fs = None) (Hcopy : copy_file fs ≠ None)
    (Hn : (6 + base.size (old_leases fs) ≤ length oks)%nat) :
  fst (lfc_run (S:=S) oks LfcStart fs) = LfcDone ∧
  (Forall (λ ok, ok = true) oks → finish_file fs = None →
   ∃ rows, snd (lfc_run (S:=S) oks LfcStart fs) =
       {| previous_file := Some rows; copy_file := None; output_file := None;
          finish_file := None; current_file := current_file fs |} ∧
     length rows = base.size (old_leases fs) ∧
     view rows ∅ = old_leases fs).
Proof.
  assert (output_ok fs) as O by (unfold output_ok; by rewrite Hout).
  split; [apply run_counts; [done|done|by intros _|done]|]. intros Hoks Hf.
  assert (oks = replicate (length oks) true) as E.
  { clear -Hoks. induction Hoks as [|ok oks -> _ IH]; [done|]. cbn. by f_equal. }
  destruct (processLeases_good (S:=S) fs Hfs) as (s & Es & El).
  pose proof (by_address_length s) as Hlen. rewrite El in Hlen.
  set (todo := st_by_address s) in *.
  assert (∃ n, length oks = 1 + length todo + (5 + n))%nat as [n En].
  { exists (length oks - (6 + length todo))%nat. lia. }
  rewrite E, En, !replicate_add, !run_app. cbn [replicate].
  set (fs1 := set_output (Some []) fs).
  assert (lfc_run (S:=S) [true] LfcStart fs = (LfcWrite todo, fs1)) as ->.
  { unfold lfc_run. cbn. by rewrite Hf, Es, Hout. }
  cbn [fst snd].
  destruct (lfc_step_kept (S:=S) true LfcStart fs Hfs O ltac:(by intros _)) as (G1 & O1 & S1 & _).
  cbn in G1, O1, S1. rewrite Hf, Es, Hout in G1, O1, S1. fold fs1 in G1, O1, S1.
  destruct S1 as (rows0 & _ & _ & Ht).
  assert (Forall (λ l, settled l ∧ 0 ≤ rec_valid l) todo) as Hset.
  { eapply Forall_impl; [exact Ht|]. intros l Hl. cbn in Hl.
    destruct (old_leases_proper (S:=S) fs Hfs _ _ Hl) as (_ & ? & ?). split; [done|lia]. }
  destruct (run_writes (S:=S) todo [] fs1 Hset eq_refl) as (rows & -> & H2). cbn [fst snd].
  exists rows. split_and!.
  - cbn. clear. induction n as [|n IH]; [done|exact IH].
  - rewrite <- Hlen. symmetry. by eapply Forall2_length.
  - assert (sound (old_leases fs) rows ∧ complete (old_leases fs) rows []) as [Hs Hc].
    { split.
      - unfold sound. eapply Forall2_Forall_r; [exact H2|]. eapply Forall_impl; [exact Ht|].
        intros l Hl r [Hn' Hg]. split; [done|]. by exists l.
      - intros a l Hl. left. assert (l ∈ todo) as Hin.
        { subst todo. rewrite st_by_address_perm, El. apply list_elem_of_fmap. exists (a, l).
          split; [done|]. by apply elem_of_map_to_list. }
        apply list_elem_of_lookup in Hin as (i & Hi).
        destruct (Forall2_lookup_l _ _ _ _ _ H2 Hi) as (r & Hr & Hr' & _).
        exists r. split; [by eapply list_elem_of_lookup_2|done]. }
    apply view_complete; [by apply old_leases_proper|done|done].
Qed.

(** ** The lease files of both families *)

#[export] Instance rewrite4 : LeaseFileRewrite Lease4 CSVRow.
Proof.
  split.
  - intros l [[H1 H2 H3 H4 (h & Hh & Hb) H6 H7] He]. split; [|exact He].
    split; try done. cbn. rewrite Hh. cbn. by eexists.
  - intros l _. cbn. unfold persisted. cbn. by destruct (hwaddr_ l).
  - intros l [[_ _ _ _ (h & Hh & _) _ _] _]. cbn. unfold append_row, persisted. cbn. rewrite Hh.
    by eexists.
Qed.

#[export] Instance rewrite6 : LeaseFileRewrite Lease6 CSVRow6.
Proof.
  split.
  - intros l [[H1 H2 H3 H4 H5 H6 H7 H8 H9] He]. split; [|exact He]. by split.
  - intros l _. change (persisted6 (persisted6 l) = persisted6 l).
    unfold persisted6, with_hwaddr6, with_times6.
    destruct (hwaddr6_ l) as [h|]; [|done].
    destruct (bool_decide (hwaddr_bytes h = []) || (20 <? length (hwaddr_bytes h))%nat) eqn:E;
      [done|]. cbn [hwaddr6_ hwaddr_bytes]. by rewrite E.
  - intros l [[_ _ _ _ _ _ _ (d & Hd & _) _] _]. cbn. unfold append_row6. cbn. rewrite Hd.
    by eexists.
Qed.

(** ** A lease that is given and released *)

Module Sample.
Definition row_of (l : Lease4) : CSVRow :=
  match append_row l with
  | Ok r => r
  | Throw _ => {| col_address := V4 0; col_hwaddr := []; col_client_id := [];
                  col_valid_lifetime := 0; col_expire := 0; col_subnet_id := 0;
                  col_fqdn_fwd := false; col_fqdn_rev := false; col_hostname := ""; col_state := 0 |}
  end.
Definition given : CSVRow := row_of sample_lease.
Definition released : CSVRow := row_of (with_valid_lft sample_lease 0).

Lemma given_good : good_row (L:=Lease4) given.
Proof.
  exists sample_lease. split_and!; [split; [exact sample_lease_wf|vm_compute; reflexivity]| |done].
  cbn. lia.
Qed.
Lemma released_good : good_row (L:=Lease4) released.
Proof.
  exists (with_valid_lft sample_lease 0).
  split_and!; [split; [|vm_compute; reflexivity]|cbn; lia|done].
  destruct sample_lease_wf. by split; cbn; try lia.
Qed.

(** The lease is given; kea-lfc starts, writes the lease and is killed; the lease is
    released; kea-lfc starts again and completes. *)
Definition events : list (Event (R:=CSVRow)) :=
  [EvAppend given; EvRotate true true; EvSpawn; EvLfc true; EvLfc true; EvKillLfc;
   EvAppend released; EvRotate true true; EvSpawn]
  ++ replicate 7 (EvLfc true).

(** The server finds kea-lfc at work, and starts another one when this has ended, which has
    no copy to process and is killed; the next one adds to its output. *)
Definition late_spawn : list (Event (R:=CSVRow)) :=
  [EvAppend given; EvRotate true true; EvSpawn] ++ replicate 5 (EvLfc true)
  ++ [EvRotate true true] ++ replicate 3 (EvLfc true)
  ++ [EvSpawn; EvLfc true; EvLfc true; EvKillLfc;
      EvAppend released; EvRotate true true; EvSpawn] ++ replicate 6 (EvLfc true).
End Sample.

Lemma events_good evs : (evs ≫= appended) = [Sample.given; Sample.released] →
  Forall (good_row (L:=Lease4)) (evs ≫= appended).
Proof.
  intros ->. constructor; [exact Sample.given_good|].
  constructor; [exact Sample.released_good|constructor].
Qed.

Lemma cleanup_is_invisible_witness :
  spawns_ok (L:=Lease4) (S:=ListStorage4) Sample.events no_files = true ∧
  ∃ s : ListStorage4,
    loadLeasesFromFiles Some false (files (run (S:=ListStorage4) Sample.events no_files)) = Ok s ∧
    st_leases s = ∅.
Proof.
  assert (Forall (good_row (L:=Lease4)) (Sample.events ≫= appended)) as Hg
    by (apply events_good; reflexivity).
  assert (spawns_ok (L:=Lease4) (S:=ListStorage4) Sample.events no_files = true) as Hs
    by (vm_compute; reflexivity).
  split; [exact Hs|].
  destruct (cleanup_is_invisible (L:=Lease4) (S:=ListStorage4) Sample.events Hg Hs) as (s & E & Es).
  exists s. split; [exact E|]. rewrite Es. vm_compute. reflexivity.
Defined.

(** kea-lfc appends to the output of an interrupted run, also when that run was started too
    late and had the files before the last rotation to process: a lease that was released in
    between is then in the files again. *)
Theorem late_spawn_restores_released_lease :
  let sys := run (L:=Lease4) (S:=ListStorage4) Sample.late_spawn no_files in
  st_leases (load (S:=ListStorage4) Some (history sys)) = ∅ ∧
  ∃ s : ListStorage4, loadLeasesFromFiles Some false (files sys) = Ok s ∧
    st_leases s !! addr_ sample_lease = Some sample_lease.
Proof.
  intros sys. split; [vm_compute; reflexivity|].
  eexists. split; vm_compute; reflexivity.
Qed.

(** A server does not start when its file has more than 100 rows of leases whose names, given
    by their clients, have a comma; it has written them itself. *)
Theorem unreadable_rows_stop_the_server :
  ∃ row, append_row (named "a,b") = Ok row ∧
    let sys := run (L:=Lease4) (S:=ListStorage4) (EvAppend <$> replicate 101 row) no_files in
    loadLeasesFromFiles (L:=Lease4) (S:=ListStorage4) Some false (files sys) = Throw CSVFileError.
Proof. eexists. split; [reflexivity|]. vm_compute. reflexivity. Qed.

Lemma lfc_ends_witness :
  let fs := {| previous_file := None; copy_file := Some [Sample.given]; output_file := None;
               finish_file := None; current_file := Some [] |} in
  good_files (L:=Lease4) fs ∧
  fst (lfc_run (L:=Lease4) (S:=ListStorage4) (replicate 9 true) LfcStart fs) = LfcDone.
Proof.
  intros fs. assert (good_files (L:=Lease4) fs) as G.
  { split_and!; try apply Forall_nil_2. apply Forall_singleton, Sample.given_good. }
  split; [exact G|].
  refine (proj1 (lfc_ends (L:=Lease4) (S:=ListStorage4) fs (replicate 9 true) G eq_refl _ _)).
  - intros [=].
  - assert (base.size (old_leases (L:=Lease4) fs) = 1%nat) as -> by (vm_compute; reflexivity).
    cbn. lia.
Defined.
