(* ===== verification/EngineHeap.v ===== *)
(** * The subnets and networks during an allocation

    The engines change the heap of subnets and networks only through the allocator,
    which moves the positions in the pools.  [shape] is what it leaves alone; a heap
    of the same shape satisfies the same invariant and is walked over in the same
    order ([on_chain]). *)

From S2P Require Import Prelude Algorithms IoAddress AddrUtilities Pool Subnet.
From S2P Require Import SharedNetwork IterativeAllocator.
Local Open Scope Z_scope.

(** ** What the allocator does not change of a subnet *)

(** The subnet without the positions of the allocator. *)
Definition strip (p : Pool) : Pool := with_last_allocated p (first_ p) false.
Definition shape (s : Subnet) : Subnet :=
  with_last (with_pools s (strip <$> pools_ s) (strip <$> pools_ta_ s) (strip <$> pools_pd_ s))
    IPV4_ZERO_ADDRESS IPV4_ZERO_ADDRESS IPV4_ZERO_ADDRESS ∅.

Lemma subnet_sim_shape t s s' : subnet_sim t s s' → shape s' = shape s.
Proof.
  intros (l & ia & ta & pd & m & -> & Hl). unfold shape.
  assert (strip <$> l = strip <$> pools_of s t) as E.
  { induction Hl as [|p q l1 l2 (a & v & -> & _) _ IH]; [done|]. cbn. by rewrite IH. }
  destruct t; cbn in *; by rewrite E.
Qed.

Lemma getPools_shape s t :
  getPools (shape s) t = (l ← getPools s t; Ok (strip <$> (l : list Pool))).
Proof. unfold getPools, checkType. cbn. by destruct (kind s), t. Qed.

Lemma existsb_strip (f : Pool → bool) l :
  (∀ p, f (strip p) = f p) → existsb f (strip <$> l) = existsb f l.
Proof. intros Hf. induction l as [|p l IH]; [done|]. cbn. by rewrite Hf, IH. Qed.

Lemma inPool_shape s t a : inPool (shape s) t a = inPool s t a.
Proof.
  unfold inPool. rewrite getPools_shape.
  change (inRange (shape s) a) with (inRange s a). case_bool_decide; cbn [mbind res_bind mret res_ret negb].
  2: { destruct (getPools s t); [|done]. cbn [mbind res_bind mret res_ret].
       by rewrite existsb_strip. }
  destruct (inRange s a) as [[]|]; [|done|done]. cbn [mbind res_bind negb].
  destruct (getPools s t); [|done]. cbn [mbind res_bind mret res_ret].
  by rewrite existsb_strip.
Qed.

Lemma inPool_classes_shape s t a classes :
  inPool_classes (shape s) t a classes = inPool_classes s t a classes.
Proof.
  unfold inPool_classes. rewrite getPools_shape.
  change (inRange (shape s) a) with (inRange s a). case_bool_decide; cbn [mbind res_bind mret res_ret negb].
  2: { destruct (getPools s t); [|done]. cbn [mbind res_bind mret res_ret].
       by rewrite existsb_strip. }
  destruct (inRange s a) as [[]|]; [|done|done]. cbn [mbind res_bind negb].
  destruct (getPools s t); [|done]. cbn [mbind res_bind mret res_ret].
  by rewrite existsb_strip.
Qed.

(** The heap without the positions of the allocators. *)
Definition heap_shape (h : Heap) : gmap Z Subnet * gmap Z SharedNetwork :=
  (shape <$> subnets h, networks h).

Lemma heap_shape_lookup h h' p s' :
  heap_shape h' = heap_shape h → subnets h' !! p = Some s' →
  ∃ s, subnets h !! p = Some s ∧ shape s = shape s'.
Proof.
  intros [= E _] Hs'. assert ((shape <$> subnets h) !! p = Some (shape s')) as H
    by (rewrite <- E, lookup_fmap; by rewrite Hs').
  rewrite lookup_fmap in H. apply fmap_Some in H as (s & Hs & ->). by exists s.
Qed.

Lemma heap_shape_set h p s s' :
  subnets h !! p = Some s → shape s' = shape s → heap_shape (set_subnet p s' h) = heap_shape h.
Proof.
  intros Hs E. unfold heap_shape, set_subnet. cbn. f_equal. apply map_eq. intros q.
  rewrite !lookup_fmap. destruct (decide (p = q)) as [->|].
  - by rewrite lookup_insert_eq, Hs; cbn; rewrite E.
  - by rewrite lookup_insert_ne.
Qed.

Lemma shape_fields s s' :
  shape s = shape s' → id_ s = id_ s' ∧ shared_network_ s = shared_network_ s' ∧
  match_client_id_ s = match_client_id_ s' ∧ client_class_ s = client_class_ s' ∧
  host_reservation_mode_ s = host_reservation_mode_ s'.
Proof.
  intros E. pose proof (f_equal id_ E). pose proof (f_equal shared_network_ E).
  pose proof (f_equal match_client_id_ E). pose proof (f_equal client_class_ E).
  pose proof (f_equal host_reservation_mode_ E). done.
Qed.

Lemma heap_shape_wf h h' : heap_shape h' = heap_shape h → wf_heap h → wf_heap h'.
Proof.
  intros E. assert (networks h' = networks h) as En by (by injection E).
  assert (∀ p, id_ <$> subnets h' !! p = id_ <$> subnets h !! p) as Hid.
  { intros p. destruct (subnets h' !! p) as [s'|] eqn:Hs'.
    - destruct (heap_shape_lookup _ _ _ _ E Hs') as (s & -> & Es). cbn. f_equal.
      symmetry. by apply shape_fields.
    - destruct (subnets h !! p) as [s|] eqn:Hs; [|done].
      destruct (heap_shape_lookup _ _ _ _ (eq_sym E) Hs) as (? & ? & _). congruence. }
  intros [H1 H2 H3]. split.
  - intros n net Hn. rewrite En in Hn. specialize (H1 n net Hn).
    assert (ids h' (subnets_ net) = ids h (subnets_ net)) as ->; [|done].
    unfold ids. apply list_fmap_ext. intros i p _. apply Hid.
  - intros n net p Hn. rewrite En in Hn. rewrite (H2 n net p Hn). split.
    + intros (s & Hs & Hsn).
      destruct (heap_shape_lookup _ _ _ _ (eq_sym E) Hs) as (s' & Hs' & Es).
      exists s'. split; [done|]. apply shape_fields in Es as (_ & -> & _). done.
    + intros (s' & Hs' & Hsn). destruct (heap_shape_lookup _ _ _ _ E Hs') as (s & Hs & Es).
      exists s. split; [done|]. apply shape_fields in Es as (_ & -> & _). done.
  - intros p s' n Hs' Hn. destruct (heap_shape_lookup _ _ _ _ E Hs') as (s & Hs & Es).
    rewrite En. apply (H3 p s n Hs). apply shape_fields in Es as (_ & -> & _). done.
Qed.

(** ** Walking over the subnets of a network *)

(** [p] comes [k] subnets after [f] in the order of their network. *)
Definition on_chain (h : Heap) (f : Z) (k : nat) (p : Z) : Prop :=
  ∃ sf, subnets h !! f = Some sf ∧
    match shared_network_ sf with
    | None => k = 0%nat ∧ p = f
    | Some n => ∃ net i, networks h !! n = Some net ∧ subnets_ net !! i = Some f ∧
                         rotate i (subnets_ net) !! k = Some p
    end.

Lemma on_chain_shape h h' f k p :
  heap_shape h' = heap_shape h → on_chain h f k p → on_chain h' f k p.
Proof.
  intros E (sf & Hf & Hk). destruct (heap_shape_lookup _ _ _ _ (eq_sym E) Hf) as (sf' & Hf' & Es).
  exists sf'. split; [done|]. apply shape_fields in Es as (_ & -> & _).
  assert (networks h' = networks h) as -> by (by injection E). done.
Qed.

Lemma on_chain_start h f sf : wf_heap h → subnets h !! f = Some sf → on_chain h f 0 f.
Proof.
  intros Hh Hf. exists sf. split; [done|]. destruct (shared_network_ sf) as [n|] eqn:E; [|done].
  destruct (wf_heap_net h Hh f sf n Hf E) as [net Hn].
  assert (f ∈ subnets_ net) as [i Hi]%list_elem_of_lookup
    by (apply (wf_heap_back h Hh n net f Hn); by exists sf).
  exists net, i. split_and!; [done|done|]. pose proof (lookup_lt_Some _ _ _ Hi).
  rewrite lookup_rotate_r by lia. rewrite rotate_nat_add_0; [done|lia].
Qed.

Lemma on_chain_some h f k p : wf_heap h → on_chain h f k p → ∃ sub, subnets h !! p = Some sub.
Proof.
  intros Hh (sf & Hf & Hk). destruct (shared_network_ sf) as [n|].
  - destruct Hk as (net & i & Hn & Hi & Hk). apply list_elem_of_lookup_2 in Hk.
    apply elem_of_rotate in Hk. apply (wf_heap_back h Hh n net p Hn) in Hk as (sub & ? & _).
    by exists sub.
  - destruct Hk as [_ ->]. by exists sf.
Qed.

Lemma network_length h n net :
  wf_heap h → networks h !! n = Some net → (length (subnets_ net) ≤ base.size (subnets h))%nat.
Proof.
  intros Hh Hn. pose proof (wf_heap_ids h Hh n net Hn) as Hnd. apply NoDup_fmap_1 in Hnd.
  rewrite <- (size_dom (D:=gset Z)), <- (size_list_to_set (C:=gset Z)) by done.
  apply subseteq_size. intros p Hp%elem_of_list_to_set.
  apply (wf_heap_back h Hh n net p Hn) in Hp as (sub & Hp & _). apply elem_of_dom. by eexists.
Qed.

Lemma on_chain_bound h f k p : wf_heap h → on_chain h f k p → (k < base.size (subnets h))%nat.
Proof.
  intros Hh (sf & Hf & Hk). destruct (shared_network_ sf) as [n|].
  - destruct Hk as (net & i & Hn & _ & Hk). apply lookup_lt_Some in Hk.
    rewrite length_rotate in Hk. pose proof (network_length h n net Hh Hn). lia.
  - destruct Hk as [-> _]. apply elem_of_dom_2 in Hf.
    destruct (base.size (subnets h)) eqn:E; [|lia]. apply map_size_empty_inv in E.
    rewrite E, dom_empty in Hf. set_solver.
Qed.

(** ** What the searches find *)

Lemma inPool_classes_intro s t p a classes :
  wf_subnet s → allowed s t → p ∈ pools_of s t → pool_clientSupported p classes = true →
  pool_inRange p a = true → inPool_classes s t a classes = Ok true.
Proof.
  intros Hs Ha Hp Hu Hin. destruct (inPool_classes_Ok s t a classes Hs Ha) as (b & -> & Hb).
  f_equal. apply Hb. split; [|by exists p]. destruct (decide (t = TYPE_PD)); [by left|right].
  destruct (wf_subnet_inside s Hs t p Ha) as [[Hf _] [_ Hl]]; [done|done|].
  apply pool_inRange_spec in Hin as [H1 H2]. split; by etrans.
Qed.

Lemma getSubnet_elem h l i p : getSubnet h l i = Some p → p ∈ l.
Proof.
  unfold getSubnet, index_find. intros H. apply fmap_Some in H as ([j q] & H & ->).
  apply list_find_Some in H as (H & _). by eapply list_elem_of_lookup_2.
Qed.

Lemma preferred_exn h l p t : getPreferredSubnet h l p t ≠ Throw OutOfFuel.
Proof.
  unfold getPreferredSubnet, subnet_at. destruct (subnets h !! p) as [s|]; [|done].
  cbn [mbind res_bind]. generalize p. induction l as [|q l IH]; intros pref; [done|].
  cbn [preferred_loop]. unfold subnet_at. destruct (subnets h !! q); [|done].
  cbn [mbind res_bind]. destruct (_ && _); apply IH.
Qed.

(** The preferred subnet is the selected one or one of the network. *)
Lemma preferred_some h l p t q :
  getPreferredSubnet h l p t = Ok q → is_Some (subnets h !! q).
Proof.
  unfold getPreferredSubnet, subnet_at. destruct (subnets h !! p) as [s|] eqn:Ep; [|done].
  cbn [mbind res_bind].
  assert (is_Some (subnets h !! p)) as Hp by (rewrite Ep; by eexists). clear Ep.
  revert p Hp. induction l as [|x l IH]; intros pref Hp; [by intros [= <-]|].
  cbn [preferred_loop]. unfold subnet_at. destruct (subnets h !! x) eqn:Ex; [|done].
  cbn [mbind res_bind]. destruct (_ && _); apply IH; [|done]. by eexists.
Qed.

Lemma preferred_elem h l p t q : getPreferredSubnet h l p t = Ok q → q = p ∨ q ∈ l.
Proof.
  unfold getPreferredSubnet, subnet_at. destruct (subnets h !! p) as [s|]; [|done].
  cbn [mbind res_bind]. revert p. induction l as [|x l IH]; intros pref.
  { intros [= <-]. by left. }
  cbn [preferred_loop]. unfold subnet_at. destruct (subnets h !! x); [|done].
  cbn [mbind res_bind]. rewrite elem_of_cons. intros H. apply IH in H.
  destruct (_ && _); intuition.
Qed.
