(* ===== verification/AllocEngine4.v ===== *)
(** * The DHCPv4 allocation engine ([src/lib/dhcpsrv/alloc_engine.cc])

    The engine answers a client from the state of the whole server: the subnets
    and shared networks ([heap]), the lease database ([db], any implementation of
    [LeaseMgr]), the statistics ([stats]), the queue of name change requests
    ([ncrs]), and the context of the client's message ([ctx]), which the functions
    share and update.  Host reservations come through [HostMgr].

    Hook libraries are not part of the program: [Hooks] has one function for each
    hook point the engine calls, [None] when no callout is installed.  A callout
    gets the lease and answers with a status and the lease as it left it.  The time
    is read several times in the code and is one value here; loops over the subnets
    of a shared network are bounded by the number of subnets. *)

From S2P Require Import Prelude IoAddress Pool Subnet SharedNetwork IterativeAllocator.
From S2P Require Import StatsMgr Lease LeaseMgr Host.
Local Open Scope Z_scope.

(** [CalloutHandle::CalloutNextStep]. *)
Inductive NextStep := NEXT_STEP_CONTINUE | NEXT_STEP_SKIP | NEXT_STEP_DROP | NEXT_STEP_PARK.

#[export] Instance NextStep_eq_dec : EqDecision NextStep.
Proof. solve_decision. Defined.

Inductive DbReclaimMode := DB_RECLAIM_REMOVE | DB_RECLAIM_UPDATE | DB_RECLAIM_LEAVE_UNCHANGED.

#[export] Instance DbReclaimMode_eq_dec : EqDecision DbReclaimMode.
Proof. solve_decision. Defined.

(** [ClientContext4]; [query_classes_] are the classes of the query, the only
    part of it the engine looks at. *)
Record ClientContext4 := {
  ctx_subnet_ : option Z;
  clientid_ : option (list Z);
  ctx_hwaddr_ : option HWAddr;
  requested_address_ : IOAddress;
  fwd_dns_update_ : bool;
  rev_dns_update_ : bool;
  ctx_hostname_ : string;
  callout_handle_ : bool;
  fake_allocation_ : bool;
  old_lease_ : option Lease4;
  new_lease_ : option Lease4;
  conflicting_lease_ : option Lease4;
  ctx_hosts_ : gmap Z Host;
  host_identifiers_ : list (IdentifierType * list Z);
  query_classes_ : ClientClasses
}.

(** What the engine changes in a context. *)
Definition ctx_with (c : ClientContext4) (subnet : option Z) (requested : IOAddress)
    (old new conflicting : option Lease4) (hosts : gmap Z Host) : ClientContext4 :=
  {| ctx_subnet_ := subnet; clientid_ := clientid_ c; ctx_hwaddr_ := ctx_hwaddr_ c;
     requested_address_ := requested; fwd_dns_update_ := fwd_dns_update_ c;
     rev_dns_update_ := rev_dns_update_ c; ctx_hostname_ := ctx_hostname_ c;
     callout_handle_ := callout_handle_ c; fake_allocation_ := fake_allocation_ c;
     old_lease_ := old; new_lease_ := new; conflicting_lease_ := conflicting;
     ctx_hosts_ := hosts; host_identifiers_ := host_identifiers_ c;
     query_classes_ := query_classes_ c |}.
Definition ctx_with_subnet (p : option Z) (c : ClientContext4) : ClientContext4 :=
  ctx_with c p (requested_address_ c) (old_lease_ c) (new_lease_ c) (conflicting_lease_ c)
    (ctx_hosts_ c).
Definition ctx_with_requested (a : IOAddress) (c : ClientContext4) : ClientContext4 :=
  ctx_with c (ctx_subnet_ c) a (old_lease_ c) (new_lease_ c) (conflicting_lease_ c)
    (ctx_hosts_ c).
Definition ctx_with_old (l : option Lease4) (c : ClientContext4) : ClientContext4 :=
  ctx_with c (ctx_subnet_ c) (requested_address_ c) l (new_lease_ c) (conflicting_lease_ c)
    (ctx_hosts_ c).
Definition ctx_with_new (l : option Lease4) (c : ClientContext4) : ClientContext4 :=
  ctx_with c (ctx_subnet_ c) (requested_address_ c) (old_lease_ c) l (conflicting_lease_ c)
    (ctx_hosts_ c).
Definition ctx_with_conflicting (l : option Lease4) (c : ClientContext4) : ClientContext4 :=
  ctx_with c (ctx_subnet_ c) (requested_address_ c) (old_lease_ c) (new_lease_ c) l
    (ctx_hosts_ c).
Definition ctx_with_hosts (h : gmap Z Host) (c : ClientContext4) : ClientContext4 :=
  ctx_with c (ctx_subnet_ c) (requested_address_ c) (old_lease_ c) (new_lease_ c)
    (conflicting_lease_ c) h.

(** The constructor from the data of the message, with the client's hardware
    address as its first host identifier. *)
Definition mkClientContext4 (subnet : option Z) (clientid : option (list Z))
    (hwaddr : option HWAddr) (requested_addr : IOAddress) (fwd rev : bool)
    (hostname : string) (fake callout_handle : bool) (classes : ClientClasses) : ClientContext4 :=
  {| ctx_subnet_ := subnet; clientid_ := clientid; ctx_hwaddr_ := hwaddr;
     requested_address_ := requested_addr; fwd_dns_update_ := fwd; rev_dns_update_ := rev;
     ctx_hostname_ := hostname; callout_handle_ := callout_handle; fake_allocation_ := fake;
     old_lease_ := None; new_lease_ := None; conflicting_lease_ := None; ctx_hosts_ := ∅;
     host_identifiers_ := match hwaddr with
                          | Some h => [(IDENT_HWADDR, hwaddr_bytes h)]
                          | None => []
                          end;
     query_classes_ := classes |}.

(** A name change request, without its DHCID. *)
Inductive NameChangeType := CHG_ADD | CHG_REMOVE.
Record NameChangeRequest := {
  ncr_type_ : NameChangeType; ncr_fwd_ : bool; ncr_rev_ : bool; ncr_fqdn_ : string;
  ncr_address_ : IOAddress; ncr_expires_ : Z; ncr_length_ : Z
}.

Record Hooks := {
  lease4_select : option (ClientContext4 → Lease4 → NextStep * Lease4);
  lease4_renew : option (ClientContext4 → Lease4 → NextStep * Lease4);
  lease4_expire : option (bool → Lease4 → NextStep * Lease4);
  lease4_recover : option (Lease4 → NextStep * Lease4)
}.

(** What is fixed while a message is handled: the time, the configured number of
    allocation attempts, whether DNS updates are enabled and whether a request can
    be built from a lease and queued, and the hook libraries. *)
Class EngineConfig := {
  now : Z;
  attempts_ : Z;
  ddnsEnabled : bool;
  ncr_ok : Lease4 → bool;
  hooks : Hooks
}.

Record State (M : Type) := {
  heap : Heap;
  db : M;
  stats : StatContext;
  ncrs : list NameChangeRequest;
  incomplete_v4_reclamations_ : Z;
  ctx : ClientContext4
}.
Arguments heap {M}. Arguments db {M}. Arguments stats {M}. Arguments ncrs {M}.
Arguments incomplete_v4_reclamations_ {M}. Arguments ctx {M}.

Section State.
Context {M : Type}.

Definition with_heap (h : Heap) (s : State M) : State M :=
  {| heap := h; db := db s; stats := stats s; ncrs := ncrs s;
     incomplete_v4_reclamations_ := incomplete_v4_reclamations_ s; ctx := ctx s |}.
Definition with_db (d : M) (s : State M) : State M :=
  {| heap := heap s; db := d; stats := stats s; ncrs := ncrs s;
     incomplete_v4_reclamations_ := incomplete_v4_reclamations_ s; ctx := ctx s |}.
Definition with_stats (c : StatContext) (s : State M) : State M :=
  {| heap := heap s; db := db s; stats := c; ncrs := ncrs s;
     incomplete_v4_reclamations_ := incomplete_v4_reclamations_ s; ctx := ctx s |}.
Definition with_ncrs (n : list NameChangeRequest) (s : State M) : State M :=
  {| heap := heap s; db := db s; stats := stats s; ncrs := n;
     incomplete_v4_reclamations_ := incomplete_v4_reclamations_ s; ctx := ctx s |}.
Definition with_incomplete (n : Z) (s : State M) : State M :=
  {| heap := heap s; db := db s; stats := stats s; ncrs := ncrs s;
     incomplete_v4_reclamations_ := n; ctx := ctx s |}.
Definition with_ctx (c : ClientContext4) (s : State M) : State M :=
  {| heap := heap s; db := db s; stats := stats s; ncrs := ncrs s;
     incomplete_v4_reclamations_ := incomplete_v4_reclamations_ s; ctx := c |}.

Definition get_ctx : ST (State M) ClientContext4 := s ← get; mret (ctx s).
Definition update_ctx (f : ClientContext4 → ClientContext4) : ST (State M) unit :=
  modify (λ s, with_ctx (f (ctx s)) s).
(** A query of the lease database, and a call that changes it. *)
Definition query_db {A} (f : M → A) : ST (State M) A := s ← get; mret (f (db s)).
Definition query_db_res {A} (f : M → res A) : ST (State M) A := s ← get; lift (f (db s)).
Definition in_db {A} (m : ST M A) : ST (State M) A := zoom db with_db m.
(** [*p] and a call on the subnet at a pointer. *)
Definition the_subnet (p : Z) : ST (State M) Subnet := s ← get; lift (subnet_at (heap s) p).
Definition in_subnet {A} (p : Z) (m : ST Subnet A) : ST (State M) A := λ s,
  match subnets (heap s) !! p with
  | None => (s, Throw AssertionFailure)
  | Some sub => match m sub with (sub', r) => (with_heap (set_subnet p sub' (heap s)) s, r) end
  end.

(** [p->getNextSubnet(first, classes)]. *)
Definition next_subnet (p first : Z) (classes : ClientClasses) : ST (State M) (option Z) :=
  s ← get;
  match getNextSubnet_classes (S (base.size (subnets (heap s)))) (heap s) p first classes with
  | None => throw OutOfFuel
  | Some r => lift r
  end.

(** [while (subnet) { body; subnet = subnet->getNextSubnet(first, classes); }],
    where the body may leave the loop with a value. *)
Fixpoint walk_loop {A} (fuel : nat) (first : Z) (classes : ClientClasses)
    (body : Z → ST (State M) (option A)) (subnet : option Z) : ST (State M) (option A) :=
  match subnet, fuel with
  | None, _ => mret None
  | Some _, O => throw OutOfFuel
  | Some p, S fuel' =>
      r ← body p;
      match r with
      | Some a => mret (Some a)
      | None =>
          subnet' ← next_subnet p first classes;
          walk_loop fuel' first classes body subnet'
      end
  end.
Definition walk {A} (first : option Z) (body : Z → ST (State M) (option A)) :
    ST (State M) (option A) :=
  s ← get;
  match first with
  | None => mret None
  | Some f =>
      walk_loop (S (base.size (subnets (heap s)))) f (query_classes_ (ctx s)) body (Some f)
  end.
End State.

Section Engine.
Context {M : Type} `{LeaseMgr M} `{HostMgr} `{EngineConfig}.
Implicit Types (s : State M).

(** [StatsMgr::instance().addValue(name, int64_t(delta))]. *)
Definition stat_add (name : string) (delta : Z) : ST (State M) unit :=
  zoom stats with_stats (addValue now name (IntValue delta)).

Definition subnet_stat (subnet_id : Z) (name : string) : string :=
  generateName "subnet" subnet_id name.

(** ** Name change requests ([ncr_generator.cc]) *)

Definition queueNCR (chg_type : NameChangeType) (l : Lease4) : ST (State M) unit :=
  if bool_decide (hostname_ l = "") || (negb (fqdn_fwd_ l) && negb (fqdn_rev_ l))
     || negb ddnsEnabled
  then mret tt
  else if ncr_ok l then
    modify (λ s, with_ncrs (ncrs s ++
      [{| ncr_type_ := chg_type; ncr_fwd_ := fqdn_fwd_ l; ncr_rev_ := fqdn_rev_ l;
          ncr_fqdn_ := hostname_ l; ncr_address_ := addr_ l;
          ncr_expires_ := getExpirationTime l; ncr_length_ := valid_lft_ l |}]) s)
  else mret tt.

(** ** Reclaiming leases *)

(** Whether the lease is to be removed, and the lease as the callout left it. *)
Definition reclaimDeclined (l : Lease4) : ST (State M) (bool * Lease4) :=
  if negb (state_ l =? STATE_DECLINED) then mret (true, l)
  else
    let '(status, l) := match lease4_recover hooks with
                        | Some callout => callout l
                        | None => (NEXT_STEP_CONTINUE, l)
                        end in
    if decide (status = NEXT_STEP_SKIP) then mret (false, l)
    else
      _ ← stat_add (subnet_stat (subnet_id_ l) "declined-addresses") (-1);
      _ ← stat_add "declined-addresses" (-1);
      _ ← stat_add "reclaimed-declined-addresses" 1;
      _ ← stat_add (subnet_stat (subnet_id_ l) "reclaimed-declined-addresses") 1;
      mret (true, l).

Definition reclaimLeaseInDatabase (l : Lease4) (remove_lease : bool) : ST (State M) Lease4 :=
  if remove_lease then
    _ ← in_db (lm_deleteLease (addr_ l)); mret l
  else
    let l := with_state (with_dns l false false "") STATE_EXPIRED_RECLAIMED in
    _ ← in_db (lm_updateLease4 l); mret l.

(** [reclaimExpiredLease(lease, reclaim_mode, callout_handle)]; the result is
    the lease object after the call. *)
Definition reclaimExpiredLease_mode (l : Lease4) (reclaim_mode : DbReclaimMode)
    (callout_handle : bool) : ST (State M) Lease4 :=
  let '(status, l) := match callout_handle, lease4_expire hooks with
                      | true, Some callout =>
                          callout (bool_decide (reclaim_mode = DB_RECLAIM_REMOVE)) l
                      | _, _ => (NEXT_STEP_CONTINUE, l)
                      end in
  l ← (if decide (status = NEXT_STEP_SKIP) then mret l
       else
         _ ← queueNCR CHG_REMOVE l;
         let remove_lease := bool_decide (reclaim_mode = DB_RECLAIM_REMOVE) in
         '(remove_lease, l) ← (if state_ l =? STATE_DECLINED then reclaimDeclined l
                               else mret (remove_lease, l));
         if decide (reclaim_mode = DB_RECLAIM_LEAVE_UNCHANGED) then mret l
         else reclaimLeaseInDatabase l remove_lease);
  _ ← stat_add (subnet_stat (subnet_id_ l) "assigned-addresses") (-1);
  _ ← stat_add "reclaimed-leases" 1;
  _ ← stat_add (subnet_stat (subnet_id_ l) "reclaimed-leases") 1;
  mret l.

(** The variant used by the allocation and the renewal of leases. *)
Definition reclaimExpiredLease (l : Lease4) (callout_handle : bool) : ST (State M) Lease4 :=
  if stateExpiredReclaimed l then mret l
  else reclaimExpiredLease_mode l DB_RECLAIM_LEAVE_UNCHANGED callout_handle.

(** The variant used by the periodic reclamation. *)
Definition reclaimExpiredLease_remove (l : Lease4) (remove_lease : bool)
    (callout_handle : bool) : ST (State M) Lease4 :=
  reclaimExpiredLease_mode l (if remove_lease then DB_RECLAIM_REMOVE else DB_RECLAIM_UPDATE)
    callout_handle.

(** The loop of [reclaimExpiredLeases4]: [elapsed k] is what the stopwatch
    shows after the [k]-th lease.  The result is the number of leases processed
    and whether the loop was left because of the timeout. *)
Fixpoint reclaim_loop (elapsed : nat → Z) (timeout : Z) (remove_lease callout_handle : bool)
    (k processed : nat) (leases : list Lease4) : ST (State M) (nat * bool) :=
  match leases with
  | [] => mret (processed, false)
  | l :: leases' =>
      processed ← try_catch
        (_ ← reclaimExpiredLease_remove l remove_lease callout_handle; mret (S processed))
        (mret processed);
      if (0 <? timeout) && (timeout <=? elapsed (S k)) then mret (processed, true)
      else reclaim_loop elapsed timeout remove_lease callout_handle (S k) processed leases'
  end.

Definition reclaimExpiredLeases4 (elapsed : nat → Z) (max_leases : nat) (timeout : Z)
    (remove_lease : bool) (max_unwarned_cycles : Z) : ST (State M) unit :=
  '(leases, incomplete) ←
    (if (0 <? max_leases)%nat then
       leases ← query_db_res (lm_getExpiredLeases4 now (S max_leases));
       mret (if (max_leases <? length leases)%nat
             then (take (length leases - 1) leases, true) else (leases, false))
     else
       leases ← query_db_res (lm_getExpiredLeases4 now max_leases);
       mret (leases, false));
  let callout_handle := bool_decide (leases ≠ []) && bool_decide (is_Some (lease4_expire hooks)) in
  '(processed, timed_out) ←
    reclaim_loop elapsed timeout remove_lease callout_handle 0 0 leases;
  let incomplete := incomplete || (timed_out && (processed <? length leases)%nat) in
  if incomplete then
    _ ← modify (λ s, with_incomplete ((incomplete_v4_reclamations_ s + 1) `mod` 2 ^ 16) s);
    modify (λ s, if (0 <? max_unwarned_cycles)
                    && (max_unwarned_cycles <? incomplete_v4_reclamations_ s)
                 then with_incomplete 0 s else s)
  else modify (with_incomplete 0).

(** [AllocEngine::deleteExpiredReclaimedLeases4]. *)
Definition engine_deleteExpiredReclaimedLeases4 (secs : Z) : ST (State M) unit :=
  try_catch (_ ← in_db (lm_deleteExpiredReclaimedLeases4 now secs); mret tt) (mret tt).

(** ** Reservations *)

Definition mode_is (s : Subnet) (m : HRMode) : bool :=
  bool_decide (host_reservation_mode_ s = m).

(** An address may be reserved in the subnet: always in the mode "all", and
    out of the pools in the mode "out of pool". *)
Definition reservable (s : Subnet) (address : IOAddress) : res bool :=
  if mode_is s HR_ALL then mret true
  else if mode_is s HR_OUT_OF_POOL then b ← inPool s TYPE_V4 address; mret (negb b)
  else mret false.

(** The address is reserved for a client with other identifiers. *)
Definition addressReserved (address : IOAddress) : ST (State M) bool :=
  c ← get_ctx;
  match ctx_subnet_ c with
  | None => mret false
  | Some p =>
      sub ← the_subnet p;
      guard ← lift (reservable sub address);
      if negb guard then mret false
      else
        host ← lift (host_get4_address (id_ sub) address);
        match host with
        | None => mret false
        | Some h =>
            mret match find (λ id, bool_decide (id.1 = identifier_type_ h))
                         (host_identifiers_ c) with
                 | Some id => bool_decide (id.2 ≠ identifier_value_ h)
                 | None => true
                 end
        end
  end.

(** The context holds a reservation of an IPv4 address; the subnet of the
    context becomes the one of the reservation, except in the global mode. *)
Definition hasAddressReservation : ST (State M) bool :=
  c ← get_ctx;
  if decide (ctx_hosts_ c = ∅) then mret false
  else
    r ← walk (ctx_subnet_ c) (λ p,
      sub ← the_subnet p;
      if mode_is sub HR_GLOBAL then
        mret (Some match ctx_hosts_ c !! SUBNET_ID_GLOBAL with
                   | Some host => negb (isV4Zero (ipv4_reservation_ host))
                   | None => false
                   end)
      else
        match ctx_hosts_ c !! id_ sub with
        | Some host =>
            if negb (isV4Zero (ipv4_reservation_ host)) then
              ok ← lift (reservable sub (ipv4_reservation_ host));
              if (ok : bool) then _ ← update_ctx (ctx_with_subnet (Some p)); mret (Some true)
              else mret None
            else mret None
        | None => mret None
        end);
    mret (default false r).

(** [currentHost()], and [currentHost()->getIPv4Reservation()]. *)
Definition currentHost : ST (State M) (option Host) :=
  c ← get_ctx;
  match ctx_subnet_ c with
  | None => mret None
  | Some p =>
      sub ← the_subnet p;
      let id := if mode_is sub HR_GLOBAL then SUBNET_ID_GLOBAL else id_ sub in
      mret (ctx_hosts_ c !! id)
  end.
Definition reservedAddress : ST (State M) IOAddress :=
  host ← currentHost;
  match host with Some h => mret (ipv4_reservation_ h) | None => throw AssertionFailure end.

(** [findGlobalReservation] and the inner loop of [findReservation]: the first
    identifier for which there is a host in the subnet. *)
Fixpoint find_host (subnet_id : Z) (identifiers : list (IdentifierType * list Z)) :
    res (option Host) :=
  match identifiers with
  | [] => mret None
  | (type, identifier) :: identifiers' =>
      host ← host_get4_identifier subnet_id type identifier;
      match host with Some h => mret (Some h) | None => find_host subnet_id identifiers' end
  end.
Definition findGlobalReservation (identifiers : list (IdentifierType * list Z)) :
    res (option Host) := find_host SUBNET_ID_GLOBAL identifiers.

(** The single query: the hosts of all the identifiers by IPv4 subnet, where a
    later host replaces an earlier one. *)
Fixpoint single_query (host_map : gmap Z Host) (identifiers : list (IdentifierType * list Z)) :
    res (gmap Z Host) :=
  match identifiers with
  | [] => mret host_map
  | (type, identifier) :: identifiers' =>
      hosts ← host_getAll type identifier;
      single_query (foldl (λ m h, if 0 <? ipv4_subnet_id_ h
                                  then <[ipv4_subnet_id_ h := h]> m else m) host_map hosts)
        identifiers'
  end.

Definition add_host (subnet_id : Z) (host : option Host) : ST (State M) unit :=
  match host with
  | Some h => update_ctx (λ c, ctx_with_hosts (<[subnet_id := h]> (ctx_hosts_ c)) c)
  | None => mret tt
  end.

Definition findReservation : ST (State M) unit :=
  _ ← update_ctx (ctx_with_hosts ∅);
  c ← get_ctx;
  match ctx_subnet_ c with
  | None => mret tt
  | Some p =>
      sub ← the_subnet p;
      let ids := host_identifiers_ c in
      ghost ← (if mode_is sub HR_GLOBAL then lift (findGlobalReservation ids) else mret None);
      match ghost with
      | Some h => add_host SUBNET_ID_GLOBAL (Some h)
      | None =>
          s ← get;
          let use_single_query :=
            match shared_network_ sub with
            | Some n =>
                match networks (heap s) !! n with
                | Some net => (length ids <? length (subnets_ net))%nat
                | None => false
                end
            | None => false
            end in
          host_map ← (if use_single_query then lift (single_query ∅ ids) else mret ∅);
          _ ← walk (Some p) (λ q,
            sub ← the_subnet q;
            s ← get;
            supported ← lift (clientSupported (heap s) sub (query_classes_ c));
            _ ← (if (supported : bool) && negb (mode_is sub HR_DISABLED) then
                   if use_single_query then
                     add_host (id_ sub) (if bool_decide (ids = []) then None
                                         else host_map !! id_ sub)
                   else host ← lift (find_host (id_ sub) ids); add_host (id_ sub) host
                 else mret tt);
            mret (None : option unit));
          mret tt
      end
  end.

(** ** Finding the client's lease *)

Definition findClientLease : ST (State M) (option Lease4) :=
  c ← get_ctx;
  let original_subnet := ctx_subnet_ c in
  r ← (match clientid_ c with
       | Some cid =>
           leases ← query_db (lm_getLease4_cid cid);
           walk original_subnet (λ p,
             sub ← the_subnet p;
             if match_client_id_ sub then
               match find (λ l, subnet_id_ l =? id_ sub) leases with
               | Some l => _ ← update_ctx (ctx_with_subnet (Some p)); mret (Some l)
               | None => mret None
               end
             else mret None)
       | None => mret None
       end);
  match r, ctx_hwaddr_ c with
  | None, Some hw =>
      leases ← query_db (lm_getLease4_hwaddr hw);
      walk original_subnet (λ p,
        sub ← the_subnet p;
        let client_id := if match_client_id_ sub then clientid_ c else None in
        match find (λ l, (subnet_id_ l =? id_ sub)
                         && belongsToClient l (ctx_hwaddr_ c) client_id) leases with
        | Some l => _ ← update_ctx (ctx_with_subnet (Some p)); mret (Some l)
        | None => mret None
        end)
  | _, _ => mret r
  end.

(** The address is in a pool, open to the client, of the subnet or of another
    subnet of the network, which becomes the subnet of the context. *)
Definition inAllowedPool (address : IOAddress) : ST (State M) bool :=
  c ← get_ctx;
  r ← walk (ctx_subnet_ c) (λ p,
    sub ← the_subnet p;
    b ← lift (inPool_classes sub TYPE_V4 address (query_classes_ c));
    if (b : bool) then _ ← update_ctx (ctx_with_subnet (Some p)); mret (Some tt)
    else mret None);
  mret (bool_decide (is_Some r)).

(** ** Creating, reusing and renewing leases *)

(** [ctx.subnet_->...]. *)
Definition current_subnet : ST (State M) Subnet :=
  c ← get_ctx;
  match ctx_subnet_ c with Some p => the_subnet p | None => throw AssertionFailure end.

Definition updateLease4Information (l : Lease4) : ST (State M) Lease4 :=
  c ← get_ctx;
  sub ← current_subnet;
  mret {| addr_ := addr_ l; t1_ := net_t1_ sub; t2_ := net_t2_ sub;
          valid_lft_ := valid_ sub; cltt_ := now; subnet_id_ := id_ sub;
          hostname_ := ctx_hostname_ c; fqdn_fwd_ := fwd_dns_update_ c;
          fqdn_rev_ := rev_dns_update_ c; hwaddr_ := ctx_hwaddr_ c;
          client_id_ := if match_client_id_ sub then clientid_ c else None;
          state_ := state_ l |}.

(** [addr_ l] may differ from the candidate when a callout replaced the lease. *)
Definition createLease4 (addr : IOAddress) : ST (State M) (option Lease4 * NextStep) :=
  c ← get_ctx;
  match ctx_hwaddr_ c, ctx_subnet_ c with
  | None, _ => throw BadValue
  | Some _, None => throw BadValue
  | Some _, Some p =>
      sub ← the_subnet p;
      let client_id := match clientid_ c with
                       | Some (b :: bytes) =>
                           if match_client_id_ sub then Some (b :: bytes) else None
                       | _ => None
                       end in
      let l := mkLease4 addr (ctx_hwaddr_ c) client_id (valid_ sub) (net_t1_ sub) (net_t2_ sub)
                 now (id_ sub) (fwd_dns_update_ c) (rev_dns_update_ c) (ctx_hostname_ c) in
      let '(status, l) := match callout_handle_ c, lease4_select hooks with
                          | true, Some callout => callout c l
                          | _, _ => (NEXT_STEP_CONTINUE, l)
                          end in
      if decide (status = NEXT_STEP_SKIP) then mret (None, status)
      else if negb (fake_allocation_ c) then
        added ← in_db (lm_addLease l);
        if (added : bool) then
          _ ← stat_add (subnet_stat (id_ sub) "assigned-addresses") 1;
          mret (Some l, status)
        else mret (None, status)
      else
        existing ← query_db (lm_getLease4 addr);
        match existing with
        | None => mret (Some l, status)
        | Some _ => mret (None, status)
        end
  end.

(** [renewLease4]; the lease before the call is kept for a roll-back. *)
Definition renewLease4 (old_values : Lease4) : ST (State M) Lease4 :=
  _ ← update_ctx (ctx_with_old (Some old_values));
  l ← updateLease4Information old_values;
  c ← get_ctx;
  let fake := fake_allocation_ c in
  '(old, l) ← (if negb fake then
                 old ← (if expired now old_values
                        then reclaimExpiredLease old_values (callout_handle_ c)
                        else mret old_values);
                 _ ← update_ctx (ctx_with_old (Some old));
                 mret (old, with_state l STATE_DEFAULT)
               else mret (old_values, l));
  '(skip, l) ← (match lease4_renew hooks with
                | Some callout =>
                    if negb (callout_handle_ c) then throw AssertionFailure
                    else
                      c ← get_ctx;
                      let '(status, l) := callout c l in
                      mret (bool_decide (status = NEXT_STEP_SKIP), l)
                | None => mret (false, l)
                end);
  _ ← (if negb fake && negb skip then
         _ ← in_db (lm_updateLease4 l);
         if expired now old || stateExpiredReclaimed old then
           sub ← current_subnet;
           stat_add (subnet_stat (id_ sub) "assigned-addresses") 1
         else mret tt
       else mret tt);
  mret (if (skip : bool) then old_values else l).

Definition reuseExpiredLease4 (l : Lease4) : ST (State M) (option Lease4 * NextStep) :=
  c ← get_ctx;
  match ctx_subnet_ c with
  | None => throw BadValue
  | Some p =>
      l ← (if negb (fake_allocation_ c) then
             l ← reclaimExpiredLease l (callout_handle_ c);
             mret (with_state l STATE_DEFAULT)
           else mret l);
      l ← updateLease4Information l;
      let '(status, l) := match callout_handle_ c, lease4_select hooks with
                          | true, Some callout => callout c l
                          | _, _ => (NEXT_STEP_CONTINUE, l)
                          end in
      if decide (status = NEXT_STEP_SKIP) then mret (None, status)
      else
        _ ← (if negb (fake_allocation_ c) then
               _ ← in_db (lm_updateLease4 l);
               sub ← current_subnet;
               stat_add (subnet_stat (id_ sub) "assigned-addresses") 1
             else mret tt);
        mret (Some l, status)
  end.

Definition allocateOrReuseLease4 (candidate : IOAddress) :
    ST (State M) (option Lease4 * NextStep) :=
  _ ← update_ctx (ctx_with_conflicting None);
  exist_lease ← query_db (lm_getLease4 candidate);
  match exist_lease with
  | Some l =>
      if expired now l then
        _ ← update_ctx (ctx_with_old (Some l));
        reuseExpiredLease4 l
      else
        _ ← update_ctx (ctx_with_conflicting (Some l));
        mret (None, NEXT_STEP_CONTINUE)
  | None => createLease4 candidate
  end.

(** The attempts in one subnet: a lease, or [None] when the attempts are used
    up, or [Some None] when a callout stopped the search. *)
Fixpoint attempt_loop (attempts : nat) (p : Z) :
    ST (State M) (option (option Lease4)) :=
  match attempts with
  | O => mret None
  | S attempts' =>
      c ← get_ctx;
      candidate ← in_subnet p (pickAddress TYPE_V4 (query_classes_ c) now);
      reserved ← addressReserved candidate;
      if (reserved : bool) then attempt_loop attempts' p
      else
        '(new_lease, status) ← allocateOrReuseLease4 candidate;
        match new_lease with
        | Some l => mret (Some (Some l))
        | None =>
            if callout_handle_ c && bool_decide (status ≠ NEXT_STEP_CONTINUE)
            then mret (Some None)
            else attempt_loop attempts' p
        end
  end.

(** [while (subnet) { ...; subnet = next; if (subnet) ctx.subnet_ = subnet; }] *)
Fixpoint subnets_loop (fuel : nat) (original : Z) (subnet : option Z) :
    ST (State M) (option Lease4) :=
  match subnet, fuel with
  | None, _ => mret None
  | Some _, O => throw OutOfFuel
  | Some p, S fuel' =>
      c ← get_ctx;
      sub ← the_subnet p;
      let possible_attempts := getPoolCapacity_classes sub TYPE_V4 (query_classes_ c) in
      let max_attempts := if 0 <? attempts_ then attempts_ else possible_attempts in
      let max_attempts := if possible_attempts =? 0 then 0 else max_attempts in
      r ← attempt_loop (Z.to_nat max_attempts) p;
      match r with
      | Some r => mret r
      | None =>
          subnet' ← next_subnet p original (query_classes_ c);
          _ ← (match subnet' with
               | Some _ => update_ctx (ctx_with_subnet subnet')
               | None => mret tt
               end);
          subnets_loop fuel' original subnet'
      end
  end.

Definition allocateUnreservedLease4 : ST (State M) (option Lease4) :=
  sub ← current_subnet;
  s ← get;
  _ ← (match shared_network_ sub, ctx_subnet_ (ctx s) with
       | Some n, Some selected =>
           net ← lift (network_at (heap s) n);
           p ← lift (getPreferredSubnet (heap s) (subnets_ net) selected TYPE_V4);
           update_ctx (ctx_with_subnet (Some p))
       | _, _ => mret tt
       end);
  c ← get_ctx;
  match ctx_subnet_ c with
  | None => mret None
  | Some p => subnets_loop (S (base.size (subnets (heap s)))) p (Some p)
  end.

(** ** Discover and request *)

(** [a && b], where [b] is evaluated only when [a] holds, and [a || b]. *)
Definition and_then (a b : ST (State M) bool) : ST (State M) bool :=
  x ← a; if (x : bool) then b else mret false.
Definition or_else (a b : ST (State M) bool) : ST (State M) bool :=
  x ← a; if (x : bool) then mret true else b.
Definition negate (a : ST (State M) bool) : ST (State M) bool := x ← a; mret (negb x).

(** The stages of [discoverLease4]: the reserved address, the lease the client
    has, the address it asks for, and any address of the pools. *)
Definition offer_reserved (client_lease : option Lease4) : ST (State M) (option Lease4) :=
  has ← hasAddressReservation;
  if negb has then mret None
  else
    reserved ← reservedAddress;
    match client_lease with
    | Some l => if negb (equals (addr_ l) reserved)
                then fst <$> allocateOrReuseLease4 reserved
                else Some <$> renewLease4 l
    | None => fst <$> allocateOrReuseLease4 reserved
    end.

Definition offer_existing (client_lease : option Lease4) : ST (State M) (option Lease4) :=
  match client_lease with
  | None => mret None
  | Some l =>
      ok ← and_then (inAllowedPool (addr_ l)) (negate (addressReserved (addr_ l)));
      if (ok : bool) then Some <$> renewLease4 l else mret None
  end.

Definition offer_requested : ST (State M) (option Lease4) :=
  c ← get_ctx;
  if isV4Zero (requested_address_ c) then mret None
  else
    ok ← and_then (inAllowedPool (requested_address_ c))
                  (negate (addressReserved (requested_address_ c)));
    if (ok : bool) then fst <$> allocateOrReuseLease4 (requested_address_ c) else mret None.

(** [if (!new_lease) next] *)
Definition or_try (a b : ST (State M) (option Lease4)) : ST (State M) (option Lease4) :=
  r ← a; match r with Some l => mret (Some l) | None => b end.

Definition discoverLease4 : ST (State M) (option Lease4) :=
  client_lease ← findClientLease;
  new_lease ← or_try (or_try (or_try
    (offer_reserved client_lease)
    (offer_existing client_lease))
    offer_requested)
    allocateUnreservedLease4;
  c ← get_ctx;
  _ ← (match old_lease_ c, client_lease with
       | None, Some l => update_ctx (ctx_with_old (Some l))
       | _, _ => mret tt
       end);
  mret new_lease.

(** The address to allocate: the one the client asks for, unless it is reserved
    for another client (the request then ends), or the one reserved for it. *)
Definition choose_requested : ST (State M) bool :=
  c ← get_ctx;
  if negb (isV4Zero (requested_address_ c)) then negate (addressReserved (requested_address_ c))
  else
    has ← hasAddressReservation;
    if (has : bool) then
      reserved ← reservedAddress;
      _ ← update_ctx (ctx_with_requested reserved);
      mret true
    else mret true.

(** The checks of [requestLease4] on a specific address. *)
Definition in_use_by_other (a : IOAddress) : ST (State M) bool :=
  existing ← query_db (lm_getLease4 a);
  match existing with
  | None => mret false
  | Some l =>
      if expired now l then mret false
      else
        c ← get_ctx;
        sub ← current_subnet;
        mret (negb (belongsToClient l (ctx_hwaddr_ c)
                      (if match_client_id_ sub then clientid_ c else None)))
  end.

(** [currentHost()->getIPv4Reservation() != a] *)
Definition reserved_differs (a : IOAddress) : ST (State M) bool :=
  reserved ← reservedAddress; mret (negb (equals reserved a)).

Definition reserved_is_free (a : IOAddress) : ST (State M) bool :=
  other ← and_then hasAddressReservation (reserved_differs a);
  if (other : bool) then
    reserved ← reservedAddress;
    existing ← query_db (lm_getLease4 reserved);
    mret match existing with Some l => expired now l | None => true end
  else mret false.

Definition out_of_pool (a : IOAddress) : ST (State M) bool :=
  not_mine ← or_else (negate hasAddressReservation) (reserved_differs a);
  if (not_mine : bool) then negate (inAllowedPool a) else mret false.

Definition check_requested (a : IOAddress) : ST (State M) bool :=
  if isV4Zero a then mret true
  else negate (or_else (in_use_by_other a) (or_else (reserved_is_free a) (out_of_pool a))).

(** The client has the address it asks for, or asks for none. *)
Definition renewable (client_lease : option Lease4) (a : IOAddress) : ST (State M) (option Lease4) :=
  match client_lease with
  | None => mret None
  | Some l =>
      if equals (addr_ l) a || isV4Zero a then
        ok ← or_else hasAddressReservation (inAllowedPool (addr_ l));
        mret (if (ok : bool) then Some l else None)
      else mret None
  end.

(** The removal of the lease the client had. *)
Definition remove_client_lease (l : Lease4) : ST (State M) unit :=
  _ ← update_ctx (ctx_with_old (Some l));
  _ ← in_db (lm_deleteLease (addr_ l));
  stat_add (subnet_stat (subnet_id_ l) "assigned-addresses") (-1).

Definition requestLease4 : ST (State M) (option Lease4) :=
  client_lease ← findClientLease;
  go_on ← choose_requested;
  if negb go_on then mret None
  else
    c ← get_ctx;
    let requested := requested_address_ c in
    allowed ← check_requested requested;
    if negb allowed then mret None
    else
      own ← renewable client_lease requested;
      match own with
      | Some l => Some <$> renewLease4 l
      | None =>
          new_lease ← (if negb (isV4Zero requested)
                       then fst <$> allocateOrReuseLease4 requested
                       else allocateUnreservedLease4);
          match new_lease, client_lease with
          | Some l, Some cl => _ ← remove_client_lease cl; mret (Some l)
          | _, _ => mret new_lease
          end
      end.

Definition allocateLease4 : ST (State M) (option Lease4) :=
  _ ← update_ctx (λ c, ctx_with_new None (ctx_with_old None c));
  c ← get_ctx;
  _ ← (match ctx_subnet_ c with
       | Some p =>
           sub ← the_subnet p;
           s ← get;
           supported ← lift (clientSupported (heap s) sub (query_classes_ c));
           if (supported : bool) then mret tt
           else
             p' ← next_subnet p p (query_classes_ c);
             update_ctx (ctx_with_subnet p')
       | None => mret tt
       end);
  try_catch
    (c ← get_ctx;
     match ctx_subnet_ c, ctx_hwaddr_ c with
     | None, _ => throw BadValue
     | Some _, None => throw BadValue
     | Some _, Some _ =>
         if fake_allocation_ c then discoverLease4
         else
           l ← requestLease4;
           _ ← update_ctx (ctx_with_new l);
           mret l
     end)
    (c ← get_ctx; mret (new_lease_ c)).
End Engine.
