(* ===== verification/AllocEngine4Safety.v ===== *)
(** * Safety of the DHCPv4 allocation engine

    What the engine never does, whatever path a message takes: it does not touch
    the lease of another client while it lasts, it changes nothing on behalf of a
    client that has only asked for an offer, and its loops end.  The proofs are
    against the interface of the lease database.

    [frame s s'] relates the states before and after a step of the engine, [inv] is
    the invariant of the configuration, and [safe m s Q] says that [m] run from [s]
    keeps both, satisfies [Q] if it returns and never runs out of fuel. *)

From S2P Require Import Prelude Algorithms IoAddress AddrUtilities Pool Subnet.
From S2P Require Import SharedNetwork IterativeAllocator StatsMgr Lease LeaseMgr Host.
From S2P Require Import EngineHeap AllocEngine4.
Local Open Scope Z_scope.
#[local] Set Default Proof Using "All".

(** ** The frame of a step *)

(** The subnet satisfies the invariants of DHCPv4 subnets and of the allocator. *)
Definition wf4 (s : Subnet) : Prop :=
  kind s = Kind4 ∧ wf_subnet s ∧ Forall (pool_ok TYPE_V4) (pools_of s TYPE_V4).

(** The part of a context that belongs to the client is the same. *)
Definition same_client (c c' : ClientContext4) : Prop :=
  ∃ subnet requested old conflicting,
    c' = ctx_with c subnet requested old (new_lease_ c) conflicting (ctx_hosts_ c).

(** The lease belongs to the client, as a subnet of the configuration sees it. *)
Definition mine (h : Heap) (c : ClientContext4) (l : Lease4) : Prop :=
  ∃ p sub, subnets h !! p = Some sub ∧
    belongsToClient l (ctx_hwaddr_ c) (if match_client_id_ sub then clientid_ c else None) = true.

Lemma same_client_refl c : same_client c c.
Proof.
  exists (ctx_subnet_ c), (requested_address_ c), (old_lease_ c), (conflicting_lease_ c).
  by destruct c.
Qed.
Lemma same_client_sym c c' : same_client c c' → same_client c' c.
Proof.
  intros (? & ? & ? & ? & ->).
  exists (ctx_subnet_ c), (requested_address_ c), (old_lease_ c), (conflicting_lease_ c).
  by destruct c.
Qed.
Lemma same_client_trans c c' c'' : same_client c c' → same_client c' c'' → same_client c c''.
Proof. intros (? & ? & ? & ? & ->) (? & ? & ? & ? & ->). by do 4 eexists. Qed.
Lemma same_client_eq c c' : same_client c c' →
  clientid_ c' = clientid_ c ∧ ctx_hwaddr_ c' = ctx_hwaddr_ c ∧
  fake_allocation_ c' = fake_allocation_ c ∧ query_classes_ c' = query_classes_ c ∧
  callout_handle_ c' = callout_handle_ c ∧ new_lease_ c' = new_lease_ c ∧
  ctx_hosts_ c' = ctx_hosts_ c.
Proof. by intros (? & ? & ? & ? & ->). Qed.

Lemma mine_frame h h' c c' l :
  heap_shape h' = heap_shape h → same_client c c' → mine h c l → mine h' c' l.
Proof.
  intros Eh Ec (p & sub & Hp & Hb).
  destruct (heap_shape_lookup _ _ _ _ (eq_sym Eh) Hp) as (sub' & Hp' & Es).
  exists p, sub'. split; [done|]. apply shape_fields in Es as (_ & _ & -> & _).
  by destruct (same_client_eq _ _ Ec) as (-> & -> & _).
Qed.

Section Frame.
Context {M : Type} `{LeaseMgrLaws M} `{HostMgr} `{EngineConfig}.
Implicit Types (s : State M).

Record inv s : Prop := {
  inv_heap : wf_heap (heap s);
  inv_subnets : ∀ p sub, subnets (heap s) !! p = Some sub → wf4 sub;
  inv_clientid : clientid_ (ctx s) ≠ Some [];
  inv_subnet : ∀ p, ctx_subnet_ (ctx s) = Some p → is_Some (subnets (heap s) !! p)
}.

(** A lease in use by another client. *)
Definition foreign s (l : Lease4) : Prop :=
  expired now l = false ∧ ¬ mine (heap s) (ctx s) l.

Record frame s s' : Prop := {
  frame_client : same_client (ctx s) (ctx s');
  frame_heap : heap_shape (heap s') = heap_shape (heap s);
  frame_fake : fake_allocation_ (ctx s) = true →
    db s' = db s ∧ stats s' = stats s ∧ ncrs s' = ncrs s ∧
    incomplete_v4_reclamations_ s' = incomplete_v4_reclamations_ s;
  frame_foreign : ∀ a l, lm_leases (db s) !! a = Some l → foreign s l →
    lm_leases (db s') !! a = Some l
}.

Lemma frame_refl s : frame s s.
Proof. split; eauto using same_client_refl. Qed.

Lemma foreign_frame s s' l : frame s s' → foreign s l → foreign s' l.
Proof.
  intros Hf [He Hm]. split; [done|]. intros Hm'. apply Hm.
  eapply mine_frame; [symmetry; apply Hf|apply same_client_sym, Hf|exact Hm'].
Qed.

Lemma frame_trans s s' s'' : frame s s' → frame s' s'' → frame s s''.
Proof.
  intros HA HB. pose proof (foreign_frame s s') as Hfor.
  pose proof HA as [A1 A2 A3 A4]. destruct HB as [B1 B2 B3 B4]. split.
  - eauto using same_client_trans.
  - congruence.
  - intros Hfake. destruct (A3 Hfake) as (? & ? & ? & ?).
    destruct (same_client_eq _ _ A1) as (_ & _ & Ef & _).
    destruct B3 as (? & ? & ? & ?); [congruence|]. split_and!; congruence.
  - intros a l Ha Hl. apply B4; [by apply A4|]. apply Hfor; [by split|done].
Qed.

(** ** Safe computations *)

Definition safe {A} (m : ST (State M) A) s (Q : A → State M → Prop) : Prop :=
  inv s → wp m s (λ a s', inv s' ∧ frame s s' ∧ Q a s')
                 (λ e s', inv s' ∧ frame s s' ∧ e ≠ OutOfFuel).

Lemma safe_ret {A} (a : A) s (Q : A → State M → Prop) : Q a s → safe (mret a) s Q.
Proof. intros HQ Hs. apply wp_ret. eauto using frame_refl. Qed.
Lemma safe_throw {A} e s (Q : A → State M → Prop) : e ≠ OutOfFuel → safe (throw e) s Q.
Proof. intros He Hs. apply wp_throw. eauto using frame_refl. Qed.
Lemma safe_lift {A} (r : res A) s (Q : A → State M → Prop) :
  r ≠ Throw OutOfFuel → (∀ a, r = Ok a → Q a s) → safe (lift r) s Q.
Proof.
  intros Hr HQ Hs. apply wp_lift. destruct r as [a|e]; [eauto using frame_refl|].
  split_and!; [done|apply frame_refl|congruence].
Qed.
Lemma safe_get s (Q : State M → State M → Prop) : Q s s → safe get s Q.
Proof. intros HQ Hs. apply wp_get. eauto using frame_refl. Qed.

Lemma safe_bind {A B} (m : ST (State M) A) (f : A → ST (State M) B) s P Q :
  safe m s P → (∀ a s', inv s' → frame s s' → P a s' → safe (f a) s' Q) → safe (m ≫= f) s Q.
Proof.
  intros Hm Hf Hs. apply wp_bind. eapply wp_mono; [by apply Hm| |by auto].
  intros a s' (Hs' & Hfr & HP). eapply wp_mono; [by apply (Hf a s')| |].
  - intros b s'' (? & ? & ?). eauto using frame_trans.
  - intros e s'' (? & ? & ?). eauto using frame_trans.
Qed.

Lemma safe_fmap {A B} (m : ST (State M) A) (f : A → B) s (Q : B → State M → Prop) :
  safe m s (λ a, Q (f a)) → safe (f <$> m) s Q.
Proof. intros Hm Hs. apply wp_fmap. by apply Hm. Qed.

Lemma safe_mono {A} (m : ST (State M) A) s (P Q : A → State M → Prop) :
  safe m s P → (∀ a s', inv s' → frame s s' → P a s' → Q a s') → safe m s Q.
Proof.
  intros Hm HQ Hs. eapply wp_mono; [by apply Hm| |by auto].
  intros a s' (? & ? & ?). split_and!; auto.
Qed.

Lemma safe_try_catch {A} (m h : ST (State M) A) s Q :
  safe m s Q → (∀ s', inv s' → frame s s' → safe h s' Q) → safe (try_catch m h) s Q.
Proof.
  intros Hm Hh Hs. apply wp_try_catch. eapply wp_mono; [by apply Hm|by auto|].
  intros e s' (Hs' & Hf & He). destruct (catchable e); [|by auto].
  eapply wp_mono; [by apply (Hh s')| |].
  - intros a s'' (? & ? & ?). eauto using frame_trans.
  - intros e' s'' (? & ? & ?). eauto using frame_trans.
Qed.

Lemma safe_query_db {A} (f : M → A) s (Q : A → State M → Prop) :
  Q (f (db s)) s → safe (query_db f) s Q.
Proof. intros HQ Hs. apply wp_bind, wp_get, wp_ret. eauto using frame_refl. Qed.
Lemma safe_get_ctx s (Q : ClientContext4 → State M → Prop) :
  Q (ctx s) s → safe get_ctx s Q.
Proof. intros HQ Hs. apply wp_bind, wp_get, wp_ret. eauto using frame_refl. Qed.

Lemma safe_the_subnet p s (Q : Subnet → State M → Prop) :
  (∀ sub, subnets (heap s) !! p = Some sub → wf4 sub → Q sub s) → safe (the_subnet p) s Q.
Proof.
  intros HQ Hs. apply wp_bind, wp_get, wp_lift. unfold subnet_at.
  destruct (subnets (heap s) !! p) as [sub|] eqn:E; [|split_and!; [done|apply frame_refl|done]].
  split_and!; [done|apply frame_refl|]. apply HQ; [done|]. by apply (inv_subnets s Hs p).
Qed.

Lemma safe_update_ctx f s (Q : unit → State M → Prop) :
  same_client (ctx s) (f (ctx s)) →
  (∀ p, ctx_subnet_ (f (ctx s)) = Some p →
     ctx_subnet_ (ctx s) = Some p ∨ is_Some (subnets (heap s) !! p)) →
  Q tt (with_ctx (f (ctx s)) s) → safe (update_ctx f) s Q.
Proof.
  intros Hf Hsub HQ Hs. apply wp_modify. split_and!; [|split|done]; cbn.
  - destruct Hs as [H1' H2' H3' H4']. split; cbn; [done|done| |].
    + destruct (same_client_eq _ _ Hf) as (-> & _). done.
    + intros p [Hp|Hp]%Hsub; [by apply H4'|done].
  - done.
  - done.
  - done.
  - by intros.
Qed.

(** The parts of a subnet of the state are those of the state before. *)
Lemma frame_lookup s s' p sub :
  frame s s' → subnets (heap s) !! p = Some sub →
  ∃ sub', subnets (heap s') !! p = Some sub' ∧ shape sub' = shape sub.
Proof. intros Hf Hp. eapply heap_shape_lookup; [symmetry; apply Hf|done]. Qed.
End Frame.

(** ** Statistics, name change requests and the database *)

Lemma wp_addValue now name v c :
  wp (addValue now name v) c (λ _ _, True) (λ e _, e ≠ OutOfFuel).
Proof.
  assert (∀ v o, obs_setValue now v o ≠ Throw OutOfFuel) as Hset.
  { intros w o. unfold obs_setValue, throw_if. by case_bool_decide. }
  unfold addValue. apply wp_bind, wp_get. destruct (c !! name) as [o|].
  - apply wp_bind, wp_lift. destruct (obs_addValue now v o) as [o'|e] eqn:E; [by apply wp_modify|].
    intros ->. unfold obs_addValue, getInteger, getDuration, getString, front, throw_if in E.
    destruct v, (integer_samples_ o), (duration_samples_ o), (string_samples_ o);
      repeat case_bool_decide; cbn in E; try done; by eapply Hset.
  - unfold setValue. apply wp_bind, wp_get. destruct (c !! name) as [o|].
    + apply wp_bind, wp_lift. destruct (obs_setValue now v o) as [o'|e] eqn:E;
        [by apply wp_modify|]. intros ->. by eapply Hset.
    + apply wp_bind, wp_lift. unfold mkObservation.
      destruct (obs_setValue now v _) as [o'|e] eqn:E; [|intros ->; by eapply Hset].
      unfold context_add. apply wp_bind, wp_get. destruct (c !! obs_name_ o'); [|by apply wp_modify].
      by apply wp_throw.
Qed.

Section Changes.
Context {M : Type} `{LeaseMgrLaws M} `{HostMgr} `{EngineConfig}.
Implicit Types (s : State M).

(** The state differs at most in the statistics and the name change requests. *)
Definition quiet s s' : Prop :=
  heap s' = heap s ∧ db s' = db s ∧ ctx s' = ctx s ∧
  incomplete_v4_reclamations_ s' = incomplete_v4_reclamations_ s.

Lemma quiet_refl s : quiet s s.
Proof. done. Qed.
Lemma quiet_trans s s' s'' : quiet s s' → quiet s' s'' → quiet s s''.
Proof. intros (? & ? & ? & ?) (? & ? & ? & ?). split_and!; congruence. Qed.

Lemma quiet_inv s s' : quiet s s' → inv s → inv s'.
Proof. intros (E1 & _ & E2 & _) []. split; rewrite ?E1, ?E2; done. Qed.

Lemma quiet_frame s s' : fake_allocation_ (ctx s) = false → quiet s s' → frame s s'.
Proof.
  intros Hfake (E1 & E2 & E3 & _). split; rewrite ?E1, ?E2, ?E3;
    eauto using same_client_refl. congruence.
Qed.

(** A computation that only counts and queues. *)
Definition quietly {A} (m : ST (State M) A) s (Q : A → Prop) : Prop :=
  wp m s (λ a s', quiet s s' ∧ Q a) (λ e s', quiet s s' ∧ e ≠ OutOfFuel).

Lemma quietly_bind {A B} (m : ST (State M) A) (f : A → ST (State M) B) s P Q :
  quietly m s P → (∀ a s', P a → quietly (f a) s' Q) → quietly (m ≫= f) s Q.
Proof.
  intros Hm Hf. apply wp_bind. eapply wp_mono; [apply Hm| |done].
  intros a s' [Hq HP]. eapply wp_mono; [by apply Hf| |].
  - intros b s'' [? ?]. eauto using quiet_trans.
  - intros e s'' [? ?]. eauto using quiet_trans.
Qed.

Lemma quietly_ret {A} (a : A) s (Q : A → Prop) : Q a → quietly (mret a) s Q.
Proof. intros HQ. apply wp_ret. eauto using quiet_refl. Qed.

Lemma quietly_stat_add name delta s : quietly (stat_add name delta) s (λ _, True).
Proof.
  apply wp_zoom. eapply wp_mono; [apply wp_addValue| |]; done.
Qed.

Lemma quietly_queueNCR t l s : quietly (queueNCR t l) s (λ _, True).
Proof.
  unfold queueNCR. destruct (_ || _); [by apply quietly_ret|].
  destruct (ncr_ok l); [by apply wp_modify|by apply quietly_ret].
Qed.

Lemma safe_quietly {A} (m : ST (State M) A) s P (Q : A → State M → Prop) :
  fake_allocation_ (ctx s) = false → quietly m s P →
  (∀ a s', quiet s s' → P a → Q a s') → safe m s Q.
Proof.
  intros Hfake Hm HQ Hs. eapply wp_mono; [apply Hm| |].
  - intros a s' [Hq HP]. split_and!; [by eapply quiet_inv|by apply quiet_frame|by apply HQ].
  - intros e s' [Hq He]. split_and!; [by eapply quiet_inv|by apply quiet_frame|done].
Qed.

(** Callouts may change a lease, but not its address. *)
Class HooksOk : Prop := {
  select_addr : ∀ callout c l, lease4_select hooks = Some callout →
    addr_ (callout c l).2 = addr_ l;
  renew_addr : ∀ callout c l, lease4_renew hooks = Some callout →
    addr_ (callout c l).2 = addr_ l;
  expire_addr : ∀ callout b l, lease4_expire hooks = Some callout →
    addr_ (callout b l).2 = addr_ l;
  recover_addr : ∀ callout l, lease4_recover hooks = Some callout →
    addr_ (callout l).2 = addr_ l
}.
Context `{!HooksOk}.

Lemma quietly_reclaimDeclined l s :
  quietly (reclaimDeclined l) s (λ r, addr_ r.2 = addr_ l).
Proof.
  unfold reclaimDeclined. destruct (negb _); [by apply quietly_ret|].
  assert (addr_ (match lease4_recover hooks with
                 | Some callout => callout l
                 | None => (NEXT_STEP_CONTINUE, l)
                 end).2 = addr_ l) as Ha.
  { destruct (lease4_recover hooks) eqn:E; [by apply recover_addr|done]. }
  destruct (match lease4_recover hooks with Some _ => _ | None => _ end) as [status l'].
  destruct (decide _); [by apply quietly_ret|].
  do 4 (eapply quietly_bind; [apply quietly_stat_add|intros _ ? _]). by apply quietly_ret.
Qed.

Lemma quietly_reclaimExpiredLease l b s :
  quietly (reclaimExpiredLease l b) s (λ l', addr_ l' = addr_ l).
Proof.
  unfold reclaimExpiredLease. destruct (stateExpiredReclaimed l); [by apply quietly_ret|].
  unfold reclaimExpiredLease_mode.
  assert (addr_ (match b, lease4_expire hooks with
                 | true, Some callout => callout false l
                 | _, _ => (NEXT_STEP_CONTINUE, l)
                 end).2 = addr_ l) as Ha.
  { destruct b, (lease4_expire hooks) eqn:E; try done. by apply expire_addr. }
  rewrite bool_decide_eq_false_2 by done.
  destruct (match b with true => _ | false => _ end) as [status l1]. cbn in Ha.
  apply quietly_bind with (P := λ l', addr_ l' = addr_ l).
  - destruct (decide _); [by apply quietly_ret|].
    eapply quietly_bind; [apply quietly_queueNCR|]. intros _ s1 _.
    eapply quietly_bind with (P := λ r, addr_ r.2 = addr_ l).
    + destruct (state_ l1 =? STATE_DECLINED); [|by apply quietly_ret].
      rewrite <- Ha. apply quietly_reclaimDeclined.
    + intros [remove l2] s2 Hl2. by apply quietly_ret.
  - intros l' s1 Hl'. do 3 (eapply quietly_bind; [apply quietly_stat_add|intros _ ? _]).
    by apply quietly_ret.
Qed.

(** Calls of the database that change leases. *)
Definition only_db s s' : Prop := ∃ d, s' = with_db d s.

Lemma safe_in_db {A} (m : ST M A) s (P Q : A → M → Prop) :
  fake_allocation_ (ctx s) = false →
  wp m (db s) P (λ e d, catchable e = true ∧ lm_leases d = lm_leases (db s)) →
  (∀ a d, P a d → Q a d ∧
    ∀ x l, lm_leases (db s) !! x = Some l → foreign s l → lm_leases d !! x = Some l) →
  safe (in_db m) s (λ a s', only_db s s' ∧ Q a (db s')).
Proof.
  intros Hfake Hm HP Hs. apply wp_zoom. eapply wp_mono; [apply Hm| |].
  - intros a d Hd. destruct (HP a d Hd) as [HQ Hfor].
    split_and!; [|split|by eexists|done]; cbn; eauto using same_client_refl; [|congruence].
    by destruct Hs.
  - intros e d [He Hd]. split_and!; [|split|]; cbn; eauto using same_client_refl;
      [by destruct Hs|congruence|by rewrite Hd|by intros ->].
Qed.

Lemma safe_addLease l s :
  fake_allocation_ (ctx s) = false →
  safe (in_db (lm_addLease l)) s (λ b s', only_db s s' ∧
    match lm_leases (db s) !! addr_ l with
    | Some _ => b = false ∧ lm_leases (db s') = lm_leases (db s)
    | None => b = true ∧ lm_leases (db s') = <[addr_ l := l]> (lm_leases (db s))
    end).
Proof.
  intros Hfake. eapply (safe_in_db _ _ _ (λ b d, match lm_leases (db s) !! addr_ l with
    | Some _ => b = false ∧ lm_leases d = lm_leases (db s)
    | None => b = true ∧ lm_leases d = <[addr_ l := l]> (lm_leases (db s))
    end)); [done|apply lm_addLease_spec|].
  intros b d Hd. split; [done|]. intros x l' Hx _.
  destruct (lm_leases (db s) !! addr_ l) eqn:E; destruct Hd as [_ ->]; [done|].
  rewrite lookup_insert_ne by congruence. done.
Qed.

Lemma safe_updateLease4 l s :
  fake_allocation_ (ctx s) = false →
  (∀ l0, lm_leases (db s) !! addr_ l = Some l0 → ¬ foreign s l0) →
  safe (in_db (lm_updateLease4 l)) s (λ _ s', only_db s s' ∧
    lm_leases (db s') = <[addr_ l := l]> (lm_leases (db s))).
Proof.
  intros Hfake Hl. eapply (safe_in_db _ _ _ (λ _ d,
    lm_leases d = <[addr_ l := l]> (lm_leases (db s)))); [done|apply lm_updateLease4_spec|].
  intros [] d [_ Hd]. split; [done|]. intros x l' Hx Hfor. rewrite Hd.
  rewrite lookup_insert_ne; [done|]. intros <-. by eapply Hl.
Qed.

Lemma safe_deleteLease a s :
  fake_allocation_ (ctx s) = false →
  (∀ l0, lm_leases (db s) !! a = Some l0 → ¬ foreign s l0) →
  safe (in_db (lm_deleteLease a)) s (λ _ s', only_db s s' ∧
    lm_leases (db s') = delete a (lm_leases (db s))).
Proof.
  intros Hfake Hl. eapply (safe_in_db _ _ _ (λ _ d,
    lm_leases d = delete a (lm_leases (db s)))); [done|apply lm_deleteLease_spec|].
  intros b d [_ Hd]. split; [done|]. intros x l' Hx Hfor. rewrite Hd.
  rewrite lookup_delete_ne; [done|]. intros <-. by eapply Hl.
Qed.
End Changes.

(** ** Walking over the subnets of a network *)

Section Walk.
Context {M : Type} `{LeaseMgrLaws M} `{HostMgr} `{EngineConfig}.
Implicit Types (s : State M).

Lemma wp_next_subnet p f classes k s :
  inv s → on_chain (heap s) f k p →
  wp (next_subnet p f classes) s
    (λ r s', s' = s ∧ match r with
                      | None => True
                      | Some q => ∃ k', (k < k')%nat ∧ on_chain (heap s) f k' q ∧
                          supported (heap s) classes q
                      end)
    (λ _ _, False).
Proof.
  intros Hs Hk. pose proof (inv_heap s Hs) as Hh. pose proof Hk as (sf & Hf & Hk').
  apply wp_bind, wp_get. destruct (shared_network_ sf) as [n|] eqn:E.
  - destruct Hk' as (net & i & Hn & Hi & Hki).
    rewrite (getNextSubnet_classes_Ok (heap s) n net i k _ f p classes Hh Hn Hi Hki)
      by (pose proof (network_length (heap s) n net Hh Hn); lia).
    apply wp_lift. split; [done|].
    destruct (head _) as [q|] eqn:Eq; [|done].
    apply head_Some_elem_of, list_elem_of_filter in Eq as [Hsup Hq].
    apply list_elem_of_lookup in Hq as [j Hj]. rewrite lookup_drop in Hj.
    exists (S k + j)%nat. split; [lia|]. split; [|done]. exists sf. split; [done|].
    rewrite E. by exists net, i.
  - destruct Hk' as [-> ->]. unfold getNextSubnet_classes, subnet_at. rewrite Hf, E.
    by apply wp_lift.
Qed.

Lemma safe_walk_loop {A} fuel f classes (body : Z → ST (State M) (option A)) Q I k p s :
  (∀ q k s', on_chain (heap s') f k q → I s' →
     safe (body q) s' (λ r s'', match r with Some a => Q a s'' | None => I s'' end)) →
  I s → on_chain (heap s) f k p → (base.size (subnets (heap s)) < k + fuel)%nat →
  safe (walk_loop fuel f classes body (Some p)) s
    (λ r s', match r with Some a => Q a s' | None => I s' end).
Proof.
  intros Hbody. revert k p s.
  induction fuel as [|fuel IH]; intros k p s HI Hk Hfuel Hs.
  { pose proof (on_chain_bound _ _ _ _ (inv_heap s Hs) Hk). lia. }
  cbn [walk_loop]. revert Hs. eapply safe_bind; [by apply (Hbody p k)|].
  intros [a|] s' Hs' Hfr HQ; [by apply safe_ret|].
  pose proof (on_chain_shape _ _ _ _ _ (frame_heap _ _ Hfr) Hk) as Hk'.
  intros Hs''. apply wp_bind. eapply wp_mono; [by apply wp_next_subnet| |done].
  intros r s2 [-> Hr]. destruct r as [q|].
  - destruct Hr as (k' & Hlt & Hq & _). apply (IH k'); [done|done| |done].
    assert (base.size (subnets (heap s')) = base.size (subnets (heap s))) as ->; [|lia].
    pose proof (frame_heap _ _ Hfr) as [= E _].
    apply (f_equal base.size) in E. by rewrite !map_size_fmap in E.
  - destruct fuel; by apply safe_ret.
Qed.

(** The rule for [walk]: an invariant for the subnets passed over. *)
Lemma safe_walk {A} first (body : Z → ST (State M) (option A)) Q I s :
  (∀ f q k s', first = Some f → on_chain (heap s') f k q → I s' →
     safe (body q) s' (λ r s'', match r with Some a => Q a s'' | None => I s'' end)) →
  I s → (∀ f, first = Some f → is_Some (subnets (heap s) !! f)) →
  safe (walk first body) s (λ r s', match r with Some a => Q a s' | None => I s' end).
Proof.
  intros Hbody HI Hf. unfold walk. eapply safe_bind with (P := λ x s', x = s ∧ s' = s);
    [by apply safe_get|]. intros x s' Hs _ [-> ->].
  destruct first as [f|]; [|by apply safe_ret].
  destruct (Hf f eq_refl) as [sf Hsf].
  eapply safe_walk_loop with (k := 0%nat); [|done| |lia].
  - intros q k s'. by apply (Hbody f).
  - eapply on_chain_start; [apply Hs|done].
Qed.
End Walk.

(** ** The operations, one by one *)

Lemma reservable_exn s a : wf4 s → reservable s a ≠ Throw OutOfFuel.
Proof.
  intros (Hk & Hs & _). unfold reservable, mode_is. repeat case_bool_decide; try done.
  unfold inPool. rewrite inRange_Ok by done. case_bool_decide; [|done]. cbn [mbind res_bind].
  destruct (negb _); [done|]. rewrite getPools_Ok by (by unfold allowed; rewrite Hk). done.
Qed.

Lemma inPool_classes_exn s a classes : wf4 s → inPool_classes s TYPE_V4 a classes ≠ Throw OutOfFuel.
Proof.
  intros (Hk & Hs & _).
  destruct (inPool_classes_Ok s TYPE_V4 a classes Hs) as (b & -> & _); [|done].
  unfold allowed. by rewrite Hk.
Qed.

Lemma ctx_with_subnet_same c : ctx_with_subnet (ctx_subnet_ c) c = c.
Proof. by destruct c. Qed.

Section Operations.
Context {M : Type} `{LeaseMgrLaws M} `{HostMgrLaws} `{EngineConfig}.
Implicit Types (s : State M).

(** The address is reserved for another client in the current subnet. *)
Definition reserved_for_other s (a : IOAddress) : res bool := (addressReserved a s).2.

Lemma addressReserved_pure a s : addressReserved a s = (s, reserved_for_other s a).
Proof.
  unfold reserved_for_other, addressReserved, get_ctx, the_subnet, get, lift, mbind, ST_bind. cbn.
  destruct (ctx_subnet_ (ctx s)); [|done]. destruct (subnet_at _ _) as [sub|]; [|done].
  destruct (reservable sub a) as [[]|]; [|done|done].
  by destruct (host_get4_address _ _) as [[]|].
Qed.

Lemma reserved_for_other_eq s s' a :
  heap s' = heap s → ctx_subnet_ (ctx s') = ctx_subnet_ (ctx s) →
  host_identifiers_ (ctx s') = host_identifiers_ (ctx s) →
  reserved_for_other s' a = reserved_for_other s a.
Proof.
  intros E1 E2 E3.
  unfold reserved_for_other, addressReserved, get_ctx, the_subnet, get, lift, mbind, ST_bind. cbn.
  rewrite E2, E3. destruct (ctx_subnet_ (ctx s)); [|done]. rewrite E1. destruct (subnet_at _ _) as [sub|]; [|done].
  destruct (reservable sub a) as [[]|]; [|done|done].
  by destruct (host_get4_address _ _) as [[]|].
Qed.

(** Only the subnet of the context differs. *)
Definition moved s s' : Prop := ∃ p, s' = with_ctx (ctx_with_subnet p (ctx s)) s.

Lemma moved_refl s : moved s s.
Proof. exists (ctx_subnet_ (ctx s)). rewrite ctx_with_subnet_same. by destruct s. Qed.
Lemma moved_trans s s' s'' : moved s s' → moved s' s'' → moved s s''.
Proof. intros [p ->] [q ->]. by exists q. Qed.

Lemma safe_move p s (Q : unit → State M → Prop) :
  is_Some (subnets (heap s) !! p) →
  Q tt (with_ctx (ctx_with_subnet (Some p) (ctx s)) s) →
  safe (update_ctx (ctx_with_subnet (Some p))) s Q.
Proof.
  intros Hp HQ. apply safe_update_ctx; [by do 4 eexists| |done].
  intros q [= <-]. by right.
Qed.

Lemma safe_addressReserved a s :
  safe (addressReserved a) s (λ b s', s' = s ∧ reserved_for_other s a = Ok b).
Proof.
  assert (safe (addressReserved a) s (λ _ _, True)) as Hsafe.
  { eapply safe_bind with (P := λ _ _, True); [by apply safe_get_ctx|]. intros c s1 _ _ _.
    destruct (ctx_subnet_ c) as [p|]; [|by apply safe_ret].
    eapply safe_bind with (P := λ sub _, wf4 sub); [by apply safe_the_subnet|].
    intros sub s2 _ _ Hsub.
    eapply safe_bind with (P := λ _ _, True);
      [apply safe_lift; [by apply reservable_exn|done]|].
    intros [] s3 _ _ _; [|by apply safe_ret]. cbn [negb].
    eapply safe_bind with (P := λ _ _, True);
      [apply safe_lift; [apply host_get4_address_exn|done]|].
    intros [h|] s4 _ _ _; by apply safe_ret. }
  intros Hs. specialize (Hsafe Hs). unfold wp in *. rewrite addressReserved_pure in *.
  destruct (reserved_for_other s a); naive_solver.
Qed.

(** The reservation of the context is for the subnet it now has. *)
Lemma safe_hasAddressReservation s :
  safe hasAddressReservation s (λ _ s', moved s s').
Proof.
  eapply safe_bind with (P := λ c s', c = ctx s ∧ s' = s); [by apply safe_get_ctx|].
  intros c s1 Hs _ [-> ->].
  destruct (decide _); [by apply safe_ret, moved_refl|].
  eapply safe_bind with (P := λ r s', match r with Some _ => moved s s' | None => s' = s end).
  - apply safe_walk; [|done|by apply inv_subnet].
    intros f q k s' _ Hq ->.
    eapply safe_bind with (P := λ sub s', s' = s ∧ wf4 sub ∧ is_Some (subnets (heap s) !! q)).
    { apply safe_the_subnet. intros sub Hsub ?. split_and!; [done|done|by eexists]. }
    intros sub s2 _ _ (-> & Hsub & Hsome).
    destruct (mode_is sub HR_GLOBAL); [by apply safe_ret, moved_refl|].
    destruct (ctx_hosts_ (ctx s) !! id_ sub) as [host|]; [|by apply safe_ret].
    destruct (negb _); [|by apply safe_ret].
    eapply safe_bind with (P := λ _ s', s' = s);
      [apply safe_lift; [by apply reservable_exn|done]|].
    intros [] s3 _ _ ->; [|by apply safe_ret].
    eapply safe_bind with (P := λ _ s', moved s s'); [apply safe_move; [done|by eexists]|].
    intros [] s4 _ _ Hm. by apply safe_ret.
  - intros [b|] s' _ _ Hr; apply safe_ret; [done|]. subst. apply moved_refl.
Qed.

Lemma safe_inAllowedPool a s :
  safe (inAllowedPool a) s (λ b s', moved s s' ∧
    (b = true → ∃ p sub, ctx_subnet_ (ctx s') = Some p ∧ subnets (heap s') !! p = Some sub ∧
       inPool_classes sub TYPE_V4 a (query_classes_ (ctx s')) = Ok true)).
Proof.
  eapply safe_bind with (P := λ c s', c = ctx s ∧ s' = s); [by apply safe_get_ctx|].
  intros c s1 Hs _ [-> ->].
  eapply safe_bind with (P := λ r s', match r with
    | Some _ => moved s s' ∧ ∃ p sub, ctx_subnet_ (ctx s') = Some p ∧
        subnets (heap s') !! p = Some sub ∧
        inPool_classes sub TYPE_V4 a (query_classes_ (ctx s')) = Ok true
    | None => s' = s
    end).
  - apply safe_walk; [|done|by apply inv_subnet].
    intros f q k s' _ Hq ->.
    eapply safe_bind with (P := λ sub s', s' = s ∧ wf4 sub ∧ subnets (heap s) !! q = Some sub).
    { by apply safe_the_subnet. }
    intros sub s2 _ _ (-> & Hsub & Hsome).
    eapply safe_bind with (P := λ b s', s' = s ∧
      inPool_classes sub TYPE_V4 a (query_classes_ (ctx s)) = Ok b).
    { apply safe_lift; [by apply inPool_classes_exn|done]. }
    intros [] s3 _ _ [-> Hb]; [|by apply safe_ret].
    eapply safe_bind with (P := λ _ s', s' = with_ctx (ctx_with_subnet (Some q) (ctx s)) s);
      [apply safe_move; [by eexists|done]|].
    intros [] s4 _ _ ->. apply safe_ret. split; [by eexists|]. by exists q, sub.
  - intros [b|] s' _ _ Hr; apply safe_ret; [by destruct Hr|]. subst.
    split; [apply moved_refl|]. by rewrite bool_decide_eq_false_2 by (by intros []).
Qed.

Lemma safe_findClientLease s :
  safe findClientLease s (λ r s', moved s s' ∧
    match r with
    | Some l => lm_leases (db s) !! addr_ l = Some l ∧ mine (heap s) (ctx s) l
    | None => True
    end).
Proof.
  eapply safe_bind with (P := λ c s', c = ctx s ∧ s' = s); [by apply safe_get_ctx|].
  intros c s1 Hs _ [-> ->].
  set (found := λ (r : option Lease4) s', match r with
    | Some l => moved s s' ∧ lm_leases (db s) !! addr_ l = Some l ∧ mine (heap s) (ctx s) l
    | None => s' = s
    end).
  eapply safe_bind with (P := found).
  - destruct (clientid_ (ctx s)) as [cid|] eqn:Ecid; [|by apply safe_ret].
    eapply safe_bind with (P := λ ls s', ls = lm_getLease4_cid cid (db s) ∧ s' = s);
      [by apply safe_query_db|]. intros ls s2 _ _ [-> ->].
    eapply safe_mono; [|intros [l|] s' _ _ Hr; exact Hr].
    apply safe_walk with (Q := λ l s', moved s s' ∧ lm_leases (db s) !! addr_ l = Some l ∧
      mine (heap s) (ctx s) l) (I := λ s', s' = s); [|done|by apply inv_subnet].
    intros f q k s' _ Hq ->.
    eapply safe_bind with (P := λ sub s', s' = s ∧ subnets (heap s) !! q = Some sub).
    { by apply safe_the_subnet. }
    intros sub s2 _ _ (-> & Hsome).
    destruct (match_client_id_ sub) eqn:Em; [|by apply safe_ret].
    destruct (find _ _) as [l|] eqn:El; [|by apply safe_ret].
    apply find_some in El as [Hl%list_elem_of_In Hid].
    apply lm_getLease4_cid_elem in Hl as [Hl Hcid].
    eapply safe_bind with (P := λ _ s', moved s s');
      [apply safe_move; [by eexists|by eexists]|].
    intros [] s4 _ _ Hm. apply safe_ret. split_and!; [done|done|].
    exists q, sub. split; [done|]. rewrite Em, Ecid. apply belongsToClient_true. left.
    exists cid. split; [done|]. unfold getClientIdVector in Hcid.
    destruct (client_id_ l) as [x|]; [by subst|]. subst cid.
    by pose proof (inv_clientid s Hs).
  - intros r s2 Hs2 Hf Hr. destruct r as [l|].
    { apply safe_ret. destruct Hr as (? & ? & ?). split_and!; done. }
    cbn in Hr. subst s2. destruct (ctx_hwaddr_ (ctx s)) as [hw|] eqn:Ehw;
      [|apply safe_ret; split; [apply moved_refl|done]].
    eapply safe_bind with (P := λ ls s', ls = lm_getLease4_hwaddr hw (db s) ∧ s' = s);
      [by apply safe_query_db|]. intros ls s2 _ _ [-> ->].
    eapply safe_mono with (P := found).
    2: { intros [l|] s' _ _ Hr; cbn in Hr; [done|]. subst. split; [apply moved_refl|done]. }
    apply safe_walk with (Q := λ l s', moved s s' ∧ lm_leases (db s) !! addr_ l = Some l ∧
      mine (heap s) (ctx s) l) (I := λ s', s' = s); [|done|by apply inv_subnet].
    intros f q k s' _ Hq ->.
    eapply safe_bind with (P := λ sub s', s' = s ∧ subnets (heap s) !! q = Some sub).
    { by apply safe_the_subnet. }
    intros sub s2 _ _ (-> & Hsome).
    cbv zeta. destruct (find _ _) as [l|] eqn:El; [|by apply safe_ret].
    apply find_some in El as [Hl%list_elem_of_In [_ Hb]%andb_true_iff].
    apply lm_getLease4_hwaddr_elem in Hl as [Hl _].
    eapply safe_bind with (P := λ _ s', moved s s');
      [apply safe_move; [by eexists|by eexists]|].
    intros [] s4 _ _ Hm. apply safe_ret. split_and!; [done|done|].
    exists q, sub. split; [done|]. by rewrite Ehw.
Qed.
End Operations.

Section Leases.
Context {M : Type} `{LeaseMgrLaws M} `{HostMgrLaws} `{EngineConfig} `{!HooksOk}.
Implicit Types (s : State M).

(** The heap and the inputs of the allocation are the same. *)
Definition calm s s' : Prop :=
  heap s' = heap s ∧ ∃ old conflicting,
    ctx s' = ctx_with (ctx s) (ctx_subnet_ (ctx s)) (requested_address_ (ctx s))
               old (new_lease_ (ctx s)) conflicting (ctx_hosts_ (ctx s)).

Lemma calm_refl s : calm s s.
Proof.
  split; [done|]. exists (old_lease_ (ctx s)), (conflicting_lease_ (ctx s)).
  by destruct (ctx s).
Qed.
Lemma calm_trans s s' s'' : calm s s' → calm s' s'' → calm s s''.
Proof.
  intros [E1 (o & c & E2)] [E3 (o' & c' & E4)]. split; [congruence|].
  exists o', c'. rewrite E4, E2. done.
Qed.
Lemma calm_quiet s s' : quiet s s' → calm s s'.
Proof.
  intros (E1 & _ & E2 & _). split; [done|]. rewrite E2. apply (calm_refl s).
Qed.
Lemma calm_only_db s s' : only_db s s' → calm s s'.
Proof. intros [d ->]. split; [done|]. apply (calm_refl s). Qed.
Lemma calm_eq s s' : calm s s' →
  heap s' = heap s ∧ ctx_subnet_ (ctx s') = ctx_subnet_ (ctx s) ∧
  requested_address_ (ctx s') = requested_address_ (ctx s) ∧
  ctx_hosts_ (ctx s') = ctx_hosts_ (ctx s) ∧
  fake_allocation_ (ctx s') = fake_allocation_ (ctx s).
Proof. intros [E (o & c & ->)]. done. Qed.

Lemma safe_calm_update f s :
  (∀ c, ∃ old conflicting, f c = ctx_with c (ctx_subnet_ c) (requested_address_ c)
                                   old (new_lease_ c) conflicting (ctx_hosts_ c)) →
  safe (update_ctx f) s (λ _ s', s' = with_ctx (f (ctx s)) s ∧ calm s s').
Proof.
  intros Hf. destruct (Hf (ctx s)) as (o & c & E). apply safe_update_ctx.
  - do 4 eexists. exact E.
  - intros p Hp. left. by rewrite E in Hp.
  - split; [done|]. split; [done|]. exists o, c. exact E.
Qed.

Lemma safe_current_subnet s (Q : Subnet → State M → Prop) :
  (∀ p sub, ctx_subnet_ (ctx s) = Some p → subnets (heap s) !! p = Some sub → Q sub s) →
  safe current_subnet s Q.
Proof.
  intros HQ. eapply safe_bind with (P := λ c s', c = ctx s ∧ s' = s); [by apply safe_get_ctx|].
  intros c s1 _ _ [-> ->]. destruct (ctx_subnet_ (ctx s)) as [p|]; [|by apply safe_throw].
  apply safe_the_subnet. eauto.
Qed.

Lemma safe_updateLease4Information l s :
  safe (updateLease4Information l) s (λ l' s', s' = s ∧ addr_ l' = addr_ l).
Proof.
  eapply safe_bind with (P := λ _ s', s' = s); [by apply safe_get_ctx|]. intros c s1 _ _ ->.
  eapply safe_bind with (P := λ _ s', s' = s); [by apply safe_current_subnet|].
  intros sub s1 _ _ ->. by apply safe_ret.
Qed.

(** The database holds the lease, unless the client only asked for an offer. *)
Definition stored s (l : Lease4) : Prop :=
  fake_allocation_ (ctx s) = false → lm_leases (db s) !! addr_ l = Some l.

(** No lease in use stands in the way of an allocation of the address. *)
Definition available s (a : IOAddress) : Prop :=
  match lm_leases (db s) !! a with Some l => expired now l = true | None => True end.

Lemma foreign_not_expired s l : foreign s l → expired now l = true → False.
Proof. intros [? _]. congruence. Qed.

Lemma safe_stat_add name delta s :
  fake_allocation_ (ctx s) = false →
  safe (stat_add name delta) s (λ _ s', quiet s s').
Proof. intros Hf. eapply safe_quietly; [done|apply quietly_stat_add|done]. Qed.

(** Writing the lease back and counting it. *)
Lemma safe_store (b : bool) l s :
  fake_allocation_ (ctx s) = false →
  (∀ l0, lm_leases (db s) !! addr_ l = Some l0 → ¬ foreign s l0) →
  safe (_ ← in_db (lm_updateLease4 l);
        if b then sub ← current_subnet;
                  stat_add (subnet_stat (id_ sub) "assigned-addresses") 1
        else mret tt) s
    (λ _ s', calm s s' ∧ lm_leases (db s') = <[addr_ l := l]> (lm_leases (db s))).
Proof.
  intros Hfake Hl. eapply safe_bind; [by apply safe_updateLease4|].
  intros [] s1 _ _ [Hdb Hleases]. pose proof (calm_only_db _ _ Hdb) as Hc.
  destruct b; [|by apply safe_ret].
  eapply safe_bind with (P := λ _ s', s' = s1); [by apply safe_current_subnet|].
  intros sub s2 _ _ ->. eapply safe_mono; [apply safe_stat_add|].
  { by destruct (calm_eq _ _ Hc) as (_ & _ & _ & _ & ->). }
  intros [] s2 _ _ Hq. pose proof (calm_quiet _ _ Hq). destruct Hq as (_ & -> & _).
  eauto using calm_trans.
Qed.

Lemma safe_renewLease4 l s :
  lm_leases (db s) !! addr_ l = Some l → ¬ foreign s l →
  safe (renewLease4 l) s (λ l' s', calm s s' ∧ addr_ l' = addr_ l ∧ stored s' l').
Proof.
  intros Hl Hmine.
  eapply safe_bind; [apply (safe_calm_update (ctx_with_old (Some l)));
                     intros c; by do 2 eexists|].
  intros [] s1 _ Hf1 [-> Hc1].
  eapply safe_bind; [apply safe_updateLease4Information|].
  intros l1 s2 _ _ [-> Hl1].
  eapply safe_bind with (P := λ c s', c = ctx s' ∧ s' = with_ctx (ctx_with_old (Some l) (ctx s)) s);
    [by apply safe_get_ctx|].
  intros c s2 _ _ [-> ->]. set (s1 := with_ctx _ s). cbv zeta.
  assert (fake_allocation_ (ctx s1) = fake_allocation_ (ctx s)) as Efake1 by done.
  set (fake := fake_allocation_ (ctx s1)) in *.
  eapply safe_bind with (P := λ r s', calm s1 s' ∧ db s' = db s1 ∧ addr_ r.2 = addr_ l).
  { destruct fake eqn:Efake; [by apply safe_ret; eauto using calm_refl|]. cbn [negb].
    eapply safe_bind with (P := λ old s', quiet s1 s').
    - destruct (expired now l); [|by apply safe_ret].
      eapply safe_quietly; [done|apply quietly_reclaimExpiredLease|done].
    - intros old s3 _ _ Hq. pose proof (calm_quiet _ _ Hq) as Hc.
      eapply safe_bind; [apply (safe_calm_update (ctx_with_old (Some old)));
                         intros c; by do 2 eexists|].
      intros [] s4 _ _ [-> Hc']. apply safe_ret. destruct Hq as (_ & E & _).
      split_and!; [by eapply calm_trans|done|done]. }
  intros [old l2] s3 _ Hf3 (Hc3 & Hdb3 & Hl2). cbn in Hl2.
  eapply safe_bind with (P := λ r s', s' = s3 ∧ addr_ r.2 = addr_ l).
  { destruct (lease4_renew hooks) as [callout|] eqn:Eh; [|by apply safe_ret].
    destruct (negb _); [by apply safe_throw|].
    eapply safe_bind with (P := λ _ s', s' = s3); [by apply safe_get_ctx|].
    intros c s4 _ _ ->. pose proof (renew_addr callout c l2 Eh) as Ha.
    destruct (callout c l2) as [status l3]. apply safe_ret. cbn in *. split; congruence. }
  intros [skip l3] s4 _ _ [-> Hl3]. cbn in Hl3.
  pose proof (calm_trans _ _ _ Hc1 Hc3) as Hcs.
  assert (fake_allocation_ (ctx s3) = fake) as Efake3
    by (destruct (calm_eq _ _ Hcs) as (_ & _ & _ & _ & ->); done).
  assert (lm_leases (db s3) !! addr_ l = Some l) as Hdb by (by rewrite Hdb3).
  assert (¬ foreign s3 l) as Hm3.
  { intros Hfor. apply Hmine. destruct Hfor as [He Hm]. split; [done|]. intros Hm'. apply Hm.
    destruct Hcs as [Eh (o & c & Ec)]. rewrite Eh, Ec. done. }
  eapply safe_bind with (P := λ _ s', calm s3 s' ∧ addr_ l3 = addr_ l ∧
    (fake = false → lm_leases (db s') !! addr_ l = Some (if skip then l else l3))).
  { destruct fake eqn:Efake; cbn [negb andb];
      [apply safe_ret; split_and!; [apply calm_refl|done|done]|].
    destruct skip; cbn [negb].
    - apply safe_ret. split_and!; [apply calm_refl|done|done].
    - eapply safe_mono; [apply (safe_store (expired now old || stateExpiredReclaimed old) l3)|].
      + done.
      + intros l0. rewrite Hl3, Hdb. by intros [= <-].
      + intros [] s4 _ _ [Hc Hleases]. split_and!; [done|done|]. intros _.
        rewrite Hleases, Hl3. by rewrite lookup_insert_eq. }
  intros [] s4 _ _ (Hc4 & Ha & Hst). apply safe_ret. split_and!.
  - by eapply calm_trans.
  - by destruct skip.
  - intros Hfake. destruct (calm_eq _ _ Hc4) as (_ & _ & _ & _ & E).
    rewrite E, Efake3 in Hfake. specialize (Hst Hfake). by destruct skip; rewrite ?Ha.
Qed.

Lemma foreign_calm s s' l : calm s s' → foreign s' l → foreign s l.
Proof.
  intros [Eh (o & c & Ec)] [He Hm]. split; [done|]. by rewrite Eh, Ec in Hm.
Qed.

Lemma safe_reuseExpiredLease4 l s :
  lm_leases (db s) !! addr_ l = Some l → expired now l = true →
  safe (reuseExpiredLease4 l) s (λ r s', calm s s' ∧
    match r.1 with
    | Some l' => addr_ l' = addr_ l ∧ stored s' l'
    | None => lm_leases (db s') = lm_leases (db s)
    end).
Proof.
  intros Hl Hexp.
  eapply safe_bind with (P := λ c s', c = ctx s ∧ s' = s); [by apply safe_get_ctx|].
  intros c s1 _ _ [-> ->]. destruct (ctx_subnet_ (ctx s)) as [p|]; [|by apply safe_throw].
  eapply safe_bind with (P := λ l' s', calm s s' ∧ db s' = db s ∧ addr_ l' = addr_ l).
  { destruct (fake_allocation_ (ctx s)) eqn:Ef; [by apply safe_ret; eauto using calm_refl|].
    eapply safe_bind with (P := λ l' s', quiet s s' ∧ addr_ l' = addr_ l).
    { by eapply safe_quietly; [done|apply quietly_reclaimExpiredLease|]. }
    intros l' s1 _ _ [Hq Ha]. apply safe_ret. pose proof (calm_quiet _ _ Hq).
    by destruct Hq as (_ & -> & _). }
  intros l1 s1 _ _ (Hc & Hdb & Hl1).
  eapply safe_bind; [apply safe_updateLease4Information|]. intros l2 s2 _ _ [-> Hl2].
  assert (addr_ (match callout_handle_ (ctx s), lease4_select hooks with
                 | true, Some callout => callout (ctx s) l2
                 | _, _ => (NEXT_STEP_CONTINUE, l2)
                 end).2 = addr_ l) as Ha.
  { destruct (callout_handle_ (ctx s)), (lease4_select hooks) eqn:E; cbn; try congruence.
    rewrite (select_addr _ _ _ E). congruence. }
  destruct (match callout_handle_ (ctx s) with true => _ | false => _ end) as [status l3].
  cbn in Ha. destruct (decide _); [apply safe_ret; cbn; by rewrite Hdb|].
  eapply safe_bind with (P := λ _ s', calm s1 s' ∧
    (fake_allocation_ (ctx s) = false → lm_leases (db s') !! addr_ l3 = Some l3)).
  { destruct (fake_allocation_ (ctx s)) eqn:Ef.
    { apply safe_ret. split; [apply calm_refl|done]. }
    eapply safe_mono; [apply (safe_store true l3)|].
    - by destruct (calm_eq _ _ Hc) as (_ & _ & _ & _ & ->).
    - intros l0. rewrite Hdb, Ha, Hl. intros [= <-] Hfor.
      eapply foreign_not_expired; [exact Hfor|done].
    - intros [] s2 _ _ [? Hleases]. split; [done|]. intros _. rewrite Hleases.
      by rewrite lookup_insert_eq. }
  intros [] s2 _ _ [Hc2 Hst]. apply safe_ret. cbn. split; [by eapply calm_trans|].
  split; [done|]. intros Hfake. apply Hst. pose proof (calm_trans _ _ _ Hc Hc2) as Hcs.
  destruct (calm_eq _ _ Hcs) as (_ & _ & _ & _ & E). congruence.
Qed.

Lemma safe_createLease4 a s :
  lm_leases (db s) !! a = None →
  safe (createLease4 a) s (λ r s', calm s s' ∧
    match r.1 with
    | Some l' => addr_ l' = a ∧ stored s' l'
    | None => lm_leases (db s') = lm_leases (db s)
    end).
Proof.
  intros Hl.
  eapply safe_bind with (P := λ c s', c = ctx s ∧ s' = s); [by apply safe_get_ctx|].
  intros c s1 _ _ [-> ->].
  destruct (ctx_hwaddr_ (ctx s)), (ctx_subnet_ (ctx s)) as [p|]; try by apply safe_throw.
  eapply safe_bind with (P := λ _ s', s' = s); [by apply safe_the_subnet|].
  intros sub s1 _ _ ->. cbv zeta.
  match goal with |- context [mkLease4 ?a ?b ?c ?d ?e ?f ?g ?h ?i ?j ?k] =>
    set (l := mkLease4 a b c d e f g h i j k) end.
  assert (addr_ (match callout_handle_ (ctx s), lease4_select hooks with
                 | true, Some callout => callout (ctx s) l
                 | _, _ => (NEXT_STEP_CONTINUE, l)
                 end).2 = a) as Ha.
  { destruct (callout_handle_ (ctx s)), (lease4_select hooks) eqn:E; cbn; try done.
    by rewrite (select_addr _ _ _ E). }
  destruct (match callout_handle_ (ctx s) with true => _ | false => _ end) as [status l1].
  cbn in Ha. clear l. subst a.
  destruct (decide _); [apply safe_ret; split; [apply calm_refl|done]|].
  destruct (fake_allocation_ (ctx s)) eqn:Ef; cbn [negb].
  - eapply safe_bind with (P := λ r s', s' = s); [by apply safe_query_db|].
    intros r s1 _ _ ->. destruct r; apply safe_ret; cbn; [split; [apply calm_refl|done]|].
    split_and!; [apply calm_refl|done|]. intros E. congruence.
  - eapply safe_bind; [by apply safe_addLease|]. intros b s1 _ _ [Hdb Hb]. rewrite Hl in Hb.
    destruct Hb as [-> Hleases]. pose proof (calm_only_db _ _ Hdb) as Hc.
    eapply safe_bind; [apply safe_stat_add|].
    { by destruct (calm_eq _ _ Hc) as (_ & _ & _ & _ & ->). }
    intros [] s2 _ _ Hq. apply safe_ret. cbn. pose proof (calm_quiet _ _ Hq).
    split_and!; [by eapply calm_trans|done|]. intros _. destruct Hq as (_ & -> & _).
    rewrite Hleases. by rewrite lookup_insert_eq.
Qed.

(** What an allocation of an address that is not in use answers. *)
Lemma safe_allocateOrReuseLease4 a s :
  safe (allocateOrReuseLease4 a) s (λ r s', calm s s' ∧
    match r.1 with
    | Some l => addr_ l = a ∧ stored s' l ∧ available s a
    | None => lm_leases (db s') = lm_leases (db s)
    end).
Proof.
  eapply safe_bind; [apply (safe_calm_update (ctx_with_conflicting None));
                     intros c; by do 2 eexists|].
  intros [] s1 _ _ [-> Hc1]. set (s1 := with_ctx _ s) in *.
  eapply safe_bind with (P := λ r s', r = lm_leases (db s) !! a ∧ s' = s1).
  { apply safe_query_db. by rewrite lm_getLease4_eq. }
  intros r s2 _ _ [-> ->]. unfold available.
  destruct (lm_leases (db s) !! a) as [l|] eqn:El.
  - pose proof (lm_leases_addr _ _ _ El) as Ha. destruct (expired now l) eqn:Ee.
    + eapply safe_bind; [apply (safe_calm_update (ctx_with_old (Some l)));
                         intros c; by do 2 eexists|].
      intros [] s2 _ _ [-> Hc2].
      eapply safe_mono; [apply safe_reuseExpiredLease4; [by rewrite Ha|done]|].
      intros [[l'|] status] s3 _ _ [Hc3 Hr]; cbn in *;
        (split; [exact (calm_trans _ _ _ (calm_trans _ _ _ Hc1 Hc2) Hc3)|]); [|done].
      destruct Hr. split_and!; [congruence|done|done].
    + eapply safe_bind; [apply (safe_calm_update (ctx_with_conflicting (Some l)));
                         intros c; by do 2 eexists|].
      intros [] s2 _ _ [-> Hc2]. apply safe_ret.
      split; [exact (calm_trans _ _ _ Hc1 Hc2)|done].
  - eapply safe_mono; [by apply safe_createLease4|].
    intros [[l'|] status] s3 _ _ [Hc3 Hr]; cbn in *;
      (split; [exact (calm_trans _ _ _ Hc1 Hc3)|]); [|done]. by destruct Hr.
Qed.
End Leases.

(** ** The search of the pools *)

Lemma picked_inPool classes s a :
  wf4 s → picked TYPE_V4 classes s a → inPool_classes s TYPE_V4 a classes = Ok true.
Proof.
  intros (Hk & Hs & _) (_ & p & Hp & Hu & Hin). apply (inPool_classes_intro s TYPE_V4 p); try done.
  unfold allowed. by rewrite Hk.
Qed.

Section Search.
Context {M : Type} `{LeaseMgrLaws M} `{HostMgrLaws} `{EngineConfig} `{!HooksOk}.
Implicit Types (s : State M).

(** The inputs of the allocation are the same, apart from the subnet. *)
Definition near s s' : Prop := ∃ p old conflicting,
  ctx s' = ctx_with (ctx s) p (requested_address_ (ctx s)) old (new_lease_ (ctx s)) conflicting
             (ctx_hosts_ (ctx s)).

Lemma near_refl s : near s s.
Proof.
  exists (ctx_subnet_ (ctx s)), (old_lease_ (ctx s)), (conflicting_lease_ (ctx s)).
  by destruct (ctx s).
Qed.
Lemma near_trans s s' s'' : near s s' → near s' s'' → near s s''.
Proof. intros (p & o & c & E1) (p' & o' & c' & E2). exists p', o', c'. by rewrite E2, E1. Qed.
Lemma calm_near s s' : calm s s' → near s s'.
Proof. intros [_ (o & c & E)]. by exists (ctx_subnet_ (ctx s)), o, c. Qed.
Lemma moved_near s s' : moved s s' → near s s'.
Proof.
  intros [p ->]. by exists p, (old_lease_ (ctx s)), (conflicting_lease_ (ctx s)).
Qed.
Lemma near_eq s s' : near s s' →
  fake_allocation_ (ctx s') = fake_allocation_ (ctx s) ∧
  query_classes_ (ctx s') = query_classes_ (ctx s) ∧
  ctx_hosts_ (ctx s') = ctx_hosts_ (ctx s) ∧
  requested_address_ (ctx s') = requested_address_ (ctx s).
Proof. by intros (p & o & c & ->). Qed.

(** The address is in a pool open to the client of the subnet of the context,
    and is not reserved for another client there. *)
Definition in_pool s (a : IOAddress) : Prop := ∃ p sub,
  ctx_subnet_ (ctx s) = Some p ∧ subnets (heap s) !! p = Some sub ∧
  inPool_classes sub TYPE_V4 a (query_classes_ (ctx s)) = Ok true.
Definition dynamic s (a : IOAddress) : Prop := in_pool s a ∧ reserved_for_other s a = Ok false.

Lemma dynamic_calm s s' a : calm s s' → dynamic s a → dynamic s' a.
Proof.
  intros [Eh (o & c & Ec)] [(p & sub & Hp & Hsub & Hin) Hr]. split.
  - exists p, sub. rewrite Eh, Ec. done.
  - rewrite <- Hr. apply reserved_for_other_eq; [done|by rewrite Ec|by rewrite Ec].
Qed.

Lemma safe_pick p s :
  safe (in_subnet p (pickAddress TYPE_V4 (query_classes_ (ctx s)) now)) s
    (λ a s', ctx s' = ctx s ∧ db s' = db s ∧ stats s' = stats s ∧
       ∃ sub, subnets (heap s') !! p = Some sub ∧
              inPool_classes sub TYPE_V4 a (query_classes_ (ctx s)) = Ok true).
Proof.
  intros Hs. unfold wp, in_subnet. destruct (subnets (heap s) !! p) as [sub|] eqn:Ep.
  2: { split_and!; [done|apply frame_refl|done]. }
  destruct (inv_subnets s Hs p sub Ep) as (Hk & Hwf & Hok).
  assert (allowed sub TYPE_V4) as Ha by (unfold allowed; by rewrite Hk).
  pose proof (pickAddress_ok TYPE_V4 (query_classes_ (ctx s)) now sub Hwf Ha Hok) as Hpick.
  assert (∀ sub', wf4 sub' → shape sub' = shape sub →
    inv (with_heap (set_subnet p sub' (heap s)) s) ∧
    frame s (with_heap (set_subnet p sub' (heap s)) s)) as Hset.
  { intros sub' Hsub' Esh. pose proof (heap_shape_set (heap s) p sub sub' Ep Esh) as Eh.
    split.
    - destruct Hs as [I1 I2 I3 I4]. split; cbn [heap ctx with_heap].
      + by eapply heap_shape_wf.
      + intros q sub2. cbn. rewrite lookup_insert_Some. intros [[_ <-]|[_ Hq]]; [done|eauto].
      + done.
      + intros q Hq. cbn. rewrite lookup_insert_is_Some. destruct (decide (p = q)); auto.
    - split; cbn; eauto using same_client_refl. }
  destruct (pickAddress _ _ _ _) as [sub' [a|e]].
  - destruct Hpick as (Hwf' & Hsim & Hpicked).
    assert (wf4 sub') as Hsub'.
    { split; [|split; [done|]].
      - destruct Hsim as (l & ia & ta & pd & m & -> & _). done.
      - pose proof (subnet_sim_pools _ _ _ Hsim) as Hl.
        eapply Forall2_Forall_r; [exact Hl|]. eapply Forall_impl; [exact Hok|].
        intros x Hx y Hxy. by eapply pool_sim_ok. }
    destruct (Hset sub' Hsub' (subnet_sim_shape _ _ _ Hsim)) as [Hi Hf].
    split_and!; [done|done|done|done|done|]. exists sub'. cbn.
    split; [apply lookup_insert_eq|]. by apply picked_inPool.
  - destruct Hpick as (-> & -> & _).
    destruct (Hset sub (conj Hk (conj Hwf Hok)) eq_refl) as [Hi Hf]. done.
Qed.

(** What a search for a lease leaves: a lease on an address that was available
    and is free for anybody, or the leases as they were. *)
Definition granted s (r : option Lease4) s' : Prop :=
  match r with
  | Some l => stored s' l ∧ available s (addr_ l) ∧ dynamic s' (addr_ l)
  | None => lm_leases (db s') = lm_leases (db s)
  end.

Lemma granted_from s s1 r s' :
  lm_leases (db s1) = lm_leases (db s) → granted s1 r s' → granted s r s'.
Proof.
  intros E. destruct r; cbn; [|congruence]. unfold available. by rewrite E.
Qed.

Lemma safe_attempt_loop n p s :
  ctx_subnet_ (ctx s) = Some p →
  safe (attempt_loop n p) s (λ r s', near s s' ∧ ctx_subnet_ (ctx s') = Some p ∧
    granted s (mjoin r) s').
Proof.
  revert s. induction n as [|n IH]; intros s Hp.
  { apply safe_ret. split_and!; [apply near_refl|done|done]. }
  cbn [attempt_loop].
  eapply safe_bind with (P := λ c s', c = ctx s ∧ s' = s); [by apply safe_get_ctx|].
  intros c s1 _ _ [-> ->].
  eapply safe_bind; [apply safe_pick|].
  intros a s1 _ _ (Ec & Edb & _ & sub & Hsub & Hin).
  eapply safe_bind; [apply safe_addressReserved|].
  intros b s2 _ _ [-> Hres].
  assert (near s s1) as Hn1 by (pose proof (near_refl s) as Hn; unfold near in *; by rewrite Ec).
  assert (ctx_subnet_ (ctx s1) = Some p) as Hp1 by (by rewrite Ec).
  assert (∀ s2, near s s2 → ctx_subnet_ (ctx s2) = Some p →
    lm_leases (db s2) = lm_leases (db s) →
    safe (attempt_loop n p) s2 (λ r s', near s s' ∧ ctx_subnet_ (ctx s') = Some p ∧
      granted s (mjoin r) s')) as Hagain.
  { intros s2 Hn2 Hp2 E. eapply safe_mono; [by apply IH|].
    intros r s3 _ _ (? & ? & ?). split_and!; [by eapply near_trans|done|].
    by eapply granted_from. }
  destruct b; [apply Hagain; by rewrite ?Edb|].
  eapply safe_bind; [apply safe_allocateOrReuseLease4|].
  intros [[l|] status] s2 _ _ [Hc Hr]; cbn in Hr.
  - destruct Hr as (Ha & Hst & Hav). apply safe_ret. cbn.
    pose proof (calm_near _ _ Hc). destruct (calm_eq _ _ Hc) as (_ & E & _).
    split_and!; [by eapply near_trans|congruence|done| |].
    + unfold available in *. by rewrite Ha, <- Edb.
    + eapply dynamic_calm; [exact Hc|]. rewrite Ha. split; [|done].
      exists p, sub. rewrite Ec. by rewrite Ec in Hp1.
  - pose proof (calm_near _ _ Hc). destruct (calm_eq _ _ Hc) as (_ & E & _).
    destruct (_ && _).
    + apply safe_ret. split_and!; [by eapply near_trans|congruence|]. cbn. congruence.
    + apply Hagain; [by eapply near_trans|congruence|congruence].
Qed.

Lemma safe_subnets_loop fuel f k p s :
  ctx_subnet_ (ctx s) = Some p → on_chain (heap s) f k p →
  (base.size (subnets (heap s)) < k + fuel)%nat →
  safe (subnets_loop fuel f (Some p)) s (λ r s', near s s' ∧ granted s r s').
Proof.
  revert k p s. induction fuel as [|fuel IH]; intros k p s Hp Hk Hfuel Hs.
  { pose proof (on_chain_bound _ _ _ _ (inv_heap s Hs) Hk). lia. }
  cbn [subnets_loop]. revert Hs.
  eapply safe_bind with (P := λ c s', c = ctx s ∧ s' = s); [by apply safe_get_ctx|].
  intros c s1 _ _ [-> ->].
  eapply safe_bind with (P := λ _ s', s' = s); [by apply safe_the_subnet|].
  intros sub s1 _ _ ->. cbv zeta.
  eapply safe_bind; [by apply safe_attempt_loop|].
  intros r s1 _ Hf1 (Hn1 & Hp1 & Hr).
  destruct r as [r|]; [by apply safe_ret|].
  pose proof (on_chain_shape _ _ _ _ _ (frame_heap _ _ Hf1) Hk) as Hk1.
  cbn in Hr. intros Hs1'. apply wp_bind. eapply wp_mono; [by apply wp_next_subnet| |done].
  intros r s2 [-> Hr2]. cut (safe (_ ← (match r with
                 | Some _ => update_ctx (ctx_with_subnet r)
                 | None => mret tt
                 end); subnets_loop fuel f r) s1 (λ r s', near s s' ∧ granted s r s')).
  { intros Hsafe. by apply Hsafe. }
  destruct r as [q|].
  - destruct Hr2 as (k' & Hlt & Hq & _).
    eapply safe_bind with (P := λ _ s', s' = with_ctx (ctx_with_subnet (Some q) (ctx s1)) s1).
    { apply safe_move; [|done]. eapply on_chain_some; [|done]. by apply inv_heap. }
    intros [] s2 _ _ ->. eapply safe_mono; [apply (IH k' q)|].
    + done.
    + done.
    + cbn. pose proof (frame_heap _ _ Hf1) as [= E _].
      apply (f_equal base.size) in E. rewrite !map_size_fmap in E. lia.
    + intros r s3 _ _ [Hn2 Hg]. split.
      * eapply near_trans; [exact Hn1|]. eapply near_trans; [|exact Hn2].
        apply moved_near. by eexists.
      * by eapply granted_from; [|exact Hg].
  - eapply safe_bind with (P := λ _ s', s' = s1); [by apply safe_ret|].
    intros [] s2 _ _ ->. destruct fuel; by apply safe_ret.
Qed.

Lemma safe_allocateUnreservedLease4 s :
  safe allocateUnreservedLease4 s (λ r s', near s s' ∧ granted s r s').
Proof.
  eapply safe_bind with (P := λ sub s', s' = s); [by apply safe_current_subnet|].
  intros sub s1 _ _ ->.
  eapply safe_bind with (P := λ x s', x = s ∧ s' = s); [by apply safe_get|].
  intros x s1 _ _ [-> ->].
  eapply safe_bind with (P := λ _ s', moved s s').
  { destruct (shared_network_ sub) as [n|]; [|by apply safe_ret, moved_refl].
    destruct (ctx_subnet_ (ctx s)) as [sel|]; [|by apply safe_ret, moved_refl].
    eapply safe_bind with (P := λ net s', s' = s).
    { apply safe_lift; [|done]. unfold network_at. by destruct (networks (heap s) !! n). }
    intros net s1 _ _ ->.
    eapply safe_bind with (P := λ p s', s' = s ∧ is_Some (subnets (heap s) !! p)).
    { apply safe_lift; [apply preferred_exn|]. intros p Hp. split; [done|].
      by eapply preferred_some. }
    intros p s1 _ _ [-> Hp]. apply safe_move; [done|]. by eexists. }
  intros [] s1 Hs1 Hf Hm.
  eapply safe_bind with (P := λ c s', c = ctx s1 ∧ s' = s1); [by apply safe_get_ctx|].
  intros c s2 _ _ [-> ->]. destruct (ctx_subnet_ (ctx s1)) as [p|] eqn:Ep.
  - destruct (inv_subnet s1 Hs1 p Ep) as [sp Hsp].
    eapply safe_mono; [apply (safe_subnets_loop _ p 0 p); [done| |]|].
    + eapply on_chain_start; [apply Hs1|done].
    + destruct Hm as [q ->]. cbn. lia.
    + intros r s2 _ _ [Hn Hg]. split; [eapply near_trans; [by apply moved_near|done]|].
      destruct Hm as [q ->]. done.
  - apply safe_ret. split; [by apply moved_near|]. destruct Hm as [q ->]. done.
Qed.
End Search.

(** ** Answering a client *)

Section Answers.
Context {M : Type} `{LeaseMgrLaws M} `{HostMgrLaws} `{EngineConfig} `{!HooksOk}.
Implicit Types (s : State M).

(** The address may be given to the client: no lease in use is on it, or the
    lease is the client's own. *)
Definition obtainable s (a : IOAddress) : Prop :=
  available s a ∨ ∃ l, lm_leases (db s) !! a = Some l ∧ mine (heap s) (ctx s) l.

(** The address reserved for the client in the subnet of the context. *)
Definition own_reservation s : res IOAddress := (reservedAddress s).2.

Lemma reservedAddress_pure s : reservedAddress s = (s, own_reservation s).
Proof.
  unfold own_reservation, reservedAddress, currentHost, get_ctx, the_subnet, get, lift, throw,
    mbind, ST_bind, mret, ST_ret. cbn.
  destruct (ctx_subnet_ (ctx s)); [|done]. destruct (subnet_at _ _); [|done]. by case_match.
Qed.

Lemma own_reservation_eq s s' :
  heap s' = heap s → ctx_subnet_ (ctx s') = ctx_subnet_ (ctx s) →
  ctx_hosts_ (ctx s') = ctx_hosts_ (ctx s) → own_reservation s' = own_reservation s.
Proof.
  intros E1 E2 E3.
  unfold own_reservation, reservedAddress, currentHost, get_ctx, the_subnet, get, lift, throw,
    mbind, ST_bind, mret, ST_ret. cbn.
  rewrite E2. destruct (ctx_subnet_ (ctx s)); [|done]. rewrite E1.
  destruct (subnet_at _ _); [|done]. rewrite E3. by case_match.
Qed.

Lemma own_reservation_host s a :
  own_reservation s = Ok a → ∃ id host, ctx_hosts_ (ctx s) !! id = Some host ∧
    ipv4_reservation_ host = a.
Proof.
  unfold own_reservation, reservedAddress, currentHost, get_ctx, the_subnet, get, lift, throw,
    mbind, ST_bind, mret, ST_ret. cbn.
  destruct (ctx_subnet_ (ctx s)); [|done]. destruct (subnet_at _ _) as [sub|]; [|done].
  set (id := if mode_is sub HR_GLOBAL then _ else _).
  destruct (ctx_hosts_ (ctx s) !! id) as [host|] eqn:E; [|done]. intros [= <-].
  by exists id, host.
Qed.

Lemma safe_reservedAddress s :
  safe reservedAddress s (λ a s', s' = s ∧ own_reservation s = Ok a).
Proof.
  intros Hs. unfold wp. rewrite reservedAddress_pure.
  assert (own_reservation s ≠ Throw OutOfFuel) as Hex.
  { unfold own_reservation, reservedAddress, currentHost, get_ctx, the_subnet, get, lift, throw,
      mbind, ST_bind, mret, ST_ret, subnet_at. cbn.
    destruct (ctx_subnet_ (ctx s)); [|done]. destruct (subnets _ !! _); [|done]. by case_match. }
  destruct (own_reservation s); split_and!; try done; try apply frame_refl. by intros ->.
Qed.

(** A lease the client already has. *)
Definition held s (l : option Lease4) : Prop :=
  match l with
  | Some l => lm_leases (db s) !! addr_ l = Some l ∧ mine (heap s) (ctx s) l
  | None => True
  end.

Lemma held_frame s s' l :
  frame s s' → lm_leases (db s') = lm_leases (db s) → held s l → held s' l.
Proof.
  intros Hf E. destruct l as [l|]; [|done]. intros [Hl Hm]. rewrite <- E in Hl. split; [done|].
  eapply mine_frame; [apply Hf|apply Hf|done].
Qed.

Lemma obtainable_frame s s' a :
  frame s s' → lm_leases (db s') = lm_leases (db s) → obtainable s' a → obtainable s a.
Proof.
  intros Hf E. unfold obtainable, available. rewrite E. intros [Ha|(l & Hl & Hm)]; [by left|].
  right. exists l. split; [done|].
  eapply mine_frame; [symmetry; apply Hf|apply same_client_sym, Hf|done].
Qed.

Lemma moved_db s s' : moved s s' → heap s' = heap s ∧ db s' = db s.
Proof. by intros [p ->]. Qed.

(** What a stage of [discoverLease4] answers. *)
Definition offered s (r : option Lease4) s' : Prop :=
  match r with
  | Some l => obtainable s (addr_ l) ∧
              (own_reservation s' = Ok (addr_ l) ∨ dynamic s' (addr_ l))
  | None => lm_leases (db s') = lm_leases (db s)
  end.

Lemma offered_from s s1 r s' :
  frame s s1 → lm_leases (db s1) = lm_leases (db s) → offered s1 r s' → offered s r s'.
Proof.
  intros Hf E. destruct r; cbn; [|congruence]. intros [Ho ?]. split; [|done].
  by eapply obtainable_frame.
Qed.

Lemma safe_allocate_permitted a s (P : State M → Prop) :
  (∀ s', calm s s' → P s') →
  safe (fst <$> allocateOrReuseLease4 a) s (λ r s', match r with
    | Some l => addr_ l = a ∧ stored s' l ∧ obtainable s a ∧ P s'
    | None => lm_leases (db s') = lm_leases (db s)
    end).
Proof.
  intros HP. apply safe_fmap. eapply safe_mono; [apply safe_allocateOrReuseLease4|].
  intros [[l|] status] s' _ _ [Hc Hr]; cbn in *; [|done]. destruct Hr as (? & ? & ?).
  split_and!; [done|done|by left|by apply HP].
Qed.

Lemma safe_renew_held l s :
  held s (Some l) →
  safe (Some <$> renewLease4 l) s (λ r s', calm s s' ∧
    match r with
    | Some l' => addr_ l' = addr_ l ∧ stored s' l' ∧ obtainable s (addr_ l)
    | None => False
    end).
Proof.
  intros [Hl Hm]. apply safe_fmap. eapply safe_mono; [apply safe_renewLease4; [done|]|].
  - intros [_ Hn]. done.
  - intros l' s' _ _ (? & ? & ?). split_and!; [done|done|done|]. right. by exists l.
Qed.

Lemma safe_offer_reserved cl s :
  held s cl → safe (offer_reserved cl) s (offered s).
Proof.
  intros Hcl. eapply safe_bind; [apply safe_hasAddressReservation|].
  intros b s1 _ Hf1 Hm1. destruct (moved_db _ _ Hm1) as [_ Edb].
  destruct b; [|by apply safe_ret; cbn; rewrite Edb]. cbn [negb].
  eapply safe_bind; [apply safe_reservedAddress|]. intros a s2 _ _ [-> Ha].
  assert (safe (fst <$> allocateOrReuseLease4 a) s1 (offered s)) as Halloc.
  { eapply safe_mono; [apply (safe_allocate_permitted a s1 (λ s', own_reservation s' = Ok a))|].
    - intros s' Hc. rewrite <- Ha. apply own_reservation_eq; by apply calm_eq in Hc as (? & ? & ? & ? & ?).
    - intros [l|] s' _ _ Hr; cbn; [|congruence]. destruct Hr as (-> & _ & Ho & Hown).
      split; [|by left]. eapply obtainable_frame; [exact Hf1|by rewrite Edb|done]. }
  destruct cl as [l|]; [|done].
  destruct (equals (addr_ l) a) eqn:Eq; cbn [negb]; [|done].
  unfold equals in Eq. apply bool_decide_eq_true in Eq.
  eapply safe_mono; [apply safe_renew_held; eapply held_frame; [done|by rewrite Edb|done]|].
  intros [l'|] s' _ _ [Hc Hr]; [|done]. destruct Hr as (El & _ & Ho). cbn. rewrite El. split.
  - eapply obtainable_frame; [exact Hf1|by rewrite Edb|done].
  - left. rewrite Eq, <- Ha.
    apply own_reservation_eq; by apply calm_eq in Hc as (? & ? & ? & ? & ?).
Qed.

(** [inAllowedPool(a) && !addressReserved(a)] *)
Lemma safe_dynamic a s :
  safe (and_then (inAllowedPool a) (negate (addressReserved a))) s
    (λ b s', moved s s' ∧ (b = true → dynamic s' a)).
Proof.
  eapply safe_bind; [apply safe_inAllowedPool|]. intros [] s1 _ _ [Hm Hp]; [|by apply safe_ret].
  eapply safe_bind; [apply safe_addressReserved|]. intros b s2 _ _ [-> Hb]. apply safe_ret.
  split; [done|]. intros Hn. destruct b; [done|]. split; [|done].
  destruct (Hp eq_refl) as (p & sub & ? & ? & ?). by exists p, sub.
Qed.

Lemma safe_offer_existing cl s : held s cl → safe (offer_existing cl) s (offered s).
Proof.
  intros Hcl. destruct cl as [l|]; [|by apply safe_ret].
  eapply safe_bind; [apply safe_dynamic|].
  intros b s1 _ Hf1 [Hm1 Hdyn]. destruct (moved_db _ _ Hm1) as [_ Edb].
  destruct b; [|by apply safe_ret; cbn; rewrite Edb].
  eapply safe_mono; [apply safe_renew_held; eapply held_frame; [done|by rewrite Edb|done]|].
  intros [l'|] s' _ _ [Hc Hr]; [|done]. destruct Hr as (El & _ & Ho). cbn. rewrite El. split.
  - eapply obtainable_frame; [exact Hf1|by rewrite Edb|done].
  - right. eapply dynamic_calm; [exact Hc|auto].
Qed.

Lemma safe_offer_requested s : safe offer_requested s (offered s).
Proof.
  eapply safe_bind with (P := λ c s', c = ctx s ∧ s' = s); [by apply safe_get_ctx|].
  intros c s1 _ _ [-> ->]. destruct (isV4Zero _); [by apply safe_ret|].
  eapply safe_bind; [apply safe_dynamic|].
  intros b s1 _ Hf1 [Hm1 Hdyn]. destruct (moved_db _ _ Hm1) as [_ Edb].
  destruct b; [|by apply safe_ret; cbn; rewrite Edb].
  set (a := requested_address_ (ctx s)) in *.
  eapply safe_mono; [apply (safe_allocate_permitted a s1 (λ s', dynamic s' a))|].
  - intros s' Hc. eapply dynamic_calm; [exact Hc|auto].
  - intros [l|] s' _ _ Hr; cbn; [|congruence]. destruct Hr as (-> & _ & Ho & Hd).
    split; [|by right]. eapply obtainable_frame; [exact Hf1|by rewrite Edb|done].
Qed.

Lemma safe_offer_any s : safe allocateUnreservedLease4 s (offered s).
Proof.
  eapply safe_mono; [apply safe_allocateUnreservedLease4|].
  intros [l|] s' _ _ [_ Hg]; cbn in *; [|done]. destruct Hg as (_ & Ha & Hd).
  split; [by left|by right].
Qed.

Lemma safe_or_try a b s cl :
  held s cl → safe a s (offered s) → (∀ s1, held s1 cl → safe b s1 (offered s1)) →
  safe (or_try a b) s (offered s).
Proof.
  intros Hcl Ha Hb. eapply safe_bind; [exact Ha|]. intros [l|] s1 _ Hf Ho; [by apply safe_ret|].
  eapply safe_mono; [apply Hb; by eapply held_frame|].
  intros r s2 _ _ Hr. by eapply offered_from.
Qed.

Lemma safe_discoverLease4 s :
  safe discoverLease4 s (λ r s', match r with
    | Some l => obtainable s (addr_ l) ∧
                (own_reservation s' = Ok (addr_ l) ∨ dynamic s' (addr_ l))
    | None => True
    end).
Proof.
  eapply safe_bind; [apply safe_findClientLease|].
  intros cl s1 _ Hf1 [Hm Hcl]. destruct (moved_db _ _ Hm) as [Eh Edb].
  assert (held s1 cl) as Hheld.
  { eapply held_frame; [exact Hf1|by rewrite Edb|]. by destruct cl. }
  eapply safe_bind with (P := offered s1).
  { repeat (apply safe_or_try with (cl := cl); [done| |]);
      eauto using safe_offer_reserved, safe_offer_existing, safe_offer_requested, safe_offer_any. }
  intros r s2 _ _ Hr.
  eapply safe_bind with (P := λ _ s', s' = s2); [by apply safe_get_ctx|]. intros c s3 _ _ ->.
  eapply safe_bind with (P := λ _ s', calm s2 s').
  { destruct (old_lease_ c); [by apply safe_ret, calm_refl|].
    destruct cl as [l|]; [|by apply safe_ret, calm_refl].
    eapply safe_mono; [apply (safe_calm_update (ctx_with_old (Some l)));
                       intros ?; by do 2 eexists|]. by intros [] ? _ _ []. }
  intros [] s3 _ _ Hc. apply safe_ret. destruct r as [l|]; [|done]. cbn in Hr.
  destruct Hr as [Ho Hd]. split.
  - eapply obtainable_frame; [exact Hf1|by rewrite Edb|done].
  - destruct Hd as [Hd|Hd]; [left|right].
    + rewrite <- Hd. apply own_reservation_eq; by apply calm_eq in Hc as (? & ? & ? & ? & ?).
    + by eapply dynamic_calm.
Qed.

(** ** Requests *)

(** The address is in a pool of the configuration open to the client, or is
    reserved for it. *)
Definition pooled s (a : IOAddress) : Prop :=
  (∃ p sub, subnets (heap s) !! p = Some sub ∧
     inPool_classes sub TYPE_V4 a (query_classes_ (ctx s)) = Ok true) ∨
  (∃ id host, ctx_hosts_ (ctx s) !! id = Some host ∧ ipv4_reservation_ host = a).

Definition hosts_kept s s' : Prop :=
  ctx_hosts_ (ctx s') = ctx_hosts_ (ctx s) ∧ db s' = db s.

Lemma hosts_kept_trans s s' s'' : hosts_kept s s' → hosts_kept s' s'' → hosts_kept s s''.
Proof. intros [??] [??]. split; congruence. Qed.
Lemma moved_kept s s' : moved s s' → hosts_kept s s'.
Proof. by intros [p ->]. Qed.

Lemma pooled_eq s s' a :
  heap_shape (heap s') = heap_shape (heap s) → query_classes_ (ctx s') = query_classes_ (ctx s) →
  ctx_hosts_ (ctx s') = ctx_hosts_ (ctx s) → pooled s' a → pooled s a.
Proof.
  intros Eh Ec E [(p & sub & Hp & Hin)|Hhost]; [left|right; by rewrite <- E].
  destruct (heap_shape_lookup _ _ _ _ Eh Hp) as (sub' & Hp' & Es).
  exists p, sub'. split; [done|]. rewrite <- Hin, Ec.
  by rewrite <- (inPool_classes_shape sub), <- Es, inPool_classes_shape.
Qed.

(** Forwards and backwards along a step that keeps the hosts. *)
Lemma pooled_frame s s' a :
  frame s s' → ctx_hosts_ (ctx s') = ctx_hosts_ (ctx s) → pooled s' a → pooled s a.
Proof.
  intros Hf. destruct (same_client_eq _ _ (frame_client _ _ Hf)) as (_ & _ & _ & Ec & _).
  apply pooled_eq; [apply Hf|done].
Qed.
Lemma pooled_forward s s' a :
  frame s s' → ctx_hosts_ (ctx s') = ctx_hosts_ (ctx s) → pooled s a → pooled s' a.
Proof.
  intros Hf E. destruct (same_client_eq _ _ (frame_client _ _ Hf)) as (_ & _ & _ & Ec & _).
  apply pooled_eq; [symmetry; apply Hf|done|done].
Qed.

Lemma in_pool_pooled s a : in_pool s a → pooled s a.
Proof. intros (p & sub & _ & Hp & Hin). left. by exists p, sub. Qed.

Lemma safe_choose_requested s :
  safe choose_requested s (λ _ s', hosts_kept s s').
Proof.
  eapply safe_bind with (P := λ c s', c = ctx s ∧ s' = s); [by apply safe_get_ctx|].
  intros c s1 _ _ [-> ->]. destruct (isV4Zero _); cbn [negb].
  - eapply safe_bind; [apply safe_hasAddressReservation|].
    intros b s1 _ _ Hm. pose proof (moved_kept _ _ Hm). destruct b; [|by apply safe_ret].
    eapply safe_bind; [apply safe_reservedAddress|]. intros a s2 _ _ [-> Ha].
    eapply safe_bind with (P := λ _ s', s' = with_ctx (ctx_with_requested a (ctx s1)) s1).
    { apply safe_update_ctx; [by do 4 eexists| |done]. intros p. by left. }
    intros [] s2 _ _ ->. by apply safe_ret.
  - eapply safe_bind; [apply safe_addressReserved|]. intros b s1 _ _ [-> _]. by apply safe_ret.
Qed.

(** A check that passes a state on, up to the subnet of the context. *)
Lemma safe_moving (m : ST (State M) bool) (f : bool → ST (State M) bool) s P Q :
  safe m s (λ b s', moved s s' ∧ P b s') →
  (∀ b s', frame s s' → moved s s' → P b s' → safe (f b) s' (λ b' s'', moved s' s'' ∧ Q b' s'')) →
  safe (m ≫= f) s (λ b s', moved s s' ∧ Q b s').
Proof.
  intros Hm Hf. eapply safe_bind; [exact Hm|]. intros b s1 _ Hfr [Hmv HP].
  eapply safe_mono; [by apply Hf|]. intros b' s2 _ _ [? ?]. split; [by eapply moved_trans|done].
Qed.

Lemma safe_reserved_differs a s :
  safe (reserved_differs a) s (λ b s', moved s s' ∧ (b = false → own_reservation s = Ok a)).
Proof.
  eapply safe_bind; [apply safe_reservedAddress|]. intros x s1 _ _ [-> Hx]. apply safe_ret.
  split; [apply moved_refl|]. unfold equals. intros E. apply negb_false_iff in E.
  apply bool_decide_eq_true in E. congruence.
Qed.

Lemma safe_in_use_by_other a s : safe (in_use_by_other a) s (λ _ s', moved s s').
Proof.
  eapply safe_bind with (P := λ _ s', s' = s); [by apply safe_query_db|]. intros r s1 _ _ ->.
  destruct r as [l|]; [|by apply safe_ret, moved_refl].
  destruct (expired now l); [by apply safe_ret, moved_refl|].
  eapply safe_bind with (P := λ _ s', s' = s); [by apply safe_get_ctx|]. intros c s1 _ _ ->.
  eapply safe_bind with (P := λ _ s', s' = s); [by apply safe_current_subnet|].
  intros sub s1 _ _ ->. by apply safe_ret, moved_refl.
Qed.

Lemma safe_reserved_is_free a s : safe (reserved_is_free a) s (λ _ s', moved s s').
Proof.
  eapply safe_bind with (P := λ _ s', moved s s').
  - eapply safe_bind; [apply safe_hasAddressReservation|]. intros [] s1 _ _ Hm;
      [|by apply safe_ret].
    eapply safe_mono; [apply safe_reserved_differs|]. intros b s2 _ _ [? _].
    by eapply moved_trans.
  - intros [] s1 _ _ Hm; [|by apply safe_ret].
    eapply safe_bind; [apply safe_reservedAddress|]. intros x s2 _ _ [-> _].
    eapply safe_bind with (P := λ _ s', s' = s1); [by apply safe_query_db|].
    intros r s2 _ _ ->. by apply safe_ret.
Qed.

Lemma own_pooled s a : own_reservation s = Ok a → pooled s a.
Proof. intros Ha. right. by apply own_reservation_host. Qed.

Lemma safe_out_of_pool a s :
  safe (out_of_pool a) s (λ b s', moved s s' ∧ (b = false → pooled s a)).
Proof.
  eapply safe_bind with (P := λ b s', moved s s' ∧ (b = false → pooled s a)).
  - eapply safe_bind with (P := λ b s', moved s s').
    { eapply safe_bind; [apply safe_hasAddressReservation|]. intros b s1 _ _ Hm.
      by apply safe_ret. }
    intros [] s1 _ Hf Hm; [by apply safe_ret|].
    eapply safe_mono; [apply safe_reserved_differs|]. intros b s2 _ _ [? Ha].
    split; [by eapply moved_trans|]. intros E. eapply pooled_frame; [exact Hf| |].
    + by destruct (moved_kept _ _ Hm).
    + by apply own_pooled, Ha.
  - intros [] s1 _ Hf [Hm Hp]; [|by apply safe_ret].
    eapply safe_bind; [apply safe_inAllowedPool|]. intros b s2 _ Hf2 [Hm2 Hin].
    apply safe_ret. split; [by eapply moved_trans|]. intros E. destruct b; [|done].
    eapply pooled_frame; [exact (frame_trans _ _ _ Hf Hf2)| |].
    + destruct (moved_kept _ _ (moved_trans _ _ _ Hm Hm2)). done.
    + by apply in_pool_pooled, Hin.
Qed.

Lemma safe_check_requested a s :
  safe (check_requested a) s (λ b s', moved s s' ∧
    (b = true → isV4Zero a = false → pooled s a)).
Proof.
  unfold check_requested. destruct (isV4Zero a); [by apply safe_ret; split; [apply moved_refl|]|].
  eapply safe_bind with (P := λ b s', moved s s' ∧ (b = false → pooled s a)).
  - eapply safe_bind; [apply safe_in_use_by_other|]. intros [] s1 _ Hf1 Hm1;
      [by apply safe_ret|].
    eapply safe_bind; [apply safe_reserved_is_free|]. intros [] s2 _ Hf2 Hm2.
    { apply safe_ret. split; [by eapply moved_trans|done]. }
    eapply safe_mono; [apply safe_out_of_pool|]. intros b s3 _ _ [Hm3 Hp].
    pose proof (moved_trans _ _ _ Hm1 Hm2) as Hm12.
    split; [by eapply moved_trans|]. intros E.
    eapply pooled_frame; [exact (frame_trans _ _ _ Hf1 Hf2)| |by apply Hp].
    by destruct (moved_kept _ _ Hm12).
  - intros b s1 _ _ [Hm Hp]. apply safe_ret. split; [done|]. intros E _. apply Hp.
    by destruct b.
Qed.

Lemma safe_renewable cl a s :
  safe (renewable cl a) s (λ r s', moved s s' ∧ match r with Some l => cl = Some l | None => True end).
Proof.
  unfold renewable. destruct cl as [l|]; [|by apply safe_ret; split; [apply moved_refl|]].
  destruct (_ || _); [|by apply safe_ret; split; [apply moved_refl|]].
  eapply safe_bind with (P := λ _ s', moved s s').
  - eapply safe_bind; [apply safe_hasAddressReservation|]. intros [] s1 _ _ Hm;
      [by apply safe_ret|].
    eapply safe_mono; [apply safe_inAllowedPool|]. intros b s2 _ _ [? _]. by eapply moved_trans.
  - intros [] s1 _ _ Hm; by apply safe_ret.
Qed.

(** What a request gives: an address that was obtainable, in a pool or reserved
    for the client unless it had it already, with the lease in the database
    unless it is on the address of an expired lease of the client. *)
Definition leased s (l : Lease4) s' : Prop :=
  obtainable s (addr_ l) ∧
  (pooled s (addr_ l) ∨ ∃ l0, lm_leases (db s) !! addr_ l = Some l0 ∧ mine (heap s) (ctx s) l0) ∧
  (lm_leases (db s') !! addr_ l = Some l ∨
   ∃ l0, lm_leases (db s) !! addr_ l = Some l0 ∧ mine (heap s) (ctx s) l0 ∧ expired now l0 = true).

Lemma leased_from s s1 l s' : frame s s1 → hosts_kept s s1 → leased s1 l s' → leased s l s'.
Proof.
  intros Hf [Eh Ed] (Ho & Hp & Hst). unfold leased. rewrite Ed in Hp, Hst.
  assert (∀ x, mine (heap s1) (ctx s1) x → mine (heap s) (ctx s) x) as Hmine.
  { intros x. apply mine_frame; [symmetry; apply Hf|apply same_client_sym, Hf]. }
  split_and!.
  - eapply obtainable_frame; [exact Hf|by rewrite Ed|done].
  - destruct Hp as [Hp|(l0 & ? & ?)]; [left; by eapply pooled_frame|right; eauto].
  - destruct Hst as [Hst|(l0 & ? & ? & ?)]; [by left|right; eauto].
Qed.

(** The allocation of a request, and the removal of the lease the client had. *)
Lemma safe_replace_lease (m : ST (State M) (option Lease4)) cl s :
  fake_allocation_ (ctx s) = false → held s cl →
  safe m s (λ r s', match r with
    | Some l => stored s' l ∧ available s (addr_ l) ∧ pooled s (addr_ l)
    | None => True
    end) →
  safe (new_lease ← m;
        match new_lease, cl with
        | Some l, Some cl => _ ← remove_client_lease cl; mret (Some l)
        | _, _ => mret new_lease
        end) s (λ r s', match r with Some l => leased s l s' | None => True end).
Proof.
  intros Hfake Hcl Hm Hs. apply wp_bind. eapply wp_mono; [by apply Hm| |done].
  intros [l|] s1 (Hs1 & Hf1 & Hr); [|by apply wp_ret].
  destruct Hr as (Hst & Hav & Hp).
  destruct (same_client_eq _ _ (frame_client _ _ Hf1)) as (_ & _ & Ef & _).
  specialize (Hst ltac:(congruence)).
  destruct cl as [cl|].
  2: { apply wp_ret. split_and!; [done|done|]. split; [by left|]. auto. }
  destruct Hcl as [Hcl Hmine].
  apply wp_bind, wp_bind, wp_modify. apply wp_bind.
  assert (∀ d, lm_leases d = delete (addr_ cl) (lm_leases (db s1)) ∨
               lm_leases d = lm_leases (db s1) →
    let s2 := with_db d (with_ctx (ctx_with_old (Some cl) (ctx s1)) s1) in
    inv s2 ∧ frame s s2) as Hdel.
  { intros d Hd s2. split.
    - destruct Hs1 as [I1 I2 I3 I4]. by split.
    - destruct Hf1 as [A1 A2 A3 A4]. split; cbn; [|done|congruence|].
      + eapply same_client_trans; [exact A1|]. by do 4 eexists.
      + intros a x Ha Hfor. pose proof (A4 a x Ha Hfor) as Ha1. destruct Hd as [-> | ->]; [|done].
        rewrite lookup_delete_ne; [done|]. intros <-. rewrite Hcl in Ha. injection Ha as <-.
        by destruct Hfor. }
  apply wp_zoom. eapply wp_mono; [apply lm_deleteLease_spec| |].
  2: { intros e d [He Hd]. destruct (Hdel d (or_intror Hd)). split_and!; [done|done|by intros ->]. }
  intros b d [_ Hd]. destruct (Hdel d (or_introl Hd)) as [Hi2 Hf2]. cbn in Hi2, Hf2.
  set (s2 := with_db d _) in *.
  assert (fake_allocation_ (ctx s2) = false) as Ef2 by (cbn; congruence).
  eapply wp_mono; [apply (safe_stat_add _ _ _ Ef2 Hi2)| |].
  - intros [] s3 (Hi3 & Hf3 & Hq). apply wp_ret. destruct Hq as (_ & Edb & _).
    split_and!; [done|by eapply frame_trans|]. split; [by left|]. split; [by left|].
    rewrite Edb. cbn. rewrite Hd. destruct (decide (addr_ cl = addr_ l)) as [E|E].
    + right. exists cl. rewrite <- E. split_and!; [done|done|].
      unfold available in Hav. rewrite <- E, Hcl in Hav. done.
    + left. rewrite lookup_delete_ne by done. done.
  - intros e s3 (Hi3 & Hf3 & He). split_and!; [done|by eapply frame_trans|done].
Qed.

Lemma safe_requestLease4 s :
  fake_allocation_ (ctx s) = false →
  safe requestLease4 s (λ r s', match r with Some l => leased s l s' | None => True end).
Proof.
  intros Hfake. eapply safe_bind; [apply safe_findClientLease|].
  intros cl s1 _ Hf1 [Hm1 Hcl]. pose proof (moved_kept _ _ Hm1) as Hk1.
  assert (held s1 cl) as Hh1.
  { eapply held_frame; [exact Hf1|by destruct Hk1 as [_ ->]|]. by destruct cl. }
  eapply safe_bind; [apply safe_choose_requested|].
  intros b s2 _ Hf2 Hk2. destruct b; [|by apply safe_ret]. cbn [negb].
  eapply safe_bind with (P := λ c s', c = ctx s2 ∧ s' = s2); [by apply safe_get_ctx|].
  intros c s3 _ _ [-> ->]. cbv zeta.
  set (a := requested_address_ (ctx s2)).
  eapply safe_bind; [apply safe_check_requested|].
  intros b s3 _ Hf3 [Hm3 Hp]. destruct b; [|by apply safe_ret]. cbn [negb].
  pose proof (moved_kept _ _ Hm3) as Hk3.
  eapply safe_bind; [apply safe_renewable|].
  intros own s4 _ Hf4 [Hm4 Hown]. pose proof (moved_kept _ _ Hm4) as Hk4.
  pose proof (frame_trans _ _ _ (frame_trans _ _ _ Hf1 Hf2) (frame_trans _ _ _ Hf3 Hf4)) as Hf.
  pose proof (hosts_kept_trans _ _ _ (hosts_kept_trans _ _ _ Hk1 Hk2)
                (hosts_kept_trans _ _ _ Hk3 Hk4)) as Hk.
  assert (held s4 cl) as Hh4.
  { eapply held_frame; [exact Hf|by destruct Hk as [_ ->]|]. by destruct cl. }
  destruct (same_client_eq _ _ (frame_client _ _ Hf)) as (_ & _ & Ef & _).
  destruct own as [l|].
  - subst cl. eapply safe_mono; [by apply safe_renew_held|].
    intros [l'|] s5 _ Hf5 [Hc Hr]; [|done]. destruct Hr as (El & Hst & Ho).
    eapply leased_from; [exact Hf|exact Hk|]. unfold leased. rewrite El. split; [done|].
    destruct Hh4 as [Hl Hm]. split; [right; by exists l|]. left. rewrite <- El. apply Hst.
    destruct (calm_eq _ _ Hc) as (_ & _ & _ & _ & ->). congruence.
  - eapply safe_mono; [apply safe_replace_lease; [congruence|exact Hh4|]|].
    + destruct (isV4Zero a) eqn:Ez; cbn [negb].
      * eapply safe_mono; [apply safe_allocateUnreservedLease4|].
        intros [l|] s5 _ Hf5 [Hn Hg]; [|done]. destruct Hg as (Hst & Hav & Hd & _).
        split_and!; [done|done|]. eapply pooled_frame; [exact Hf5| |by apply in_pool_pooled].
        by destruct (near_eq _ _ Hn) as (_ & _ & -> & _).
      * apply safe_fmap. eapply safe_mono; [apply safe_allocateOrReuseLease4|].
        intros [[l|] status] s5 _ _ [_ Hr]; cbn in *; [|done]. destruct Hr as (-> & ? & ?).
        split_and!; [done|done|].
        eapply pooled_forward; [exact (frame_trans _ _ _ Hf3 Hf4)| |by apply Hp].
        by destruct (hosts_kept_trans _ _ _ Hk3 Hk4).
    + intros r s5 _ _ Hr. destruct r as [l|]; [|done]. by eapply leased_from.
Qed.
End Answers.

(** ** The entry point *)

Section Allocate.
Context {M : Type} `{LeaseMgrLaws M} `{HostMgrLaws} `{EngineConfig} `{!HooksOk}.
Implicit Types (s : State M).

(** The state without the results of the allocation in the context. *)
Definition reset_new s : State M := with_ctx (ctx_with_new None (ctx s)) s.
Definition reset_results s : State M :=
  with_ctx (ctx_with_new None (ctx_with_old None (ctx s))) s.

Lemma reset_new_id s : new_lease_ (ctx s) = None → reset_new s = s.
Proof.
  intros E. unfold reset_new, ctx_with_new. rewrite <- E. destruct s as [? ? ? ? ? c]. cbn.
  by destruct c.
Qed.

Lemma inv_reset s : inv s → inv (reset_results s).
Proof. intros [I1 I2 I3 I4]. by split. Qed.

(** What an answer to a client satisfies. *)
Definition answered s (r : option Lease4) s' : Prop :=
  match r with
  | Some l =>
      if fake_allocation_ (ctx s)
      then obtainable s (addr_ l) ∧
           (own_reservation s' = Ok (addr_ l) ∨ dynamic s' (addr_ l))
      else leased s l s'
  | None => True
  end.

Lemma answered_from s s1 r s' : frame s s1 → hosts_kept s s1 → answered s1 r s' → answered s r s'.
Proof.
  intros Hf Hk. unfold answered. destruct r as [l|]; [|done].
  destruct (same_client_eq _ _ (frame_client _ _ Hf)) as (_ & _ & -> & _).
  destruct (fake_allocation_ (ctx s)); [|by apply leased_from].
  intros [Ho Hd]. split; [|done]. destruct Hk as [_ Hk].
  eapply obtainable_frame; [exact Hf|by rewrite Hk|done].
Qed.

Lemma wp_answer s :
  inv s → new_lease_ (ctx s) = None →
  wp (try_catch
    (c ← get_ctx;
     match ctx_subnet_ c, ctx_hwaddr_ c with
     | None, _ => throw BadValue
     | Some _, None => throw BadValue
     | Some _, Some _ =>
         if fake_allocation_ c then discoverLease4
         else
           l ← requestLease4;
           _ ← update_ctx (ctx_with_new l);
           mret l
     end)
    (c ← get_ctx; mret (new_lease_ c))) s
    (λ r s', inv s' ∧ frame s (reset_new s') ∧ answered s r s')
    (λ e s', inv s' ∧ frame s (reset_new s') ∧ e ≠ OutOfFuel).
Proof.
  intros Hs Hnew.
  assert (∀ s', frame s s' → reset_new s' = s') as Hid.
  { intros s' Hf. apply reset_new_id.
    destruct (same_client_eq _ _ (frame_client _ _ Hf)) as (_ & _ & _ & _ & _ & -> & _). done. }
  assert (∀ e s', inv s' ∧ frame s s' ∧ e ≠ OutOfFuel →
    if catchable e then
      wp (c ← get_ctx; mret (new_lease_ c)) s'
        (λ r s', inv s' ∧ frame s (reset_new s') ∧ answered s r s')
        (λ e s', inv s' ∧ frame s (reset_new s') ∧ e ≠ OutOfFuel)
    else inv s' ∧ frame s (reset_new s') ∧ e ≠ OutOfFuel) as Hcatch.
  { intros e s' (Hi & Hf & He). destruct (catchable e); [|by rewrite (Hid s' Hf)].
    apply wp_bind, wp_bind, wp_get, wp_ret, wp_ret. rewrite (Hid s' Hf).
    split_and!; [done|done|].
    destruct (same_client_eq _ _ (frame_client _ _ Hf)) as (_ & _ & _ & _ & _ & -> & _).
    by rewrite Hnew. }
  apply wp_try_catch, wp_bind, wp_bind, wp_get, wp_ret.
  destruct (ctx_subnet_ (ctx s)) as [p|]; [|by apply wp_throw, Hcatch; eauto using frame_refl].
  destruct (ctx_hwaddr_ (ctx s)); [|by apply wp_throw, Hcatch; eauto using frame_refl].
  destruct (fake_allocation_ (ctx s)) eqn:Ef.
  - eapply wp_mono; [by apply safe_discoverLease4| |].
    + intros r s' (Hi & Hf & Hr). rewrite (Hid s' Hf). unfold answered. by rewrite Ef.
    + intros e s' He. by apply Hcatch.
  - apply wp_bind. eapply wp_mono; [by apply safe_requestLease4| |].
    + intros r s' (Hi & Hf & Hr). apply wp_bind, wp_modify, wp_ret. split_and!.
      * destruct Hi as [I1 I2 I3 I4]. by split.
      * assert (reset_new (with_ctx (ctx_with_new r (ctx s')) s') = reset_new s') as -> by done.
        by rewrite (Hid s' Hf).
      * unfold answered. rewrite Ef. by destruct r.
    + intros e s' He. by apply Hcatch.
Qed.

Lemma wp_allocateLease4 s :
  inv s →
  wp allocateLease4 s
    (λ r s', inv s' ∧ frame (reset_results s) (reset_new s') ∧ answered (reset_results s) r s')
    (λ e s', inv s' ∧ frame (reset_results s) (reset_new s') ∧ e ≠ OutOfFuel).
Proof.
  intros Hs. apply wp_bind, wp_modify. fold (reset_results s).
  pose proof (inv_reset s Hs) as Hi. set (s0 := reset_results s) in *.
  assert (new_lease_ (ctx s0) = None) as Hnew by done.
  apply wp_bind, wp_bind, wp_get, wp_ret.
  assert (safe (match ctx_subnet_ (ctx s0) with
    | Some p =>
        sub ← the_subnet p;
        s ← get;
        supported ← lift (clientSupported (heap s) sub (query_classes_ (ctx s0)));
        if (supported : bool) then mret tt
        else
          p' ← next_subnet p p (query_classes_ (ctx s0));
          update_ctx (ctx_with_subnet p')
    | None => mret tt
    end) s0 (λ _ s', moved s0 s')) as Hfirst.
  { destruct (ctx_subnet_ (ctx s0)) as [p|]; [|by apply safe_ret, moved_refl].
    eapply safe_bind with (P := λ sub s', s' = s0 ∧ subnets (heap s0) !! p = Some sub);
      [by apply safe_the_subnet|]. intros sub s1 _ _ [-> Hsub].
    eapply safe_bind with (P := λ x s', x = s0 ∧ s' = s0); [by apply safe_get|].
    intros x s1 Hi0 _ [-> ->].
    destruct (clientSupported_total (heap s0) p sub (query_classes_ (ctx s0))
      (inv_heap s0 Hi0) Hsub) as [b ->].
    eapply safe_bind with (P := λ b s', s' = s0); [by apply safe_lift|].
    intros [] s1 _ _ ->; [by apply safe_ret, moved_refl|].
    pose proof (on_chain_start (heap s0) p sub (inv_heap s0 Hi0) Hsub) as Hk.
    intros _. apply wp_bind. eapply wp_mono; [by apply wp_next_subnet| |done].
    intros r s1 [-> Hr]. revert Hi0.
    destruct r as [q|].
    - destruct Hr as (k' & _ & Hq & _). intros Hi0. apply safe_move; [|by eexists|done].
      eapply on_chain_some; [apply Hi0|done].
    - apply safe_update_ctx; [by do 4 eexists|done|by eexists]. }
  apply wp_bind. eapply wp_mono; [by apply Hfirst| |].
  - intros [] s1 (Hi1 & Hf1 & Hm). destruct Hm as [q Es1].
    assert (new_lease_ (ctx s1) = None) as Hnew1 by (by rewrite Es1).
    eapply wp_mono; [by apply wp_answer| |].
    + intros r s2 (Hi2 & Hf2 & Hr). split_and!; [done|by eapply frame_trans|].
      eapply answered_from; [exact Hf1| |done]. by rewrite Es1.
    + intros e s2 (Hi2 & Hf2 & He). split_and!; [done|by eapply frame_trans|done].
  - intros e s1 (Hi1 & Hf1 & He). split_and!; [done| |done].
    rewrite reset_new_id; [done|].
    destruct (same_client_eq _ _ (frame_client _ _ Hf1)) as (_ & _ & _ & _ & _ & -> & _). done.
Qed.
End Allocate.
