(* ===== verification/AllocEngine4Correct.v ===== *)
(** * What the DHCPv4 allocation engine promises

    The properties of [allocateLease4] for every lease database and every source
    of reservations that keep their laws, from the lemmas of [AllocEngine4Safety];
    the witnesses run the engine on the in-memory database with a configuration of
    two subnets. *)

From S2P Require Import Prelude IoAddress Pool Subnet SharedNetwork IterativeAllocator EngineHeap.
From S2P Require Import StatsMgr Lease LeaseMgr Host CfgHosts CsvLeaseFile4.
From S2P Require Import LeaseStorage MemfileLeaseMgr AllocEngine4 AllocEngine4Safety.
Local Open Scope Z_scope.

(** ** A small server

    Subnet 1 is 192.0.2.0/24 with the pools 192.0.2.10 - 192.0.2.12 and 192.0.2.20;
    subnet 2 is 192.0.3.0/24 with the pool 192.0.3.10 - 192.0.3.11. *)

Definition no_hooks : Hooks :=
  {| lease4_select := None; lease4_renew := None; lease4_expire := None; lease4_recover := None |}.
Definition plain_engine : EngineConfig :=
  {| now := 1000; attempts_ := 0; ddnsEnabled := false; ncr_ok := λ _, true; hooks := no_hooks |}.

Definition with_mode (m : HRMode) (s : Subnet) : Subnet :=
  {| kind := kind s; id_ := id_ s; prefix_ := prefix_ s; subnet_len_ := subnet_len_ s;
     pools_ := pools_ s; pools_ta_ := pools_ta_ s; pools_pd_ := pools_pd_ s;
     last_allocated_ia_ := last_allocated_ia_ s; last_allocated_ta_ := last_allocated_ta_ s;
     last_allocated_pd_ := last_allocated_pd_ s; last_allocated_time_ := last_allocated_time_ s;
     shared_network_ := shared_network_ s; client_class_ := client_class_ s;
     net_t1_ := net_t1_ s; net_t2_ := net_t2_ s; preferred_ := preferred_ s; valid_ := valid_ s;
     host_reservation_mode_ := m; match_client_id_ := match_client_id_ s |}.

Definition second_pool : Pool := sample_pool 2 0xC000030A 0xC000030B 2.
Definition second_subnet : Subnet :=
  match (s ← mkSubnet Kind4 (V4 0xC0000300) 24 1000 2000 0 4000 2; addPool s second_pool) with
  | Ok s => s
  | Throw _ => sample_subnet
  end.

(** The two subnets, alone or in one shared network. *)
Definition heap_of (network : bool) (mode1 mode2 : HRMode) : Heap :=
  let n := if network then Some 7 else None in
  {| subnets := <[10 := with_mode mode1 (with_network sample_subnet n)]>
       (<[20 := with_mode mode2 (with_network second_subnet n)]> ∅);
     networks := if network then <[7 := {| net_class_ := ""; subnets_ := [10; 20] |}]> ∅ else ∅ |}.

Definition sample_hw (n : Z) : HWAddr := {| hwaddr_bytes := [2; 0; 0; 0; 0; n]; htype_ := 1 |}.

(** A message of client [n], received on subnet 1. *)
Definition message (n : Z) (requested : IOAddress) (fake : bool) : ClientContext4 :=
  mkClientContext4 (Some 10) None (Some (sample_hw n)) requested false false "" fake false [].

(** A lease of client [n], in use until [expires]. *)
Definition lease_of (n a subnet expires : Z) : Lease4 :=
  mkLease4 (V4 a) (Some (sample_hw n)) None 4000 1000 2000 (expires - 4000) subnet
    false false "".

Definition memory (l : list Lease4) : Memfile4 ListStorage4 :=
  foldl (λ m l, fst (memfile_addLease (λ _, true) l m))
    {| storage_ := st_empty; lease_file_ := []; persistLeases := true |} l.

Definition server (h : Heap) (l : list Lease4) (c : ClientContext4) : State (Memfile4 ListStorage4) :=
  {| heap := h; db := memory l; stats := ∅; ncrs := []; incomplete_v4_reclamations_ := 0; ctx := c |}.

Lemma second_subnet_wf : wf_subnet second_subnet.
Proof.
  assert ((s ← mkSubnet Kind4 (V4 0xC0000300) 24 1000 2000 0 4000 2; addPool s second_pool)
          = Ok second_subnet) as E by (vm_compute; reflexivity).
  res_inv. eapply addPool_wf; [|apply sample_pool_wf|exact E]; [|lia..].
  eapply mkSubnet_wf; [|  |done]; [split; [done|reflexivity]|lia].
Qed.

Lemma wf_subnet_with s n m : wf_subnet s → wf_subnet (with_mode m (with_network s n)).
Proof. by intros []; split. Qed.

Lemma heap_of_subnets b m1 m2 p s : subnets (heap_of b m1 m2) !! p = Some s →
  (p = 10 ∧ s = with_mode m1 (with_network sample_subnet (if b then Some 7 else None))) ∨
  (p = 20 ∧ s = with_mode m2 (with_network second_subnet (if b then Some 7 else None))).
Proof. cbn [subnets heap_of]. rewrite !lookup_insert_Some, lookup_empty. naive_solver. Qed.

Lemma heap_of_wf b m1 m2 : wf_heap (heap_of b m1 m2).
Proof.
  assert (∀ n net, networks (heap_of b m1 m2) !! n = Some net →
    b = true ∧ n = 7 ∧ net = {| net_class_ := ""; subnets_ := [10; 20] |}) as Hnet.
  { intros n net. cbn [networks heap_of]. destruct b; [|done].
    rewrite lookup_insert_Some, lookup_empty. naive_solver. }
  split.
  - intros n net (-> & -> & ->)%Hnet. apply (bool_decide_unpack _). destruct m1, m2; vm_compute; exact I.
  - intros n net p (-> & -> & ->)%Hnet. cbn [subnets_]. rewrite !elem_of_cons, elem_of_nil. split.
    + intros [->|[->|[]]]; eexists; split; reflexivity.
    + intros (s & Hs%heap_of_subnets & Hn). naive_solver.
  - intros p s n Hs%heap_of_subnets Hn. destruct b.
    + assert (n = 7) as -> by naive_solver. by eexists.
    + naive_solver.
Qed.

Lemma heap_of_wf4 b m1 m2 p s : subnets (heap_of b m1 m2) !! p = Some s → wf4 s.
Proof.
  assert (∀ i f l c, 0 < f ≤ l → l < 2 ^ 32 → pool_ok TYPE_V4 (sample_pool i f l c)) as Hp.
  { intros. repeat split; try (apply sample_pool_wf; lia); try done. left. cbn. lia. }
  intros [[-> ->]|[-> ->]]%heap_of_subnets; (split; [done|split]).
  - apply wf_subnet_with, sample_subnet_wf.
  - repeat constructor; apply Hp; lia.
  - apply wf_subnet_with, second_subnet_wf.
  - repeat constructor; apply Hp; lia.
Qed.

Lemma message_inv h l n a fake : wf_heap h →
  (∀ p sub, subnets h !! p = Some sub → wf4 sub) → is_Some (subnets h !! 10) →
  inv (server h l (message n a fake)).
Proof. intros Hh Hs H10. split; [done|done|done|]. intros p [= <-]. done. Qed.

Lemma sample_inv b m1 m2 l n a fake : inv (server (heap_of b m1 m2) l (message n a fake)).
Proof.
  apply message_inv; [apply heap_of_wf|intros p sub; apply heap_of_wf4|].
  cbn [subnets heap_of]. by rewrite lookup_insert_eq.
Qed.

(** ** The properties *)

Section Engine.
Context {M : Type} `{LeaseMgrLaws M} `{HostMgrLaws} `{EngineConfig} `{!HooksOk}.
Implicit Types (s : State M).

Lemma allocate_cases s s' r :
  inv s → allocateLease4 s = (s', r) →
  inv s' ∧ frame (reset_results s) (reset_new s') ∧ r ≠ Throw OutOfFuel ∧
  ∀ l, r = Ok l → answered (reset_results s) l s'.
Proof using All.
  intros Hs E. pose proof (wp_allocateLease4 s Hs) as Hwp. unfold wp in Hwp. rewrite E in Hwp.
  destruct r as [l|e]; destruct Hwp as (? & ? & ?); split_and!; try done; congruence.
Qed.

(** C4: a lease in use by another client is the same after [allocateLease4],
    whatever the message, the configuration and the failures of the database, also when the
    call throws, as long as the callouts do not change the address of the lease that they are
    given ([HooksOk]).  The code does not check what callouts return:
    [callout_overwrites_other_lease] is a renewal in which one changes the address. *)
Theorem allocateLease4_keeps_other_leases s s' r (a : IOAddress) (l : Lease4)
    (Hs : inv s) (E : allocateLease4 s = (s', r))
    (Hl : lm_leases (db s) !! a = Some l) (Hother : foreign s l) :
  lm_leases (db s') !! a = Some l.
Proof using All.
  destruct (allocate_cases s s' r Hs E) as (_ & Hf & _). exact (frame_foreign _ _ Hf a l Hl Hother).
Qed.

(** C5: [allocateLease4] ends: the loops over the subnets of a network and over
    the attempts never run out of the bound the model gives them. It keeps the
    invariant, the configuration of the subnets and the client's data. *)
Theorem allocateLease4_ends s (Hs : inv s) :
  ∃ s' r, allocateLease4 s = (s', r) ∧ r ≠ Throw OutOfFuel ∧ inv s' ∧
    heap_shape (heap s') = heap_shape (heap s) ∧
    same_client (ctx_with_new None (ctx s)) (ctx_with_new None (ctx s')).
Proof using All.
  destruct (allocateLease4 s) as [s' r] eqn:E. exists s', r.
  destruct (allocate_cases s s' r Hs E) as (Hi & [F1 F2 _ _] & Hr & _).
  split_and!; [done|done|done|exact F2|].
  destruct F1 as (p & q & o & c & F1). exists p, q, o, c. exact F1.
Qed.

(** an offer (a fake allocation) changes no lease, no statistic and queues
    no name change request. *)
Theorem discover_changes_nothing s s' r (Hs : inv s)
    (Hfake : fake_allocation_ (ctx s) = true) (E : allocateLease4 s = (s', r)) :
  db s' = db s ∧ stats s' = stats s ∧ ncrs s' = ncrs s.
Proof using All.
  destruct (allocate_cases s s' r Hs E) as (_ & Hf & _).
  destruct (frame_fake _ _ Hf Hfake) as (? & ? & ? & _). done.
Qed.


End Engine.

(** ** The theorems on the small server *)

#[local] Existing Instance plain_engine.
#[local] Instance memory_mgr : LeaseMgr (Memfile4 ListStorage4) := memfile_lease_mgr (λ _, true).
#[local] Instance no_reservations : HostMgr := cfg_host_mgr empty_cfg.

#[export] Instance no_hooks_ok : @HooksOk plain_engine.
Proof. by split. Qed.

(** Client 2 has 192.0.2.10. *)
Definition one_lease (c : ClientContext4) : State (Memfile4 ListStorage4) :=
  server (heap_of false HR_ALL HR_ALL) [lease_of 2 0xC000020A 1 5000] c.

Lemma other_foreign n a fake : n ≠ 2 →
  foreign (one_lease (message n a fake)) (lease_of 2 0xC000020A 1 5000).
Proof.
  intros Hn. split; [done|]. intros (p & sub & Hp & Hb). apply belongsToClient_true in Hb.
  destruct Hb as [(c & _ & Hc)|(_ & h & Eh & Eh')]; [done|].
  cbn in Eh, Eh'. rewrite <- Eh in Eh'. injection Eh' as Eh'. congruence.
Qed.

Lemma allocateLease4_keeps_other_leases_witness :
  let s := one_lease (message 1 (V4 0xC000020A) false) in
  let l := lease_of 2 0xC000020A 1 5000 in
  inv s ∧ foreign s l ∧
  ∃ s', allocateLease4 s = (s', Ok None) ∧ lm_leases (db s') !! V4 0xC000020A = Some l.
Proof.
  intros s l. assert (inv s) as Hs by apply sample_inv.
  assert (foreign s l) as Hl by (by apply other_foreign).
  split; [exact Hs|split; [exact Hl|]].
  assert (∃ s', allocateLease4 s = (s', Ok None)) as [s' E] by (vm_compute; by eexists).
  exists s'. split; [exact E|].
  refine (allocateLease4_keeps_other_leases s s' (Ok None) _ l Hs E _ Hl). vm_compute. reflexivity.
Defined.

Lemma allocateLease4_ends_witness :
  let s := one_lease (message 1 (V4 0xC000020A) false) in
  inv s ∧ ∃ s' r, allocateLease4 s = (s', r) ∧ r ≠ Throw OutOfFuel.
Proof.
  intros s. assert (inv s) as Hs by apply sample_inv. split; [exact Hs|].
  destruct (allocateLease4_ends s Hs) as (s' & r & E & Hr & _).
  exists s', r. split; [exact E|exact Hr].
Defined.

Lemma discover_changes_nothing_witness :
  let s := one_lease (message 1 IPV4_ZERO_ADDRESS true) in
  inv s ∧ ∃ s' r, allocateLease4 s = (s', r) ∧ stats s' = stats s.
Proof.
  intros s. assert (inv s) as Hs by apply sample_inv. split; [exact Hs|].
  destruct (allocateLease4 s) as [s' r] eqn:E. exists s', r. split; [reflexivity|].
  exact (proj1 (proj2 (discover_changes_nothing s s' r Hs eq_refl E))).
Defined.


