(* ===== verification/AllocEngine4Functional.v ===== *)
(** * What the DHCPv4 allocation engine answers in a plain subnet

    The functional behaviour of the engine for a client served from a subnet that
    belongs to no shared network, without hook libraries: which host reservation
    it finds, which lease it offers to a client with a reservation, and which lease
    it gives to a client that asks for a free address. *)

From S2P Require Import Prelude IoAddress Pool Subnet SharedNetwork IterativeAllocator.
From S2P Require Import StatsMgr Lease LeaseMgr Host CfgHosts CsvLeaseFile4.
From S2P Require Import LeaseStorage MemfileLeaseMgr AllocEngine4 AllocEngine4Safety.
From S2P Require Import AllocEngine4Correct.
Local Open Scope Z_scope.
#[local] Set Default Proof Using "All".

Section Plain.
Context {M : Type} `{LeaseMgrLaws M} `{HostMgrLaws} `{EngineConfig}.
Implicit Types (s : State M).

(** A message of a client, with its hardware address, on a subnet it may use and
    that belongs to no shared network. *)
Record plain s (p : Z) (sub : Subnet) : Prop := {
  plain_selected : ctx_subnet_ (ctx s) = Some p;
  plain_subnet : subnets (heap s) !! p = Some sub;
  plain_alone : shared_network_ sub = None;
  plain_supported : clientSupported (heap s) sub (query_classes_ (ctx s)) = Ok true;
  plain_hwaddr : is_Some (ctx_hwaddr_ (ctx s))
}.

Context (p : Z) (sub : Subnet).

Lemma stay s : plain s p sub → with_ctx (ctx_with_subnet (Some p) (ctx s)) s = s.
Proof.
  intros [Hp _ _ _ _]. rewrite <- Hp, ctx_with_subnet_same. by destruct s.
Qed.

Lemma run_the_subnet s : plain s p sub → the_subnet p s = (s, Ok sub).
Proof. intros Hs. unfold the_subnet, subnet_at, get, lift, mbind, ST_bind. by rewrite (plain_subnet _ _ _ Hs). Qed.

Lemma run_current_subnet s : plain s p sub → current_subnet s = (s, Ok sub).
Proof.
  intros Hs. unfold current_subnet, get_ctx. erewrite run_bind by done.
  rewrite (plain_selected _ _ _ Hs). by apply run_the_subnet.
Qed.

Lemma run_next s first classes : plain s p sub → next_subnet p first classes s = (s, Ok None).
Proof.
  intros Hs. unfold next_subnet, getNextSubnet_classes, subnet_at, get, lift, mbind, ST_bind. cbn.
  by rewrite (plain_subnet _ _ _ Hs), (plain_alone _ _ _ Hs).
Qed.

(** The walk over the subnets visits the subnet of the client only. *)
Lemma run_walk {A} (body : Z → ST (State M) (option A)) s s' r :
  plain s p sub → body p s = (s', Ok r) → heap s' = heap s →
  walk (Some p) body s = (s', Ok r).
Proof.
  intros Hs Hb Hh. unfold walk. erewrite run_bind by done.
  cbn [walk_loop]. erewrite run_bind by done.
  destruct r as [a|]; [done|].
  unfold next_subnet, getNextSubnet_classes, subnet_at, get, lift, mbind, ST_bind. cbn [fst snd].
  rewrite Hh, (plain_subnet _ _ _ Hs), (plain_alone _ _ _ Hs). cbn.
  by destruct (base.size _).
Qed.

Lemma run_walk_found {A} (body : Z → ST (State M) (option A)) s (a : A) :
  plain s p sub →
  body p s = (with_ctx (ctx_with_subnet (Some p) (ctx s)) s, Ok (Some a)) →
  walk (Some p) body s = (s, Ok (Some a)).
Proof. intros Hs Hb. eapply run_walk; [done| |done]. by rewrite Hb, stay. Qed.

(** ** The lease the client has *)

Definition client_id_of s : option (list Z) :=
  if match_client_id_ sub then clientid_ (ctx s) else None.

(** A lease of the subnet that [findClientLease] takes for the client's. *)
Definition clients s (l : Lease4) : Prop :=
  subnet_id_ l = id_ sub ∧
  ((match_client_id_ sub = true ∧ ∃ cid, clientid_ (ctx s) = Some cid ∧ getClientIdVector l = cid) ∨
   belongsToClient l (ctx_hwaddr_ (ctx s)) (client_id_of s) = true).

Lemma run_findClientLease s :
  plain s p sub → ∃ r, findClientLease s = (s, Ok r) ∧
    match r with
    | Some l => lm_leases (db s) !! addr_ l = Some l ∧ clients s l
    | None => ∀ a l, lm_leases (db s) !! a = Some l → clients s l → False
    end.
Proof.
  intros Hs. pose proof (plain_selected _ _ _ Hs) as Ep.
  destruct (plain_hwaddr _ _ _ Hs) as [hw Ehw].
  unfold findClientLease, get_ctx, query_db. erewrite run_bind by done. rewrite Ep, Ehw.
  assert (∃ r, (match clientid_ (ctx s) with
    | Some cid =>
        leases ← (s ← get; mret (lm_getLease4_cid cid (db s)));
        walk (Some p) (λ p,
          sub ← the_subnet p;
          if match_client_id_ sub then
            match find (λ l, subnet_id_ l =? id_ sub) leases with
            | Some l => _ ← update_ctx (ctx_with_subnet (Some p)); mret (Some l)
            | None => mret None
            end
          else mret None)
    | None => mret None
    end) s = (s, Ok r) ∧
    match r with
    | Some l => lm_leases (db s) !! addr_ l = Some l ∧ clients s l
    | None => ∀ l, match_client_id_ sub = true → subnet_id_ l = id_ sub →
        lm_leases (db s) !! addr_ l = Some l → clientid_ (ctx s) ≠ Some (getClientIdVector l)
    end) as (r & Er & Hr).
  { destruct (clientid_ (ctx s)) as [cid|] eqn:Ecid; [|by exists None].
    erewrite run_bind by done.
    destruct (match_client_id_ sub) eqn:Em.
    2:{ exists None. split; [|done]. eapply run_walk; [done| |done].
        erewrite run_bind by (by apply run_the_subnet). by rewrite Em. }
    destruct (find (λ l, subnet_id_ l =? id_ sub) (lm_getLease4_cid cid (db s))) as [l|] eqn:Ef.
    - exists (Some l). split.
      + apply run_walk_found; [done|].
        erewrite run_bind by (by apply run_the_subnet). rewrite Em, Ef. done.
      + apply find_some in Ef as [Hin Hid%Z.eqb_eq].
        apply list_elem_of_In, lm_getLease4_cid_elem in Hin as [Hl Hc].
        split; [done|]. split; [done|]. left. eauto.
    - exists None. split.
      + eapply run_walk; [done| |done].
        erewrite run_bind by (by apply run_the_subnet). by rewrite Em, Ef.
      + intros l _ Hid Hl [= ->].
        pose proof (find_none _ _ Ef l) as Hn. cbn beta in Hn.
        rewrite Hid, Z.eqb_refl in Hn. by discriminate Hn;
          apply list_elem_of_In, lm_getLease4_cid_elem. }
  erewrite run_bind by exact Er. destruct r as [l|]; [by exists (Some l)|].
  erewrite run_bind by done.
  set (f := λ l, (subnet_id_ l =? id_ sub) && belongsToClient l (Some hw)
                   (if match_client_id_ sub then clientid_ (ctx s) else None)).
  destruct (find f (lm_getLease4_hwaddr hw (db s))) as [l|] eqn:Ef.
  - exists (Some l). split.
    + apply run_walk_found; [done|].
      erewrite run_bind by (by apply run_the_subnet). fold f. by rewrite Ef.
    + apply find_some in Ef as [Hin [Hid%Z.eqb_eq Hb]%andb_true_iff].
      apply list_elem_of_In, lm_getLease4_hwaddr_elem in Hin as [Hl _].
      split; [done|]. split; [done|]. right. by rewrite Ehw.
  - exists None. split.
    + eapply run_walk; [done| |done].
      erewrite run_bind by (by apply run_the_subnet). fold f. by rewrite Ef.
    + intros a l Hl [Hid Hc]. pose proof (lm_leases_addr _ _ _ Hl) as <-.
      destruct Hc as [(Hm & cid & Ecid & Hv)|Hb].
      { eapply (Hr l); [done|done|done|congruence]. }
      rewrite Ehw in Hb. pose proof Hb as Hb'. apply belongsToClient_true in Hb' as
        [(c & Ec & Ecl)|(_ & h & [= <-] & Eh)].
      * unfold client_id_of in Ec. destruct (match_client_id_ sub); [|done].
        eapply (Hr l); [done|done|done|]. unfold getClientIdVector. by rewrite Ecl.
      * pose proof (find_none _ _ Ef l) as Hn. unfold f in Hn.
        fold (client_id_of s) in Hn. rewrite Hid, Z.eqb_refl, Hb in Hn. discriminate Hn.
        apply list_elem_of_In, lm_getLease4_hwaddr_elem. split; [done|].
        unfold getHWAddrVector. by rewrite Eh.
Qed.

(** ** The lease in the answer *)

Definition answer s (a : IOAddress) : Lease4 :=
  mkLease4 a (ctx_hwaddr_ (ctx s)) (client_id_of s) (valid_ sub) (net_t1_ sub) (net_t2_ sub)
    now (id_ sub) (fwd_dns_update_ (ctx s)) (rev_dns_update_ (ctx s)) (ctx_hostname_ (ctx s)).

Lemma plain_calm s s' : calm s s' → plain s p sub → plain s' p sub.
Proof. intros [E (o & c & Ec)] []. split; rewrite ?E, ?Ec; done. Qed.
Lemma answer_calm s s' a : calm s s' → answer s' a = answer s a.
Proof. intros [E (o & c & Ec)]. unfold answer, client_id_of. by rewrite Ec. Qed.
Lemma calm_old s l : calm s (with_ctx (ctx_with_old l (ctx s)) s).
Proof. split; [done|]. by do 2 eexists. Qed.
Lemma calm_conflicting s l : calm s (with_ctx (ctx_with_conflicting l (ctx s)) s).
Proof. split; [done|]. by do 2 eexists. Qed.

Lemma run_updateLease4Information s l : plain s p sub →
  updateLease4Information l s = (s, Ok (with_state (answer s (addr_ l)) (state_ l))).
Proof.
  intros Hs. unfold updateLease4Information, get_ctx. erewrite run_bind by done.
  erewrite run_bind by (by apply run_current_subnet). done.
Qed.

Context (Hhooks : hooks = no_hooks).

(** The new lease of [createLease4]; without a client identifier when it is empty. *)
Lemma created_lease s a : clientid_ (ctx s) ≠ Some [] →
  mkLease4 a (ctx_hwaddr_ (ctx s))
    match clientid_ (ctx s) with
    | Some (b :: bytes) => if match_client_id_ sub then Some (b :: bytes) else None
    | _ => None
    end (valid_ sub) (net_t1_ sub) (net_t2_ sub) now (id_ sub) (fwd_dns_update_ (ctx s))
    (rev_dns_update_ (ctx s)) (ctx_hostname_ (ctx s)) = answer s a.
Proof.
  intros Hc. unfold answer, client_id_of.
  destruct (clientid_ (ctx s)) as [[|b l]|]; [done|done|by destruct (match_client_id_ sub)].
Qed.

Lemma no_select (b : bool) (c : ClientContext4) (l : Lease4) :
  match b, lease4_select hooks with
  | true, Some callout => callout c l
  | _, _ => (NEXT_STEP_CONTINUE, l)
  end = (NEXT_STEP_CONTINUE, l).
Proof. rewrite Hhooks. by destruct b. Qed.

Lemma run_createLease4_fake s a :
  plain s p sub → clientid_ (ctx s) ≠ Some [] → fake_allocation_ (ctx s) = true →
  lm_leases (db s) !! a = None →
  createLease4 a s = (s, Ok (Some (answer s a), NEXT_STEP_CONTINUE)).
Proof.
  intros Hs Hc Hf Ha. unfold createLease4, get_ctx. erewrite run_bind by done.
  destruct (plain_hwaddr _ _ _ Hs) as [hw Ehw]. rewrite Ehw, (plain_selected _ _ _ Hs).
  erewrite run_bind by (by apply run_the_subnet).
  rewrite no_select. cbn beta iota. rewrite decide_False by done. rewrite Hf. cbn [negb].
  unfold query_db. erewrite run_bind by done. rewrite lm_getLease4_eq, Ha.
  rewrite <- Ehw, created_lease by done. done.
Qed.

Lemma run_allocateOrReuse_fake s a :
  plain s p sub → clientid_ (ctx s) ≠ Some [] → fake_allocation_ (ctx s) = true →
  available s a →
  ∃ s' st, allocateOrReuseLease4 a s =
    (s', Ok (Some (with_state (answer s a) st), NEXT_STEP_CONTINUE)).
Proof.
  intros Hs Hc Hf Hav. unfold allocateOrReuseLease4, update_ctx. erewrite run_bind by done.
  set (s1 := with_ctx _ s). pose proof (calm_conflicting s None) as Hc1. fold s1 in Hc1.
  pose proof (plain_calm _ _ Hc1 Hs) as Hs1.
  unfold query_db. erewrite run_bind by done. rewrite lm_getLease4_eq. cbn [with_ctx db].
  unfold available in Hav. destruct (lm_leases (db s) !! a) as [l|] eqn:El; subst s1; cbn [db with_ctx];
    rewrite El.
  - rewrite Hav. erewrite run_bind by done. set (s1 := with_ctx (ctx_with_conflicting _ _) s) in *.
    set (s2 := with_ctx _ s1). pose proof (calm_old s1 (Some l)) as Hc2. fold s2 in Hc2.
    pose proof (plain_calm _ _ Hc2 Hs1) as Hs2.
    unfold reuseExpiredLease4, get_ctx. erewrite run_bind by done.
    rewrite (plain_selected _ _ _ Hs2). change (fake_allocation_ (ctx s2)) with (fake_allocation_ (ctx s)).
    rewrite Hf. cbn [negb]. erewrite run_bind by done.
    erewrite run_bind by (by apply run_updateLease4Information).
    rewrite no_select. cbn beta iota. rewrite decide_False by done.
    erewrite run_bind by done.
    rewrite (lm_leases_addr _ _ _ El), (answer_calm _ _ _ Hc2), (answer_calm _ _ _ Hc1).
    by do 2 eexists.
  - exists (with_ctx (ctx_with_conflicting None (ctx s)) s), STATE_DEFAULT.
    rewrite run_createLease4_fake by done. by rewrite (answer_calm _ _ _ Hc1).
Qed.

Lemma run_renewLease4_fake s l :
  plain s p sub → fake_allocation_ (ctx s) = true →
  ∃ s', renewLease4 l s = (s', Ok (with_state (answer s (addr_ l)) (state_ l))).
Proof.
  intros Hs Hf. unfold renewLease4, update_ctx. erewrite run_bind by done.
  set (s1 := with_ctx _ s). pose proof (calm_old s (Some l)) as Hc1. fold s1 in Hc1.
  pose proof (plain_calm _ _ Hc1 Hs) as Hs1.
  erewrite run_bind by (by apply run_updateLease4Information). rewrite (answer_calm _ _ _ Hc1).
  unfold get_ctx. erewrite run_bind by done.
  change (fake_allocation_ (ctx s1)) with (fake_allocation_ (ctx s)). rewrite Hf. cbn [negb].
  erewrite run_bind by done. rewrite Hhooks. cbn [lease4_renew no_hooks].
  erewrite run_bind by done. by eexists.
Qed.

(** ** Reservations *)

(** The client has a reservation of [a] in the subnet. *)
Definition reserved_for_client s (a : IOAddress) : Prop :=
  ∃ host, ctx_hosts_ (ctx s) !! id_ sub = Some host ∧ ipv4_reservation_ host = a ∧
    isV4Zero a = false ∧ reservable sub a = Ok true.

Lemma reservable_mode a : reservable sub a = Ok true → mode_is sub HR_GLOBAL = false.
Proof.
  unfold reservable, mode_is. intros Hr. apply bool_decide_eq_false. intros E.
  rewrite E, !bool_decide_eq_false_2 in Hr by done. done.
Qed.

Lemma run_hasAddressReservation s a :
  plain s p sub → reserved_for_client s a → hasAddressReservation s = (s, Ok true).
Proof.
  intros Hs (host & Eh & Ea & Hz & Hr). unfold hasAddressReservation, get_ctx.
  erewrite run_bind by done. rewrite decide_False.
  2:{ intros E. rewrite E, lookup_empty in Eh. done. }
  rewrite (plain_selected _ _ _ Hs). erewrite run_bind.
  2:{ apply run_walk_found; [done|]. erewrite run_bind by (by apply run_the_subnet).
      rewrite (reservable_mode a Hr), Eh, Ea, Hz. cbn [negb].
      rewrite Hr. done. }
  done.
Qed.

Lemma run_reservedAddress s a :
  plain s p sub → reserved_for_client s a → reservedAddress s = (s, Ok a).
Proof.
  intros Hs (host & Eh & Ea & Hz & Hr). unfold reservedAddress, currentHost, get_ctx.
  erewrite run_bind.
  2:{ erewrite run_bind by done. rewrite (plain_selected _ _ _ Hs).
      erewrite run_bind by (by apply run_the_subnet).
      rewrite (reservable_mode a Hr), Eh. done. }
  by subst a.
Qed.

Lemma or_try_found (m1 m2 : ST (State M) (option Lease4)) s s' l :
  m1 s = (s', Ok (Some l)) → or_try m1 m2 s = (s', Ok (Some l)).
Proof. intros E. unfold or_try. by erewrite run_bind by exact E. Qed.

Lemma run_offer_reserved s a r :
  plain s p sub → clientid_ (ctx s) ≠ Some [] → fake_allocation_ (ctx s) = true →
  reserved_for_client s a →
  available s a ∨ (∃ l, r = Some l ∧ addr_ l = a) →
  ∃ s' st, offer_reserved r s = (s', Ok (Some (with_state (answer s a) st))).
Proof.
  intros Hs Hc Hf Ha Hav. unfold offer_reserved.
  erewrite run_bind by (by eapply run_hasAddressReservation). cbn [negb].
  erewrite run_bind by (by eapply run_reservedAddress).
  assert (∀ l, addr_ l = a → ∃ s' st, (Some <$> renewLease4 l) s =
    (s', Ok (Some (with_state (answer s a) st)))) as Hrenew.
  { intros l <-. destruct (run_renewLease4_fake s l Hs Hf) as [s' E].
    exists s', (state_ l). by erewrite run_fmap by exact E. }
  assert (available s a → ∃ s' st, (fst <$> allocateOrReuseLease4 a) s =
    (s', Ok (Some (with_state (answer s a) st)))) as Halloc.
  { intros Hva. destruct (run_allocateOrReuse_fake s a Hs Hc Hf Hva) as (s' & st & E).
    exists s', st. by erewrite run_fmap by exact E. }
  destruct r as [l|]; [|destruct Hav as [Hav|(? & ? & _)]; [by apply Halloc|done]].
  destruct (decide (addr_ l = a)) as [El|El].
  - assert (equals (addr_ l) a = true) as -> by (unfold equals; by apply bool_decide_eq_true).
    by apply Hrenew.
  - assert (equals (addr_ l) a = false) as -> by (unfold equals; by apply bool_decide_eq_false).
    destruct Hav as [Hav|(? & [= <-] & ?)]; [by apply Halloc|done].
Qed.

(** ** A new lease for a request *)

(** The client may have [a]: it is reserved for it, or it is in a pool and the
    client has no reservations. *)
Definition permitted s (a : IOAddress) : Prop :=
  reserved_for_client s a ∨
  (ctx_hosts_ (ctx s) = ∅ ∧ inPool_classes sub TYPE_V4 a (query_classes_ (ctx s)) = Ok true).

Lemma run_inAllowedPool s a :
  plain s p sub → inPool_classes sub TYPE_V4 a (query_classes_ (ctx s)) = Ok true →
  inAllowedPool a s = (s, Ok true).
Proof.
  intros Hs Ha. unfold inAllowedPool, get_ctx. erewrite run_bind by done.
  rewrite (plain_selected _ _ _ Hs). erewrite run_bind.
  2:{ apply run_walk_found; [done|]. erewrite run_bind by (by apply run_the_subnet).
      rewrite Ha. done. }
  done.
Qed.

Lemma run_reserved_differs s a :
  plain s p sub → reserved_for_client s a → reserved_differs a s = (s, Ok false).
Proof.
  intros Hs Ha. unfold reserved_differs.
  erewrite run_bind by (by eapply run_reservedAddress).
  unfold equals. by rewrite bool_decide_eq_true_2.
Qed.

Lemma no_hosts_reservation s :
  ctx_hosts_ (ctx s) = ∅ → hasAddressReservation s = (s, Ok false).
Proof.
  intros E. unfold hasAddressReservation, get_ctx. erewrite run_bind by done.
  by rewrite decide_True.
Qed.

Lemma run_reserved_is_free s a :
  plain s p sub → permitted s a → reserved_is_free a s = (s, Ok false).
Proof.
  intros Hs Hp. unfold reserved_is_free, and_then. rewrite (run_bind _ _ s s false); [done|].
  destruct Hp as [Hp|[Hp _]].
  - erewrite run_bind by (by eapply run_hasAddressReservation).
    by eapply run_reserved_differs.
  - by erewrite run_bind by (by apply no_hosts_reservation).
Qed.

Lemma run_out_of_pool s a :
  plain s p sub → permitted s a → out_of_pool a s = (s, Ok false).
Proof.
  intros Hs Hp. unfold out_of_pool, or_else, negate. destruct Hp as [Hp|[Hp Hin]].
  - rewrite (run_bind _ _ s s false); [done|]. rewrite (run_bind _ _ s s false).
    + by eapply run_reserved_differs.
    + by erewrite run_bind by (by eapply run_hasAddressReservation).
  - rewrite (run_bind _ _ s s true).
    + by erewrite run_bind by (by apply run_inAllowedPool).
    + rewrite (run_bind _ _ s s true); [done|].
      by erewrite run_bind by (by apply no_hosts_reservation).
Qed.

Lemma run_check_requested s a :
  plain s p sub → isV4Zero a = false → permitted s a → lm_leases (db s) !! a = None →
  check_requested a s = (s, Ok true).
Proof.
  intros Hs Hz Hp Ha. unfold check_requested, negate, or_else. rewrite Hz.
  rewrite (run_bind _ _ s s false); [done|]. rewrite (run_bind _ _ s s false).
  - erewrite run_bind by (by apply run_reserved_is_free). by apply run_out_of_pool.
  - unfold in_use_by_other, query_db. erewrite run_bind by done. by rewrite lm_getLease4_eq, Ha.
Qed.

Lemma run_stat_add name delta s :
  wf_context (stats s) → int_stat (stats s) name →
  ∃ c, stat_add name delta s = (with_stats c s, Ok tt) ∧
    stat_int c name = stat_int (stats s) name + delta ∧
    ∀ n, n ≠ name → c !! n = stats s !! n.
Proof.
  intros Hc Hi. destruct (addValue_int_Ok now name delta (stats s) Hc Hi)
    as (c & E & _ & _ & Hv & Ho).
  exists c. unfold stat_add, zoom. by rewrite E.
Qed.

Lemma run_createLease4 s a m :
  plain s p sub → clientid_ (ctx s) ≠ Some [] → fake_allocation_ (ctx s) = false →
  wf_context (stats s) → int_stat (stats s) (subnet_stat (id_ sub) "assigned-addresses") →
  lm_addLease (answer s a) (db s) = (m, Ok true) →
  ∃ c, createLease4 a s =
      (with_stats c (with_db m s), Ok (Some (answer s a), NEXT_STEP_CONTINUE)) ∧
    stat_int c (subnet_stat (id_ sub) "assigned-addresses") =
      stat_int (stats s) (subnet_stat (id_ sub) "assigned-addresses") + 1 ∧
    ∀ n, n ≠ subnet_stat (id_ sub) "assigned-addresses" → c !! n = stats s !! n.
Proof.
  intros Hs Hc Hf Hst Hi Hadd.
  destruct (run_stat_add _ 1 (with_db m s) Hst Hi) as (c & E & Hv & Ho). exists c.
  split; [|done]. unfold createLease4, get_ctx. erewrite run_bind by done.
  destruct (plain_hwaddr _ _ _ Hs) as [hw Ehw]. rewrite Ehw, (plain_selected _ _ _ Hs).
  erewrite run_bind by (by apply run_the_subnet).
  rewrite no_select. cbn beta iota. rewrite decide_False by done. rewrite Hf. cbn [negb].
  rewrite <- Ehw, created_lease by done.
  erewrite run_bind by (unfold in_db, zoom; by rewrite Hadd). cbn iota.
  by erewrite run_bind by exact E.
Qed.
End Plain.

Section Answers.
Context {M : Type} `{LeaseMgrLaws M} `{HostMgrLaws} `{EngineConfig}.
Implicit Types (s : State M).

(** The state at the start of a message: no lease in the context. *)
Definition fresh s : Prop := old_lease_ (ctx s) = None ∧ new_lease_ (ctx s) = None.

Lemma fresh_reset s : fresh s → reset_results s = s.
Proof.
  intros [Ho Hn]. unfold reset_results, ctx_with_new, ctx_with_old, ctx_with. cbn.
  destruct s as [h d t n i c]. destruct c. unfold with_ctx. cbn in *. by subst.
Qed.

Lemma run_allocateLease4 s p sub :
  fresh s → plain s p sub →
  allocateLease4 s = try_catch
    (if fake_allocation_ (ctx s) then discoverLease4
     else l ← requestLease4; _ ← update_ctx (ctx_with_new l); mret l)
    (c ← get_ctx; mret (new_lease_ c)) s.
Proof.
  intros Hfresh Hs. unfold allocateLease4, update_ctx. erewrite run_bind by done.
  change (with_ctx _ s) with (reset_results s). rewrite fresh_reset by done.
  unfold get_ctx at 1. erewrite run_bind by done. erewrite run_bind.
  2:{ rewrite (plain_selected _ _ _ Hs). erewrite run_bind by (by eapply run_the_subnet).
      erewrite run_bind by done. unfold lift. erewrite run_bind; [|by rewrite (plain_supported _ _ _ Hs)].
      done. }
  unfold try_catch. unfold get_ctx at 1. erewrite run_bind by done.
  rewrite (plain_selected _ _ _ Hs). destruct (plain_hwaddr _ _ _ Hs) as [hw ->]. done.
Qed.

(** C8: a client that sends a DHCPDISCOVER is offered the address reserved for it: when the
    context holds a reservation of [a] in the subnet and there is no lease in use on [a], or
    it is the lease found for the client, the engine offers a lease on [a] with
    the lifetimes of the subnet and the client's identifiers.  This is for a server without
    hook libraries, a subnet that is in no shared network and admits the classes of the client
    ([plain]), and a context as it is at the start of a message: with a hardware address, no
    empty client identifier and no lease yet ([fresh]). *)
Theorem discover_offers_reservation s (p : Z) (sub : Subnet) (a : IOAddress)
    (Hhooks : hooks = no_hooks) (Hs : plain s p sub) (Hfresh : fresh s)
    (Hc : clientid_ (ctx s) ≠ Some []) (Hf : fake_allocation_ (ctx s) = true)
    (Ha : reserved_for_client sub s a)
    (Hav : available s a ∨ ∃ l, (findClientLease s).2 = Ok (Some l) ∧ addr_ l = a) :
  ∃ s' st, allocateLease4 s = (s', Ok (Some (with_state (answer sub s a) st))).
Proof.
  rewrite (run_allocateLease4 s p sub) by done. rewrite Hf.
  destruct (run_findClientLease p sub s Hs) as (r & Er & _).
  destruct (run_offer_reserved p sub Hhooks s a r Hs Hc Hf Ha) as (s1 & st & Eo).
  { destruct Hav as [?|(l & El & ?)]; [by left|right]. rewrite Er in El. cbn in El.
    injection El as ->. by exists l. }
  unfold try_catch, discoverLease4. erewrite run_bind by exact Er.
  rewrite (run_bind _ _ s s1 (Some (with_state (answer sub s a) st)))
    by (by do 3 apply (or_try_found p sub Hhooks)).
  unfold get_ctx. erewrite run_bind by done.
  destruct (old_lease_ (ctx s1)), r; (erewrite run_bind by done); by do 2 eexists.
Qed.

(** a client without a lease that requests a free address, reserved for it
    or in a pool of the subnet and not reserved for another client, gets it: the
    new lease is the answer, it is added to the database, which is otherwise
    the same, and one address more is counted as assigned in the subnet. *)
Theorem request_grants_free s (p : Z) (sub : Subnet) (a : IOAddress) (m : M)
    (Hhooks : hooks = no_hooks) (Hs : plain s p sub) (Hfresh : fresh s)
    (Hc : clientid_ (ctx s) ≠ Some []) (Hf : fake_allocation_ (ctx s) = false)
    (Ha : requested_address_ (ctx s) = a) (Hz : isV4Zero a = false)
    (Hp : permitted sub s a) (Hr : reserved_for_other s a = Ok false)
    (Hfree : lm_leases (db s) !! a = None)
    (Hnew : ∀ x l, lm_leases (db s) !! x = Some l → ¬ clients sub s l)
    (Hst : wf_context (stats s))
    (Hi : int_stat (stats s) (subnet_stat (id_ sub) "assigned-addresses"))
    (Hadd : lm_addLease (answer sub s a) (db s) = (m, Ok true)) :
  ∃ s', allocateLease4 s = (s', Ok (Some (answer sub s a))) ∧
    lm_leases (db s') = <[a := answer sub s a]> (lm_leases (db s)) ∧
    stat_int (stats s') (subnet_stat (id_ sub) "assigned-addresses") =
      stat_int (stats s) (subnet_stat (id_ sub) "assigned-addresses") + 1 ∧
    (∀ n, n ≠ subnet_stat (id_ sub) "assigned-addresses" → stats s' !! n = stats s !! n) ∧
    ncrs s' = ncrs s.
Proof.
  rewrite (run_allocateLease4 s p sub) by done. rewrite Hf.
  destruct (run_findClientLease p sub s Hs) as (r & Er & Hcl).
  destruct r as [l|]; [by destruct Hcl as [Hl ?]; destruct (Hnew _ _ Hl)|].
  set (s1 := with_ctx (ctx_with_conflicting None (ctx s)) s).
  pose proof (plain_calm p sub s s1 (calm_conflicting p sub s None) Hs) as Hs1.
  pose proof (answer_calm p sub s s1 a (calm_conflicting p sub s None)) as Ea.
  destruct (run_createLease4 p sub Hhooks s1 a m Hs1 Hc Hf Hst Hi) as (c & Ec & Hv & Ho).
  { by rewrite Ea. }
  assert (requestLease4 s = (with_stats c (with_db m s1), Ok (Some (answer sub s a)))) as Ereq.
  { unfold requestLease4. erewrite run_bind by exact Er.
    rewrite (run_bind _ _ s s true).
    2:{ unfold choose_requested, get_ctx, negate. erewrite run_bind by done.
        rewrite Ha, Hz. cbn [negb]. rewrite (run_bind _ _ s s false); [done|].
        by rewrite addressReserved_pure, Hr. }
    unfold get_ctx. cbn [negb]. erewrite run_bind by done. rewrite Ha.
    erewrite run_bind by (by eapply run_check_requested). cbn [negb].
    rewrite (run_bind _ _ s s None) by done. rewrite Hz. cbn [negb].
    rewrite (run_bind _ _ s (with_stats c (with_db m s1)) (Some (answer sub s a))); [done|].
    rewrite (run_fmap _ _ s (with_stats c (with_db m s1))
      (Some (answer sub s a), NEXT_STEP_CONTINUE)); [done|].
    unfold allocateOrReuseLease4, update_ctx. erewrite run_bind by done. fold s1.
    unfold query_db. erewrite run_bind by done. rewrite lm_getLease4_eq.
    change (db s1) with (db s). rewrite Hfree. by rewrite Ec, Ea. }
  unfold try_catch. erewrite run_bind by exact Ereq. unfold update_ctx.
  erewrite run_bind by done. eexists. split; [done|]. cbn. split_and!; [|done|done|done].
  pose proof (lm_addLease_spec (answer sub s a) (db s)) as Hspec. unfold wp in Hspec.
  rewrite Hadd in Hspec. change (addr_ (answer sub s a)) with a in Hspec.
  rewrite Hfree in Hspec. apply Hspec.
Qed.
End Answers.

(** ** The theorems on the small server *)

#[local] Existing Instance plain_engine.
#[local] Instance memory_mgr : LeaseMgr (Memfile4 ListStorage4) := memfile_lease_mgr (λ _, true).
#[local] Instance no_reservations : HostMgr := cfg_host_mgr empty_cfg.

Definition alone_subnet : Subnet := with_mode HR_ALL (with_network sample_subnet None).

Lemma message_plain l c : c = message 1 (requested_address_ c) (fake_allocation_ c) ∨
    c = ctx_with_hosts (ctx_hosts_ c) (message 1 (requested_address_ c) (fake_allocation_ c)) →
  plain (server (heap_of false HR_ALL HR_ALL) l c) 10 alone_subnet.
Proof. intros [->| ->]; (split; [done|done|done|done|by eexists]). Qed.

(** Client 1 has a reservation of 192.0.2.100. *)
Definition reserved_host : Host := sample_host4 [2; 0; 0; 0; 0; 1] 0xC0000264.

Lemma discover_offers_reservation_witness :
  let s := server (heap_of false HR_ALL HR_ALL) []
             (ctx_with_hosts (<[1 := reserved_host]> ∅) (message 1 IPV4_ZERO_ADDRESS true)) in
  plain s 10 alone_subnet ∧
  ∃ s' st, allocateLease4 s =
    (s', Ok (Some (with_state (answer alone_subnet s (V4 0xC0000264)) st))).
Proof.
  intros s. assert (plain s 10 alone_subnet) as Hs by (apply message_plain; by right).
  split; [exact Hs|].
  refine (discover_offers_reservation s 10 alone_subnet (V4 0xC0000264) eq_refl Hs _ _ eq_refl _ _).
  - by split.
  - done.
  - exists reserved_host. split_and!; vm_compute; reflexivity.
  - left. exact I.
Defined.

Lemma request_grants_free_witness :
  let s := server (heap_of false HR_ALL HR_ALL) [lease_of 2 0xC000020A 1 5000]
             (message 1 (V4 0xC000020B) false) in
  plain s 10 alone_subnet ∧
  ∃ s', allocateLease4 s = (s', Ok (Some (answer alone_subnet s (V4 0xC000020B)))) ∧
    stat_int (stats s') "subnet[1].assigned-addresses" = 1.
Proof.
  intros s. assert (plain s 10 alone_subnet) as Hs by (apply message_plain; by left).
  split; [exact Hs|].
  destruct (request_grants_free s 10 alone_subnet (V4 0xC000020B)
    (fst (lm_addLease (answer alone_subnet s (V4 0xC000020B)) (db s)))
    (eq_refl : @hooks plain_engine = no_hooks) Hs (conj eq_refl eq_refl) ltac:(done) eq_refl eq_refl eq_refl) as (s' & E & _ & Hv & _).
  - right. split; vm_compute; reflexivity.
  - vm_compute. reflexivity.
  - vm_compute. reflexivity.
  - intros x l Hl Hc.
    assert (l = lease_of 2 0xC000020A 1 5000) as ->.
    { assert (lm_leases (db s) = <[V4 0xC000020A := lease_of 2 0xC000020A 1 5000]> ∅) as El
        by (vm_compute; reflexivity).
      rewrite El, lookup_insert_Some, lookup_empty in Hl. destruct Hl as [[_ <-]|[_ [=]]]. done. }
    destruct Hc as [_ [(_ & cid & Hcid & _)|Hb]]; [discriminate Hcid|].
    vm_compute in Hb. discriminate Hb.
  - apply map_Forall_empty.
  - exact I.
  - vm_compute. reflexivity.
  - exists s'. split; [exact E|]. exact Hv.
Defined.
