(* ===== verification/AllocEngine4Findings.v ===== *)
(** * Runs of the DHCPv4 allocation engine that go against its documentation

    Each theorem evaluates the engine on the two subnets of [AllocEngine4Correct]
    with the in-memory database, in a situation that satisfies the invariant of the
    engine.  They do not contradict the properties of [AllocEngine4Correct]: they
    show where the code promises less than its comments. *)

From S2P Require Import Prelude IoAddress Pool Subnet SharedNetwork IterativeAllocator.
From S2P Require Import StatsMgr Lease LeaseMgr Host CfgHosts CsvLeaseFile4.
From S2P Require Import LeaseStorage MemfileLeaseMgr AllocEngine4 AllocEngine4Safety.
From S2P Require Import AllocEngine4Correct.
Local Open Scope Z_scope.

#[local] Existing Instance plain_engine.
#[local] Instance disk_mgr : LeaseMgr (Memfile4 ListStorage4) :=
  memfile_lease_mgr (λ r, negb (col_valid_lifetime r =? 0)).

(** A reservation of an IPv4 address in a subnet. *)
Definition reservation (type : IdentifierType) (identifier : list Z) (subnet a : Z) : Host :=
  {| identifier_type_ := type; identifier_value_ := identifier;
     ipv4_subnet_id_ := subnet; ipv6_subnet_id_ := SUBNET_ID_UNUSED;
     ipv4_reservation_ := V4 a; ipv6_reservations_ := [];
     host_hostname_ := ""; dhcp4_client_classes_ := []; dhcp6_client_classes_ := [];
     next_server_ := IPV4_ZERO_ADDRESS; server_host_name_ := ""; boot_file_name_ := "";
     has_options4_ := false; has_options6_ := false; negative_ := false |}.

Definition hosts_of (l : list Host) : HostMgr :=
  cfg_host_mgr (foldl (λ c h, fst (hosts_add (Some h) c)) empty_cfg l).

(** The server looks for the reservations of a client, then for a lease. *)
Definition serve (h : HostMgr) : ST (State (Memfile4 ListStorage4)) (option Lease4) :=
  _ ← findReservation; allocateLease4.

(** The leases of the database, with the client's last byte and the subnet. *)
Definition lease_list (s : State (Memfile4 ListStorage4)) : list (IOAddress * Z) :=
  (λ l, (addr_ l, subnet_id_ l)) <$> getLeases4 (db s).

(** Client 1 gets 192.0.3.10 although it is reserved in subnet 2 for client 2: the
    reservation is looked up in subnet 1 only, and [inAllowedPool] then moves to
    subnet 2. *)
Theorem request_ignores_reservation_of_other_subnet :
  let h := hosts_of [reservation IDENT_HWADDR (hwaddr_bytes (sample_hw 2)) 2 0xC000030A] in
  let s := server (heap_of true HR_ALL HR_ALL) [] (message 1 (V4 0xC000030A) false) in
  ∃ s' l, serve h s = (s', Ok (Some l)) ∧ addr_ l = V4 0xC000030A ∧ subnet_id_ l = 2 ∧
    hwaddr_ l = Some (sample_hw 1) ∧ reserved_for_other s' (addr_ l) = Ok true.
Proof. do 2 eexists. split; [vm_compute; reflexivity|]. split_and!; vm_compute; reflexivity. Qed.

(** With the reservation mode "global" in subnet 1 only, a client with a global
    reservation and a lease in subnet 2 makes [discoverLease4] use a null pointer:
    [hasAddressReservation] finds the global reservation from subnet 1 without
    selecting this subnet. *)
Theorem discover_uses_null_host :
  let h := hosts_of [reservation IDENT_HWADDR (hwaddr_bytes (sample_hw 1)) SUBNET_ID_GLOBAL
                       0xC0000264] in
  let s := server (heap_of true HR_GLOBAL HR_ALL) [lease_of 1 0xC000030A 2 5000]
             (message 1 IPV4_ZERO_ADDRESS true) in
  ∃ s', serve h s = (s', Throw AssertionFailure).
Proof. eexists. vm_compute. reflexivity. Qed.

(** The renewal of a lease of subnet 1 stores it with the identifier of subnet 2,
    in which the client has a reservation that is in use by another client. *)
Theorem renewal_changes_subnet :
  let h := hosts_of [reservation IDENT_HWADDR (hwaddr_bytes (sample_hw 1)) 2 0xC0000364] in
  let s := server (heap_of true HR_ALL HR_ALL)
             [lease_of 1 0xC000020A 1 5000; lease_of 2 0xC0000364 2 5000]
             (message 1 (V4 0xC000020A) false) in
  ∃ s' l, serve h s = (s', Ok (Some l)) ∧ addr_ l = V4 0xC000020A ∧ subnet_id_ l = 2 ∧
    lease_list s' = [(V4 0xC000020A, 2); (V4 0xC0000364, 2)].
Proof. do 2 eexists. split; [vm_compute; reflexivity|]. split_and!; vm_compute; reflexivity. Qed.

(** A lease that was added stays in the database when the removal of the old one
    fails, and the client gets no answer. *)
Theorem request_not_atomic :
  let s := with_db
    {| storage_ := storage_ (memory [lease_of 1 0xC000020A 1 5000]); lease_file_ := [];
       persistLeases := true |}
    (server (heap_of false HR_ALL HR_ALL) [] (message 1 (V4 0xC000020B) false)) in
  ∃ s', serve (hosts_of []) s = (s', Ok None) ∧
    lease_list s' = [(V4 0xC000020A, 1); (V4 0xC000020B, 1)].
Proof. eexists. split; vm_compute; reflexivity. Qed.

(** A client moves from an address whose lease was reclaimed to another one: one
    lease is in use, and none is counted. *)
Theorem request_counts_too_little :
  let s := with_db
    {| storage_ := storage_ (memory [with_state (lease_of 1 0xC000020A 1 500)
                                         STATE_EXPIRED_RECLAIMED]);
       lease_file_ := []; persistLeases := false |}
    (server (heap_of false HR_ALL HR_ALL) [] (message 1 (V4 0xC000020B) false)) in
  ∃ s' l, serve (hosts_of []) s = (s', Ok (Some l)) ∧ lease_list s' = [(V4 0xC000020B, 1)] ∧
    stat_int (stats s') (subnet_stat 1 "assigned-addresses") = 0.
Proof. do 2 eexists. split; [vm_compute; reflexivity|]. split; vm_compute; reflexivity. Qed.

(** A callout of lease4_renew that sets the address of the lease it is given to that of
    another client's lease: the engine stores it there without a check, and the other client's
    lease is gone. *)
Definition redirect (a : IOAddress) (l : Lease4) : Lease4 :=
  {| addr_ := a; t1_ := t1_ l; t2_ := t2_ l; valid_lft_ := valid_lft_ l; cltt_ := cltt_ l;
     subnet_id_ := subnet_id_ l; hostname_ := hostname_ l; fqdn_fwd_ := fqdn_fwd_ l;
     fqdn_rev_ := fqdn_rev_ l; hwaddr_ := hwaddr_ l; client_id_ := client_id_ l;
     state_ := state_ l |}.
Definition redirecting_engine : EngineConfig :=
  {| now := 1000; attempts_ := 0; ddnsEnabled := false; ncr_ok := λ _, true;
     hooks := {| lease4_select := None;
                 lease4_renew := Some (λ _ l, (NEXT_STEP_CONTINUE, redirect (V4 0xC000020B) l));
                 lease4_expire := None; lease4_recover := None |} |}.

Definition with_callout_handle (c : ClientContext4) : ClientContext4 :=
  {| ctx_subnet_ := ctx_subnet_ c; clientid_ := clientid_ c; ctx_hwaddr_ := ctx_hwaddr_ c;
     requested_address_ := requested_address_ c; fwd_dns_update_ := fwd_dns_update_ c;
     rev_dns_update_ := rev_dns_update_ c; ctx_hostname_ := ctx_hostname_ c;
     callout_handle_ := true; fake_allocation_ := fake_allocation_ c;
     old_lease_ := old_lease_ c; new_lease_ := new_lease_ c;
     conflicting_lease_ := conflicting_lease_ c; ctx_hosts_ := ctx_hosts_ c;
     host_identifiers_ := host_identifiers_ c; query_classes_ := query_classes_ c |}.

Theorem callout_overwrites_other_lease :
  let s := server (heap_of false HR_ALL HR_ALL)
             [lease_of 1 0xC000020A 1 5000; lease_of 2 0xC000020B 1 5000]
             (with_callout_handle (message 1 (V4 0xC000020A) false)) in
  ∃ s' l, @allocateLease4 _ disk_mgr (hosts_of []) redirecting_engine s = (s', Ok (Some l)) ∧
    (hwaddr_ <$> memfile_getLease4 (V4 0xC000020B) (db s)) = Some (Some (sample_hw 2)) ∧
    (hwaddr_ <$> memfile_getLease4 (V4 0xC000020B) (db s')) = Some (Some (sample_hw 1)).
Proof. do 2 eexists. split; [vm_compute; reflexivity|]. split; vm_compute; reflexivity. Qed.

(** ** The order of the identifiers

    Subnet 1 has two reservations for one client, by hardware address and by
    circuit identifier, which the client gives in this order of preference. *)

Definition with_identifiers (l : list (IdentifierType * list Z)) (c : ClientContext4) :
    ClientContext4 :=
  {| ctx_subnet_ := ctx_subnet_ c; clientid_ := clientid_ c; ctx_hwaddr_ := ctx_hwaddr_ c;
     requested_address_ := requested_address_ c; fwd_dns_update_ := fwd_dns_update_ c;
     rev_dns_update_ := rev_dns_update_ c; ctx_hostname_ := ctx_hostname_ c;
     callout_handle_ := callout_handle_ c; fake_allocation_ := fake_allocation_ c;
     old_lease_ := old_lease_ c; new_lease_ := new_lease_ c;
     conflicting_lease_ := conflicting_lease_ c; ctx_hosts_ := ctx_hosts_ c;
     host_identifiers_ := l; query_classes_ := query_classes_ c |}.

(** [n] subnets in one shared network. *)
Definition network_of (n : nat) : Heap :=
  {| subnets := list_to_map ((λ i, (i, sample_subnet_at i None (Some 7))) <$> seqZ 1 (Z.of_nat n));
     networks := <[7 := {| net_class_ := ""; subnets_ := seqZ 1 (Z.of_nat n) |}]> ∅ |}.

Definition two_reservations : HostMgr :=
  hosts_of [reservation IDENT_HWADDR [1] 1 0x10A; reservation IDENT_CIRCUIT_ID [2] 1 0x10B].

Definition found_address (n : nat) : option IOAddress :=
  let c := with_identifiers [(IDENT_HWADDR, [1]); (IDENT_CIRCUIT_ID, [2])]
             (ctx_with_subnet (Some 1) (message 1 IPV4_ZERO_ADDRESS true)) in
  let s := fst (@findReservation _ two_reservations (server (network_of n) [] c)) in
  ipv4_reservation_ <$> ctx_hosts_ (ctx s) !! 1.

(** In a network of two subnets the preferred identifier wins; in a network of
    three, where one query is made for all the subnets, the last one wins. *)
Theorem reservation_depends_on_network_size :
  found_address 2 = Some (V4 0x10A) ∧ found_address 3 = Some (V4 0x10B).
Proof. split; vm_compute; reflexivity. Qed.
