(* ===== verification/Reclamation.v ===== *)
(** * The reclamation of expired DHCPv4 leases

    What [reclaimExpiredLeases4] does to the lease database, the statistics and the
    queue of name change requests, whatever calls of the database fail, and the
    agreement between the statistics of assigned addresses and the leases in use. *)

From stdpp Require Import pretty.
From S2P Require Import Prelude IoAddress Pool Subnet SharedNetwork IterativeAllocator.
From S2P Require Import StatsMgr Lease LeaseMgr Host CfgHosts CsvLeaseFile4 LeaseStorage MemfileLeaseMgr.
From S2P Require Import AllocEngine4 AllocEngine4Safety AllocEngine4Correct.
Local Open Scope Z_scope.
#[local] Set Default Proof Using "All".

(** ** The names of the statistics *)

Definition assigned (id : Z) : string := subnet_stat id "assigned-addresses".

Lemma append_assoc (a b c : string) : (a +:+ b) +:+ c = a +:+ b +:+ c.
Proof. induction a as [|x a IH]; [done|]. exact (f_equal (String x) IH). Qed.

Lemma append_inj_length (a b x y : string) :
  String.length x = String.length y → a +:+ x = b +:+ y → a = b ∧ x = y.
Proof.
  assert (∀ u v, String.length (u +:+ v) = (String.length u + String.length v)%nat) as Hlen.
  { intros u v. induction u as [|c u IH]; [done|]. exact (f_equal S IH). }
  intros E. revert b. induction a as [|c a IH]; intros [|d b] H.
  - done.
  - apply (f_equal String.length) in H.
    change (String.length x = S (String.length (b +:+ y))) in H. rewrite Hlen in H. lia.
  - apply (f_equal String.length) in H.
    change (S (String.length (a +:+ x)) = String.length y) in H. rewrite Hlen in H. lia.
  - change (String c (a +:+ x) = String d (b +:+ y)) in H.
    injection H as -> H. by destruct (IH b H) as [-> ->].
Qed.

Lemma subnet_stat_append id (a b : string) : subnet_stat id (a +:+ b) = subnet_stat id a +:+ b.
Proof. unfold subnet_stat, generateName. by rewrite !append_assoc. Qed.

Lemma assigned_inj i j : assigned i = assigned j → i = j.
Proof.
  unfold assigned, subnet_stat, generateName. intros H.
  apply (inj (String.append "subnet")), (inj (String.append "[")) in H.
  apply append_inj_length in H as [H _]; [|done]. by apply (inj pretty) in H.
Qed.

Lemma assigned_declined i j : subnet_stat i "declined-addresses" ≠ assigned j.
Proof.
  intros H. unfold assigned in H.
  change "declined-addresses"%string with ("" +:+ "declined-addresses")%string in H.
  change "assigned-addresses"%string with ("" +:+ "assigned-addresses")%string in H.
  rewrite !subnet_stat_append in H. by apply append_inj_length in H as [_ H].
Qed.

Lemma assigned_reclaimed_declined i j : subnet_stat i "reclaimed-declined-addresses" ≠ assigned j.
Proof.
  intros H. unfold assigned in H.
  change "reclaimed-declined-addresses"%string with ("reclaimed-" +:+ "declined-addresses")%string in H.
  change "assigned-addresses"%string with ("" +:+ "assigned-addresses")%string in H.
  rewrite !subnet_stat_append in H. by apply append_inj_length in H as [_ H].
Qed.

Lemma assigned_reclaimed i j : subnet_stat i "reclaimed-leases" ≠ assigned j.
Proof.
  intros H. unfold assigned in H.
  change "reclaimed-leases"%string with ("" +:+ "reclaimed-leases")%string in H.
  change "assigned-addresses"%string with ("as" +:+ "signed-addresses")%string in H.
  rewrite !subnet_stat_append in H. by apply append_inj_length in H as [_ H].
Qed.

Lemma delta_app n (l1 l2 : list (string * Z)) : delta n (l1 ++ l2) = delta n l1 + delta n l2.
Proof.
  induction l1 as [|[m z] l1 IH]; [done|]. cbn [app]. unfold delta in *. cbn [foldr].
  rewrite IH. lia.
Qed.

(** ** The reference: what reclaiming one lease means *)

(** A declined lease is always removed. *)
Definition removed (remove_lease : bool) (l : Lease4) : bool := remove_lease || stateDeclined l.

Definition reclaimed_form (l : Lease4) : Lease4 :=
  with_state (with_dns l false false "") STATE_EXPIRED_RECLAIMED.

Definition reclaim_map (remove_lease : bool) (l : Lease4) (m : gmap IOAddress Lease4) :
    gmap IOAddress Lease4 :=
  if removed remove_lease l then delete (addr_ l) m else <[addr_ l := reclaimed_form l]> m.

(** What is counted before and after the database is changed. *)
Definition counted_before (l : Lease4) : list (string * Z) :=
  if stateDeclined l then
    [(subnet_stat (subnet_id_ l) "declined-addresses", -1); ("declined-addresses"%string, -1);
     ("reclaimed-declined-addresses"%string, 1);
     (subnet_stat (subnet_id_ l) "reclaimed-declined-addresses", 1)]
  else [].
Definition counted_after (l : Lease4) : list (string * Z) :=
  [(assigned (subnet_id_ l), -1); ("reclaimed-leases"%string, 1);
   (subnet_stat (subnet_id_ l) "reclaimed-leases", 1)].

(** The leases tried, each with whether the database took the change. *)
Abbreviation Outcomes := (list (Lease4 * bool)).

Definition outcome_map (remove_lease : bool) (o : Outcomes) (m : gmap IOAddress Lease4) :
    gmap IOAddress Lease4 :=
  foldl (λ m x, if (x.2 : bool) then reclaim_map remove_lease x.1 m else m) m o.
Definition outcome_counts (o : Outcomes) : list (string * Z) :=
  o ≫= λ x, counted_before x.1 ++ (if (x.2 : bool) then counted_after x.1 else []).

Lemma reclaim_map_other remove_lease l m a : a ≠ addr_ l → reclaim_map remove_lease l m !! a = m !! a.
Proof.
  intros Ha. unfold reclaim_map. destruct (removed _ _);
    [by rewrite lookup_delete_ne|by rewrite lookup_insert_ne].
Qed.

(** The number of leases the database took the change of. *)
Definition taken (o : Outcomes) : nat := length (filter (λ x, x.2 = true) o).

Section Reclaim.
Context {M : Type} `{LeaseMgrLaws M} `{EngineConfig}.
Implicit Types (s : State M).

Definition removal_request (l : Lease4) : list NameChangeRequest :=
  if bool_decide (hostname_ l = "") || (negb (fqdn_fwd_ l) && negb (fqdn_rev_ l))
     || negb ddnsEnabled || negb (ncr_ok l)
  then []
  else [{| ncr_type_ := CHG_REMOVE; ncr_fwd_ := fqdn_fwd_ l; ncr_rev_ := fqdn_rev_ l;
           ncr_fqdn_ := hostname_ l; ncr_address_ := addr_ l;
           ncr_expires_ := getExpirationTime l; ncr_length_ := valid_lft_ l |}].

(** Every statistic is one of integers. *)
Definition stats_ok s : Prop := wf_context (stats s) ∧ ∀ n, int_stat (stats s) n.

Record counted s s' (l : list (string * Z)) (requests : list NameChangeRequest) : Prop := {
  counted_ok : stats_ok s';
  counted_stats : ∀ n, stat_int (stats s') n = stat_int (stats s) n + delta n l;
  counted_ncrs : ncrs s' = ncrs s ++ requests;
  counted_heap : heap s' = heap s;
  counted_ctx : ctx s' = ctx s;
  counted_incomplete : incomplete_v4_reclamations_ s' = incomplete_v4_reclamations_ s
}.

Lemma counted_refl s : stats_ok s → counted s s [] [].
Proof. intros Hs. split; try done; [|by rewrite app_nil_r]. intros n. cbn. lia. Qed.

Lemma counted_trans s s1 s2 l1 l2 r1 r2 :
  counted s s1 l1 r1 → counted s1 s2 l2 r2 → counted s s2 (l1 ++ l2) (r1 ++ r2).
Proof.
  intros [A1 A2 A3 A4 A5 A6] [B1 B2 B3 B4 B5 B6]. split; try congruence.
  - intros n. rewrite B2, A2, delta_app. lia.
  - by rewrite B3, A3, app_assoc.
Qed.

(** A computation that counts [l] and queues [r], and leaves the database alone. *)
Definition counting {A} (m : ST (State M) A) s (a : A) l r : Prop :=
  ∃ s', m s = (s', Ok a) ∧ counted s s' l r ∧ db s' = db s.

Lemma counting_ret {A} (a : A) s : stats_ok s → counting (mret a) s a [] [].
Proof. intros Hs. exists s. split_and!; [done|by apply counted_refl|done]. Qed.

Lemma counting_bind {A B} (m : ST (State M) A) (f : A → ST (State M) B) s a b l1 l2 r1 r2 :
  counting m s a l1 r1 → (∀ s', stats_ok s' → counting (f a) s' b l2 r2) →
  counting (m ≫= f) s b (l1 ++ l2) (r1 ++ r2).
Proof.
  intros (s1 & E1 & C1 & D1) Hf. destruct (Hf s1 (counted_ok _ _ _ _ C1)) as (s2 & E2 & C2 & D2).
  exists s2. split_and!; [|by eapply counted_trans|congruence].
  unfold mbind, ST_bind. by rewrite E1.
Qed.

Lemma counting_stat_add name z s :
  stats_ok s → counting (stat_add name z) s tt [(name, z)] [].
Proof.
  intros [Hc Hi]. destruct (addValue_int_Ok now name z (stats s) Hc (Hi name))
    as (c & E & Hc' & Hi' & Hv & Ho).
  exists (with_stats c s). split_and!; [unfold stat_add, zoom; by rewrite E| |done].
  split; try done; [split; [done|]| |by rewrite app_nil_r].
  - intros n. destruct (decide (n = name)) as [->|]; [done|].
    unfold int_stat. cbn. rewrite Ho by done. apply Hi.
  - intros n. cbn. unfold stat_int in *. destruct (decide (name = n)) as [->|]; [rewrite Hv; lia|].
    rewrite Ho by done. lia.
Qed.

Lemma counting_queueNCR l s :
  stats_ok s → counting (queueNCR CHG_REMOVE l) s tt [] (removal_request l).
Proof.
  intros Hs. unfold queueNCR, removal_request.
  destruct (bool_decide _ || _ || _); [by apply counting_ret|]. cbn [orb].
  destruct (ncr_ok l); [|by apply counting_ret]. eexists. split_and!; [done| |done].
  split; try done. intros n. cbn. lia.
Qed.

Lemma counting_weaken {A} (m : ST (State M) A) s a l l' r r' :
  counting m s a l r → l = l' → r = r' → counting m s a l' r'.
Proof. by intros ? -> ->. Qed.

Context (Hexpire : lease4_expire hooks = None) (Hrecover : lease4_recover hooks = None).

Lemma counting_declined l remove_lease s : stats_ok s →
  counting (if state_ l =? STATE_DECLINED then reclaimDeclined l else mret (remove_lease, l)) s
    (removed remove_lease l, l) (counted_before l) [].
Proof.
  intros Hs. unfold removed, counted_before, reclaimDeclined, stateDeclined.
  destruct (state_ l =? STATE_DECLINED) eqn:Ed; cbn [negb].
  - rewrite orb_true_r, Hrecover. rewrite decide_False by done.
    eapply (counting_bind _ _ s tt _ [_] [_; _; _] [] []); [by apply counting_stat_add|].
    intros s1 Hs1. eapply (counting_bind _ _ s1 tt _ [_] [_; _] [] []); [by apply counting_stat_add|].
    intros s2 Hs2. eapply (counting_bind _ _ s2 tt _ [_] [_] [] []); [by apply counting_stat_add|].
    intros s3 Hs3. eapply (counting_bind _ _ s3 tt _ [_] [] [] []); [by apply counting_stat_add|].
    intros s4 Hs4. by apply counting_ret.
  - rewrite orb_false_r. by apply counting_ret.
Qed.

Lemma counting_after l s {A} (a : A) : stats_ok s →
  counting (_ ← stat_add (assigned (subnet_id_ l)) (-1);
            _ ← stat_add "reclaimed-leases" 1;
            _ ← stat_add (subnet_stat (subnet_id_ l) "reclaimed-leases") 1;
            mret a) s a (counted_after l) [].
Proof.
  intros Hs. eapply (counting_bind _ _ s tt _ [_] [_; _] [] []); [by apply counting_stat_add|].
  intros s1 Hs1. eapply (counting_bind _ _ s1 tt _ [_] [_] [] []); [by apply counting_stat_add|].
  intros s2 Hs2. eapply (counting_bind _ _ s2 tt _ [_] [] [] []); [by apply counting_stat_add|].
  intros s3 Hs3. by apply counting_ret.
Qed.

Lemma reclaimLeaseInDatabase_cases l b s :
  lm_leases (db s) !! addr_ l = Some l →
  ∃ d, (∃ l', reclaimLeaseInDatabase l b s = (with_db d s, Ok l') ∧ subnet_id_ l' = subnet_id_ l ∧
          lm_leases d = if b then delete (addr_ l) (lm_leases (db s))
                        else <[addr_ l := reclaimed_form l]> (lm_leases (db s))) ∨
       (∃ e, reclaimLeaseInDatabase l b s = (with_db d s, Throw e) ∧ catchable e = true ∧
          lm_leases d = lm_leases (db s)).
Proof.
  intros Hl. unfold reclaimLeaseInDatabase, in_db, zoom, mbind, ST_bind. destruct b.
  - pose proof (lm_deleteLease_spec (addr_ l) (db s)) as Hd. unfold wp in Hd.
    destruct (lm_deleteLease (addr_ l) (db s)) as [d [r|e]]; exists d.
    + left. exists l. split_and!; [done|done|apply Hd].
    + right. exists e. by destruct Hd.
  - fold (reclaimed_form l). pose proof (lm_updateLease4_spec (reclaimed_form l) (db s)) as Hd.
    unfold wp in Hd. destruct (lm_updateLease4 (reclaimed_form l) (db s)) as [d [r|e]]; exists d.
    + left. exists (reclaimed_form l). split_and!; [done|done|apply Hd].
    + right. exists e. by destruct Hd.
Qed.

(** One lease: the queueing, the counting of a declined lease, the database, and
    the other counts only when the database took the change. *)
Lemma reclaim_one l remove_lease callout_handle s :
  stats_ok s → lm_leases (db s) !! addr_ l = Some l →
  ∃ s' ok, (if ok : bool then ∃ l', reclaimExpiredLease_remove l remove_lease callout_handle s = (s', Ok l')
            else ∃ e, reclaimExpiredLease_remove l remove_lease callout_handle s = (s', Throw e) ∧
                      catchable e = true) ∧
    counted s s' (counted_before l ++ if ok then counted_after l else []) (removal_request l) ∧
    lm_leases (db s') = if ok then reclaim_map remove_lease l (lm_leases (db s)) else lm_leases (db s).
Proof.
  intros Hs Hl. unfold reclaimExpiredLease_remove, reclaimExpiredLease_mode.
  assert (∀ f, (let '(status, l) := match callout_handle, lease4_expire hooks with
                       | true, Some callout => callout (bool_decide ((if remove_lease
                            then DB_RECLAIM_REMOVE else DB_RECLAIM_UPDATE) = DB_RECLAIM_REMOVE)) l
                       | _, _ => (NEXT_STEP_CONTINUE, l)
                       end in f status l : ST (State M) Lease4) = f NEXT_STEP_CONTINUE l) as ->
    by (intros f; rewrite Hexpire; by destruct callout_handle).
  rewrite decide_False by done.
  assert (bool_decide ((if remove_lease then DB_RECLAIM_REMOVE else DB_RECLAIM_UPDATE)
            = DB_RECLAIM_REMOVE) = remove_lease) as -> by (by destruct remove_lease).
  destruct (counting_queueNCR l s Hs) as (s1 & E1 & C1 & D1).
  destruct (counting_declined l remove_lease s1 (counted_ok _ _ _ _ C1)) as (s2 & E2 & C2 & D2).
  assert (lm_leases (db s2) = lm_leases (db s)) as D by (by rewrite D2, D1).
  destruct (reclaimLeaseInDatabase_cases l (removed remove_lease l) s2) as (d & Hd);
    [by rewrite D|].
  pose proof (counted_trans _ _ _ _ _ _ _ C1 C2) as C. cbn [app] in C. rewrite app_nil_r in C.
  unfold reclaim_map. rewrite D in Hd. unfold mbind, ST_bind. rewrite E1, E2.
  rewrite (decide_False (P := (if remove_lease then DB_RECLAIM_REMOVE else DB_RECLAIM_UPDATE)
            = DB_RECLAIM_LEAVE_UNCHANGED)) by (by destruct remove_lease).
  destruct Hd as [(l' & E3 & Es & Ed)|(e & E3 & He & Ed)]; rewrite E3.
  - assert (stats_ok (with_db d s2)) as Hs2 by apply C2.
    destruct (counting_after l (with_db d s2) l' Hs2) as (s3 & E4 & C4 & D4).
    exists s3, true. rewrite Es. split_and!.
    + exists l'. exact E4.
    + rewrite <- (app_nil_r (removal_request l)). eapply counted_trans; [|exact C4].
      by destruct C.
    + by rewrite D4.
  - exists (with_db d s2), false. split_and!; [by exists e| |done].
    rewrite app_nil_r. by destruct C.
Qed.

Lemma reclaim_loop_spec elapsed timeout remove_lease callout_handle leases :
  ∀ k processed s, stats_ok s → NoDup (addr_ <$> leases) →
  (∀ l, l ∈ leases → lm_leases (db s) !! addr_ l = Some l) →
  ∃ s' o timed_out,
    reclaim_loop elapsed timeout remove_lease callout_handle k processed leases s =
      (s', Ok ((processed + taken o)%nat, timed_out)) ∧
    o.*1 `prefix_of` leases ∧ (timed_out = false → o.*1 = leases) ∧
    (timeout ≤ 0 → timed_out = false) ∧
    counted s s' (outcome_counts o) (o.*1 ≫= removal_request) ∧
    lm_leases (db s') = outcome_map remove_lease o (lm_leases (db s)).
Proof.
  induction leases as [|l leases IH]; intros k processed s Hs Hnd Hin; cbn [reclaim_loop].
  { exists s, [], false. rewrite Nat.add_0_r. split_and!; try done. by apply counted_refl. }
  apply NoDup_cons in Hnd as [Hl Hnd].
  destruct (reclaim_one l remove_lease callout_handle s Hs) as (s1 & ok & Hrun & C1 & D1);
    [apply Hin; by left|].
  set (n := if ok then 1%nat else 0%nat).
  assert (try_catch (_ ← reclaimExpiredLease_remove l remove_lease callout_handle;
                     mret (S processed)) (mret processed) s = (s1, Ok (processed + n)%nat)) as Et.
  { unfold try_catch, mbind, ST_bind. subst n. destruct ok.
    - destruct Hrun as [l' ->]. by rewrite Nat.add_1_r.
    - destruct Hrun as (e & -> & He). by rewrite He, Nat.add_0_r. }
  assert (∀ o, (processed + n + taken o)%nat = (processed + taken ((l, ok) :: o))%nat) as Ht.
  { intros o. unfold taken. rewrite filter_cons. subst n.
    destruct ok; [rewrite decide_True by done|rewrite decide_False by done]; cbn; lia. }
  unfold mbind at 1, ST_bind at 1. rewrite Et.
  destruct ((0 <? timeout) && (timeout <=? elapsed (S k))) eqn:Etime.
  - exists s1, [(l, ok)], true. rewrite <- Ht. change (taken []) with 0%nat.
    rewrite Nat.add_0_r. split_and!; [done|by exists leases|done|lia| |].
    + unfold outcome_counts. cbn. by rewrite !app_nil_r.
    + cbn. by destruct ok.
  - destruct (IH (S k) (processed + n)%nat s1) as (s2 & o & t & E2 & Hp & Hall & Hto & C2 & D2).
    + apply C1.
    + done.
    + intros l' Hl'. rewrite D1. rewrite <- (Hin l') by (by right).
      assert (addr_ l' ≠ addr_ l) by (intros E; apply Hl; rewrite <- E; by apply list_elem_of_fmap_2).
      destruct ok; [by apply reclaim_map_other|done].
    + exists s2, ((l, ok) :: o), t. rewrite <- Ht. split_and!; [done| | |done| |].
      * by apply prefix_cons.
      * intros Hf. cbn. by rewrite (Hall Hf).
      * unfold outcome_counts. cbn. by eapply counted_trans.
      * rewrite D2, D1. cbn. by destruct ok.
Qed.
End Reclaim.

(** ** The leases in use *)

(** The number of leases of a subnet that are not reclaimed. *)
Definition in_use (id : Z) (m : gmap IOAddress Lease4) : Z :=
  Z.of_nat (base.size (filter (λ x, subnet_id_ x.2 = id ∧ stateExpiredReclaimed x.2 = false) m)).

Definition counts_for (id : Z) (l : Lease4) : Z :=
  if decide (subnet_id_ l = id ∧ stateExpiredReclaimed l = false) then 1 else 0.

Lemma in_use_delete id m a l : m !! a = Some l → in_use id (delete a m) = in_use id m - counts_for id l.
Proof.
  intros Ha. unfold in_use, counts_for. rewrite map_filter_delete.
  destruct (decide _) as [Hl|Hl].
  - assert (filter (λ x, subnet_id_ x.2 = id ∧ stateExpiredReclaimed x.2 = false) m !! a = Some l)
      as Hf by (by apply map_lookup_filter_Some).
    rewrite map_size_delete, Hf.
    assert (base.size (filter (λ x, subnet_id_ x.2 = id ∧ stateExpiredReclaimed x.2 = false) m) ≠ 0%nat).
    { intros E. apply map_size_empty_inv in E. by rewrite E, lookup_empty in Hf. }
    lia.
  - rewrite delete_id; [lia|]. apply map_lookup_filter_None. right. intros l' Hl'.
    assert (l' = l) as -> by congruence. done.
Qed.

Lemma in_use_insert id m a l : in_use id (<[a := l]> m) = in_use id (delete a m) + counts_for id l.
Proof.
  unfold in_use, counts_for. destruct (decide _) as [Hl|Hl].
  - rewrite <- insert_delete_eq, map_filter_insert_True by done.
    rewrite map_size_insert_None; [lia|]. apply map_lookup_filter_None. left.
    apply lookup_delete_eq.
  - rewrite map_filter_insert_False by done. rewrite map_filter_delete. lia.
Qed.

Lemma in_use_delete_none id m a : m !! a = None → in_use id (delete a m) = in_use id m.
Proof. intros Ha. by rewrite delete_id. Qed.

Lemma in_use_reclaim id remove_lease l m :
  m !! addr_ l = Some l → in_use id (reclaim_map remove_lease l m) = in_use id m - counts_for id l.
Proof.
  intros Hl. unfold reclaim_map. destruct (removed _ _); [by apply in_use_delete|].
  rewrite in_use_insert, (in_use_delete id m _ l) by done.
  assert (counts_for id (reclaimed_form l) = 0) as ->; [|lia].
  unfold counts_for. rewrite decide_False; [done|]. by intros [_ ?].
Qed.

Lemma delta_assigned_before id l : delta (assigned id) (counted_before l) = 0.
Proof.
  unfold counted_before. destruct (stateDeclined l); [|done]. unfold delta. cbn [foldr].
  rewrite !decide_False; [done|..].
  - apply assigned_reclaimed_declined.
  - discriminate.
  - discriminate.
  - apply assigned_declined.
Qed.

Lemma delta_assigned_after id l :
  stateExpiredReclaimed l = false → delta (assigned id) (counted_after l) = - counts_for id l.
Proof.
  intros Hl. unfold counted_after, delta, counts_for. cbn [foldr].
  rewrite (decide_False (P := subnet_stat (subnet_id_ l) "reclaimed-leases" = assigned id))
    by apply assigned_reclaimed.
  rewrite (decide_False (P := "reclaimed-leases"%string = assigned id)) by discriminate.
  destruct (decide (subnet_id_ l = id)) as [->|Hne].
  - by rewrite !decide_True.
  - rewrite !decide_False; [done|by intros []|]. by intros ?%assigned_inj.
Qed.

Lemma outcome_balance id remove_lease o : ∀ m,
  NoDup (addr_ <$> o.*1) →
  (∀ l, l ∈ o.*1 → m !! addr_ l = Some l ∧ stateExpiredReclaimed l = false) →
  in_use id (outcome_map remove_lease o m) = in_use id m + delta (assigned id) (outcome_counts o).
Proof.
  induction o as [|[l ok] o IH]; intros m Hnd Hin; [cbn; lia|].
  cbn [fmap list_fmap] in Hnd. apply NoDup_cons in Hnd as [Hl Hnd].
  destruct (Hin l) as [Hm Hr]; [by left|].
  unfold outcome_counts. cbn [outcome_map foldl fst snd mbind list_bind]. fold (outcome_counts o).
  rewrite !delta_app, delta_assigned_before. fold (outcome_map remove_lease o).
  destruct ok; cycle 1.
  - unfold outcome_map in IH. rewrite IH; [cbn; lia|done|]. intros l' Hl'. apply Hin. by right.
  - unfold outcome_map in IH. rewrite IH; [|done|].
    + rewrite in_use_reclaim, delta_assigned_after by done. lia.
    + intros l' Hl'. destruct (Hin l') as [Hm' Hr']; [by right|]. split; [|done].
      rewrite reclaim_map_other; [done|]. cbn [fst] in Hl. intros E. apply Hl. rewrite <- E.
      by apply list_elem_of_fmap_2.
Qed.

Lemma outcome_map_other remove_lease a o : ∀ m,
  a ∉ addr_ <$> o.*1 → outcome_map remove_lease o m !! a = m !! a.
Proof.
  induction o as [|[l ok] o IH]; intros m Ha; [done|].
  cbn [fmap list_fmap fst] in Ha. apply not_elem_of_cons in Ha as [Hl Ha].
  cbn [outcome_map foldl fst snd]. fold (outcome_map remove_lease o).
  specialize (IH (if ok then reclaim_map remove_lease l m else m) Ha).
  unfold outcome_map in IH. rewrite IH. destruct ok; [by apply reclaim_map_other|done].
Qed.

(** Each lease of the map afterwards is as it was, or reclaimed. *)
Lemma outcome_map_lookup remove_lease a o : ∀ m,
  NoDup (addr_ <$> o.*1) → (∀ l, l ∈ o.*1 → m !! addr_ l = Some l) →
  outcome_map remove_lease o m !! a = m !! a ∨
  ∃ l, m !! a = Some l ∧ l ∈ o.*1 ∧
       outcome_map remove_lease o m !! a =
         if removed remove_lease l then None else Some (reclaimed_form l).
Proof.
  induction o as [|[l ok] o IH]; intros m Hnd Hin; [by left|].
  cbn [fmap list_fmap fst] in Hnd, Hin. apply NoDup_cons in Hnd as [Hl Hnd].
  cbn [outcome_map foldl fst snd]. fold (outcome_map remove_lease o).
  set (m' := if ok then reclaim_map remove_lease l m else m).
  destruct (decide (a = addr_ l)) as [->|Hne].
  - pose proof (outcome_map_other remove_lease _ o m' Hl) as Ho. unfold outcome_map in Ho.
    rewrite Ho. subst m'. destruct ok; [|by left]. right. exists l.
    split_and!; [apply Hin; by left|by left|].
    unfold reclaim_map. destruct (removed _ _); [apply lookup_delete_eq|apply lookup_insert_eq].
  - assert (∀ b, b ≠ addr_ l → m' !! b = m !! b) as Hm.
    { intros b Hb. subst m'. destruct ok; [by apply reclaim_map_other|done]. }
    destruct (IH m' Hnd) as [E|(l' & E & Hl' & E')]; unfold outcome_map in *.
    + intros l' Hl'. rewrite Hm; [apply Hin; by right|]. intros E. apply Hl. rewrite <- E.
      by apply list_elem_of_fmap_2.
    + left. by rewrite E, Hm.
    + right. exists l'. rewrite <- Hm by done. split_and!; [done|by right|done].
Qed.

(** ** The theorems *)

Section Theorems.
Context {M : Type} `{LeaseMgrLaws M} `{EngineConfig}.
Implicit Types (s : State M).

(** The leases to reclaim: of the expired ones that are not reclaimed yet, as many as
    allowed (0: all of them). *)
Definition selected (max_leases : nat) (all : list Lease4) : list Lease4 :=
  if (max_leases =? 0)%nat then all else take max_leases all.

(** Some of the expired leases are left. *)
Definition left_over (max_leases : nat) (all : list Lease4) : bool :=
  (length (selected max_leases all) <? length all)%nat.

(** The number of incomplete reclamations in a row, starting again after the
    largest number without a warning. *)
Definition count_incomplete (max_unwarned_cycles n : Z) : Z :=
  let n := (n + 1) `mod` 2 ^ 16 in
  if (0 <? max_unwarned_cycles) && (max_unwarned_cycles <? n) then 0 else n.

Lemma selected_elem k s all l :
  lm_getExpiredLeases4 now 0 (db s) = Ok all → l ∈ selected k all →
  lm_leases (db s) !! addr_ l = Some l ∧ stateExpiredReclaimed l = false ∧ getExpirationTime l ≤ now.
Proof.
  intros Ha Hl. apply (lm_getExpiredLeases4_elem now (db s) all Ha). unfold selected in Hl.
  destruct (k =? 0)%nat; [done|]. eapply elem_of_submseteq; [done|]. apply sublist_submseteq.
  apply sublist_take.
Qed.

Lemma selected_nodup k s all :
  lm_getExpiredLeases4 now 0 (db s) = Ok all → NoDup (addr_ <$> selected k all).
Proof.
  intros Ha. pose proof (lm_getExpiredLeases4_nodup now (db s) all Ha) as Hnd. unfold selected.
  destruct (k =? 0)%nat; [done|]. rewrite fmap_take. eapply sublist_NoDup; [done|]. apply sublist_take.
Qed.

(** The leases the code takes, and whether it takes less than there are. *)
Lemma selected_run max_leases s :
  (if (0 <? max_leases)%nat then
     leases ← query_db_res (lm_getExpiredLeases4 now (S max_leases));
     mret (if (max_leases <? length leases)%nat
           then (take (length leases - 1) leases, true) else (leases, false))
   else
     leases ← query_db_res (lm_getExpiredLeases4 now max_leases);
     mret (leases, false)) s =
  (s, match lm_getExpiredLeases4 now 0 (db s) with
      | Ok all => Ok (selected max_leases all, left_over max_leases all)
      | Throw e => Throw e
      end).
Proof.
  unfold selected, left_over, selected, query_db_res. destruct max_leases as [|k].
  - change (0 =? 0)%nat with true. change (0 <? 0)%nat with false. cbv beta iota.
    unfold mbind, ST_bind, get, lift, mret, ST_ret.
    destruct (lm_getExpiredLeases4 now 0 (db s)) as [all|e]; [|done].
    by rewrite (Nat.ltb_irrefl (length _)).
  - change (0 <? S k)%nat with true. change (S k =? 0)%nat with false.
    cbv beta iota. unfold mbind, ST_bind, get, lift, mret, ST_ret.
    rewrite (lm_getExpiredLeases4_limit now (S (S k))) by lia.
    destruct (lm_getExpiredLeases4 now 0 (db s)) as [all|e]; [|done].
    cbn beta iota delta [mbind res_bind mret res_ret]. rewrite !length_take.
    destruct (S k <? _)%nat eqn:E.
    + apply Nat.ltb_lt in E. rewrite take_take.
      replace (S (S k) `min` length all - 1)%nat with (S k) by lia.
      replace (S k `min` S (S k))%nat with (S k) by lia.
      by rewrite (proj2 (Nat.ltb_lt _ (length all))) by lia.
    + apply Nat.ltb_ge in E. rewrite !take_ge by lia.
      by rewrite (proj2 (Nat.ltb_ge _ (length all))) by lia.
Qed.

Lemma prefix_nodup (l1 l2 : list Lease4) :
  l1 `prefix_of` l2 → NoDup (addr_ <$> l2) → NoDup (addr_ <$> l1).
Proof. intros [k ->]. rewrite fmap_app. by intros [? _]%NoDup_app. Qed.

Lemma elem_of_prefix (l1 l2 : list Lease4) l : l1 `prefix_of` l2 → l ∈ l1 → l ∈ l2.
Proof. intros [k ->]. rewrite elem_of_app. by left. Qed.

Lemma run_reclaim_throws elapsed max_leases timeout remove_lease mx s e :
  lm_getExpiredLeases4 now 0 (db s) = Throw e →
  reclaimExpiredLeases4 elapsed max_leases timeout remove_lease mx s = (s, Throw e).
Proof.
  intros Ha. unfold reclaimExpiredLeases4. unfold mbind at 1, ST_bind at 1.
  by rewrite selected_run, Ha.
Qed.

(** Everything a reclamation does. *)
Lemma run_reclaim elapsed max_leases timeout remove_lease mx s all :
  lm_getExpiredLeases4 now 0 (db s) = Ok all →
  stats_ok s → lease4_expire hooks = None → lease4_recover hooks = None →
  ∃ s' (o : Outcomes) timed_out,
    reclaimExpiredLeases4 elapsed max_leases timeout remove_lease mx s = (s', Ok tt) ∧
    o.*1 `prefix_of` selected max_leases all ∧
    (timed_out = false → o.*1 = selected max_leases all) ∧
    (timeout ≤ 0 → timed_out = false) ∧
    stats_ok s' ∧
    (∀ n, stat_int (stats s') n = stat_int (stats s) n + delta n (outcome_counts o)) ∧
    ncrs s' = ncrs s ++ (o.*1 ≫= removal_request) ∧
    lm_leases (db s') = outcome_map remove_lease o (lm_leases (db s)) ∧
    incomplete_v4_reclamations_ s' =
      (if left_over max_leases all ||
          (timed_out && (taken o <? length (selected max_leases all))%nat)
       then count_incomplete mx (incomplete_v4_reclamations_ s) else 0) ∧
    heap s' = heap s.
Proof.
  intros Ha Hs Hexpire Hrecover. unfold reclaimExpiredLeases4. unfold mbind at 1, ST_bind at 1.
  rewrite selected_run, Ha.
  set (handle := bool_decide (selected max_leases all ≠ []) && _). clearbody handle.
  destruct (reclaim_loop_spec Hexpire Hrecover elapsed timeout remove_lease handle
              (selected max_leases all) 0 0 s Hs (selected_nodup max_leases s all Ha))
    as (s1 & o & t & E & Hp & Hall & Ht & C & D).
  { intros l Hl. by apply (selected_elem max_leases s all). }
  unfold mbind at 1, ST_bind at 1. rewrite E. cbn [Nat.add].
  destruct C as [[C0 C1] C2 C3 C4 C5 C6]. destruct (_ || _) eqn:Hi.
  - eexists _, o, t. split; [reflexivity|]. rewrite Hi. unfold count_incomplete. rewrite <- C6.
    destruct ((0 <? mx) && _) eqn:Hw; cbn in Hw |- *; rewrite ?Hw; by split_and!.
  - eexists _, o, t. split; [reflexivity|]. rewrite Hi. by split_and!.
Qed.

(** C34: Without callouts for the expiry and the recovery of leases, and with statistics that
    are well formed ([stats_ok]): when the search for expired leases throws,
    [reclaimExpiredLeases4] throws the same and has changed nothing; otherwise it returns,
    whichever changes of the database fail.  It has tried the leases [selected] in order, up
    to the one at which the time ran out, and all of them when there is no time limit.  A lease
    whose change the database took is removed when it was declined or when leases are to be
    removed, and is otherwise in the reclaimed state; exactly these leases are counted as
    reclaimed and no longer assigned, each declined lease tried is counted as no longer
    declined, and the removal of the DNS entries of each lease tried is requested.  The number
    of incomplete reclamations grows by one, up to the warning, when leases over the limit are
    left or the time ran out and not all the selected ones were taken by the database; it is
    reset otherwise. *)
Theorem reclaimExpiredLeases4_spec elapsed max_leases timeout remove_lease mx s
    (Hs : stats_ok s)
    (Hexpire : lease4_expire hooks = None) (Hrecover : lease4_recover hooks = None) :
  match lm_getExpiredLeases4 now 0 (db s) with
  | Throw e => reclaimExpiredLeases4 elapsed max_leases timeout remove_lease mx s = (s, Throw e)
  | Ok all =>
      ∃ s' (o : Outcomes) timed_out,
        reclaimExpiredLeases4 elapsed max_leases timeout remove_lease mx s = (s', Ok tt) ∧
        o.*1 `prefix_of` selected max_leases all ∧
        (timed_out = false → o.*1 = selected max_leases all) ∧
        (timeout ≤ 0 → timed_out = false) ∧
        lm_leases (db s') = outcome_map remove_lease o (lm_leases (db s)) ∧
        (∀ n, stat_int (stats s') n = stat_int (stats s) n + delta n (outcome_counts o)) ∧
        ncrs s' = ncrs s ++ (o.*1 ≫= removal_request) ∧
        incomplete_v4_reclamations_ s' =
          (if left_over max_leases all ||
              (timed_out && (taken o <? length (selected max_leases all))%nat)
           then count_incomplete mx (incomplete_v4_reclamations_ s) else 0)
  end.
Proof.
  destruct (lm_getExpiredLeases4 now 0 (db s)) as [all|e] eqn:Ha; [|by apply run_reclaim_throws].
  destruct (run_reclaim elapsed max_leases timeout remove_lease mx s all Ha Hs Hexpire Hrecover)
    as (s' & o & t & E & Hp & Hall & Ht & _ & Hst & Hn & Hd & Hi & _).
  exists s', o, t. by split_and!.
Qed.

(** The statistics of assigned addresses keep up with the leases in use of every
    subnet, whatever calls of the database fail during a reclamation. *)
Theorem reclaim_keeps_balance elapsed max_leases timeout remove_lease mx s id
    (Hs : stats_ok s)
    (Hexpire : lease4_expire hooks = None) (Hrecover : lease4_recover hooks = None) :
  ∃ s' r, reclaimExpiredLeases4 elapsed max_leases timeout remove_lease mx s = (s', r) ∧
    stat_int (stats s') (assigned id) - in_use id (lm_leases (db s')) =
    stat_int (stats s) (assigned id) - in_use id (lm_leases (db s)).
Proof.
  destruct (lm_getExpiredLeases4 now 0 (db s)) as [all|e] eqn:Ha.
  2: { exists s, (Throw e). split; [by apply run_reclaim_throws|done]. }
  destruct (run_reclaim elapsed max_leases timeout remove_lease mx s all Ha Hs Hexpire Hrecover)
    as (s' & o & t & E & Hp & _ & _ & _ & Hst & _ & Hd & _).
  exists s', (Ok tt). split; [exact E|]. rewrite Hst, Hd, outcome_balance; [lia|..].
  - exact (prefix_nodup _ _ Hp (selected_nodup max_leases s all Ha)).
  - intros l Hl. eapply elem_of_prefix in Hl; [|exact Hp].
    by destruct (selected_elem _ _ _ _ Ha Hl) as (? & ? & _).
Qed.

(** A reclamation touches only leases that have expired and were not
    reclaimed: every address has the lease it had, or its lease is gone, or its lease
    is in the reclaimed state without its DNS names; and it never
    makes a lease. *)
Theorem reclaimExpiredLeases4_only_expired elapsed max_leases timeout remove_lease mx s s' r a
    (Hs : stats_ok s)
    (Hexpire : lease4_expire hooks = None) (Hrecover : lease4_recover hooks = None)
    (E : reclaimExpiredLeases4 elapsed max_leases timeout remove_lease mx s = (s', r)) :
  lm_leases (db s') !! a = lm_leases (db s) !! a ∨
  ∃ l, lm_leases (db s) !! a = Some l ∧ getExpirationTime l ≤ now ∧
    stateExpiredReclaimed l = false ∧
    lm_leases (db s') !! a =
      if remove_lease || stateDeclined l then None else Some (reclaimed_form l).
Proof.
  destruct (lm_getExpiredLeases4 now 0 (db s)) as [all|e] eqn:Hsearch.
  2: { rewrite (run_reclaim_throws _ _ _ _ _ _ e Hsearch) in E. injection E as <- _. by left. }
  destruct (run_reclaim elapsed max_leases timeout remove_lease mx s all Hsearch Hs Hexpire Hrecover)
    as (s1 & o & t & E1 & Hp & _ & _ & _ & _ & _ & Hd & _).
  rewrite E in E1. injection E1 as -> ->. rewrite Hd.
  destruct (outcome_map_lookup remove_lease a o (lm_leases (db s))) as [?|(l & Ha & Hl & ?)].
  - exact (prefix_nodup _ _ Hp (selected_nodup max_leases s all Hsearch)).
  - intros l Hl. eapply elem_of_prefix in Hl; [|exact Hp]. by apply (selected_elem max_leases s all).
  - by left.
  - right. exists l. eapply elem_of_prefix in Hl; [|exact Hp].
    by destruct (selected_elem _ _ _ _ Hsearch Hl) as (_ & ? & ?).
Qed.
End Theorems.

(** ** The theorems on the small server *)

#[local] Existing Instance plain_engine.
#[local] Existing Instance memory_mgr.

Lemma no_callouts : lease4_expire hooks = None ∧ lease4_recover hooks = None.
Proof. by split. Qed.

(** Client 2 has an expired lease of subnet 1, client 3 a declined one that has
    expired, client 4 a lease in use. *)
Definition expired_leases : State (Memfile4 ListStorage4) :=
  server (heap_of false HR_ALL HR_ALL)
    [lease_of 2 0xC000020A 1 500; with_state (lease_of 3 0xC000020B 1 600) STATE_DECLINED;
     lease_of 4 0xC000020C 1 5000] (message 1 IPV4_ZERO_ADDRESS false).

Lemma expired_leases_ok : stats_ok expired_leases.
Proof. split; [by intros ?|intros n; unfold int_stat; cbn; by rewrite lookup_empty]. Qed.

Lemma reclaimExpiredLeases4_spec_witness :
  stats_ok expired_leases ∧
  ∃ s' (o : Outcomes), reclaimExpiredLeases4 (λ _, 0) 1 0 false 0 expired_leases = (s', Ok tt) ∧
    o.*1 = [lease_of 2 0xC000020A 1 500] ∧ incomplete_v4_reclamations_ s' = 1.
Proof.
  split; [exact expired_leases_ok|].
  destruct (reclaimExpiredLeases4_spec (λ _, 0) 1 0 false 0 expired_leases expired_leases_ok
              (proj1 no_callouts) (proj2 no_callouts)) as (s' & o & t & E & _ & Ho & Ht & _ & _ & _ & Hi).
  rewrite (Ht (Z.le_refl 0)) in Hi.
  exists s', o. split; [exact E|split]; [rewrite (Ho (Ht (Z.le_refl 0)))|rewrite Hi];
    vm_compute; reflexivity.
Defined.

Lemma reclaim_keeps_balance_witness :
  stats_ok expired_leases ∧
  ∃ s' r, reclaimExpiredLeases4 (λ _, 0) 0 0 false 0 expired_leases = (s', r) ∧
    in_use 1 (lm_leases (db expired_leases)) = 3 ∧ in_use 1 (lm_leases (db s')) = 1 ∧
    stat_int (stats s') (assigned 1) - in_use 1 (lm_leases (db s')) = -3.
Proof.
  split; [exact expired_leases_ok|].
  destruct (reclaim_keeps_balance (λ _, 0) 0 0 false 0 expired_leases 1 expired_leases_ok
              (proj1 no_callouts) (proj2 no_callouts)) as (s' & r & E & Hb).
  assert (in_use 1 (lm_leases (db s')) = 1) as H1.
  { transitivity (in_use 1 (lm_leases (db (reclaimExpiredLeases4 (λ _, 0) 0 0 false 0 expired_leases).1)));
      [by rewrite E|vm_compute; reflexivity]. }
  exists s', r. split_and!; [exact E|vm_compute; reflexivity|exact H1|].
  rewrite Hb. vm_compute. reflexivity.
Defined.

Lemma reclaimExpiredLeases4_only_expired_witness :
  stats_ok expired_leases ∧
  ∃ s' r, reclaimExpiredLeases4 (λ _, 0) 0 0 false 0 expired_leases = (s', r) ∧
    lm_leases (db s') !! V4 0xC000020C = lm_leases (db expired_leases) !! V4 0xC000020C.
Proof.
  split; [exact expired_leases_ok|].
  destruct (reclaimExpiredLeases4 (λ _, 0) 0 0 false 0 expired_leases) as [s' r] eqn:E.
  exists s', r. split; [reflexivity|].
  destruct (reclaimExpiredLeases4_only_expired (λ _, 0) 0 0 false 0 expired_leases s' r
              (V4 0xC000020C) expired_leases_ok (proj1 no_callouts) (proj2 no_callouts) E) as [Hs|(l & Hl & He & _)];
    [exact Hs|].
  vm_compute in Hl. injection Hl as <-. vm_compute in He. by destruct He.
Defined.
