(* ===== verification/LeaseStats.v ===== *)
(** * Recounting the statistics of leases ([src/lib/dhcpsrv/lease_mgr.cc],
      [memfile_lease_mgr.cc], [cfg_subnets4.cc], [cfg_subnets6.cc])

    When a configuration is committed the server recounts its statistics from the lease
    database: a query gives the numbers of leases by subnet and state, and
    [LeaseMgr::recountLeaseStats4] and [recountLeaseStats6] set the statistics to them.
    The queries of the two families differ in the kinds of leases they count, by state for
    IPv4 and by type and state for IPv6, and in the order of the rows. *)

From stdpp Require Import pretty.
From S2P Require Import Prelude IoAddress Pool Subnet SharedNetwork StatsMgr Lease Lease6.
From S2P Require Import LeaseStorage CsvLeaseFile4 MemfileLeaseMgr CsvLeaseFile6 MemfileLeaseMgr6.
From S2P Require Import AllocEngine4 Reclamation.
Local Open Scope Z_scope.

(** ** The queries *)

Inductive SelectMode :=
  | ALL_SUBNETS
  | SINGLE_SUBNET (subnet_id : Z)
  | SUBNET_RANGE (first_subnet_id last_subnet_id : Z).

(** The constructors of [LeaseStatsQuery] for one subnet and for a range. *)
Definition mkLeaseStatsQuery (subnet_id : Z) : res SelectMode :=
  _ ← throw_if (subnet_id =? 0) BadValue; mret (SINGLE_SUBNET subnet_id).
Definition mkLeaseStatsQuery_range (first_subnet_id last_subnet_id : Z) : res SelectMode :=
  _ ← throw_if (first_subnet_id =? 0) BadValue;
  _ ← throw_if (last_subnet_id =? 0) BadValue;
  _ ← throw_if (last_subnet_id <=? first_subnet_id) BadValue;
  mret (SUBNET_RANGE first_subnet_id last_subnet_id).

(** Whether a subnet is between the bounds: from [lower_bound] to [upper_bound] an index
    in the order of identifiers has the leases of these subnets. *)
Definition selected (mode : SelectMode) (subnet_id : Z) : bool :=
  match mode with
  | ALL_SUBNETS => true
  | SINGLE_SUBNET id => subnet_id =? id
  | SUBNET_RANGE first last => (first <=? subnet_id) && (subnet_id <=? last)
  end.

(** A row of a result: a subnet, what was counted and how many there are. *)
Record LeaseStatsRow K := mkRow { row_subnet_id_ : Z; row_kind : K; state_count_ : Z }.
Arguments mkRow {K}.
Arguments row_subnet_id_ {K}.
Arguments row_kind {K}.
Arguments state_count_ {K}.

Section Query.
Context {L K : Type} `{!EqDecision K}.
(** The subnet of a lease, which of the accumulators counts it, and the order in which
    rows are made of the accumulators. *)
Context (subnet_of : L → Z) (kind_of : L → option K) (kinds : list K).

Definition make_rows (cur_id : Z) (counts : K → Z) : list (LeaseStatsRow K) :=
  foldr (λ k rows, if 0 <? counts k then mkRow cur_id k (counts k) :: rows else rows) [] kinds.
Definition wipe (counts : K → Z) : K → Z := λ k, if 0 <? counts k then 0 else counts k.
Definition bump (l : L) (counts : K → Z) : K → Z :=
  λ k, if decide (kind_of l = Some k) then counts k + 1 else counts k.

Fixpoint count_loop (leases : list L) (cur_id : Z) (counts : K → Z)
    (rows : list (LeaseStatsRow K)) : list (LeaseStatsRow K) :=
  match leases with
  | [] => rows ++ make_rows cur_id counts
  | l :: leases' =>
      if negb (subnet_of l =? cur_id) then
        if 0 <? cur_id then
          count_loop leases' (subnet_of l) (bump l (wipe counts)) (rows ++ make_rows cur_id counts)
        else count_loop leases' (subnet_of l) (bump l counts) rows
      else count_loop leases' cur_id (bump l counts) rows
  end.

(** [start], on the leases in the order of the index by subnet. *)
Definition start (mode : SelectMode) (idx : list L) : list (LeaseStatsRow K) :=
  match filter (λ l, selected mode (subnet_of l) = true) idx with
  | [] => []
  | leases => count_loop leases 0 (λ _, 0) []
  end.
End Query.

(** [MemfileLeaseStatsQuery4] counts leases by their state. *)
Definition kind4 (l : Lease4) : option Z :=
  if state_ l =? STATE_DEFAULT then Some STATE_DEFAULT
  else if state_ l =? STATE_DECLINED then Some STATE_DECLINED else None.
Definition kinds4 : list Z := [STATE_DEFAULT; STATE_DECLINED].

(** [MemfileLeaseStatsQuery6] counts leases by their type and state. *)
Definition kind6 (l : Lease6) : option (LeaseType * Z) :=
  if state6_ l =? STATE_DEFAULT then
    match lease_type_ l with
    | TYPE_NA => Some (TYPE_NA, STATE_DEFAULT)
    | TYPE_PD => Some (TYPE_PD, STATE_DEFAULT)
    | _ => None
    end
  else if state6_ l =? STATE_DECLINED then
    match lease_type_ l with TYPE_NA => Some (TYPE_NA, STATE_DECLINED) | _ => None end
  else None.
Definition kinds6 : list (LeaseType * Z) :=
  [(TYPE_NA, STATE_DEFAULT); (TYPE_NA, STATE_DECLINED); (TYPE_PD, STATE_DEFAULT)].

(** The container has an index of its leases by subnet. *)
Class SubnetIdIndex (L S : Type) := { st_by_subnet : S → list L }.
Class SubnetIdIndexLaws {L : Type} (subnet_of : L → Z) (S : Type) `{LeaseStorageLaws L S}
    `{SubnetIdIndex L S} : Prop := {
  st_by_subnet_perm : ∀ s : S, st_by_subnet s ≡ₚ (map_to_list (st_leases s)).*2;
  st_by_subnet_sorted : ∀ s : S,
    StronglySorted (λ l l', subnet_of l ≤ subnet_of l') (st_by_subnet s)
}.

Section Memfile.
Context {S : Type}.

(** [startLeaseStatsQuery4], [startSubnetLeaseStatsQuery4] and
    [startSubnetRangeLeaseStatsQuery4]. *)
Definition query4 `{SubnetIdIndex Lease4 S} (mode : SelectMode) (m : Memfile4 S) :
    list (LeaseStatsRow Z) :=
  start subnet_id_ kind4 kinds4 mode (st_by_subnet (storage_ m)).
Definition startLeaseStatsQuery4 `{SubnetIdIndex Lease4 S} (m : Memfile4 S) :=
  query4 ALL_SUBNETS m.
Definition startSubnetLeaseStatsQuery4 `{SubnetIdIndex Lease4 S} (subnet_id : Z)
    (m : Memfile4 S) : res (list (LeaseStatsRow Z)) :=
  mode ← mkLeaseStatsQuery subnet_id; mret (query4 mode m).
Definition startSubnetRangeLeaseStatsQuery4 `{SubnetIdIndex Lease4 S}
    (first_subnet_id last_subnet_id : Z) (m : Memfile4 S) : res (list (LeaseStatsRow Z)) :=
  mode ← mkLeaseStatsQuery_range first_subnet_id last_subnet_id; mret (query4 mode m).

(** [startLeaseStatsQuery6], [startSubnetLeaseStatsQuery6] and
    [startSubnetRangeLeaseStatsQuery6]. *)
Definition query6 `{SubnetIdIndex Lease6 S} (mode : SelectMode) (m : Memfile6 S) :
    list (LeaseStatsRow (LeaseType * Z)) :=
  start subnet_id6_ kind6 kinds6 mode (st_by_subnet (storage_ m)).
Definition startLeaseStatsQuery6 `{SubnetIdIndex Lease6 S} (m : Memfile6 S) :=
  query6 ALL_SUBNETS m.
Definition startSubnetLeaseStatsQuery6 `{SubnetIdIndex Lease6 S} (subnet_id : Z)
    (m : Memfile6 S) : res (list (LeaseStatsRow (LeaseType * Z))) :=
  mode ← mkLeaseStatsQuery subnet_id; mret (query6 mode m).
Definition startSubnetRangeLeaseStatsQuery6 `{SubnetIdIndex Lease6 S}
    (first_subnet_id last_subnet_id : Z) (m : Memfile6 S) :
    res (list (LeaseStatsRow (LeaseType * Z))) :=
  mode ← mkLeaseStatsQuery_range first_subnet_id last_subnet_id; mret (query6 mode m).
End Memfile.

(** ** Recounting *)

Section Recount.
Context (now : Z).

Definition set_stat (name : string) (z : Z) : ST StatContext unit := setValue now name (IntValue z).
Definition add_stat (name : string) (z : Z) : ST StatContext unit := addValue now name (IntValue z).

Fixpoint for_each {A} (f : A → ST StatContext unit) (l : list A) : ST StatContext unit :=
  match l with [] => mret tt | x :: l' => _ ← f x; for_each f l' end.

Definition zeroed4 : list string :=
  ["assigned-addresses"; "declined-addresses"; "reclaimed-declined-addresses";
   "reclaimed-leases"].
Definition zero_subnet4 (subnet_id : Z) : ST StatContext unit :=
  for_each (λ n, set_stat (generateName "subnet" subnet_id n) 0) zeroed4.

Definition count_row4 (row : LeaseStatsRow Z) : ST StatContext unit :=
  if row_kind row =? STATE_DEFAULT then
    set_stat (generateName "subnet" (row_subnet_id_ row) "assigned-addresses") (state_count_ row)
  else if row_kind row =? STATE_DECLINED then
    _ ← set_stat (generateName "subnet" (row_subnet_id_ row) "declined-addresses")
          (state_count_ row);
    add_stat "declined-addresses" (state_count_ row)
  else mret tt.

(** [LeaseMgr::recountLeaseStats4]: [query] is the result of the backend, null if it does
    not support recounting, and [subnets] are the identifiers of the configured subnets. *)
Definition recountLeaseStats4 (query : option (list (LeaseStatsRow Z))) (subnets : list Z) :
    ST StatContext unit :=
  match query with
  | None => mret tt
  | Some rows =>
      _ ← set_stat "declined-addresses" 0;
      _ ← set_stat "reclaimed-declined-addresses" 0;
      _ ← set_stat "reclaimed-leases" 0;
      _ ← for_each zero_subnet4 subnets;
      for_each count_row4 rows
  end.

Definition zeroed6 : list string :=
  ["assigned-nas"; "declined-addresses"; "reclaimed-declined-addresses"; "assigned-pds";
   "reclaimed-leases"].
Definition zero_subnet6 (subnet_id : Z) : ST StatContext unit :=
  for_each (λ n, set_stat (generateName "subnet" subnet_id n) 0) zeroed6.

Definition count_row6 (row : LeaseStatsRow (LeaseType * Z)) : ST StatContext unit :=
  match fst (row_kind row) with
  | TYPE_NA =>
      _ ← (if snd (row_kind row) =? STATE_DEFAULT then
             set_stat (generateName "subnet" (row_subnet_id_ row) "assigned-nas")
               (state_count_ row)
           else mret tt);
      if snd (row_kind row) =? STATE_DECLINED then
        _ ← set_stat (generateName "subnet" (row_subnet_id_ row) "declined-addresses")
              (state_count_ row);
        add_stat "declined-addresses" (state_count_ row)
      else mret tt
  | TYPE_PD =>
      if snd (row_kind row) =? STATE_DEFAULT then
        set_stat (generateName "subnet" (row_subnet_id_ row) "assigned-pds") (state_count_ row)
      else mret tt
  | _ => mret tt
  end.

(** [LeaseMgr::recountLeaseStats6]. *)
Definition recountLeaseStats6 (query : option (list (LeaseStatsRow (LeaseType * Z))))
    (subnets : list Z) : ST StatContext unit :=
  match query with
  | None => mret tt
  | Some rows =>
      _ ← set_stat "declined-addresses" 0;
      _ ← set_stat "reclaimed-declined-addresses" 0;
      _ ← set_stat "reclaimed-leases" 0;
      _ ← for_each zero_subnet6 subnets;
      for_each count_row6 rows
  end.

(** ** The statistics of a configuration *)

(** [static_cast<int64_t>] of an unsigned 64-bit integer. *)
Definition to_int64 (z : Z) : Z := if z <? 2 ^ 63 then z else z - 2 ^ 64.

Definition del_stat (name : string) : ST StatContext unit := _ ← context_del name; mret tt.

(** [CfgSubnets4::removeStatistics] and [CfgSubnets6::removeStatistics]. *)
Definition removeStatistics4 (subnets : list Subnet) : ST StatContext unit :=
  for_each (λ s, for_each (λ n, del_stat (generateName "subnet" (id_ s) n))
    ["total-addresses"; "assigned-addresses"; "declined-addresses";
     "declined-reclaimed-addresses"; "reclaimed-leases"]%string) subnets.
Definition removeStatistics6 (subnets : list Subnet) : ST StatContext unit :=
  for_each (λ s, for_each (λ n, del_stat (generateName "subnet" (id_ s) n))
    ["total-nas"; "assigned-nas"; "total-pds"; "assigned-pds"; "declined-addresses";
     "declined-reclaimed-addresses"; "reclaimed-leases"]%string) subnets.

(** [CfgSubnets4::updateStatistics] and [CfgSubnets6::updateStatistics]. *)
Definition updateStatistics4 (query : option (list (LeaseStatsRow Z))) (subnets : list Subnet) :
    ST StatContext unit :=
  _ ← for_each (λ s, set_stat (generateName "subnet" (id_ s) "total-addresses")
                       (to_int64 (getPoolCapacity s TYPE_V4))) subnets;
  if bool_decide (subnets ≠ []) then recountLeaseStats4 query (id_ <$> subnets) else mret tt.
Definition updateStatistics6 (query : option (list (LeaseStatsRow (LeaseType * Z))))
    (subnets : list Subnet) : ST StatContext unit :=
  _ ← for_each (λ s,
        _ ← set_stat (generateName "subnet" (id_ s) "total-nas")
              (to_int64 (getPoolCapacity s TYPE_NA));
        set_stat (generateName "subnet" (id_ s) "total-pds")
          (to_int64 (getPoolCapacity s TYPE_PD))) subnets;
  if bool_decide (subnets ≠ []) then recountLeaseStats6 query (id_ <$> subnets) else mret tt.
End Recount.

(** ** What the queries count *)

Section Counted.
Context {L K : Type} `{!EqDecision K}.
Context (subnet_of : L → Z) (kind_of : L → option K) (kinds : list K) (Hkinds : NoDup kinds).

(** The number of leases of a subnet, and of all subnets, that are of a kind. *)
Definition counted (leases : list L) (id : Z) (k : K) : Z :=
  Z.of_nat (length (filter (λ l, subnet_of l = id ∧ kind_of l = Some k) leases)).
Definition counted_all (leases : list L) (k : K) : Z :=
  Z.of_nat (length (filter (λ l, kind_of l = Some k) leases)).

Definition row_key (r : LeaseStatsRow K) : Z * K := (row_subnet_id_ r, row_kind r).
Definition row_total (k : K) (rows : list (LeaseStatsRow K)) : Z :=
  foldr (λ r n, (if decide (row_kind r = k) then state_count_ r else 0) + n) 0 rows.

Lemma row_total_cons k r rows :
  row_total k (r :: rows) = (if decide (row_kind r = k) then state_count_ r else 0) + row_total k rows.
Proof. done. Qed.

Lemma row_total_app k rows rows' : row_total k (rows ++ rows') = row_total k rows + row_total k rows'.
Proof. unfold row_total. induction rows as [|r rows IH]; [done|]. cbn. rewrite IH. lia. Qed.

Lemma counted_nil id k : counted [] id k = 0.
Proof. done. Qed.

Lemma counted_cons l leases id k :
  counted (l :: leases) id k =
  (if decide (subnet_of l = id ∧ kind_of l = Some k) then 1 else 0) + counted leases id k.
Proof. unfold counted. rewrite filter_cons. case_decide; cbn [length]; lia. Qed.

Lemma counted_all_cons l leases k :
  counted_all (l :: leases) k =
  (if decide (kind_of l = Some k) then 1 else 0) + counted_all leases k.
Proof. unfold counted_all. rewrite filter_cons. case_decide; cbn [length]; lia. Qed.

Lemma counted_nonneg leases id k : 0 ≤ counted leases id k.
Proof. unfold counted. lia. Qed.

Lemma counted_above leases id k :
  Forall (λ l, id < subnet_of l) leases → counted leases id k = 0.
Proof.
  induction 1 as [|l leases Hl _ IH]; [done|]. rewrite counted_cons, IH.
  rewrite decide_False; [done|]. intros [? _]. lia.
Qed.

(** [R] are the rows for what is left to count. *)
Definition rows_for (cur_id : Z) (counts : K → Z) (leases : list L)
    (R : list (LeaseStatsRow K)) : Prop :=
  NoDup (row_key <$> R) ∧ Forall (λ r, cur_id ≤ row_subnet_id_ r) R ∧
  (∀ id k n, mkRow id k n ∈ R ↔
     k ∈ kinds ∧ 0 < n ∧ n = (if decide (id = cur_id) then counts k else 0) + counted leases id k) ∧
  (∀ k, k ∈ kinds → row_total k R = counts k + counted_all leases k).

Lemma make_rows_spec cur_id counts :
  (∀ k, 0 ≤ counts k) → rows_for cur_id counts [] (make_rows kinds cur_id counts).
Proof using Hkinds.
  intros Hc. unfold make_rows, rows_for.
  assert (∀ id k n, mkRow id k n ∈ foldr (λ k rows, if 0 <? counts k
      then mkRow cur_id k (counts k) :: rows else rows) [] kinds ↔
      k ∈ kinds ∧ 0 < n ∧ n = counts k ∧ id = cur_id) as Hin.
  { clear Hkinds. induction kinds as [|k ks IH]; intros id k' n; cbn.
    { split; [by intros []%not_elem_of_nil|]. intros ([]%not_elem_of_nil & _). }
    destruct (0 <? counts k) eqn:E.
    - rewrite elem_of_cons, IH, elem_of_cons. apply Z.ltb_lt in E. naive_solver.
    - rewrite IH, elem_of_cons. apply Z.ltb_ge in E. split; [naive_solver|].
      intros ([->|?] & ? & ? & ?); [lia|done]. }
  split_and!.
  - clear Hin. induction Hkinds as [|k ks Hk Hks IH]; cbn; [constructor|].
    destruct (0 <? counts k); [|exact (IH Hks)]. cbn. constructor; [|exact (IH Hks)].
    intros Hin. apply list_elem_of_fmap in Hin as ([i k' n] & [= <- <-] & Hr). apply Hk.
    clear -Hr. induction ks as [|k' ks IH]; cbn in Hr; [by apply not_elem_of_nil in Hr|].
    destruct (0 <? counts k'); [|right; by apply IH].
    apply elem_of_cons in Hr as [[= -> ->]|Hr]; [by left|right; by apply IH].
  - apply Forall_forall. intros [id k n] Hr. apply Hin in Hr as (_ & _ & _ & ->). cbn. lia.
  - intros id k n. rewrite Hin, counted_nil. destruct (decide (id = cur_id)).
    + rewrite Z.add_0_r. naive_solver.
    + split; [naive_solver|]. lia.
  - intros k Hk. clear Hin. unfold counted_all. cbn. rewrite Z.add_0_r.
    induction Hkinds as [|k' ks Hk' Hks IH]; [by apply not_elem_of_nil in Hk|]. cbn [foldr].
    assert (k ∉ ks → row_total k (foldr (λ k rows, if 0 <? counts k
      then mkRow cur_id k (counts k) :: rows else rows) [] ks) = 0) as Hno.
    { clear. intros Hk. induction ks as [|k' ks IH]; [done|]. cbn [foldr].
      apply not_elem_of_cons in Hk as [??]. destruct (0 <? counts k'); [|by apply IH].
      rewrite row_total_cons, decide_False by done. by apply IH. }
    apply elem_of_cons in Hk as [->|Hk].
    + specialize (Hno Hk'). destruct (0 <? counts k') eqn:E.
      * rewrite row_total_cons, decide_True, Hno by done. cbn [state_count_]. lia.
      * rewrite Hno. apply Z.ltb_ge in E. specialize (Hc k'). lia.
    + specialize (IH Hks Hk). destruct (0 <? counts k'); [|done].
      rewrite row_total_cons, decide_False by (cbn; by intros ->). rewrite IH. lia.
Qed.

(** The next lease is counted by an accumulator. *)
Lemma rows_for_bump cur_id counts l leases R :
  subnet_of l = cur_id →
  rows_for cur_id (bump kind_of l counts) leases R → rows_for cur_id counts (l :: leases) R.
Proof.
  intros Hl (H1 & H2 & H3 & H4). split_and!; [done|done|..].
  - intros id k n. rewrite H3, counted_cons. unfold bump.
    destruct (decide (id = cur_id)) as [->|].
    + rewrite (decide_ext (kind_of l = Some k) (subnet_of l = cur_id ∧ kind_of l = Some k))
        by naive_solver. destruct (decide (subnet_of l = cur_id ∧ _)); intuition lia.
    + rewrite (decide_False (P := subnet_of l = id ∧ _)) by naive_solver. intuition lia.
  - intros k Hk. rewrite H4 by done. rewrite counted_all_cons. unfold bump.
    case_decide; lia.
Qed.

(** All the leases of a subnet are counted: its rows are made. *)
Lemma rows_for_next cur_id id' counts leases R :
  cur_id < id' → (∀ k, 0 ≤ counts k) → Forall (λ l, id' ≤ subnet_of l) leases →
  rows_for id' (λ _, 0) leases R →
  rows_for cur_id counts leases (make_rows kinds cur_id counts ++ R).
Proof using Hkinds.
  intros Hlt Hc Hle (H1 & H2 & H3 & H4).
  destruct (make_rows_spec cur_id counts Hc) as (M1 & M2 & M3 & M4).
  assert (∀ k, counted leases cur_id k = 0) as Hnone.
  { intros k. apply counted_above. eapply Forall_impl; [exact Hle|]. intros l Hl. cbn in *. lia. }
  split_and!.
  - rewrite fmap_app. apply NoDup_app. split_and!; [done| |done].
    intros [i k] Hi Hi'. apply list_elem_of_fmap in Hi as ([? ? n] & [= <- <-] & Hi).
    apply list_elem_of_fmap in Hi' as ([? ? n'] & [= <- <-] & Hi').
    rewrite Forall_forall in H2. specialize (H2 _ Hi'). cbn in H2.
    apply M3 in Hi as (_ & ? & ->). rewrite counted_nil in *.
    destruct (decide (i = cur_id)); lia.
  - apply Forall_app. split; [done|]. eapply Forall_impl; [exact H2|]. cbn. intros; lia.
  - intros id k n. rewrite elem_of_app, M3, H3, counted_nil.
    destruct (decide (id = cur_id)) as [->|Hne].
    + rewrite (Hnone k), decide_False by lia. intuition lia.
    + pose proof (counted_nonneg leases id k). case_decide; intuition lia.
  - intros k Hk. rewrite row_total_app, M4, H4 by done. unfold counted_all at 1. cbn. lia.
Qed.

Lemma wipe_zero (counts : K → Z) k : 0 ≤ counts k → wipe counts k = 0.
Proof. unfold wipe. destruct (0 <? counts k) eqn:E; [done|]. rewrite Z.ltb_ge in E. lia. Qed.

Lemma bump_ext l (counts counts' : K → Z) k :
  (∀ k, counts k = counts' k) → bump kind_of l counts k = bump kind_of l counts' k.
Proof. intros E. unfold bump. by rewrite E. Qed.

Lemma rows_for_ext cur_id counts counts' leases R :
  (∀ k, counts k = counts' k) → rows_for cur_id counts leases R →
  rows_for cur_id counts' leases R.
Proof.
  intros E (H1 & H2 & H3 & H4). split_and!; [done|done|..].
  - intros id k n. rewrite H3, E. done.
  - intros k Hk. by rewrite H4, E.
Qed.

Lemma count_loop_spec leases : ∀ cur_id counts rows,
  0 ≤ cur_id → (∀ k, 0 ≤ counts k) → (cur_id = 0 → ∀ k, counts k = 0) →
  StronglySorted (λ l l', subnet_of l ≤ subnet_of l') leases →
  Forall (λ l, cur_id ≤ subnet_of l ∧ 0 < subnet_of l) leases →
  ∃ R, count_loop subnet_of kind_of kinds leases cur_id counts rows = rows ++ R ∧
       rows_for cur_id counts leases R.
Proof using Hkinds.
  induction leases as [|l leases IH]; intros cur_id counts rows Hcur Hc H0 Hs Hle.
  { eexists. split; [done|]. by apply make_rows_spec. }
  apply StronglySorted_inv in Hs as [Hs Hhead]. apply Forall_cons in Hle as [[Hl Hpos] Hle].
  assert (∀ cs k, (∀ k, 0 ≤ cs k) → 0 ≤ bump kind_of l cs k) as Hbump.
  { intros cs k Hcs. unfold bump. specialize (Hcs k). case_decide; lia. }
  assert (Forall (λ x, subnet_of l ≤ subnet_of x ∧ 0 < subnet_of x) leases) as Hle'.
  { eapply Forall_impl; [exact Hhead|]. cbn. intros; lia. }
  cbn [count_loop]. destruct (subnet_of l =? cur_id) eqn:E; cbn [negb].
  { apply Z.eqb_eq in E. edestruct (IH cur_id (bump kind_of l counts) rows) as (R & -> & HR);
      [done|by intros; apply Hbump|intros ->; lia|done| |].
    { by rewrite E in Hle'. }
    exists R. split; [done|]. by apply rows_for_bump. }
  apply Z.eqb_neq in E. destruct (0 <? cur_id) eqn:E0.
  - edestruct (IH (subnet_of l) (bump kind_of l (wipe counts))
      (rows ++ make_rows kinds cur_id counts)) as (R & -> & HR); [lia| |lia|done|done|].
    { intros k. apply Hbump. intros k'. by rewrite wipe_zero. }
    exists (make_rows kinds cur_id counts ++ R). split; [by rewrite app_assoc|].
    apply (rows_for_next cur_id (subnet_of l)); [lia|done| |].
    { constructor; [lia|]. eapply Forall_impl; [exact Hle'|]. cbn. intros; lia. }
    apply rows_for_bump; [done|]. eapply rows_for_ext; [|exact HR]. intros k.
    apply bump_ext. intros k'. by rewrite wipe_zero.
  - apply Z.ltb_ge in E0. assert (cur_id = 0) as -> by lia.
    edestruct (IH (subnet_of l) (bump kind_of l counts) rows) as (R & -> & HR);
      [lia|by intros; apply Hbump|lia|done|done|].
    exists R. split; [done|].
    assert (rows_for (subnet_of l) (λ _, 0) (l :: leases) R) as HR'.
    { apply rows_for_bump; [done|]. eapply rows_for_ext; [|exact HR]. intros k.
      apply bump_ext. by apply H0. }
    assert (make_rows kinds 0 counts = []) as Hnil.
    { unfold make_rows. clear -H0. induction kinds as [|k ks IH]; [done|]. cbn.
      by rewrite (H0 eq_refl k). }
    pose proof (rows_for_next 0 (subnet_of l) counts (l :: leases) R) as Hn.
    rewrite Hnil in Hn. apply Hn; [lia|done| |done].
    constructor; [lia|]. eapply Forall_impl; [exact Hle'|]. cbn. intros; lia.
Qed.

(** The result of a query has one row for each selected subnet and each kind of which the
    subnet has leases, with their number. *)
Lemma start_counts mode idx :
  StronglySorted (λ l l', subnet_of l ≤ subnet_of l') idx →
  Forall (λ l, 0 < subnet_of l) idx →
  let leases := filter (λ l, selected mode (subnet_of l) = true) idx in
  let rows := start subnet_of kind_of kinds mode idx in
  NoDup (row_key <$> rows) ∧
  (∀ id k n, mkRow id k n ∈ rows ↔ k ∈ kinds ∧ 0 < n ∧ n = counted leases id k) ∧
  (∀ k, k ∈ kinds → row_total k rows = counted_all leases k).
Proof using Hkinds.
  intros Hs Hpos leases rows.
  assert (StronglySorted (λ l l', subnet_of l ≤ subnet_of l') leases) as Hs'.
  { subst leases. clear -Hs. induction Hs as [|l idx Hs IH Hl]; [constructor|].
    rewrite filter_cons. case_decide; [|done]. constructor; [done|].
    apply Forall_forall. intros x [_ Hx]%list_elem_of_filter. rewrite Forall_forall in Hl. auto. }
  assert (Forall (λ l, 0 ≤ subnet_of l ∧ 0 < subnet_of l) leases) as Hle.
  { apply Forall_forall. intros x [_ Hx]%list_elem_of_filter.
    rewrite Forall_forall in Hpos. specialize (Hpos x Hx). cbn in Hpos. lia. }
  destruct (count_loop_spec leases 0 (λ _, 0) [] ltac:(lia) ltac:(intros; lia) ltac:(done) Hs' Hle)
    as (R & E & H1 & _ & H3 & H4).
  assert (rows = R) as ->.
  { subst rows. unfold start. fold leases. destruct leases as [|l ls]; [|exact E].
    symmetry. rewrite <- (app_nil_l R), <- E. cbn. unfold make_rows. clear.
    by induction kinds. }
  split_and!; [done|..].
  - intros id k n. rewrite H3. case_decide; by rewrite Z.add_0_l.
  - intros k Hk. by rewrite H4.
Qed.
End Counted.

(** ** What recounting sets the statistics to *)

Abbreviation Values := (string → Z).

Definition extensional (F : Values → Values) : Prop :=
  ∀ v w, (∀ n, v n = w n) → ∀ n, F v n = F w n.

Lemma acts_for_each {A} (f : A → ST StatContext unit) (F : A → Values → Values) l :
  (∀ x, x ∈ l → acts (f x) tt (F x) ∧ extensional (F x)) →
  acts (for_each f l) tt (λ v, foldl (λ v x, F x v) v l) ∧
  extensional (λ v, foldl (λ v x, F x v) v l).
Proof.
  induction l as [|x l IH]; intros H; cbn [for_each foldl].
  { split; [apply acts_ret|by intros v w]. }
  destruct (H x ltac:(left)) as [Hx Hex].
  destruct IH as [IH1 IH2]; [by intros y Hy; apply H; right|]. split.
  - exact (acts_bind _ _ _ _ _ _ IH2 Hx IH1).
  - intros v w E n. apply IH2. by apply Hex.
Qed.

Lemma put_stat_ext name z : extensional (put_stat name z).
Proof. intros v w E n. unfold put_stat. by rewrite E. Qed.

(** Setting a list of statistics to 0. *)
Definition zeros (names : list string) (v : Values) : Values :=
  foldl (λ v n, put_stat n 0 v) v names.

Lemma zeros_spec names v n : zeros names v n = if decide (n ∈ names) then 0 else v n.
Proof.
  unfold zeros. revert v. induction names as [|m names IH]; intros v; cbn [foldl].
  { by rewrite decide_False by apply not_elem_of_nil. }
  rewrite IH. unfold put_stat. destruct (decide (n ∈ names)) as [H|H].
  { rewrite decide_True; [done|by right]. }
  destruct (decide (n = m)) as [->|Hne].
  - rewrite decide_True; [done|by left].
  - rewrite decide_False; [done|]. by intros [?|?]%elem_of_cons.
Qed.

Lemma zeros_ext names : extensional (zeros names).
Proof. intros v w E n. rewrite !zeros_spec. by rewrite E. Qed.

Lemma acts_zeros now (f : string → string) names :
  acts (for_each (λ n, set_stat now (f n) 0) names) tt (zeros (f <$> names)).
Proof.
  assert (∀ v, foldl (λ v n, put_stat (f n) 0 v) v names = zeros (f <$> names) v) as E.
  { unfold zeros. induction names as [|n names IH]; intros v; [done|]. cbn. apply IH. }
  intros c Hc Hint.
  destruct (proj1 (acts_for_each (λ n, set_stat now (f n) 0) (λ n, put_stat (f n) 0) names
    ltac:(intros; split; [apply acts_set|apply put_stat_ext])) c Hc Hint) as (c' & ? & ? & ? & Hv).
  exists c'. split_and!; [done..|]. intros n. by rewrite Hv, E.
Qed.

(** The names of the statistics of subnets. *)
Definition subnet_names (names : list string) (ids : list Z) : list string :=
  ids ≫= λ id, generateName "subnet" id <$> names.

Lemma elem_of_subnet_names names ids id n :
  generateName "subnet" id n ∈ subnet_names names ids ↔ id ∈ ids ∧ n ∈ names.
Proof.
  unfold subnet_names. rewrite list_elem_of_bind. split.
  - intros (i & Hn & Hi). apply list_elem_of_fmap in Hn as (m & E & Hm).
    by apply generateName_inj in E as [-> ->].
  - intros [Hi Hn]. exists id. split; [|done]. by apply list_elem_of_fmap_2.
Qed.

Lemma elem_of_subnet_names_inv names ids n :
  n ∈ subnet_names names ids → ∃ id m, n = generateName "subnet" id m.
Proof.
  unfold subnet_names. rewrite list_elem_of_bind. intros (i & Hn & _).
  apply list_elem_of_fmap in Hn as (m & -> & _). by eexists _, _.
Qed.

Lemma acts_zero_subnets (f : Z → ST StatContext unit) names ids :
  (∀ id, acts (f id) tt (zeros (generateName "subnet" id <$> names))) →
  acts (for_each f ids) tt (zeros (subnet_names names ids)).
Proof.
  intros Hf. assert (∀ v, foldl (λ v id, zeros (generateName "subnet" id <$> names) v) v ids
                          = zeros (subnet_names names ids) v) as E.
  { unfold zeros, subnet_names. induction ids as [|id ids IH]; intros v; [done|]. cbn.
    rewrite IH. by rewrite foldl_app. }
  intros c Hc Hint.
  destruct (proj1 (acts_for_each f _ ids
    ltac:(intros; split; [apply Hf|apply zeros_ext])) c Hc Hint) as (c' & ? & ? & ? & Hv).
  exists c'. split_and!; [done..|]. intros n. by rewrite Hv, E.
Qed.

Section Rows.
Context {K : Type} `{!EqDecision K}.
(** The statistic that has the number of leases of a kind, and the kind that has a global
    statistic too. *)
Context (name_of : K → string) (declined : K) (kinds : list K).
Context (Hinj : ∀ k k', k ∈ kinds → k' ∈ kinds → name_of k = name_of k' → k = k').

Definition row_name (r : LeaseStatsRow K) : string :=
  generateName "subnet" (row_subnet_id_ r) (name_of (row_kind r)).
Definition row_effect (r : LeaseStatsRow K) (v : Values) : Values :=
  let v := put_stat (row_name r) (state_count_ r) v in
  if decide (row_kind r = declined) then
    put_stat "declined-addresses" (v "declined-addresses" + state_count_ r) v
  else v.

Lemma row_effect_ext r : extensional (row_effect r).
Proof.
  intros v w E n. unfold row_effect, put_stat. case_decide; repeat case_decide; rewrite ?E; done.
Qed.

Lemma row_effect_other r v n :
  n ≠ row_name r → n ≠ "declined-addresses" → row_effect r v n = v n.
Proof.
  intros Hn Hd. unfold row_effect, put_stat.
  case_decide; [rewrite (decide_False (P := n = "declined-addresses"%string)) by done|];
    by rewrite decide_False.
Qed.

Lemma row_effect_own r v : row_effect r v (row_name r) = state_count_ r.
Proof.
  unfold row_effect, put_stat. case_decide; [|by rewrite decide_True].
  rewrite decide_False by done. by rewrite decide_True.
Qed.

Lemma row_effect_declined r v :
  row_effect r v "declined-addresses" =
  v "declined-addresses" + (if decide (row_kind r = declined) then state_count_ r else 0).
Proof.
  unfold row_effect, put_stat.
  assert ("declined-addresses" ≠ row_name r) as Hne by done.
  case_decide; [rewrite decide_True by done|]; rewrite decide_False by done; lia.
Qed.

Lemma rows_effect (rows : list (LeaseStatsRow K)) : ∀ v,
  NoDup (row_key <$> rows) → (∀ r, r ∈ rows → row_kind r ∈ kinds) →
  let v' := foldl (λ v r, row_effect r v) v rows in
  (v' "declined-addresses" = v "declined-addresses" + row_total declined rows) ∧
  (∀ r, r ∈ rows → v' (row_name r) = state_count_ r) ∧
  (∀ n, n ∉ row_name <$> rows → n ≠ "declined-addresses" → v' n = v n).
Proof using Hinj.
  induction rows as [|r rows IH]; intros v Hnd Hk; cbn [foldl].
  { split_and!; [cbn; lia|by intros ? ?%not_elem_of_nil|done]. }
  rewrite fmap_cons in Hnd. apply NoDup_cons in Hnd as [Hr Hnd].
  destruct (IH (row_effect r v) Hnd) as (I1 & I2 & I3); [by intros r' Hr'; apply Hk; right|].
  assert (row_name r ∉ row_name <$> rows) as Hfresh.
  { intros Hin. apply list_elem_of_fmap in Hin as (r' & E & Hr'). apply Hr.
    apply generateName_inj in E as [Eid E]. apply Hinj in E; [|apply Hk; by left|apply Hk; by right].
    apply list_elem_of_fmap. exists r'. split; [|done]. unfold row_key. by rewrite Eid, E. }
  split_and!.
  - rewrite I1, row_effect_declined, row_total_cons. lia.
  - intros r' [->|Hr']%elem_of_cons; [|by apply I2].
    rewrite I3 by done. apply row_effect_own.
  - intros n Hn Hd. rewrite fmap_cons in Hn. apply not_elem_of_cons in Hn as [??].
    rewrite I3 by done. by apply row_effect_other.
Qed.
End Rows.

Section Recounted.
Context {L K : Type} `{!EqDecision K}.
Context (subnet_of : L → Z) (kind_of : L → option K) (kinds : list K) (Hkinds : NoDup kinds).
Context (name_of : K → string) (declined : K) (Hdeclined : declined ∈ kinds).
Context (Hinj : ∀ k k', k ∈ kinds → k' ∈ kinds → name_of k = name_of k' → k = k').
(** The program: what it sets to 0 for a subnet and what it does with a row. *)
Context (now : Z) (names : list string) (Hnames : ∀ k, k ∈ kinds → name_of k ∈ names).
Context (zero_subnet : Z → ST StatContext unit) (count_row : LeaseStatsRow K → ST StatContext unit).
Context (Hzero : ∀ id, acts (zero_subnet id) tt (zeros (generateName "subnet" id <$> names))).
Context (Hrow : ∀ r, row_kind r ∈ kinds → acts (count_row r) tt (row_effect name_of declined r)).

Definition recount (rows : list (LeaseStatsRow K)) (ids : list Z) : ST StatContext unit :=
  _ ← set_stat now "declined-addresses" 0;
  _ ← set_stat now "reclaimed-declined-addresses" 0;
  _ ← set_stat now "reclaimed-leases" 0;
  _ ← for_each zero_subnet ids;
  for_each count_row rows.

Definition globals : list string :=
  ["declined-addresses"; "reclaimed-declined-addresses"; "reclaimed-leases"]%string.

Lemma recount_acts rows ids :
  (∀ r, r ∈ rows → row_kind r ∈ kinds) →
  acts (recount rows ids) tt
    (λ v, foldl (λ v r, row_effect name_of declined r v)
            (zeros (subnet_names names ids) (zeros globals v)) rows).
Proof using All.
  intros Hr. destruct (acts_for_each count_row (row_effect name_of declined) rows) as [Ha Hex].
  { intros r Hin. split; [by apply Hrow, Hr|apply row_effect_ext]. }
  assert (extensional (λ v, foldl (λ v r, row_effect name_of declined r v)
            (zeros (subnet_names names ids) v) rows)) as Hex1.
  { intros v w E n. apply Hex. by apply zeros_ext. }
  unfold recount, globals, zeros at 2. cbn [foldl].
  apply (acts_bind _ tt (put_stat "declined-addresses" 0) _ tt (λ v,
    foldl (λ v r, row_effect name_of declined r v) (zeros (subnet_names names ids)
      (put_stat "reclaimed-leases" 0 (put_stat "reclaimed-declined-addresses" 0 v))) rows)).
  { intros v w E n. apply Hex1. intros m. do 2 apply put_stat_ext. done. }
  { apply acts_set. }
  apply (acts_bind _ tt (put_stat "reclaimed-declined-addresses" 0) _ tt (λ v,
    foldl (λ v r, row_effect name_of declined r v) (zeros (subnet_names names ids)
      (put_stat "reclaimed-leases" 0 v)) rows)).
  { intros v w E n. apply Hex1. intros m. by apply put_stat_ext. }
  { apply acts_set. }
  apply (acts_bind _ tt (put_stat "reclaimed-leases" 0) _ tt (λ v,
    foldl (λ v r, row_effect name_of declined r v) (zeros (subnet_names names ids) v) rows));
    [done|apply acts_set|].
  apply (acts_bind _ tt (zeros (subnet_names names ids)) _ tt (λ v,
    foldl (λ v r, row_effect name_of declined r v) v rows)); [done| |exact Ha].
  by apply acts_zero_subnets.
Qed.

(** After recounting from the rows of all subnets. *)
Lemma recount_spec idx ids c :
  StronglySorted (λ l l', subnet_of l ≤ subnet_of l') idx →
  Forall (λ l, 0 < subnet_of l) idx →
  wf_context c → (∀ n, int_stat c n) →
  ∃ c', recount (start subnet_of kind_of kinds ALL_SUBNETS idx) ids c = (c', Ok tt) ∧
    wf_context c' ∧ (∀ n, int_stat c' n) ∧
    stat_int c' "declined-addresses" = counted_all kind_of idx declined ∧
    (∀ id k, k ∈ kinds →
      stat_int c' (generateName "subnet" id (name_of k)) =
        if decide (0 < counted subnet_of kind_of idx id k) then counted subnet_of kind_of idx id k
        else if decide (id ∈ ids) then 0 else stat_int c (generateName "subnet" id (name_of k))) ∧
    (∀ id n, id ∈ ids → n ∈ names → n ∉ name_of <$> kinds →
      stat_int c' (generateName "subnet" id n) = 0).
Proof using All.
  intros Hs Hpos Hc Hint.
  pose proof (start_counts subnet_of kind_of kinds Hkinds ALL_SUBNETS idx Hs Hpos) as Hstart.
  cbn zeta in Hstart. assert (filter (λ l, selected ALL_SUBNETS (subnet_of l) = true) idx = idx) as Ef.
  { clear. induction idx as [|l idx IH]; [done|]. rewrite filter_cons, IH. done. }
  rewrite Ef in Hstart. clear Ef.
  set (rows := start subnet_of kind_of kinds ALL_SUBNETS idx) in *.
  destruct Hstart as (H1 & H2 & H3).
  assert (∀ r, r ∈ rows → row_kind r ∈ kinds) as Hk.
  { intros [id k n] Hr. by apply H2 in Hr as (? & _). }
  destruct (recount_acts rows ids Hk c Hc Hint) as (c' & E & Hc' & Hi' & Hv).
  destruct (rows_effect name_of declined kinds Hinj rows
    (zeros (subnet_names names ids) (zeros globals (stat_int c))) H1 Hk) as (R1 & R2 & R3).
  exists c'. split_and!; [done|done|done|..].
  - rewrite Hv, R1, H3, !zeros_spec by done.
    rewrite (decide_True (P := _ ∈ globals)) by (by left). by destruct (decide _).
  - intros id k Hin. rewrite Hv. case_decide as Hn.
    + apply (R2 (mkRow id k (counted subnet_of kind_of idx id k))). by apply H2.
    + rewrite R3; [| |done].
      * rewrite !zeros_spec. rewrite (decide_False (P := _ ∈ globals)).
        2: { unfold globals. by rewrite !elem_of_cons, elem_of_nil; intros [|[|[|]]]. }
        apply decide_ext. rewrite elem_of_subnet_names. naive_solver.
      * intros Hf. apply list_elem_of_fmap in Hf as ([id' k' n] & Ef & Hr).
        apply generateName_inj in Ef as [-> Ef]. apply H2 in Hr as (Hk' & Hpos' & ->).
        apply Hinj in Ef as ->; done.
  - intros id n Hid Hn Hnot. rewrite Hv, R3; [| |done].
    + rewrite zeros_spec, decide_True; [done|]. by apply elem_of_subnet_names.
    + intros Hf. apply list_elem_of_fmap in Hf as ([id' k' m] & Ef & Hr).
      apply generateName_inj in Ef as [_ ->]. apply Hnot, list_elem_of_fmap_2. by apply (Hk _ Hr).
Qed.
End Recounted.

Lemma counted_perm {L K} `{!EqDecision K} subnet_of (kind_of : L → option K) l l' id k :
  l ≡ₚ l' → counted subnet_of kind_of l id k = counted subnet_of kind_of l' id k.
Proof. intros E. unfold counted. by rewrite E. Qed.
Lemma counted_all_perm {L K} `{!EqDecision K} (kind_of : L → option K) l l' k :
  l ≡ₚ l' → counted_all kind_of l k = counted_all kind_of l' k.
Proof. intros E. unfold counted_all. by rewrite E. Qed.

Lemma counted_if {L K} `{!EqDecision K} subnet_of (kind_of : L → option K) l id k (x : Z) :
  x = 0 →
  (if decide (0 < counted subnet_of kind_of l id k) then counted subnet_of kind_of l id k else x)
  = counted subnet_of kind_of l id k.
Proof.
  intros ->. pose proof (counted_nonneg subnet_of kind_of l id k). case_decide; lia.
Qed.

Definition leases_of {L S R} `{LeaseStorageLaws L S} (m : Memfile S R) : list L :=
  (map_to_list (contents m)).*2.

Lemma by_subnet {L S R} `{H : LeaseStorageLaws L S} (subnet_of : L → Z)
    `{!SubnetIdIndex L S} `{!SubnetIdIndexLaws subnet_of S} (m : Memfile S R) :
  (∀ l, l ∈ leases_of m → 0 < subnet_of l) →
  st_by_subnet (storage_ m) ≡ₚ leases_of m ∧
  StronglySorted (λ l l', subnet_of l ≤ subnet_of l') (st_by_subnet (storage_ m)) ∧
  Forall (λ l, 0 < subnet_of l) (st_by_subnet (storage_ m)).
Proof.
  intros Hpos. pose proof (st_by_subnet_perm (subnet_of := subnet_of) (storage_ m)) as Hp.
  split_and!; [done|by apply st_by_subnet_sorted|].
  apply Forall_forall. intros l Hl. apply Hpos. unfold leases_of, contents. by rewrite <- Hp.
Qed.

(** ** The theorems *)

(** Evaluates a decidable statement without variables. *)
#[local] Ltac decided := apply (bool_decide_unpack _); vm_compute; exact I.

Definition name4 (state : Z) : string :=
  if state =? STATE_DEFAULT then "assigned-addresses" else "declined-addresses".
Definition name6 (k : LeaseType * Z) : string :=
  if snd k =? STATE_DEFAULT then
    match fst k with TYPE_PD => "assigned-pds" | _ => "assigned-nas" end
  else "declined-addresses".

Lemma count_row4_acts now r :
  row_kind r ∈ kinds4 → acts (count_row4 now r) tt (row_effect name4 STATE_DECLINED r).
Proof.
  intros Hk. destruct r as [id k n]. cbn in Hk.
  apply elem_of_cons in Hk as [->|[->|[]%not_elem_of_nil]%elem_of_cons];
    unfold count_row4, row_effect, row_name, name4; cbn [row_kind row_subnet_id_ state_count_ Z.eqb
      STATE_DEFAULT STATE_DECLINED].
  - apply acts_set.
  - apply (acts_bind _ tt (put_stat (generateName "subnet" id "declined-addresses") n) _ tt
      (λ v, put_stat "declined-addresses" (v "declined-addresses" + n) v));
      [|apply acts_set|apply acts_add].
    intros v w E m. unfold put_stat. case_decide; by rewrite E.
Qed.

Lemma count_row6_acts now r :
  row_kind r ∈ kinds6 → acts (count_row6 now r) tt (row_effect name6 (TYPE_NA, STATE_DECLINED) r).
Proof.
  intros Hk. destruct r as [id k n]. cbn in Hk.
  apply elem_of_cons in Hk as [->|[->|[->|[]%not_elem_of_nil]%elem_of_cons]%elem_of_cons];
    unfold count_row6, row_effect, row_name, name6; cbn [row_kind row_subnet_id_ state_count_ Z.eqb
      STATE_DEFAULT STATE_DECLINED fst snd].
  - intros c Hc Hint.
    destruct (acts_set now (generateName "subnet" id "assigned-nas") n c Hc Hint)
      as (c' & E & H). exists c'. split; [|exact H].
    unfold set_stat. unfold mbind, ST_bind. by rewrite E.
  - enough (acts (_ ← set_stat now (generateName "subnet" id "declined-addresses") n;
                  add_stat now "declined-addresses" n) tt (λ v,
        put_stat "declined-addresses" (put_stat (generateName "subnet" id "declined-addresses") n v
          "declined-addresses" + n) (put_stat (generateName "subnet" id "declined-addresses") n v)))
      as H by exact H.
    apply (acts_bind _ tt (put_stat (generateName "subnet" id "declined-addresses") n) _ tt
      (λ v, put_stat "declined-addresses" (v "declined-addresses" + n) v));
      [|apply acts_set|apply acts_add].
    intros v w E m. unfold put_stat. case_decide; by rewrite E.
  - apply acts_set.
Qed.


Lemma names4 k : k ∈ kinds4 → name4 k ∈ zeroed4.
Proof. intros [->|[->|[]%not_elem_of_nil]%elem_of_cons]%elem_of_cons; decided. Qed.
Lemma names6 k : k ∈ kinds6 → name6 k ∈ zeroed6.
Proof.
  intros [->|[->|[->|[]%not_elem_of_nil]%elem_of_cons]%elem_of_cons]%elem_of_cons; decided.
Qed.

Lemma name4_inj k k' : k ∈ kinds4 → k' ∈ kinds4 → name4 k = name4 k' → k = k'.
Proof.
  intros [->|[->|[]%not_elem_of_nil]%elem_of_cons]%elem_of_cons
    [->|[->|[]%not_elem_of_nil]%elem_of_cons]%elem_of_cons; done.
Qed.
Lemma name6_inj k k' : k ∈ kinds6 → k' ∈ kinds6 → name6 k = name6 k' → k = k'.
Proof.
  intros [->|[->|[->|[]%not_elem_of_nil]%elem_of_cons]%elem_of_cons]%elem_of_cons
    [->|[->|[->|[]%not_elem_of_nil]%elem_of_cons]%elem_of_cons]%elem_of_cons; done.
Qed.

(** Recounting sets, for each configured IPv4 subnet, the statistics of assigned and of
    declined addresses to the numbers of leases of the database in the default and in the
    declined state, the statistics of reclaimed leases to 0, and the global statistic of
    declined addresses to the number of declined leases; it never fails. *)
Theorem recountLeaseStats4_spec {S} `{!LeaseStorage Lease4 S} `{!LeaseStorageLaws Lease4 S}
    `{!SubnetIdIndex Lease4 S} `{!SubnetIdIndexLaws subnet_id_ S} (m : Memfile4 S) (now : Z)
    (subnets : list Z) (c : StatContext) (Hc : wf_context c) (Hint : ∀ n, int_stat c n)
    (Hpos : ∀ l, l ∈ leases_of m → 0 < subnet_id_ l) :
  ∃ c', recountLeaseStats4 now (Some (startLeaseStatsQuery4 m)) subnets c = (c', Ok tt) ∧
    wf_context c' ∧
    stat_int c' "declined-addresses" = counted_all kind4 (leases_of m) STATE_DECLINED ∧
    ∀ id, id ∈ subnets →
      stat_int c' (generateName "subnet" id "assigned-addresses") =
        counted subnet_id_ kind4 (leases_of m) id STATE_DEFAULT ∧
      stat_int c' (generateName "subnet" id "declined-addresses") =
        counted subnet_id_ kind4 (leases_of m) id STATE_DECLINED ∧
      stat_int c' (generateName "subnet" id "reclaimed-declined-addresses") = 0 ∧
      stat_int c' (generateName "subnet" id "reclaimed-leases") = 0.
Proof.
  destruct (by_subnet subnet_id_ m Hpos) as (Hp & Hs & Hpos').
  destruct (recount_spec subnet_id_ kind4 kinds4 ltac:(decided) name4 STATE_DECLINED
    ltac:(decided) name4_inj now zeroed4 names4 (zero_subnet4 now) (count_row4 now)
    (λ id, acts_zeros now (generateName "subnet" id) _) (count_row4_acts now)
    _ subnets c Hs Hpos' Hc Hint) as (c' & E & Hc' & _ & Hd & Hkinds & Hzero).
  exists c'. split; [exact E|]. split; [done|]. split; [by rewrite Hd; apply counted_all_perm|].
  intros id Hid.
  pose proof (Hkinds id STATE_DEFAULT ltac:(decided)) as H1.
  pose proof (Hkinds id STATE_DECLINED ltac:(decided)) as H2.
  rewrite counted_if in H1, H2 by (by rewrite decide_True).
  split_and!; [by rewrite <- (counted_perm _ _ _ _ _ _ Hp)|by rewrite <- (counted_perm _ _ _ _ _ _ Hp)|..];
    apply Hzero; first [done|decided].
Qed.

(** Recounting IPv6 leases sets the statistics of each configured subnet to the numbers of
    its assigned addresses, declined addresses and delegated prefixes, and the global
    statistic of declined addresses to their number; it never fails. *)
Theorem recountLeaseStats6_spec {S} `{!LeaseStorage Lease6 S} `{!LeaseStorageLaws Lease6 S}
    `{!SubnetIdIndex Lease6 S} `{!SubnetIdIndexLaws subnet_id6_ S} (m : Memfile6 S) (now : Z)
    (subnets : list Z) (c : StatContext) (Hc : wf_context c) (Hint : ∀ n, int_stat c n)
    (Hpos : ∀ l, l ∈ leases_of m → 0 < subnet_id6_ l) :
  ∃ c', recountLeaseStats6 now (Some (startLeaseStatsQuery6 m)) subnets c = (c', Ok tt) ∧
    wf_context c' ∧
    stat_int c' "declined-addresses" = counted_all kind6 (leases_of m) (TYPE_NA, STATE_DECLINED) ∧
    ∀ id, id ∈ subnets →
      stat_int c' (generateName "subnet" id "assigned-nas") =
        counted subnet_id6_ kind6 (leases_of m) id (TYPE_NA, STATE_DEFAULT) ∧
      stat_int c' (generateName "subnet" id "declined-addresses") =
        counted subnet_id6_ kind6 (leases_of m) id (TYPE_NA, STATE_DECLINED) ∧
      stat_int c' (generateName "subnet" id "assigned-pds") =
        counted subnet_id6_ kind6 (leases_of m) id (TYPE_PD, STATE_DEFAULT) ∧
      stat_int c' (generateName "subnet" id "reclaimed-leases") = 0.
Proof.
  destruct (by_subnet subnet_id6_ m Hpos) as (Hp & Hs & Hpos').
  destruct (recount_spec subnet_id6_ kind6 kinds6 ltac:(decided) name6 (TYPE_NA, STATE_DECLINED)
    ltac:(decided) name6_inj now zeroed6 names6 (zero_subnet6 now) (count_row6 now)
    (λ id, acts_zeros now (generateName "subnet" id) _) (count_row6_acts now)
    _ subnets c Hs Hpos' Hc Hint) as (c' & E & Hc' & _ & Hd & Hkinds & Hzero).
  exists c'. split; [exact E|]. split; [done|]. split; [by rewrite Hd; apply counted_all_perm|].
  intros id Hid.
  pose proof (Hkinds id (TYPE_NA, STATE_DEFAULT) ltac:(decided)) as H1.
  pose proof (Hkinds id (TYPE_NA, STATE_DECLINED) ltac:(decided)) as H2.
  pose proof (Hkinds id (TYPE_PD, STATE_DEFAULT) ltac:(decided)) as H3.
  rewrite counted_if in H1, H2, H3 by (by rewrite decide_True).
  split_and!; try (by rewrite <- (counted_perm _ _ _ _ _ _ Hp)).
  apply Hzero; first [done|decided].
Qed.

(** ** Recounting and the counts that the servers keep *)

(** Every state of a lease is one of the three. *)
Definition known_state (l : Lease4) : Prop :=
  state_ l = STATE_DEFAULT ∨ state_ l = STATE_DECLINED ∨ state_ l = STATE_EXPIRED_RECLAIMED.

#[export] Instance known_state_dec l : Decision (known_state l).
Proof. unfold known_state. apply _. Defined.

Lemma in_use_counted id (m : gmap IOAddress Lease4) :
  map_Forall (λ _, known_state) m →
  in_use id m = counted subnet_id_ kind4 (map_to_list m).*2 id STATE_DEFAULT
                + counted subnet_id_ kind4 (map_to_list m).*2 id STATE_DECLINED.
Proof.
  induction m as [|a l m Ha IH] using map_ind; intros Hm; [done|].
  apply map_Forall_insert in Hm as [Hl Hm]; [|done].
  rewrite in_use_insert, in_use_delete_none, IH by done.
  assert ((map_to_list (<[a := l]> m)).*2 ≡ₚ l :: (map_to_list m).*2) as E.
  { by rewrite map_to_list_insert. }
  rewrite !(counted_perm _ _ _ _ _ _ E), !counted_cons. unfold counts_for, kind4, stateExpiredReclaimed.
  destruct Hl as [-> | [-> | ->]]; cbn; repeat case_decide; naive_solver lia.
Qed.

(** A declined address still counts as assigned for the servers, which reduce the
    statistic of assigned addresses when a declined lease is reclaimed
    ([reclaim_keeps_balance]); recounting leaves these addresses out, so that afterwards
    the statistic is too small by the number of declined leases. *)
Theorem recount_misses_declined {S} `{!LeaseStorage Lease4 S} `{!LeaseStorageLaws Lease4 S}
    `{!SubnetIdIndex Lease4 S} `{!SubnetIdIndexLaws subnet_id_ S} (m : Memfile4 S) (now : Z)
    (subnets : list Z) (c : StatContext) (id : Z) (Hc : wf_context c) (Hint : ∀ n, int_stat c n)
    (Hpos : ∀ l, l ∈ leases_of m → 0 < subnet_id_ l)
    (Hstates : map_Forall (λ _, known_state) (contents m)) (Hid : id ∈ subnets) :
  ∃ c', recountLeaseStats4 now (Some (startLeaseStatsQuery4 m)) subnets c = (c', Ok tt) ∧
    stat_int c' (assigned id) =
      in_use id (contents m) - counted subnet_id_ kind4 (leases_of m) id STATE_DECLINED.
Proof.
  destruct (by_subnet subnet_id_ m Hpos) as (Hp & Hs & Hpos').
  destruct (recount_spec subnet_id_ kind4 kinds4 ltac:(decided) name4 STATE_DECLINED
    ltac:(decided) name4_inj now zeroed4 names4 (zero_subnet4 now) (count_row4 now)
    (λ id, acts_zeros now (generateName "subnet" id) _) (count_row4_acts now)
    _ subnets c Hs Hpos' Hc Hint) as (c' & E & _ & _ & _ & Hkinds & _).
  exists c'. split; [exact E|].
  pose proof (Hkinds id STATE_DEFAULT ltac:(decided)) as H1.
  rewrite counted_if in H1 by (by rewrite decide_True).
  change (assigned id) with (generateName "subnet" id (name4 STATE_DEFAULT)).
  rewrite H1, (counted_perm _ _ _ _ _ _ Hp), in_use_counted by done. unfold leases_of. lia.
Qed.

(** ** The theorems at a concrete database *)

Section ListIndex.
Context {L : Type} `{StoredLease L} (subnet_of : L → Z).

Definition subnet_le (l l' : L) : Prop := subnet_of l ≤ subnet_of l'.
#[export] Instance subnet_le_dec (l l' : L) : Decision (subnet_le l l').
Proof. unfold subnet_le. apply _. Defined.
#[export] Instance subnet_le_total : Total subnet_le.
Proof. intros l l'. unfold subnet_le. lia. Qed.
#[export] Instance subnet_le_transitive : Transitive subnet_le.
Proof. intros l l' l''. unfold subnet_le. lia. Qed.

Definition list_index : SubnetIdIndex L (ListStorage L) :=
  {| st_by_subnet s := merge_sort subnet_le (map_to_list (list_leases s)).*2 |}.

Lemma list_index_laws : SubnetIdIndexLaws subnet_of (ListStorage L) (H2 := list_index).
Proof.
  split; intros s.
  - cbn. by rewrite merge_sort_Permutation.
  - cbn. exact (StronglySorted_merge_sort subnet_le _).
Qed.
End ListIndex.

#[local] Instance list_index4 : SubnetIdIndex Lease4 ListStorage4 := list_index subnet_id_.
#[local] Instance list_index4_laws : SubnetIdIndexLaws subnet_id_ ListStorage4 :=
  list_index_laws subnet_id_.
#[local] Instance list_index6 : SubnetIdIndex Lease6 (ListStorage Lease6) := list_index subnet_id6_.
#[local] Instance list_index6_laws : SubnetIdIndexLaws subnet_id6_ (ListStorage Lease6) :=
  list_index_laws subnet_id6_.

(** One lease in use and one that was declined. *)
Definition declined_lease : Lease4 :=
  with_state (mkLease4 (V4 0xC000020B) None None 4000 0 0 1500000000 1 false false "")
    STATE_DECLINED.
Definition two_leases : Memfile4 ListStorage4 :=
  {| storage_ := [sample_lease; declined_lease]; lease_file_ := []; persistLeases := false |}.

Lemma recountLeaseStats4_spec_witness :
  ∃ c', recountLeaseStats4 0 (Some (startLeaseStatsQuery4 two_leases)) [1] ∅ = (c', Ok tt) ∧
    stat_int c' (generateName "subnet" 1 "assigned-addresses") = 1 ∧
    stat_int c' "declined-addresses" = 1.
Proof.
  assert (wf_context ∅) as Hc by apply map_Forall_empty.
  destruct (recountLeaseStats4_spec two_leases 0 [1] ∅ Hc (λ _, I)) as (c' & E & _ & Hd & H).
  { apply Forall_forall, (bool_decide_unpack _). vm_compute. exact I. }
  exists c'. split; [exact E|]. split.
  - rewrite (proj1 (H 1 ltac:(left))). vm_compute. reflexivity.
  - rewrite Hd. vm_compute. reflexivity.
Defined.

Lemma recountLeaseStats6_spec_witness :
  ∃ c', recountLeaseStats6 0 (Some (startLeaseStatsQuery6 sample_memfile6)) [subnet_id6_ sample_lease6]
          ∅ = (c', Ok tt) ∧
    stat_int c' (generateName "subnet" (subnet_id6_ sample_lease6) "assigned-nas") = 1.
Proof.
  assert (wf_context ∅) as Hc by apply map_Forall_empty.
  destruct (recountLeaseStats6_spec sample_memfile6 0 [subnet_id6_ sample_lease6] ∅ Hc (λ _, I))
    as (c' & E & _ & _ & H).
  { apply Forall_forall, (bool_decide_unpack _). vm_compute. exact I. }
  exists c'. split; [exact E|].
  rewrite (proj1 (H _ ltac:(left))). vm_compute. reflexivity.
Defined.

Lemma recount_misses_declined_witness :
  ∃ c', recountLeaseStats4 0 (Some (startLeaseStatsQuery4 two_leases)) [1] ∅ = (c', Ok tt) ∧
    in_use 1 (contents two_leases) = 2 ∧ stat_int c' (assigned 1) = 1.
Proof.
  assert (wf_context ∅) as Hc by apply map_Forall_empty.
  destruct (recount_misses_declined two_leases 0 [1] ∅ 1 Hc (λ _, I)) as (c' & E & H).
  - apply Forall_forall, (bool_decide_unpack _). vm_compute. exact I.
  - apply (bool_decide_unpack _). vm_compute. exact I.
  - left.
  - exists c'. split; [exact E|]. split; [vm_compute; reflexivity|].
    rewrite H. vm_compute. reflexivity.
Defined.

(** [removeStatistics] of the subnets of a configuration leaves the statistic of reclaimed
    declined addresses, which it calls "declined-reclaimed-addresses". *)
Theorem removeStatistics_leaves_reclaimed :
  let c := fst (recountLeaseStats4 0 (Some []) [1] ∅) in
  fst (removeStatistics4 [sample_subnet] c) !! generateName "subnet" 1 "reclaimed-declined-addresses"
    ≠ None ∧
  fst (removeStatistics4 [sample_subnet] c) !! generateName "subnet" 1 "assigned-addresses" = None.
Proof. split; vm_compute; [intros [=]|reflexivity]. Qed.
