(* ===== verification/AllocEngine6.v ===== *)
(** * The DHCPv6 allocation engine ([src/lib/dhcpsrv/alloc_engine.cc])

    The half of the engine that handles [ClientContext6]: a message asks for leases of an
    identity association (IA), for addresses or for prefixes.  The state and the hook
    libraries are modelled as in [AllocEngine4].  A collection of leases is a list of
    pointers; some of the code puts null pointers into it, so its elements are options, and
    following a null pointer is undefined behaviour.  The leases a backend returns are
    copies, so that a lease in the collection is changed by giving the collection back with
    the new value. *)

From S2P Require Import D2ClientMgr.
From S2P Require Import Prelude IoAddress Pool Subnet SharedNetwork IterativeAllocator.
From S2P Require Import StatsMgr Lease Lease6 LeaseMgr Host Packet AllocEngine4.
From Stdlib Require Import Ascii.
Local Open Scope Z_scope.

Definition D6O_CLIENT_FQDN : Z := 39.
Definition DHCPV6_RENEW : Z := 5.

(** ** The context of a message *)

(** [ClientContext6::IAContext]. *)
Record IAContext := {
  ia_iaid_ : Z;
  ia_type_ : LeaseType;
  hints_ : list (IOAddress * Z);
  old_leases_ : list Lease6;
  changed_leases_ : list Lease6
}.

Definition new_IAContext : IAContext :=
  {| ia_iaid_ := 0; ia_type_ := TYPE_NA; hints_ := []; old_leases_ := [];
     changed_leases_ := [] |}.

Definition addHint (prefix : IOAddress) (prefix_len : Z) (ia : IAContext) : IAContext :=
  {| ia_iaid_ := ia_iaid_ ia; ia_type_ := ia_type_ ia;
     hints_ := hints_ ia ++ [(prefix, prefix_len)]; old_leases_ := old_leases_ ia;
     changed_leases_ := changed_leases_ ia |}.
Definition ia_with_leases (ia : IAContext) (old changed : list Lease6) : IAContext :=
  {| ia_iaid_ := ia_iaid_ ia; ia_type_ := ia_type_ ia; hints_ := hints_ ia;
     old_leases_ := old; changed_leases_ := changed |}.
Definition ia_add_old (l : Lease6) (ia : IAContext) : IAContext :=
  ia_with_leases ia (old_leases_ ia ++ [l]) (changed_leases_ ia).
Definition ia_add_changed (l : Lease6) (ia : IAContext) : IAContext :=
  ia_with_leases ia (old_leases_ ia) (changed_leases_ ia ++ [l]).
Definition ia_clear_old (ia : IAContext) : IAContext :=
  ia_with_leases ia [] (changed_leases_ ia).

Record ClientContext6 := {
  query6_ : Pkt;
  fake_allocation6_ : bool;
  ctx_subnet6_ : option Z;
  host_subnet_ : option Z;
  ctx_duid_ : option (list Z);
  ctx_hwaddr6_ : option HWAddr;
  host_identifiers6_ : list (IdentifierType * list Z);
  ctx_hosts6_ : gmap Z Host;
  fwd_dns_update6_ : bool;
  rev_dns_update6_ : bool;
  ctx_hostname6_ : string;
  callout_handle6_ : bool;
  allocated_resources_ : gset (IOAddress * Z);
  new_leases_ : list Lease6;
  ias_ : list IAContext
}.

Definition mkClientContext6 (subnet : option Z) (duid : option (list Z)) (fwd_dns rev_dns : bool)
    (hostname : string) (fake_allocation : bool) (query : Pkt) (callout_handle : bool) :
    ClientContext6 :=
  {| query6_ := query; fake_allocation6_ := fake_allocation; ctx_subnet6_ := subnet;
     host_subnet_ := None; ctx_duid_ := duid; ctx_hwaddr6_ := None;
     host_identifiers6_ := match duid with Some d => [(IDENT_DUID, d)] | None => [] end;
     ctx_hosts6_ := ∅; fwd_dns_update6_ := fwd_dns; rev_dns_update6_ := rev_dns;
     ctx_hostname6_ := hostname; callout_handle6_ := callout_handle;
     allocated_resources_ := ∅; new_leases_ := []; ias_ := [] |}.

(** What the engine changes in a context. *)
Definition ctx6_with (c : ClientContext6) (subnet host_subnet : option Z) (hosts : gmap Z Host)
    (hostname : string) (allocated : gset (IOAddress * Z)) (new : list Lease6)
    (ias : list IAContext) : ClientContext6 :=
  {| query6_ := query6_ c; fake_allocation6_ := fake_allocation6_ c; ctx_subnet6_ := subnet;
     host_subnet_ := host_subnet; ctx_duid_ := ctx_duid_ c; ctx_hwaddr6_ := ctx_hwaddr6_ c;
     host_identifiers6_ := host_identifiers6_ c; ctx_hosts6_ := hosts;
     fwd_dns_update6_ := fwd_dns_update6_ c; rev_dns_update6_ := rev_dns_update6_ c;
     ctx_hostname6_ := hostname; callout_handle6_ := callout_handle6_ c;
     allocated_resources_ := allocated; new_leases_ := new; ias_ := ias |}.
Definition ctx6_with_subnet (p : option Z) (c : ClientContext6) : ClientContext6 :=
  ctx6_with c p (host_subnet_ c) (ctx_hosts6_ c) (ctx_hostname6_ c) (allocated_resources_ c)
    (new_leases_ c) (ias_ c).
Definition ctx6_with_host_subnet (p : option Z) (c : ClientContext6) : ClientContext6 :=
  ctx6_with c (ctx_subnet6_ c) p (ctx_hosts6_ c) (ctx_hostname6_ c) (allocated_resources_ c)
    (new_leases_ c) (ias_ c).
Definition ctx6_with_hosts (h : gmap Z Host) (c : ClientContext6) : ClientContext6 :=
  ctx6_with c (ctx_subnet6_ c) (host_subnet_ c) h (ctx_hostname6_ c) (allocated_resources_ c)
    (new_leases_ c) (ias_ c).
Definition ctx6_with_hostname (n : string) (c : ClientContext6) : ClientContext6 :=
  ctx6_with c (ctx_subnet6_ c) (host_subnet_ c) (ctx_hosts6_ c) n (allocated_resources_ c)
    (new_leases_ c) (ias_ c).
Definition ctx6_with_ias (l : list IAContext) (c : ClientContext6) : ClientContext6 :=
  ctx6_with c (ctx_subnet6_ c) (host_subnet_ c) (ctx_hosts6_ c) (ctx_hostname6_ c)
    (allocated_resources_ c) (new_leases_ c) l.

Definition addAllocatedResource (prefix : IOAddress) (prefix_len : Z) (c : ClientContext6) :
    ClientContext6 :=
  ctx6_with c (ctx_subnet6_ c) (host_subnet_ c) (ctx_hosts6_ c) (ctx_hostname6_ c)
    ({[(prefix, prefix_len)]} ∪ allocated_resources_ c) (new_leases_ c) (ias_ c).
Definition ctx6_add_new (l : Lease6) (c : ClientContext6) : ClientContext6 :=
  ctx6_with c (ctx_subnet6_ c) (host_subnet_ c) (ctx_hosts6_ c) (ctx_hostname6_ c)
    (allocated_resources_ c) (new_leases_ c ++ [l]) (ias_ c).
Definition isAllocated (prefix : IOAddress) (prefix_len : Z) (c : ClientContext6) : bool :=
  bool_decide ((prefix, prefix_len) ∈ allocated_resources_ c).

(** [currentIA()] creates an IA when there is none; the current one is the last. *)
Definition createIAContext (c : ClientContext6) : ClientContext6 :=
  ctx6_with_ias (ias_ c ++ [new_IAContext]) c.
Definition ensure_ia (c : ClientContext6) : ClientContext6 :=
  match ias_ c with [] => createIAContext c | _ => c end.
Definition current_ia (c : ClientContext6) : IAContext := default new_IAContext (last (ias_ c)).

Definition query_classes6 (c : ClientContext6) : ClientClasses := getClasses false (query6_ c).

Record Hooks6 := {
  lease6_select : option (ClientContext6 → Lease6 → NextStep * Lease6);
  lease6_renew : option (ClientContext6 → Lease6 → NextStep * Lease6);
  lease6_rebind : option (ClientContext6 → Lease6 → NextStep * Lease6);
  lease6_expire : option (bool → Lease6 → NextStep * Lease6);
  lease6_recover : option (Lease6 → NextStep * Lease6)
}.

(** What is fixed while a message is handled, besides [EngineConfig]. *)
Class EngineConfig6 := {
  ncr6_ok : Lease6 → bool;
  qualifying_suffix_ : string;
  hooks6 : Hooks6
}.

Record State6 (M : Type) := {
  heap6 : Heap;
  db6 : M;
  stats6 : StatContext;
  ncrs6 : list NameChangeRequest;
  incomplete_v6_reclamations_ : Z;
  ctx6 : ClientContext6
}.
Arguments heap6 {M}. Arguments db6 {M}. Arguments stats6 {M}. Arguments ncrs6 {M}.
Arguments incomplete_v6_reclamations_ {M}. Arguments ctx6 {M}.

Section State6.
Context {M : Type}.

Definition with_heap6 (h : Heap) (s : State6 M) : State6 M :=
  {| heap6 := h; db6 := db6 s; stats6 := stats6 s; ncrs6 := ncrs6 s;
     incomplete_v6_reclamations_ := incomplete_v6_reclamations_ s; ctx6 := ctx6 s |}.
Definition with_db6 (d : M) (s : State6 M) : State6 M :=
  {| heap6 := heap6 s; db6 := d; stats6 := stats6 s; ncrs6 := ncrs6 s;
     incomplete_v6_reclamations_ := incomplete_v6_reclamations_ s; ctx6 := ctx6 s |}.
Definition with_stats6 (c : StatContext) (s : State6 M) : State6 M :=
  {| heap6 := heap6 s; db6 := db6 s; stats6 := c; ncrs6 := ncrs6 s;
     incomplete_v6_reclamations_ := incomplete_v6_reclamations_ s; ctx6 := ctx6 s |}.
Definition with_ncrs6 (n : list NameChangeRequest) (s : State6 M) : State6 M :=
  {| heap6 := heap6 s; db6 := db6 s; stats6 := stats6 s; ncrs6 := n;
     incomplete_v6_reclamations_ := incomplete_v6_reclamations_ s; ctx6 := ctx6 s |}.
Definition with_incomplete6 (n : Z) (s : State6 M) : State6 M :=
  {| heap6 := heap6 s; db6 := db6 s; stats6 := stats6 s; ncrs6 := ncrs6 s;
     incomplete_v6_reclamations_ := n; ctx6 := ctx6 s |}.
Definition with_ctx6 (c : ClientContext6) (s : State6 M) : State6 M :=
  {| heap6 := heap6 s; db6 := db6 s; stats6 := stats6 s; ncrs6 := ncrs6 s;
     incomplete_v6_reclamations_ := incomplete_v6_reclamations_ s; ctx6 := c |}.

Definition get_ctx6 : ST (State6 M) ClientContext6 := s ← get; mret (ctx6 s).
Definition update_ctx6 (f : ClientContext6 → ClientContext6) : ST (State6 M) unit :=
  modify (λ s, with_ctx6 (f (ctx6 s)) s).
Definition currentIA : ST (State6 M) IAContext :=
  _ ← update_ctx6 ensure_ia; c ← get_ctx6; mret (current_ia c).
(** An assignment to members of [currentIA()]. *)
Definition update_ia (f : IAContext → IAContext) : ST (State6 M) unit :=
  ia ← currentIA;
  update_ctx6 (λ c, ctx6_with_ias (take (length (ias_ c) - 1) (ias_ c) ++ [f ia]) c).

Definition query_db6 {A} (f : M → A) : ST (State6 M) A := s ← get; mret (f (db6 s)).
Definition query_db6_res {A} (f : M → res A) : ST (State6 M) A := s ← get; lift (f (db6 s)).
Definition in_db6 {A} (m : ST M A) : ST (State6 M) A := zoom db6 with_db6 m.
Definition the_subnet6 (p : Z) : ST (State6 M) Subnet :=
  s ← get; lift (subnet_at (heap6 s) p).
(** [ctx.subnet_->...]. *)
Definition current_subnet6 : ST (State6 M) Subnet :=
  c ← get_ctx6;
  match ctx_subnet6_ c with Some p => the_subnet6 p | None => throw AssertionFailure end.
Definition in_subnet6 {A} (p : Z) (m : ST Subnet A) : ST (State6 M) A := λ s,
  match subnets (heap6 s) !! p with
  | None => (s, Throw AssertionFailure)
  | Some sub => match m sub with
                | (sub', r) => (with_heap6 (set_subnet p sub' (heap6 s)) s, r)
                end
  end.

(** [p->getNextSubnet(first)] and [p->getNextSubnet(first, classes)]. *)
Definition next_subnet6 (first p : Z) : ST (State6 M) (option Z) :=
  s ← get; lift (getNextSubnet (heap6 s) p first).
Definition next_subnet6_classes (classes : ClientClasses) (first p : Z) :
    ST (State6 M) (option Z) :=
  s ← get;
  match getNextSubnet_classes (S (base.size (subnets (heap6 s)))) (heap6 s) p first classes with
  | None => throw OutOfFuel
  | Some r => lift r
  end.

(** [while (subnet) { body; subnet = subnet->getNextSubnet(...); }], where the body may
    leave the loop with a value. *)
Fixpoint walk6_loop {A} (fuel : nat) (next : Z → ST (State6 M) (option Z))
    (body : Z → ST (State6 M) (option A)) (subnet : option Z) : ST (State6 M) (option A) :=
  match subnet, fuel with
  | None, _ => mret None
  | Some _, O => throw OutOfFuel
  | Some p, S fuel' =>
      r ← body p;
      match r with
      | Some a => mret (Some a)
      | None => subnet' ← next p; walk6_loop fuel' next body subnet'
      end
  end.
Definition walk6 {A} (first : option Z) (next : Z → Z → ST (State6 M) (option Z))
    (body : Z → ST (State6 M) (option A)) : ST (State6 M) (option A) :=
  s ← get;
  match first with
  | None => mret None
  | Some f => walk6_loop (S (base.size (subnets (heap6 s)))) (next f) body (Some f)
  end.

(** The same loop where the body adds to a collection. *)
Fixpoint collect6_loop {A} (fuel : nat) (first : Z) (f : Subnet → M → list A)
    (subnet : option Z) (collection : list A) : ST (State6 M) (list A) :=
  match subnet, fuel with
  | None, _ => mret collection
  | Some _, O => throw OutOfFuel
  | Some p, S fuel' =>
      sub ← the_subnet6 p;
      more ← query_db6 (f sub);
      subnet' ← next_subnet6 first p;
      collect6_loop fuel' first f subnet' (collection ++ more)
  end.
Definition collect6 {A} (first : Z) (f : Subnet → M → list A) : ST (State6 M) (list A) :=
  s ← get;
  collect6_loop (S (base.size (subnets (heap6 s)))) first f (Some first) [].
End State6.

(** Following a pointer to a lease. *)
Definition deref_lease (l : option Lease6) : res Lease6 :=
  match l with Some l => Ok l | None => Throw AssertionFailure end.

Section Engine6.
Context {M : Type} `{LeaseMgr6 M} `{HostMgr} `{HostMgr6} `{EngineConfig} `{EngineConfig6}.
Implicit Types (s : State6 M).

Definition stat_add6 (name : string) (delta : Z) : ST (State6 M) unit :=
  zoom stats6 with_stats6 (addValue now name (IntValue delta)).

(** The name of the statistic of assigned leases of an IA. *)
Definition assigned_stat (type : LeaseType) : string :=
  if decide (type = TYPE_NA) then "assigned-nas" else "assigned-pds".

(** ** Name change requests ([ncr_generator.cc]) *)

Definition queueNCR6 (chg_type : NameChangeType) (l : Lease6) : ST (State6 M) unit :=
  if bool_decide (lease_type_ l ≠ TYPE_PD) && bool_decide (is_Some (duid_ l)) then
    if bool_decide (hostname6_ l = "") || (negb (fqdn_fwd6_ l) && negb (fqdn_rev6_ l))
       || negb ddnsEnabled
    then mret tt
    else if ncr6_ok l then
      modify (λ s, with_ncrs6 (ncrs6 s ++
        [{| ncr_type_ := chg_type; ncr_fwd_ := fqdn_fwd6_ l; ncr_rev_ := fqdn_rev6_ l;
            ncr_fqdn_ := hostname6_ l; ncr_address_ := addr6_ l;
            ncr_expires_ := getExpirationTime6 l; ncr_length_ := valid_lft6_ l |}]) s)
    else mret tt
  else mret tt.

(** ** Reclaiming leases *)

Definition reclaimDeclined6 (l : Lease6) : ST (State6 M) (bool * Lease6) :=
  if negb (state6_ l =? STATE_DECLINED) then mret (true, l)
  else
    let '(status, l) := match lease6_recover hooks6 with
                        | Some callout => callout l
                        | None => (NEXT_STEP_CONTINUE, l)
                        end in
    if decide (status = NEXT_STEP_SKIP) then mret (false, l)
    else
      _ ← stat_add6 (subnet_stat (subnet_id6_ l) "declined-addresses") (-1);
      _ ← stat_add6 "declined-addresses" (-1);
      _ ← stat_add6 "reclaimed-declined-addresses" 1;
      _ ← stat_add6 (subnet_stat (subnet_id6_ l) "reclaimed-declined-addresses") 1;
      mret (true, l).

Definition reclaimLeaseInDatabase6 (l : Lease6) (remove_lease : bool) : ST (State6 M) Lease6 :=
  if remove_lease then
    _ ← in_db6 (lm6_deleteLease (addr6_ l)); mret l
  else
    let l := with_state6 (with_dns6 l false false "") STATE_EXPIRED_RECLAIMED in
    _ ← in_db6 (lm6_updateLease6 l); mret l.

Definition reclaimExpiredLease6_mode (l : Lease6) (reclaim_mode : DbReclaimMode)
    (callout_handle : bool) : ST (State6 M) Lease6 :=
  let '(status, l) := match callout_handle, lease6_expire hooks6 with
                      | true, Some callout =>
                          callout (bool_decide (reclaim_mode = DB_RECLAIM_REMOVE)) l
                      | _, _ => (NEXT_STEP_CONTINUE, l)
                      end in
  l ← (if decide (status = NEXT_STEP_SKIP) then mret l
       else
         _ ← queueNCR6 CHG_REMOVE l;
         let remove_lease := bool_decide (reclaim_mode = DB_RECLAIM_REMOVE) in
         '(remove_lease, l) ← (if state6_ l =? STATE_DECLINED then reclaimDeclined6 l
                               else mret (remove_lease, l));
         if decide (reclaim_mode = DB_RECLAIM_LEAVE_UNCHANGED) then mret l
         else reclaimLeaseInDatabase6 l remove_lease);
  _ ← (match lease_type_ l with
       | TYPE_NA => stat_add6 (subnet_stat (subnet_id6_ l) "assigned-nas") (-1)
       | TYPE_PD => stat_add6 (subnet_stat (subnet_id6_ l) "assigned-pds") (-1)
       | _ => mret tt
       end);
  _ ← stat_add6 "reclaimed-leases" 1;
  _ ← stat_add6 (subnet_stat (subnet_id6_ l) "reclaimed-leases") 1;
  mret l.

Definition reclaimExpiredLease6 (l : Lease6) (callout_handle : bool) : ST (State6 M) Lease6 :=
  if stateExpiredReclaimed6 l then mret l
  else reclaimExpiredLease6_mode l DB_RECLAIM_LEAVE_UNCHANGED callout_handle.

Definition reclaimExpiredLease6_remove (l : Lease6) (remove_lease : bool)
    (callout_handle : bool) : ST (State6 M) Lease6 :=
  reclaimExpiredLease6_mode l (if remove_lease then DB_RECLAIM_REMOVE else DB_RECLAIM_UPDATE)
    callout_handle.

(** As [reclaim_loop]: [elapsed k] is what the stopwatch shows after the [k]-th lease. *)
Fixpoint reclaim_loop6 (elapsed : nat → Z) (timeout : Z) (remove_lease callout_handle : bool)
    (k processed : nat) (leases : list Lease6) : ST (State6 M) (nat * bool) :=
  match leases with
  | [] => mret (processed, false)
  | l :: leases' =>
      processed ← try_catch
        (_ ← reclaimExpiredLease6_remove l remove_lease callout_handle; mret (S processed))
        (mret processed);
      if (0 <? timeout) && (timeout <=? elapsed (S k)) then mret (processed, true)
      else reclaim_loop6 elapsed timeout remove_lease callout_handle (S k) processed leases'
  end.

Definition reclaimExpiredLeases6 (elapsed : nat → Z) (max_leases : nat) (timeout : Z)
    (remove_lease : bool) (max_unwarned_cycles : Z) : ST (State6 M) unit :=
  '(leases, incomplete) ←
    (if (0 <? max_leases)%nat then
       leases ← query_db6_res (lm6_getExpiredLeases6 now (S max_leases));
       mret (if (max_leases <? length leases)%nat
             then (take (length leases - 1) leases, true) else (leases, false))
     else
       leases ← query_db6_res (lm6_getExpiredLeases6 now max_leases);
       mret (leases, false));
  let callout_handle := bool_decide (leases ≠ []) && bool_decide (is_Some (lease6_expire hooks6)) in
  '(processed, timed_out) ←
    reclaim_loop6 elapsed timeout remove_lease callout_handle 0 0 leases;
  let incomplete := incomplete || (timed_out && (processed <? length leases)%nat) in
  if incomplete then
    _ ← modify (λ s, with_incomplete6 ((incomplete_v6_reclamations_ s + 1) `mod` 2 ^ 16) s);
    modify (λ s, if (0 <? max_unwarned_cycles)
                    && (max_unwarned_cycles <? incomplete_v6_reclamations_ s)
                 then with_incomplete6 0 s else s)
  else modify (with_incomplete6 0).

Definition engine_deleteExpiredReclaimedLeases6 (secs : Z) : ST (State6 M) unit :=
  try_catch (_ ← in_db6 (lm6_deleteExpiredReclaimedLeases6 now secs); mret tt) (mret tt).

(** ** Reservations *)

(** [ctx.currentHost()]. *)
Definition currentHost6 : ST (State6 M) (option Host) :=
  c ← get_ctx6;
  match (match host_subnet_ c with Some p => Some p | None => ctx_subnet6_ c end) with
  | None => mret None
  | Some p => sub ← the_subnet6 p; mret (ctx_hosts6_ c !! id_ sub)
  end.

Fixpoint find_host6 (subnet_id : Z) (identifiers : list (IdentifierType * list Z)) :
    res (option Host) :=
  match identifiers with
  | [] => mret None
  | (type, identifier) :: identifiers' =>
      host ← host_get6_identifier subnet_id type identifier;
      match host with Some h => mret (Some h) | None => find_host6 subnet_id identifiers' end
  end.

Fixpoint single_query6 (host_map : gmap Z Host) (identifiers : list (IdentifierType * list Z)) :
    res (gmap Z Host) :=
  match identifiers with
  | [] => mret host_map
  | (type, identifier) :: identifiers' =>
      hosts ← host_getAll type identifier;
      single_query6 (foldl (λ m h, if negb (ipv6_subnet_id_ h =? 0)
                                   then <[ipv6_subnet_id_ h := h]> m else m) host_map hosts)
        identifiers'
  end.

Definition add_host6 (subnet_id : Z) (host : option Host) : ST (State6 M) unit :=
  match host with
  | Some h => update_ctx6 (λ c, ctx6_with_hosts (<[subnet_id := h]> (ctx_hosts6_ c)) c)
  | None => mret tt
  end.

Definition findReservation6 : ST (State6 M) unit :=
  _ ← update_ctx6 (ctx6_with_hosts ∅);
  c ← get_ctx6;
  match ctx_subnet6_ c with
  | None => mret tt
  | Some p =>
      sub ← the_subnet6 p;
      s ← get;
      let ids := host_identifiers6_ c in
      let use_single_query :=
        match shared_network_ sub with
        | Some n =>
            match networks (heap6 s) !! n with
            | Some net => (length ids <? length (subnets_ net))%nat
            | None => false
            end
        | None => false
        end in
      host_map ← (if use_single_query then lift (single_query6 ∅ ids) else mret ∅);
      _ ← walk6 (Some p) (next_subnet6_classes (query_classes6 c)) (λ q,
        sub ← the_subnet6 q;
        s ← get;
        supported ← lift (clientSupported (heap6 s) sub (query_classes6 c));
        _ ← (if (supported : bool) && bool_decide (host_reservation_mode_ sub ≠ HR_DISABLED) then
               if use_single_query then
                 add_host6 (id_ sub) (if bool_decide (ids = []) then None
                                      else host_map !! id_ sub)
               else host ← lift (find_host6 (id_ sub) ids); add_host6 (id_ sub) host
             else mret tt);
        mret (None : option unit));
      mret tt
  end.

(** The address is in a pool of the current subnet or of a subnet of its network which the
    client may use; with [check_subnet] the classes of the pools do not matter. *)
Definition inAllowedPool6 (lease_type : LeaseType) (address : IOAddress) (check_subnet : bool) :
    ST (State6 M) bool :=
  c ← get_ctx6;
  r ← walk6 (ctx_subnet6_ c) next_subnet6 (λ p,
    sub ← the_subnet6 p;
    s ← get;
    supported ← lift (clientSupported (heap6 s) sub (query_classes6 c));
    if (supported : bool) then
      b ← lift (if check_subnet then inPool sub lease_type address
                else inPool_classes sub lease_type address (query_classes6 c));
      mret (if (b : bool) then Some tt else None)
    else mret None);
  mret (bool_decide (is_Some r)).

(** ** Creating and reusing leases *)

(** [if (ctx.subnet_->inPool(type, addr)) addValue("assigned-...", 1)]. *)
Definition count_assigned (addr : IOAddress) : ST (State6 M) unit :=
  ia ← currentIA;
  sub ← current_subnet6;
  b ← lift (inPool sub (ia_type_ ia) addr);
  if (b : bool) then stat_add6 (subnet_stat (id_ sub) (assigned_stat (ia_type_ ia))) 1
  else mret tt.

Definition call_select (c : ClientContext6) (l : Lease6) : NextStep * Lease6 :=
  match callout_handle6_ c, lease6_select hooks6 with
  | true, Some callout => callout c l
  | _, _ => (NEXT_STEP_CONTINUE, l)
  end.

Definition reuseExpiredLease (l : Lease6) (prefix_len : Z) :
    ST (State6 M) (option Lease6 * NextStep) :=
  _ ← lift (throw_if (negb (expired6 now l)) BadValue);
  let prefix_len := if decide (lease_type_ l ≠ TYPE_PD) then 128 else prefix_len in
  c ← get_ctx6;
  l ← (if negb (fake_allocation6_ c) then reclaimExpiredLease6 l (callout_handle6_ c)
       else mret l);
  ia ← currentIA;
  sub ← current_subnet6;
  let l := with_client6 l (ctx_duid_ c) (ia_iaid_ ia) (id_ sub) prefix_len in
  let l := with_times6 l (preferred_ sub) (valid_ sub) (net_t1_ sub) (net_t2_ sub) in
  let l := with_dns6 (with_cltt6 l now) (fwd_dns_update6_ c) (rev_dns_update6_ c)
             (ctx_hostname6_ c) in
  let l := with_state6 l STATE_DEFAULT in
  c ← get_ctx6;
  let '(status, l) := call_select c l in
  if decide (status = NEXT_STEP_SKIP) then mret (None, status)
  else
    _ ← (if negb (fake_allocation6_ c) then
           _ ← in_db6 (lm6_updateLease6 l); count_assigned (addr6_ l)
         else mret tt);
    mret (Some l, status).

Definition createLease6 (addr : IOAddress) (prefix_len : Z) :
    ST (State6 M) (option Lease6 * NextStep) :=
  ia ← currentIA;
  let prefix_len := if decide (ia_type_ ia ≠ TYPE_PD) then 128 else prefix_len in
  sub ← current_subnet6;
  c ← get_ctx6;
  l ← lift (mkLease6 now (ia_type_ ia) addr (ctx_duid_ c) (ia_iaid_ ia) (preferred_ sub)
              (valid_ sub) (net_t1_ sub) (net_t2_ sub) (id_ sub) (fwd_dns_update6_ c)
              (rev_dns_update6_ c) (ctx_hostname6_ c) (ctx_hwaddr6_ c) prefix_len);
  let '(status, l) := call_select c l in
  if decide (status = NEXT_STEP_SKIP) then mret (None, status)
  else if negb (fake_allocation6_ c) then
    added ← in_db6 (lm6_addLease l);
    if (added : bool) then _ ← count_assigned addr; mret (Some l, status)
    else mret (None, status)
  else
    existing ← query_db6 (lm6_getLease6 (ia_type_ ia) addr);
    mret (match existing with None => Some l | Some _ => None end, status).

(** ** Leases the client has already *)

(** A lease is taken from the client: the last part of the functions that remove leases. *)
Definition release_lease (l : Lease6) (statistic : string) : ST (State6 M) unit :=
  _ ← in_db6 (lm6_deleteLease (addr6_ l));
  _ ← queueNCR6 CHG_REMOVE l;
  _ ← stat_add6 statistic (-1);
  update_ia (ia_add_old l).

Definition release_own (l : Lease6) : ST (State6 M) unit :=
  ia ← currentIA;
  release_lease l (subnet_stat (subnet_id6_ l) (assigned_stat (ia_type_ ia))).

(** The leases left, and whether one was removed. *)
Definition removeLeases (container : list (option Lease6)) (addr : IOAddress) :
    res (list (option Lease6) * bool) :=
  leases ← mapM deref_lease container;
  mret (Some <$> filter (λ l, equals (addr6_ l) addr = false) leases,
        existsb (λ l, equals (addr6_ l) addr) leases).

(** [ctx.hosts_.count(subnet_id) > 0 && ctx.hosts_[subnet_id]->hasReservation(...)]. *)
Definition has_reservation (c : ClientContext6) (l : Lease6) (type : ResrvType) (prefix_len : Z) :
    res bool :=
  match ctx_hosts6_ c !! subnet_id6_ l with
  | Some h => resv ← mkIPv6Resrv type (addr6_ l) prefix_len; mret (hasReservation h resv)
  | None => mret false
  end.

Definition reserved_for_client (c : ClientContext6) (l : Lease6) : res bool :=
  if decide (lease_type_ l = TYPE_NA) then has_reservation c l RESRV_NA 128
  else has_reservation c l RESRV_PD (prefixlen_ l).

Definition resrv_type_of (t : LeaseType) : ResrvType :=
  if decide (t = TYPE_NA) then RESRV_NA else RESRV_PD.

(** The loop over the copy of the collection. *)
Fixpoint no_host_loop (copy existing_leases : list (option Lease6)) :
    ST (State6 M) (list (option Lease6)) :=
  match copy with
  | [] => mret existing_leases
  | candidate :: copy' =>
      l ← lift (deref_lease candidate);
      allowed ← inAllowedPool6 (lease_type_ l) (addr6_ l) false;
      if (allowed : bool) then no_host_loop copy' existing_leases
      else
        _ ← release_own l;
        r ← lift (removeLeases existing_leases (addr6_ l));
        no_host_loop copy' r.1
  end.

Definition removeNonmatchingReservedNoHostLeases6 (existing_leases : list (option Lease6)) :
    ST (State6 M) (list (option Lease6)) := no_host_loop existing_leases existing_leases.

Fixpoint nonmatching_loop (copy existing_leases : list (option Lease6)) :
    ST (State6 M) (list (option Lease6)) :=
  match copy with
  | [] => mret existing_leases
  | candidate :: copy' =>
      c ← get_ctx6;
      l ← lift (deref_lease candidate);
      mine ← lift (reserved_for_client c l);
      if (mine : bool) then nonmatching_loop copy' existing_leases
      else
        sub ← current_subnet6;
        host ← lift (host_get6_address (id_ sub) (addr6_ l));
        keep ← (match host with
                | None => inAllowedPool6 (lease_type_ l) (addr6_ l) false
                | Some _ => mret false
                end);
        if (keep : bool) then nonmatching_loop copy' existing_leases
        else
          _ ← release_own l;
          r ← lift (removeLeases existing_leases (addr6_ l));
          nonmatching_loop copy' r.1
  end.

Definition removeNonmatchingReservedLeases6 (existing_leases : list (option Lease6)) :
    ST (State6 M) (list (option Lease6)) :=
  c ← get_ctx6;
  if bool_decide (existing_leases = []) || bool_decide (ctx_subnet6_ c = None)
  then mret existing_leases
  else
    sub ← current_subnet6;
    if mode_is sub HR_DISABLED then removeNonmatchingReservedNoHostLeases6 existing_leases
    else nonmatching_loop existing_leases existing_leases.

(** The loop from a lease on; a pointer is reset to remove it, and the loop ends when one
    lease is left. *)
Fixpoint nonreserved_loop (total : Z) (leases : list (option Lease6)) :
    ST (State6 M) (list (option Lease6)) :=
  match leases with
  | [] => mret []
  | lease :: leases' =>
      c ← get_ctx6;
      ia ← currentIA;
      l ← lift (deref_lease lease);
      _ ← lift (mkIPv6Resrv (resrv_type_of (ia_type_ ia)) (addr6_ l) (prefixlen_ l));
      reserved ← lift (has_reservation c l (resrv_type_of (ia_type_ ia)) (prefixlen_ l));
      if (reserved : bool) then
        rest ← nonreserved_loop total leases'; mret (lease :: rest)
      else
        _ ← release_own l;
        if total - 1 =? 1 then mret (None :: leases')
        else rest ← nonreserved_loop (total - 1) leases'; mret (None :: rest)
  end.

Definition removeNonreservedLeases6 (existing_leases : list (option Lease6)) :
    ST (State6 M) (list (option Lease6)) :=
  match existing_leases with
  | [] => mret []
  | _ => leases ← nonreserved_loop (Z.of_nat (length existing_leases)) existing_leases;
         mret (filter is_Some leases)
  end.

(** ** Reserved leases *)

(** A hostname reservation is taken over from the host. *)
Definition take_hostname (host : Host) : ST (State6 M) unit :=
  if bool_decide (host_hostname_ host = "") then mret tt
  else
    c ← get_ctx6;
    update_ctx6 (ctx6_with_hostname
      (qualifyName qualifying_suffix_ (host_hostname_ host)
         (bool_decide (is_Some (getOption (query6_ c) D6O_CLIENT_FQDN))))).

(** The first loop of [allocateReservedLeases6]: a lease in use with a reservation, and its
    position. *)
Fixpoint find_reserved_lease (c : ClientContext6) (type : ResrvType) (i : nat)
    (existing_leases : list (option Lease6)) : res (option (nat * Lease6 * Host)) :=
  match existing_leases with
  | [] => mret None
  | lease :: leases' =>
      l ← deref_lease lease;
      if negb (valid_lft6_ l =? 0) then
        reserved ← has_reservation c l type (prefixlen_ l);
        match ctx_hosts6_ c !! subnet_id6_ l with
        | Some host => if (reserved : bool) then mret (Some (i, l, host))
                       else find_reserved_lease c type (S i) leases'
        | None => find_reserved_lease c type (S i) leases'
        end
      else find_reserved_lease c type (S i) leases'
  end.

(** The lease is there already: it is only extended. *)
Definition keep_reserved_lease (i : nat) (l : Lease6) (host : Host)
    (existing_leases : list (option Lease6)) : ST (State6 M) (list (option Lease6)) :=
  c ← get_ctx6;
  _ ← (match host_subnet_ c with
       | Some _ => mret tt
       | None =>
           sub ← current_subnet6;
           match shared_network_ sub with
           | None => mret tt
           | Some n =>
               s ← get;
               net ← lift (network_at (heap6 s) n);
               _ ← update_ctx6 (ctx6_with_host_subnet
                     (getSubnet (heap6 s) (subnets_ net) (subnet_id6_ l)));
               take_hostname host
           end
       end);
  if negb (fake_allocation6_ c) then
    let l := with_cltt6 l now in
    _ ← in_db6 (lm6_updateLease6 l);
    mret (<[i := Some l]> existing_leases)
  else mret existing_leases.

(** The reservations of a host: a lease for the first that is free. *)
Fixpoint reserve_loop (p : Z) (host : Host) (reservs : list IPv6Resrv) :
    ST (State6 M) (option (option Lease6)) :=
  match reservs with
  | [] => mret None
  | r :: reservs' =>
      let addr := resrv_prefix_ r in
      let prefix_len := resrv_len_ r in
      c ← get_ctx6;
      if isAllocated addr prefix_len c then reserve_loop p host reservs'
      else
        ia ← currentIA;
        existing ← query_db6 (lm6_getLease6 (ia_type_ ia) addr);
        match existing with
        | Some _ => reserve_loop p host reservs'
        | None =>
            _ ← update_ctx6 (ctx6_with_subnet (Some p));
            _ ← (match host_subnet_ c with
                 | Some _ => mret tt
                 | None => _ ← update_ctx6 (ctx6_with_host_subnet (Some p)); take_hostname host
                 end);
            r ← createLease6 addr prefix_len;
            mret (Some r.1)
        end
  end.

Definition allocateReservedLeases6 (existing_leases : list (option Lease6)) :
    ST (State6 M) (list (option Lease6)) :=
  c ← get_ctx6;
  if bool_decide (ctx_hosts6_ c = ∅) then mret existing_leases
  else
    ia ← currentIA;
    let type := resrv_type_of (ia_type_ ia) in
    found ← lift (find_reserved_lease c type 0 existing_leases);
    match found with
    | Some (i, l, host) => keep_reserved_lease i l host existing_leases
    | None =>
        lease ← walk6 (ctx_subnet6_ c) next_subnet6 (λ p,
          sub ← the_subnet6 p;
          s ← get;
          supported ← lift (clientSupported (heap6 s) sub (query_classes6 c));
          match ctx_hosts6_ c !! id_ sub with
          | Some host => if (supported : bool)
                         then reserve_loop p host (getIPv6Reservations host type) else mret None
          | None => mret None
          end);
        mret match lease with Some l => existing_leases ++ [l] | None => existing_leases end
    end.

(** ** Leases from the pools *)

(** [getAllocator]: the engine for IPv6 has allocators for these types. *)
Definition getAllocator6 (type : LeaseType) : res unit :=
  throw_if (bool_decide (type = TYPE_V4)) BadValue.

(** An expired lease is kept with the old leases and used again. *)
Definition reuse_old (l : Lease6) (prefix_len : Z) : ST (State6 M) (option Lease6) :=
  _ ← update_ia (ia_add_old l);
  r ← reuseExpiredLease l prefix_len;
  mret r.1.

(** [hr_mode != HR_DISABLED ? HostMgr::get6(subnet, hint) : null] *)
Definition hint_host (sub : Subnet) (hint : IOAddress) : res (option Host) :=
  if mode_is sub HR_DISABLED then mret None else host_get6_address (id_ sub) hint.

(** The body of the first loop: the address the client has given as a hint. *)
Definition try_hint (hint : IOAddress) (p : Z) : ST (State6 M) (option (list (option Lease6))) :=
  c ← get_ctx6;
  sub ← the_subnet6 p;
  s ← get;
  supported ← lift (clientSupported (heap6 s) sub (query_classes6 c));
  if negb supported then mret None
  else
    _ ← update_ctx6 (ctx6_with_subnet (Some p));
    ia ← currentIA;
    pool ← lift (getPool_classes sub (ia_type_ ia) (query_classes6 c) hint);
    match pool with
    | None => mret None
    | Some pool =>
        if negb (pool_clientSupported pool (query_classes6 c)) then mret None
        else
          lease ← query_db6 (lm6_getLease6 (ia_type_ ia) hint);
          match lease with
          | None =>
              host ← lift (hint_host sub hint);
              match host with
              | Some _ => mret None
              | None =>
                  r ← createLease6 hint (getLength pool);
                  mret match r.1 with Some l => Some [Some l] | None => None end
              end
          | Some l =>
              if expired6 now l then
                host ← lift (hint_host sub hint);
                match host with
                | Some _ => mret None
                | None => l ← reuse_old l (getLength pool); mret (Some [l])
                end
              else mret None
          end
    end.

(** The attempts in one subnet. *)
Fixpoint attempt_loop6 (attempts : nat) (p : Z) :
    ST (State6 M) (option (list (option Lease6))) :=
  match attempts with
  | O => mret None
  | S attempts' =>
      ia ← currentIA;
      c ← get_ctx6;
      candidate ← in_subnet6 p (pickAddress (ia_type_ ia) (query_classes6 c) now);
      sub ← the_subnet6 p;
      host ← (if mode_is sub HR_ALL then lift (host_get6_address (id_ sub) candidate)
              else mret None);
      match host with
      | Some _ => attempt_loop6 attempts' p
      | None =>
          prefix_len ← (if decide (ia_type_ ia = TYPE_PD) then
                          pool ← lift (getPool_classes sub (ia_type_ ia) (query_classes6 c)
                                         candidate);
                          mret match pool with Some pool => getLength pool | None => 128 end
                        else mret 128);
          existing ← query_db6 (lm6_getLease6 (ia_type_ ia) candidate);
          match existing with
          | None =>
              _ ← update_ctx6 (ctx6_with_subnet (Some p));
              r ← createLease6 candidate prefix_len;
              match r.1 with
              | Some l => _ ← update_ia ia_clear_old; mret (Some [Some l])
              | None => if callout_handle6_ c && bool_decide (r.2 ≠ NEXT_STEP_CONTINUE)
                        then mret None else attempt_loop6 attempts' p
              end
          | Some l =>
              if expired6 now l then
                _ ← update_ia (ia_add_old l);
                _ ← update_ctx6 (ctx6_with_subnet (Some p));
                r ← reuseExpiredLease l prefix_len;
                mret (Some [r.1])
              else attempt_loop6 attempts' p
          end
      end
  end.

(** The body of the second loop. *)
Definition try_subnet (p : Z) : ST (State6 M) (option (list (option Lease6))) :=
  c ← get_ctx6;
  sub ← the_subnet6 p;
  s ← get;
  supported ← lift (clientSupported (heap6 s) sub (query_classes6 c));
  if negb supported then mret None
  else
    ia ← currentIA;
    let possible_attempts := getPoolCapacity_classes sub (ia_type_ ia) (query_classes6 c) in
    if possible_attempts =? 0 then mret None
    else
      let max_attempts := if 0 <? attempts_ then attempts_ else possible_attempts in
      attempt_loop6 (Z.to_nat max_attempts) p.

Definition allocateUnreservedLeases6 : ST (State6 M) (list (option Lease6)) :=
  ia ← currentIA;
  _ ← lift (getAllocator6 (ia_type_ ia));
  let hint := match hints_ ia with h :: _ => h.1 | [] => IPV6_ZERO_ADDRESS end in
  c ← get_ctx6;
  let original_subnet := ctx_subnet6_ c in
  hinted ← walk6 original_subnet next_subnet6 (try_hint hint);
  match hinted with
  | Some leases => mret leases
  | None =>
      match original_subnet with
      | None => throw AssertionFailure
      | Some original =>
          sub ← the_subnet6 original;
          s ← get;
          original ← (match shared_network_ sub with
                      | Some n =>
                          net ← lift (network_at (heap6 s) n);
                          lift (getPreferredSubnet (heap6 s) (subnets_ net) original (ia_type_ ia))
                      | None => mret original
                      end);
          _ ← update_ctx6 (ctx6_with_subnet (Some original));
          leases ← walk6 (Some original) next_subnet6 try_subnet;
          mret (default [] leases)
      end
  end.

(** ** Extending leases *)

Definition is_renew (c : ClientContext6) : bool :=
  match pkt_kind (query6_ c) with Pkt6 msg_type _ => msg_type =? DHCPV6_RENEW | _ => false end.

(** The lease and whether the callouts of a renewal or a rebinding keep the old one. *)
Definition call_extend (l : Lease6) : ST (State6 M) (bool * Lease6) :=
  c ← get_ctx6;
  match (if is_renew c then lease6_renew hooks6 else lease6_rebind hooks6) with
  | None => mret (false, l)
  | Some callout =>
      if negb (callout_handle6_ c) then throw AssertionFailure
      else let '(status, l) := callout c l in mret (bool_decide (status = NEXT_STEP_SKIP), l)
  end.

(** The subnet of the context becomes the one of the lease. *)
Definition follow_lease (l : Lease6) : ST (State6 M) unit :=
  sub ← current_subnet6;
  if id_ sub =? subnet_id6_ l then mret tt
  else
    match shared_network_ sub with
    | None => mret tt
    | Some n =>
        s ← get;
        net ← lift (network_at (heap6 s) n);
        match getSubnet (heap6 s) (subnets_ net) (subnet_id6_ l) with
        | Some p => update_ctx6 (ctx6_with_subnet (Some p))
        | None => mret tt
        end
    end.

(** The lease may stay with the client. *)
Definition still_valid (l : Lease6) : ST (State6 M) bool :=
  c ← get_ctx6;
  sub ← current_subnet6;
  s ← get;
  inside ← lift (if decide (lease_type_ l ≠ TYPE_PD) then inRange sub (addr6_ l) else Ok true);
  if negb inside then mret false
  else lift (clientSupported (heap6 s) sub (query_classes6 c)).

(** The lease in the database follows: the part of [extendLease6] under [if (!skip)]. *)
Definition store_extended (l old_data : Lease6) : ST (State6 M) Lease6 :=
  c ← get_ctx6;
  old_data ← (if expired6 now old_data then
                old_data ← reclaimExpiredLease6 old_data (callout_handle6_ c);
                _ ← count_assigned (addr6_ old_data);
                mret old_data
              else
                _ ← (if negb (hasIdenticalFqdn6 l old_data) then queueNCR6 CHG_REMOVE old_data
                     else mret tt);
                mret old_data);
  _ ← in_db6 (lm6_updateLease6 l);
  mret old_data.

(** The lease object afterwards. *)
Definition extendLease6 (lease : option Lease6) : ST (State6 M) (option Lease6) :=
  c ← get_ctx6;
  match lease, ctx_subnet6_ c with
  | None, _ | _, None => mret lease
  | Some l, Some _ =>
      _ ← follow_lease l;
      valid ← still_valid l;
      if negb valid then
        sub ← current_subnet6;
        _ ← release_lease l (subnet_stat (id_ sub) "assigned-nas");
        mret (Some l)
      else
        sub ← current_subnet6;
        let old_data := l in
        let l := with_times6 l (preferred_ sub) (valid_ sub) (net_t1_ sub) (net_t2_ sub) in
        let l := with_dns6 l (fwd_dns_update6_ c) (rev_dns_update6_ c) (ctx_hostname6_ c) in
        let l := with_state6 (with_hwaddr6 l (ctx_hwaddr6_ c)) STATE_DEFAULT in
        let l := with_cltt6 l now in
        '(skip, l) ← call_extend l;
        '(l, old_data) ← (if (skip : bool) then mret (old_data, old_data)
                          else old ← store_extended l old_data; mret (l, old));
        _ ← update_ia (ia_add_changed old_data);
        mret (Some l)
  end.

(** ** Updating the data of leases *)

Fixpoint update_loop (remove_queued : bool) (leases : list (option Lease6)) :
    ST (State6 M) (list (option Lease6)) :=
  match leases with
  | [] => mret []
  | lease :: leases' =>
      c ← get_ctx6;
      old ← lift (deref_lease lease);
      let l := with_dns6 old (fwd_dns_update6_ c) (rev_dns_update6_ c) (ctx_hostname6_ c) in
      '(l, remove_queued) ←
        (if negb (fake_allocation6_ c) then
           l ← (if stateExpiredReclaimed6 l then
                  let l := with_state6 l STATE_DEFAULT in
                  ia ← currentIA;
                  allowed ← inAllowedPool6 (ia_type_ ia) (addr6_ l) true;
                  _ ← (if (allowed : bool)
                       then stat_add6 (subnet_stat (subnet_id6_ l)
                                         (assigned_stat (ia_type_ ia))) 1
                       else mret tt);
                  mret l
                else mret l);
           let fqdn_changed := bool_decide (lease_type_ l ≠ TYPE_PD)
                               && negb (hasIdenticalFqdn6 l old) in
           let l := with_cltt6 l now in
           _ ← update_ia (ia_add_changed old);
           _ ← in_db6 (lm6_updateLease6 l);
           if fqdn_changed && negb remove_queued then
             _ ← queueNCR6 CHG_REMOVE old; mret (l, true)
           else mret (l, remove_queued)
         else mret (l, remove_queued));
      rest ← update_loop remove_queued leases';
      mret (Some l :: rest)
  end.

Definition updateLeaseData (leases : list (option Lease6)) : ST (State6 M) (list (option Lease6)) :=
  update_loop false leases.

(** ** The calls of the server *)

(** The leases of the answer are noted in the context. *)
Fixpoint note_leases (leases : list (option Lease6)) : ST (State6 M) (list Lease6) :=
  match leases with
  | [] => mret []
  | lease :: leases' =>
      l ← lift (deref_lease lease);
      _ ← update_ctx6 (λ c, ctx6_add_new l (addAllocatedResource (addr6_ l) (prefixlen_ l) c));
      rest ← note_leases leases';
      mret (l :: rest)
  end.

Definition allocate_cases6 (leases : list (option Lease6)) : ST (State6 M) (list (option Lease6)) :=
  c ← get_ctx6;
  match leases, bool_decide (ctx_hosts6_ c = ∅) with
  | [], false => allocateReservedLeases6 leases
  | [], true => mret leases
  | _ :: _, true =>
      leases ← removeNonmatchingReservedLeases6 leases;
      updateLeaseData leases
  | _ :: _, false =>
      leases ← allocateReservedLeases6 leases;
      leases ← removeNonmatchingReservedLeases6 leases;
      removeNonreservedLeases6 leases
  end.

Definition allocateLeases6 : ST (State6 M) (list Lease6) :=
  try_catch
    (c ← get_ctx6;
     match ctx_subnet6_ c, ctx_duid_ c with
     | None, _ => throw InvalidOperation
     | Some _, None => throw InvalidOperation
     | Some p, Some duid =>
         ia ← currentIA;
         all_leases ← query_db6 (lm6_getLeases6 (ia_type_ ia) duid (ia_iaid_ ia));
         leases ← collect6 p (λ sub _, filter (λ l, subnet_id6_ l = id_ sub) all_leases);
         leases ← allocate_cases6 (Some <$> leases);
         leases ← (match leases with [] => allocateUnreservedLeases6 | _ => mret leases end);
         note_leases leases
     end)
    (mret []).

Fixpoint extend_loop (leases : list (option Lease6)) : ST (State6 M) (list (option Lease6)) :=
  match leases with
  | [] => mret []
  | lease :: leases' =>
      l ← extendLease6 lease; rest ← extend_loop leases'; mret (l :: rest)
  end.

Definition renewLeases6 : ST (State6 M) (list Lease6) :=
  try_catch
    (c ← get_ctx6;
     match ctx_subnet6_ c, ctx_duid_ c with
     | None, _ => throw InvalidOperation
     | Some _, None => throw InvalidOperation
     | Some p, Some duid =>
         ia ← currentIA;
         leases ← collect6 p (λ sub,
           lm6_getLeases6_subnet (ia_type_ ia) duid (ia_iaid_ ia) (id_ sub));
         leases ← removeNonmatchingReservedLeases6 (Some <$> leases);
         c ← get_ctx6;
         leases ← (if bool_decide (ctx_hosts6_ c = ∅) then mret leases
                   else leases ← allocateReservedLeases6 leases;
                        removeNonreservedLeases6 leases);
         leases ← (match leases with [] => allocateUnreservedLeases6 | _ => mret leases end);
         leases ← extend_loop leases;
         note_leases leases
     end)
    (mret []).
End Engine6.
