(* ===== verification/AllocEngine6Safety.v ===== *)
(** * Safety of the DHCPv6 allocation engine

    What the calls of [AllocEngine6] keep, whatever path a message takes.  The calls start
    from a state [s0]; [inv6] relates every state they go through to [s0]: the leases of
    other clients are the ones of [s0], a message that only asks for an offer has added
    nothing to the database, and the context still belongs to the same client and to the
    same shared network.  [safe6 m Q] says that [m] keeps the invariant from every state
    that satisfies it, that its result satisfies [Q], and that it never runs out of fuel.
    As everything is related to [s0], the results are described without mentioning the
    state in between. *)

From S2P Require Import Prelude Algorithms IoAddress AddrUtilities Pool Subnet.
From S2P Require Import SharedNetwork IterativeAllocator StatsMgr Lease Lease6 LeaseMgr Host.
From S2P Require Import Packet EngineHeap AllocEngine4 AllocEngine4Safety AllocEngine6.
Local Open Scope Z_scope.
#[local] Set Default Proof Using "All".

(** Callouts may change a lease, but not what it is a lease of and whose. *)
Definition same_lease (l l' : Lease6) : Prop :=
  lease_type_ l' = lease_type_ l ∧ addr6_ l' = addr6_ l ∧ prefixlen_ l' = prefixlen_ l ∧
  duid_ l' = duid_ l ∧ iaid_ l' = iaid_ l ∧ subnet_id6_ l' = subnet_id6_ l.

Class HooksOk6 `{EngineConfig6} : Prop := {
  select6_same : ∀ callout c l, lease6_select hooks6 = Some callout →
    same_lease l (callout c l).2;
  renew6_same : ∀ callout c l, lease6_renew hooks6 = Some callout →
    same_lease l (callout c l).2;
  rebind6_same : ∀ callout c l, lease6_rebind hooks6 = Some callout →
    same_lease l (callout c l).2;
  expire6_same : ∀ callout b l, lease6_expire hooks6 = Some callout →
    same_lease l (callout b l).2;
  recover6_same : ∀ callout l, lease6_recover hooks6 = Some callout →
    same_lease l (callout l).2
}.

Lemma same_lease_refl l : same_lease l l.
Proof. done. Qed.
Lemma same_lease_trans l l' l'' : same_lease l l' → same_lease l' l'' → same_lease l l''.
Proof. unfold same_lease. naive_solver congruence. Qed.

(** The subnet satisfies the invariants of DHCPv6 subnets and of the allocator. *)
Definition wf6 (s : Subnet) : Prop :=
  kind s = Kind6 ∧ wf_subnet s ∧
  ∀ t, t ≠ TYPE_V4 → Forall (pool_ok t) (pools_of s t).

(** The allocator keeps it. *)
Lemma wf6_sim t s s' : t ≠ TYPE_V4 → wf6 s → subnet_sim t s s' → wf_subnet s' → wf6 s'.
Proof.
  intros Ht (Hk & _ & Hok) Hsim Hwf'. pose proof (subnet_sim_pools t s s' Hsim) as Hl.
  destruct Hsim as (l & ia & ta & pd & m & -> & _).
  split_and!; [by destruct t|done|]. intros t' Ht'. destruct (decide (t' = t)) as [->|Hne].
  - eapply Forall2_Forall_r; [exact Hl|]. eapply Forall_impl; [by apply Hok|].
    intros x Hx y Hxy. by eapply pool_sim_ok.
  - specialize (Hok t' Ht'). by destruct t, t'.
Qed.

(** The part of a context that belongs to the client is the same. *)
Definition same_client6 (c c' : ClientContext6) : Prop :=
  (∃ subnet host_subnet hostname allocated new ias,
    c' = ctx6_with c subnet host_subnet (ctx_hosts6_ c) hostname allocated new ias) ∧
  ia_type_ (current_ia c') = ia_type_ (current_ia c) ∧
  ia_iaid_ (current_ia c') = ia_iaid_ (current_ia c).

Lemma same_client6_refl c : same_client6 c c.
Proof.
  split; [|done]. exists (ctx_subnet6_ c), (host_subnet_ c), (ctx_hostname6_ c),
    (allocated_resources_ c), (new_leases_ c), (ias_ c). by destruct c.
Qed.

Lemma same_client6_eq c c' : same_client6 c c' →
  query6_ c' = query6_ c ∧ fake_allocation6_ c' = fake_allocation6_ c ∧
  ctx_duid_ c' = ctx_duid_ c ∧ ctx_hosts6_ c' = ctx_hosts6_ c ∧
  callout_handle6_ c' = callout_handle6_ c.
Proof. by intros [(? & ? & ? & ? & ? & ? & ->) _]. Qed.

(** Changes of a context that are not the client's. *)
Lemma same_client6_with c0 c subnet host_subnet hostname allocated new :
  same_client6 c0 c →
  same_client6 c0 (ctx6_with c subnet host_subnet (ctx_hosts6_ c) hostname allocated new (ias_ c)).
Proof. intros [(? & ? & ? & ? & ? & ? & ->) ?]. split; [by repeat eexists|done]. Qed.

Lemma same_client6_ias c0 c ias :
  same_client6 c0 c →
  ia_type_ (default new_IAContext (last ias)) = ia_type_ (current_ia c) →
  ia_iaid_ (default new_IAContext (last ias)) = ia_iaid_ (current_ia c) →
  same_client6 c0 (ctx6_with_ias ias c).
Proof.
  intros [(? & ? & ? & ? & ? & ? & ->) [E1 E2]] E3 E4. split; [by repeat eexists|].
  unfold current_ia, ctx6_with_ias in *. cbn in *. split; congruence.
Qed.

Lemma clientSupported_shape h h' sub sub' classes :
  heap_shape h' = heap_shape h → shape sub' = shape sub →
  clientSupported h' sub' classes = clientSupported h sub classes.
Proof.
  intros [= _ E] Es. apply shape_fields in Es as (_ & E1 & _ & E2 & _).
  unfold clientSupported, network_at. by rewrite E1, E2, E.
Qed.

(** One step of the walk over a network. *)
Lemma getNextSubnet_chain h f k p :
  wf_heap h → on_chain h f k p →
  ∃ r, getNextSubnet h p f = Ok r ∧ ∀ q, r = Some q → on_chain h f (S k) q.
Proof.
  intros Hh Hk. pose proof Hk as (sf & Hf & Hk').
  destruct (on_chain_some h f k p Hh Hk) as [sub Hp]. unfold getNextSubnet, subnet_at. rewrite Hp.
  destruct (shared_network_ sf) as [n|] eqn:E.
  - destruct Hk' as (net & i & Hn & Hi & Hki).
    assert (p ∈ subnets_ net) as Hpn
      by (rewrite <- (elem_of_rotate _ i); by eapply list_elem_of_lookup_2).
    apply (wf_heap_back h Hh n net p Hn) in Hpn as (sub' & Hp' & En).
    rewrite Hp in Hp'. injection Hp' as <-. unfold network_at. cbn. rewrite En, Hn. cbn.
    eexists. split.
    + apply (getNextSubnet_step h (subnets_ net) i f) with (k := k) (p := p); [| |done..].
      * by apply (wf_heap_ids h Hh n).
      * apply Forall_forall. intros q Hq.
        apply (wf_heap_back h Hh n net q Hn) in Hq as (? & ? & _). by eexists.
    + intros q Hq. exists sf. split; [done|]. rewrite E. by exists net, i.
  - destruct Hk' as [-> ->]. rewrite Hf in Hp. injection Hp as <-. cbn. rewrite E.
    by exists None.
Qed.

Section Safety6.
Context {M : Type} `{LeaseMgr6Laws M} `{HostMgrLaws} `{HostMgr6Laws} `{EngineConfig}
  `{EngineConfig6} (s0 : State6 M).
Implicit Types (s : State6 M) (l : Lease6).

#[local] Abbreviation c0 := (ctx6 s0).
#[local] Abbreviation the_type := (ia_type_ (current_ia c0)).
#[local] Abbreviation fake := (fake_allocation6_ c0).

(** ** What is said of the results *)

(** A lease of the IA of the message. *)
Definition mine6 l : Prop :=
  lease_type_ l = the_type ∧ getDuidVector l = default [] (ctx_duid_ c0) ∧
  iaid_ l = ia_iaid_ (current_ia c0).

(** A lease in use, of the type the message asks for, that is not of its IA. *)
Definition foreign6 l : Prop :=
  expired6 now l = false ∧ lease_type_ l = the_type ∧ ¬ mine6 l.

(** No such lease is at the address. *)
Definition no_foreign (a : IOAddress) : Prop :=
  ∀ l, lm6_leases (db6 s0) !! a = Some l → ¬ foreign6 l.

Definition owned l : Prop := mine6 l ∧ no_foreign (addr6_ l).
Definition owned_opt (o : option Lease6) : Prop := from_option owned True o.

(** A subnet of the network of the message. *)
Definition sibling (p : Z) : Prop :=
  ∃ f sf sub, ctx_subnet6_ c0 = Some f ∧ subnets (heap6 s0) !! f = Some sf ∧
    subnets (heap6 s0) !! p = Some sub ∧
    (p = f ∨ ∃ n, shared_network_ sf = Some n ∧ shared_network_ sub = Some n).

(** The database holds the same leases of others, and no new ones for an offer. *)
Definition db_ok (d : M) : Prop :=
  (∀ a l, foreign6 l → lm6_leases d !! a = Some l ↔ lm6_leases (db6 s0) !! a = Some l) ∧
  (fake = true → lm6_leases d ⊆ lm6_leases (db6 s0)).

(** The subnet of a context; it is not lost. *)
Definition subnet_ok (o : option Z) : Prop :=
  match o with Some p => sibling p | None => ctx_subnet6_ c0 = None end.

Record inv6 s : Prop := {
  inv6_heap : wf_heap (heap6 s);
  inv6_subnets : ∀ p sub, subnets (heap6 s) !! p = Some sub → wf6 sub;
  inv6_shape : heap_shape (heap6 s) = heap_shape (heap6 s0);
  inv6_client : same_client6 c0 (ctx6 s);
  inv6_subnet : subnet_ok (ctx_subnet6_ (ctx6 s));
  inv6_db : db_ok (db6 s)
}.

Definition safe6 {A} (m : ST (State6 M) A) (Q : A → Prop) : Prop :=
  ∀ s, inv6 s → wp m s (λ a s', inv6 s' ∧ Q a) (λ e s', inv6 s' ∧ e ≠ OutOfFuel).

(** ** Rules *)

Lemma safe6_ret {A} (a : A) (Q : A → Prop) : Q a → safe6 (mret a) Q.
Proof. intros HQ s Hs. by apply wp_ret. Qed.
Lemma safe6_throw {A} e (Q : A → Prop) : e ≠ OutOfFuel → safe6 (throw e) Q.
Proof. intros He s Hs. by apply wp_throw. Qed.
Lemma safe6_lift {A} (r : res A) (Q : A → Prop) :
  r ≠ Throw OutOfFuel → (∀ a, r = Ok a → Q a) → safe6 (lift r) Q.
Proof. intros Hr HQ s Hs. apply wp_lift. destruct r; [auto|]. split; [done|congruence]. Qed.
Lemma safe6_bind {A B} (m : ST (State6 M) A) (f : A → ST (State6 M) B) P Q :
  safe6 m P → (∀ a, P a → safe6 (f a) Q) → safe6 (m ≫= f) Q.
Proof.
  intros Hm Hf s Hs. apply wp_bind. eapply wp_mono; [by apply Hm| |done].
  intros a s' [Hs' HP]. by apply Hf.
Qed.
Lemma safe6_mono {A} (m : ST (State6 M) A) (P Q : A → Prop) :
  safe6 m P → (∀ a, P a → Q a) → safe6 m Q.
Proof.
  intros Hm HQ s Hs. eapply wp_mono; [by apply Hm| |done]. intros a s' [? ?]. auto.
Qed.
Lemma safe6_try_catch {A} (m h : ST (State6 M) A) Q :
  safe6 m Q → safe6 h Q → safe6 (try_catch m h) Q.
Proof.
  intros Hm Hh s Hs. apply wp_try_catch. eapply wp_mono; [by apply Hm|done|].
  intros e s' [Hs' He]. destruct (catchable e); [by apply Hh|done].
Qed.
(** A computation that only needs the invariant of the state it starts from. *)
Lemma safe6_get : safe6 get inv6.
Proof. intros s Hs. by apply wp_get. Qed.

Lemma safe6_query_db {A} (f : M → A) (Q : A → Prop) :
  (∀ d, db_ok d → Q (f d)) → safe6 (query_db6 f) Q.
Proof. intros HQ s Hs. apply wp_bind, wp_get, wp_ret. split; [done|]. apply HQ, Hs. Qed.

(** What is known of a context. *)
Definition ctx_ok (c : ClientContext6) : Prop :=
  same_client6 c0 c ∧ subnet_ok (ctx_subnet6_ c).

Lemma safe6_get_ctx : safe6 get_ctx6 ctx_ok.
Proof.
  intros s Hs. apply wp_bind, wp_get, wp_ret. split; [done|]. split; apply Hs.
Qed.

Lemma safe6_update_ctx f :
  (∀ c, ctx_ok c → ctx_ok (f c)) → safe6 (update_ctx6 f) (λ _, True).
Proof.
  intros Hf s Hs. apply wp_modify. split; [|done].
  destruct (Hf (ctx6 s)) as [H1' H2']; [split; apply Hs|]. destruct Hs. by split.
Qed.

Lemma wf_heap0 s : inv6 s → wf_heap (heap6 s0).
Proof. intros Hs. eapply heap_shape_wf; [symmetry; apply Hs|apply Hs]. Qed.

Lemma safe6_the_subnet p :
  safe6 (the_subnet6 p) (λ sub, wf6 sub ∧
    ∃ sub0, subnets (heap6 s0) !! p = Some sub0 ∧ shape sub0 = shape sub).
Proof.
  intros s Hs. apply wp_bind, wp_get, wp_lift. unfold subnet_at.
  destruct (subnets (heap6 s) !! p) as [sub|] eqn:E; [|by split].
  split; [done|]. split; [by apply (inv6_subnets s Hs p)|].
  eapply heap_shape_lookup; [apply Hs|done].
Qed.

Lemma current_ia_ensure c : current_ia (ensure_ia c) = current_ia c.
Proof. unfold ensure_ia, createIAContext, current_ia. by destruct (ias_ c) eqn:E; cbn; rewrite ?E. Qed.

Lemma safe6_currentIA :
  safe6 currentIA (λ ia, ia_type_ ia = the_type ∧ ia_iaid_ ia = ia_iaid_ (current_ia c0)).
Proof.
  unfold currentIA. eapply safe6_bind; [apply safe6_update_ctx|].
  - intros c [Hc Hp]. split; [|unfold ensure_ia; by destruct (ias_ c)].
    pose proof (current_ia_ensure c) as E. unfold ensure_ia in *.
    destruct (ias_ c) eqn:El; [|done]. unfold createIAContext. apply same_client6_ias; [done|..];
      by rewrite last_snoc; unfold current_ia; rewrite El.
  - intros _ _. eapply safe6_bind; [apply safe6_get_ctx|]. intros c [[_ Hc] _].
    by apply safe6_ret.
Qed.

Lemma safe6_update_ia f :
  (∀ ia, ia_type_ (f ia) = ia_type_ ia ∧ ia_iaid_ (f ia) = ia_iaid_ ia) →
  safe6 (update_ia f) (λ _, True).
Proof.
  intros Hf. unfold update_ia. eapply safe6_bind; [apply safe6_currentIA|]. intros ia [E1 E2].
  destruct (Hf ia) as [E3 E4]. apply safe6_update_ctx. intros c [Hc Hp]. split; [|done].
  pose proof Hc as [_ [E5 E6]]. apply same_client6_ias; [done|..]; rewrite last_snoc; cbn; congruence.
Qed.

Lemma safe6_stat_add name delta : safe6 (stat_add6 name delta) (λ _, True).
Proof.
  intros s Hs. apply wp_zoom. eapply wp_mono; [apply wp_addValue| |]; intros; cbn;
    (split; [by destruct Hs|done]).
Qed.

Lemma safe6_queueNCR t l : safe6 (queueNCR6 t l) (λ _, True).
Proof.
  unfold queueNCR6. destruct (_ && _); [|by apply safe6_ret].
  destruct (_ || _); [by apply safe6_ret|]. destruct (ncr6_ok l); [|by apply safe6_ret].
  intros s Hs. apply wp_modify. split; [by destruct Hs|done].
Qed.

(** ** The database *)

Lemma safe6_in_db {A} (m : ST M A) (P : A → Prop) :
  (∀ d, db_ok d → wp m d (λ a d', db_ok d' ∧ P a)
                       (λ e d', e ≠ OutOfFuel ∧ lm6_leases d' = lm6_leases d)) →
  safe6 (in_db6 m) P.
Proof.
  intros Hm s Hs. apply wp_zoom. eapply wp_mono; [apply Hm, Hs| |].
  - intros a d [Hd HP]. split; [|done]. destruct Hs. by split.
  - intros e d [He Hd]. split; [|done]. destruct Hs as [? ? ? ? ? Hok]. split; cbn; try done.
    unfold db_ok. by rewrite Hd.
Qed.

Lemma safe6_deleteLease a :
  no_foreign a → safe6 (in_db6 (lm6_deleteLease a)) (λ _, True).
Proof.
  intros Ha. apply safe6_in_db. intros d [Hd1 Hd2].
  eapply wp_mono; [apply lm6_deleteLease_spec| |done]. intros b d' [_ E]. split; [|done].
  split; rewrite E.
  - intros b' l Hl. rewrite lookup_delete_Some, Hd1 by done. split; [by intros []|].
    intros Hl0. split; [|done]. intros <-. by apply (Ha l).
  - intros Hf. etrans; [apply delete_subseteq|by apply Hd2].
Qed.

Lemma safe6_updateLease6 l :
  fake = false → owned l → safe6 (in_db6 (lm6_updateLease6 l)) (λ _, True).
Proof.
  intros Hfake [Hm Hl]. apply safe6_in_db. intros d [Hd1 _].
  eapply wp_mono; [apply lm6_updateLease6_spec| |done]. intros [] d' [_ E]. split; [|done].
  split; rewrite E; [|congruence]. intros a l' Hl'. rewrite lookup_insert_Some, Hd1 by done.
  split; [intros [[_ ->]|[_ ?]]; [by destruct Hl' as (_ & _ & [])|done]|].
  intros Ha. destruct (decide (addr6_ l = a)) as [<-|]; [|by right]. by destruct (Hl l').
Qed.

Lemma safe6_addLease l :
  fake = false → mine6 l →
  safe6 (in_db6 (lm6_addLease l)) (λ b, b = true → no_foreign (addr6_ l)).
Proof.
  intros Hfake Hm. apply safe6_in_db. intros d [Hd1 Hd2].
  eapply wp_mono; [apply lm6_addLease_spec| |done]. intros b d' Hb.
  destruct (lm6_leases d !! addr6_ l) as [l0|] eqn:E0; destruct Hb as [Hb E].
  { split; [by split; rewrite E|]. intros -> l1 Hl1 Hf. pose proof Hf as (_ & Ht & _).
    apply Hd1 in Hl1; [|done]. rewrite E0 in Hl1. injection Hl1 as ->.
    destruct Hm as [Hm _]. specialize (Hb ltac:(congruence)). done. }
  split; [|intros _ l1 Hl1 Hf; apply Hd1 in Hl1; [congruence|done]].
  split; rewrite E; [|congruence].
  intros a l' Hl'. rewrite lookup_insert_Some, <- (Hd1 a l' Hl').
  split; [intros [[_ ->]|[_ ?]]; [by destruct Hl' as (_ & _ & [])|done]|].
  intros Ha. right. split; [congruence|done].
Qed.

(** What a lookup says about the leases of others. *)
Lemma getLease6_None a d :
  db_ok d → lm6_getLease6 the_type a d = None → no_foreign a.
Proof.
  intros [Hd _] Hn l Hl Hf. pose proof Hf as (_ & Ht & _).
  apply Hd in Hl; [|done]. rewrite lm6_getLease6_eq, Hl in Hn. cbn in Hn.
  by rewrite decide_True in Hn.
Qed.

Lemma getLease6_Some t a d l :
  db_ok d → lm6_getLease6 t a d = Some l →
  lease_type_ l = t ∧ addr6_ l = a ∧ (¬ foreign6 l → no_foreign a).
Proof.
  intros [Hd _] Hl. rewrite lm6_getLease6_eq in Hl.
  destruct (lm6_leases d !! a) as [l1|] eqn:E; [|done]. cbn in Hl.
  destruct (decide (lease_type_ l1 = t)) as [Ht|]; [|done]. injection Hl as ->.
  split_and!; [done|by apply (lm6_leases_addr d)|].
  intros Hn l2 Hl2 Hf. apply Hd in Hl2; [|done]. rewrite E in Hl2. injection Hl2 as ->. done.
Qed.

Lemma getLeases6_owned d l :
  db_ok d →
  l ∈ lm6_getLeases6 the_type (default [] (ctx_duid_ c0)) (ia_iaid_ (current_ia c0)) d → owned l.
Proof.
  intros [Hd _] (Hl & ? & ? & ?)%lm6_getLeases6_elem. assert (mine6 l) as Hm by done.
  split; [done|]. intros l2 Hl2 Hf. apply Hd in Hl2; [|done]. rewrite Hl in Hl2.
  injection Hl2 as ->. by destruct Hf as (_ & _ & []).
Qed.

(** ** The subnets *)

Definition sub_ok (p : Z) (sub : Subnet) : Prop :=
  wf6 sub ∧ ∃ sub0, subnets (heap6 s0) !! p = Some sub0 ∧ shape sub0 = shape sub.

Lemma networks0 s : inv6 s → networks (heap6 s) = networks (heap6 s0).
Proof. intros Hs. by pose proof (inv6_shape s Hs) as [= _ ?]. Qed.

Lemma safe6_current_subnet : safe6 current_subnet6 (λ sub, ∃ p, sibling p ∧ sub_ok p sub).
Proof.
  unfold current_subnet6. eapply safe6_bind; [apply safe6_get_ctx|]. intros c [_ Hc].
  destruct (ctx_subnet6_ c) as [p|]; [|by apply safe6_throw].
  eapply safe6_mono; [apply safe6_the_subnet|]. intros sub Hsub. by exists p.
Qed.

(** The other subnets of the network of a sibling are siblings. *)
Lemma sibling_network s p sub n net q :
  inv6 s → sibling p → sub_ok p sub → shared_network_ sub = Some n →
  networks (heap6 s) !! n = Some net → q ∈ subnets_ net → sibling q.
Proof.
  intros Hs (f & sf & sub1 & Hf & Hsf & Hsub1 & Hp) (_ & sub0 & Hsub0 & Es) Hn Hnet Hq.
  apply shape_fields in Es as (_ & En & _). rewrite Hsub0 in Hsub1. injection Hsub1 as <-.
  rewrite (networks0 s Hs) in Hnet.
  apply (wf_heap_back _ (wf_heap0 s Hs) n net q Hnet) in Hq as (subq & Hsubq & Enq).
  exists f, sf, subq. split_and!; [done..|]. right. exists n. split; [|done].
  destruct Hp as [->|(n' & E1 & E2)]; congruence.
Qed.

Lemma chain_sibling s f k p :
  inv6 s → sibling f → on_chain (heap6 s0) f k p → sibling p.
Proof.
  intros Hs Hf (sf & Hsf & Hk). destruct (shared_network_ sf) as [n|] eqn:E.
  - destruct Hk as (net & i & Hn & Hi & Hk). apply list_elem_of_lookup_2, elem_of_rotate in Hk.
    destruct (heap_shape_lookup _ _ f sf (eq_sym (inv6_shape s Hs)) Hsf) as (sf' & Hsf' & Es).
    eapply (sibling_network s f sf' n net); [done|done| | |by rewrite networks0|done].
    + split; [by apply (inv6_subnets s Hs f)|]. by exists sf.
    + by apply shape_fields in Es as (_ & -> & _).
  - by destruct Hk as [_ ->].
Qed.

Definition next_ok (next : Z → Z → ST (State6 M) (option Z)) : Prop :=
  ∀ f k p, on_chain (heap6 s0) f k p →
    safe6 (next f p) (λ r, ∀ q, r = Some q → ∃ k', (k < k')%nat ∧ on_chain (heap6 s0) f k' q).

Lemma next_subnet6_ok : next_ok next_subnet6.
Proof.
  intros f k p Hk s Hs. apply wp_bind, wp_get, wp_lift.
  apply (on_chain_shape _ (heap6 s)) in Hk; [|apply Hs].
  destruct (getNextSubnet_chain (heap6 s) f k p (inv6_heap s Hs) Hk) as (r & -> & Hr).
  split; [done|]. intros q Hq. exists (S k). split; [lia|].
  eapply on_chain_shape; [symmetry; apply Hs|auto].
Qed.

Lemma next_subnet6_classes_ok classes : next_ok (next_subnet6_classes classes).
Proof.
  intros f k p Hk s Hs. apply wp_bind, wp_get.
  pose proof (on_chain_shape _ (heap6 s) f k p (inv6_shape s Hs) Hk) as (sf & Hf & Hk').
  pose proof (inv6_heap s Hs) as Hh. destruct (shared_network_ sf) as [n|] eqn:E.
  - destruct Hk' as (net & i & Hn & Hi & Hki).
    rewrite (getNextSubnet_classes_Ok (heap6 s) n net i k _ f p classes Hh Hn Hi Hki)
      by (pose proof (network_length (heap6 s) n net Hh Hn); lia).
    apply wp_lift. split; [done|]. intros q Hq.
    apply head_Some_elem_of, list_elem_of_filter in Hq as [_ Hq].
    apply list_elem_of_lookup in Hq as [j Hj]. rewrite lookup_drop in Hj.
    exists (S k + j)%nat. split; [lia|]. eapply on_chain_shape; [symmetry; apply Hs|].
    exists sf. split; [done|]. rewrite E. by exists net, i.
  - destruct Hk' as [-> ->]. unfold getNextSubnet_classes, subnet_at. rewrite Hf, E.
    by apply wp_lift.
Qed.

Lemma safe6_walk_loop {A} fuel next f (body : Z → ST (State6 M) (option A)) Q k p :
  next_ok next → sibling f → (∀ q, sibling q → safe6 (body q) (λ r, ∀ a, r = Some a → Q a)) →
  on_chain (heap6 s0) f k p → (base.size (subnets (heap6 s0)) < k + fuel)%nat →
  safe6 (walk6_loop fuel (next f) body (Some p)) (λ r, ∀ a, r = Some a → Q a).
Proof.
  intros Hnext Hf Hbody. revert k p. induction fuel as [|fuel IH]; intros k p Hk Hfuel s Hs;
    pose proof (on_chain_bound _ _ _ _ (wf_heap0 s Hs) Hk); [lia|].
  pose proof (chain_sibling s f k p Hs Hf Hk) as Hp. revert s Hs. cbn [walk6_loop].
  eapply safe6_bind; [by apply Hbody|]. intros [a|] Ha; [by apply safe6_ret|].
  eapply safe6_bind; [by apply Hnext|]. intros [q|] Hq.
  - destruct (Hq q eq_refl) as (k' & Hlt & Hk'). apply (IH k'); [done|lia].
  - destruct fuel; by apply safe6_ret.
Qed.

(** The size of the heap is the one of [s0]. *)
Lemma size0 s : inv6 s → base.size (subnets (heap6 s)) = base.size (subnets (heap6 s0)).
Proof.
  intros Hs. pose proof (inv6_shape s Hs) as [= E _].
  apply (f_equal base.size) in E. by rewrite !map_size_fmap in E.
Qed.

Lemma sibling_start s f : inv6 s → sibling f → on_chain (heap6 s0) f 0 f.
Proof. intros Hs (? & ? & ? & _ & _ & ? & _). eapply on_chain_start; [by apply (wf_heap0 s)|done]. Qed.

Lemma safe6_walk {A} first next (body : Z → ST (State6 M) (option A)) Q :
  next_ok next → (∀ f, first = Some f → sibling f) →
  (∀ p, sibling p → safe6 (body p) (λ r, ∀ a, r = Some a → Q a)) →
  safe6 (walk6 first next body) (λ r, ∀ a, r = Some a → Q a).
Proof.
  intros Hnext Hf Hbody. unfold walk6. eapply safe6_bind; [apply safe6_get|]. intros s Hs.
  destruct first as [f|]; [|by apply safe6_ret]. specialize (Hf f eq_refl).
  apply (safe6_walk_loop _ _ _ _ _ 0); [done..|by apply (sibling_start s)|].
  rewrite (size0 s Hs). lia.
Qed.

Lemma safe6_collect_loop {A} fuel f (g : Subnet → M → list A) Q k p acc :
  (∀ sub d, db_ok d → Forall Q (g sub d)) → Forall Q acc →
  on_chain (heap6 s0) f k p → (base.size (subnets (heap6 s0)) < k + fuel)%nat →
  safe6 (collect6_loop fuel f g (Some p) acc) (Forall Q).
Proof.
  intros Hg. revert k p acc. induction fuel as [|fuel IH]; intros k p acc Hl Hk Hfuel s Hs;
    pose proof (on_chain_bound _ _ _ _ (wf_heap0 s Hs) Hk); [lia|].
  revert s Hs. cbn [collect6_loop]. eapply safe6_bind; [apply safe6_the_subnet|]. intros sub _.
  eapply safe6_bind; [by apply (safe6_query_db _ (Forall Q)), Hg|]. intros more Hmore.
  eapply safe6_bind; [by apply next_subnet6_ok|]. intros [q|] Hq.
  - destruct (Hq q eq_refl) as (k' & Hlt & Hk'). apply (IH k'); [by apply Forall_app|done|lia].
  - destruct fuel; apply safe6_ret; by apply Forall_app.
Qed.

Lemma safe6_collect {A} first (g : Subnet → M → list A) Q :
  sibling first → (∀ sub d, db_ok d → Forall Q (g sub d)) →
  safe6 (collect6 first g) (Forall Q).
Proof.
  intros Hf Hg. unfold collect6. eapply safe6_bind; [apply safe6_get|]. intros s Hs.
  apply (safe6_collect_loop _ _ _ _ 0); [done|done|by apply (sibling_start s)|].
  rewrite (size0 s Hs). lia.
Qed.
(** ** Which subnets and pools the client may use *)

#[local] Abbreviation the_classes := (query_classes6 c0).

Definition open_to (p : Z) : Prop := ∃ sub,
  subnets (heap6 s0) !! p = Some sub ∧ clientSupported (heap6 s0) sub the_classes = Ok true.

(** An address or a prefix of a pool the client may use. *)
Definition in_pool6 (t : LeaseType) (a : IOAddress) : Prop := ∃ p sub,
  sibling p ∧ open_to p ∧ subnets (heap6 s0) !! p = Some sub ∧
  inPool_classes sub t a the_classes = Ok true.

(** A lease of what a host of the context reserves. *)
Definition reserved6 l : Prop := ∃ sid h r,
  ctx_hosts6_ c0 !! sid = Some h ∧ r ∈ ipv6_reservations_ h ∧
  resrv_prefix_ r = addr6_ l ∧ resrv_type_ r = resrv_type_of (lease_type_ l) ∧
  (lease_type_ l = TYPE_PD → resrv_len_ r = prefixlen_ l).

Definition granted6 l : Prop :=
  owned l ∧ (in_pool6 (lease_type_ l) (addr6_ l) ∨ reserved6 l).
Definition granted_opt (o : option Lease6) : Prop := from_option granted6 True o.

Lemma ctx_ok_eq c : ctx_ok c →
  query6_ c = query6_ c0 ∧ fake_allocation6_ c = fake ∧ ctx_duid_ c = ctx_duid_ c0 ∧
  ctx_hosts6_ c = ctx_hosts6_ c0 ∧ callout_handle6_ c = callout_handle6_ c0.
Proof. intros [Hc _]. by apply same_client6_eq. Qed.

Lemma ctx_ok_siblings c p : ctx_ok c → ctx_subnet6_ c = Some p → sibling p.
Proof. intros [_ Hc] E. by rewrite E in Hc. Qed.

Lemma classes_eq c : ctx_ok c → query_classes6 c = the_classes.
Proof. intros (E & _)%ctx_ok_eq. unfold query_classes6. by rewrite E. Qed.

Lemma clientSupported_exn h sub classes : clientSupported h sub classes ≠ Throw OutOfFuel.
Proof.
  unfold clientSupported, network_at.
  destruct (shared_network_ sub) as [n|]; [destruct (networks h !! n)|];
    cbn [mbind res_bind mret res_ret]; try destruct (negb _); done.
Qed.

Lemma safe6_supported p sub s c :
  inv6 s → sub_ok p sub → ctx_ok c →
  safe6 (lift (clientSupported (heap6 s) sub (query_classes6 c))) (λ b, b = true → open_to p).
Proof.
  intros Hs (_ & sub0 & Hsub0 & Es) Hc. rewrite (classes_eq c Hc).
  apply safe6_lift; [apply clientSupported_exn|]. intros b Hb ->. exists sub0. split; [done|].
  rewrite <- Hb. symmetry. apply clientSupported_shape; [apply Hs|done].
Qed.

Lemma wf6_allowed sub t : wf6 sub → t ≠ TYPE_V4 → allowed sub t.
Proof. intros (Hk & _) Ht. unfold allowed. by rewrite Hk. Qed.

Lemma inRange_exn sub a : wf6 sub → inRange sub a ≠ Throw OutOfFuel.
Proof. intros (_ & Hs & _). by rewrite inRange_Ok. Qed.

Lemma inPool_exn sub t a : wf6 sub → inPool sub t a ≠ Throw OutOfFuel.
Proof.
  intros (_ & Hs & _). unfold inPool. rewrite inRange_Ok, getPools_eq by done.
  case_bool_decide; cbn [mbind res_bind mret res_ret]; destruct (negb _); try done;
    by destruct (decide _).
Qed.

Lemma inPool_classes_exn6 sub t a classes :
  wf6 sub → inPool_classes sub t a classes ≠ Throw OutOfFuel.
Proof.
  intros (_ & Hs & _). unfold inPool_classes. rewrite inRange_Ok, getPools_eq by done.
  case_bool_decide; cbn [mbind res_bind mret res_ret]; destruct (negb _); try done;
    by destruct (decide _).
Qed.

Lemma getPool_classes_safe sub t classes hint :
  wf6 sub → safe6 (lift (getPool_classes sub t classes hint))
    (λ r, ∀ p, r = Some p → inPool_classes sub t hint classes = Ok true).
Proof.
  intros Hwf. destruct (decide (allowed sub t)) as [Ha|Ha].
  - destruct Hwf as (_ & Hs & _).
    destruct (getPool_classes_spec sub t classes hint Hs Ha) as (r & -> & Hr).
    apply safe6_lift; [done|]. intros r' [= ->] p (Hp & Hh & Hc)%Hr.
    by apply (inPool_classes_intro sub t p).
  - unfold getPool_classes. rewrite checkType_eq, decide_False by done. by apply safe6_throw.
Qed.

(** An address found in a pool of a subnet of the walk. *)
Lemma in_pool6_intro p sub t a :
  sibling p → open_to p → sub_ok p sub → inPool_classes sub t a the_classes = Ok true →
  in_pool6 t a.
Proof.
  intros Hp Ho (_ & sub0 & Hsub0 & Es) Hin. exists p, sub0. split_and!; [done..|].
  by rewrite <- inPool_classes_shape, Es, inPool_classes_shape.
Qed.

Lemma safe6_inAllowedPool t a check_subnet :
  safe6 (inAllowedPool6 t a check_subnet)
    (λ b, b = true → check_subnet = false → in_pool6 t a).
Proof.
  unfold inAllowedPool6. eapply safe6_bind; [apply safe6_get_ctx|]. intros c Hc.
  eapply safe6_bind with (P := λ r, ∀ x : unit, r = Some x → check_subnet = false → in_pool6 t a).
  - apply safe6_walk; [apply next_subnet6_ok|intros f; by apply (ctx_ok_siblings c)|]. intros p Hp.
    eapply safe6_bind; [apply safe6_the_subnet|]. intros sub Hsub.
    eapply safe6_bind; [apply safe6_get|]. intros s Hs.
    eapply safe6_bind; [by apply safe6_supported|]. intros [] Ho; [|by apply safe6_ret].
    eapply safe6_bind with (P := λ b, b = true → check_subnet = false → in_pool6 t a).
    + apply safe6_lift.
      * destruct check_subnet; [apply inPool_exn|apply inPool_classes_exn6]; apply Hsub.
      * intros b Hb -> ->. rewrite (classes_eq c Hc) in Hb.
        by apply (in_pool6_intro p sub); auto.
    + intros [] Hb; apply safe6_ret; [intros _ _; auto|done].
  - intros r Hr. apply safe6_ret. rewrite bool_decide_eq_true. intros [[] Hx] Hf. eauto.
Qed.

(** ** The allocator *)

Lemma safe6_pick p t : t ≠ TYPE_V4 →
  safe6 (in_subnet6 p (pickAddress t the_classes now))
    (λ a, ∃ sub, sub_ok p sub ∧ inPool_classes sub t a the_classes = Ok true).
Proof.
  intros Ht s Hs. unfold wp, in_subnet6. destruct (subnets (heap6 s) !! p) as [sub|] eqn:Ep;
    [|done].
  destruct (inv6_subnets s Hs p sub Ep) as (Hk & Hwf & Hok).
  pose proof (wf6_allowed sub t (conj Hk (conj Hwf Hok)) Ht) as Ha.
  pose proof (pickAddress_ok t the_classes now sub Hwf Ha (Hok t Ht)) as Hpick.
  assert (∀ sub', wf6 sub' → shape sub' = shape sub →
    inv6 (with_heap6 (set_subnet p sub' (heap6 s)) s)) as Hset.
  { intros sub' Hsub' Esh. pose proof (heap_shape_set (heap6 s) p sub sub' Ep Esh) as Eh.
    destruct Hs as [I1 I2 I3 I4 I5 I6].
    split; cbn [heap6 ctx6 db6 with_heap6]; [by eapply heap_shape_wf| |congruence|done..].
    intros q sub2. cbn. rewrite lookup_insert_Some. intros [[_ <-]|[_ Hq]]; [done|eauto]. }
  destruct (pickAddress _ _ _ _) as [sub' [a|e]].
  - destruct Hpick as (Hwf' & Hsim & (_ & q & Hq & Hu & Hin)).
    pose proof (subnet_sim_shape _ _ _ Hsim) as Esh.
    assert (wf6 sub') as Hsub' by (by apply (wf6_sim t sub)).
    split; [by apply Hset|]. exists sub'. split.
    + split; [done|]. destruct (heap_shape_lookup _ _ p sub (inv6_shape s Hs) Ep) as (x & ? & ?).
      exists x. split; [done|congruence].
    + apply (inPool_classes_intro sub' t q); try done. by apply wf6_allowed.
  - destruct Hpick as (-> & -> & _). split; [|done].
    apply Hset; [by split_and!|done].
Qed.
(** ** Reclaiming, reusing and creating leases *)

Context `{!HooksOk6}.

Lemma safe6_reclaimDeclined l : safe6 (reclaimDeclined6 l) (λ r, same_lease l r.2).
Proof.
  unfold reclaimDeclined6. destruct (negb _); [by apply safe6_ret|].
  destruct (lease6_recover hooks6) as [callout|] eqn:E.
  - pose proof (recover6_same callout l E) as Hsame. destruct (callout l) as [status l'].
    destruct (decide _); [by apply safe6_ret|].
    do 4 (eapply safe6_bind; [apply safe6_stat_add|intros _ _]). by apply safe6_ret.
  - destruct (decide _); [by apply safe6_ret|].
    do 4 (eapply safe6_bind; [apply safe6_stat_add|intros _ _]). by apply safe6_ret.
Qed.

Lemma safe6_reclaimExpired l b : safe6 (reclaimExpiredLease6 l b) (same_lease l).
Proof.
  unfold reclaimExpiredLease6, reclaimExpiredLease6_mode.
  destruct (stateExpiredReclaimed6 l); [by apply safe6_ret|].
  assert (∀ l', same_lease l l' → safe6
    (_ ← queueNCR6 CHG_REMOVE l';
     '(_, l'') ← (if state6_ l' =? STATE_DECLINED then reclaimDeclined6 l'
                  else mret (bool_decide (DB_RECLAIM_LEAVE_UNCHANGED = DB_RECLAIM_REMOVE), l'));
     mret l'') (same_lease l)) as Hreclaim.
  { intros l' Hl'. eapply safe6_bind; [apply safe6_queueNCR|]. intros _ _.
    eapply safe6_bind with (P := λ r, same_lease l r.2).
    - destruct (_ =? _); [|by apply safe6_ret].
      eapply safe6_mono; [apply safe6_reclaimDeclined|]. intros r ?. by eapply same_lease_trans.
    - intros [? l''] Hl''. by apply safe6_ret. }
  assert (∀ l', same_lease l l' → safe6
    (_ ← (match lease_type_ l' with
       | TYPE_NA => stat_add6 (subnet_stat (subnet_id6_ l') "assigned-nas") (-1)
       | TYPE_PD => stat_add6 (subnet_stat (subnet_id6_ l') "assigned-pds") (-1)
       | _ => mret tt
       end);
     _ ← stat_add6 "reclaimed-leases" 1;
     _ ← stat_add6 (subnet_stat (subnet_id6_ l') "reclaimed-leases") 1;
     mret l') (same_lease l)) as Hcount.
  { intros l' Hl'. eapply safe6_bind with (P := λ _, True).
    - destruct (lease_type_ l'); first [apply safe6_stat_add|by apply safe6_ret].
    - intros _ _. do 2 (eapply safe6_bind; [apply safe6_stat_add|intros _ _]). by apply safe6_ret. }
  assert (∀ status l', same_lease l l' → safe6
    (if decide (status = NEXT_STEP_SKIP) then mret l'
     else _ ← queueNCR6 CHG_REMOVE l';
          '(_, l'') ← (if state6_ l' =? STATE_DECLINED then reclaimDeclined6 l'
                  else mret (bool_decide (DB_RECLAIM_LEAVE_UNCHANGED = DB_RECLAIM_REMOVE), l'));
          mret l'') (same_lease l)) as Hstep
    by (intros status l' Hl'; destruct (decide _); [by apply safe6_ret|auto]).
  destruct b; [|eapply safe6_bind; [by apply (Hstep NEXT_STEP_CONTINUE)|done]].
  destruct (lease6_expire hooks6) as [callout|] eqn:E;
    [|eapply safe6_bind; [by apply (Hstep NEXT_STEP_CONTINUE)|done]].
  pose proof (expire6_same callout (bool_decide (DB_RECLAIM_LEAVE_UNCHANGED = DB_RECLAIM_REMOVE)) l E)
    as Hsame.
  destruct (callout _ l) as [status l']. eapply safe6_bind; [by apply (Hstep status)|done].
Qed.

Lemma safe6_count_assigned a : safe6 (count_assigned a) (λ _, True).
Proof.
  unfold count_assigned. eapply safe6_bind; [apply safe6_currentIA|]. intros ia _.
  eapply safe6_bind; [apply safe6_current_subnet|]. intros sub (p & _ & Hsub & _).
  eapply safe6_bind; [apply (safe6_lift _ (λ _, True)); [by apply inPool_exn|done]|].
  intros [] _; [apply safe6_stat_add|by apply safe6_ret].
Qed.

Lemma call_select_same c l : same_lease l (call_select c l).2.
Proof.
  unfold call_select. destruct (callout_handle6_ c); [|done].
  destruct (lease6_select hooks6) as [callout|] eqn:E; [|done]. by apply (select6_same callout).
Qed.

(** What holds of a lease and survives the callouts. *)
Lemma same_lease_owned l l' : same_lease l l' → owned l → owned l'.
Proof.
  intros (E1 & E2 & _ & E4 & E5 & _) [(? & ? & ?) Hn]. unfold owned, mine6, getDuidVector.
  rewrite E1, E2, E4, E5. done.
Qed.

Lemma same_lease_granted l l' : same_lease l l' → granted6 l → granted6 l'.
Proof.
  intros Hsame [Ho Hp]. split; [by eapply same_lease_owned|].
  destruct Hsame as (E1 & E2 & E3 & _). unfold reserved6. rewrite E1, E2, E3. done.
Qed.

Lemma safe6_reuseExpiredLease l len :
  lease_type_ l = the_type → no_foreign (addr6_ l) → in_pool6 the_type (addr6_ l) →
  safe6 (reuseExpiredLease l len) (λ r, granted_opt r.1).
Proof.
  intros Ht Hn Hin. unfold reuseExpiredLease.
  eapply safe6_bind; [apply (safe6_lift _ (λ _, True)); [by destruct (expired6 _ _)|done]|].
  intros _ _. eapply safe6_bind; [apply safe6_get_ctx|]. intros c Hc.
  pose proof (ctx_ok_eq c Hc) as (_ & Ef & Ed & _). rewrite Ef, Ed.
  eapply safe6_bind with (P := same_lease l).
  { destruct (negb fake); [apply safe6_reclaimExpired|by apply safe6_ret]. }
  intros l1 (E1 & E2 & _).
  eapply safe6_bind; [apply safe6_currentIA|]. intros ia [_ Ei].
  eapply safe6_bind; [apply safe6_current_subnet|]. intros sub _.
  eapply safe6_bind; [apply safe6_get_ctx|]. intros c' Hc'.
  set (l2 := with_state6 _ _). assert (granted6 l2) as Hl2.
  { split; [split; [split_and!|]|left]; cbn; [congruence|done|done|by rewrite E2|].
    by rewrite E1, E2, Ht. }
  pose proof (call_select_same c' l2) as Hsame. destruct (call_select c' l2) as [status l3].
  apply (same_lease_granted _ _ Hsame) in Hl2. destruct (decide (status = _)); [by apply safe6_ret|].
  pose proof (ctx_ok_eq c' Hc') as (_ & -> & _).
  eapply safe6_bind with (P := λ _, True); [|intros _ _; by apply safe6_ret].
  destruct fake eqn:Efk; cbn [negb]; [by apply safe6_ret|].
  eapply safe6_bind; [apply safe6_updateLease6; [done|by destruct Hl2]|].
  intros _ _. apply safe6_count_assigned.
Qed.

(** A new lease; nobody else has one at the address. *)
Definition created (a : IOAddress) (len : Z) (o : option Lease6) : Prop :=
  from_option (λ l, owned l ∧ lease_type_ l = the_type ∧ addr6_ l = a ∧
    (the_type = TYPE_PD → prefixlen_ l = len)) True o.

Lemma mkLease6_safe (ia : IAContext) a len sub c :
  ctx_ok c → ia_type_ ia = the_type → ia_iaid_ ia = ia_iaid_ (current_ia c0) →
  safe6 (lift (mkLease6 now (ia_type_ ia) a (ctx_duid_ c) (ia_iaid_ ia) (preferred_ sub)
     (valid_ sub) (net_t1_ sub) (net_t2_ sub) (id_ sub) (fwd_dns_update6_ c)
     (rev_dns_update6_ c) (ctx_hostname6_ c) (ctx_hwaddr6_ c) len))
    (λ l, mine6 l ∧ addr6_ l = a ∧ prefixlen_ l = len).
Proof.
  intros (_ & _ & Ed & _)%ctx_ok_eq Et Ei. unfold mkLease6. rewrite Ed.
  case_bool_decide as E; [by apply safe6_throw|]. apply safe6_lift; [done|].
  intros l [= <-]. done.
Qed.

Lemma safe6_createLease6 a len :
  safe6 (createLease6 a len) (λ r, created a len r.1).
Proof.
  unfold createLease6. eapply safe6_bind; [apply safe6_currentIA|]. intros ia [Et Ei].
  eapply safe6_bind; [apply safe6_current_subnet|]. intros sub _.
  eapply safe6_bind; [apply safe6_get_ctx|]. intros c Hc.
  eapply safe6_bind; [by apply mkLease6_safe|]. intros l1 (Hm & Ea & El).
  pose proof (call_select_same c l1) as Hsame. destruct (call_select c l1) as [status l].
  cbn [snd] in Hsame.
  destruct (decide (status = _)); [by apply safe6_ret|].
  assert (no_foreign a → created a len (Some l)) as Hnew.
  { intros Hn. cbn. split; [apply (same_lease_owned l1); [done|]; split; [done|by rewrite Ea]|].
    destruct Hsame as (E1 & E2 & E3 & _). rewrite E1, E2, E3, El, Et. destruct Hm as [? _].
    split_and!; [done..|]. intros Hpd. by rewrite decide_False by (rewrite Hpd; naive_solver). }
  assert (mine6 l ∧ addr6_ l = a) as [Hml Eal].
  { destruct Hsame as (E1 & E2 & _ & E4 & E5 & _). destruct Hm as (? & ? & ?).
    unfold mine6, getDuidVector. rewrite E1, E2, E4, E5. done. }
  pose proof (ctx_ok_eq c Hc) as (_ & -> & _). destruct fake eqn:Ef; cbn [negb].
  - eapply safe6_bind; [apply (safe6_query_db _ (λ o, o = None → no_foreign a))|].
    + intros d Hd Hnone. rewrite Et in Hnone. by apply (getLease6_None a d).
    + intros [l0|] Hl0; apply safe6_ret; [done|]. auto.
  - eapply safe6_bind; [by apply safe6_addLease|]. intros [] Hb; [|by apply safe6_ret].
    eapply safe6_bind; [apply safe6_count_assigned|]. intros _ _. apply safe6_ret.
    rewrite Eal in Hb. auto.
Qed.
(** ** Leases the client has already *)

Lemma safe6_deref o (P : Lease6 → Prop) :
  from_option P True o → safe6 (lift (deref_lease o)) (λ l, P l ∧ o = Some l).
Proof.
  intros Ho. destruct o as [l|]; [apply safe6_lift; [done|]; by intros l' [= <-]|].
  by apply safe6_throw.
Qed.

Lemma mapM_deref_exn container : mapM deref_lease container ≠ Throw OutOfFuel.
Proof.
  induction container as [|[l|] container IH]; [done| |done]. cbn.
  destruct (mapM deref_lease container) as [|e]; [done|]. cbn. congruence.
Qed.

Lemma mapM_deref_Ok container leases :
  mapM deref_lease container = Ok leases → container = Some <$> leases.
Proof.
  revert leases. induction container as [|[l|] container IH]; intros leases; cbn.
  - by intros [= <-].
  - destruct (mapM deref_lease container) as [ls|]; [|done]. cbn. intros [= <-].
    by rewrite (IH ls).
  - done.
Qed.

(** What is left of a collection when the leases of an address are gone. *)
Lemma safe6_removeLeases container a :
  safe6 (lift (removeLeases container a))
    (λ r, Forall (λ o, o ∈ container ∧ ∃ l, o = Some l ∧ addr6_ l ≠ a) r.1).
Proof.
  unfold removeLeases. pose proof (mapM_deref_exn container) as Hexn.
  destruct (mapM deref_lease container) as [leases|e] eqn:E;
    [|apply safe6_throw; congruence].
  apply mapM_deref_Ok in E as ->. apply safe6_lift; [done|]. intros r [= <-]. cbn.
  apply Forall_fmap, Forall_forall. intros l [Hl Hin]%list_elem_of_filter. cbn.
  split; [by apply list_elem_of_fmap_2|]. exists l. split; [done|].
  intros Ea%equals_spec. congruence.
Qed.

Lemma safe6_release_lease l name : no_foreign (addr6_ l) → safe6 (release_lease l name) (λ _, True).
Proof.
  intros Hn. unfold release_lease. eapply safe6_bind; [by apply safe6_deleteLease|].
  intros _ _. eapply safe6_bind; [apply safe6_queueNCR|]. intros _ _.
  eapply safe6_bind; [apply safe6_stat_add|]. intros _ _. by apply safe6_update_ia.
Qed.

Lemma safe6_release_own l : no_foreign (addr6_ l) → safe6 (release_own l) (λ _, True).
Proof.
  intros Hn. unfold release_own. eapply safe6_bind; [apply safe6_currentIA|].
  intros ia _. by apply safe6_release_lease.
Qed.

(** A lease of the collection is one that is still to be looked at, or one that stays. *)
Definition pending (copy : list (option Lease6)) (o : option Lease6) : Prop :=
  owned_opt o ∧ (o ∈ copy ∨ granted_opt o).

Lemma pending_nil leases : Forall (pending []) leases → Forall granted_opt leases.
Proof. intros Hp. eapply Forall_impl; [exact Hp|]. by intros o [_ [?%elem_of_nil|?]]. Qed.

Lemma pending_start leases : Forall owned_opt leases → Forall (pending leases) leases.
Proof.
  intros Ho. apply Forall_forall. intros o Hin. split; [by eapply Forall_forall|by left].
Qed.

(** The lease looked at stays, *)
Lemma pending_keep l copy leases :
  granted6 l → Forall (pending (Some l :: copy)) leases → Forall (pending copy) leases.
Proof.
  intros Hl Hp. eapply Forall_impl; [exact Hp|]. intros o [Ho [[->|Hin]%elem_of_cons|Hg]]; split;
    auto; by right.
Qed.

(** or goes. *)
Lemma pending_remove l copy leases leases' :
  Forall (pending (Some l :: copy)) leases →
  Forall (λ o, o ∈ leases ∧ ∃ l', o = Some l' ∧ addr6_ l' ≠ addr6_ l) leases' →
  Forall (pending copy) leases'.
Proof.
  intros Hp Hr. eapply Forall_impl; [exact Hr|]. intros o (Hin & l' & -> & Hne).
  apply (proj1 (Forall_forall _ _) Hp) in Hin as [Ho [[E|Hin]%elem_of_cons|Hg]].
  - by injection E as ->.
  - split; [done|by left].
  - split; [done|by right].
Qed.

(** The end of both loops. *)
Lemma safe6_remove_and l copy leases (k : list (option Lease6) → ST (State6 M) (list (option Lease6))) :
  owned l → Forall (pending (Some l :: copy)) leases →
  (∀ leases', Forall (pending copy) leases' → safe6 (k leases') (Forall granted_opt)) →
  safe6 (_ ← release_own l; r ← lift (removeLeases leases (addr6_ l)); k r.1)
    (Forall granted_opt).
Proof.
  intros [_ Hn] Hp Hk. eapply safe6_bind; [by apply safe6_release_own|]. intros _ _.
  eapply safe6_bind; [apply safe6_removeLeases|]. intros r Hr. apply Hk.
  by eapply pending_remove.
Qed.

Lemma safe6_no_host_loop copy leases :
  Forall owned_opt copy → Forall (pending copy) leases →
  safe6 (no_host_loop copy leases) (Forall granted_opt).
Proof.
  revert leases. induction copy as [|o copy IH]; intros leases Hc Hp; cbn [no_host_loop].
  { apply safe6_ret. by apply pending_nil. }
  apply Forall_cons in Hc as [Ho Hc].
  eapply safe6_bind; [by apply safe6_deref|]. intros l [Hl ->].
  eapply safe6_bind; [apply safe6_inAllowedPool|]. intros [] Hin.
  - apply IH; [done|]. apply (pending_keep l); [|done]. split; [done|]. left. auto.
  - apply (safe6_remove_and l copy); auto.
Qed.

Lemma mkIPv6Resrv_cases type prefix len :
  mkIPv6Resrv type prefix len = Throw BadValue ∨
  mkIPv6Resrv type prefix len =
    Ok {| resrv_type_ := type; resrv_prefix_ := prefix; resrv_len_ := len |}.
Proof.
  unfold mkIPv6Resrv. destruct (_ || _); [by left|]. destruct (_ <? _); [by left|].
  destruct (_ && _); [by left|by right].
Qed.

Lemma has_reservation_exn c l type len : has_reservation c l type len ≠ Throw OutOfFuel.
Proof.
  unfold has_reservation. destruct (_ !! _); [|done].
  by destruct (mkIPv6Resrv_cases type (addr6_ l) len) as [-> | ->].
Qed.

Lemma has_reservation_reserved c l type len :
  ctx_ok c → type = resrv_type_of (lease_type_ l) →
  (lease_type_ l = TYPE_PD → len = prefixlen_ l) →
  has_reservation c l type len = Ok true → reserved6 l.
Proof.
  intros (_ & _ & _ & Eh & _)%ctx_ok_eq Et El. unfold has_reservation. rewrite Eh.
  destruct (ctx_hosts6_ c0 !! subnet_id6_ l) as [h|] eqn:E; [|done].
  destruct (mkIPv6Resrv_cases type (addr6_ l) len) as [-> | ->]; [done|].
  cbn. intros [= Hr%hasReservation_spec]. exists (subnet_id6_ l), h. by eexists.
Qed.

Lemma safe6_reserved_for_client c l :
  ctx_ok c → safe6 (lift (reserved_for_client c l)) (λ b, b = true → reserved6 l).
Proof.
  intros Hc. unfold reserved_for_client. destruct (decide (lease_type_ l = TYPE_NA)) as [E|E].
  - apply safe6_lift; [apply has_reservation_exn|]. intros b Hb ->.
    apply (has_reservation_reserved c l RESRV_NA 128); [done| |by rewrite E|done].
    unfold resrv_type_of. by rewrite decide_True.
  - apply safe6_lift; [apply has_reservation_exn|]. intros b Hb ->.
    apply (has_reservation_reserved c l RESRV_PD (prefixlen_ l)); [done| |done|done].
    unfold resrv_type_of. by rewrite decide_False.
Qed.

Lemma safe6_nonmatching_loop copy leases :
  Forall owned_opt copy → Forall (pending copy) leases →
  safe6 (nonmatching_loop copy leases) (Forall granted_opt).
Proof.
  revert leases. induction copy as [|o copy IH]; intros leases Hc Hp; cbn [nonmatching_loop].
  { apply safe6_ret. by apply pending_nil. }
  apply Forall_cons in Hc as [Ho Hc].
  eapply safe6_bind; [apply safe6_get_ctx|]. intros c Hctx.
  eapply safe6_bind; [by apply safe6_deref|]. intros l [Hl ->].
  eapply safe6_bind; [by apply safe6_reserved_for_client|]. intros [] Hres.
  { apply IH; [done|]. apply (pending_keep l); [|done]. split; [done|]. right. auto. }
  eapply safe6_bind; [apply safe6_current_subnet|]. intros sub _.
  eapply safe6_bind; [apply (safe6_lift _ (λ _, True)); [apply host_get6_address_exn|done]|].
  intros host _. eapply safe6_bind with (P := λ b, b = true → in_pool6 (lease_type_ l) (addr6_ l)).
  { destruct host; [by apply safe6_ret|]. eapply safe6_mono; [apply safe6_inAllowedPool|]. auto. }
  intros [] Hin.
  - apply IH; [done|]. apply (pending_keep l); [|done]. split; [done|]. left. auto.
  - apply (safe6_remove_and l copy); auto.
Qed.

Lemma safe6_removeNonmatching leases :
  ctx_subnet6_ c0 ≠ None → Forall owned_opt leases →
  safe6 (removeNonmatchingReservedLeases6 leases) (Forall granted_opt).
Proof.
  intros Hsub Ho. unfold removeNonmatchingReservedLeases6.
  eapply safe6_bind; [apply safe6_get_ctx|]. intros c [_ Hc].
  case_bool_decide as En; [subst leases; by apply safe6_ret|]. cbn [orb].
  case_bool_decide as Es; [by rewrite Es in Hc|].
  eapply safe6_bind; [apply safe6_current_subnet|]. intros sub _.
  apply pending_start in Ho as Hp.
  destruct (mode_is _ _); [by apply safe6_no_host_loop|by apply safe6_nonmatching_loop].
Qed.

Lemma safe6_nonreserved_loop n leases :
  Forall granted_opt leases → safe6 (nonreserved_loop n leases) (Forall granted_opt).
Proof.
  revert n. induction leases as [|o leases IH]; intros n Hg; cbn [nonreserved_loop].
  { by apply safe6_ret. }
  apply Forall_cons in Hg as [Ho Hg]. specialize (λ n, IH n Hg).
  eapply safe6_bind; [apply safe6_get_ctx|]. intros c Hc.
  eapply safe6_bind; [apply safe6_currentIA|]. intros ia _.
  eapply safe6_bind; [by apply safe6_deref|]. intros l [Hl ->].
  eapply safe6_bind; [apply (safe6_lift _ (λ _, True)); [|done]|].
  { by destruct (mkIPv6Resrv_cases (resrv_type_of (ia_type_ ia)) (addr6_ l) (prefixlen_ l))
      as [-> | ->]. }
  intros _ _. eapply safe6_bind; [apply (safe6_lift _ (λ _, True)); [apply has_reservation_exn|done]|].
  intros [] _.
  - eapply safe6_bind; [by apply IH|]. intros rest Hrest. apply safe6_ret. by constructor.
  - eapply safe6_bind; [apply safe6_release_own, Hl|]. intros _ _.
    destruct (_ =? _); [apply safe6_ret; by constructor|].
    eapply safe6_bind; [by apply IH|]. intros rest Hrest. apply safe6_ret. by constructor.
Qed.

Lemma safe6_removeNonreserved leases :
  Forall granted_opt leases → safe6 (removeNonreservedLeases6 leases) (Forall granted_opt).
Proof.
  intros Hg. destruct leases as [|o leases]; [by apply safe6_ret|].
  cbn [removeNonreservedLeases6]. eapply safe6_bind; [by apply safe6_nonreserved_loop|].
  intros r Hr. apply safe6_ret.
  apply Forall_forall. intros x [_ Hx]%list_elem_of_filter. by eapply Forall_forall.
Qed.
(** ** Reserved leases *)

(** A property of leases that lies between the two: what an operation keeps of the leases
    it is given. *)
Record lease_prop (R : Lease6 → Prop) : Prop := {
  prop_owned : ∀ l, R l → owned l;
  prop_granted : ∀ l, granted6 l → R l;
  prop_same : ∀ l l', same_lease l l' → R l → R l'
}.
#[local] Abbreviation opt R := (from_option R True).

Lemma prop_owned_ok : lease_prop owned.
Proof. split; [done|by intros l []|]. apply same_lease_owned. Qed.
Lemma prop_granted_ok : lease_prop granted6.
Proof. split; [by intros l []|done|]. apply same_lease_granted. Qed.

Lemma safe6_with_subnet p : sibling p → safe6 (update_ctx6 (ctx6_with_subnet (Some p))) (λ _, True).
Proof.
  intros Hp. apply safe6_update_ctx. intros c [Hc _]. split; [|done]. by apply same_client6_with.
Qed.

Lemma safe6_with_host_subnet o : safe6 (update_ctx6 (ctx6_with_host_subnet o)) (λ _, True).
Proof. apply safe6_update_ctx. intros c [Hc ?]. split; [|done]. by apply same_client6_with. Qed.

Lemma safe6_take_hostname h : safe6 (take_hostname h) (λ _, True).
Proof.
  unfold take_hostname. case_bool_decide; [by apply safe6_ret|].
  eapply safe6_bind; [apply safe6_get_ctx|]. intros c _. apply safe6_update_ctx.
  intros c' [Hc ?]. split; [|done]. by apply same_client6_with.
Qed.

Lemma find_reserved_exn c type i leases : find_reserved_lease c type i leases ≠ Throw OutOfFuel.
Proof.
  revert i. induction leases as [|[l|] leases IH]; intros i; [done| |done].
  cbn [find_reserved_lease deref_lease mbind res_bind].
  destruct (negb _); [|apply IH].
  pose proof (has_reservation_exn c l type (prefixlen_ l)) as Hexn.
  destruct (has_reservation _ _ _ _) as [b|e]; cbn [mbind res_bind]; [|congruence].
  destruct (ctx_hosts6_ c !! _); [destruct b|]; (done || apply IH).
Qed.

Lemma find_reserved_elem c type i leases j l h :
  find_reserved_lease c type i leases = Ok (Some (j, l, h)) → Some l ∈ leases.
Proof.
  revert i. induction leases as [|[x|] leases IH]; intros i; [done| |done].
  cbn [find_reserved_lease deref_lease mbind res_bind]. rewrite elem_of_cons.
  destruct (negb _); [|eauto].
  destruct (has_reservation _ _ _ _) as [b|e]; cbn [mbind res_bind]; [|done].
  destruct (ctx_hosts6_ c !! _); [destruct b|]; [|eauto..]. intros [= _ -> _]. by left.
Qed.

Lemma network_at_exn h n : network_at h n ≠ Throw OutOfFuel.
Proof. unfold network_at. by destruct (networks h !! n). Qed.

Lemma network_at_Ok h n net : network_at h n = Ok net → networks h !! n = Some net.
Proof. unfold network_at. destruct (networks h !! n); [by intros [= ->]|done]. Qed.

Lemma safe6_keep_reserved R i l h leases :
  lease_prop R → R l → Forall (opt R) leases →
  safe6 (keep_reserved_lease i l h leases) (Forall (opt R)).
Proof.
  intros HR Hl Hleases. unfold keep_reserved_lease.
  eapply safe6_bind; [apply safe6_get_ctx|]. intros c Hc.
  eapply safe6_bind with (P := λ _, True).
  { destruct (host_subnet_ c); [by apply safe6_ret|].
    eapply safe6_bind; [apply safe6_current_subnet|]. intros sub _.
    destruct (shared_network_ sub) as [n|]; [|by apply safe6_ret].
    eapply safe6_bind; [apply safe6_get|]. intros s Hs.
    eapply safe6_bind; [apply (safe6_lift _ (λ _, True)); [apply network_at_exn|done]|].
    intros net _. eapply safe6_bind; [apply safe6_with_host_subnet|]. intros _ _.
    apply safe6_take_hostname. }
  intros _ _. pose proof (ctx_ok_eq c Hc) as (_ & -> & _).
  destruct fake eqn:Ef; cbn [negb]; [by apply safe6_ret|].
  assert (R (with_cltt6 l now)) as Hl' by (by apply (prop_same R HR l)).
  eapply safe6_bind; [apply safe6_updateLease6; [done|by apply (prop_owned R HR)]|].
  intros _ _. apply safe6_ret. by apply Forall_insert.
Qed.

Lemma same_reserved l sid h r :
  ctx_hosts6_ c0 !! sid = Some h → r ∈ ipv6_reservations_ h →
  resrv_type_ r = resrv_type_of the_type → created (resrv_prefix_ r) (resrv_len_ r) (Some l) →
  granted6 l.
Proof.
  intros Hh Hr Ht (Ho & El & Ea & Elen). split; [done|right]. exists sid, h, r.
  rewrite El, Ea. split_and!; try done. intros Epd. symmetry. auto.
Qed.

Lemma safe6_reserve_loop p sid h reservs :
  ctx_hosts6_ c0 !! sid = Some h → sibling p →
  Forall (λ r, r ∈ ipv6_reservations_ h ∧ resrv_type_ r = resrv_type_of the_type) reservs →
  safe6 (reserve_loop p h reservs) (λ r, ∀ o, r = Some o → granted_opt o).
Proof.
  intros Hh Hp. induction reservs as [|r reservs IH]; intros Hr; cbn [reserve_loop].
  { by apply safe6_ret. }
  apply Forall_cons in Hr as [[Hr Ht] Hrs]. specialize (IH Hrs).
  eapply safe6_bind; [apply safe6_get_ctx|]. intros c Hc.
  destruct (isAllocated _ _ _); [done|].
  eapply safe6_bind; [apply safe6_currentIA|]. intros ia _.
  eapply safe6_bind; [by apply (safe6_query_db _ (λ _, True))|]. intros [l|] _; [done|].
  eapply safe6_bind; [by apply safe6_with_subnet|]. intros _ _.
  eapply safe6_bind with (P := λ _, True).
  { destruct (host_subnet_ c); [by apply safe6_ret|].
    eapply safe6_bind; [apply safe6_with_host_subnet|]. intros _ _. apply safe6_take_hostname. }
  intros _ _. eapply safe6_bind; [apply safe6_createLease6|]. intros x Hx.
  apply safe6_ret. intros o [= <-]. cbn beta in Hx. destruct x.1 as [l|]; [|done].
  by apply (same_reserved l sid h r).
Qed.

Lemma getIPv6Reservations_of h t :
  Forall (λ r, r ∈ ipv6_reservations_ h ∧ resrv_type_ r = t) (getIPv6Reservations h t).
Proof. apply Forall_forall. by intros r [? ?]%list_elem_of_filter. Qed.

Lemma safe6_allocateReserved R leases :
  lease_prop R → Forall (opt R) leases →
  safe6 (allocateReservedLeases6 leases) (Forall (opt R)).
Proof.
  intros HR Hl. unfold allocateReservedLeases6.
  eapply safe6_bind; [apply safe6_get_ctx|]. intros c Hc.
  case_bool_decide; [by apply safe6_ret|].
  eapply safe6_bind; [apply safe6_currentIA|]. intros ia [Et _].
  set (found := find_reserved_lease _ _ _ _).
  eapply safe6_bind; [apply (safe6_lift found (λ r, found = Ok r))|]; [apply find_reserved_exn|done|].
  intros [[[i l] h]|] Hfound.
  - apply find_reserved_elem in Hfound. eapply Forall_forall in Hfound; [|exact Hl].
    by apply safe6_keep_reserved.
  - eapply safe6_bind with (P := λ r, ∀ o, r = Some o → granted_opt o).
    + apply safe6_walk; [apply next_subnet6_ok|intros f; by apply (ctx_ok_siblings c)|].
      intros p Hp. eapply safe6_bind; [apply safe6_the_subnet|]. intros sub Hsub.
      eapply safe6_bind; [apply safe6_get|]. intros s Hs.
      eapply safe6_bind; [by apply safe6_supported|]. intros b _.
      pose proof (ctx_ok_eq c Hc) as (_ & _ & _ & -> & _).
      destruct (ctx_hosts6_ c0 !! id_ sub) as [h|] eqn:Eh; [|by apply safe6_ret].
      destruct b; [|by apply safe6_ret]. apply (safe6_reserve_loop p (id_ sub)); [done..|].
      rewrite Et. apply getIPv6Reservations_of.
    + intros o Ho. apply safe6_ret. destruct o as [o|]; [|done].
      apply Forall_app. split; [done|]. constructor; [|done].
      specialize (Ho o eq_refl). destruct o; [|done]. by apply (prop_granted R HR).
Qed.

(** ** Leases from the pools *)

Lemma safe6_hint_host sub hint : safe6 (lift (hint_host sub hint)) (λ _, True).
Proof.
  apply safe6_lift; [|done]. unfold hint_host.
  destruct (mode_is _ _); [done|apply host_get6_address_exn].
Qed.

(** A lease at the address, in use or not. *)
Lemma safe6_getLease t a : t = the_type →
  safe6 (query_db6 (lm6_getLease6 t a)) (λ o, ∀ l, o = Some l → expired6 now l = true →
    lease_type_ l = the_type ∧ addr6_ l = a ∧ no_foreign a).
Proof.
  intros ->. apply safe6_query_db. intros d Hd l Hl Hexp.
  apply getLease6_Some in Hl as (? & ? & Hn); [|done]. split_and!; [done..|].
  apply Hn. intros (Hf & _). congruence.
Qed.

Lemma safe6_reuse_old l a len :
  lease_type_ l = the_type ∧ addr6_ l = a ∧ no_foreign a → in_pool6 the_type a →
  safe6 (reuse_old l len) granted_opt.
Proof.
  intros (? & <- & ?) Hin. unfold reuse_old.
  eapply safe6_bind; [by apply safe6_update_ia|]. intros _ _.
  eapply safe6_bind; [by apply safe6_reuseExpiredLease|]. intros r Hr. by apply safe6_ret.
Qed.

Lemma created_granted a len o : in_pool6 the_type a → created a len o → granted_opt o.
Proof.
  destruct o as [l|]; [|done]. intros Hin (Ho & Et & Ea & _). split; [done|left].
  by rewrite Et, Ea.
Qed.

Lemma safe6_try_hint hint p :
  sibling p → safe6 (try_hint hint p) (λ r, ∀ leases, r = Some leases → Forall granted_opt leases).
Proof.
  intros Hp. unfold try_hint. eapply safe6_bind; [apply safe6_get_ctx|]. intros c Hc.
  eapply safe6_bind; [apply safe6_the_subnet|]. intros sub Hsub.
  eapply safe6_bind; [apply safe6_get|]. intros s Hs.
  eapply safe6_bind; [by apply safe6_supported|]. intros [] Ho; [|by apply safe6_ret].
  specialize (Ho eq_refl). cbn [negb].
  eapply safe6_bind; [by apply safe6_with_subnet|]. intros _ _.
  eapply safe6_bind; [apply safe6_currentIA|]. intros ia [Et _].
  eapply safe6_bind; [apply getPool_classes_safe, Hsub|]. intros [pool|] Hpool;
    [|by apply safe6_ret]. specialize (Hpool pool eq_refl).
  rewrite Et, (classes_eq c Hc) in *.
  assert (in_pool6 the_type hint) as Hin by (by apply (in_pool6_intro p sub)).
  destruct (negb _); [by apply safe6_ret|].
  eapply safe6_bind; [by apply safe6_getLease|]. intros [l|] Hl.
  - destruct (expired6 now l) eqn:Eexp; [|by apply safe6_ret]. specialize (Hl l eq_refl Eexp).
    eapply safe6_bind; [apply safe6_hint_host|]. intros [h|] _; [by apply safe6_ret|].
    eapply safe6_bind; [by eapply safe6_reuse_old|]. intros o Hgo. apply safe6_ret.
    intros leases [= <-]. by apply Forall_singleton.
  - eapply safe6_bind; [apply safe6_hint_host|]. intros [h|] _; [by apply safe6_ret|].
    eapply safe6_bind; [apply safe6_createLease6|]. intros x Hx. apply safe6_ret.
    apply created_granted in Hx; [|done]. destruct x.1; [|done].
    intros leases [= <-]. by apply Forall_singleton.
Qed.

Lemma safe6_prefix_len t sub p a :
  sub_ok p sub → safe6 (if decide (t = TYPE_PD) then
      pool ← lift (getPool_classes sub t the_classes a);
      mret match pool with Some pool => getLength pool | None => 128 end
    else mret 128) (λ _, True).
Proof.
  intros [Hwf _]. destruct (decide _); [|by apply safe6_ret].
  eapply safe6_bind; [by apply getPool_classes_safe|]. intros pool _. by apply safe6_ret.
Qed.

Lemma safe6_attempt_loop n p :
  the_type ≠ TYPE_V4 → sibling p → open_to p →
  safe6 (attempt_loop6 n p) (λ r, ∀ leases, r = Some leases → Forall granted_opt leases).
Proof.
  intros Ht4 Hp Ho. induction n as [|n IH]; cbn [attempt_loop6]; [by apply safe6_ret|].
  eapply safe6_bind; [apply safe6_currentIA|]. intros ia [Et _].
  eapply safe6_bind; [apply safe6_get_ctx|]. intros c Hc. rewrite Et, (classes_eq c Hc).
  eapply safe6_bind; [by apply safe6_pick|]. intros a (sub' & Hsub' & Hina).
  assert (in_pool6 the_type a) as Hin by (by apply (in_pool6_intro p sub')).
  eapply safe6_bind; [apply safe6_the_subnet|]. intros sub Hsub.
  eapply safe6_bind with (P := λ _, True).
  { destruct (mode_is _ _); [|by apply safe6_ret].
    apply safe6_lift; [apply host_get6_address_exn|done]. }
  intros [h|] _; [done|].
  eapply safe6_bind; [by eapply safe6_prefix_len|]. intros len _.
  eapply safe6_bind; [by apply safe6_getLease|]. intros [l|] Hl.
  - destruct (expired6 now l) eqn:Eexp; [|done]. destruct (Hl l eq_refl Eexp) as (? & <- & ?).
    eapply safe6_bind; [by apply safe6_update_ia|]. intros _ _.
    eapply safe6_bind; [by apply safe6_with_subnet|]. intros _ _.
    eapply safe6_bind; [by apply safe6_reuseExpiredLease|]. intros r Hr. apply safe6_ret.
    intros leases [= <-]. by apply Forall_singleton.
  - eapply safe6_bind; [by apply safe6_with_subnet|]. intros _ _.
    eapply safe6_bind; [apply safe6_createLease6|]. intros x Hx.
    apply created_granted in Hx; [|done]. destruct x.1 as [l|].
    + eapply safe6_bind; [by apply safe6_update_ia|]. intros _ _. apply safe6_ret.
      intros leases [= <-]. by apply Forall_singleton.
    + destruct (_ && _); [by apply safe6_ret|done].
Qed.

Lemma safe6_try_subnet p :
  the_type ≠ TYPE_V4 → sibling p →
  safe6 (try_subnet p) (λ r, ∀ leases, r = Some leases → Forall granted_opt leases).
Proof.
  intros Ht4 Hp. unfold try_subnet. eapply safe6_bind; [apply safe6_get_ctx|]. intros c Hc.
  eapply safe6_bind; [apply safe6_the_subnet|]. intros sub Hsub.
  eapply safe6_bind; [apply safe6_get|]. intros s Hs.
  eapply safe6_bind; [by apply safe6_supported|]. intros [] Ho; [|by apply safe6_ret].
  eapply safe6_bind; [apply safe6_currentIA|]. intros ia _.
  destruct (_ =? _); [by apply safe6_ret|]. apply safe6_attempt_loop; auto.
Qed.

(** The subnet the search starts from. *)
Lemma safe6_preferred s p sub t :
  inv6 s → sibling p → sub_ok p sub →
  safe6 (match shared_network_ sub with
         | Some n =>
             net ← lift (network_at (heap6 s) n);
             lift (getPreferredSubnet (heap6 s) (subnets_ net) p t)
         | None => mret p
         end) sibling.
Proof.
  intros Hs Hp Hsub. destruct (shared_network_ sub) as [n|] eqn:En; [|by apply safe6_ret].
  eapply safe6_bind; [apply (safe6_lift _ (λ net, networks (heap6 s) !! n = Some net))|].
  - apply network_at_exn.
  - intros net. apply network_at_Ok.
  - intros net Hnet. apply safe6_lift; [apply preferred_exn|]. intros q Hq.
    apply preferred_elem in Hq as [->|Hq]; [done|]. by apply (sibling_network s p sub n net).
Qed.

Lemma safe6_allocateUnreserved :
  safe6 allocateUnreservedLeases6 (Forall granted_opt).
Proof.
  unfold allocateUnreservedLeases6. eapply safe6_bind; [apply safe6_currentIA|]. intros ia [Et _].
  eapply safe6_bind; [apply (safe6_lift _ (λ _, the_type ≠ TYPE_V4))|].
  { unfold getAllocator6. by case_bool_decide. }
  { unfold getAllocator6. case_bool_decide; [done|]. congruence. }
  intros [] Ht4. cbn beta in Ht4.
  eapply safe6_bind; [apply safe6_get_ctx|]. intros c Hc.
  pose proof (λ f, ctx_ok_siblings c f Hc) as Hsib.
  eapply safe6_bind; [apply safe6_walk; [apply next_subnet6_ok|exact Hsib|]|].
  { intros p Hp. by apply safe6_try_hint. }
  intros [leases|] Hl; [apply safe6_ret; auto|].
  destruct (ctx_subnet6_ c) as [p|]; [|by apply safe6_throw]. specialize (Hsib p eq_refl).
  eapply safe6_bind; [apply safe6_the_subnet|]. intros sub Hsub.
  eapply safe6_bind; [apply safe6_get|]. intros s Hs.
  eapply safe6_bind; [by apply safe6_preferred|]. intros q Hq.
  eapply safe6_bind; [by apply safe6_with_subnet|]. intros _ _.
  eapply safe6_bind; [apply safe6_walk; [apply next_subnet6_ok|by intros f [= <-]|]|].
  { intros p' Hp'. by apply safe6_try_subnet. }
  intros [leases|] Hl'; apply safe6_ret; [by apply Hl'|constructor].
Qed.
(** ** Extending leases *)

Lemma safe6_follow_lease l : safe6 (follow_lease l) (λ _, True).
Proof.
  unfold follow_lease. eapply safe6_bind; [apply safe6_current_subnet|]. intros sub (p & Hp & Hsub).
  destruct (_ =? _); [by apply safe6_ret|].
  destruct (shared_network_ sub) as [n|] eqn:En; [|by apply safe6_ret].
  eapply safe6_bind; [apply safe6_get|]. intros s Hs.
  eapply safe6_bind; [apply (safe6_lift _ (λ net, networks (heap6 s) !! n = Some net))|].
  - apply network_at_exn.
  - intros net. apply network_at_Ok.
  - intros net Hnet. destruct (getSubnet _ _ _) as [q|] eqn:Eq; [|by apply safe6_ret].
    apply getSubnet_elem in Eq. apply safe6_with_subnet.
    by apply (sibling_network s p sub n net).
Qed.

Lemma safe6_still_valid l : safe6 (still_valid l) (λ _, True).
Proof.
  unfold still_valid. eapply safe6_bind; [apply safe6_get_ctx|]. intros c Hc.
  eapply safe6_bind; [apply safe6_current_subnet|]. intros sub (p & Hp & Hsub).
  eapply safe6_bind; [apply safe6_get|]. intros s Hs.
  eapply safe6_bind; [apply (safe6_lift _ (λ _, True)); [|done]|].
  { destruct (decide _); [|done]. apply inRange_exn, Hsub. }
  intros inside _. destruct (negb _); [by apply safe6_ret|].
  eapply safe6_mono; [by eapply safe6_supported|done].
Qed.

Lemma safe6_call_extend l : safe6 (call_extend l) (λ r, same_lease l r.2).
Proof.
  unfold call_extend. eapply safe6_bind; [apply safe6_get_ctx|]. intros c _.
  assert (∀ o, (∀ callout, o = Some callout → same_lease l (callout c l).2) →
    safe6 (match o with
           | None => mret (false, l)
           | Some callout =>
               if negb (callout_handle6_ c) then throw AssertionFailure
               else let '(status, l) := callout c l in
                    mret (bool_decide (status = NEXT_STEP_SKIP), l)
           end) (λ r, same_lease l r.2)) as Hcall.
  { intros [callout|] Ho; [|by apply safe6_ret]. specialize (Ho callout eq_refl).
    destruct (negb _); [by apply safe6_throw|]. destruct (callout c l) as [status l'].
    by apply safe6_ret. }
  apply Hcall. intros callout. destruct (is_renew c); [apply renew6_same|apply rebind6_same].
Qed.

Lemma safe6_store_extended l old :
  fake = false → owned l → safe6 (store_extended l old) (λ _, True).
Proof.
  intros Hf Hl. unfold store_extended. eapply safe6_bind; [apply safe6_get_ctx|]. intros c _.
  eapply safe6_bind with (P := λ _, True).
  - destruct (expired6 now old).
    + eapply safe6_bind; [apply safe6_reclaimExpired|]. intros l1 _.
      eapply safe6_bind; [apply safe6_count_assigned|]. intros _ _. by apply safe6_ret.
    + eapply safe6_bind with (P := λ _, True); [|intros _ _; by apply safe6_ret].
      destruct (negb _); [apply safe6_queueNCR|by apply safe6_ret].
  - intros l1 _. eapply safe6_bind; [by apply safe6_updateLease6|]. intros _ _. by apply safe6_ret.
Qed.

Lemma safe6_extendLease o :
  fake = false → granted_opt o → safe6 (extendLease6 o) granted_opt.
Proof.
  intros Hf Hg. unfold extendLease6. eapply safe6_bind; [apply safe6_get_ctx|]. intros c Hc.
  destruct o as [l|]; [|by apply safe6_ret].
  destruct (ctx_subnet6_ c); [|by apply safe6_ret].
  eapply safe6_bind; [apply safe6_follow_lease|]. intros _ _.
  eapply safe6_bind; [apply safe6_still_valid|]. intros valid _. destruct (negb valid).
  - eapply safe6_bind; [apply safe6_current_subnet|]. intros sub _.
    eapply safe6_bind; [apply safe6_release_lease, Hg|]. intros _ _. by apply safe6_ret.
  - eapply safe6_bind; [apply safe6_current_subnet|]. intros sub _.
    set (l1 := with_cltt6 _ _).
    assert (granted6 l1) as Hl1 by (by apply (same_lease_granted l)).
    eapply safe6_bind; [apply safe6_call_extend|]. intros [skip l2] Hl2. cbn [snd] in Hl2.
    apply (same_lease_granted _ _ Hl2) in Hl1.
    eapply safe6_bind with (P := λ r, granted6 r.1).
    + destruct skip; [by apply safe6_ret|].
      eapply safe6_bind; [apply safe6_store_extended; [done|by destruct Hl1]|]. intros old _.
      by apply safe6_ret.
    + intros [l3 old] Hl3. eapply safe6_bind; [by apply safe6_update_ia|]. intros _ _.
      by apply safe6_ret.
Qed.

Lemma safe6_extend_loop leases :
  fake = false → Forall granted_opt leases → safe6 (extend_loop leases) (Forall granted_opt).
Proof.
  intros Hf. induction leases as [|o leases IH]; intros Hg; cbn [extend_loop].
  { by apply safe6_ret. }
  apply Forall_cons in Hg as [Ho Hg]. eapply safe6_bind; [by apply safe6_extendLease|].
  intros o' Ho'. eapply safe6_bind; [by apply IH|]. intros rest Hrest.
  apply safe6_ret. by constructor.
Qed.

Lemma safe6_update_loop b leases :
  Forall granted_opt leases → safe6 (update_loop b leases) (Forall granted_opt).
Proof.
  revert b. induction leases as [|o leases IH]; intros b Hg; cbn [update_loop].
  { by apply safe6_ret. }
  apply Forall_cons in Hg as [Ho Hg].
  eapply safe6_bind; [apply safe6_get_ctx|]. intros c Hc.
  eapply safe6_bind; [by apply safe6_deref|]. intros l [Hl ->].
  set (l1 := with_dns6 _ _ _ _).
  assert (granted6 l1) as Hl1 by (by apply (same_lease_granted l)).
  pose proof (ctx_ok_eq c Hc) as (_ & -> & _).
  eapply safe6_bind with (P := λ r, granted6 r.1).
  - destruct fake eqn:Ef; cbn [negb]; [by apply safe6_ret|].
    eapply safe6_bind with (P := granted6).
    + destruct (stateExpiredReclaimed6 l1); [|by apply safe6_ret].
      eapply safe6_bind; [apply safe6_currentIA|]. intros ia _.
      eapply safe6_bind; [apply safe6_inAllowedPool|]. intros allowed _.
      eapply safe6_bind with (P := λ _, True).
      { destruct allowed; [apply safe6_stat_add|by apply safe6_ret]. }
      intros _ _. apply safe6_ret. by apply (same_lease_granted l1).
    + intros l2 Hl2. assert (granted6 (with_cltt6 l2 now)) as Hl3
        by (by apply (same_lease_granted l2)).
      eapply safe6_bind; [by apply safe6_update_ia|]. intros _ _.
      eapply safe6_bind; [apply safe6_updateLease6; [done|apply Hl3]|]. intros _ _.
      destruct (_ && _); [|by apply safe6_ret].
      eapply safe6_bind; [apply safe6_queueNCR|]. intros _ _. by apply safe6_ret.
  - intros [l2 b'] Hl2. eapply safe6_bind; [by apply IH|]. intros rest Hrest.
    apply safe6_ret. by constructor.
Qed.

(** ** The calls *)

Lemma safe6_note_leases leases :
  Forall granted_opt leases → safe6 (note_leases leases) (Forall granted6).
Proof.
  induction leases as [|o leases IH]; intros Hg; cbn [note_leases]; [by apply safe6_ret|].
  apply Forall_cons in Hg as [Ho Hg]. eapply safe6_bind; [by apply safe6_deref|].
  intros l [Hl ->]. eapply safe6_bind; [apply safe6_update_ctx|].
  { intros c [Hc ?]. split; [|done]. unfold ctx6_add_new, addAllocatedResource.
    by apply same_client6_with, same_client6_with. }
  intros _ _. eapply safe6_bind; [by apply IH|]. intros rest Hrest. apply safe6_ret. by constructor.
Qed.

Lemma safe6_allocate_cases leases :
  ctx_subnet6_ c0 ≠ None → Forall owned_opt leases →
  safe6 (allocate_cases6 leases) (Forall granted_opt).
Proof.
  intros Hsub Ho. unfold allocate_cases6. eapply safe6_bind; [apply safe6_get_ctx|]. intros c _.
  destruct leases as [|o leases]; case_bool_decide.
  - by apply safe6_ret.
  - by apply (safe6_allocateReserved granted6 [] prop_granted_ok).
  - eapply safe6_bind; [by apply safe6_removeNonmatching|]. intros l Hl.
    by apply safe6_update_loop.
  - eapply safe6_bind; [by apply (safe6_allocateReserved owned _ prop_owned_ok)|]. intros l Hl.
    eapply safe6_bind; [by apply safe6_removeNonmatching|]. intros l' Hl'.
    by apply safe6_removeNonreserved.
Qed.

Lemma safe6_or_unreserved leases :
  Forall granted_opt leases →
  safe6 (match leases with [] => allocateUnreservedLeases6 | _ => mret leases end)
    (Forall granted_opt).
Proof. intros Hl. destruct leases; [apply safe6_allocateUnreserved|by apply safe6_ret]. Qed.

Lemma Forall_owned_opt leases : Forall owned leases → Forall owned_opt (Some <$> leases).
Proof. intros Hl. by apply Forall_fmap. Qed.

Lemma safe6_allocateLeases6 : safe6 allocateLeases6 (Forall granted6).
Proof.
  apply safe6_try_catch; [|by apply safe6_ret].
  eapply safe6_bind; [apply safe6_get_ctx|]. intros c Hc.
  destruct (ctx_subnet6_ c) as [p|] eqn:Ep; [|by apply safe6_throw].
  pose proof (ctx_ok_siblings c p Hc Ep) as Hp.
  assert (ctx_subnet6_ c0 ≠ None) as Hsub by (destruct Hp as (? & ? & ? & -> & _); done).
  pose proof (ctx_ok_eq c Hc) as (_ & _ & Ed & _). rewrite Ed.
  destruct (ctx_duid_ c0) as [duid|] eqn:Eduid; [|by apply safe6_throw].
  eapply safe6_bind; [apply safe6_currentIA|]. intros ia [-> ->].
  eapply safe6_bind; [apply (safe6_query_db _ (Forall owned))|].
  { intros d Hd. apply Forall_forall. intros l Hl. apply (getLeases6_owned d); [done|].
    by rewrite Eduid. }
  intros all Hall. eapply safe6_bind; [apply (safe6_collect p _ owned Hp)|].
  { intros sub d Hd. apply Forall_forall. intros l [_ Hl]%list_elem_of_filter.
    by eapply Forall_forall. }
  intros leases Hl%Forall_owned_opt.
  eapply safe6_bind; [by apply safe6_allocate_cases|]. intros l1 Hl1.
  eapply safe6_bind; [by apply safe6_or_unreserved|]. intros l2 Hl2. by apply safe6_note_leases.
Qed.

Lemma safe6_renewLeases6 : fake = false → safe6 renewLeases6 (Forall granted6).
Proof.
  intros Hf. apply safe6_try_catch; [|by apply safe6_ret].
  eapply safe6_bind; [apply safe6_get_ctx|]. intros c Hc.
  destruct (ctx_subnet6_ c) as [p|] eqn:Ep; [|by apply safe6_throw].
  pose proof (ctx_ok_siblings c p Hc Ep) as Hp.
  assert (ctx_subnet6_ c0 ≠ None) as Hsub by (destruct Hp as (? & ? & ? & -> & _); done).
  pose proof (ctx_ok_eq c Hc) as (_ & _ & Ed & _). rewrite Ed.
  destruct (ctx_duid_ c0) as [duid|] eqn:Eduid; [|by apply safe6_throw].
  eapply safe6_bind; [apply safe6_currentIA|]. intros ia [-> ->].
  eapply safe6_bind; [apply (safe6_collect p _ owned Hp)|].
  { intros sub d Hd. apply Forall_forall. intros l [Hl _]%lm6_getLeases6_subnet_elem.
    apply (getLeases6_owned d); [done|]. by rewrite Eduid. }
  intros leases Hl%Forall_owned_opt.
  eapply safe6_bind; [by apply safe6_removeNonmatching|]. intros l1 Hl1.
  eapply safe6_bind; [apply safe6_get_ctx|]. intros c' _.
  eapply safe6_bind with (P := Forall granted_opt).
  { case_bool_decide; [by apply safe6_ret|].
    eapply safe6_bind; [by apply (safe6_allocateReserved granted6 _ prop_granted_ok)|].
    intros l2 Hl2. by apply safe6_removeNonreserved. }
  intros l2 Hl2. eapply safe6_bind; [by apply safe6_or_unreserved|]. intros l3 Hl3.
  eapply safe6_bind; [by apply safe6_extend_loop|]. intros l4 Hl4. by apply safe6_note_leases.
Qed.
End Safety6.
