(* ===== verification/AllocEngine6Correct.v ===== *)
(** * The DHCPv6 allocation engine: the properties

    The theorems are stated for any lease database and host database that satisfy their
    interfaces, for callouts that do not turn a lease into another client's, and for a
    message whose subnet exists in a well-formed heap ([ready6]).  Their witnesses run the
    engine on the in-memory database with two small subnets in a shared network. *)

From S2P Require Import Prelude Algorithms IoAddress AddrUtilities Pool Subnet.
From S2P Require Import SharedNetwork IterativeAllocator StatsMgr Lease Lease6 LeaseMgr Host.
From S2P Require Import CfgHosts CsvLeaseFile6 LeaseStorage MemfileLeaseMgr6 Packet EngineHeap.
From S2P Require Import AllocEngine4 AllocEngine6 AllocEngine6Safety.
Local Open Scope Z_scope.

(** The state a call starts from. *)
Record ready6 {M} (s : State6 M) : Prop := {
  ready6_heap : wf_heap (heap6 s);
  ready6_subnets : ∀ p sub, subnets (heap6 s) !! p = Some sub → wf6 sub;
  ready6_subnet : ∀ p, ctx_subnet6_ (ctx6 s) = Some p → is_Some (subnets (heap6 s) !! p)
}.

(** The calls of the server; a lease is only renewed for good. *)
Inductive Call := Allocate | Renew.
Definition run_call {M} `{LeaseMgr6 M} `{HostMgr} `{HostMgr6} `{EngineConfig} `{EngineConfig6}
    (call : Call) : ST (State6 M) (list Lease6) :=
  match call with Allocate => allocateLeases6 | Renew => renewLeases6 end.
Definition call_allowed {M} (call : Call) (s : State6 M) : Prop :=
  match call with Allocate => True | Renew => fake_allocation6_ (ctx6 s) = false end.

Section Engine.
Context {M : Type} `{LeaseMgr6Laws M} `{HostMgrLaws} `{HostMgr6Laws} `{EngineConfig}
  `{EngineConfig6} `{!HooksOk6}.
Implicit Types (s : State6 M).

Lemma ready6_inv s : ready6 s → inv6 s s.
Proof using All.
  intros [Hh Hs Hp]. split; [done|done|done|apply same_client6_refl| |by split].
  destruct (ctx_subnet6_ (ctx6 s)) as [p|] eqn:E; [|done]. cbn.
  destruct (Hp p eq_refl) as [sub Hsub]. exists p, sub, sub. auto.
Qed.

Lemma call_safe call s s' r :
  ready6 s → call_allowed call s → run_call call s = (s', r) →
  inv6 s s' ∧ r ≠ Throw OutOfFuel ∧ ∀ leases, r = Ok leases → Forall (granted6 s) leases.
Proof using All.
  intros Hs Hc E. assert (safe6 s (run_call call) (Forall (granted6 s))) as Hsafe
    by (destruct call; [exact (safe6_allocateLeases6 s)|exact (safe6_renewLeases6 s Hc)]).
  specialize (Hsafe s (ready6_inv s Hs)). unfold wp in Hsafe. rewrite E in Hsafe.
  destruct r as [leases|e]; destruct Hsafe as [? Hq]; split_and!; try done; try congruence.
Qed.

(** C9: a lease in use, of the type a message asks for, that is not of the client and the
    identity association of the message is the same after [allocateLeases6] and
    [renewLeases6], and neither of them makes one up, whatever the message, the
    configuration and the failures of the database, as long as the callouts keep the type, the
    address, the prefix length, the DUID, the IAID and the subnet of the lease that they are
    given ([HooksOk6]). *)
Theorem allocateLeases6_keeps_other_leases call s s' r (a : IOAddress) (l : Lease6)
    (Hs : ready6 s) (Hc : call_allowed call s) (E : run_call call s = (s', r))
    (Hl : foreign6 s l) :
  lm6_leases (db6 s') !! a = Some l ↔ lm6_leases (db6 s) !! a = Some l.
Proof using All.
  destruct (call_safe call s s' r Hs Hc E) as (Hi & _).
  by apply (proj1 (inv6_db s s' Hi) a l).
Qed.

(** C11: [allocateLeases6] and [renewLeases6] end: the loops over the subnets of a network,
    over the reservations and over the attempts never run out of the bound the model gives
    them; the configuration of the subnets and the client's data are kept. *)
Theorem allocateLeases6_ends call s (Hs : ready6 s) (Hc : call_allowed call s) :
  ∃ s' r, run_call call s = (s', r) ∧ r ≠ Throw OutOfFuel ∧ ready6 s' ∧
    heap_shape (heap6 s') = heap_shape (heap6 s) ∧ same_client6 (ctx6 s) (ctx6 s').
Proof using All.
  destruct (run_call call s) as [s' r] eqn:E. exists s', r.
  destruct (call_safe call s s' r Hs Hc E) as (Hi & Hr & _).
  split_and!; [done|done| |apply Hi|apply Hi]. destruct Hi as [Hh Hsub Hsh _ Hp _].
  split; [done|done|]. intros p Ep. rewrite Ep in Hp. destruct Hp as (f & sf & sub & _ & _ & Hsub0 & _).
  destruct (heap_shape_lookup _ _ p sub (eq_sym Hsh) Hsub0) as (sub' & ? & _). by exists sub'.
Qed.

(** an offer (a fake allocation) adds no lease to the database and changes none: what is
    in the database afterwards was there before.  It can remove leases of the client. *)
Theorem offer6_adds_nothing s s' r (Hs : ready6 s)
    (Hfake : fake_allocation6_ (ctx6 s) = true) (E : allocateLeases6 s = (s', r)) :
  lm6_leases (db6 s') ⊆ lm6_leases (db6 s).
Proof using All.
  destruct (call_safe Allocate s s' r Hs I E) as (Hi & _). by apply (inv6_db s s' Hi).
Qed.

End Engine.

(** ** A small server *)

Definition no_hooks6 : Hooks6 :=
  {| lease6_select := None; lease6_renew := None; lease6_rebind := None;
     lease6_expire := None; lease6_recover := None |}.
Definition plain_engine4 : EngineConfig :=
  {| now := 1000; attempts_ := 0; ddnsEnabled := false; ncr_ok := λ _, true;
     hooks := {| lease4_select := None; lease4_renew := None; lease4_expire := None;
                 lease4_recover := None |} |}.
Definition plain_engine6 : EngineConfig6 :=
  {| ncr6_ok := λ _, true; qualifying_suffix_ := ""; hooks6 := no_hooks6 |}.

Lemma no_hooks6_ok : @HooksOk6 plain_engine6.
Proof. by split. Qed.

(** The subnet [2001:db8:n::/64] with a pool of 16 addresses from ::10 on, and a pool of the
    prefixes of length 56 of [3001:db8:n::/48]. *)
Definition block (net n : Z) : Z := net * 2 ^ 112 + 0xdb8 * 2 ^ 96 + n * 2 ^ 80.
Definition build_subnet6 (n id : Z) : res Subnet :=
  s ← mkSubnet Kind6 (V6 (block 0x2001 n)) 64 1000 2000 3000 4000 id;
  p ← Pool6_prefix (2 * n) TYPE_NA (V6 (block 0x2001 n + 0x10)) 124 128;
  s ← addPool s p;
  p ← Pool6_prefix (2 * n + 1) TYPE_PD (V6 (block 0x3001 n)) 48 56;
  addPool s p.
Definition subnet6_of (n id : Z) : Subnet :=
  match build_subnet6 n id with Ok s => s | Throw _ => sample_subnet end.

Definition heap6_of (network : bool) : Heap :=
  let n := if network then Some 7 else None in
  {| subnets := <[10 := with_network (subnet6_of 1 1) n]>
       (<[20 := with_network (subnet6_of 2 2) n]> ∅);
     networks := if network then <[7 := {| net_class_ := ""; subnets_ := [10; 20] |}]> ∅ else ∅ |}.

Lemma pool6_prefix_ok id t prefix len delegated p :
  wf_addr prefix → t ≠ TYPE_V4 → 0 < value prefix → 0 ≤ len → delegated ≤ 128 →
  Pool6_prefix id t prefix len delegated = Ok p → pool_ok t p.
Proof.
  intros Hp Ht Hv Hl Hd E. pose proof (Pool6_prefix_spec id t prefix len delegated Hp Ht Hl) as Hs.
  rewrite E in Hs. destruct Hs as (Hw & Htp & Hf & _ & Hlen & _).
  split_and!; [done|done|by intros _; rewrite Hlen|left; by rewrite Hf].
Qed.

Lemma block_wf net n k : 0 < net < 2 ^ 14 → 0 ≤ n < 2 ^ 14 → 0 ≤ k < 2 ^ 64 →
  wf_addr (V6 (block net n + k)) ∧ 0 < value (V6 (block net n + k)).
Proof. unfold wf_addr, block. cbn. lia. Qed.

Lemma addPool_wf6 s pool s' :
  wf6 s → pool_ok (type_ pool) pool → addPool s pool = Ok s' → wf6 s'.
Proof.
  intros (Hk & Hs & Hok) Hp E. pose proof (addPool_ok s pool Hs (proj1 Hp)) as Ha.
  rewrite E in Ha. destruct Ha as (Hs' & Hperm & Hsame).
  assert (kind s' = kind s) as Hk'.
  { unfold addPool in E. res_inv. unfold setPools in E. res_inv. by destruct (type_ pool). }
  split_and!; [congruence|done|]. intros t Ht. destruct (decide (t = type_ pool)) as [->|Hne].
  - rewrite Hperm. constructor; [done|by apply Hok].
  - rewrite Hsame; [by apply Hok| |done]. unfold allowed. by rewrite Hk.
Qed.

Lemma mkSubnet_wf6 prefix len t1 t2 preferred valid id s :
  wf_addr prefix → 0 ≤ len → mkSubnet Kind6 prefix len t1 t2 preferred valid id = Ok s → wf6 s.
Proof.
  intros Hp Hlen E. pose proof (mkSubnet_wf _ _ _ _ _ _ _ _ _ Hp Hlen E) as Hs.
  unfold mkSubnet in E. res_inv. split_and!; [done|done|]. intros [] ?; constructor.
Qed.

Lemma subnet6_of_wf n id : n = 1 ∨ n = 2 → wf6 (subnet6_of n id).
Proof.
  intros Hn. assert (∃ s, build_subnet6 n id = Ok s) as [s E]
    by (destruct Hn as [-> | ->]; vm_compute; by eexists).
  unfold subnet6_of. rewrite E. unfold build_subnet6 in E. res_inv.
  assert (∀ net k, 0 < net < 2 ^ 14 → 0 ≤ k < 2 ^ 64 →
    wf_addr (V6 (block net n + k)) ∧ 0 < value (V6 (block net n + k))) as Hb
    by (intros; apply block_wf; lia).
  destruct (Hb 0x2001 0x10 ltac:(lia) ltac:(lia)) as [Hw1 Hv1].
  destruct (Hb 0x2001 0 ltac:(lia) ltac:(lia)) as [Hw2 _].
  destruct (Hb 0x3001 0 ltac:(lia) ltac:(lia)) as [Hw3 Hv3]. rewrite Z.add_0_r in *.
  apply mkSubnet_wf6 in Ha; [|done|lia].
  apply pool6_prefix_ok in Ha0; [|done|done|done|lia|lia].
  apply pool6_prefix_ok in Ha2; [|done|done|done|lia|lia].
  pose proof Ha0 as (_ & Et0 & _). pose proof Ha2 as (_ & Et2 & _).
  eapply addPool_wf6; [|by rewrite Et2|exact E].
  eapply addPool_wf6; [exact Ha|by rewrite Et0|exact Ha1].
Qed.

#[local] Opaque subnet6_of.

Lemma wf6_with_network s n : wf6 s → wf6 (with_network s n).
Proof. intros (? & Hs & ?). split_and!; [done|by destruct Hs|done]. Qed.

Lemma heap6_of_subnets b p s : subnets (heap6_of b) !! p = Some s →
  (p = 10 ∧ s = with_network (subnet6_of 1 1) (if b then Some 7 else None)) ∨
  (p = 20 ∧ s = with_network (subnet6_of 2 2) (if b then Some 7 else None)).
Proof. cbn [subnets heap6_of]. rewrite !lookup_insert_Some, lookup_empty. naive_solver. Qed.

Lemma heap6_of_wf b : wf_heap (heap6_of b).
Proof.
  assert (∀ n net, networks (heap6_of b) !! n = Some net →
    b = true ∧ n = 7 ∧ net = {| net_class_ := ""; subnets_ := [10; 20] |}) as Hnet.
  { intros n net. cbn [networks heap6_of]. destruct b; [|done].
    rewrite lookup_insert_Some, lookup_empty. naive_solver. }
  split.
  - intros n net (-> & -> & ->)%Hnet. apply (bool_decide_unpack _). vm_compute; exact I.
  - intros n net p (-> & -> & ->)%Hnet. cbn [subnets_]. rewrite !elem_of_cons, elem_of_nil. split.
    + intros [->|[->|[]]]; eexists; split; reflexivity.
    + intros (s & [[-> _]|[-> _]]%heap6_of_subnets & _); tauto.
  - intros p s n Hs%heap6_of_subnets Hn.
    assert (Some n = if b then Some 7 else None) as E
      by (rewrite <- Hn; by destruct Hs as [[_ ->]|[_ ->]]).
    destruct b; [injection E as ->; by eexists|done].
Qed.

(** A message of client [n], received on the first subnet, with one IA. *)
Definition message6 (n : Z) (type : LeaseType) (hints : list (IOAddress * Z)) (fake : bool) :
    ClientContext6 :=
  let query := {| pkt_kind := Pkt6 1 []; transid_ := 1; iface_ := "eth0";
                  local_addr_ := IPV6_ZERO_ADDRESS; remote_addr_ := IPV6_ZERO_ADDRESS;
                  pkt_len := 0; options_ := []; classes_ := []; required_classes_ := [] |} in
  ctx6_with_ias [{| ia_iaid_ := 7; ia_type_ := type; hints_ := hints; old_leases_ := [];
                    changed_leases_ := [] |}]
    (mkClientContext6 (Some 10) (Some [0; 1; 2; n]) false false "" fake query false).

(** A lease of client [n], in use until [expires]. *)
Definition lease6_of (n : Z) (type : LeaseType) (a : Z) (subnet expires : Z) : Lease6 :=
  {| lease_type_ := type; addr6_ := V6 a; prefixlen_ := if decide (type = TYPE_PD) then 56 else 128;
     iaid_ := 7; duid_ := Some [0; 1; 2; n]; preferred_lft_ := 3000; valid_lft6_ := 4000;
     t1_6_ := 1000; t2_6_ := 2000; cltt6_ := expires - 4000; subnet_id6_ := subnet;
     hostname6_ := ""; fqdn_fwd6_ := false; fqdn_rev6_ := false; hwaddr6_ := None;
     state6_ := STATE_DEFAULT |}.

Definition memory6 (l : list Lease6) : Memfile6 ListStorage6 :=
  foldl (λ m l, fst (memfile_addLease6 (λ _, true) l m)) empty_memfile6 l.

Definition server6 (h : Heap) (l : list Lease6) (c : ClientContext6) :
    State6 (Memfile6 ListStorage6) :=
  {| heap6 := h; db6 := memory6 l; stats6 := ∅; ncrs6 := []; incomplete_v6_reclamations_ := 0;
     ctx6 := c |}.

Lemma server6_ready b l n t hints fake : ready6 (server6 (heap6_of b) l (message6 n t hints fake)).
Proof.
  split; cbn [heap6 server6]; [apply heap6_of_wf| |].
  - intros p sub Hsub. apply heap6_of_subnets in Hsub as [[_ ->]|[_ ->]];
      apply wf6_with_network, subnet6_of_wf; [by left|by right].
  - intros p [= <-]. cbn [subnets heap6_of]. rewrite lookup_insert_eq. by eexists.
Qed.

(** ** The theorems on the small server *)

#[local] Existing Instance plain_engine4.
#[local] Existing Instance plain_engine6.
#[local] Existing Instance no_hooks6_ok.
#[local] Instance memory6_mgr : LeaseMgr6 (Memfile6 ListStorage6) := memfile_lease_mgr6 (λ _, true).
#[local] Instance no_reservations4 : HostMgr := cfg_host_mgr empty_cfg.
#[local] Instance no_reservations6 : HostMgr6 := cfg_host_mgr6 empty_cfg.

(** Client 2 has 2001:db8:1::10. *)
Definition taken6 : Lease6 := lease6_of 2 TYPE_NA (block 0x2001 1 + 0x10) 1 5000.
Definition one_lease6 (c : ClientContext6) : State6 (Memfile6 ListStorage6) :=
  server6 (heap6_of true) [taken6] c.

Lemma allocateLeases6_keeps_other_leases_witness :
  let s := one_lease6 (message6 1 TYPE_NA [(addr6_ taken6, 128)] false) in
  ready6 s ∧ ∃ s' r, run_call Allocate s = (s', r) ∧
    lm6_leases (db6 s') !! addr6_ taken6 = Some taken6.
Proof.
  intros s. assert (ready6 s) as Hs by apply server6_ready. split; [exact Hs|].
  destruct (run_call Allocate s) as [s' r] eqn:E. exists s', r. split; [reflexivity|].
  refine (proj2 (allocateLeases6_keeps_other_leases Allocate s s' r _ taken6 Hs I E _) _).
  - split; [reflexivity|]. split; [reflexivity|]. intros (_ & Ed & _). cbn in Ed. congruence.
  - vm_compute. reflexivity.
Defined.

Lemma allocateLeases6_ends_witness :
  let s := one_lease6 (message6 2 TYPE_NA [] false) in
  ready6 s ∧ ∃ s' r, run_call Renew s = (s', r) ∧ r ≠ Throw OutOfFuel.
Proof.
  intros s. assert (ready6 s) as Hs by apply server6_ready. split; [exact Hs|].
  destruct (allocateLeases6_ends Renew s Hs eq_refl) as (s' & r & E & Hr & _).
  exists s', r. split; [exact E|exact Hr].
Defined.

Lemma offer6_adds_nothing_witness :
  let s := one_lease6 (message6 1 TYPE_NA [] true) in
  ready6 s ∧ ∃ s' r, allocateLeases6 s = (s', r) ∧ lm6_leases (db6 s') ⊆ lm6_leases (db6 s).
Proof.
  intros s. assert (ready6 s) as Hs by apply server6_ready. split; [exact Hs|].
  destruct (allocateLeases6 s) as [s' r] eqn:E. exists s', r. split; [reflexivity|].
  exact (offer6_adds_nothing s s' r Hs eq_refl E).
Defined.


Definition answer_of {M} (r : State6 M * res (list Lease6)) : res (list IOAddress) :=
  match r.2 with Ok leases => Ok (addr6_ <$> leases) | Throw e => Throw e end.

Example delegates_hinted_prefix :
  let hint := V6 (block 0x3001 2 + 2 ^ 72) in
  answer_of (run_call Allocate (one_lease6 (message6 1 TYPE_PD [(hint, 56)] false))) = Ok [hint].
Proof. vm_compute. reflexivity. Qed.
