(* ===== verification/AllocEngine6Findings.v ===== *)
(** * Runs of the DHCPv6 allocation engine that go against its documentation

    Each theorem evaluates the engine on the two subnets of [AllocEngine6Correct] with the
    in-memory database, in a state that satisfies the hypotheses of its properties. *)

From S2P Require Import Prelude IoAddress Pool Subnet SharedNetwork IterativeAllocator.
From S2P Require Import StatsMgr Lease Lease6 LeaseMgr Host CfgHosts CsvLeaseFile6.
From S2P Require Import LeaseStorage MemfileLeaseMgr6 Packet AllocEngine4 AllocEngine6.
From S2P Require Import AllocEngine6Safety AllocEngine6Correct.
Local Open Scope Z_scope.

#[local] Existing Instance plain_engine4.
#[local] Instance memory_mgr6 : LeaseMgr6 (Memfile6 ListStorage6) := memfile_lease_mgr6 (λ _, true).

(** Client [n] has an IPv6 reservation in a subnet. *)
Definition reservation6 (n subnet : Z) (type : ResrvType) (a len : Z) : Host :=
  {| identifier_type_ := IDENT_DUID; identifier_value_ := [0; 1; 2; n];
     ipv4_subnet_id_ := SUBNET_ID_UNUSED; ipv6_subnet_id_ := subnet;
     ipv4_reservation_ := IPV4_ZERO_ADDRESS;
     ipv6_reservations_ := [{| resrv_type_ := type; resrv_prefix_ := V6 a; resrv_len_ := len |}];
     host_hostname_ := ""; dhcp4_client_classes_ := []; dhcp6_client_classes_ := [];
     next_server_ := IPV4_ZERO_ADDRESS; server_host_name_ := ""; boot_file_name_ := "";
     has_options4_ := false; has_options6_ := false; negative_ := false |}.

Definition cfg_of (l : list Host) : CfgHosts :=
  foldl (λ c h, fst (hosts_add (Some h) c)) empty_cfg l.

(** The server looks for the reservations of a client, then for leases. *)
Definition serve6 (hosts : list Host) (engine : EngineConfig6) (call : Call) :
    ST (State6 (Memfile6 ListStorage6)) (list Lease6) :=
  let h4 := cfg_host_mgr (cfg_of hosts) in
  let h6 := cfg_host_mgr6 (cfg_of hosts) in
  _ ← findReservation6; run_call call.

Definition lease_list6 (s : State6 (Memfile6 ListStorage6)) : list IOAddress :=
  addr6_ <$> getLeases6 (db6 s).

#[local] Abbreviation in_net1 a := (block 0x2001 1 + a).
#[local] Abbreviation in_net2 a := (block 0x2001 2 + a).

(** A message that only asks for an offer takes the lease of an address outside the pools
    away from the client and out of the database. *)
Theorem solicit_removes_lease :
  let s := server6 (heap6_of false) [lease6_of 2 TYPE_NA (in_net1 0x100) 1 5000]
             (message6 2 TYPE_NA [] true) in
  ready6 s ∧ lease_list6 s = [V6 (in_net1 0x100)] ∧
  ∃ s' leases, serve6 [] plain_engine6 Allocate s = (s', Ok leases) ∧ lease_list6 s' = [].
Proof.
  split; [apply server6_ready|]. split; [vm_compute; reflexivity|].
  do 2 eexists. split; vm_compute; reflexivity.
Qed.

(** Callouts that refuse every lease. *)
Definition refusing_engine : EngineConfig6 :=
  {| ncr6_ok := λ _, true; qualifying_suffix_ := "";
     hooks6 := {| lease6_select := Some (λ _ l, (NEXT_STEP_SKIP, l)); lease6_renew := None;
                  lease6_rebind := None; lease6_expire := None; lease6_recover := None |} |}.

Definition with_callouts (c : ClientContext6) : ClientContext6 :=
  {| query6_ := query6_ c; fake_allocation6_ := fake_allocation6_ c;
     ctx_subnet6_ := ctx_subnet6_ c; host_subnet_ := host_subnet_ c; ctx_duid_ := ctx_duid_ c;
     ctx_hwaddr6_ := ctx_hwaddr6_ c; host_identifiers6_ := host_identifiers6_ c;
     ctx_hosts6_ := ctx_hosts6_ c; fwd_dns_update6_ := fwd_dns_update6_ c;
     rev_dns_update6_ := rev_dns_update6_ c; ctx_hostname6_ := ctx_hostname6_ c;
     callout_handle6_ := true; allocated_resources_ := allocated_resources_ c;
     new_leases_ := new_leases_ c; ias_ := ias_ c |}.

(** A client with a reservation whose lease the callouts refuse makes the engine follow a
    null pointer: [allocateReservedLeases6] adds what [createLease6] returns to the
    collection without a check. *)
Theorem refused_reservation_uses_null_lease :
  let s := server6 (heap6_of false) [] (with_callouts (message6 1 TYPE_NA [] false)) in
  ∃ s', serve6 [reservation6 1 1 RESRV_NA (in_net1 0x50) 128] refusing_engine Allocate s
        = (s', Throw AssertionFailure).
Proof. eexists. vm_compute. reflexivity. Qed.

(** The renewal of a lease that does not belong to the range of its subnet any more removes
    it from the database and answers it nevertheless. *)
Theorem renewal_answers_removed_lease :
  let l := lease6_of 2 TYPE_NA (in_net2 0x10) 1 5000 in
  let s := server6 (heap6_of true) [l] (message6 2 TYPE_NA [] false) in
  ready6 s ∧ ∃ s' l', serve6 [] plain_engine6 Renew s = (s', Ok [l']) ∧
    addr6_ l' = addr6_ l ∧ lease_list6 s' = [].
Proof.
  split; [apply server6_ready|]. do 2 eexists. split; [vm_compute; reflexivity|].
  split; vm_compute; reflexivity.
Qed.

(** The only lease of a client is taken away when the address reserved for the client is in
    use by another one; the client gets a third address. *)
Theorem only_lease_is_removed :
  let s := server6 (heap6_of false)
             [lease6_of 2 TYPE_NA (in_net1 0x10) 1 5000; lease6_of 3 TYPE_NA (in_net1 0x50) 1 5000]
             (message6 2 TYPE_NA [(V6 (in_net1 0x11), 128)] false) in
  ready6 s ∧
  ∃ s' l, serve6 [reservation6 2 1 RESRV_NA (in_net1 0x50) 128] plain_engine6 Allocate s
          = (s', Ok [l]) ∧ addr6_ l = V6 (in_net1 0x11) ∧
    lease_list6 s' = [V6 (in_net1 0x11); V6 (in_net1 0x50)].
Proof.
  split; [apply server6_ready|]. do 2 eexists. split; [vm_compute; reflexivity|].
  split; vm_compute; reflexivity.
Qed.
