(* ===== verification/Dhcpv4Msg.v ===== *)
(** * The messages and the configuration of the DHCPv4 server ([src/bin/dhcp4/dhcp4_srv.cc],
      [src/lib/dhcp/pkt4.cc], [iface_mgr.cc])

    A query is a [Pkt] with the fields of a [Pkt4] that only the server looks at; a response
    has its header, where it goes, and its options.  A response option is one of the few kinds
    the server makes, or an option object copied from the query or the configuration.

    [Dhcpv4Config] is what [CfgMgr], [IfaceMgr] and the hook libraries give to the server while it
    handles a message: as for the engine, a hook point is a function, or [None] without
    callouts.  DHCPv4-over-DHCPv6 is left out. *)

From S2P Require Import Prelude IoAddress Pool Subnet SharedNetwork Lease Host.
From S2P Require Import DnsName Option4ClientFqdn D2ClientMgr Packet OptionSpace CfgOption CfgSubnets ClientClass.
From S2P Require Import AllocEngine4.
Local Open Scope Z_scope.

(** ** Codes *)

Definition DHO_SUBNET_MASK : Z := 1.
Definition DHO_ROUTERS : Z := 3.
Definition DHO_DOMAIN_NAME_SERVERS : Z := 6.
Definition DHO_HOST_NAME : Z := 12.
Definition DHO_DOMAIN_NAME : Z := 15.
Definition DHO_DHCP_REQUESTED_ADDRESS : Z := 50.
Definition DHO_DHCP_LEASE_TIME : Z := 51.
Definition DHO_DHCP_SERVER_IDENTIFIER : Z := 54.
Definition DHO_DHCP_PARAMETER_REQUEST_LIST : Z := 55.
Definition DHO_DHCP_RENEWAL_TIME : Z := 58.
Definition DHO_DHCP_REBINDING_TIME : Z := 59.
Definition DHO_DHCP_CLIENT_IDENTIFIER : Z := 61.
Definition DHO_FQDN : Z := 81.
Definition RAI_OPTION_AGENT_CIRCUIT_ID : Z := 6.
Definition RAI_OPTION_RELAY_PORT : Z := 19.
Definition DOCSIS3_V4_ORO : Z := 1.

Definition DHCP_NOTYPE : Z := 0.
Definition DHCPDISCOVER : Z := 1.
Definition DHCPOFFER : Z := 2.
Definition DHCPREQUEST : Z := 3.
Definition DHCPDECLINE : Z := 4.
Definition DHCPACK : Z := 5.
Definition DHCPNAK : Z := 6.
Definition DHCPRELEASE : Z := 7.
Definition DHCPINFORM : Z := 8.

Definition DHCP4_CLIENT_PORT : Z := 68.
Definition DHCP4_SERVER_PORT : Z := 67.
Definition BOOTP_BROADCAST : Z := 32768.
Definition FLAG_BROADCAST_MASK : Z := 0x8000.

(** ** Queries *)

Record Query := {
  pkt : Pkt;
  q_hops_ : Z;
  q_flags_ : Z;
  q_ifindex_ : option Z;
  q_remote_port_ : Z;
  q_local_hwaddr_ : option HWAddr;
  q_remote_hwaddr_ : option HWAddr
}.

Definition with_pkt (p : Pkt) (q : Query) : Query :=
  {| pkt := p; q_hops_ := q_hops_ q; q_flags_ := q_flags_ q; q_ifindex_ := q_ifindex_ q;
     q_remote_port_ := q_remote_port_ q; q_local_hwaddr_ := q_local_hwaddr_ q;
     q_remote_hwaddr_ := q_remote_hwaddr_ q |}.

Definition getHWAddr (q : Query) : option HWAddr :=
  match pkt_kind (pkt q) with Pkt4 hwaddr _ _ _ _ => hwaddr | Pkt6 _ _ => None end.
Definition getCiaddr (q : Query) : IOAddress :=
  match pkt_kind (pkt q) with Pkt4 _ ciaddr _ _ _ => ciaddr | Pkt6 _ _ => IPV4_ZERO_ADDRESS end.
Definition getGiaddr (q : Query) : IOAddress :=
  match pkt_kind (pkt q) with Pkt4 _ _ _ _ giaddr => giaddr | Pkt6 _ _ => IPV4_ZERO_ADDRESS end.
Definition q_option (q : Query) (code : Z) : option Option := Packet.getOption (pkt q) code.
Definition getType (q : Query) : res Z := pkt4_getType (pkt q).

(** [Pkt4::isRelayed]. *)
Definition isRelayed (q : Query) : bool :=
  negb (isV4Zero (getGiaddr q)) && negb (isV4Bcast (getGiaddr q)).

(** [ClientId::ClientId(std::vector<uint8_t>)]: a client identifier has 2 to 128 bytes. *)
Definition MAX_CLIENT_ID_LEN : nat := 128.
Definition MIN_CLIENT_ID_LEN : nat := 2.
Definition mkClientId (data : list Z) : res (list Z) :=
  _ ← throw_if (MAX_CLIENT_ID_LEN <? length data)%nat BadValue;
  _ ← throw_if (bool_decide (data = [])) BadValue;
  _ ← throw_if (length data <? MIN_CLIENT_ID_LEN)%nat BadValue;
  mret data.

(** [dynamic_pointer_cast<OptionCustom>(opt)->readAddress()] when the cast succeeds. *)
Definition custom_buffers (o : option Option) : option (list (list Z)) :=
  match o with
  | Some o => match option_class_ o with OptionCustom buffers => Some buffers | _ => None end
  | None => None
  end.
Definition uint8_array (o : option Option) : option (list Z) :=
  match o with
  | Some o => match option_class_ o with OptionUint8Array values => Some values | _ => None end
  | None => None
  end.
Definition client_fqdn (o : option Option) : option Fqdn :=
  match o with
  | Some o => match option_class_ o with Option4ClientFqdn f => Some f | _ => None end
  | None => None
  end.
Definition option_string (o : option Option) : option string :=
  match o with
  | Some o => match option_class_ o with OptionString => Some (option_getValue o) | _ => None end
  | None => None
  end.

(** ** Responses *)

Inductive RspOption :=
  | Copied (o : Option)
  | MessageType (type : Z)
  | ClientFqdn (f : Fqdn)
  | Hostname (value : string)
  | Uint32 (code value : Z)
  | Address (code : Z) (address : IOAddress)
  | Vendor (vendor_id : Z) (suboptions : list Option).

Definition rsp_code (o : RspOption) : Z :=
  match o with
  | Copied o => option_type_ o
  | MessageType _ => DHO_DHCP_MESSAGE_TYPE
  | ClientFqdn _ => DHO_FQDN
  | Hostname _ => DHO_HOST_NAME
  | Uint32 code _ | Address code _ => code
  | Vendor _ _ => DHO_VIVSO_SUBOPTIONS
  end.

Record RspHeader := {
  r_transid_ : Z;
  r_hops_ : Z;
  r_flags_ : Z;
  r_ciaddr_ : IOAddress;
  r_yiaddr_ : IOAddress;
  r_siaddr_ : IOAddress;
  r_giaddr_ : IOAddress;
  r_hwaddr_ : HWAddr;
  r_sname_ : string;
  r_file_ : string
}.
Record RspTarget := {
  r_iface_ : string;
  r_ifindex_ : option Z;
  r_local_addr_ : IOAddress;
  r_remote_addr_ : IOAddress;
  r_local_port_ : Z;
  r_remote_port_ : Z;
  r_local_hwaddr_ : option HWAddr;
  r_remote_hwaddr_ : option HWAddr
}.
Record Rsp := { header : RspHeader; target : RspTarget; r_options_ : list RspOption }.

Definition on_header (f : RspHeader → RspHeader) (r : Rsp) : Rsp :=
  {| header := f (header r); target := target r; r_options_ := r_options_ r |}.
Definition on_target (f : RspTarget → RspTarget) (r : Rsp) : Rsp :=
  {| header := header r; target := f (target r); r_options_ := r_options_ r |}.
Definition on_options (f : list RspOption → list RspOption) (r : Rsp) : Rsp :=
  {| header := header r; target := target r; r_options_ := f (r_options_ r) |}.

Definition header_with (h : RspHeader) (hops flags : Z) (ci yi si gi : IOAddress)
    (sname file : string) : RspHeader :=
  {| r_transid_ := r_transid_ h; r_hops_ := hops; r_flags_ := flags; r_ciaddr_ := ci;
     r_yiaddr_ := yi; r_siaddr_ := si; r_giaddr_ := gi; r_hwaddr_ := r_hwaddr_ h;
     r_sname_ := sname; r_file_ := file |}.
Definition setHops (v : Z) : Rsp → Rsp := on_header (λ h,
  header_with h v (r_flags_ h) (r_ciaddr_ h) (r_yiaddr_ h) (r_siaddr_ h) (r_giaddr_ h) (r_sname_ h) (r_file_ h)).
Definition setFlags (v : Z) : Rsp → Rsp := on_header (λ h,
  header_with h (r_hops_ h) v (r_ciaddr_ h) (r_yiaddr_ h) (r_siaddr_ h) (r_giaddr_ h) (r_sname_ h) (r_file_ h)).
Definition setCiaddr (a : IOAddress) : Rsp → Rsp := on_header (λ h,
  header_with h (r_hops_ h) (r_flags_ h) a (r_yiaddr_ h) (r_siaddr_ h) (r_giaddr_ h) (r_sname_ h) (r_file_ h)).
Definition setYiaddr (a : IOAddress) : Rsp → Rsp := on_header (λ h,
  header_with h (r_hops_ h) (r_flags_ h) (r_ciaddr_ h) a (r_siaddr_ h) (r_giaddr_ h) (r_sname_ h) (r_file_ h)).
Definition setSiaddr (a : IOAddress) : Rsp → Rsp := on_header (λ h,
  header_with h (r_hops_ h) (r_flags_ h) (r_ciaddr_ h) (r_yiaddr_ h) a (r_giaddr_ h) (r_sname_ h) (r_file_ h)).
Definition setGiaddr (a : IOAddress) : Rsp → Rsp := on_header (λ h,
  header_with h (r_hops_ h) (r_flags_ h) (r_ciaddr_ h) (r_yiaddr_ h) (r_siaddr_ h) a (r_sname_ h) (r_file_ h)).
(** [setSname] and [setFile] throw when the name is too long. *)
Definition setSname (s : string) (r : Rsp) : res Rsp :=
  _ ← throw_if (MAX_SNAME_LEN <? Z.of_nat (String.length s)) OutOfRange;
  mret (on_header (λ h, header_with h (r_hops_ h) (r_flags_ h) (r_ciaddr_ h) (r_yiaddr_ h)
                          (r_siaddr_ h) (r_giaddr_ h) s (r_file_ h)) r).
Definition setFile (s : string) (r : Rsp) : res Rsp :=
  _ ← throw_if (MAX_FILE_LEN <? Z.of_nat (String.length s)) OutOfRange;
  mret (on_header (λ h, header_with h (r_hops_ h) (r_flags_ h) (r_ciaddr_ h) (r_yiaddr_ h)
                          (r_siaddr_ h) (r_giaddr_ h) (r_sname_ h) s) r).

Definition target_with (t : RspTarget) (iface : string) (ifindex : option Z)
    (local remote : IOAddress) (local_port remote_port : Z) : RspTarget :=
  {| r_iface_ := iface; r_ifindex_ := ifindex; r_local_addr_ := local; r_remote_addr_ := remote;
     r_local_port_ := local_port; r_remote_port_ := remote_port;
     r_local_hwaddr_ := r_local_hwaddr_ t; r_remote_hwaddr_ := r_remote_hwaddr_ t |}.
Definition setRemoteAddr (a : IOAddress) : Rsp → Rsp := on_target (λ t,
  target_with t (r_iface_ t) (r_ifindex_ t) (r_local_addr_ t) a (r_local_port_ t) (r_remote_port_ t)).
Definition setRemotePort (p : Z) : Rsp → Rsp := on_target (λ t,
  target_with t (r_iface_ t) (r_ifindex_ t) (r_local_addr_ t) (r_remote_addr_ t) (r_local_port_ t) p).
Definition setLocalPort (p : Z) : Rsp → Rsp := on_target (λ t,
  target_with t (r_iface_ t) (r_ifindex_ t) (r_local_addr_ t) (r_remote_addr_ t) p (r_remote_port_ t)).
(** [setLocalAddr], [setIndex] (or [resetIndex]) and [setIface]. *)
Definition setLocal (a : IOAddress) (ifindex : option Z) (iface : string) : Rsp → Rsp :=
  on_target (λ t, target_with t iface ifindex a (r_remote_addr_ t) (r_local_port_ t) (r_remote_port_ t)).

Definition rsp_option (code : Z) (r : Rsp) : option RspOption :=
  snd <$> list_find (λ o, rsp_code o = code) (r_options_ r).
(** [Pkt4::addOption]. *)
Definition rsp_addOption (o : RspOption) (r : Rsp) : res Rsp :=
  match rsp_option (rsp_code o) r with
  | Some _ => Throw BadValue
  | None => mret (on_options (λ l, l ++ [o]) r)
  end.
Fixpoint del_first (code : Z) (l : list RspOption) : list RspOption :=
  match l with
  | [] => []
  | o :: l' => if rsp_code o =? code then l' else o :: del_first code l'
  end.
Definition rsp_delOption (code : Z) : Rsp → Rsp := on_options (del_first code).
(** An option object of the response is changed. *)
Fixpoint replace_first (o : RspOption) (l : list RspOption) : list RspOption :=
  match l with
  | [] => []
  | x :: l' => if rsp_code x =? rsp_code o then o :: l' else x :: replace_first o l'
  end.
Definition rsp_replace (o : RspOption) : Rsp → Rsp := on_options (replace_first o).

(** [Pkt4::getType] and [Pkt4::setType] of a response, which has the option from the start. *)
Definition rsp_type (r : Rsp) : Z :=
  match rsp_option DHO_DHCP_MESSAGE_TYPE r with Some (MessageType t) => t | _ => DHCP_NOTYPE end.
Definition setType (t : Z) : Rsp → Rsp := rsp_replace (MessageType t).

(** [new Pkt4(type, transid)]. *)
Definition mkRsp (type transid : Z) : Rsp :=
  {| header := {| r_transid_ := transid; r_hops_ := 0; r_flags_ := 0;
                  r_ciaddr_ := IPV4_ZERO_ADDRESS; r_yiaddr_ := IPV4_ZERO_ADDRESS;
                  r_siaddr_ := IPV4_ZERO_ADDRESS; r_giaddr_ := IPV4_ZERO_ADDRESS;
                  r_hwaddr_ := empty_HWAddr; r_sname_ := ""; r_file_ := "" |};
     target := {| r_iface_ := ""; r_ifindex_ := None; r_local_addr_ := IPV4_ZERO_ADDRESS;
                  r_remote_addr_ := IPV4_ZERO_ADDRESS; r_local_port_ := DHCP4_SERVER_PORT;
                  r_remote_port_ := DHCP4_CLIENT_PORT; r_local_hwaddr_ := None;
                  r_remote_hwaddr_ := None |};
     r_options_ := [MessageType type] |}.

(** [OptionString::OptionString] and [OptionString::setValue]: an empty value is refused. *)
Definition mkHostname (value : string) : res RspOption :=
  _ ← throw_if (bool_decide (value = "")) OutOfRange; mret (Hostname value).

(** ** Interfaces *)

(** An interface with its addresses and the addresses of its open sockets. *)
Record Iface := { if_name : string; if_addrs : list IOAddress; if_sockets : list IOAddress }.

Definition iface_addresses (l : list Iface) : Ifaces := (λ i, (if_name i, if_addrs i)) <$> l.

(** [IfaceMgr::getSocket(pkt)]: the address of the socket. *)
Definition getSocket (ifaces : list Iface) (q : Query) : res IOAddress :=
  match list_find (λ i, if_name i = iface_ (pkt q)) ifaces with
  | None => Throw IfaceNotFound
  | Some (_, i) =>
      match list_find (λ a, isV4 a = true ∧ equals a (local_addr_ (pkt q)) = true) (if_sockets i) with
      | Some (_, a) => mret a
      | None =>
          match list_find (λ a, isV4 a = true) (if_sockets i) with
          | Some (_, a) => mret a
          | None => Throw SocketNotFound
          end
      end
  end.

(** [IfaceMgr::hasOpenSocket(addr)]. *)
Definition hasOpenSocket (ifaces : list Iface) (addr : IOAddress) : bool :=
  existsb (λ i, existsb (λ a, equals a addr
                              || (equals a IPV6_ZERO_ADDRESS
                                  && existsb (equals addr) (if_addrs i))) (if_sockets i)) ifaces.

(** ** The configuration *)

(** What [Subnet4] and [Network4] have besides the members of [Subnet]. *)
Record Subnet4Cfg := {
  cfg_siaddr_ : IOAddress;
  cfg_sname_ : string;
  cfg_filename_ : string;
  t1_specified : bool;
  t2_specified : bool;
  subnet_cfg_option_ : CfgOption;
  subnet_server_id : option IOAddress
}.

Class Dhcpv4Config := {
  subnets4_ : list Z;
  cfg_subnet_net : gmap Z Network;
  cfg_network_net : gmap Z Network;
  subnet4_cfg : Z → Subnet4Cfg;
  network_cfg_option : Z → CfgOption;
  network_server_ids : list IOAddress;
  pool_cfg_option : Pool → CfgOption;
  host_cfg_option : Host → CfgOption;
  class_cfg_option : ClientClassDef → CfgOption;
  global_cfg_option : CfgOption;
  network_required_classes : SharedNetwork → ClientClasses;
  subnet_required_classes : Subnet → ClientClasses;
  pool_required_classes : Pool → ClientClasses;
  class_dictionary : ClientClassDictionary;
  echo_client_id : bool;
  identifier_types : list IdentifierType;
  decline_period : Z;
  socket_udp : bool;
  use_routing : bool;
  ifaces : list Iface;
  direct_response_supported : bool;
  d2_client_config : D2ClientConfig;
  (** hook points *)
  host4_identifier : option (Query → NextStep * (IdentifierType * list Z));
  subnet4_select : option (Query → option Z → NextStep * option Z);
  pkt4_receive : option (Query → NextStep * Query);
  lease4_release : option (Query → Lease4 → NextStep * Lease4);
  lease4_decline : option (Query → Lease4 → NextStep * Lease4);
  leases4_committed : option (Query → list Lease4 → list Lease4 → NextStep)
}.
