(* ===== verification/Pkt4Wire.v ===== *)
(** * DHCPv4 packets on the wire ([src/lib/dhcp/pkt4.cc])

    [Pkt4::unpack] and [Pkt4::pack]: the fixed fields, the magic cookie and the options.  A packet
    is a [WPkt4] with the members of [Pkt4] that go to the wire; its options are the objects of
    [OptionWire]. *)

From S2P Require Import Prelude IoAddress Lease DnsName Option4ClientFqdn Packet ClientClass Dhcpv4Msg.
From S2P Require Import OptionSpace OptionTypes OptionDef StdOptionDefs OptionWire OptionWireSafe OptionPack OptionRoundTrip InputBuffer.
Local Open Scope Z_scope.

Definition BOOTREQUEST : Z := 1.
Definition BOOTREPLY : Z := 2.
Definition DHCPLEASEQUERY : Z := 10.
Definition DHCPLEASEUNASSIGNED : Z := 11.
Definition DHCPLEASEUNKNOWN : Z := 12.
Definition DHCPLEASEACTIVE : Z := 13.
Definition DHCPBULKLEASEQUERY : Z := 14.
Definition DHCPLEASEQUERYDONE : Z := 15.
Definition DHCPV4_PKT_HDR_LEN : nat := 236.
Definition DHCP_OPTIONS_COOKIE : Z := 0x63825363.
Definition CHADDR_LEN : nat := 16.
Definition SNAME_LEN : nat := 64.
Definition FILE_LEN : nat := 128.
Definition MAX_HWADDR_LEN : nat := 20.

(** ** Packets *)

(** The fields in front of the magic cookie, as they are read. *)
Record Header4 := {
  h_op : Z; h_htype : Z; h_hlen : Z; h_hops : Z; h_transid : Z; h_secs : Z; h_flags : Z;
  h_ciaddr : Z; h_yiaddr : Z; h_siaddr : Z; h_giaddr : Z;
  h_chaddr : list Z; h_sname : list Z; h_file : list Z
}.

Record WPkt4 := {
  p4_op_ : Z;
  p4_hwaddr_ : option HWAddr;
  p4_hops_ : Z;
  p4_transid_ : Z;
  p4_secs_ : Z;
  p4_flags_ : Z;
  p4_ciaddr_ : IOAddress;
  p4_yiaddr_ : IOAddress;
  p4_siaddr_ : IOAddress;
  p4_giaddr_ : IOAddress;
  p4_sname_ : list Z;
  p4_file_ : list Z;
  p4_options_ : list WOption;
  p4_deferred_options_ : list Z
}.

Definition with_p4_header (h : Header4) (p : WPkt4) : WPkt4 :=
  {| p4_op_ := h_op h; p4_hwaddr_ := p4_hwaddr_ p; p4_hops_ := h_hops h; p4_transid_ := h_transid h;
     p4_secs_ := h_secs h; p4_flags_ := h_flags h; p4_ciaddr_ := V4 (h_ciaddr h);
     p4_yiaddr_ := V4 (h_yiaddr h); p4_siaddr_ := V4 (h_siaddr h); p4_giaddr_ := V4 (h_giaddr h);
     p4_sname_ := h_sname h; p4_file_ := h_file h; p4_options_ := p4_options_ p;
     p4_deferred_options_ := p4_deferred_options_ p |}.
Definition with_p4_hwaddr (hw : option HWAddr) (p : WPkt4) : WPkt4 :=
  {| p4_op_ := p4_op_ p; p4_hwaddr_ := hw; p4_hops_ := p4_hops_ p; p4_transid_ := p4_transid_ p;
     p4_secs_ := p4_secs_ p; p4_flags_ := p4_flags_ p; p4_ciaddr_ := p4_ciaddr_ p;
     p4_yiaddr_ := p4_yiaddr_ p; p4_siaddr_ := p4_siaddr_ p; p4_giaddr_ := p4_giaddr_ p;
     p4_sname_ := p4_sname_ p; p4_file_ := p4_file_ p; p4_options_ := p4_options_ p;
     p4_deferred_options_ := p4_deferred_options_ p |}.
Definition with_p4_options (options : list WOption) (deferred : list Z) (p : WPkt4) : WPkt4 :=
  {| p4_op_ := p4_op_ p; p4_hwaddr_ := p4_hwaddr_ p; p4_hops_ := p4_hops_ p;
     p4_transid_ := p4_transid_ p; p4_secs_ := p4_secs_ p; p4_flags_ := p4_flags_ p;
     p4_ciaddr_ := p4_ciaddr_ p; p4_yiaddr_ := p4_yiaddr_ p; p4_siaddr_ := p4_siaddr_ p;
     p4_giaddr_ := p4_giaddr_ p; p4_sname_ := p4_sname_ p; p4_file_ := p4_file_ p;
     p4_options_ := options; p4_deferred_options_ := deferred |}.

(** [HWAddr(hwaddr, htype)]. *)
Definition mkHWAddr (hwaddr : list Z) (htype : Z) : res HWAddr :=
  _ ← throw_if (MAX_HWADDR_LEN <? length hwaddr)%nat BadValue;
  mret {| hwaddr_bytes := hwaddr; htype_ := htype |}.

(** [Pkt4::DHCPTypeToBootpType]. *)
Definition DHCPTypeToBootpType (dhcpType : Z) : res Z :=
  if bool_decide (dhcpType ∈ [DHCPDISCOVER; DHCPREQUEST; DHCPDECLINE; DHCPRELEASE; DHCPINFORM;
                              DHCPLEASEQUERY; DHCPBULKLEASEQUERY]) then mret BOOTREQUEST
  else if bool_decide (dhcpType ∈ [DHCPACK; DHCPNAK; DHCPOFFER; DHCPLEASEUNASSIGNED;
                                   DHCPLEASEUNKNOWN; DHCPLEASEACTIVE; DHCPLEASEQUERYDONE])
  then mret BOOTREPLY
  else Throw OutOfRange.

(** [Pkt4::addOption]: the options of a message are unique. *)
Definition p4_find (code : Z) (p : WPkt4) : option WOption :=
  head (filter (λ o, w_type o = code) (p4_options_ p)).
Definition p4_addOption (opt : WOption) (p : WPkt4) : res WPkt4 :=
  match p4_find (w_type opt) p with
  | Some _ => Throw BadValue
  | None => mret (with_p4_options (insert_option opt (p4_options_ p)) (p4_deferred_options_ p) p)
  end.

(** [Pkt4::getType]: an [OptionInt<uint8_t>], or the first byte of an option of another class. *)
Definition p4_getType (p : WPkt4) : res Z :=
  match p4_find DHO_DHCP_MESSAGE_TYPE p with
  | None => mret DHCP_NOTYPE
  | Some o => match w_payload o with
              | WInt 1 false v => mret v
              | _ => match w_data o with [] => Throw OutOfRange | b :: _ => mret b end
              end
  end.

(** The constructors: from a type and a transaction id, and for a received buffer. *)
Definition empty_pkt4 (op transid : Z) : WPkt4 :=
  {| p4_op_ := op; p4_hwaddr_ := Some empty_HWAddr; p4_hops_ := 0; p4_transid_ := transid;
     p4_secs_ := 0; p4_flags_ := 0; p4_ciaddr_ := V4 0; p4_yiaddr_ := V4 0; p4_siaddr_ := V4 0;
     p4_giaddr_ := V4 0; p4_sname_ := replicate SNAME_LEN 0; p4_file_ := replicate FILE_LEN 0;
     p4_options_ := []; p4_deferred_options_ := [] |}.
Definition new_pkt4 (msg_type transid : Z) : res WPkt4 :=
  op ← DHCPTypeToBootpType msg_type;
  p4_addOption (typed UniverseV4 DHO_DHCP_MESSAGE_TYPE (WInt 1 false msg_type)) (empty_pkt4 op transid).
Definition received_pkt4 (data : list Z) : res WPkt4 :=
  _ ← throw_if (length data <? DHCPV4_PKT_HDR_LEN)%nat OutOfRange;
  mret (empty_pkt4 BOOTREQUEST 0).

(** [Pkt4::setHWAddrMember], [setSname] and [setFile]. *)
Definition p4_setHWAddr (htype hlen : Z) (mac_addr : list Z) (p : WPkt4) : res WPkt4 :=
  _ ← throw_if (Z.of_nat CHADDR_LEN <? hlen) OutOfRange;
  _ ← throw_if (bool_decide (mac_addr = []) && (0 <? hlen)) OutOfRange;
  hw ← mkHWAddr mac_addr htype;
  mret (with_p4_hwaddr (Some hw) p).
Definition fill (n : nat) (data : list Z) : list Z := data ++ replicate (n - length data) 0.
Definition p4_setSname (sname : list Z) : res (list Z) :=
  _ ← throw_if (SNAME_LEN <? length sname)%nat OutOfRange; mret (fill SNAME_LEN sname).
Definition p4_setFile (file : list Z) : res (list Z) :=
  _ ← throw_if (FILE_LEN <? length file)%nat OutOfRange; mret (fill FILE_LEN file).

(** ** From and to the wire *)

Definition readHeader4 : ST InputBuffer Header4 :=
  op ← readUint8; htype ← readUint8; hlen ← readUint8; hops ← readUint8;
  transid ← readUint32; secs ← readUint16; flags ← readUint16;
  ciaddr ← readUint32; yiaddr ← readUint32; siaddr ← readUint32; giaddr ← readUint32;
  chaddr ← readVector CHADDR_LEN; sname ← readData SNAME_LEN; file ← readData FILE_LEN;
  mret {| h_op := op; h_htype := htype; h_hlen := hlen; h_hops := hops; h_transid := transid;
          h_secs := secs; h_flags := flags; h_ciaddr := ciaddr; h_yiaddr := yiaddr;
          h_siaddr := siaddr; h_giaddr := giaddr; h_chaddr := chaddr; h_sname := sname;
          h_file := file |}.

(** [hw_addr.resize(hlen)] *)
Definition resize (n : nat) (l : list Z) : list Z := take n l ++ replicate (n - length l) 0.

Section Unpack.
Context (runtime : string → list OptionDefinition).

(** A computation on the options of the packet. *)
Definition on_options {A} (m : ST Collection A) : ST WPkt4 A :=
  zoom (λ p, {| c_options := p4_options_ p; c_deferred := p4_deferred_options_ p; c_relay_msg := None |})
       (λ c, with_p4_options (c_options c) (c_deferred c)) m.

(** [Pkt4::unpack], after the fixed fields have been read. *)
Definition unpack_cookie (data : list Z) (buffer_in : InputBuffer) : ST WPkt4 unit :=
  let left := (length data - getPosition buffer_in)%nat in
  _ ← lift (throw_if (left =? 0)%nat InvalidOperation);
  _ ← lift (throw_if (left <? 4)%nat Unexpected);
  let '(buffer_in, magic) := readUint32 buffer_in in
  magic ← lift magic;
  _ ← lift (throw_if (negb (magic =? DHCP_OPTIONS_COOKIE)) Unexpected);
  opts_buffer ← lift (readVector (length data - getPosition buffer_in) buffer_in).2;
  _ ← on_options (unpackOptions4 runtime DHCP4_OPTION_SPACE opts_buffer);
  mret tt.

Definition p4_unpack (data : list Z) : ST WPkt4 unit :=
  _ ← lift (throw_if (length data <? DHCPV4_PKT_HDR_LEN)%nat OutOfRange);
  let '(buffer_in, h) := readHeader4 (mkInputBuffer data) in
  h ← lift h;
  _ ← modify (with_p4_header h);
  hw ← lift (mkHWAddr (resize (Z.to_nat (h_hlen h)) (h_chaddr h)) (h_htype h));
  _ ← modify (with_p4_hwaddr (Some hw));
  unpack_cookie data buffer_in.
End Unpack.

(** What is written for the hardware address: an address that is too long is not written at
    all. *)
Definition chaddr_field (hwaddr : list Z) : list Z :=
  let hw_len := length hwaddr in
  if (0 <? hw_len)%nat && (hw_len <=? CHADDR_LEN)%nat
  then hwaddr ++ replicate (CHADDR_LEN - hw_len) 0 else replicate CHADDR_LEN 0.

(** The bytes of the fixed fields. *)
Definition header4_bytes (h : Header4) : list Z :=
  be_split 1 (h_op h) ++ be_split 1 (h_htype h) ++ be_split 1 (h_hlen h) ++ be_split 1 (h_hops h)
  ++ be_split 4 (h_transid h) ++ be_split 2 (h_secs h) ++ be_split 2 (h_flags h)
  ++ be_split 4 (h_ciaddr h) ++ be_split 4 (h_yiaddr h) ++ be_split 4 (h_siaddr h)
  ++ be_split 4 (h_giaddr h) ++ h_chaddr h ++ h_sname h ++ h_file h.

(** [Pkt4::pack]: what is in [buffer_out_] when it returns. *)
Definition p4_pack (p : WPkt4) : res (list Z) :=
  match p4_hwaddr_ p with
  | None => Throw InvalidOperation
  | Some hw =>
      rethrow InvalidOperation
        (ciaddr ← toUint32 (p4_ciaddr_ p);
         yiaddr ← toUint32 (p4_yiaddr_ p);
         siaddr ← toUint32 (p4_siaddr_ p);
         giaddr ← toUint32 (p4_giaddr_ p);
         let hw_len := length (hwaddr_bytes hw) in
         let h := {| h_op := p4_op_ p; h_htype := htype_ hw;
                     h_hlen := Z.of_nat (if (hw_len <? CHADDR_LEN)%nat then hw_len else CHADDR_LEN);
                     h_hops := p4_hops_ p; h_transid := p4_transid_ p; h_secs := p4_secs_ p;
                     h_flags := p4_flags_ p; h_ciaddr := ciaddr; h_yiaddr := yiaddr;
                     h_siaddr := siaddr; h_giaddr := giaddr;
                     h_chaddr := chaddr_field (hwaddr_bytes hw);
                     h_sname := p4_sname_ p; h_file := p4_file_ p |} in
         options ← pack_collection UniverseV4 (p4_options_ p);
         mret (header4_bytes h ++ be_split 4 DHCP_OPTIONS_COOKIE ++ options ++ [DHO_END]))
  end.

(** ** Correctness *)

Record header_ok (h : Header4) : Prop := {
  ok_op : is_byte (h_op h);
  ok_htype : is_byte (h_htype h);
  ok_hlen : is_byte (h_hlen h);
  ok_hops : is_byte (h_hops h);
  ok_transid : 0 ≤ h_transid h < 2 ^ 32;
  ok_secs : 0 ≤ h_secs h < 65536;
  ok_flags : 0 ≤ h_flags h < 65536;
  ok_ciaddr : 0 ≤ h_ciaddr h < 2 ^ 32;
  ok_yiaddr : 0 ≤ h_yiaddr h < 2 ^ 32;
  ok_siaddr : 0 ≤ h_siaddr h < 2 ^ 32;
  ok_giaddr : 0 ≤ h_giaddr h < 2 ^ 32;
  ok_chaddr : length (h_chaddr h) = CHADDR_LEN;
  ok_sname : length (h_sname h) = SNAME_LEN;
  ok_file : length (h_file h) = FILE_LEN
}.

Lemma reads_header h : header_ok h → reads readHeader4 (header4_bytes h) h.
Proof.
  intros []. unfold readHeader4, header4_bytes. rewrite <- (app_nil_r (h_file h)) at 1.
  do 4 (eapply reads_bind; [by apply reads_uint8|]).
  eapply reads_bind; [by apply reads_uint32|].
  do 2 (eapply reads_bind; [by apply reads_uint16|]).
  do 4 (eapply reads_bind; [by apply reads_uint32|]).
  do 3 (eapply reads_bind; [by apply reads_data|]).
  destruct h. apply reads_ret.
Qed.

Lemma length_header4 h : header_ok h → length (header4_bytes h) = DHCPV4_PKT_HDR_LEN.
Proof.
  intros []. unfold header4_bytes. rewrite !length_app, !length_be_split, ok_chaddr0, ok_sname0, ok_file0. done.
Qed.

(** The bytes of a header are enough for its reader, whatever they are. *)
Lemma covers_header : covers readHeader4 DHCPV4_PKT_HDR_LEN header_ok.
Proof.
  change DHCPV4_PKT_HDR_LEN
    with (1 + (1 + (1 + (1 + (4 + (2 + (2 + (4 + (4 + (4 + (4 + (CHADDR_LEN + (SNAME_LEN + (FILE_LEN + 0))))))))))))))%nat.
  unfold readHeader4.
  do 4 (eapply covers_bind; [apply covers_uint8|intros ??]).
  eapply covers_bind; [apply covers_uint32|intros ??].
  do 2 (eapply covers_bind; [apply covers_uint16|intros ??]).
  do 4 (eapply covers_bind; [apply covers_uint32|intros ??]).
  do 3 (eapply covers_bind; [apply covers_data|intros ? [??]]).
  apply covers_ret. by split.
Qed.

(** The fields of a packet have the ranges of their types. *)
Record fields_ok (p : WPkt4) : Prop := {
  fields_op : is_byte (p4_op_ p);
  fields_hops : is_byte (p4_hops_ p);
  fields_transid : 0 ≤ p4_transid_ p < 2 ^ 32;
  fields_secs : 0 ≤ p4_secs_ p < 65536;
  fields_flags : 0 ≤ p4_flags_ p < 65536;
  fields_addresses : Forall (λ a, ∃ z, a = V4 z ∧ 0 ≤ z < 2 ^ 32)
                       [p4_ciaddr_ p; p4_yiaddr_ p; p4_siaddr_ p; p4_giaddr_ p];
  fields_sname : length (p4_sname_ p) = SNAME_LEN;
  fields_file : length (p4_file_ p) = FILE_LEN
}.

Lemma fields_with_header h p : header_ok h → fields_ok (with_p4_header h p).
Proof.
  intros []. split; try done. cbn. repeat constructor; eexists; split; done.
Qed.

(** The exceptions of [unpack]. *)
Definition unpack4_error (e : exc) : Prop :=
  e = OutOfRange ∨ e = BadValue ∨ e = InvalidOperation ∨ unpack_error e.

Section Total.
Context (runtime : string → list OptionDefinition).

(** What stays from the options of a packet. *)
Definition options_grow (p p' : WPkt4) : Prop :=
  grows {| c_options := p4_options_ p; c_deferred := p4_deferred_options_ p; c_relay_msg := None |}
        {| c_options := p4_options_ p'; c_deferred := p4_deferred_options_ p'; c_relay_msg := None |}.

Lemma on_options_total data p :
  Forall is_byte data →
  ∃ p' r, on_options (unpackOptions4 runtime DHCP4_OPTION_SPACE data) p = (p', r)
    ∧ options_grow p p' ∧ (fields_ok p → fields_ok p') ∧ p4_hwaddr_ p' = p4_hwaddr_ p
    ∧ match r with Ok _ => True | Throw e => unpack_error e end.
Proof.
  intros Hb. unfold on_options, zoom.
  destruct (unpackOptions4_ok runtime DHCP4_OPTION_SPACE data
    {| c_options := p4_options_ p; c_deferred := p4_deferred_options_ p; c_relay_msg := None |} Hb)
    as (c & r & E & Hg & Hr).
  rewrite E. exists (with_p4_options (c_options c) (c_deferred c) p), r. split; [done|].
  split; [exact Hg|]. split; [by intros []|]. split; [done|]. by destruct r.
Qed.

Lemma unpack4_error_collection e : unpack_error e → unpack4_error e.
Proof. unfold unpack4_error. auto. Qed.

(** What a part of [unpack] may do to a packet. *)
Definition unpacks (m : ST WPkt4 unit) (p : WPkt4) : Prop :=
  wp m p (λ _ p', fields_ok p' ∧ p4_hwaddr_ p' = p4_hwaddr_ p ∧ options_grow p p')
         (λ e p', unpack4_error e ∧ options_grow p p').

Lemma unpack_cookie_total data p :
  (DHCPV4_PKT_HDR_LEN ≤ length data)%nat → Forall is_byte data → fields_ok p →
  unpacks (unpack_cookie runtime data {| position_ := DHCPV4_PKT_HDR_LEN; data_ := data |}) p.
Proof.
  intros Hl Hb Hp. assert (options_grow p p) as Hrefl by (unfold options_grow; reflexivity).
  unfold unpacks, unpack_cookie. cbn [getPosition position_].
  apply wp_bind, wp_lift. destruct (_ =? 0)%nat; cbn [throw_if]; [by unfold unpack4_error; auto|].
  apply wp_bind, wp_lift. destruct (Nat.ltb_spec (length data - DHCPV4_PKT_HDR_LEN) 4) as [|H4]; cbn [throw_if].
  { split; [|done]. unfold unpack4_error, unpack_error. auto. }
  destruct (covers_uint32 {| position_ := DHCPV4_PKT_HDR_LEN; data_ := data |}) as (magic & E & _);
    [unfold getLength; cbn [position_ data_]; lia|done|].
  rewrite E. apply wp_bind, wp_lift. apply wp_bind, wp_lift.
  destruct (negb _); cbn [throw_if].
  { split; [|done]. unfold unpack4_error, unpack_error. auto. }
  cbn [position_ data_ getPosition].
  destruct (covers_data (length data - (DHCPV4_PKT_HDR_LEN + 4))
    {| position_ := DHCPV4_PKT_HDR_LEN + 4; data_ := data |}) as (opts & E2 & _ & Hopts);
    [unfold getLength; cbn [position_ data_]; lia|done|].
  unfold readVector. rewrite E2. apply wp_bind, wp_lift. cbn [snd].
  apply wp_bind. unfold wp at 1.
  destruct (on_options_total opts p Hopts) as (p' & r & E3 & Hg & Hf & Hw & Hr). rewrite E3.
  destruct r; [apply wp_ret; auto|]. split; [by apply unpack4_error_collection|done].
Qed.

(** C18: [Pkt4::unpack] on any bytes ends, stays inside them and throws nothing but six exceptions that
    its callers catch.  When it returns, the fields have the ranges of their types, the hardware address
    has at most 20 bytes, and the options are those that were there and new ones, in the order of
    their codes. *)
Theorem p4_unpack_total (data : list Z) (p : WPkt4) (Hb : Forall is_byte data) :
  ∃ p' r, p4_unpack runtime data p = (p', r) ∧ options_grow p p'
    ∧ match r with
      | Ok _ => fields_ok p' ∧ ∃ hw, p4_hwaddr_ p' = Some hw ∧ is_byte (htype_ hw)
                  ∧ (length (hwaddr_bytes hw) ≤ MAX_HWADDR_LEN)%nat
      | Throw e => unpack4_error e
      end.
Proof.
  assert (wp (p4_unpack runtime data) p
    (λ _ p', options_grow p p' ∧ fields_ok p' ∧ ∃ hw, p4_hwaddr_ p' = Some hw ∧ is_byte (htype_ hw)
             ∧ (length (hwaddr_bytes hw) ≤ MAX_HWADDR_LEN)%nat)
    (λ e p', options_grow p p' ∧ unpack4_error e)) as H.
  { assert (options_grow p p) as Hrefl by (unfold options_grow; reflexivity).
    unfold p4_unpack. apply wp_bind, wp_lift.
    destruct (Nat.ltb_spec (length data) DHCPV4_PKT_HDR_LEN) as [|Hl]; cbn [throw_if].
    { split; [done|]. unfold unpack4_error. auto. }
    destruct (covers_header (mkInputBuffer data)) as (h & E & Hh); [done..|]. rewrite E.
    apply wp_bind, wp_lift, wp_bind, wp_modify, wp_bind, wp_lift. unfold mkHWAddr.
    destruct (Nat.ltb_spec MAX_HWADDR_LEN (length (resize (Z.to_nat (h_hlen h)) (h_chaddr h))));
      cbn [throw_if mbind res_bind mret res_ret].
    { split; [done|]. unfold unpack4_error. auto. }
    apply wp_bind, wp_modify.
    eapply wp_mono; [apply unpack_cookie_total; [done..|]| |].
    - destruct (fields_with_header h p Hh). by split.
    - intros _ p' (Hf & Hw & Hg). split; [exact Hg|]. split; [done|]. eexists. rewrite Hw. split; [done|].
      split; [apply (ok_htype _ Hh)|done].
    - intros e p' [He Hg]. split; [exact Hg|done]. }
  unfold wp in H. destruct (p4_unpack runtime data p) as [p' r]. exists p', r. split; [done|].
  by destruct r; destruct H.
Qed.
End Total.

(** A DHCPDISCOVER without an address. *)
Definition some_message : list Z := replicate 236 0 ++ [99; 130; 83; 99; 53; 1; 1; 255].

Lemma p4_unpack_total_witness :
  Forall is_byte some_message
  ∧ ∃ p' r, p4_unpack (λ _, []) some_message (empty_pkt4 1 0) = (p', r)
    ∧ options_grow (empty_pkt4 1 0) p'
    ∧ match r with
      | Ok _ => fields_ok p' ∧ ∃ hw, p4_hwaddr_ p' = Some hw ∧ is_byte (htype_ hw)
                  ∧ (length (hwaddr_bytes hw) ≤ MAX_HWADDR_LEN)%nat
      | Throw e => unpack4_error e
      end.
Proof.
  assert (Forall is_byte some_message) as Hb by (repeat constructor; lia).
  split; [exact Hb|]. exact (p4_unpack_total (λ _, []) _ _ Hb).
Defined.

(** ** The round trip *)

Section RoundTrip.
Context (runtime : string → list OptionDefinition).

(** A packet that can be sent: the hardware address fits its field, and the options are of the
    kinds that are read back. *)
Record sendable (p : WPkt4) : Prop := {
  sendable_fields : fields_ok p;
  sendable_hwaddr : ∃ hw, p4_hwaddr_ p = Some hw ∧ is_byte (htype_ hw)
                     ∧ (length (hwaddr_bytes hw) ≤ CHADDR_LEN)%nat;
  sendable_options : Forall (readable runtime DHCP4_OPTION_SPACE) (p4_options_ p);
  sendable_order : in_order (p4_options_ p);
  sendable_rai : one_rai (p4_options_ p)
}.

Lemma length_chaddr_field hwaddr : length (chaddr_field hwaddr) = CHADDR_LEN.
Proof.
  unfold chaddr_field. destruct (Nat.ltb_spec 0 (length hwaddr)), (Nat.leb_spec (length hwaddr) CHADDR_LEN);
    cbn [andb]; rewrite ?length_app, ?length_replicate; lia.
Qed.

Lemma resize_chaddr hwaddr :
  (length hwaddr ≤ CHADDR_LEN)%nat → resize (length hwaddr) (chaddr_field hwaddr) = hwaddr.
Proof.
  intros Hl. unfold resize. rewrite length_chaddr_field.
  rewrite (proj2 (Nat.sub_0_le _ _)), app_nil_r by done. unfold chaddr_field.
  destruct (Nat.ltb_spec 0 (length hwaddr)) as [H|H].
  - rewrite (proj2 (Nat.leb_le _ _)) by done. cbn [andb]. by rewrite take_app_length.
  - destruct hwaddr; [done|cbn in H; lia].
Qed.

(** The header that [pack] writes for a packet. *)
Definition header_of (p : WPkt4) (hw : HWAddr) : Header4 :=
  {| h_op := p4_op_ p; h_htype := htype_ hw; h_hlen := Z.of_nat (length (hwaddr_bytes hw));
     h_hops := p4_hops_ p; h_transid := p4_transid_ p; h_secs := p4_secs_ p;
     h_flags := p4_flags_ p; h_ciaddr := IoAddress.value (p4_ciaddr_ p); h_yiaddr := IoAddress.value (p4_yiaddr_ p);
     h_siaddr := IoAddress.value (p4_siaddr_ p); h_giaddr := IoAddress.value (p4_giaddr_ p);
     h_chaddr := chaddr_field (hwaddr_bytes hw); h_sname := p4_sname_ p; h_file := p4_file_ p |}.

Lemma v4_values p : fields_ok p →
  ∃ c y s g, p4_ciaddr_ p = V4 c ∧ p4_yiaddr_ p = V4 y ∧ p4_siaddr_ p = V4 s ∧ p4_giaddr_ p = V4 g
    ∧ 0 ≤ c < 2 ^ 32 ∧ 0 ≤ y < 2 ^ 32 ∧ 0 ≤ s < 2 ^ 32 ∧ 0 ≤ g < 2 ^ 32.
Proof.
  intros []. repeat match goal with H : Forall _ (_ :: _) |- _ => apply Forall_cons in H as [(? & -> & ?) H] end.
  do 4 eexists. repeat split; try done; lia.
Qed.

Lemma header_of_ok p hw :
  fields_ok p → is_byte (htype_ hw) → (length (hwaddr_bytes hw) ≤ CHADDR_LEN)%nat →
  header_ok (header_of p hw).
Proof.
  intros Hf Ht Hl. destruct (v4_values p Hf) as (c & y & s & g & E1 & E2 & E3 & E4 & ? & ? & ? & ?).
  destruct Hf. split; cbn; rewrite ?E1, ?E2, ?E3, ?E4; try done.
  - unfold is_byte, CHADDR_LEN in *. lia.
  - apply length_chaddr_field.
Qed.

Lemma p4_pack_sendable p hw options :
  fields_ok p → p4_hwaddr_ p = Some hw → (length (hwaddr_bytes hw) ≤ CHADDR_LEN)%nat →
  pack_collection UniverseV4 (p4_options_ p) = Ok options →
  p4_pack p = Ok (header4_bytes (header_of p hw) ++ be_split 4 DHCP_OPTIONS_COOKIE ++ options ++ [DHO_END]).
Proof.
  intros Hf Hw Hl Ho. destruct (v4_values p Hf) as (c & y & s & g & E1 & E2 & E3 & E4 & _).
  unfold p4_pack, header_of. rewrite Hw, Ho, E1, E2, E3, E4. cbn [toUint32 IoAddress.value mbind res_bind rethrow mret res_ret].
  destruct (Nat.ltb_spec (length (hwaddr_bytes hw)) CHADDR_LEN); [done|].
  by replace (length (hwaddr_bytes hw)) with CHADDR_LEN by lia.
Qed.

Lemma with_header_of p p0 hw :
  fields_ok p → p4_hwaddr_ p = Some hw →
  with_p4_hwaddr (Some hw) (with_p4_header (header_of p hw) p0)
  = with_p4_options (p4_options_ p0) (p4_deferred_options_ p0) p.
Proof.
  intros Hf Hw. destruct (v4_values p Hf) as (c & y & s & g & E1 & E2 & E3 & E4 & _).
  unfold with_p4_hwaddr, with_p4_header, with_p4_options, header_of. cbn.
  by rewrite Hw, E1, E2, E3, E4.
Qed.

(** Reading what is behind the fixed fields. *)
Lemma unpack_cookie_packed p l options rest header :
  length header = DHCPV4_PKT_HDR_LEN →
  p4_options_ p = [] → p4_deferred_options_ p = [] →
  unpackOptions4 runtime DHCP4_OPTION_SPACE (options ++ DHO_END :: rest) empty_collection
  = ({| c_options := l; c_deferred := deferred_codes DHCP4_OPTION_SPACE (packed_order l); c_relay_msg := None |},
     Ok (length options)) →
  let data := header ++ be_split 4 DHCP_OPTIONS_COOKIE ++ options ++ DHO_END :: rest in
  unpack_cookie runtime data {| position_ := length header; data_ := data |} p
  = (with_p4_options l (deferred_codes DHCP4_OPTION_SPACE (packed_order l)) p, Ok tt).
Proof.
  intros Hh Ho Hd Hu data. unfold unpack_cookie. cbn [getPosition position_].
  assert (length data = length header + 4 + length (options ++ DHO_END :: rest))%nat as Hl
    by (unfold data; rewrite !length_app, length_be_split; lia).
  assert (0 < length (options ++ DHO_END :: rest))%nat by (rewrite length_app; cbn; lia).
  rewrite (proj2 (Nat.eqb_neq (length data - length header) 0)),
    (proj2 (Nat.ltb_ge (length data - length header) 4)) by lia.
  cbn [throw_if]. rewrite !run_lift.
  unfold data at 1. rewrite (reads_uint32 DHCP_OPTIONS_COOKIE ltac:(unfold DHCP_OPTIONS_COOKIE; lia) header).
  rewrite run_lift, Z.eqb_refl. cbn [negb throw_if getPosition position_]. rewrite run_lift.
  assert (readVector (length data - length (header ++ be_split 4 DHCP_OPTIONS_COOKIE))
    {| position_ := length (header ++ be_split 4 DHCP_OPTIONS_COOKIE);
       data_ := header ++ be_split 4 DHCP_OPTIONS_COOKIE ++ options ++ DHO_END :: rest |}
    = ({| position_ := length data; data_ := data |}, Ok (options ++ DHO_END :: rest))) as ->.
  { pose proof (reads_data (length data - length (header ++ be_split 4 DHCP_OPTIONS_COOKIE))
      (options ++ DHO_END :: rest)) as Hr.
    specialize (Hr ltac:(rewrite (length_app header), length_be_split; lia) (header ++ be_split 4 DHCP_OPTIONS_COOKIE) []).
    rewrite app_nil_r, <- !app_assoc in Hr. exact Hr. }
  cbn [snd]. rewrite run_lift. unfold mbind, ST_bind, on_options, zoom. rewrite Ho, Hd. change {| c_options := []; c_deferred := []; c_relay_msg := None |} with empty_collection.
  rewrite Hu. done.
Qed.

(** C16: A DHCPv4 packet that is packed and unpacked again, into a packet without options, is the
    same packet: every fixed field, the hardware address and its type, and the options with
    their suboptions; bytes behind the end option do not matter.  The packets are those that can
    be sent as they are ([sendable]): fields within their widths; a hardware address of 16 bytes
    at most; options of kinds that are read back, with at most 253 bytes of data, in the order of
    their codes; and at most one relay agent option.  Outside, packets change:
    [long_hwaddr_is_packed_as_zeros], [longest_option_not_packed] and
    [second_enterprise_id_lost]. *)
Theorem p4_pack_unpack (p p0 : WPkt4) (rest : list Z) (Hp : sendable p)
    (Hempty : p4_options_ p0 = [] ∧ p4_deferred_options_ p0 = []) :
  ∃ bytes, p4_pack p = Ok bytes
    ∧ p4_unpack runtime (bytes ++ rest) p0
      = (with_p4_options (p4_options_ p) (deferred_codes DHCP4_OPTION_SPACE (packed_order (p4_options_ p))) p,
         Ok tt).
Proof.
  destruct Hp as [Hf (hw & Hw & Ht & Hl) Hopts Hord Hrai]. destruct Hempty as [He1 He2].
  assert (collection_ok runtime DHCP4_OPTION_SPACE (p4_options_ p)) as Hc.
  { split; [|done..]. eapply Forall_impl; [exact Hopts|]. apply readable_survives. }
  destruct (collection_roundtrip runtime _ _ rest Hc) as (options & Hpack & Hunpack).
  eexists. split; [by apply (p4_pack_sendable p hw options)|].
  pose proof (header_of_ok p hw Hf Ht Hl) as Hh. pose proof (length_header4 _ Hh) as Hlen.
  set (header := header4_bytes (header_of p hw)) in *.
  replace ((header ++ be_split 4 DHCP_OPTIONS_COOKIE ++ options ++ [DHO_END]) ++ rest)
    with (header ++ be_split 4 DHCP_OPTIONS_COOKIE ++ options ++ DHO_END :: rest) by (by rewrite <- !app_assoc).
  unfold p4_unpack. rewrite (proj2 (Nat.ltb_ge _ _)) by (rewrite length_app; lia).
  cbn [throw_if]. rewrite run_lift. unfold mkInputBuffer.
  pose proof (reads_header _ Hh [] (be_split 4 DHCP_OPTIONS_COOKIE ++ options ++ DHO_END :: rest)) as Hr.
  cbn [app length] in Hr. fold header in Hr. rewrite Hr, run_lift, run_modify. unfold mkHWAddr.
  cbn [header_of h_hlen h_chaddr h_htype]. rewrite Nat2Z.id, resize_chaddr by done.
  rewrite (proj2 (Nat.ltb_ge MAX_HWADDR_LEN _)) by (unfold MAX_HWADDR_LEN, CHADDR_LEN in *; lia).
  cbn [throw_if mbind res_bind mret res_ret].
  replace {| hwaddr_bytes := hwaddr_bytes hw; htype_ := htype_ hw |} with hw by (by destruct hw).
  rewrite run_lift, run_modify, with_header_of by done.
  rewrite (unpack_cookie_packed _ (p4_options_ p)) by done. done.
Qed.
End RoundTrip.

(** *** A DHCPDISCOVER *)

Definition discover : WPkt4 :=
  with_p4_options client_options []
    (with_p4_hwaddr (Some {| hwaddr_bytes := [0; 17; 34; 51; 68; 85]; htype_ := 1 |})
       (empty_pkt4 BOOTREQUEST 305419896)).

Lemma discover_sendable : sendable no_runtime discover.
Proof.
  split; [| |apply client_options_readable|repeat constructor; cbn; lia|vm_compute; lia].
  - split; cbn; try (unfold is_byte; lia); try done. repeat constructor; eexists; split; try done; lia.
  - eexists. split; [done|]. split; [unfold is_byte; cbn; lia|vm_compute; lia].
Qed.

Lemma p4_pack_unpack_witness :
  ∃ bytes, p4_pack discover = Ok bytes
    ∧ p4_unpack no_runtime (bytes ++ [0; 0]) (empty_pkt4 1 0)
      = (with_p4_options client_options [43] discover, Ok tt).
Proof.
  exact (p4_pack_unpack no_runtime discover (empty_pkt4 1 0) [0; 0] discover_sendable (conj eq_refl eq_refl)).
Defined.

(** ** A hardware address that does not fit

    [unpack] accepts a length of up to 20 and fills the address with zeros; [pack] writes
    the address of the response, which is the same, as 16 zeros with the length 16
    ([src/lib/dhcp/pkt4.cc:115]): the client does not find its own address in the answer. *)

Definition long_hwaddr_message : list Z :=
  [1; 1; 17; 0; 0; 0; 0; 1] ++ replicate 20 0 ++ replicate 16 7 ++ replicate 192 0 ++ [99; 130; 83; 99; 255].

Theorem long_hwaddr_is_packed_as_zeros :
  ∃ p, p4_unpack no_runtime long_hwaddr_message (empty_pkt4 1 0) = (p, Ok tt)
    ∧ p4_hwaddr_ p = Some {| hwaddr_bytes := replicate 16 7 ++ [0]; htype_ := 1 |}
    ∧ ∃ bytes, p4_pack p = Ok bytes ∧ bytes !! 2%nat = Some 16 ∧ take 16 (drop 28 bytes) = replicate 16 0.
Proof.
  eexists. split; [by vm_compute|]. split; [by vm_compute|]. eexists. split; [by vm_compute|].
  split; by vm_compute.
Qed.
