(* ===== verification/Dhcpv4Srv.v ===== *)
(** * The DHCPv4 server ([src/bin/dhcp4/dhcp4_srv.cc])

    How the server answers a message: the choice of the subnet, the exchange object with the
    context of the allocation engine, the client's name, the lease, the options of the
    response, where it is sent, and the messages that give leases back.  [processPacket] starts
    when the message has been unpacked and ends before the response is packed.

    The engine's part of the state is its [State]; the classes of the query that the engine
    sees are copied into its context whenever they change. *)

From S2P Require Import Prelude IoAddress AddrUtilities Pool Subnet SharedNetwork Lease Host.
From S2P Require Import DnsName Option4ClientFqdn D2ClientMgr Packet OptionSpace CfgOption CfgSubnets.
From S2P Require Import Token Eval ClientClass Classify StatsMgr LeaseMgr AllocEngine4 Dhcpv4Msg.
Local Open Scope Z_scope.

(** [Dhcpv4Exchange], and what [processPacket] gets to know of its context. *)
Record Exchange (M : Type) := {
  eng : State M;
  query_ : Query;
  resp_ : option Rsp;
  cfg_option_list_ : list CfgOption
}.
Arguments eng {M}. Arguments query_ {M}. Arguments resp_ {M}. Arguments cfg_option_list_ {M}.

(** The leases of the context that is given to the callouts of [leases4_committed]. *)
Definition Committed : Type := option Lease4 * option Lease4.

Section Exchange.
Context {M : Type}.

Definition with_eng (s : State M) (x : Exchange M) : Exchange M :=
  {| eng := s; query_ := query_ x; resp_ := resp_ x; cfg_option_list_ := cfg_option_list_ x |}.
Definition with_query (q : Query) (x : Exchange M) : Exchange M :=
  {| eng := eng x; query_ := q; resp_ := resp_ x; cfg_option_list_ := cfg_option_list_ x |}.
Definition with_resp (r : option Rsp) (x : Exchange M) : Exchange M :=
  {| eng := eng x; query_ := query_ x; resp_ := r; cfg_option_list_ := cfg_option_list_ x |}.
Definition with_options (l : list CfgOption) (x : Exchange M) : Exchange M :=
  {| eng := eng x; query_ := query_ x; resp_ := resp_ x; cfg_option_list_ := l |}.

Definition in_engine {A} (m : ST (State M) A) : ST (Exchange M) A := zoom eng with_eng m.
Definition get_query : ST (Exchange M) Query := x ← get; mret (query_ x).
Definition exchange_ctx : ST (Exchange M) ClientContext4 := in_engine get_ctx.

(** The engine looks at the classes of the query. *)
Definition ctx_with_classes (classes : ClientClasses) (c : ClientContext4) : ClientContext4 :=
  {| ctx_subnet_ := ctx_subnet_ c; clientid_ := clientid_ c; ctx_hwaddr_ := ctx_hwaddr_ c;
     requested_address_ := requested_address_ c; fwd_dns_update_ := fwd_dns_update_ c;
     rev_dns_update_ := rev_dns_update_ c; ctx_hostname_ := ctx_hostname_ c;
     callout_handle_ := callout_handle_ c; fake_allocation_ := fake_allocation_ c;
     old_lease_ := old_lease_ c; new_lease_ := new_lease_ c;
     conflicting_lease_ := conflicting_lease_ c; ctx_hosts_ := ctx_hosts_ c;
     host_identifiers_ := host_identifiers_ c; query_classes_ := classes |}.
Definition sync_classes : ST (Exchange M) unit :=
  q ← get_query; in_engine (update_ctx (ctx_with_classes (classes_ (pkt q)))).
(** A change of the query's classes. *)
Definition in_pkt {A} (m : ST Pkt A) : ST (Exchange M) A :=
  r ← zoom (pkt ∘ query_) (λ p x, with_query (with_pkt p (query_ x)) x) m;
  _ ← sync_classes;
  mret r.

(** [resp->...]: a response that is not there is a null pointer. *)
Definition the_resp : ST (Exchange M) Rsp :=
  x ← get; match resp_ x with Some r => mret r | None => throw AssertionFailure end.
Definition update_resp (f : Rsp → res Rsp) : ST (Exchange M) unit :=
  r ← the_resp; r ← lift (f r); modify (with_resp (Some r)).
Definition change_resp (f : Rsp → Rsp) : ST (Exchange M) unit := update_resp (λ r, mret (f r)).
Definition addOption (o : RspOption) : ST (Exchange M) unit := update_resp (rsp_addOption o).
Definition has_option (code : Z) : ST (Exchange M) bool :=
  r ← the_resp; mret (bool_decide (is_Some (rsp_option code r))).
End Exchange.

Section Server.
Context {M : Type} `{LeaseMgr M} `{HostMgr} `{EngineConfig} `{Dhcpv4Config}.
Context `{TextConversions} `{AddressText} `{OptionIndexes}.
Implicit Types (x : Exchange M) (q : Query).

(** ** The choice of the subnet *)

Definition objects (h : Heap) : Objects :=
  {| CfgSubnets.heap := h; subnet_net := cfg_subnet_net; network_net := cfg_network_net;
     get4o6 := ∅ |}.

(** The subnet, and whether a callout drops the packet. *)
Definition srv_selectSubnet (h : Heap) (q : Query) (sanity_only : bool) : res (option Z * bool) :=
  selector ← initSelector4 (pkt q);
  subnet ← selectSubnet4 (objects h) subnets4_ (iface_addresses ifaces) selector;
  match sanity_only, subnet4_select with
  | false, Some callout =>
      let '(status, chosen) := callout q subnet in
      if decide (status = NEXT_STEP_SKIP) then mret (None, false)
      else if decide (status = NEXT_STEP_DROP) then mret (None, true)
      else mret (chosen, false)
  | _, _ => mret (subnet, false)
  end.

(** ** The exchange *)

Definition copyDefaultFields : ST (Exchange M) unit :=
  q ← get_query;
  match getHWAddr q with
  | None => throw BadValue
  | Some hw =>
      change_resp (λ r,
        {| header := {| r_transid_ := r_transid_ (header r); r_hops_ := q_hops_ q;
                        r_flags_ := q_flags_ q; r_ciaddr_ := IPV4_ZERO_ADDRESS;
                        r_yiaddr_ := r_yiaddr_ (header r); r_siaddr_ := IPV4_ZERO_ADDRESS;
                        r_giaddr_ := getGiaddr q; r_hwaddr_ := hw;
                        r_sname_ := r_sname_ (header r); r_file_ := r_file_ (header r) |};
           target := {| r_iface_ := iface_ (pkt q); r_ifindex_ := q_ifindex_ q;
                        r_local_addr_ := r_local_addr_ (target r);
                        r_remote_addr_ := r_remote_addr_ (target r);
                        r_local_port_ := r_local_port_ (target r);
                        r_remote_port_ := r_remote_port_ (target r);
                        r_local_hwaddr_ := match q_local_hwaddr_ q with
                                           | Some h => Some h
                                           | None => r_local_hwaddr_ (target r)
                                           end;
                        r_remote_hwaddr_ := match q_remote_hwaddr_ q with
                                            | Some h => Some h
                                            | None => r_remote_hwaddr_ (target r)
                                            end |};
           r_options_ := r_options_ r |})
  end.

Definition copy_option (code : Z) : ST (Exchange M) unit :=
  q ← get_query;
  match q_option q code with Some o => addOption (Copied o) | None => mret tt end.

Definition copyDefaultOptions : ST (Exchange M) unit :=
  _ ← (if echo_client_id then copy_option DHO_DHCP_CLIENT_IDENTIFIER else mret tt);
  _ ← copy_option DHO_DHCP_AGENT_OPTIONS;
  copy_option DHO_SUBNET_SELECTION.

Definition initResponse : ST (Exchange M) unit :=
  q ← get_query;
  type ← lift (getType q);
  let resp_type := if type =? DHCPDISCOVER then DHCPOFFER
                   else if (type =? DHCPREQUEST) || (type =? DHCPINFORM) then DHCPACK else 0 in
  if 0 <? resp_type then
    _ ← modify (with_resp (Some (mkRsp resp_type (transid_ (pkt q)))));
    _ ← copyDefaultFields;
    copyDefaultOptions
  else mret tt.

(** The identifier of a type, if the query has one. *)
Definition CLIENT_ID_OPTION_TYPE_DUID : Z := 255.
Definition identifier_of (q : Query) (clientid : option (list Z)) (type : IdentifierType) :
    option (IdentifierType * list Z) :=
  match type with
  | IDENT_HWADDR =>
      match getHWAddr q with
      | Some hw => if bool_decide (hwaddr_bytes hw = []) then None else Some (type, hwaddr_bytes hw)
      | None => None
      end
  | IDENT_DUID =>
      match clientid with
      | Some (b :: vec) =>
          if (b =? CLIENT_ID_OPTION_TYPE_DUID) && (5 <? length (b :: vec))%nat
          then Some (type, drop 5 (b :: vec)) else None
      | _ => None
      end
  | IDENT_CIRCUIT_ID =>
      match q_option q DHO_DHCP_AGENT_OPTIONS with
      | Some rai =>
          match suboption rai RAI_OPTION_AGENT_CIRCUIT_ID with
          | Some o => if bool_decide (option_data_ o = []) then None else Some (type, option_data_ o)
          | None => None
          end
      | None => None
      end
  | IDENT_CLIENT_ID =>
      match clientid with
      | Some (b :: vec) => Some (type, b :: vec)
      | _ => None
      end
  | IDENT_FLEX =>
      match host4_identifier with
      | Some callout =>
          let '(status, (type, id)) := callout q in
          if bool_decide (status = NEXT_STEP_CONTINUE) && negb (bool_decide (id = []))
          then Some (type, id) else None
      | None => None
      end
  end.

(** The default context with the members the constructor sets. *)
Definition exchange_context (q : Query) (subnet : option Z) (clientid : option (list Z))
    (identifiers : list (IdentifierType * list Z)) : ClientContext4 :=
  {| ctx_subnet_ := subnet; clientid_ := clientid; ctx_hwaddr_ := getHWAddr q;
     requested_address_ := IPV4_ZERO_ADDRESS; fwd_dns_update_ := false; rev_dns_update_ := false;
     ctx_hostname_ := ""; callout_handle_ := false; fake_allocation_ := false;
     old_lease_ := None; new_lease_ := None; conflicting_lease_ := None; ctx_hosts_ := ∅;
     host_identifiers_ := identifiers; query_classes_ := classes_ (pkt q) |}.

(** [Dhcpv4Exchange::Dhcpv4Exchange(alloc_engine, query, subnet)]. *)
Definition mkExchange (subnet : option Z) : ST (Exchange M) unit :=
  _ ← initResponse;
  q ← get_query;
  _ ← (match subnet with
       | None => in_engine (update_ctx (λ _, exchange_context q None None []))
       | Some p =>
           clientid ← (match q_option q DHO_DHCP_CLIENT_IDENTIFIER with
                       | Some o => id ← lift (mkClientId (option_data_ o)); mret (Some id)
                       | None => mret None
                       end);
           sub ← in_engine (the_subnet p);
           if bool_decide (host_reservation_mode_ sub = HR_DISABLED)
           then in_engine (update_ctx (λ _, exchange_context q (Some p) clientid []))
           else
             _ ← in_engine (update_ctx (λ _, exchange_context q (Some p) clientid
                                (omap (identifier_of q clientid) identifier_types)));
             in_engine findReservation
       end);
  c ← exchange_ctx;
  in_pkt (classify_by_hosts class_dictionary (bool_decide (ctx_hosts_ c = ∅))).

(** The reserved classes, the required classes and the reserved fields. *)
Definition ex_setReservedClientClasses : ST (Exchange M) unit :=
  host ← in_engine currentHost;
  in_pkt (setReservedClientClasses (dhcp4_client_classes_ <$> host)).

Definition ex_requiredClassify : ST (Exchange M) unit :=
  x ← get;
  in_pkt (requiredClassify4 class_dictionary network_required_classes subnet_required_classes
    pool_required_classes (heap (eng x)) (ctx_subnet_ (ctx (eng x)))
    (r_yiaddr_ ∘ header <$> resp_ x)).

(** [if (!sname.empty()) setSname], and the same for the two other fields. *)
Definition set_fields (next_server : IOAddress) (sname file : string) : ST (Exchange M) unit :=
  _ ← (if negb (isV4Zero next_server) then change_resp (setSiaddr next_server) else mret tt);
  _ ← (if negb (bool_decide (sname = "")) then update_resp (setSname sname) else mret tt);
  if negb (bool_decide (file = "")) then update_resp (setFile file) else mret tt.

Definition setReservedMessageFields : ST (Exchange M) unit :=
  host ← in_engine currentHost;
  match host with
  | Some h => set_fields (next_server_ h) (server_host_name_ h) (boot_file_name_ h)
  | None => mret tt
  end.

(** ** Options of the response *)

Definition appendServerID : ST (Exchange M) unit :=
  there ← has_option DHO_DHCP_SERVER_IDENTIFIER;
  if (there : bool) then mret tt
  else
    q ← get_query;
    addr ← (if isV4Bcast (local_addr_ (pkt q)) then lift (getSocket ifaces q)
            else mret (local_addr_ (pkt q)));
    addOption (Address DHO_DHCP_SERVER_IDENTIFIER addr).

Definition push_options (c : CfgOption) : ST (Exchange M) unit :=
  if cfg_option_empty c then mret tt
  else modify (λ x, with_options (cfg_option_list_ x ++ [c]) x).

(** The loop over the classes of the query. *)
Fixpoint push_class_options (classes : ClientClasses) : ST (Exchange M) unit :=
  match classes with
  | [] => mret tt
  | cclass :: classes' =>
      _ ← (match findClass cclass class_dictionary with
           | Some ccdef => push_options (class_cfg_option ccdef)
           | None => mret tt
           end);
      push_class_options classes'
  end.

Definition buildCfgOptionList : ST (Exchange M) unit :=
  c ← exchange_ctx;
  match ctx_subnet_ c with
  | None => mret tt
  | Some p =>
      host ← in_engine currentHost;
      _ ← (match host with Some h => push_options (host_cfg_option h) | None => mret tt end);
      x ← get;
      let addr := default IPV4_ZERO_ADDRESS (r_yiaddr_ ∘ header <$> resp_ x) in
      sub ← in_engine (the_subnet p);
      _ ← (if negb (isV4Zero addr) then
             pool ← lift (getPool sub TYPE_V4 addr false);
             match pool with Some pl => push_options (pool_cfg_option pl) | None => mret tt end
           else mret tt);
      _ ← push_options (subnet_cfg_option_ (subnet4_cfg p));
      _ ← (match shared_network_ sub with
           | Some n => push_options (network_cfg_option n)
           | None => mret tt
           end);
      q ← get_query;
      _ ← push_class_options (classes_ (pkt q));
      push_options global_cfg_option
  end.

(** The first list entry that has the option; [get] is the lookup in the space. *)
Fixpoint first_desc (lookup : CfgOption → option OptionDescriptor) (l : list CfgOption) :
    option OptionDescriptor :=
  match l with
  | [] => None
  | c :: l' => match lookup c with Some d => Some d | None => first_desc lookup l' end
  end.

(** The codes of the persistent options, as 8-bit integers. *)
Definition persistent_codes (all : CfgOption → list OptionDescriptor) (l : list CfgOption) : list Z :=
  l ≫= λ c, (λ d, u8 (desc_code d)) <$> index_persistent (all c).

(** An option of the configuration is added unless the response has one of its code. *)
Definition append_configured (l : list CfgOption) (code : Z) : ST (Exchange M) unit :=
  there ← has_option code;
  if (there : bool) then mret tt
  else match first_desc (cfg_get DHCP4_OPTION_SPACE code) l with
       | Some d => addOption (Copied (option_ d))
       | None => mret tt
       end.
Fixpoint append_all (l : list CfgOption) (codes : list Z) : ST (Exchange M) unit :=
  match codes with
  | [] => mret tt
  | code :: codes' => _ ← append_configured l code; append_all l codes'
  end.

Definition appendRequestedOptions : ST (Exchange M) unit :=
  c ← exchange_ctx;
  x ← get;
  let co_list := cfg_option_list_ x in
  if bool_decide (ctx_subnet_ c = None) || bool_decide (co_list = []) then mret tt
  else
    let requested := default [] (uint8_array (q_option (query_ x) DHO_DHCP_PARAMETER_REQUEST_LIST)) in
    append_all co_list (requested ++ persistent_codes (getAll DHCP4_OPTION_SPACE) co_list).

(** The loop over the codes for the vendor option: its suboptions so far, and whether one
    was added. *)
Fixpoint append_vendor (l : list CfgOption) (vendor_id : Z) (subs : list Option) (added : bool)
    (codes : list Z) : ST (Exchange M) unit :=
  match codes with
  | [] => mret tt
  | code :: codes' =>
      let found := if bool_decide (is_Some (find_option code subs)) then None
                   else first_desc (cfg_get_vendor vendor_id code) l in
      let '(subs, added) := match found with
                            | Some d => (subs ++ [option_ d], true)
                            | None => (subs, added)
                            end in
      _ ← (if (added : bool) then addOption (Vendor vendor_id subs) else mret tt);
      append_vendor l vendor_id subs added codes'
  end.

Definition appendRequestedVendorOptions : ST (Exchange M) unit :=
  c ← exchange_ctx;
  x ← get;
  let co_list := cfg_option_list_ x in
  if bool_decide (ctx_subnet_ c = None) || bool_decide (co_list = []) then mret tt
  else
    match q_option (query_ x) DHO_VIVSO_SUBOPTIONS with
    | Some o =>
        match option_class_ o with
        | OptionVendor vendor_id =>
            let requested := default [] (uint8_array (suboption o DOCSIS3_V4_ORO)) in
            append_vendor co_list vendor_id [] false
              (requested ++ persistent_codes (getAll_vendor vendor_id) co_list)
        | _ => mret tt
        end
    | None => mret tt
    end.

Definition required_options : list Z :=
  [DHO_ROUTERS; DHO_DOMAIN_NAME_SERVERS; DHO_DOMAIN_NAME; DHO_DHCP_SERVER_IDENTIFIER].
Definition appendBasicOptions : ST (Exchange M) unit :=
  c ← exchange_ctx;
  x ← get;
  if bool_decide (ctx_subnet_ c = None) || bool_decide (cfg_option_list_ x = []) then mret tt
  else append_all (cfg_option_list_ x) required_options.

(** ** The name of the client *)

Definition host_name (host : option Host) : option string :=
  match host with
  | Some h => if bool_decide (host_hostname_ h = "") then None else Some (host_hostname_ h)
  | None => None
  end.

Definition qualify (name : string) (trailing_dot : bool) : string :=
  qualifyName (qualifying_suffix d2_client_config) name trailing_dot.

(** With the option of the query. *)
Definition processClientFqdnOption (fqdn : Fqdn) : ST (Exchange M) unit :=
  fqdn_resp ← lift (adjustFqdnFlags d2_client_config fqdn fqdn);
  e ← lift (getFlag FLAG_E fqdn);
  fqdn_resp ← lift (setFlag FLAG_E e fqdn_resp);
  host ← in_engine currentHost;
  fqdn_resp ← lift (match host_name host with
                    | Some name => setDomainName (qualify name true) FULL fqdn_resp
                    | None => adjustDomainName d2_client_config fqdn fqdn_resp
                    end);
  addOption (ClientFqdn fqdn_resp).

(** The hostname option for a name the client sent. *)
Definition hostname_response (value : string) : res (option RspOption) :=
  let hostname := trim value in
  label_count ← text_getLabelCount (bytes_of_string hostname);
  if (label_count =? 0)%nat then mret None
  else
    let mode := replace_client_name_mode_ d2_client_config in
    if bool_decide (mode = RCM_ALWAYS) || bool_decide (mode = RCM_WHEN_PRESENT)
       || (label_count <? 2)%nat
    then Some <$> mkHostname "."
    else
      hostname ← match hostname_sanitizer_ d2_client_config with
                 | Some scrub => scrub hostname
                 | None => mret hostname
                 end;
      Some <$> mkHostname (if (label_count =? 2)%nat then qualify hostname false else hostname).

Definition processHostnameOption : ST (Exchange M) unit :=
  q ← get_query;
  let opt_hostname := option_string (q_option q DHO_HOST_NAME) in
  host ← in_engine currentHost;
  let should_send_hostname :=
    bool_decide (is_Some opt_hostname)
    || match uint8_array (q_option q DHO_DHCP_PARAMETER_REQUEST_LIST) with
       | Some requested_opts => bool_decide (DHO_HOST_NAME ∈ requested_opts)
       | None => false
       end in
  match host_name host, should_send_hostname with
  | Some name, true => o ← lift (mkHostname (qualify name false)); addOption o
  | _, _ =>
      match opt_hostname with
      | None =>
          let mode := replace_client_name_mode_ d2_client_config in
          if bool_decide (mode = RCM_ALWAYS) || bool_decide (mode = RCM_WHEN_NOT_PRESENT)
          then o ← lift (mkHostname "."); addOption o
          else mret tt
      | Some value =>
          o ← lift (hostname_response value);
          match o with Some o => addOption o | None => mret tt end
      end
  end.

Definition processClientName : ST (Exchange M) unit :=
  try_catch
    (q ← get_query;
     match client_fqdn (q_option q DHO_FQDN) with
     | Some fqdn => processClientFqdnOption fqdn
     | None => processHostnameOption
     end)
    (mret tt).

Definition createNameChangeRequests (l : Lease4) (old_lease : option Lease4) :
    ST (State M) unit :=
  if match old_lease with Some old => negb (hasIdenticalFqdn l old) | None => true end then
    _ ← (match old_lease with Some old => queueNCR CHG_REMOVE old | None => mret tt end);
    queueNCR CHG_ADD l
  else mret tt.

(** ** The lease *)

Definition nak : ST (Exchange M) unit :=
  change_resp (λ r, setYiaddr IPV4_ZERO_ADDRESS (setType DHCPNAK r)).

(** A lease of the list in a subnet of the network, as the loops over the subnets find it. *)
Definition lease_in_network (subnet : option Z) (leases : list Lease4) :
    ST (State M) (option Lease4) :=
  if bool_decide (leases = []) then mret None
  else walk subnet (λ p, sub ← the_subnet p;
                         mret (find (λ l, subnet_id_ l =? id_ sub) leases)).

(** The lease of a client that is rebooting. *)
Definition init_reboot_lease : ST (State M) (option Lease4) :=
  c ← get_ctx;
  by_id ← (match clientid_ c with
           | Some cid => leases ← query_db (lm_getLease4_cid cid);
                         lease_in_network (ctx_subnet_ c) leases
           | None => mret None
           end);
  match by_id, ctx_hwaddr_ c with
  | None, Some hw => leases ← query_db (lm_getLease4_hwaddr hw);
                     lease_in_network (ctx_subnet_ c) leases
  | _, _ => mret by_id
  end.

(** Whether the server goes on with the message of a client in the INIT-REBOOT state: a client
    without a lease gets no answer, one with another address is refused. *)
Definition init_reboot (hint : IOAddress) : ST (Exchange M) bool :=
  l ← in_engine init_reboot_lease;
  c ← exchange_ctx;
  match l with
  | Some l =>
      if negb (belongsToClient l (ctx_hwaddr_ c) (clientid_ c))
      then _ ← modify (with_resp None); mret false
      else if negb (equals (addr_ l) hint) then _ ← nak; mret false
      else mret true
  | None => _ ← modify (with_resp None); mret false
  end.

Definition ctx_with_request (hint : IOAddress) (fwd rev : bool) (hostname : string) (fake : bool)
    (c : ClientContext4) : ClientContext4 :=
  {| ctx_subnet_ := ctx_subnet_ c; clientid_ := clientid_ c; ctx_hwaddr_ := ctx_hwaddr_ c;
     requested_address_ := hint; fwd_dns_update_ := fwd; rev_dns_update_ := rev;
     ctx_hostname_ := hostname; callout_handle_ := true; fake_allocation_ := fake;
     old_lease_ := old_lease_ c; new_lease_ := new_lease_ c;
     conflicting_lease_ := conflicting_lease_ c; ctx_hosts_ := ctx_hosts_ c;
     host_identifiers_ := host_identifiers_ c; query_classes_ := query_classes_ c |}.

(** The options of the response with the client's name. *)
Definition name_options (r : Rsp) : option Fqdn * option string :=
  match rsp_option DHO_FQDN r with
  | Some (ClientFqdn f) => (Some f, None)
  | _ => (None, match rsp_option DHO_HOST_NAME r with Some (Hostname n) => Some n | _ => None end)
  end.

(** The name for the lease and the directions of the updates. *)
Definition lease_name (fqdn : option Fqdn) (opt_hostname : option string) :
    res (string * bool * bool) :=
  match fqdn, opt_hostname with
  | Some f, _ =>
      hostname ← getDomainName f;
      '(fwd, rev) ← getUpdateDirections f;
      mret (hostname, fwd, rev)
  | None, Some n => mret (if bool_decide (n = ".") then "" else n, true, true)
  | None, None => mret ("", false, false)
  end.

(** The name of the lease is the reserved one, or made from the address. *)
Definition new_name (host : option Host) (fqdn : bool) (l : Lease4) : option string :=
  match host_name host with
  | Some name => Some (qualify name fqdn)
  | None => if bool_decide (hostname_ l = "")
            then Some (generateFqdn d2_client_config (addr_ l) fqdn) else None
  end.

Definition with_name (l : Lease4) (name : string) : Lease4 :=
  with_dns l (fqdn_fwd_ l) (fqdn_rev_ l) name.

(** The lease object after the update of the names. *)
Definition update_names (fake : bool) (fqdn : option Fqdn) (opt_hostname : option string)
    (l : Lease4) : ST (Exchange M) Lease4 :=
  if negb (bool_decide (is_Some fqdn)) && negb (bool_decide (is_Some opt_hostname)) then mret l
  else
    host ← in_engine currentHost;
    match new_name host (bool_decide (is_Some fqdn)) l with
    | None => mret l
    | Some name =>
        let l := with_name l name in
        _ ← in_engine (update_ctx (λ c, match new_lease_ c with
                                        | Some _ => ctx_with_new (Some l) c
                                        | None => c
                                        end));
        _ ← try_catch
          (_ ← (if negb fake then in_engine (in_db (lm_updateLease4 l)) else mret tt);
           match fqdn with
           | Some f => f ← lift (setDomainName name FULL f); change_resp (rsp_replace (ClientFqdn f))
           | None => o ← lift (mkHostname name); change_resp (rsp_replace o)
           end)
          (mret tt);
        mret l
    end.

(** The lifetime, the netmask and the timers that are less than what comes after them. *)
Definition append_timers (p : Z) (sub : Subnet) (l : Lease4) : ST (Exchange M) unit :=
  _ ← addOption (Uint32 DHO_DHCP_LEASE_TIME (valid_lft_ l));
  mask ← lift (getNetmask4 (subnet_len_ sub));
  netmask ← lift (toUint32 mask);
  _ ← addOption (Uint32 DHO_SUBNET_MASK netmask);
  let send_t2 := t2_specified (subnet4_cfg p) && (net_t2_ sub <? valid_lft_ l) in
  _ ← (if send_t2 then addOption (Uint32 DHO_DHCP_REBINDING_TIME (net_t2_ sub)) else mret tt);
  let timer_ceiling := if send_t2 then net_t2_ sub else valid_lft_ l in
  if t1_specified (subnet4_cfg p) && (net_t1_ sub <? timer_ceiling)
  then addOption (Uint32 DHO_DHCP_RENEWAL_TIME (net_t1_ sub)) else mret tt.

(** The subnet after the allocation: [ctx->subnet_->getID()] follows the pointer. *)
Definition subnet_after (p : Z) : ST (State M) Z :=
  sub ← the_subnet p;
  c ← get_ctx;
  match ctx_subnet_ c with
  | None => throw AssertionFailure
  | Some p' => sub' ← the_subnet p'; mret (if id_ sub =? id_ sub' then p else p')
  end.

Definition grant (fake : bool) (fqdn : option Fqdn) (opt_hostname : option string) (p : Z)
    (l : Lease4) : ST (Exchange M) unit :=
  q ← get_query;
  _ ← change_resp (setYiaddr (addr_ l));
  _ ← (if negb fake then change_resp (setCiaddr (getCiaddr q)) else mret tt);
  l ← update_names fake fqdn opt_hostname l;
  sub ← in_engine (the_subnet p);
  _ ← append_timers p sub l;
  if negb fake && ddnsEnabled then
    c ← exchange_ctx;
    try_catch (in_engine (createNameChangeRequests l (old_lease_ c))) (mret tt)
  else mret tt.

Definition refuse : ST (Exchange M) unit :=
  _ ← nak;
  change_resp (λ r, rsp_delOption DHO_HOST_NAME (rsp_delOption DHO_FQDN r)).

Definition assignLease : ST (Exchange M) unit :=
  q ← get_query;
  c ← exchange_ctx;
  match ctx_subnet_ c with
  | None => nak
  | Some p =>
      let opt_serverid := custom_buffers (q_option q DHO_DHCP_SERVER_IDENTIFIER) in
      let opt_requested_address := custom_buffers (q_option q DHO_DHCP_REQUESTED_ADDRESS) in
      hint ← lift (match opt_requested_address with
                   | Some buffers => readAddress buffers 0
                   | None => mret (getCiaddr q)
                   end);
      type ← lift (getType q);
      let fake := type =? DHCPDISCOVER in
      go_on ← (if negb fake && negb (bool_decide (is_Some opt_serverid))
                  && bool_decide (is_Some opt_requested_address)
               then init_reboot hint else mret true);
      if negb go_on then mret tt
      else
        r ← the_resp;
        let '(fqdn, opt_hostname) := name_options r in
        '(hostname, fwd, rev) ← lift (lease_name fqdn opt_hostname);
        _ ← in_engine (update_ctx (ctx_with_request hint fwd rev hostname fake));
        l ← in_engine allocateLease4;
        p ← in_engine (subnet_after p);
        match l with
        | Some l => grant fake fqdn opt_hostname p l
        | None => refuse
        end
  end.

(** ** Where the response goes *)

Definition adjustRemoteAddr (q : Query) (type : Z) (r : Rsp) : Rsp :=
  if type =? DHCPINFORM then
    if negb (isV4Zero (getCiaddr q)) then setRemoteAddr (getCiaddr q) r
    else if isRelayed q then
      setFlags (Z.lor (r_flags_ (header r)) BOOTP_BROADCAST) (setRemoteAddr (getGiaddr q) r)
    else setRemoteAddr (remote_addr_ (pkt q)) r
  else if isRelayed q then setRemoteAddr (getGiaddr q) r
  else if negb (isV4Zero (getCiaddr q)) then setRemoteAddr (getCiaddr q) r
  else if rsp_type r =? DHCPNAK then setRemoteAddr IPV4_BCAST_ADDRESS r
  else if negb (isV4Zero (r_yiaddr_ (header r))) then
    let bcast_flag := negb (Z.land (q_flags_ q) FLAG_BROADCAST_MASK =? 0) in
    if negb direct_response_supported || bcast_flag then setRemoteAddr IPV4_BCAST_ADDRESS r
    else setRemoteAddr (r_yiaddr_ (header r)) r
  else setRemoteAddr (remote_addr_ (pkt q)) r.

Definition checkRelayPort (q : Query) : Z :=
  match q_option q DHO_DHCP_AGENT_OPTIONS with
  | Some rai => if bool_decide (is_Some (suboption rai RAI_OPTION_RELAY_PORT))
                then q_remote_port_ q else 0
  | None => 0
  end.

Definition remote_port (q : Query) (type : Z) : Z :=
  if ((type =? DHCPINFORM) &&
      (negb (isV4Zero (getCiaddr q))
       || (negb (isRelayed q) && negb (isV4Zero (remote_addr_ (pkt q))))))
     || (negb (type =? DHCPINFORM) && negb (isRelayed q))
  then DHCP4_CLIENT_PORT
  else if negb (checkRelayPort q =? 0) then checkRelayPort q else DHCP4_SERVER_PORT.

Definition adjustIfaceData : ST (Exchange M) unit :=
  q ← get_query;
  type ← lift (getType q);
  _ ← change_resp (adjustRemoteAddr q type);
  _ ← change_resp (setRemotePort (remote_port q type));
  _ ← (if isRelayed q && socket_udp && use_routing then
         change_resp (setLocal IPV4_ZERO_ADDRESS None (iface_ (pkt q)))
       else
         local_addr ← (if isV4Bcast (local_addr_ (pkt q)) then lift (getSocket ifaces q)
                       else mret (local_addr_ (pkt q)));
         change_resp (setLocal local_addr (q_ifindex_ q) (iface_ (pkt q))));
  change_resp (setLocalPort DHCP4_SERVER_PORT).

(** ** The fixed fields *)

Fixpoint set_class_fields (classes : ClientClasses) : ST (Exchange M) unit :=
  match classes with
  | [] => mret tt
  | name :: classes' =>
      _ ← (match findClass name class_dictionary with
           | Some cl => set_fields (class_next_server_ cl) (sname_ cl) (filename_ cl)
           | None => mret tt
           end);
      set_class_fields classes'
  end.

Definition setFixedFields : ST (Exchange M) unit :=
  c ← exchange_ctx;
  _ ← (match ctx_subnet_ c with
       | Some p => let s := subnet4_cfg p in
                   set_fields (cfg_siaddr_ s) (cfg_sname_ s) (cfg_filename_ s)
       | None => mret tt
       end);
  q ← get_query;
  _ ← set_class_fields (classes_ (pkt q));
  setReservedMessageFields.

(** ** The messages *)

Inductive RequirementLevel := FORBIDDEN | MANDATORY | OPTIONAL.

Definition sanityCheck (q : Query) (serverid : RequirementLevel) : res unit :=
  let server_id := bool_decide (is_Some (q_option q DHO_DHCP_SERVER_IDENTIFIER)) in
  _ ← throw_if (match serverid with
                | FORBIDDEN => server_id | MANDATORY => negb server_id | OPTIONAL => false
                end) RFCViolation;
  if match getHWAddr q with
     | Some hw => negb (bool_decide (hwaddr_bytes hw = []))
     | None => false
     end
  then mret tt
  else
    throw_if (match q_option q DHO_DHCP_CLIENT_IDENTIFIER with
              | Some client_id => bool_decide (option_data_ client_id = [])
              | None => true
              end) RFCViolation.

(** The exchange for the selected subnet; the result is whether the packet is dropped. *)
Definition begin_exchange : ST (Exchange M) bool :=
  x ← get;
  '(subnet, drop) ← lift (srv_selectSubnet (heap (eng x)) (query_ x) false);
  _ ← mkExchange subnet;
  mret drop.

Definition add_options : ST (Exchange M) unit :=
  _ ← ex_setReservedClientClasses;
  _ ← ex_requiredClassify;
  _ ← buildCfgOptionList;
  _ ← appendRequestedOptions;
  _ ← appendRequestedVendorOptions;
  appendBasicOptions.

Definition ex_response : ST (Exchange M) (option Rsp) := x ← get; mret (resp_ x).

Definition processDiscover : ST (Exchange M) (option Rsp) :=
  q ← get_query;
  _ ← lift (sanityCheck q FORBIDDEN);
  drop ← begin_exchange;
  if (drop : bool) then mret None
  else
    _ ← processClientName;
    _ ← assignLease;
    r ← ex_response;
    match r with
    | None => mret None
    | Some r =>
        if isV4Zero (r_yiaddr_ (header r)) then mret None
        else
          _ ← add_options;
          _ ← setFixedFields;
          _ ← adjustIfaceData;
          _ ← appendServerID;
          ex_response
    end.

(** The response and the context for the callouts. *)
Definition processRequest : ST (Exchange M) (option Rsp * option Committed) :=
  drop ← begin_exchange;
  if (drop : bool) then mret (None, None)
  else
    _ ← processClientName;
    _ ← assignLease;
    r ← ex_response;
    match r with
    | None => mret (None, None)
    | Some r =>
        _ ← (if isV4Zero (r_yiaddr_ (header r)) then mret tt
             else _ ← add_options; setFixedFields);
        _ ← adjustIfaceData;
        _ ← appendServerID;
        r ← ex_response;
        c ← exchange_ctx;
        mret (r, Some (old_lease_ c, new_lease_ c))
    end.

(** The client identifier of a message that is not an exchange. *)
Definition query_client_id (q : Query) : res (option (list Z)) :=
  match q_option q DHO_DHCP_CLIENT_IDENTIFIER with
  | Some o => id ← mkClientId (option_data_ o); mret (Some id)
  | None => mret None
  end.

(** The release of a lease the client has; the context is set before the statistic, so it
    stays when that throws. *)
Definition release_lease4 (q : Query) (l : Lease4) : ST (State M) (option Committed) :=
  let '(status, l) := match lease4_release with
                      | Some callout => callout q l
                      | None => (NEXT_STEP_CONTINUE, l)
                      end in
  if bool_decide (status = NEXT_STEP_SKIP) || bool_decide (status = NEXT_STEP_DROP) then mret None
  else
    success ← in_db (lm_deleteLease (addr_ l));
    if (success : bool) then
      _ ← try_catch
        (_ ← stat_add (subnet_stat (subnet_id_ l) "assigned-addresses") (-1);
         queueNCR CHG_REMOVE l)
        (mret tt);
      mret (Some (Some l, None))
    else mret None.

Definition processRelease (q : Query) : ST (State M) (option Committed) :=
  client_id ← lift (query_client_id q);
  try_catch
    (l ← query_db (lm_getLease4 (getCiaddr q));
     match l with
     | None => mret None
     | Some l => if negb (belongsToClient l (getHWAddr q) client_id) then mret None
                 else release_lease4 q l
     end)
    (mret None).

Definition declineLease (q : Query) (l : Lease4) : ST (State M) (option Committed) :=
  let '(status, l) := match lease4_decline with
                      | Some callout => callout q l
                      | None => (NEXT_STEP_CONTINUE, l)
                      end in
  if bool_decide (status = NEXT_STEP_SKIP) || bool_decide (status = NEXT_STEP_DROP) then mret None
  else
    _ ← queueNCR CHG_REMOVE l;
    _ ← stat_add (subnet_stat (subnet_id_ l) "declined-addresses") 1;
    _ ← stat_add "declined-addresses" 1;
    let l := decline now decline_period l in
    _ ← in_db (lm_updateLease4 l);
    mret (Some (None, Some l)).

Definition processDecline (q : Query) : ST (State M) (option Committed) :=
  match custom_buffers (q_option q DHO_DHCP_REQUESTED_ADDRESS) with
  | None => throw RFCViolation
  | Some buffers =>
      addr ← lift (readAddress buffers 0);
      l ← query_db (lm_getLease4 addr);
      match l with
      | None => mret None
      | Some l =>
          client_id ← lift (query_client_id q);
          if negb (belongsToClient l (getHWAddr q) client_id) then mret None
          else declineLease q l
      end
  end.

Definition processInform : ST (Exchange M) (option Rsp) :=
  q ← get_query;
  _ ← lift (sanityCheck q FORBIDDEN);
  drop ← begin_exchange;
  if (drop : bool) then mret None
  else
    _ ← add_options;
    _ ← adjustIfaceData;
    _ ← setFixedFields;
    _ ← change_resp (λ r,
      if negb (equals (r_remote_addr_ (target r)) (getGiaddr q))
      then rsp_delOption DHO_DHCP_AGENT_OPTIONS (setGiaddr IPV4_ZERO_ADDRESS (setHops 0 r))
      else r);
    _ ← appendServerID;
    ex_response.

(** ** Which messages are accepted *)

Definition acceptMessageType (q : Query) : bool :=
  match getType q with
  | Ok type => bool_decide (type ∈ [DHCPDISCOVER; DHCPREQUEST; DHCPRELEASE; DHCPDECLINE; DHCPINFORM])
  | Throw _ => false
  end.

Definition acceptDirectRequest (h : Heap) (q : Query) : res bool :=
  if isRelayed q then mret true
  else
    match getType q with
    | Throw _ => mret false
    | Ok type =>
        if (type =? DHCPINFORM) && isV4Zero (remote_addr_ (pkt q)) && isV4Zero (getCiaddr q)
        then mret false
        else
          '(result, drop) ← (if negb (isV4Bcast (local_addr_ (pkt q))) then mret (true, false)
                             else '(subnet, drop) ← srv_selectSubnet h q true;
                                  mret (bool_decide (is_Some subnet), drop));
          mret (if (drop : bool) then false else result)
    end.

(** The server identifiers of the configuration on the levels that are looked at. *)
Definition global_server_id : res (option IOAddress) :=
  match cfg_get DHCP4_OPTION_SPACE DHO_DHCP_SERVER_IDENTIFIER global_cfg_option with
  | Some d => match custom_buffers (Some (option_ d)) with
              | Some buffers => a ← readAddress buffers 0; mret (Some a)
              | None => mret None
              end
  | None => mret None
  end.

Definition acceptServerId (q : Query) : res bool :=
  match q_option q DHO_DHCP_SERVER_IDENTIFIER with
  | None => mret true
  | Some option =>
      match custom_buffers (Some option) with
      | None => mret false
      | Some buffers =>
          if negb (length buffers =? 1)%nat then mret false
          else
            server_id ← readAddress buffers 0;
            if negb (isV4 server_id) then mret false
            else if hasOpenSocket ifaces server_id then mret true
            else if existsb (λ p, bool_decide (subnet_server_id (subnet4_cfg p) = Some server_id))
                      subnets4_ then mret true
            else if bool_decide (server_id ∈ network_server_ids) then mret true
            else
              opt_server_id ← global_server_id;
              mret match opt_server_id with Some a => equals a server_id | None => false end
      end
  end.

Definition accept (h : Heap) (q : Query) : res bool :=
  if negb (acceptMessageType q) then mret false
  else
    direct ← acceptDirectRequest h q;
    if negb direct then mret false else acceptServerId q.

(** ** Processing a packet *)

Definition received_stat (type : res Z) : string :=
  match type with
  | Ok t =>
      if t =? DHCPDISCOVER then "pkt4-discover-received"
      else if t =? DHCPOFFER then "pkt4-offer-received"
      else if t =? DHCPREQUEST then "pkt4-request-received"
      else if t =? DHCPACK then "pkt4-ack-received"
      else if t =? DHCPNAK then "pkt4-nak-received"
      else if t =? DHCPRELEASE then "pkt4-release-received"
      else if t =? DHCPDECLINE then "pkt4-decline-received"
      else if t =? DHCPINFORM then "pkt4-inform-received"
      else "pkt4-unknown-received"
  | Throw _ => "pkt4-unknown-received"
  end.
Definition processStatsReceived (q : Query) : ST (State M) unit :=
  stat_add (received_stat (getType q)) 1.

(** The switch over the types of messages. *)
Definition dispatch (type : Z) : ST (Exchange M) (option Rsp * option Committed) :=
  q ← get_query;
  if type =? DHCPDISCOVER then rsp ← processDiscover; mret (rsp, None)
  else if type =? DHCPREQUEST then processRequest
  else if type =? DHCPRELEASE then ctx ← in_engine (processRelease q); mret (None, ctx)
  else if type =? DHCPDECLINE then ctx ← in_engine (processDecline q); mret (None, ctx)
  else if type =? DHCPINFORM then rsp ← processInform; mret (rsp, None)
  else mret (None, None).

(** What is done with a message: nothing is sent, a response is sent, or it is parked until a
    hook library lets it go. *)
Inductive Answer := NoAnswer | Send (rsp : Rsp) | Park (rsp : Rsp).

(** The leases that are handed to the callouts. *)
Definition committed_leases (ctx : Committed) : list Lease4 * list Lease4 :=
  let '(old_lease, new_lease) := ctx in
  (option_list new_lease,
   match old_lease with
   | Some old =>
       match new_lease with
       | Some l => if equals (addr_ l) (addr_ old) then [] else [old]
       | None => [old]
       end
   | None => []
   end).

Definition answer (q : Query) (rsp : option Rsp) (ctx : option Committed) (allow_park : bool) :
    Answer :=
  let status := match ctx, leases4_committed with
                | Some c, Some callout =>
                    let '(new_leases, deleted_leases) := committed_leases c in
                    callout q new_leases deleted_leases
                | _, _ => NEXT_STEP_CONTINUE
                end in
  match rsp with
  | None => NoAnswer
  | Some r =>
      if decide (status = NEXT_STEP_DROP) then NoAnswer
      else if bool_decide (status = NEXT_STEP_PARK) && allow_park then Park r
      else Send r
  end.

(** [processPacket] from where the packet has been unpacked. *)
Definition processPacket (allow_park : bool) : ST (Exchange M) Answer :=
  q ← get_query;
  _ ← in_engine (processStatsReceived q);
  _ ← in_pkt (classifyPacket4 class_dictionary);
  x ← get;
  accepted ← lift (accept (heap (eng x)) (query_ x));
  if negb accepted then _ ← in_engine (stat_add "pkt4-receive-drop" 1); mret NoAnswer
  else
    let '(status, q) := match pkt4_receive with
                        | Some callout => callout (query_ x)
                        | None => (NEXT_STEP_CONTINUE, query_ x)
                        end in
    if bool_decide (status = NEXT_STEP_SKIP) || bool_decide (status = NEXT_STEP_DROP)
    then mret NoAnswer
    else
      _ ← modify (with_query q);
      '(rsp, ctx) ← try_catch
        (type ← lift (getType q); dispatch type)
        (_ ← in_engine (stat_add "pkt4-receive-drop" 1); mret (None, None));
      q ← get_query;
      mret (answer q rsp ctx allow_park).

(** The server handles a message: the result is its state and the answer. *)
Definition handle_packet (q : Query) (allow_park : bool) : ST (State M) Answer := λ s,
  let x := {| eng := s; query_ := q; resp_ := None; cfg_option_list_ := [] |} in
  match processPacket allow_park x with (x', r) => (eng x', r) end.
End Server.
