(* ===== verification/Dhcpv4Return.v ===== *)
(** * Leases that are given back to the DHCPv4 server

    The effect of a DHCPRELEASE and of a DHCPDECLINE on the leases, the statistics and the
    requests for DNS updates, without callouts. *)

From S2P Require Import Prelude IoAddress Pool Subnet SharedNetwork StatsMgr Lease LeaseMgr Host.
From S2P Require Import Packet OptionSpace CfgOption CfgSubnets ClientClass AllocEngine4 AllocEngine4Safety Reclamation.
From S2P Require Import Dhcpv4Msg Dhcpv4Srv.
Local Open Scope Z_scope.
#[local] Set Default Proof Using "All".

Section Return.
Context {M : Type} `{LeaseMgrLaws M} `{EngineConfig} `{Dhcpv4Config}.
Implicit Types (s : State M) (q : Query).

(** The client has the lease of the address, as its message identifies it. *)
Definition holds_lease q s (a : IOAddress) (l : Lease4) : Prop :=
  lm_leases (db s) !! a = Some l ∧
  ∃ id, query_client_id q = Ok id ∧ belongsToClient l (getHWAddr q) id = true.

Definition no_result (r : res (option Committed)) : Prop := ∀ c, r ≠ Ok (Some c).

(** Nothing has happened. *)
Definition ignored s s' (r : res (option Committed)) : Prop :=
  no_result r ∧ lm_leases (db s') = lm_leases (db s) ∧ counted s s' [] [].

Definition released q s (l : Lease4) s' (r : res (option Committed)) : Prop :=
  r = Ok (Some (Some l, None)) ∧
  lm_leases (db s') = delete (getCiaddr q) (lm_leases (db s)) ∧
  counted s s' [(assigned (subnet_id_ l), -1)] (removal_request l).

Lemma ignored_refl s r : stats_ok s → no_result r → ignored s s r.
Proof. intros Hs Hr. split_and!; [done|done|by apply counted_refl]. Qed.

Lemma counted_with_db s s' d l n : counted s s' l n → counted s (with_db d s') l n.
Proof. by intros [? ? ? ? ? ?]; split. Qed.
Lemma counted_from_db s s' d l n : counted (with_db d s) s' l n → counted s s' l n.
Proof. by intros [? ? ? ? ? ?]; split. Qed.

Lemma release_lease4_run q s l :
  lease4_release = None → stats_ok s → lm_leases (db s) !! getCiaddr q = Some l →
  wp (release_lease4 q l) s (λ c s', released q s l s' (Ok c))
     (λ e s', catchable e = true ∧ ignored s s' (Throw e)).
Proof.
  intros Hno Hs Hl. pose proof (lm_leases_addr _ _ _ Hl) as Ha. unfold release_lease4. rewrite Hno. cbn.
  rewrite Ha. apply wp_bind, wp_zoom. eapply wp_mono; [apply lm_deleteLease_spec| |].
  2: { intros e d [He Hd]. split; [done|]. split_and!; [done|exact Hd|].
       by apply counted_with_db, counted_refl. }
  intros b d [-> Hd]. rewrite bool_decide_eq_true_2 by (by eexists).
  set (s1 := with_db d s). assert (stats_ok s1) as Hs1 by exact Hs.
  destruct (counting_bind (stat_add (assigned (subnet_id_ l)) (-1)) (λ _, queueNCR CHG_REMOVE l) s1 tt tt _ _ _ _
    (counting_stat_add _ _ _ Hs1) (λ s', counting_queueNCR l s')) as (s2 & E2 & C2 & D2).
  unfold wp, mbind at 1, ST_bind at 1, try_catch.
  change (subnet_stat (subnet_id_ l) "assigned-addresses") with (assigned (subnet_id_ l)).
  rewrite E2. cbn. split_and!; [done|rewrite D2; exact Hd|]. by apply (counted_from_db s s2 d).
Qed.

(** C14: a DHCPRELEASE that has an effect removes the lease of the address the client gives,
    which is one of the client, and nothing else: it counts one address less as assigned in
    the subnet of the lease and asks for the removal of its DNS entries. *)
Theorem processRelease_spec q s s' (r : res (option Committed))
    (Hno : lease4_release = None) (Hs : stats_ok s) (E : processRelease q s = (s', r)) :
  (∃ l, holds_lease q s (getCiaddr q) l ∧ released q s l s' r) ∨ ignored s s' r.
Proof.
  assert (wp (processRelease q) s
    (λ c s', (∃ l, holds_lease q s (getCiaddr q) l ∧ released q s l s' (Ok c)) ∨ ignored s s' (Ok c))
    (λ e s', ignored s s' (Throw e))) as Hwp.
  { apply wp_bind, wp_lift. destruct (query_client_id q) as [id|e] eqn:Ei; [|by apply ignored_refl].
    apply wp_try_catch, wp_bind, wp_bind, wp_get, wp_ret. rewrite lm_getLease4_eq.
    destruct (lm_leases (db s) !! getCiaddr q) as [l|] eqn:El; [|apply wp_ret; right; by apply ignored_refl].
    destruct (negb (belongsToClient l (getHWAddr q) id)) eqn:Eb; [apply wp_ret; right; by apply ignored_refl|].
    apply negb_false_iff in Eb. eapply wp_mono; [by apply release_lease4_run| |].
    - intros c s1 Hr. left. exists l. split; [|done]. split; [done|]. by exists id.
    - intros e s1 [-> (_ & Hi)]. apply wp_ret. right. by split. }
  unfold wp in Hwp. rewrite E in Hwp. destruct r as [c|e]; [exact Hwp|by right].
Qed.

(** the statistic of the assigned addresses keeps up with the leases in use when a lease
    is released, unless the lease was reclaimed before: then it is one too small. *)
Theorem release_balance q s s' (r : res (option Committed)) (l : Lease4) (id : Z)
    (Hno : lease4_release = None) (Hs : stats_ok s) (E : processRelease q s = (s', r))
    (Hr : r = Ok (Some (Some l, None))) :
  stat_int (stats s') (assigned id) - in_use id (lm_leases (db s')) =
  stat_int (stats s) (assigned id) - in_use id (lm_leases (db s))
  - (if bool_decide (subnet_id_ l = id) && stateExpiredReclaimed l then 1 else 0).
Proof.
  assert (lm_leases (db s) !! getCiaddr q = Some l ∧ released q s l s' r) as [Hl (_ & Hd & Hc)].
  { subst r.
    assert (wp (processRelease q) s
      (λ c s', c = Some (Some l, None) → lm_leases (db s) !! getCiaddr q = Some l ∧ released q s l s' (Ok c))
      (λ _ _, True)) as Hwp.
    { apply wp_bind, wp_lift. destruct (query_client_id q); [|done].
      apply wp_try_catch, wp_bind, wp_bind, wp_get, wp_ret. rewrite lm_getLease4_eq.
      destruct (lm_leases (db s) !! getCiaddr q) as [l'|] eqn:El; [|by apply wp_ret].
      destruct (negb _); [by apply wp_ret|]. eapply wp_mono; [by apply release_lease4_run| |].
      - intros c s1 Hr ->. pose proof Hr as ([= <-] & _). done.
      - intros e s1 [-> _]. by apply wp_ret. }
    unfold wp in Hwp. rewrite E in Hwp. by apply Hwp. }
  rewrite Hd, (in_use_delete id _ _ l Hl), (counted_stats _ _ _ _ Hc). unfold counts_for. cbn.
  destruct (decide (subnet_id_ l = id)) as [<-|Hne].
  - rewrite decide_True by done. rewrite bool_decide_eq_true_2 by done.
    destruct (stateExpiredReclaimed l); cbn.
    + rewrite decide_False by (by intros [_ ?]). lia.
    + rewrite decide_True by done. lia.
  - rewrite decide_False by (by intros ?%assigned_inj). rewrite bool_decide_eq_false_2 by done.
    rewrite decide_False by (by intros [? _]). cbn. lia.
Qed.

(** The statistics of a declined lease. *)
Definition declined_counts (l : Lease4) : list (string * Z) :=
  [(subnet_stat (subnet_id_ l) "declined-addresses", 1); ("declined-addresses"%string, 1)].

Definition declined_address q : res IOAddress :=
  match custom_buffers (q_option q DHO_DHCP_REQUESTED_ADDRESS) with
  | None => Throw RFCViolation
  | Some buffers => readAddress buffers 0
  end.

Lemma declineLease_run q s l a :
  lease4_decline = None → stats_ok s → lm_leases (db s) !! a = Some l →
  wp (declineLease q l) s
    (λ c s', c = Some (None, Some (decline now decline_period l)) ∧
       lm_leases (db s') = <[a := decline now decline_period l]> (lm_leases (db s)) ∧
       counted s s' (declined_counts l) (removal_request l))
    (λ e s', catchable e = true ∧ lm_leases (db s') = lm_leases (db s) ∧
       counted s s' (declined_counts l) (removal_request l)).
Proof.
  intros Hno Hs Hl. pose proof (lm_leases_addr _ _ _ Hl) as Ha. unfold declineLease. rewrite Hno. cbn.
  destruct (counting_queueNCR l s Hs) as (s1 & E1 & C1 & D1).
  destruct (counting_stat_add (subnet_stat (subnet_id_ l) "declined-addresses") 1 s1 (counted_ok _ _ _ _ C1))
    as (s2 & E2 & C2 & D2).
  destruct (counting_stat_add "declined-addresses" 1 s2 (counted_ok _ _ _ _ C2)) as (s3 & E3 & C3 & D3).
  pose proof (counted_trans _ _ _ _ _ _ _ (counted_trans _ _ _ _ _ _ _ C1 C2) C3) as C. cbn in C.
  rewrite !app_nil_r in C.
  apply wp_bind. unfold wp at 1. rewrite E1. apply wp_bind. unfold wp at 1. rewrite E2.
  apply wp_bind. unfold wp at 1. rewrite E3. apply wp_bind, wp_zoom. rewrite D3, D2, D1.
  eapply wp_mono; [apply lm_updateLease4_spec| |].
  - intros _ d [_ Hd]. apply wp_ret. split_and!; [done| |by apply counted_with_db].
    cbn. rewrite Hd. cbn. by rewrite Ha.
  - intros e d [He Hd]. split_and!; [done|exact Hd|by apply counted_with_db].
Qed.

(** C15: a DHCPDECLINE that has an effect replaces the lease of the address the client gives,
    which is one of the client, by a declined lease without a client for the decline period,
    and counts the address as declined; the counters and the DNS requests also change
    when the database then refuses the update. *)
Theorem processDecline_spec q s s' (r : res (option Committed))
    (Hno : lease4_decline = None) (Hs : stats_ok s) (E : processDecline q s = (s', r)) :
  (∃ a l, declined_address q = Ok a ∧ holds_lease q s a l ∧
     counted s s' (declined_counts l) (removal_request l) ∧
     ((r = Ok (Some (None, Some (decline now decline_period l))) ∧
       lm_leases (db s') = <[a := decline now decline_period l]> (lm_leases (db s))) ∨
      (no_result r ∧ lm_leases (db s') = lm_leases (db s)))) ∨
  ignored s s' r.
Proof.
  set (Q := λ s' r, (∃ a l, declined_address q = Ok a ∧ holds_lease q s a l ∧
     counted s s' (declined_counts l) (removal_request l) ∧
     ((r = Ok (Some (None, Some (decline now decline_period l))) ∧
       lm_leases (db s') = <[a := decline now decline_period l]> (lm_leases (db s))) ∨
      (no_result r ∧ lm_leases (db s') = lm_leases (db s)))) ∨ ignored s s' r).
  assert (wp (processDecline q) s (λ c s', Q s' (Ok c)) (λ e s', Q s' (Throw e))) as Hwp.
  { assert (∀ r, no_result r → Q s r) as Hno' by (intros r' Hr'; right; by apply ignored_refl).
    assert (∀ e, Q s (Throw e)) as Hthrow by (intros e; by apply Hno').
    assert (Q s (Ok None)) as Hnone by (by apply Hno').
    unfold processDecline. destruct (custom_buffers _) as [buffers|] eqn:Eb; [|by apply wp_throw].
    apply wp_bind, wp_lift. destruct (readAddress buffers 0) as [a|e] eqn:Ea; [|done].
    apply wp_bind, wp_bind, wp_get, wp_ret. rewrite lm_getLease4_eq.
    destruct (lm_leases (db s) !! a) as [l|] eqn:El; [|by apply wp_ret].
    apply wp_bind, wp_lift. destruct (query_client_id q) as [id|e] eqn:Ei; [|done].
    destruct (negb (belongsToClient l (getHWAddr q) id)) eqn:Ebl; [by apply wp_ret|].
    apply negb_false_iff in Ebl.
    assert (declined_address q = Ok a) as Hda by (unfold declined_address; by rewrite Eb).
    assert (holds_lease q s a l) as Hh by (split; [done|by exists id]).
    eapply wp_mono; [by apply declineLease_run| |].
    - intros c s1 (-> & Hd & Hc). left. exists a, l. split_and!; [done..|]. by left.
    - intros e s1 (_ & Hd & Hc). left. exists a, l. split_and!; [done..|]. by right. }
  unfold wp in Hwp. rewrite E in Hwp. by destruct r.
Qed.
End Return.
