(* ===== verification/Dhcpv4Steps.v ===== *)
(** * What the steps of the DHCPv4 server leave as it is

    Most functions of the server only fill in the response.  [erase] is what they leave alone:
    the leases, the subnets, the statistics, the requests for DNS updates, the context of the
    engine, the message, all but the client classes, and the type and the address of the
    response.  Two exchanges are [dressed] alike if they agree on that. *)

From S2P Require Import Prelude IoAddress AddrUtilities Pool Subnet SharedNetwork Lease Host.
From S2P Require Import DnsName Option4ClientFqdn D2ClientMgr Packet OptionSpace CfgOption CfgSubnets.
From S2P Require Import Token Eval ClientClass Classify StatsMgr LeaseMgr EngineHeap AllocEngine4.
From S2P Require Import Dhcpv4Msg Dhcpv4Srv.
Local Open Scope Z_scope.
#[export] Hint Constants Opaque : preserves.

(** ** Classes *)

#[export] Instance extends_preorder : PreOrder extends.
Proof. split; [exact extends_refl|exact extends_trans]. Qed.

Section Classes.
Context `{TextConversions} (dict : ClientClassDictionary).

Lemma preserves_add name : preserves extends (modify (addClass name false)).
Proof. apply preserves_modify. intros p. apply extends_addClass. Qed.
#[local] Hint Resolve preserves_add : preserves.

Lemma preserves_match_class name expr : preserves extends (match_class name expr).
Proof.
  unfold match_class. preserve.
Qed.
#[local] Hint Resolve preserves_match_class : preserves.

Lemma preserves_evaluateClasses known : preserves extends (evaluateClasses dict known).
Proof.
  unfold evaluateClasses. induction (getDictClasses dict) as [|c l IH]; cbn; preserve.
Qed.
#[local] Hint Resolve preserves_evaluateClasses : preserves.

Lemma preserves_classifyPacket4 : preserves extends (classifyPacket4 dict).
Proof. unfold classifyPacket4, classifyByVendor4. preserve. Qed.
Lemma preserves_classify_by_hosts b : preserves extends (classify_by_hosts dict b).
Proof. unfold classify_by_hosts. preserve. Qed.
Lemma preserves_setReservedClientClasses l : preserves extends (setReservedClientClasses l).
Proof. destruct l as [l|]; cbn; [induction l as [|c l IH]; cbn|]; preserve. Qed.
Lemma preserves_requiredClassify4 nr sr pr h p a :
  preserves extends (requiredClassify4 dict nr sr pr h p a).
Proof.
  unfold requiredClassify4. preserve. match goal with |- preserves _ (required_loop _ ?l) =>
    induction l as [|c l IH]; cbn end; preserve.
Qed.
End Classes.

(** ** Reading the engine's state *)

Section Reads.
Context {M : Type} `{LeaseMgr M} `{HostMgr} `{EngineConfig}.

Lemma observes_get_ctx : observes (get_ctx : ST (State M) _).
Proof. unfold get_ctx. preserve. Qed.
Lemma observes_query_db {A} (f : M → A) : observes (query_db f).
Proof. unfold query_db. preserve. Qed.
Lemma observes_the_subnet p : observes (the_subnet p : ST (State M) _).
Proof. unfold the_subnet. preserve. Qed.
#[local] Hint Resolve observes_get_ctx observes_query_db observes_the_subnet : preserves.
Lemma observes_currentHost : observes (currentHost : ST (State M) _).
Proof. unfold currentHost. preserve. Qed.
Lemma observes_next_subnet p f classes : observes (next_subnet p f classes : ST (State M) _).
Proof. unfold next_subnet. preserve. Qed.
#[local] Hint Resolve observes_currentHost observes_next_subnet : preserves.
Lemma observes_walk_loop {A} n f classes (body : Z → ST (State M) (option A)) : ∀ p,
  (∀ p, observes (body p)) → observes (walk_loop n f classes body p).
Proof.
  induction n as [|n IH]; intros [p|] Hb; cbn [walk_loop];
    [apply (preserves_throw _)|apply (preserves_ret _)| |apply (preserves_ret _)].
  apply (preserves_bind _); [apply Hb|]. intros [a|]; [preserve|].
  apply (preserves_bind _); [apply observes_next_subnet|]. intros p'. by apply IH.
Qed.
Lemma observes_walk {A} first (body : Z → ST (State M) (option A)) :
  (∀ p, observes (body p)) → observes (walk first body).
Proof.
  intros Hb. unfold walk. apply (preserves_bind _); [preserve|]. intros s.
  destruct first; [by apply observes_walk_loop|preserve].
Qed.
Lemma observes_lease_in_network subnet l : observes (lease_in_network subnet l : ST (State M) _).
Proof. unfold lease_in_network. destruct (bool_decide _); [preserve|]. apply observes_walk. preserve. Qed.
#[local] Hint Resolve observes_lease_in_network : preserves.
Lemma observes_init_reboot_lease : observes (init_reboot_lease : ST (State M) _).
Proof. unfold init_reboot_lease. preserve. Qed.
Lemma observes_subnet_after p : observes (subnet_after p : ST (State M) _).
Proof. unfold subnet_after. preserve. Qed.
End Reads.
#[export] Hint Resolve observes_get_ctx observes_query_db observes_the_subnet observes_currentHost
  observes_init_reboot_lease observes_subnet_after : preserves.

(** ** Responses *)

Section Responses.
Implicit Types (r : Rsp).

Definition answer_of r : Z * IOAddress := (rsp_type r, r_yiaddr_ (header r)).

(** The option of a list with a code. *)
Fixpoint option_of (code : Z) (l : list RspOption) : option RspOption :=
  match l with
  | [] => None
  | o :: l' => if rsp_code o =? code then Some o else option_of code l'
  end.

Lemma rsp_option_eq code r : rsp_option code r = option_of code (r_options_ r).
Proof.
  destruct r as [h t l]. unfold rsp_option. cbn. induction l as [|o l IH]; cbn; [done|].
  rewrite <- IH. destruct (Z.eqb_spec (rsp_code o) code) as [E|E].
  - by rewrite decide_True.
  - rewrite decide_False by done. by destruct (list_find _ l) as [[i x]|].
Qed.

Lemma option_of_code code l o : option_of code l = Some o → rsp_code o = code.
Proof. induction l as [|x l IH]; cbn; [done|]. destruct (Z.eqb_spec (rsp_code x) code); naive_solver. Qed.
Lemma option_of_None code l : option_of code l = None ↔ code ∉ (rsp_code <$> l).
Proof.
  induction l as [|x l IH]; cbn; [split; [intros _; apply not_elem_of_nil|done]|].
  rewrite not_elem_of_cons. destruct (Z.eqb_spec (rsp_code x) code); naive_solver.
Qed.
Lemma option_of_app code l l' :
  option_of code (l ++ l') = match option_of code l with Some o => Some o | None => option_of code l' end.
Proof. induction l as [|x l IH]; cbn; [done|]. by destruct (_ =? _). Qed.
Lemma option_of_del code c l : code ≠ c → option_of code (del_first c l) = option_of code l.
Proof.
  intros Hc. induction l as [|x l IH]; cbn; [done|].
  destruct (Z.eqb_spec (rsp_code x) c) as [E|E]; cbn.
  - by destruct (Z.eqb_spec (rsp_code x) code); [congruence|].
  - by rewrite IH.
Qed.
Lemma option_of_replace code o l : code ≠ rsp_code o → option_of code (replace_first o l) = option_of code l.
Proof.
  intros Hc. induction l as [|x l IH]; cbn; [done|].
  destruct (Z.eqb_spec (rsp_code x) (rsp_code o)) as [E|E]; cbn.
  - rewrite E. by destruct (Z.eqb_spec (rsp_code o) code); [congruence|].
  - by rewrite IH.
Qed.

Definition plain (o : RspOption) : Prop := match o with MessageType _ => False | _ => True end.

Lemma answer_addOption o r r' : plain o → rsp_addOption o r = Ok r' → answer_of r' = answer_of r.
Proof.
  unfold rsp_addOption. intros Ho. destruct (rsp_option (rsp_code o) r); [done|]. intros [= <-].
  unfold answer_of, rsp_type. rewrite !rsp_option_eq. cbn. rewrite option_of_app.
  destruct (option_of DHO_DHCP_MESSAGE_TYPE (r_options_ r)) as [x|]; [done|]. cbn.
  destruct (_ =? _); [|done]. by destruct o.
Qed.
Lemma answer_replace o r : rsp_code o ≠ DHO_DHCP_MESSAGE_TYPE → answer_of (rsp_replace o r) = answer_of r.
Proof. intros Ho. unfold answer_of, rsp_type. rewrite !rsp_option_eq. cbn. by rewrite option_of_replace. Qed.
Lemma answer_delete c r : c ≠ DHO_DHCP_MESSAGE_TYPE → answer_of (rsp_delOption c r) = answer_of r.
Proof. intros Hc. unfold answer_of, rsp_type. rewrite !rsp_option_eq. cbn. by rewrite option_of_del. Qed.
Lemma answer_on_target f r : answer_of (on_target f r) = answer_of r.
Proof. done. Qed.
Lemma answer_on_header f r : r_yiaddr_ (f (header r)) = r_yiaddr_ (header r) →
  answer_of (on_header f r) = answer_of r.
Proof. unfold answer_of. cbn. by intros ->. Qed.
Lemma answer_setSname s r r' : setSname s r = Ok r' → answer_of r' = answer_of r.
Proof. unfold setSname, throw_if. destruct (_ <? _); [done|]. by intros [= <-]. Qed.
Lemma answer_setFile s r r' : setFile s r = Ok r' → answer_of r' = answer_of r.
Proof. unfold setFile, throw_if. destruct (_ <? _); [done|]. by intros [= <-]. Qed.
Lemma answer_adjustRemoteAddr `{Dhcpv4Config} q t r : answer_of (adjustRemoteAddr q t r) = answer_of r.
Proof. unfold adjustRemoteAddr. by repeat case_match. Qed.
End Responses.

(** ** Exchanges *)

Section Dressing.
Context {M : Type} `{LeaseMgr M} `{HostMgr} `{EngineConfig} `{Dhcpv4Config}.
Context `{TextConversions} `{AddressText} `{OptionIndexes}.
Implicit Types (x : Exchange M).

Definition clear_query (q : Query) : Query := with_pkt (with_classes [] [] (pkt q)) q.
Definition erase x : State M * Query * option (Z * IOAddress) :=
  (with_ctx (ctx_with_classes [] (ctx (eng x))) (eng x), clear_query (query_ x), answer_of <$> resp_ x).
Definition dressed x x' : Prop := erase x' = erase x.

#[export] Instance dressed_preorder : PreOrder dressed.
Proof. split; [done|]. intros x y z. unfold dressed. by intros -> ->. Qed.

Lemma dressed_in_engine {A} (m : ST (State M) A) : observes m → preserves dressed (in_engine m).
Proof.
  intros Hm. eapply preserves_zoom; [exact Hm|]. intros x s <-. by destruct x.
Qed.
Lemma dressed_get_query : preserves dressed (get_query : ST (Exchange M) _).
Proof. unfold get_query. preserve. Qed.
Lemma dressed_exchange_ctx : preserves dressed (exchange_ctx : ST (Exchange M) _).
Proof. apply dressed_in_engine. preserve. Qed.
#[local] Hint Resolve dressed_get_query dressed_exchange_ctx : preserves.

Lemma dressed_sync_classes : preserves dressed (sync_classes : ST (Exchange M) _).
Proof.
  unfold sync_classes. preserve. eapply preserves_zoom with (R' := λ s s',
    with_ctx (ctx_with_classes [] (ctx s')) s' = with_ctx (ctx_with_classes [] (ctx s)) s).
  - by apply preserves_modify.
  - intros x s E. unfold dressed, erase. cbn. by rewrite E.
Qed.
#[local] Hint Resolve dressed_sync_classes : preserves.

Lemma dressed_in_pkt {A} (m : ST Pkt A) : preserves extends m → preserves dressed (in_pkt m).
Proof.
  intros Hm. unfold in_pkt. apply (preserves_bind _); [|preserve].
  eapply preserves_zoom; [exact Hm|]. intros x p (cl & -> & _). done.
Qed.

Lemma dressed_the_resp : preserves dressed (the_resp : ST (Exchange M) _).
Proof. unfold the_resp. preserve. Qed.
#[local] Hint Resolve dressed_the_resp : preserves.

Lemma dressed_update_resp f :
  (∀ r r', f r = Ok r' → answer_of r' = answer_of r) → preserves dressed (update_resp f : ST (Exchange M) _).
Proof.
  intros Hf x. unfold update_resp, the_resp, get, mbind, ST_bind, mret, ST_ret, throw. cbn.
  destruct (resp_ x) as [r|] eqn:E; cbn; [|done]. destruct (f r) as [r'|e] eqn:Er; [|done].
  unfold dressed, erase. cbn. rewrite E. cbn. by rewrite (Hf r r').
Qed.
Lemma dressed_change_resp f : (∀ r, answer_of (f r) = answer_of r) →
  preserves dressed (change_resp f : ST (Exchange M) _).
Proof. intros Hf. apply dressed_update_resp. intros r r' [= <-]. apply Hf. Qed.
Lemma dressed_addOption o : plain o → preserves dressed (addOption o : ST (Exchange M) _).
Proof. intros Ho. apply dressed_update_resp. intros r r'. by apply answer_addOption. Qed.
Lemma dressed_setSname n : preserves dressed (update_resp (setSname n) : ST (Exchange M) _).
Proof. apply dressed_update_resp. intros r r'. apply answer_setSname. Qed.
Lemma dressed_setFile n : preserves dressed (update_resp (setFile n) : ST (Exchange M) _).
Proof. apply dressed_update_resp. intros r r'. apply answer_setFile. Qed.
Lemma dressed_has_option code : preserves dressed (has_option code : ST (Exchange M) _).
Proof. unfold has_option. preserve. Qed.
Lemma dressed_modify_options f : preserves dressed (modify (λ x, with_options (f x) x) : ST (Exchange M) _).
Proof. by apply preserves_modify. Qed.
#[local] Hint Resolve dressed_setSname dressed_setFile dressed_change_resp dressed_addOption dressed_has_option
  dressed_modify_options dressed_in_engine dressed_in_pkt preserves_classify_by_hosts
  preserves_setReservedClientClasses preserves_requiredClassify4 answer_adjustRemoteAddr : preserves.
#[local] Hint Extern 1 (plain _) => exact I : preserves.
#[local] Hint Extern 1 (answer_of _ = answer_of _) => reflexivity : preserves.

(** *** Filling in the response *)

Lemma dressed_set_fields a s f : preserves dressed (set_fields a s f : ST (Exchange M) _).
Proof. unfold set_fields. preserve. Qed.
#[local] Hint Resolve dressed_set_fields : preserves.
Lemma dressed_reserved_fields : preserves dressed (setReservedMessageFields : ST (Exchange M) _).
Proof. unfold setReservedMessageFields. preserve. Qed.
#[local] Hint Resolve dressed_reserved_fields : preserves.
Lemma dressed_set_class_fields l : preserves dressed (set_class_fields l : ST (Exchange M) _).
Proof. induction l as [|c l IH]; cbn [set_class_fields]; preserve. Qed.
#[local] Hint Resolve dressed_set_class_fields : preserves.
Lemma dressed_setFixedFields : preserves dressed (setFixedFields : ST (Exchange M) _).
Proof. unfold setFixedFields. preserve. Qed.

Lemma dressed_appendServerID : preserves dressed (appendServerID : ST (Exchange M) _).
Proof. unfold appendServerID. preserve. Qed.

Lemma dressed_adjustIfaceData : preserves dressed (adjustIfaceData : ST (Exchange M) _).
Proof. unfold adjustIfaceData. preserve. Qed.

Lemma dressed_push_options c : preserves dressed (push_options c : ST (Exchange M) _).
Proof. unfold push_options. preserve. Qed.
#[local] Hint Resolve dressed_push_options : preserves.
Lemma dressed_push_class_options l : preserves dressed (push_class_options l : ST (Exchange M) _).
Proof. induction l as [|c l IH]; cbn [push_class_options]; preserve. Qed.
#[local] Hint Resolve dressed_push_class_options : preserves.
Lemma dressed_buildCfgOptionList : preserves dressed (buildCfgOptionList : ST (Exchange M) _).
Proof. unfold buildCfgOptionList. preserve. Qed.

Lemma dressed_append_configured l c : preserves dressed (append_configured l c : ST (Exchange M) _).
Proof. unfold append_configured. preserve. Qed.
#[local] Hint Resolve dressed_append_configured : preserves.
Lemma dressed_append_all l cs : preserves dressed (append_all l cs : ST (Exchange M) _).
Proof. induction cs as [|c cs IH]; cbn [append_all]; preserve. Qed.
#[local] Hint Resolve dressed_append_all : preserves.
Lemma dressed_append_vendor l v cs : ∀ subs added,
  preserves dressed (append_vendor l v subs added cs : ST (Exchange M) _).
Proof.
  induction cs as [|c cs IH]; intros subs added; cbn [append_vendor]; [preserve|].
  destruct (if bool_decide _ then _ else _) as [d|]; preserve.
Qed.
#[local] Hint Resolve dressed_append_vendor dressed_buildCfgOptionList : preserves.

Lemma dressed_add_options : preserves dressed (add_options : ST (Exchange M) _).
Proof.
  unfold add_options, ex_setReservedClientClasses, ex_requiredClassify, appendRequestedOptions,
    appendRequestedVendorOptions, appendBasicOptions. preserve.
Qed.

Lemma preserves_lift_bind {S A B} (R : relation S) `{!PreOrder R} (r : res A) (f : A → ST S B) :
  (∀ a, r = Ok a → preserves R (f a)) → preserves R (lift r ≫= f).
Proof. intros Hf s. destruct r as [a|e]; [by apply Hf|]. reflexivity. Qed.

Lemma mkHostname_plain v o : mkHostname v = Ok o → ∃ n, o = Hostname n.
Proof. unfold mkHostname, throw_if. destruct (bool_decide _); [done|]. intros [= <-]. by eexists. Qed.
Lemma hostname_response_plain v o : hostname_response v = Ok (Some o) → plain o.
Proof.
  assert (∀ w, Some <$> mkHostname w = Ok (Some o) → plain o) as Hm.
  { intros w. destruct (mkHostname w) eqn:Ew; [|done]. intros [= <-].
    by apply mkHostname_plain in Ew as [n ->]. }
  unfold hostname_response. intros E. res_inv. destruct (_ =? 0)%nat; [done|].
  destruct (_ || _); [by eapply Hm|]. res_inv. by eapply Hm.
Qed.
Lemma dressed_addHostname v : preserves dressed (o ← lift (mkHostname v); addOption o : ST (Exchange M) _).
Proof.
  apply (preserves_lift_bind _). intros o [n ->]%mkHostname_plain. preserve.
Qed.
#[local] Hint Resolve dressed_addHostname : preserves.

Lemma dressed_processHostnameOption : preserves dressed (processHostnameOption : ST (Exchange M) _).
Proof.
  assert (∀ v, preserves dressed (o ← lift (hostname_response v);
    match o with Some o => addOption o | None => mret tt end : ST (Exchange M) _)) as Hv.
  { intros v. apply (preserves_lift_bind _). intros [o|] E; [|preserve].
    apply dressed_addOption. by eapply hostname_response_plain. }
  unfold processHostnameOption. apply (preserves_bind _); [preserve|]. intros q. cbv zeta.
  apply (preserves_bind _); [preserve|]. intros host.
  destruct (host_name host);
    [match goal with |- preserves _ (if ?b then _ else _) => destruct b end; [preserve|]|];
    (destruct (option_string _); [apply Hv|]); preserve.
Qed.
#[local] Hint Resolve dressed_processHostnameOption : preserves.
Lemma dressed_processClientName : preserves dressed (processClientName : ST (Exchange M) _).
Proof. unfold processClientName, processClientFqdnOption. preserve. Qed.
End Dressing.
