(* ===== verification/Dhcpv4Options.v ===== *)
(** * The options in the responses of the DHCPv4 server

    A response has an option once at most, and an option that is asked for, or that is always
    sent, is the one of the most specific part of the configuration that has it. *)

From S2P Require Import Prelude IoAddress Pool Subnet SharedNetwork Lease LeaseMgr Host.
From S2P Require Import DnsName Option4ClientFqdn D2ClientMgr Packet OptionSpace CfgOption CfgSubnets.
From S2P Require Import Token Eval ClientClass Classify StatsMgr AllocEngine4.
From S2P Require Import Dhcpv4Msg Dhcpv4Srv Dhcpv4Steps.
Local Open Scope Z_scope.

(** ** Codes *)

Definition codes (r : Rsp) : list Z := rsp_code <$> r_options_ r.
Definition distinct (r : Rsp) : Prop := NoDup (codes r).

Lemma distinct_addOption o r r' : rsp_addOption o r = Ok r' → distinct r → distinct r'.
Proof.
  unfold rsp_addOption. rewrite rsp_option_eq. destruct (option_of _ _) eqn:E; [done|].
  apply option_of_None in E. intros [= <-] Hr. unfold distinct, codes. cbn. rewrite fmap_app.
  apply NoDup_app. split_and!; [done| |apply NoDup_singleton].
  intros c Hc ->%list_elem_of_singleton. done.
Qed.
Lemma del_first_sublist c l : sublist (rsp_code <$> del_first c l) (rsp_code <$> l).
Proof. induction l as [|o l IH]; cbn; [done|]. destruct (_ =? _); cbn; by constructor. Qed.
Lemma distinct_delOption c r : distinct r → distinct (rsp_delOption c r).
Proof.
  intros Hr. unfold distinct, codes. cbn. eapply sublist_NoDup; [exact Hr|].
  apply del_first_sublist.
Qed.
Lemma replace_first_codes o l : rsp_code <$> replace_first o l = rsp_code <$> l.
Proof.
  induction l as [|x l IH]; cbn; [done|]. destruct (Z.eqb_spec (rsp_code x) (rsp_code o)) as [E|E]; cbn.
  - by rewrite E.
  - by rewrite IH.
Qed.
Lemma distinct_replace o r : distinct r → distinct (rsp_replace o r).
Proof. unfold distinct, codes. cbn. by rewrite replace_first_codes. Qed.
Lemma distinct_setSname n r r' : setSname n r = Ok r' → distinct r → distinct r'.
Proof. unfold setSname, throw_if. destruct (_ <? _); [done|]. by intros [= <-]. Qed.
Lemma distinct_setFile n r r' : setFile n r = Ok r' → distinct r → distinct r'.
Proof. unfold setFile, throw_if. destruct (_ <? _); [done|]. by intros [= <-]. Qed.
Lemma distinct_adjustRemoteAddr `{Dhcpv4Config} q t r : distinct r → distinct (adjustRemoteAddr q t r).
Proof. unfold adjustRemoteAddr. by repeat case_match. Qed.

Section Distinct.
Context {M : Type} `{LeaseMgr M} `{HostMgr} `{EngineConfig} `{Dhcpv4Config}.
Context `{TextConversions} `{AddressText} `{OptionIndexes}.
Implicit Types (x : Exchange M).

Definition all_distinct x : Prop := ∀ r, resp_ x = Some r → distinct r.
Definition keeps_distinct x x' : Prop := all_distinct x → all_distinct x'.

#[export] Instance keeps_distinct_preorder : PreOrder keeps_distinct.
Proof. split; [by intros x Hx|]. intros x y z Hxy Hyz Hx. auto. Qed.

Lemma distinct_in_engine {A} (m : ST (State M) A) : preserves keeps_distinct (in_engine m).
Proof. eapply preserves_zoom with (R' := λ _ _, True); [done|]. by intros x s _ Hx. Qed.
#[local] Hint Resolve distinct_in_engine : preserves.
Lemma distinct_get_query : preserves keeps_distinct (get_query : ST (Exchange M) _).
Proof. unfold get_query. preserve. Qed.
Lemma distinct_exchange_ctx : preserves keeps_distinct (exchange_ctx : ST (Exchange M) _).
Proof. unfold exchange_ctx. preserve. Qed.
#[local] Hint Resolve distinct_get_query distinct_exchange_ctx : preserves.
Lemma distinct_in_pkt {A} (m : ST Pkt A) : preserves keeps_distinct (in_pkt m : ST (Exchange M) A).
Proof.
  unfold in_pkt, sync_classes. apply (preserves_bind _); [|preserve].
  eapply preserves_zoom with (R' := λ _ _, True); [done|]. by intros x s _ Hx.
Qed.
Lemma distinct_the_resp : preserves keeps_distinct (the_resp : ST (Exchange M) _).
Proof. unfold the_resp. preserve. Qed.
#[local] Hint Resolve distinct_in_pkt distinct_the_resp : preserves.

Lemma distinct_update_resp f : (∀ r r', f r = Ok r' → distinct r → distinct r') →
  preserves keeps_distinct (update_resp f : ST (Exchange M) _).
Proof.
  intros Hf x. unfold update_resp, the_resp, get, mbind, ST_bind, mret, ST_ret, throw. cbn.
  destruct (resp_ x) as [r|] eqn:E; cbn; [|by intros Hx]. destruct (f r) as [r'|e] eqn:Er; [|by intros Hx].
  intros Hx r2 [= <-]. eauto.
Qed.
Lemma distinct_change_resp f : (∀ r, distinct r → distinct (f r)) →
  preserves keeps_distinct (change_resp f : ST (Exchange M) _).
Proof. intros Hf. apply distinct_update_resp. intros r r' [= <-]. apply Hf. Qed.
Lemma distinct_add o : preserves keeps_distinct (addOption o : ST (Exchange M) _).
Proof. apply distinct_update_resp. intros r r'. apply distinct_addOption. Qed.
Lemma distinct_sname n : preserves keeps_distinct (update_resp (setSname n) : ST (Exchange M) _).
Proof. apply distinct_update_resp. intros r r'. apply distinct_setSname. Qed.
Lemma distinct_file n : preserves keeps_distinct (update_resp (setFile n) : ST (Exchange M) _).
Proof. apply distinct_update_resp. intros r r'. apply distinct_setFile. Qed.
Lemma distinct_field f : (∀ r, r_options_ (f r) = r_options_ r) →
  preserves keeps_distinct (change_resp f : ST (Exchange M) _).
Proof. intros Hf. apply distinct_change_resp. intros r. unfold distinct, codes. by rewrite Hf. Qed.
Lemma distinct_replaced o : preserves keeps_distinct (change_resp (rsp_replace o) : ST (Exchange M) _).
Proof. apply distinct_change_resp. intros r. apply distinct_replace. Qed.
Lemma distinct_remote q t : preserves keeps_distinct (change_resp (adjustRemoteAddr q t) : ST (Exchange M) _).
Proof. apply distinct_change_resp. intros r. apply distinct_adjustRemoteAddr. Qed.
Lemma distinct_with_resp t i : preserves keeps_distinct (modify (with_resp (Some (mkRsp t i))) : ST (Exchange M) _).
Proof. apply preserves_modify. intros x _ r [= <-]. apply NoDup_singleton. Qed.
Lemma distinct_no_resp : preserves keeps_distinct (modify (with_resp None) : ST (Exchange M) _).
Proof. apply preserves_modify. by intros x _ r. Qed.
Lemma distinct_options f : preserves keeps_distinct (modify (λ x, with_options (f x) x) : ST (Exchange M) _).
Proof. apply preserves_modify. by intros x Hx. Qed.
#[local] Hint Resolve distinct_add distinct_sname distinct_file distinct_replaced distinct_remote
  distinct_with_resp distinct_no_resp distinct_options : preserves.
#[local] Hint Extern 2 (preserves keeps_distinct (change_resp _)) => by apply distinct_field : preserves.

(** ** The functions of the server *)

Lemma distinct_mkExchange subnet : preserves keeps_distinct (mkExchange subnet : ST (Exchange M) _).
Proof.
  unfold mkExchange, initResponse, copyDefaultFields, copyDefaultOptions, copy_option. preserve.
Qed.
Lemma distinct_processClientName : preserves keeps_distinct (processClientName : ST (Exchange M) _).
Proof. unfold processClientName, processClientFqdnOption, processHostnameOption. preserve. Qed.
#[local] Hint Resolve distinct_mkExchange distinct_processClientName : preserves.
Lemma distinct_begin_exchange : preserves keeps_distinct (begin_exchange : ST (Exchange M) _).
Proof. unfold begin_exchange. preserve. Qed.
Lemma distinct_nak : preserves keeps_distinct (nak : ST (Exchange M) _).
Proof.
  apply distinct_change_resp. intros r Hr. unfold distinct, codes. cbn.
  by rewrite replace_first_codes.
Qed.
#[local] Hint Resolve distinct_begin_exchange distinct_nak : preserves.
Lemma distinct_refuse : preserves keeps_distinct (refuse : ST (Exchange M) _).
Proof.
  unfold refuse. apply (preserves_bind _); [preserve|]. intros _.
  apply distinct_change_resp. intros r Hr. by do 2 apply distinct_delOption.
Qed.
Lemma distinct_init_reboot hint : preserves keeps_distinct (init_reboot hint : ST (Exchange M) _).
Proof. unfold init_reboot. preserve. Qed.
Lemma distinct_append_timers p sub l : preserves keeps_distinct (append_timers p sub l : ST (Exchange M) _).
Proof. unfold append_timers. preserve. Qed.
Lemma distinct_update_names fake fqdn o l :
  preserves keeps_distinct (update_names fake fqdn o l : ST (Exchange M) _).
Proof. unfold update_names. preserve. Qed.
#[local] Hint Resolve distinct_refuse distinct_init_reboot distinct_append_timers distinct_update_names : preserves.
Lemma distinct_grant fake fqdn o p l : preserves keeps_distinct (grant fake fqdn o p l : ST (Exchange M) _).
Proof. unfold grant. preserve. Qed.
#[local] Hint Resolve distinct_grant : preserves.
Lemma distinct_assignLease : preserves keeps_distinct (assignLease : ST (Exchange M) _).
Proof. unfold assignLease. preserve. Qed.

Lemma distinct_set_fields a n f : preserves keeps_distinct (set_fields a n f : ST (Exchange M) _).
Proof. unfold set_fields. preserve. Qed.
#[local] Hint Resolve distinct_set_fields : preserves.
Lemma distinct_set_class_fields l : preserves keeps_distinct (set_class_fields l : ST (Exchange M) _).
Proof. induction l as [|c l IH]; cbn [set_class_fields]; preserve. Qed.
#[local] Hint Resolve distinct_set_class_fields : preserves.
Lemma distinct_setFixedFields : preserves keeps_distinct (setFixedFields : ST (Exchange M) _).
Proof. unfold setFixedFields, setReservedMessageFields. preserve. Qed.
Lemma distinct_appendServerID : preserves keeps_distinct (appendServerID : ST (Exchange M) _).
Proof. unfold appendServerID, has_option. preserve. Qed.
Lemma distinct_adjustIfaceData : preserves keeps_distinct (adjustIfaceData : ST (Exchange M) _).
Proof. unfold adjustIfaceData. preserve. Qed.
Lemma distinct_push_options c : preserves keeps_distinct (push_options c : ST (Exchange M) _).
Proof. unfold push_options. preserve. Qed.
#[local] Hint Resolve distinct_push_options : preserves.
Lemma distinct_push_class_options l : preserves keeps_distinct (push_class_options l : ST (Exchange M) _).
Proof. induction l as [|c l IH]; cbn [push_class_options]; preserve. Qed.
#[local] Hint Resolve distinct_push_class_options : preserves.
Lemma distinct_append_all l cs : preserves keeps_distinct (append_all l cs : ST (Exchange M) _).
Proof. induction cs as [|c cs IH]; cbn [append_all]; unfold append_configured, has_option; preserve. Qed.
#[local] Hint Resolve distinct_append_all : preserves.
Lemma distinct_append_vendor l v cs : ∀ subs added,
  preserves keeps_distinct (append_vendor l v subs added cs : ST (Exchange M) _).
Proof.
  induction cs as [|c cs IH]; intros subs added; cbn [append_vendor]; [preserve|].
  destruct (if bool_decide _ then _ else _) as [d|]; preserve.
Qed.
#[local] Hint Resolve distinct_append_vendor : preserves.
Lemma distinct_add_options : preserves keeps_distinct (add_options : ST (Exchange M) _).
Proof.
  unfold add_options, ex_setReservedClientClasses, ex_requiredClassify, buildCfgOptionList,
    appendRequestedOptions, appendRequestedVendorOptions, appendBasicOptions. preserve.
Qed.
#[local] Hint Resolve distinct_assignLease distinct_setFixedFields distinct_appendServerID
  distinct_adjustIfaceData distinct_add_options : preserves.

(** ** The messages *)

Definition rsp_distinct (rsp : option Rsp) : Prop := ∀ r, rsp = Some r → distinct r.

Lemma wp_distinct {A B} (m : ST (Exchange M) A) (f : A → ST (Exchange M) B) x Q :
  all_distinct x → preserves keeps_distinct m →
  (∀ a x', all_distinct x' → wp (f a) x' Q (λ _ _, True)) → wp (m ≫= f) x Q (λ _ _, True).
Proof.
  intros Hx Hm HQ. apply wp_bind. eapply wp_mono; [by apply preserves_wp| |done].
  intros a x' Hx'. by apply HQ, Hx'.
Qed.
Lemma wp_distinct_response x :
  all_distinct x → wp ex_response x (λ rsp _, rsp_distinct rsp) (λ _ _, True).
Proof. intros Hx. apply wp_bind, wp_get, wp_ret. exact Hx. Qed.
Lemma rsp_distinct_None : rsp_distinct None.
Proof. by intros r. Qed.

Ltac distinct_step :=
  lazymatch goal with
  | |- wp (get_query ≫= _) _ _ _ => apply wp_bind, wp_bind, wp_get, wp_ret
  | |- wp (ex_response ≫= _) _ _ _ => apply wp_bind, wp_bind, wp_get, wp_ret
  | |- wp ex_response _ _ _ => by apply wp_distinct_response
  | _ => first [ eapply wp_distinct; [eassumption|preserve|intros ? ? ?]
               | apply wp_ret, rsp_distinct_None ]
  end.

Lemma distinct_processDiscover x : all_distinct x →
  wp processDiscover x (λ rsp _, rsp_distinct rsp) (λ _ _, True).
Proof.
  intros Hx. unfold processDiscover. do 3 distinct_step. case_match; [distinct_step|].
  do 3 distinct_step. destruct (resp_ _) as [r|]; [|distinct_step]. destruct (isV4Zero _); [distinct_step|].
  do 5 distinct_step.
Qed.
Lemma distinct_processRequest x : all_distinct x →
  wp processRequest x (λ rsp _, rsp_distinct rsp.1) (λ _ _, True).
Proof.
  intros Hx. unfold processRequest. distinct_step. case_match; [by apply wp_ret|].
  do 3 distinct_step. destruct (resp_ _) as [r|] eqn:Er; [|by apply wp_ret]. do 3 distinct_step.
  apply wp_bind. eapply wp_mono; [by apply wp_distinct_response| |done]. intros rsp y Hr.
  apply wp_bind. eapply wp_mono with (Q := λ _ _, True) (E := λ _ _, True); [|by intros; apply wp_ret|done].
  unfold wp. by destruct (exchange_ctx y) as [? []].
Qed.
Lemma distinct_processInform x : all_distinct x →
  wp processInform x (λ rsp _, rsp_distinct rsp) (λ _ _, True).
Proof.
  intros Hx. unfold processInform. do 3 distinct_step. case_match; [distinct_step|]. do 3 distinct_step.
  eapply wp_distinct; [eassumption| |].
  { apply distinct_change_resp. intros r Hr. destruct (negb _); [by apply distinct_delOption|done]. }
  intros ? ? ?. do 2 distinct_step.
Qed.
Lemma distinct_dispatch x type : all_distinct x →
  wp (dispatch type) x (λ rsp _, rsp_distinct rsp.1) (λ _ _, True).
Proof.
  assert (∀ (m : ST (Exchange M) (option Rsp)) x, wp m x (λ rsp _, rsp_distinct rsp) (λ _ _, True) →
    wp (rsp ← m; mret (rsp, None : option Committed)) x (λ rsp _, rsp_distinct rsp.1) (λ _ _, True)) as Hm.
  { intros m y Hy. apply wp_bind. eapply wp_mono; [exact Hy| |done]. intros rsp z Hz. by apply wp_ret. }
  assert (∀ (m : ST (Exchange M) (option Committed)) x,
    wp (ctx ← m; mret (None, ctx)) x (λ rsp _, rsp_distinct rsp.1) (λ _ _, True)) as Hn.
  { intros m y. apply wp_bind. unfold wp at 1. destruct (m y) as [z [c|e]]; [|done].
    apply wp_ret, rsp_distinct_None. }
  intros Hx. apply wp_bind, wp_bind, wp_get, wp_ret.
  destruct (type =? DHCPDISCOVER); [by apply Hm, distinct_processDiscover|].
  destruct (type =? DHCPREQUEST); [by apply distinct_processRequest|].
  destruct (type =? DHCPRELEASE); [apply Hn|]. destruct (type =? DHCPDECLINE); [apply Hn|].
  destruct (type =? DHCPINFORM); [by apply Hm, distinct_processInform|]. apply wp_ret, rsp_distinct_None.
Qed.

Definition answer_distinct (a : Answer) : Prop :=
  match a with Send r | Park r => distinct r | NoAnswer => True end.

Lemma distinct_processPacket x allow_park : all_distinct x →
  wp (processPacket allow_park) x (λ a _, answer_distinct a) (λ _ _, True).
Proof.
  intros Hx. unfold processPacket. distinct_step. do 2 distinct_step. apply wp_bind, wp_get.
  distinct_step. case_match.
  { eapply wp_distinct; [eassumption|preserve|]. intros ? ? ?. by apply wp_ret. }
  destruct (match pkt4_receive with Some _ => _ | None => _ end) as [status q].
  destruct (_ || _); [by apply wp_ret|]. apply wp_bind, wp_modify.
  match goal with |- wp _ ?y _ _ => assert (all_distinct y) as Hy by done; generalize dependent y end.
  intros y Hy. apply wp_bind, wp_try_catch. eapply wp_mono with (Q := λ rsp _, rsp_distinct rsp.1) (E := λ _ _, True).
  - apply wp_bind, wp_lift. destruct (getType q); [by apply distinct_dispatch|done].
  - intros [rsp c] z Hr. apply wp_bind, wp_bind, wp_get, wp_ret, wp_ret. unfold answer. cbv zeta. cbn in Hr.
    destruct rsp as [r|]; [|done]. destruct (decide _); [done|]. destruct (_ && _); by apply Hr.
  - intros e z _. destruct (catchable e); [|done]. apply wp_bind. unfold wp at 1.
    destruct (in_engine _ z) as [z' [u|e']]; [|done]. apply wp_ret, wp_bind, wp_bind, wp_get, wp_ret, wp_ret. done.
Qed.

(** C13: a response has every option once at most. *)
Theorem options_once (q : Query) (allow_park : bool) (s s' : State M) (answer : Answer)
    (E : handle_packet q allow_park s = (s', Ok answer)) :
  match answer with Send r | Park r => NoDup (rsp_code <$> r_options_ r) | NoAnswer => True end.
Proof.
  unfold handle_packet in E. set (y := Build_Exchange _ _ _ _ _) in E.
  assert (all_distinct y) as Hy by (by intros r).
  pose proof (distinct_processPacket y allow_park Hy) as Hwp. unfold wp in Hwp.
  destruct (processPacket allow_park y) as [y' [a|e]]; simplify_eq E.
  intros _ ->. exact Hwp.
Qed.
End Distinct.

(** ** Configured options *)

Section Configured.
Context {M : Type} `{LeaseMgr M} `{HostMgr} `{EngineConfig} `{Dhcpv4Config}.
Context `{TextConversions} `{AddressText} `{OptionIndexesLaws}.
Implicit Types (x : Exchange M).

(** The option a list of configurations, the most specific first, gives for a code. *)
Definition configured (l : list CfgOption) (code : Z) : option RspOption :=
  Copied ∘ option_ <$> first_desc (cfg_get DHCP4_OPTION_SPACE code) l.

Lemma first_desc_Some f l d : first_desc f l = Some d → ∃ c, c ∈ l ∧ f c = Some d.
Proof.
  induction l as [|c l IH]; cbn; [done|]. destruct (f c) as [d'|] eqn:E.
  - intros [= <-]. exists c. split; [constructor|done].
  - intros Hd. destruct (IH Hd) as (c' & Hc & Ec). exists c'. split; [by constructor|done].
Qed.
Lemma configured_code l code o : configured l code = Some o → rsp_code o = code.
Proof using All.
  unfold configured. destruct (first_desc _ l) as [d|] eqn:E; [|done]. intros [= <-].
  apply first_desc_Some in E as (c & _ & Ec). unfold cfg_get, get_items in Ec.
  destruct (bool_decide _); [done|]. by apply index_find_Some in Ec as [_ Ec].
Qed.

(** The options of a response after the configured ones of the codes were added. *)
Definition fill (l : list CfgOption) (opts : list RspOption) (code : Z) : list RspOption :=
  match option_of code opts, configured l code with
  | None, Some o => opts ++ [o]
  | _, _ => opts
  end.

Lemma fill_of l opts c code :
  option_of code (fill l opts c) =
  match option_of code opts with
  | Some o => Some o
  | None => if bool_decide (code = c) then configured l code else None
  end.
Proof using All.
  unfold fill. destruct (option_of c opts) as [o|] eqn:Ec.
  - destruct (option_of code opts) eqn:E; [done|]. by rewrite bool_decide_eq_false_2 by congruence.
  - destruct (configured l c) as [o|] eqn:Eo.
    + rewrite option_of_app. destruct (option_of code opts); [done|]. cbn.
      pose proof (configured_code _ _ _ Eo) as Hc. destruct (Z.eqb_spec (rsp_code o) code) as [<-|Hne].
      * rewrite Hc. by rewrite bool_decide_eq_true_2.
      * by rewrite bool_decide_eq_false_2 by congruence.
    + destruct (option_of code opts) eqn:E; [done|]. case_bool_decide as Hcode; [|done]. by subst.
Qed.
Lemma fill_all_of l cs : ∀ opts code,
  option_of code (foldl (fill l) opts cs) =
  match option_of code opts with
  | Some o => Some o
  | None => if bool_decide (code ∈ cs) then configured l code else None
  end.
Proof using All.
  induction cs as [|c cs IH]; intros opts code; cbn.
  - destruct (option_of code opts); [done|]. by rewrite bool_decide_eq_false_2 by apply not_elem_of_nil.
  - rewrite IH, fill_of. destruct (option_of code opts); [done|].
    destruct (decide (code = c)) as [->|Hc].
    + rewrite bool_decide_eq_true_2 by done. rewrite (bool_decide_eq_true_2 (c ∈ c :: cs)) by constructor.
      destruct (configured l c); [done|]. by case_bool_decide.
    + rewrite (bool_decide_eq_false_2 (code = c)) by done.
      erewrite (bool_decide_ext (code ∈ c :: cs) (code ∈ cs)); [done|]. rewrite elem_of_cons. naive_solver.
Qed.

Lemma append_configured_run l code x r : resp_ x = Some r →
  append_configured l code x =
  (with_resp (Some (on_options (λ opts, fill l opts code) r)) x, Ok tt).
Proof using All.
  intros Er. unfold append_configured, has_option, the_resp, get, mbind, ST_bind, mret, ST_ret. cbn.
  rewrite Er. cbn. rewrite rsp_option_eq.
  assert (with_resp (Some r) x = x) as Hx by (destruct x; cbn in *; by rewrite <- Er).
  assert (on_options (λ opts, opts) r = r) as Hr by (by destruct r).
  unfold fill, configured. destruct (option_of code (r_options_ r)) as [o|] eqn:Eo.
  { rewrite bool_decide_eq_true_2 by done. destruct r as [h t opts]. unfold on_options. cbn in *. rewrite Eo. by rewrite Hx. }
  rewrite bool_decide_eq_false_2 by (by intros [? ?]).
  destruct (first_desc _ l) as [d|] eqn:Ed.
  2: { destruct r as [h t opts]. unfold on_options. cbn in *. rewrite Eo. by rewrite Hx. }
  assert (rsp_code (Copied (option_ d)) = code) as Hd.
  { apply (configured_code l). unfold configured. by rewrite Ed. }
  unfold addOption, update_resp, the_resp, get, lift, modify, mbind, ST_bind, mret, ST_ret. cbn.
  rewrite Er. cbn. unfold rsp_addOption. rewrite rsp_option_eq, Hd, Eo. cbn.
  destruct r as [h t opts]. unfold on_options. cbn in *. by rewrite Eo.
Qed.
Lemma append_all_run l cs : ∀ x r, resp_ x = Some r →
  append_all l cs x = (with_resp (Some (on_options (λ opts, foldl (fill l) opts cs) r)) x, Ok tt).
Proof using All.
  induction cs as [|c cs IH]; intros x r Er; cbn [append_all foldl].
  - unfold mret, ST_ret. f_equal. destruct x, r. cbn in *. by rewrite Er.
  - unfold mbind, ST_bind. rewrite (append_configured_run l c x r Er). by erewrite IH by reflexivity.
Qed.

(** The codes that the client asks for, or of options that are always sent. *)
Definition wanted (l : list CfgOption) x (code : Z) : Prop :=
  code ∈ default [] (uint8_array (q_option (query_ x) DHO_DHCP_PARAMETER_REQUEST_LIST)) ∨
  ∃ c d, c ∈ l ∧ d ∈ getAll DHCP4_OPTION_SPACE c ∧ persistent_ d = true ∧
         u8 (desc_code d) = code.

Lemma persistent_codes_elem l code :
  code ∈ persistent_codes (getAll DHCP4_OPTION_SPACE) l ↔
  ∃ c d, c ∈ l ∧ d ∈ getAll DHCP4_OPTION_SPACE c ∧ persistent_ d = true ∧ u8 (desc_code d) = code.
Proof using All.
  unfold persistent_codes. rewrite list_elem_of_bind. setoid_rewrite list_elem_of_fmap.
  setoid_rewrite index_persistent_spec. naive_solver.
Qed.

(** The options of a response after those of [l] that are wanted were added. *)
Definition options_added (l : list CfgOption) x (r r' : Rsp) : Prop :=
  header r' = header r ∧ target r' = target r ∧
  ∀ code o, option_of code (r_options_ r') = Some o ↔
    option_of code (r_options_ r) = Some o ∨
    option_of code (r_options_ r) = None ∧ wanted l x code ∧ configured l code = Some o.

Lemma append_requested x (r : Rsp) (p : Z) :
  resp_ x = Some r → ctx_subnet_ (ctx (eng x)) = Some p →
  ∃ r', appendRequestedOptions x = (with_resp (Some r') x, Ok tt) ∧
    options_added (cfg_option_list_ x) x r r'.
Proof using All.
  intros Hr Hsub. set (l := cfg_option_list_ x).
  assert (∀ opts cs code o, (∀ c, c ∈ cs ↔ wanted l x c) →
    option_of code (foldl (fill l) opts cs) = Some o ↔
    option_of code opts = Some o ∨
    option_of code opts = None ∧ wanted l x code ∧ configured l code = Some o) as Hspec.
  { intros opts cs code o Hcs. rewrite fill_all_of. rewrite <- Hcs.
    destruct (option_of code opts); [naive_solver|]. case_bool_decide; naive_solver. }
  unfold appendRequestedOptions, exchange_ctx, in_engine, zoom, get_ctx, get, mbind, ST_bind, mret, ST_ret. cbn.
  rewrite Hsub. cbn. fold l.
  assert (with_eng (eng x) x = x) as -> by (by destruct x).
  destruct (decide (l = [])) as [E|E].
  - rewrite (bool_decide_eq_true_2 (l = [])) by done.
    exists r. assert (with_resp (Some r) x = x) as -> by (destruct x; cbn in *; by rewrite <- Hr).
    split; [done|]. split_and!; [done..|]. intros code o. rewrite E. cbn. naive_solver.
  - rewrite (bool_decide_eq_false_2 (l = [])) by done.
    rewrite (append_all_run _ _ _ _ Hr). eexists. split; [done|]. split_and!; [done..|].
    intros code o. apply Hspec. intros c.
    unfold wanted. rewrite <- persistent_codes_elem. by rewrite <- elem_of_app.
Qed.

(** ** The parts of the configuration *)

(** The pool of the subnet that holds the address of the response, when it has one. *)
Definition address_pool (sub : Subnet) (addr : IOAddress) (pool : option Pool) : Prop :=
  match pool with
  | Some pl => isV4Zero addr = false ∧ pl ∈ pools_ sub ∧ pool_inRange pl addr = true
  | None => isV4Zero addr = true ∨ ∀ pl, pl ∈ pools_ sub → pool_inRange pl addr = false
  end.

(** The reservation of the client in the subnet, or the global one. *)
Definition client_host x (sub : Subnet) : option Host :=
  ctx_hosts_ (ctx (eng x)) !!
    (if bool_decide (host_reservation_mode_ sub = HR_GLOBAL) then SUBNET_ID_GLOBAL else id_ sub).

(** The configured options that apply to a client, the most specific first. *)
Definition option_sources x (p : Z) (sub : Subnet) (pool : option Pool) : list CfgOption :=
  filter (λ c, cfg_option_empty c = false)
    (option_list (host_cfg_option <$> client_host x sub)
     ++ option_list (pool_cfg_option <$> pool)
     ++ [subnet_cfg_option_ (subnet4_cfg p)]
     ++ option_list (network_cfg_option <$> shared_network_ sub)
     ++ omap (λ c, class_cfg_option <$> findClass c class_dictionary) (classes_ (pkt (query_ x)))
     ++ [global_cfg_option]).

Lemma with_options_app (l l' : list CfgOption) x :
  with_options (l ++ l') x = with_options (cfg_option_list_ (with_options l x) ++ l') (with_options l x).
Proof. by destruct x. Qed.

Lemma push_options_run c l x :
  push_options c (with_options l x) =
  (with_options (l ++ filter (λ c, cfg_option_empty c = false) [c]) x, Ok tt).
Proof.
  unfold push_options, modify, mret, ST_ret. rewrite filter_cons, filter_nil.
  destruct (cfg_option_empty c); [|by destruct x].
  rewrite decide_False, app_nil_r by done. done.
Qed.
Lemma push_option_run {A} (f : A → CfgOption) (a : option A) l x :
  match a with Some a => push_options (f a) | None => mret tt end (with_options l x) =
  (with_options (l ++ filter (λ c, cfg_option_empty c = false) (option_list (f <$> a))) x, Ok tt).
Proof.
  destruct a as [a|]; [apply push_options_run|]. cbn. by rewrite app_nil_r.
Qed.
Lemma push_class_options_run classes : ∀ l x,
  push_class_options classes (with_options l x) =
  (with_options (l ++ filter (λ c, cfg_option_empty c = false)
     (omap (λ c, class_cfg_option <$> findClass c class_dictionary) classes)) x, Ok tt).
Proof.
  induction classes as [|c classes IH]; intros l x; cbn [push_class_options omap list_omap].
  { by rewrite app_nil_r. }
  unfold mbind at 1, ST_bind at 1. rewrite (push_option_run class_cfg_option (findClass c _)), IH.
  destruct (findClass c _); cbn [fmap option_fmap option_map option_list];
    [|by rewrite app_nil_r].
  change (?a :: omap ?f classes) with ([a] ++ omap f classes). by rewrite filter_app, app_assoc.
Qed.

Lemma build_run x (r : Rsp) (p : Z) (sub : Subnet) :
  resp_ x = Some r → ctx_subnet_ (ctx (eng x)) = Some p →
  subnets (heap (eng x)) !! p = Some sub → wf_subnet sub → kind sub = Kind4 →
  cfg_option_list_ x = [] →
  ∃ pool, address_pool sub (r_yiaddr_ (header r)) pool ∧
    buildCfgOptionList x = (with_options (option_sources x p sub pool) x, Ok tt).
Proof using All.
  intros Hr Hsub Hp Hwf Hkind Hl. set (a := r_yiaddr_ (header r)).
  assert (∃ pool, address_pool sub a pool ∧ ∀ l,
    (if negb (isV4Zero a) then
       pool ← lift (getPool sub TYPE_V4 a false);
       match pool with Some pl => push_options (pool_cfg_option pl) | None => mret tt end
     else mret tt) (with_options l x) =
    (with_options (l ++ filter (λ c, cfg_option_empty c = false) (option_list (pool_cfg_option <$> pool))) x,
     Ok tt)) as (pool & Hpool & Epool).
  { destruct (isV4Zero a) eqn:Ea.
    - exists None. split; [by left|]. intros l. cbn. by rewrite app_nil_r.
    - destruct (getPool_exact sub TYPE_V4 a Hwf ltac:(unfold allowed; by rewrite Hkind)) as (pool & E & Hspec). exists pool. split.
      + destruct pool as [pl|]; [destruct (proj1 (Hspec pl) eq_refl); by split_and!|]. right. intros pl Hpl.
        destruct (pool_inRange pl a) eqn:Hr'; [|done]. by pose proof (proj2 (Hspec pl) (conj Hpl Hr')).
      + intros l. cbn [negb]. unfold mbind at 1, ST_bind at 1, lift. rewrite E.
        apply (push_option_run pool_cfg_option). }
  exists pool. split; [done|]. unfold option_sources. rewrite !filter_app.
  assert (x = with_options [] x) as Hx by (destruct x; cbn in *; by rewrite Hl).
  unfold buildCfgOptionList, exchange_ctx, get_ctx, get_query.
  assert (∀ l, in_engine currentHost (with_options l x) = (with_options l x, Ok (client_host x sub)))
    as Ehost.
  { intros l. unfold in_engine, zoom, currentHost, get_ctx, the_subnet, subnet_at, get, lift,
      client_host, mode_is, mbind, ST_bind, mret, ST_ret. cbn. rewrite Hsub. cbn. rewrite Hp. cbn.
    by destruct x. }
  assert (∀ l, in_engine (the_subnet p) (with_options l x) = (with_options l x, Ok sub)) as Esub.
  { intros l. unfold in_engine, zoom, the_subnet, subnet_at, get, lift, mbind, ST_bind. cbn.
    rewrite Hp. by destruct x. }
  assert (∀ l, in_engine (s ← get; mret (ctx s)) (with_options l x) =
    (with_options l x, Ok (ctx (eng x)))) as Ectx by (intros l; by destruct x).
  rewrite Hx at 1. erewrite run_bind by apply Ectx. rewrite Hsub.
  erewrite run_bind by apply Ehost. erewrite run_bind by apply (push_option_run host_cfg_option).
  erewrite run_bind by done. erewrite run_bind by apply Esub. cbn [resp_ with_options].
  rewrite Hr. cbn [fmap option_fmap option_map default compose]. fold a.
  erewrite run_bind by apply Epool. erewrite run_bind by apply push_options_run.
  erewrite run_bind by apply (push_option_run network_cfg_option).
  erewrite run_bind by done. erewrite run_bind by apply push_class_options_run.
  rewrite push_options_run, <- !app_assoc. done.
Qed.

(** C12: The configured options of a response.  [buildCfgOptionList] collects the parts of the
    configuration that have options in the order host, pool of the address of the response,
    subnet, shared network, classes of the message in the order in which it has them, global
    options; [appendRequestedOptions] then adds an option exactly for the codes that the client
    asks for or that one of the parts always sends, when a part has it and the response does
    not, and takes it from the first part that has it.  Neither fails.  This is for a message
    that has a response and a well-formed IPv4 subnet, and no parts collected yet. *)
Theorem requested_options x (r : Rsp) (p : Z) (sub : Subnet)
    (Hr : resp_ x = Some r) (Hsub : ctx_subnet_ (ctx (eng x)) = Some p)
    (Hp : subnets (heap (eng x)) !! p = Some sub) (Hwf : wf_subnet sub) (Hkind : kind sub = Kind4)
    (Hl : cfg_option_list_ x = []) :
  ∃ pool r', address_pool sub (r_yiaddr_ (header r)) pool ∧
    (_ ← buildCfgOptionList; appendRequestedOptions) x =
      (with_resp (Some r') (with_options (option_sources x p sub pool) x), Ok tt) ∧
    header r' = header r ∧ target r' = target r ∧
    ∀ code o, option_of code (r_options_ r') = Some o ↔
      option_of code (r_options_ r) = Some o ∨
      option_of code (r_options_ r) = None ∧ wanted (option_sources x p sub pool) x code ∧
      configured (option_sources x p sub pool) code = Some o.
Proof using All.
  destruct (build_run x r p sub Hr Hsub Hp Hwf Hkind Hl) as (pool & Hpool & E).
  destruct (append_requested (with_options (option_sources x p sub pool) x) r p) as (r' & E' & H');
    [by destruct x|by destruct x|].
  exists pool, r'. split; [done|]. split; [|exact H'].
  unfold mbind, ST_bind. by rewrite E, E'.
Qed.
End Configured.

(** ** Vendor options *)

Section Vendor.
Context {M : Type} `{LeaseMgr M} `{HostMgr} `{EngineConfig} `{Dhcpv4Config}.
Context `{TextConversions} `{AddressText} `{OptionIndexes}.

(** The vendor option is added to the response in every round of the loop after the first
    suboption was found, so a second round fails: an option that the client asks for is sent
    only when its code is the last one of the list. *)
Theorem vendor_options_fail (x : Exchange M) (r : Rsp) (l : list CfgOption) (vendor code code' : Z)
    (codes : list Z) (d : OptionDescriptor)
    (Hr : resp_ x = Some r) (Hnone : option_of DHO_VIVSO_SUBOPTIONS (r_options_ r) = None)
    (Hd : first_desc (cfg_get_vendor vendor code) l = Some d) :
  (append_vendor l vendor [] false (code :: code' :: codes) x).2 = Throw BadValue.
Proof.
  assert (∀ (y : Exchange M) r' subs, resp_ y = Some r' → option_of DHO_VIVSO_SUBOPTIONS (r_options_ r') ≠ None →
    (append_vendor l vendor subs true (code' :: codes) y).2 = Throw BadValue) as Hsecond.
  { intros y r' subs Hy Hv. cbn [append_vendor]. cbv zeta.
    destruct (if bool_decide _ then _ else _) as [d'|]; unfold addOption, update_resp, the_resp, get,
      lift, mbind, ST_bind, mret, ST_ret; cbn; rewrite Hy; cbn; unfold rsp_addOption;
      rewrite rsp_option_eq; cbn; by destruct (option_of DHO_VIVSO_SUBOPTIONS (r_options_ r')). }
  revert Hsecond. generalize (code' :: codes). intros cs Hsecond. cbn [append_vendor]. cbv zeta.
  rewrite bool_decide_eq_false_2 by (cbn; by intros [? ?]). rewrite Hd.
  assert (addOption (Vendor vendor [option_ d]) x =
    (with_resp (Some (on_options (λ opts, opts ++ [Vendor vendor [option_ d]]) r)) x, Ok tt)) as Hadd.
  { unfold addOption, update_resp, the_resp, get, lift, modify, mbind, ST_bind, mret, ST_ret. cbn.
    rewrite Hr. cbn. unfold rsp_addOption. rewrite rsp_option_eq. cbn. by rewrite Hnone. }
  unfold mbind, ST_bind. cbn [app]. rewrite Hadd. eapply Hsecond; [done|]. cbn. by rewrite option_of_app, Hnone.
Qed.
End Vendor.
