(* ===== verification/Dhcpv4Safety.v ===== *)
(** * What the DHCPv4 server does to leases

    The effect of every function of the server on the leases, from the lemmas of
    [AllocEngine4Safety] about the engine and those of [Dhcpv4Steps] about the rest: the leases
    of other clients stay, a DHCPDISCOVER changes nothing, and an address that is given out had
    no lease of another client. *)

From S2P Require Import Prelude IoAddress Pool Subnet SharedNetwork StatsMgr Lease LeaseMgr Host.
From S2P Require Import Packet OptionSpace CfgOption CfgSubnets Token Eval ClientClass Classify.
From S2P Require Import DnsName Option4ClientFqdn D2ClientMgr EngineHeap AllocEngine4 AllocEngine4Safety Dhcpv4Msg Dhcpv4Srv Dhcpv4Steps.
Local Open Scope Z_scope.
#[local] Set Default Proof Using "All".

(** ** Clients *)

Section Clients.
Context {M : Type} `{LeaseMgrLaws M} `{EngineConfig}.
Implicit Types (s : State M) (q : Query).

(** How a message identifies its sender. *)
Definition sender q : option HWAddr * option Option :=
  (getHWAddr q, q_option q DHO_DHCP_CLIENT_IDENTIFIER).

(** The lease is the sender's, with the client identifier of the message or without. *)
Definition own q (l : Lease4) : Prop :=
  belongsToClient l (getHWAddr q) None = true ∨
  ∃ o, q_option q DHO_DHCP_CLIENT_IDENTIFIER = Some o ∧
       belongsToClient l (getHWAddr q) (Some (option_data_ o)) = true.

(** A lease in use by somebody else. *)
Definition stranger q (l : Lease4) : Prop := expired now l = false ∧ ¬ own q l.

(** Strangers' leases are the same. *)
Definition spared q s s' : Prop := ∀ a l,
  lm_leases (db s) !! a = Some l → stranger q l → lm_leases (db s') !! a = Some l.

(** No lease of a stranger is on the address. *)
Definition free q s (a : IOAddress) : Prop := ∀ l,
  lm_leases (db s) !! a = Some l → ¬ stranger q l.

(** The configured subnets are well-formed. *)
Definition config_ok s : Prop :=
  wf_heap (heap s) ∧ ∀ p sub, subnets (heap s) !! p = Some sub → wf4 sub.

(** Nothing but the memory of the allocators and the context has changed. *)
Definition untouched s s' : Prop :=
  db s' = db s ∧ stats s' = stats s ∧ ncrs s' = ncrs s ∧
  incomplete_v4_reclamations_ s' = incomplete_v4_reclamations_ s.

Lemma stranger_sender q q' l : sender q' = sender q → stranger q l → stranger q' l.
Proof using Type.
  intros [= E1 E2] [He Ho]. split; [done|]. unfold own. rewrite E1, E2. exact Ho.
Qed.

#[export] Instance spared_preorder q : PreOrder (spared q).
Proof. split; [by intros s a l|]. intros s1 s2 s3 H12 H23 a l Ha Hl. eauto. Qed.
#[export] Instance untouched_preorder : PreOrder untouched.
Proof using Type. split; [done|]. intros s1 s2 s3 (? & ? & ? & ?) (? & ? & ? & ?). split_and!; congruence. Qed.

Lemma spared_db q s s' : lm_leases (db s') = lm_leases (db s) → spared q s s'.
Proof. by intros E a l Ha _; rewrite E. Qed.
Lemma config_ok_heap s s' : heap s' = heap s → config_ok s → config_ok s'.
Proof using Type. unfold config_ok. by intros ->. Qed.
End Clients.

(** ** Exchanges *)

Section Exchanges.
Context {M : Type} `{LeaseMgrLaws M} `{HostMgrLaws} `{EngineConfig} `{!HooksOk} `{Dhcpv4Config}.
Context `{TextConversions} `{AddressText} `{OptionIndexes}.
Implicit Types (x : Exchange M) (s : State M) (q : Query).

Definition sender_type q := (sender q, getType q).

(** What the functions between the dispatch of a message and its answer keep. *)
Record kept x x' : Prop := {
  kept_sender : sender_type (query_ x') = sender_type (query_ x);
  kept_config : config_ok (eng x) → config_ok (eng x');
  kept_leases : spared (query_ x) (eng x) (eng x');
  kept_offer : getType (query_ x) = Ok DHCPDISCOVER → untouched (eng x) (eng x')
}.

Lemma kept_refl x : kept x x.
Proof. by split. Qed.
Lemma kept_trans x1 x2 x3 : kept x1 x2 → kept x2 x3 → kept x1 x3.
Proof.
  intros [A1 A2 A3 A4] [B1 B2 B3 B4]. pose proof A1 as [= Ea Eb Et]. split; [congruence|auto| |].
  - etrans; [exact A3|]. intros a l Ha Hl. apply B3; [done|].
    eapply stranger_sender; [|exact Hl]. unfold sender. congruence.
  - intros Ht. etrans; [by apply A4|]. apply B4. congruence.
Qed.
#[export] Instance kept_preorder : PreOrder kept.
Proof. split; [exact kept_refl|exact kept_trans]. Qed.

(** Only the context of the engine and the response have changed. *)
Definition idle x x' : Prop :=
  sender_type (query_ x') = sender_type (query_ x) ∧ with_ctx (ctx (eng x)) (eng x') = eng x.

#[export] Instance idle_preorder : PreOrder idle.
Proof using Type.
  split; [intros x; split; [done|]; by destruct x as [[] ? ? ?]|].
  intros x y z [E1 E2] [E3 E4]. split; [congruence|]. rewrite <- E2, <- E4. by destruct (eng z).
Qed.

Lemma idle_fields x x' : idle x x' →
  heap (eng x') = heap (eng x) ∧ untouched (eng x) (eng x').
Proof using Type. intros [_ <-]. done. Qed.

Lemma idle_kept x x' : idle x x' → kept x x'.
Proof.
  intros Hi. destruct (idle_fields _ _ Hi) as (Eh & Hu). destruct Hi as [E _]. split; [done| | |done].
  - by apply config_ok_heap.
  - apply spared_db. by destruct Hu as (-> & _).
Qed.

Lemma erase_query (q q' : Query) : clear_query q' = clear_query q → sender_type q' = sender_type q.
Proof using Type.
  destruct q as [p1 ? ? ? ? ? ?], q' as [p2 ? ? ? ? ? ?]. unfold clear_query, with_pkt. cbn.
  intros [= E1 E2 E3 E4 E5 E6 E7]. unfold sender_type, sender, getHWAddr, q_option, getType,
    pkt4_getType, Packet.getOption. cbn. by rewrite E1, E7.
Qed.

Lemma dressed_idle x x' : dressed x x' → idle x x'.
Proof using Type.
  unfold dressed, erase. intros E. split.
  - apply erase_query. exact (f_equal (λ t, t.1.2) E).
  - apply (f_equal (λ t, with_ctx (ctx (eng x)) t.1.1)) in E. cbn in E.
    change (with_ctx (ctx (eng x)) (eng x') = with_ctx (ctx (eng x)) (eng x)) in E. rewrite E.
    by destruct (eng x).
Qed.
Lemma dressed_answer x x' : dressed x x' → answer_of <$> resp_ x' = answer_of <$> resp_ x.
Proof using Type. intros E. exact (f_equal snd E). Qed.

(** A dressing step before the rest of a computation. *)
Lemma wp_dressed {A B} (m : ST (Exchange M) A) (f : A → ST (Exchange M) B) x Q E :
  preserves dressed m → (∀ e x', dressed x x' → E e x') →
  (∀ a x', dressed x x' → wp (f a) x' Q E) → wp (m ≫= f) x Q E.
Proof using Type.
  intros Hm HE HQ. apply wp_bind. eapply wp_mono; [by apply preserves_wp| |]; cbn; auto.
Qed.

(** ** The exchange *)

(** The context has the client of the message. *)
Definition linked x : Prop :=
  ctx_hwaddr_ (ctx (eng x)) = getHWAddr (query_ x) ∧
  match clientid_ (ctx (eng x)) with
  | None => True
  | Some id => id ≠ [] ∧ ∃ o, q_option (query_ x) DHO_DHCP_CLIENT_IDENTIFIER = Some o ∧ id = option_data_ o
  end.

Lemma linked_dressed x x' : dressed x x' → linked x → linked x'.
Proof using Type.
  intros Hd. pose proof (dressed_idle _ _ Hd) as [[= Eh Eo _] _].
  assert (ctx_with_classes [] (ctx (eng x')) = ctx_with_classes [] (ctx (eng x))) as [= E1 E2 E3]
    by exact (f_equal (λ t, ctx t.1.1) Hd).
  unfold linked. rewrite Eh, Eo. by rewrite E2, E3.
Qed.

Lemma inv_dressed x x' : dressed x x' → inv (eng x) → inv (eng x').
Proof.
  intros Hd. destruct (idle_fields _ _ (dressed_idle _ _ Hd)) as [Eh _].
  assert (ctx_with_classes [] (ctx (eng x')) = ctx_with_classes [] (ctx (eng x))) as [= E1 E2 E3]
    by exact (f_equal (λ t, ctx t.1.1) Hd).
  intros [I1 I2 I3 I4]. split; rewrite ?Eh, ?E2, ?E1; done.
Qed.

Lemma linked_mine x l :
  linked x → mine (heap (eng x)) (ctx (eng x)) l → own (query_ x) l.
Proof.
  intros [Eh Hc] (p & sub & _ & Hb). rewrite Eh in Hb.
  destruct (match_client_id_ sub); [|by left].
  destruct (clientid_ (ctx (eng x))) as [id|]; [|by left].
  destruct Hc as (_ & o & Eo & ->). right. by exists o.
Qed.

(** [findReservation] only changes the hosts of the context. *)
Definition hosts_only s s' : Prop := ∃ h, s' = with_ctx (ctx_with_hosts h (ctx s)) s.

#[export] Instance hosts_only_preorder : PreOrder hosts_only.
Proof using Type.
  split; [intros s; exists (ctx_hosts_ (ctx s)); by destruct s as [? ? ? ? ? []]|].
  intros s1 s2 s3 (h & ->) (h' & ->). by exists h'.
Qed.

Lemma hosts_only_observes {A} (m : ST (State M) A) : observes m → preserves hosts_only m.
Proof using Type. intros Hm. eapply preserves_mono; [exact Hm|]. by intros s s' <-. Qed.

Lemma preserves_walk {A} (R : relation (State M)) `{!PreOrder R} first (body : Z → ST (State M) (option A)) :
  (∀ p, preserves R (body p)) → preserves R (walk first body).
Proof using Type.
  intros Hb. unfold walk. apply (preserves_bind _); [apply (preserves_get _)|]. intros s.
  destruct first as [f|]; [|apply (preserves_ret _)]. generalize (Some f) as p.
  induction (S (base.size (subnets (heap s)))) as [|n IH]; intros [p|]; cbn [walk_loop];
    try apply (preserves_ret _); try apply (preserves_throw _).
  apply (preserves_bind _); [apply Hb|]. intros [a|]; [apply (preserves_ret _)|].
  apply (preserves_bind _); [|intros p'; apply IH].
  eapply preserves_mono; [apply observes_next_subnet|]. by intros s1 s2 <-.
Qed.

Lemma hosts_only_findReservation : preserves hosts_only (findReservation : ST (State M) _).
Proof using Type.
  assert (∀ i h, preserves hosts_only (add_host i h : ST (State M) _)) as Hadd.
  { intros i [h|]; [|apply (preserves_ret _)]. apply preserves_modify. intros s. by eexists. }
  assert (preserves hosts_only (update_ctx (ctx_with_hosts ∅) : ST (State M) _)) as Hinit.
  { apply preserves_modify. intros s. by eexists. }
  assert (∀ p, preserves hosts_only (the_subnet p : ST (State M) _)) as Hsub.
  { intros p. apply hosts_only_observes. preserve. }
  assert (preserves hosts_only (get_ctx : ST (State M) _)) as Hctx.
  { apply hosts_only_observes. preserve. }
  unfold findReservation.
  repeat first
    [ progress intros | solve [eauto 2 with preserves nocore]
    | match goal with |- preserves _ (mbind _ (walk _ _)) =>
        apply (preserves_bind _); [apply (preserves_walk _)|] end
    | apply (preserves_ret _) | apply (preserves_lift _) | apply (preserves_get _)
    | match goal with |- preserves _ (mbind _ _) => apply (preserves_bind _) end
    | match goal with |- preserves _ (match ?x with _ => _ end) => destruct x end ].
Qed.

Lemma idle_dressed {A} (m : ST (Exchange M) A) : preserves dressed m → preserves idle m.
Proof using Type. intros Hm. eapply preserves_mono; [exact Hm|]. exact dressed_idle. Qed.
Lemma idle_update_ctx f : preserves idle (in_engine (update_ctx f) : ST (Exchange M) _).
Proof using Type.
  eapply preserves_zoom with (R' := λ s s', with_ctx (ctx s) s' = s).
  - apply preserves_modify. intros s. by destruct s.
  - intros x s E. by split.
Qed.
Lemma idle_findReservation : preserves idle (in_engine findReservation : ST (Exchange M) _).
Proof using Type.
  eapply preserves_zoom; [exact hosts_only_findReservation|].
  intros x s (h & ->). split; [done|]. by destruct (eng x).
Qed.
Lemma idle_with_resp r : preserves idle (modify (with_resp r) : ST (Exchange M) _).
Proof using Type. apply preserves_modify. intros x. split; [done|]. cbn. by destruct (eng x). Qed.

Lemma dressed_copyDefaults : preserves dressed (_ ← copyDefaultFields; copyDefaultOptions : ST (Exchange M) _).
Proof using Type.
  assert (∀ c, preserves dressed (copy_option c : ST (Exchange M) _)) as Hc.
  { intros c. unfold copy_option. apply (preserves_bind _); [apply dressed_get_query|]. intros q.
    destruct (q_option q c); [by apply dressed_addOption|apply (preserves_ret _)]. }
  apply (preserves_bind _); [apply (preserves_bind _); [apply dressed_get_query|]|]; intros a.
  - destruct (getHWAddr a); [by apply dressed_change_resp|apply (preserves_throw _)].
  - unfold copyDefaultOptions. apply (preserves_bind _); [destruct echo_client_id|];
      [apply Hc|apply (preserves_ret _)|]. intros _. apply (preserves_bind _); [apply Hc|intros _; apply Hc].
Qed.

(** The response an exchange starts with. *)
Definition first_answer (type : Z) : option (Z * IOAddress) :=
  if type =? DHCPDISCOVER then Some (DHCPOFFER, IPV4_ZERO_ADDRESS)
  else if (type =? DHCPREQUEST) || (type =? DHCPINFORM) then Some (DHCPACK, IPV4_ZERO_ADDRESS)
  else None.

Lemma wp_initResponse x type :
  resp_ x = None → getType (query_ x) = Ok type →
  wp initResponse x (λ _ x', idle x x' ∧ answer_of <$> resp_ x' = first_answer type)
                    (λ _ x', idle x x').
Proof using Type.
  intros Hnone Ht. unfold initResponse. apply wp_bind, wp_bind, wp_get, wp_ret, wp_bind, wp_lift.
  rewrite Ht. cbv zeta.
  assert (∀ t, wp (_ ← modify (with_resp (Some (mkRsp t (transid_ (pkt (query_ x)))))); _ ← copyDefaultFields;
                   copyDefaultOptions) x
    (λ _ x', idle x x' ∧ answer_of <$> resp_ x' = Some (t, IPV4_ZERO_ADDRESS)) (λ _ x', idle x x')) as Hcopy.
  { intros t. apply wp_bind, wp_modify. set (x1 := with_resp _ x).
    assert (idle x x1) as Hx1 by (split; [done|]; unfold x1; cbn; by destruct (eng x)).
    eapply wp_mono; [apply (preserves_wp _ _ x1 dressed_copyDefaults)| |]; cbn.
    - intros _ x2 Hd. split; [etrans; [exact Hx1|by apply dressed_idle]|].
      by rewrite (dressed_answer _ _ Hd).
    - intros _ x2 Hd. etrans; [exact Hx1|by apply dressed_idle]. }
  unfold first_answer. destruct (type =? DHCPDISCOVER); cbn; [apply Hcopy|].
  destruct (_ || _); cbn; [apply Hcopy|]. rewrite Hnone. split; [reflexivity|done].
Qed.

Lemma wp_preserves {T A} (R : relation T) (m : ST T A) (t : T) (Q : A → T → Prop) E :
  preserves R m → (∀ a t', R t t' → Q a t') → (∀ e t', R t t' → E e t') → wp m t Q E.
Proof using Type. intros Hm HQ HE. eapply wp_mono; [by apply preserves_wp|exact HQ|exact HE]. Qed.

(** What [mkExchange] leaves. *)
Definition begun x x' : Prop :=
  idle x x' ∧ linked x' ∧ (config_ok (eng x) → inv (eng x')).

Lemma begun_idle x x' x'' : idle x x' → begun x' x'' → begun x x''.
Proof using Type.
  intros Hi (Hi' & Hl & Hc). split_and!; [by etrans|done|]. intros Hok. apply Hc.
  eapply config_ok_heap; [by apply (idle_fields _ _ Hi)|done].
Qed.

Lemma begun_dressed x x' x'' : begun x x' → dressed x' x'' → begun x x''.
Proof using All.
  intros (Hi & Hl & Hc) Hd. split_and!; [etrans; [exact Hi|by apply dressed_idle]| |].
  - by eapply linked_dressed.
  - intros Hok. eapply inv_dressed; [exact Hd|by apply Hc].
Qed.

(** A context made for the message. *)
Lemma begun_context x x' subnet id ids :
  idle x x' → with_ctx (ctx (eng x')) (eng x) = eng x' →
  (∃ h, ctx (eng x') = ctx_with_hosts h (exchange_context (query_ x') subnet id ids)) →
  match id with
  | None => True
  | Some id => id ≠ [] ∧ ∃ o, q_option (query_ x) DHO_DHCP_CLIENT_IDENTIFIER = Some o ∧ id = option_data_ o
  end →
  (∀ p, subnet = Some p → is_Some (subnets (heap (eng x)) !! p)) → begun x x'.
Proof using Type.
  intros Hi He (h & Ec) Hid Hsub. pose proof Hi as [[= Eh Eo _] _]. split_and!; [done| |].
  - unfold linked. rewrite Ec. cbn. split; [done|]. by rewrite Eo.
  - intros [Hw H4']. rewrite <- He in *. split; cbn; [done|done| |].
    + rewrite <- He in Ec. cbn in Ec. rewrite Ec. cbn. destruct id; [|done]. destruct Hid as [? _]. congruence.
    + intros p Hp. apply Hsub. rewrite <- He in Ec. cbn in Ec. rewrite Ec in Hp. exact Hp.
Qed.

Lemma wp_query_client (f : option (list Z) → ST (Exchange M) unit) q x Q E :
  (∀ e, E e x) →
  (∀ id, match id with
         | None => True
         | Some id => id ≠ [] ∧ ∃ o, q_option q DHO_DHCP_CLIENT_IDENTIFIER = Some o ∧ id = option_data_ o
         end → wp (f id) x Q E) →
  wp (clientid ← (match q_option q DHO_DHCP_CLIENT_IDENTIFIER with
                  | Some o => id ← lift (mkClientId (option_data_ o)); mret (Some id)
                  | None => mret None
                  end); f clientid) x Q E.
Proof using Type.
  intros HE Hf. apply wp_bind. destruct (q_option q DHO_DHCP_CLIENT_IDENTIFIER) as [o|] eqn:Eo.
  - apply wp_bind, wp_lift. destruct (mkClientId (option_data_ o)) as [id|e] eqn:Ei; [|done].
    apply wp_ret, Hf. unfold mkClientId in Ei. res_inv. apply bool_decide_eq_false in Hg0.
    split; [done|]. by exists o.
  - by apply wp_ret, Hf.
Qed.

(** The context of the exchange. *)
Definition set_context (subnet : option Z) (q : Query) : ST (Exchange M) unit :=
  match subnet with
  | None => in_engine (update_ctx (λ _, exchange_context q None None []))
  | Some p =>
      clientid ← (match q_option q DHO_DHCP_CLIENT_IDENTIFIER with
                  | Some o => id ← lift (mkClientId (option_data_ o)); mret (Some id)
                  | None => mret None
                  end);
      sub ← in_engine (the_subnet p);
      if bool_decide (host_reservation_mode_ sub = HR_DISABLED)
      then in_engine (update_ctx (λ _, exchange_context q (Some p) clientid []))
      else
        _ ← in_engine (update_ctx (λ _, exchange_context q (Some p) clientid
                           (omap (identifier_of q clientid) identifier_types)));
        in_engine findReservation
  end.

Lemma wp_set_context x x1 subnet :
  idle x x1 →
  wp (set_context subnet (query_ x1)) x1 (λ _ x2, begun x x2 ∧ resp_ x2 = resp_ x1) (λ _ x2, idle x x2).
Proof using Type.
  intros Hi. pose proof Hi as [[= _ Eo _] He]. destruct (idle_fields _ _ Hi) as [Eh _].
  assert (∀ c, idle x (with_eng (with_ctx c (eng x1)) x1)) as Hset.
  { intros c. etrans; [exact Hi|]. split; [done|]. cbn. by destruct (eng x1). }
  assert (∀ c (x2 : Exchange M), x2 = with_eng (with_ctx c (eng x1)) x1 →
    with_ctx (ctx (eng x2)) (eng x) = eng x2) as Hctx.
  { intros c x2 ->. cbn. by rewrite <- He. }
  destruct subnet as [p|]; cbn [set_context].
  2: { apply wp_zoom, wp_modify. split; [|done]. apply (begun_context _ _ None None []);
         [apply Hset|by eapply Hctx|by exists ∅|exact I|done]. }
  apply wp_query_client; [done|]. intros id Hid. apply wp_bind, wp_zoom, wp_bind, wp_get, wp_lift.
  unfold subnet_at. destruct (subnets (heap (eng x1)) !! p) as [sub|] eqn:Hp.
  2: { cbn. etrans; [exact Hi|]. split; [done|]. by destruct (eng x1). }
  assert (with_eng (eng x1) x1 = x1) as -> by (by destruct x1).
  assert (∀ p', Some p = Some p' → is_Some (subnets (heap (eng x)) !! p')) as Hsub.
  { intros p' [= <-]. rewrite <- Eh, Hp. by eexists. }
  rewrite Eo in Hid. destruct (bool_decide _).
  - apply wp_zoom, wp_modify. split; [|done].
    eapply begun_context; [apply Hset|by eapply Hctx| |exact Hid|exact Hsub]. by exists ∅.
  - apply wp_bind, wp_zoom, wp_modify, wp_zoom. cbn.
    eapply wp_preserves; [exact hosts_only_findReservation| |]; cbn.
    + intros _ s (h & ->). split; [|done].
      eapply begun_context; [apply Hset|by eapply Hctx| |exact Hid|exact Hsub]. by exists h.
    + intros _ s (h & ->). apply Hset.
Qed.

Lemma wp_mkExchange x subnet type :
  resp_ x = None → getType (query_ x) = Ok type →
  wp (mkExchange subnet) x (λ _ x', begun x x' ∧ answer_of <$> resp_ x' = first_answer type)
                           (λ _ x', idle x x').
Proof.
  intros Hnone Ht. apply wp_bind. eapply wp_mono; [by apply wp_initResponse| |done].
  intros _ x1 [Hi Ha]. apply wp_bind, wp_bind, wp_get, wp_ret, wp_bind.
  eapply wp_mono; [by apply (wp_set_context x x1 subnet)| |done]. intros _ x2 [Hb Er].
  rewrite <- Er in Ha. apply wp_dressed; [apply dressed_exchange_ctx| |].
  - intros e x3 Hd. by destruct (begun_dressed _ _ _ Hb Hd).
  - intros c x3 Hd. pose proof (begun_dressed _ _ _ Hb Hd) as Hb3. rewrite <- (dressed_answer _ _ Hd) in Ha.
    eapply wp_preserves; [apply dressed_in_pkt, preserves_classify_by_hosts| |].
    + intros _ x4 Hd'. rewrite (dressed_answer _ _ Hd'). split; [by eapply begun_dressed|done].
    + intros _ x4 Hd'. by destruct (begun_dressed _ _ _ Hb3 Hd').
Qed.

Lemma wp_begin_exchange x type :
  resp_ x = None → getType (query_ x) = Ok type →
  wp begin_exchange x (λ _ x', begun x x' ∧ answer_of <$> resp_ x' = first_answer type)
                      (λ _ x', idle x x').
Proof.
  intros Hnone Ht. apply wp_bind, wp_get, wp_bind, wp_lift.
  destruct (srv_selectSubnet _ _ _) as [[subnet drop]|e]; [|reflexivity].
  apply wp_bind. eapply wp_mono; [by apply wp_mkExchange| |done]. intros a x' Hx'. by apply wp_ret.
Qed.

(** ** The lease *)

Lemma wp_observes {A} (m : ST (State M) A) x Q E :
  observes m → (∀ a, Q a x) → (∀ e, E e x) → wp (in_engine m) x Q E.
Proof using Type.
  intros Hm HQ HE. apply wp_zoom. eapply wp_preserves; [exact Hm| |]; cbn; intros v s <-.
  - assert (with_eng (eng x) x = x) as -> by (by destruct x). apply HQ.
  - assert (with_eng (eng x) x = x) as -> by (by destruct x). apply HE.
Qed.

Lemma wp_change_resp f x (Q : unit → Exchange M → Prop) E :
  E AssertionFailure x →
  (∀ r, resp_ x = Some r → Q tt (with_resp (Some (f r)) x)) → wp (change_resp f) x Q E.
Proof using Type.
  intros HE HQ. unfold change_resp, update_resp, the_resp, wp, get, lift, modify, throw, mbind,
    ST_bind, mret, ST_ret, res_ret. cbn. destruct (resp_ x) as [r|] eqn:Er; cbn; [by apply HQ|exact HE].
Qed.

Lemma idle_same x x' : eng x' = eng x → query_ x' = query_ x → idle x x'.
Proof using Type. intros E1 E2. split; rewrite ?E1, ?E2; [done|]. by destruct (eng x). Qed.

(** The response refuses the request. *)
Definition refused x : Prop := answer_of <$> resp_ x = Some (DHCPNAK, IPV4_ZERO_ADDRESS).

Lemma option_of_replaced o l v :
  option_of (rsp_code o) l = Some v → option_of (rsp_code o) (replace_first o l) = Some o.
Proof using Type.
  induction l as [|w l IH]; cbn; [done|].
  destruct (Z.eqb_spec (rsp_code w) (rsp_code o)) as [E|E]; cbn.
  - by rewrite Z.eqb_refl.
  - intros Hv. destruct (Z.eqb_spec (rsp_code w) (rsp_code o)); [done|]. by apply IH.
Qed.
Lemma rsp_type_setType v r : rsp_type r ≠ DHCP_NOTYPE → rsp_type (setType v r) = v.
Proof using Type.
  unfold rsp_type. rewrite !rsp_option_eq. destruct (option_of _ (r_options_ r)) as [o|] eqn:E; [|done].
  intros _. unfold setType, rsp_replace. cbn.
  assert (option_of DHO_DHCP_MESSAGE_TYPE (replace_first (MessageType v) (r_options_ r)) =
          Some (MessageType v)) as -> by exact (option_of_replaced (MessageType v) (r_options_ r) o E).
  done.
Qed.

Lemma wp_nak x t a :
  answer_of <$> resp_ x = Some (t, a) → t ≠ DHCP_NOTYPE →
  wp nak x (λ _ x', idle x x' ∧ refused x') (λ _ x', idle x x').
Proof using Type.
  intros Ha Ht. apply wp_change_resp; [reflexivity|]. intros r Er. split; [by apply idle_same|].
  rewrite Er in Ha. injection Ha as Ha _. unfold refused. cbn. f_equal. unfold answer_of. cbn.
  f_equal. change (rsp_type (setType DHCPNAK r) = DHCPNAK). apply rsp_type_setType. congruence.
Qed.

Lemma wp_init_reboot x t a hint :
  answer_of <$> resp_ x = Some (t, a) → t ≠ DHCP_NOTYPE →
  wp (init_reboot hint) x
    (λ b x', if b then x' = x else idle x x' ∧ (resp_ x' = None ∨ refused x'))
    (λ _ x', idle x x').
Proof using Type.
  intros Ha Ht. apply wp_bind, wp_observes; [preserve| |reflexivity]. intros l.
  apply wp_bind, wp_observes; [preserve| |reflexivity]. intros c.
  assert (wp (_ ← modify (with_resp None); mret false) x
    (λ b x', if b then x' = x else idle x x' ∧ (resp_ x' = None ∨ refused x'))
    (λ _ x', idle x x')) as Hnone.
  { apply wp_bind, wp_modify, wp_ret. split; [by apply idle_same|by left]. }
  destruct l as [l|]; [|exact Hnone]. destruct (negb (belongsToClient _ _ _)); [exact Hnone|].
  destruct (negb (equals _ _)); [|by apply wp_ret].
  apply wp_bind. eapply wp_mono; [by eapply wp_nak| |done]. intros _ x' [Hi Hr]. apply wp_ret. auto.
Qed.

(** The allocation, in the context of the exchange. *)
Lemma wp_in_allocate x :
  linked x → inv (eng x) →
  (getType (query_ x) = Ok DHCPDISCOVER → fake_allocation_ (ctx (eng x)) = true) →
  wp (in_engine allocateLease4) x
    (λ l x', kept x x' ∧ resp_ x' = resp_ x ∧
             ∀ l', l = Some l' → free (query_ x) (eng x) (addr_ l'))
    (λ _ x', kept x x').
Proof.
  intros Hl Hinv Hfake. apply wp_zoom.
  assert (∀ s', inv s' → frame (reset_results (eng x)) (reset_new s') → kept x (with_eng s' x)) as Hk.
  { intros s' Hi [F1 F2 F3 F4]. split; [done| | |].
    - intros _. split; apply Hi.
    - intros a l Ha [He Ho]. apply (F4 a l Ha). split; [exact He|]. intros Hm. apply Ho.
      by apply (linked_mine x).
    - intros Ht. destruct (F3 (Hfake Ht)) as (? & ? & ? & ?). by split_and!. }
  eapply wp_mono; [by apply wp_allocateLease4| |].
  - intros r s' (Hi & Hf & Ha). split_and!; [by apply Hk|done|]. intros l ->.
    assert (obtainable (reset_results (eng x)) (addr_ l)) as Ho.
    { unfold answered in Ha. destruct (fake_allocation_ _); [apply Ha|]. by destruct Ha. }
    intros l' Hl' [He Hown]. destruct Ho as [Ho|(l0 & E0 & Hm)].
    + unfold available in Ho. cbn in Ho. rewrite Hl' in Ho. congruence.
    + cbn in E0. rewrite Hl' in E0. injection E0 as <-. apply Hown. by apply (linked_mine x).
  - intros e s' (Hi & Hf & _). by apply Hk.
Qed.

(** A change of the database at an address without a stranger's lease, and changes of
    statistics and requests. *)
Lemma kept_at x0 x (a : IOAddress) s :
  kept x0 x → getType (query_ x0) ≠ Ok DHCPDISCOVER → free (query_ x0) (eng x0) a →
  heap s = heap (eng x) →
  (∀ b, b ≠ a → lm_leases (db s) !! b = lm_leases (db (eng x)) !! b) →
  kept x0 (with_eng s x).
Proof.
  intros [K1 K2 K3 K4] Ht Hfree Eh Hdb. split; cbn; [done| | |done].
  - intros Hok. eapply config_ok_heap; [exact Eh|by apply K2].
  - intros b l Hb Hl. rewrite Hdb; [by apply K3|]. intros ->. by eapply Hfree.
Qed.
Lemma kept_quiet x0 x s :
  kept x0 x → getType (query_ x0) ≠ Ok DHCPDISCOVER → quiet (eng x) s → kept x0 (with_eng s x).
Proof.
  intros [K1 K2 K3 K4] Ht (Eh & Ed & _). split; cbn; [done| | |done].
  - intros Hok. eapply config_ok_heap; [exact Eh|by apply K2].
  - rewrite <- (spared_db _ (eng x) s) by (by rewrite Ed). exact K3.
Qed.
Lemma kept_ctx x0 x c : kept x0 x → kept x0 (with_eng (with_ctx c (eng x)) x).
Proof. intros K. etrans; [exact K|]. apply idle_kept. split; [done|]. cbn. by destruct (eng x). Qed.

Lemma wp_quietly x0 x {A} (m : ST (State M) A) (P : A → Prop) (Q : A → Exchange M → Prop) E :
  kept x0 x → getType (query_ x0) ≠ Ok DHCPDISCOVER → quietly m (eng x) P →
  (∀ a x', kept x0 x' → query_ x' = query_ x → resp_ x' = resp_ x → P a → Q a x') →
  (∀ e x', kept x0 x' → query_ x' = query_ x → resp_ x' = resp_ x → E e x') → wp (in_engine m) x Q E.
Proof.
  intros K Ht Hm HQ HE. apply wp_zoom. eapply wp_mono; [exact Hm| |].
  - intros a s [Hs HP]. apply HQ; [by apply kept_quiet|done..].
  - intros e s [Hs _]. apply HE; [by apply kept_quiet|done..].
Qed.

Lemma quietly_createNameChangeRequests l old s :
  quietly (createNameChangeRequests l old) s (λ _, True).
Proof.
  unfold createNameChangeRequests. destruct (match old with Some _ => _ | None => true end); [|by apply quietly_ret].
  eapply quietly_bind; [|intros; apply quietly_queueNCR].
  destruct old; [apply quietly_queueNCR|by apply quietly_ret].
Qed.

(** The new name in the option of the response. *)
Definition rename (fqdn : option Fqdn) (name : string) : ST (Exchange M) unit :=
  match fqdn with
  | Some f => f ← lift (setDomainName name FULL f); change_resp (rsp_replace (ClientFqdn f))
  | None => o ← lift (mkHostname name); change_resp (rsp_replace o)
  end.
Lemma dressed_rename fqdn name : preserves dressed (rename fqdn name).
Proof using Type.
  assert (∀ o, rsp_code o ≠ DHO_DHCP_MESSAGE_TYPE →
    preserves dressed (change_resp (rsp_replace o) : ST (Exchange M) _)) as Ho.
  { intros o Ho. apply dressed_change_resp. intros r. by apply answer_replace. }
  destruct fqdn as [f|]; apply (preserves_lift_bind _); [intros f' _; by apply Ho|].
  intros o [n ->]%mkHostname_plain. by apply Ho.
Qed.

(** The names of a granted lease: whatever is written goes to its address. *)
Lemma wp_update_names x0 x fake fqdn opt_hostname l (Q : Lease4 → Exchange M → Prop) E :
  kept x0 x → free (query_ x0) (eng x0) (addr_ l) →
  (getType (query_ x0) = Ok DHCPDISCOVER → fake = true) →
  (∀ l' x', kept x0 x' → answer_of <$> resp_ x' = answer_of <$> resp_ x → Q l' x') →
  (∀ e x', kept x0 x' → E e x') →
  wp (update_names fake fqdn opt_hostname l) x Q E.
Proof.
  intros K Hfree Hfake HQ HE. unfold update_names. destruct (_ && _); [by apply wp_ret, HQ|].
  apply wp_bind, wp_observes; [preserve| |by intros; apply HE]. intros host.
  destruct (new_name _ _ _) as [name|]; [|by apply wp_ret, HQ]. cbv zeta.
  apply wp_bind, wp_zoom, wp_modify. cbn. match goal with |- wp _ (with_eng (with_ctx ?c _) _) _ _ =>
    pose proof (kept_ctx x0 x c K) as K1; set (x1 := with_eng (with_ctx c (eng x)) x) in * end.
  assert (resp_ x1 = resp_ x) as Er by done. rewrite <- Er in HQ. clearbody x1. clear Er.
  apply wp_bind, wp_try_catch. fold (rename fqdn name).
  assert (∀ e x2, kept x0 x2 → answer_of <$> resp_ x2 = answer_of <$> resp_ x1 →
    if catchable e then wp (mret tt) x2 (λ _ x', wp (mret (with_name l name)) x' Q E) E else E e x2) as Hend.
  { intros e x2 K2 E2. destruct (catchable e); [|by apply HE]. apply wp_ret, wp_ret. by apply HQ. }
  assert (∀ x2, kept x0 x2 → resp_ x2 = resp_ x1 → wp (rename fqdn name) x2
    (λ _ x', wp (mret (with_name l name)) x' Q E)
    (λ e x', if catchable e then wp (mret tt) x' (λ _ x', wp (mret (with_name l name)) x' Q E) E
             else E e x')) as Hrest.
  { intros x2 K2 E2. eapply wp_preserves; [apply dressed_rename| |]; intros ? x3 Hd.
    - apply wp_ret, HQ; [etrans; [exact K2|by apply idle_kept, dressed_idle]|].
      by rewrite (dressed_answer _ _ Hd), E2.
    - apply Hend; [etrans; [exact K2|by apply idle_kept, dressed_idle]|].
      by rewrite (dressed_answer _ _ Hd), E2. }
  apply wp_bind. destruct fake; cbn [negb]; [by apply wp_ret, Hrest|].
  assert (getType (query_ x0) ≠ Ok DHCPDISCOVER) as Ht by (intros Ht; by specialize (Hfake Ht)).
  apply wp_zoom, wp_zoom. eapply wp_mono; [apply lm_updateLease4_spec| |].
  - intros _ d [_ Hd]. apply Hrest; [|done]. eapply kept_at; [done|done|exact Hfree|done|].
    cbn. intros b Hb. by rewrite Hd, lookup_insert_ne.
  - intros e d [He Hd]. apply Hend; [|done]. eapply kept_at; [done|done|exact Hfree|done|].
    cbn. by rewrite Hd.
Qed.

Lemma dressed_append_timers p sub l : preserves dressed (append_timers p sub l : ST (Exchange M) _).
Proof using Type.
  assert (∀ c v, preserves dressed (addOption (Uint32 c v) : ST (Exchange M) _)) as Ha.
  { intros c v. by apply dressed_addOption. }
  unfold append_timers. preserve.
Qed.

(** How a message of which the first response has type [t] can end. *)
Definition lease_assigned (t : Z) x0 x : Prop :=
  resp_ x = None ∨ refused x ∨
  ∃ a, answer_of <$> resp_ x = Some (t, a) ∧ free (query_ x0) (eng x0) a.

Lemma wp_grant x0 x fake fqdn opt_hostname p l t a0 :
  kept x0 x → free (query_ x0) (eng x0) (addr_ l) →
  (getType (query_ x0) = Ok DHCPDISCOVER → fake = true) →
  answer_of <$> resp_ x = Some (t, a0) →
  wp (grant fake fqdn opt_hostname p l) x (λ _ x', kept x0 x' ∧ lease_assigned t x0 x') (λ _ x', kept x0 x').
Proof.
  intros K Hfree Hfake Ha.
  set (G := λ x', kept x0 x' ∧ answer_of <$> resp_ x' = Some (t, addr_ l)).
  assert (∀ x1 x2, G x1 → dressed x1 x2 → G x2) as Hd.
  { intros x1 x2 [K1 A1] Hd. split; [etrans; [exact K1|by apply idle_kept, dressed_idle]|].
    by rewrite (dressed_answer _ _ Hd). }
  assert (∀ x1, G x1 → kept x0 x1 ∧ lease_assigned t x0 x1) as HG.
  { intros x1 [K1 A1]. split; [done|]. right. right. by exists (addr_ l). }
  apply wp_bind, wp_bind, wp_get, wp_ret, wp_bind. apply wp_change_resp; [exact K|]. intros r Er.
  assert (G (with_resp (Some (setYiaddr (addr_ l) r)) x)) as G1.
  { split; [etrans; [exact K|by apply idle_kept, idle_same]|]. cbn. unfold answer_of. cbn.
    rewrite Er in Ha. injection Ha as <- _. done. }
  revert G1. generalize (with_resp (Some (setYiaddr (addr_ l) r)) x). intros x1 G1.
  apply wp_bind. eapply wp_preserves with (R := dressed).
  { destruct fake; [apply (preserves_ret _)|by apply dressed_change_resp]. }
  2: { intros e x2 Hx2. by destruct (Hd _ _ G1 Hx2). }
  intros _ x2 Hx2. pose proof (Hd _ _ G1 Hx2) as G2. clear x1 G1 Hx2.
  apply wp_bind. destruct G2 as [K2 A2]. eapply wp_update_names; [exact K2|exact Hfree|exact Hfake| |done].
  intros l' x3 K3 A3. rewrite A2 in A3. apply wp_bind, wp_observes; [preserve| |done]. intros sub.
  apply wp_dressed; [apply dressed_append_timers|intros e x4 Hx4; by destruct (Hd _ _ (conj K3 A3) Hx4)|].
  intros _ x4 Hx4. pose proof (Hd _ _ (conj K3 A3) Hx4) as G4.
  destruct (negb fake && ddnsEnabled) eqn:Eb; [|by apply wp_ret, HG].
  apply andb_prop in Eb as [Eb _]. apply negb_true_iff in Eb.
  apply wp_bind, wp_observes; [preserve| |by intros; destruct G4]. intros c. apply wp_try_catch.
  assert (getType (query_ x0) ≠ Ok DHCPDISCOVER) as Ht by (intros Ht; specialize (Hfake Ht); congruence).
  destruct G4 as [K4 A4].
  eapply wp_quietly; [exact K4|exact Ht|apply quietly_createNameChangeRequests| |].
  - intros _ x5 K5 _ Er5 _. apply HG. split; [done|]. by rewrite Er5.
  - intros e x5 K5 _ Er5. destruct (catchable e); [|done]. apply wp_ret, HG. split; [done|]. by rewrite Er5.
Qed.

Lemma wp_refuse x0 x t a0 :
  kept x0 x → answer_of <$> resp_ x = Some (t, a0) → t ≠ DHCP_NOTYPE →
  wp refuse x (λ _ x', kept x0 x' ∧ refused x') (λ _ x', kept x0 x').
Proof.
  intros K Ha Ht. apply wp_bind. eapply wp_mono; [by eapply wp_nak| |].
  - intros _ x1 [Hi Hr]. eapply wp_preserves; [apply dressed_change_resp| |].
    + intros r. by rewrite !answer_delete.
    + intros _ x2 Hd. unfold refused. rewrite (dressed_answer _ _ Hd). split; [|exact Hr].
      etrans; [exact K|]. etrans; [by apply idle_kept|by apply idle_kept, dressed_idle].
    + intros _ x2 Hd. etrans; [exact K|]. etrans; [by apply idle_kept|by apply idle_kept, dressed_idle].
  - intros e x1 Hi. etrans; [exact K|by apply idle_kept].
Qed.

Lemma wp_assignLease x t a0 :
  linked x → inv (eng x) → answer_of <$> resp_ x = Some (t, a0) → t ≠ DHCP_NOTYPE →
  wp assignLease x (λ _ x', kept x x' ∧ lease_assigned t x x') (λ _ x', kept x x').
Proof.
  intros Hl Hinv Ha Ht.
  assert (∀ x', idle x x' → kept x x') as Hik by (intros x'; apply idle_kept).
  apply wp_bind, wp_bind, wp_get, wp_ret, wp_bind, wp_observes; [preserve| |reflexivity]. intros c.
  destruct (ctx_subnet_ c) as [p|].
  2: { eapply wp_mono; [by eapply wp_nak| |by auto]. intros _ x' [Hi Hr]. split; [by auto|]. right. by left. }
  cbv zeta. apply wp_bind, wp_lift. match goal with |- match ?h with Ok _ => _ | _ => _ end =>
    destruct h as [hint|e]; [|reflexivity] end.
  apply wp_bind, wp_lift. destruct (getType (query_ x)) as [type|e] eqn:Et; [|reflexivity].
  apply wp_bind. eapply wp_mono with (Q := λ (b : bool) x', if b then x' = x else idle x x' ∧ (resp_ x' = None ∨ refused x'))
    (E := λ _ x', idle x x').
  3: { intros e x' Hi. exact (Hik x' Hi). }
  { destruct (_ && _); [by eapply wp_init_reboot|by apply (wp_ret true)]. }
  intros [] x' Hx'; cbn [negb].
  2: { destruct Hx' as [Hi Hr]. apply wp_ret. split; [by apply Hik|]. destruct Hr as [Hr|Hr]; [by left|right; by left]. }
  subst x'. apply wp_bind. unfold the_resp. apply wp_bind, wp_get.
  destruct (resp_ x) as [r|] eqn:Er; [|done]. apply wp_ret.
  destruct (name_options r) as [fqdn opt_hostname]. apply wp_bind, wp_lift.
  destruct (lease_name fqdn opt_hostname) as [[[hostname fwd] rev]|e]; [|reflexivity].
  set (fake := type =? DHCPDISCOVER). apply wp_bind, wp_zoom, wp_modify.
  set (x1 := with_eng _ x).
  assert (linked x1) as Hl1 by exact Hl.
  assert (inv (eng x1)) as Hinv1 by (destruct Hinv; by split).
  assert (getType (query_ x1) = Ok DHCPDISCOVER → fake = true) as Hf.
  { cbn. rewrite Et. intros [= ->]. reflexivity. }
  assert (kept x x1) as K1.
  { apply Hik. split; [done|]. unfold x1. cbn. by destruct (eng x). }
  apply wp_bind. eapply wp_mono; [by apply wp_in_allocate| |].
  2: { intros e x2 K2. by etrans. }
  intros l x2 (K2 & Er2 & Hfree). assert (kept x x2) as K by by etrans.
  assert (answer_of <$> resp_ x2 = Some (t, a0)) as Ha2 by (rewrite Er2; cbn; by rewrite Er).
  apply wp_bind, wp_observes; [preserve| |by intros]. intros p'. destruct l as [l|].
  - eapply wp_grant; [exact K|exact (Hfree l eq_refl)|exact Hf|exact Ha2].
  - eapply wp_mono; [by eapply wp_refuse| |done]. intros _ x3 [K3 Hr]. split; [done|]. right. by left.
Qed.

(** ** The messages *)

(** What is sent for a message of a type. *)
Definition fitting (type : Z) x0 (rsp : option Rsp) : Prop :=
  match rsp with
  | None => True
  | Some r =>
      (type = DHCPDISCOVER ∧ rsp_type r = DHCPOFFER ∧ free (query_ x0) (eng x0) (r_yiaddr_ (header r))) ∨
      (type = DHCPREQUEST ∧
        (answer_of r = (DHCPNAK, IPV4_ZERO_ADDRESS) ∨
         rsp_type r = DHCPACK ∧ free (query_ x0) (eng x0) (r_yiaddr_ (header r)))) ∨
      (type = DHCPINFORM ∧ answer_of r = (DHCPACK, IPV4_ZERO_ADDRESS))
  end.

Lemma free_idle x0 x a : idle x0 x → free (query_ x) (eng x) a → free (query_ x0) (eng x0) a.
Proof.
  intros Hi Hf l Hl Hs. destruct (idle_fields _ _ Hi) as [_ (Ed & _)]. rewrite <- Ed in Hl.
  apply (Hf l Hl). eapply stranger_sender; [|exact Hs]. destruct Hi as [E _]. exact (f_equal fst E).
Qed.

(** The common start of a DHCPDISCOVER and a DHCPREQUEST. *)
Lemma wp_start x type t {A} (k : bool → ST (Exchange M) A) Q E :
  resp_ x = None → getType (query_ x) = Ok type → config_ok (eng x) →
  first_answer type = Some (t, IPV4_ZERO_ADDRESS) → t ≠ DHCP_NOTYPE →
  (∀ e x', kept x x' → E e x') →
  (∀ x', kept x x' → wp (k true) x' Q E) →
  (∀ x', kept x x' → (resp_ x' = None ∨ refused x' ∨
     ∃ a, answer_of <$> resp_ x' = Some (t, a) ∧ free (query_ x) (eng x) a) → wp (k false) x' Q E) →
  wp (drop ← begin_exchange;
      if (drop : bool) then k true else _ ← processClientName; _ ← assignLease; k false) x Q E.
Proof.
  intros Hnone Ht Hok Hfirst Hne HE Hdrop Hgo. apply wp_bind.
  eapply wp_mono; [by apply (wp_begin_exchange x type)| |].
  2: { intros e x' Hi. by apply HE, idle_kept. }
  intros drop x1 [(Hi1 & Hl1 & Hv1) Ha1]. destruct drop; [by apply Hdrop, idle_kept|].
  specialize (Hv1 Hok). rewrite Hfirst in Ha1.
  apply wp_dressed; [apply dressed_processClientName| |].
  { intros e x2 Hd. apply HE. etrans; [by apply idle_kept|by apply idle_kept, dressed_idle]. }
  intros _ x2 Hd. assert (idle x x2) as Hi2 by (etrans; [exact Hi1|by apply dressed_idle]).
  apply wp_bind. eapply wp_mono; [eapply wp_assignLease| |].
  - by eapply linked_dressed.
  - by eapply inv_dressed.
  - by rewrite (dressed_answer _ _ Hd).
  - done.
  - intros _ x3 [K3 Ha]. apply Hgo; [etrans; [by apply idle_kept|exact K3]|].
    destruct Ha as [Ha|[Ha|(a & Ha & Hf)]]; [by left|by right; left|]. right. right. exists a.
    split; [done|]. by eapply free_idle.
  - intros e x3 K3. apply HE. etrans; [by apply idle_kept|exact K3].
Qed.

Lemma kept_dressed x0 x x' : kept x0 x → dressed x x' → kept x0 x'.
Proof. intros K Hd. etrans; [exact K|by apply idle_kept, dressed_idle]. Qed.

(** The last steps only dress the response. *)
Definition answering x0 (t : Z) (a : IOAddress) x : Prop :=
  kept x0 x ∧ answer_of <$> resp_ x = Some (t, a).

Lemma wp_dress {A B} (m : ST (Exchange M) A) (f : A → ST (Exchange M) B) x0 x t a (Q : B → Exchange M → Prop) :
  preserves dressed m → answering x0 t a x →
  (∀ v x', answering x0 t a x' → wp (f v) x' Q (λ _ x', kept x0 x')) →
  wp (m ≫= f) x Q (λ _ x', kept x0 x').
Proof.
  intros Hm [K A0] HQ. apply wp_dressed; [exact Hm|by intros e x'; apply kept_dressed|].
  intros v x' Hd. apply HQ. split; [by eapply kept_dressed|by rewrite (dressed_answer _ _ Hd)].
Qed.

Lemma wp_ex_response x0 x t a (Q : option Rsp → Exchange M → Prop) E :
  answering x0 t a x →
  (∀ r x', kept x0 x' → answer_of r = (t, a) → Q (Some r) x') → wp ex_response x Q E.
Proof using Type.
  intros [K Ha] HQ. apply wp_bind, wp_get, wp_ret. destruct (resp_ x) as [r|]; [|done].
  injection Ha as Ha1 Ha2. apply HQ; [done|]. unfold answer_of. congruence.
Qed.

Lemma wp_processDiscover x :
  resp_ x = None → getType (query_ x) = Ok DHCPDISCOVER → config_ok (eng x) →
  wp processDiscover x (λ rsp x', kept x x' ∧ fitting DHCPDISCOVER x rsp) (λ _ x', kept x x').
Proof.
  intros Hnone Ht Hok. apply wp_bind, wp_bind, wp_get, wp_ret, wp_bind, wp_lift.
  destruct (sanityCheck _ _); [|reflexivity].
  apply (wp_start x DHCPDISCOVER DHCPOFFER (λ b : bool, if b then mret None else
    r ← ex_response;
    match r with
    | None => mret None
    | Some r =>
        if isV4Zero (r_yiaddr_ (header r)) then mret None
        else
          _ ← add_options; _ ← setFixedFields; _ ← adjustIfaceData; _ ← appendServerID; ex_response
    end)); [done|done|done|done|done|by auto| |].
  { intros x1 K1. by apply wp_ret. }
  intros x1 K1 Ha. apply wp_bind, wp_bind, wp_get, wp_ret.
  destruct (resp_ x1) as [r|] eqn:Er; [|by apply wp_ret].
  destruct (isV4Zero (r_yiaddr_ (header r))) eqn:Ez; [by apply wp_ret|].
  destruct Ha as [?|[Ha|(ad & Ha & Hf)]]; [done| |].
  { unfold refused in Ha. rewrite Er in Ha. injection Ha as _ Ha. rewrite Ha in Ez. discriminate Ez. }
  eapply wp_dress; [apply dressed_add_options|by split; [|rewrite Er]|]. intros _ x2 G2.
  eapply wp_dress; [apply dressed_setFixedFields|exact G2|]. intros _ x3 G3.
  eapply wp_dress; [apply dressed_adjustIfaceData|exact G3|]. intros _ x4 G4.
  eapply wp_dress; [apply dressed_appendServerID|exact G4|]. intros _ x5 G5.
  eapply wp_ex_response; [exact G5|]. intros r' x6 K6 A6. split; [done|]. left.
  injection A6 as A6 A7. by rewrite A7.
Qed.

Lemma wp_processRequest x :
  resp_ x = None → getType (query_ x) = Ok DHCPREQUEST → config_ok (eng x) →
  wp processRequest x (λ rsp x', kept x x' ∧ fitting DHCPREQUEST x rsp.1) (λ _ x', kept x x').
Proof.
  intros Hnone Ht Hok.
  apply (wp_start x DHCPREQUEST DHCPACK (λ b : bool, if b then mret (None, None) else
    r ← ex_response;
    match r with
    | None => mret (None, None)
    | Some r =>
        _ ← (if isV4Zero (r_yiaddr_ (header r)) then mret tt
             else _ ← add_options; setFixedFields);
        _ ← adjustIfaceData;
        _ ← appendServerID;
        r ← ex_response;
        c ← exchange_ctx;
        mret (r, Some (old_lease_ c, new_lease_ c))
    end)); [done|done|done|done|done|by auto| |].
  { intros x1 K1. by apply wp_ret. }
  intros x1 K1 Ha. apply wp_bind, wp_bind, wp_get, wp_ret.
  destruct (resp_ x1) as [r|] eqn:Er; [|by apply wp_ret].
  assert (∃ t ad, answering x t ad x1 ∧ ∀ r', answer_of r' = (t, ad) → fitting DHCPREQUEST x (Some r'))
    as (t & ad & G1 & Hfit).
  { destruct Ha as [?|[Ha|(ad & Ha & Hf)]]; [done| |].
    - exists DHCPNAK, IPV4_ZERO_ADDRESS. split; [by split|].
      intros r' Hr'. right. left. auto.
    - exists DHCPACK, ad. split; [by split; [|rewrite Er]|].
      intros r' [= Hr1 Hr2]. right. left. rewrite Hr2. auto. }
  eapply wp_dress; [|exact G1|].
  { destruct (isV4Zero _); [apply (preserves_ret _)|].
    apply (preserves_bind _); [apply dressed_add_options|intros _; apply dressed_setFixedFields]. }
  intros _ x3 G3.
  eapply wp_dress; [apply dressed_adjustIfaceData|exact G3|]. intros _ x4 G4.
  eapply wp_dress; [apply dressed_appendServerID|exact G4|]. intros _ x5 G5.
  apply wp_bind. eapply wp_ex_response; [exact G5|]. intros r' x6 K6 A6.
  apply wp_dressed; [apply dressed_exchange_ctx|by intros e x7; apply kept_dressed|].
  intros c x7 Hd. apply wp_ret. split; [by eapply kept_dressed|by apply Hfit].
Qed.

Lemma wp_processInform x :
  resp_ x = None → getType (query_ x) = Ok DHCPINFORM →
  wp processInform x (λ rsp x', kept x x' ∧ fitting DHCPINFORM x rsp) (λ _ x', kept x x').
Proof.
  intros Hnone Ht. apply wp_bind, wp_bind, wp_get, wp_ret, wp_bind, wp_lift.
  destruct (sanityCheck _ _); [|reflexivity]. apply wp_bind.
  eapply wp_mono; [by apply (wp_begin_exchange x DHCPINFORM)| |].
  2: { intros e x' Hi. by apply idle_kept. }
  intros drop x1 [(Hi1 & _) Ha1]. apply idle_kept in Hi1. destruct drop; [by apply wp_ret|].
  eapply wp_dress; [apply dressed_add_options|split; [exact Hi1|exact Ha1]|]. intros _ x2 G2.
  eapply wp_dress; [apply dressed_adjustIfaceData|exact G2|]. intros _ x3 G3.
  eapply wp_dress; [apply dressed_setFixedFields|exact G3|]. intros _ x4 G4.
  eapply wp_dress; [|exact G4|].
  { apply dressed_change_resp. intros r. destruct (negb _); [|done]. by rewrite answer_delete. }
  intros _ x5 G5.
  eapply wp_dress; [apply dressed_appendServerID|exact G5|]. intros _ x6 G6.
  eapply wp_ex_response; [exact G6|]. intros r' x7 K7 A7. split; [done|]. right. by right.
Qed.

(** Callouts of the server do not change the address of a lease, nor who has sent a message
    and its type. *)
Class ServerHooksOk : Prop := {
  release_addr : ∀ callout q l, lease4_release = Some callout → addr_ (callout q l).2 = addr_ l;
  decline_addr : ∀ callout q l, lease4_decline = Some callout → addr_ (callout q l).2 = addr_ l;
  receive_sender : ∀ callout q, pkt4_receive = Some callout → sender_type (callout q).2 = sender_type q
}.
Context `{!ServerHooksOk}.

Lemma own_client q l id :
  query_client_id q = Ok id → belongsToClient l (getHWAddr q) id = true → own q l.
Proof using Type.
  unfold query_client_id. destruct (q_option q DHO_DHCP_CLIENT_IDENTIFIER) as [o|] eqn:Eo.
  - intros E Hb. res_inv. unfold mkClientId in Ha. res_inv. right. by exists o.
  - intros [= <-] Hb. by left.
Qed.
Lemma own_free q s a l :
  lm_getLease4 a (db s) = Some l → own q l → free q s a.
Proof.
  intros Hl Ho l' Hl' [_ Hs]. rewrite lm_getLease4_eq in Hl. congruence.
Qed.
Lemma lease_addr s a l : lm_getLease4 a (db s) = Some l → addr_ l = a.
Proof. rewrite lm_getLease4_eq. apply lm_leases_addr. Qed.

(** A change of the engine's state that [kept_at] and [kept_quiet] allow. *)
Definition at_address (a : IOAddress) s s' : Prop :=
  heap s' = heap s ∧ ∀ b, b ≠ a → lm_leases (db s') !! b = lm_leases (db s) !! b.

#[export] Instance at_address_preorder a : PreOrder (at_address a).
Proof.
  split; [done|]. intros s1 s2 s3 [E1 F1] [E2 F2]. split; [congruence|].
  intros b Hb. by rewrite F2, F1.
Qed.

Lemma at_address_quietly {A} (m : ST (State M) A) a P :
  (∀ s, quietly m s P) → preserves (at_address a) m.
Proof.
  intros Hm s. specialize (Hm s). unfold quietly, wp in Hm.
  assert (∀ s', quiet s s' → at_address a s s') as Hq by (intros s' (E1 & E2 & _); split; congruence).
  destruct (m s) as [s' [v|e]]; apply Hq, Hm.
Qed.
Lemma at_address_stat a n d : preserves (at_address a) (stat_add n d).
Proof. apply (at_address_quietly _ _ (λ _, True)). intros s. apply quietly_stat_add. Qed.
Lemma at_address_ncr a t l : preserves (at_address a) (queueNCR t l).
Proof. apply (at_address_quietly _ _ (λ _, True)). intros s. apply quietly_queueNCR. Qed.
Lemma at_address_delete a : preserves (at_address a) (in_db (lm_deleteLease a)).
Proof.
  intros s. pose proof (lm_deleteLease_spec a (db s)) as Hd. unfold in_db, zoom. unfold wp in Hd.
  destruct (lm_deleteLease a (db s)) as [d [b|e]]; destruct Hd as [_ Hd]; (split; [done|]); cbn; intros c Hc.
  - by rewrite Hd, lookup_delete_ne.
  - by rewrite Hd.
Qed.
Lemma at_address_update a l : addr_ l = a → preserves (at_address a) (in_db (lm_updateLease4 l)).
Proof.
  intros <- s. pose proof (lm_updateLease4_spec l (db s)) as Hd. unfold in_db, zoom. unfold wp in Hd.
  destruct (lm_updateLease4 l (db s)) as [d [b|e]]; destruct Hd as [_ Hd]; (split; [done|]); cbn; intros c Hc.
  - by rewrite Hd, lookup_insert_ne.
  - by rewrite Hd.
Qed.

Lemma at_address_release q l : preserves (at_address (addr_ l)) (release_lease4 q l).
Proof.
  unfold release_lease4.
  assert (addr_ (match lease4_release with
                 | Some callout => callout q l
                 | None => (NEXT_STEP_CONTINUE, l)
                 end).2 = addr_ l) as Ha.
  { destruct lease4_release eqn:E; [by apply release_addr|done]. }
  destruct (match lease4_release with Some _ => _ | None => _ end) as [status l']. cbn in Ha.
  destruct (_ || _); [apply (preserves_ret _)|]. rewrite <- Ha.
  apply (preserves_bind _); [apply at_address_delete|]. intros [|]; [|apply (preserves_ret _)].
  apply (preserves_bind _); [|intros _; apply (preserves_ret _)].
  apply (preserves_try_catch _); [|apply (preserves_ret _)].
  apply (preserves_bind _); [apply at_address_stat|intros _; apply at_address_ncr].
Qed.
Lemma at_address_decline q l : preserves (at_address (addr_ l)) (declineLease q l).
Proof.
  unfold declineLease.
  assert (addr_ (match lease4_decline with
                 | Some callout => callout q l
                 | None => (NEXT_STEP_CONTINUE, l)
                 end).2 = addr_ l) as Ha.
  { destruct lease4_decline eqn:E; [by apply decline_addr|done]. }
  destruct (match lease4_decline with Some _ => _ | None => _ end) as [status l']. cbn in Ha.
  destruct (_ || _); [apply (preserves_ret _)|]. rewrite <- Ha.
  apply (preserves_bind _); [apply at_address_ncr|intros _].
  apply (preserves_bind _); [apply at_address_stat|intros _].
  apply (preserves_bind _); [apply at_address_stat|intros _].
  apply (preserves_bind _); [by apply at_address_update|intros _; apply (preserves_ret _)].
Qed.

Lemma wp_own_address x q l a {A} (m : ST (State M) A) :
  getType (query_ x) ≠ Ok DHCPDISCOVER → q = query_ x → lm_getLease4 a (db (eng x)) = Some l →
  own q l → preserves (at_address (addr_ l)) m →
  wp m (eng x) (λ _ s, kept x (with_eng s x)) (λ _ s, kept x (with_eng s x)).
Proof.
  intros Ht -> Hl Ho Hm. eapply wp_preserves; [exact Hm| |]; intros ? s [Eh Ed];
    (eapply kept_at; [reflexivity|exact Ht| |exact Eh|exact Ed]);
    rewrite (lease_addr _ _ _ Hl); by eapply own_free.
Qed.

Lemma kept_id x : kept x (with_eng (eng x) x).
Proof. by destruct x. Qed.

Lemma wp_processRelease x :
  getType (query_ x) ≠ Ok DHCPDISCOVER →
  wp (in_engine (processRelease (query_ x))) x (λ _ x', kept x x') (λ _ x', kept x x').
Proof.
  intros Ht. apply wp_zoom, wp_bind, wp_lift. destruct (query_client_id (query_ x)) as [id|e] eqn:Ei;
    [|apply kept_id].
  apply wp_try_catch. eapply wp_mono with (Q := λ _ s, kept x (with_eng s x)) (E := λ _ s, kept x (with_eng s x)).
  - apply wp_bind, wp_bind, wp_get, wp_ret.
    destruct (lm_getLease4 _ (db (eng x))) as [l|] eqn:El; [|apply wp_ret, kept_id].
    destruct (negb (belongsToClient _ _ _)) eqn:Eb; [apply wp_ret, kept_id|].
    apply negb_false_iff in Eb.
    eapply wp_own_address; [exact Ht|done|exact El|by eapply own_client|apply at_address_release].
  - done.
  - intros e s K. by destruct (catchable e).
Qed.

Lemma wp_processDecline x :
  getType (query_ x) ≠ Ok DHCPDISCOVER →
  wp (in_engine (processDecline (query_ x))) x (λ _ x', kept x x') (λ _ x', kept x x').
Proof.
  intros Ht. apply wp_zoom. unfold processDecline.
  destruct (custom_buffers _) as [buffers|]; [|apply wp_throw, kept_id].
  apply wp_bind, wp_lift. destruct (readAddress buffers 0) as [a|e]; [|apply kept_id].
  apply wp_bind, wp_bind, wp_get, wp_ret.
  destruct (lm_getLease4 a (db (eng x))) as [l|] eqn:El; [|apply wp_ret, kept_id].
  apply wp_bind, wp_lift. destruct (query_client_id (query_ x)) as [id|e] eqn:Ei; [|apply kept_id].
  destruct (negb (belongsToClient _ _ _)) eqn:Eb; [apply wp_ret, kept_id|]. apply negb_false_iff in Eb.
  eapply wp_own_address; [exact Ht|done|exact El|by eapply own_client|apply at_address_decline].
Qed.

Lemma wp_dispatch x type :
  resp_ x = None → getType (query_ x) = Ok type → config_ok (eng x) →
  wp (dispatch type) x (λ rsp x', kept x x' ∧ fitting type x rsp.1) (λ _ x', kept x x').
Proof.
  intros Hnone Ht Hok. apply wp_bind, wp_bind, wp_get, wp_ret.
  destruct (Z.eqb_spec type DHCPDISCOVER) as [->|Hd].
  { apply wp_bind. eapply wp_mono; [by apply wp_processDiscover| |done]. intros rsp x' Hx'. by apply wp_ret. }
  assert (getType (query_ x) ≠ Ok DHCPDISCOVER) as Hne by congruence.
  destruct (Z.eqb_spec type DHCPREQUEST) as [->|Hr]; [by apply wp_processRequest|].
  destruct (type =? DHCPRELEASE).
  { apply wp_bind. eapply wp_mono; [by apply wp_processRelease| |done]. intros c x' Hx'. by apply wp_ret. }
  destruct (type =? DHCPDECLINE).
  { apply wp_bind. eapply wp_mono; [by apply wp_processDecline| |done]. intros c x' Hx'. by apply wp_ret. }
  destruct (Z.eqb_spec type DHCPINFORM) as [->|Hi]; [|by apply wp_ret].
  apply wp_bind. eapply wp_mono; [by apply wp_processInform| |done]. intros rsp x' Hx'. by apply wp_ret.
Qed.

(** ** Processing a packet *)

(** The state has the leases and requests of another one, and its subnets. *)
Definition alike s s' : Prop := heap s' = heap s ∧ db s' = db s ∧ ncrs s' = ncrs s.

#[export] Instance alike_preorder : PreOrder alike.
Proof using Type. split; [done|]. intros s1 s2 s3 (? & ? & ?) (? & ? & ?). split_and!; congruence. Qed.

Lemma alike_stat n d : preserves alike (stat_add n d : ST (State M) _).
Proof using Type. intros s. unfold stat_add, zoom. by destruct (addValue _ _ _ _). Qed.
Lemma alike_idle x x' : idle x x' → alike (eng x) (eng x').
Proof using Type. intros Hi. destruct (idle_fields _ _ Hi) as (? & ? & ? & ? & _). by split_and!. Qed.

(** What holds when a message of the client has been processed from state [s] on. *)
Definition processed q s s' (answer : option Answer) : Prop :=
  spared q s s' ∧ config_ok s' ∧
  (getType q = Ok DHCPDISCOVER → db s' = db s ∧ ncrs s' = ncrs s) ∧
  match answer with
  | Some (Send r) | Some (Park r) => ∃ type x0, getType q = Ok type ∧
      sender (query_ x0) = sender q ∧ db (eng x0) = db s ∧ fitting type x0 (Some r)
  | _ => True
  end.

Lemma processed_alike q s s' : config_ok s → alike s s' → processed q s s' (Some NoAnswer).
Proof.
  intros Hok (Eh & Ed & En). split_and!; [by apply spared_db; rewrite Ed|by eapply config_ok_heap|done|done].
Qed.

Lemma answer_rsp q rsp c b :
  match answer q rsp c b with Send r | Park r => rsp = Some r | NoAnswer => True end.
Proof using Type.
  unfold answer. cbv zeta. destruct rsp as [r|]; [|done].
  destruct (decide _); [done|]. by destruct (_ && _).
Qed.

(** Before the message is dispatched. *)
Definition prepared x x' : Prop :=
  alike (eng x) (eng x') ∧ sender_type (query_ x') = sender_type (query_ x) ∧
  answer_of <$> resp_ x' = answer_of <$> resp_ x.

#[export] Instance prepared_preorder : PreOrder prepared.
Proof using Type.
  split; [done|]. intros x1 x2 x3 (A1 & B1 & C1) (A2 & B2 & C2). split_and!; [by etrans|congruence|congruence].
Qed.
Lemma prepared_stat n d : preserves prepared (in_engine (stat_add n d) : ST (Exchange M) _).
Proof using Type.
  eapply preserves_zoom; [apply alike_stat|]. intros x s Hs. by split_and!.
Qed.
Lemma prepared_dressed x x' : dressed x x' → prepared x x'.
Proof using Type.
  intros Hd. split_and!; [by apply alike_idle, dressed_idle|apply (dressed_idle _ _ Hd)|by apply dressed_answer].
Qed.

(** After the dispatch. *)
Definition dispatched x (rsp : option Rsp) x' : Prop :=
  ∃ x1, kept x x1 ∧ alike (eng x1) (eng x') ∧
        (rsp = None ∨ ∃ type, getType (query_ x) = Ok type ∧ fitting type x rsp).

Lemma wp_dispatch_or_drop x q :
  resp_ x = None → config_ok (eng x) → q = query_ x →
  wp (try_catch (type ← lift (getType q); dispatch type)
        (_ ← in_engine (stat_add "pkt4-receive-drop" 1); mret (None, None))) x
    (λ rsp x', dispatched x rsp.1 x') (λ _ x', dispatched x None x').
Proof.
  intros Hnone Hok ->. apply wp_try_catch.
  assert (∀ x', kept x x' → dispatched x None x') as Hk.
  { intros x' K. exists x'. split_and!; [done|reflexivity|by left]. }
  assert (∀ (e : exc) x', kept x x' →
    if catchable e
    then wp (_ ← in_engine (stat_add "pkt4-receive-drop" 1); mret (None, None : option Committed)) x'
           (λ rsp x'', dispatched x rsp.1 x'') (λ _ x'', dispatched x None x'')
    else dispatched x None x') as Hcatch.
  { intros e x' K. destruct (catchable e); [|by apply Hk]. apply wp_bind.
    eapply wp_preserves; [apply prepared_stat| |]; intros ? x'' (Ha & _); [apply wp_ret|];
      exists x'; auto. }
  apply wp_bind, wp_lift. destruct (getType (query_ x)) as [type|e] eqn:Et; [|by apply Hcatch].
  eapply wp_mono; [by apply wp_dispatch| |by apply Hcatch].
  intros [rsp c] x' [K Hf]. exists x'. split_and!; [done..|]. right. by exists type.
Qed.

Lemma processed_dispatched q s x rsp x' a :
  config_ok s → alike s (eng x) → sender_type (query_ x) = sender_type q → dispatched x rsp x' →
  match a with Some (Send r) | Some (Park r) => rsp = Some r | _ => True end →
  processed q s (eng x') a.
Proof.
  intros Hok (Eh & Ed & En) Es (x1 & [K1 K2 K3 K4] & (Eh' & Ed' & En') & Hr) Ha.
  injection Es as Eq1 Eq2 Eq3. split_and!.
  - intros b l Hb Hl. rewrite Ed'. apply K3; [by rewrite Ed|].
    eapply stranger_sender; [|exact Hl]. unfold sender. congruence.
  - eapply config_ok_heap; [exact Eh'|]. apply K2. by eapply config_ok_heap.
  - intros Ht. destruct K4 as (E1 & E2 & E3 & _); [congruence|]. split; congruence.
  - destruct a as [[|r|r]|]; [done| | |done]; subst rsp; (destruct Hr as [?|(type & Et & Hf)]; [done|]);
      exists type, x; (split_and!; [congruence|unfold sender; congruence|done|done]).
Qed.

Lemma wp_processPacket x allow_park :
  resp_ x = None → config_ok (eng x) →
  wp (processPacket allow_park) x
    (λ a x', processed (query_ x) (eng x) (eng x') (Some a))
    (λ _ x', processed (query_ x) (eng x) (eng x') None).
Proof.
  intros Hnone Hok.
  assert (∀ x', prepared x x' → processed (query_ x) (eng x) (eng x') (Some NoAnswer)) as Hno.
  { intros x' (Ha & _). by apply processed_alike. }
  assert (∀ x', prepared x x' → processed (query_ x) (eng x) (eng x') None) as Hexn.
  { intros x' Hx'. exact (Hno x' Hx'). }
  apply wp_bind, wp_bind, wp_get, wp_ret, wp_bind.
  eapply wp_preserves; [apply prepared_stat| |by auto]. intros _ x1 Hx1.
  apply wp_dressed; [apply dressed_in_pkt, preserves_classifyPacket4| |].
  { intros e x2 Hd. apply Hexn. etrans; [exact Hx1|by apply prepared_dressed]. }
  intros _ x2 Hd. assert (prepared x x2) as Hx2 by (etrans; [exact Hx1|by apply prepared_dressed]).
  apply wp_bind, wp_get, wp_bind, wp_lift. destruct (accept _ _) as [ok|e]; [|by auto].
  destruct ok; cbn [negb].
  2: { apply wp_bind. eapply wp_preserves; [apply prepared_stat| |]; intros ? x3 Hx3;
         assert (prepared x x3) by (by etrans); [by apply wp_ret, Hno|by apply Hexn]. }
  assert (sender_type (match pkt4_receive with
                       | Some callout => callout (query_ x2)
                       | None => (NEXT_STEP_CONTINUE, query_ x2)
                       end).2 = sender_type (query_ x)) as Hq.
  { destruct Hx2 as (_ & <- & _). destruct pkt4_receive eqn:E; [by apply receive_sender|done]. }
  destruct (match pkt4_receive with Some _ => _ | None => _ end) as [status q]. cbn in Hq.
  destruct (_ || _); [by apply wp_ret, Hno|].
  apply wp_bind, wp_modify. set (x3 := with_query q x2).
  assert (prepared x x3) as Hx3 by (destruct Hx2 as (? & _ & ?); by split_and!).
  assert (q = query_ x3) as Eq by done. clearbody x3. clear Hx1 Hx2 Hq Hd. pose proof Hx3 as (Ha3 & Hs3 & Hr3).
  assert (resp_ x3 = None) as Hnone3.
  { rewrite Hnone in Hr3. by destruct (resp_ x3). }
  assert (config_ok (eng x3)) as Hok3 by (by eapply config_ok_heap; [apply Ha3|]).
  apply wp_bind. eapply wp_mono; [by apply wp_dispatch_or_drop| |].
  - intros [rsp c] x4 Hx4. apply wp_bind, wp_bind, wp_get, wp_ret, wp_ret.
    eapply processed_dispatched; [done|exact Ha3|exact Hs3|exact Hx4|].
    pose proof (answer_rsp (query_ x4) rsp c allow_park) as Hr.
    destruct (answer (query_ x4) rsp c allow_park); [exact I|exact Hr|exact Hr].
  - intros e x4 Hx4.
    exact (processed_dispatched _ _ x3 None x4 None Hok Ha3 Hs3 Hx4 I).
Qed.

Lemma handle_packet_processed q allow_park s s' a :
  config_ok s → handle_packet q allow_park s = (s', a) →
  processed q s s' (match a with Ok a => Some a | Throw _ => None end).
Proof.
  intros Hok. unfold handle_packet. set (x := Build_Exchange _ _ _ _ _).
  pose proof (wp_processPacket x allow_park eq_refl Hok) as Hwp. unfold wp in Hwp.
  destruct (processPacket allow_park x) as [x' [a'|e]]; intros [= <- <-]; exact Hwp.
Qed.
End Exchanges.
