(* ===== verification/Dhcpv4Correct.v ===== *)
(** * What the DHCPv4 server promises

    The properties of [handle_packet], which takes a message from its arrival to the response,
    for every lease database and every source of reservations that keep their laws and for
    every configuration; the witnesses run the server with the in-memory database on the small
    configuration of [AllocEngine4Correct]. *)

From S2P Require Import Prelude IoAddress Pool Subnet SharedNetwork StatsMgr Lease LeaseMgr Host.
From S2P Require Import CfgHosts CsvLeaseFile4 LeaseStorage MemfileLeaseMgr.
From S2P Require Import DnsName Option4ClientFqdn D2ClientMgr Packet OptionSpace CfgOption CfgSubnets Token Eval ClientClass Classify.
From S2P Require Import EngineHeap AllocEngine4 AllocEngine4Safety AllocEngine4Correct Reclamation.
From S2P Require Import Dhcpv4Msg Dhcpv4Srv Dhcpv4Return Dhcpv4Steps Dhcpv4Options Dhcpv4Safety.
Local Open Scope Z_scope.

(** ** Messages and leases *)

Section Server.
Context {M : Type} `{LeaseMgrLaws M} `{HostMgrLaws} `{EngineConfig} `{!HooksOk} `{Dhcpv4Config}.
Context `{!ServerHooksOk} `{TextConversions} `{AddressText} `{OptionIndexes}.
Implicit Types (s : State M).



(** C3: a DHCPDISCOVER changes no lease and asks for no DNS update, whether it is answered or
    not. *)
Theorem discover_keeps_leases (q : Query) (allow_park : bool) s s' (r : res Answer)
    (Hs : config_ok s) (Ht : getType q = Ok DHCPDISCOVER)
    (E : handle_packet q allow_park s = (s', r)) :
  db s' = db s ∧ ncrs s' = ncrs s.
Proof using All.
  destruct (handle_packet_processed _ _ _ _ _ Hs E) as (_ & _ & Hd & _). by apply Hd.
Qed.
End Server.

(** ** A small server *)

Module ServerSample.
Definition no_fields (opts : CfgOption) : Subnet4Cfg :=
  {| cfg_siaddr_ := IPV4_ZERO_ADDRESS; cfg_sname_ := ""; cfg_filename_ := "";
     t1_specified := true; t2_specified := true; subnet_cfg_option_ := opts;
     subnet_server_id := None |}.

(** The subnets of [AllocEngine4Correct] on the interface eth0, with options. *)
Definition config_of (pool_opts opts global_opts : CfgOption) (d2 : D2ClientConfig)
    (select : _ → option Z → NextStep * option Z) : Dhcpv4Config := {|
  subnets4_ := [10; 20];
  cfg_subnet_net := <[10 := CfgSubnets.Sample.plain "eth0"]> (<[20 := CfgSubnets.Sample.plain ""]> ∅);
  cfg_network_net := ∅;
  subnet4_cfg := λ _, no_fields opts;
  network_cfg_option := λ _, mkCfgOption;
  network_server_ids := [];
  pool_cfg_option := λ _, pool_opts;
  host_cfg_option := λ _, mkCfgOption;
  class_cfg_option := λ _, mkCfgOption;
  global_cfg_option := global_opts;
  network_required_classes := λ _, [];
  subnet_required_classes := λ _, [];
  pool_required_classes := λ _, [];
  class_dictionary := new_dictionary;
  echo_client_id := true;
  identifier_types := [IDENT_HWADDR; IDENT_CIRCUIT_ID; IDENT_CLIENT_ID];
  decline_period := 86400;
  socket_udp := false;
  use_routing := false;
  ifaces := [{| if_name := "eth0"; if_addrs := [V4 0xC0000201]; if_sockets := [V4 0xC0000201] |}];
  direct_response_supported := true;
  d2_client_config := d2;
  host4_identifier := None;
  subnet4_select := Some select;
  pkt4_receive := None; lease4_release := None; lease4_decline := None; leases4_committed := None
|}.
Definition config (opts : CfgOption) (d2 : D2ClientConfig)
    (select : _ → option Z → NextStep * option Z) : Dhcpv4Config :=
  config_of mkCfgOption opts mkCfgOption d2 select.
Definition plain_config (opts : CfgOption) : Dhcpv4Config :=
  config opts (sample_d2_config false false RCM_NEVER) (λ _ p, (NEXT_STEP_CONTINUE, p)).

#[export] Instance no_text : AddressText := {| address_toText := λ a, "" |}.

(** A message of client [n] over eth0. *)
Definition byte_option (code : Z) (class : OptionClass) (data : list Z) (subs : list Option) : Option :=
  mkOption code data class (Ok "") (Ok data) subs.
Definition query (type n : Z) (ciaddr giaddr : IOAddress) (opts : list Option) : Query := {|
  pkt := {|
    pkt_kind := Pkt4 (Some (sample_hw n)) ciaddr IPV4_ZERO_ADDRESS IPV4_ZERO_ADDRESS giaddr;
    transid_ := 7; iface_ := "eth0"; local_addr_ := V4 0xC0000201; remote_addr_ := ciaddr;
    pkt_len := 300; options_ := byte_option DHO_DHCP_MESSAGE_TYPE (OptionUint8 type) [type] [] :: opts;
    classes_ := []; required_classes_ := [] |};
  q_hops_ := 0; q_flags_ := 0; q_ifindex_ := Some 2; q_remote_port_ := 68;
  q_local_hwaddr_ := None; q_remote_hwaddr_ := None |}.

Definition requested (a : Z) : Option :=
  let b := [a / 2 ^ 24; (a / 2 ^ 16) `mod` 256; (a / 2 ^ 8) `mod` 256; a `mod` 256] in
  byte_option DHO_DHCP_REQUESTED_ADDRESS (OptionCustom [b]) b [].
Definition server_id : Option :=
  byte_option DHO_DHCP_SERVER_IDENTIFIER (OptionCustom [[192; 0; 2; 1]]) [192; 0; 2; 1] [].

(** The server between two messages. *)
Definition idle_server (l : list Lease4) : State (Memfile4 ListStorage4) :=
  server (heap_of false HR_ALL HR_ALL) l (message 0 IPV4_ZERO_ADDRESS true).

Lemma idle_server_ok l : config_ok (idle_server l).
Proof. split; [apply heap_of_wf|intros p sub; apply heap_of_wf4]. Qed.

Lemma plain_hooks_ok opts d2 select : @ServerHooksOk (config opts d2 select).
Proof. by split. Qed.
End ServerSample.
Import ServerSample.

#[local] Existing Instance plain_engine.
#[local] Instance memory_leases : LeaseMgr (Memfile4 ListStorage4) := memfile_lease_mgr (λ _, true).
#[local] Instance no_hosts : HostMgr := cfg_host_mgr empty_cfg.
#[local] Existing Instances Sample.conversions no_text.
#[local] Instance no_options : Dhcpv4Config := plain_config mkCfgOption.
#[local] Instance no_options_hooks : @ServerHooksOk no_options := plain_hooks_ok _ _ _.

(** The type and the address of what is sent. *)
Definition sent (r : res Answer) : option (Z * IOAddress) :=
  match r with Ok (Send r) => Some (answer_of r) | _ => None end.




Lemma discover_keeps_leases_witness :
  let s := idle_server [lease_of 2 0xC000020A 1 5000] in
  let q := query DHCPDISCOVER 1 IPV4_ZERO_ADDRESS IPV4_ZERO_ADDRESS [] in
  config_ok s ∧ sent (handle_packet q false s).2 = Some (DHCPOFFER, V4 0xC000020B) ∧
  db (handle_packet q false s).1 = db s.
Proof.
  intros s q. assert (config_ok s) as Hs by apply idle_server_ok.
  split; [exact Hs|split; [vm_compute; reflexivity|]].
  exact (proj1 (discover_keeps_leases q false s _ _ Hs eq_refl (surjective_pairing _))).
Defined.

(** ** Giving leases back, and options *)

Lemma idle_server_stats l : stats_ok (idle_server l).
Proof. split; [apply map_Forall_empty|done]. Qed.

(** Client 2 releases its lease. *)
Definition release_query (n : Z) : Query := query DHCPRELEASE n (V4 0xC000020A) IPV4_ZERO_ADDRESS [].

Lemma processRelease_spec_witness :
  let s := idle_server [lease_of 2 0xC000020A 1 5000] in
  stats_ok s ∧ ∃ s' r, processRelease (release_query 2) s = (s', r) ∧
    ((∃ l, holds_lease (release_query 2) s (V4 0xC000020A) l ∧ released (release_query 2) s l s' r) ∨
     ignored s s' r).
Proof.
  intros s. assert (stats_ok s) as Hs by apply idle_server_stats. split; [exact Hs|].
  do 2 eexists. split; [apply surjective_pairing|].
  refine (processRelease_spec (release_query 2) s _ _ _ Hs (surjective_pairing _)). reflexivity.
Defined.

Lemma release_balance_witness :
  let s := idle_server [lease_of 2 0xC000020A 1 5000] in
  stats_ok s ∧ ∃ s', processRelease (release_query 2) s
    = (s', Ok (Some (Some (lease_of 2 0xC000020A 1 5000), None))) ∧
    stat_int (stats s') (assigned 1) - in_use 1 (lm_leases (db s')) =
    stat_int (stats s) (assigned 1) - in_use 1 (lm_leases (db s)).
Proof.
  intros s. assert (stats_ok s) as Hs by apply idle_server_stats. split; [exact Hs|].
  assert (∃ s', processRelease (release_query 2) s
    = (s', Ok (Some (Some (lease_of 2 0xC000020A 1 5000), None)))) as [s' E]
    by (eexists; vm_compute; reflexivity).
  exists s'. split; [exact E|].
  refine (eq_trans (release_balance (release_query 2) s s' _ _ 1 _ Hs E eq_refl) _); [reflexivity|].
  apply Z.sub_0_r.
Defined.

Definition decline_query (n : Z) : Query :=
  query DHCPDECLINE n IPV4_ZERO_ADDRESS IPV4_ZERO_ADDRESS [server_id; requested 0xC000020A].

Lemma processDecline_spec_witness :
  let s := idle_server [lease_of 2 0xC000020A 1 5000] in
  stats_ok s ∧ ∃ s' r, processDecline (decline_query 2) s = (s', r) ∧
    ((∃ a l, declined_address (decline_query 2) = Ok a ∧ holds_lease (decline_query 2) s a l ∧
       counted s s' (declined_counts l) (removal_request l) ∧
       ((r = Ok (Some (None, Some (decline now decline_period l))) ∧
         lm_leases (db s') = <[a := decline now decline_period l]> (lm_leases (db s))) ∨
        (no_result r ∧ lm_leases (db s') = lm_leases (db s)))) ∨
     ignored s s' r).
Proof.
  intros s. assert (stats_ok s) as Hs by apply idle_server_stats. split; [exact Hs|].
  do 2 eexists. split; [apply surjective_pairing|].
  refine (processDecline_spec (decline_query 2) s _ _ _ Hs (surjective_pairing _)). reflexivity.
Defined.

(** The routers of the subnet are sent to a client that asks for them. *)
Definition router_config : Dhcpv4Config :=
  plain_config (sample_cfg_option [sample_desc DHO_ROUTERS [192; 0; 2; 1] false]).
Definition prl (codes : list Z) : Option :=
  byte_option DHO_DHCP_PARAMETER_REQUEST_LIST (OptionUint8Array codes) codes [].

Lemma options_once_witness :
  let s := idle_server [] in
  let q := query DHCPDISCOVER 1 IPV4_ZERO_ADDRESS IPV4_ZERO_ADDRESS [prl [3; 3; 3]] in
  ∃ s' r, @handle_packet _ _ _ _ router_config _ _ _ q false s = (s', Ok (Send r)) ∧
    rsp_code <$> r_options_ r = [53; 51; 1; 59; 58; 3; 54] ∧ NoDup (rsp_code <$> r_options_ r).
Proof.
  intros s q.
  assert (∃ s' r, @handle_packet _ _ _ _ router_config _ _ _ q false s = (s', Ok (Send r)) ∧
    rsp_code <$> r_options_ r = [53; 51; 1; 59; 58; 3; 54]) as (s' & r & E & Hc)
    by (do 2 eexists; split; [vm_compute; reflexivity|vm_compute; reflexivity]).
  exists s', r. split; [exact E|split; [exact Hc|]].
  exact (@options_once _ _ _ _ router_config _ _ _ q false s s' (Send r) E).
Defined.

(** Routers are configured for the pools and for the subnets, DNS servers globally and to be
    always sent. *)
Definition layered_config : Dhcpv4Config :=
  config_of (sample_cfg_option [sample_desc DHO_ROUTERS [192; 0; 2; 3] false])
    (sample_cfg_option [sample_desc DHO_ROUTERS [192; 0; 2; 1] false])
    (sample_cfg_option [sample_desc DHO_DOMAIN_NAME_SERVERS [192; 0; 2; 53] true])
    (sample_d2_config false false RCM_NEVER) (λ _ p, (NEXT_STEP_CONTINUE, p)).

Section Layered.
#[local] Existing Instance layered_config.

Lemma requested_options_witness :
  let r := setYiaddr (V4 0xC000020B) (mkRsp DHCPOFFER 7) in
  let x := {| eng := server (heap_of false HR_ALL HR_ALL) [] (message 1 IPV4_ZERO_ADDRESS true);
              query_ := query DHCPDISCOVER 1 IPV4_ZERO_ADDRESS IPV4_ZERO_ADDRESS [prl [3]];
              resp_ := Some r; cfg_option_list_ := [] |} in
  ∃ l r', (_ ← buildCfgOptionList; appendRequestedOptions) x = (with_resp (Some r') (with_options l x), Ok tt) ∧
    option_of DHO_ROUTERS (r_options_ r')
    = Some (Copied (option_ (sample_desc DHO_ROUTERS [192; 0; 2; 3] false))) ∧
    option_of DHO_DOMAIN_NAME_SERVERS (r_options_ r')
    = Some (Copied (option_ (sample_desc DHO_DOMAIN_NAME_SERVERS [192; 0; 2; 53] true))).
Proof.
  intros r x. set (sub := with_mode HR_ALL (with_network sample_subnet None)).
  destruct (requested_options x r 10 sub eq_refl eq_refl eq_refl
    (wf_subnet_with _ _ _ sample_subnet_wf) eq_refl eq_refl)
    as (pool & r' & Hpool & E & _ & _ & Ho).
  assert (pool = Some sample_pool1) as ->.
  { unfold address_pool in Hpool. change (pools_ sub) with [sample_pool1; sample_pool2] in Hpool.
    change (r_yiaddr_ (header r)) with (V4 0xC000020B) in Hpool. destruct pool as [pl|].
    - destruct Hpool as (_ & Hin & Hr). apply elem_of_cons in Hin as [->|Hin]; [done|].
      apply list_elem_of_singleton in Hin as ->. by vm_compute in Hr.
    - destruct Hpool as [Hz|Hno]; [vm_compute in Hz; discriminate Hz|].
      specialize (Hno sample_pool1 (list_elem_of_here _ _)). vm_compute in Hno. discriminate Hno. }
  exists (option_sources x 10 sub (Some sample_pool1)), r'.
  split; [exact E|]. split; apply Ho; right.
  - split; [vm_compute; reflexivity|split; [|vm_compute; reflexivity]].
    left. apply (bool_decide_unpack _). vm_compute. exact I.
  - split; [vm_compute; reflexivity|split; [|vm_compute; reflexivity]].
    right. exists (sample_cfg_option [sample_desc DHO_DOMAIN_NAME_SERVERS [192; 0; 2; 53] true]),
      (sample_desc DHO_DOMAIN_NAME_SERVERS [192; 0; 2; 53] true).
    split_and!; [|left|reflexivity|reflexivity].
    change (option_sources x 10 sub (Some sample_pool1)) with
      [sample_cfg_option [sample_desc DHO_ROUTERS [192; 0; 2; 3] false];
       sample_cfg_option [sample_desc DHO_ROUTERS [192; 0; 2; 1] false];
       sample_cfg_option [sample_desc DHO_DOMAIN_NAME_SERVERS [192; 0; 2; 53] true]].
    do 2 right. left.
Defined.
End Layered.
