(* ===== verification/StateModel.v ===== *)
(** * State models ([src/lib/util/state_model.cc], [labeled_value.cc])

    A state model runs the handlers of its states: a handler consumes the next event
    and sets the state and the event that follow, until the event is [NOP_EVT] (the
    model waits for something to happen) or the state is [END_ST].  An exception of a
    handler ends the model with [FAIL_EVT].

    What a class derived from [StateModel] adds is [derived], its members, and an
    instance of [Virtual], its virtual functions and its handlers; [states_] has the
    name of the handler of each state where the source has a bound member function.
    The texts of the exceptions and the log are left out. *)

From S2P Require Import Prelude.
Local Open Scope Z_scope.

(** ** Labelled values *)

(** [LabeledValueSet::add] and the constructor of [LabeledValue]: values are unique
    and labels not empty. *)
Definition labeled_add {V} (label : string) (value : Z) (entry : V) (m : gmap Z V) : res (gmap Z V) :=
  _ ← throw_if (bool_decide (label = "")) LabeledValueError;
  _ ← throw_if (bool_decide (is_Some (m !! value))) LabeledValueError;
  mret (<[value := entry]> m).

Definition labeled_get {V} (value : Z) (m : gmap Z V) : option V := m !! value.
Definition isDefined {V} (value : Z) (m : gmap Z V) : bool := bool_decide (is_Some (m !! value)).

(** ** States *)

Inductive StatePausing := STATE_PAUSE_ALWAYS | STATE_PAUSE_NEVER | STATE_PAUSE_ONCE.

#[export] Instance StatePausing_eq_dec : EqDecision StatePausing.
Proof. solve_decision. Defined.

Record StateEntry (H : Type) := {
  label_ : string;
  handler_ : H;
  pausing_ : StatePausing;
  was_paused_ : bool
}.
Arguments label_ {H}.
Arguments handler_ {H}.
Arguments pausing_ {H}.
Arguments was_paused_ {H}.

(** The answer and the state as it is left. *)
Definition shouldPause {H} (e : StateEntry H) : bool * StateEntry H :=
  if bool_decide (pausing_ e = STATE_PAUSE_ALWAYS)
     || (bool_decide (pausing_ e = STATE_PAUSE_ONCE) && negb (was_paused_ e))
  then (true, {| label_ := label_ e; handler_ := handler_ e; pausing_ := pausing_ e;
                 was_paused_ := true |})
  else (false, e).

(** ** The model *)

Definition NEW_ST : Z := 0.
Definition END_ST : Z := 1.
Definition SM_DERIVED_STATE_MIN : Z := 11.

Definition NOP_EVT : Z := 0.
Definition START_EVT : Z := 1.
Definition END_EVT : Z := 2.
Definition FAIL_EVT : Z := 3.
Definition SM_DERIVED_EVENT_MIN : Z := 11.

Record StateModel (H D : Type) := {
  events_ : gmap Z string;
  states_ : gmap Z (StateEntry H);
  dictionaries_initted_ : bool;
  curr_state_ : Z;
  prev_state_ : Z;
  last_event_ : Z;
  next_event_ : Z;
  on_entry_flag_ : bool;
  on_exit_flag_ : bool;
  paused_ : bool;
  derived : D
}.
Arguments events_ {H D}.
Arguments states_ {H D}.
Arguments dictionaries_initted_ {H D}.
Arguments curr_state_ {H D}.
Arguments prev_state_ {H D}.
Arguments last_event_ {H D}.
Arguments next_event_ {H D}.
Arguments on_entry_flag_ {H D}.
Arguments on_exit_flag_ {H D}.
Arguments paused_ {H D}.
Arguments derived {H D}.

(** The constructor. *)
Definition new_model {H D} (d : D) : StateModel H D :=
  {| events_ := ∅; states_ := ∅; dictionaries_initted_ := false; curr_state_ := NEW_ST;
     prev_state_ := NEW_ST; last_event_ := NOP_EVT; next_event_ := NOP_EVT;
     on_entry_flag_ := false; on_exit_flag_ := false; paused_ := false; derived := d |}.

(** What a derived class provides. *)
Class Virtual (H D : Type) := {
  nopHandler : H;
  run_handler : H → ST (StateModel H D) unit;
  vdefineEvents : ST (StateModel H D) unit;
  vverifyEvents : ST (StateModel H D) unit;
  vdefineStates : ST (StateModel H D) unit;
  vverifyStates : ST (StateModel H D) unit;
  onModelFailure : D → D
}.

Section Setters.
Context {H D : Type}.
Implicit Types (s : StateModel H D).

Definition with_events e s : StateModel H D :=
  {| events_ := e; states_ := states_ s; dictionaries_initted_ := dictionaries_initted_ s;
     curr_state_ := curr_state_ s; prev_state_ := prev_state_ s; last_event_ := last_event_ s;
     next_event_ := next_event_ s; on_entry_flag_ := on_entry_flag_ s;
     on_exit_flag_ := on_exit_flag_ s; paused_ := paused_ s; derived := derived s |}.
Definition with_states t s : StateModel H D :=
  {| events_ := events_ s; states_ := t; dictionaries_initted_ := dictionaries_initted_ s;
     curr_state_ := curr_state_ s; prev_state_ := prev_state_ s; last_event_ := last_event_ s;
     next_event_ := next_event_ s; on_entry_flag_ := on_entry_flag_ s;
     on_exit_flag_ := on_exit_flag_ s; paused_ := paused_ s; derived := derived s |}.
Definition with_initted b s : StateModel H D :=
  {| events_ := events_ s; states_ := states_ s; dictionaries_initted_ := b;
     curr_state_ := curr_state_ s; prev_state_ := prev_state_ s; last_event_ := last_event_ s;
     next_event_ := next_event_ s; on_entry_flag_ := on_entry_flag_ s;
     on_exit_flag_ := on_exit_flag_ s; paused_ := paused_ s; derived := derived s |}.
Definition with_position curr prev entry exit s : StateModel H D :=
  {| events_ := events_ s; states_ := states_ s; dictionaries_initted_ := dictionaries_initted_ s;
     curr_state_ := curr; prev_state_ := prev; last_event_ := last_event_ s;
     next_event_ := next_event_ s; on_entry_flag_ := entry;
     on_exit_flag_ := exit; paused_ := paused_ s; derived := derived s |}.
Definition with_event last next s : StateModel H D :=
  {| events_ := events_ s; states_ := states_ s; dictionaries_initted_ := dictionaries_initted_ s;
     curr_state_ := curr_state_ s; prev_state_ := prev_state_ s; last_event_ := last;
     next_event_ := next; on_entry_flag_ := on_entry_flag_ s;
     on_exit_flag_ := on_exit_flag_ s; paused_ := paused_ s; derived := derived s |}.
Definition with_paused b s : StateModel H D :=
  {| events_ := events_ s; states_ := states_ s; dictionaries_initted_ := dictionaries_initted_ s;
     curr_state_ := curr_state_ s; prev_state_ := prev_state_ s; last_event_ := last_event_ s;
     next_event_ := next_event_ s; on_entry_flag_ := on_entry_flag_ s;
     on_exit_flag_ := on_exit_flag_ s; paused_ := b; derived := derived s |}.
Definition with_derived d s : StateModel H D :=
  {| events_ := events_ s; states_ := states_ s; dictionaries_initted_ := dictionaries_initted_ s;
     curr_state_ := curr_state_ s; prev_state_ := prev_state_ s; last_event_ := last_event_ s;
     next_event_ := next_event_ s; on_entry_flag_ := on_entry_flag_ s;
     on_exit_flag_ := on_exit_flag_ s; paused_ := paused_ s; derived := d |}.
End Setters.

Section Model.
Context {H D : Type}.
Implicit Types (s : StateModel H D).

Definition isModelNew s : bool := curr_state_ s =? NEW_ST.
Definition isModelRunning s : bool :=
  negb (curr_state_ s =? NEW_ST) && negb (curr_state_ s =? END_ST).
Definition isModelWaiting s : bool := isModelRunning s && (next_event_ s =? NOP_EVT).
Definition isModelDone s : bool := curr_state_ s =? END_ST.
Definition didModelFail s : bool := isModelDone s && (next_event_ s =? FAIL_EVT).

(** *** The dictionaries *)

Definition defineEvent (event_value : Z) (label : string) : ST (StateModel H D) unit :=
  s ← get;
  if negb (isModelNew s) then throw StateModelError
  else match labeled_add label event_value label (events_ s) with
       | Ok e => put (with_events e s)
       | Throw _ => throw StateModelError
       end.

Definition getEvent (event_value : Z) : ST (StateModel H D) (option string) :=
  s ← get;
  if negb (isDefined event_value (events_ s)) then throw StateModelError
  else mret (labeled_get event_value (events_ s)).

Definition defineState (state_value : Z) (label : string) (handler : H)
    (state_pausing : StatePausing) : ST (StateModel H D) unit :=
  s ← get;
  if negb (isModelNew s) then throw StateModelError
  else match labeled_add label state_value
               {| label_ := label; handler_ := handler; pausing_ := state_pausing;
                  was_paused_ := false |} (states_ s) with
       | Ok t => put (with_states t s)
       | Throw _ => throw StateModelError
       end.

Definition getState (state_value : Z) : ST (StateModel H D) (StateEntry H) :=
  s ← get;
  match labeled_get state_value (states_ s) with
  | Some e => mret e
  | None => throw StateModelError
  end.

Definition base_defineEvents : ST (StateModel H D) unit :=
  _ ← defineEvent NOP_EVT "NOP_EVT";
  _ ← defineEvent START_EVT "START_EVT";
  _ ← defineEvent END_EVT "END_EVT";
  defineEvent FAIL_EVT "FAIL_EVT".

Definition base_verifyEvents : ST (StateModel H D) unit :=
  _ ← getEvent NOP_EVT;
  _ ← getEvent START_EVT;
  _ ← getEvent END_EVT;
  _ ← getEvent FAIL_EVT;
  mret tt.

Definition base_defineStates (nop : H) : ST (StateModel H D) unit :=
  _ ← defineState NEW_ST "NEW_ST" nop STATE_PAUSE_NEVER;
  defineState END_ST "END_ST" nop STATE_PAUSE_NEVER.

Definition base_verifyStates : ST (StateModel H D) unit :=
  _ ← getState NEW_ST;
  _ ← getState END_ST;
  mret tt.

(** *** Moving between states *)

Definition postNextEvent (event_value : Z) : ST (StateModel H D) unit :=
  s ← get;
  if negb (event_value =? FAIL_EVT) && negb (isDefined event_value (events_ s))
  then throw StateModelError
  else put (with_event (next_event_ s) event_value s).

Definition setState (state : Z) : ST (StateModel H D) unit :=
  s ← get;
  if negb (state =? END_ST) && negb (isDefined state (states_ s)) then throw StateModelError
  else
    let prev := curr_state_ s in
    let entry := negb (state =? END_ST) && negb (prev =? state) in
    _ ← put (with_position state prev entry entry s);
    s ← get;
    if on_entry_flag_ s && negb (paused_ s) then
      e ← getState state;
      let '(pause, e') := shouldPause e in
      _ ← modify (λ s, with_states (<[state := e']> (states_ s)) s);
      if pause then modify (with_paused true) else mret tt
    else mret tt.

Definition transition (state event : Z) : ST (StateModel H D) unit :=
  _ ← setState state;
  postNextEvent event.

Definition endModel : ST (StateModel H D) unit := transition END_ST END_EVT.
Definition unpauseModel : ST (StateModel H D) unit := modify (with_paused false).

Definition doOnEntry : ST (StateModel H D) bool :=
  s ← get;
  _ ← put (with_position (curr_state_ s) (prev_state_ s) false (on_exit_flag_ s) s);
  mret (on_entry_flag_ s).
Definition doOnExit : ST (StateModel H D) bool :=
  s ← get;
  _ ← put (with_position (curr_state_ s) (prev_state_ s) (on_entry_flag_ s) false s);
  mret (on_exit_flag_ s).

(** *** Running the model *)

Context `{Virtual H D}.

Definition abortModel : ST (StateModel H D) unit :=
  _ ← transition END_ST FAIL_EVT;
  modify (λ s, with_derived (onModelFailure (derived s)) s).

(** The loop runs at most [fuel] handlers. *)
Fixpoint run_loop (fuel : nat) : ST (StateModel H D) unit :=
  match fuel with
  | O => throw OutOfFuel
  | S fuel =>
      s ← get;
      e ← getState (curr_state_ s);
      _ ← run_handler (handler_ e);
      s ← get;
      if negb (isModelDone s) && negb (next_event_ s =? NOP_EVT) then run_loop fuel else mret tt
  end.

Definition runModel (fuel : nat) (run_event : Z) : ST (StateModel H D) unit :=
  s ← get;
  _ ← (if negb (dictionaries_initted_ s) then abortModel else mret tt);
  try_catch (_ ← postNextEvent run_event; run_loop fuel) abortModel.

Definition initDictionaries : ST (StateModel H D) unit :=
  _ ← try_catch (_ ← vdefineEvents; vverifyEvents) (throw StateModelError);
  _ ← try_catch (_ ← vdefineStates; vverifyStates) (throw StateModelError);
  modify (with_initted true).

Definition startModel (fuel : nat) (start_state : Z) : ST (StateModel H D) unit :=
  _ ← initDictionaries;
  _ ← setState start_state;
  runModel fuel START_EVT.
End Model.
