(* ===== verification/D2Cfg.v ===== *)
(** * The configuration of the DHCP-DDNS server ([src/bin/d2/d2_config.cc],
      [d2_cfg_mgr.cc])

    The domains the server may update, each with the DNS servers to ask, and the
    choice of the domain for a name or an address.  Parsing the configuration,
    user contexts and the conversion to JSON are left out, and a TSIG key is its
    name.  The map of the domains is the list of its entries in the order of the
    keys, the order in which the source walks over it.

    [boost::iequals], which compares names without regard to case, is library code:
    [IEquals] is what the code relies on. *)

From Stdlib Require Import Ascii.
From stdpp Require Import pretty.
From S2P Require Import Prelude IoAddress.
Local Open Scope Z_scope.

Class IEquals := {
  iequals : string → string → bool;
  iequals_refl : ∀ a, iequals a a = true;
  iequals_length : ∀ a b, iequals a b = true → String.length a = String.length b
}.

Record DnsServerInfo := { server_ip_address_ : IOAddress; server_port_ : Z }.

Record DdnsDomain := {
  domain_name_ : string;
  servers_ : list DnsServerInfo;
  tsig_key_info_ : option string
}.

Record DdnsDomainListMgr := {
  domains_ : list (string * DdnsDomain);
  wildcard_domain_ : option DdnsDomain
}.

Definition wildcard_domain_name_ : string := "*".

Definition find_domain (name : string) (l : list (string * DdnsDomain)) : option DdnsDomain :=
  snd <$> head (filter (λ p, p.1 = name) l).

(** The wildcard of the former domains stays when the new ones have none. *)
Definition setDomains (domains : list (string * DdnsDomain)) (m : DdnsDomainListMgr) :
    DdnsDomainListMgr :=
  {| domains_ := domains;
     wildcard_domain_ := match find_domain wildcard_domain_name_ domains with
                         | Some d => Some d
                         | None => wildcard_domain_ m
                         end |}.

Definition new_domain_list : DdnsDomainListMgr := {| domains_ := []; wildcard_domain_ := None |}.

Definition mgr_size (m : DdnsDomainListMgr) : nat := length (domains_ m).

Section Match.
Context `{IEquals}.

(** [fqdn.substr(offset)] *)
Definition substr (offset : nat) (fqdn : string) : string :=
  String.substring offset (String.length fqdn - offset) fqdn.

(** The loop of [matchDomain]: the result is the domain of an exact match, which ends
    the loop, or else the best match. *)
Fixpoint match_loop (fqdn : string) (match_len : nat) (best_match : option DdnsDomain)
    (l : list (string * DdnsDomain)) : option DdnsDomain :=
  match l with
  | [] => best_match
  | (domain_name, d) :: l' =>
      let req_len := String.length fqdn in
      let dom_len := String.length domain_name in
      if (req_len <? dom_len)%nat then match_loop fqdn match_len best_match l'
      else if (req_len =? dom_len)%nat then
        if iequals fqdn domain_name then Some d else match_loop fqdn match_len best_match l'
      else
        let offset := (req_len - dom_len)%nat in
        if bool_decide (String.get (offset - 1) fqdn = Some "."%char)
           && iequals (substr offset fqdn) domain_name && (match_len <? dom_len)%nat
        then match_loop fqdn dom_len (Some d) l'
        else match_loop fqdn match_len best_match l'
  end.

Definition matchDomain (fqdn : string) (m : DdnsDomainListMgr) : option DdnsDomain :=
  match wildcard_domain_ m with
  | Some d => if (mgr_size m =? 1)%nat then Some d
              else match match_loop fqdn 0 None (domains_ m) with
                   | Some best => Some best
                   | None => Some d
                   end
  | None => match_loop fqdn 0 None (domains_ m)
  end.
End Match.

(** ** The names of addresses *)

Definition IPV4_REV_ZONE_SUFFIX : string := "in-addr.arpa.".
Definition IPV6_REV_ZONE_SUFFIX : string := "ip6.arpa.".

Definition hex_digit (n : Z) : ascii :=
  default "0"%char (String.get (Z.to_nat n) "0123456789ABCDEF").

(** [encodeHex], as the list of its characters. *)
Definition encodeHex (bytes : list Z) : list ascii :=
  bytes ≫= λ b, [hex_digit (b / 16); hex_digit (b `mod` 16)].

Definition reverseV4Address (a : IOAddress) : res string :=
  match a with
  | V4 _ => Ok (foldr (λ b s, pretty b +:+ "." +:+ s) IPV4_REV_ZONE_SUFFIX (reverse (toBytes a)))
  | V6 _ => Throw D2CfgError
  end.

Definition reverseV6Address (a : IOAddress) : res string :=
  match a with
  | V6 _ => Ok (foldr (λ c s, String c ("." +:+ s)) IPV6_REV_ZONE_SUFFIX
                  (reverse (encodeHex (toBytes a))))
  | V4 _ => Throw D2CfgError
  end.

Definition reverseIpAddress (a : IOAddress) : res string :=
  if isV4 a then reverseV4Address a else reverseV6Address a.

(** ** The configuration manager *)

Record D2CfgMgr := { forward_mgr_ : DdnsDomainListMgr; reverse_mgr_ : DdnsDomainListMgr }.

Section CfgMgr.
Context `{IEquals}.

Definition forwardUpdatesEnabled (c : D2CfgMgr) : bool := (0 <? mgr_size (forward_mgr_ c))%nat.
Definition reverseUpdatesEnabled (c : D2CfgMgr) : bool := (0 <? mgr_size (reverse_mgr_ c))%nat.

Definition matchForward (fqdn : string) (c : D2CfgMgr) : res (option DdnsDomain) :=
  if bool_decide (fqdn = "") then Throw D2CfgError else Ok (matchDomain fqdn (forward_mgr_ c)).

Definition matchReverse (ip_address : IOAddress) (c : D2CfgMgr) : res (option DdnsDomain) :=
  reverse_address ← reverseIpAddress ip_address;
  mret (matchDomain reverse_address (reverse_mgr_ c)).
End CfgMgr.

(** ** What the code promises *)

(** *** Strings *)

Lemma get_app_r p c s : String.get (String.length p) (p +:+ String c s) = Some c.
Proof. by induction p. Qed.

Lemma substring_full s : String.substring 0 (String.length s) s = s.
Proof. induction s as [|c s IH]; simpl; by rewrite ?IH. Qed.

Lemma string_app_assoc (a b c : string) : a +:+ b +:+ c = (a +:+ b) +:+ c.
Proof. induction a as [|x a IH]; [done|]. exact (f_equal (String x) IH). Qed.

Lemma substr_app p s : substr (String.length p) (p +:+ s) = s.
Proof.
  unfold substr. rewrite string_length_app, (Nat.add_comm (String.length p)), Nat.add_sub.
  induction p as [|c p IH]; [apply substring_full|done].
Qed.

Lemma get_split k s c :
  String.get k s = Some c → ∃ p q, s = p +:+ String c q ∧ String.length p = k.
Proof.
  revert k. induction s as [|c' s IH]; intros [|k] He; simplify_eq/=.
  - by exists "", s.
  - destruct (IH k He) as (p & q & -> & <-). by exists (String c' p), q.
Qed.

(** A name is in a domain when the labels at its end are the domain's name. *)
Definition in_domain `{IEquals} (fqdn name : string) : Prop :=
  iequals fqdn name = true ∨ ∃ p s, fqdn = p +:+ "." +:+ s ∧ iequals s name = true.

Section MatchSpec.
Context `{IEquals}.

(** The two tests of the loop decide it. *)
Lemma in_domain_exact fqdn name :
  String.length fqdn = String.length name → in_domain fqdn name ↔ iequals fqdn name = true.
Proof.
  intros Hl. split; [|by left]. intros [Hi|(p & s & -> & Hi%iequals_length)]; [done|].
  rewrite !string_length_app in Hl. simpl in Hl. lia.
Qed.

Lemma in_domain_longer fqdn name :
  (String.length name < String.length fqdn)%nat →
  in_domain fqdn name ↔
  String.get (String.length fqdn - String.length name - 1) fqdn = Some "."%char ∧
  iequals (substr (String.length fqdn - String.length name) fqdn) name = true.
Proof.
  intros Hl. split.
  - intros [Hi%iequals_length|(p & s & -> & Hi)]; [lia|].
    pose proof (iequals_length _ _ Hi) as He. rewrite !string_length_app, <- He. simpl.
    replace (String.length p + S (String.length s) - String.length s)%nat
      with (S (String.length p)) by lia.
    split; [simpl; rewrite Nat.sub_0_r; apply get_app_r|].
    change (String "." s) with ("." +:+ s). rewrite string_app_assoc.
    replace (S (String.length p)) with (String.length (p +:+ "."))
      by (rewrite string_length_app; simpl; lia).
    by rewrite substr_app.
  - intros [(p & q & He & Hp)%get_split Hi]. right. exists p, q. split; [done|].
    subst fqdn. revert Hp Hi.
    rewrite !string_length_app. simpl. intros Hp.
    replace (String.length p + S (String.length q) - String.length name)%nat
      with (String.length (p +:+ "."))
      by (rewrite string_length_app; simpl; rewrite string_length_app in Hl; simpl in Hl; lia).
    change (String "." q) with ("." +:+ q). rewrite string_app_assoc. by rewrite substr_app.
Qed.

Lemma in_domain_not_longer fqdn name :
  in_domain fqdn name → (String.length name ≤ String.length fqdn)%nat.
Proof.
  intros [Hi%iequals_length|(p & s & -> & Hi%iequals_length)]; [lia|].
  rewrite !string_length_app. simpl. lia.
Qed.

(** The loop keeps the longest of the domains it has seen: [r] is the longest domain of
    [l] the name is in when that is longer than [len], and else [best]. *)
Definition longest fqdn (len : nat) (best : option DdnsDomain)
    (l : list (string * DdnsDomain)) (r : option DdnsDomain) : Prop :=
  (∃ name d, (name, d) ∈ l ∧ r = Some d ∧ in_domain fqdn name ∧
     (len < String.length name)%nat ∧
     ∀ name' d', (name', d') ∈ l → in_domain fqdn name' →
       (String.length name' ≤ String.length name)%nat) ∨
  (r = best ∧
   ∀ name' d', (name', d') ∈ l → in_domain fqdn name' → (String.length name' ≤ len)%nat).

Lemma longest_skip fqdn len best name d l r :
  ¬ in_domain fqdn name ∨ (String.length name ≤ len)%nat →
  longest fqdn len best l r → longest fqdn len best ((name, d) :: l) r.
Proof.
  intros Hno [(n0 & d0 & Hin & Hr & Hd & Hl & Hmax)|[Hr Hmax]].
  - left. exists n0, d0. split_and!; [by right|done..|].
    intros n' d' [[= -> ->]|Hin']%elem_of_cons Hd'; [|by eapply Hmax].
    destruct Hno; [done|lia].
  - right. split; [done|]. intros n' d' [[= -> ->]|Hin']%elem_of_cons Hd'; [|by eapply Hmax].
    by destruct Hno.
Qed.

Lemma longest_take fqdn len best name d l r :
  in_domain fqdn name → (len < String.length name)%nat →
  longest fqdn (String.length name) (Some d) l r → longest fqdn len best ((name, d) :: l) r.
Proof.
  intros Hd Hl [(n0 & d0 & Hin & Hr & Hd0 & Hl0 & Hmax)|[Hr Hmax]]; left.
  - exists n0, d0. split_and!; [by right|done..|lia|].
    intros n' d' [[= -> ->]|Hin']%elem_of_cons Hd'; [lia|by eapply Hmax].
  - exists name, d. split_and!; [left|done..|].
    intros n' d' [[= -> ->]|Hin']%elem_of_cons Hd'; [lia|by eapply Hmax].
Qed.

Lemma match_loop_spec fqdn len best l :
  (len < String.length fqdn)%nat → longest fqdn len best l (match_loop fqdn len best l).
Proof.
  revert len best. induction l as [|[name d] l IH]; intros len best Hlen; simpl.
  { right. split; [done|]. by intros ? ? ?%elem_of_nil. }
  case_match eqn:Hlt.
  { apply Nat.ltb_lt in Hlt. apply longest_skip; [left|auto].
    intros Hd%in_domain_not_longer. lia. }
  apply Nat.ltb_ge in Hlt. case_match eqn:Heq.
  { apply Nat.eqb_eq in Heq. pose proof (in_domain_exact fqdn name Heq) as Hiff.
    case_match eqn:Hi.
    - left. exists name, d. rewrite <- Heq. split_and!; [left|done|by left|done|].
      intros n' d' _ Hd'%in_domain_not_longer. lia.
    - apply longest_skip; [left|auto]. by rewrite Hiff. }
  apply Nat.eqb_neq in Heq.
  pose proof (in_domain_longer fqdn name ltac:(lia)) as Hiff.
  case_match eqn:Hb.
  - apply andb_prop in Hb as [[Hg%bool_decide_eq_true Hi]%andb_prop Hl%Nat.ltb_lt].
    apply longest_take; [by apply Hiff|done|]. apply IH. lia.
  - apply longest_skip; [|auto]. rewrite Hiff.
    apply andb_false_iff in Hb as [Hb|Hb%Nat.ltb_ge]; [left|by right].
    intros [Hg Hi]. rewrite Hi, bool_decide_true in Hb; done.
Qed.

Lemma nonempty_length (s : string) : (0 < String.length s)%nat → s ≠ "".
Proof. intros Hl ->. simpl in Hl. lia. Qed.

Lemma find_domain_singleton name l w p :
  length l = 1%nat → find_domain name l = Some w → p ∈ l → w = p.2.
Proof.
  destruct l as [|q [|]]; try done. intros _ Hf ->%list_elem_of_singleton.
  unfold find_domain in Hf. destruct (decide (q.1 = name)) as [He|Hn].
  - rewrite filter_cons_True in Hf by done. by simplify_eq/=.
  - by rewrite filter_cons_False in Hf.
Qed.

(** [matchDomain] gives the domain a name belongs to: of the domains of the
    configuration whose name ends the name at a label boundary, or equals it, the one
    with the longest name; when there is none, the domain called "*", and when there is
    no such domain either, nothing. *)
Theorem matchDomain_spec fqdn domains :
  fqdn ≠ "" →
  match matchDomain fqdn (setDomains domains new_domain_list) with
  | Some d =>
      (∃ name, (name, d) ∈ domains ∧ in_domain fqdn name ∧ name ≠ "" ∧
         ∀ name' d', (name', d') ∈ domains → in_domain fqdn name' →
           (String.length name' ≤ String.length name)%nat) ∨
      (find_domain wildcard_domain_name_ domains = Some d ∧
         ∀ name' d', (name', d') ∈ domains → in_domain fqdn name' → name' = "")
  | None =>
      find_domain wildcard_domain_name_ domains = None ∧
      ∀ name' d', (name', d') ∈ domains → in_domain fqdn name' → name' = ""
  end.
Proof.
  intros Hne. unfold matchDomain, setDomains. simpl.
  pose proof (match_loop_spec fqdn 0 None domains) as [(name & d & Hin & Hr & Hd & Hl & Hmax)|[Hr Hmax]].
  { destruct fqdn; [done|simpl; lia]. }
  - assert (∃ name, (name, d) ∈ domains ∧ in_domain fqdn name ∧ name ≠ "" ∧
         ∀ name' d', (name', d') ∈ domains → in_domain fqdn name' →
           (String.length name' ≤ String.length name)%nat) as Hex
      by eauto 6 using nonempty_length.
    rewrite Hr. destruct (find_domain _ domains) as [w|] eqn:Hw; [|simpl; by left].
    unfold mgr_size. simpl. destruct (length domains =? 1)%nat eqn:H1; [|simpl; by left].
    apply Nat.eqb_eq in H1. rewrite (find_domain_singleton _ _ w (name, d) H1 Hw Hin).
    by left.
  - assert (∀ name' d', (name', d') ∈ domains → in_domain fqdn name' → name' = "") as Hno.
    { intros n' d' Hin Hd. specialize (Hmax n' d' Hin Hd). destruct n'; [done|simpl in Hmax; lia]. }
    destruct (find_domain _ domains) as [w|] eqn:Hw; [|by rewrite Hr].
    rewrite Hr. destruct (_ =? _)%nat; by right.
Qed.
End MatchSpec.

(** The comparison for ASCII names. *)
Definition lower (c : ascii) : ascii :=
  let n := nat_of_ascii c in
  if ((65 <=? n) && (n <=? 90))%nat then ascii_of_nat (n + 32) else c.

Fixpoint ascii_iequals (a b : string) : bool :=
  match a, b with
  | "", "" => true
  | String x a, String y b => Ascii.eqb (lower x) (lower y) && ascii_iequals a b
  | _, _ => false
  end.

Lemma ascii_iequals_refl a : ascii_iequals a a = true.
Proof. induction a as [|x a IH]; simpl; [done|]. by rewrite Ascii.eqb_refl, IH. Qed.

Lemma ascii_iequals_length a b : ascii_iequals a b = true → String.length a = String.length b.
Proof.
  revert b. induction a as [|x a IH]; intros [|y b]; simpl; try done.
  intros [_ Hi]%andb_prop. f_equal. auto.
Qed.

Definition ascii_IEquals : IEquals :=
  {| iequals := ascii_iequals; iequals_refl := ascii_iequals_refl;
     iequals_length := ascii_iequals_length |}.

Lemma matchDomain_spec_witness :
  let d name := {| domain_name_ := name; servers_ := []; tsig_key_info_ := None |} in
  let l := [("*", d "*"); ("com", d "com"); ("example.com", d "example.com");
            ("two.net", d "two.net")] in
  let m := setDomains l new_domain_list in
  matchDomain (H := ascii_IEquals) "host.Example.com" m = Some (d "example.com") ∧
  matchDomain (H := ascii_IEquals) "onetwo.net" m = Some (d "*") ∧
  match matchDomain (H := ascii_IEquals) "host.Example.com" m with
  | Some d =>
      (∃ name, (name, d) ∈ l ∧ in_domain (H := ascii_IEquals) "host.Example.com" name ∧ name ≠ "" ∧
         ∀ name' d', (name', d') ∈ l → in_domain (H := ascii_IEquals) "host.Example.com" name' →
           (String.length name' ≤ String.length name)%nat) ∨
      (find_domain wildcard_domain_name_ l = Some d ∧
         ∀ name' d', (name', d') ∈ l → in_domain (H := ascii_IEquals) "host.Example.com" name' →
           name' = "")
  | None =>
      find_domain wildcard_domain_name_ l = None ∧
      ∀ name' d', (name', d') ∈ l → in_domain (H := ascii_IEquals) "host.Example.com" name' →
        name' = ""
  end.
Proof.
  intros d l m. split; [reflexivity|]. split; [reflexivity|].
  apply (matchDomain_spec (H := ascii_IEquals) "host.Example.com" l). discriminate.
Defined.

(** *** The names of addresses *)

(** A label has no dot, so a name can be taken apart again. *)
Definition label (s : string) : Prop := ∀ k, String.get k s ≠ Some "."%char.

Lemma label_cons c s : label (String c s) → c ≠ "."%char ∧ label s.
Proof. intros Hl. split; [intros ->; by apply (Hl 0%nat)|intros k; apply (Hl (S k))]. Qed.

Lemma label_cut a a' s s' :
  label a → label a' → a +:+ "." +:+ s = a' +:+ "." +:+ s' → a = a' ∧ s = s'.
Proof.
  revert a'. induction a as [|c a IH]; intros [|c' a'] Ha Ha' He; simpl in He; simplify_eq/=.
  - done.
  - by destruct (label_cons _ _ Ha').
  - by destruct (label_cons _ _ Ha).
  - destruct (IH a') as [-> ->]; [by eapply label_cons..|done|done].
Qed.

Lemma labels_cut {A} (f : A → string) (P : A → Prop) suffix l l' :
  (∀ x, P x → label (f x)) → (∀ x y, P x → P y → f x = f y → x = y) →
  Forall P l → Forall P l' → length l = length l' →
  foldr (λ x s, f x +:+ "." +:+ s) suffix l = foldr (λ x s, f x +:+ "." +:+ s) suffix l' → l = l'.
Proof.
  intros Hf Hinj Hl. revert l'.
  induction Hl as [|x l Hx Hl IH]; intros [|y l'] Hl' Hlen He; try done; simpl in *.
  inversion Hl' as [|?? Hy Hl'']; subst.
  apply label_cut in He as [Hxy He]; [|by apply Hf..].
  rewrite (Hinj x y Hx Hy Hxy). f_equal. apply IH; [done|lia|done].
Qed.

(** A property of a byte is checked on the 256 of them. *)
Lemma forall_bytes (p : Z → bool) :
  forallb p (seqZ 0 256) = true → ∀ b, is_byte b → p b = true.
Proof.
  intros Hp b Hb. rewrite forallb_forall in Hp. apply Hp, list_elem_of_In, elem_of_seqZ.
  unfold is_byte in Hb. lia.
Qed.

Fixpoint label_bool (s : string) : bool :=
  match s with "" => true | String c s => negb (Ascii.eqb c ".") && label_bool s end.

Lemma label_bool_spec s : label_bool s = true → label s.
Proof.
  induction s as [|c s IH]; [by intros _ []|].
  simpl. intros [Hc Hs]%andb_prop [|k]; simpl.
  - intros [= ->]. by rewrite Ascii.eqb_refl in Hc.
  - by apply IH.
Qed.

Lemma pretty_byte_label b : is_byte b → label (pretty b).
Proof.
  intros Hb. apply label_bool_spec.
  apply (forall_bytes (λ b, label_bool (pretty b))); [vm_compute; reflexivity|done].
Qed.

Lemma pretty_byte_length b : is_byte b → (String.length (pretty b) ≤ 3)%nat.
Proof.
  intros Hb. apply Nat.leb_le.
  apply (forall_bytes (λ b, String.length (pretty b) <=? 3)%nat); [vm_compute; reflexivity|done].
Qed.

(** The two digits of a byte, which give the byte back. *)
Definition digit_value (c : ascii) : Z :=
  let n := Z.of_nat (nat_of_ascii c) in if n <? 65 then n - 48 else n - 55.

Lemma digits_byte b :
  is_byte b → digit_value (hex_digit (b / 16)) * 16 + digit_value (hex_digit (b `mod` 16)) = b.
Proof.
  intros Hb. apply Z.eqb_eq.
  apply (forall_bytes (λ b, digit_value (hex_digit (b / 16)) * 16
                            + digit_value (hex_digit (b `mod` 16)) =? b)); [vm_compute; reflexivity|done].
Qed.

Lemma hex_digit_dot n : hex_digit n ≠ "."%char.
Proof.
  unfold hex_digit. generalize (Z.to_nat n). intros k.
  do 16 (destruct k as [|k]; [done|]). done.
Qed.

Lemma encodeHex_cons b l :
  encodeHex (b :: l) = hex_digit (b / 16) :: hex_digit (b `mod` 16) :: encodeHex l.
Proof. done. Qed.

Lemma length_encodeHex l : length (encodeHex l) = (2 * length l)%nat.
Proof. induction l as [|b l IH]; [done|]. rewrite encodeHex_cons. simpl. lia. Qed.

Lemma encodeHex_no_dot l : Forall (λ c, c ≠ "."%char) (encodeHex l).
Proof. induction l; [done|]. rewrite encodeHex_cons. auto using hex_digit_dot. Qed.

Lemma encodeHex_inj l l' :
  Forall is_byte l → Forall is_byte l' → encodeHex l = encodeHex l' → l = l'.
Proof.
  intros Hl. revert l'. induction Hl as [|b l Hb Hl IH]; intros l' Hl' He.
  { by destruct l'. }
  destruct Hl' as [|b' l' Hb' Hl']; [done|].
  rewrite !encodeHex_cons in He. injection He as H1 H2 He. f_equal; [|by apply IH].
  by rewrite <- (digits_byte b), <- (digits_byte b'), H1, H2.
Qed.

Lemma length_labels {A} (f : A → string) suffix l :
  String.length (foldr (λ x s, f x +:+ "." +:+ s) suffix l)
  = (sum_list_with (λ x, S (String.length (f x))) l + String.length suffix)%nat.
Proof.
  induction l as [|x l IH]; [done|]. simpl foldr. rewrite !string_length_app, IH. simpl. lia.
Qed.

Lemma toBytes_inj a b : wf_addr a → wf_addr b → isV4 a = isV4 b → toBytes a = toBytes b → a = b.
Proof.
  intros Ha Hb Hf He. apply be_combine_toBytes in Ha, Hb. rewrite He, Hb in Ha.
  destruct a, b; simplify_eq/=; done.
Qed.

(** The names of the two families, as their labels. *)
Definition v4_name (a : IOAddress) : string :=
  foldr (λ b s, pretty b +:+ "." +:+ s) IPV4_REV_ZONE_SUFFIX (reverse (toBytes a)).
Definition v6_name (a : IOAddress) : string :=
  foldr (λ c s, String c "" +:+ "." +:+ s) IPV6_REV_ZONE_SUFFIX (reverse (encodeHex (toBytes a))).

Lemma reverseIpAddress_name a : reverseIpAddress a = Ok (if isV4 a then v4_name a else v6_name a).
Proof. by destruct a. Qed.

Lemma v4_name_inj a b : isV4 a = isV4 b → v4_name a = v4_name b → toBytes a = toBytes b.
Proof.
  intros Hf He. apply (inj reverse). revert He. apply (labels_cut _ is_byte).
  - apply pretty_byte_label.
  - intros x y _ _. apply (inj pretty).
  - apply Forall_reverse, toBytes_bytes.
  - apply Forall_reverse, toBytes_bytes.
  - by rewrite !length_reverse, !length_toBytes, Hf.
Qed.

Lemma v6_name_inj a b : isV4 a = isV4 b → v6_name a = v6_name b → toBytes a = toBytes b.
Proof.
  intros Hf He. apply encodeHex_inj; [apply toBytes_bytes..|]. apply (inj reverse).
  revert He. apply (labels_cut (λ c, String c "") (λ c, c ≠ "."%char)).
  - intros c Hc [|[|k]]; simpl; congruence.
  - by intros x y _ _ [= ->].
  - apply Forall_reverse, encodeHex_no_dot.
  - apply Forall_reverse, encodeHex_no_dot.
  - by rewrite !length_reverse, !length_encodeHex, !length_toBytes, Hf.
Qed.

(** The names of the families differ in their length. *)
Lemma v4_name_length a : isV4 a = true → (String.length (v4_name a) ≤ 29)%nat.
Proof.
  intros Hf. unfold v4_name. rewrite length_labels.
  assert (length (reverse (toBytes a)) = 4%nat) as Hl
    by (by rewrite length_reverse, length_toBytes, Hf).
  assert (Forall is_byte (reverse (toBytes a))) as Hb by apply Forall_reverse, toBytes_bytes.
  assert (∀ l : list Z, Forall is_byte l →
            sum_list_with (λ b, S (String.length (pretty b))) l ≤ 4 * length l)%nat as Hs.
  { induction 1 as [|b l Hlb _ IH]; simpl; [lia|]. pose proof (pretty_byte_length b Hlb). lia. }
  specialize (Hs _ Hb). rewrite Hl in Hs. simpl String.length. lia.
Qed.

Lemma v6_name_length a : isV4 a = false → String.length (v6_name a) = 73%nat.
Proof.
  intros Hf. unfold v6_name. rewrite length_labels.
  assert (∀ l : list ascii, sum_list_with (λ c, S (String.length (String c ""))) l = 2 * length l)%nat
    as Hs by (induction l as [|c l IH]; simpl in *; lia).
  rewrite Hs, length_reverse, length_encodeHex, length_toBytes, Hf. reflexivity.
Qed.

(** every address has a name in the reverse zones, and no two addresses have the
    same: the domain of a reverse update is chosen by the address alone, and addresses
    of the two families are never taken for each other. *)
Theorem reverseIpAddress_injective a b :
  wf_addr a → wf_addr b →
  ∃ name name', reverseIpAddress a = Ok name ∧ reverseIpAddress b = Ok name' ∧
    (name = name' ↔ a = b).
Proof.
  intros Ha Hb. do 2 eexists. split; [apply reverseIpAddress_name|].
  split; [apply reverseIpAddress_name|]. split; [|by intros ->].
  destruct (isV4 a) eqn:Fa, (isV4 b) eqn:Fb; intros He.
  - apply toBytes_inj; [done|done|congruence|]. apply v4_name_inj; congruence.
  - pose proof (v4_name_length a Fa). pose proof (v6_name_length b Fb). rewrite He in *. lia.
  - pose proof (v6_name_length a Fa). pose proof (v4_name_length b Fb). rewrite He in *. lia.
  - apply toBytes_inj; [done|done|congruence|]. apply v6_name_inj; congruence.
Qed.

Lemma reverseIpAddress_injective_witness :
  reverseIpAddress (V4 0xC0000281) = Ok "129.2.0.192.in-addr.arpa." ∧
  ∃ name name', reverseIpAddress (V4 0xC0000281) = Ok name ∧
    reverseIpAddress (V6 0x20010DB8000000000000000000000001) = Ok name' ∧
    (name = name' ↔ V4 0xC0000281 = V6 0x20010DB8000000000000000000000001).
Proof.
  split; [vm_compute; reflexivity|].
  apply (reverseIpAddress_injective (V4 0xC0000281) (V6 0x20010DB8000000000000000000000001));
    vm_compute; split; congruence.
Defined.
