(* ===== verification/NcTrans.v ===== *)
(** * Name change transactions ([src/bin/d2/nc_trans.cc])

    A transaction carries out one name change request: it sends DNS updates to the
    servers of the forward and the reverse domain, one at a time, and moves through
    the states of its model as they are answered.  This file has the members and the
    operations the two kinds of transactions share; [NcAdd] and [NcRemove] have their
    states and handlers.

    Sending is what a transaction does to the world outside: [sent] lists the
    messages given to [DNSClient::doUpdate] with the server and the key, and
    [DnsEnv] says for which messages that call throws and which names the DNS library
    accepts.  Query identifiers are left out of the messages. *)

From S2P Require Import Prelude IoAddress D2Cfg StateModel.
Local Open Scope Z_scope.

(** ** Requests ([src/lib/dhcp_ddns/ncr_msg.h]) *)

Inductive NameChangeType := CHG_ADD | CHG_REMOVE.
Inductive NameChangeStatus := ST_NEW | ST_PENDING | ST_COMPLETED | ST_FAILED.

#[export] Instance NameChangeType_eq_dec : EqDecision NameChangeType.
Proof. solve_decision. Defined.
#[export] Instance NameChangeStatus_eq_dec : EqDecision NameChangeStatus.
Proof. solve_decision. Defined.

Record NameChangeRequest := {
  change_type_ : NameChangeType;
  forward_change_ : bool;
  reverse_change_ : bool;
  fqdn_ : string;
  ip_io_address_ : IOAddress;
  dhcid_ : list Z;
  lease_expires_on_ : Z;
  lease_length_ : Z;
  status_ : NameChangeStatus
}.

Definition setStatus (st : NameChangeStatus) (n : NameChangeRequest) : NameChangeRequest :=
  {| change_type_ := change_type_ n; forward_change_ := forward_change_ n;
     reverse_change_ := reverse_change_ n; fqdn_ := fqdn_ n;
     ip_io_address_ := ip_io_address_ n; dhcid_ := dhcid_ n;
     lease_expires_on_ := lease_expires_on_ n; lease_length_ := lease_length_ n;
     status_ := st |}.

Definition setForwardChange (b : bool) (n : NameChangeRequest) : NameChangeRequest :=
  {| change_type_ := change_type_ n; forward_change_ := b;
     reverse_change_ := reverse_change_ n; fqdn_ := fqdn_ n;
     ip_io_address_ := ip_io_address_ n; dhcid_ := dhcid_ n;
     lease_expires_on_ := lease_expires_on_ n; lease_length_ := lease_length_ n;
     status_ := status_ n |}.

Definition setReverseChange (b : bool) (n : NameChangeRequest) : NameChangeRequest :=
  {| change_type_ := change_type_ n; forward_change_ := forward_change_ n;
     reverse_change_ := b; fqdn_ := fqdn_ n;
     ip_io_address_ := ip_io_address_ n; dhcid_ := dhcid_ n;
     lease_expires_on_ := lease_expires_on_ n; lease_length_ := lease_length_ n;
     status_ := status_ n |}.

(** ** Messages ([src/bin/d2/d2_update_message.h], [src/lib/dns/rrset.h]) *)

Inductive RRClass := CLASS_IN | CLASS_NONE | CLASS_ANY.
Inductive RRType := TYPE_A | TYPE_AAAA | TYPE_PTR | TYPE_DHCID | TYPE_ANY.

#[export] Instance RRClass_eq_dec : EqDecision RRClass.
Proof. solve_decision. Defined.
#[export] Instance RRType_eq_dec : EqDecision RRType.
Proof. solve_decision. Defined.

Inductive Rdata :=
  | RdataA (a : IOAddress)
  | RdataAAAA (a : IOAddress)
  | RdataPTR (name : string)
  | RdataDHCID (digest : list Z).

#[export] Instance Rdata_eq_dec : EqDecision Rdata.
Proof. solve_decision. Defined.

Record RRset := {
  rr_name : string;
  rr_class : RRClass;
  rr_type : RRType;
  rr_ttl : Z;
  rr_rdata : list Rdata
}.

Definition mkRRset name cl ty ttl : RRset :=
  {| rr_name := name; rr_class := cl; rr_type := ty; rr_ttl := ttl; rr_rdata := [] |}.

Definition addRdata (d : Rdata) (r : RRset) : RRset :=
  {| rr_name := rr_name r; rr_class := rr_class r; rr_type := rr_type r; rr_ttl := rr_ttl r;
     rr_rdata := rr_rdata r ++ [d] |}.

Record D2UpdateMessage := {
  msg_zone : string;
  msg_prerequisite : list RRset;
  msg_update : list RRset
}.

Definition add_prerequisite (r : RRset) (m : D2UpdateMessage) : D2UpdateMessage :=
  {| msg_zone := msg_zone m; msg_prerequisite := msg_prerequisite m ++ [r];
     msg_update := msg_update m |}.
Definition add_update (r : RRset) (m : D2UpdateMessage) : D2UpdateMessage :=
  {| msg_zone := msg_zone m; msg_prerequisite := msg_prerequisite m;
     msg_update := msg_update m ++ [r] |}.

(** Response codes ([src/lib/dns/rcode.h]). *)
Definition Rcode := Z.
Definition RCODE_NOERROR : Rcode := 0.
Definition RCODE_NXDOMAIN : Rcode := 3.
Definition RCODE_YXDOMAIN : Rcode := 6.
Definition RCODE_NXRRSET : Rcode := 8.

(** ** Transactions *)

(** [DNSClient::Status] *)
Inductive DnsStatus := SUCCESS | TIMEOUT | IO_STOPPED | INVALID_RESPONSE | OTHER.

#[export] Instance DnsStatus_eq_dec : EqDecision DnsStatus.
Proof. solve_decision. Defined.

Definition READY_ST : Z := SM_DERIVED_STATE_MIN + 1.
Definition SELECTING_FWD_SERVER_ST : Z := SM_DERIVED_STATE_MIN + 2.
Definition SELECTING_REV_SERVER_ST : Z := SM_DERIVED_STATE_MIN + 3.
Definition PROCESS_TRANS_OK_ST : Z := SM_DERIVED_STATE_MIN + 4.
Definition PROCESS_TRANS_FAILED_ST : Z := SM_DERIVED_STATE_MIN + 5.
Definition NCT_DERIVED_STATE_MIN : Z := SM_DERIVED_STATE_MIN + 101.

Definition SELECT_SERVER_EVT : Z := SM_DERIVED_EVENT_MIN + 1.
Definition SERVER_SELECTED_EVT : Z := SM_DERIVED_EVENT_MIN + 2.
Definition SERVER_IO_ERROR_EVT : Z := SM_DERIVED_EVENT_MIN + 3.
Definition NO_MORE_SERVERS_EVT : Z := SM_DERIVED_EVENT_MIN + 4.
Definition IO_COMPLETED_EVT : Z := SM_DERIVED_EVENT_MIN + 5.
Definition UPDATE_OK_EVT : Z := SM_DERIVED_EVENT_MIN + 6.
Definition UPDATE_FAILED_EVT : Z := SM_DERIVED_EVENT_MIN + 7.
Definition NCT_DERIVED_EVENT_MIN : Z := SM_DERIVED_EVENT_MIN + 101.

Definition MAX_UPDATE_TRIES_PER_SERVER : nat := 3.

Record Transaction := {
  ncr_ : NameChangeRequest;
  forward_domain_ : option DdnsDomain;
  reverse_domain_ : option DdnsDomain;
  dns_client_ : bool;
  dns_update_request_ : option D2UpdateMessage;
  dns_update_status_ : DnsStatus;
  dns_update_response_ : option Rcode;
  forward_change_completed_ : bool;
  reverse_change_completed_ : bool;
  current_server_list_ : option (list DnsServerInfo);
  current_server_ : option DnsServerInfo;
  next_server_pos_ : nat;
  update_attempts_ : nat;
  tsig_key_ : option string;
  sent : list (DnsServerInfo * D2UpdateMessage * option string)
}.

(** The constructor. *)
Definition mkNameChangeTransaction (ncr : NameChangeRequest)
    (forward_domain reverse_domain : option DdnsDomain) : res Transaction :=
  _ ← throw_if (forward_change_ ncr && bool_decide (forward_domain = None))
        NameChangeTransactionError;
  _ ← throw_if (reverse_change_ ncr && bool_decide (reverse_domain = None))
        NameChangeTransactionError;
  mret {| ncr_ := ncr; forward_domain_ := forward_domain; reverse_domain_ := reverse_domain;
          dns_client_ := false; dns_update_request_ := None; dns_update_status_ := OTHER;
          dns_update_response_ := None; forward_change_completed_ := false;
          reverse_change_completed_ := false; current_server_list_ := None;
          current_server_ := None; next_server_pos_ := 0; update_attempts_ := 0;
          tsig_key_ := None; sent := [] |}.

(** *** Setters *)

Definition with_ncr n (t : Transaction) : Transaction :=
  {| ncr_ := n; forward_domain_ := forward_domain_ t; reverse_domain_ := reverse_domain_ t;
     dns_client_ := dns_client_ t; dns_update_request_ := dns_update_request_ t;
     dns_update_status_ := dns_update_status_ t; dns_update_response_ := dns_update_response_ t;
     forward_change_completed_ := forward_change_completed_ t;
     reverse_change_completed_ := reverse_change_completed_ t;
     current_server_list_ := current_server_list_ t; current_server_ := current_server_ t;
     next_server_pos_ := next_server_pos_ t; update_attempts_ := update_attempts_ t;
     tsig_key_ := tsig_key_ t; sent := sent t |}.
Definition with_request request attempts (t : Transaction) : Transaction :=
  {| ncr_ := ncr_ t; forward_domain_ := forward_domain_ t; reverse_domain_ := reverse_domain_ t;
     dns_client_ := dns_client_ t; dns_update_request_ := request;
     dns_update_status_ := dns_update_status_ t; dns_update_response_ := dns_update_response_ t;
     forward_change_completed_ := forward_change_completed_ t;
     reverse_change_completed_ := reverse_change_completed_ t;
     current_server_list_ := current_server_list_ t; current_server_ := current_server_ t;
     next_server_pos_ := next_server_pos_ t; update_attempts_ := attempts;
     tsig_key_ := tsig_key_ t; sent := sent t |}.
Definition with_status st (t : Transaction) : Transaction :=
  {| ncr_ := ncr_ t; forward_domain_ := forward_domain_ t; reverse_domain_ := reverse_domain_ t;
     dns_client_ := dns_client_ t; dns_update_request_ := dns_update_request_ t;
     dns_update_status_ := st; dns_update_response_ := dns_update_response_ t;
     forward_change_completed_ := forward_change_completed_ t;
     reverse_change_completed_ := reverse_change_completed_ t;
     current_server_list_ := current_server_list_ t; current_server_ := current_server_ t;
     next_server_pos_ := next_server_pos_ t; update_attempts_ := update_attempts_ t;
     tsig_key_ := tsig_key_ t; sent := sent t |}.
Definition with_response response (t : Transaction) : Transaction :=
  {| ncr_ := ncr_ t; forward_domain_ := forward_domain_ t; reverse_domain_ := reverse_domain_ t;
     dns_client_ := dns_client_ t; dns_update_request_ := dns_update_request_ t;
     dns_update_status_ := dns_update_status_ t; dns_update_response_ := response;
     forward_change_completed_ := forward_change_completed_ t;
     reverse_change_completed_ := reverse_change_completed_ t;
     current_server_list_ := current_server_list_ t; current_server_ := current_server_ t;
     next_server_pos_ := next_server_pos_ t; update_attempts_ := update_attempts_ t;
     tsig_key_ := tsig_key_ t; sent := sent t |}.
Definition with_forward_completed b (t : Transaction) : Transaction :=
  {| ncr_ := ncr_ t; forward_domain_ := forward_domain_ t; reverse_domain_ := reverse_domain_ t;
     dns_client_ := dns_client_ t; dns_update_request_ := dns_update_request_ t;
     dns_update_status_ := dns_update_status_ t; dns_update_response_ := dns_update_response_ t;
     forward_change_completed_ := b; reverse_change_completed_ := reverse_change_completed_ t;
     current_server_list_ := current_server_list_ t; current_server_ := current_server_ t;
     next_server_pos_ := next_server_pos_ t; update_attempts_ := update_attempts_ t;
     tsig_key_ := tsig_key_ t; sent := sent t |}.
Definition with_reverse_completed b (t : Transaction) : Transaction :=
  {| ncr_ := ncr_ t; forward_domain_ := forward_domain_ t; reverse_domain_ := reverse_domain_ t;
     dns_client_ := dns_client_ t; dns_update_request_ := dns_update_request_ t;
     dns_update_status_ := dns_update_status_ t; dns_update_response_ := dns_update_response_ t;
     forward_change_completed_ := forward_change_completed_ t; reverse_change_completed_ := b;
     current_server_list_ := current_server_list_ t; current_server_ := current_server_ t;
     next_server_pos_ := next_server_pos_ t; update_attempts_ := update_attempts_ t;
     tsig_key_ := tsig_key_ t; sent := sent t |}.
Definition with_servers list server pos key (t : Transaction) : Transaction :=
  {| ncr_ := ncr_ t; forward_domain_ := forward_domain_ t; reverse_domain_ := reverse_domain_ t;
     dns_client_ := dns_client_ t; dns_update_request_ := dns_update_request_ t;
     dns_update_status_ := dns_update_status_ t; dns_update_response_ := dns_update_response_ t;
     forward_change_completed_ := forward_change_completed_ t;
     reverse_change_completed_ := reverse_change_completed_ t; current_server_list_ := list;
     current_server_ := server; next_server_pos_ := pos; update_attempts_ := update_attempts_ t;
     tsig_key_ := key; sent := sent t |}.
Definition with_client b (t : Transaction) : Transaction :=
  {| ncr_ := ncr_ t; forward_domain_ := forward_domain_ t; reverse_domain_ := reverse_domain_ t;
     dns_client_ := b; dns_update_request_ := dns_update_request_ t;
     dns_update_status_ := dns_update_status_ t; dns_update_response_ := dns_update_response_ t;
     forward_change_completed_ := forward_change_completed_ t;
     reverse_change_completed_ := reverse_change_completed_ t;
     current_server_list_ := current_server_list_ t; current_server_ := current_server_ t;
     next_server_pos_ := next_server_pos_ t; update_attempts_ := update_attempts_ t;
     tsig_key_ := tsig_key_ t; sent := sent t |}.
Definition with_sent l (t : Transaction) : Transaction :=
  {| ncr_ := ncr_ t; forward_domain_ := forward_domain_ t; reverse_domain_ := reverse_domain_ t;
     dns_client_ := dns_client_ t; dns_update_request_ := dns_update_request_ t;
     dns_update_status_ := dns_update_status_ t; dns_update_response_ := dns_update_response_ t;
     forward_change_completed_ := forward_change_completed_ t;
     reverse_change_completed_ := reverse_change_completed_ t;
     current_server_list_ := current_server_list_ t; current_server_ := current_server_ t;
     next_server_pos_ := next_server_pos_ t; update_attempts_ := update_attempts_ t;
     tsig_key_ := tsig_key_ t; sent := l |}.

(** ** The world outside *)

Class DnsEnv := {
  (** whether [dns::Name] takes the text *)
  name_ok : string → bool;
  (** whether [DNSClient::doUpdate] takes the message *)
  send_ok : DnsServerInfo → D2UpdateMessage → option string → bool
}.

(** ** The operations *)

Section Ops.
Context {H : Type} `{DnsEnv}.
Implicit Types (m : ST (StateModel H Transaction) unit).

Definition trans : ST (StateModel H Transaction) Transaction := s ← get; mret (derived s).
Definition update_trans (f : Transaction → Transaction) : ST (StateModel H Transaction) unit :=
  modify (λ s, with_derived (f (derived s)) s).

Definition setNcrStatus (st : NameChangeStatus) : ST (StateModel H Transaction) unit :=
  update_trans (λ t, with_ncr (setStatus st (ncr_ t)) t).
Definition setForwardChangeCompleted (b : bool) : ST (StateModel H Transaction) unit :=
  update_trans (with_forward_completed b).
Definition setReverseChangeCompleted (b : bool) : ST (StateModel H Transaction) unit :=
  update_trans (with_reverse_completed b).
Definition setDnsUpdateRequest (request : D2UpdateMessage) : ST (StateModel H Transaction) unit :=
  update_trans (λ t, with_request (Some request) (update_attempts_ t) t).
Definition clearDnsUpdateRequest : ST (StateModel H Transaction) unit :=
  update_trans (with_request None 0).

(** What dereferencing a pointer gives. *)
Definition deref {A} (p : option A) : ST (StateModel H Transaction) A :=
  match p with Some a => mret a | None => throw AssertionFailure end.

Definition sendUpdate : ST (StateModel H Transaction) unit :=
  try_catch
    (_ ← update_trans (λ t, with_request (dns_update_request_ t) (S (update_attempts_ t)) t);
     t ← trans;
     server ← deref (current_server_ t);
     request ← deref (dns_update_request_ t);
     if negb (dns_client_ t) then throw AssertionFailure
     else if send_ok server request (tsig_key_ t) then
       _ ← update_trans (λ t, with_sent (sent t ++ [(server, request, tsig_key_ t)]) t);
       postNextEvent NOP_EVT
     else throw SendError)
    (transition PROCESS_TRANS_FAILED_ST UPDATE_FAILED_EVT).

Definition nct_defineEvents : ST (StateModel H Transaction) unit :=
  _ ← base_defineEvents;
  _ ← defineEvent SELECT_SERVER_EVT "SELECT_SERVER_EVT";
  _ ← defineEvent SERVER_SELECTED_EVT "SERVER_SELECTED_EVT";
  _ ← defineEvent SERVER_IO_ERROR_EVT "SERVER_IO_ERROR_EVT";
  _ ← defineEvent NO_MORE_SERVERS_EVT "NO_MORE_SERVERS_EVT";
  _ ← defineEvent IO_COMPLETED_EVT "IO_COMPLETED_EVT";
  _ ← defineEvent UPDATE_OK_EVT "UPDATE_OK_EVT";
  defineEvent UPDATE_FAILED_EVT "UPDATE_FAILED_EVT".

Definition nct_verifyEvents : ST (StateModel H Transaction) unit :=
  _ ← base_verifyEvents;
  _ ← getEvent SELECT_SERVER_EVT;
  _ ← getEvent SERVER_SELECTED_EVT;
  _ ← getEvent SERVER_IO_ERROR_EVT;
  _ ← getEvent NO_MORE_SERVERS_EVT;
  _ ← getEvent IO_COMPLETED_EVT;
  _ ← getEvent UPDATE_OK_EVT;
  _ ← getEvent UPDATE_FAILED_EVT;
  mret tt.

Definition nct_verifyStates : ST (StateModel H Transaction) unit :=
  _ ← base_verifyStates;
  _ ← getState READY_ST;
  _ ← getState SELECTING_FWD_SERVER_ST;
  _ ← getState SELECTING_REV_SERVER_ST;
  _ ← getState PROCESS_TRANS_OK_ST;
  _ ← getState PROCESS_TRANS_FAILED_ST;
  mret tt.

Definition nct_onModelFailure (t : Transaction) : Transaction :=
  with_ncr (setStatus ST_FAILED (ncr_ t)) t.

Definition retryTransition (fail_to_state : Z) : ST (StateModel H Transaction) unit :=
  s ← get;
  if (update_attempts_ (derived s) <? MAX_UPDATE_TRIES_PER_SERVER)%nat
  then transition (curr_state_ s) SERVER_SELECTED_EVT
  else transition fail_to_state SERVER_IO_ERROR_EVT.

Definition initServerSelection (domain : option DdnsDomain) : ST (StateModel H Transaction) unit :=
  match domain with
  | None => throw NameChangeTransactionError
  | Some d => update_trans (with_servers (Some (servers_ d)) None 0 (tsig_key_info_ d))
  end.

Definition selectNextServer : ST (StateModel H Transaction) bool :=
  t ← trans;
  match current_server_list_ t ≫= λ l, l !! next_server_pos_ t with
  | Some server =>
      _ ← update_trans (λ t, with_client true (with_response None
             (with_servers (current_server_list_ t) (Some server) (S (next_server_pos_ t))
                (tsig_key_ t) t)));
      mret true
  | None => mret false
  end.

(** What the handlers do with the end of an exchange: [success] with the code of the
    response, another try when there was no valid response, and else the end. *)
Definition on_completion (success : Rcode → ST (StateModel H Transaction) unit)
    (fail_to_state : Z) : ST (StateModel H Transaction) unit :=
  t ← trans;
  match dns_update_status_ t with
  | SUCCESS => rcode ← deref (dns_update_response_ t); success rcode
  | TIMEOUT | OTHER | INVALID_RESPONSE => retryTransition fail_to_state
  | IO_STOPPED => transition PROCESS_TRANS_FAILED_ST UPDATE_FAILED_EVT
  end.

(** How the handlers get a request built and sent. *)
Definition build_and_send (build : Transaction → res D2UpdateMessage) :
    ST (StateModel H Transaction) unit :=
  t ← trans;
  match dns_update_request_ t with
  | Some _ => sendUpdate
  | None =>
      match build t with
      | Ok request => _ ← setDnsUpdateRequest request; sendUpdate
      | Throw _ => transition PROCESS_TRANS_FAILED_ST UPDATE_FAILED_EVT
      end
  end.

(** *** Building messages *)

Definition dns_Name (text : string) : res string := if name_ok text then Ok text else Throw DnsError.

Definition prepNewRequest (domain : option DdnsDomain) : res D2UpdateMessage :=
  match domain with
  | None => Throw NameChangeTransactionError
  | Some d =>
      match dns_Name (domain_name_ d) with
      | Ok zone => Ok {| msg_zone := zone; msg_prerequisite := []; msg_update := [] |}
      | Throw _ => Throw NameChangeTransactionError
      end
  end.

Definition addLeaseAddressRdata (t : Transaction) (rrset : RRset) : res RRset :=
  let a := ip_io_address_ (ncr_ t) in
  mret (addRdata (if isV4 a then RdataA a else RdataAAAA a) rrset).

Definition addDhcidRdata (t : Transaction) (rrset : RRset) : res RRset :=
  if bool_decide (dhcid_ (ncr_ t) = []) then Throw NameChangeTransactionError
  else mret (addRdata (RdataDHCID (dhcid_ (ncr_ t))) rrset).

Definition addPtrRdata (t : Transaction) (rrset : RRset) : res RRset :=
  match dns_Name (fqdn_ (ncr_ t)) with
  | Ok name => mret (addRdata (RdataPTR name) rrset)
  | Throw _ => Throw NameChangeTransactionError
  end.

Definition getAddressRRType (t : Transaction) : RRType :=
  if isV4 (ip_io_address_ (ncr_ t)) then TYPE_A else TYPE_AAAA.

(** *** Entry points *)

Context `{Virtual H Transaction}.

Definition startTransaction (fuel : nat) : ST (StateModel H Transaction) unit :=
  _ ← setNcrStatus ST_PENDING;
  startModel fuel READY_ST.

(** [operator()]: the DNS client calls it when the exchange ends, after it has put the
    response in the place the transaction gave it. *)
Definition io_completed (fuel : nat) (status : DnsStatus) (response : option Rcode) :
    ST (StateModel H Transaction) unit :=
  _ ← update_trans (λ t, with_status status
         (match response with Some _ => with_response response t | None => t end));
  runModel fuel IO_COMPLETED_EVT.
End Ops.
