(* ===== verification/NcAdd.v ===== *)
(** * Transactions that add DNS entries ([src/bin/d2/nc_add.cc])

    The states, handlers and messages of [NameAddTransaction]: the forward entries
    are added, or replaced when the name is in use, and then the reverse entries are
    replaced (RFC 4703). *)

From S2P Require Import Prelude IoAddress D2Cfg StateModel NcTrans.
Local Open Scope Z_scope.

Definition ADDING_FWD_ADDRS_ST : Z := NCT_DERIVED_STATE_MIN + 1.
Definition REPLACING_FWD_ADDRS_ST : Z := NCT_DERIVED_STATE_MIN + 2.
Definition REPLACING_REV_PTRS_ST : Z := NCT_DERIVED_STATE_MIN + 3.

Definition FQDN_IN_USE_EVT : Z := NCT_DERIVED_EVENT_MIN + 1.
Definition FQDN_NOT_IN_USE_EVT : Z := NCT_DERIVED_EVENT_MIN + 2.

(** The handlers. *)
Inductive AddHandler :=
  | AddNop
  | AddReady
  | AddSelectingFwdServer
  | AddSelectingRevServer
  | AddingFwdAddrs
  | ReplacingFwdAddrs
  | ReplacingRevPtrs
  | ProcessAddOk
  | ProcessAddFailed.

(** The constructor. *)
Definition mkNameAddTransaction (ncr : NameChangeRequest)
    (forward_domain reverse_domain : option DdnsDomain) : res Transaction :=
  t ← mkNameChangeTransaction ncr forward_domain reverse_domain;
  _ ← throw_if (bool_decide (change_type_ ncr ≠ CHG_ADD)) NameAddTransactionError;
  mret t.

Section Add.
Context `{DnsEnv}.

(** ** The messages *)

Definition buildAddFwdAddressRequest (t : Transaction) : res D2UpdateMessage :=
  request ← prepNewRequest (forward_domain_ t);
  fqdn ← dns_Name (fqdn_ (ncr_ t));
  let request := add_prerequisite (mkRRset fqdn CLASS_NONE TYPE_ANY 0) request in
  let lease_ttl := lease_length_ (ncr_ t) in
  update ← addLeaseAddressRdata t (mkRRset fqdn CLASS_IN (getAddressRRType t) lease_ttl);
  let request := add_update update request in
  update ← addDhcidRdata t (mkRRset fqdn CLASS_IN TYPE_DHCID lease_ttl);
  mret (add_update update request).

Definition buildReplaceFwdAddressRequest (t : Transaction) : res D2UpdateMessage :=
  request ← prepNewRequest (forward_domain_ t);
  fqdn ← dns_Name (fqdn_ (ncr_ t));
  let request := add_prerequisite (mkRRset fqdn CLASS_ANY TYPE_ANY 0) request in
  prereq ← addDhcidRdata t (mkRRset fqdn CLASS_IN TYPE_DHCID 0);
  let request := add_prerequisite prereq request in
  let lease_ttl := lease_length_ (ncr_ t) in
  let request := add_update (mkRRset fqdn CLASS_ANY (getAddressRRType t) 0) request in
  update ← addLeaseAddressRdata t (mkRRset fqdn CLASS_IN (getAddressRRType t) lease_ttl);
  mret (add_update update request).

Definition buildReplaceRevPtrsRequest (t : Transaction) : res D2UpdateMessage :=
  request ← prepNewRequest (reverse_domain_ t);
  rev_addr ← reverseIpAddress (ip_io_address_ (ncr_ t));
  rev_ip ← dns_Name rev_addr;
  let lease_ttl := lease_length_ (ncr_ t) in
  let request := add_update (mkRRset rev_ip CLASS_ANY TYPE_PTR 0) request in
  let request := add_update (mkRRset rev_ip CLASS_ANY TYPE_DHCID 0) request in
  update ← addPtrRdata t (mkRRset rev_ip CLASS_IN TYPE_PTR lease_ttl);
  let request := add_update update request in
  update ← addDhcidRdata t (mkRRset rev_ip CLASS_IN TYPE_DHCID lease_ttl);
  mret (add_update update request).

(** ** The handlers *)

Definition readyHandler : ST (StateModel AddHandler Transaction) unit :=
  s ← get;
  if next_event_ s =? START_EVT then
    match forward_domain_ (derived s) with
    | Some _ => transition SELECTING_FWD_SERVER_ST SELECT_SERVER_EVT
    | None => transition SELECTING_REV_SERVER_ST SELECT_SERVER_EVT
    end
  else throw NameAddTransactionError.

Definition selectingFwdServerHandler : ST (StateModel AddHandler Transaction) unit :=
  s ← get;
  _ ← (if next_event_ s =? SELECT_SERVER_EVT then
         initServerSelection (forward_domain_ (derived s))
       else if next_event_ s =? SERVER_IO_ERROR_EVT then mret tt
       else throw NameAddTransactionError);
  selected ← selectNextServer;
  if (selected : bool) then transition ADDING_FWD_ADDRS_ST SERVER_SELECTED_EVT
  else transition PROCESS_TRANS_FAILED_ST NO_MORE_SERVERS_EVT.

(** The forward change is done: the reverse change, if any, is next. *)
Definition forward_change_done : ST (StateModel AddHandler Transaction) unit :=
  _ ← setForwardChangeCompleted true;
  t ← trans;
  match reverse_domain_ t with
  | Some _ => transition SELECTING_REV_SERVER_ST SELECT_SERVER_EVT
  | None => transition PROCESS_TRANS_OK_ST UPDATE_OK_EVT
  end.

Definition addingFwdAddrsHandler : ST (StateModel AddHandler Transaction) unit :=
  entry ← doOnEntry;
  _ ← (if (entry : bool) then clearDnsUpdateRequest else mret tt);
  s ← get;
  if next_event_ s =? SERVER_SELECTED_EVT then build_and_send buildAddFwdAddressRequest
  else if next_event_ s =? IO_COMPLETED_EVT then
    on_completion
      (λ rcode,
        if rcode =? RCODE_NOERROR then forward_change_done
        else if rcode =? RCODE_YXDOMAIN then transition REPLACING_FWD_ADDRS_ST FQDN_IN_USE_EVT
        else transition PROCESS_TRANS_FAILED_ST UPDATE_FAILED_EVT)
      SELECTING_FWD_SERVER_ST
  else throw NameAddTransactionError.

Definition replacingFwdAddrsHandler : ST (StateModel AddHandler Transaction) unit :=
  entry ← doOnEntry;
  _ ← (if (entry : bool) then clearDnsUpdateRequest else mret tt);
  s ← get;
  if (next_event_ s =? FQDN_IN_USE_EVT) || (next_event_ s =? SERVER_SELECTED_EVT)
  then build_and_send buildReplaceFwdAddressRequest
  else if next_event_ s =? IO_COMPLETED_EVT then
    on_completion
      (λ rcode,
        if rcode =? RCODE_NOERROR then forward_change_done
        else if rcode =? RCODE_NXDOMAIN then transition ADDING_FWD_ADDRS_ST SERVER_SELECTED_EVT
        else transition PROCESS_TRANS_FAILED_ST UPDATE_FAILED_EVT)
      SELECTING_FWD_SERVER_ST
  else throw NameAddTransactionError.

Definition selectingRevServerHandler : ST (StateModel AddHandler Transaction) unit :=
  s ← get;
  _ ← (if next_event_ s =? SELECT_SERVER_EVT then
         initServerSelection (reverse_domain_ (derived s))
       else if next_event_ s =? SERVER_IO_ERROR_EVT then mret tt
       else throw NameAddTransactionError);
  selected ← selectNextServer;
  if (selected : bool) then transition REPLACING_REV_PTRS_ST SERVER_SELECTED_EVT
  else transition PROCESS_TRANS_FAILED_ST NO_MORE_SERVERS_EVT.

Definition replacingRevPtrsHandler : ST (StateModel AddHandler Transaction) unit :=
  entry ← doOnEntry;
  _ ← (if (entry : bool) then clearDnsUpdateRequest else mret tt);
  s ← get;
  if next_event_ s =? SERVER_SELECTED_EVT then build_and_send buildReplaceRevPtrsRequest
  else if next_event_ s =? IO_COMPLETED_EVT then
    on_completion
      (λ rcode,
        if rcode =? RCODE_NOERROR then
          _ ← setReverseChangeCompleted true;
          transition PROCESS_TRANS_OK_ST UPDATE_OK_EVT
        else transition PROCESS_TRANS_FAILED_ST UPDATE_FAILED_EVT)
      SELECTING_REV_SERVER_ST
  else throw NameAddTransactionError.

Definition processAddOkHandler : ST (StateModel AddHandler Transaction) unit :=
  s ← get;
  if next_event_ s =? UPDATE_OK_EVT then
    _ ← setNcrStatus ST_COMPLETED; endModel
  else throw NameAddTransactionError.

Definition processAddFailedHandler : ST (StateModel AddHandler Transaction) unit :=
  s ← get;
  if (next_event_ s =? UPDATE_FAILED_EVT) || (next_event_ s =? NO_MORE_SERVERS_EVT) then
    _ ← setNcrStatus ST_FAILED; endModel
  else throw NameAddTransactionError.

Definition run_add_handler (h : AddHandler) : ST (StateModel AddHandler Transaction) unit :=
  match h with
  | AddNop => mret tt
  | AddReady => readyHandler
  | AddSelectingFwdServer => selectingFwdServerHandler
  | AddSelectingRevServer => selectingRevServerHandler
  | AddingFwdAddrs => addingFwdAddrsHandler
  | ReplacingFwdAddrs => replacingFwdAddrsHandler
  | ReplacingRevPtrs => replacingRevPtrsHandler
  | ProcessAddOk => processAddOkHandler
  | ProcessAddFailed => processAddFailedHandler
  end.

(** ** The dictionaries *)

Definition add_defineEvents : ST (StateModel AddHandler Transaction) unit :=
  _ ← nct_defineEvents;
  _ ← defineEvent FQDN_IN_USE_EVT "FQDN_IN_USE_EVT";
  defineEvent FQDN_NOT_IN_USE_EVT "FQDN_NOT_IN_USE_EVT".

Definition add_verifyEvents : ST (StateModel AddHandler Transaction) unit :=
  _ ← nct_verifyEvents;
  _ ← getEvent FQDN_IN_USE_EVT;
  _ ← getEvent FQDN_NOT_IN_USE_EVT;
  mret tt.

Definition add_defineStates : ST (StateModel AddHandler Transaction) unit :=
  _ ← base_defineStates AddNop;
  _ ← defineState READY_ST "READY_ST" AddReady STATE_PAUSE_NEVER;
  _ ← defineState SELECTING_FWD_SERVER_ST "SELECTING_FWD_SERVER_ST" AddSelectingFwdServer
        STATE_PAUSE_NEVER;
  _ ← defineState SELECTING_REV_SERVER_ST "SELECTING_REV_SERVER_ST" AddSelectingRevServer
        STATE_PAUSE_NEVER;
  _ ← defineState ADDING_FWD_ADDRS_ST "ADDING_FWD_ADDRS_ST" AddingFwdAddrs STATE_PAUSE_NEVER;
  _ ← defineState REPLACING_FWD_ADDRS_ST "REPLACING_FWD_ADDRS_ST" ReplacingFwdAddrs
        STATE_PAUSE_NEVER;
  _ ← defineState REPLACING_REV_PTRS_ST "REPLACING_REV_PTRS_ST" ReplacingRevPtrs
        STATE_PAUSE_NEVER;
  _ ← defineState PROCESS_TRANS_OK_ST "PROCESS_TRANS_OK_ST" ProcessAddOk STATE_PAUSE_NEVER;
  defineState PROCESS_TRANS_FAILED_ST "PROCESS_TRANS_FAILED_ST" ProcessAddFailed
    STATE_PAUSE_NEVER.

Definition add_verifyStates : ST (StateModel AddHandler Transaction) unit :=
  _ ← nct_verifyStates;
  _ ← getState ADDING_FWD_ADDRS_ST;
  _ ← getState REPLACING_FWD_ADDRS_ST;
  _ ← getState REPLACING_REV_PTRS_ST;
  mret tt.

#[export] Instance add_virtual : Virtual AddHandler Transaction :=
  {| nopHandler := AddNop; run_handler := run_add_handler;
     vdefineEvents := add_defineEvents; vverifyEvents := add_verifyEvents;
     vdefineStates := add_defineStates; vverifyStates := add_verifyStates;
     onModelFailure := nct_onModelFailure |}.
End Add.
