(* ===== verification/NcRemove.v ===== *)
(** * Transactions that remove DNS entries ([src/bin/d2/nc_remove.cc])

    The states, handlers and messages of [NameRemoveTransaction]: the forward address,
    then the other forward entries of the name, then the reverse entries (RFC 4703). *)

From S2P Require Import Prelude IoAddress D2Cfg StateModel NcTrans.
Local Open Scope Z_scope.

Definition REMOVING_FWD_ADDRS_ST : Z := NCT_DERIVED_STATE_MIN + 1.
Definition REMOVING_FWD_RRS_ST : Z := NCT_DERIVED_STATE_MIN + 2.
Definition REMOVING_REV_PTRS_ST : Z := NCT_DERIVED_STATE_MIN + 3.

(** The handlers. *)
Inductive RemoveHandler :=
  | RemoveNop
  | RemoveReady
  | RemoveSelectingFwdServer
  | RemoveSelectingRevServer
  | RemovingFwdAddrs
  | RemovingFwdRRs
  | RemovingRevPtrs
  | ProcessRemoveOk
  | ProcessRemoveFailed.

(** The constructor. *)
Definition mkNameRemoveTransaction (ncr : NameChangeRequest)
    (forward_domain reverse_domain : option DdnsDomain) : res Transaction :=
  t ← mkNameChangeTransaction ncr forward_domain reverse_domain;
  _ ← throw_if (bool_decide (change_type_ ncr ≠ CHG_REMOVE)) NameRemoveTransactionError;
  mret t.

Section Remove.
Context `{DnsEnv}.

(** ** The messages *)

Definition buildRemoveFwdAddressRequest (t : Transaction) : res D2UpdateMessage :=
  request ← prepNewRequest (forward_domain_ t);
  fqdn ← dns_Name (fqdn_ (ncr_ t));
  prereq ← addDhcidRdata t (mkRRset fqdn CLASS_IN TYPE_DHCID 0);
  let request := add_prerequisite prereq request in
  update ← addLeaseAddressRdata t (mkRRset fqdn CLASS_NONE (getAddressRRType t) 0);
  mret (add_update update request).

Definition buildRemoveFwdRRsRequest (t : Transaction) : res D2UpdateMessage :=
  request ← prepNewRequest (forward_domain_ t);
  fqdn ← dns_Name (fqdn_ (ncr_ t));
  prereq ← addDhcidRdata t (mkRRset fqdn CLASS_IN TYPE_DHCID 0);
  let request := add_prerequisite prereq request in
  let request := add_prerequisite (mkRRset fqdn CLASS_NONE TYPE_A 0) request in
  let request := add_prerequisite (mkRRset fqdn CLASS_NONE TYPE_AAAA 0) request in
  mret (add_update (mkRRset fqdn CLASS_ANY TYPE_ANY 0) request).

Definition buildRemoveRevPtrsRequest (t : Transaction) : res D2UpdateMessage :=
  request ← prepNewRequest (reverse_domain_ t);
  rev_addr ← reverseIpAddress (ip_io_address_ (ncr_ t));
  rev_ip ← dns_Name rev_addr;
  prereq ← addPtrRdata t (mkRRset rev_ip CLASS_IN TYPE_PTR 0);
  let request := add_prerequisite prereq request in
  mret (add_update (mkRRset rev_ip CLASS_ANY TYPE_ANY 0) request).

(** ** The handlers *)

Definition readyHandler : ST (StateModel RemoveHandler Transaction) unit :=
  s ← get;
  if next_event_ s =? START_EVT then
    match forward_domain_ (derived s) with
    | Some _ => transition SELECTING_FWD_SERVER_ST SELECT_SERVER_EVT
    | None => transition SELECTING_REV_SERVER_ST SELECT_SERVER_EVT
    end
  else throw NameRemoveTransactionError.

Definition selectingFwdServerHandler : ST (StateModel RemoveHandler Transaction) unit :=
  s ← get;
  _ ← (if next_event_ s =? SELECT_SERVER_EVT then
         initServerSelection (forward_domain_ (derived s))
       else if next_event_ s =? SERVER_IO_ERROR_EVT then mret tt
       else throw NameRemoveTransactionError);
  selected ← selectNextServer;
  if (selected : bool) then transition REMOVING_FWD_ADDRS_ST SERVER_SELECTED_EVT
  else transition PROCESS_TRANS_FAILED_ST NO_MORE_SERVERS_EVT.

(** The answers that mean the entries are gone. *)
Definition gone (rcode : Rcode) : bool := (rcode =? RCODE_NOERROR) || (rcode =? RCODE_NXRRSET).

Definition removingFwdAddrsHandler : ST (StateModel RemoveHandler Transaction) unit :=
  entry ← doOnEntry;
  _ ← (if (entry : bool) then clearDnsUpdateRequest else mret tt);
  s ← get;
  if next_event_ s =? SERVER_SELECTED_EVT then build_and_send buildRemoveFwdAddressRequest
  else if next_event_ s =? IO_COMPLETED_EVT then
    on_completion
      (λ rcode,
        if gone rcode then transition REMOVING_FWD_RRS_ST UPDATE_OK_EVT
        else transition PROCESS_TRANS_FAILED_ST UPDATE_FAILED_EVT)
      SELECTING_FWD_SERVER_ST
  else throw NameRemoveTransactionError.

Definition removingFwdRRsHandler : ST (StateModel RemoveHandler Transaction) unit :=
  entry ← doOnEntry;
  _ ← (if (entry : bool) then clearDnsUpdateRequest else mret tt);
  s ← get;
  if (next_event_ s =? UPDATE_OK_EVT) || (next_event_ s =? SERVER_SELECTED_EVT)
  then build_and_send buildRemoveFwdRRsRequest
  else if next_event_ s =? IO_COMPLETED_EVT then
    on_completion
      (λ rcode,
        if gone rcode then
          _ ← setForwardChangeCompleted true;
          t ← trans;
          match reverse_domain_ t with
          | Some _ => transition SELECTING_REV_SERVER_ST SELECT_SERVER_EVT
          | None => transition PROCESS_TRANS_OK_ST UPDATE_OK_EVT
          end
        else transition PROCESS_TRANS_FAILED_ST UPDATE_FAILED_EVT)
      PROCESS_TRANS_FAILED_ST
  else throw NameRemoveTransactionError.

Definition selectingRevServerHandler : ST (StateModel RemoveHandler Transaction) unit :=
  s ← get;
  _ ← (if next_event_ s =? SELECT_SERVER_EVT then
         initServerSelection (reverse_domain_ (derived s))
       else if next_event_ s =? SERVER_IO_ERROR_EVT then mret tt
       else throw NameRemoveTransactionError);
  selected ← selectNextServer;
  if (selected : bool) then transition REMOVING_REV_PTRS_ST SERVER_SELECTED_EVT
  else transition PROCESS_TRANS_FAILED_ST NO_MORE_SERVERS_EVT.

Definition removingRevPtrsHandler : ST (StateModel RemoveHandler Transaction) unit :=
  entry ← doOnEntry;
  _ ← (if (entry : bool) then clearDnsUpdateRequest else mret tt);
  s ← get;
  if next_event_ s =? SERVER_SELECTED_EVT then build_and_send buildRemoveRevPtrsRequest
  else if next_event_ s =? IO_COMPLETED_EVT then
    on_completion
      (λ rcode,
        if gone rcode then
          _ ← setReverseChangeCompleted true;
          transition PROCESS_TRANS_OK_ST UPDATE_OK_EVT
        else transition PROCESS_TRANS_FAILED_ST UPDATE_FAILED_EVT)
      SELECTING_REV_SERVER_ST
  else throw NameRemoveTransactionError.

Definition processRemoveOkHandler : ST (StateModel RemoveHandler Transaction) unit :=
  s ← get;
  if next_event_ s =? UPDATE_OK_EVT then
    _ ← setNcrStatus ST_COMPLETED; endModel
  else throw NameRemoveTransactionError.

Definition processRemoveFailedHandler : ST (StateModel RemoveHandler Transaction) unit :=
  s ← get;
  if (next_event_ s =? UPDATE_FAILED_EVT) || (next_event_ s =? NO_MORE_SERVERS_EVT)
     || (next_event_ s =? SERVER_IO_ERROR_EVT) then
    _ ← setNcrStatus ST_FAILED; endModel
  else throw NameRemoveTransactionError.

Definition run_remove_handler (h : RemoveHandler) : ST (StateModel RemoveHandler Transaction) unit :=
  match h with
  | RemoveNop => mret tt
  | RemoveReady => readyHandler
  | RemoveSelectingFwdServer => selectingFwdServerHandler
  | RemoveSelectingRevServer => selectingRevServerHandler
  | RemovingFwdAddrs => removingFwdAddrsHandler
  | RemovingFwdRRs => removingFwdRRsHandler
  | RemovingRevPtrs => removingRevPtrsHandler
  | ProcessRemoveOk => processRemoveOkHandler
  | ProcessRemoveFailed => processRemoveFailedHandler
  end.

(** ** The dictionaries *)

Definition remove_defineStates : ST (StateModel RemoveHandler Transaction) unit :=
  _ ← base_defineStates RemoveNop;
  _ ← defineState READY_ST "READY_ST" RemoveReady STATE_PAUSE_NEVER;
  _ ← defineState SELECTING_FWD_SERVER_ST "SELECTING_FWD_SERVER_ST" RemoveSelectingFwdServer
        STATE_PAUSE_NEVER;
  _ ← defineState SELECTING_REV_SERVER_ST "SELECTING_REV_SERVER_ST" RemoveSelectingRevServer
        STATE_PAUSE_NEVER;
  _ ← defineState REMOVING_FWD_ADDRS_ST "REMOVING_FWD_ADDRS_ST" RemovingFwdAddrs
        STATE_PAUSE_NEVER;
  _ ← defineState REMOVING_FWD_RRS_ST "REMOVING_FWD_RRS_ST" RemovingFwdRRs STATE_PAUSE_NEVER;
  _ ← defineState REMOVING_REV_PTRS_ST "REMOVING_REV_PTRS_ST" RemovingRevPtrs
        STATE_PAUSE_NEVER;
  _ ← defineState PROCESS_TRANS_OK_ST "PROCESS_TRANS_OK_ST" ProcessRemoveOk STATE_PAUSE_NEVER;
  defineState PROCESS_TRANS_FAILED_ST "PROCESS_TRANS_FAILED_ST" ProcessRemoveFailed
    STATE_PAUSE_NEVER.

Definition remove_verifyStates : ST (StateModel RemoveHandler Transaction) unit :=
  _ ← nct_verifyStates;
  _ ← getState REMOVING_FWD_ADDRS_ST;
  _ ← getState REMOVING_FWD_RRS_ST;
  _ ← getState REMOVING_REV_PTRS_ST;
  mret tt.

#[export] Instance remove_virtual : Virtual RemoveHandler Transaction :=
  {| nopHandler := RemoveNop; run_handler := run_remove_handler;
     vdefineEvents := nct_defineEvents; vverifyEvents := nct_verifyEvents;
     vdefineStates := remove_defineStates; vverifyStates := remove_verifyStates;
     onModelFailure := nct_onModelFailure |}.
End Remove.
