(* ===== verification/NcSpec.v ===== *)
(** * What a name change transaction does, as a protocol

    A transaction talks to one server at a time in one of three phases.  [Protocol]
    has what distinguishes the transactions that add entries from those that remove
    them: how the answer of a server is judged and whether another server is tried
    when one does not answer.  [started] and [completed] are the abstract transaction;
    [refines_start] and [refines_completion] show that the state machine of
    [nc_trans.cc] with the handlers of [nc_add.cc] or [nc_remove.cc] is one of them,
    whatever the servers answer.  An instance of [Protocol] relates the handlers to
    the two shapes of handler below. *)

From S2P Require Import Prelude IoAddress D2Cfg StateModel NcTrans.
Local Open Scope Z_scope.

(** ** The protocol *)

(** The first and the second exchange about the forward entries, and the exchange
    about the reverse entries. *)
Inductive Phase := First | Second | Reverse.

#[export] Instance Phase_eq_dec : EqDecision Phase.
Proof. solve_decision. Defined.

(** How an answer is judged: the change of this direction is made, another phase
    comes first, or the transaction fails. *)
Inductive Verdict := Accept | Goto (ph : Phase) | Reject.

(** How an exchange ends: with a valid response, without one, or cancelled. *)
Inductive Answer := Answered (rcode : Rcode) | Unanswered | Cancelled.

(** Waiting for a server, given by its place in the list of the domain, to answer a
    message sent to it [tries] times; [fwd]: the forward change is made. *)
Inductive Progress :=
  | Waiting (ph : Phase) (server tries : nat) (fwd : bool)
  | Finished (ok fwd rev : bool).

(** What the DNS client reports for each end of an exchange. *)
Definition reports (a : Answer) (status : DnsStatus) (response : option Rcode) : Prop :=
  match a with
  | Answered rcode => status = SUCCESS ∧ response = Some rcode
  | Unanswered => status = TIMEOUT ∨ status = OTHER ∨ status = INVALID_RESPONSE
  | Cancelled => status = IO_STOPPED
  end.

Definition domain_of (t : Transaction) (ph : Phase) : option DdnsDomain :=
  match ph with Reverse => reverse_domain_ t | _ => forward_domain_ t end.

(** The phase in which the talk with a server begins. *)
Definition opening (ph : Phase) : Phase := match ph with Reverse => Reverse | _ => First end.

(** ** The shapes of the handlers *)

Section Shapes.
Context {H : Type} `{DnsEnv}.

Definition selecting_state (ph : Phase) : Z :=
  match ph with Reverse => SELECTING_REV_SERVER_ST | _ => SELECTING_FWD_SERVER_ST end.

Definition selecting_shape (domain : Transaction → option DdnsDomain) (next_state : Z) (e : exc) :
    ST (StateModel H Transaction) unit :=
  s ← get;
  _ ← (if next_event_ s =? SELECT_SERVER_EVT then initServerSelection (domain (derived s))
       else if next_event_ s =? SERVER_IO_ERROR_EVT then mret tt
       else throw e);
  selected ← selectNextServer;
  if (selected : bool) then transition next_state SERVER_SELECTED_EVT
  else transition PROCESS_TRANS_FAILED_ST NO_MORE_SERVERS_EVT.

Definition phase_shape (starts : Z → bool) (build : Transaction → res D2UpdateMessage)
    (success : Rcode → ST (StateModel H Transaction) unit) (fail_to_state : Z) (e : exc) :
    ST (StateModel H Transaction) unit :=
  entry ← doOnEntry;
  _ ← (if (entry : bool) then clearDnsUpdateRequest else mret tt);
  s ← get;
  if starts (next_event_ s) then build_and_send build
  else if next_event_ s =? IO_COMPLETED_EVT then on_completion success fail_to_state
  else throw e.

(** The change of a direction is made. *)
Definition accepted (ph : Phase) : ST (StateModel H Transaction) unit :=
  match ph with
  | Reverse => _ ← setReverseChangeCompleted true; transition PROCESS_TRANS_OK_ST UPDATE_OK_EVT
  | _ =>
      _ ← setForwardChangeCompleted true;
      t ← trans;
      match reverse_domain_ t with
      | Some _ => transition SELECTING_REV_SERVER_ST SELECT_SERVER_EVT
      | None => transition PROCESS_TRANS_OK_ST UPDATE_OK_EVT
      end
  end.

(** A state of the dictionary that never pauses and runs [m]. *)
Definition runs `{Virtual H Transaction} (dict : gmap Z (StateEntry H)) (state : Z)
    (m : ST (StateModel H Transaction) unit) : Prop :=
  ∃ e, dict !! state = Some e ∧ pausing_ e = STATE_PAUSE_NEVER ∧
       ∀ s, run_handler (handler_ e) s = m s.
End Shapes.

Class Protocol (H : Type) `{DnsEnv, Virtual H Transaction} := {
  dict_states : gmap Z (StateEntry H);
  dict_events : gmap Z string;
  phase_state : Phase → Z;
  starts : Phase → Z → bool;
  goto_event : Phase → Z;
  build : Phase → Transaction → res D2UpdateMessage;
  verdict : Phase → Rcode → Verdict;
  next_server : Phase → bool;
  fails_with : Z → bool;
  protocol_error : exc;
  p_phase : ∀ ph, runs dict_states (phase_state ph)
    (phase_shape (starts ph) (build ph)
       (λ rcode, match verdict ph rcode with
                 | Accept => accepted ph
                 | Goto ph' => transition (phase_state ph') (goto_event ph)
                 | Reject => transition PROCESS_TRANS_FAILED_ST UPDATE_FAILED_EVT
                 end)
       (if next_server ph then selecting_state ph else PROCESS_TRANS_FAILED_ST) protocol_error);
  p_selecting : ∀ ph, runs dict_states (selecting_state ph)
    (selecting_shape (λ t, domain_of t ph) (phase_state (opening ph)) protocol_error);
  p_ready : runs dict_states READY_ST
    (s ← get;
     if next_event_ s =? START_EVT then
       match forward_domain_ (derived s) with
       | Some _ => transition SELECTING_FWD_SERVER_ST SELECT_SERVER_EVT
       | None => transition SELECTING_REV_SERVER_ST SELECT_SERVER_EVT
       end
     else throw protocol_error);
  p_ok : runs dict_states PROCESS_TRANS_OK_ST
    (s ← get;
     if next_event_ s =? UPDATE_OK_EVT then _ ← setNcrStatus ST_COMPLETED; endModel
     else throw protocol_error);
  p_failed : runs dict_states PROCESS_TRANS_FAILED_ST
    (s ← get;
     if fails_with (next_event_ s) then _ ← setNcrStatus ST_FAILED; endModel
     else throw protocol_error);
  p_events : ∀ ev, ev ∈ [NOP_EVT; START_EVT; END_EVT; SELECT_SERVER_EVT; SERVER_SELECTED_EVT;
      SERVER_IO_ERROR_EVT; NO_MORE_SERVERS_EVT; IO_COMPLETED_EVT; UPDATE_OK_EVT;
      UPDATE_FAILED_EVT] → is_Some (dict_events !! ev);
  p_goto : ∀ ph ph' rcode, verdict ph rcode = Goto ph' →
    ph ≠ Reverse ∧ ph' ≠ Reverse ∧ ph ≠ ph' ∧ starts ph' (goto_event ph) = true ∧
    goto_event ph ≠ NOP_EVT ∧
    is_Some (dict_events !! goto_event ph);
  p_starts : ∀ ph, starts ph SERVER_SELECTED_EVT = true ∧ starts ph IO_COMPLETED_EVT = false;
  p_states : ∀ ph ph', phase_state ph = phase_state ph' → ph = ph';
  p_phase_state : ∀ ph, NCT_DERIVED_STATE_MIN < phase_state ph;
  p_fails : fails_with UPDATE_FAILED_EVT = true ∧ fails_with NO_MORE_SERVERS_EVT = true ∧
    ((∃ ph, next_server ph = false) → fails_with SERVER_IO_ERROR_EVT = true);
  p_reverse : next_server Reverse = true ∧ next_server First = true;
  p_build_ext : ∀ ph t t', ncr_ t = ncr_ t' → forward_domain_ t = forward_domain_ t' →
    reverse_domain_ t = reverse_domain_ t' → build ph t = build ph t';
  p_init : ∀ d : Transaction, initDictionaries (new_model d) =
    (with_initted true (with_states dict_states (with_events dict_events (new_model d))), Ok tt)
}.

(** ** The abstract transaction *)

Section Spec.
Context {H : Type} `{Protocol H}.
(** The request and the domains do not change. *)
Context (t0 : Transaction).

Definition servers_of (ph : Phase) : list DnsServerInfo :=
  match domain_of t0 ph with Some d => servers_ d | None => [] end.
Definition key_of (ph : Phase) : option string := domain_of t0 ph ≫= tsig_key_info_.

(** The [tries]-th try with a server, if there is one and the message can be sent. *)
Definition attempt (ph : Phase) (server tries : nat) (fwd : bool) : Progress :=
  match servers_of ph !! server, build ph t0 with
  | Some srv, Ok m =>
      if send_ok srv m (key_of ph) then Waiting ph server tries fwd else Finished false fwd false
  | _, _ => Finished false fwd false
  end.

Definition started : Progress :=
  match forward_domain_ t0 with
  | Some _ => attempt First 0 1 false
  | None => attempt Reverse 0 1 false
  end.

Definition completed (p : Progress) (a : Answer) : Progress :=
  match p with
  | Finished _ _ _ => p
  | Waiting ph server tries fwd =>
      match a with
      | Answered rcode =>
          match verdict ph rcode, ph with
          | Accept, Reverse => Finished true fwd true
          | Accept, _ => match reverse_domain_ t0 with
                         | Some _ => attempt Reverse 0 1 true
                         | None => Finished true true false
                         end
          | Goto ph', _ => attempt ph' server 1 fwd
          | Reject, _ => Finished false fwd false
          end
      | Unanswered =>
          if (tries <? MAX_UPDATE_TRIES_PER_SERVER)%nat then attempt ph server (S tries) fwd
          else if next_server ph then attempt (opening ph) (S server) 1 fwd
          else Finished false fwd false
      | Cancelled => Finished false fwd false
      end
  end.
End Spec.
