(* ===== verification/NcRefine.v ===== *)
(** * The state machine of a transaction implements its protocol

    [holds p s]: the state [s] of the machine stands for the progress [p] of the
    abstract transaction.  [refines_start] and [refines_completion] are the
    simulation; between two events [runModel] runs at most four handlers. *)

From S2P Require Import Prelude IoAddress D2Cfg StateModel NcTrans NcSpec.
Local Open Scope Z_scope.
#[local] Set Default Proof Using "All".
#[local] Arguments transition : simpl never.
#[local] Arguments endModel : simpl never.
#[local] Arguments setState : simpl never.
#[local] Arguments postNextEvent : simpl never.

Section Refine.
Context {H : Type} `{Protocol H}.
Implicit Types (s : StateModel H Transaction) (t : Transaction).

(** ** Steps of the machine *)

Record wired s : Prop := {
  wired_events : events_ s = dict_events;
  wired_states : states_ s = dict_states;
  wired_initted : dictionaries_initted_ s = true;
  wired_paused : paused_ s = false
}.

Definition calm_state (state : Z) : Prop :=
  state = END_ST ∨ ∃ m, runs dict_states state m.

(** The state after a transition. *)
Definition moved (state ev : Z) s : StateModel H Transaction :=
  let entry := negb (state =? END_ST) && negb (curr_state_ s =? state) in
  with_event (next_event_ s) ev (with_position state (curr_state_ s) entry entry s).

Lemma wired_moved state ev s : wired s → wired (moved state ev s).
Proof. by intros []. Qed.

Lemma wired_with_derived t s : wired s → wired (with_derived t s).
Proof. by intros []. Qed.

Lemma runs_calm state m : runs dict_states state m → calm_state state.
Proof. intros Hr. right. by exists m. Qed.

Lemma calm_phase ph : calm_state (phase_state ph).
Proof. eapply runs_calm, p_phase. Qed.
Lemma calm_selecting ph : calm_state (selecting_state ph).
Proof. eapply runs_calm, p_selecting. Qed.
Lemma calm_ok : calm_state PROCESS_TRANS_OK_ST.
Proof. eapply runs_calm, p_ok. Qed.
Lemma calm_failed : calm_state PROCESS_TRANS_FAILED_ST.
Proof. eapply runs_calm, p_failed. Qed.
Lemma calm_ready : calm_state READY_ST.
Proof. eapply runs_calm, p_ready. Qed.

Lemma run_postNextEvent ev s :
  wired s → is_Some (dict_events !! ev) →
  postNextEvent ev s = (with_event (next_event_ s) ev s, Ok tt).
Proof.
  intros Hs Hev. unfold postNextEvent, mbind, ST_bind, get, isDefined.
  rewrite (wired_events s Hs), bool_decide_true by done. by rewrite andb_false_r.
Qed.

Lemma run_setState state s :
  wired s → calm_state state →
  setState state s =
    (let entry := negb (state =? END_ST) && negb (curr_state_ s =? state) in
     with_position state (curr_state_ s) entry entry s, Ok tt).
Proof.
  intros Hs Hc. unfold setState, mbind, ST_bind, get, put, isDefined. cbn [on_entry_flag_ paused_ with_position].
  rewrite (wired_states s Hs), (wired_paused s Hs). destruct Hc as [->|(m & e & He & Hp & _)].
  - done.
  - rewrite bool_decide_true by (by rewrite He). rewrite andb_false_r, andb_true_r.
    destruct (negb (state =? END_ST) && _) eqn:E; [|done].
    unfold getState, mbind, ST_bind, get, labeled_get. cbn [states_ with_position].
    rewrite (wired_states s Hs), He. unfold mret, ST_ret, shouldPause. rewrite Hp.
    rewrite !bool_decide_false by done. unfold modify. cbn.
    rewrite (wired_states s Hs), insert_id by done. destruct s, Hs; cbn in *. by subst.
Qed.

Lemma run_transition state ev s :
  wired s → calm_state state → is_Some (dict_events !! ev) →
  transition state ev s = (moved state ev s, Ok tt).
Proof.
  intros Hs Hc Hev. unfold transition, mbind, ST_bind. rewrite run_setState by done. cbv zeta.
  rewrite run_postNextEvent; [done|by destruct Hs|done].
Qed.

(** One handler. *)
Lemma loop_step n s s' m :
  wired s → runs dict_states (curr_state_ s) m → m s = (s', Ok tt) →
  run_loop (S n) s =
    if negb (isModelDone s') && negb (next_event_ s' =? NOP_EVT) then run_loop n s'
    else (s', Ok tt).
Proof.
  intros Hs (e & He & _ & Hm) E. cbn [run_loop]. unfold mbind, ST_bind, get, getState, labeled_get.
  unfold mbind, ST_bind, get. rewrite (wired_states s Hs), He. cbn. rewrite Hm, E.
  by destruct (_ && _).
Qed.

(** Running the loop from [s] ends in a state that satisfies [Q]. *)
Definition loops (n : nat) s (Q : StateModel H Transaction → Prop) : Prop :=
  ∃ s', run_loop n s = (s', Ok tt) ∧ Q s'.

Lemma loops_step n s m s' Q :
  wired s → runs dict_states (curr_state_ s) m → m s = (s', Ok tt) →
  isModelDone s' = false → next_event_ s' ≠ NOP_EVT → loops n s' Q → loops (S n) s Q.
Proof.
  intros Hs Hr E Hd Hn (s'' & E' & HQ). exists s''. split; [|done].
  rewrite (loop_step n s s' m) by done. rewrite Hd. apply Z.eqb_neq in Hn. by rewrite Hn.
Qed.

Lemma loops_stop n s m s' (Q : StateModel H Transaction → Prop) :
  wired s → runs dict_states (curr_state_ s) m → m s = (s', Ok tt) →
  isModelDone s' = true ∨ next_event_ s' = NOP_EVT → Q s' → loops (S n) s Q.
Proof.
  intros Hs Hr E Hd HQ. exists s'. split; [|done]. rewrite (loop_step n s s' m) by done.
  by destruct Hd as [->| ->]; rewrite ?andb_false_r.
Qed.

(** ** The relation *)

Context (t0 : Transaction).

Definition same_request t : Prop :=
  ncr_ t = ncr_ t0 ∧ forward_domain_ t = forward_domain_ t0 ∧
  reverse_domain_ t = reverse_domain_ t0.

(** The selection of the server and the results so far. *)
Record selected (ph : Phase) (pos : nat) (fwd : bool) t : Prop := {
  selected_request : same_request t;
  selected_list : current_server_list_ t = Some (servers_of t0 ph);
  selected_pos : next_server_pos_ t = pos;
  selected_key : tsig_key_ t = key_of t0 ph;
  selected_fwd : forward_change_completed_ t = fwd;
  selected_rev : reverse_change_completed_ t = false
}.

(** A server is selected. *)
Definition has_server (ph : Phase) (server : nat) (fwd : bool) t : Prop :=
  selected ph (S server) fwd t ∧ dns_client_ t = true ∧
  ∃ srv, servers_of t0 ph !! server = Some srv ∧ current_server_ t = Some srv.

Definition holds (p : Progress) s : Prop :=
  match p with
  | Waiting ph server tries fwd =>
      wired s ∧ curr_state_ s = phase_state ph ∧ next_event_ s = NOP_EVT ∧
      on_entry_flag_ s = false ∧ has_server ph server fwd (derived s) ∧
      (∃ srv m, servers_of t0 ph !! server = Some srv ∧ build ph t0 = Ok m ∧
         dns_update_request_ (derived s) = Some m ∧
         last (sent (derived s)) = Some (srv, m, key_of t0 ph)) ∧
      update_attempts_ (derived s) = tries
  | Finished ok fwd rev =>
      curr_state_ s = END_ST ∧ next_event_ s = END_EVT ∧
      ncr_ (derived s) = setStatus (if ok then ST_COMPLETED else ST_FAILED) (ncr_ t0) ∧
      forward_change_completed_ (derived s) = fwd ∧ reverse_change_completed_ (derived s) = rev
  end.

Lemma servers_opening ph : servers_of t0 (opening ph) = servers_of t0 ph.
Proof. by destruct ph. Qed.
Lemma key_opening ph : key_of t0 (opening ph) = key_of t0 ph.
Proof. by destruct ph. Qed.

Lemma event_defined ev : ev ∈ [NOP_EVT; START_EVT; END_EVT; SELECT_SERVER_EVT; SERVER_SELECTED_EVT;
      SERVER_IO_ERROR_EVT; NO_MORE_SERVERS_EVT; IO_COMPLETED_EVT; UPDATE_OK_EVT;
      UPDATE_FAILED_EVT] → is_Some (dict_events !! ev).
Proof. apply p_events. Qed.

Ltac defined_event := apply event_defined; repeat first [left; reflexivity | right].

(** ** The end of a transaction *)

Definition ended (st : NameChangeStatus) s : StateModel H Transaction :=
  moved END_ST END_EVT
    (with_derived (with_ncr (setStatus st (ncr_ (derived s))) (derived s)) s).

Lemma run_end st s :
  wired s → (_ ← setNcrStatus st; endModel) s = (ended st s, Ok tt).
Proof.
  intros Hs. unfold mbind at 1, ST_bind at 1. cbn. unfold endModel.
  rewrite run_transition; [done|by apply wired_with_derived|by left|defined_event].
Qed.

Lemma holds_ended (ok : bool) fwd rev s :
  same_request (derived s) → forward_change_completed_ (derived s) = fwd →
  reverse_change_completed_ (derived s) = rev →
  holds (Finished ok fwd rev) (ended (if ok then ST_COMPLETED else ST_FAILED) s).
Proof. intros (Hr & _ & _) Hf Hv. by split_and!; cbn; rewrite ?Hr. Qed.

Lemma loop_failed n fwd rev s :
  wired s → curr_state_ s = PROCESS_TRANS_FAILED_ST → fails_with (next_event_ s) = true →
  same_request (derived s) → forward_change_completed_ (derived s) = fwd →
  reverse_change_completed_ (derived s) = rev →
  loops (S n) s (holds (Finished false fwd rev)).
Proof.
  intros Hs Hc Hf Hr Hfwd Hrev.
  eapply (loops_stop _ _ _ (ended ST_FAILED s));
    [done|rewrite Hc; apply p_failed| |by left|by apply (holds_ended false)].
  unfold mbind at 1, ST_bind at 1, get. rewrite Hf. by apply run_end.
Qed.

Lemma loop_ok n fwd rev s :
  wired s → curr_state_ s = PROCESS_TRANS_OK_ST → next_event_ s = UPDATE_OK_EVT →
  same_request (derived s) → forward_change_completed_ (derived s) = fwd →
  reverse_change_completed_ (derived s) = rev →
  loops (S n) s (holds (Finished true fwd rev)).
Proof.
  intros Hs Hc Hf Hr Hfwd Hrev.
  eapply (loops_stop _ _ _ (ended ST_COMPLETED s));
    [done|rewrite Hc; apply p_ok| |by left|by apply (holds_ended true)].
  unfold mbind at 1, ST_bind at 1, get. rewrite Hf. cbn. by apply run_end.
Qed.

(** ** Sending *)

(** The message of the phase is built, if it can be, or was built before. *)
Definition prepared (ph : Phase) (tries : nat) t : Prop :=
  update_attempts_ t = tries ∧
  match dns_update_request_ t with
  | Some m => build ph t0 = Ok m
  | None => True
  end.

Lemma selected_with_request ph pos fwd r k t :
  selected ph pos fwd t → selected ph pos fwd (with_request r k t).
Proof. by intros []. Qed.
Lemma has_server_with_request ph i fwd r k t :
  has_server ph i fwd t → has_server ph i fwd (with_request r k t).
Proof. intros ([] & ? & ?). by split_and!. Qed.
Lemma has_server_with_sent ph i fwd l t :
  has_server ph i fwd t → has_server ph i fwd (with_sent l t).
Proof. intros ([] & ? & ?). by split_and!. Qed.

(** The state after a message is sent, or could not be. *)
Lemma run_sendUpdate ph i tries fwd srv m s :
  wired s → has_server ph i fwd (derived s) → servers_of t0 ph !! i = Some srv →
  dns_update_request_ (derived s) = Some m → update_attempts_ (derived s) = tries →
  let t := with_request (Some m) (S tries) (derived s) in
  sendUpdate s =
    (if send_ok srv m (key_of t0 ph)
     then with_event (next_event_ s) NOP_EVT
            (with_derived (with_sent (sent t ++ [(srv, m, key_of t0 ph)]) t) s)
     else moved PROCESS_TRANS_FAILED_ST UPDATE_FAILED_EVT (with_derived t s), Ok tt).
Proof.
  intros Hs (Hsel & Hc & srv' & Hsrv' & Hcur) Hsrv Hreq Htries t.
  assert (srv' = srv) as -> by congruence.
  unfold sendUpdate, try_catch. unfold mbind, ST_bind, update_trans, modify, trans, get.
  cbn. unfold mbind, ST_bind. cbn. rewrite Hcur. cbn. rewrite Hreq. cbn.
  rewrite Hc. cbn. rewrite (selected_key _ _ _ _ Hsel), Htries.
  destruct (send_ok srv m (key_of t0 ph)).
  - cbn. rewrite run_postNextEvent; [|by destruct Hs|defined_event].
    subst t. cbn. by rewrite (selected_key _ _ _ _ Hsel).
  - cbn. rewrite run_transition; [done|by apply wired_with_derived|apply calm_failed|defined_event].
Qed.

(** On the way to the end, after a failure. *)
Record failing (fwd rev : bool) s : Prop := {
  failing_wired : wired s;
  failing_state : curr_state_ s = PROCESS_TRANS_FAILED_ST;
  failing_event : fails_with (next_event_ s) = true;
  failing_running : next_event_ s ≠ NOP_EVT;
  failing_request : same_request (derived s);
  failing_fwd : forward_change_completed_ (derived s) = fwd;
  failing_rev : reverse_change_completed_ (derived s) = rev
}.

Lemma loop_failing n fwd rev s : failing fwd rev s → loops (S n) s (holds (Finished false fwd rev)).
Proof. intros []. by apply loop_failed. Qed.

Lemma failing_moved ev fwd rev s :
  wired s → fails_with ev = true → ev ≠ NOP_EVT → same_request (derived s) →
  forward_change_completed_ (derived s) = fwd → reverse_change_completed_ (derived s) = rev →
  failing fwd rev (moved PROCESS_TRANS_FAILED_ST ev s).
Proof. intros Hs Hev Hn Ht Hf Hr. split; try done. by apply wired_moved. Qed.

Lemma fails_update : fails_with UPDATE_FAILED_EVT = true.
Proof. apply p_fails. Qed.

(** A try with the selected server. *)
Lemma run_build_and_send ph i tries fwd s :
  wired s → curr_state_ s = phase_state ph → on_entry_flag_ s = false →
  has_server ph i fwd (derived s) → prepared ph tries (derived s) →
  ∃ s', build_and_send (build ph) s = (s', Ok tt) ∧
    ((attempt t0 ph i (S tries) fwd = Waiting ph i (S tries) fwd ∧
      holds (Waiting ph i (S tries) fwd) s') ∨
     (attempt t0 ph i (S tries) fwd = Finished false fwd false ∧ failing fwd false s')).
Proof.
  intros Hs Hc He Hsrv [Htries Hprep].
  assert (same_request (derived s)) as Hreq by apply Hsrv.
  assert (build ph (derived s) = build ph t0) as Hb by (apply p_build_ext; apply Hreq).
  destruct Hsrv as (Hsel & Hcl & srv & Hsrv & Hcur).
  assert (∀ m, build ph t0 = Ok m → ∀ s1, wired s1 → derived s1 = with_request (Some m) tries (derived s) →
      curr_state_ s1 = phase_state ph → on_entry_flag_ s1 = false →
      ∃ s', sendUpdate s1 = (s', Ok tt) ∧
        ((attempt t0 ph i (S tries) fwd = Waiting ph i (S tries) fwd ∧
          holds (Waiting ph i (S tries) fwd) s') ∨
         (attempt t0 ph i (S tries) fwd = Finished false fwd false ∧ failing fwd false s'))) as Hsend.
  { intros m Hm s1 Hs1 Hd Hc1 He1.
    assert (has_server ph i fwd (derived s1)) as Hsrv1.
    { rewrite Hd. apply has_server_with_request. by split_and!; [..|exists srv]. }
    eexists. split; [apply (run_sendUpdate ph i tries fwd srv m); try done; by rewrite Hd|].
    unfold attempt. rewrite Hsrv, Hm. destruct (send_ok srv m (key_of t0 ph)); [left|right].
    - split; [done|]. split_and!; try done.
      + by destruct Hs1.
      + cbn. by apply has_server_with_sent, has_server_with_request.
      + exists srv, m. split_and!; try done. apply last_snoc.
    - split; [done|]. apply failing_moved; try done; try apply fails_update; cbn;
        rewrite ?Hd; first [by apply wired_with_derived|apply Hsel]. }
  change (build_and_send (build ph) s) with
    ((match dns_update_request_ (derived s) with
      | Some _ => sendUpdate
      | None => match build ph (derived s) with
                | Ok request => _ ← setDnsUpdateRequest request; sendUpdate
                | Throw _ => transition PROCESS_TRANS_FAILED_ST UPDATE_FAILED_EVT
                end
      end) s).
  destruct (dns_update_request_ (derived s)) as [m|] eqn:Em.
  - apply (Hsend m Hprep s Hs); try done. destruct (derived s); cbn in *. by subst.
  - rewrite Hb. destruct (build ph t0) as [m|e] eqn:Eb.
    + apply (Hsend m eq_refl); try done; [by apply wired_with_derived|].
      cbn. by rewrite Htries.
    + eexists. split; [apply run_transition; [done|apply calm_failed|defined_event]|].
      right. split; [unfold attempt; by rewrite Hsrv, Eb|].
      apply failing_moved; first [done|apply fails_update|apply Hsel].
Qed.

(** The state in which a handler of a phase works. *)
Definition entered s : StateModel H Transaction :=
  let s1 := with_position (curr_state_ s) (prev_state_ s) false (on_exit_flag_ s) s in
  if on_entry_flag_ s then with_derived (with_request None 0 (derived s)) s1 else s1.

Lemma run_phase_shape st b success fail_to e s :
  phase_shape st b success fail_to e s =
    (if st (next_event_ s) then build_and_send b
     else if next_event_ s =? IO_COMPLETED_EVT then on_completion success fail_to
     else throw e) (entered s).
Proof.
  unfold phase_shape, doOnEntry, entered. unfold mbind, ST_bind, get, put, mret, ST_ret. cbn.
  by destruct (on_entry_flag_ s).
Qed.

Lemma wired_entered s : wired s → wired (entered s).
Proof. unfold entered. by destruct (on_entry_flag_ s); intros []. Qed.

Lemma loop_attempt n ph i tries fwd s :
  wired s → curr_state_ s = phase_state ph → starts ph (next_event_ s) = true →
  has_server ph i fwd (derived s) →
  (if on_entry_flag_ s then tries = 0%nat else prepared ph tries (derived s)) →
  loops (S (S n)) s (holds (attempt t0 ph i (S tries) fwd)).
Proof.
  intros Hs Hc Hst Hsrv Hp.
  destruct (run_build_and_send ph i tries fwd (entered s)) as (s' & E & Hs').
  - by apply wired_entered.
  - unfold entered. by destruct (on_entry_flag_ s).
  - unfold entered. by destruct (on_entry_flag_ s).
  - unfold entered. destruct (on_entry_flag_ s); [by apply has_server_with_request|done].
  - unfold entered. destruct (on_entry_flag_ s); [by subst|done].
  - assert (phase_shape (starts ph) (build ph)
       (λ rcode, match verdict ph rcode with
                 | Accept => accepted ph
                 | Goto ph' => transition (phase_state ph') (goto_event ph)
                 | Reject => transition PROCESS_TRANS_FAILED_ST UPDATE_FAILED_EVT
                 end)
       (if next_server ph then selecting_state ph else PROCESS_TRANS_FAILED_ST)
       protocol_error s = (s', Ok tt)) as Er by (by rewrite run_phase_shape, Hst).
    destruct Hs' as [[-> Hh]|[-> Hf]].
    + eapply loops_stop; [done|rewrite Hc; apply p_phase|exact Er|right; apply Hh|done].
    + eapply loops_step; [done|rewrite Hc; apply p_phase|exact Er|..].
      * unfold isModelDone. by rewrite (failing_state _ _ _ Hf).
      * apply (failing_running _ _ _ Hf).
      * by apply loop_failing.
Qed.

(** Another server is selected, if there is one. *)
Lemma run_selectNextServer ph pos fwd s :
  selected ph pos fwd (derived s) →
  selectNextServer s =
    match servers_of t0 ph !! pos with
    | Some srv =>
        (with_derived (with_client true (with_response None
           (with_servers (Some (servers_of t0 ph)) (Some srv) (S pos) (key_of t0 ph) (derived s)))) s,
         Ok true)
    | None => (s, Ok false)
    end.
Proof.
  intros []. unfold selectNextServer, trans. unfold mbind, ST_bind, get, mret, ST_ret. cbn.
  rewrite selected_list0, selected_pos0. cbn. destruct (servers_of t0 ph !! pos); [|done].
  unfold update_trans, modify. cbn. by rewrite selected_list0, selected_pos0, selected_key0.
Qed.

Lemma loop_selected n ph pos fwd s s1 :
  wired s → curr_state_ s = selecting_state ph → wired s1 → curr_state_ s1 = selecting_state ph →
  (if next_event_ s =? SELECT_SERVER_EVT then initServerSelection (domain_of (derived s) ph)
   else if next_event_ s =? SERVER_IO_ERROR_EVT then mret tt
   else throw protocol_error) s = (s1, Ok tt) →
  selected ph pos fwd (derived s1) →
  loops (S (S (S n))) s (holds (attempt t0 (opening ph) pos 1 fwd)).
Proof.
  intros Hs Hc Hs1 Hc1 Hinit Hsel.
  pose proof (p_phase_state (opening ph)) as Hlt. unfold NCT_DERIVED_STATE_MIN, SM_DERIVED_STATE_MIN in Hlt.
  assert ((curr_state_ s1 =? phase_state (opening ph)) = false) as Hne.
  { rewrite Hc1. apply Z.eqb_neq. destruct ph; unfold selecting_state, SELECTING_FWD_SERVER_ST, SELECTING_REV_SERVER_ST, SM_DERIVED_STATE_MIN; lia. }
  assert ((phase_state (opening ph) =? END_ST) = false) as Hne' by (apply Z.eqb_neq; unfold END_ST; lia).
  assert (runs dict_states (curr_state_ s)
    (selecting_shape (λ t, domain_of t ph) (phase_state (opening ph)) protocol_error)) as Hr
    by (rewrite Hc; apply p_selecting).
  pose proof (run_selectNextServer ph pos fwd s1 Hsel) as Hnext.
  destruct (servers_of t0 ph !! pos) as [srv|] eqn:Hsrv.
  - set (s2 := with_derived _ s1) in Hnext. assert (wired s2) as Hs2 by by destruct Hs1.
    eapply (loops_step _ _ _ (moved (phase_state (opening ph)) SERVER_SELECTED_EVT s2)); try done.
    + unfold selecting_shape. unfold mbind at 1, ST_bind at 1, get.
      unfold mbind at 1, ST_bind at 1. rewrite Hinit. unfold mbind at 1, ST_bind at 1. rewrite Hnext.
      apply run_transition; [done|apply calm_phase|defined_event].
    + apply loop_attempt; [by apply wired_moved|done|apply p_starts| |].
      * destruct Hsel as [? ? ? ? ? ?]. split_and!; try done.
        -- split; try done; cbn; by rewrite ?servers_opening, ?key_opening.
        -- exists srv. by rewrite servers_opening.
      * cbn. by rewrite Hne, Hne'.
  - unfold attempt. rewrite servers_opening, Hsrv.
    eapply (loops_step _ _ _ (moved PROCESS_TRANS_FAILED_ST NO_MORE_SERVERS_EVT s1)); try done.
    + unfold selecting_shape. unfold mbind at 1, ST_bind at 1, get.
      unfold mbind at 1, ST_bind at 1. rewrite Hinit. unfold mbind at 1, ST_bind at 1. rewrite Hnext.
      apply run_transition; [done|apply calm_failed|defined_event].
    + apply loop_failing, failing_moved; first [done|apply p_fails|apply Hsel].
Qed.

Lemma loop_select n ph fwd s :
  wired s → curr_state_ s = selecting_state ph → next_event_ s = SELECT_SERVER_EVT →
  same_request (derived s) → is_Some (domain_of t0 ph) →
  forward_change_completed_ (derived s) = fwd → reverse_change_completed_ (derived s) = false →
  loops (S (S (S n))) s (holds (attempt t0 (opening ph) 0 1 fwd)).
Proof.
  intros Hs Hc Hev Hreq [d Hd] Hf Hr.
  eapply (loop_selected n ph 0 fwd s (with_derived
    (with_servers (Some (servers_of t0 ph)) None 0 (key_of t0 ph) (derived s)) s)); try done.
  - by apply wired_with_derived.
  - rewrite Hev. change (SELECT_SERVER_EVT =? SELECT_SERVER_EVT) with true. cbv iota.
    assert (domain_of (derived s) ph = domain_of t0 ph) as ->
      by (destruct Hreq as (_ & ? & ?); by destruct ph).
    unfold servers_of, key_of. by rewrite Hd.
Qed.

Lemma loop_reselect n ph pos fwd s :
  wired s → curr_state_ s = selecting_state ph → next_event_ s = SERVER_IO_ERROR_EVT →
  selected ph pos fwd (derived s) →
  loops (S (S (S n))) s (holds (attempt t0 (opening ph) pos 1 fwd)).
Proof.
  intros Hs Hc Hev Hsel. eapply (loop_selected n ph pos fwd s s); try done. by rewrite Hev.
Qed.

(** ** The simulation *)

(** The rest of the loop after the handler of the current state has moved to another
    state. *)
Lemma loops_moved n state ev m s s1 Q :
  wired s → runs dict_states (curr_state_ s) m → wired s1 →
  m s = transition state ev s1 → calm_state state → is_Some (dict_events !! ev) →
  state ≠ END_ST → ev ≠ NOP_EVT →
  loops n (moved state ev s1) Q → loops (S n) s Q.
Proof.
  intros Hs Hr Hs1 E Hc Hev Hne Hn HQ.
  eapply loops_step; [done|done|rewrite E; by apply run_transition|..]; [|done|done].
  unfold isModelDone. cbn. by apply Z.eqb_neq.
Qed.

Lemma run_runModel n ev s Q :
  wired s → is_Some (dict_events !! ev) →
  loops n (with_event (next_event_ s) ev s) Q → ∃ s', runModel n ev s = (s', Ok tt) ∧ Q s'.
Proof.
  intros Hs Hev (s' & E & HQ). exists s'. split; [|done].
  unfold runModel. unfold mbind, ST_bind, get. rewrite (wired_initted s Hs). cbn.
  unfold try_catch. rewrite run_postNextEvent by done. by rewrite E.
Qed.

Theorem refines_start n t :
  t0 = with_ncr (setStatus ST_PENDING (ncr_ t)) t →
  forward_change_completed_ t = false → reverse_change_completed_ t = false →
  is_Some (forward_domain_ t) ∨ is_Some (reverse_domain_ t) →
  ∃ s', startTransaction (S (S (S (S n)))) (new_model t) = (s', Ok tt) ∧ holds (started t0) s'.
Proof.
  intros Ht0 Hf Hr Hdom.
  assert (startTransaction (S (S (S (S n)))) (new_model t) =
          startModel (S (S (S (S n)))) READY_ST (new_model t0)) as ->.
  { unfold startTransaction. unfold mbind, ST_bind, setNcrStatus, update_trans, modify. cbn.
    by rewrite Ht0. }
  unfold startModel. unfold mbind at 1, ST_bind at 1. rewrite p_init.
  set (s1 := with_initted _ _). assert (wired s1) as Hs1 by done.
  unfold mbind at 1, ST_bind at 1. rewrite run_setState by (try done; apply calm_ready). cbv zeta.
  change (negb (READY_ST =? END_ST) && negb (curr_state_ s1 =? READY_ST)) with true.
  assert (same_request (derived s1)) as Hreq by done.
  assert (forward_change_completed_ (derived s1) = false) as Hf1 by (cbn; by rewrite Ht0).
  assert (reverse_change_completed_ (derived s1) = false) as Hr1 by (cbn; by rewrite Ht0).
  apply run_runModel; [by destruct Hs1|defined_event|].
  set (s2 := with_event _ _ _). assert (wired s2) as Hs2 by by destruct Hs1.
  destruct (forward_domain_ t0) as [d|] eqn:Ed.
  - apply (loops_moved _ SELECTING_FWD_SERVER_ST SELECT_SERVER_EVT _ s2 s2 _ Hs2 p_ready Hs2).
    + unfold mbind at 1, ST_bind at 1, get. cbn. by rewrite Ed.
    + apply (calm_selecting First).
    + defined_event.
    + done.
    + done.
    + unfold started. rewrite Ed.
      by apply (loop_select n First false).
  - assert (is_Some (reverse_domain_ t0)) as Hrev.
    { rewrite Ht0 in Ed |- *. cbn in *. rewrite Ed in Hdom. destruct Hdom as [[? ?]|]; done. }
    apply (loops_moved _ SELECTING_REV_SERVER_ST SELECT_SERVER_EVT _ s2 s2 _ Hs2 p_ready Hs2).
    + unfold mbind at 1, ST_bind at 1, get. cbn. by rewrite Ed.
    + apply (calm_selecting Reverse).
    + defined_event.
    + done.
    + done.
    + unfold started. rewrite Ed.
      by apply (loop_select n Reverse false).
Qed.

Lemma has_server_goto ph ph' i fwd t :
  ph ≠ Reverse → ph' ≠ Reverse → has_server ph i fwd t → has_server ph' i fwd t.
Proof. intros Hp Hp' ([] & Hc & Hs). by destruct ph, ph'. Qed.

Lemma phase_running ph : phase_state ph ≠ END_ST.
Proof.
  pose proof (p_phase_state ph) as Hlt. unfold NCT_DERIVED_STATE_MIN, SM_DERIVED_STATE_MIN in Hlt.
  unfold END_ST. lia.
Qed.

(** The change of a direction is made. *)
Lemma loop_accepted n ph i fwd s s0 m :
  wired s0 → runs dict_states (curr_state_ s0) m → wired s → m s0 = accepted ph s →
  has_server ph i fwd (derived s) →
  loops (S (S (S (S n)))) s0 (holds
    match ph with
    | Reverse => Finished true fwd true
    | _ => match reverse_domain_ t0 with
           | Some _ => attempt t0 Reverse 0 1 true
           | None => Finished true true false
           end
    end).
Proof.
  intros Hs0 Hr Hs E ([Hreq _ _ _ Hf Hv] & _). destruct (decide (ph = Reverse)) as [->|Hph].
  - set (s1 := with_derived (with_reverse_completed true (derived s)) s).
    assert (wired s1) as Hs1 by by destruct Hs.
    apply (loops_moved _ PROCESS_TRANS_OK_ST UPDATE_OK_EVT _ s0 s1 _ Hs0 Hr Hs1);
      [exact E|apply calm_ok|defined_event|done|done|].
    apply loop_ok; try done. by apply wired_moved.
  - set (s1 := with_derived (with_forward_completed true (derived s)) s).
    assert (wired s1) as Hs1 by by destruct Hs.
    assert (accepted ph s = match reverse_domain_ t0 with
              | Some _ => transition SELECTING_REV_SERVER_ST SELECT_SERVER_EVT s1
              | None => transition PROCESS_TRANS_OK_ST UPDATE_OK_EVT s1
              end) as Ea.
    { destruct Hreq as (_ & _ & Hrev). rewrite <- Hrev.
      assert (accepted ph s = (match reverse_domain_ (derived s) with
              | Some _ => transition SELECTING_REV_SERVER_ST SELECT_SERVER_EVT
              | None => transition PROCESS_TRANS_OK_ST UPDATE_OK_EVT
              end) s1) as -> by (by destruct ph).
      by destruct (reverse_domain_ (derived s)). }
    assert (match ph with
            | Reverse => Finished true fwd true
            | _ => match reverse_domain_ t0 with
                   | Some _ => attempt t0 Reverse 0 1 true
                   | None => Finished true true false
                   end
            end = match reverse_domain_ t0 with
                  | Some _ => attempt t0 Reverse 0 1 true
                  | None => Finished true true false
                  end) as -> by (by destruct ph).
    rewrite Ea in E. destruct (reverse_domain_ t0) eqn:Erev.
    + apply (loops_moved _ SELECTING_REV_SERVER_ST SELECT_SERVER_EVT _ s0 s1 _ Hs0 Hr Hs1);
        [exact E|apply (calm_selecting Reverse)|defined_event|done|done|].
      apply (loop_select n Reverse true); try done. by apply wired_moved.
    + apply (loops_moved _ PROCESS_TRANS_OK_ST UPDATE_OK_EVT _ s0 s1 _ Hs0 Hr Hs1);
        [exact E|apply calm_ok|defined_event|done|done|].
      apply loop_ok; try done. by apply wired_moved.
Qed.

(** There was no valid response. *)
Lemma loop_retry n ph i tries fwd s s0 m :
  wired s0 → runs dict_states (curr_state_ s0) m → wired s → curr_state_ s = phase_state ph →
  m s0 = retryTransition (if next_server ph then selecting_state ph
                          else PROCESS_TRANS_FAILED_ST) s →
  has_server ph i fwd (derived s) → prepared ph tries (derived s) →
  loops (S (S (S (S n)))) s0 (holds
    (if (tries <? MAX_UPDATE_TRIES_PER_SERVER)%nat then attempt t0 ph i (S tries) fwd
     else if next_server ph then attempt t0 (opening ph) (S i) 1 fwd
     else Finished false fwd false)).
Proof.
  intros Hs0 Hr Hs Hc E Hsrv Hp. unfold retryTransition in E.
  unfold mbind at 1, ST_bind at 1, get in E. rewrite (proj1 Hp) in E.
  destruct (tries <? MAX_UPDATE_TRIES_PER_SERVER)%nat.
  - apply (loops_moved _ (curr_state_ s) SERVER_SELECTED_EVT _ s0 s _ Hs0 Hr Hs);
      [exact E|rewrite Hc; apply calm_phase|defined_event|rewrite Hc; apply phase_running|done|].
    apply loop_attempt; [by apply wired_moved|done|apply p_starts|done|].
    cbn. by rewrite Z.eqb_refl, andb_false_r.
  - destruct (next_server ph) eqn:Hn.
    + apply (loops_moved _ (selecting_state ph) SERVER_IO_ERROR_EVT _ s0 s _ Hs0 Hr Hs);
        [exact E|apply calm_selecting|defined_event|by destruct ph|done|].
      apply loop_reselect; [by apply wired_moved|done|done|apply Hsrv].
    + apply (loops_moved _ PROCESS_TRANS_FAILED_ST SERVER_IO_ERROR_EVT _ s0 s _ Hs0 Hr Hs);
        [exact E|apply calm_failed|defined_event|done|done|].
      apply loop_failing, failing_moved; try done; try apply Hsrv.
      apply p_fails. by exists ph.
Qed.

Lemma loop_reject n fwd s s0 m :
  wired s0 → runs dict_states (curr_state_ s0) m → wired s →
  m s0 = transition PROCESS_TRANS_FAILED_ST UPDATE_FAILED_EVT s →
  same_request (derived s) → forward_change_completed_ (derived s) = fwd →
  reverse_change_completed_ (derived s) = false →
  loops (S (S n)) s0 (holds (Finished false fwd false)).
Proof.
  intros Hs0 Hr Hs E Hreq Hf Hv.
  apply (loops_moved _ PROCESS_TRANS_FAILED_ST UPDATE_FAILED_EVT _ s0 s _ Hs0 Hr Hs);
    [exact E|apply calm_failed|defined_event|done|done|].
  apply loop_failing, failing_moved; try done. apply fails_update.
Qed.

(** The state in which the handler of a phase finds the end of an exchange. *)
Definition noted status (response : option Rcode) s : StateModel H Transaction :=
  with_event (next_event_ s) IO_COMPLETED_EVT
    (with_derived (with_status status
       (match response with Some _ => with_response response (derived s) | None => derived s end)) s).

Lemma run_noted ph i fwd tries status response s :
  holds (Waiting ph i tries fwd) s →
  let s1 := entered (noted status response s) in
  wired s1 ∧ curr_state_ s1 = phase_state ph ∧ has_server ph i fwd (derived s1) ∧
  prepared ph tries (derived s1) ∧ dns_update_status_ (derived s1) = status ∧
  (is_Some response → dns_update_response_ (derived s1) = response).
Proof.
  intros (Hs & Hc & _ & He & Hsrv & (srv & m & _ & Hm & Hreq & _) & Htries). cbv zeta.
  unfold entered, noted. cbn [on_entry_flag_ with_event with_derived]. rewrite He.
  destruct Hsrv as ([] & ? & ?).
  split; [by destruct Hs|]. split; [done|]. split; [|split; [|split]].
  - split; [|by destruct response]. by destruct response; split.
  - split; destruct response; cbn; by rewrite ?Hreq.
  - done.
  - by intros [rcode ->].
Qed.

Lemma run_on_completion success fail_to s :
  on_completion success fail_to s =
    match dns_update_status_ (derived s) with
    | SUCCESS => match dns_update_response_ (derived s) with
                 | Some rcode => success rcode s
                 | None => (s, Throw AssertionFailure)
                 end
    | TIMEOUT | OTHER | INVALID_RESPONSE => retryTransition fail_to s
    | IO_STOPPED => transition PROCESS_TRANS_FAILED_ST UPDATE_FAILED_EVT s
    end.
Proof.
  unfold on_completion, trans. unfold mbind, ST_bind, get, mret, ST_ret.
  destruct (dns_update_status_ (derived s)); try done.
  by destruct (dns_update_response_ (derived s)).
Qed.

Theorem refines_completion n p a status response s :
  holds p s → (∃ ph i tries fwd, p = Waiting ph i tries fwd) → reports a status response →
  ∃ s', io_completed (S (S (S (S n)))) status response s = (s', Ok tt) ∧
        holds (completed t0 p a) s'.
Proof.
  intros Hh (ph & i & tries & fwd & ->) Ha.
  destruct (run_noted ph i fwd tries status response s Hh) as (Hs1 & Hc & Hsrv & Hp & Hst & Hresp).
  assert (wired s ∧ curr_state_ s = phase_state ph) as [Hs Hcs] by (by split; apply Hh).
  unfold io_completed. unfold mbind at 1, ST_bind at 1. cbn [update_trans modify].
  apply run_runModel; [by destruct Hs|defined_event|].
  change (loops (S (S (S (S n)))) (noted status response s)
            (holds (completed t0 (Waiting ph i tries fwd) a))).
  set (s0 := noted status response s) in *. set (s1 := entered s0) in *.
  assert (wired s0) as Hs0 by by destruct Hs.
  pose proof (p_phase ph) as Hr. rewrite <- Hcs in Hr. change (curr_state_ s) with (curr_state_ s0) in Hr.
  match type of Hr with runs _ _ ?m => assert (m s0 = on_completion
     (λ rcode, match verdict ph rcode with
               | Accept => accepted ph
               | Goto ph' => transition (phase_state ph') (goto_event ph)
               | Reject => transition PROCESS_TRANS_FAILED_ST UPDATE_FAILED_EVT
               end)
     (if next_server ph then selecting_state ph else PROCESS_TRANS_FAILED_ST) s1) as E
    by (rewrite run_phase_shape; change (next_event_ s0) with IO_COMPLETED_EVT;
        by rewrite (proj2 (p_starts ph))) end.
  rewrite run_on_completion, Hst in E. unfold reports in Ha.
  assert (same_request (derived s1)) as Hreq by apply Hsrv.
  assert (forward_change_completed_ (derived s1) = fwd) as Hf by apply Hsrv.
  assert (reverse_change_completed_ (derived s1) = false) as Hv by apply Hsrv.
  destruct a as [rcode| |]; cbn [completed].
  - destruct Ha as [-> ->]. rewrite Hresp in E by done.
    destruct (verdict ph rcode) as [|ph'|] eqn:Ev.
    + by apply (loop_accepted n ph i fwd s1 s0 _ Hs0 Hr Hs1 E).
    + destruct (p_goto _ _ _ Ev) as (Hne1 & Hne2 & Hne & Hstart & Hnop & Hdef).
      apply (loops_moved _ (phase_state ph') (goto_event ph) _ s0 s1 _ Hs0 Hr Hs1);
        [exact E|apply calm_phase|exact Hdef|apply phase_running|done|].
      apply loop_attempt; [by apply wired_moved|done|done|by apply (has_server_goto ph)|].
      cbn. rewrite Hc. rewrite (proj2 (Z.eqb_neq (phase_state ph') END_ST)) by apply phase_running.
      by rewrite (proj2 (Z.eqb_neq _ _)) by (intros Eg%p_states; congruence).
    + by apply (loop_reject _ fwd s1 s0 _ Hs0 Hr Hs1 E).
  - assert (match status with
            | TIMEOUT | OTHER | INVALID_RESPONSE => True | _ => False end) as Hstat
      by (destruct Ha as [->|[->| ->]]; done).
    apply (loop_retry n ph i tries fwd s1 s0 _ Hs0 Hr Hs1 Hc); [|done|done].
    by destruct status.
  - subst status. by apply (loop_reject _ fwd s1 s0 _ Hs0 Hr Hs1 E).
Qed.
End Refine.
