(* ===== verification/NcProtocols.v ===== *)
(** * The protocols of the two kinds of transactions

    [add_protocol] and [remove_protocol] relate the handlers of [NcAdd] and
    [NcRemove] to [Protocol]: the judgement of the answers, the dictionaries of
    states and events, and the messages of each phase. *)

From S2P Require Import Prelude IoAddress D2Cfg StateModel NcTrans.
From S2P Require Import NcAdd NcRemove NcSpec.
Local Open Scope Z_scope.

Lemma on_completion_ext {H} `{DnsEnv} (f g : Rcode → ST (StateModel H Transaction) unit) st s :
  (∀ rcode s, f rcode s = g rcode s) → on_completion f st s = on_completion g st s.
Proof.
  intros Hfg. unfold on_completion, trans. unfold mbind, ST_bind, get, mret, ST_ret.
  destruct (dns_update_status_ (derived s)); try done.
  by destruct (dns_update_response_ (derived s)); cbn.
Qed.

Lemma phase_shape_ext {H} `{DnsEnv} st b (f g : Rcode → ST (StateModel H Transaction) unit) st' e s :
  (∀ rcode s, f rcode s = g rcode s) → phase_shape st b f st' e s = phase_shape st b g st' e s.
Proof.
  intros Hfg. unfold phase_shape, doOnEntry. unfold mbind, ST_bind, get, put, mret, ST_ret.
  destruct (on_entry_flag_ s); cbn; (destruct (st _); [done|]; destruct (_ =? _); [|done];
    by apply on_completion_ext).
Qed.

(** The messages depend on the request and the domains only. *)
Ltac same_message Hn Hf Hr :=
  unfold addLeaseAddressRdata, addDhcidRdata, addPtrRdata, getAddressRRType;
  rewrite ?Hn, ?Hf, ?Hr; reflexivity.

(** The entry of a state that is in the dictionary. *)
Ltac in_dictionary := eexists; split; [vm_compute; reflexivity|split; [reflexivity|]]; intros s.

Definition common_events : list (Z * string) :=
  [(NOP_EVT, "NOP_EVT"); (START_EVT, "START_EVT"); (END_EVT, "END_EVT"); (FAIL_EVT, "FAIL_EVT");
   (SELECT_SERVER_EVT, "SELECT_SERVER_EVT"); (SERVER_SELECTED_EVT, "SERVER_SELECTED_EVT");
   (SERVER_IO_ERROR_EVT, "SERVER_IO_ERROR_EVT"); (NO_MORE_SERVERS_EVT, "NO_MORE_SERVERS_EVT");
   (IO_COMPLETED_EVT, "IO_COMPLETED_EVT"); (UPDATE_OK_EVT, "UPDATE_OK_EVT");
   (UPDATE_FAILED_EVT, "UPDATE_FAILED_EVT")]%string.

Definition entry_of {H} (label : string) (h : H) : StateEntry H :=
  {| label_ := label; handler_ := h; pausing_ := STATE_PAUSE_NEVER; was_paused_ := false |}.

(** ** Adding *)

Definition add_phase_state (ph : Phase) : Z :=
  match ph with
  | First => ADDING_FWD_ADDRS_ST
  | Second => REPLACING_FWD_ADDRS_ST
  | Reverse => REPLACING_REV_PTRS_ST
  end.

Definition add_starts (ph : Phase) (ev : Z) : bool :=
  match ph with
  | Second => (ev =? FQDN_IN_USE_EVT) || (ev =? SERVER_SELECTED_EVT)
  | _ => ev =? SERVER_SELECTED_EVT
  end.

Definition add_goto_event (ph : Phase) : Z :=
  match ph with First => FQDN_IN_USE_EVT | _ => SERVER_SELECTED_EVT end.

(** A name in use is replaced; a name no longer in use is added again. *)
Definition add_verdict (ph : Phase) (rcode : Rcode) : Verdict :=
  if rcode =? RCODE_NOERROR then Accept
  else match ph with
       | First => if rcode =? RCODE_YXDOMAIN then Goto Second else Reject
       | Second => if rcode =? RCODE_NXDOMAIN then Goto First else Reject
       | Reverse => Reject
       end.

Definition add_states : gmap Z (StateEntry AddHandler) := list_to_map
  [(NEW_ST, entry_of "NEW_ST" AddNop); (END_ST, entry_of "END_ST" AddNop);
   (READY_ST, entry_of "READY_ST" AddReady);
   (SELECTING_FWD_SERVER_ST, entry_of "SELECTING_FWD_SERVER_ST" AddSelectingFwdServer);
   (SELECTING_REV_SERVER_ST, entry_of "SELECTING_REV_SERVER_ST" AddSelectingRevServer);
   (ADDING_FWD_ADDRS_ST, entry_of "ADDING_FWD_ADDRS_ST" AddingFwdAddrs);
   (REPLACING_FWD_ADDRS_ST, entry_of "REPLACING_FWD_ADDRS_ST" ReplacingFwdAddrs);
   (REPLACING_REV_PTRS_ST, entry_of "REPLACING_REV_PTRS_ST" ReplacingRevPtrs);
   (PROCESS_TRANS_OK_ST, entry_of "PROCESS_TRANS_OK_ST" ProcessAddOk);
   (PROCESS_TRANS_FAILED_ST, entry_of "PROCESS_TRANS_FAILED_ST" ProcessAddFailed)].

Definition add_events : gmap Z string := list_to_map
  (common_events ++ [(FQDN_IN_USE_EVT, "FQDN_IN_USE_EVT");
                     (FQDN_NOT_IN_USE_EVT, "FQDN_NOT_IN_USE_EVT")]%string).

Section Add.
Context `{DnsEnv}.

Definition add_build (ph : Phase) : Transaction → res D2UpdateMessage :=
  match ph with
  | First => buildAddFwdAddressRequest
  | Second => buildReplaceFwdAddressRequest
  | Reverse => buildReplaceRevPtrsRequest
  end.

Lemma add_build_ext ph t t' :
  ncr_ t = ncr_ t' → forward_domain_ t = forward_domain_ t' → reverse_domain_ t = reverse_domain_ t' →
  add_build ph t = add_build ph t'.
Proof.
  intros Hn Hf Hr. destruct ph; cbn [add_build];
    unfold buildAddFwdAddressRequest, buildReplaceFwdAddressRequest, buildReplaceRevPtrsRequest;
    same_message Hn Hf Hr.
Qed.

Lemma add_init (d : Transaction) :
  initDictionaries (new_model d) =
    (with_initted true (with_states add_states (with_events add_events (new_model d))), Ok tt).
Proof. vm_compute. reflexivity. Qed.

Lemma adding_shape s :
  addingFwdAddrsHandler s = phase_shape (add_starts First) buildAddFwdAddressRequest
    (λ rcode, if rcode =? RCODE_NOERROR then forward_change_done
              else if rcode =? RCODE_YXDOMAIN then transition REPLACING_FWD_ADDRS_ST FQDN_IN_USE_EVT
              else transition PROCESS_TRANS_FAILED_ST UPDATE_FAILED_EVT)
    SELECTING_FWD_SERVER_ST NameAddTransactionError s.
Proof. reflexivity. Qed.

Lemma replacing_shape s :
  replacingFwdAddrsHandler s = phase_shape (add_starts Second) buildReplaceFwdAddressRequest
    (λ rcode, if rcode =? RCODE_NOERROR then forward_change_done
              else if rcode =? RCODE_NXDOMAIN then transition ADDING_FWD_ADDRS_ST SERVER_SELECTED_EVT
              else transition PROCESS_TRANS_FAILED_ST UPDATE_FAILED_EVT)
    SELECTING_FWD_SERVER_ST NameAddTransactionError s.
Proof. reflexivity. Qed.

Lemma replacing_rev_shape s :
  replacingRevPtrsHandler s = phase_shape (add_starts Reverse) buildReplaceRevPtrsRequest
    (λ rcode, if rcode =? RCODE_NOERROR
              then (_ ← setReverseChangeCompleted true; transition PROCESS_TRANS_OK_ST UPDATE_OK_EVT)
              else transition PROCESS_TRANS_FAILED_ST UPDATE_FAILED_EVT)
    SELECTING_REV_SERVER_ST NameAddTransactionError s.
Proof. reflexivity. Qed.

#[export] Instance add_protocol : Protocol AddHandler.
Proof.
  refine {| dict_states := add_states; dict_events := add_events; phase_state := add_phase_state;
            starts := add_starts; goto_event := add_goto_event; build := add_build;
            verdict := add_verdict; next_server := λ _, true;
            fails_with := λ ev, (ev =? UPDATE_FAILED_EVT) || (ev =? NO_MORE_SERVERS_EVT);
            protocol_error := NameAddTransactionError |}.
  - intros []; in_dictionary; cbn [run_handler add_virtual handler_ run_add_handler];
      rewrite ?adding_shape, ?replacing_shape, ?replacing_rev_shape;
      apply phase_shape_ext; intros rcode s'; unfold add_verdict;
      destruct (rcode =? RCODE_NOERROR); try reflexivity; by destruct (rcode =? _).
  - intros []; in_dictionary; reflexivity.
  - in_dictionary; reflexivity.
  - in_dictionary; reflexivity.
  - in_dictionary; reflexivity.
  - apply Forall_forall. repeat constructor; by eexists.
  - intros [] ph' rcode; unfold add_verdict; destruct (rcode =? RCODE_NOERROR); try done;
      destruct (rcode =? _); try done; intros [= <-]; split_and!; try done; by eexists.
  - by intros [].
  - by intros [] [].
  - by intros [].
  - split_and!; try done. by intros [ph ?].
  - done.
  - apply add_build_ext.
  - apply add_init.
Defined.
End Add.

(** ** Removing *)

Definition remove_phase_state (ph : Phase) : Z :=
  match ph with
  | First => REMOVING_FWD_ADDRS_ST
  | Second => REMOVING_FWD_RRS_ST
  | Reverse => REMOVING_REV_PTRS_ST
  end.

Definition remove_starts (ph : Phase) (ev : Z) : bool :=
  match ph with
  | Second => (ev =? UPDATE_OK_EVT) || (ev =? SERVER_SELECTED_EVT)
  | _ => ev =? SERVER_SELECTED_EVT
  end.

(** The forward entries take both exchanges. *)
Definition remove_verdict (ph : Phase) (rcode : Rcode) : Verdict :=
  if gone rcode then match ph with First => Goto Second | _ => Accept end else Reject.

Definition remove_states : gmap Z (StateEntry RemoveHandler) := list_to_map
  [(NEW_ST, entry_of "NEW_ST" RemoveNop); (END_ST, entry_of "END_ST" RemoveNop);
   (READY_ST, entry_of "READY_ST" RemoveReady);
   (SELECTING_FWD_SERVER_ST, entry_of "SELECTING_FWD_SERVER_ST" RemoveSelectingFwdServer);
   (SELECTING_REV_SERVER_ST, entry_of "SELECTING_REV_SERVER_ST" RemoveSelectingRevServer);
   (REMOVING_FWD_ADDRS_ST, entry_of "REMOVING_FWD_ADDRS_ST" RemovingFwdAddrs);
   (REMOVING_FWD_RRS_ST, entry_of "REMOVING_FWD_RRS_ST" RemovingFwdRRs);
   (REMOVING_REV_PTRS_ST, entry_of "REMOVING_REV_PTRS_ST" RemovingRevPtrs);
   (PROCESS_TRANS_OK_ST, entry_of "PROCESS_TRANS_OK_ST" ProcessRemoveOk);
   (PROCESS_TRANS_FAILED_ST, entry_of "PROCESS_TRANS_FAILED_ST" ProcessRemoveFailed)].

Definition remove_events : gmap Z string := list_to_map common_events.

Section Remove.
Context `{DnsEnv}.

Definition remove_build (ph : Phase) : Transaction → res D2UpdateMessage :=
  match ph with
  | First => buildRemoveFwdAddressRequest
  | Second => buildRemoveFwdRRsRequest
  | Reverse => buildRemoveRevPtrsRequest
  end.

Lemma remove_build_ext ph t t' :
  ncr_ t = ncr_ t' → forward_domain_ t = forward_domain_ t' → reverse_domain_ t = reverse_domain_ t' →
  remove_build ph t = remove_build ph t'.
Proof.
  intros Hn Hf Hr. destruct ph; cbn [remove_build];
    unfold buildRemoveFwdAddressRequest, buildRemoveFwdRRsRequest, buildRemoveRevPtrsRequest;
    same_message Hn Hf Hr.
Qed.

Lemma remove_init (d : Transaction) :
  initDictionaries (new_model d) =
    (with_initted true (with_states remove_states (with_events remove_events (new_model d))), Ok tt).
Proof. vm_compute. reflexivity. Qed.

Lemma removing_shape s :
  removingFwdAddrsHandler s = phase_shape (remove_starts First) buildRemoveFwdAddressRequest
    (λ rcode, if gone rcode then transition REMOVING_FWD_RRS_ST UPDATE_OK_EVT
              else transition PROCESS_TRANS_FAILED_ST UPDATE_FAILED_EVT)
    SELECTING_FWD_SERVER_ST NameRemoveTransactionError s.
Proof. reflexivity. Qed.

Lemma removing_rrs_shape s :
  removingFwdRRsHandler s = phase_shape (remove_starts Second) buildRemoveFwdRRsRequest
    (λ rcode, if gone rcode then accepted Second
              else transition PROCESS_TRANS_FAILED_ST UPDATE_FAILED_EVT)
    PROCESS_TRANS_FAILED_ST NameRemoveTransactionError s.
Proof. reflexivity. Qed.

Lemma removing_rev_shape s :
  removingRevPtrsHandler s = phase_shape (remove_starts Reverse) buildRemoveRevPtrsRequest
    (λ rcode, if gone rcode then accepted Reverse
              else transition PROCESS_TRANS_FAILED_ST UPDATE_FAILED_EVT)
    SELECTING_REV_SERVER_ST NameRemoveTransactionError s.
Proof. reflexivity. Qed.

#[export] Instance remove_protocol : Protocol RemoveHandler.
Proof.
  refine {| dict_states := remove_states; dict_events := remove_events;
            phase_state := remove_phase_state; starts := remove_starts;
            goto_event := λ _, UPDATE_OK_EVT; build := remove_build;
            verdict := remove_verdict;
            next_server := λ ph, match ph with Second => false | _ => true end;
            fails_with := λ ev, (ev =? UPDATE_FAILED_EVT) || (ev =? NO_MORE_SERVERS_EVT)
                                || (ev =? SERVER_IO_ERROR_EVT);
            protocol_error := NameRemoveTransactionError |}.
  - intros []; in_dictionary; cbn [run_handler remove_virtual handler_ run_remove_handler];
      rewrite ?removing_shape, ?removing_rrs_shape, ?removing_rev_shape;
      apply phase_shape_ext; intros rcode s'; unfold remove_verdict; by destruct (gone rcode).
  - intros []; in_dictionary; reflexivity.
  - in_dictionary; reflexivity.
  - in_dictionary; reflexivity.
  - in_dictionary; reflexivity.
  - apply Forall_forall. repeat constructor; by eexists.
  - intros [] ph' rcode; unfold remove_verdict; destruct (gone rcode); try done;
      intros [= <-]; split_and!; try done; by eexists.
  - by intros [].
  - by intros [] [].
  - by intros [].
  - by split_and!.
  - done.
  - apply remove_build_ext.
  - apply remove_init.
Defined.
End Remove.
