(* ===== verification/NcCorrect.v ===== *)
(** * What name change transactions promise

    The theorems of the two kinds of transactions, from the simulation of
    [NcRefine]: a transaction follows its protocol, it reports the changes that were
    made, the reverse entries come after the forward entries, and it ends. *)

From S2P Require Import Prelude IoAddress D2Cfg StateModel NcTrans.
From S2P Require Import NcAdd NcRemove NcSpec NcRefine NcProtocols.
Local Open Scope Z_scope.
#[local] Set Default Proof Using "All".

(** ** Runs of a transaction *)

Section Runs.
Context {H : Type} `{Protocol H}.
Implicit Types (s : StateModel H Transaction) (t : Transaction).

(** The ends of the exchanges, as the DNS client reports them one after the other; it
    calls nobody once the transaction is done. *)
Fixpoint deliver (fuel : nat) (ends : list (DnsStatus * option Rcode)) :
    ST (StateModel H Transaction) unit :=
  match ends with
  | [] => mret tt
  | (status, response) :: ends' =>
      s ← get;
      _ ← (if isModelDone s then mret tt else io_completed fuel status response);
      deliver fuel ends'
  end.

(** A transaction that is started and then gets the ends of its exchanges. *)
Definition transact (fuel : nat) (ends : list (DnsStatus * option Rcode)) t :
    StateModel H Transaction * res unit :=
  (_ ← startTransaction fuel; deliver fuel ends) (new_model t).

(** The transaction as it is once it is started. *)
Definition pending t : Transaction := with_ncr (setStatus ST_PENDING (ncr_ t)) t.

(** A new transaction with at least one domain to update. *)
Record fresh t : Prop := {
  fresh_fwd : forward_change_completed_ t = false;
  fresh_rev : reverse_change_completed_ t = false;
  fresh_domain : is_Some (forward_domain_ t) ∨ is_Some (reverse_domain_ t)
}.

Definition progress t (answers : list Answer) : Progress :=
  foldl (completed (pending t)) (started (pending t)) answers.

Definition reported (answers : list Answer) (ends : list (DnsStatus * option Rcode)) : Prop :=
  Forall2 (λ a e, reports a e.1 e.2) answers ends.

Lemma deliver_refines t0 fuel answers ends : ∀ p s,
  (4 ≤ fuel)%nat → reported answers ends → holds t0 p s →
  ∃ s', deliver fuel ends s = (s', Ok tt) ∧ holds t0 (foldl (completed t0) p answers) s'.
Proof.
  intros p s Hfuel Hr. revert p s. induction Hr as [|a [st r] answers ends Ha _ IH]; intros p s Hp.
  { by exists s. }
  cbn [deliver foldl]. unfold mbind, ST_bind, get.
  destruct p as [ph i tries fwd|ok fwd rev].
  - assert (isModelDone s = false) as ->.
    { destruct Hp as (_ & Hc & _). unfold isModelDone. rewrite Hc. by apply Z.eqb_neq, (phase_running t0). }
    do 4 (destruct fuel as [|fuel]; [lia|]).
    destruct (refines_completion t0 fuel _ a st r s Hp) as (s1 & -> & Hp1); [by exists ph, i, tries, fwd|done|].
    destruct (IH _ _ Hp1) as (s2 & E & Hp2). by exists s2.
  - assert (isModelDone s = true) as ->.
    { destruct Hp as (Hc & _). unfold isModelDone. by rewrite Hc. }
    cbn. destruct (IH (Finished ok fwd rev) s Hp) as (s2 & E & Hp2). by exists s2.
Qed.

Lemma transact_refines t fuel answers ends :
  (4 ≤ fuel)%nat → fresh t → reported answers ends →
  ∃ s', transact fuel ends t = (s', Ok tt) ∧ holds (pending t) (progress t answers) s'.
Proof.
  intros Hfuel [Hf Hr Hd] Hrep. do 4 (destruct fuel as [|fuel]; [lia|]).
  destruct (refines_start (pending t) fuel t eq_refl Hf Hr Hd) as (s1 & E1 & H1').
  destruct (deliver_refines (pending t) _ answers ends _ _ Hfuel Hrep H1') as (s2 & E2 & H2').
  exists s2. split; [|done]. unfold transact, mbind, ST_bind. by rewrite E1.
Qed.

(** ** Facts of the protocol *)

Definition wanted (d : option DdnsDomain) : bool := bool_decide (is_Some d).

(** What holds of the progress of every transaction. *)
Definition sound t (p : Progress) : Prop :=
  match p with
  | Waiting ph server tries fwd =>
      (1 ≤ tries ≤ MAX_UPDATE_TRIES_PER_SERVER)%nat ∧ (server < length (servers_of t ph))%nat ∧
      is_Some (domain_of t ph) ∧
      fwd = match ph with Reverse => wanted (forward_domain_ t) | _ => false end
  | Finished ok fwd rev =>
      ok = bool_decide (fwd = wanted (forward_domain_ t) ∧ rev = wanted (reverse_domain_ t)) ∧
      (rev = true → fwd = wanted (forward_domain_ t))
  end.

Lemma sound_attempt t ph i tries fwd :
  (1 ≤ tries ≤ MAX_UPDATE_TRIES_PER_SERVER)%nat → is_Some (domain_of t ph) →
  fwd = match ph with Reverse => wanted (forward_domain_ t) | _ => false end →
  sound t (attempt t ph i tries fwd).
Proof.
  intros Ht [d Hd] Hf.
  assert (sound t (Finished false fwd false)) as Hfail.
  { split; [|done]. symmetry. apply bool_decide_eq_false. intros [Hfwd Hrev]. subst fwd.
    unfold wanted in *. destruct ph; cbn in Hd.
    - by rewrite Hd in Hfwd.
    - by rewrite Hd in Hfwd.
    - by rewrite Hd in Hrev. }
  unfold attempt. destruct (servers_of t ph !! i) eqn:Hs; [|done].
  destruct (build ph t); [|done]. destruct (send_ok _ _ _); [|done].
  split; [done|]. split; [by apply lookup_lt_Some in Hs|]. split; [by exists d|done].
Qed.

Lemma sound_started t : is_Some (forward_domain_ t) ∨ is_Some (reverse_domain_ t) → sound t (started t).
Proof.
  intros Hd. unfold started. destruct (forward_domain_ t) eqn:Ef.
  - apply sound_attempt; [unfold MAX_UPDATE_TRIES_PER_SERVER; lia|cbn; by rewrite Ef|done].
  - apply sound_attempt; [unfold MAX_UPDATE_TRIES_PER_SERVER; lia| |cbn; by rewrite Ef].
    by destruct Hd as [[? ?]|?].
Qed.

Lemma sound_finished_failed t ph fwd :
  is_Some (domain_of t ph) →
  fwd = match ph with Reverse => wanted (forward_domain_ t) | _ => false end →
  sound t (Finished false fwd false).
Proof.
  intros Hd Hf. pose proof (sound_attempt t ph (length (servers_of t ph)) 1 fwd) as Ha.
  unfold attempt in Ha. rewrite lookup_ge_None_2 in Ha by lia.
  apply Ha; [unfold MAX_UPDATE_TRIES_PER_SERVER; lia|done|done].
Qed.

Lemma sound_completed t p a : sound t p → sound t (completed t p a).
Proof.
  destruct p as [ph i tries fwd|]; [|done]. intros (Ht & Hi & Hd & Hf).
  assert ((1 ≤ 1 ≤ MAX_UPDATE_TRIES_PER_SERVER)%nat) as H11 by (unfold MAX_UPDATE_TRIES_PER_SERVER; lia).
  destruct a as [rcode| |]; cbn [completed]; [| |by apply (sound_finished_failed t ph)].
  - destruct (verdict ph rcode) as [|ph'|] eqn:Ev; [| |by apply (sound_finished_failed t ph)].
    + destruct (decide (ph = Reverse)) as [->|Hph].
      * cbn in Hd. split; [|by rewrite Hf].
        symmetry. apply bool_decide_eq_true. split; [done|].
        symmetry. by apply bool_decide_eq_true.
      * assert (is_Some (forward_domain_ t)) as Hfd by by destruct ph.
        assert (wanted (forward_domain_ t) = true) as Hw by by apply bool_decide_eq_true.
        assert (sound t (match reverse_domain_ t with
                | Some _ => attempt t Reverse 0 1 true
                | None => Finished true true false
                end)); [|by destruct ph].
        destruct (reverse_domain_ t) eqn:Er.
        -- apply sound_attempt; [done|cbn; by rewrite Er|done].
        -- split; [|done]. symmetry. apply bool_decide_eq_true. by rewrite Hw, Er.
    + destruct (p_goto _ _ _ Ev) as (Hph & Hph' & _).
      apply sound_attempt; [done|by destruct ph, ph'|by destruct ph, ph'].
  - destruct (tries <? MAX_UPDATE_TRIES_PER_SERVER)%nat eqn:E.
    + apply Nat.ltb_lt in E. apply sound_attempt; [lia|done|done].
    + destruct (next_server ph); [|by apply (sound_finished_failed t ph)].
      apply sound_attempt; [done|by destruct ph|by destruct ph].
Qed.

Lemma sound_progress t answers : fresh t → sound (pending t) (progress t answers).
Proof.
  intros [_ _ Hd]. unfold progress. generalize (sound_started (pending t) Hd).
  generalize (started (pending t)). induction answers as [|a answers IH]; intros p Hp; [done|].
  cbn. by apply IH, sound_completed.
Qed.
End Runs.

(** ** Termination *)

(** A measure that every answer decreases, unless it is one of those [charged] counts. *)
Section Measure.
Context {H : Type} `{Protocol H} (t0 : Transaction) (cost : Progress → nat) (charged : Answer → nat).
Context (Hfree : charged Cancelled = 0%nat).
Context (Hcost : ∀ p a, sound t0 p → (∀ ok fwd rev, p ≠ Finished ok fwd rev) →
  (cost (completed t0 p a) < cost p + charged a)%nat).

Lemma progress_ends answers : ∀ p,
  sound t0 p → (cost p + list_sum (charged <$> answers) ≤ length answers)%nat →
  ∃ ok fwd rev, foldl (completed t0) p answers = Finished ok fwd rev.
Proof.
  induction answers as [|a answers IH]; intros p Hp Hlen.
  - destruct p as [ph i tries fwd|]; [|by repeat eexists].
    pose proof (Hcost (Waiting ph i tries fwd) Cancelled Hp ltac:(done)) as Hc. cbn in Hc, Hlen. lia.
  - cbn [foldl]. destruct p as [ph i tries fwd|ok fwd rev].
    + apply IH; [by apply sound_completed|].
      pose proof (Hcost (Waiting ph i tries fwd) a Hp ltac:(done)) as Hc.
      change (list_sum (charged <$> a :: answers))
        with (charged a + list_sum (charged <$> answers))%nat in Hlen.
      cbn [length] in Hlen. lia.
    + clear. induction answers as [|a' answers IH]; [by repeat eexists|done].
Qed.
End Measure.

(** The tries left with the servers from the [server]-th on. *)
Definition tries_left (servers server tries : nat) : nat :=
  (MAX_UPDATE_TRIES_PER_SERVER * (servers - server) - (tries - 1))%nat.

Section Costs.
Context {env : DnsEnv} (t0 : Transaction).

Definition fwd_servers : nat := length (servers_of t0 First).
Definition rev_servers : nat := length (servers_of t0 Reverse).

Definition remove_cost (p : Progress) : nat :=
  match p with
  | Waiting First i tries _ => (tries_left fwd_servers i tries + 3 + 3 * rev_servers)%nat
  | Waiting Second _ tries _ => (3 - (tries - 1) + 3 * rev_servers)%nat
  | Waiting Reverse i tries _ => tries_left rev_servers i tries
  | Finished _ _ _ => 0%nat
  end.

Definition add_cost (p : Progress) : nat :=
  match p with
  | Waiting First i tries _ => (6 * (fwd_servers - i) - (tries - 1) + 3 * rev_servers)%nat
  | Waiting Second i tries _ => (6 * (fwd_servers - i) - 3 - (tries - 1) + 3 * rev_servers)%nat
  | Waiting Reverse i tries _ => tries_left rev_servers i tries
  | Finished _ _ _ => 0%nat
  end.

(** An answer that the name is gone sends an add transaction back to the first
    exchange. *)
Definition name_gone (a : Answer) : nat :=
  match a with Answered rcode => if rcode =? RCODE_NXDOMAIN then 6 else 0 | _ => 0 end.

Lemma attempt_cases {H : Type} `{Protocol H} ph i tries fwd :
  attempt t0 ph i tries fwd = Finished false fwd false ∨
  (attempt t0 ph i tries fwd = Waiting ph i tries fwd ∧ (i < length (servers_of t0 ph))%nat).
Proof.
  unfold attempt. destruct (servers_of t0 ph !! i) eqn:E; [|by left].
  destruct (build ph t0); [|by left]. destruct (send_ok _ _ _); [|by left].
  right. split; [done|by apply lookup_lt_Some in E].
Qed.

(** Evaluates the costs and compares them. *)
Ltac costs :=
  cbn [remove_cost add_cost name_gone] in *; unfold tries_left, MAX_UPDATE_TRIES_PER_SERVER in *; lia.

Lemma remove_cost_decreases p a :
  sound t0 p → (∀ ok fwd rev, p ≠ Finished ok fwd rev) →
  (remove_cost (completed (H := RemoveHandler) t0 p a) < remove_cost p + 0)%nat.
Proof.
  intros Hp Hn. destruct p as [ph i tries fwd|ok fwd rev]; [|by destruct (Hn ok fwd rev)].
  destruct Hp as (Ht & Hi0 & _ & _). unfold MAX_UPDATE_TRIES_PER_SERVER in Ht.
  assert (i < match ph with Reverse => rev_servers | _ => fwd_servers end)%nat as Hi
    by (by destruct ph). clear Hi0.
  assert ((0 < remove_cost (Waiting ph i tries fwd))%nat) as Hpos.
  { destruct ph; costs. }
  assert (∀ ph' j k b, (remove_cost (Waiting ph' j k b) < remove_cost (Waiting ph i tries fwd))%nat →
    (remove_cost (attempt (H := RemoveHandler) t0 ph' j k b) <
     remove_cost (Waiting ph i tries fwd) + 0)%nat) as Hatt.
  { intros ph' j k b Hlt. destruct (attempt_cases (H := RemoveHandler) ph' j k b) as [-> |[-> _]];
      [costs|lia]. }
  destruct a as [rcode| |]; cbn [completed]; [| |costs].
  - cbn [verdict remove_protocol]. unfold remove_verdict.
    destruct (gone rcode); [|costs].
    destruct ph.
    + apply Hatt. costs.
    + destruct (reverse_domain_ t0); [|costs].
      apply Hatt. costs.
    + costs.
  - destruct (tries <? MAX_UPDATE_TRIES_PER_SERVER)%nat eqn:E.
    + apply Nat.ltb_lt in E. unfold MAX_UPDATE_TRIES_PER_SERVER in E.
      apply Hatt. destruct ph; costs.
    + cbn [next_server remove_protocol]. destruct ph; cbn [opening]; [| costs|].
      * apply Hatt. costs.
      * apply Hatt. costs.
Qed.

Lemma add_cost_decreases p a :
  sound t0 p → (∀ ok fwd rev, p ≠ Finished ok fwd rev) →
  (add_cost (completed (H := AddHandler) t0 p a) < add_cost p + name_gone a)%nat.
Proof.
  intros Hp Hn. destruct p as [ph i tries fwd|ok fwd rev]; [|by destruct (Hn ok fwd rev)].
  destruct Hp as (Ht & Hi0 & _ & _). unfold MAX_UPDATE_TRIES_PER_SERVER in Ht.
  assert (i < match ph with Reverse => rev_servers | _ => fwd_servers end)%nat as Hi
    by (by destruct ph). clear Hi0.
  assert ((0 < add_cost (Waiting ph i tries fwd))%nat) as Hpos.
  { destruct ph; costs. }
  assert (∀ ph' j k b n, (add_cost (Waiting ph' j k b) < add_cost (Waiting ph i tries fwd) + n)%nat →
    (add_cost (attempt (H := AddHandler) t0 ph' j k b) <
     add_cost (Waiting ph i tries fwd) + n)%nat) as Hatt.
  { intros ph' j k b n Hlt. destruct (attempt_cases (H := AddHandler) ph' j k b) as [-> |[-> _]];
      [costs|lia]. }
  destruct a as [rcode| |]; cbn [completed]; [| |costs].
  - cbn [verdict add_protocol]. unfold add_verdict.
    destruct (rcode =? RCODE_NOERROR).
    + destruct ph; [..|costs];
        (destruct (reverse_domain_ t0); [|costs]; apply Hatt;
         costs).
    + destruct ph; [destruct (rcode =? RCODE_YXDOMAIN)| |]; try costs.
      * apply Hatt. costs.
      * cbn [name_gone]. destruct (rcode =? RCODE_NXDOMAIN); [|costs].
        apply Hatt. costs.
  - cbn [name_gone]. destruct (tries <? MAX_UPDATE_TRIES_PER_SERVER)%nat eqn:E.
    + apply Nat.ltb_lt in E. unfold MAX_UPDATE_TRIES_PER_SERVER in E.
      apply Hatt. destruct ph; costs.
    + apply Nat.ltb_ge in E. unfold MAX_UPDATE_TRIES_PER_SERVER in E.
      cbn [next_server add_protocol]. apply Hatt. destruct ph; cbn [opening]; costs.
Qed.

Lemma attempt_cost_remove ph :
  (remove_cost (attempt (H := RemoveHandler) t0 ph 0 1 false) <=
   match ph with Reverse => 0 | _ => 3 * fwd_servers + 3 end + 3 * rev_servers)%nat.
Proof.
  destruct (attempt_cases (H := RemoveHandler) ph 0 1 false) as [-> |[-> _]]; [cbn; lia|].
  destruct ph; cbn; unfold tries_left, MAX_UPDATE_TRIES_PER_SERVER; lia.
Qed.

Lemma attempt_cost_add ph :
  (add_cost (attempt (H := AddHandler) t0 ph 0 1 false) <=
   match ph with Reverse => 0 | _ => 6 * fwd_servers end + 3 * rev_servers)%nat.
Proof.
  destruct (attempt_cases (H := AddHandler) ph 0 1 false) as [-> |[-> _]]; [cbn; lia|].
  destruct ph; cbn; unfold tries_left, MAX_UPDATE_TRIES_PER_SERVER; lia.
Qed.
End Costs.

(** ** The theorems *)

Section Theorems.
Context {H : Type} `{Protocol H}.
Implicit Types (t : Transaction).

(** C24: A transaction, started and given any ends of its exchanges, never throws and
    follows its protocol: while it waits, the message of its phase is with the server
    of its turn and was tried as often as the protocol says; when it is done, the model
    has not failed, and the status and the completed changes are those of the
    protocol.  Four handlers between two events are enough. *)
Theorem transaction_follows_protocol (t : Transaction) (fuel : nat) (answers : list Answer)
    (ends : list (DnsStatus * option Rcode))
    (Hfuel : (4 ≤ fuel)%nat) (Hfresh : fresh t) (Hends : reported answers ends) :
  ∃ s', transact fuel ends t = (s', Ok tt) ∧
    match progress t answers with
    | Waiting ph server tries fwd =>
        curr_state_ s' = phase_state ph ∧ isModelWaiting s' = true ∧
        status_ (ncr_ (derived s')) = ST_PENDING ∧ update_attempts_ (derived s') = tries ∧
        forward_change_completed_ (derived s') = fwd ∧
        ∃ srv m, servers_of t ph !! server = Some srv ∧ build ph (pending t) = Ok m ∧
          last (sent (derived s')) = Some (srv, m, key_of t ph)
    | Finished ok fwd rev =>
        isModelDone s' = true ∧ didModelFail s' = false ∧
        status_ (ncr_ (derived s')) = (if ok then ST_COMPLETED else ST_FAILED) ∧
        forward_change_completed_ (derived s') = fwd ∧
        reverse_change_completed_ (derived s') = rev
    end.
Proof.
  destruct (transact_refines t fuel answers ends Hfuel Hfresh Hends) as (s' & E & Hh).
  exists s'. split; [exact E|].
  destruct (progress t answers) as [ph i tries fwd|ok fwd rev].
  - destruct Hh as (_ & Hc & Hn & _ & ([Hreq _ _ _ Hf _] & _) & (srv & m & Hs & Hb & _ & Hl) & Ht).
    assert (isModelWaiting s' = true) as Hw.
    { unfold isModelWaiting, isModelRunning. rewrite Hn, Hc, andb_true_r.
      pose proof (p_phase_state ph) as Hlt. unfold NCT_DERIVED_STATE_MIN, SM_DERIVED_STATE_MIN in Hlt.
      by rewrite !(proj2 (Z.eqb_neq _ _)) by (unfold NEW_ST, END_ST; lia). }
    destruct Hreq as (Hreq & _). split_and!; try done; [by rewrite Hreq|].
    by exists srv, m.
  - destruct Hh as (Hc & Hn & Hst & Hf & Hr). unfold isModelDone, didModelFail, isModelDone.
    by rewrite Hc, Hn, Hst.
Qed.

(** C25: Whatever the servers answer, a transaction that is done has the status
    "completed" exactly when every change its domains ask for was made, and "failed"
    otherwise; the reverse change is made only after the forward change, if there is
    one; and while the message of the reverse change is out, the forward change has been
    made. *)
Theorem transaction_outcome (t : Transaction) (fuel : nat) (answers : list Answer)
    (ends : list (DnsStatus * option Rcode)) s' r
    (Hfuel : (4 ≤ fuel)%nat) (Hfresh : fresh t) (Hends : reported answers ends)
    (E : transact fuel ends t = (s', r)) :
  let fwd := forward_change_completed_ (derived s') in
  let rev := reverse_change_completed_ (derived s') in
  r = Ok tt ∧
  (isModelDone s' = true →
     status_ (ncr_ (derived s')) =
       (if bool_decide (fwd = wanted (forward_domain_ t) ∧ rev = wanted (reverse_domain_ t))
        then ST_COMPLETED else ST_FAILED)) ∧
  (rev = true ∨ curr_state_ s' = phase_state Reverse → fwd = wanted (forward_domain_ t)).
Proof.
  destruct (transact_refines t fuel answers ends Hfuel Hfresh Hends) as (s1 & E1 & Hh).
  rewrite E in E1. injection E1 as <- ->.
  pose proof (sound_progress t answers Hfresh) as Hsound.
  destruct (progress t answers) as [ph i tries fwd|ok fwd rev].
  - destruct Hh as (_ & Hc & _ & _ & ([_ _ _ _ Hf Hv] & _) & _ & _).
    destruct Hsound as (_ & _ & _ & Hfwd). cbv zeta. rewrite Hf, Hv, Hc. split; [done|split].
    + unfold isModelDone. rewrite Hc. by intros ?%Z.eqb_eq%(phase_running t).
    + intros [| ->%p_states]; done.
  - destruct Hh as (Hc & _ & Hst & Hf & Hv). destruct Hsound as (Hok & Hrev). cbv zeta.
    rewrite Hst, Hf, Hv, Hc. split; [done|split]; [by rewrite Hok|]. intros [?|Hp]; [by apply Hrev|].
    by destruct (phase_running t Reverse).
Qed.
End Theorems.

Section Ends.
Context `{DnsEnv}.

(** A transaction that removes entries is done after at most
    [3 * n + 3 + 3 * m] ends of exchanges, with [n] forward and [m] reverse servers:
    three tries for each server of each direction and three for the second forward
    exchange. *)
Theorem remove_ends (t : Transaction) (fuel : nat) (answers : list Answer)
    (ends : list (DnsStatus * option Rcode))
    (Hfuel : (4 ≤ fuel)%nat) (Hfresh : fresh t) (Hends : reported answers ends)
    (Hlen : (3 * fwd_servers t + 3 + 3 * rev_servers t ≤ length ends)%nat) :
  ∃ s', transact (H := RemoveHandler) fuel ends t = (s', Ok tt) ∧ isModelDone s' = true.
Proof.
  destruct (transact_refines (H := RemoveHandler) t fuel answers ends Hfuel Hfresh Hends)
    as (s' & E & Hh).
  exists s'. split; [exact E|].
  destruct (progress_ends (H := RemoveHandler) (pending t) (remove_cost (pending t)) (λ _, 0%nat)
              eq_refl (remove_cost_decreases (pending t)) answers (started (H := RemoveHandler) (pending t)))
    as (ok & fwd & rev & Ep).
  - by apply sound_started, Hfresh.
  - apply Forall2_length in Hends. rewrite Hends.
    assert (list_sum ((λ _, 0%nat) <$> answers) = 0%nat) as -> by (clear; by induction answers).
    unfold started. pose proof (attempt_cost_remove (pending t)) as Hcost.
    change (fwd_servers (pending t)) with (fwd_servers t) in Hcost.
    change (rev_servers (pending t)) with (rev_servers t) in Hcost.
    destruct (forward_domain_ (pending t)); [specialize (Hcost First)|specialize (Hcost Reverse)];
      cbn iota in Hcost; lia.
  - unfold progress in Hh. rewrite Ep in Hh. destruct Hh as (Hc & _).
    unfold isModelDone. by rewrite Hc.
Qed.

(** A transaction that adds entries is done after at most [6 * n + 3 * m] ends of
    exchanges, with [n] forward and [m] reverse servers, and six more for every answer
    that the name does not exist. *)
Theorem add_ends (t : Transaction) (fuel : nat) (answers : list Answer)
    (ends : list (DnsStatus * option Rcode))
    (Hfuel : (4 ≤ fuel)%nat) (Hfresh : fresh t) (Hends : reported answers ends)
    (Hlen : (6 * fwd_servers t + 3 * rev_servers t + list_sum (name_gone <$> answers)
             ≤ length ends)%nat) :
  ∃ s', transact (H := AddHandler) fuel ends t = (s', Ok tt) ∧ isModelDone s' = true.
Proof.
  destruct (transact_refines (H := AddHandler) t fuel answers ends Hfuel Hfresh Hends)
    as (s' & E & Hh).
  exists s'. split; [exact E|].
  destruct (progress_ends (H := AddHandler) (pending t) (add_cost (pending t)) name_gone
              eq_refl (add_cost_decreases (pending t)) answers (started (H := AddHandler) (pending t)))
    as (ok & fwd & rev & Ep).
  - by apply sound_started, Hfresh.
  - apply Forall2_length in Hends. rewrite Hends.
    unfold started. pose proof (attempt_cost_add (pending t)) as Hcost.
    change (fwd_servers (pending t)) with (fwd_servers t) in Hcost.
    change (rev_servers (pending t)) with (rev_servers t) in Hcost.
    destruct (forward_domain_ (pending t)); [specialize (Hcost First)|specialize (Hcost Reverse)];
      cbn iota in Hcost; lia.
  - unfold progress in Hh. rewrite Ep in Hh. destruct Hh as (Hc & _).
    unfold isModelDone. by rewrite Hc.
Qed.
End Ends.

(** ** The theorems on a small configuration *)

(** A DNS library that accepts every name and message. *)
Definition plain_dns : DnsEnv := {| name_ok := λ _, true; send_ok := λ _ _ _, true |}.
#[local] Existing Instance plain_dns.

Definition dns_server (n : Z) : DnsServerInfo := {| server_ip_address_ := V4 n; server_port_ := 53 |}.
Definition forward_zone : DdnsDomain :=
  {| domain_name_ := "example.com."; servers_ := [dns_server 1; dns_server 2]; tsig_key_info_ := None |}.
Definition reverse_zone : DdnsDomain :=
  {| domain_name_ := "2.0.192.in-addr.arpa."; servers_ := [dns_server 3]; tsig_key_info_ := Some "key"%string |}.

Definition sample_request (type : NameChangeType) : NameChangeRequest :=
  {| change_type_ := type; forward_change_ := true; reverse_change_ := true;
     fqdn_ := "host.example.com."; ip_io_address_ := V4 0xC000020A; dhcid_ := [0; 1; 2];
     lease_expires_on_ := 5000; lease_length_ := 4000; status_ := ST_NEW |}.

Definition sample_transaction (type : NameChangeType) : Transaction :=
  match mkNameChangeTransaction (sample_request type) (Some forward_zone) (Some reverse_zone) with
  | Ok t => t
  | Throw _ =>
      {| ncr_ := sample_request type; forward_domain_ := None; reverse_domain_ := None;
         dns_client_ := false; dns_update_request_ := None; dns_update_status_ := OTHER;
         dns_update_response_ := None; forward_change_completed_ := false;
         reverse_change_completed_ := false; current_server_list_ := None; current_server_ := None;
         next_server_pos_ := 0; update_attempts_ := 0; tsig_key_ := None; sent := [] |}
  end.

Lemma sample_fresh type : fresh (sample_transaction type).
Proof. split; try reflexivity. left. by eexists. Qed.

(** The first forward server does not answer; the name is in use at the second one. *)
Definition sample_answers : list Answer :=
  [Unanswered; Unanswered; Unanswered; Answered RCODE_YXDOMAIN; Answered RCODE_NOERROR;
   Answered RCODE_NOERROR].
Definition sample_ends : list (DnsStatus * option Rcode) :=
  [(TIMEOUT, None); (TIMEOUT, None); (INVALID_RESPONSE, Some 0); (SUCCESS, Some RCODE_YXDOMAIN);
   (SUCCESS, Some RCODE_NOERROR); (SUCCESS, Some RCODE_NOERROR)].

Lemma sample_reported : reported sample_answers sample_ends.
Proof. repeat (apply Forall2_cons; split; [cbn; tauto|]). constructor. Qed.

Lemma transaction_follows_protocol_witness :
  fresh (sample_transaction CHG_ADD) ∧
  ∃ s', transact (H := AddHandler) 4 sample_ends (sample_transaction CHG_ADD) = (s', Ok tt) ∧
    status_ (ncr_ (derived s')) = ST_COMPLETED.
Proof.
  split; [exact (sample_fresh CHG_ADD)|].
  destruct (transaction_follows_protocol (H := AddHandler) (sample_transaction CHG_ADD) 4
    sample_answers sample_ends (le_n 4) (sample_fresh CHG_ADD) sample_reported) as (s' & E & Hs').
  exists s'. split; [exact E|]. vm_compute (progress _ _) in Hs'. apply Hs'.
Defined.

Lemma transaction_outcome_witness :
  fresh (sample_transaction CHG_ADD) ∧
  ∃ s' r, transact (H := AddHandler) 4 sample_ends (sample_transaction CHG_ADD) = (s', r) ∧ r = Ok tt.
Proof.
  split; [exact (sample_fresh CHG_ADD)|].
  destruct (transact (H := AddHandler) 4 sample_ends (sample_transaction CHG_ADD)) as [s' r] eqn:E.
  exists s', r. split; [reflexivity|].
  exact (proj1 (transaction_outcome (H := AddHandler) (sample_transaction CHG_ADD) 4 sample_answers
    sample_ends s' r (le_n 4) (sample_fresh CHG_ADD) sample_reported E)).
Defined.

Definition silence : list (DnsStatus * option Rcode) := replicate 12 (TIMEOUT, None).
Lemma silence_reported : reported (replicate 12 Unanswered) silence.
Proof. repeat constructor. Qed.

Lemma remove_ends_witness :
  fresh (sample_transaction CHG_REMOVE) ∧
  ∃ s', transact (H := RemoveHandler) 4 silence (sample_transaction CHG_REMOVE) = (s', Ok tt) ∧
    isModelDone s' = true.
Proof.
  split; [exact (sample_fresh CHG_REMOVE)|].
  apply (remove_ends (sample_transaction CHG_REMOVE) 4 (replicate 12 Unanswered) silence (le_n 4)
    (sample_fresh CHG_REMOVE) silence_reported). vm_compute. reflexivity.
Defined.

Definition long_silence : list (DnsStatus * option Rcode) := replicate 15 (TIMEOUT, None).
Lemma long_silence_reported : reported (replicate 15 Unanswered) long_silence.
Proof. repeat constructor. Qed.

Lemma add_ends_witness :
  fresh (sample_transaction CHG_ADD) ∧
  ∃ s', transact (H := AddHandler) 4 long_silence (sample_transaction CHG_ADD) = (s', Ok tt) ∧
    isModelDone s' = true.
Proof.
  split; [exact (sample_fresh CHG_ADD)|].
  apply (add_ends (sample_transaction CHG_ADD) 4 (replicate 15 Unanswered) long_silence (le_n 4)
    (sample_fresh CHG_ADD) long_silence_reported). vm_compute. lia.
Defined.

(** A server that answers in turn that the name exists and that it does not keeps an add
    transaction busy for as long as it likes. *)
Theorem add_may_not_end (n : nat) :
  ∃ s', transact (H := AddHandler) 4
          (concat (replicate n [(SUCCESS, Some RCODE_YXDOMAIN); (SUCCESS, Some RCODE_NXDOMAIN)]))
          (sample_transaction CHG_ADD) = (s', Ok tt) ∧ isModelDone s' = false.
Proof.
  assert (reported (concat (replicate n [Answered RCODE_YXDOMAIN; Answered RCODE_NXDOMAIN]))
    (concat (replicate n [(SUCCESS, Some RCODE_YXDOMAIN); (SUCCESS, Some RCODE_NXDOMAIN)]))) as Hr.
  { induction n as [|n IH]; [constructor|]. cbn. by repeat constructor. }
  destruct (transact_refines (H := AddHandler) (sample_transaction CHG_ADD) 4 _ _ (le_n 4)
              (sample_fresh CHG_ADD) Hr) as (s' & E & Hs').
  exists s'. split; [exact E|]. clear Hr E.
  assert (progress (H := AddHandler) (sample_transaction CHG_ADD)
    (concat (replicate n [Answered RCODE_YXDOMAIN; Answered RCODE_NXDOMAIN]))
    = Waiting First 0 1 false) as Ep.
  { unfold progress. change (started (H := AddHandler) (pending (sample_transaction CHG_ADD)))
      with (Waiting First 0 1 false). clear Hs'; induction n as [|n IH]; [reflexivity|exact IH]. }
  rewrite Ep in Hs'. destruct Hs' as (_ & Hc & _). unfold isModelDone. by rewrite Hc.
Qed.
