(* ===== verification/NcDns.v ===== *)
(** * What transactions do to the DNS (RFC 2136, RFC 4703)

    The messages of a transaction mean something to the servers that process them:
    prerequisites are tested against the records of a zone and updates change them.
    [prerequisite] and [apply_update] are this meaning, from RFC 2136, sections 2.4
    and 2.5; [DnsServer] is a server that keeps to it: it may refuse a message or
    answer whatever it likes, but it changes the zone only as the updates say and only
    when the prerequisites hold, and it reports a failed prerequisite only when there
    is one.  The theorems follow the zone through a transaction whose responses may
    also get lost.

    The servers are no part of the sources; [rfc2136] is one for the witnesses.  Times
    to live are left out, and names are compared as they are written.  The records of a zone
    are those the updates name: a zone has no CNAME record, which section 3.4.2.2 of RFC 2136
    treats in its own way. *)

From S2P Require Import Prelude IoAddress D2Cfg StateModel NcTrans.
From S2P Require Import NcAdd NcRemove NcSpec NcRefine NcProtocols NcCorrect.
Local Open Scope Z_scope.
#[local] Set Default Proof Using "All".

(** ** Zones and messages *)

Abbreviation RR := (string * RRType * Rdata)%type.
Abbreviation Zone := (list RR).

Definition name_in_use (n : string) (z : Zone) : bool := existsb (λ rr, bool_decide (rr.1.1 = n)) z.
Definition rrset_exists (n : string) (ty : RRType) (z : Zone) : bool :=
  existsb (λ rr, bool_decide (rr.1 = (n, ty))) z.
Definition rdata_at (n : string) (ty : RRType) (z : Zone) : list Rdata :=
  (filter (λ rr, rr.1 = (n, ty)) z).*2.
(** The records of a name and a type are exactly these. *)
Definition exactly (n : string) (ty : RRType) (l : list Rdata) (z : Zone) : bool :=
  forallb (λ d, bool_decide (d ∈ l)) (rdata_at n ty z) &&
  forallb (λ d, bool_decide (d ∈ rdata_at n ty z)) l.

Definition RCODE_YXRRSET : Rcode := 7.

(** The error of a prerequisite that does not hold (RFC 2136, section 3.2). *)
Definition prerequisite (r : RRset) (z : Zone) : option Rcode :=
  match rr_class r, rr_type r with
  | CLASS_ANY, TYPE_ANY => if name_in_use (rr_name r) z then None else Some RCODE_NXDOMAIN
  | CLASS_NONE, TYPE_ANY => if name_in_use (rr_name r) z then Some RCODE_YXDOMAIN else None
  | CLASS_ANY, ty => if rrset_exists (rr_name r) ty z then None else Some RCODE_NXRRSET
  | CLASS_NONE, ty => if rrset_exists (rr_name r) ty z then Some RCODE_YXRRSET else None
  | CLASS_IN, ty => if exactly (rr_name r) ty (rr_rdata r) z then None else Some RCODE_NXRRSET
  end.

Fixpoint prerequisites (l : list RRset) (z : Zone) : option Rcode :=
  match l with
  | [] => None
  | r :: l => match prerequisite r z with Some e => Some e | None => prerequisites l z end
  end.

(** The effect of an update (RFC 2136, section 3.4). *)
Definition apply_update (r : RRset) (z : Zone) : Zone :=
  match rr_class r, rr_type r with
  | CLASS_IN, ty => z ++ ((λ d, (rr_name r, ty, d)) <$> rr_rdata r)
  | CLASS_ANY, TYPE_ANY => filter (λ rr, rr.1.1 ≠ rr_name r) z
  | CLASS_ANY, ty => filter (λ rr, rr.1 ≠ (rr_name r, ty)) z
  | CLASS_NONE, ty => filter (λ rr, ¬ (rr.1 = (rr_name r, ty) ∧ rr.2 ∈ rr_rdata r)) z
  end.

Definition apply_updates (l : list RRset) (z : Zone) : Zone := foldl (λ z r, apply_update r z) z l.

(** Zones with the same records. *)
#[export] Instance zone_equiv : Equiv Zone := λ z z', ∀ rr : RR, rr ∈ z ↔ rr ∈ z'.

#[export] Instance zone_equivalence : Equivalence (≡@{Zone}).
Proof. split; [by intros z rr|by intros z z' Hz rr|intros z z' z'' H1 H2 rr; by rewrite (H1 rr)]. Qed.

#[export] Instance elem_of_zone_proper rr : Proper ((≡@{Zone}) ==> iff) (elem_of rr).
Proof. intros z z' Hz. apply Hz. Qed.

Class DnsServer := { respond : D2UpdateMessage → Zone → Rcode → Zone → Prop }.

Class DnsServerLaws `{DnsServer} : Prop := {
  respond_done : ∀ m z z', respond m z RCODE_NOERROR z' →
    prerequisites (msg_prerequisite m) z = None ∧ z' ≡ apply_updates (msg_update m) z;
  respond_error : ∀ m z rcode z', respond m z rcode z' → rcode ≠ RCODE_NOERROR → z' ≡ z;
  respond_prerequisite : ∀ m z rcode z', respond m z rcode z' →
    rcode = RCODE_NXRRSET → prerequisites (msg_prerequisite m) z = Some rcode
}.

(** ** What the records of a name are after an update *)

Lemma name_in_use_true n z : name_in_use n z = true ↔ ∃ ty d, (n, ty, d) ∈ z.
Proof.
  unfold name_in_use. rewrite existsb_exists. split.
  - intros ([[n' ty] d] & Hin & <-%bool_decide_eq_true). exists ty, d. by apply list_elem_of_In.
  - intros (ty & d & Hin). exists (n, ty, d). split; [by apply list_elem_of_In|].
    by apply bool_decide_eq_true.
Qed.

Lemma rrset_exists_true n ty z : rrset_exists n ty z = true ↔ ∃ d, (n, ty, d) ∈ z.
Proof.
  unfold rrset_exists. rewrite existsb_exists. split.
  - intros ([nt d] & Hin & E%bool_decide_eq_true). cbn in E. subst nt. exists d. by apply list_elem_of_In.
  - intros (d & Hin). exists (n, ty, d). split; [by apply list_elem_of_In|].
    by apply bool_decide_eq_true.
Qed.

Lemma elem_of_rdata_at n ty d z : d ∈ rdata_at n ty z ↔ (n, ty, d) ∈ z.
Proof.
  unfold rdata_at. rewrite list_elem_of_fmap. split.
  - intros ([nt d'] & -> & [E Hin]%list_elem_of_filter). cbn in *. by rewrite <- E.
  - intros Hin. exists (n, ty, d). split; [done|]. by apply list_elem_of_filter.
Qed.

Lemma exactly_true n ty l z : exactly n ty l z = true ↔ ∀ d, (n, ty, d) ∈ z ↔ d ∈ l.
Proof.
  unfold exactly. rewrite andb_true_iff, !forallb_forall. split.
  - intros [H1 H2] d. rewrite <- elem_of_rdata_at. split.
    + intros Hd. by apply (bool_decide_eq_true_1 _ (H1 d (proj1 (list_elem_of_In _ _) Hd))).
    + intros Hd. by apply (bool_decide_eq_true_1 _ (H2 d (proj1 (list_elem_of_In _ _) Hd))).
  - intros Hz. split; intros d Hd%list_elem_of_In; apply bool_decide_eq_true.
    + by apply Hz, elem_of_rdata_at.
    + by apply elem_of_rdata_at, Hz.
Qed.

Lemma elem_of_apply_update rr r z :
  rr ∈ apply_update r z ↔
  match rr_class r, rr_type r with
  | CLASS_IN, ty => rr ∈ z ∨ (rr.1 = (rr_name r, ty) ∧ rr.2 ∈ rr_rdata r)
  | CLASS_ANY, TYPE_ANY => rr ∈ z ∧ rr.1.1 ≠ rr_name r
  | CLASS_ANY, ty => rr ∈ z ∧ rr.1 ≠ (rr_name r, ty)
  | CLASS_NONE, ty => rr ∈ z ∧ ¬ (rr.1 = (rr_name r, ty) ∧ rr.2 ∈ rr_rdata r)
  end.
Proof.
  unfold apply_update. destruct (rr_class r).
  - rewrite elem_of_app, list_elem_of_fmap. destruct rr as [nt d]. cbn. split.
    + intros [?|(d' & [= -> ->] & ?)]; [by left|by right].
    + intros [?|[-> ?]]; [by left|right; by exists d].
  - rewrite list_elem_of_filter. tauto.
  - destruct (rr_type r); rewrite list_elem_of_filter; tauto.
Qed.

#[local] Arguments apply_update : simpl never.

(** Updates of the records of a name leave the other names alone. *)
Lemma apply_updates_other n l : ∀ z n' ty d,
  (∀ r, r ∈ l → rr_name r = n) → n' ≠ n → (n', ty, d) ∈ apply_updates l z ↔ (n', ty, d) ∈ z.
Proof.
  induction l as [|r l IH]; intros z n' ty d Hl Hn; [done|].
  cbn [apply_updates foldl]. fold (apply_updates l (apply_update r z)).
  rewrite IH; [|by intros r' Hr'; apply Hl; right|done].
  assert (rr_name r = n) as Hr by (apply Hl; by left).
  rewrite elem_of_apply_update, Hr. cbn. destruct (rr_class r), (rr_type r); naive_solver.
Qed.

(** ** The messages of a transaction *)

Section Messages.
Context `{DnsEnv} (t : Transaction).

Definition owner (ph : Phase) : string :=
  match ph with
  | Reverse => match reverseIpAddress (ip_io_address_ (ncr_ t)) with Ok n => n | Throw _ => "" end
  | _ => fqdn_ (ncr_ t)
  end.

Definition lease_rdata : Rdata :=
  let a := ip_io_address_ (ncr_ t) in if isV4 a then RdataA a else RdataAAAA a.
Definition dhcid_rdata : Rdata := RdataDHCID (dhcid_ (ncr_ t)).
Definition ptr_rdata : Rdata := RdataPTR (fqdn_ (ncr_ t)).

(** The name belongs to another client. *)
Definition owned_by_other (z : Zone) : Prop :=
  ∃ d, (fqdn_ (ncr_ t), TYPE_DHCID, d) ∈ z ∧ d ≠ dhcid_rdata.

(** *** The messages, by phase *)

Definition with_rdata (r : RRset) (d : Rdata) : RRset := addRdata d r.

Definition dhcid_matches : RRset := with_rdata (mkRRset (fqdn_ (ncr_ t)) CLASS_IN TYPE_DHCID 0) dhcid_rdata.

Definition add_prerequisites (ph : Phase) : list RRset :=
  let n := fqdn_ (ncr_ t) in
  match ph with
  | First => [mkRRset n CLASS_NONE TYPE_ANY 0]
  | Second => [mkRRset n CLASS_ANY TYPE_ANY 0; dhcid_matches]
  | Reverse => []
  end.

Definition add_updates (ph : Phase) : list RRset :=
  let ttl := lease_length_ (ncr_ t) in
  let n := owner ph in
  match ph with
  | First => [with_rdata (mkRRset n CLASS_IN (getAddressRRType t) ttl) lease_rdata;
              with_rdata (mkRRset n CLASS_IN TYPE_DHCID ttl) dhcid_rdata]
  | Second => [mkRRset n CLASS_ANY (getAddressRRType t) 0;
               with_rdata (mkRRset n CLASS_IN (getAddressRRType t) ttl) lease_rdata]
  | Reverse => [mkRRset n CLASS_ANY TYPE_PTR 0; mkRRset n CLASS_ANY TYPE_DHCID 0;
                with_rdata (mkRRset n CLASS_IN TYPE_PTR ttl) ptr_rdata;
                with_rdata (mkRRset n CLASS_IN TYPE_DHCID ttl) dhcid_rdata]
  end.

Definition remove_prerequisites (ph : Phase) : list RRset :=
  let n := fqdn_ (ncr_ t) in
  match ph with
  | First => [dhcid_matches]
  | Second => [dhcid_matches; mkRRset n CLASS_NONE TYPE_A 0; mkRRset n CLASS_NONE TYPE_AAAA 0]
  | Reverse => [with_rdata (mkRRset (owner Reverse) CLASS_IN TYPE_PTR 0) ptr_rdata]
  end.

Definition remove_updates (ph : Phase) : list RRset :=
  match ph with
  | First => [with_rdata (mkRRset (owner First) CLASS_NONE (getAddressRRType t) 0) lease_rdata]
  | Second => [mkRRset (owner Second) CLASS_ANY TYPE_ANY 0]
  | Reverse => [mkRRset (owner Reverse) CLASS_ANY TYPE_ANY 0]
  end.

(** Names and record data are taken as they are, or refused. *)
Lemma dns_Name_Ok text n : dns_Name text = Ok n → n = text.
Proof. unfold dns_Name. by destruct (name_ok text); intros [= ->]. Qed.
Lemma prepNewRequest_Ok d m :
  prepNewRequest d = Ok m → msg_prerequisite m = [] ∧ msg_update m = [].
Proof. unfold prepNewRequest. destruct d; [|done]. by destruct (dns_Name _); intros [= <-]. Qed.
Lemma addDhcidRdata_Ok r r' : addDhcidRdata t r = Ok r' → r' = with_rdata r dhcid_rdata.
Proof. unfold addDhcidRdata. by case_bool_decide; intros [= <-]. Qed.
Lemma addLeaseAddressRdata_Ok r r' : addLeaseAddressRdata t r = Ok r' → r' = with_rdata r lease_rdata.
Proof. by intros [= <-]. Qed.
Lemma addPtrRdata_Ok r r' : addPtrRdata t r = Ok r' → r' = with_rdata r ptr_rdata.
Proof.
  unfold addPtrRdata. destruct (dns_Name (fqdn_ (ncr_ t))) as [n|] eqn:E; [|done].
  apply dns_Name_Ok in E as ->. by intros [= <-].
Qed.

Ltac message_inv :=
  res_inv;
  repeat match goal with
  | H : dns_Name _ = Ok _ |- _ => apply dns_Name_Ok in H
  | H : prepNewRequest _ = Ok _ |- _ => apply prepNewRequest_Ok in H as [? ?]
  | H : addDhcidRdata _ _ = Ok _ |- _ => apply addDhcidRdata_Ok in H
  | H : addLeaseAddressRdata _ _ = Ok _ |- _ => apply addLeaseAddressRdata_Ok in H
  | H : addPtrRdata _ _ = Ok _ |- _ => apply addPtrRdata_Ok in H
  end.

Ltac message_sections :=
  subst; cbn;
  repeat match goal with
  | H : msg_prerequisite _ = [] |- _ => rewrite H; clear H
  | H : msg_update _ = [] |- _ => rewrite H; clear H
  | H : reverseIpAddress _ = Ok _ |- _ => rewrite H; clear H
  end; done.

Lemma add_message ph m :
  add_build ph t = Ok m → msg_prerequisite m = add_prerequisites ph ∧ msg_update m = add_updates ph.
Proof.
  intros E. destruct ph; cbn [add_build] in E;
    unfold buildAddFwdAddressRequest, buildReplaceFwdAddressRequest, buildReplaceRevPtrsRequest in E;
    message_inv; message_sections.
Qed.

Lemma remove_message ph m :
  remove_build ph t = Ok m →
  msg_prerequisite m = remove_prerequisites ph ∧ msg_update m = remove_updates ph.
Proof.
  intros E. destruct ph; cbn [remove_build] in E;
    unfold buildRemoveFwdAddressRequest, buildRemoveFwdRRsRequest, buildRemoveRevPtrsRequest in E;
    message_inv; message_sections.
Qed.

(** ** What the exchanges mean *)

(** The records of a type at a name are this one. *)
Definition only (n : string) (ty : RRType) (d : Rdata) (z : Zone) : Prop :=
  ∀ d', (n, ty, d') ∈ z ↔ d' = d.

(** The name has the address of the lease and the client's identifier. *)
Definition forward_entries (z : Zone) : Prop :=
  only (fqdn_ (ncr_ t)) (getAddressRRType t) lease_rdata z ∧
  only (fqdn_ (ncr_ t)) TYPE_DHCID dhcid_rdata z.

(** The address has the name and the client's identifier. *)
Definition reverse_entries (z : Zone) : Prop :=
  only (owner Reverse) TYPE_PTR ptr_rdata z ∧ only (owner Reverse) TYPE_DHCID dhcid_rdata z.

Lemma address_type : getAddressRRType t ≠ TYPE_DHCID ∧ getAddressRRType t ≠ TYPE_PTR ∧
  getAddressRRType t ≠ TYPE_ANY.
Proof. unfold getAddressRRType. by destruct (isV4 _). Qed.

Lemma prerequisites_None l z :
  prerequisites l z = None ↔ ∀ r, r ∈ l → prerequisite r z = None.
Proof.
  induction l as [|r l IH]; cbn.
  - split; [by intros _ r ?%elem_of_nil|done].
  - destruct (prerequisite r z) eqn:E.
    + split; [done|]. intros Hl. rewrite <- E. apply Hl. by left.
    + rewrite IH. setoid_rewrite elem_of_cons. naive_solver.
Qed.

Lemma dhcid_matches_None z :
  prerequisite dhcid_matches z = None ↔ only (fqdn_ (ncr_ t)) TYPE_DHCID dhcid_rdata z.
Proof.
  unfold prerequisite, dhcid_matches, only. cbn.
  destruct (exactly _ _ _ z) eqn:E.
  - split; [|done]. intros _ d. rewrite (proj1 (exactly_true _ _ _ _) E). by rewrite list_elem_of_singleton.
  - split; [done|]. intros Ho. exfalso. apply not_true_iff_false in E. apply E, exactly_true.
    intros d. by rewrite Ho, list_elem_of_singleton.
Qed.

Lemma add_first_effect z :
  prerequisites (add_prerequisites First) z = None →
  forward_entries (apply_updates (add_updates First) z).
Proof.
  intros Hp. cbn in Hp. unfold prerequisite in Hp. cbn in Hp.
  destruct (name_in_use (fqdn_ (ncr_ t)) z) eqn:E; [done|]. clear Hp.
  assert (∀ ty d, (fqdn_ (ncr_ t), ty, d) ∉ z) as Hz.
  { intros ty d Hd. apply not_true_iff_false in E. apply E, name_in_use_true. by exists ty, d. }
  destruct address_type as (Hne & _).
  split; intros d; cbn [add_updates apply_updates foldl]; repeat (rewrite elem_of_apply_update; cbn);
    rewrite !list_elem_of_singleton; naive_solver.
Qed.

Lemma add_second_effect z :
  prerequisites (add_prerequisites Second) z = None →
  forward_entries (apply_updates (add_updates Second) z).
Proof.
  intros Hp. rewrite prerequisites_None in Hp.
  pose proof (proj1 (dhcid_matches_None z) (Hp _ ltac:(by right; left))) as Hd.
  destruct address_type as (Hne & _ & Hany). unfold only in *.
  split; intros d; cbn [add_updates apply_updates foldl]; repeat (rewrite elem_of_apply_update; cbn);
    rewrite !list_elem_of_singleton; specialize (Hd d);
    destruct (getAddressRRType t); naive_solver.
Qed.

Lemma add_reverse_effect z : reverse_entries (apply_updates (add_updates Reverse) z).
Proof.
  split; intros d; cbn [add_updates apply_updates foldl]; repeat (rewrite elem_of_apply_update; cbn);
    rewrite !list_elem_of_singleton; naive_solver.
Qed.

Lemma remove_first_effect z :
  (fqdn_ (ncr_ t), getAddressRRType t, lease_rdata) ∉ apply_updates (remove_updates First) z.
Proof.
  cbn [remove_updates apply_updates foldl]. rewrite elem_of_apply_update. cbn.
  rewrite list_elem_of_singleton. naive_solver.
Qed.

Lemma add_updates_owner ph r : r ∈ add_updates ph → rr_name r = owner ph.
Proof. destruct ph; cbn; rewrite !elem_of_cons, elem_of_nil; intros Hr; naive_solver. Qed.
Lemma remove_updates_owner ph r : r ∈ remove_updates ph → rr_name r = owner ph.
Proof. destruct ph; cbn; rewrite !elem_of_cons, elem_of_nil; intros Hr; naive_solver. Qed.

(** Another client's name fails the prerequisites. *)
Lemma other_not_matched z : owned_by_other z → prerequisite dhcid_matches z ≠ None.
Proof.
  intros (d & Hd & Hne) E. apply dhcid_matches_None in E. by apply E in Hd.
Qed.

Lemma add_other_refused ph z :
  ph ≠ Reverse → owned_by_other z → prerequisites (add_prerequisites ph) z ≠ None.
Proof.
  intros Hph Hz Hp. rewrite prerequisites_None in Hp. destruct ph; [| |done].
  - specialize (Hp _ ltac:(by left)). unfold prerequisite in Hp. cbn in Hp.
    destruct (name_in_use _ z) eqn:E; [done|]. apply not_true_iff_false in E. apply E, name_in_use_true.
    destruct Hz as (d & Hd & _). by exists TYPE_DHCID, d.
  - apply (other_not_matched z Hz), Hp. by right; left.
Qed.

Lemma remove_other_refused ph z :
  ph ≠ Reverse → owned_by_other z → prerequisites (remove_prerequisites ph) z ≠ None.
Proof.
  intros Hph Hz Hp. rewrite prerequisites_None in Hp.
  apply (other_not_matched z Hz), Hp. destruct ph; [by left|by left|done].
Qed.
End Messages.

(** ** Transactions and the zone *)

Section World.
Context {H : Type} `{Protocol H} `{DnsServerLaws}.
Implicit Types (t : Transaction) (z : Zone).

(** A message and how its exchange ends: the server responds; it responds and the
    response is lost or comes too late; or it does not get the message. *)
Inductive exchange (m : D2UpdateMessage) z : Answer → Zone → Prop :=
  | exchange_answered rcode z' : respond m z rcode z' → exchange m z (Answered rcode) z'
  | exchange_lost rcode a z' :
      respond m z rcode z' → (∀ rc, a ≠ Answered rc) → exchange m z a z'
  | exchange_unreached a : (∀ rc, a ≠ Answered rc) → exchange m z a z.

(** The zone after the exchanges of a transaction, while nobody else changes it. *)
Inductive world t z0 : list Answer → Zone → Prop :=
  | world_start : world t z0 [] z0
  | world_step l a z z' ph i tries fwd m :
      world t z0 l z → progress t l = Waiting ph i tries fwd → build ph (pending t) = Ok m →
      exchange m z a z' → world t z0 (l ++ [a]) z'.

Lemma world_invariant t z0 (I : Progress → Zone → Prop) :
  fresh t → I (started (pending t)) z0 →
  (∀ ph i tries fwd z a z' m, sound (pending t) (Waiting ph i tries fwd) →
     I (Waiting ph i tries fwd) z → build ph (pending t) = Ok m → exchange m z a z' →
     I (completed (pending t) (Waiting ph i tries fwd) a) z') →
  ∀ l z, world t z0 l z → I (progress t l) z.
Proof.
  intros Ht Hstart Hstep l z Hw.
  induction Hw as [|l a z z' ph i tries fwd m Hw IH Ep Hb He]; [done|].
  pose proof (sound_progress t l Ht) as Hs. unfold progress in *. rewrite foldl_app. cbn.
  rewrite Ep in *. by eapply Hstep.
Qed.

(** The zone is the same, or the prerequisites held and the updates were made. *)
Lemma exchange_cases m z a z' :
  exchange m z a z' →
  z' ≡ z ∨ (prerequisites (msg_prerequisite m) z = None ∧ z' ≡ apply_updates (msg_update m) z).
Proof.
  assert (∀ rcode z', respond m z rcode z' → z' ≡ z ∨
    (prerequisites (msg_prerequisite m) z = None ∧ z' ≡ apply_updates (msg_update m) z)) as Hr.
  { clear z'. intros rcode z' Hr. destruct (decide (rcode = RCODE_NOERROR)) as [->|Hne].
    - right. by apply respond_done.
    - left. by eapply respond_error. }
  intros [rcode z1 Hz|rcode a' z1 Hz _|a' _]; [by eapply Hr|by eapply Hr|by left].
Qed.

Lemma exchange_other m z a z' n n' ty d :
  exchange m z a z' → (∀ r, r ∈ msg_update m → rr_name r = n) → n' ≠ n →
  (n', ty, d) ∈ z' ↔ (n', ty, d) ∈ z.
Proof.
  intros [Hz|[_ Hz]]%exchange_cases Hl Hn; rewrite Hz; [done|]. by eapply apply_updates_other.
Qed.

Lemma only_other m z a z' n n' ty d :
  exchange m z a z' → (∀ r, r ∈ msg_update m → rr_name r = n) → n' ≠ n →
  only n' ty d z' ↔ only n' ty d z.
Proof.
  intros He Hl Hn. unfold only.
  split; intros Ho d'; specialize (Ho d'); by rewrite (exchange_other m z a z' n n' ty d' He Hl Hn) in *.
Qed.

Definition fwd_done (p : Progress) : bool :=
  match p with Waiting _ _ _ fwd => fwd | Finished _ fwd _ => fwd end.
Definition rev_done (p : Progress) : bool :=
  match p with Waiting _ _ _ _ => false | Finished _ _ rev => rev end.

Lemma fwd_done_attempt t ph i tries fwd : fwd_done (attempt t ph i tries fwd) = fwd.
Proof.
  unfold attempt. destruct (servers_of t ph !! i); [|done]. destruct (build ph t); [|done].
  by destruct (send_ok _ _ _).
Qed.
Lemma rev_done_attempt t ph i tries fwd : rev_done (attempt t ph i tries fwd) = false.
Proof.
  unfold attempt. destruct (servers_of t ph !! i); [|done]. destruct (build ph t); [|done].
  by destruct (send_ok _ _ _).
Qed.

Lemma fwd_done_started t : fwd_done (started t) = false.
Proof. unfold started. destruct (forward_domain_ t); apply fwd_done_attempt. Qed.
Lemma rev_done_started t : rev_done (started t) = false.
Proof. unfold started. destruct (forward_domain_ t); apply rev_done_attempt. Qed.

Lemma fwd_done_completed t ph i tries fwd a :
  fwd_done (completed t (Waiting ph i tries fwd) a) = true →
  fwd = true ∨ (ph ≠ Reverse ∧ ∃ rcode, a = Answered rcode ∧ verdict ph rcode = Accept).
Proof.
  destruct a as [rcode| |]; cbn [completed]; [|case_match; [|case_match]|];
    rewrite ?fwd_done_attempt; try by left.
  destruct (verdict ph rcode) as [|ph'|] eqn:E; rewrite ?fwd_done_attempt; try by left.
  destruct (decide (ph = Reverse)) as [->|Hph]; [by left|]. intros _. right. split; [done|by exists rcode].
Qed.

Lemma rev_done_completed t ph i tries fwd a :
  rev_done (completed t (Waiting ph i tries fwd) a) = true →
  ph = Reverse ∧ ∃ rcode, a = Answered rcode ∧ verdict ph rcode = Accept.
Proof.
  destruct a as [rcode| |]; cbn [completed]; [|case_match; [|case_match]|];
    rewrite ?rev_done_attempt; try done.
  destruct (verdict ph rcode) as [|ph'|] eqn:E; rewrite ?rev_done_attempt; try done.
  destruct ph; [..|intros _; split; [done|by exists rcode]];
    by destruct (reverse_domain_ t); rewrite ?rev_done_attempt.
Qed.

(** What the machine has recorded. *)
Lemma recorded t fuel answers ends s' r :
  (4 ≤ fuel)%nat → fresh t → reported answers ends → transact fuel ends t = (s', r) →
  forward_change_completed_ (derived s') = fwd_done (progress t answers) ∧
  reverse_change_completed_ (derived s') = rev_done (progress t answers).
Proof.
  intros Hfuel Ht Hr E. destruct (transact_refines t fuel answers ends Hfuel Ht Hr) as (s1 & E1 & Hh).
  rewrite E in E1. injection E1 as <- ->. destruct (progress t answers) as [ph i tries fwd|].
  - destruct Hh as (_ & _ & _ & _ & ([_ _ _ _ Hf Hv] & _) & _). done.
  - by destruct Hh as (_ & _ & _ & Hf & Hv).
Qed.
End World.

(** ** The theorems *)

#[export] Instance only_proper n ty d : Proper ((≡@{Zone}) ==> iff) (only n ty d).
Proof.
  intros z z' Hz. unfold only.
  split; intros Ho d'; [rewrite <- (Hz (n, ty, d'))|rewrite (Hz (n, ty, d'))]; apply Ho.
Qed.
#[export] Instance forward_entries_proper `{DnsEnv} t : Proper ((≡@{Zone}) ==> iff) (forward_entries t).
Proof. intros z z' Hz. unfold forward_entries. by rewrite !(only_proper _ _ _ z z' Hz). Qed.
#[export] Instance reverse_entries_proper `{DnsEnv} t : Proper ((≡@{Zone}) ==> iff) (reverse_entries t).
Proof. intros z z' Hz. unfold reverse_entries. by rewrite !(only_proper _ _ _ z z' Hz). Qed.

Section Dns.
Context `{DnsEnv} `{DnsServerLaws}.
Implicit Types (t : Transaction) (z : Zone).

Lemma add_owner t ph m r : add_build ph t = Ok m → r ∈ msg_update m → rr_name r = owner t ph.
Proof. intros [_ ->]%add_message. apply add_updates_owner. Qed.
Lemma remove_owner t ph m r : remove_build ph t = Ok m → r ∈ msg_update m → rr_name r = owner t ph.
Proof. intros [_ ->]%remove_message. apply remove_updates_owner. Qed.

Lemma add_accepts ph rcode : add_verdict ph rcode = Accept → rcode = RCODE_NOERROR.
Proof.
  unfold add_verdict. destruct (rcode =? RCODE_NOERROR) eqn:E; [by intros; apply Z.eqb_eq|].
  by destruct ph; repeat case_match.
Qed.

(** C28: When a transaction that adds entries has completed the forward change, the name
    has exactly the address of the lease and the identifier of the client in the DNS, and
    when it has completed the reverse change, the address has exactly the name: whatever
    the zone was before, and also when responses got lost and messages were sent
    again. *)
Theorem add_makes_entries (t : Transaction) (z0 z : Zone) (fuel : nat) (answers : list Answer)
    (ends : list (DnsStatus * option Rcode)) s' r
    (Hfuel : (4 ≤ fuel)%nat) (Hfresh : fresh t) (Hends : reported answers ends)
    (Hnames : owner t First ≠ owner t Reverse)
    (E : transact (H := AddHandler) fuel ends t = (s', r))
    (Hworld : world (H := AddHandler) t z0 answers z) :
  (forward_change_completed_ (derived s') = true → forward_entries t z) ∧
  (reverse_change_completed_ (derived s') = true → reverse_entries t z).
Proof.
  destruct (recorded (H := AddHandler) t fuel answers ends s' r Hfuel Hfresh Hends E) as [-> ->].
  refine (world_invariant (H := AddHandler) t z0 (λ p z, (fwd_done p = true → forward_entries t z) ∧
    (rev_done p = true → reverse_entries t z)) Hfresh _ _ answers z Hworld).
  { rewrite fwd_done_started, rev_done_started. split; discriminate. }
  clear -Hnames H1. intros ph i tries fwd z a z' m Hs [Hf _] Hb He.
  change (add_build ph (pending t) = Ok m) in Hb. split.
  - intros [->|(Hph & rcode & -> & Hv)]%fwd_done_completed.
    + destruct (decide (ph = Reverse)) as [->|Hph]; [|by destruct Hs as (_ & _ & _ & ?), ph].
      destruct (Hf eq_refl) as [Ha Hd].
      assert (∀ ty d, only (owner t First) ty d z' ↔ only (owner t First) ty d z) as Ho
        by exact (λ ty d, only_other m z a z' (owner t Reverse) (owner t First) ty d He
                            (λ r, add_owner (pending t) Reverse m r Hb) Hnames).
      split; apply Ho; [exact Ha|exact Hd].
    + apply add_accepts in Hv as ->. inversion He as [rcode z1 Hr|rcode a z1 Hr Hn|a Hn]; subst;
        [|by destruct (Hn RCODE_NOERROR)|by destruct (Hn RCODE_NOERROR)].
      apply respond_done in Hr as [Hp ->]. apply add_message in Hb as [Hmp ->]. rewrite Hmp in Hp.
      destruct ph; [by apply (add_first_effect (pending t))|by apply (add_second_effect (pending t))|done].
  - intros [-> (rcode & -> & Hv)]%rev_done_completed.
    apply add_accepts in Hv as ->. inversion He as [rcode z1 Hr|rcode a z1 Hr Hn|a Hn]; subst;
      [|by destruct (Hn RCODE_NOERROR)|by destruct (Hn RCODE_NOERROR)].
    apply respond_done in Hr as [Hp ->]. apply add_message in Hb as [_ ->].
    apply (add_reverse_effect (pending t)).
Qed.

(** The messages of a transaction touch the records of their owner only, and fail on the
    name of another client. *)
Lemma zone_kept {HT} `{P : Protocol HT} t z0 n :
  (∀ ph m, build ph (pending t) = Ok m → ∀ r, r ∈ msg_update m → rr_name r = owner t ph) →
  (∀ ph m z, build ph (pending t) = Ok m → ph ≠ Reverse → owned_by_other t z →
     prerequisites (msg_prerequisite m) z ≠ None) →
  fresh t → n ≠ owner t Reverse → n ≠ owner t First ∨ owned_by_other t z0 →
  ∀ answers z, world t z0 answers z → ∀ ty d, (n, ty, d) ∈ z ↔ (n, ty, d) ∈ z0.
Proof.
  intros Howner Hrefused Hfresh Hrev Hn answers z Hw.
  refine (world_invariant t z0 (λ _ z, ∀ ty d, (n, ty, d) ∈ z ↔ (n, ty, d) ∈ z0)
            Hfresh _ _ answers z Hw); [done|].
  clear answers z Hw. intros ph i tries fwd z a z' m _ Hz Hb He ty d. rewrite <- Hz.
  destruct (decide (n = owner t ph)) as [Hph|Hne].
  - assert (ph ≠ Reverse) as Hr by (intros ->; done).
    assert (n = owner t First) as Hf by (rewrite Hph; by destruct ph).
    destruct Hn as [|(d' & Hd' & Hne)]; [done|].
    destruct (exchange_cases m z a z' He) as [Hsame|[Hp _]]; [by rewrite Hsame|].
    destruct (Hrefused ph m z Hb Hr); [|done]. exists d'. split; [|done].
    change (fqdn_ (ncr_ t)) with (owner t First) in Hd' |- *. rewrite <- Hf in *. by apply Hz.
  - by apply (exchange_other m z a z' (owner t ph) n ty d He (Howner ph m Hb)).
Qed.

(** The entries of the other names never change, and neither do the entries of the
    name of the request when it has the identifier of another client: whatever a
    transaction of either kind sends, and whatever the servers answer. *)
Theorem transactions_keep_others (t : Transaction) (z0 z : Zone) (answers : list Answer) (n : string)
    (Hfresh : fresh t) (Hrev : n ≠ owner t Reverse)
    (Hn : n ≠ owner t First ∨ owned_by_other t z0)
    (Hworld : world (H := AddHandler) t z0 answers z ∨ world (H := RemoveHandler) t z0 answers z) :
  ∀ ty d, (n, ty, d) ∈ z ↔ (n, ty, d) ∈ z0.
Proof.
  destruct Hworld as [Hw|Hw].
  - refine (zone_kept t z0 n _ _ Hfresh Hrev Hn answers z Hw).
    + intros ph m Hb r. exact (add_owner (pending t) ph m r Hb).
    + intros ph m z1 [Hb _]%(add_message (pending t)) Hph Hz. rewrite Hb.
      exact (add_other_refused (pending t) ph z1 Hph Hz).
  - refine (zone_kept t z0 n _ _ Hfresh Hrev Hn answers z Hw).
    + intros ph m Hb r. exact (remove_owner (pending t) ph m r Hb).
    + intros ph m z1 [Hb _]%(remove_message (pending t)) Hph Hz. rewrite Hb.
      exact (remove_other_refused (pending t) ph z1 Hph Hz).
Qed.

(** The name has the address of the lease and belongs to the client. *)
Definition still_there t z : Prop :=
  (fqdn_ (ncr_ t), getAddressRRType t, lease_rdata t) ∈ z ∧
  only (fqdn_ (ncr_ t)) TYPE_DHCID (dhcid_rdata t) z.

Lemma remove_verdicts ph rcode v :
  remove_verdict ph rcode = v → v ≠ Reject → rcode = RCODE_NOERROR ∨ rcode = RCODE_NXRRSET.
Proof.
  unfold remove_verdict, gone. intros <- Hv.
  destruct (rcode =? RCODE_NOERROR) eqn:E1; [left; by apply Z.eqb_eq|].
  destruct (rcode =? RCODE_NXRRSET) eqn:E2; [right; by apply Z.eqb_eq|]. by destruct Hv.
Qed.

(** The exchanges that end the forward removal leave no entry of the client. *)
Lemma remove_exchange t ph z a z' m :
  ph ≠ Reverse → remove_build ph t = Ok m → exchange m z a z' → (ph = Second → ¬ still_there t z) →
  (∃ rcode, a = Answered rcode ∧ remove_verdict ph rcode ≠ Reject) ∨ ph = Second →
  ¬ still_there t z'.
Proof.
  intros Hph Hb He Hz Ha [Hl Ho]. pose proof (remove_message t ph m Hb) as [Hp Hu].
  assert (z' ≡ apply_updates (remove_updates t ph) z → False) as Hdone.
  { intros Hz'. rewrite Hz' in Hl. destruct ph; [by apply remove_first_effect in Hl| |done].
    cbn [remove_updates apply_updates foldl] in Hl. rewrite elem_of_apply_update in Hl. by destruct Hl. }
  assert (z' ≡ z → ph = First ∧ ∃ rcode, a = Answered rcode ∧ respond m z rcode z' ∧
          rcode = RCODE_NXRRSET) as Hsame.
  { intros Hz'. assert (ph = First) as ->.
    { destruct ph; [done| |done]. destruct (Hz eq_refl). split; [by rewrite <- Hz'|by rewrite <- Hz']. }
    split; [done|]. destruct Ha as [(rcode & -> & Hv)|]; [|done]. exists rcode. split; [done|].
    inversion He as [? ? Hr|? ? ? ? Hn|? Hn]; subst; [|by destruct (Hn rcode)|by destruct (Hn rcode)].
    split; [done|]. destruct (remove_verdicts First rcode _ eq_refl Hv) as [->|]; [|done].
    apply respond_done in Hr as [_ Hr]. rewrite Hu in Hr. by destruct Hdone. }
  destruct (exchange_cases m z a z' He) as [Hz'|[_ Hz']]; [|rewrite Hu in Hz'; by apply Hdone].
  destruct (Hsame Hz') as (-> & rcode & -> & Hr & ->).
  apply respond_prerequisite in Hr; [|done]. rewrite Hp in Hr. rewrite Hz' in Ho.
  rewrite (proj2 (prerequisites_None t _ z)) in Hr; [done|].
  intros r' Hr'%list_elem_of_singleton. subst r'. by apply dhcid_matches_None.
Qed.

Definition in_second (p : Progress) : bool := match p with Waiting Second _ _ _ => true | _ => false end.

Lemma in_second_attempt t ph i tries fwd :
  ph ≠ Second → in_second (attempt (H := RemoveHandler) t ph i tries fwd) = false.
Proof.
  intros Hph. unfold attempt. destruct (servers_of t ph !! i); [|done].
  destruct (build ph t); [|done]. destruct (send_ok _ _ _); [|done]. by destruct ph.
Qed.

(** C29: When a transaction that removes entries has completed the forward change, the
    name no longer has both the address of the lease and the identifier of the client
    alone, also when responses got lost and messages were sent again. *)
Theorem remove_removes_entry (t : Transaction) (z0 z : Zone) (fuel : nat) (answers : list Answer)
    (ends : list (DnsStatus * option Rcode)) s' r
    (Hfuel : (4 ≤ fuel)%nat) (Hfresh : fresh t) (Hends : reported answers ends)
    (Hnames : owner t First ≠ owner t Reverse)
    (E : transact (H := RemoveHandler) fuel ends t = (s', r))
    (Hworld : world (H := RemoveHandler) t z0 answers z)
    (Hdone : forward_change_completed_ (derived s') = true) :
  ¬ still_there t z.
Proof.
  destruct (recorded (H := RemoveHandler) t fuel answers ends s' r Hfuel Hfresh Hends E) as [Hf _].
  rewrite Hf in Hdone. clear Hf E Hends. revert Hdone.
  enough ((fwd_done (progress (H := RemoveHandler) t answers) = true → ¬ still_there t z) ∧
          (in_second (progress (H := RemoveHandler) t answers) = true → ¬ still_there t z)) as [? _];
    [done|].
  refine (world_invariant (H := RemoveHandler) t z0 (λ p z, (fwd_done p = true → ¬ still_there t z) ∧
    (in_second p = true → ¬ still_there t z)) Hfresh _ _ answers z Hworld).
  { rewrite fwd_done_started. split; [discriminate|]. intros Hs.
    unfold started in Hs. destruct (forward_domain_ (pending t)); by rewrite in_second_attempt in Hs. }
  clear -Hnames H1. intros ph i tries fwd z a z' m Hs [Hf Hsec] Hb He.
  change (remove_build ph (pending t) = Ok m) in Hb.
  assert ((∃ rcode, a = Answered rcode ∧ remove_verdict ph rcode ≠ Reject) ∨ ph = Second →
          ph ≠ Reverse → ¬ still_there t z') as Hmain.
  { intros Ha Hph. apply (remove_exchange (pending t) ph z a z' m Hph Hb He); [|done].
    intros ->. by apply Hsec. }
  split.
  - intros [->|(Hph & rcode & -> & Hv)]%fwd_done_completed.
    + destruct (decide (ph = Reverse)) as [->|Hph]; [|by destruct Hs as (_ & _ & _ & ?), ph].
      intros [Hl Ho]. apply (Hf eq_refl). split.
      * by apply (exchange_other m z a z' (owner t Reverse) (owner t First) _ _ He
                    (λ r, remove_owner (pending t) Reverse m r Hb) Hnames).
      * by apply (only_other m z a z' (owner t Reverse) (owner t First) _ _ He
                    (λ r, remove_owner (pending t) Reverse m r Hb) Hnames).
    + apply Hmain; [|done]. left. exists rcode. split; [done|].
      change (remove_verdict ph rcode = Accept) in Hv. by rewrite Hv.
  - intros Hsecond. destruct (decide (ph = Reverse)) as [->|Hph].
    + exfalso. revert Hsecond. destruct a as [rcode| |]; cbn [completed]; [|case_match|done].
      * cbn [verdict remove_protocol]. unfold remove_verdict. by destruct (gone rcode).
      * by rewrite in_second_attempt.
      * cbn [next_server remove_protocol opening]. by rewrite in_second_attempt.
    + apply Hmain; [|done]. destruct (decide (ph = Second)) as [->|Hph']; [by right|]. left.
      assert (ph = First) as -> by by destruct ph.
      destruct a as [rcode| |]; cbn [completed] in Hsecond; [|exfalso..].
      * exists rcode. split; [done|]. cbn [verdict remove_protocol] in Hsecond. intros E. by rewrite E in Hsecond.
      * revert Hsecond. case_match; [by rewrite in_second_attempt|].
        cbn [next_server remove_protocol opening]. by rewrite in_second_attempt.
      * done.
Qed.
End Dns.

(** ** A server that keeps to RFC 2136 *)

Definition process (m : D2UpdateMessage) (z : Zone) : Rcode * Zone :=
  match prerequisites (msg_prerequisite m) z with
  | Some rcode => (rcode, z)
  | None => (RCODE_NOERROR, apply_updates (msg_update m) z)
  end.

Definition rfc2136 : DnsServer := {| respond := λ m z rcode z', process m z = (rcode, z') |}.
#[local] Existing Instance rfc2136.

Lemma prerequisites_error l z rcode : prerequisites l z = Some rcode → rcode ≠ RCODE_NOERROR.
Proof.
  assert (∀ r e, prerequisite r z = Some e → e ≠ RCODE_NOERROR) as Hr.
  { intros r e. unfold prerequisite. destruct (rr_class r), (rr_type r); case_match; by intros [= <-]. }
  induction l as [|r l IH]; [done|]. cbn. destruct (prerequisite r z) eqn:E; [|done].
  intros [= <-]. by eapply Hr.
Qed.

#[local] Instance rfc2136_laws : DnsServerLaws.
Proof.
  split; cbn; unfold process; intros m z.
  - intros z' Hr. destruct (prerequisites _ z) as [e|] eqn:E.
    + injection Hr as -> _. by apply prerequisites_error in E.
    + by injection Hr as <-.
  - intros rcode z' Hr Hne. destruct (prerequisites _ z) as [e|]; [by injection Hr as _ <-|].
    injection Hr as <- _. done.
  - intros rcode z' Hr ->. destruct (prerequisites _ z) as [e|]; [by injection Hr as -> _|done].
Qed.

(** ** The theorems on the small configuration *)

#[local] Existing Instance plain_dns.

Definition message_of {HT} `{P : Protocol HT} (ph : Phase) (t : Transaction) : D2UpdateMessage :=
  match build ph (pending t) with
  | Ok m => m
  | Throw _ => {| msg_zone := ""; msg_prerequisite := []; msg_update := [] |}
  end.

Definition after {HT} `{P : Protocol HT} (ph : Phase) (t : Transaction) (z : Zone) : Zone :=
  (process (message_of ph t) z).2.

Definition sample_zone : Zone :=
  [("other.example.com.", TYPE_A, RdataA (V4 0xC0000214));
   ("other.example.com.", TYPE_DHCID, RdataDHCID [9])]%string.

(** The response to the first message is lost, the second and the third message do not
    arrive, and the name is then found to be in use. *)
Definition sample_zones : list Zone :=
  let t := sample_transaction CHG_ADD in
  let z1 := after (HT := AddHandler) First t sample_zone in
  let z2 := after (HT := AddHandler) Second t z1 in
  [z1; z2; after (HT := AddHandler) Reverse t z2].

Lemma sample_world :
  world (H := AddHandler) (sample_transaction CHG_ADD) sample_zone sample_answers
    (nth 2 sample_zones []).
Proof.
  set (t := sample_transaction CHG_ADD). pose (W := world_step (H := AddHandler) t sample_zone).
  assert (∀ rc, Unanswered ≠ Answered rc) as Hu by done.
  refine (W [Unanswered; Unanswered; Unanswered; Answered RCODE_YXDOMAIN; Answered RCODE_NOERROR]
            (Answered RCODE_NOERROR) (nth 1 sample_zones []) _ Reverse 0%nat 1%nat true
            (message_of (HT := AddHandler) Reverse t) _ eq_refl eq_refl _); [|apply exchange_answered; reflexivity].
  refine (W [Unanswered; Unanswered; Unanswered; Answered RCODE_YXDOMAIN]
            (Answered RCODE_NOERROR) (nth 0 sample_zones []) _ Second 1%nat 1%nat false
            (message_of (HT := AddHandler) Second t) _ eq_refl eq_refl _); [|apply exchange_answered; reflexivity].
  refine (W [Unanswered; Unanswered; Unanswered]
            (Answered RCODE_YXDOMAIN) (nth 0 sample_zones []) _ First 1%nat 1%nat false
            (message_of (HT := AddHandler) First t) _ eq_refl eq_refl _); [|apply exchange_answered; reflexivity].
  refine (W [Unanswered; Unanswered] Unanswered (nth 0 sample_zones []) _ First 0%nat 3%nat false
            (message_of (HT := AddHandler) First t) _ eq_refl eq_refl (exchange_unreached _ _ _ Hu)).
  refine (W [Unanswered] Unanswered (nth 0 sample_zones []) _ First 0%nat 2%nat false
            (message_of (HT := AddHandler) First t) _ eq_refl eq_refl (exchange_unreached _ _ _ Hu)).
  refine (W [] Unanswered sample_zone _ First 0%nat 1%nat false
            (message_of (HT := AddHandler) First t) (world_start _ _) eq_refl eq_refl _).
  by apply (exchange_lost _ _ RCODE_NOERROR).
Qed.

Lemma sample_names type :
  owner (sample_transaction type) First ≠ owner (sample_transaction type) Reverse.
Proof. by destruct type. Qed.

Lemma add_makes_entries_witness :
  fresh (sample_transaction CHG_ADD) ∧
  ∃ z, world (H := AddHandler) (sample_transaction CHG_ADD) sample_zone sample_answers z ∧
    forward_entries (sample_transaction CHG_ADD) z ∧ reverse_entries (sample_transaction CHG_ADD) z.
Proof.
  split; [exact (sample_fresh CHG_ADD)|].
  destruct (transact (H := AddHandler) 4 sample_ends (sample_transaction CHG_ADD)) as [s' r] eqn:E.
  destruct (add_makes_entries (sample_transaction CHG_ADD) sample_zone _ 4 sample_answers sample_ends
              s' r (le_n 4) (sample_fresh CHG_ADD) sample_reported (sample_names CHG_ADD) E sample_world)
    as [Hf Hr].
  vm_compute in E. injection E as <- _.
  exists (nth 2 sample_zones []).
  split; [exact sample_world|split; [exact (Hf eq_refl)|exact (Hr eq_refl)]].
Defined.

Lemma transactions_keep_others_witness :
  fresh (sample_transaction CHG_ADD) ∧
  ∃ z, world (H := AddHandler) (sample_transaction CHG_ADD) sample_zone sample_answers z ∧
    ("other.example.com.", TYPE_A, RdataA (V4 0xC0000214))%string ∈ z.
Proof.
  split; [exact (sample_fresh CHG_ADD)|]. exists (nth 2 sample_zones []). split; [exact sample_world|].
  apply (transactions_keep_others (sample_transaction CHG_ADD) sample_zone _ sample_answers
           "other.example.com." (sample_fresh CHG_ADD)); [discriminate|left; discriminate| |].
  - left. exact sample_world.
  - left.
Defined.

(** The entries of the client, with or without an IPv6 address of the name. *)
Definition client_zone (v6 : bool) : Zone :=
  let t := sample_transaction CHG_REMOVE in
  [(owner t First, TYPE_A, lease_rdata t); (owner t First, TYPE_DHCID, dhcid_rdata t);
   (owner t Reverse, TYPE_PTR, ptr_rdata t)] ++
  (if v6 then [(owner t First, TYPE_AAAA, RdataAAAA (V6 1))] else []).

Definition removed_zones (v6 : bool) : list Zone :=
  let t := sample_transaction CHG_REMOVE in
  let z1 := after (HT := RemoveHandler) First t (client_zone v6) in
  let z2 := after (HT := RemoveHandler) Second t z1 in
  [z1; z2; after (HT := RemoveHandler) Reverse t z2].

Lemma removed_world_1 v6 rcode :
  process (message_of (HT := RemoveHandler) Second (sample_transaction CHG_REMOVE))
    (nth 0 (removed_zones v6) []) = (rcode, nth 1 (removed_zones v6) []) →
  world (H := RemoveHandler) (sample_transaction CHG_REMOVE) (client_zone v6)
    [Answered RCODE_NOERROR; Answered rcode] (nth 1 (removed_zones v6) []).
Proof.
  intros Hr. set (t := sample_transaction CHG_REMOVE).
  pose (W := world_step (H := RemoveHandler) t (client_zone v6)).
  refine (W [Answered RCODE_NOERROR] (Answered rcode) (nth 0 (removed_zones v6) []) _ Second 0%nat 1%nat
            false (message_of (HT := RemoveHandler) Second t) _ eq_refl eq_refl
            (exchange_answered _ _ rcode _ Hr)).
  refine (W [] (Answered RCODE_NOERROR) (client_zone v6) _ First 0%nat 1%nat false
            (message_of (HT := RemoveHandler) First t) (world_start _ _) eq_refl eq_refl _).
  apply exchange_answered. by destruct v6.
Qed.

Lemma removed_world :
  world (H := RemoveHandler) (sample_transaction CHG_REMOVE) (client_zone false)
    [Answered RCODE_NOERROR; Answered RCODE_NOERROR; Answered RCODE_NOERROR]
    (nth 2 (removed_zones false) []).
Proof.
  set (t := sample_transaction CHG_REMOVE).
  refine (world_step (H := RemoveHandler) t (client_zone false)
            [Answered RCODE_NOERROR; Answered RCODE_NOERROR] (Answered RCODE_NOERROR)
            (nth 1 (removed_zones false) []) _ Reverse 0%nat 1%nat true
            (message_of (HT := RemoveHandler) Reverse t)
            (removed_world_1 false RCODE_NOERROR eq_refl) eq_refl eq_refl _).
  by apply exchange_answered.
Qed.

Definition removed_ends : list (DnsStatus * option Rcode) := replicate 3 (SUCCESS, Some RCODE_NOERROR).

Lemma removed_reported :
  reported [Answered RCODE_NOERROR; Answered RCODE_NOERROR; Answered RCODE_NOERROR] removed_ends.
Proof. by repeat constructor. Qed.

Lemma remove_removes_entry_witness :
  fresh (sample_transaction CHG_REMOVE) ∧
  ∃ z, world (H := RemoveHandler) (sample_transaction CHG_REMOVE) (client_zone false)
         [Answered RCODE_NOERROR; Answered RCODE_NOERROR; Answered RCODE_NOERROR] z ∧
       ¬ still_there (sample_transaction CHG_REMOVE) z.
Proof.
  split; [exact (sample_fresh CHG_REMOVE)|]. exists (nth 2 (removed_zones false) []).
  split; [exact removed_world|].
  destruct (transact (H := RemoveHandler) 4 removed_ends (sample_transaction CHG_REMOVE)) as [s' r] eqn:E.
  refine (remove_removes_entry (sample_transaction CHG_REMOVE) _ _ 4 _ removed_ends s' r (le_n 4)
            (sample_fresh CHG_REMOVE) removed_reported (sample_names CHG_REMOVE) E removed_world _).
  vm_compute in E. injection E as <- _. reflexivity.
Defined.

(** A name that also has an IPv6 address: the second exchange is answered that the name
    still has an address, which the transaction takes for a failure, although the IPv4
    address is gone; the reverse entry of the address stays. *)
Theorem dual_stack_removal_fails :
  let t := sample_transaction CHG_REMOVE in
  ∃ s' z,
    world (H := RemoveHandler) t (client_zone true)
      [Answered RCODE_NOERROR; Answered RCODE_YXRRSET] z ∧
    transact (H := RemoveHandler) 4 [(SUCCESS, Some RCODE_NOERROR); (SUCCESS, Some RCODE_YXRRSET)] t
      = (s', Ok tt) ∧
    isModelDone s' = true ∧ status_ (ncr_ (derived s')) = ST_FAILED ∧
    ((owner t First, TYPE_A, lease_rdata t) ∉ z) ∧ ((owner t Reverse, TYPE_PTR, ptr_rdata t) ∈ z).
Proof.
  do 2 eexists. split; [exact (removed_world_1 true RCODE_YXRRSET eq_refl)|].
  split; [vm_compute; reflexivity|]. split; [reflexivity|]. split; [reflexivity|].
  split; apply (bool_decide_unpack _); vm_compute; exact I.
Qed.
