(* ===== verification/D2QueueMgr.v ===== *)
(** * The request queue of the DHCP-DDNS server ([src/bin/d2/d2_queue_mgr.cc],
      [src/lib/dhcp_ddns/ncr_io.cc], [ncr_udp.cc])

    The queue manager owns the queue of received requests and the listener that
    receives them; the listener calls it back ([recv_handler]) at the end of each
    read.  Both are one state here, since each calls the other: a computation of type
    [ST D2QueueMgr] is a member function of either.

    The operating system is the class [SocketEnv], whose functions tell whether the
    [n]-th call of a kind succeeds; [reads_] counts the reads it has accepted and not
    yet ended, so that a callback to a listener that no longer exists is a visible
    error ([AssertionFailure]).  No call is assumed to succeed: when the socket cannot be
    closed, [close] throws, [stopListening] of the listener goes on, and the socket stays
    open.  [enqueued_] and [dequeued_] record what has gone
    through the queue.  The log is left out. *)

From S2P Require Import Prelude IoAddress NcTrans.
Local Open Scope Z_scope.
#[local] Set Default Proof Using "All".

(** ** State *)

(** [NameChangeListener::Result] *)
Inductive Result := RECV_SUCCESS | RECV_TIME_OUT | RECV_STOPPED | RECV_ERROR.

Inductive State :=
  | NOT_INITTED
  | INITTED
  | RUNNING
  | STOPPING
  | STOPPED_QUEUE_FULL
  | STOPPED_RECV_ERROR
  | STOPPED.

#[export] Instance State_eq_dec : EqDecision State.
Proof. solve_decision. Defined.

(** A UDP listener; [asio_socket_] is whether the pointer to the socket is set. *)
Record NameChangeListener := {
  listening_ : bool;
  io_pending_ : bool;
  asio_socket_ : bool;
  listen_address_ : IOAddress;
  listen_port_ : Z
}.

Record D2QueueMgr := {
  max_queue_size_ : nat;
  ncr_queue_ : list NameChangeRequest;
  listener_ : option NameChangeListener;
  mgr_state_ : State;
  target_stop_state_ : State;
  reads_ : nat;
  os_calls_ : nat;
  enqueued_ : list NameChangeRequest;
  dequeued_ : list NameChangeRequest
}.

Definition with_max n (q : D2QueueMgr) : D2QueueMgr :=
  {| max_queue_size_ := n; ncr_queue_ := ncr_queue_ q; listener_ := listener_ q;
     mgr_state_ := mgr_state_ q; target_stop_state_ := target_stop_state_ q; reads_ := reads_ q;
     os_calls_ := os_calls_ q; enqueued_ := enqueued_ q; dequeued_ := dequeued_ q |}.
Definition with_queue l ins outs (q : D2QueueMgr) : D2QueueMgr :=
  {| max_queue_size_ := max_queue_size_ q; ncr_queue_ := l; listener_ := listener_ q;
     mgr_state_ := mgr_state_ q; target_stop_state_ := target_stop_state_ q; reads_ := reads_ q;
     os_calls_ := os_calls_ q; enqueued_ := ins; dequeued_ := outs |}.
Definition with_listener l (q : D2QueueMgr) : D2QueueMgr :=
  {| max_queue_size_ := max_queue_size_ q; ncr_queue_ := ncr_queue_ q; listener_ := l;
     mgr_state_ := mgr_state_ q; target_stop_state_ := target_stop_state_ q; reads_ := reads_ q;
     os_calls_ := os_calls_ q; enqueued_ := enqueued_ q; dequeued_ := dequeued_ q |}.
Definition with_state st target (q : D2QueueMgr) : D2QueueMgr :=
  {| max_queue_size_ := max_queue_size_ q; ncr_queue_ := ncr_queue_ q; listener_ := listener_ q;
     mgr_state_ := st; target_stop_state_ := target; reads_ := reads_ q;
     os_calls_ := os_calls_ q; enqueued_ := enqueued_ q; dequeued_ := dequeued_ q |}.
Definition with_os reads calls (q : D2QueueMgr) : D2QueueMgr :=
  {| max_queue_size_ := max_queue_size_ q; ncr_queue_ := ncr_queue_ q; listener_ := listener_ q;
     mgr_state_ := mgr_state_ q; target_stop_state_ := target_stop_state_ q; reads_ := reads;
     os_calls_ := calls; enqueued_ := enqueued_ q; dequeued_ := dequeued_ q |}.

Definition set_listening b (l : NameChangeListener) : NameChangeListener :=
  {| listening_ := b; io_pending_ := io_pending_ l; asio_socket_ := asio_socket_ l;
     listen_address_ := listen_address_ l; listen_port_ := listen_port_ l |}.
Definition set_io_pending b (l : NameChangeListener) : NameChangeListener :=
  {| listening_ := listening_ l; io_pending_ := b; asio_socket_ := asio_socket_ l;
     listen_address_ := listen_address_ l; listen_port_ := listen_port_ l |}.
Definition set_socket b (l : NameChangeListener) : NameChangeListener :=
  {| listening_ := listening_ l; io_pending_ := io_pending_ l; asio_socket_ := b;
     listen_address_ := listen_address_ l; listen_port_ := listen_port_ l |}.

(** Whether the [n]-th call to the operating system succeeds, for each of the calls
    the listener makes. *)
Class SocketEnv := {
  open_ok : nat → bool;
  close_ok : nat → bool;
  receive_ok : nat → bool
}.

(** ** The queue *)

Definition MAX_QUEUE_DEFAULT : nat := 1024.

Definition getQueueSize : ST D2QueueMgr nat := q ← get; mret (length (ncr_queue_ q)).

Definition peek : ST D2QueueMgr NameChangeRequest :=
  q ← get;
  match ncr_queue_ q with [] => throw D2QueueMgrQueueEmpty | n :: _ => mret n end.

Definition peekAt (index : nat) : ST D2QueueMgr NameChangeRequest :=
  q ← get;
  match ncr_queue_ q !! index with None => throw D2QueueMgrInvalidIndex | Some n => mret n end.

Definition dequeueAt (index : nat) : ST D2QueueMgr unit :=
  q ← get;
  match ncr_queue_ q !! index with
  | None => throw D2QueueMgrInvalidIndex
  | Some n => put (with_queue (delete index (ncr_queue_ q)) (enqueued_ q) (dequeued_ q ++ [n]) q)
  end.

Definition dequeue : ST D2QueueMgr unit :=
  q ← get;
  match ncr_queue_ q with
  | [] => throw D2QueueMgrQueueEmpty
  | n :: l => put (with_queue l (enqueued_ q) (dequeued_ q ++ [n]) q)
  end.

Definition enqueue (ncr : NameChangeRequest) : ST D2QueueMgr unit :=
  modify (λ q, with_queue (ncr_queue_ q ++ [ncr]) (enqueued_ q ++ [ncr]) (dequeued_ q) q).

Definition clearQueue : ST D2QueueMgr unit :=
  modify (λ q, with_queue [] (enqueued_ q) (dequeued_ q ++ ncr_queue_ q) q).

Definition setMaxQueueSize (new_queue_max : nat) : ST D2QueueMgr unit :=
  q ← get;
  if (new_queue_max <? 1)%nat then throw D2QueueMgrError
  else if (new_queue_max <? length (ncr_queue_ q))%nat then throw D2QueueMgrError
  else put (with_max new_queue_max q).

(** The constructor. *)
Definition mkD2QueueMgr (max_queue_size : nat) : res D2QueueMgr :=
  match setMaxQueueSize max_queue_size
          {| max_queue_size_ := max_queue_size; ncr_queue_ := []; listener_ := None;
             mgr_state_ := NOT_INITTED; target_stop_state_ := NOT_INITTED; reads_ := 0;
             os_calls_ := 0; enqueued_ := []; dequeued_ := [] |} with
  | (q, Ok _) => Ok q
  | (_, Throw e) => Throw e
  end.

(** ** The listener *)

Section Listener.
Context `{SocketEnv}.

(** The pointer to the listener is used. *)
Definition the_listener : ST D2QueueMgr NameChangeListener :=
  q ← get;
  match listener_ q with Some l => mret l | None => throw AssertionFailure end.
Definition update_listener (f : NameChangeListener → NameChangeListener) : ST D2QueueMgr unit :=
  modify (λ q, with_listener (f <$> listener_ q) q).

(** A call to the operating system. *)
Definition os_call (ok : nat → bool) : ST D2QueueMgr bool :=
  q ← get;
  _ ← put (with_os (reads_ q) (S (os_calls_ q)) q);
  mret (ok (os_calls_ q)).

Definition open : ST D2QueueMgr unit :=
  opened ← os_call open_ok;
  _ ← update_listener (set_socket opened);
  if (opened : bool) then mret tt else throw NcrUDPError.

Definition doReceive : ST D2QueueMgr unit :=
  l ← the_listener;
  if negb (asio_socket_ l) then throw AssertionFailure
  else
    received ← os_call receive_ok;
    if (received : bool) then modify (λ q, with_os (S (reads_ q)) (os_calls_ q) q)
    else throw NcrUDPError.

Definition close : ST D2QueueMgr unit :=
  l ← the_listener;
  if asio_socket_ l then
    closed ← os_call close_ok;
    if (closed : bool) then update_listener (set_socket false) else throw NcrUDPError
  else mret tt.

Definition receiveNext : ST D2QueueMgr unit :=
  _ ← update_listener (set_io_pending true);
  doReceive.

Definition listener_stopListening : ST D2QueueMgr unit :=
  _ ← try_catch close (mret tt);
  update_listener (set_listening false).

Definition listener_startListening : ST D2QueueMgr unit :=
  l ← the_listener;
  if listening_ l then throw NcrListenerError
  else
    _ ← try_catch open (_ ← listener_stopListening; throw NcrListenerOpenError);
    _ ← update_listener (set_listening true);
    try_catch receiveNext (_ ← listener_stopListening; throw NcrListenerReceiveError).

(** ** The manager *)

Definition set_mgr_state (st : State) : ST D2QueueMgr unit :=
  modify (λ q, with_state st (target_stop_state_ q) q).

Definition updateStopState : ST D2QueueMgr unit :=
  q ← get; set_mgr_state (target_stop_state_ q).

Definition stop_state (st : State) : bool :=
  match st with STOPPED | STOPPED_QUEUE_FULL | STOPPED_RECV_ERROR => true | _ => false end.

Definition stopListening (target_stop_state : State) : ST D2QueueMgr unit :=
  q ← get;
  match listener_ q with
  | None => mret tt
  | Some _ =>
      if negb (stop_state target_stop_state) then throw D2QueueMgrError
      else
        _ ← modify (λ q, with_state (mgr_state_ q) target_stop_state q);
        _ ← listener_stopListening;
        l ← the_listener;
        if io_pending_ l then set_mgr_state STOPPING else updateStopState
  end.

Definition initUDPListener (ip_address : IOAddress) (port : Z) : ST D2QueueMgr unit :=
  q ← get;
  match listener_ q with
  | Some _ => throw D2QueueMgrError
  | None =>
      _ ← put (with_listener (Some {| listening_ := false; io_pending_ := false;
                 asio_socket_ := false; listen_address_ := ip_address; listen_port_ := port |}) q);
      set_mgr_state INITTED
  end.

Definition startListening : ST D2QueueMgr unit :=
  q ← get;
  match listener_ q with
  | None => throw D2QueueMgrError
  | Some _ =>
      if bool_decide (mgr_state_ q = RUNNING) then throw D2QueueMgrError
      else try_catch (_ ← listener_startListening; set_mgr_state RUNNING)
             (throw D2QueueMgrError)
  end.

(** The destructor of the listener stops it. *)
Definition removeListener : ST D2QueueMgr unit :=
  q ← get;
  if bool_decide (mgr_state_ q = RUNNING) then throw D2QueueMgrError
  else
    _ ← (if bool_decide (listener_ q = None) then mret tt else listener_stopListening);
    _ ← modify (with_listener None);
    set_mgr_state NOT_INITTED.

(** ** The callbacks *)

(** [operator()] *)
Definition recv_handler (result : Result) (ncr : option NameChangeRequest) : ST D2QueueMgr unit :=
  try_catch
    (q ← get;
     match result with
     | RECV_SUCCESS =>
         if (length (ncr_queue_ q) <? max_queue_size_ q)%nat then
           match ncr with Some n => enqueue n | None => throw AssertionFailure end
         else stopListening STOPPED_QUEUE_FULL
     | RECV_STOPPED =>
         if bool_decide (mgr_state_ q = STOPPING) then updateStopState
         else stopListening STOPPED_RECV_ERROR
     | _ => stopListening STOPPED_RECV_ERROR
     end)
    (mret tt).

Definition invokeRecvHandler (result : Result) (ncr : option NameChangeRequest) :
    ST D2QueueMgr unit :=
  _ ← try_catch (_ ← update_listener (set_io_pending false); recv_handler result ncr) (mret tt);
  l ← the_listener;
  if listening_ l then
    try_catch receiveNext
      (try_catch (_ ← update_listener (set_io_pending false); recv_handler RECV_ERROR None)
         (mret tt))
  else mret tt.

(** How a read ends: a datagram has arrived, with a valid request or not, the read was
    cancelled, or it failed. *)
Inductive Completion := Datagram (ncr : option NameChangeRequest) | Aborted | Failed.

Definition receiveCompletionHandler (c : Completion) : ST D2QueueMgr unit :=
  _ ← the_listener;
  _ ← modify (λ q, with_os (pred (reads_ q)) (os_calls_ q) q);
  match c with
  | Datagram (Some ncr) => invokeRecvHandler RECV_SUCCESS (Some ncr)
  | Datagram None => receiveNext
  | Aborted => invokeRecvHandler RECV_STOPPED None
  | Failed => invokeRecvHandler RECV_ERROR None
  end.
End Listener.

(** ** What the manager promises *)

(** The manager, the listener and the operating system agree: a listener that runs has
    exactly one read with the operating system, a manager that is stopping waits for
    one, and otherwise there is none.  A manager that is stopping still has its socket
    only if closing a socket can fail, and then the read it waits for may be over. *)
Definition consistent `{SocketEnv} (q : D2QueueMgr) : Prop :=
  match mgr_state_ q, listener_ q with
  | NOT_INITTED, None => reads_ q = 0%nat
  | RUNNING, Some l =>
      listening_ l = true ∧ io_pending_ l = true ∧ asio_socket_ l = true ∧ reads_ q = 1%nat
  | STOPPING, Some l =>
      listening_ l = false ∧ stop_state (target_stop_state_ q) = true ∧
      if asio_socket_ l
      then (∃ n, close_ok n = false) ∧ (reads_ q = 0%nat ∨ reads_ q = 1%nat ∧ io_pending_ l = true)
      else reads_ q = 1%nat ∧ io_pending_ l = true
  | (INITTED | STOPPED | STOPPED_QUEUE_FULL | STOPPED_RECV_ERROR), Some l =>
      listening_ l = false ∧ reads_ q = 0%nat
  | _, _ => False
  end.

(** What a request goes through: it waits in the queue from when it is put in until it is
    taken out. *)
Definition client (d : list Z) (l : list NameChangeRequest) : list NameChangeRequest :=
  filter (λ n, dhcid_ n = d) l.
Definition in_order (q : D2QueueMgr) : Prop :=
  ∀ d, client d (enqueued_ q) = client d (dequeued_ q) ++ client d (ncr_queue_ q).

Record queue_ok `{SocketEnv} (q : D2QueueMgr) : Prop := {
  ok_consistent : consistent q;
  ok_bounded : (length (ncr_queue_ q) ≤ max_queue_size_ q)%nat;
  ok_max : (1 ≤ max_queue_size_ q)%nat;
  ok_order : in_order q
}.

(** The part of the state only the queue operations change. *)
Definition same_queue (q q' : D2QueueMgr) : Prop :=
  max_queue_size_ q' = max_queue_size_ q ∧ ncr_queue_ q' = ncr_queue_ q ∧
  enqueued_ q' = enqueued_ q ∧ dequeued_ q' = dequeued_ q.

Lemma same_queue_ok `{SocketEnv} q q' : queue_ok q → same_queue q q' → consistent q' → queue_ok q'.
Proof.
  intros [_ Hb Hm Ho] (E1 & E2 & E3 & E4) Hc. split; [done|congruence|congruence|].
  unfold in_order in *. by rewrite E2, E3, E4.
Qed.

Section Facts.
Context `{SocketEnv}.

#[local] Arguments Nat.ltb : simpl never.

(** Runs the calls of a member function on a known state. *)
Ltac run_q :=
  unfold mbind, ST_bind, mret, ST_ret, try_catch, get, put, modify, throw in *; cbn in *.

(** What is left of the socket when it is to be closed: it stays only if closing it fails. *)
Definition may_stay (b : bool) (l : NameChangeListener) : Prop :=
  b = true → asio_socket_ l = true ∧ ∃ n, close_ok n = false.

Lemma run_listener_stopListening q l :
  listener_ q = Some l →
  ∃ calls b, listener_stopListening q
    = (with_os (reads_ q) calls
         (with_listener (Some (set_listening false (set_socket b l))) q), Ok tt) ∧ may_stay b l.
Proof.
  intros Hl. destruct q as [mx qu li st tg rd os ins outs]. simpl in Hl. subst li.
  unfold listener_stopListening, close, the_listener, update_listener, os_call. run_q.
  destruct l as [li io so ad po]. destruct so; run_q.
  - destruct (close_ok os) eqn:Hc; run_q.
    + by exists (S os), false.
    + exists (S os), true. split; [done|]. split; [done|by exists os].
  - by exists os, false.
Qed.

Ltac stop_q :=
  match goal with |- context [listener_stopListening ?q] =>
    destruct (run_listener_stopListening q _ eq_refl) as (? & ? & -> & ?); run_q end.

Lemma run_stopListening q l target :
  listener_ q = Some l → stop_state target = true →
  ∃ q' b, stopListening target q = (q', Ok tt) ∧ same_queue q q' ∧ reads_ q' = reads_ q ∧
    target_stop_state_ q' = target ∧
    mgr_state_ q' = (if io_pending_ l then STOPPING else target) ∧
    listener_ q' = Some (set_listening false (set_socket b l)) ∧ may_stay b l.
Proof.
  intros Hl Ht. unfold stopListening. run_q. rewrite Hl, Ht. run_q.
  destruct (run_listener_stopListening (with_state (mgr_state_ q) target q) l Hl) as (c & b & -> & Hb).
  unfold the_listener, updateStopState, set_mgr_state. run_q.
  destruct (io_pending_ l); run_q; eexists _, b; (split; [reflexivity|]); by split_and!.
Qed.

(** Starting a listener that is not listening either runs it or leaves it stopped. *)
Lemma run_startListening q l :
  listener_ q = Some l → listening_ l = false → reads_ q = 0%nat → mgr_state_ q ≠ RUNNING →
  ∃ q' l' r, startListening q = (q', r) ∧
    same_queue q q' ∧ target_stop_state_ q' = target_stop_state_ q ∧ listener_ q' = Some l' ∧
    ((r = Ok tt ∧ mgr_state_ q' = RUNNING ∧ listening_ l' = true ∧ io_pending_ l' = true ∧
      asio_socket_ l' = true ∧ reads_ q' = 1%nat) ∨
     (r = Throw D2QueueMgrError ∧ mgr_state_ q' = mgr_state_ q ∧ listening_ l' = false ∧ reads_ q' = 0%nat)).
Proof.
  intros Hl Hli Hr Hs. destruct q as [mx qu li st tg rd os ins outs]. simpl in *. subst.
  destruct l as [li io so ad po]. simpl in Hli. subst.
  unfold startListening, listener_startListening, open, receiveNext, doReceive, os_call,
    update_listener, the_listener, set_mgr_state.
  run_q. rewrite (bool_decide_eq_false_2 (st = RUNNING)) by done. run_q.
  destruct (open_ok os); run_q.
  - destruct (receive_ok (S os)); run_q.
    + do 3 eexists. split; [reflexivity|]. unfold same_queue; naive_solver.
    + stop_q.
      do 3 eexists.
      split; [reflexivity|]. unfold same_queue; naive_solver.
  - stop_q.
    do 3 eexists.
    split; [reflexivity|]. unfold same_queue; naive_solver.
Qed.

Lemma run_removeListener q l :
  listener_ q = Some l → mgr_state_ q ≠ RUNNING → reads_ q = 0%nat →
  ∃ q', removeListener q = (q', Ok tt) ∧ same_queue q q' ∧ mgr_state_ q' = NOT_INITTED ∧
    listener_ q' = None ∧ reads_ q' = 0%nat.
Proof.
  intros Hl Hs Hr. unfold removeListener. run_q.
  rewrite (bool_decide_eq_false_2 (mgr_state_ q = RUNNING)) by done.
  rewrite Hl, bool_decide_eq_false_2 by done. run_q.
  destruct (run_listener_stopListening q l Hl) as (c & b & -> & _). unfold set_mgr_state. run_q.
  eexists. split; [reflexivity|]. by repeat split.
Qed.
(** A read can end when there is one, and the one of a closed socket is cancelled. *)
Definition possible (c : Completion) (q : D2QueueMgr) : Prop :=
  (0 < reads_ q)%nat ∧ ∀ l, listener_ q = Some l → asio_socket_ l = false → c = Aborted.

(** A handler that stops the listener, when no read is pending. *)
Lemma run_handler_stops result ncr q l target :
  listener_ q = Some l → io_pending_ l = false →
  (result = RECV_SUCCESS → target = STOPPED_QUEUE_FULL ∧ (max_queue_size_ q ≤ length (ncr_queue_ q))%nat) →
  (result ≠ RECV_SUCCESS → target = STOPPED_RECV_ERROR) →
  (result = RECV_STOPPED → mgr_state_ q ≠ STOPPING) →
  ∃ q' b, recv_handler result ncr q = (q', Ok tt) ∧ same_queue q q' ∧ reads_ q' = reads_ q ∧
    mgr_state_ q' = target ∧ listener_ q' = Some (set_listening false (set_socket b l)).
Proof.
  intros Hl Hio Hfull Herr Hst.
  assert (stop_state target = true) as Ht.
  { destruct result; [destruct (Hfull eq_refl) as [-> _]|rewrite Herr by done..]; done. }
  destruct (run_stopListening q l target Hl Ht) as (q' & b & E & Hq & Hr & _ & Hs & Hl' & _).
  rewrite Hio in Hs. exists q', b. split; [|done].
  unfold recv_handler. run_q. destruct result.
  - destruct (Hfull eq_refl) as [-> Hlen]. rewrite (proj2 (Nat.ltb_ge _ _)) by done.
    by rewrite E.
  - rewrite Herr in E by done. by rewrite E.
  - rewrite bool_decide_eq_false_2 by auto. rewrite Herr in E by done. by rewrite E.
  - rewrite Herr in E by done. by rewrite E.
Qed.

(** The next read of a listener that listens: it is accepted or the listener stops. *)
Lemma run_next_read q l :
  listener_ q = Some l → listening_ l = true → asio_socket_ l = true → io_pending_ l = false →
  reads_ q = 0%nat → mgr_state_ q = RUNNING →
  ∃ q', try_catch receiveNext
          (try_catch (_ ← update_listener (set_io_pending false); recv_handler RECV_ERROR None)
             (mret tt)) q = (q', Ok tt) ∧ same_queue q q' ∧ consistent q'.
Proof.
  intros Hl Hli Hso Hio Hr Hs. destruct q as [mx qu li st tg rd os ins outs].
  destruct l as [li' io so ad po]. simpl in *. subst.
  unfold receiveNext, doReceive, the_listener, os_call, update_listener. run_q.
  destruct (receive_ok os); run_q.
  - eexists. split; [reflexivity|]. unfold same_queue, consistent; naive_solver.
  - match goal with |- context [recv_handler RECV_ERROR None ?q] =>
      destruct (run_handler_stops RECV_ERROR None q _ STOPPED_RECV_ERROR eq_refl eq_refl)
        as (q' & b & -> & Hq & Hr & Hs & Hl); [done..|] end.
    exists q'. split; [done|]. split; [exact Hq|].
    unfold consistent. by rewrite Hs, Hl, Hr.
Qed.

(** What the end of a read does to the queue. *)
Definition received (c : Completion) (q : D2QueueMgr) : list NameChangeRequest :=
  match c with
  | Datagram (Some n) => if (length (ncr_queue_ q) <? max_queue_size_ q)%nat then [n] else []
  | _ => []
  end.

Definition queue_gets (ns : list NameChangeRequest) (q q' : D2QueueMgr) : Prop :=
  max_queue_size_ q' = max_queue_size_ q ∧ ncr_queue_ q' = ncr_queue_ q ++ ns ∧
  enqueued_ q' = enqueued_ q ++ ns ∧ dequeued_ q' = dequeued_ q.

Lemma queue_gets_ok ns q q' :
  queue_ok q → queue_gets ns q q' → (length (ncr_queue_ q ++ ns) ≤ max_queue_size_ q)%nat →
  consistent q' → queue_ok q'.
Proof.
  intros [_ _ Hm Ho] (E1 & E2 & E3 & E4) Hb Hc. split; [done|congruence|congruence|].
  intros d. unfold client in *. rewrite E2, E3, E4, !filter_app, app_assoc. f_equal. apply Ho.
Qed.

Lemma same_queue_gets q q' : same_queue q q' → queue_gets [] q q'.
Proof. intros (? & E1 & E2 & ?). unfold queue_gets. by rewrite !app_nil_r. Qed.

Lemma received_bounded c q :
  queue_ok q → (length (ncr_queue_ q ++ received c q) ≤ max_queue_size_ q)%nat.
Proof.
  intros [_ Hb _ _]. rewrite length_app. unfold received.
  destruct c as [[n|]| |]; simpl; try lia. destruct (Nat.ltb_spec (length (ncr_queue_ q)) (max_queue_size_ q)); simpl; lia.
Qed.

(** The end of the read, up to the handler. *)
Definition read_ended (l : NameChangeListener) (q : D2QueueMgr) : D2QueueMgr :=
  with_listener (Some (set_io_pending false l)) (with_os (pred (reads_ q)) (os_calls_ q) q).

Lemma run_completion c q l :
  listener_ q = Some l → c ≠ Datagram None →
  receiveCompletionHandler c q
  = (_ ← try_catch (match c with
                    | Datagram (Some n) => recv_handler RECV_SUCCESS (Some n)
                    | Aborted => recv_handler RECV_STOPPED None
                    | _ => recv_handler RECV_ERROR None
                    end) (mret tt);
     l ← the_listener;
     if listening_ l then
       try_catch receiveNext
         (try_catch (_ ← update_listener (set_io_pending false); recv_handler RECV_ERROR None)
            (mret tt))
     else mret tt) (read_ended l q).
Proof.
  intros Hl Hc. destruct q as [mx qu li st tg rd os ins outs]. simpl in *. subst.
  unfold receiveCompletionHandler, the_listener, invokeRecvHandler, read_ended, update_listener.
  destruct c as [[n|]| |]; [|done|..]; reflexivity.
Qed.

(** A handler that has stopped the listener is the end of it. *)
Lemma run_stopped result ncr q l target :
  listener_ q = Some l → io_pending_ l = false → reads_ q = 0%nat → stop_state target = true →
  (∃ q', recv_handler result ncr q = (q', Ok tt) ∧ same_queue q q' ∧ reads_ q' = 0%nat ∧
     mgr_state_ q' = target ∧ ∃ l', listener_ q' = Some l' ∧ listening_ l' = false) →
  ∃ q', (_ ← try_catch (recv_handler result ncr) (mret tt);
     l ← the_listener;
     if listening_ l then
       try_catch receiveNext
         (try_catch (_ ← update_listener (set_io_pending false); recv_handler RECV_ERROR None)
            (mret tt))
     else mret tt) q = (q', Ok tt) ∧ same_queue q q' ∧ consistent q' ∧ mgr_state_ q' = target.
Proof.
  intros Hl Hio Hr Ht (q' & E & Hq & Hr' & Hs & l' & Hl' & Hli).
  exists q'. split.
  - unfold the_listener. run_q. rewrite E. run_q. rewrite Hl'. run_q. by rewrite Hli.
  - split; [done|]. split; [|done]. unfold consistent. rewrite Hs, Hl'. by destruct target.
Qed.

(** The ways a read of a running listener ends that stop it. *)
Lemma completion_stops q l result ncr target :
  listener_ q = Some l → reads_ q = 1%nat →
  (result = RECV_SUCCESS → target = STOPPED_QUEUE_FULL ∧ (max_queue_size_ q ≤ length (ncr_queue_ q))%nat) →
  (result ≠ RECV_SUCCESS → target = STOPPED_RECV_ERROR) →
  (result = RECV_STOPPED → mgr_state_ q ≠ STOPPING) →
  ∃ q', (_ ← try_catch (recv_handler result ncr) (mret tt);
     l ← the_listener;
     if listening_ l then
       try_catch receiveNext
         (try_catch (_ ← update_listener (set_io_pending false); recv_handler RECV_ERROR None)
            (mret tt))
     else mret tt) (read_ended l q) = (q', Ok tt) ∧
    same_queue q q' ∧ consistent q' ∧ mgr_state_ q' = target.
Proof.
  intros Hl Hr Hfull Herr Hst.
  assert (reads_ (read_ended l q) = 0%nat) as Hr0 by (cbn; by rewrite Hr).
  destruct (run_handler_stops result ncr (read_ended l q) (set_io_pending false l) target)
    as (q' & b & E & Hq & Hr' & Hs & Hl'); [done..|].
  destruct (run_stopped result ncr (read_ended l q) (set_io_pending false l) target)
    as (q2 & E2 & Hq2 & Hc & Hs2); [done|done|done| | |by exists q2].
  - destruct result; [by destruct (Hfull eq_refl) as [-> _]|by rewrite Herr..].
  - exists q'. split; [done|]. split; [done|]. split; [by rewrite Hr', Hr0|].
    split; [done|]. eexists. split; [exact Hl'|done].
Qed.

Lemma running_listener q :
  consistent q → mgr_state_ q = RUNNING →
  ∃ l, listener_ q = Some l ∧ listening_ l = true ∧ io_pending_ l = true ∧
    asio_socket_ l = true ∧ reads_ q = 1%nat.
Proof. unfold consistent. intros Hc Hs. rewrite Hs in Hc. destruct (listener_ q); [eauto|done]. Qed.

Lemma stopping_listener q :
  consistent q → mgr_state_ q = STOPPING → (0 < reads_ q)%nat →
  ∃ l, listener_ q = Some l ∧ listening_ l = false ∧ io_pending_ l = true ∧ reads_ q = 1%nat ∧
    stop_state (target_stop_state_ q) = true ∧ (asio_socket_ l = true → ∃ n, close_ok n = false).
Proof.
  unfold consistent. intros Hc Hs Hr. rewrite Hs in Hc. destruct (listener_ q) as [l|]; [|done].
  exists l. destruct Hc as (Hli & Ht & Hc). destruct (asio_socket_ l).
  - destruct Hc as [Hn [Hr'|[Hr' Hio]]]; [lia|]. by split_and!.
  - destruct Hc as [Hr' Hio]. by split_and!.
Qed.

Lemma reading_states q :
  consistent q → (0 < reads_ q)%nat → mgr_state_ q = RUNNING ∨ mgr_state_ q = STOPPING.
Proof.
  unfold consistent. intros Hc Hr. destruct (mgr_state_ q); auto;
    destruct (listener_ q); try done; lia.
Qed.

(** A request that arrives at a running listener. *)
Lemma completion_request q n :
  queue_ok q → mgr_state_ q = RUNNING →
  ∃ q', receiveCompletionHandler (Datagram (Some n)) q = (q', Ok tt) ∧
    queue_gets (received (Datagram (Some n)) q) q q' ∧ consistent q' ∧
    ((max_queue_size_ q ≤ length (ncr_queue_ q))%nat → mgr_state_ q' = STOPPED_QUEUE_FULL).
Proof.
  intros Hok Hs. destruct (running_listener q (ok_consistent _ Hok) Hs) as (l & Hl & Hli & Hio & Hso & Hr).
  rewrite (run_completion (Datagram (Some n)) q l Hl) by done. cbn [received].
  destruct (Nat.ltb_spec (length (ncr_queue_ q)) (max_queue_size_ q)) as [Hlt|Hge].
  - set (q0 := with_queue (ncr_queue_ q ++ [n]) (enqueued_ q ++ [n]) (dequeued_ q) (read_ended l q)).
    assert (recv_handler RECV_SUCCESS (Some n) (read_ended l q) = (q0, Ok tt)) as E.
    { unfold recv_handler, enqueue. run_q. by rewrite (proj2 (Nat.ltb_lt _ _) Hlt). }
    destruct (run_next_read q0 (set_io_pending false l)) as (q' & E' & Hq & Hc);
      [done|done|done|done|cbn; by rewrite Hr|done|].
    exists q'. unfold the_listener. run_q. rewrite E. run_q. rewrite Hli, E'.
    split; [done|]. split; [|split; [done|lia]].
    destruct Hq as (E1 & E2 & E3 & E4). unfold queue_gets. rewrite E1, E2, E3, E4. done.
  - destruct (completion_stops q l RECV_SUCCESS (Some n) STOPPED_QUEUE_FULL)
      as (q' & E & Hq & Hc & Hs'); [done..|].
    exists q'. split; [exact E|]. split; [by apply same_queue_gets|done].
Qed.

(** A datagram without a valid request: the listener reads on. *)
Lemma completion_invalid q :
  queue_ok q → mgr_state_ q = RUNNING →
  ∃ q' r, receiveCompletionHandler (Datagram None) q = (q', r) ∧ same_queue q q' ∧
    (r = Ok tt ∧ mgr_state_ q' = RUNNING ∧ consistent q' ∨ r = Throw NcrUDPError).
Proof.
  intros Hok Hs. destruct (running_listener q (ok_consistent _ Hok) Hs) as (l & Hl & Hli & Hio & Hso & Hr).
  clear Hok. destruct q as [mx qu li st tg rd os ins outs]. destruct l as [li' io so ad po].
  simpl in *. subst.
  unfold receiveCompletionHandler, receiveNext, doReceive, the_listener, os_call, update_listener.
  run_q. destruct (receive_ok os); run_q.
  - do 2 eexists. split; [reflexivity|]. unfold same_queue, consistent. cbn. naive_solver.
  - do 2 eexists. split; [reflexivity|]. unfold same_queue. naive_solver.
Qed.

(** The cancelled read a stopping manager waits for. *)
Lemma completion_stopping q :
  queue_ok q → mgr_state_ q = STOPPING → (0 < reads_ q)%nat →
  ∃ q', receiveCompletionHandler Aborted q = (q', Ok tt) ∧ same_queue q q' ∧ consistent q' ∧
    mgr_state_ q' = target_stop_state_ q.
Proof.
  intros Hok Hs Hr0.
  destruct (stopping_listener q (ok_consistent _ Hok) Hs Hr0) as (l & Hl & Hli & Hio & Hr & Ht & _).
  rewrite (run_completion Aborted q l Hl) by done.
  destruct (run_stopped RECV_STOPPED None (read_ended l q) (set_io_pending false l) (target_stop_state_ q))
    as (q' & E & Hq & Hc & Hs'); [done|done|cbn; by rewrite Hr|done| |by exists q'].
  eexists (with_state (target_stop_state_ q) _ (read_ended l q)).
  split; [unfold recv_handler, updateStopState, set_mgr_state; run_q;
          by rewrite bool_decide_eq_true_2|].
  split; [done|]. split; [cbn; by rewrite Hr|]. split; [done|]. by eexists.
Qed.

(** A datagram that still arrives at a socket that could not be closed: a request goes to
    the queue, and no read follows. *)
Lemma completion_left_open q l n :
  queue_ok q → mgr_state_ q = STOPPING → (0 < reads_ q)%nat →
  listener_ q = Some l → asio_socket_ l = true →
  ∃ q', receiveCompletionHandler (Datagram (Some n)) q = (q', Ok tt) ∧
    queue_gets (received (Datagram (Some n)) q) q q' ∧ consistent q'.
Proof.
  intros Hok Hs Hr0 Hl Hso.
  destruct (stopping_listener q (ok_consistent _ Hok) Hs Hr0) as (l0 & Hl0 & Hli & Hio & Hr & Ht & Hn).
  rewrite Hl in Hl0. injection Hl0 as <-. rewrite (run_completion (Datagram (Some n)) q l Hl) by done.
  cbn [received].
  destruct (Nat.ltb_spec (length (ncr_queue_ q)) (max_queue_size_ q)) as [Hlt|Hge].
  - set (q0 := with_queue (ncr_queue_ q ++ [n]) (enqueued_ q ++ [n]) (dequeued_ q) (read_ended l q)).
    assert (recv_handler RECV_SUCCESS (Some n) (read_ended l q) = (q0, Ok tt)) as E.
    { unfold recv_handler, enqueue. run_q. by rewrite (proj2 (Nat.ltb_lt _ _) Hlt). }
    exists q0. unfold the_listener. run_q. rewrite E. run_q. rewrite Hli.
    split; [done|]. split; [done|]. unfold consistent. cbn. rewrite Hs, Hli, Hso, Hr. auto.
  - destruct (completion_stops q l RECV_SUCCESS (Some n) STOPPED_QUEUE_FULL)
      as (q' & E & Hq & Hc & Hs'); [done..|].
    exists q'. split; [exact E|]. split; [by apply same_queue_gets|done].
Qed.

Lemma invalid_left_open q l :
  queue_ok q → mgr_state_ q = STOPPING → (0 < reads_ q)%nat →
  listener_ q = Some l → asio_socket_ l = true →
  ∃ q' r, receiveCompletionHandler (Datagram None) q = (q', r) ∧ same_queue q q' ∧
    (r = Ok tt ∧ consistent q' ∨ r = Throw NcrUDPError).
Proof.
  intros Hok Hs Hr0 Hl Hso.
  destruct (stopping_listener q (ok_consistent _ Hok) Hs Hr0) as (l0 & Hl0 & Hli & Hio & Hr & Ht & Hn).
  rewrite Hl in Hl0. injection Hl0 as <-. specialize (Hn Hso).
  clear Hok. destruct q as [mx qu li st tg rd os ins outs]. destruct l as [li' io so ad po].
  simpl in *. subst.
  unfold receiveCompletionHandler, receiveNext, doReceive, the_listener, os_call, update_listener.
  run_q. destruct (receive_ok os); run_q.
  - do 2 eexists. split; [reflexivity|]. unfold same_queue, consistent. cbn. auto 10.
  - do 2 eexists. split; [reflexivity|]. unfold same_queue. naive_solver.
Qed.

(** What the end of a read promises. *)
Definition read_end_spec (c : Completion) (q q' : D2QueueMgr) (r : res unit) : Prop :=
  queue_gets (received c q) q q' ∧
  (r = Ok tt ∧ queue_ok q' ∨ c = Datagram None ∧ r = Throw NcrUDPError) ∧
  (mgr_state_ q = STOPPING → (c = Aborted ∨ ∀ n, close_ok n = true) →
   mgr_state_ q' = target_stop_state_ q) ∧
  (mgr_state_ q = RUNNING → (∃ n, c = Datagram (Some n)) →
   (max_queue_size_ q ≤ length (ncr_queue_ q))%nat → mgr_state_ q' = STOPPED_QUEUE_FULL).

Lemma completion_running c q :
  queue_ok q → mgr_state_ q = RUNNING →
  ∃ q' r, receiveCompletionHandler c q = (q', r) ∧ read_end_spec c q q' r.
Proof.
  intros Hok Hs. pose proof (received_bounded c q Hok) as Hlen.
  destruct (running_listener q (ok_consistent _ Hok) Hs) as (l & Hl & Hli & Hio & Hso & Hr1).
  assert (∀ q', same_queue q q' → received c q = [] → queue_gets (received c q) q q') as Hsame
    by (intros q' Hq ->; by apply same_queue_gets).
  unfold read_end_spec. destruct c as [[n|]| |].
  - destruct (completion_request q n Hok Hs) as (q' & E & Hq & Hc & Hfull).
    exists q', (Ok tt). split; [done|]. split; [done|]. split.
    { left. split; [done|]. by eapply queue_gets_ok. }
    split; [congruence|auto].
  - destruct (completion_invalid q Hok Hs) as (q' & r & E & Hq & Hc).
    exists q', r. split; [done|]. split; [auto|]. split.
    { destruct Hc as [(-> & _ & Hc)| ->]; [left|by right].
      split; [done|]. by eapply same_queue_ok. }
    split; [congruence|]. by intros _ [].
  - destruct (completion_stops q l RECV_STOPPED None STOPPED_RECV_ERROR)
      as (q' & E & Hq & Hc & Hs'); [done|done|done|done|congruence|].
    exists q', (Ok tt). rewrite (run_completion Aborted q l Hl) by done.
    split; [done|]. split; [auto|]. split.
    { left. split; [done|]. by eapply same_queue_ok. }
    split; [congruence|]. by intros _ [].
  - destruct (completion_stops q l RECV_ERROR None STOPPED_RECV_ERROR)
      as (q' & E & Hq & Hc & Hs'); [done..|].
    exists q', (Ok tt). rewrite (run_completion Failed q l Hl) by done.
    split; [done|]. split; [auto|]. split.
    { left. split; [done|]. by eapply same_queue_ok. }
    split; [congruence|]. by intros _ [].
Qed.

(** While the manager is stopping, anything but the cancelled read takes a socket that could
    not be closed. *)
Lemma completion_while_stopping c q :
  queue_ok q → mgr_state_ q = STOPPING → possible c q →
  ∃ q' r, receiveCompletionHandler c q = (q', r) ∧ read_end_spec c q q' r.
Proof.
  intros Hok Hs [Hr0 Hposs]. pose proof (received_bounded c q Hok) as Hlen.
  destruct (stopping_listener q (ok_consistent _ Hok) Hs Hr0) as (l & Hl & Hli & Hio & Hr & Ht & Hn).
  unfold read_end_spec. assert (c = Aborted ∨ c ≠ Aborted) as [->|Hc] by (destruct c; auto).
  { destruct (completion_stopping q Hok Hs Hr0) as (q' & E & Hq & Hc & Hs').
    exists q', (Ok tt). split; [done|]. split; [by apply same_queue_gets|]. split.
    { left. split; [done|]. by eapply same_queue_ok. }
    split; [done|congruence]. }
  assert (asio_socket_ l = true) as Hso.
  { destruct (asio_socket_ l) eqn:E; [done|]. by destruct Hc; apply (Hposs l Hl). }
  assert (∀ q', mgr_state_ q = STOPPING → (c = Aborted ∨ ∀ n, close_ok n = true) →
            mgr_state_ q' = target_stop_state_ q) as Hnever.
  { intros q' _ [?|Hclose]; [done|]. destruct (Hn Hso) as [n Hno]. by rewrite Hclose in Hno. }
  destruct c as [[n|]| |]; [| |done|].
  - destruct (completion_left_open q l n Hok Hs Hr0 Hl Hso) as (q' & E & Hq & Hc').
    exists q', (Ok tt). split; [done|]. split; [done|]. split.
    { left. split; [done|]. by eapply queue_gets_ok. }
    split; [apply Hnever|congruence].
  - destruct (invalid_left_open q l Hok Hs Hr0 Hl Hso) as (q' & r & E & Hq & Hc').
    exists q', r. split; [done|]. split; [by apply same_queue_gets|]. split.
    { destruct Hc' as [[-> Hc']| ->]; [left|by right].
      split; [done|]. by eapply same_queue_ok. }
    split; [apply Hnever|congruence].
  - destruct (completion_stops q l RECV_ERROR None STOPPED_RECV_ERROR)
      as (q' & E & Hq & Hc' & Hs'); [done..|].
    exists q', (Ok tt). rewrite (run_completion Failed q l Hl) by done.
    split; [done|]. split; [by apply same_queue_gets|]. split.
    { left. split; [done|]. by eapply same_queue_ok. }
    split; [apply Hnever|congruence].
Qed.

Lemma receiveCompletionHandler_run c q :
  queue_ok q → possible c q →
  ∃ q' r, receiveCompletionHandler c q = (q', r) ∧ read_end_spec c q q' r.
Proof.
  intros Hok Hposs. destruct (reading_states q (ok_consistent _ Hok) (proj1 Hposs)) as [Hs|Hs].
  - by apply completion_running.
  - by apply completion_while_stopping.
Qed.

(** The manager stopped from above, and started again. *)
Lemma stopListening_ok q :
  queue_ok q → mgr_state_ q = RUNNING →
  ∃ q', stopListening STOPPED q = (q', Ok tt) ∧ same_queue q q' ∧ queue_ok q' ∧
    mgr_state_ q' = STOPPING ∧ target_stop_state_ q' = STOPPED.
Proof.
  intros Hok Hs. destruct (running_listener q (ok_consistent _ Hok) Hs) as (l & Hl & Hli & Hio & Hso & Hr).
  destruct (run_stopListening q l STOPPED Hl eq_refl) as (q' & b & E & Hq & Hr' & Ht & Hs' & Hl' & Hb).
  rewrite Hio in Hs'. exists q'. split; [done|]. split; [done|]. split; [|done].
  eapply same_queue_ok; [done..|]. unfold consistent. rewrite Hs', Hl'. cbn.
  rewrite Hr', Hr, Ht, Hio. split; [done|]. split; [done|]. destruct b; [|done].
  destruct (Hb eq_refl) as [_ Hn]. auto.
Qed.

Definition stopped (st : State) : bool :=
  match st with RUNNING | STOPPING => false | _ => true end.

Lemma stopped_listener q l :
  consistent q → stopped (mgr_state_ q) = true → listener_ q = Some l →
  listening_ l = false ∧ reads_ q = 0%nat.
Proof.
  unfold consistent. intros Hc Hs Hl. rewrite Hl in Hc. by destruct (mgr_state_ q).
Qed.

Lemma stopped_reads q : consistent q → stopped (mgr_state_ q) = true → reads_ q = 0%nat.
Proof.
  unfold consistent. intros Hc Hs. destruct (mgr_state_ q), (listener_ q); try done; by destruct Hc.
Qed.

Lemma startListening_ok q l :
  queue_ok q → stopped (mgr_state_ q) = true → listener_ q = Some l →
  ∃ q' r, startListening q = (q', r) ∧ same_queue q q' ∧ queue_ok q' ∧
    (r = Ok tt ∧ mgr_state_ q' = RUNNING ∨
     r = Throw D2QueueMgrError ∧ mgr_state_ q' = mgr_state_ q).
Proof.
  intros Hok Hs Hl. pose proof (ok_consistent _ Hok) as Hc.
  destruct (stopped_listener q l Hc Hs Hl) as [Hli Hr].
  destruct (run_startListening q l Hl Hli Hr ltac:(intros E; by rewrite E in Hs))
    as (q' & l' & r & E & Hq & Ht & Hl' & Hcase).
  exists q', r. split; [done|]. split; [done|].
  split; [eapply same_queue_ok; [done..|]|naive_solver].
  unfold consistent in *. rewrite Hl'. rewrite Hl in Hc.
  destruct Hcase as [(_ & -> & Hcase)|(_ & -> & Hcase)]; [naive_solver|].
  by destruct (mgr_state_ q).
Qed.

Lemma removeListener_ok q :
  queue_ok q → stopped (mgr_state_ q) = true →
  ∃ q', removeListener q = (q', Ok tt) ∧ same_queue q q' ∧ queue_ok q' ∧
    mgr_state_ q' = NOT_INITTED ∧ listener_ q' = None.
Proof.
  intros Hok Hs. pose proof (ok_consistent _ Hok) as Hc. pose proof (stopped_reads q Hc Hs) as Hr.
  destruct (listener_ q) as [l|] eqn:Hl.
  - destruct (run_removeListener q l Hl ltac:(intros E; by rewrite E in Hs) Hr)
      as (q' & E & Hq & Hs' & Hl' & Hr').
    exists q'. split; [done|]. split; [done|]. split; [|done].
    eapply same_queue_ok; [done..|]. unfold consistent. by rewrite Hs', Hl'.
  - exists (with_state NOT_INITTED (target_stop_state_ q) (with_listener None q)).
    unfold removeListener, set_mgr_state. run_q.
    rewrite bool_decide_eq_false_2 by (intros E; by rewrite E in Hs).
    rewrite Hl, bool_decide_eq_true_2 by done. split; [done|].
    assert (same_queue q (with_state NOT_INITTED (target_stop_state_ q) (with_listener None q)))
      as Hq by done.
    split; [done|]. split; [by eapply same_queue_ok|done].
Qed.

Lemma initUDPListener_ok q ip port :
  queue_ok q → mgr_state_ q = NOT_INITTED →
  ∃ q' l, initUDPListener ip port q = (q', Ok tt) ∧ same_queue q q' ∧ queue_ok q' ∧
    mgr_state_ q' = INITTED ∧ listener_ q' = Some l ∧
    listen_address_ l = ip ∧ listen_port_ l = port.
Proof.
  intros Hok Hs. pose proof (ok_consistent _ Hok) as Hc. unfold consistent in Hc. rewrite Hs in Hc.
  destruct (listener_ q) as [l|] eqn:Hl; [done|].
  unfold initUDPListener, set_mgr_state. run_q. rewrite Hl. run_q. do 2 eexists.
  split; [reflexivity|]. split; [done|].
  split; [eapply same_queue_ok; [done|done|]; unfold consistent; cbn; by rewrite Hc|].
  done.
Qed.

(** C39: whatever ends a read of the listener (the read of a socket that was closed ends as
    cancelled, [possible]), and whatever calls to the operating system fail, the request queue stays within its limit and the manager, the listener and the
    operating system stay in agreement: there is one read when the manager runs and none
    when it has stopped.  A valid request goes to the end of the queue; when the queue is
    full a running listener is stopped instead.  A manager that was stopping has reached
    the state it was stopped for once its read is cancelled, which is how the read ends
    when sockets can always be closed; a read that ends in another way, at a socket that
    could not be closed, may leave it stopping.  Only an invalid datagram after which the
    next read is refused lets an exception out. *)
Theorem receiveCompletionHandler_spec c q :
  queue_ok q → possible c q →
  ∃ q' r, receiveCompletionHandler c q = (q', r) ∧ queue_gets (received c q) q q' ∧
    (r = Ok tt ∧ queue_ok q' ∨ c = Datagram None ∧ r = Throw NcrUDPError) ∧
    (mgr_state_ q = STOPPING → (c = Aborted ∨ ∀ n, close_ok n = true) →
     mgr_state_ q' = target_stop_state_ q) ∧
    (mgr_state_ q = RUNNING → (∃ n, c = Datagram (Some n)) →
     (max_queue_size_ q ≤ length (ncr_queue_ q))%nat → mgr_state_ q' = STOPPED_QUEUE_FULL).
Proof. exact (receiveCompletionHandler_run c q). Qed.
End Facts.

(** ** The theorem on a small queue *)

Section Sample.
(** An operating system that refuses no call. *)
#[local] Instance willing : SocketEnv :=
  {| open_ok := λ _, true; close_ok := λ _, true; receive_ok := λ _, true |}.

Definition small_request : NameChangeRequest :=
  {| change_type_ := CHG_ADD; forward_change_ := true; reverse_change_ := false;
     fqdn_ := "host.example.com."; ip_io_address_ := V4 0xC000020A; dhcid_ := [1];
     lease_expires_on_ := 0; lease_length_ := 0; status_ := ST_NEW |}.

(** A manager with room for one request, which is taken. *)
Definition full_queue : D2QueueMgr :=
  {| max_queue_size_ := 1; ncr_queue_ := [small_request];
     listener_ := Some {| listening_ := true; io_pending_ := true; asio_socket_ := true;
                          listen_address_ := V4 0x7F000001; listen_port_ := 53001 |};
     mgr_state_ := RUNNING; target_stop_state_ := NOT_INITTED; reads_ := 1; os_calls_ := 2;
     enqueued_ := [small_request]; dequeued_ := [] |}.

Lemma full_queue_ok : queue_ok full_queue.
Proof. split; [by repeat split|cbn; lia|cbn; lia|done]. Qed.

Lemma receiveCompletionHandler_spec_witness :
  queue_ok full_queue ∧
  ∃ q' r, receiveCompletionHandler (Datagram (Some small_request)) full_queue = (q', r) ∧
    mgr_state_ q' = STOPPED_QUEUE_FULL.
Proof.
  split; [exact full_queue_ok|].
  destruct (receiveCompletionHandler_spec (H := willing) (Datagram (Some small_request)) full_queue
              full_queue_ok) as (q' & r & E & _ & _ & _ & Hfull).
  { split; [cbn; lia|]. intros l [= <-]. discriminate. }
  exists q', r. split; [exact E|]. apply Hfull; [reflexivity|by exists small_request|cbn; lia].
Defined.
End Sample.
