(* ===== verification/D2UpdateMgr.v ===== *)
(** * The update manager of the DHCP-DDNS server ([src/bin/d2/d2_update_mgr.cc])

    The manager takes requests from the queue and carries each out with a transaction.
    The transactions are kept by the identifier of the client (the DHCID), so that a
    client has at most one; a request of a client with a transaction waits in the queue.

    A transaction is the state model of [NcTrans] with the handlers of [NcAdd] or
    [NcRemove].  [handlers] is the fuel a transaction runs its handlers with between two
    events: [NcRefine] shows that it runs at most so many. *)

From S2P Require Import Prelude IoAddress D2Cfg StateModel NcTrans.
From S2P Require Import NcAdd NcRemove D2QueueMgr.
Local Open Scope Z_scope.
#[local] Set Default Proof Using "All".

Inductive NameChangeTransaction :=
  | NameAddTransaction (s : StateModel AddHandler Transaction)
  | NameRemoveTransaction (s : StateModel RemoveHandler Transaction).

Abbreviation TransactionKey := (list Z).

Record D2UpdateMgr := {
  max_transactions_ : nat;
  transaction_list_ : gmap TransactionKey NameChangeTransaction
}.

(** The managers and the configuration the update manager works with. *)
Record Managers := {
  queue_mgr_ : D2QueueMgr;
  update_mgr_ : D2UpdateMgr;
  cfg_mgr_ : D2CfgMgr
}.

Definition with_queue_mgr q (m : Managers) : Managers :=
  {| queue_mgr_ := q; update_mgr_ := update_mgr_ m; cfg_mgr_ := cfg_mgr_ m |}.
Definition with_update_mgr u (m : Managers) : Managers :=
  {| queue_mgr_ := queue_mgr_ m; update_mgr_ := u; cfg_mgr_ := cfg_mgr_ m |}.
Definition with_cfg_mgr c (m : Managers) : Managers :=
  {| queue_mgr_ := queue_mgr_ m; update_mgr_ := update_mgr_ m; cfg_mgr_ := c |}.
Definition with_transactions l (u : D2UpdateMgr) : D2UpdateMgr :=
  {| max_transactions_ := max_transactions_ u; transaction_list_ := l |}.

Definition in_queue {A} (m : ST D2QueueMgr A) : ST Managers A := zoom queue_mgr_ with_queue_mgr m.

Definition MAX_TRANSACTIONS_DEFAULT : nat := 32.

(** What the transactions have in common. *)
Definition transaction_members (t : NameChangeTransaction) : Transaction :=
  match t with NameAddTransaction s => derived s | NameRemoveTransaction s => derived s end.
Definition transaction_done (t : NameChangeTransaction) : bool :=
  match t with NameAddTransaction s => isModelDone s | NameRemoveTransaction s => isModelDone s end.

Definition handlers : nat := 4.

Section Ops.
Context `{IEquals} `{DnsEnv}.

Definition start_transaction (t : NameChangeTransaction) : NameChangeTransaction * res unit :=
  match t with
  | NameAddTransaction s =>
      let (s, r) := startTransaction (H := AddHandler) handlers s in (NameAddTransaction s, r)
  | NameRemoveTransaction s =>
      let (s, r) := startTransaction (H := RemoveHandler) handlers s in (NameRemoveTransaction s, r)
  end.

(** The callback of the DNS client. *)
Definition transaction_io_completed (status : DnsStatus) (response : option Rcode)
    (t : NameChangeTransaction) : NameChangeTransaction * res unit :=
  match t with
  | NameAddTransaction s =>
      let (s, r) := io_completed (H := AddHandler) handlers status response s in
      (NameAddTransaction s, r)
  | NameRemoveTransaction s =>
      let (s, r) := io_completed (H := RemoveHandler) handlers status response s in
      (NameRemoveTransaction s, r)
  end.

Definition getQueueCount : ST Managers nat := in_queue getQueueSize.
Definition getTransactionCount : ST Managers nat :=
  m ← get; mret (size (transaction_list_ (update_mgr_ m))).

Definition update_list (f : gmap TransactionKey NameChangeTransaction → gmap TransactionKey NameChangeTransaction) :
    ST Managers unit :=
  modify (λ m, with_update_mgr
    (with_transactions (f (transaction_list_ (update_mgr_ m))) (update_mgr_ m)) m).

Definition findTransaction (key : TransactionKey) : ST Managers (option NameChangeTransaction) :=
  m ← get; mret (transaction_list_ (update_mgr_ m) !! key).
Definition hasTransaction (key : TransactionKey) : ST Managers bool :=
  t ← findTransaction key; mret (bool_decide (is_Some t)).
Definition removeTransaction (key : TransactionKey) : ST Managers unit := update_list (delete key).
Definition clearTransactionList : ST Managers unit := update_list (λ _, ∅).

Definition setMaxTransactions (new_trans_max : nat) : ST Managers unit :=
  m ← get;
  if (new_trans_max <? 1)%nat then throw D2UpdateMgrError
  else if (new_trans_max <? size (transaction_list_ (update_mgr_ m)))%nat then throw D2UpdateMgrError
  else put (with_update_mgr {| max_transactions_ := new_trans_max;
                               transaction_list_ := transaction_list_ (update_mgr_ m) |} m).

(** Finished transactions are removed, whatever their outcome. *)
Definition checkFinishedTransactions : ST Managers unit :=
  update_list (filter (λ p, transaction_done p.2 = false)).

(** The constructors of the transactions. *)
Definition new_transaction (ncr : NameChangeRequest) (forward_domain reverse_domain : option DdnsDomain) :
    res NameChangeTransaction :=
  match change_type_ ncr with
  | CHG_ADD =>
      t ← mkNameAddTransaction ncr forward_domain reverse_domain;
      mret (NameAddTransaction (new_model t))
  | CHG_REMOVE =>
      t ← mkNameRemoveTransaction ncr forward_domain reverse_domain;
      mret (NameRemoveTransaction (new_model t))
  end.

(** [startTransaction] on the transaction of the list. *)
Definition start_in_list (key : TransactionKey) : ST Managers unit :=
  t ← findTransaction key;
  match t with
  | None => throw AssertionFailure
  | Some t =>
      let (t', r) := start_transaction t in
      _ ← update_list (insert key t');
      lift r
  end.

(** The match of a request in one direction: [None] when it is dropped, and else the
    request, the domain and whether there is something to do in this direction. *)
Definition match_direction (wanted enabled : bool) (ignore : NameChangeRequest → NameChangeRequest)
    (matched : res (option DdnsDomain)) (next_ncr : NameChangeRequest) :
    res (option (NameChangeRequest * option DdnsDomain * nat)) :=
  if wanted then
    if negb enabled then mret (Some (ignore next_ncr, None, 0%nat))
    else
      domain ← matched;
      mret (match domain with Some d => Some (next_ncr, Some d, 1%nat) | None => None end)
  else mret (Some (next_ncr, None, 0%nat)).

Definition match_forward (next_ncr : NameChangeRequest) (cfg : D2CfgMgr) :=
  match_direction (forward_change_ next_ncr) (forwardUpdatesEnabled cfg) (setForwardChange false)
    (matchForward (fqdn_ next_ncr) cfg) next_ncr.
Definition match_reverse (next_ncr : NameChangeRequest) (cfg : D2CfgMgr) :=
  match_direction (reverse_change_ next_ncr) (reverseUpdatesEnabled cfg) (setReverseChange false)
    (matchReverse (ip_io_address_ next_ncr) cfg) next_ncr.

Definition makeTransaction (next_ncr : NameChangeRequest) : ST Managers unit :=
  let key := dhcid_ next_ncr in
  found ← findTransaction key;
  if bool_decide (is_Some found) then throw D2UpdateMgrError
  else
    m ← get;
    forward ← lift (match_forward next_ncr (cfg_mgr_ m));
    match forward with
    | None => mret tt
    | Some (next_ncr, forward_domain, n) =>
        reverse ← lift (match_reverse next_ncr (cfg_mgr_ m));
        match reverse with
        | None => mret tt
        | Some (next_ncr, reverse_domain, n') =>
            if (n + n' =? 0)%nat then mret tt
            else
              trans ← lift (new_transaction next_ncr forward_domain reverse_domain);
              _ ← update_list (insert key trans);
              start_in_list key
        end
    end.

(** The loop of [pickNextJob], [count] indices from [index] on. *)
Fixpoint pick_job_loop (count index : nat) : ST Managers unit :=
  match count with
  | O => mret tt
  | S count =>
      found_ncr ← in_queue (peekAt index);
      busy ← hasTransaction (dhcid_ found_ncr);
      if negb busy then
        _ ← in_queue (dequeueAt index);
        makeTransaction found_ncr
      else pick_job_loop count (S index)
  end.

Definition pickNextJob : ST Managers unit :=
  queue_count ← getQueueCount;
  pick_job_loop queue_count 0.

Definition sweep : ST Managers unit :=
  _ ← checkFinishedTransactions;
  queue_count ← getQueueCount;
  if (0 <? queue_count)%nat then
    count ← getTransactionCount;
    m ← get;
    if (max_transactions_ (update_mgr_ m) <=? count)%nat then mret tt
    else pickNextJob
  else mret tt.

(** The end of an exchange of a transaction, as the DNS client reports it. *)
Definition exchange_done (key : TransactionKey) (status : DnsStatus) (response : option Rcode) :
    ST Managers unit :=
  t ← findTransaction key;
  match t with
  | None => throw AssertionFailure
  | Some t =>
      let (t', r) := transaction_io_completed status response t in
      _ ← update_list (insert key t');
      lift r
  end.
End Ops.
