(* ===== verification/D2Process.v ===== *)
(** * The DHCP-DDNS server process ([src/bin/d2/d2_process.cc])

    The main loop: watch the queue manager, let the update manager sweep, and wait for
    something to happen, until the process may shut down.

    What can happen is an [Event]: a read of the listener ends, the exchange of a
    transaction ends, or a command arrives.  [run] takes the events in batches, one for
    each time the loop waits; the answers to commands, the log and the parsing of the
    configuration are left out: a configuration arrives as its result, if it is valid. *)

From S2P Require Import Prelude IoAddress D2Cfg StateModel NcTrans.
From S2P Require Import NcAdd NcRemove D2QueueMgr D2UpdateMgr.
Local Open Scope Z_scope.
#[local] Set Default Proof Using "All".

Inductive ShutdownType := SD_NORMAL | SD_DRAIN_FIRST | SD_NOW.

#[export] Instance ShutdownType_eq_dec : EqDecision ShutdownType.
Proof. solve_decision. Defined.

(** The parameters of the listener. *)
Record D2Params := { params_ip_address_ : IOAddress; params_port_ : Z }.

Record D2Process := {
  managers_ : Managers;
  d2_params_ : D2Params;
  reconf_queue_flag_ : bool;
  shut_down_flag_ : bool;
  shutdown_type_ : ShutdownType
}.

Definition with_managers m (p : D2Process) : D2Process :=
  {| managers_ := m; d2_params_ := d2_params_ p; reconf_queue_flag_ := reconf_queue_flag_ p;
     shut_down_flag_ := shut_down_flag_ p; shutdown_type_ := shutdown_type_ p |}.
Definition with_params d (p : D2Process) : D2Process :=
  {| managers_ := managers_ p; d2_params_ := d; reconf_queue_flag_ := reconf_queue_flag_ p;
     shut_down_flag_ := shut_down_flag_ p; shutdown_type_ := shutdown_type_ p |}.
Definition with_reconf b (p : D2Process) : D2Process :=
  {| managers_ := managers_ p; d2_params_ := d2_params_ p; reconf_queue_flag_ := b;
     shut_down_flag_ := shut_down_flag_ p; shutdown_type_ := shutdown_type_ p |}.
Definition with_shutdown b type (p : D2Process) : D2Process :=
  {| managers_ := managers_ p; d2_params_ := d2_params_ p; reconf_queue_flag_ := reconf_queue_flag_ p;
     shut_down_flag_ := b; shutdown_type_ := type |}.

Definition process_queue (p : D2Process) : D2QueueMgr := queue_mgr_ (managers_ p).
Definition process_updates (p : D2Process) : D2UpdateMgr := update_mgr_ (managers_ p).

Definition in_managers {A} (m : ST Managers A) : ST D2Process A := zoom managers_ with_managers m.
Definition queue_call {A} (m : ST D2QueueMgr A) : ST D2Process A := in_managers (in_queue m).

Definition QUEUE_RESTART_PERCENT : nat := 80.

(** The constructor. *)
Definition mkD2Process : res D2Process :=
  q ← mkD2QueueMgr MAX_QUEUE_DEFAULT;
  mret {| managers_ := {| queue_mgr_ := q;
                          update_mgr_ := {| max_transactions_ := MAX_TRANSACTIONS_DEFAULT;
                                            transaction_list_ := ∅ |};
                          cfg_mgr_ := {| forward_mgr_ := new_domain_list;
                                         reverse_mgr_ := new_domain_list |} |};
          d2_params_ := {| params_ip_address_ := V4 0x7F000001; params_port_ := 53001 |};
          reconf_queue_flag_ := false; shut_down_flag_ := false; shutdown_type_ := SD_NORMAL |}.

Definition shouldShutdown (p : D2Process) : bool := shut_down_flag_ p.

(** The listener is neither running nor waiting for its last read. *)
Definition queue_stopped (p : D2Process) : bool :=
  negb (bool_decide (mgr_state_ (process_queue p) = RUNNING)) &&
  negb (bool_decide (mgr_state_ (process_queue p) = STOPPING)).
Definition transaction_count (p : D2Process) : nat := size (transaction_list_ (process_updates p)).

Definition canShutdown (p : D2Process) : bool :=
  if shouldShutdown p then
    match shutdown_type_ p with
    | SD_NORMAL => queue_stopped p && (transaction_count p =? 0)%nat
    | SD_DRAIN_FIRST =>
        queue_stopped p && (length (ncr_queue_ (process_queue p)) =? 0)%nat
        && (transaction_count p =? 0)%nat
    | SD_NOW => true
    end
  else false.

Definition getShutdownTypeStr (type : ShutdownType) : string :=
  match type with SD_NORMAL => "normal" | SD_DRAIN_FIRST => "drain_first" | SD_NOW => "now" end.

(** The command; [type] is the argument of this name, if there is one. *)
Definition shutdown (type : option string) : ST D2Process unit :=
  p ← get;
  match type with
  | None => put (with_shutdown true SD_NORMAL p)
  | Some text =>
      if bool_decide (text = getShutdownTypeStr SD_NORMAL) then put (with_shutdown true SD_NORMAL p)
      else if bool_decide (text = getShutdownTypeStr SD_DRAIN_FIRST)
           then put (with_shutdown true SD_DRAIN_FIRST p)
      else if bool_decide (text = getShutdownTypeStr SD_NOW) then put (with_shutdown true SD_NOW p)
      else put (with_shutdown false SD_NORMAL p)
  end.

(** A new configuration, [None] when it was not accepted. *)
Definition configure (parsed : option (D2CfgMgr * D2Params)) (check_only : bool) : ST D2Process unit :=
  if check_only then mret tt
  else
    match parsed with
    | None => modify (with_reconf false)
    | Some (cfg, params) =>
        modify (λ p, with_reconf true
                       (with_params params (with_managers (with_cfg_mgr cfg (managers_ p)) p)))
    end.

Section Ops.
Context `{IEquals} `{DnsEnv} `{SocketEnv}.

Definition reconfigureQueueMgr : ST D2Process unit :=
  _ ← modify (with_reconf false);
  try_catch
    (_ ← queue_call removeListener;
     p ← get;
     _ ← queue_call (initUDPListener (params_ip_address_ (d2_params_ p)) (params_port_ (d2_params_ p)));
     queue_call startListening)
    (mret tt).

Definition checkQueueStatus : ST D2Process unit :=
  p ← get;
  match mgr_state_ (process_queue p) with
  | RUNNING =>
      if reconf_queue_flag_ p || shouldShutdown p
      then try_catch (queue_call (stopListening STOPPED)) (mret tt)
      else mret tt
  | STOPPED_QUEUE_FULL =>
      let threshold := (max_queue_size_ (process_queue p) * QUEUE_RESTART_PERCENT / 100)%nat in
      if (length (ncr_queue_ (process_queue p)) <=? threshold)%nat
      then try_catch (queue_call startListening) (mret tt)
      else mret tt
  | STOPPED_RECV_ERROR => if negb (shouldShutdown p) then reconfigureQueueMgr else mret tt
  | STOPPING => mret tt
  | _ => if reconf_queue_flag_ p then reconfigureQueueMgr else mret tt
  end.

(** ** Events *)

Inductive Event :=
  | ReadEnded (c : Completion)
  | ExchangeEnded (key : TransactionKey) (status : DnsStatus) (response : option Rcode)
  | ShutdownCommand (type : option string)
  | ConfigureCommand (parsed : option (D2CfgMgr * D2Params)) (check_only : bool).

Definition handle (e : Event) : ST D2Process unit :=
  match e with
  | ReadEnded c => queue_call (receiveCompletionHandler c)
  | ExchangeEnded key status response => in_managers (exchange_done key status response)
  | ShutdownCommand type => shutdown type
  | ConfigureCommand parsed check_only => configure parsed check_only
  end.

(** The part of an iteration of the loop before it waits. *)
Definition look_after : ST D2Process unit := _ ← checkQueueStatus; in_managers sweep.

Fixpoint handle_all (events : list Event) : ST D2Process unit :=
  match events with
  | [] => mret tt
  | e :: events => _ ← handle e; handle_all events
  end.

(** [runIO], which runs no handler only when the service has been stopped. *)
Definition runIO (events : list Event) : ST D2Process nat :=
  _ ← handle_all events; mret (length events).

(** The main loop, for as long as there are batches of events. *)
Fixpoint run (batches : list (list Event)) : ST D2Process unit :=
  match batches with
  | [] => mret tt
  | events :: batches =>
      p ← get;
      if canShutdown p then mret tt
      else
        _ ← try_catch
              (_ ← look_after;
               cnt ← runIO events;
               if (cnt =? 0)%nat then throw DProcessBaseError else mret tt)
              (throw DProcessBaseError);
        run batches
  end.
End Ops.
