(* ===== verification/D2Correct.v ===== *)
(** * What the DHCP-DDNS server promises

    The invariant of the server, for every order in which its events can come; what a
    sweep of the update manager does; that no event and no iteration of the main loop
    fails; and that the requests of a client are carried out in the order in which they
    were received, one at a time.  No call to the operating system is assumed to succeed;
    the last section shows what a socket that cannot be closed does to the server. *)

From S2P Require Import Prelude IoAddress D2Cfg StateModel NcTrans.
From S2P Require Import NcAdd NcRemove NcSpec NcRefine NcProtocols NcCorrect.
From S2P Require Import D2QueueMgr D2UpdateMgr D2Process.
Local Open Scope Z_scope.
#[local] Set Default Proof Using "All".
#[local] Arguments Nat.ltb : simpl never.
#[local] Arguments Nat.leb : simpl never.

(** ** A transaction of the list *)

Section Carried.
Context {H : Type} `{Protocol H}.
Implicit Types (s : StateModel H Transaction) (t : Transaction).

(** It is somewhere in its protocol, with a request of the client it is listed for. *)
Definition carried (key : TransactionKey) s : Prop :=
  ∃ t0 p, holds t0 p s ∧ sound t0 p ∧ dhcid_ (ncr_ t0) = key.

Lemma carried_start t :
  fresh t →
  ∃ s, startTransaction handlers (new_model t) = (s, Ok tt) ∧ carried (dhcid_ (ncr_ t)) s.
Proof.
  intros Hf. destruct (refines_start (pending t) 0 t eq_refl) as (s & E & Hs);
    [apply Hf|apply Hf|apply Hf|].
  exists s. split; [exact E|]. exists (pending t), (started (pending t)). split; [done|].
  split; [|done]. apply sound_started, Hf.
Qed.

Lemma carried_io key s status response a :
  carried key s → isModelDone s = false → reports a status response →
  ∃ s', io_completed handlers status response s = (s', Ok tt) ∧ carried key s'.
Proof.
  intros (t0 & p & Hs & Hp & Hk) Hd Ha. destruct p as [ph i tries fwd|ok fwd rev].
  - destruct (refines_completion t0 0 _ a status response s Hs) as (s' & E & Hs');
      [by repeat eexists|done|].
    exists s'. split; [exact E|]. eexists t0, _. split; [exact Hs'|].
    split; [by apply sound_completed|done].
  - destruct Hs as (Hc & _). unfold isModelDone in Hd. by rewrite Hc in Hd.
Qed.

(** The transactions that are not done wait for the answer to a message. *)
Lemma carried_waits key s :
  carried key s → isModelDone s = false →
  isModelWaiting s = true ∧ is_Some (last (sent (derived s))).
Proof.
  intros (t0 & p & Hs & _) Hd. destruct p as [ph i tries fwd|ok fwd rev].
  - destruct Hs as (_ & Hc & Hn & _ & _ & (srv & m & _ & _ & _ & Hl) & _).
    split; [|by eexists]. unfold isModelWaiting, isModelRunning, isModelDone in *.
    rewrite Hd, Hn, Hc. pose proof (p_phase_state ph).
    rewrite (proj2 (Z.eqb_neq _ _)); [done|]. unfold NCT_DERIVED_STATE_MIN, SM_DERIVED_STATE_MIN, NEW_ST in *. lia.
  - destruct Hs as (Hc & _). unfold isModelDone in Hd. by rewrite Hc in Hd.
Qed.

Lemma carried_finished key s :
  carried key s → isModelDone s = true →
  status_ (ncr_ (derived s)) = ST_COMPLETED ∨ status_ (ncr_ (derived s)) = ST_FAILED.
Proof.
  intros (t0 & p & Hs & _) Hd. destruct p as [ph i tries fwd|ok fwd rev].
  - destruct Hs as (_ & Hc & _). unfold isModelDone in Hd.
    rewrite Hc, (proj2 (Z.eqb_neq _ _)) in Hd by apply (phase_running t0). done.
  - destruct Hs as (_ & _ & -> & _). destruct ok; auto.
Qed.

Lemma carried_key key s : carried key s → dhcid_ (ncr_ (derived s)) = key.
Proof.
  intros (t0 & p & Hs & _ & <-). destruct p as [ph i tries fwd|ok fwd rev].
  - destruct Hs as (_ & _ & _ & _ & ([(-> & _) _ _ _ _ _] & _) & _). done.
  - destruct Hs as (_ & _ & -> & _). done.
Qed.
End Carried.

Section Server.
Context `{IEquals} {dns : DnsEnv} `{SocketEnv}.

Definition transaction_ok (key : TransactionKey) (t : NameChangeTransaction) : Prop :=
  match t with
  | NameAddTransaction s => carried (H := AddHandler) key s
  | NameRemoveTransaction s => carried (H := RemoveHandler) key s
  end.

Lemma mkNameChangeTransaction_Ok ncr f r t :
  mkNameChangeTransaction ncr f r = Ok t → is_Some f ∨ is_Some r → fresh t ∧ ncr_ t = ncr.
Proof. intros Ht Hd. unfold mkNameChangeTransaction in Ht. by res_inv. Qed.

Lemma start_transaction_ok ncr f r t :
  new_transaction ncr f r = Ok t → is_Some f ∨ is_Some r →
  ∃ t', start_transaction t = (t', Ok tt) ∧ transaction_ok (dhcid_ ncr) t'.
Proof.
  intros Hn Hd. unfold new_transaction, mkNameAddTransaction, mkNameRemoveTransaction in Hn.
  destruct (change_type_ ncr).
  - res_inv. destruct (mkNameChangeTransaction_Ok _ _ _ _ Ha0 Hd) as [Hf <-].
    destruct (carried_start (H := AddHandler) a0 Hf) as (s & E & Hs).
    exists (NameAddTransaction s). split; [|exact Hs]. unfold start_transaction. by rewrite E.
  - res_inv. destruct (mkNameChangeTransaction_Ok _ _ _ _ Ha0 Hd) as [Hf <-].
    destruct (carried_start (H := RemoveHandler) a0 Hf) as (s & E & Hs).
    exists (NameRemoveTransaction s). split; [|exact Hs]. unfold start_transaction. by rewrite E.
Qed.

Lemma io_completed_ok key t status response a :
  transaction_ok key t → transaction_done t = false → reports a status response →
  ∃ t', transaction_io_completed status response t = (t', Ok tt) ∧ transaction_ok key t'.
Proof.
  intros Ht Hd Ha. destruct t as [s|s]; cbn in *.
  - destruct (carried_io key s status response a Ht Hd Ha) as (s' & -> & Hs). by eexists.
  - destruct (carried_io key s status response a Ht Hd Ha) as (s' & -> & Hs). by eexists.
Qed.

(** ** The domains of a request *)

(** The domain of one direction: none when there is nothing to do in it, and no answer
    at all when the name belongs to no domain. *)
Definition wanted_domain (wanted : bool) (mgr : DdnsDomainListMgr) (name : string) :
    option (option DdnsDomain) :=
  if wanted && (0 <? mgr_size mgr)%nat
  then match matchDomain name mgr with Some d => Some (Some d) | None => None end
  else Some None.

Definition reverse_name (a : IOAddress) : string := if isV4 a then v4_name a else v6_name a.

(** What is to be done for a request: nothing when a name it needs belongs to no domain,
    or when there is nothing to do in either direction. *)
Definition job (cfg : D2CfgMgr) (n : NameChangeRequest) :
    option (option DdnsDomain * option DdnsDomain) :=
  match wanted_domain (forward_change_ n) (forward_mgr_ cfg) (fqdn_ n),
        wanted_domain (reverse_change_ n) (reverse_mgr_ cfg) (reverse_name (ip_io_address_ n)) with
  | Some None, Some None => None
  | Some f, Some r => Some (f, r)
  | _, _ => None
  end.

(** The request of the transaction: what is not done is no longer asked for. *)
Definition directed (f r : option DdnsDomain) (n : NameChangeRequest) : NameChangeRequest :=
  setReverseChange (bool_decide (is_Some r)) (setForwardChange (bool_decide (is_Some f)) n).

Definition valid_request (n : NameChangeRequest) : Prop := fqdn_ n ≠ "".

Lemma match_direction_spec wanted enabled ignore matched n d :
  (wanted = true → enabled = true → matched = Ok d) →
  match_direction wanted enabled ignore matched n
  = Ok (if wanted && enabled
        then match d with Some d => Some (n, Some d, 1%nat) | None => None end
        else Some (if wanted then ignore n else n, None, 0%nat)).
Proof.
  intros Hm. unfold match_direction. destruct wanted; [|done]. destruct enabled; [|done]. simpl.
  rewrite (Hm eq_refl eq_refl). by destruct d.
Qed.

Lemma setForwardChange_same n b : forward_change_ n = b → setForwardChange b n = n.
Proof. intros <-. by destruct n. Qed.
Lemma setReverseChange_same n b : reverse_change_ n = b → setReverseChange b n = n.
Proof. intros <-. by destruct n. Qed.

Lemma run_match_forward cfg n :
  valid_request n →
  match_forward n cfg
  = Ok (match wanted_domain (forward_change_ n) (forward_mgr_ cfg) (fqdn_ n) with
        | None => None
        | Some f => Some (setForwardChange (bool_decide (is_Some f)) n, f,
                          if bool_decide (is_Some f) then 1%nat else 0%nat)
        end).
Proof.
  intros Hn. unfold match_forward.
  rewrite (match_direction_spec _ _ _ _ _ (matchDomain (fqdn_ n) (forward_mgr_ cfg))).
  2: { intros _ _. unfold matchForward. by rewrite bool_decide_eq_false_2. }
  unfold wanted_domain, forwardUpdatesEnabled. f_equal.
  destruct (forward_change_ n) eqn:Ef; simpl.
  - destruct (0 <? _)%nat; [|done]. destruct (matchDomain _ _) as [d|]; [|done].
    rewrite bool_decide_eq_true_2 by eauto. by rewrite setForwardChange_same.
  - by rewrite setForwardChange_same.
Qed.

Lemma run_match_reverse cfg n :
  match_reverse n cfg
  = Ok (match wanted_domain (reverse_change_ n) (reverse_mgr_ cfg) (reverse_name (ip_io_address_ n)) with
        | None => None
        | Some r => Some (setReverseChange (bool_decide (is_Some r)) n, r,
                          if bool_decide (is_Some r) then 1%nat else 0%nat)
        end).
Proof.
  unfold match_reverse.
  rewrite (match_direction_spec _ _ _ _ _
             (matchDomain (reverse_name (ip_io_address_ n)) (reverse_mgr_ cfg))).
  2: { intros _ _. unfold matchReverse. by rewrite reverseIpAddress_name. }
  unfold wanted_domain, reverseUpdatesEnabled. f_equal.
  destruct (reverse_change_ n) eqn:Er; simpl.
  - destruct (0 <? _)%nat; [|done]. destruct (matchDomain _ _) as [d|]; [|done].
    rewrite bool_decide_eq_true_2 by eauto. by rewrite setReverseChange_same.
  - by rewrite setReverseChange_same.
Qed.

Lemma new_transaction_directed f r n :
  ∃ t, new_transaction (directed f r n) f r = Ok t.
Proof.
  unfold new_transaction, mkNameAddTransaction, mkNameRemoveTransaction, mkNameChangeTransaction.
  unfold directed. destruct n as [ty fc rc fq ip dh le ll st]. cbn.
  destruct f, r, ty; cbn; by eexists.
Qed.

(** ** Starting a transaction *)

Definition transactions (m : Managers) : gmap TransactionKey NameChangeTransaction :=
  transaction_list_ (update_mgr_ m).
Definition with_list l (m : Managers) : Managers :=
  with_update_mgr (with_transactions l (update_mgr_ m)) m.

(** The transaction of a request that is to be carried out, once it is started. *)
Definition started_for (n : NameChangeRequest) (f r : option DdnsDomain) (t : NameChangeTransaction) :
    Prop :=
  ∃ t0, new_transaction (directed f r n) f r = Ok t0 ∧ start_transaction t0 = (t, Ok tt) ∧
        transaction_ok (dhcid_ n) t.

(** What becomes of the transactions. *)
Definition taken_up (cfg : D2CfgMgr) (n : NameChangeRequest)
    (l l' : gmap TransactionKey NameChangeTransaction) : Prop :=
  match job cfg n with
  | None => l' = l
  | Some (f, r) => ∃ t, started_for n f r t ∧ l' = <[dhcid_ n := t]> l
  end.

Ltac run_m :=
  unfold hasTransaction, findTransaction, update_list in *;
  unfold mbind, ST_bind, mret, ST_ret, get, put, modify, throw, lift in *; cbn in *.

Lemma job_started n f r :
  is_Some f ∨ is_Some r → ∃ t, started_for n f r t.
Proof.
  intros Hd. destruct (new_transaction_directed f r n) as (t0 & E).
  destruct (start_transaction_ok _ _ _ _ E Hd) as (t & E' & Ht).
  exists t, t0. split; [done|]. split; [done|]. by destruct n.
Qed.

Lemma start_in_list_run key t t' m :
  transactions m !! key = Some t → start_transaction t = (t', Ok tt) →
  start_in_list key m = (with_list (<[key := t']> (transactions m)) m, Ok tt).
Proof.
  intros Ht E. unfold start_in_list. run_m. unfold transactions in *.
  rewrite Ht. by rewrite E.
Qed.

Lemma run_makeTransaction n m :
  valid_request n → transactions m !! dhcid_ n = None →
  ∃ l', makeTransaction n m = (with_list l' m, Ok tt) ∧ taken_up (cfg_mgr_ m) n (transactions m) l'.
Proof.
  intros Hn Hfree. destruct m as [q u cfg]. unfold transactions in *. simpl in *.
  assert (with_list (transaction_list_ u) {| queue_mgr_ := q; update_mgr_ := u; cfg_mgr_ := cfg |}
          = {| queue_mgr_ := q; update_mgr_ := u; cfg_mgr_ := cfg |}) as Hsame by (by destruct u).
  unfold makeTransaction, taken_up, job. run_m. rewrite Hfree, bool_decide_eq_false_2 by (by intros []).
  rewrite run_match_forward by done.
  destruct (wanted_domain (forward_change_ n) _ _) as [f|] eqn:Ef; [|by exists (transaction_list_ u); rewrite Hsame].
  rewrite run_match_reverse.
  change (reverse_change_ (setForwardChange _ n)) with (reverse_change_ n).
  change (ip_io_address_ (setForwardChange _ n)) with (ip_io_address_ n).
  destruct (wanted_domain (reverse_change_ n) _ _) as [r|] eqn:Er.
  2: { exists (transaction_list_ u). rewrite Hsame. split; [done|]. by destruct f. }
  change (setReverseChange (bool_decide (is_Some r)) (setForwardChange (bool_decide (is_Some f)) n))
    with (directed f r n).
  destruct (decide (is_Some f ∨ is_Some r)) as [Hd|Hd].
  - assert (((if bool_decide (is_Some f) then 1 else 0) +
             (if bool_decide (is_Some r) then 1 else 0) =? 0)%nat = false) as ->.
    { by destruct Hd as [[? ->]|[? ->]]; [|destruct (bool_decide (is_Some f))]. }
    destruct (new_transaction_directed f r n) as (t0 & E). rewrite E.
    destruct (start_transaction_ok _ _ _ _ E Hd) as (t & E' & Ht).
    rewrite (start_in_list_run _ t0 t); [|by apply lookup_insert_eq|done].
    eexists. split; [reflexivity|].
    destruct f as [d|], r as [d'|]; try (by destruct Hd as [[]|[]]);
      (exists t; split; [exists t0; split; [done|]; split; [done|by destruct n]|]; apply insert_insert_eq).
  - assert (f = None) as -> by (destruct f; [by destruct Hd; left; eexists|done]).
    assert (r = None) as -> by (destruct r; [by destruct Hd; right; eexists|done]).
    exists (transaction_list_ u). by rewrite Hsame.
Qed.

(** ** Picking the next request *)

Definition waiting_requests (m : Managers) : list NameChangeRequest := ncr_queue_ (queue_mgr_ m).
(** A client has a transaction. *)
Definition busy (l : gmap TransactionKey NameChangeTransaction) (n : NameChangeRequest) : Prop :=
  is_Some (l !! dhcid_ n).

(** The managers once a request is taken from the queue. *)
Definition picked n l1 l2 l' (m : Managers) : Managers :=
  with_list l' (with_queue_mgr
    (with_queue (l1 ++ l2) (enqueued_ (queue_mgr_ m)) (dequeued_ (queue_mgr_ m) ++ [n]) (queue_mgr_ m)) m).

(** The first request of a client without a transaction is taken, if there is one. *)
Definition picks (m m' : Managers) : Prop :=
  (Forall (busy (transactions m)) (waiting_requests m) ∧ m' = m) ∨
  ∃ l1 n l2 l', waiting_requests m = l1 ++ n :: l2 ∧ Forall (busy (transactions m)) l1 ∧
    ¬ busy (transactions m) n ∧ taken_up (cfg_mgr_ m) n (transactions m) l' ∧
    m' = picked n l1 l2 l' m.

Lemma run_dequeueAt l1 n l2 m :
  waiting_requests m = l1 ++ n :: l2 →
  in_queue (dequeueAt (length l1)) m
  = (with_queue_mgr (with_queue (l1 ++ l2) (enqueued_ (queue_mgr_ m))
       (dequeued_ (queue_mgr_ m) ++ [n]) (queue_mgr_ m)) m, Ok tt).
Proof.
  unfold waiting_requests. intros Hq. unfold in_queue, zoom, dequeueAt. run_m.
  rewrite Hq, list_lookup_middle by done. cbn. by rewrite delete_middle.
Qed.

Lemma run_peekAt index n m :
  waiting_requests m !! index = Some n → in_queue (peekAt index) m = (m, Ok n).
Proof.
  unfold waiting_requests. intros Hq. unfold in_queue, zoom, peekAt. run_m. rewrite Hq. cbn.
  by destruct m.
Qed.

Lemma run_hasTransaction key m :
  hasTransaction key m = (m, Ok (bool_decide (is_Some (transactions m !! key)))).
Proof. unfold transactions. by run_m. Qed.

Lemma run_pick_job_loop count : ∀ index m,
  (index + count = length (waiting_requests m))%nat → Forall valid_request (waiting_requests m) →
  Forall (busy (transactions m)) (take index (waiting_requests m)) →
  ∃ m', pick_job_loop count index m = (m', Ok tt) ∧ picks m m'.
Proof.
  induction count as [|count IH]; intros index m Hlen Hv Hb.
  - exists m. split; [done|]. left. split; [|done].
    rewrite take_ge in Hb by lia. done.
  - destruct (lookup_lt_is_Some_2 (waiting_requests m) index) as [n Hn]; [lia|].
    cbn [pick_job_loop]. unfold mbind, ST_bind. rewrite (run_peekAt _ _ _ Hn), run_hasTransaction.
    destruct (decide (is_Some (transactions m !! dhcid_ n))) as [Hbusy|Hfree].
    + rewrite bool_decide_eq_true_2 by done. cbn [negb].
      apply IH; [lia|done|]. rewrite (take_S_r _ _ n) by done. apply Forall_app. auto.
    + rewrite bool_decide_eq_false_2 by done. cbn [negb].
      pose proof (take_drop_middle _ _ _ Hn) as Hq. symmetry in Hq.
      pose proof (lookup_lt_Some _ _ _ Hn) as Hlt.
      assert (length (take index (waiting_requests m)) = index) as Hl by (rewrite length_take; lia).
      pose proof (run_dequeueAt _ _ _ _ Hq) as E. rewrite Hl in E. rewrite E.
      set (m1 := with_queue_mgr _ m).
      destruct (run_makeTransaction n m1) as (l' & -> & Ht).
      { by eapply Forall_lookup_1. }
      { by apply eq_None_not_Some. }
      eexists. split; [reflexivity|]. right. do 4 eexists. split; [exact Hq|].
      split; [exact Hb|]. split; [exact Hfree|]. split; [exact Ht|reflexivity].
Qed.

(** ** The sweep *)

Definition unfinished (l : gmap TransactionKey NameChangeTransaction) :
    gmap TransactionKey NameChangeTransaction :=
  filter (λ p, transaction_done p.2 = false) l.
Definition swept (m : Managers) : Managers := with_list (unfinished (transactions m)) m.

(** Whether there is something to take up, and a place for it. *)
Definition may_start (m : Managers) : Prop :=
  waiting_requests m ≠ [] ∧
  (size (unfinished (transactions m)) < max_transactions_ (update_mgr_ m))%nat.

Lemma run_sweep m :
  Forall valid_request (waiting_requests m) →
  ∃ m', sweep m = (m', Ok tt) ∧
    (may_start m ∧ picks (swept m) m' ∨ ¬ may_start m ∧ m' = swept m).
Proof.
  intros Hv. unfold sweep, checkFinishedTransactions.
  unfold mbind at 1, ST_bind at 1, update_list, modify.
  change (with_update_mgr _ m) with (swept m).
  unfold mbind at 1, ST_bind at 1, getQueueCount, in_queue, zoom, getQueueSize.
  unfold mbind at 1, ST_bind at 1, get. cbn [mret ST_ret].
  assert (with_queue_mgr (queue_mgr_ (swept m)) (swept m) = swept m) as -> by (by destruct m).
  change (ncr_queue_ (queue_mgr_ (swept m))) with (waiting_requests m).
  destruct (Nat.ltb_spec 0 (length (waiting_requests m))) as [Hlen|Hlen].
  2: { exists (swept m). split; [done|]. right. split; [|done]. intros [Hne _].
       destruct (waiting_requests m); [done|]. simpl in Hlen. lia. }
  unfold mbind at 1, ST_bind at 1, getTransactionCount.
  unfold mbind at 1, ST_bind at 1, get. cbn [mret ST_ret].
  unfold mbind at 1, ST_bind at 1, get.
  change (transaction_list_ (update_mgr_ (swept m))) with (unfinished (transactions m)).
  change (max_transactions_ (update_mgr_ (swept m))) with (max_transactions_ (update_mgr_ m)).
  destruct (Nat.leb_spec (max_transactions_ (update_mgr_ m)) (size (unfinished (transactions m)))) as [Hfull|Hroom].
  - exists (swept m). split; [done|]. right. split; [|done]. intros [_ ?]. lia.
  - destruct (run_pick_job_loop (length (waiting_requests m)) 0 (swept m)) as (m' & E & Hp);
      [done|done|by rewrite take_0|].
    exists m'. split.
    + unfold pickNextJob, getQueueCount, in_queue, zoom, getQueueSize.
      unfold mbind at 1, ST_bind at 1. unfold mbind at 1, ST_bind at 1, get. cbn [mret ST_ret].
      assert (with_queue_mgr (queue_mgr_ (swept m)) (swept m) = swept m) as -> by (by destruct m).
      exact E.
    + left. split; [|done]. split; [|done]. intros E'. rewrite E' in Hlen. simpl in Hlen. lia.
Qed.

(** ** The invariant *)

Record managers_ok (m : Managers) : Prop := {
  mo_queue : queue_ok (queue_mgr_ m);
  mo_valid : Forall valid_request (waiting_requests m);
  mo_limit : (size (transactions m) ≤ max_transactions_ (update_mgr_ m))%nat;
  mo_max : (1 ≤ max_transactions_ (update_mgr_ m))%nat;
  mo_transactions : map_Forall transaction_ok (transactions m)
}.

Lemma swept_ok m : managers_ok m → managers_ok (swept m).
Proof.
  intros [Hq Hv Hl Hm Ht]. split; try done.
  - etrans; [|exact Hl]. apply map_subseteq_size, map_filter_subseteq.
  - intros key t [Hk _]%map_lookup_filter_Some. by apply Ht.
Qed.

(** The request that is taken is the first of its client. *)
Lemma client_first l l1 n :
  Forall (busy l) l1 → ¬ busy l n → client (dhcid_ n) l1 = [].
Proof.
  intros Hb Hn. apply elem_of_nil_inv. intros n' [Hd Hin]%list_elem_of_filter.
  rewrite Forall_forall in Hb. apply Hn. unfold busy. rewrite <- Hd. by apply Hb.
Qed.

Lemma picks_order m m' : in_order (queue_mgr_ m) → picks m m' → in_order (queue_mgr_ m').
Proof.
  intros Ho [(_ & ->)|(l1 & n & l2 & l' & Hq & Hb & Hn & _ & ->)]; [done|].
  intros d. specialize (Ho d). unfold waiting_requests in Hq. rewrite Hq in Ho.
  change (enqueued_ (queue_mgr_ (picked n l1 l2 l' m))) with (enqueued_ (queue_mgr_ m)).
  change (dequeued_ (queue_mgr_ (picked n l1 l2 l' m))) with (dequeued_ (queue_mgr_ m) ++ [n]).
  change (ncr_queue_ (queue_mgr_ (picked n l1 l2 l' m))) with (l1 ++ l2).
  rewrite Ho. unfold client. rewrite !filter_app, <- app_assoc. f_equal.
  destruct (decide (dhcid_ n = d)) as [<-|Hd].
  - pose proof (client_first _ _ _ Hb Hn) as Hnil. unfold client in Hnil.
    rewrite Hnil, !filter_cons_True by done. done.
  - by rewrite !filter_cons_False by done.
Qed.

Lemma taken_up_ok cfg n l l' :
  taken_up cfg n l l' → map_Forall transaction_ok l →
  map_Forall transaction_ok l' ∧ (size l' ≤ S (size l))%nat.
Proof.
  unfold taken_up. destruct (job cfg n) as [[f r]|]; [|by intros -> ?; auto].
  intros (t & (t0 & _ & _ & Ht) & ->) Hl. split; [by apply map_Forall_insert_2|].
  rewrite map_size_insert. destruct (l !! dhcid_ n); simpl; lia.
Qed.

Lemma picks_ok m m' :
  managers_ok m → (size (transactions m) < max_transactions_ (update_mgr_ m))%nat → picks m m' →
  managers_ok m'.
Proof.
  intros [Hq Hv Hl Hm Ht] Hroom Hp. pose proof (picks_order m m' (ok_order _ Hq) Hp) as Ho.
  destruct Hp as [(_ & ->)|(l1 & n & l2 & l' & Hqu & Hb & Hn & Htk & ->)]; [done|].
  destruct (taken_up_ok _ _ _ _ Htk Ht) as [Ht' Hs'].
  rewrite Hqu in Hv. apply Forall_app in Hv as [Hv1 [_ Hv2]%Forall_cons].
  split; [|by apply Forall_app|cbn; unfold transactions in *; lia|done|done].
  destruct Hq as [Hc Hbd Hmx _]. split; [exact Hc| |exact Hmx|exact Ho].
  unfold waiting_requests in Hqu. rewrite Hqu in Hbd. cbn in *. rewrite length_app in *.
  simpl in Hbd. lia.
Qed.

Lemma sweep_ok m :
  managers_ok m →
  ∃ m', sweep m = (m', Ok tt) ∧ managers_ok m' ∧
    (may_start m ∧ picks (swept m) m' ∨ ¬ may_start m ∧ m' = swept m).
Proof.
  intros Hm. destruct (run_sweep m (mo_valid _ Hm)) as (m' & E & Hcase).
  exists m'. split; [done|]. split; [|done].
  destruct Hcase as [[[_ Hroom] Hp]|[_ ->]]; [|by apply swept_ok].
  eapply picks_ok; [by apply swept_ok|exact Hroom|exact Hp].
Qed.

(** A transaction that is waiting for a server to answer a message. *)
Definition waits (t : NameChangeTransaction) : Prop :=
  match t with
  | NameAddTransaction s => isModelWaiting s = true
  | NameRemoveTransaction s => isModelWaiting s = true
  end ∧ is_Some (last (sent (transaction_members t))).

Lemma unfinished_waits key t m :
  managers_ok m → transactions m !! key = Some t → transaction_done t = false → waits t.
Proof.
  intros Hm Hk Hd. pose proof (mo_transactions _ Hm key t Hk) as Ht.
  destruct t as [s|s]; exact (carried_waits key s Ht Hd).
Qed.

Lemma sweep_progress m :
  managers_ok m → waiting_requests m ≠ [] →
  ∃ m', sweep m = (m', Ok tt) ∧
    ((∃ n, dequeued_ (queue_mgr_ m') = dequeued_ (queue_mgr_ m) ++ [n]) ∨
     ∃ key t, transactions m' !! key = Some t ∧ waits t).
Proof.
  intros Hm Hne. destruct (sweep_ok m Hm) as (m' & E & Hok & Hcase).
  exists m'. split; [done|]. destruct Hcase as [[_ [[Hb ->]|Hp]]|[Hn ->]].
  - right. destruct (waiting_requests m) as [|n l] eqn:Hq; [done|].
    change (waiting_requests (swept m)) with (waiting_requests m) in Hb. rewrite Hq in Hb.
    apply Forall_cons in Hb as [[t Ht] _]. exists (dhcid_ n), t. split; [done|].
    apply map_lookup_filter_Some in Ht as [Ht Hd]. by apply (unfinished_waits (dhcid_ n) t m).
  - left. destruct Hp as (l1 & n & l2 & l' & _ & _ & _ & _ & ->). by exists n.
  - right. assert (unfinished (transactions m) ≠ ∅) as Hun.
    { intros E0. apply Hn. split; [done|]. rewrite E0, map_size_empty. apply (mo_max _ Hm). }
    apply map_choose in Hun as (key & t & Ht). exists key, t. split; [done|].
    apply map_lookup_filter_Some in Ht as [Ht Hd]. by apply (unfinished_waits key t m).
Qed.

(** ** The process *)

Definition d2_ok (p : D2Process) : Prop := managers_ok (managers_ p).

(** The events that can come: a read or an exchange ends that is under way, and a request
    that is received has a name, which the decoding of a datagram checks. *)
Definition can_happen (e : Event) (p : D2Process) : Prop :=
  match e with
  | ReadEnded c =>
      possible c (process_queue p) ∧
      match c with Datagram (Some n) => valid_request n | _ => True end
  | ExchangeEnded key status response =>
      ∃ t a, transaction_list_ (process_updates p) !! key = Some t ∧ transaction_done t = false ∧
             reports a status response
  | ShutdownCommand _ | ConfigureCommand _ _ => True
  end.

Lemma managers_with_queue m q' ns :
  managers_ok m → queue_gets ns (queue_mgr_ m) q' → queue_ok q' → Forall valid_request ns →
  managers_ok (with_queue_mgr q' m).
Proof.
  intros [Hq Hv Hl Hm Ht] Hg Hok Hns. split; [done| |done|done|done].
  destruct Hg as (_ & E & _). unfold waiting_requests in *. cbn. rewrite E. by apply Forall_app.
Qed.

Lemma managers_same_queue m q' :
  managers_ok m → same_queue (queue_mgr_ m) q' → queue_ok q' → managers_ok (with_queue_mgr q' m).
Proof.
  intros Hm Hs Hok. eapply managers_with_queue; [done|by apply same_queue_gets|done|done].
Qed.

Lemma exchange_ok key status response a t m :
  managers_ok m → transactions m !! key = Some t → transaction_done t = false →
  reports a status response →
  ∃ m', exchange_done key status response m = (m', Ok tt) ∧ managers_ok m' ∧
    queue_mgr_ m' = queue_mgr_ m.
Proof.
  intros Hm Hk Hd Ha. destruct (io_completed_ok key t status response a) as (t' & E & Ht');
    [by apply Hm|done|done|].
  exists (with_list (<[key := t']> (transactions m)) m). split.
  - unfold exchange_done. run_m. unfold transactions in *. rewrite Hk. by rewrite E.
  - split; [|done].
    destruct Hm as [Hq Hv Hl Hmx Ht]. split; [done|done| |done|by apply map_Forall_insert_2].
    unfold transactions in *. cbn. rewrite map_size_insert, Hk. exact Hl.
Qed.

Lemma handle_ok e p :
  d2_ok p → can_happen e p →
  ∃ p' r, handle e p = (p', r) ∧
    (r = Ok tt ∧ d2_ok p' ∨ e = ReadEnded (Datagram None) ∧ r = Throw NcrUDPError).
Proof.
  intros Hp He. destruct e as [c|key status response|type|parsed check_only].
  - destruct He as [Hposs Hv].
    destruct (receiveCompletionHandler_run c (process_queue p) (mo_queue _ Hp) Hposs)
      as (q' & r & E & Hg & Hcase & _).
    exists (with_managers (with_queue_mgr q' (managers_ p)) p), r. split.
    { unfold handle, queue_call, in_managers, in_queue, zoom. unfold process_queue in E. by rewrite E. }
    destruct Hcase as [[-> Hok]|[-> ->]]; [left|by right]. split; [done|].
    eapply managers_with_queue; [exact Hp|exact Hg|exact Hok|].
    unfold received. destruct c as [[n|]| |]; [|constructor..].
    destruct (_ <? _)%nat; [by constructor|constructor].
  - destruct He as (t & a & Hk & Hd & Ha).
    destruct (exchange_ok key status response a t (managers_ p) Hp Hk Hd Ha) as (m' & E & Hm' & _).
    exists (with_managers m' p), (Ok tt). split; [|by left].
    unfold handle, in_managers, zoom. by rewrite E.
  - unfold handle, shutdown. unfold mbind, ST_bind, get, put.
    destruct type; repeat case_match; do 2 eexists; (split; [reflexivity|by left]).
  - unfold handle, configure. destruct check_only; [do 2 eexists; split; [reflexivity|by left]|].
    destruct parsed as [[cfg params]|]; do 2 eexists; (split; [reflexivity|]); left; (split; [done|]);
      by destruct Hp.
Qed.

(** *** The iterations of the loop *)

Definition with_process_queue q (p : D2Process) : D2Process :=
  with_managers (with_queue_mgr q (managers_ p)) p.

Lemma run_queue_call {A} (f : ST D2QueueMgr A) p q' (r : res A) :
  f (process_queue p) = (q', r) → queue_call f p = (with_process_queue q' p, r).
Proof.
  intros E. unfold queue_call, in_managers, in_queue, zoom. unfold process_queue in E. by rewrite E.
Qed.

Lemma d2_same_queue p q' :
  d2_ok p → same_queue (process_queue p) q' → queue_ok q' → d2_ok (with_process_queue q' p).
Proof. apply managers_same_queue. Qed.

Lemma run_reconfigureQueueMgr p :
  d2_ok p → stopped (mgr_state_ (process_queue p)) = true →
  ∃ q', reconfigureQueueMgr p = (with_process_queue q' (with_reconf false p), Ok tt) ∧
    same_queue (process_queue p) q' ∧ queue_ok q' ∧
    (mgr_state_ q' = RUNNING ∨ mgr_state_ q' = INITTED).
Proof.
  intros Hp Hs. set (p0 := with_reconf false p).
  destruct (removeListener_ok (process_queue p) (mo_queue _ Hp) Hs)
    as (q1 & E1 & S1 & Ok1 & St1 & _).
  destruct (initUDPListener_ok q1 (params_ip_address_ (d2_params_ p)) (params_port_ (d2_params_ p)) Ok1 St1)
    as (q2 & l & E2 & S2 & Ok2 & St2 & L2 & _).
  destruct (startListening_ok q2 l Ok2) as (q3 & r & E3 & S3 & Ok3 & Hcase);
    [by rewrite St2|done|].
  exists q3. split.
  - unfold reconfigureQueueMgr. unfold mbind at 1, ST_bind at 1, modify. fold p0.
    unfold try_catch. unfold mbind at 1, ST_bind at 1. rewrite (run_queue_call _ p0 _ _ E1).
    unfold mbind at 1, ST_bind at 1, get. unfold mbind at 1, ST_bind at 1.
    change (d2_params_ (with_process_queue q1 p0)) with (d2_params_ p).
    rewrite (run_queue_call _ (with_process_queue q1 p0) _ _ E2).
    rewrite (run_queue_call _ (with_process_queue q2 (with_process_queue q1 p0)) _ _ E3).
    by destruct Hcase as [[-> _]|[-> _]].
  - split.
    + destruct S1 as (? & ? & ? & ?), S2 as (? & ? & ? & ?), S3 as (? & ? & ? & ?).
      unfold same_queue. split_and!; congruence.
    + split; [done|]. destruct Hcase as [[_ ->]|[_ ->]]; [by left|right; exact St2].
Qed.

Lemma reconfigureQueueMgr_ok p :
  d2_ok p → stopped (mgr_state_ (process_queue p)) = true →
  ∃ p', reconfigureQueueMgr p = (p', Ok tt) ∧ d2_ok p'.
Proof.
  intros Hp Hs. destruct (run_reconfigureQueueMgr p Hp Hs) as (q' & E & Hsq & Hok & _).
  eexists. split; [exact E|]. by apply (d2_same_queue (with_reconf false p)).
Qed.

Lemma checkQueueStatus_ok p :
  d2_ok p → ∃ p', checkQueueStatus p = (p', Ok tt) ∧ d2_ok p'.
Proof.
  intros Hp. unfold checkQueueStatus. unfold mbind at 1, ST_bind at 1, get.
  destruct (mgr_state_ (process_queue p)) eqn:Hs.
  - destruct (reconf_queue_flag_ p); [|by exists p].
    apply reconfigureQueueMgr_ok; [done|by rewrite Hs].
  - destruct (reconf_queue_flag_ p); [|by exists p].
    apply reconfigureQueueMgr_ok; [done|by rewrite Hs].
  - destruct (_ || _); [|by exists p].
    destruct (stopListening_ok (process_queue p) (mo_queue _ Hp) Hs) as (q' & E & Sq & Ok' & _).
    exists (with_process_queue q' p). unfold try_catch. rewrite (run_queue_call _ p _ _ E).
    split; [done|by apply d2_same_queue].
  - by exists p.
  - destruct (_ <=? _)%nat; [|by exists p].
    destruct (listener_ (process_queue p)) as [l|] eqn:Hl.
    2: { pose proof (ok_consistent _ (mo_queue _ Hp)) as Hc. unfold consistent in Hc.
         fold (process_queue p) in Hc. by rewrite Hs, Hl in Hc. }
    destruct (startListening_ok (process_queue p) l (mo_queue _ Hp)) as (q' & r & E & Sq & Ok' & Hcase);
      [by rewrite Hs|done|].
    exists (with_process_queue q' p). unfold try_catch. rewrite (run_queue_call _ p _ _ E).
    split; [by destruct Hcase as [[-> _]|[-> _]]|by apply d2_same_queue].
  - destruct (negb _); [|by exists p]. apply reconfigureQueueMgr_ok; [done|by rewrite Hs].
  - destruct (reconf_queue_flag_ p); [|by exists p].
    apply reconfigureQueueMgr_ok; [done|by rewrite Hs].
Qed.

Lemma look_after_ok p : d2_ok p → ∃ p', look_after p = (p', Ok tt) ∧ d2_ok p'.
Proof.
  intros Hp. destruct (checkQueueStatus_ok p Hp) as (p1 & E1 & Hp1).
  destruct (sweep_ok (managers_ p1) Hp1) as (m' & E & Hm' & _).
  exists (with_managers m' p1). split; [|done].
  unfold look_after. unfold mbind, ST_bind. rewrite E1. unfold in_managers, zoom. by rewrite E.
Qed.

(** *** All runs *)

(** A step of the server: something happens, or the loop comes round. *)
Inductive d2_step (p : D2Process) : D2Process → Prop :=
  | step_event e p' : can_happen e p → handle e p = (p', Ok tt) → d2_step p p'
  | step_loop p' : canShutdown p = false → look_after p = (p', Ok tt) → d2_step p p'.

Definition reachable (p : D2Process) : Prop :=
  ∃ p0, mkD2Process = Ok p0 ∧ rtc d2_step p0 p.

Lemma initial_ok : ∃ p0, mkD2Process = Ok p0 ∧ d2_ok p0.
Proof.
  eexists. split; [reflexivity|]. split; [|constructor| | |].
  - split; [done|apply Nat.le_0_l|apply (Nat.lt_0_succ 1023)|done].
  - exact (Nat.le_0_l 32).
  - apply (Nat.lt_0_succ 31).
  - apply map_Forall_empty.
Qed.

Lemma reachable_ok p : reachable p → d2_ok p.
Proof.
  intros (p0 & E & Hr). destruct initial_ok as (p1 & E1 & Hok). rewrite E in E1. injection E1 as <-.
  clear E. induction Hr as [p|p p1 p2 Hstep _ IH]; [done|]. apply IH. clear IH. destruct Hstep as [e p1 He E|p1 _ E].
  - destruct (handle_ok e p Hok He) as (p2' & r & E' & Hcase). rewrite E in E'. injection E' as <- <-.
    destruct Hcase as [[_ Hok']|[_ Hr]]; [exact Hok'|discriminate Hr].
  - destruct (look_after_ok p Hok) as (p2' & E' & Hok'). rewrite E in E'. by injection E' as <-.
Qed.

(** *** The main loop *)

(** Every event of a batch can come when it comes; an invalid datagram is left out, since
    the next read can be refused. *)
Fixpoint events_can_happen (events : list Event) (p : D2Process) : Prop :=
  match events with
  | [] => True
  | e :: events =>
      can_happen e p ∧ e ≠ ReadEnded (Datagram None) ∧ events_can_happen events (handle e p).1
  end.

Fixpoint batches_can_happen (batches : list (list Event)) (p : D2Process) : Prop :=
  match batches with
  | [] => True
  | events :: batches =>
      canShutdown p = true ∨
      (events ≠ [] ∧ events_can_happen events (look_after p).1 ∧
       batches_can_happen batches (handle_all events (look_after p).1).1)
  end.

Lemma handle_all_reaches events : ∀ p,
  reachable p → events_can_happen events p →
  ∃ p', handle_all events p = (p', Ok tt) ∧ reachable p'.
Proof.
  induction events as [|e events IH]; intros p Hr He; [by exists p|].
  destruct He as (He & Hne & Hes).
  destruct (handle_ok e p (reachable_ok p Hr) He) as (p1 & r & E & [[-> _]|[-> _]]); [|done].
  rewrite E in Hes. cbn in Hes. destruct (IH p1) as (p' & E' & Hr'); [|done|].
  { destruct Hr as (p0 & E0 & Hr). exists p0. split; [done|]. eapply rtc_r; [exact Hr|by eapply step_event]. }
  exists p'. split; [|done]. cbn. unfold mbind, ST_bind. by rewrite E.
Qed.

Lemma run_reaches batches : ∀ p,
  reachable p → batches_can_happen batches p →
  ∃ p', run batches p = (p', Ok tt) ∧ reachable p'.
Proof.
  induction batches as [|events batches IH]; intros p Hr Hb; [by exists p|].
  cbn [run]. unfold mbind at 1, ST_bind at 1, get. cbn [batches_can_happen] in Hb.
  destruct (canShutdown p) eqn:Hs; [by exists p|]. destruct Hb as [Hb|(Hne & He & Hb)]; [done|].
  destruct (look_after_ok p (reachable_ok p Hr)) as (p1 & E1 & _). rewrite E1 in He, Hb. cbn in He, Hb.
  destruct (handle_all_reaches events p1) as (p2 & E2 & Hr2); [|done|].
  { destruct Hr as (p0 & E0 & Hr). exists p0. split; [done|]. eapply rtc_r; [exact Hr|by eapply step_loop]. }
  rewrite E2 in Hb. cbn in Hb. destruct (IH p2 Hr2 Hb) as (p' & E' & Hr').
  exists p'. split; [|done]. unfold mbind at 1, ST_bind at 1, try_catch.
  unfold mbind at 1, ST_bind at 1. rewrite E1. unfold mbind at 1, ST_bind at 1, runIO.
  unfold mbind at 1, ST_bind at 1. rewrite E2. cbn [mret ST_ret].
  destruct events; [done|]. exact E'.
Qed.

(** ** The theorems *)

(** C27: In every state the server can reach, whatever calls to the operating system fail
    (opening, reading and closing a socket included), the request queue and the list of transactions
    are within their limits; a transaction is listed under the client of its request,
    and it either waits for the answer to a message it has sent or is done with its
    request completed or failed; and the queue manager, its listener and the operating
    system agree on whether a read is under way, so that no read ends at a listener
    that has been removed: one read when it runs, none when it has stopped or has not
    started, and one that it waits for while it is stopping, which only after a socket
    could not be closed may be over already. *)
Theorem server_invariant p (Hreach : reachable p) :
  (length (ncr_queue_ (process_queue p)) ≤ max_queue_size_ (process_queue p))%nat ∧
  (transaction_count p ≤ max_transactions_ (process_updates p))%nat ∧
  (∀ key t, transaction_list_ (process_updates p) !! key = Some t →
     dhcid_ (ncr_ (transaction_members t)) = key ∧
     (if transaction_done t
      then status_ (ncr_ (transaction_members t)) = ST_COMPLETED ∨
           status_ (ncr_ (transaction_members t)) = ST_FAILED
      else waits t)) ∧
  consistent (process_queue p).
Proof.
  pose proof (reachable_ok p Hreach) as Hok. split; [apply (mo_queue _ Hok)|].
  split; [exact (mo_limit _ Hok)|]. split; [|apply (mo_queue _ Hok)].
  intros key t Hk. pose proof (mo_transactions _ Hok key t Hk) as Ht. split.
  - destruct t as [s|s]; exact (carried_key key s Ht).
  - destruct (transaction_done t) eqn:Hd; [|by apply (unfinished_waits key t (managers_ p))].
    destruct t as [s|s]; exact (carried_finished key s Ht Hd).
Qed.

(** The requests of a client are taken up in the order in which they were received, and
    none is lost between the two: what was received from it is what has been taken from
    the queue for it, in order, followed by what still waits. *)
Theorem requests_in_order p (Hreach : reachable p) (d : TransactionKey) :
  client d (enqueued_ (process_queue p))
  = client d (dequeued_ (process_queue p)) ++ client d (ncr_queue_ (process_queue p)).
Proof. apply (ok_order _ (mo_queue _ (reachable_ok p Hreach))). Qed.

(** C26: In every state the server can reach, whatever calls to the operating system fail,
    an iteration of the main loop returns, and so
    does the handling of any event that can come then ([can_happen]: only reads and
    exchanges that are under way end, the read of a closed socket as cancelled, and a
    request that was decoded has a name); the only exception that can end
    the server is that of a read refused right after a datagram without a valid
    request. *)
Theorem server_never_fails p (Hreach : reachable p) :
  (∃ p', look_after p = (p', Ok tt)) ∧
  ∀ e, can_happen e p →
    ∃ p' r, handle e p = (p', r) ∧ (r = Ok tt ∨ e = ReadEnded (Datagram None) ∧ r = Throw NcrUDPError).
Proof.
  pose proof (reachable_ok p Hreach) as Hok. split.
  - destruct (look_after_ok p Hok) as (p' & E & _). by exists p'.
  - intros e He. destruct (handle_ok e p Hok He) as (p' & r & E & Hcase).
    exists p', r. split; [done|]. destruct Hcase as [[-> _]|[-> ->]]; auto.
Qed.

(** A sweep removes the transactions that are done, and then starts at most one: when a
    request waits and there are fewer transactions than the limit, it takes the first
    request of a client without a transaction from the queue, which leaves the others
    in their order, and starts a transaction for the domains the request belongs to;
    a request that belongs to none, or asks for nothing the server does, is dropped. *)
Theorem sweep_spec m (Hok : managers_ok m) :
  ∃ m', sweep m = (m', Ok tt) ∧
    let done_removed := filter (λ p, transaction_done p.2 = false) (transactions m) in
    (m' = with_list done_removed m ∧
       (waiting_requests m = [] ∨ (max_transactions_ (update_mgr_ m) ≤ size done_removed)%nat ∨
        Forall (λ n, is_Some (done_removed !! dhcid_ n)) (waiting_requests m))) ∨
    (∃ l1 n l2, waiting_requests m = l1 ++ n :: l2 ∧
       Forall (λ n, is_Some (done_removed !! dhcid_ n)) l1 ∧ done_removed !! dhcid_ n = None ∧
       (size done_removed < max_transactions_ (update_mgr_ m))%nat ∧
       waiting_requests m' = l1 ++ l2 ∧
       match job (cfg_mgr_ m) n with
       | None => transactions m' = done_removed
       | Some (f, r) => ∃ t, started_for n f r t ∧ transactions m' = <[dhcid_ n := t]> done_removed
       end).
Proof.
  destruct (sweep_ok m Hok) as (m' & E & _ & Hcase). exists m'. split; [exact E|].
  destruct Hcase as [[[Hne Hroom] [[Hb ->]|Hp]]|[Hn ->]].
  - left. split; [reflexivity|]. right. right. exact Hb.
  - right. destruct Hp as (l1 & n & l2 & l' & Hq & Hb & Hf & Ht & ->). exists l1, n, l2.
    split; [exact Hq|]. split; [exact Hb|]. split; [by apply eq_None_not_Some|].
    split; [exact Hroom|]. split; [done|]. exact Ht.
  - left. split; [reflexivity|]. destruct (decide (waiting_requests m = [])) as [->|Hne]; [by left|].
    right. left. destruct (decide (size (unfinished (transactions m)) < max_transactions_ (update_mgr_ m))%nat)
      as [Hlt|Hge]; [by destruct Hn|]. unfold unfinished in Hge. lia.
Qed.

(** The server does not get stuck with requests in the queue: after a sweep with a
    request waiting, either a request was taken up, or some transaction waits for the
    answer of a server, and the end of its exchange is an event. *)
Theorem sweep_makes_progress m (Hok : managers_ok m) (Hne : waiting_requests m ≠ []) :
  ∃ m', sweep m = (m', Ok tt) ∧
    ((∃ n, dequeued_ (queue_mgr_ m') = dequeued_ (queue_mgr_ m) ++ [n]) ∨
     ∃ key t, transactions m' !! key = Some t ∧ waits t).
Proof. exact (sweep_progress m Hok Hne). Qed.
(** A server that is stopping to listen and has no read left: nothing it waits for can
    come.  This happens only when a socket could not be closed. *)
Definition deaf (p : D2Process) : Prop :=
  mgr_state_ (process_queue p) = STOPPING ∧ reads_ (process_queue p) = 0%nat.

Lemma deaf_sweep m m' :
  managers_ok m → sweep m = (m', Ok tt) →
  mgr_state_ (queue_mgr_ m') = mgr_state_ (queue_mgr_ m) ∧ reads_ (queue_mgr_ m') = reads_ (queue_mgr_ m) ∧
  enqueued_ (queue_mgr_ m') = enqueued_ (queue_mgr_ m).
Proof.
  intros Hm E. destruct (sweep_ok m Hm) as (m2 & E2 & _ & Hcase). rewrite E in E2. injection E2 as <-.
  destruct Hcase as [[_ [[_ ->]|Hp]]|[_ ->]]; [done| |done].
  by destruct Hp as (l1 & n & l2 & l' & _ & _ & _ & _ & ->).
Qed.

Lemma deaf_event e p p' :
  d2_ok p → deaf p → can_happen e p → handle e p = (p', Ok tt) → process_queue p' = process_queue p.
Proof.
  intros Hp [_ Hr] He E. destruct e as [c|key status response|type|parsed check_only].
  - destruct He as [[Hlt _] _]. lia.
  - destruct He as (t & a & Hk & Hd & Ha).
    destruct (exchange_ok key status response a t (managers_ p) Hp Hk Hd Ha) as (m' & E' & _ & Hq).
    unfold handle, in_managers, zoom in E. rewrite E' in E. by injection E as <-.
  - unfold handle, shutdown in E. unfold mbind, ST_bind, get, put in E.
    destruct type as [text|]; [repeat case_match|]; by injection E as <-.
  - unfold handle, configure, modify, mret, ST_ret in E.
    destruct check_only; [|destruct parsed as [[cfg params]|]]; by injection E as <-.
Qed.

Lemma deaf_loop p p' :
  d2_ok p → deaf p → look_after p = (p', Ok tt) → deaf p' ∧ enqueued_ (process_queue p') = enqueued_ (process_queue p).
Proof.
  intros Hp [Hs Hr] E. unfold look_after, checkQueueStatus in E.
  unfold mbind, ST_bind, get in E. rewrite Hs in E. cbn in E. unfold in_managers, zoom in E.
  destruct (sweep (managers_ p)) as [m' r] eqn:Em. cbn in E. injection E as <- ->.
  destruct (deaf_sweep _ _ Hp Em) as (E1 & E2 & E3). unfold deaf, process_queue in *. cbn.
  by rewrite E1, E2, E3.
Qed.

(** Such a server never receives a request again, whatever happens: neither a new
    configuration nor an iteration of the loop makes it listen. *)
Theorem failed_close_is_final p p' :
  reachable p → deaf p → rtc d2_step p p' →
  deaf p' ∧ enqueued_ (process_queue p') = enqueued_ (process_queue p).
Proof.
  intros Hr Hd Hs. revert Hr Hd. induction Hs as [p|p p1 p2 Hstep _ IH]; [done|]. intros Hr Hd.
  assert (deaf p1 ∧ enqueued_ (process_queue p1) = enqueued_ (process_queue p)) as [Hd1 E1].
  { destruct Hstep as [e p1 He E|p1 _ E].
    - unfold deaf. by rewrite (deaf_event e p p1 (reachable_ok p Hr) Hd He E).
    - by apply deaf_loop; [apply reachable_ok| |]. }
  destruct IH as [Hd2 E2]; [|done|by rewrite E2, E1].
  destruct Hr as (p0 & E0 & Hr). exists p0. split; [done|]. by eapply rtc_r.
Qed.
End Server.

(** ** Runs of a server *)

Section Runs.
Context `{IEquals} {dns : DnsEnv} `{SocketEnv}.

Definition happens (e : Event) (p : D2Process) : D2Process := (handle e p).1.
Definition loops_round (p : D2Process) : D2Process := (look_after p).1.

Lemma reachable_step p p' : reachable p → d2_step p p' → reachable p'.
Proof. intros (p0 & E & Hr) Hs. exists p0. split; [done|]. by eapply rtc_r. Qed.

Lemma happens_reachable e p :
  reachable p → can_happen e p → (handle e p).2 = Ok tt → reachable (happens e p).
Proof.
  intros Hr He E. eapply reachable_step; [exact Hr|]. apply (step_event p e); [done|].
  unfold happens. destruct (handle e p) as [p' r]. cbn in *. by rewrite E.
Qed.

Lemma loops_reachable p :
  reachable p → canShutdown p = false → (look_after p).2 = Ok tt → reachable (loops_round p).
Proof.
  intros Hr Hs E. eapply reachable_step; [exact Hr|]. apply step_loop; [done|].
  unfold loops_round. destruct (look_after p) as [p' r]. cbn in *. by rewrite E.
Qed.

(** A read of a listener with an open socket can end in any way. *)
Lemma can_receive c p :
  (0 <? reads_ (process_queue p))%nat = true →
  (if listener_ (process_queue p) is Some l then asio_socket_ l else true) = true →
  match c with Datagram (Some n) => negb (bool_decide (fqdn_ n = "")) | _ => true end = true →
  can_happen (ReadEnded c) p.
Proof.
  intros Hr Hs Hv. split; [split; [by apply Nat.ltb_lt|]|].
  - intros l Hl Hso. by rewrite Hl, Hso in Hs.
  - destruct c as [[n|]| |]; [|done..]. by apply negb_true_iff, bool_decide_eq_false in Hv.
Qed.

Lemma can_abort p : (0 <? reads_ (process_queue p))%nat = true → can_happen (ReadEnded Aborted) p.
Proof. intros Hr. split; [split; [by apply Nat.ltb_lt|done]|done]. Qed.
End Runs.

(** ** The theorems on a small server *)

Section Sample.
#[local] Instance sample_iequals : IEquals := ascii_IEquals.
#[local] Instance sample_dns : DnsEnv := plain_dns.
(** An operating system that never refuses a call. *)
#[local] Instance plain_sockets : SocketEnv :=
  {| open_ok := λ _, true; close_ok := λ _, true; receive_ok := λ _, true |}.

Definition sample_config : D2CfgMgr :=
  {| forward_mgr_ := setDomains [("example.com.", forward_zone)] new_domain_list;
     reverse_mgr_ := setDomains [("2.0.192.in-addr.arpa.", reverse_zone)] new_domain_list |}.
Definition sample_params : D2Params := {| params_ip_address_ := V4 0x7F000001; params_port_ := 53001 |}.

Definition initial : D2Process :=
  match mkD2Process with
  | Ok p => p
  | Throw _ =>
      {| managers_ := {| queue_mgr_ := {| max_queue_size_ := 1; ncr_queue_ := []; listener_ := None;
             mgr_state_ := NOT_INITTED; target_stop_state_ := NOT_INITTED; reads_ := 0;
             os_calls_ := 0; enqueued_ := []; dequeued_ := [] |};
           update_mgr_ := {| max_transactions_ := 1; transaction_list_ := ∅ |};
           cfg_mgr_ := sample_config |};
         d2_params_ := sample_params; reconf_queue_flag_ := false; shut_down_flag_ := false;
         shutdown_type_ := SD_NORMAL |}
  end.

(** A request of the client [d] for the name [fqdn]. *)
Definition request (d : list Z) (fqdn : string) : NameChangeRequest :=
  {| change_type_ := CHG_ADD; forward_change_ := true; reverse_change_ := true;
     fqdn_ := fqdn; ip_io_address_ := V4 0xC000020A; dhcid_ := d;
     lease_expires_on_ := 5000; lease_length_ := 4000; status_ := ST_NEW |}.
Definition receive (n : NameChangeRequest) : Event := ReadEnded (Datagram (Some n)).

(** A server that listens. *)
Definition listening_server : D2Process :=
  loops_round (happens (ConfigureCommand (Some (sample_config, sample_params)) false) initial).

Lemma initial_reachable : reachable initial.
Proof. exists initial. split; [vm_compute; reflexivity|constructor]. Qed.

Lemma listening_reachable : reachable listening_server.
Proof.
  apply loops_reachable; [|vm_compute; reflexivity..].
  apply happens_reachable; [exact initial_reachable|exact I|vm_compute; reflexivity].
Qed.

Definition busy_server : D2Process :=
  loops_round (happens (receive (request [1] "b.example.com."))
    (happens (receive (request [1] "a.example.com.")) listening_server)).

Lemma busy_reachable : reachable busy_server.
Proof.
  apply loops_reachable; [|vm_compute; reflexivity..].
  apply happens_reachable; [|apply can_receive; vm_compute; reflexivity|vm_compute; reflexivity].
  apply happens_reachable; [exact listening_reachable|apply can_receive; vm_compute; reflexivity
    |vm_compute; reflexivity].
Qed.

Lemma server_invariant_witness :
  reachable busy_server ∧ transaction_count busy_server = 1%nat ∧
  consistent (process_queue busy_server) ∧ mgr_state_ (process_queue busy_server) = RUNNING.
Proof.
  split; [exact busy_reachable|]. split; [vm_compute; reflexivity|]. split; [|vm_compute; reflexivity].
  exact (proj2 (proj2 (proj2 (server_invariant busy_server busy_reachable)))).
Defined.

Lemma requests_in_order_witness :
  reachable busy_server ∧ fqdn_ <$> dequeued_ (process_queue busy_server) = ["a.example.com."] ∧
  client [1] (enqueued_ (process_queue busy_server))
  = client [1] (dequeued_ (process_queue busy_server)) ++ client [1] (ncr_queue_ (process_queue busy_server)).
Proof.
  split; [exact busy_reachable|]. split; [vm_compute; reflexivity|].
  exact (requests_in_order busy_server busy_reachable [1]).
Defined.

Lemma server_never_fails_witness :
  reachable busy_server ∧
  ∃ p' r, handle (ReadEnded Aborted) busy_server = (p', r) ∧
    (r = Ok tt ∨ ReadEnded Aborted = ReadEnded (Datagram None) ∧ r = Throw NcrUDPError).
Proof.
  split; [exact busy_reachable|].
  apply (proj2 (server_never_fails busy_server busy_reachable)).
  apply can_receive; vm_compute; reflexivity.
Defined.

Lemma busy_ok : managers_ok (managers_ busy_server).
Proof. exact (reachable_ok _ busy_reachable). Qed.

Lemma sweep_spec_witness :
  managers_ok (managers_ busy_server) ∧ ∃ m', sweep (managers_ busy_server) = (m', Ok tt).
Proof.
  split; [exact busy_ok|].
  destruct (sweep_spec (managers_ busy_server) busy_ok) as (m' & E & _).
  exists m'. exact E.
Defined.

Lemma sweep_makes_progress_witness :
  (fqdn_ <$> waiting_requests (managers_ busy_server)) = ["b.example.com."] ∧
  ∃ m', sweep (managers_ busy_server) = (m', Ok tt) ∧
    ((∃ n, dequeued_ (queue_mgr_ m') = dequeued_ (queue_mgr_ (managers_ busy_server)) ++ [n]) ∨
     ∃ key t, transactions m' !! key = Some t ∧ waits t).
Proof.
  split; [vm_compute; reflexivity|].
  apply (sweep_makes_progress (managers_ busy_server) busy_ok).
  vm_compute. discriminate.
Defined.

(** ** What the model shows *)

(** A configuration that is refused while the listener is being stopped for an earlier one
    cancels the pending reconfiguration: the listener stays stopped, although nobody
    asked for a shutdown. *)
Definition refused_server : D2Process :=
  happens (ReadEnded Aborted)
    (happens (ConfigureCommand None false)
      (loops_round (happens (ConfigureCommand (Some (sample_config, sample_params)) false)
        listening_server))).

Lemma refused_reachable : reachable refused_server.
Proof.
  apply happens_reachable; [|apply can_abort; vm_compute; reflexivity|vm_compute; reflexivity].
  apply happens_reachable; [|exact I|vm_compute; reflexivity].
  apply loops_reachable; [|vm_compute; reflexivity..].
  apply happens_reachable; [exact listening_reachable|exact I|vm_compute; reflexivity].
Qed.

Theorem refused_configuration_stops_listening :
  reachable refused_server ∧ shut_down_flag_ refused_server = false ∧
  mgr_state_ (process_queue refused_server) = STOPPED ∧ reads_ (process_queue refused_server) = 0%nat ∧
  checkQueueStatus refused_server = (refused_server, Ok tt).
Proof. split; [exact refused_reachable|]. split_and!; vm_compute; reflexivity. Qed.

(** During a normal shutdown the server goes on taking requests from the queue. *)
Definition shutting_server : D2Process :=
  happens (ShutdownCommand (Some "normal"))
    (happens (receive (request [2] "c.example.com.")) busy_server).

Theorem normal_shutdown_takes_requests :
  reachable shutting_server ∧ shut_down_flag_ shutting_server = true ∧
  shutdown_type_ shutting_server = SD_NORMAL ∧
  fqdn_ <$> dequeued_ (process_queue shutting_server) = ["a.example.com."] ∧
  fqdn_ <$> dequeued_ (process_queue (loops_round shutting_server)) = ["a.example.com."; "c.example.com."].
Proof.
  split.
  - apply happens_reachable; [|exact I|vm_compute; reflexivity].
    apply happens_reachable; [exact busy_reachable|apply can_receive; vm_compute; reflexivity
      |vm_compute; reflexivity].
  - split_and!; vm_compute; reflexivity.
Qed.

(** When the one request a sweep takes is dropped, the others stay in the queue with no
    transaction under way: the server waits for an event that has nothing to do with
    them. *)
Definition idle_server : D2Process :=
  loops_round (happens (receive (request [2] "a.example.com."))
    (happens (receive (request [1] "a.example.org.")) listening_server)).

Theorem dropped_request_leaves_others_waiting :
  reachable idle_server ∧
  fqdn_ <$> ncr_queue_ (process_queue idle_server) = ["a.example.com."] ∧
  transaction_count idle_server = 0%nat.
Proof.
  split.
  - apply loops_reachable; [|vm_compute; reflexivity..].
    apply happens_reachable; [|apply can_receive; vm_compute; reflexivity|vm_compute; reflexivity].
    apply happens_reachable; [exact listening_reachable|apply can_receive; vm_compute; reflexivity
      |vm_compute; reflexivity].
  - split; vm_compute; reflexivity.
Qed.

(** A server that stopped listening because its queue was full starts to listen again when
    there is room, also when it has been told to shut down. *)
Theorem full_queue_resumes_during_shutdown p l :
  mgr_state_ (process_queue p) = STOPPED_QUEUE_FULL → listener_ (process_queue p) = Some l →
  listening_ l = false → shut_down_flag_ p = true →
  (length (ncr_queue_ (process_queue p)) ≤ max_queue_size_ (process_queue p) * 80 / 100)%nat →
  mgr_state_ (process_queue (checkQueueStatus p).1) = RUNNING.
Proof.
  destruct p as [[[mx qu li st tg rd os ins outs] u c] pa re sh ty]. cbn [process_queue managers_ queue_mgr_
    mgr_state_ listener_ shut_down_flag_ ncr_queue_ max_queue_size_].
  intros -> -> Hli -> Hlen. destruct l as [li' io so ad po]. cbn in Hli. subst li'.
  unfold checkQueueStatus. unfold mbind at 1, ST_bind at 1, get.
  cbn [process_queue managers_ queue_mgr_ mgr_state_ ncr_queue_ max_queue_size_].
  unfold QUEUE_RESTART_PERCENT. rewrite (proj2 (Nat.leb_le _ _) Hlen). reflexivity.
Qed.
End Sample.

(** *** A socket that cannot be closed *)

Section Unclosable.
#[local] Instance unclosable_iequals : IEquals := ascii_IEquals.
#[local] Instance unclosable_dns : DnsEnv := plain_dns.
#[local] Instance unclosable_sockets : SocketEnv :=
  {| open_ok := λ _, true; close_ok := λ _, false; receive_ok := λ _, true |}.

Definition configured : Event := ConfigureCommand (Some (sample_config, sample_params)) false.

(** A server that listens is configured again, so that it stops to listen, and a request
    comes before it has stopped. *)
Definition deaf_server : D2Process :=
  happens (receive (request [1] "a.example.com."))
    (loops_round (happens configured (loops_round (happens configured initial)))).

Lemma deaf_reachable : reachable deaf_server.
Proof.
  apply happens_reachable; [|apply can_receive; vm_compute; reflexivity|vm_compute; reflexivity].
  do 2 (apply loops_reachable; [|vm_compute; reflexivity..];
        apply happens_reachable; [|exact I|vm_compute; reflexivity]).
  exists initial. split; [vm_compute; reflexivity|constructor].
Qed.

(** The request is taken, and the server never listens again, although a configuration was
    to make it do so: the manager is asked to wait for a read that is over. *)
Theorem failed_close_makes_server_deaf :
  reachable deaf_server ∧ deaf deaf_server ∧ reconf_queue_flag_ deaf_server = true ∧
  ∀ p, rtc d2_step deaf_server p → deaf p ∧ enqueued_ (process_queue p) = [request [1] "a.example.com."].
Proof.
  split; [exact deaf_reachable|]. split; [split; vm_compute; reflexivity|].
  split; [vm_compute; reflexivity|]. intros p Hs.
  destruct (failed_close_is_final deaf_server p deaf_reachable) as [Hd E];
    [split; vm_compute; reflexivity|exact Hs|].
  split; [exact Hd|]. rewrite E. vm_compute. reflexivity.
Qed.
End Unclosable.
