(* ===== verification/Dhcpv4Findings.v ===== *)
(** * Runs of the DHCPv4 server that end in another way than its comments say

    Each theorem runs the small server of [Dhcpv4Correct] on one message. *)

From S2P Require Import Prelude IoAddress Pool Subnet SharedNetwork StatsMgr Lease LeaseMgr Host.
From S2P Require Import CfgHosts CsvLeaseFile4 LeaseStorage MemfileLeaseMgr.
From S2P Require Import DnsName Option4ClientFqdn D2ClientMgr Packet OptionSpace CfgOption CfgSubnets Token Eval ClientClass Classify.
From S2P Require Import EngineHeap AllocEngine4 AllocEngine4Safety AllocEngine4Correct Reclamation.
From S2P Require Import Dhcpv4Msg Dhcpv4Srv Dhcpv4Return Dhcpv4Correct.
Import ServerSample.
Local Open Scope Z_scope.

#[local] Existing Instance plain_engine.
#[local] Instance memory_leases : LeaseMgr (Memfile4 ListStorage4) := memfile_lease_mgr (λ _, true).
#[local] Instance no_hosts : HostMgr := cfg_host_mgr empty_cfg.
#[local] Existing Instances Sample.conversions no_text.

Definition no_options : Dhcpv4Config := plain_config mkCfgOption.

(** A client that has a lease of the server sends a DHCPREQUEST for an address it may not have;
    the DHCPNAK goes to the address in [ciaddr], where the comment says that a DHCPNAK is
    broadcast. *)
Theorem nak_is_sent_to_ciaddr :
  let s := idle_server [lease_of 2 0xC000020A 1 5000] in
  let q := query DHCPREQUEST 1 (V4 0xC000020A) IPV4_ZERO_ADDRESS [] in
  ∃ r, (@handle_packet _ _ _ _ no_options _ _ _ q false s).2 = Ok (Send r) ∧
    rsp_type r = DHCPNAK ∧ r_remote_addr_ (target r) = V4 0xC000020A.
Proof. eexists. split; [|split]; vm_compute; reflexivity. Qed.

(** Two vendor options in the configuration. *)
Definition vendor_options : CfgOption :=
  {| cfg_options_ := ∅;
     vendor_options_ := {[4491 := [sample_desc 2 [1] false; sample_desc 122 [2] false]]} |}.
Definition vendor_query (codes : list Z) : Option :=
  byte_option DHO_VIVSO_SUBOPTIONS (OptionVendor 4491) []
    [byte_option DOCSIS3_V4_ORO (OptionUint8Array codes) codes []].

(** A client that asks for two vendor options gets no response to its DHCPREQUEST, and has the
    lease nevertheless; with one of them it gets its response. *)
Theorem second_vendor_option_drops_response :
  let s := idle_server [] in
  let q codes := query DHCPREQUEST 1 IPV4_ZERO_ADDRESS IPV4_ZERO_ADDRESS
                   [server_id; requested 0xC000020B; vendor_query codes] in
  let run codes := @handle_packet _ _ _ _ (plain_config vendor_options) _ _ _ (q codes) false s in
  (run [2; 122]).2 = Ok NoAnswer ∧
  is_Some (lm_leases (db (run [2; 122]).1) !! V4 0xC000020B) ∧
  sent (run [2]).2 = Some (DHCPACK, V4 0xC000020B).
Proof. cbv zeta. split; [|split]; [vm_compute; reflexivity|eexists; vm_compute; reflexivity|vm_compute; reflexivity]. Qed.

(** A hostname of 255 characters in a DHCPDISCOVER ends the server: the failing assertion of
    [DnsName.long_hostname_aborts] is not an exception that [processClientName] catches. *)
Theorem long_hostname_ends_server :
  let q n := query DHCPDISCOVER 1 IPV4_ZERO_ADDRESS IPV4_ZERO_ADDRESS
               [byte_option DHO_HOST_NAME OptionString (single_letters n) []] in
  let run n := (@handle_packet _ _ _ _ no_options _ _ _ (q n) false (idle_server [])).2 in
  run 127%nat = Throw AssertionFailure ∧ sent (run 126%nat) = Some (DHCPOFFER, V4 0xC000020A).
Proof. split; vm_compute; reflexivity. Qed.

(** The identifier for a "circuit-id" reservation is suboption 6 of the relay agent option, which
    RFC 3993 and the comments next to the constants call the subscriber identifier; suboption
    1, the circuit identifier of RFC 3046, is not looked at. *)
Theorem circuit_id_is_suboption_6 (rai : Option) (q : Query) (clientid : option (list Z))
    (Hrai : q_option q DHO_DHCP_AGENT_OPTIONS = Some rai) :
  @identifier_of no_options q clientid IDENT_CIRCUIT_ID =
  match suboption rai 6 with
  | Some o => if bool_decide (option_data_ o = []) then None else Some (IDENT_CIRCUIT_ID, option_data_ o)
  | None => None
  end.
Proof. cbn. by rewrite Hrai. Qed.

(** The subnet is only for the members of a class. *)
Definition for_class (c : string) (s : Subnet) : Subnet :=
  {| kind := kind s; id_ := id_ s; prefix_ := prefix_ s; subnet_len_ := subnet_len_ s;
     pools_ := pools_ s; pools_ta_ := pools_ta_ s; pools_pd_ := pools_pd_ s;
     last_allocated_ia_ := last_allocated_ia_ s; last_allocated_ta_ := last_allocated_ta_ s;
     last_allocated_pd_ := last_allocated_pd_ s; last_allocated_time_ := last_allocated_time_ s;
     shared_network_ := shared_network_ s; client_class_ := c;
     net_t1_ := net_t1_ s; net_t2_ := net_t2_ s; preferred_ := preferred_ s; valid_ := valid_ s;
     host_reservation_mode_ := host_reservation_mode_ s; match_client_id_ := match_client_id_ s |}.
Definition restricted_heap : Heap :=
  {| subnets := <[10 := for_class "gold" sample_subnet]> (subnets (heap_of false HR_ALL HR_ALL));
     networks := ∅ |}.

(** A callout of [subnet4_select] may choose a subnet the client's classes do not allow.
    Then the engine leaves no subnet in its context, and the server takes the identifier of
    the null pointer; without the callout the message is dropped or refused. *)
Theorem chosen_subnet_ends_server :
  let choose := config mkCfgOption (sample_d2_config false false RCM_NEVER)
                  (λ _ _, (NEXT_STEP_CONTINUE, Some 10)) in
  let q := query DHCPREQUEST 1 IPV4_ZERO_ADDRESS IPV4_ZERO_ADDRESS [server_id] in
  let s := server restricted_heap [] (message 0 IPV4_ZERO_ADDRESS true) in
  (@handle_packet _ _ _ _ choose _ _ _ q false s).2 = Throw AssertionFailure ∧
  sent (@handle_packet _ _ _ _ no_options _ _ _ q false s).2 = Some (DHCPNAK, IPV4_ZERO_ADDRESS).
Proof. split; vm_compute; reflexivity. Qed.
